(* ===== verification/_CoqProject ===== *)
-Q . S2P
Prelude.v
TimeWheel.v
GoStrings.v
Hash.v
Utils.v
Sharded.v
ShardMap.v
SegmentMap.v
Checker.v
MemoryChecker.v
BeatCache.v
BatchJob.v
LeaderChecker.v
LeaderBatch.v
RedisPool.v
RedisChecker.v
HealthCache.v
Scheduler.v
Dispatcher.v
Server.v
SelfCheck.v
BaseCache.v
InstanceCache.v
UserCache.v
StrategyCache.v
Cipher.v
Token.v
AuthCheck.v
ConnLimit.v
RateLimit.v
EventHub.v
Effects.v
Registry.v
Services.v
Namespace.v
InstanceStore.v
ServiceStore.v
L5.v
BoltStore.v
BoltServices.v
Api.v
NamespaceServer.v
ServiceServer.v
InstanceServer.v
InstanceBatch.v
BoltRegistry.v
RegistryIntegrity.v
BoltIntegrity.v
ServiceCache.v
CacheManager.v
Discovery.v
DiscoveryCases.v
RuleCache.v
RuleStore.v
RuleServer.v
RuleIntegrity.v
RuleDiscovery.v
RuleCases.v
ConfigFiles.v
ConfigStore.v
ConfigServer.v
ConfigPublish.v
ConfigGroup.v
FileCache.v
ConfigWatch.v
ConfigScan.v
ConfigCenter.v
AccountStore.v
AccountApi.v
UserServer.v
GroupServer.v
StrategyServer.v
AccountMachine.v
AccountIntegrity.v
AccountCases.v
