(* ===== verification/Prelude.v ===== *)
(** * Polaris: a verification development

    Polaris is a service registry and a configuration centre.  Instances register
    and report heartbeats; a cluster of servers shares the work of checking them,
    and a server that finds an instance silent marks it unhealthy, so that clients
    are no longer sent to it.  Configuration files are published in versions, and
    the clients that wait for a file are told.  Every server answers from caches
    that follow the store, decides from them who may change what, and bounds the
    connections and calls it accepts.
    This development models these subsystems and proves them correct:

    - the registry: instances, services, aliases and namespaces, from the API's
      handlers in [src/service] and [src/namespace] down to the rows of
      [src/store/boltdb];
    - the configuration centre: files, groups, tags, releases and the clients that
      watch them, [src/config], [src/cache/config_file.go] and the tables of
      [src/store/boltdb];
    - health checking: [src/service/healthcheck], the heartbeat checkers of
      [src/plugin/healthchecker] and the parts of [src/common] below them;
    - the resource caches of instances, services, users, strategies and rules:
      [src/cache];
    - discovery, what clients are answered from them: [src/service/client_v1.go];
    - circuit-breaking and fault-detection rules: [src/service], [src/cache] and
      their tables in [src/store/boltdb];
    - authorization and the management of users, groups and strategies:
      [src/auth/defaultauth], their tables in [src/store/boltdb] and
      [src/plugin/crypto];
    - limits: [src/common/conn/limit] and [src/plugin/ratelimit];
    - the event hub: [src/common/eventhub].

    ** How the parts interact

    A request to change the registry reaches a handler ([InstanceServer.v],
    [ServiceServer.v], [NamespaceServer.v]) that checks it ([Registry.v],
    [Services.v], [Namespace.v]), asks the store what it refers to, writes rows
    and announces what it did; registering the first instance of a service
    creates the service, which creates its namespace.  Asynchronous
    registrations wait in batches ([InstanceBatch.v]).  The store is an
    interface with laws ([InstanceStore.v], [ServiceStore.v]) of which the
    boltdb store is an instance ([BoltStore.v], [BoltServices.v], with the
    sequence of [L5.v] for generated names); what the handlers keep true
    together is [RegistryIntegrity.v], and [BoltRegistry.v] and
    [BoltIntegrity.v] run them on it.

    The API hands heartbeats to the server ([Server.v]), which forwards each to
    the checker of the instance's type.  A checker keeps the time of the last
    report: in memory ([MemoryChecker.v]), in the memory of an elected leader
    that the other servers reach in batches ([LeaderChecker.v], [LeaderBatch.v]
    over [BatchJob.v], [BeatCache.v]), or in redis ([RedisChecker.v] over
    [RedisPool.v]).  The instance cache ([InstanceCache.v], over [BaseCache.v])
    polls the store and tells its listeners of every instance; one of them is
    the provider ([HealthCache.v]), from which the dispatcher ([Dispatcher.v])
    puts the healthy servers on a hash ring ([Hash.v]) and gives the scheduler
    ([Scheduler.v]) the instances whose hash falls to its own server; the
    scheduler keeps a pending check for each on a timing wheel ([TimeWheel.v]),
    asks the checker, and writes a changed status to the store, whence the
    caches of all servers learn it.  The polaris servers themselves are checked
    by the elected leader ([SelfCheck.v]).  Leader changes and instance events
    travel over the event hub ([EventHub.v]).

    Clients discover services ([Discovery.v]) from two caches: the service cache
    ([ServiceCache.v]), which fetches services as the instance cache does instances
    and whose objects its readers share, finds the service of a name or an alias;
    the instance cache has its instances.  What the client already has is told
    from a revision.  The manager of the caches ([CacheManager.v]) keeps one for
    each service: updates of the two caches send notifications, and workers
    compute the revision anew for each.

    Circuit-breaking and fault-detection rules are made and changed by the
    handlers of [RuleServer.v] on the tables of [RuleStore.v], from which the
    caches of [RuleCache.v] fetch them and sort out which are meant for a service;
    clients ask for them ([RuleDiscovery.v]) as they do for instances.

    Configuration files are created, changed, published and deleted by the
    handlers of [ConfigServer.v] on the transactions and tables of
    [ConfigStore.v]; making a file makes its group and its namespace.  Clients are
    answered from a cache of releases ([FileCache.v]) that a load fills from the
    store.  A client that has the latest waits on a channel ([ConfigWatch.v]); the
    scanner ([ConfigScan.v]) finds new releases in the store, renews the cache and
    queues them for the notifier, which answers the clients that wait.

    A request carries a token ([Token.v] over [Cipher.v]); the auth checker
    ([AuthCheck.v]) finds its owner in the user cache ([UserCache.v]) and the
    resources it may change in the strategy cache ([StrategyCache.v]), which
    asks the user cache for groups and owners.  Users, groups and strategies are
    made, changed and deleted by the account API ([UserServer.v],
    [GroupServer.v], [StrategyServer.v] on the requests, checks and steps of
    [AccountApi.v]), whose handlers are let through by the same auth checker and
    write the tables of [AccountStore.v], from which the caches fetch: a login
    answers the token that the next request carries.  Before that, the listener has
    limited the connections of its host ([ConnLimit.v]) and the rate limiter its
    calls ([RateLimit.v]).

    ** The files

    - [Prelude.v] (this file): Go's outcomes ([Ret] or a panic), results,
      machine integers with their wrap-around ([wrap_u], [wrap_i]), indexing,
      the hint databases and tactics the components share.
    - [GoStrings.v]: the functions of [strings], [strconv] and [fmt] the code
      calls, with their lemmas.
    - [TimeWheel.v]: [common/timewheel/timewheel.go]; slots are lists, a tick is
      [taskRunner].
    - [Hash.v]: [common/hash/ketama.go], [fnv32.go]; SHA-1 is executable, the
      ring is a sorted list of points.
    - [Sharded.v], [ShardMap.v], [SegmentMap.v]: the two sharded maps
      ([service/healthcheck/shardmap.go], [common/utils/map.go]) and what they
      have in common: each key has a home shard.
    - [Utils.v]: [common/utils]: request checks, instance ids, pages,
      wildcards, file ids.
    - [Checker.v]: the plugin interface ([plugin/healthchecker.go]) as the class
      [HealthChecker], and what a heartbeat checker promises, as the class
      [HeartbeatContract].
    - [MemoryChecker.v], [LeaderChecker.v], [RedisChecker.v]: the three
      checkers; the first two are instances of the contract.
    - [BeatCache.v], [BatchJob.v], [LeaderBatch.v], [RedisPool.v]: what they are
      built on.  The batch controller is a state machine whose steps are the
      communications of its goroutines.
    - [HealthCache.v], [Scheduler.v], [Dispatcher.v], [Server.v],
      [SelfCheck.v]: [service/healthcheck], file by file.
    - [BaseCache.v]: [cache/cache.go], [cache/listener.go]: the polling every
      resource cache shares, and the revision of a service.
    - [InstanceCache.v], [UserCache.v], [StrategyCache.v]: the three caches,
      from the rows of a fetch to what readers see, with the boltdb store's side
      of the instance fetch.
    - [Cipher.v]: what the code uses of Go's [crypto/aes], [crypto/cipher] and
      [encoding/base64]; the modes are proved over the class [BlockCipher].
    - [Token.v]: [plugin/crypto/aes/aes.go] and [auth/defaultauth/token.go].
    - [AuthCheck.v]: [auth/defaultauth]: credentials, permissions, and the links
      of created and deleted resources.
    - [ConnLimit.v]: [common/conn/limit]; counters live in a heap, since they are
      shared by pointer.
    - [RateLimit.v]: [plugin/ratelimit]; buckets and the LRU cache are the
      classes [RateLimiter] and [LRU] with their laws.
    - [EventHub.v]: [common/eventhub]; goroutines are steps.
    - [Effects.v]: calls that change a world, fail with a response or panic, and
      the total-correctness predicate [ends] with a rule for each construct.
    - [Registry.v], [Services.v], [Namespace.v]: [common/model] and the checks
      and conversions of [service/instance.go], [service/service.go],
      [service/service_alias.go]: how a request becomes a row and what an update
      changes in one.
    - [InstanceStore.v], [ServiceStore.v]: the classes [InstanceStorage] and
      [ServiceStorage], the part of [store/discover_api.go] the handlers call,
      and their laws over an abstract catalogue of rows.
    - [L5.v], [BoltStore.v], [BoltServices.v]: [store/boltdb]: the handler, where
      any transaction may fail; the tables of instances, services, namespaces and
      the l5 sequence; the instances of the two classes with their laws.
    - [Api.v]: [common/api/v1/response.go] and the state of the server: the
      store, the events published, the history; what all handlers share.
    - [NamespaceServer.v]: [namespace/namespace.go]; [ServiceServer.v]:
      [service/service.go] and [service_alias.go]; [InstanceServer.v]:
      [service/instance.go]; [InstanceBatch.v]: [service/batch].
    - [RegistryIntegrity.v]: the requests of a client as one type, the invariant
      [referential] and what serving any sequence of requests keeps.
    - [BoltRegistry.v], [BoltIntegrity.v]: the handlers run on the boltdb store:
      the theorems at concrete requests, and the histories they do not cover.
    - [ConfigFiles.v]: [common/model/config_file.go], [config/utils] and the
      conversions and checks of [src/config]; MD5 is executable.
    - [ConfigStore.v]: [store/boltdb/config_file*.go], [bolt_common.go], [tx.go]:
      the tables, the transaction a context may hold, and their laws.
    - [ConfigServer.v]: the handlers of [src/config]: files, tags, encryption,
      groups, releases and their history.
    - [ConfigPublish.v]: what publishing and deleting do, and what any sequence of
      requests keeps of the releases; [ConfigGroup.v]: deleting a group ends.
    - [FileCache.v]: [cache/config_file.go] and [config/client_config_file.go].
    - [ConfigWatch.v]: [config/watcher.go], [connection_manager.go];
      [ConfigScan.v]: [config/scanner.go], [event.go].
    - [ConfigCenter.v]: the theorems at concrete requests, and what the
      configuration centre does not do.
    - [ServiceCache.v]: [cache/service.go], [service_bucket.go]; the objects that
      the tables and the readers share are in a heap.
    - [CacheManager.v]: [cache/cache.go], [default.go]: the revision workers as a
      transition system with the updates and the readers.
    - [Discovery.v]: [service/client_v1.go], the answers about services and
      instances; [DiscoveryCases.v]: the theorems on small stores, and what
      discovery does not do.
    - [RuleCache.v]: [cache/circuitbreaker_config.go] and [faultdetect.go], which
      are one code with two parameters.
    - [RuleStore.v]: [store/boltdb/circuitbreaker_rule.go], [faultdetector.go].
    - [RuleServer.v]: [service/circuitbreaker_rule.go], [faultdetect_config.go]:
      the handlers over the class [RuleKind], with its two instances;
      [RuleIntegrity.v]: its laws, what the handlers do, and the names of rules.
    - [RuleDiscovery.v]: the rest of [service/client_v1.go] about these rules;
      [RuleCases.v]: the theorems on small stores, and what the rules do not do.
    - [AccountStore.v]: [store/boltdb/user.go], [group.go], [strategy.go] and the
      account of [default.go]; what each call does to the three tables.
    - [AccountApi.v]: [auth/defaultauth/utils.go] with its regular expressions
      and the language they accept, [common/api/v1/auth_response.go], the requests, and the server.
    - [UserServer.v], [GroupServer.v], [StrategyServer.v]: the handlers of
      [auth/defaultauth/user.go], [group.go], [strategy.go] and, behind
      [verified], those of the [_authability.go] files ([ViewGroup] is
      [GetGroup], whose name the cache has).
    - [AccountMachine.v]: the abstract machine of the account API and the
      refinement; [AccountIntegrity.v]: its invariant, confinement, and what
      creating, deleting and changing an account mean afterwards.
    - [AccountCases.v]: the theorems on the store as it starts, and what the
      account API does not do.

    Definitions keep the names of the code; a record stands for a struct, a
    function from state to [outcome] of state for a method; where a panic comes
    after writes that stay, it is a result that keeps the state ([Effects.v]).  A lock makes a
    method one step; goroutines and channels are explicit steps or queues, and
    the theorems quantify over their order.  The order in which Go ranges over a
    map is the order of a list the model is given.  The clock, random numbers and
    what networks, redis and the store answer are arguments.

    ** What the theorems show

    - The registry keeps its references: after any sequence of admissible requests
      (one at a time, with new ids, a true cache and aliases that are aliases),
      whichever transactions fail but the reads of a service's deletion, every
      instance belongs to a service that is there, every
      service to a namespace, every alias to a service that is no alias, and names
      are unique ([RegistryIntegrity.v]); every such request is answered, none
      panics.  What is not admissible, and why, is shown in [BoltIntegrity.v].
    - A handler does what it answers: success means that the row is there with
      what the request says and nothing else changed, and the event is
      published; anything else means that nothing changed but what automatic
      creation is allowed to add, that a registration which failed may have removed
      the instance it was to replace, or that a hook failed after the write
      ([InstanceServer.v], [ServiceServer.v], [NamespaceServer.v]).  In a batch each caller gets the answer that is true
      of its own request ([InstanceBatch.v]).
    - The boltdb store keeps what the handlers rely on, with transactions that
      fail at any point ([BoltStore.v], [BoltServices.v]); generated names do not
      repeat ([L5.v]).
    - A release is what its version says: however files are created, changed,
      published and deleted, and whichever transactions fail, as long as every
      request is answered, a version stands for one content and versions never
      decrease; publishing releases the file as it is in the next version; deleting
      a file is all or nothing if its transaction can be started, and panics half
      way if it cannot ([ConfigPublish.v], [ConfigCenter.v]); deleting a group ends
      ([ConfigGroup.v]).
    - Clients get releases: the cache holds nothing else, however loads, requests
      and expiries interleave, and clients are answered from it or from the store
      if they have seen a later version - which then may have none, and the answer
      is an empty file ([FileCache.v]).
    - Clients are told: one that asks to wait is answered or waits; a scan and the
      notifier, with nobody coming in between and room in the queue, tell exactly
      those for whom there is news ([ConfigScan.v]); a client
      that waits is answered once, by a release or by the timeout, and neither
      blocks or panics unless they overlap ([ConfigWatch.v]).
    - From heartbeat to status: a report reaches the checker the scheduler
      asks, and no check within the expiry takes the instance down
      ([Server.v]); with any checker that keeps the contract a live instance is
      never turned unhealthy and a silent one is ([Checker.v],
      [Scheduler.v]); the leader takes down exactly the silent polaris servers
      ([SelfCheck.v]).
    - Nothing is forgotten or done twice: every scheduled instance has a check
      to come within a bounded number of ticks ([Scheduler.v]), over a wheel
      that refines a delay queue ([TimeWheel.v]); every instance is checked by
      exactly one of the healthy servers ([Dispatcher.v], [Hash.v]); the
      provider mirrors the cache and announces its changes ([HealthCache.v]);
      the batch controller loses no future ([BatchJob.v], [LeaderBatch.v]); the
      hub hands every event to every subscriber once, and is done after a
      bounded number of steps ([EventHub.v]).
    - The implementations agree: the leader's checker simulates the in-memory
      one ([LeaderChecker.v]), redis gives the same verdicts
      ([RedisChecker.v]), a retried redis write counts once ([RedisPool.v]),
      the sharded maps are maps ([ShardMap.v], [SegmentMap.v]), and servers
      whose clocks differ stamp reports alike ([Server.v]).
    - The caches follow the store: after a fetch the instance cache holds the
      store's valid instances, its views agree with one another, its counts add
      up, and the health checker's provider follows it ([InstanceCache.v]);
      membership and links agree with the groups and strategies they come from
      ([UserCache.v], [StrategyCache.v]).
    - Discovery answers the store: the service cache follows the store through
      fetches, failures, readers and clearing ([ServiceCache.v]); the kept
      revisions become those of what is cached, unless two workers race for one
      service ([CacheManager.v]); a client is given exactly the valid instances of
      the service it names, and, once the workers are done, told that nothing changed
      exactly when that is so ([Discovery.v]).
    - The rules that are cached for a service are those that are meant for it
      ([RuleCache.v]), and clients get them ([RuleDiscovery.v]); the valid rules of
      a namespace have different names, whichever transactions fail
      ([RuleIntegrity.v]).
    - Authorization is sound and complete: a write is allowed only to an
      operator whose token is its account's own and who may change every resource,
      by a strategy or because no strategy names it - in which case, outside strict
      mode, so may the anonymous caller -, and then it is allowed ([AuthCheck.v],
      [StrategyCache.v]); a token decodes to the account it was made for, under an id
      without colons and slashes ([Token.v]).
    - Accounts are kept in order: every write of the account API is a transition
      of a machine whose rules say who may do what to whom ([AccountMachine.v]),
      nobody changes accounts but his own and those below him or gives himself
      rights, and each account has one default strategy for as long as it lives,
      whatever fails, as long as new accounts get ids that are new.  A new account,
      a new password, a new token and a deletion mean what they say for the next
      login and request, once the caches have them ([AccountIntegrity.v]).
    - Limits hold: never more connections than allowed, in all or for a host that
      is not white-listed, of those whose address is host:port, as long as the purge
      does not come into the middle of an accept ([ConnLimit.v]); never more calls
      than the rate allows, while no key is evicted from the cache ([RateLimit.v]).
    - Data: instance ids identify instances, wildcards are globs, file ids and
      pages parse back ([Utils.v]).
    - Where the code falls short, a theorem says so: a sub-second wheel, a
      cancelled future, a stop that deadlocks, [Delete] before the first
      election, a failed fetch that reads as silence, an instance added twice,
      a client checked twice, a host that contains the separator, a second
      plugin that is never initialised, a failed start that is forgotten; an
      owner and its sub account deleted in one fetch, events that overtake one
      another, a subscription cancelled twice at once, names that share a
      bucket; in the registry ([BoltRegistry.v], [BoltIntegrity.v]) an update
      that erases metadata, aliases deleted with their service behind them, an
      alias in a namespace that is not there, a read that fails and lets a
      deletion pass; in the configuration centre ([ConfigCenter.v]) a group whose
      deletion reaches other groups, or keeps files, a transaction that could not
      be started and a deletion that goes on without it, an encrypted release that is not deciphered, a key that panics
      the cipher, a client that is lost among the watchers or never told, a
      timeout that overlaps with an announcement and crashes or blocks; among the
      accounts ([AccountCases.v]) an administrator who can create nobody, an id
      that takes another's account, a name that cannot be used again, a group
      that cannot be shown once a member is gone, a new name that is lost; in
      discovery ([DiscoveryCases.v]) workers that race and hide instances, a
      service that stays under its old id, an alias that is listed twice, a count
      that goes astray, a list that blocks a writer; among the rules
      ([RuleCases.v]) one that moves and stays where it was, fault detectors that
      depend on the order they come in, a filter that filters nothing.

    ** Bounds and fuel

    Loops of the code are structural recursions on the lists or maps they range
    over; [redis] retries recurse on the retry count, and the SHA-1 padding is
    split with the length of the message as fuel, which is enough since every
    group takes at least one byte; so do the cipher modes and base64, whose
    round trips are proved for every length.  Arithmetic wraps at Go's widths;
    theorems that need room state it (times below 2^62 seconds, expire durations
    below 2^32 milliseconds, connection limits below 2^31).  The event hub has
    no fuel: a measure of its state decreases with every step of a delivery.
    The handlers recurse on the lists they are given; which transactions fail is
    a list that the theorems quantify over.  The two regular expressions are
    matched by derivatives, a rune at a time.  Deleting a configuration group takes as fuel one
    more than the full pages of files there are, which [ConfigGroup.v] proves
    enough; MD5 takes the length of the message, and each turn takes a block.

    ** What is not modelled

    Logging, metrics and debug handlers; the memory layout of protobuf messages
    (a nil wrapper is [None]); the redis client, gRPC, the token buckets and the
    LRU cache, which are arguments with the documented laws of the operations
    used ([RedisServer], [RateLimiterLaws], [LRULaws]).  Of the store the caches
    and the health checker see the rows it returns and the actions sent to it.
    In the registry the auth plugin's hooks, the cmdb plugin, the configuration
    and the random ids are arguments: new ids are assumed new, in the account API
    as well, the id that a client chooses for a new user included (what happens
    otherwise is in [AccountCases.v]); [bcrypt] is two functions, and the theorems
    that log in assume that a hash matches the password it was made of and no
    other.  The history of the account API records what was changed, not by whom.  Handlers run one
    after the other: two that interleave between a check and a write are not
    modelled.  In the configuration centre a request is one step as well; loads of
    the cache, the scanner, the notifier and the timeouts are steps of their own,
    and what two of them do in the middle of one another is shown in
    [ConfigCenter.v].  What a panic of the plugin that decrypts leaves behind is not
    described.  Not modelled: the queries of
    the registry, the search, import, export and templates of configuration files
    and the queries of their groups and histories, routing and rate-limiting rules
    and the caches of them and of namespaces, clients, l5 ids and configuration
    groups, and the mysql store (SQL); the API servers are protocol adapters. *)

From Stdlib Require Import ZArith Lia.
From stdpp Require Import base tactics list gmap strings.

Open Scope Z_scope.

Declare Scope go_scope.
Delimit Scope go_scope with go.


(** ** Go run-time outcomes

    A Go call either returns or panics; the panics the sources can reach are
    values, so that a theorem can say that a call never panics, or that it
    does.  [Deadlock] is a call that waits for ever. *)

Inductive panic :=
| DivideByZero
| IndexOutOfRange
| SliceOutOfRange
| NilDereference
| NegativeLength
| CloseOfClosedChannel
| SendOnClosedChannel
| Deadlock
| ExplicitPanic.

Inductive outcome (A : Type) : Type :=
| Ret (a : A)
| Panics (why : panic).
Arguments Ret {A} a.
Arguments Panics {A} why.

#[export] Instance outcome_ret : MRet outcome := @Ret.
#[export] Instance outcome_bind : MBind outcome :=
  fun A B k m => match m with Ret a => k a | Panics w => Panics w end.
#[export] Instance outcome_fmap : FMap outcome :=
  fun A B f m => match m with Ret a => Ret (f a) | Panics w => Panics w end.

#[export] Instance panic_eq_dec : EqDecision panic.
Proof. solve_decision. Defined.
#[export] Instance outcome_eq_dec {A} `{EqDecision A} : EqDecision (outcome A).
Proof. solve_decision. Defined.

Definition returns {A} (m : outcome A) : Prop := exists a, m = Ret a.

(** [bind_Ret] inverts a sequence that returned. *)
Lemma bind_Ret {A B} (m : outcome A) (k : A -> outcome B) (b : B) :
  (m ≫= k) = Ret b <-> exists a, m = Ret a /\ k a = Ret b.
Proof. destruct m; simpl; naive_solver. Qed.

Lemma fmap_Ret {A B} (f : A -> B) (m : outcome A) (b : B) :
  (f <$> m) = Ret b <-> exists a, m = Ret a /\ b = f a.
Proof. destruct m; simpl; naive_solver. Qed.

(** A Go call that returns [(value, error)]: exactly one of the two is
    meaningful to the callers in the sources. *)
Inductive result (E A : Type) : Type :=
| Okay (a : A)
| Fail (e : E).
Arguments Okay {E A} a.
Arguments Fail {E A} e.

#[export] Instance result_eq_dec {E A} `{EqDecision E, EqDecision A} : EqDecision (result E A).
Proof. solve_decision. Defined.

(** ** Machine integers

    A Go integer of width [w] is a [Z] in its range; an operation that can
    leave the range is followed by the conversion below. *)

Definition wrap_u (w z : Z) : Z := z mod 2 ^ w.
Definition wrap_i (w z : Z) : Z := (z + 2 ^ (w - 1)) mod 2 ^ w - 2 ^ (w - 1).

#[global] Arguments wrap_u _ _ : simpl never.
#[global] Arguments wrap_i _ _ : simpl never.

Abbreviation u8 := (wrap_u 8).
Abbreviation u32 := (wrap_u 32).
Abbreviation u64 := (wrap_u 64).
Abbreviation i32 := (wrap_i 32).
Abbreviation i64 := (wrap_i 64).


Lemma wrap_u_range w z : 0 <= w -> 0 <= wrap_u w z < 2 ^ w.
Proof. intros Hw. apply Z.mod_pos_bound. lia. Qed.

Lemma wrap_u_small w z : 0 <= z < 2 ^ w -> wrap_u w z = z.
Proof. apply Z.mod_small. Qed.

Lemma wrap_i_range w z : 0 < w -> - 2 ^ (w - 1) <= wrap_i w z < 2 ^ (w - 1).
Proof.
  intros Hw. unfold wrap_i.
  pose proof (Z.mod_pos_bound (z + 2 ^ (w - 1)) (2 ^ w)) as Hb.
  replace (2 ^ w) with (2 * 2 ^ (w - 1)) in * by (rewrite <- Z.pow_succ_r by lia; f_equal; lia).
  lia.
Qed.

Lemma wrap_i_small w z : 0 < w -> - 2 ^ (w - 1) <= z < 2 ^ (w - 1) -> wrap_i w z = z.
Proof.
  intros Hw Hz. unfold wrap_i. rewrite Z.mod_small; [lia|].
  replace (2 ^ w) with (2 * 2 ^ (w - 1)) by (rewrite <- Z.pow_succ_r by lia; f_equal; lia).
  lia.
Qed.

Lemma i64_small z : - 2 ^ 63 <= z < 2 ^ 63 -> i64 z = z.
Proof. intros. by apply wrap_i_small. Qed.

Lemma i32_small z : - 2 ^ 31 <= z < 2 ^ 31 -> i32 z = z.
Proof. intros. by apply wrap_i_small. Qed.

Lemma wrap_i_add w a b : wrap_i w (wrap_i w a + b) = wrap_i w (a + b).
Proof.
  unfold wrap_i. replace ((a + 2 ^ (w - 1)) mod 2 ^ w - 2 ^ (w - 1) + b + 2 ^ (w - 1))
    with ((a + 2 ^ (w - 1)) mod 2 ^ w + b) by lia.
  rewrite Zplus_mod_idemp_l. do 2 f_equal. lia.
Qed.

(** Bitwise operations stay within a width. *)
Lemma bits_range w z :
  0 <= w -> (0 <= z < 2 ^ w <-> 0 <= z /\ forall i, w <= i -> Z.testbit z i = false).
Proof.
  intros Hw. split.
  - intros Hz. split; [lia|]. intros i Hi.
    destruct (decide (z = 0)) as [->|]; [apply Z.bits_0|].
    apply Z.bits_above_log2; [lia|]. apply Z.log2_lt_pow2; [lia|].
    eapply Z.lt_le_trans; [apply Hz|]. apply Z.pow_le_mono_r; lia.
  - intros [Hz Hb]. split; [done|].
    rewrite <- (Z.mod_small z (2 ^ w)); [apply Z.mod_pos_bound; lia|].
    assert (z = z mod 2 ^ w) as ->; [|apply Z.mod_pos_bound; lia].
    apply Z.bits_inj'. intros i Hi. rewrite Z.testbit_mod_pow2 by done.
    destruct (Z.ltb_spec i w); [done|]. simpl. by apply Hb.
Qed.

Lemma lxor_range w a b : 0 <= w -> 0 <= a < 2 ^ w -> 0 <= b < 2 ^ w -> 0 <= Z.lxor a b < 2 ^ w.
Proof.
  intros Hw [Ha HA]%bits_range [Hb HB]%bits_range; [|done..]. apply bits_range; [done|]. split.
  - by apply Z.lxor_nonneg.
  - intros i Hi. by rewrite Z.lxor_spec, HA, HB.
Qed.

(** ** Indexing: Go panics out of range, and so does the model. *)

Definition index {A} (l : list A) (i : Z) : outcome A :=
  if decide (i < 0) then Panics IndexOutOfRange
  else match l !! Z.to_nat i with
       | Some a => Ret a
       | None => Panics IndexOutOfRange
       end.

Definition store_at {A} (l : list A) (i : Z) (a : A) : outcome (list A) :=
  if decide (0 <= i < Z.of_nat (length l)) then Ret (<[Z.to_nat i := a]> l)
  else Panics IndexOutOfRange.

Lemma index_Ret {A} (l : list A) i a :
  index l i = Ret a <-> 0 <= i /\ l !! Z.to_nat i = Some a.
Proof.
  unfold index. case_decide; [naive_solver lia|].
  destruct (l !! Z.to_nat i); naive_solver lia.
Qed.

Lemma index_in_range {A} (l : list A) i :
  0 <= i < Z.of_nat (length l) -> exists a, l !! Z.to_nat i = Some a /\ index l i = Ret a.
Proof.
  intros Hi. destruct (lookup_lt_is_Some_2 l (Z.to_nat i)) as [a Ha]; [lia|].
  exists a. split; [done|]. apply index_Ret. split; [lia|done].
Qed.

Lemma store_at_Ret {A} (l : list A) i a :
  0 <= i < Z.of_nat (length l) -> store_at l i a = Ret (<[Z.to_nat i := a]> l).
Proof. intros. unfold store_at. by rewrite decide_True. Qed.

(** A duplicate check that evaluates quickly, for witnesses. *)
Fixpoint nodupb (l : list Z) : bool :=
  match l with [] => true | x :: l => negb (existsb (Z.eqb x) l) && nodupb l end.

Lemma nodupb_NoDup l : nodupb l = true -> NoDup l.
Proof.
  induction l as [|x l IH]; simpl; [constructor|].
  rewrite andb_true_iff, negb_true_iff. intros [Hx Hl]. constructor; [|by apply IH].
  intros Hin%list_elem_of_In. rewrite <- not_true_iff_false, existsb_exists in Hx.
  apply Hx. exists x. by rewrite Z.eqb_refl.
Qed.

(** ** Automation shared by the components *)

Create HintDb go.
Create Rewrite HintDb go_ret.
#[export] Hint Rewrite @bind_Ret @fmap_Ret @index_Ret : go_ret.
#[export] Hint Resolve wrap_u_range wrap_i_range : go.

(** [invert_ret] opens every hypothesis that says a bind returned. *)
Ltac invert_ret :=
  repeat match goal with
  | H : Ret _ = Ret _ |- _ => injection H as H; subst
  | H : Panics _ = Ret _ |- _ => discriminate H
  | H : Ret _ = Panics _ |- _ => discriminate H
  | H : (_ ≫= _) = Ret _ |- _ => apply bind_Ret in H as (? & ? & ?)
  | H : (_ <$> _) = Ret _ |- _ => apply fmap_Ret in H as (? & ? & ?)
  | H : match ?m with (_, _) => _ end = Ret _ |- _ => destruct m eqn:?
  end; simplify_eq/=.

(** [split_ifs] case-analyses the boolean and decidable tests of a goal. *)
Ltac split_ifs := repeat (case_decide || case_match); simplify_eq/=; try done.
