(* ===== verification/TimeWheel.v ===== *)
(** * The timing wheel ([src/common/timewheel/timewheel.go])

    A wheel of [slotNum] slots turns one slot per [interval]; a task sits in
    the slot where it is due with the number of whole turns it still has to
    wait.  The file models [New], [AddTask], [getSlots], [taskRunner] and
    [scanAddRunTask], and shows that the wheel implements a delay queue: a
    bag of tasks, each with the number of ticks left. *)

From S2P Require Import Prelude.
From Stdlib Require Import ZArith Lia.
From stdpp Require Import base tactics list.

Open Scope Z_scope.

Section TimeWheel.
  (** [C] is the type of callbacks, [D] of the data they are called with. *)
  Context {C D : Type}.

(** A [time.Duration] is a number of nanoseconds.  [int(d.Seconds())] goes
    through a float64; it is the truncated quotient for every duration below
    2^23 seconds (97 days), where the float's error is smaller than the
    distance of the fraction to the next integer. *)
Definition Second : Z := 1000000000.
Definition Millisecond : Z := 1000000.
Definition seconds (d : Z) : Z := Z.quot d Second.

Record Task := mkTask {
  delayTime : Z;
  circle : Z;
  callback : C;
  taskData : D }.

Record TimeWheel := mkTimeWheel {
  interval : Z;
  currentPos : Z;
  slots : list (list Task);
  slotNum : Z }.

Definition New (interval slotNum : Z) : option TimeWheel :=
  if decide (interval <= 0 \/ slotNum <= 0) then None
  else Some (mkTimeWheel interval (-1) (replicate (Z.to_nat slotNum) []) slotNum).

Definition getSlots (tw : TimeWheel) (d : Z) : outcome (Z * Z) :=
  let delayTime := seconds d in
  let interval := seconds (interval tw) in
  if decide (interval = 0 \/ slotNum tw = 0) then Panics DivideByZero
  else
    let circle := Z.quot (Z.quot delayTime interval) (slotNum tw) in
    let pos := if decide (currentPos tw = -1) then 0 else currentPos tw in
    let pos := Z.rem (pos + Z.quot delayTime interval) (slotNum tw) in
    let circle := if decide (pos = currentPos tw) then circle - 1 else circle in
    Ret (pos, circle).

Definition AddTask (tw : TimeWheel) (delayMilli : Z) (data : D) (cb : C) : outcome TimeWheel :=
  let delayTime := delayMilli * Millisecond in
  '(pos, circle) ← getSlots tw delayTime;
  let task := mkTask delayTime circle cb data in
  l ← index (slots tw) pos;
  slots' ← store_at (slots tw) pos (l ++ [task]);
  Ret (mkTimeWheel (interval tw) (currentPos tw) slots' (slotNum tw)).

(** The loop over one slot: the tasks kept, in order, and the calls made. *)
Fixpoint scan (l : list Task) : list Task * list (C * D) :=
  match l with
  | [] => ([], [])
  | task :: rest =>
      let '(kept, fired) := scan rest in
      if decide (circle task > 0)
      then (mkTask (delayTime task) (circle task - 1) (callback task) (taskData task) :: kept, fired)
      else (kept, (callback task, taskData task) :: fired)
  end.

(** [execNum] is the length of the slot before the scan, as in the code. *)
Definition scanAddRunTask (l : list Task) : Z * list Task * list (C * D) :=
  let '(kept, fired) := scan l in (Z.of_nat (length l), kept, fired).

Definition taskRunner (tw : TimeWheel) : outcome (TimeWheel * list (C * D)) :=
  let pos := currentPos tw + 1 in
  let pos := if decide (pos = slotNum tw) then 0 else pos in
  l ← index (slots tw) pos;
  let '(_, kept, fired) := scanAddRunTask l in
  slots' ← store_at (slots tw) pos kept;
  Ret (mkTimeWheel (interval tw) pos slots' (slotNum tw), fired).

(** [start]: [n] ticks of the ticker, and what each of them called. *)
Fixpoint ticks (n : nat) (tw : TimeWheel) : outcome (TimeWheel * list (list (C * D))) :=
  match n with
  | O => Ret (tw, [])
  | S n =>
      '(tw1, fired) ← taskRunner tw;
      '(tw2, rest) ← ticks n tw1;
      Ret (tw2, fired :: rest)
  end.

(** ** The delay queue the wheel promises to be

    [dist tw p] is the number of ticks until slot [p] is scanned next,
    [remaining tw p t] the number until task [t] of slot [p] is called,
    [pending tw] the bag of calls the wheel still owes with their ticks. *)
Definition dist (tw : TimeWheel) (p : Z) : Z := (p - currentPos tw - 1) mod slotNum tw + 1.

Definition remaining (tw : TimeWheel) (p : Z) (t : Task) : Z :=
  dist tw p + slotNum tw * Z.max (circle t) 0.

Definition slot_pending (tw : TimeWheel) (p : nat) (l : list Task) : list (Z * (C * D)) :=
  (fun t => (remaining tw (Z.of_nat p) t, (callback t, taskData t))) <$> l.

Definition pending (tw : TimeWheel) : list (Z * (C * D)) :=
  concat (imap (slot_pending tw) (slots tw)).

(** One tick of a delay queue. *)
Definition due_now (q : list (Z * (C * D))) : list (C * D) := (filter (fun x => x.1 = 1) q).*2.
Definition later (q : list (Z * (C * D))) : list (Z * (C * D)) :=
  (fun x => (x.1 - 1, x.2)) <$> filter (fun x => x.1 <> 1) q.

(** The tick at which a task added now is called. *)
Definition due (tw : TimeWheel) (delayMilli : Z) : Z :=
  let k := Z.quot (seconds (delayMilli * Millisecond)) (seconds (interval tw)) in
  if decide (currentPos tw = -1) then k + 1
  else if decide (k = 0) then slotNum tw
  else k.

(** The slot a tick scans. *)
Definition next_pos (tw : TimeWheel) : Z :=
  if decide (currentPos tw + 1 = slotNum tw) then 0 else currentPos tw + 1.

Definition turn (tw : TimeWheel) (ls : list (list (Task))) : TimeWheel :=
  mkTimeWheel (interval tw) (next_pos tw) ls (slotNum tw).

Record wf (tw : TimeWheel) : Prop := {
  wf_slotNum : 0 < slotNum tw;
  wf_slots : Z.of_nat (length (slots tw)) = slotNum tw;
  wf_pos : -1 <= currentPos tw < slotNum tw;
  wf_interval : 0 < seconds (interval tw) }.

End TimeWheel.
Arguments Task : clear implicits.
Arguments TimeWheel : clear implicits.

(** ** Lemmas *)
Section lemmas.
  Context {C D : Type}.
  Implicit Types (tw : TimeWheel C D) (t : Task C D) (l : list (Task C D)).

Lemma due_now_app (q1 q2 : list (Z * (C * D))) : due_now (q1 ++ q2) = due_now q1 ++ due_now q2.
Proof. unfold due_now. by rewrite filter_app, fmap_app. Qed.

Lemma later_app (q1 q2 : list (Z * (C * D))) : later (q1 ++ q2) = later q1 ++ later q2.
Proof. unfold later. by rewrite filter_app, fmap_app. Qed.

Lemma due_now_concat (qs : list (list (Z * (C * D)))) : due_now (concat qs) = concat (due_now <$> qs).
Proof. induction qs; simpl; [done|]. by rewrite due_now_app, IHqs. Qed.

Lemma later_concat (qs : list (list (Z * (C * D)))) : later (concat qs) = concat (later <$> qs).
Proof. induction qs; simpl; [done|]. by rewrite later_app, IHqs. Qed.

Lemma dist_pos tw p : 0 < slotNum tw -> 1 <= dist tw p <= slotNum tw.
Proof. intros. unfold dist. pose proof (Z.mod_pos_bound (p - currentPos tw - 1) (slotNum tw)). lia. Qed.

Lemma next_pos_range tw : wf tw -> 0 <= next_pos tw < slotNum tw.
Proof. intros [? ? ? ?]. unfold next_pos. case_decide; lia. Qed.

Lemma next_pos_mod tw : wf tw -> next_pos tw = (currentPos tw + 1) mod slotNum tw.
Proof.
  intros [? ? ? ?]. unfold next_pos. case_decide as Hd.
  - by rewrite Hd, Z.mod_same by lia.
  - rewrite Z.mod_small; lia.
Qed.

(** A slot at distance 1 is the next one; every other slot comes one tick
    closer when the wheel turns. *)
Lemma dist_next tw p :
  wf tw -> 0 <= p < slotNum tw -> dist tw p = 1 <-> p = next_pos tw.
Proof.
  intros Hwf Hp. pose proof (next_pos_range tw Hwf) as Hn. destruct Hwf as [? ? ? ?].
  unfold dist, next_pos in *. split.
  - intros Hd. assert ((p - currentPos tw - 1) mod slotNum tw = 0) as Hm by lia.
    apply Z.mod_divide in Hm as [q Hq]; [|lia].
    assert (q = 0 \/ q = -1) as [-> | ->] by nia; case_decide; lia.
  - intros ->. case_decide as Hc.
    + replace (0 - currentPos tw - 1) with (-1 * slotNum tw) by lia. rewrite Z.mod_mul; lia.
    + replace (currentPos tw + 1 - currentPos tw - 1) with 0 by lia. rewrite Z.mod_0_l; lia.
Qed.

Lemma dist_turn tw ls p :
  wf tw -> dist (turn tw ls) p = if decide (dist tw p = 1) then slotNum tw else dist tw p - 1.
Proof.
  intros Hwf. unfold dist at 1. simpl. rewrite next_pos_mod by done. destruct Hwf as [? ? ? ?].
  replace (p - (currentPos tw + 1) mod slotNum tw - 1)
    with (p - 1 - (currentPos tw + 1) mod slotNum tw) by lia.
  rewrite Zminus_mod_idemp_r.
  replace (p - 1 - (currentPos tw + 1)) with ((p - currentPos tw - 1) - 1) by lia.
  rewrite <- Zminus_mod_idemp_l. unfold dist.
  pose proof (Z.mod_pos_bound (p - currentPos tw - 1) (slotNum tw)).
  set (r := (p - currentPos tw - 1) mod slotNum tw) in *. case_decide.
  - replace (r - 1) with (slotNum tw - 1 + (-1) * slotNum tw) by lia.
    rewrite Z_mod_plus_full, Z.mod_small; lia.
  - rewrite Z.mod_small; lia.
Qed.

(** The scan of the slot that is due: what it calls and what it keeps. *)
Lemma scan_due tw ls p l :
  wf tw -> 0 <= Z.of_nat p < slotNum tw -> dist tw (Z.of_nat p) = 1 ->
  (scan l).2 = due_now (slot_pending tw p l) /\
  slot_pending (turn tw ls) p (scan l).1 = later (slot_pending tw p l).
Proof.
  intros Hwf Hp Hd. pose proof (wf_slotNum _ Hwf).
  unfold due_now, later, slot_pending, remaining.
  rewrite dist_turn, decide_True, Hd by done.
  induction l as [|t l [IH1 IH2]]; [done|].
  csimpl. destruct (scan l) as [kept fired]. csimpl in *. subst fired.
  rewrite !filter_cons. csimpl.
  repeat case_decide; csimpl; try nia; split; try done.
  rewrite IH2. f_equal. f_equal. rewrite !Z.max_l by lia. lia.
Qed.

(** The slots that are not due only come closer. *)
Lemma slot_later tw ls p l :
  wf tw -> 0 <= Z.of_nat p < slotNum tw -> dist tw (Z.of_nat p) <> 1 ->
  due_now (slot_pending tw p l) = [] /\
  slot_pending (turn tw ls) p l = later (slot_pending tw p l).
Proof.
  intros Hwf Hp Hd. pose proof (dist_pos tw (Z.of_nat p) (wf_slotNum _ Hwf)).
  unfold due_now, later, slot_pending, remaining. rewrite dist_turn, decide_False by done.
  induction l as [|t l [IH1 IH2]]; [done|].
  csimpl in *. rewrite !filter_cons. csimpl.
  rewrite decide_False by nia. rewrite decide_True by nia. csimpl.
  split; [done|]. rewrite IH2. f_equal. f_equal. lia.
Qed.

Lemma taskRunner_eq tw :
  wf tw ->
  exists l, slots tw !! Z.to_nat (next_pos tw) = Some l /\
    taskRunner tw = Ret (turn tw (<[Z.to_nat (next_pos tw) := (scan l).1]> (slots tw)), (scan l).2).
Proof.
  intros Hwf. pose proof (next_pos_range tw Hwf) as Hr. destruct Hwf as [? Hs ? ?].
  destruct (index_in_range (slots tw) (next_pos tw)) as (l & Hl & Hi); [lia|].
  exists l. split; [done|]. unfold taskRunner, scanAddRunTask. fold (next_pos tw). rewrite Hi. simpl.
  destruct (scan l) as [kept fired]. simpl. by rewrite store_at_Ret by lia.
Qed.

(** What one slot owes, before and after the scan of the slot that is due. *)
Lemma slot_step tw p l l' ls :
  wf tw -> slots tw !! p = Some l ->
  l' = (if decide (Z.of_nat p = next_pos tw) then (scan l).1 else l) ->
  slot_pending (turn tw ls) p l' = later (slot_pending tw p l) /\
  due_now (slot_pending tw p l) = (if decide (Z.of_nat p = next_pos tw) then (scan l).2 else []).
Proof.
  intros Hwf Hl ->.
  assert (0 <= Z.of_nat p < slotNum tw) as Hp.
  { apply lookup_lt_Some in Hl. pose proof (wf_slots _ Hwf). lia. }
  pose proof (dist_next tw (Z.of_nat p) Hwf Hp) as Hd.
  case_decide as Hn.
  - destruct (scan_due tw ls p l) as [? ?]; naive_solver.
  - destruct (slot_later tw ls p l) as [? ?]; naive_solver.
Qed.

Lemma concat_imap_nil {A B} (f : nat -> A -> list B) (ls : list A) :
  (forall i x, ls !! i = Some x -> f i x = []) -> concat (imap f ls) = [].
Proof.
  revert f. induction ls as [|x ls IH]; intros f Hf; [done|]. simpl.
  rewrite (Hf O x) by done. simpl. apply (IH (f ∘ S)). intros i y Hy. by apply (Hf (S i)).
Qed.

(** A family of lists that is empty but at one index concatenates to that one. *)
Lemma concat_imap_single {A B} (f : nat -> A -> list B) (ls : list A) k a :
  ls !! k = Some a -> (forall i x, ls !! i = Some x -> i <> k -> f i x = []) ->
  concat (imap f ls) = f k a.
Proof.
  revert f k. induction ls as [|x ls IH]; intros f k Hk Hne; [done|].
  destruct k as [|k]; simpl in *; simplify_eq.
  - rewrite (concat_imap_nil (f ∘ S)), app_nil_r; [done|].
    intros i y Hy. by apply (Hne (S i) y).
  - rewrite (Hne O x) by done. simpl. apply (IH (f ∘ S) k); [done|].
    intros i y Hy Hi. apply (Hne (S i)); [done|congruence].
Qed.

Lemma concat_imap_insert {A B} (f : nat -> A -> list B) (ls : list A) k a a' x :
  ls !! k = Some a -> f k a' ≡ₚ x :: f k a ->
  concat (imap f (<[k := a']> ls)) ≡ₚ x :: concat (imap f ls).
Proof.
  revert f k. induction ls as [|y ls IH]; intros f k Hk Hx; [done|].
  destruct k as [|k]; simpl in *; simplify_eq.
  - by rewrite Hx.
  - rewrite (IH (f ∘ S) k) by done. by rewrite <- Permutation_middle.
Qed.

Lemma tick_eq tw :
  wf tw ->
  exists tw', taskRunner tw = Ret (tw', due_now (pending tw)) /\
    pending tw' = later (pending tw) /\ wf tw' /\
    interval tw' = interval tw /\ slotNum tw' = slotNum tw /\ currentPos tw' <> -1.
Proof.
  intros Hwf. destruct (taskRunner_eq tw Hwf) as (l & Hl & ->).
  pose proof (next_pos_range tw Hwf) as Hr.
  eexists. split; [f_equal; f_equal|]; [|split; [|split; [|split; [done|split; [done|simpl; lia]]]]].
  - unfold pending. rewrite due_now_concat, fmap_imap.
    rewrite (concat_imap_single _ _ (Z.to_nat (next_pos tw)) l Hl).
    + destruct (slot_step tw _ l _ [] Hwf Hl eq_refl) as [_ Hs].
      simpl. rewrite Hs, decide_True; [done|lia].
    + intros i x Hx Hi. destruct (slot_step tw _ x _ [] Hwf Hx eq_refl) as [_ Hs].
      simpl. rewrite Hs, decide_False; [done|lia].
  - unfold pending. rewrite later_concat, fmap_imap. f_equal. simpl.
    apply list_eq. intros i. rewrite !list_lookup_imap.
    destruct (decide (i = Z.to_nat (next_pos tw))) as [->|Hi].
    + rewrite list_lookup_insert_eq, Hl by (by eapply lookup_lt_Some). simpl. f_equal.
      apply (slot_step tw); [done..|]. rewrite decide_True; [done|lia].
    + rewrite list_lookup_insert_ne by done. destruct (slots tw !! i) as [x|] eqn:Hx; [|done].
      simpl. f_equal. apply (slot_step tw); [done..|]. rewrite decide_False; [done|lia].
  - destruct Hwf as [? ? ? ?]. constructor; simpl; [done| |lia|done]. by rewrite length_insert.
Qed.

Lemma seconds_nonneg z : 0 <= z -> 0 <= seconds z.
Proof. intros. unfold seconds, Second. apply Z.quot_pos; lia. Qed.

(** Where [getSlots] puts a task: the slot and the turns make it due at [due]. *)
Lemma getSlots_due tw ms :
  wf tw -> 0 <= ms ->
  exists pos c, getSlots tw (ms * Millisecond) = Ret (pos, c) /\ 0 <= pos < slotNum tw /\
    dist tw pos + slotNum tw * Z.max c 0 = due tw ms.
Proof.
  intros Hwf Hms. destruct Hwf as [Hn Hs Hp Hi]. unfold getSlots, due.
  rewrite decide_False by lia.
  set (k := Z.quot (seconds (ms * Millisecond)) (seconds (interval tw))).
  assert (0 <= k) as Hk.
  { apply Z.quot_pos; [|done]. apply seconds_nonneg. unfold Millisecond. lia. }
  rewrite !Z.quot_div_nonneg by lia. rewrite !Z.rem_mod_nonneg by (repeat case_decide; lia).
  pose proof (Z.div_mod k (slotNum tw)) as Hdm. pose proof (Z.mod_pos_bound k (slotNum tw)) as Hmb.
  pose proof (Z.div_pos k (slotNum tw)) as Hdp.
  eexists _, _. split; [reflexivity|].
  split; [apply Z.mod_pos_bound; lia|]. unfold dist.
  destruct (decide (currentPos tw = -1)) as [Hc|Hc].
  - rewrite Hc, Z.add_0_l. replace (k mod slotNum tw - -1 - 1) with (k mod slotNum tw) by lia.
    rewrite Z.mod_mod by lia. rewrite decide_False by lia. lia.
  - rewrite <- Z.sub_add_distr, Zminus_mod_idemp_l.
    replace (currentPos tw + k - (currentPos tw + 1)) with (k - 1) by lia.
    rewrite <- (Zminus_mod_idemp_l k 1).
    assert ((currentPos tw + k) mod slotNum tw = currentPos tw <-> k mod slotNum tw = 0) as Hiff.
    { rewrite <- (Zplus_mod_idemp_r k). split; intros Hz.
      - destruct (decide (currentPos tw + k mod slotNum tw < slotNum tw)).
        + rewrite Z.mod_small in Hz; lia.
        + replace (currentPos tw + k mod slotNum tw)
            with ((currentPos tw + k mod slotNum tw - slotNum tw) + 1 * slotNum tw) in Hz by lia.
          rewrite Z_mod_plus_full, Z.mod_small in Hz; lia.
      - rewrite Hz, Z.add_0_r, Z.mod_small; lia. }
    destruct (decide (k mod slotNum tw = 0)) as [Hz|Hz].
    + rewrite (decide_True (P := _ = currentPos tw)) by (by apply Hiff).
      rewrite Hz. replace (0 - 1) with (slotNum tw - 1 + (-1) * slotNum tw) by lia.
      rewrite Z_mod_plus_full, (Z.mod_small (slotNum tw - 1)) by lia.
      case_decide; nia.
    + rewrite (decide_False (P := _ = currentPos tw)) by (by rewrite Hiff).
      rewrite Z.mod_small by lia. rewrite decide_False; [lia|].
      intros ->. by rewrite Z.mod_0_l in Hz by lia.
Qed.

Lemma AddTask_eq tw ms data cb :
  wf tw -> 0 <= ms ->
  exists tw', AddTask tw ms data cb = Ret tw' /\
    pending tw' ≡ₚ (due tw ms, (cb, data)) :: pending tw /\ wf tw' /\
    interval tw' = interval tw /\ slotNum tw' = slotNum tw /\ currentPos tw' = currentPos tw.
Proof.
  intros Hwf Hms. destruct (getSlots_due tw ms Hwf Hms) as (pos & c & Hg & Hpos & Hdue).
  unfold AddTask. rewrite Hg. simpl. pose proof (wf_slots _ Hwf).
  destruct (index_in_range (slots tw) pos) as (l & Hl & ->); [lia|]. simpl.
  rewrite store_at_Ret by lia. simpl. eexists. split; [done|].
  split; [|split; [|done]].
  - unfold pending. simpl.
    change (slot_pending (mkTimeWheel _ _ _ _)) with (slot_pending tw).
    apply (concat_imap_insert _ _ _ l); [done|].
    unfold slot_pending. rewrite fmap_app. csimpl. unfold remaining at 2. simpl.
    rewrite Z2Nat.id, Hdue by lia. by rewrite <- Permutation_cons_append.
  - destruct Hwf. constructor; simpl; try done. by rewrite length_insert.
Qed.
End lemmas.

(** ** Properties *)
Section properties.
  Context {C D : Type}.
  Implicit Types (tw : TimeWheel C D).

(** The calls of the [j]-th of the next ticks (counted from 0). *)
Definition fired_at (tw : TimeWheel C D) (j : nat) : list (C * D) :=
  (filter (fun x => x.1 = Z.of_nat j + 1) (pending tw)).*2.

Lemma filter_later (q : list (Z * (C * D))) (j : Z) :
  1 <= j -> (filter (fun x => x.1 = j) (later q)).*2 = (filter (fun x => x.1 = j + 1) q).*2.
Proof.
  intros Hj. unfold later. induction q as [|[d x] q IH]; [done|].
  rewrite !filter_cons. simpl.
  repeat case_decide; csimpl; rewrite ?filter_cons; simpl; repeat case_decide; csimpl;
    try lia; by rewrite ?IH.
Qed.

Lemma ticks_eq tw n :
  wf tw -> exists tw', ticks n tw = Ret (tw', fired_at tw <$> seq 0 n) /\ wf tw'.
Proof.
  revert tw. induction n as [|n IH]; intros tw Hwf; [by exists tw|].
  destruct (tick_eq tw Hwf) as (tw1 & Hr & Hp & Hwf1 & _).
  destruct (IH tw1 Hwf1) as (tw2 & Ht & Hwf2). exists tw2. split; [|done].
  simpl. rewrite Hr. simpl. rewrite Ht. simpl. f_equal. f_equal. f_equal.
  rewrite <- fmap_S_seq, <- list_fmap_compose. apply list_fmap_ext. intros ? j _. simpl.
  unfold fired_at. rewrite Hp, filter_later by lia. by rewrite Nat2Z.inj_succ, <- Z.add_1_r.
Qed.

(** C21. The timing wheel implements a delay queue.  On every well-formed
    wheel a tick returns (it never panics), calls exactly the pending tasks
    that have one tick left, and brings every other pending task one tick
    closer; [AddTask] returns and adds exactly the new call, due at the tick
    [due]; both keep the wheel well formed, and [New] makes one. *)
Theorem wheel_refines_delay_queue tw :
  wf tw ->
  (exists tw', taskRunner tw = Ret (tw', due_now (pending tw)) /\
     pending tw' = later (pending tw) /\ wf tw') /\
  (forall ms data cb, 0 <= ms ->
     exists tw', AddTask tw ms data cb = Ret tw' /\
       pending tw' ≡ₚ (due tw ms, (cb, data)) :: pending tw /\ wf tw') /\
  (forall iv n, 0 < seconds iv -> 0 < n ->
     exists tw0 : TimeWheel C D, New iv n = Some tw0 /\ wf tw0 /\ pending tw0 = []).
Proof.
  intros Hwf. split; [|split].
  - destruct (tick_eq tw Hwf) as (tw' & ? & ? & ? & _). by exists tw'.
  - intros ms data cb Hms. destruct (AddTask_eq tw ms data cb Hwf Hms) as (tw' & ? & ? & ? & _).
    by exists tw'.
  - intros iv n Hiv Hn. unfold New. rewrite decide_False.
    + eexists. split; [done|]. split.
      * constructor; simpl; [lia| |lia|done]. rewrite length_replicate. lia.
      * apply concat_imap_nil. simpl. intros i x [Hx _]%lookup_replicate. by subst x.
    + intros [Hle|Hle]; [|lia]. unfold seconds, Second in Hiv.
      pose proof (Z.quot_le_mono iv 0 1000000000). rewrite Z.quot_0_l in *; lia.
Qed.

(** A task added with a delay of [k] whole intervals is called exactly
    once, at tick [due] (the [k]-th tick, the [k+1]-st on a wheel that has not
    ticked yet, and a full turn for [k = 0]), and adding it changes nothing
    else: tick by tick, the calls of the wheel with the task are those of the
    wheel without it, plus the task's own call at its tick. *)
Theorem added_task_fires_exactly_once tw ms data cb n :
  wf tw -> 0 <= ms ->
  exists tw' tw1 tw1' fs fs',
    AddTask tw ms data cb = Ret tw' /\
    ticks n tw = Ret (tw1, fs) /\ ticks n tw' = Ret (tw1', fs') /\
    Forall2 (fun j '(f, f') =>
        f' ≡ₚ f ++ (if decide (Z.of_nat j + 1 = due tw ms) then [(cb, data)] else []))
      (seq 0 n) (zip fs fs').
Proof.
  intros Hwf Hms. destruct (AddTask_eq tw ms data cb Hwf Hms) as (tw' & Ha & Hp & Hwf' & _).
  destruct (ticks_eq tw n Hwf) as (tw1 & Ht & _). destruct (ticks_eq tw' n Hwf') as (tw1' & Ht' & _).
  exists tw', tw1, tw1', (fired_at tw <$> seq 0 n), (fired_at tw' <$> seq 0 n).
  split_and!; [done..|].
  rewrite zip_with_fmap_l, zip_with_fmap_r, zip_with_diag.
  apply Forall2_fmap_r, Forall_Forall2_diag, Forall_forall. intros j _. simpl.
  unfold fired_at. rewrite Hp, filter_cons. simpl.
  repeat case_decide; try lia; csimpl; [by rewrite <- Permutation_cons_append|by rewrite app_nil_r].
Qed.

(** [AddTask] panics, with an integer division by zero, on every wheel
    whose interval is shorter than a second, although [New] accepts any
    positive interval. *)
Theorem subsecond_wheel_panics iv n ms data cb :
  0 < iv < Second -> 0 < n ->
  exists tw : TimeWheel C D, New iv n = Some tw /\ AddTask tw ms data cb = Panics DivideByZero.
Proof.
  intros Hiv Hn. unfold New. rewrite decide_False by lia. eexists. split; [done|].
  unfold AddTask, getSlots. simpl. rewrite decide_True; [done|]. left.
  unfold seconds. by apply Z.quot_small; lia.
Qed.
End properties.

(** ** Witnesses *)

Definition demo_wheel : TimeWheel nat nat := mkTimeWheel Second 1 [[]; [mkTask 0 1 7%nat 70%nat]; []] 3.

Example demo_due : due demo_wheel 4000 = 4 /\ due demo_wheel 0 = 3.
Proof. done. Qed.

Lemma demo_wf : wf demo_wheel.
Proof. by constructor. Qed.

Lemma wheel_refines_delay_queue_witness :
  exists tw', taskRunner demo_wheel = Ret (tw', due_now (pending demo_wheel)) /\
     pending tw' = later (pending demo_wheel) /\ wf tw'.
Proof. exact (proj1 (wheel_refines_delay_queue demo_wheel demo_wf)). Defined.

Lemma added_task_fires_exactly_once_witness :
  exists tw' tw1 tw1' fs fs',
    AddTask demo_wheel 4000 9%nat 8%nat = Ret tw' /\
    ticks 7 demo_wheel = Ret (tw1, fs) /\ ticks 7 tw' = Ret (tw1', fs') /\
    Forall2 (fun j '(f, f') =>
        f' ≡ₚ f ++ (if decide (Z.of_nat j + 1 = due demo_wheel 4000) then [(8%nat, 9%nat)] else []))
      (seq 0 7) (zip fs fs').
Proof. apply (added_task_fires_exactly_once demo_wheel 4000 9%nat 8%nat 7 demo_wf). lia. Defined.

Lemma subsecond_wheel_panics_witness :
  exists tw : TimeWheel nat nat, New (500 * Millisecond) 8 = Some tw /\
    AddTask tw 100 1%nat 2%nat = Panics DivideByZero.
Proof. apply (subsecond_wheel_panics (500 * Millisecond) 8 100 1%nat 2%nat); done. Defined.

