(* ===== verification/GoStrings.v ===== *)
(** * Go strings

    The functions of Go's packages [strings], [strconv] and [fmt] that the
    modelled sources call, on byte strings ([String.string]), with the lemmas
    about them that the components share.  [fmt]'s [%d] is [pretty]. *)

From S2P Require Import Prelude.
From Stdlib Require Import ZArith Lia Ascii String.
From stdpp Require Import base tactics list strings pretty.

Open Scope Z_scope.

(** ** Definitions *)

Definition slen (s : string) : Z := Z.of_nat (String.length s).

Fixpoint occurs (c : ascii) (s : string) : bool :=
  match s with EmptyString => false | String x s => bool_decide (x = c) || occurs c s end.

(** [strings.Split(s, string(sep))]. *)
Fixpoint Split (sep : ascii) (s : string) : list string :=
  match s with
  | EmptyString => [EmptyString]
  | String c s' =>
      if decide (c = sep) then EmptyString :: Split sep s'
      else match Split sep s' with t :: ts => String c t :: ts | [] => [String c EmptyString] end
  end.

(** [strings.Index] and [strings.LastIndex] for a one-byte pattern. *)
Fixpoint Index (sep : ascii) (s : string) : Z :=
  match s with
  | EmptyString => -1
  | String c s' =>
      if decide (c = sep) then 0
      else let i := Index sep s' in if decide (i < 0) then -1 else i + 1
  end.
Fixpoint LastIndex (sep : ascii) (s : string) : Z :=
  match s with
  | EmptyString => -1
  | String c s' =>
      let i := LastIndex sep s' in
      if decide (0 <= i) then i + 1 else if decide (c = sep) then 0 else -1
  end.

(** [s[n:]] and [s[:n]], in range. *)
Fixpoint sdrop (n : nat) (s : string) : string :=
  match n, s with S n, String _ s => sdrop n s | _, _ => s end.
Fixpoint stake (n : nat) (s : string) : string :=
  match n, s with S n, String c s => String c (stake n s) | _, _ => EmptyString end.

Fixpoint HasPrefix (s p : string) : bool :=
  match p, s with
  | EmptyString, _ => true
  | String c p, String x s => bool_decide (x = c) && HasPrefix s p
  | String _ _, EmptyString => false
  end.
Definition HasSuffix (s p : string) : bool :=
  bool_decide (String.length p <= String.length s)%nat &&
  bool_decide (sdrop (String.length s - String.length p) s = p).

Definition digit (c : ascii) : option N :=
  let n := N_of_ascii c in
  if decide ((48 <= n)%N /\ (n <= 57)%N) then Some (n - 48)%N else None.

Fixpoint digits (s : string) (acc : N) : option N :=
  match s with
  | EmptyString => Some acc
  | String c s => match digit c with Some d => digits s (acc * 10 + d)%N | None => None end
  end.

(** An optional sign and at least one digit. *)
Definition signed (s : string) : option Z :=
  let magnitude s := match s with EmptyString => None | _ => Z.of_N <$> digits s 0 end in
  match s with
  | String "-" s => Z.opp <$> magnitude s
  | String "+" s => magnitude s
  | _ => magnitude s
  end%char.

(** [strconv.ParseInt(s, 10, 64)] and [strconv.ParseUint(s, 10, bits)]. *)
Definition ParseInt (s : string) : option Z :=
  match signed s with
  | Some z => if decide (- 2 ^ 63 <= z < 2 ^ 63) then Some z else None
  | None => None
  end.
Definition ParseUint (bits : Z) (s : string) : option Z :=
  match s with
  | EmptyString => None
  | _ => match digits s 0 with
         | Some n => if decide (Z.of_N n < 2 ^ bits) then Some (Z.of_N n) else None
         | None => None
         end
  end.

(** ** Lemmas *)

Lemma occurs_app c s t : occurs c (s +:+ t) = occurs c s || occurs c t.
Proof. induction s as [|x s IH]; simpl; [done|]. change (String.append s t) with (s +:+ t). rewrite IH. by rewrite orb_assoc. Qed.

Lemma Split_nil sep s : Split sep s <> [].
Proof. destruct s; simpl; [done|]. case_decide; [done|]. by destruct (Split sep s). Qed.

Lemma Split_plain sep s : occurs sep s = false -> Split sep s = [s].
Proof.
  induction s as [|x s IH]; simpl; [done|]. rewrite orb_false_iff, bool_decide_eq_false. intros [Hx Hs].
  rewrite decide_False by done. by rewrite IH.
Qed.

Lemma Split_cons sep s t : occurs sep s = false -> Split sep (s +:+ String sep t) = s :: Split sep t.
Proof.
  induction s as [|x s IH]; simpl; [by rewrite decide_True|]. rewrite orb_false_iff, bool_decide_eq_false. intros [Hx Hs].
  rewrite decide_False by done. change (String.append s (String sep t)) with (s +:+ String sep t). by rewrite IH.
Qed.

Lemma Split_app sep s t : Split sep (s +:+ String sep t) = Split sep s ++ Split sep t.
Proof.
  induction s as [|x s IH]; simpl; [by rewrite decide_True|]. change (String.append s (String sep t)) with (s +:+ String sep t).
  rewrite IH. case_decide; [done|]. destruct (Split sep s) eqn:Hs; [by destruct (Split_nil sep s)|done].
Qed.

Lemma Split_single sep s t : Split sep s = [t] -> s = t.
Proof.
  revert t. induction s as [|x s IH]; simpl; intros t; [by intros [= <-]|]. case_decide; [by intros [= _ []%Split_nil]|].
  destruct (Split sep s) as [|u us] eqn:Hs; [by destruct (Split_nil sep s)|]. intros [= <- ->]. by rewrite (IH u).
Qed.

(** Pieces of a split do not contain the separator, and a piece is made of
    bytes of the string. *)
Lemma Split_pieces sep s : Forall (fun t => occurs sep t = false) (Split sep s).
Proof.
  induction s as [|x s IH]; simpl; [by constructor|]. case_decide as Hx; [by constructor|].
  destruct (Split sep s) as [|t ts]; inversion IH; subst; constructor; simpl; try done; by rewrite bool_decide_false.
Qed.

Lemma Split_occurs sep c s : occurs c s = false -> Forall (fun t => occurs c t = false) (Split sep s).
Proof.
  induction s as [|x s IH]; simpl; [by constructor|]. rewrite orb_false_iff. intros [Hx Hs]. specialize (IH Hs).
  destruct (decide (x = sep)); [by constructor|].
  destruct (Split sep s) as [|t ts]; inversion IH; subst; constructor; simpl; try done; by rewrite Hx.
Qed.

Lemma LastIndex_none sep s : occurs sep s = false -> LastIndex sep s = -1.
Proof.
  induction s as [|x s IH]; simpl; [done|]. rewrite orb_false_iff, bool_decide_eq_false. intros [Hx Hs].
  rewrite IH by done. rewrite decide_False by lia. by rewrite decide_False.
Qed.

Lemma LastIndex_app sep s t : occurs sep t = false -> LastIndex sep (s +:+ String sep t) = slen s.
Proof.
  intros Ht. induction s as [|x s IH]; simpl.
  - rewrite LastIndex_none by done. rewrite decide_False by lia. by rewrite decide_True.
  - change (String.append s (String sep t)) with (s +:+ String sep t). rewrite IH. unfold slen in *. simpl.
    rewrite decide_True by lia. lia.
Qed.

Lemma sdrop_app n s t : n = String.length s -> sdrop n (s +:+ t) = t.
Proof. intros ->. induction s as [|x s IH]; simpl; [by destruct t|done]. Qed.

Lemma length_sapp s t : String.length (s +:+ t) = (String.length s + String.length t)%nat.
Proof. induction s as [|x s IH]; simpl; [done|]. by rewrite <- IH. Qed.

Lemma sapp_assoc s t u : (s +:+ t) +:+ u = s +:+ (t +:+ u).
Proof.
  induction s as [|x s IH]; [done|]. change (String x (((s +:+ t) +:+ u)) = String x (s +:+ (t +:+ u))). by rewrite IH.
Qed.

(** *** Decimal numbers *)

Lemma digit_char x : (x < 10)%N -> digit (pretty_N_char x) = Some x.
Proof.
  intros Hx. assert (x = 0 \/ x = 1 \/ x = 2 \/ x = 3 \/ x = 4 \/ x = 5 \/ x = 6 \/ x = 7 \/ x = 8 \/ x = 9)%N as Hc by lia.
  by repeat destruct Hc as [->|Hc]; [..|rewrite Hc].
Qed.

Lemma digits_go x s : digits (pretty_N_go x s) 0 = digits s x.
Proof.
  revert s. induction (N.lt_wf_0 x) as [x _ IH]; intros s. destruct (decide (x = 0)%N) as [->|Hx]; [done|].
  rewrite pretty_N_go_step by lia. rewrite IH by (apply N.div_lt; lia). simpl.
  rewrite digit_char by (apply N.mod_lt; lia). f_equal. pose proof (N.div_mod x 10). lia.
Qed.

Lemma digits_pretty_N (n : N) : digits (pretty n) 0 = Some n.
Proof. unfold pretty, pretty_N. case_decide; [by subst|]. by rewrite digits_go. Qed.

(** A decimal number starts with a digit and contains digits only. *)
Fixpoint all_digits (s : string) : bool :=
  match s with EmptyString => true | String c s => (if digit c then true else false) && all_digits s end.

Lemma all_digits_go x s : all_digits s = true -> all_digits (pretty_N_go x s) = true.
Proof.
  revert s. induction (N.lt_wf_0 x) as [x _ IH]; intros s Hs. destruct (decide (x = 0)%N) as [->|Hx]; [done|].
  rewrite pretty_N_go_step by lia. apply IH; [apply N.div_lt; lia|]. simpl.
  by rewrite digit_char by (apply N.mod_lt; lia).
Qed.

Lemma go_nonempty x s : s <> EmptyString -> pretty_N_go x s <> EmptyString.
Proof.
  revert s. induction (N.lt_wf_0 x) as [x _ IH]; intros s Hs. destruct (decide (x = 0)%N) as [->|Hx]; [done|].
  rewrite pretty_N_go_step by lia. apply IH; [apply N.div_lt; lia|done].
Qed.

Lemma pretty_N_digits (n : N) : all_digits (pretty n) = true /\ pretty n <> EmptyString.
Proof.
  unfold pretty, pretty_N. case_decide; [done|]. rewrite pretty_N_go_step by lia. split.
  - apply all_digits_go. simpl. by rewrite digit_char by (apply N.mod_lt; lia).
  - by apply go_nonempty.
Qed.

Lemma all_digits_occurs c s : digit c = None -> all_digits s = true -> occurs c s = false.
Proof.
  intros Hc. induction s as [|x s IH]; simpl; [done|]. rewrite andb_true_iff. intros [Hx Hs].
  rewrite IH by done. rewrite bool_decide_false; [done|]. intros ->. by rewrite Hc in Hx.
Qed.

Lemma pretty_Z_occurs c (z : Z) : digit c = None -> c <> "-"%char -> occurs c (pretty z) = false.
Proof.
  intros Hc Hd. destruct z as [|p|p]; [simpl; rewrite bool_decide_false; [done|intros <-; done]|..].
  - apply all_digits_occurs; [done|]. apply (pretty_N_digits (N.pos p)).
  - change (pretty (Z.neg p)) with ("-" +:+ pretty (N.pos p)). rewrite occurs_app. simpl. rewrite bool_decide_false by done. simpl.
    apply all_digits_occurs; [done|]. apply (pretty_N_digits (N.pos p)).
Qed.

Lemma signed_pretty (z : Z) : signed (pretty z) = Some z.
Proof.
  destruct z as [|p|p]; [done|..].
  - change (pretty (Z.pos p)) with (pretty (N.pos p)). destruct (pretty_N_digits (N.pos p)) as [Ha Hn].
    pose proof (digits_pretty_N (N.pos p)) as Hd. destruct (pretty (N.pos p)) as [|c s] eqn:Hp; [done|].
    assert (signed (String c s) = Z.of_N <$> digits (String c s) 0) as ->; [|by rewrite Hd].
    simpl in Ha. unfold signed. destruct (decide (c = "-"%char)) as [->|]; [done|]. destruct (decide (c = "+"%char)) as [->|]; [done|].
    destruct c as [[] [] [] [] [] [] [] []]; done.
  - change (pretty (Z.neg p)) with ("-" +:+ pretty (N.pos p)). unfold signed. simpl.
    destruct (pretty_N_digits (N.pos p)) as [_ Hn]. pose proof (digits_pretty_N (N.pos p)) as Hd.
    destruct (pretty (N.pos p)) as [|c s] eqn:Hp; [done|]. change (String.append "" ?s) with s. by rewrite Hd.
Qed.

Lemma ParseInt_pretty (z : Z) : - 2 ^ 63 <= z < 2 ^ 63 -> ParseInt (pretty z) = Some z.
Proof. intros Hz. unfold ParseInt. rewrite signed_pretty. by rewrite decide_True. Qed.

(** ** Runes ([unicode/utf8]) and white space *)

Definition between (lo hi : N) (c : ascii) : bool := bool_decide (lo <= N_of_ascii c)%N && bool_decide (N_of_ascii c <= hi)%N.
Definition continuation : ascii -> bool := between 128 191.

(** The width of the first rune; an invalid byte is a rune of its own. *)
Definition rune_width (s : string) : nat :=
  match s with
  | String a (String b r) =>
      let c2 := match r with String c _ => continuation c | _ => false end in
      let c3 := match r with String _ (String d _) => continuation d | _ => false end in
      if between 194 223 a && continuation b then 2
      else if c2 && (between 224 224 a && between 160 191 b || between 225 236 a && continuation b ||
                     between 237 237 a && between 128 159 b || between 238 239 a && continuation b) then 3
      else if c2 && c3 && (between 240 240 a && between 144 191 b || between 241 243 a && continuation b ||
                           between 244 244 a && between 128 143 b) then 4
      else 1
  | _ => 1
  end%nat.

(** [skip] bytes belong to the rune that was counted last. *)
Fixpoint count_runes (skip : nat) (s : string) : Z :=
  match s with
  | EmptyString => 0
  | String _ s' => match skip with S k => count_runes k s' | O => 1 + count_runes (rune_width s - 1) s' end
  end.
Definition RuneCountInString (s : string) : Z := count_runes 0 s.

(** The width of the white space that starts, or (of a reversed string) ends, a
    string: [unicode.IsSpace] in UTF-8. *)
Definition ascii_space (c : ascii) : bool := between 9 13 c || between 32 32 c.
Definition wide_space (a b c : ascii) : bool :=
  match N_of_ascii a, N_of_ascii b with
  | 225, 154 => between 128 128 c
  | 226, 128 => between 128 138 c || between 168 169 c || between 175 175 c
  | 226, 129 => between 159 159 c
  | 227, 128 => between 128 128 c
  | _, _ => false
  end%N.
Definition space_width (s : string) : nat :=
  match s with
  | EmptyString => 0
  | String a s' =>
      if ascii_space a then 1
      else match s' with
           | EmptyString => 0
           | String b s'' =>
               if between 194 194 a && (between 133 133 b || between 160 160 b) then 2
               else match s'' with String c _ => if wide_space a b c then 3 else 0 | EmptyString => 0 end
           end
  end%nat.
Definition space_width_rev (s : string) : nat :=
  match s with
  | EmptyString => 0
  | String a s' =>
      if ascii_space a then 1
      else match s' with
           | EmptyString => 0
           | String b s'' =>
               if between 194 194 b && (between 133 133 a || between 160 160 a) then 2
               else match s'' with String c _ => if wide_space c b a then 3 else 0 | EmptyString => 0 end
           end
  end%nat.

Fixpoint trim (width : string -> nat) (skip : nat) (s : string) : string :=
  match s with
  | EmptyString => EmptyString
  | String _ s' =>
      match skip with
      | S k => trim width k s'
      | O => match width s with O => s | S k => trim width k s' end
      end
  end.
Fixpoint srev_onto (s acc : string) : string :=
  match s with EmptyString => acc | String c s => srev_onto s (String c acc) end.
Definition srev (s : string) : string := srev_onto s EmptyString.

(** [strings.TrimSpace]. *)
Definition TrimSpace (s : string) : string := srev (trim space_width_rev 0 (srev (trim space_width 0 s))).

Lemma count_runes_bounds s skip : 0 <= count_runes skip s <= slen s.
Proof.
  revert skip. unfold slen. induction s as [|c s IH]; intros [|k]; cbn [count_runes String.length]; [lia|lia| |].
  - pose proof (IH (rune_width (String c s) - 1)%nat). lia.
  - pose proof (IH k). lia.
Qed.

Lemma srev_onto_app s acc : srev_onto s acc = srev s +:+ acc.
Proof.
  unfold srev. revert acc. induction s as [|c s IH]; intros acc; [done|]. cbn [srev_onto].
  rewrite IH, (IH (String c EmptyString)), sapp_assoc. done.
Qed.
Lemma srev_cons c s : srev (String c s) = srev s +:+ String c EmptyString.
Proof. apply (srev_onto_app s (String c EmptyString)). Qed.
Lemma sapp_nil_r s : s +:+ EmptyString = s.
Proof. induction s as [|c s IH]; [done|]. change (String c s +:+ EmptyString) with (String c (s +:+ EmptyString)). by rewrite IH. Qed.
Lemma srev_app s t : srev (s +:+ t) = srev t +:+ srev s.
Proof.
  induction s as [|c s IH]; [by rewrite sapp_nil_r|]. change (String c s +:+ t) with (String c (s +:+ t)).
  by rewrite !srev_cons, IH, sapp_assoc.
Qed.
Lemma srev_involutive s : srev (srev s) = s.
Proof. induction s as [|c s IH]; [done|]. rewrite srev_cons, srev_app, IH. done. Qed.

(** A string that neither starts nor ends with white space is left as it is. *)
Lemma TrimSpace_plain s : space_width s = O -> space_width_rev (srev s) = O -> TrimSpace s = s.
Proof.
  intros Hl Hr. assert (forall w t, w t = O -> trim w 0 t = t) as Ht by (intros w [|c t] Hw; [done|]; cbn [trim]; by rewrite Hw).
  unfold TrimSpace. rewrite (Ht _ s Hl), (Ht _ _ Hr). apply srev_involutive.
Qed.

Example TrimSpace_example : TrimSpace "	 10.0.0.1 " = "10.0.0.1".
Proof. reflexivity. Qed.
