(* ===== verification/Hash.v ===== *)
(** * Hashing ([src/common/hash/fnv32.go], [src/common/hash/ketama.go])

    The FNV hash that shards the maps, and the ketama ring (consistent
    hashing) that shares the health checks between servers.  The ring's
    theorems are about any iteration order of the bucket map and any (not
    necessarily stable) sort, since Go promises neither. *)

From S2P Require Import Prelude.
From Stdlib Require Import ZArith Lia Ascii SpecFloat.
From stdpp Require Import base tactics list sorting strings pretty countable gmap.

Open Scope Z_scope.

(** ** Standard library of Go, as far as the sources use it *)

(** A Go string is a sequence of bytes. *)
Definition bytes_of (s : string) : list Z := (fun a => Z.of_N (N_of_ascii a)) <$> String.list_ascii_of_string s.

(** [crypto/sha1] (FIPS 180-4). *)
Definition rotl (n x : Z) : Z := Z.lor (u32 (Z.shiftl x n)) (Z.shiftr x (32 - n)).
Definition be32 (bs : list Z) : Z := foldl (fun acc b => acc * 256 + b) 0 bs.
Definition be_bytes (n : nat) (x : Z) : list Z :=
  (fun i => Z.land (Z.shiftr x (8 * Z.of_nat (n - 1 - i))) 255) <$> seq 0 n.

Fixpoint sha1_extend (n : nat) (rev_w : list Z) : list Z :=
  match n with
  | O => rev_w
  | S n =>
      let at_ i := default 0 (rev_w !! i) in
      sha1_extend n (rotl 1 (Z.lxor (Z.lxor (at_ 2%nat) (at_ 7%nat)) (Z.lxor (at_ 13%nat) (at_ 15%nat))) :: rev_w)
  end.

Definition sha1_f (t : nat) (b c d : Z) : Z :=
  if decide (t < 20)%nat then Z.lor (Z.land b c) (Z.land (Z.lxor b (2 ^ 32 - 1)) d)
  else if decide (t < 40)%nat then Z.lxor b (Z.lxor c d)
  else if decide (t < 60)%nat then Z.lor (Z.land b c) (Z.lor (Z.land b d) (Z.land c d))
  else Z.lxor b (Z.lxor c d).
Definition sha1_k (t : nat) : Z :=
  if decide (t < 20)%nat then 1518500249 else if decide (t < 40)%nat then 1859775393
  else if decide (t < 60)%nat then 2400959708 else 3395469782.

Definition sha1_round (st : Z * Z * Z * Z * Z) (tw : nat * Z) : Z * Z * Z * Z * Z :=
  let '(a, b, c, d, e) := st in
  let '(t, w) := tw in
  (u32 (rotl 5 a + sha1_f t b c d + e + sha1_k t + w), a, rotl 30 b, c, d).

Fixpoint groups (n : nat) (fuel : nat) (l : list Z) : list (list Z) :=
  match fuel with
  | O => []
  | S fuel => match l with [] => [] | _ => take n l :: groups n fuel (drop n l) end
  end.

Definition sha1_block (h : Z * Z * Z * Z * Z) (block : list Z) : Z * Z * Z * Z * Z :=
  let w := rev (sha1_extend 64 (rev (be32 <$> groups 4 16 block))) in
  let '(h0, h1, h2, h3, h4) := h in
  let '(a, b, c, d, e) := foldl sha1_round h (zip (seq 0 80) w) in
  (u32 (h0 + a), u32 (h1 + b), u32 (h2 + c), u32 (h3 + d), u32 (h4 + e)).

Definition sha1_pad (m : list Z) : list Z :=
  let n := length m in
  m ++ [128] ++ replicate (Z.to_nat ((55 - Z.of_nat n) mod 64)) 0 ++ be_bytes 8 (8 * Z.of_nat n).

Definition sha1_sum (m : list Z) : list Z :=
  let p := sha1_pad m in
  let '(h0, h1, h2, h3, h4) :=
    foldl sha1_block (1732584193, 4023233417, 2562383102, 271733878, 3285377520) (groups 64 (length p) p) in
  concat (be_bytes 4 <$> [h0; h1; h2; h3; h4]).

Example sha1_abc :
  sha1_sum (bytes_of "abc") =
  [169; 153; 62; 54; 71; 6; 129; 106; 186; 62; 37; 113; 120; 80; 194; 108; 156; 208; 216; 157].
Proof. vm_compute. reflexivity. Qed.

(** float64 arithmetic is IEEE 754 binary64, [SpecFloat] with 53 bits of
    precision; [int(f)] truncates, and is the least int64 where the value does
    not fit (the amd64 conversion). *)
Definition float64 (z : Z) : spec_float := binary_normalize 53 1024 z 0 false.
Definition fmul : spec_float -> spec_float -> spec_float := SFmul 53 1024.
Definition fdiv : spec_float -> spec_float -> spec_float := SFdiv 53 1024.
Definition int_of_float (f : spec_float) : Z :=
  match f with
  | S754_zero _ => 0
  | S754_finite neg m e =>
      let v := if decide (0 <= e) then Z.pos m * 2 ^ e else Z.pos m / 2 ^ (- e) in
      let v := if neg then - v else v in
      if decide (- 2 ^ 63 <= v < 2 ^ 63) then v else - 2 ^ 63
  | _ => - 2 ^ 63
  end.

(** [sort.Search]: the binary search of the standard library; [fuel] bounds
    the loop, and [n + 1] rounds are enough (see [Search_spec]). *)
Fixpoint search_loop (fuel : nat) (f : nat -> bool) (i j : nat) : nat :=
  match fuel with
  | O => i
  | S fuel =>
      if decide (i < j)%nat then
        let h := ((i + j) / 2)%nat in
        if f h then search_loop fuel f i h else search_loop fuel f (h + 1) j
      else i
  end.
Definition Search (n : nat) (f : nat -> bool) : nat := search_loop (S n) f 0 n.

(** ** fnv32.go *)

Definition Fnv32 (key : string) : Z :=
  foldl (fun hash b => Z.lxor (u32 (hash * 16777619)) b) 2166136261 (bytes_of key).

(** ** ketama.go *)

Record Bucket := mkBucket { Host : string; Weight : Z }.
#[export] Instance Bucket_eq_dec : EqDecision Bucket.
Proof. solve_decision. Defined.
#[export] Instance Bucket_countable : Countable Bucket.
Proof.
  refine (inj_countable' (fun b => (Host b, Weight b)) (fun p => mkBucket p.1 p.2) _). by intros [].
Defined.

Record continuumPoint := mkPoint { bucket : Bucket; point : Z }.
#[export] Instance continuumPoint_eq_dec : EqDecision continuumPoint.
Proof. solve_decision. Defined.

Definition sha1Digest (s : string) : list Z := sha1_sum (bytes_of s).

(** [digest[3+o]<<24 | digest[2+o]<<16 | digest[1+o]<<8 | digest[o]]. *)
Definition digest_word (digest : list Z) (o : nat) : Z :=
  let d i := default 0 (digest !! (i + o)%nat) in
  Z.lor (Z.lor (Z.lor (Z.shiftl (d 3%nat) 24) (Z.shiftl (d 2%nat) 16)) (Z.shiftl (d 1%nat) 8)) (d O).

Definition HashString (s : string) : Z := digest_word (sha1Digest s) 0.

Definition total_weight (buckets : list Bucket) : Z :=
  foldl (fun acc b => u32 (acc + Weight b)) 0 buckets.

(** [pct := weight / total; limit := int(pct * 40.0 * numBuckets)]. *)
Definition limit (weight total numBuckets : Z) : Z :=
  int_of_float (fmul (fmul (fdiv (float64 weight) (float64 total)) (float64 40)) (float64 numBuckets)).

(** The points of one bucket: [limit] digests of "host-k", four per digest. *)
Definition bucket_points (lim : Z) (b : Bucket) : list continuumPoint :=
  concat ((fun k => let digest := sha1Digest (Host b +:+ "-" +:+ pretty (N.of_nat k)) in
                    (fun h => mkPoint b (digest_word digest (h * 4))) <$> seq 0 4)
          <$> seq 0 (Z.to_nat lim)).

(** The ring before the sort, for one iteration order of the bucket map. *)
Definition ring_points (buckets : list Bucket) : list continuumPoint :=
  let total := total_weight buckets in
  concat ((fun b => bucket_points (limit (Weight b) total (Z.of_nat (length buckets))) b) <$> buckets).

Definition point_le (p q : continuumPoint) : Prop := point p <= point q.
#[export] Instance point_le_dec p q : Decision (point_le p q).
Proof. unfold point_le. apply _. Defined.

(** What [sort.Sort] may return. *)
Definition sorted_ring (unsorted ring : list continuumPoint) : Prop :=
  ring ≡ₚ unsorted /\ StronglySorted point_le ring.

(** [New]: nil for no buckets; one admissible sort makes it executable. *)
Definition New (buckets : list Bucket) : option (list continuumPoint) :=
  match buckets with
  | [] => None
  | _ => Some (merge_sort point_le (ring_points buckets))
  end.

Definition Hash (ring : list continuumPoint) (h : Z) : outcome string :=
  match ring with
  | [] => Ret ""
  | _ =>
      let i := Search (length ring) (fun i => bool_decide (h <= from_option point 0 (ring !! i))) in
      let i := if decide (length ring <= i)%nat then O else i in
      p ← index ring (Z.of_nat i);
      Ret (Host (bucket p))
  end.

(** ** Specification: the owner of a hash value is the bucket of the first
    point at or after it, cyclically. *)
Definition first_from (ring : list continuumPoint) (h : Z) (p : continuumPoint) : Prop :=
  p ∈ ring /\ h <= point p /\ forall q, q ∈ ring -> h <= point q -> point p <= point q.
Definition owner (ring : list continuumPoint) (h : Z) (p : continuumPoint) : Prop :=
  first_from ring h p \/
  ((forall q, q ∈ ring -> point q < h) /\ p ∈ ring /\ forall q, q ∈ ring -> point p <= point q).

(** No two points of different hosts collide. *)
Definition collision_free (ring : list continuumPoint) : Prop :=
  forall p q, p ∈ ring -> q ∈ ring -> point p = point q -> Host (bucket p) = Host (bucket q).

(** ** Lemmas *)

Lemma search_loop_spec f fuel i j :
  (i <= j)%nat -> (j - i < fuel)%nat ->
  (forall a b, (a <= b)%nat -> f a = true -> f b = true) ->
  let r := search_loop fuel f i j in
  (i <= r <= j)%nat /\ (forall a, (i <= a < r)%nat -> f a = false) /\ ((r < j)%nat -> f r = true).
Proof.
  revert i j. induction fuel as [|fuel IH]; intros i j Hij Hf Hmono; [lia|]. cbn [search_loop].
  case_decide as Hlt; [|split_and!; intros; lia].
  assert (i <= (i + j) / 2 < j)%nat as Hh.
  { pose proof (Nat.div_mod_eq (i + j) 2). pose proof (Nat.mod_upper_bound (i + j) 2). lia. }
  set (h := ((i + j) / 2)%nat) in *. cbv zeta.
  destruct (f h) eqn:Hfh.
  - destruct (IH i h) as (? & ? & Hr); [lia..|done|]. split_and!; [lia..|done|].
    intros _. destruct (decide (search_loop fuel f i h = h)) as [->|]; [done|]. apply Hr. lia.
  - destruct (IH (h + 1)%nat j) as (? & Hl & ?); [lia..|done|]. split_and!; [lia..| |done].
    intros a Ha. destruct (decide (a <= h)%nat); [|apply Hl; lia].
    destruct (f a) eqn:Hfa; [|done]. rewrite (Hmono a h) in Hfh; done.
Qed.

(** [sort.Search] finds the least index at which a monotone test holds. *)
Lemma Search_spec n f :
  (forall a b, (a <= b)%nat -> f a = true -> f b = true) ->
  (Search n f <= n)%nat /\ (forall a, (a < Search n f)%nat -> f a = false) /\
  ((Search n f < n)%nat -> f (Search n f) = true).
Proof.
  intros Hm. unfold Search. destruct (search_loop_spec f (S n) 0 n) as (? & Hl & ?); [lia..|done|].
  split_and!; [lia| |done]. intros a Ha. apply Hl. lia.
Qed.

Lemma sorted_lookup ring i j p q :
  StronglySorted point_le ring -> (i <= j)%nat -> ring !! i = Some p -> ring !! j = Some q -> point p <= point q.
Proof.
  intros Hs. revert i j. induction Hs as [|x l Hs IH Hx]; intros i j Hij Hi Hj; [done|].
  destruct i as [|i], j as [|j]; simplify_eq/=; [lia| |lia|by eapply IH; [|done..]; lia].
  eapply (Forall_lookup_1 _ _ _ _ Hx Hj).
Qed.

Lemma Hash_owner ring h :
  StronglySorted point_le ring -> ring <> [] ->
  exists p, owner ring h p /\ Hash ring h = Ret (Host (bucket p)).
Proof.
  intros Hs Hne. unfold Hash. destruct ring as [|p0 ring0] eqn:Hr; [done|]. rewrite <- Hr in *.
  set (f := fun i => bool_decide (h <= from_option point 0 (ring !! i))).
  assert (Hn : (0 < length ring)%nat) by (rewrite Hr; simpl; lia).
  set (g := fun i => if decide (i < length ring)%nat then f i else true).
  assert (Search (length ring) f = Search (length ring) g) as ->.
  { unfold Search. assert (forall fuel i j, (j <= length ring)%nat ->
      search_loop fuel f i j = search_loop fuel g i j) as He; [|by apply He].
    induction fuel as [|fuel IH]; intros i j Hj; [done|]. cbn [search_loop]. case_decide; [|done].
    assert ((i + j) / 2 < j)%nat by (apply Nat.Div0.div_lt_upper_bound; lia).
    unfold g at 1. rewrite decide_True by lia. rewrite !IH by lia. done. }
  destruct (Search_spec (length ring) g) as (Hle & Hlow & Hhit).
  { intros a b Hab. unfold g. repeat case_decide; try done; [|lia].
    unfold f. rewrite !bool_decide_eq_true.
    destruct (lookup_lt_is_Some_2 ring a) as [pa Ha]; [done|].
    destruct (lookup_lt_is_Some_2 ring b) as [pb Hb]; [done|]. rewrite Ha, Hb. simpl.
    pose proof (sorted_lookup ring a b pa pb Hs Hab Ha Hb). lia. }
  set (i := Search (length ring) g) in *. case_decide as Hi.
  - destruct (index_in_range ring (Z.of_nat 0)) as (p & Hp & Hix); [lia|]. change (Z.to_nat (Z.of_nat 0)) with O in Hp.
    rewrite Hix. exists p. split; [|done]. right. split; [|split].
    + intros q [j Hq]%list_elem_of_lookup.
      pose proof (lookup_lt_Some _ _ _ Hq). specialize (Hlow j ltac:(lia)).
      unfold g, f in Hlow. rewrite decide_True, bool_decide_eq_false, Hq in Hlow by done. simpl in Hlow. lia.
    + by eapply list_elem_of_lookup_2.
    + intros q [j Hq]%list_elem_of_lookup. eapply (sorted_lookup ring 0 j); [done|lia|done..].
  - destruct (index_in_range ring (Z.of_nat i)) as (p & Hp & ->); [lia|]. rewrite Nat2Z.id in Hp.
    exists p. split; [|done]. left. split; [by eapply list_elem_of_lookup_2|].
    specialize (Hhit ltac:(lia)). unfold g, f in Hhit.
    rewrite decide_True, bool_decide_eq_true, Hp in Hhit by lia. simpl in Hhit. split; [done|].
    intros q [j Hq]%list_elem_of_lookup Hhq.
    destruct (decide (i <= j)%nat); [by eapply (sorted_lookup ring i j)|].
    pose proof (lookup_lt_Some _ _ _ Hq). specialize (Hlow j ltac:(lia)).
    unfold g, f in Hlow. rewrite decide_True, bool_decide_eq_false, Hq in Hlow by done. simpl in Hlow. lia.
Qed.

Lemma owner_unique ring h p q :
  collision_free ring -> owner ring h p -> owner ring h q -> Host (bucket p) = Host (bucket q).
Proof.
  intros Hc [(Hp & Hhp & Hmp)|(Hlt & Hp & Hmp)] [(Hq & Hhq & Hmq)|(Hlt' & Hq & Hmq)].
  - apply Hc; [done..|]. pose proof (Hmp q Hq Hhq). pose proof (Hmq p Hp Hhp). lia.
  - specialize (Hlt' p Hp). lia.
  - specialize (Hlt q Hq). lia.
  - apply Hc; [done..|]. pose proof (Hmp q Hq). pose proof (Hmq p Hp). lia.
Qed.

Lemma owner_perm ring ring' h p : ring ≡ₚ ring' -> owner ring h p -> owner ring' h p.
Proof. intros He. unfold owner, first_from. by setoid_rewrite He. Qed.

Lemma New_sorted buckets :
  buckets <> [] -> exists ring, New buckets = Some ring /\ sorted_ring (ring_points buckets) ring.
Proof.
  intros Hne. destruct buckets as [|b bs] eqn:Hb; [done|]. rewrite <- Hb. eexists. split.
  - unfold New. by rewrite Hb.
  - split; [apply merge_sort_Permutation|].
    apply Sorted_StronglySorted; [intros ???; unfold point_le; lia|].
    apply Sorted_merge_sort. intros p q. unfold point_le. lia.
Qed.

Lemma concat_fmap_perm {A B} (f : A -> list B) l l' : l ≡ₚ l' -> concat (f <$> l) ≡ₚ concat (f <$> l').
Proof.
  induction 1; csimpl; [done|by f_equiv| |by etransitivity].
  rewrite !(assoc_L (++)). f_equiv. apply Permutation_app_comm.
Qed.

Lemma total_weight_sum bs : total_weight bs = u32 (foldr Z.add 0 (Weight <$> bs)).
Proof.
  unfold total_weight. assert (forall acc, 0 <= acc < 2 ^ 32 ->
    foldl (fun acc b => u32 (acc + Weight b)) acc bs = u32 (acc + foldr Z.add 0 (Weight <$> bs))) as H.
  { induction bs as [|b bs IH]; intros acc Hacc; csimpl.
    - by rewrite Z.add_0_r, wrap_u_small.
    - rewrite IH by (by apply wrap_u_range). unfold wrap_u.
      rewrite Zplus_mod_idemp_l. f_equal. lia. }
  by apply (H 0).
Qed.

Lemma total_weight_perm bs bs' : bs ≡ₚ bs' -> total_weight bs = total_weight bs'.
Proof.
  intros Hp. rewrite !total_weight_sum. f_equal.
  induction Hp; csimpl; lia.
Qed.

Lemma ring_points_perm bs bs' : bs ≡ₚ bs' -> ring_points bs ≡ₚ ring_points bs'.
Proof.
  intros Hp. unfold ring_points. rewrite (total_weight_perm _ _ Hp), (Permutation_length Hp).
  by apply concat_fmap_perm.
Qed.

Lemma bucket_points_bucket lim b p : p ∈ bucket_points lim b -> bucket p = b.
Proof.
  unfold bucket_points. intros (l & Hl & Hp)%list_elem_of_In%in_concat.
  apply list_elem_of_In, list_elem_of_fmap in Hl as (k & -> & _).
  apply list_elem_of_In, list_elem_of_fmap in Hp as (o & -> & _). done.
Qed.

Lemma collision_free_perm ring ring' : ring ≡ₚ ring' -> collision_free ring -> collision_free ring'.
Proof. intros He. unfold collision_free. by setoid_rewrite He. Qed.

Lemma NoDup_collision_free ring : NoDup (point <$> ring) -> collision_free ring.
Proof.
  intros Hn p q [i Hi]%list_elem_of_lookup [j Hj]%list_elem_of_lookup He.
  assert (i = j) as ->; [|congruence].
  eapply (NoDup_lookup _ _ _ (point p) Hn); rewrite list_lookup_fmap;
    [by rewrite Hi|by rewrite Hj, He].
Qed.

(** Two rings with the same points answer alike. *)
Lemma Hash_perm ring ring' h :
  ring ≡ₚ ring' -> StronglySorted point_le ring -> StronglySorted point_le ring' ->
  collision_free ring -> Hash ring h = Hash ring' h.
Proof.
  intros Hp Hs Hs' Hc. destruct (decide (ring = [])) as [->|Hne].
  { by apply Permutation_nil_l in Hp as ->. }
  assert (ring' <> []) as Hne'.
  { intros ->. by apply Permutation_nil_r in Hp. }
  destruct (Hash_owner ring h Hs Hne) as (p & Ho & ->).
  destruct (Hash_owner ring' h Hs' Hne') as (q & Ho' & ->).
  f_equal. eapply owner_unique; [done..|]. by eapply owner_perm.
Qed.

(** An owner among more points is the old owner or one of the new points. *)
Lemma owner_extend old new h p :
  owner (old ++ new) h p -> p ∈ old -> owner old h p.
Proof.
  intros [(Hp & Hh & Hm)|(Hlt & Hp & Hm)] Hin.
  - left. split_and!; [done..|]. intros q Hq. apply Hm. set_solver.
  - right. split_and!; [|done|]; intros q Hq; [apply Hlt|apply Hm]; set_solver.
Qed.

(** The sharding hash is a 32-bit value, hence never a negative index. *)
Lemma Fnv32_range key : 0 <= Fnv32 key < 2 ^ 32.
Proof.
  unfold Fnv32. assert (forall acc, 0 <= acc < 2 ^ 32 -> Forall (fun b => 0 <= b < 2 ^ 32) (bytes_of key) ->
    0 <= foldl (fun hash b => Z.lxor (u32 (hash * 16777619)) b) acc (bytes_of key) < 2 ^ 32) as H.
  { induction (bytes_of key) as [|b bs IH]; intros acc Hacc Hb; [done|]. simpl.
    inversion Hb; subst. apply IH; [|done]. by apply lxor_range; [|apply wrap_u_range|]. }
  apply H; [done|]. unfold bytes_of. apply Forall_fmap, Forall_true. intros a. simpl.
  pose proof (N_ascii_bounded a). lia.
Qed.

(** Rings of equally weighted buckets are not empty, up to 200 of them. *)
Lemma limit_positive n : 1 <= n <= 200 -> 0 < limit 100 (100 * n) n.
Proof.
  intros Hn. assert (Forall (fun k => 0 < limit 100 (100 * Z.of_nat k) (Z.of_nat k)) (seq 1 200)) as H.
  { apply (bool_decide_unpack _). vm_compute. exact I. }
  rewrite Forall_forall in H. specialize (H (Z.to_nat n)). rewrite Z2Nat.id in H by lia.
  apply H. apply elem_of_seq. lia.
Qed.

Lemma total_weight_equal bs :
  Forall (fun b => Weight b = 100) bs -> Z.of_nat (length bs) <= 200 -> total_weight bs = 100 * Z.of_nat (length bs).
Proof.
  intros Hw Hn. rewrite total_weight_sum. rewrite wrap_u_small.
  - clear Hn. induction Hw as [|b bs Hb Hw IH]; csimpl; lia.
  - assert (foldr Z.add 0 (Weight <$> bs) = 100 * Z.of_nat (length bs)) as ->; [|lia].
    clear Hn. induction Hw as [|b bs Hb Hw IH]; csimpl; lia.
Qed.

Lemma ring_points_nonempty bs :
  bs <> [] -> Z.of_nat (length bs) <= 200 -> Forall (fun b => Weight b = 100) bs -> ring_points bs <> [].
Proof.
  intros Hne Hn Hw. unfold ring_points. rewrite total_weight_equal by done.
  destruct bs as [|b bs]; [done|]. inversion Hw as [|? ? Hb _]; subst. rewrite fmap_cons, Hb. set (n := Z.of_nat (length (b :: bs))) in *.
  assert (1 <= n) as H1 by (unfold n; simpl; lia). pose proof (limit_positive n) as Hl.
  unfold bucket_points at 1. destruct (Z.to_nat (limit 100 (100 * n) n)) as [|k] eqn:Hk; [lia|]. simpl. done.
Qed.

(** ** Properties *)

(** C29. Looking a value up in the ring of any non-empty set of buckets (any
    order of the map, any sort) returns without a panic the host of the first
    point at or after it, and wraps around to the least point. *)
Theorem Hash_finds_owner buckets ring h :
  sorted_ring (ring_points buckets) ring -> ring <> [] ->
  exists p, p ∈ ring_points buckets /\ owner ring h p /\ Hash ring h = Ret (Host (bucket p)).
Proof.
  intros [Hp Hs] Hne. destruct (Hash_owner ring h Hs Hne) as (p & Ho & He).
  exists p. split; [|done]. rewrite <- Hp. by destruct Ho as [(? & _)|(_ & ? & _)].
Qed.

(** Two servers that iterate over the same buckets in different orders and
    sort differently send every value to the same host, as long as no two
    hosts have a point in common. *)
Theorem Hash_order_independent buckets buckets' ring ring' h :
  buckets ≡ₚ buckets' ->
  sorted_ring (ring_points buckets) ring -> sorted_ring (ring_points buckets') ring' ->
  collision_free ring -> Hash ring h = Hash ring' h.
Proof.
  intros Hb [Hp Hs] [Hp' Hs'] Hc. apply Hash_perm; [|done..].
  by rewrite Hp, Hp', (ring_points_perm _ _ Hb).
Qed.

(** Adding a server to the ring moves values only to that server, when it
    leaves the number of points of the others as it was. *)
Theorem new_bucket_takes_only_its_share buckets b ring ring' h :
  (forall b', b' ∈ buckets ->
     limit (Weight b') (total_weight (b :: buckets)) (Z.of_nat (length (b :: buckets)))
     = limit (Weight b') (total_weight buckets) (Z.of_nat (length buckets))) ->
  sorted_ring (ring_points buckets) ring -> sorted_ring (ring_points (b :: buckets)) ring' ->
  collision_free ring' -> ring <> [] ->
  Hash ring' h = Hash ring h \/ Hash ring' h = Ret (Host b).
Proof.
  intros Hl [Hp Hs] [Hp' Hs'] Hc Hne.
  assert (exists new, ring' ≡ₚ ring ++ new /\ forall p, p ∈ new -> bucket p = b) as (new & Hr & Hn).
  { eexists. split; [|intros p; apply bucket_points_bucket].
    rewrite Hp', Hp. unfold ring_points at 1. rewrite fmap_cons, concat_cons, Permutation_app_comm.
    apply Permutation_app_tail, reflexive_eq. unfold ring_points. f_equal.
    apply list_fmap_ext. intros i b' Hb'. by rewrite Hl by (by eapply list_elem_of_lookup_2). }
  assert (ring' <> []) as Hne'. { intros ->. apply Permutation_nil_l in Hr. by destruct ring. }
  destruct (Hash_owner ring' h Hs' Hne') as (p & Ho & ->).
  destruct (Hash_owner ring h Hs Hne) as (q & Hq & ->).
  apply (owner_perm _ _ _ _ Hr) in Ho.
  assert (p ∈ ring ++ new) as [Hin|Hin]%elem_of_app by (destruct Ho as [(? & _)|(_ & ? & _)]; done).
  - left. f_equal. apply (owner_unique ring h); [|by eapply owner_extend|done].
    intros x y Hx Hy. apply Hc; rewrite Hr; set_solver.
  - right. by rewrite (Hn p Hin).
Qed.

(** The servers' ring (every weight 100) has 160 points per server, as the
    comment in [New] says, for most cluster sizes but not for all: the float
    product falls just below 40 for 7, 14, 28, 49 and more servers, which then
    get 39 digests each.  Checked for every size up to 200. *)
Theorem points_per_server n :
  1 <= n <= 200 ->
  limit 100 (100 * n) n = if decide (n ∈ [7; 14; 28; 49; 56; 98; 103; 112; 141; 147; 161; 196]) then 39 else 40.
Proof.
  intros Hn.
  assert (Forall (fun k => limit 100 (100 * Z.of_nat k) (Z.of_nat k) =
    if decide (Z.of_nat k ∈ [7; 14; 28; 49; 56; 98; 103; 112; 141; 147; 161; 196]) then 39 else 40) (seq 1 200)) as H.
  { apply (bool_decide_unpack _). vm_compute. exact I. }
  rewrite Forall_forall in H. specialize (H (Z.to_nat n)). rewrite Z2Nat.id in H by lia.
  apply H. apply elem_of_seq. lia.
Qed.

(** ** Witnesses *)

Definition server (host : string) : Bucket := mkBucket host 100.
Definition demo_ring : list continuumPoint := merge_sort point_le (ring_points [server "10.0.0.1"]).
Definition demo_ring2 : list continuumPoint :=
  merge_sort point_le (ring_points [server "10.0.0.2"; server "10.0.0.1"]).

Lemma merge_sorted_ring l : sorted_ring l (merge_sort point_le l).
Proof.
  split; [apply merge_sort_Permutation|].
  apply Sorted_StronglySorted; [intros ???; unfold point_le; lia|].
  apply Sorted_merge_sort. intros p q. unfold point_le. lia.
Qed.

Lemma demo_rings_collision_free : collision_free demo_ring2.
Proof. apply NoDup_collision_free, nodupb_NoDup. vm_compute. reflexivity. Qed.

Lemma demo_ring_nonempty : length demo_ring = 160%nat /\ length demo_ring2 = 320%nat.
Proof. split; vm_compute; reflexivity. Qed.

Lemma demo_ring_ne : demo_ring <> [] /\ demo_ring2 <> [].
Proof.
  pose proof demo_ring_nonempty as [H1 H2].
  split; intros He%(f_equal length); [rewrite H1 in He|rewrite H2 in He]; discriminate He.
Qed.

Lemma Hash_finds_owner_witness :
  exists p, p ∈ ring_points [server "10.0.0.2"; server "10.0.0.1"] /\ owner demo_ring2 12345 p /\
    Hash demo_ring2 12345 = Ret (Host (bucket p)).
Proof.
  apply (Hash_finds_owner [server "10.0.0.2"; server "10.0.0.1"] demo_ring2 12345);
    [apply merge_sorted_ring|exact (proj2 demo_ring_ne)].
Defined.

Lemma Hash_order_independent_witness :
  Hash demo_ring2 77777 =
  Hash (merge_sort point_le (ring_points [server "10.0.0.1"; server "10.0.0.2"])) 77777.
Proof.
  apply (Hash_order_independent [server "10.0.0.2"; server "10.0.0.1"] [server "10.0.0.1"; server "10.0.0.2"]).
  - apply Permutation_swap.
  - apply merge_sorted_ring.
  - apply merge_sorted_ring.
  - apply demo_rings_collision_free.
Defined.

Lemma new_bucket_takes_only_its_share_witness :
  Hash demo_ring2 99 = Hash demo_ring 99 \/ Hash demo_ring2 99 = Ret "10.0.0.2".
Proof.
  apply (new_bucket_takes_only_its_share [server "10.0.0.1"] (server "10.0.0.2")).
  - intros b' ->%list_elem_of_singleton. vm_compute. reflexivity.
  - apply merge_sorted_ring.
  - apply merge_sorted_ring.
  - exact demo_rings_collision_free.
  - exact (proj1 demo_ring_ne).
Defined.

Lemma points_per_server_witness : 1 <= 7 <= 200 /\ limit 100 700 7 = 39.
Proof. split; [lia|]. apply (points_per_server 7). lia. Defined.
