(* ===== verification/Utils.v ===== *)
(** * Request checks and names ([src/common/utils/common.go], [funcs.go], [config_file.go])

    The checks that every request passes, the identity of an instance (its
    four- or five-part name, hashed), the offset and limit of list queries, the
    wildcard patterns of list queries, and the ids of configuration files. *)

From S2P Require Import Prelude GoStrings Hash.
From Stdlib Require Import ZArith Lia Ascii String.
From stdpp Require Import base tactics list gmap strings pretty.

Open Scope Z_scope.

(** ** Data *)

(** [apimodel.Code], the codes the modelled handlers answer. *)
Inductive Code :=
| ExecuteSuccess
| ExecuteException
| EmptyRequest
| InvalidInstanceID
| InvalidServiceName
| InvalidNamespaceName
| InvalidInstanceHost
| InvalidInstancePort
| NotFoundResource
| HealthCheckNotOpen
| HeartbeatException
| HeartbeatTypeNotFound
| NoNeedUpdate
| BadRequest
| BatchSizeOverLimit
| InvalidParameter
| InvalidMetadata
| EmptyQueryParameter
| InvalidQueryInsParameter
| InvalidInstanceProtocol
| InvalidInstanceVersion
| InvalidInstanceLogicSet
| InvalidInstanceIsolate
| InstanceTooManyRequests
| SameInstanceRequest
| InstanceRegisTimeout
| ExistedResource
| NotFoundInstance
| NotFoundNamespace
| NotFoundService
| NotFoundMasterConfig
| NotFoundTagConfigOrService
| ExistReleasedConfig
| DataConflict
| InvalidServicePorts
| InvalidServiceBusiness
| InvalidServiceDepartment
| InvalidServiceCMDB
| InvalidServiceComment
| InvalidServiceOwners
| InvalidServiceToken
| InvalidPlatformID
| InvalidServiceAlias
| InvalidNamespaceWithAlias
| InvalidServiceAliasComment
| InvalidServiceAliasOwners
| NotFoundServiceAlias
| NotAllowAliasUpdate
| NotAllowCreateAliasForAlias
| ServiceExistedInstances
| ServiceExistedAlias
| ServiceExistedRoutings
| NamespaceExistedServices
| NamespaceExistedCircuitBreakers
| NamespaceExistedConfigGroups
| StoreLayerException
| InvalidConfigFileName
| InvalidConfigFileGroupName
| InvalidConfigFileContentLength
| InvalidConfigFileTags
| EncryptConfigFileException
| DecryptConfigFileException
| InvalidWatchConfigFileFormat
| DataNoChange
| ClientAPINotOpen
| EmptyAutToken
| AuthTokenForbidden
| TokenDisabled
| OperationRoleForbidden
| NotAllowedAccess
| UserExisted
| NotFoundUser
| InvalidUserName
| InvalidUserPassword
| InvalidUserOwners
| InvalidUserMobile
| InvalidUserEmail
| SubAccountExisted
| UserGroupExisted
| NotFoundUserGroup
| InvalidUserGroupID
| NotFoundAuthStrategyRule
| InvalidAuthStrategyOwners
| InvalidPrincipalType
| NotAllowModifyDefaultStrategyPrincipal
| NotAllowModifyOwnerDefaultStrategy
| ParseException
| InvalidRateLimitName
| InvalidCircuitBreakerName
| InvalidCircuitBreakerID
| ParseCircuitBreakerException
| ServiceExistedCircuitBreakers
| NotFoundCircuitBreaker
| FaultDetectRuleExisted.
#[export] Instance Code_eq_dec : EqDecision Code.
Proof. solve_decision. Defined.

(** The wrapped fields of [apiservice.Instance] that the checks read; [None]
    is a nil wrapper. *)
Record ApiInstance := mkApiInstance {
  a_id : option string;
  a_service : option string;
  a_namespace : option string;
  a_vpc : option string;
  a_host : option string;
  a_port : option Z }.

(** [GetValue()] of a wrapper. *)
Definition GetValue (s : option string) : string := default "" s.
Definition GetUint (z : option Z) : Z := default 0 z.

Inductive check_error :=
| NilErrString
| EmptyErrString
| InvalidCharacter
| NotUnique
| InvalidValue
| ParseError.

(** ** Checks *)

(** [resourceNameRE], one character. *)
Definition name_char (c : ascii) : bool :=
  let n := N_of_ascii c in
  bool_decide ((48 <= n /\ n <= 57) \/ (65 <= n /\ n <= 90) \/ (97 <= n /\ n <= 122))%N ||
  bool_decide (c = "-" \/ c = "." \/ c = "/" \/ c = ":" \/ c = "_")%char.

Fixpoint all_name_chars (s : string) : bool :=
  match s with EmptyString => true | String c s => name_char c && all_name_chars s end.

Definition resourceNameRE (s : string) : bool :=
  match s with EmptyString => false | _ => all_name_chars s end.

Definition CheckResourceName (name : option string) : option check_error :=
  match name with
  | None => Some NilErrString
  | Some name =>
      if decide (name = "") then Some EmptyErrString
      else if resourceNameRE name then None else Some InvalidCharacter
  end.

Definition CheckInstanceHost (host : option string) : option check_error :=
  match host with
  | None => Some NilErrString
  | Some host => if decide (host = "") then Some EmptyErrString else None
  end.

Definition CheckInstancePort (port : option Z) : option check_error :=
  match port with None => Some NilErrString | Some _ => None end.

(** ** The identity of an instance *)

(** [hex.EncodeToString]. *)
Definition hex_digit (n : Z) : ascii :=
  default "0"%char (String.get (Z.to_nat n) "0123456789abcdef").
Fixpoint hex (bs : list Z) : string :=
  match bs with
  | [] => ""
  | b :: bs => String (hex_digit (Z.shiftr b 4)) (String (hex_digit (Z.land b 15)) (hex bs))
  end.

(** The string that is hashed. *)
Definition instance_name (namespace service vpcID host : string) (port : Z) : string :=
  if decide (vpcID = "")
  then namespace +:+ "##" +:+ service +:+ "##" +:+ host +:+ "##" +:+ pretty port
  else namespace +:+ "##" +:+ service +:+ "##" +:+ vpcID +:+ "##" +:+ host +:+ "##" +:+ pretty port.

Definition CalculateInstanceID (namespace service vpcID host : string) (port : Z) : string :=
  hex (sha1_sum (bytes_of (instance_name namespace service vpcID host port))).

(** [CheckDbRawStrFieldLen], [CheckDbStrFieldLen] and [CheckDbMetaDataFieldLen]
    compare lengths in runes with those of the store's columns. *)
Definition CheckDbRawStrFieldLen (param : string) (dbLen : Z) : option check_error :=
  if decide (param <> "" /\ dbLen < RuneCountInString param) then Some InvalidValue else None.
Definition CheckDbStrFieldLen (param : option string) (dbLen : Z) : option check_error :=
  CheckDbRawStrFieldLen (GetValue param) dbLen.
Definition CheckDbMetaDataFieldLen (metaData : gmap string string) : option check_error :=
  if decide (map_Forall (fun k v => RuneCountInString k <= 128 /\ RuneCountInString v <= 4096) metaData) then None
  else Some InvalidValue.

Definition CheckInstanceTetrad (req : ApiInstance) : result Code string :=
  match CheckResourceName (a_service req) with
  | Some _ => Fail InvalidServiceName
  | None =>
  match CheckResourceName (a_namespace req) with
  | Some _ => Fail InvalidNamespaceName
  | None =>
  match CheckInstanceHost (a_host req) with
  | Some _ => Fail InvalidInstanceHost
  | None =>
  match CheckInstancePort (a_port req) with
  | Some _ => Fail InvalidInstancePort
  | None =>
      let instID := GetValue (a_id req) in
      if decide (instID = "")
      then Okay (CalculateInstanceID (GetValue (a_namespace req)) (GetValue (a_service req)) (GetValue (a_vpc req))
                   (GetValue (a_host req)) (GetUint (a_port req)))
      else Okay instID
  end end end end.

(** ** Offsets and limits *)

Definition QueryDefaultOffset : Z := 0.
Definition QueryDefaultLimit : Z := 100.
Definition QueryMaxLimit : Z := 100.
Definition MaxQuerySize : Z := 100.

Definition CheckQueryOffset (offset : list string) : result check_error Z :=
  match offset with
  | [] => Okay 0
  | [o] =>
      match ParseInt o with
      | None => Fail ParseError
      | Some value => if decide (value < 0) then Fail InvalidValue else Okay value
      end
  | _ => Fail NotUnique
  end.

Definition CheckQueryLimit (limit : list string) : result check_error Z :=
  match limit with
  | [] => Okay MaxQuerySize
  | [l] =>
      match ParseInt l with
      | None => Fail ParseError
      | Some value =>
          if decide (value < 0) then Fail InvalidValue
          else Okay (if decide (value > MaxQuerySize) then MaxQuerySize else value)
      end
  | _ => Fail NotUnique
  end.

Definition ParseQueryOffset (offset : string) : result check_error Z :=
  if decide (offset = "") then Okay QueryDefaultOffset
  else match ParseUint 32 offset with
       | None => Fail ParseError
       | Some tmp => Okay (u32 tmp)
       end.

Definition ParseQueryLimit (limit : string) : result check_error Z :=
  if decide (limit = "") then Okay QueryDefaultLimit
  else match ParseUint 32 limit with
       | None => Fail ParseError
       | Some tmp => Okay (u32 (if decide (tmp > QueryMaxLimit) then QueryMaxLimit else tmp))
       end.

(** The query map is changed in place, on the error paths too. *)
Definition ParseOffsetAndLimit (query : gmap string string) : gmap string string * result check_error (Z * Z) :=
  match ParseQueryOffset (GetValue (query !! "offset")) with
  | Fail e => (query, Fail e)
  | Okay ofs =>
      let query := delete "offset" query in
      match ParseQueryLimit (GetValue (query !! "limit")) with
      | Fail e => (query, Fail e)
      | Okay lmt => (delete "limit" query, Okay (ofs, lmt))
      end
  end.

(** ** Wildcards *)

Definition star : ascii := "*".

Definition IsPrefixWildName (name : string) : bool := HasSuffix name "*".
Definition IsSuffixWildName (name : string) : bool := HasPrefix name "*".
Definition IsWildName (name : string) : bool := IsPrefixWildName name || IsSuffixWildName name.

Definition ParseWildName (name : string) : string * bool :=
  if IsPrefixWildName name then (stake (String.length name - 1) name, true) else (name, false).

Definition ParseWildNameForSql (name : string) : string :=
  let name := if IsPrefixWildName name then stake (String.length name - 1) name +:+ "%" else name in
  if IsSuffixWildName name then "%" +:+ sdrop 1 name else name.

(** [strings.TrimLeft] and [strings.TrimRight] for the cutset ["*"], and
    [strings.Contains]. *)
Fixpoint TrimLeft (s : string) : string :=
  match s with String c s' => if decide (c = star) then TrimLeft s' else s | EmptyString => EmptyString end.
Fixpoint TrimRight (s : string) : string :=
  match s with
  | EmptyString => EmptyString
  | String c s' =>
      match TrimRight s' with
      | EmptyString => if decide (c = star) then EmptyString else String c EmptyString
      | t => String c t
      end
  end.
Fixpoint Contains (s p : string) : bool :=
  HasPrefix s p || match s with String _ s => Contains s p | EmptyString => false end.

Definition IsWildMatch (name pattern : string) : bool :=
  if IsPrefixWildName pattern then
    let pattern := TrimRight pattern in
    if HasPrefix name pattern then true
    else if IsSuffixWildName pattern then
      let pattern := TrimLeft pattern in
      Contains name pattern
    else false
  else if IsSuffixWildName pattern then
    let pattern := TrimLeft pattern in
    if HasSuffix name pattern then true else false
  else bool_decide (pattern = name).

(** ** Configuration files *)

Definition FileIdSeparator : string := "+".

Definition GenFileId (namespace group fileName : string) : string :=
  namespace +:+ FileIdSeparator +:+ group +:+ FileIdSeparator +:+ fileName.

Definition ParseFileId (fileId : string) : outcome (string * string * string) :=
  let fileInfo := Split "+" fileId in
  namespace ← Prelude.index fileInfo 0;
  group ← Prelude.index fileInfo 1;
  fileName ← Prelude.index fileInfo 2;
  Ret (namespace, group, fileName).

(** ** Lemmas *)

Lemma name_char_not c : c = "#"%char \/ c = "+"%char -> name_char c = false.
Proof. by intros [->| ->]. Qed.

Lemma all_name_chars_occurs c s : name_char c = false -> all_name_chars s = true -> occurs c s = false.
Proof.
  intros Hc. induction s as [|x s IH]; simpl; [done|]. rewrite andb_true_iff. intros [Hx Hs]. rewrite IH by done.
  rewrite bool_decide_false; [done|]. intros ->. congruence.
Qed.

Lemma CheckResourceName_None o :
  CheckResourceName o = None -> exists s, o = Some s /\ s <> "" /\ all_name_chars s = true.
Proof.
  destruct o as [s|]; [|done]. simpl. case_decide; [done|]. unfold resourceNameRE.
  destruct s as [|c s]; [done|]. destruct (all_name_chars (String c s)) eqn:Ha; [|done]. intros _. by exists (String c s).
Qed.

Lemma CheckResourceName_plain o c :
  name_char c = false -> CheckResourceName o = None -> occurs c (GetValue o) = false.
Proof. intros Hc (s & -> & _ & Ha)%CheckResourceName_None. by apply all_name_chars_occurs. Qed.

(** *** Hashed names *)

Definition byte (b : Z) : Prop := 0 <= b < 256.

Lemma hex_digit_inj a b : 0 <= a < 16 -> 0 <= b < 16 -> hex_digit a = hex_digit b -> a = b.
Proof.
  intros Ha Hb He.
  assert (Forall (fun a => Forall (fun b => hex_digit a = hex_digit b -> a = b) (seqZ 0 16)) (seqZ 0 16)) as HF.
  { vm_compute. repeat constructor; intros [=]. }
  rewrite Forall_forall in HF. specialize (HF a). rewrite Forall_forall in HF.
  apply HF; [apply elem_of_seqZ; lia|apply elem_of_seqZ; lia|done].
Qed.

Lemma byte_halves a b : Z.shiftr a 4 = Z.shiftr b 4 -> Z.land a 15 = Z.land b 15 -> a = b.
Proof.
  rewrite !Z.shiftr_div_pow2 by lia. change 15 with (Z.ones 4). rewrite !Z.land_ones by lia.
  intros Hd Hm. rewrite (Z.div_mod a (2 ^ 4)), (Z.div_mod b (2 ^ 4)) by lia. by rewrite Hd, Hm.
Qed.

Lemma byte_half_range b : byte b -> 0 <= Z.shiftr b 4 < 16 /\ 0 <= Z.land b 15 < 16.
Proof.
  intros Hb. change 15 with (Z.ones 4). rewrite Z.land_ones, Z.shiftr_div_pow2 by lia. split.
  - unfold byte in Hb. change (2 ^ 4) with 16. split; [apply Z.div_pos; lia|apply Z.div_lt_upper_bound; lia].
  - apply Z.mod_pos_bound. lia.
Qed.

Lemma hex_inj l1 l2 : Forall byte l1 -> Forall byte l2 -> hex l1 = hex l2 -> l1 = l2.
Proof.
  intros H1. revert l2. induction H1 as [|a l1 Ha H1 IH]; intros [|b l2] H2; simpl; try done.
  inversion H2 as [|? ? Hb H2']; subst. intros [= Hh Hl Hr].
  apply byte_half_range in Ha as [? ?]. apply byte_half_range in Hb as [? ?].
  f_equal; [|by apply IH]. apply byte_halves; by apply hex_digit_inj.
Qed.

Lemma be_bytes_byte n x : Forall byte (be_bytes n x).
Proof.
  unfold be_bytes. apply Forall_fmap, Forall_true. intros i. unfold byte, compose. change 255 with (Z.ones 8).
  rewrite Z.land_ones by lia. apply Z.mod_pos_bound. lia.
Qed.

Lemma sha1_sum_byte m : Forall byte (sha1_sum m).
Proof.
  unfold sha1_sum. destruct (foldl sha1_block _ _) as [[[[h0 h1] h2] h3] h4].
  cbn [fmap list_fmap concat]. rewrite !Forall_app. repeat split; try apply be_bytes_byte. by constructor.
Qed.

(** *** Instance names: the parts can be read off the string *)

Lemma sep_app c s t : s +:+ (String c (String c EmptyString) +:+ t) = s +:+ String c (String c t).
Proof. done. Qed.

Lemma Split_double c s t : occurs c s = false -> Split c (s +:+ String c (String c t)) = s :: "" :: Split c t.
Proof. intros Hs. rewrite Split_cons by done. simpl. by rewrite decide_True. Qed.

Definition name_parts (namespace service vpcID host : string) (port : Z) : list string :=
  namespace :: "" :: service :: "" ::
  (if decide (vpcID = "") then [] else [vpcID; ""]) ++ [host; ""; pretty port].

Lemma pretty_plain (z : Z) : occurs "#" (pretty z) = false.
Proof. by apply pretty_Z_occurs. Qed.

Lemma Split_instance_name n s v h p :
  occurs "#" n = false -> occurs "#" s = false -> occurs "#" v = false -> occurs "#" h = false ->
  Split "#" (instance_name n s v h p) = name_parts n s v h p.
Proof.
  intros Hn Hs Hv Hh. unfold instance_name, name_parts. pose proof (pretty_plain p).
  destruct (decide (v = "")); rewrite !sep_app; repeat (rewrite Split_double by done);
    by rewrite Split_plain by done.
Qed.

Lemma name_parts_inj n s v h p n' s' v' h' p' :
  name_parts n s v h p = name_parts n' s' v' h' p' -> n = n' /\ s = s' /\ v = v' /\ h = h' /\ p = p'.
Proof.
  unfold name_parts. intros He.
  assert (pretty p = pretty p' -> p = p') as Hp.
  { intros Hp. apply (f_equal signed) in Hp. rewrite !signed_pretty in Hp. congruence. }
  destruct (decide (v = "")), (decide (v' = "")); simpl in He; inversion He; subst; auto 10.
Qed.

Lemma CheckInstanceTetrad_Okay req id :
  CheckInstanceTetrad req = Okay id ->
  CheckResourceName (a_service req) = None /\ CheckResourceName (a_namespace req) = None /\
  GetValue (a_host req) <> "" /\ is_Some (a_port req) /\
  id = (if decide (GetValue (a_id req) = "")
        then CalculateInstanceID (GetValue (a_namespace req)) (GetValue (a_service req)) (GetValue (a_vpc req))
               (GetValue (a_host req)) (GetUint (a_port req))
        else GetValue (a_id req)).
Proof.
  unfold CheckInstanceTetrad. destruct (CheckResourceName (a_service req)); [done|].
  destruct (CheckResourceName (a_namespace req)); [done|]. unfold CheckInstanceHost, CheckInstancePort.
  destruct (a_host req) as [h|]; [|done]. destruct (decide (h = "")); [done|]. destruct (a_port req); [|done].
  intros He. split; [done|]. split; [done|]. split; [done|]. split; [done|].
  destruct (decide (GetValue (a_id req) = "")); congruence.
Qed.

(** *** Wildcards *)

Fixpoint stars (n : nat) : string := match n with O => EmptyString | S n => String star (stars n) end.

Lemma HasPrefix_spec s p : HasPrefix s p = true <-> exists t, s = p +:+ t.
Proof.
  revert s. induction p as [|c p IH]; intros s; simpl.
  - split; [intros _; by exists s|]. intros _. by destruct s.
  - destruct s as [|x s]; [split; [done|by intros [t [=]]]|].
    cbn [HasPrefix]. rewrite andb_true_iff, bool_decide_eq_true, IH. split.
    + intros [-> [t ->]]. by exists t.
    + intros [t [= -> ->]]. split; [done|by exists t].
Qed.

Lemma stake_sdrop n s : s = stake n s +:+ sdrop n s.
Proof.
  revert s. induction n as [|n IH]; intros [|x s]; [done..|]. change (String x s = String x (stake n s +:+ sdrop n s)).
  by rewrite <- IH.
Qed.

Lemma HasSuffix_spec s p : HasSuffix s p = true <-> exists t, s = t +:+ p.
Proof.
  unfold HasSuffix. rewrite andb_true_iff, !bool_decide_eq_true. split.
  - intros [_ He]. exists (stake (String.length s - String.length p) s). pose proof (stake_sdrop (String.length s - String.length p) s) as Hs. by rewrite He in Hs.
  - intros [t ->]. rewrite length_sapp. split; [lia|]. apply sdrop_app. lia.
Qed.

Lemma Contains_spec s p : Contains s p = true <-> exists a b, s = a +:+ p +:+ b.
Proof.
  induction s as [|x s IH]; cbn [Contains]; rewrite orb_true_iff, HasPrefix_spec.
  - split; [intros [[t Ht]|[=]]; by exists "", t|]. intros (a & b & He). left. exists b.
    destruct a; [done|discriminate He].
  - rewrite IH. split.
    + intros [[t Ht]|(a & b & ->)]; [by exists "", t|by exists (String x a), b].
    + intros ([|y a] & b & He); [left; by exists b|]. right. injection He as -> ->. by exists a, b.
Qed.

Lemma TrimLeft_stars n s : TrimLeft (stars n +:+ s) = TrimLeft s.
Proof.
  induction n as [|n IH]; [done|]. change (stars (S n) +:+ s) with (String star (stars n +:+ s)).
  cbn [TrimLeft]. by rewrite decide_True.
Qed.
Lemma TrimLeft_plain s : occurs star s = false -> TrimLeft s = s.
Proof. destruct s as [|c s]; [done|]. cbn [occurs TrimLeft]. rewrite orb_false_iff, bool_decide_eq_false. intros [Hc _]. by rewrite decide_False. Qed.

Lemma TrimRight_stars n : TrimRight (stars n) = "".
Proof. induction n as [|n IH]; [done|]. cbn [stars TrimRight]. rewrite IH. by rewrite decide_True. Qed.
Lemma TrimRight_core s n : occurs star s = false -> TrimRight (s +:+ stars n) = s.
Proof.
  induction s as [|c s IH]; [intros _; apply TrimRight_stars|]. cbn [occurs]. rewrite orb_false_iff, bool_decide_eq_false.
  intros [Hc Hs]. change (String c s +:+ stars n) with (String c (s +:+ stars n)). cbn [TrimRight]. rewrite IH by done.
  destruct s; [by rewrite decide_False|done].
Qed.
Lemma TrimRight_app s t : TrimRight t <> "" -> TrimRight (s +:+ t) = s +:+ TrimRight t.
Proof.
  intros Ht. induction s as [|c s IH]; [done|]. change (TrimRight (String c s +:+ t)) with (TrimRight (String c (s +:+ t))).
  cbn [TrimRight]. rewrite IH. destruct (s +:+ TrimRight t) eqn:He; [|change (String c s +:+ TrimRight t) with (String c (s +:+ TrimRight t)); by rewrite He].
  destruct s; [done|discriminate He].
Qed.

Lemma sapp_empty s t : s +:+ t = "" -> s = "" /\ t = "".
Proof. destruct s; [by intros|discriminate]. Qed.

Lemma ends_with_star s core t :
  s +:+ core = t +:+ String star "" -> core <> "" -> occurs star core = true.
Proof.
  intros He Hc. revert t He. induction s as [|x s IH]; intros t He.
  - change (core = t +:+ String star "") in He. subst. rewrite occurs_app. cbn [occurs]. rewrite bool_decide_true by done.
    by destruct (occurs star t).
  - destruct t as [|y t].
    + injection He as _ He. change (s +:+ core = "") in He. apply sapp_empty in He as [_ ->]. done.
    + injection He as _ He. by apply (IH t).
Qed.

Lemma IsPrefixWildName_stars s r : IsPrefixWildName (s +:+ stars (S r)) = true.
Proof.
  apply HasSuffix_spec. exists (s +:+ stars r). rewrite sapp_assoc. f_equal. clear s. induction r as [|r IH]; [done|].
  change (String star (stars (S r)) = String star (stars r +:+ String star "")). f_equal. exact IH.
Qed.

Lemma IsPrefixWildName_core s core : occurs star core = false -> core <> "" -> IsPrefixWildName (s +:+ core) = false.
Proof.
  intros Hs Hc. apply not_true_iff_false. intros [t Ht]%HasSuffix_spec.
  apply ends_with_star in Ht; [congruence|done].
Qed.

Lemma IsSuffixWildName_core core : occurs star core = false -> IsSuffixWildName core = false.
Proof.
  destruct core as [|c core]; [done|]. cbn [occurs]. rewrite orb_false_iff, bool_decide_eq_false. intros [Hc _].
  unfold IsSuffixWildName. cbn [HasPrefix]. by rewrite bool_decide_false.
Qed.

Lemma IsSuffixWildName_stars l s : IsSuffixWildName (stars (S l) +:+ s) = true.
Proof. apply HasPrefix_spec. by exists (stars l +:+ s). Qed.

(** What a pattern of [l] stars, a core and [r] stars matches. *)
Definition glob (l : nat) (core : string) (r : nat) (name : string) : Prop :=
  exists a b, name = a +:+ core +:+ b /\ (l = 0%nat -> a = "") /\ (r = 0%nat -> b = "").

Lemma stars_app m n : stars m +:+ stars n = stars (m + n).
Proof. induction m as [|m IH]; [done|]. change (String star (stars m +:+ stars n) = String star (stars (m + n))). by rewrite IH. Qed.

Lemma IsWildMatch_all n name : IsWildMatch name (stars (S n)) = true.
Proof.
  unfold IsWildMatch. rewrite (IsPrefixWildName_stars "" n : IsPrefixWildName (stars (S n)) = true). cbv zeta.
  rewrite TrimRight_stars. by destruct name.
Qed.

Lemma IsWildMatch_right l core r name :
  occurs star core = false -> core <> "" ->
  IsWildMatch name (stars l +:+ core +:+ stars (S r)) = true <-> glob l core (S r) name.
Proof.
  intros Hs Hc. unfold IsWildMatch. rewrite <- (sapp_assoc (stars l)), IsPrefixWildName_stars, sapp_assoc. cbv zeta.
  rewrite TrimRight_app by (by rewrite TrimRight_core). rewrite TrimRight_core by done.
  unfold glob. destruct (HasPrefix name (stars l +:+ core)) eqn:Hp.
  - split; [intros _|done]. apply HasPrefix_spec in Hp as [t ->]. exists (stars l), t.
    rewrite sapp_assoc. by destruct l.
  - destruct l as [|l].
    + change (stars 0 +:+ core) with core in *. rewrite IsSuffixWildName_core by done. split; [done|].
      intros (a & b & -> & Ha & _). rewrite (Ha eq_refl) in Hp.
      assert (HasPrefix (core +:+ b) core = true) as Hp' by (apply HasPrefix_spec; by exists b). by rewrite <- Hp', <- Hp.
    + rewrite IsSuffixWildName_stars, TrimLeft_stars, TrimLeft_plain by done. rewrite Contains_spec. naive_solver.
Qed.

Lemma IsWildMatch_exact l core name :
  occurs star core = false -> core <> "" ->
  IsWildMatch name (stars l +:+ core) = true <-> glob l core 0 name.
Proof.
  intros Hs Hc. unfold IsWildMatch. rewrite IsPrefixWildName_core by done. unfold glob. destruct l as [|l].
  - change (stars 0 +:+ core) with core. rewrite IsSuffixWildName_core by done. rewrite bool_decide_eq_true. split.
    + intros <-. exists "", "". split; [by rewrite sapp_nil_r|done].
    + intros (a & b & -> & Ha & Hb). rewrite (Ha eq_refl), (Hb eq_refl). by rewrite sapp_nil_r.
  - rewrite IsSuffixWildName_stars. cbv zeta. rewrite TrimLeft_stars, TrimLeft_plain by done.
    destruct (HasSuffix name core) eqn:Hf.
    + split; [intros _|done]. apply HasSuffix_spec in Hf as [t ->]. exists t, "". by rewrite sapp_nil_r.
    + split; [done|]. intros (a & b & -> & _ & Hb). rewrite (Hb eq_refl), sapp_nil_r in Hf.
      assert (HasSuffix (a +:+ core) core = true) by (apply HasSuffix_spec; by exists a). congruence.
Qed.

Lemma ParseUint_range w s z : ParseUint w s = Some z -> 0 <= z < 2 ^ w.
Proof.
  unfold ParseUint. destruct s as [|c s]; [done|]. destruct (digits (String c s) 0) as [n|]; [|done].
  case_decide; [|done]. intros [= <-]. lia.
Qed.

Lemma ParseQueryLimit_range s z : ParseQueryLimit s = Okay z -> 0 <= z <= QueryMaxLimit.
Proof.
  unfold ParseQueryLimit. case_decide; [intros [= <-]; done|].
  destruct (ParseUint 32 s) as [t|] eqn:Ht; [|done]. intros [= <-]. apply ParseUint_range in Ht.
  unfold QueryMaxLimit. case_decide; rewrite wrap_u_small; lia.
Qed.

Lemma ParseQueryOffset_range s z : ParseQueryOffset s = Okay z -> 0 <= z < 2 ^ 32.
Proof.
  unfold ParseQueryOffset. case_decide; [intros [= <-]; done|].
  destruct (ParseUint 32 s) as [t|]; [|done]. intros [= <-]. by apply wrap_u_range.
Qed.

(** ** Properties *)

(** The id computed for a request that names its instance identifies the
    instance: two requests that pass the checks with the same id name the same
    namespace, service, VPC, host and port, as long as the hash does not
    collide on the two names and no host or VPC contains the separator
    (namespace and service cannot: [CheckResourceName] refuses it). *)
Theorem instance_id_identifies (r1 r2 : ApiInstance) (id : string) :
  let name_of r := instance_name (GetValue (a_namespace r)) (GetValue (a_service r)) (GetValue (a_vpc r))
                     (GetValue (a_host r)) (GetUint (a_port r)) in
  let plain r := GetValue (a_id r) = "" /\ occurs "#" (GetValue (a_host r)) = false /\ occurs "#" (GetValue (a_vpc r)) = false in
  plain r1 -> plain r2 ->
  (sha1_sum (bytes_of (name_of r1)) = sha1_sum (bytes_of (name_of r2)) -> name_of r1 = name_of r2) ->
  CheckInstanceTetrad r1 = Okay id -> CheckInstanceTetrad r2 = Okay id ->
  GetValue (a_namespace r1) = GetValue (a_namespace r2) /\ GetValue (a_service r1) = GetValue (a_service r2) /\
  GetValue (a_vpc r1) = GetValue (a_vpc r2) /\ GetValue (a_host r1) = GetValue (a_host r2) /\ a_port r1 = a_port r2.
Proof.
  intros name_of plain (Hi1 & Hh1 & Hv1) (Hi2 & Hh2 & Hv2) Hcol
    (Hs1 & Hn1 & _ & [p1 Hp1] & He1)%CheckInstanceTetrad_Okay (Hs2 & Hn2 & _ & [p2 Hp2] & He2)%CheckInstanceTetrad_Okay.
  rewrite decide_True in He1 by done. rewrite decide_True in He2 by done. subst id.
  assert (forall o, CheckResourceName o = None -> occurs "#" (GetValue o) = false) as Hplain.
  { intros o. apply CheckResourceName_plain, name_char_not. by left. }
  assert (name_of r1 = name_of r2) as Hname.
  { apply Hcol, hex_inj; [apply sha1_sum_byte..|done]. }
  apply (f_equal (Split "#")) in Hname. subst name_of. cbv beta in Hname.
  rewrite !Split_instance_name in Hname by auto. apply name_parts_inj in Hname as (? & ? & ? & ? & Hp).
  rewrite Hp1, Hp2 in *. naive_solver.
Qed.

(** A host may contain the separator (only its presence is checked), and
    then two different instances get the same id: the host ["a##b"] without
    a VPC, and the host ["b"] in the VPC ["a"]. *)
Theorem instance_id_confusable :
  let r1 := mkApiInstance None (Some "svc") (Some "default") None (Some "a##b") (Some 80) in
  let r2 := mkApiInstance None (Some "svc") (Some "default") (Some "a") (Some "b") (Some 80) in
  exists id, CheckInstanceTetrad r1 = Okay id /\ CheckInstanceTetrad r2 = Okay id /\ a_host r1 <> a_host r2.
Proof. eexists. split; [vm_compute; reflexivity|]. split; [vm_compute; reflexivity|]. done. Qed.

(** The wildcard test of the list queries is prefix, suffix and substring
    matching: for a pattern of stars, a core without stars, and stars, a name
    matches exactly when it is the core extended on the starred sides. *)
Theorem wild_match_is_glob (l r : nat) (core name : string) :
  occurs star core = false ->
  IsWildMatch name (stars l +:+ core +:+ stars r) = true <-> glob l core r name.
Proof.
  intros Hs. destruct (decide (core = "")) as [->|Hc].
  - change ("" +:+ stars r) with (stars r). rewrite stars_app. destruct (l + r)%nat as [|n] eqn:Hn.
    + change (IsWildMatch name (stars 0)) with (bool_decide ("" = name)). rewrite bool_decide_eq_true. split.
      * intros <-. by exists "", "".
      * intros (a & b & -> & Ha & Hb). by rewrite Ha, Hb by lia.
    + rewrite IsWildMatch_all. split; [intros _|done].
      destruct r; [exists name, ""|exists "", name]; (split; [by rewrite ?sapp_nil_r|]); split; (done || lia).
  - destruct r as [|r]; [|by apply IsWildMatch_right]. change (stars 0) with "". rewrite sapp_nil_r. by apply IsWildMatch_exact.
Qed.

(** A parsed page is within the server's bounds (at most 100 entries, a
    32-bit offset) and its two keys are taken out of the query; without the
    keys it is the default page. *)
Theorem parsed_page_is_bounded (query query' : gmap string string) (ofs lmt : Z) :
  ParseOffsetAndLimit query = (query', Okay (ofs, lmt)) ->
  0 <= ofs < 2 ^ 32 /\ 0 <= lmt <= 100 /\ query' = delete "limit" (delete "offset" query) /\
  (query !! "offset" = None -> ofs = 0) /\ (query !! "limit" = None -> lmt = 100).
Proof.
  unfold ParseOffsetAndLimit. destruct (ParseQueryOffset _) as [o|] eqn:Ho; [|done].
  destruct (ParseQueryLimit _) as [m|] eqn:Hm; [|done]. intros [= <- <- <-].
  pose proof (ParseQueryOffset_range _ _ Ho) as Hor. pose proof (ParseQueryLimit_range _ _ Hm) as Hmr.
  split; [done|]. split; [done|]. split; [done|]. split.
  - intros Hq. rewrite Hq in Ho. by injection Ho as <-.
  - intros Hq. rewrite lookup_delete_ne, Hq in Hm by done. by injection Hm as <-.
Qed.

(** The id of a configuration file parses back to its namespace, group
    and name when none of them contains the separator. *)
Theorem file_id_roundtrip (namespace group fileName : string) :
  occurs "+" namespace = false -> occurs "+" group = false -> occurs "+" fileName = false ->
  ParseFileId (GenFileId namespace group fileName) = Ret (namespace, group, fileName).
Proof.
  intros Hn Hg Hf. unfold ParseFileId, GenFileId, FileIdSeparator.
  change ("+" +:+ group +:+ "+" +:+ fileName) with (String "+" (group +:+ String "+" fileName)).
  by rewrite !Split_cons, Split_plain by done.
Qed.

(** Ids of files without separators are of no other files. *)
Lemma GenFileId_inj n g f n' g' f' :
  occurs "+" n = false -> occurs "+" g = false -> occurs "+" f = false -> GenFileId n g f = GenFileId n' g' f' -> n' = n /\ g' = g /\ f' = f.
Proof.
  intros Hn Hg Hf Heq. apply (f_equal (Split "+")) in Heq. unfold GenFileId, FileIdSeparator in Heq.
  assert (forall x y z, x +:+ "+" +:+ y +:+ "+" +:+ z = x +:+ String "+" (y +:+ String "+" z)) as Hs by done.
  rewrite !Hs, !Split_app, (Split_plain _ n), (Split_plain _ g), (Split_plain _ f) in Heq by done.
  assert (forall s, exists p ps, Split "+" s = p :: ps) as Hne.
  { intros s. destruct (Split "+" s) eqn:H; [by destruct (Split_nil "+" s)|by eexists _, _]. }
  destruct (Hne n') as (p1 & l1 & H1), (Hne g') as (p2 & l2 & H2), (Hne f') as (p3 & l3 & H3).
  rewrite H1, H2, H3 in Heq. destruct l1, l2, l3; simpl in Heq; try (apply (f_equal length) in Heq; simpl in Heq; rewrite ?length_app in Heq; simpl in Heq; rewrite ?length_app in Heq; simpl in Heq; lia).
  injection Heq as -> -> ->. by apply Split_single in H1, H2, H3.
Qed.

(** ** Witnesses *)

Definition named (host : string) : ApiInstance := mkApiInstance None (Some "svc") (Some "default") None (Some host) (Some 80).

Lemma instance_id_identifies_witness :
  exists id, CheckInstanceTetrad (named "h1") = Okay id /\ GetValue (a_host (named "h1")) = GetValue (a_host (named "h1")).
Proof.
  eexists. split; [reflexivity|].
  apply (instance_id_identifies (named "h1") (named "h1") (CalculateInstanceID "default" "svc" "" "h1" 80)).
  - repeat split; reflexivity.
  - repeat split; reflexivity.
  - reflexivity.
  - reflexivity.
  - reflexivity.
Defined.

Lemma wild_match_is_glob_witness : IsWildMatch "polaris" (stars 1 +:+ "lar" +:+ stars 1) = true.
Proof. apply (wild_match_is_glob 1 1 "lar" "polaris"); [reflexivity|]. exists "po", "is". repeat split; done. Defined.

Definition page_query : gmap string string := <["offset" := "20"]> (<["limit" := "1000"]> ∅).

Lemma parsed_page_is_bounded_witness :
  ParseOffsetAndLimit page_query = (∅, Okay (20, 100)) /\ 0 <= 20 < 2 ^ 32 /\ 0 <= 100 <= 100 /\
  ∅ = delete "limit" (delete "offset" page_query).
Proof.
  split; [vm_compute; reflexivity|].
  destruct (parsed_page_is_bounded page_query ∅ 20 100) as (H1 & H2 & H3 & _); [vm_compute; reflexivity|].
  split; [exact H1|]. split; [exact H2|exact H3].
Defined.

Lemma file_id_roundtrip_witness : ParseFileId (GenFileId "default" "group" "app.yaml") = Ret ("default", "group", "app.yaml").
Proof. apply (file_id_roundtrip "default" "group" "app.yaml"); reflexivity. Defined.
