(* ===== verification/Sharded.v ===== *)
(** * Sharded maps: a map split over a list of maps by an index function

    Shared by [ShardMap.v] (the health checker's maps) and [SegmentMap.v]
    (the heartbeat records): both spread their keys over several Go maps. *)

From S2P Require Import Prelude.
From Stdlib Require Import ZArith Lia.
From stdpp Require Import base tactics list gmap.

Section sharded.
  Context {K V : Type} `{Countable K} (idx : K -> nat).
  Implicit Types (ls : list (gmap K V)).

(** The map the shards stand for. *)
Definition abs (ls : list (gmap K V)) : gmap K V := foldr (∪) ∅ ls.

(** Every key sits in the shard its index names. *)
Definition placed (ls : list (gmap K V)) : Prop :=
  forall i s k, ls !! i = Some s -> is_Some (s !! k) -> idx k = i.

Lemma abs_lookup_single ls j k :
  (forall i s, ls !! i = Some s -> i <> j -> s !! k = None) ->
  abs ls !! k = default ∅ (ls !! j) !! k.
Proof.
  revert j. induction ls as [|s ls IH]; intros j Hne; simpl; [done|].
  destruct j as [|j]; simpl.
  - assert (abs ls !! k = None) as Hn.
    { rewrite (IH (length ls)).
      - by rewrite lookup_ge_None_2.
      - intros i s' Hs' _. by apply (Hne (S i) s'). }
    fold (abs ls). destruct (s !! k) eqn:Hk; [by apply lookup_union_Some_l|by rewrite lookup_union_r].
  - rewrite lookup_union_r by (by apply (Hne O s)). apply (IH j).
    intros i s' Hs' Hi. apply (Hne (S i) s'); [done|lia].
Qed.

Lemma abs_lookup ls k : placed ls -> abs ls !! k = default ∅ (ls !! idx k) !! k.
Proof.
  intros Hp. apply abs_lookup_single. intros i s Hs Hi.
  destruct (s !! k) eqn:Hk; [|done]. destruct Hi. symmetry. by eapply Hp; [|eexists].
Qed.

Lemma placed_update ls k s s' :
  placed ls -> ls !! idx k = Some s -> (forall k', k' <> k -> s' !! k' = s !! k') ->
  placed (<[idx k := s']> ls).
Proof.
  intros Hp Hs Hs' i t k' Ht Hk'. destruct (decide (i = idx k)) as [->|Hi].
  - rewrite list_lookup_insert_eq in Ht by (by eapply lookup_lt_Some). simplify_eq.
    destruct (decide (k' = k)) as [->|Hk]; [done|]. rewrite Hs' in Hk' by done. by eapply Hp.
  - rewrite list_lookup_insert_ne in Ht by done. by eapply Hp.
Qed.

(** Updating one key in its shard updates that key of the map. *)
Lemma abs_update ls k s s' :
  placed ls -> ls !! idx k = Some s -> (forall k', k' <> k -> s' !! k' = s !! k') ->
  abs (<[idx k := s']> ls) = partial_alter (fun _ => s' !! k) k (abs ls).
Proof.
  intros Hp Hs Hs'. apply map_eq. intros k'.
  rewrite abs_lookup by (by eapply placed_update).
  pose proof (lookup_lt_Some _ _ _ Hs).
  destruct (decide (k' = k)) as [->|Hk].
  - by rewrite lookup_partial_alter_eq, list_lookup_insert_eq.
  - rewrite lookup_partial_alter_ne, abs_lookup by done.
    destruct (decide (idx k' = idx k)) as [He|He].
    + rewrite He, list_lookup_insert_eq, Hs by done. simpl. by apply Hs'.
    + by rewrite list_lookup_insert_ne.
Qed.

Lemma abs_insert ls k s v :
  placed ls -> ls !! idx k = Some s -> abs (<[idx k := <[k := v]> s]> ls) = <[k := v]> (abs ls).
Proof.
  intros Hp Hs. rewrite (abs_update ls k s); [|done..|by intros; rewrite lookup_insert_ne].
  by rewrite lookup_insert_eq.
Qed.

Lemma abs_delete ls k s :
  placed ls -> ls !! idx k = Some s -> abs (<[idx k := delete k s]> ls) = delete k (abs ls).
Proof.
  intros Hp Hs. rewrite (abs_update ls k s); [|done..|by intros; rewrite lookup_delete_ne].
  by rewrite lookup_delete_eq.
Qed.

(** Walking the shards one after the other visits every entry once. *)
Lemma abs_range_gen ls (n : nat) :
  (forall i s k, ls !! i = Some s -> is_Some (s !! k) -> idx k = (n + i)%nat) ->
  concat (map_to_list <$> ls) ≡ₚ map_to_list (abs ls).
Proof.
  revert n. induction ls as [|s ls IH]; intros n Hp; csimpl; [by rewrite map_to_list_empty|].
  assert (s ##ₘ abs ls) as Hd.
  { apply map_disjoint_spec. intros k x y Hx Hy.
    assert (idx k = n) as Hk by (rewrite (Hp O s k); [lia|done|by eexists]).
    enough (abs ls !! k = None) by congruence.
    rewrite (abs_lookup_single ls (length ls)).
    - by rewrite lookup_ge_None_2.
    - intros i s' Hs' _. destruct (s' !! k) eqn:He; [|done].
      assert (idx k = n + S i)%nat by (apply (Hp (S i) s'); [done|by eexists]). lia. }
  rewrite (IH (S n)).
  - rewrite <- (list_to_map_to_list s) at 2. fold (abs ls).
    rewrite <- (list_to_map_to_list (abs ls)) at 2. rewrite <- list_to_map_app.
    rewrite map_to_list_to_map; [done|].
    apply NoDup_fmap_fst.
    + intros k x y Hx Hy. rewrite elem_of_app, !elem_of_map_to_list in Hx, Hy.
      rewrite map_disjoint_spec in Hd. naive_solver.
    + apply NoDup_app. split_and!; [apply NoDup_map_to_list| |apply NoDup_map_to_list].
      intros [k x] Hx Hy. rewrite !elem_of_map_to_list in *. rewrite map_disjoint_spec in Hd. naive_solver.
  - intros i s' k Hs' Hk. rewrite (Hp (S i) s' k); [lia|done..].
Qed.

Lemma abs_range ls : placed ls -> concat (map_to_list <$> ls) ≡ₚ map_to_list (abs ls).
Proof. intros Hp. by apply (abs_range_gen ls 0). Qed.

Lemma abs_size ls : placed ls -> sum_list (size <$> ls) = size (abs ls).
Proof.
  intros Hp. rewrite <- length_map_to_list, <- (abs_range ls Hp).
  clear Hp. induction ls as [|s ls IH]; csimpl; [done|].
  by rewrite length_app, length_map_to_list, IH.
Qed.

Lemma abs_replicate n : abs (replicate n ∅) = ∅ /\ placed (replicate n ∅).
Proof.
  split.
  - induction n as [|n IH]; [done|]. simpl. fold (abs (replicate n ∅)). by rewrite IH, map_union_empty.
  - intros i s k [Hs _]%lookup_replicate [v Hv]. subst s. by rewrite lookup_empty in Hv.
Qed.
End sharded.

#[export] Hint Resolve abs_range : go.
