(* ===== verification/ShardMap.v ===== *)
(** * The health checker's sharded map ([src/service/healthcheck/shardmap.go])

    [shardMap] spreads its keys over [shardSize] Go maps by their FNV hash and
    keeps a count of its own.  Each operation holds its shard's lock for its
    whole effect, so it is one step here.  The file shows that the sharded map
    is a map: see [shardMap_refines_map]. *)

From S2P Require Import Prelude Hash Sharded.
From Stdlib Require Import ZArith Lia.
From stdpp Require Import base tactics list gmap strings.

Open Scope Z_scope.

Section ShardMap.
  (** [V] is the type of [ItemWithChecker]. *)
  Context {V : Type}.

Record shardMap := mkShardMap {
  shardSize : Z;
  shards : list (gmap string V);
  size : Z }.

Definition NewShardMap (n : Z) : shardMap :=
  mkShardMap n (replicate (Z.to_nat n) ∅) 0.

(** [Fnv32(instanceId) % int(shardSize)]. *)
Definition shard_index (m : shardMap) (instanceId : string) : outcome Z :=
  if decide (shardSize m = 0) then Panics DivideByZero
  else Ret (Z.rem (Fnv32 instanceId) (shardSize m)).

Definition getShard (m : shardMap) (instanceId : string) : outcome (Z * gmap string V) :=
  i ← shard_index m instanceId;
  s ← index (shards m) i;
  Ret (i, s).

Definition Store (m : shardMap) (instanceId : string) (value : V) : outcome shardMap :=
  '(i, shard) ← getShard m instanceId;
  shards' ← store_at (shards m) i (<[instanceId := value]> shard);
  match shard !! instanceId with
  | Some _ => Ret (mkShardMap (shardSize m) shards' (size m))
  | None => Ret (mkShardMap (shardSize m) shards' (i32 (size m + 1)))
  end.

(** Returns the old value (nil when there is none) and whether it stored. *)
Definition PutIfAbsent (m : shardMap) (instanceId : string) (value : V)
    : outcome (shardMap * option V * bool) :=
  '(i, shard) ← getShard m instanceId;
  match shard !! instanceId with
  | None =>
      shards' ← store_at (shards m) i (<[instanceId := value]> shard);
      Ret (mkShardMap (shardSize m) shards' (i32 (size m + 1)), None, true)
  | Some old => Ret (m, Some old, false)
  end.

Definition Load (m : shardMap) (instanceId : string) : outcome (option V) :=
  '(_, shard) ← getShard m instanceId; Ret (shard !! instanceId).

Definition Delete (m : shardMap) (instanceId : string) : outcome shardMap :=
  '(i, shard) ← getShard m instanceId;
  match shard !! instanceId with
  | Some _ =>
      shards' ← store_at (shards m) i (delete instanceId shard);
      Ret (mkShardMap (shardSize m) shards' (i32 (size m + -1)))
  | None => Ret m
  end.

Definition DeleteIfExist (m : shardMap) (instanceId : string) : outcome (shardMap * bool) :=
  if decide (instanceId = "") then Ret (m, false)
  else
    '(i, shard) ← getShard m instanceId;
    match shard !! instanceId with
    | Some _ =>
        shards' ← store_at (shards m) i (delete instanceId shard);
        Ret (mkShardMap (shardSize m) shards' (i32 (size m + -1)), true)
    | None => Ret (m, false)
    end.

(** The entries [fn] is called on, shard after shard (the order inside a shard
    is Go's, so theorems about it are up to permutation). *)
Definition Range (m : shardMap) : list (string * V) := concat (map_to_list <$> shards m).

Definition Count (m : shardMap) : Z := size m.

(** ** Specification *)

(** The shard a key belongs to. *)
Definition home (m : shardMap) (k : string) : nat := Z.to_nat (Z.rem (Fnv32 k) (shardSize m)).

(** The map a sharded map stands for. *)
Definition contents (m : shardMap) : gmap string V := abs (shards m).

Record inv (m : shardMap) : Prop := {
  inv_size_pos : 0 < shardSize m;
  inv_len : Z.of_nat (length (shards m)) = shardSize m;
  inv_placed : placed (home m) (shards m);
  inv_count : size m = i32 (Z.of_nat (base.size (contents m))) }.

End ShardMap.
Arguments shardMap : clear implicits.

Section lemmas.
  Context {V : Type}.
  Implicit Types (m : shardMap V) (k : string) (v : V).

Lemma shard_index_home m k :
  inv m -> shard_index m k = Ret (Z.of_nat (home m k)) /\ (home m k < length (shards m))%nat.
Proof.
  intros [Hpos Hlen _ _]. unfold shard_index, home. rewrite decide_False by lia.
  pose proof (Fnv32_range k). rewrite Z.rem_mod_nonneg by lia.
  pose proof (Z.mod_pos_bound (Fnv32 k) (shardSize m)).
  split; [f_equal; lia|lia].
Qed.

Lemma getShard_home m k :
  inv m ->
  exists s, shards m !! home m k = Some s /\ getShard m k = Ret (Z.of_nat (home m k), s) /\
    s !! k = contents m !! k.
Proof.
  intros Hi. destruct (shard_index_home m k Hi) as [He Hlt].
  destruct (index_in_range (shards m) (Z.of_nat (home m k))) as (s & Hs & Hix); [lia|].
  rewrite Nat2Z.id in Hs. exists s. split; [done|]. unfold getShard. rewrite He. simpl.
  rewrite Hix. split; [done|]. unfold contents. rewrite (abs_lookup (home m)) by apply Hi. by rewrite Hs.
Qed.

(** The state after writing one shard, for a write that changes one key. *)
Lemma update_inv m k s s' n :
  inv m -> shards m !! home m k = Some s -> (forall k', k' <> k -> s' !! k' = s !! k') ->
  let m' := mkShardMap (shardSize m) (<[home m k := s']> (shards m)) n in
  n = i32 (Z.of_nat (base.size (contents m'))) -> inv m'.
Proof.
  intros [Hpos Hlen Hpl Hc] Hs Hs' m' Hn. constructor; simpl; [done| | |done].
  - by rewrite length_insert.
  - by eapply placed_update.
Qed.

Lemma store_home m k s :
  inv m -> store_at (shards m) (Z.of_nat (home m k)) s = Ret (<[home m k := s]> (shards m)).
Proof.
  intros Hi. destruct (shard_index_home m k Hi) as [_ Hlt]. rewrite store_at_Ret by lia.
  by rewrite Nat2Z.id.
Qed.

Lemma insert_inv m k v s :
  inv m -> shards m !! home m k = Some s ->
  let m' n := mkShardMap (shardSize m) (<[home m k := <[k := v]> s]> (shards m)) n in
  let n' := match contents m !! k with Some _ => size m | None => i32 (size m + 1) end in
  contents (m' n') = <[k := v]> (contents m) /\ inv (m' n').
Proof.
  intros Hi Hs m' n'. assert (contents (m' n') = <[k := v]> (contents m)) as Hc.
  { apply (abs_insert (home m)); [apply Hi|done]. }
  split; [done|]. eapply update_inv; [done..|by intros; rewrite lookup_insert_ne|].
  fold (m' n'). rewrite Hc. unfold n'. destruct (contents m !! k) eqn:Hk.
  - rewrite map_size_insert_Some by done. apply Hi.
  - rewrite map_size_insert_None by done. rewrite (inv_count m Hi), wrap_i_add. f_equal. lia.
Qed.

Lemma delete_inv m k v s :
  inv m -> shards m !! home m k = Some s -> contents m !! k = Some v ->
  let m' := mkShardMap (shardSize m) (<[home m k := delete k s]> (shards m)) (i32 (size m + -1)) in
  contents m' = delete k (contents m) /\ inv m'.
Proof.
  intros Hi Hs Hk m'. assert (contents m' = delete k (contents m)) as Hc.
  { apply (abs_delete (home m)); [apply Hi|done]. }
  split; [done|]. eapply update_inv; [done..|by intros; rewrite lookup_delete_ne|].
  fold m'. rewrite Hc, map_size_delete_Some by eauto. rewrite (inv_count m Hi), wrap_i_add. f_equal.
  assert (base.size (contents m) <> 0)%nat.
  { rewrite map_size_non_empty_iff. intros He. by rewrite He in Hk. }
  lia.
Qed.

Lemma NewShardMap_inv n : 0 < n -> inv (NewShardMap (V := V) n) /\ contents (NewShardMap (V := V) n) = ∅.
Proof.
  intros Hn. destruct (abs_replicate (V := V) (home (NewShardMap (V := V) n)) (Z.to_nat n)) as [Ha Hp].
  split; [|done]. constructor; simpl; [done| |done|].
  - rewrite length_replicate. lia.
  - unfold contents. simpl. by rewrite Ha.
Qed.

Lemma Store_spec m k v :
  inv m -> exists m', Store m k v = Ret m' /\ contents m' = <[k := v]> (contents m) /\ inv m' /\ shardSize m' = shardSize m.
Proof.
  intros Hi. destruct (getShard_home m k Hi) as (s & Hs & He & Hk).
  destruct (insert_inv m k v s Hi Hs) as [Hc Hi']. unfold Store. rewrite He. simpl.
  rewrite store_home by done. simpl. rewrite Hk. destruct (contents m !! k); eexists; done.
Qed.

Lemma PutIfAbsent_spec m k v :
  inv m ->
  exists m', PutIfAbsent m k v = Ret (m', contents m !! k, bool_decide (contents m !! k = None)) /\
    contents m' = (match contents m !! k with Some _ => contents m | None => <[k := v]> (contents m) end) /\
    inv m' /\ shardSize m' = shardSize m.
Proof.
  intros Hi. destruct (getShard_home m k Hi) as (s & Hs & He & Hk).
  destruct (insert_inv m k v s Hi Hs) as [Hc Hi']. unfold PutIfAbsent. rewrite He. simpl.
  rewrite store_home by done. rewrite Hk. destruct (contents m !! k); by eexists.
Qed.

Lemma Load_spec m k : inv m -> Load m k = Ret (contents m !! k).
Proof.
  intros Hi. destruct (getShard_home m k Hi) as (s & Hs & He & Hk).
  unfold Load. rewrite He. simpl. by rewrite Hk.
Qed.

Lemma Delete_spec m k :
  inv m -> exists m', Delete m k = Ret m' /\ contents m' = delete k (contents m) /\ inv m' /\ shardSize m' = shardSize m.
Proof.
  intros Hi. destruct (getShard_home m k Hi) as (s & Hs & He & Hk).
  unfold Delete. rewrite He. simpl. rewrite store_home, Hk by done.
  destruct (contents m !! k) as [v|] eqn:Hv; simpl.
  - destruct (delete_inv m k v s Hi Hs Hv) as [Hc Hi']. by eexists.
  - eexists. split; [done|]. by rewrite delete_id.
Qed.

Lemma DeleteIfExist_spec m k :
  inv m ->
  exists m', DeleteIfExist m k = Ret (m', bool_decide (k <> "" /\ is_Some (contents m !! k))) /\
    contents m' = (if decide (k = "") then contents m else delete k (contents m)) /\
    inv m' /\ shardSize m' = shardSize m.
Proof.
  intros Hi. unfold DeleteIfExist. case_decide as Hk0.
  { exists m. rewrite bool_decide_false by tauto. done. }
  destruct (getShard_home m k Hi) as (s & Hs & He & Hk).
  rewrite He. simpl. rewrite store_home, Hk by done.
  destruct (contents m !! k) as [v|] eqn:Hv; simpl.
  - destruct (delete_inv m k v s Hi Hs Hv) as [Hc Hi']. eexists. split; [|done].
    by rewrite bool_decide_true by eauto.
  - eexists. rewrite bool_decide_false by (intros [_ [? ?]]; done). split; [done|]. by rewrite delete_id.
Qed.

Lemma Range_spec m : inv m -> Range m ≡ₚ map_to_list (contents m).
Proof. intros Hi. apply (abs_range (home m)), Hi. Qed.

Lemma Count_spec m : inv m -> Count m = i32 (Z.of_nat (base.size (contents m))).
Proof. apply inv_count. Qed.
End lemmas.

(** ** Properties *)

(** The sharded map is a map.  From [NewShardMap] on, every operation
    returns (no shard index is ever out of range), has on the contents exactly
    the effect and the result of the same operation of one map, and keeps
    every key in its own shard; [Range] visits every entry exactly once and
    [Count] is the number of entries. *)
Theorem shardMap_refines_map {V} (m : shardMap V) (k : string) (v : V) :
  inv m ->
  (exists m', Store m k v = Ret m' /\ contents m' = <[k := v]> (contents m) /\ inv m') /\
  (exists m', PutIfAbsent m k v = Ret (m', contents m !! k, bool_decide (contents m !! k = None)) /\
     contents m' = (match contents m !! k with Some _ => contents m | None => <[k := v]> (contents m) end) /\
     inv m') /\
  Load m k = Ret (contents m !! k) /\
  (exists m', Delete m k = Ret m' /\ contents m' = delete k (contents m) /\ inv m') /\
  (k <> "" -> exists m', DeleteIfExist m k = Ret (m', bool_decide (is_Some (contents m !! k))) /\
     contents m' = delete k (contents m) /\ inv m') /\
  Range m ≡ₚ map_to_list (contents m) /\
  Count m = i32 (Z.of_nat (base.size (contents m))).
Proof.
  intros Hi. split_and!.
  - destruct (Store_spec m k v Hi) as (m' & ? & ? & ? & _). eauto.
  - destruct (PutIfAbsent_spec m k v Hi) as (m' & ? & ? & ? & _). eauto.
  - by apply Load_spec.
  - destruct (Delete_spec m k Hi) as (m' & ? & ? & ? & _). eauto.
  - intros Hk. destruct (DeleteIfExist_spec m k Hi) as (m' & He & Hc & ? & _). exists m'.
    rewrite decide_False in Hc by done. split; [|done]. rewrite He. do 2 f_equal.
    apply bool_decide_ext. tauto.
  - by apply Range_spec.
  - by apply Count_spec.
Qed.

(** ** Witnesses *)

Lemma shardMap_refines_map_witness :
  inv (NewShardMap (V := nat) 32) /\ Load (V := nat) (NewShardMap 32) "id-1" = Ret None.
Proof.
  split; [apply NewShardMap_inv; lia|].
  pose proof (shardMap_refines_map (V := nat) (NewShardMap 32) "id-1" 5%nat) as H.
  destruct H as (_ & _ & Hl & _); [apply NewShardMap_inv; lia|].
  rewrite Hl. vm_compute. reflexivity.
Defined.
