(* ===== verification/SegmentMap.v ===== *)
(** * The segmented map ([src/common/utils/map.go])

    [SegmentMap] spreads its keys over [soltNum] Go maps by a hash function of
    the caller.  Unlike [shardMap] the hash may be negative, and Go's [%] keeps
    the sign: the refinement needs [0 <= hashFunc k]. *)

From S2P Require Import Prelude Sharded.
From Stdlib Require Import ZArith Lia.
From stdpp Require Import base tactics list gmap.

Open Scope Z_scope.

Section SegmentMap.
  Context {K V : Type} `{Countable K} (hashFunc : K -> Z).

Record SegmentMap := mkSegmentMap { soltNum : Z; solts : list (gmap K V) }.

(** [make] panics on a negative capacity. *)
Definition NewSegmentMap (n : Z) : outcome SegmentMap :=
  if decide (n < 0) then Panics ExplicitPanic
  else Ret (mkSegmentMap n (replicate (Z.to_nat n) ∅)).

Definition caulIndex (s : SegmentMap) (k : K) : outcome (Z * gmap K V) :=
  if decide (soltNum s = 0) then Panics DivideByZero
  else
    let i := Z.rem (hashFunc k) (soltNum s) in
    solt ← index (solts s) i;
    Ret (i, solt).

Definition Put (s : SegmentMap) (k : K) (v : V) : outcome SegmentMap :=
  '(i, solt) ← caulIndex s k;
  solts' ← store_at (solts s) i (<[k := v]> solt);
  Ret (mkSegmentMap (soltNum s) solts').

Definition PutIfAbsent (s : SegmentMap) (k : K) (v : V) : outcome (SegmentMap * option V * bool) :=
  '(i, solt) ← caulIndex s k;
  match solt !! k with
  | None =>
      solts' ← store_at (solts s) i (<[k := v]> solt);
      Ret (mkSegmentMap (soltNum s) solts', None, true)
  | Some old => Ret (s, Some old, false)
  end.

Definition Get (s : SegmentMap) (k : K) : outcome (option V) :=
  '(_, solt) ← caulIndex s k; Ret (solt !! k).

Definition Del (s : SegmentMap) (k : K) : outcome (SegmentMap * bool) :=
  '(i, solt) ← caulIndex s k;
  solts' ← store_at (solts s) i (delete k solt);
  Ret (mkSegmentMap (soltNum s) solts', bool_decide (is_Some (solt !! k))).

Definition Range (s : SegmentMap) : list (K * V) := concat (map_to_list <$> solts s).

Definition Count (s : SegmentMap) : Z :=
  foldl (fun count solt => u64 (count + Z.of_nat (size solt))) 0 (solts s).

(** ** Specification *)

Definition home (s : SegmentMap) (k : K) : nat := Z.to_nat (Z.rem (hashFunc k) (soltNum s)).
Definition contents (s : SegmentMap) : gmap K V := abs (solts s).

Record inv (s : SegmentMap) : Prop := {
  inv_pos : 0 < soltNum s;
  inv_len : Z.of_nat (length (solts s)) = soltNum s;
  inv_placed : placed (home s) (solts s) }.

End SegmentMap.
Arguments SegmentMap K V {_ _}.

Section lemmas.
  Context {K V : Type} `{Countable K} (hashFunc : K -> Z).
  Hypothesis hash_nonneg : forall k, 0 <= hashFunc k.
  Implicit Types (s : SegmentMap K V) (k : K) (v : V).
  #[local] Abbreviation inv := (inv hashFunc).
  #[local] Abbreviation home := (home hashFunc).

Lemma caulIndex_home s k :
  inv s ->
  exists solt, solts s !! home s k = Some solt /\ caulIndex hashFunc s k = Ret (Z.of_nat (home s k), solt) /\
    solt !! k = contents s !! k /\ (home s k < length (solts s))%nat.
Proof.
  intros [Hpos Hlen Hpl].
  assert (0 <= Z.rem (hashFunc k) (soltNum s) < soltNum s) as Hr.
  { rewrite Z.rem_mod_nonneg by auto with lia. apply Z.mod_pos_bound. lia. }
  unfold caulIndex. rewrite decide_False by lia.
  destruct (index_in_range (solts s) (Z.rem (hashFunc k) (soltNum s))) as (solt & Hs & ->); [lia|].
  exists solt. split_and!; [done| | |].
  - simpl. unfold SegmentMap.home. by rewrite Z2Nat.id by lia.
  - unfold contents. rewrite (abs_lookup (home s)) by done. unfold SegmentMap.home. by rewrite Hs.
  - by eapply lookup_lt_Some.
Qed.

Lemma write_inv s k solt solt' :
  inv s -> solts s !! home s k = Some solt -> (forall k', k' <> k -> solt' !! k' = solt !! k') ->
  store_at (solts s) (Z.of_nat (home s k)) solt' = Ret (<[home s k := solt']> (solts s)) /\
  inv (mkSegmentMap (soltNum s) (<[home s k := solt']> (solts s))).
Proof.
  intros [Hpos Hlen Hpl] Hs Hs'. split.
  - apply lookup_lt_Some in Hs. rewrite store_at_Ret by lia. by rewrite Nat2Z.id.
  - constructor; simpl; [done|by rewrite length_insert|by eapply placed_update].
Qed.

Lemma NewSegmentMap_spec n :
  0 < n -> exists s, NewSegmentMap (K := K) (V := V) n = Ret s /\ inv s /\ contents s = ∅ /\ soltNum s = n.
Proof.
  intros Hn. unfold NewSegmentMap. rewrite decide_False by lia. eexists. split; [done|].
  split_and!; [|apply (abs_replicate (home (mkSegmentMap n [] : SegmentMap K V)))|done].
  constructor; simpl; [done|rewrite length_replicate; lia|apply abs_replicate].
Qed.

Lemma Put_spec s k v :
  inv s -> exists s', Put hashFunc s k v = Ret s' /\ contents s' = <[k := v]> (contents s) /\ inv s' /\ soltNum s' = soltNum s.
Proof.
  intros Hi. destruct (caulIndex_home s k Hi) as (solt & Hs & He & Hk & _).
  destruct (write_inv s k solt (<[k := v]> solt) Hi Hs) as [Hw Hi'];
    [by intros; rewrite lookup_insert_ne|].
  unfold Put. rewrite He. simpl. rewrite Hw. simpl. eexists. split; [done|]. split_and!; [|done|done].
  apply (abs_insert (home s)); [apply Hi|done].
Qed.

Lemma segment_PutIfAbsent_spec s k v :
  inv s ->
  exists s', PutIfAbsent hashFunc s k v = Ret (s', contents s !! k, bool_decide (contents s !! k = None)) /\
    contents s' = (match contents s !! k with Some _ => contents s | None => <[k := v]> (contents s) end) /\
    inv s'.
Proof.
  intros Hi. destruct (caulIndex_home s k Hi) as (solt & Hs & He & Hk & _).
  destruct (write_inv s k solt (<[k := v]> solt) Hi Hs) as [Hw Hi'];
    [by intros; rewrite lookup_insert_ne|].
  unfold PutIfAbsent. rewrite He. simpl. rewrite Hw, Hk.
  destruct (contents s !! k) as [old|] eqn:Hold; eexists; (split; [done|]); (split; [|done]); [done|].
  apply (abs_insert (home s)); [apply Hi|done].
Qed.

Lemma Get_spec s k : inv s -> Get hashFunc s k = Ret (contents s !! k).
Proof.
  intros Hi. destruct (caulIndex_home s k Hi) as (solt & Hs & He & Hk & _).
  unfold Get. rewrite He. simpl. by rewrite Hk.
Qed.

Lemma Del_spec s k :
  inv s ->
  exists s', Del hashFunc s k = Ret (s', bool_decide (is_Some (contents s !! k))) /\
    contents s' = delete k (contents s) /\ inv s' /\ soltNum s' = soltNum s.
Proof.
  intros Hi. destruct (caulIndex_home s k Hi) as (solt & Hs & He & Hk & _).
  destruct (write_inv s k solt (delete k solt) Hi Hs) as [Hw Hi'];
    [by intros; rewrite lookup_delete_ne|].
  unfold Del. rewrite He. simpl. rewrite Hw. simpl. eexists. rewrite Hk. split; [done|].
  split_and!; [|done|done]. apply (abs_delete (home s)); [apply Hi|done].
Qed.

Lemma segment_Range_spec s : inv s -> Range s ≡ₚ map_to_list (contents s).
Proof. intros Hi. apply (abs_range (home s)), Hi. Qed.

Lemma segment_Count_spec s : inv s -> Count s = u64 (Z.of_nat (size (contents s))).
Proof.
  intros Hi. unfold contents. rewrite <- (abs_size (home s)) by apply Hi. unfold Count.
  assert (forall acc, 0 <= acc < 2 ^ 64 ->
    foldl (fun count solt => u64 (count + Z.of_nat (size solt))) acc (solts s)
    = u64 (acc + Z.of_nat (sum_list (size <$> solts s)))) as Hf; [|by apply (Hf 0)].
  induction (solts s) as [|g l IH]; intros acc Hacc; csimpl.
  - by rewrite Z.add_0_r, wrap_u_small.
  - rewrite IH by (by apply wrap_u_range). unfold wrap_u. rewrite Zplus_mod_idemp_l. f_equal. lia.
Qed.
End lemmas.

(** ** Properties *)

(** With a hash that is never negative, the segmented map is a map: every
    operation returns and has the result and the effect of the operation of
    one map, [Range] visits every entry once, [Count] counts the entries. *)
Theorem segmentMap_refines_map {K V} `{Countable K} (hashFunc : K -> Z) (s : SegmentMap K V) (k : K) (v : V) :
  (forall k, 0 <= hashFunc k) -> inv hashFunc s ->
  (exists s', Put hashFunc s k v = Ret s' /\ contents s' = <[k := v]> (contents s) /\ inv hashFunc s') /\
  (exists s', PutIfAbsent hashFunc s k v = Ret (s', contents s !! k, bool_decide (contents s !! k = None)) /\
    contents s' = (match contents s !! k with Some _ => contents s | None => <[k := v]> (contents s) end) /\
    inv hashFunc s') /\
  Get hashFunc s k = Ret (contents s !! k) /\
  (exists s', Del hashFunc s k = Ret (s', bool_decide (is_Some (contents s !! k))) /\
    contents s' = delete k (contents s) /\ inv hashFunc s') /\
  Range s ≡ₚ map_to_list (contents s) /\
  Count s = u64 (Z.of_nat (size (contents s))).
Proof.
  intros Hh Hi. split_and!.
  - destruct (Put_spec hashFunc Hh s k v Hi) as (s' & ? & ? & ? & _). eauto.
  - by apply segment_PutIfAbsent_spec.
  - by apply Get_spec.
  - destruct (Del_spec hashFunc Hh s k Hi) as (s' & ? & ? & ? & _). eauto.
  - by eapply segment_Range_spec.
  - by eapply segment_Count_spec.
Qed.

(** ** Witnesses *)

Definition demo_segments : SegmentMap nat nat := mkSegmentMap 2 [{[4%nat := 40%nat]}; {[3%nat := 30%nat]}].

Lemma demo_segments_inv : inv Z.of_nat demo_segments.
Proof.
  constructor; [done|done|].
  intros i s k Hs Hk. destruct i as [|[|i]]; simplify_eq/=;
    apply lookup_singleton_is_Some in Hk; by subst k.
Qed.

Lemma segmentMap_refines_map_witness :
  Get Z.of_nat demo_segments 3%nat = Ret (Some 30%nat) /\ Count demo_segments = 2.
Proof.
  destruct (segmentMap_refines_map Z.of_nat demo_segments 3%nat 5%nat) as (_ & _ & Hg & _ & _ & Hc).
  - lia.
  - apply demo_segments_inv.
  - rewrite Hg, Hc. split; vm_compute; reflexivity.
Defined.
