(* ===== verification/Checker.v ===== *)
(** * The health-checker plugin interface ([src/plugin/healthchecker.go])

    The request and response records of the interface, the operations every
    checker offers ([HealthChecker]), and the contract of a heartbeat checker
    ([HeartbeatContract]): what it remembers of an instance is the time of its
    last report, and [Check] is a fixed verdict on that time.  The theorems of
    the last section are proved once, against the contract; [MemoryChecker.v]
    and [LeaderChecker.v] implement it. *)

From S2P Require Import Prelude.
From Stdlib Require Import ZArith Lia.
From stdpp Require Import base tactics list gmap strings.

Open Scope Z_scope.

Record QueryRequest := mkQuery {
  InstanceId : string;
  QHost : string;
  QPort : Z;
  QHealthy : bool }.

Record ReportRequest := mkReport {
  rquery : QueryRequest;
  LocalHost : string;
  CurTimeSec : Z;
  RCount : Z }.

(** [CurTimeSec] of the source is a function; the model carries the value it
    returns at the call. *)
Record CheckRequest := mkCheck {
  cquery : QueryRequest;
  ExpireDurationSec : Z;
  cur_time_sec : Z }.

Record CheckResponse := mkResponse {
  RHealthy : bool;
  LastHeartbeatTimeSec : Z;
  StayUnchanged : bool;
  Regular : bool }.
#[export] Instance CheckResponse_eq_dec : EqDecision CheckResponse.
Proof. solve_decision. Defined.

Record QueryResponse := mkQueryResponse {
  Server : string;
  Exists : bool;
  LastHeartbeatSec : Z;
  QCount : Z }.

(** The errors the checkers of the sources return. *)
Inductive checker_error :=
| ErrorRedirectOnlyOnce
| ErrorRecordNotFound
| ErrorPeerClosed
| ErrorBatchControllerStopped
| ErrorSubmitTaskTimeout
| ErrorDeadlineExceeded
| ErrorReplyOnlyOnce
| ErrorRemote.
#[export] Instance checker_error_eq_dec : EqDecision checker_error.
Proof. solve_decision. Defined.

(** The interface.  [from_peer] is what [isSendFromPeer] reads off the request
    context, [now] the wall clock in milliseconds. *)
Class HealthChecker (S : Type) := {
  hc_report : S -> bool -> ReportRequest -> outcome (S * option checker_error);
  hc_query : S -> bool -> QueryRequest -> outcome (result checker_error QueryResponse);
  hc_check : S -> Z -> CheckRequest -> outcome (result checker_error CheckResponse);
  hc_delete : S -> bool -> string -> outcome (S * option checker_error);
  hc_suspend : S -> Z -> S;
  hc_suspend_time : S -> Z }.

(** ** The heartbeat contract *)

(** The heartbeat is overdue. *)
Definition expired (cur last expire : Z) : bool := bool_decide (cur > last /\ i64 (cur - last) >= expire).

(** The verdict of a check on an instance whose status is [healthy]. *)
Definition verdict (skip healthy : bool) (cur last expire : Z) : CheckResponse :=
  if skip then mkResponse false last true false
  else if expired cur last expire then mkResponse false last (negb healthy) false
  else mkResponse true last healthy false.

(** The window after a recorded event during which checks are skipped. *)
Definition within (start now expire : Z) : bool :=
  bool_decide (start > 0 /\ now >= start /\ i64 (now - start) < expire).

Class HeartbeatContract (S : Type) `{HealthChecker S} := {
  hc_ok : S -> Prop;
  last_beat : S -> string -> Z;
  skips : S -> Z -> Z -> bool;
  check_verdict s now req :
    hc_ok s ->
    hc_check s now req = Ret (Okay (verdict (skips s now (ExpireDurationSec req)) (QHealthy (cquery req))
      (cur_time_sec req) (last_beat s (InstanceId (cquery req))) (ExpireDurationSec req)));
  report_beat s req :
    hc_ok s ->
    exists s', hc_report s false req = Ret (s', None) /\ hc_ok s' /\
      forall id, last_beat s' id = if decide (id = InstanceId (rquery req)) then CurTimeSec req else last_beat s id;
  delete_beat s key :
    hc_ok s ->
    exists s', hc_delete s false key = Ret (s', None) /\ hc_ok s' /\
      forall id, last_beat s' id = if decide (id = key) then 0 else last_beat s id;
  suspend_beat s now :
    hc_ok s -> hc_ok (hc_suspend s now) /\ (forall id, last_beat (hc_suspend s now) id = last_beat s id);
  suspend_skips s now now' expire :
    within (Z.quot now 1000) (Z.quot now' 1000) expire = true ->
    skips (hc_suspend s now) now' expire = true }.

(** What other code does to a checker between two checks. *)
Inductive beat_op :=
| DoReport (req : ReportRequest)
| DoDelete (id : string)
| DoSuspend (now : Z).

Definition touches (id : string) (o : beat_op) : Prop :=
  match o with
  | DoReport req => InstanceId (rquery req) = id
  | DoDelete key => key = id
  | DoSuspend _ => False
  end.

Definition do_op {S} `{HealthChecker S} (s : S) (o : beat_op) : outcome S :=
  match o with
  | DoReport req => fst <$> hc_report s false req
  | DoDelete id => fst <$> hc_delete s false id
  | DoSuspend now => Ret (hc_suspend s now)
  end.

Fixpoint do_ops {S} `{HealthChecker S} (s : S) (os : list beat_op) : outcome S :=
  match os with
  | [] => Ret s
  | o :: os => s' ← do_op s o; do_ops s' os
  end.

Section contract.
  Context {S : Type} `{HeartbeatContract S}.
  Implicit Types (s : S).

Lemma do_op_ok s o :
  hc_ok s ->
  exists s', do_op s o = Ret s' /\ hc_ok s' /\
    forall id, ~ touches id o -> last_beat s' id = last_beat s id.
Proof.
  intros Hs. destruct o as [req|key|now]; simpl.
  - destruct (report_beat s req Hs) as (s' & -> & Hs' & Hl). exists s'. split; [done|]. split; [done|].
    intros id Hid. rewrite Hl, decide_False; [done|congruence].
  - destruct (delete_beat s key Hs) as (s' & -> & Hs' & Hl). exists s'. split; [done|]. split; [done|].
    intros id Hid. rewrite Hl, decide_False; [done|congruence].
  - destruct (suspend_beat s now Hs) as (Hs' & Hl). exists (hc_suspend s now). split; [done|]. split; [done|].
    intros id _. apply Hl.
Qed.

Lemma do_ops_ok s os :
  hc_ok s ->
  exists s', do_ops s os = Ret s' /\ hc_ok s' /\
    forall id, Forall (fun o => ~ touches id o) os -> last_beat s' id = last_beat s id.
Proof.
  revert s. induction os as [|o os IH]; intros s Hs; [by exists s|].
  destruct (do_op_ok s o Hs) as (s1 & He & Hs1 & Hl1).
  destruct (IH s1 Hs1) as (s2 & He2 & Hs2 & Hl2).
  exists s2. simpl. rewrite He. simpl. split; [done|]. split; [done|].
  intros id Hid. inversion Hid; subst. rewrite Hl2, Hl1; done.
Qed.

(** Reports at [t] and, after other operations, checks [id]. *)
Definition report_then_check s (req : ReportRequest) (os : list beat_op) (now : Z) (creq : CheckRequest)
    : outcome (result checker_error CheckResponse) :=
  '(s1, _) ← hc_report s false req;
  s2 ← do_ops s1 os;
  hc_check s2 now creq.

Lemma report_then_check_eq s req os now creq :
  hc_ok s -> InstanceId (cquery creq) = InstanceId (rquery req) ->
  Forall (fun o => ~ touches (InstanceId (rquery req)) o) os ->
  exists skip, report_then_check s req os now creq =
    Ret (Okay (verdict skip (QHealthy (cquery creq)) (cur_time_sec creq) (CurTimeSec req) (ExpireDurationSec creq))).
Proof.
  intros Hs Hid Hos. destruct (report_beat s req Hs) as (s1 & He & Hs1 & Hl).
  destruct (do_ops_ok s1 os Hs1) as (s2 & He2 & Hs2 & Hl2).
  exists (skips s2 now (ExpireDurationSec creq)). unfold report_then_check. rewrite He. simpl. rewrite He2. simpl.
  by rewrite check_verdict, Hid, Hl2, Hl, decide_True.
Qed.
End contract.

(** ** Properties *)

(** A checker never takes a live instance down: whatever else happens to
    the checker (reports and deletions of other instances, suspensions), an
    instance that reported less than [expire] seconds ago is not turned
    unhealthy, and one that is marked healthy stays unchanged. *)
Theorem live_instance_never_turned_unhealthy {S} `{HeartbeatContract S}
    (s : S) (req : ReportRequest) (os : list beat_op) (now : Z) (creq : CheckRequest) :
  hc_ok s -> InstanceId (cquery creq) = InstanceId (rquery req) ->
  Forall (fun o => ~ touches (InstanceId (rquery req)) o) os ->
  - 2 ^ 62 <= CurTimeSec req < 2 ^ 62 -> - 2 ^ 62 <= cur_time_sec creq < 2 ^ 62 ->
  cur_time_sec creq < CurTimeSec req + ExpireDurationSec creq ->
  exists resp, report_then_check s req os now creq = Ret (Okay resp) /\
    (StayUnchanged resp = true \/ RHealthy resp = true) /\
    (QHealthy (cquery creq) = true -> StayUnchanged resp = true).
Proof.
  intros Hs Hid Hos Hr Hc Hlive.
  destruct (report_then_check_eq s req os now creq Hs Hid Hos) as [skip ->].
  eexists. split; [done|]. unfold verdict, expired. destruct skip; [simpl; eauto|].
  rewrite bool_decide_false; [simpl; eauto|].
  intros [? Hge]. rewrite i64_small in Hge by lia. lia.
Qed.

(** A silent instance is taken down: when its last report (or 0, if it
    never reported) is [expire] or more seconds old and checks are not
    skipped, a check on a healthy instance says unhealthy and changed, and a
    check on an unhealthy one leaves it alone. *)
Theorem silent_instance_turned_unhealthy {S} `{HeartbeatContract S}
    (s : S) (now : Z) (creq : CheckRequest) :
  hc_ok s -> skips s now (ExpireDurationSec creq) = false ->
  0 <= ExpireDurationSec creq -> cur_time_sec creq < 2 ^ 62 ->
  - 2 ^ 62 <= last_beat s (InstanceId (cquery creq)) < cur_time_sec creq ->
  last_beat s (InstanceId (cquery creq)) + ExpireDurationSec creq <= cur_time_sec creq ->
  exists resp, hc_check s now creq = Ret (Okay resp) /\ RHealthy resp = false /\
    StayUnchanged resp = negb (QHealthy (cquery creq)).
Proof.
  intros Hs Hskip He Hc Hl Hex. rewrite check_verdict, Hskip by done. unfold verdict, expired.
  rewrite bool_decide_true; [by eexists|]. rewrite i64_small by lia. lia.
Qed.

(** After a suspension no check changes an instance for the instance's
    whole expire duration. *)
Theorem suspension_freezes_status {S} `{HeartbeatContract S}
    (s : S) (now now' : Z) (creq : CheckRequest) :
  hc_ok s -> 1000 <= now <= now' -> now' < 2 ^ 62 ->
  Z.quot now' 1000 < Z.quot now 1000 + ExpireDurationSec creq ->
  exists resp, hc_check (hc_suspend s now) now' creq = Ret (Okay resp) /\ StayUnchanged resp = true.
Proof.
  intros Hs Hn Hn' Hw. destruct (suspend_beat s now Hs) as [Hs' _].
  rewrite check_verdict by done. rewrite suspend_skips; [by eexists|].
  unfold within. apply bool_decide_eq_true.
  rewrite !Z.quot_div_nonneg in * by lia.
  pose proof (Z.div_le_mono now now' 1000). pose proof (Z.div_le_mono 1000 now 1000).
  assert (1000 / 1000 = 1) by done.
  assert (now' / 1000 <= now') by (apply Z.div_le_upper_bound; lia).
  rewrite i64_small by lia. lia.
Qed.
