(* ===== verification/MemoryChecker.v ===== *)
(** * The in-memory heartbeat checker ([src/plugin/healthchecker/memory/checker_memory.go])

    [hbRecords] maps an instance to its last report.  The file implements the
    interface of [Checker.v] and discharges its contract, so that the theorems
    there hold of this checker; [memory_check_is_verdict] is the functional
    characterisation of [Check] itself. *)

From S2P Require Import Prelude Checker.
From Stdlib Require Import ZArith Lia.
From stdpp Require Import base tactics list gmap strings.

Open Scope Z_scope.

Record HeartbeatRecord := mkHeartbeatRecord {
  HServer : string;
  HCurTimeSec : Z;
  HCount : Z }.

Record MemoryHealthChecker := mkMemoryHealthChecker {
  hbRecords : gmap string HeartbeatRecord;
  suspendTimeSec : Z }.

Definition Initialize : MemoryHealthChecker := mkMemoryHealthChecker ∅ 0.

Definition Report (r : MemoryHealthChecker) (request : ReportRequest) : MemoryHealthChecker :=
  let record := mkHeartbeatRecord (LocalHost request) (CurTimeSec request) (RCount request) in
  mkMemoryHealthChecker (<[InstanceId (rquery request) := record]> (hbRecords r)) (suspendTimeSec r).

Definition Query (r : MemoryHealthChecker) (request : QueryRequest) : QueryResponse :=
  match hbRecords r !! InstanceId request with
  | None => mkQueryResponse "" false 0 0
  | Some record => mkQueryResponse (HServer record) false (HCurTimeSec record) (HCount record)
  end.

(** [commontime.CurrentMillisecond() / 1000]. *)
Definition localCurTimeSec (now : Z) : Z := Z.quot now 1000.

Definition skipCheck (r : MemoryHealthChecker) (now expireDurationSec : Z) : bool :=
  let localCurTimeSec := localCurTimeSec now in
  bool_decide (suspendTimeSec r > 0 /\ localCurTimeSec >= suspendTimeSec r /\
    i64 (localCurTimeSec - suspendTimeSec r) < expireDurationSec).

Definition Check (r : MemoryHealthChecker) (now : Z) (request : CheckRequest) : CheckResponse :=
  let lastHeartbeatTime := LastHeartbeatSec (Query r (cquery request)) in
  let curTimeSec := cur_time_sec request in
  if skipCheck r now (ExpireDurationSec request)
  then mkResponse false lastHeartbeatTime true false
  else
    if decide (curTimeSec > lastHeartbeatTime /\ i64 (curTimeSec - lastHeartbeatTime) >= ExpireDurationSec request)
    then
      if QHealthy (cquery request) then mkResponse false lastHeartbeatTime false false
      else mkResponse false lastHeartbeatTime true false
    else
      if negb (QHealthy (cquery request)) then mkResponse true lastHeartbeatTime false false
      else mkResponse true lastHeartbeatTime true false.

Definition Delete (r : MemoryHealthChecker) (id : string) : MemoryHealthChecker :=
  mkMemoryHealthChecker (delete id (hbRecords r)) (suspendTimeSec r).

Definition Suspend (r : MemoryHealthChecker) (now : Z) : MemoryHealthChecker :=
  mkMemoryHealthChecker (hbRecords r) (localCurTimeSec now).

#[export] Instance memory_checker : HealthChecker MemoryHealthChecker := {
  hc_report r _ request := Ret (Report r request, None);
  hc_query r _ request := Ret (Okay (Query r request));
  hc_check r now request := Ret (Okay (Check r now request));
  hc_delete r _ id := Ret (Delete r id, None);
  hc_suspend := Suspend;
  hc_suspend_time := suspendTimeSec }.

(** ** Specification *)

Definition memory_beat (r : MemoryHealthChecker) (id : string) : Z :=
  from_option HCurTimeSec 0 (hbRecords r !! id).

Lemma Query_beat r req : LastHeartbeatSec (Query r req) = memory_beat r (InstanceId req).
Proof. unfold Query, memory_beat. by destruct (hbRecords r !! InstanceId req). Qed.

Lemma Check_verdict r now req :
  Check r now req =
  verdict (skipCheck r now (ExpireDurationSec req)) (QHealthy (cquery req)) (cur_time_sec req)
    (memory_beat r (InstanceId (cquery req))) (ExpireDurationSec req).
Proof.
  unfold Check, verdict, expired. rewrite Query_beat.
  destruct (skipCheck _ _ _); [done|]. case_decide as Hd.
  - rewrite bool_decide_true by done. by destruct (QHealthy _).
  - rewrite bool_decide_false by done. by destruct (QHealthy _).
Qed.

#[export] Program Instance memory_contract : HeartbeatContract MemoryHealthChecker := {
  hc_ok _ := True;
  last_beat := memory_beat;
  skips := skipCheck }.
Next Obligation. intros. simpl. by rewrite Check_verdict. Qed.
Next Obligation.
  intros r req _. eexists. split; [done|]. split; [done|]. intros id. unfold memory_beat. simpl.
  case_decide; subst; [by rewrite lookup_insert_eq|by rewrite lookup_insert_ne].
Qed.
Next Obligation.
  intros r key _. eexists. split; [done|]. split; [done|]. intros id. unfold memory_beat. simpl.
  case_decide; subst; [by rewrite lookup_delete_eq|by rewrite lookup_delete_ne].
Qed.
Next Obligation. done. Qed.
Next Obligation. intros r now now' expire Hw. exact Hw. Qed.

(** ** Properties *)

(** [Check] is a function of four things only: whether the suspension
    window covers the check, the status the instance had, the instance's last
    report, and the time of the check. *)
Theorem memory_check_is_verdict (r : MemoryHealthChecker) (now : Z) (req : CheckRequest) :
  Check r now req =
  verdict (within (suspendTimeSec r) (Z.quot now 1000) (ExpireDurationSec req)) (QHealthy (cquery req))
    (cur_time_sec req) (memory_beat r (InstanceId (cquery req))) (ExpireDurationSec req).
Proof. apply Check_verdict. Qed.

(** ** Witnesses: the contract's theorems at this checker *)

Definition beat_at (id : string) (t : Z) : ReportRequest := mkReport (mkQuery id "1.1.1.1" 80 true) "srv" t 1.
Definition check_at (id : string) (healthy : bool) (t expire : Z) : CheckRequest :=
  mkCheck (mkQuery id "1.1.1.1" 80 healthy) expire t.

Lemma live_instance_never_turned_unhealthy_witness :
  exists resp,
    report_then_check Initialize (beat_at "a" 100) [DoReport (beat_at "b" 103); DoSuspend 90000; DoDelete "c"]
      112000 (check_at "a" true 112 15) = Ret (Okay resp) /\
    (StayUnchanged resp = true \/ RHealthy resp = true) /\
    (true = true -> StayUnchanged resp = true).
Proof.
  apply (live_instance_never_turned_unhealthy Initialize (beat_at "a" 100)
    [DoReport (beat_at "b" 103); DoSuspend 90000; DoDelete "c"] 112000 (check_at "a" true 112 15)).
  - exact I.
  - reflexivity.
  - repeat constructor; simpl; discriminate || intros [].
  - simpl. lia.
  - simpl. lia.
  - simpl. lia.
Defined.

Lemma silent_instance_turned_unhealthy_witness :
  exists resp, hc_check (Report Initialize (beat_at "a" 100)) 116000 (check_at "a" true 115 15) = Ret (Okay resp) /\
    RHealthy resp = false /\ StayUnchanged resp = negb true.
Proof.
  apply (silent_instance_turned_unhealthy (Report Initialize (beat_at "a" 100)) 116000 (check_at "a" true 115 15)).
  - exact I.
  - reflexivity.
  - simpl. lia.
  - simpl. lia.
  - vm_compute. split; [discriminate|reflexivity].
  - vm_compute. discriminate.
Defined.

Lemma suspension_freezes_status_witness :
  exists resp, hc_check (hc_suspend (Report Initialize (beat_at "a" 100)) 200000) 214000
    (check_at "a" true 214 15) = Ret (Okay resp) /\ StayUnchanged resp = true.
Proof.
  apply (suspension_freezes_status (Report Initialize (beat_at "a" 100)) 200000 214000 (check_at "a" true 214 15)).
  - exact I.
  - lia.
  - lia.
  - vm_compute. reflexivity.
Defined.
