(* ===== verification/BeatCache.v ===== *)
(** * Heartbeat record caches ([src/plugin/healthchecker/leader/beat_cache.go])

    The leader stores the records in a segmented map
    ([LocalBeatRecordCache]); a follower's cache forwards every operation to
    the leader ([RemoteBeatRecordCache]).  Both offer the interface
    [BeatRecordCache]. *)

From S2P Require Import Prelude SegmentMap.
From Stdlib Require Import ZArith Lia.
From stdpp Require Import base tactics list gmap strings pretty.

Open Scope Z_scope.

Record RecordValue := mkRecordValue {
  Server : string;
  CurTimeSec : Z;
  Count : Z }.

Record ReadBeatRecord := mkReadBeatRecord { RRecord : RecordValue; Exist : bool }.
Record WriteBeatRecord := mkWriteBeatRecord { WRecord : RecordValue; Key : string }.

(** Go's zero value of the record. *)
Definition zero_record : RecordValue := mkRecordValue "" 0 0.
Definition absent : ReadBeatRecord := mkReadBeatRecord zero_record false.

(** [RecordValue.String]. *)
Definition record_string (r : RecordValue) : string :=
  Server r +:+ "|" +:+ pretty (CurTimeSec r) +:+ "|" +:+ pretty (Count r).

Class BeatRecordCache (S : Type) := {
  bc_get : S -> list string -> outcome (gmap string ReadBeatRecord);
  bc_put : S -> list WriteBeatRecord -> outcome S;
  bc_del : S -> list string -> outcome S;
  bc_clean : S -> outcome S;
  bc_snapshot : S -> gmap string ReadBeatRecord }.

(** ** The leader's cache *)
Section local.
  Context (hashFunc : string -> Z).

Record LocalBeatRecordCache := mkLocalBeatRecordCache {
  lc_soltNum : Z;
  beatCache : SegmentMap string RecordValue }.

(** [defaultSoltNum] is [GOMAXPROCS * 16]. *)
Definition newLocalBeatRecordCache (defaultSoltNum soltNum : Z) : outcome LocalBeatRecordCache :=
  let soltNum := if decide (soltNum = 0) then defaultSoltNum else soltNum in
  m ← NewSegmentMap soltNum;
  Ret (mkLocalBeatRecordCache soltNum m).

Fixpoint local_get_loop (m : SegmentMap string RecordValue) (ret : gmap string ReadBeatRecord)
    (keys : list string) : outcome (gmap string ReadBeatRecord) :=
  match keys with
  | [] => Ret ret
  | key :: keys =>
      val ← SegmentMap.Get hashFunc m key;
      let r := match val with Some v => mkReadBeatRecord v true | None => absent end in
      local_get_loop m (<[key := r]> ret) keys
  end.
Definition LocalGet (lc : LocalBeatRecordCache) (keys : list string) : outcome (gmap string ReadBeatRecord) :=
  local_get_loop (beatCache lc) ∅ keys.

Fixpoint local_put_loop (m : SegmentMap string RecordValue) (records : list WriteBeatRecord)
    : outcome (SegmentMap string RecordValue) :=
  match records with
  | [] => Ret m
  | record :: records =>
      m' ← SegmentMap.Put hashFunc m (Key record) (WRecord record);
      local_put_loop m' records
  end.
Definition LocalPut (lc : LocalBeatRecordCache) (records : list WriteBeatRecord) : outcome LocalBeatRecordCache :=
  m ← local_put_loop (beatCache lc) records; Ret (mkLocalBeatRecordCache (lc_soltNum lc) m).

Fixpoint local_del_loop (m : SegmentMap string RecordValue) (keys : list string)
    : outcome (SegmentMap string RecordValue) :=
  match keys with
  | [] => Ret m
  | key :: keys => '(m', _) ← SegmentMap.Del hashFunc m key; local_del_loop m' keys
  end.
Definition LocalDel (lc : LocalBeatRecordCache) (keys : list string) : outcome LocalBeatRecordCache :=
  m ← local_del_loop (beatCache lc) keys; Ret (mkLocalBeatRecordCache (lc_soltNum lc) m).

Definition LocalClean (lc : LocalBeatRecordCache) : outcome LocalBeatRecordCache :=
  m ← NewSegmentMap (lc_soltNum lc); Ret (mkLocalBeatRecordCache (lc_soltNum lc) m).

(** [Exist] is left at its zero value by the code. *)
Definition LocalSnapshot (lc : LocalBeatRecordCache) : gmap string ReadBeatRecord :=
  list_to_map ((fun kv => (kv.1, mkReadBeatRecord kv.2 false)) <$> SegmentMap.Range (beatCache lc)).

#[export] Instance local_cache : BeatRecordCache LocalBeatRecordCache := {
  bc_get := LocalGet; bc_put := LocalPut; bc_del := LocalDel;
  bc_clean := LocalClean; bc_snapshot := LocalSnapshot }.
End local.

(** ** The follower's cache: [W] is the world behind the gRPC connection. *)

Record HeartbeatRecord := mkHeartbeatRecord {
  pb_InstanceId : string;
  pb_LastHeartbeatSec : Z;
  pb_Exist : bool }.

Section remote.
  Context {W : Type} (getter : W -> list string -> list HeartbeatRecord)
    (saver : W -> list string -> W) (delter : W -> list string -> W).

(** The loop over the response: a record nobody asked for is looked up in the
    result map, is absent, and its nil pointer is written through. *)
Fixpoint remote_get_loop (ret : gmap string ReadBeatRecord) (records : list HeartbeatRecord)
    : outcome (gmap string ReadBeatRecord) :=
  match records with
  | [] => Ret ret
  | record :: records =>
      match ret !! pb_InstanceId record with
      | None => Panics NilDereference
      | Some _ =>
          remote_get_loop
            (<[pb_InstanceId record :=
                 mkReadBeatRecord (mkRecordValue "" (pb_LastHeartbeatSec record) 0) (pb_Exist record)]> ret)
            records
      end
  end.

Definition RemoteGet (w : W) (keys : list string) : outcome (gmap string ReadBeatRecord) :=
  let ret := foldl (fun m key => <[key := absent]> m) ∅ keys in
  remote_get_loop ret (getter w keys).

(** Only the instance ids travel: the leader stamps the time itself. *)
Definition RemotePut (w : W) (records : list WriteBeatRecord) : outcome W :=
  Ret (saver w (Key <$> records)).
Definition RemoteDel (w : W) (keys : list string) : outcome W := Ret (delter w keys).
Definition RemoteClean (w : W) : outcome W := Ret w.
Definition RemoteSnapshot (w : W) : gmap string ReadBeatRecord := ∅.

Definition remote_cache : BeatRecordCache W := {|
  bc_get := RemoteGet; bc_put := RemotePut; bc_del := RemoteDel;
  bc_clean := RemoteClean; bc_snapshot := RemoteSnapshot |}.
End remote.

(** ** Specification *)

Definition read (o : option RecordValue) : ReadBeatRecord :=
  match o with Some v => mkReadBeatRecord v true | None => absent end.

(** The records a local cache holds. *)
Definition beats (lc : LocalBeatRecordCache) : gmap string RecordValue := contents (beatCache lc).

Definition write_all (m : gmap string RecordValue) (rs : list WriteBeatRecord) : gmap string RecordValue :=
  foldl (fun m r => <[Key r := WRecord r]> m) m rs.

Definition local_ok (hashFunc : string -> Z) (lc : LocalBeatRecordCache) : Prop :=
  inv hashFunc (beatCache lc) /\ lc_soltNum lc = soltNum (beatCache lc).

Section lemmas.
  Context (hashFunc : string -> Z) (hash_nonneg : forall k, 0 <= hashFunc k).
  Implicit Types (lc : LocalBeatRecordCache).

Lemma newLocal_spec d n :
  0 < d -> 0 <= n ->
  exists lc, newLocalBeatRecordCache d n = Ret lc /\ local_ok hashFunc lc /\ beats lc = ∅.
Proof.
  intros Hd Hn. unfold newLocalBeatRecordCache.
  destruct (NewSegmentMap_spec (V := RecordValue) hashFunc (if decide (n = 0) then d else n)) as (m & -> & Hi & Hc & Hs).
  { case_decide; lia. }
  simpl. eexists. split; [done|]. done.
Qed.

Lemma LocalGet_spec lc keys :
  local_ok hashFunc lc ->
  exists ret, LocalGet hashFunc lc keys = Ret ret /\
    forall k, ret !! k = if decide (k ∈ keys) then Some (read (beats lc !! k)) else None.
Proof.
  intros [Hi _]. unfold LocalGet.
  assert (forall acc, exists ret, local_get_loop hashFunc (beatCache lc) acc keys = Ret ret /\
    forall k, ret !! k = if decide (k ∈ keys) then Some (read (beats lc !! k)) else acc !! k) as H.
  { induction keys as [|key keys IH]; intros acc; cbn [local_get_loop].
    - exists acc. split; [done|]. intros k. rewrite decide_False by set_solver. done.
    - rewrite (Get_spec hashFunc hash_nonneg) by done. cbn [mbind outcome_bind]. fold (beats lc).
      destruct (IH (<[key := read (beats lc !! key)]> acc)) as (ret & He & Hr).
      exists ret. split; [exact He|]. intros k. rewrite Hr.
      destruct (decide (k ∈ keys)); [rewrite decide_True by set_solver; done|].
      destruct (decide (k = key)) as [->|].
      + by rewrite decide_True, lookup_insert_eq by set_solver.
      + by rewrite decide_False, lookup_insert_ne by set_solver. }
  destruct (H ∅) as (ret & He & Hr). exists ret. split; [done|]. intros k. rewrite Hr.
  by rewrite lookup_empty.
Qed.

Lemma LocalPut_spec lc rs :
  local_ok hashFunc lc ->
  exists lc', LocalPut hashFunc lc rs = Ret lc' /\ local_ok hashFunc lc' /\ beats lc' = write_all (beats lc) rs.
Proof.
  intros [Hi Hn]. unfold LocalPut, beats, local_ok, write_all. destruct lc as [n m]. simpl in *.
  revert m Hi Hn. induction rs as [|r rs IH]; intros m Hi Hn; simpl; [by eexists|].
  destruct (Put_spec hashFunc hash_nonneg m (Key r) (WRecord r) Hi) as (m' & -> & Hc & Hi' & Hs).
  simpl. rewrite <- Hc. apply IH; [done|congruence].
Qed.

Lemma LocalDel_spec lc keys :
  local_ok hashFunc lc ->
  exists lc', LocalDel hashFunc lc keys = Ret lc' /\ local_ok hashFunc lc' /\
    beats lc' = foldl (fun m k => delete k m) (beats lc) keys.
Proof.
  intros [Hi Hn]. unfold LocalDel, beats, local_ok. destruct lc as [n m]. simpl in *.
  revert m Hi Hn. induction keys as [|k keys IH]; intros m Hi Hn; simpl; [by eexists|].
  destruct (Del_spec hashFunc hash_nonneg m k Hi) as (m' & -> & Hc & Hi' & Hs).
  simpl. rewrite <- Hc. apply IH; [done|congruence].
Qed.

Lemma LocalClean_spec lc :
  local_ok hashFunc lc ->
  exists lc', LocalClean lc = Ret lc' /\ local_ok hashFunc lc' /\ beats lc' = ∅.
Proof.
  intros [Hi Hn]. unfold LocalClean.
  destruct (NewSegmentMap_spec (V := RecordValue) hashFunc (lc_soltNum lc)) as (m & -> & Hi' & Hc & Hs).
  { rewrite Hn. apply Hi. }
  by eexists.
Qed.

Lemma LocalSnapshot_spec lc :
  local_ok hashFunc lc -> LocalSnapshot lc = (fun v => mkReadBeatRecord v false) <$> beats lc.
Proof.
  intros [Hi _]. unfold LocalSnapshot. pose proof (segment_Range_spec hashFunc _ Hi) as Hr.
  assert (list_to_map (M := gmap string ReadBeatRecord)
      ((fun kv => (kv.1, mkReadBeatRecord kv.2 false)) <$> map_to_list (beats lc))
    = (fun v => mkReadBeatRecord v false) <$> beats lc) as <-.
  { rewrite <- (list_to_map_to_list (beats lc)) at 2. rewrite <- list_to_map_fmap. done. }
  apply list_to_map_proper.
  - rewrite <- list_fmap_compose. rewrite Hr.
    change (compose fst _) with (@fst string RecordValue). apply NoDup_fst_map_to_list.
  - by rewrite Hr.
Qed.
End lemmas.

Section remote_lemmas.
  Context {W : Type} (getter : W -> list string -> list HeartbeatRecord).

Lemma remote_loop_some ret records :
  (forall r, r ∈ records -> is_Some (ret !! pb_InstanceId r)) ->
  exists ret', remote_get_loop ret records = Ret ret' /\ dom ret' = dom ret.
Proof.
  revert ret. induction records as [|r rs IH]; intros ret Hin; simpl; [by exists ret|].
  destruct (Hin r) as [v Hv]; [set_solver|]. rewrite Hv.
  destruct (IH (<[pb_InstanceId r :=
    mkReadBeatRecord (mkRecordValue "" (pb_LastHeartbeatSec r) 0) (pb_Exist r)]> ret)) as (ret' & He & Hd).
  - intros r' Hr'. apply lookup_insert_is_Some'. right. apply Hin. set_solver.
  - exists ret'. split; [done|]. rewrite Hd, dom_insert_L. apply elem_of_dom_2 in Hv. set_solver.
Qed.

Lemma remote_loop_panics ret records r :
  r ∈ records -> ret !! pb_InstanceId r = None -> remote_get_loop ret records = Panics NilDereference.
Proof.
  revert ret. induction records as [|r0 rs IH]; intros ret Hin Hn; [set_solver|]. simpl.
  destruct (ret !! pb_InstanceId r0) as [v|] eqn:Hr0; [|done].
  apply elem_of_cons in Hin as [->|Hin]; [congruence|]. apply IH; [done|].
  rewrite lookup_insert_ne; [done|]. intros He. congruence.
Qed.

Lemma asked_dom keys (m : gmap string ReadBeatRecord) :
  dom (foldl (fun m key => <[key := absent]> m) m keys) = dom m ∪ list_to_set keys.
Proof.
  revert m. induction keys as [|k keys IH]; intros m; simpl; [set_solver|].
  rewrite IH, dom_insert_L. set_solver.
Qed.

Lemma RemoteGet_returns w keys :
  (forall r, r ∈ getter w keys -> pb_InstanceId r ∈ keys) ->
  exists ret, RemoteGet getter w keys = Ret ret /\ dom ret = list_to_set keys.
Proof.
  intros Hin. unfold RemoteGet.
  assert (dom (foldl (fun m key => <[key := absent]> m) (∅ : gmap string ReadBeatRecord) keys) = (list_to_set keys : gset string)) as Hd.
  { rewrite asked_dom, dom_empty_L. set_solver. }
  destruct (remote_loop_some (foldl (fun m key => <[key := absent]> m) (∅ : gmap string ReadBeatRecord) keys) (getter w keys)) as (ret & He & Hr).
  - intros r Hr. apply elem_of_dom. rewrite Hd. apply elem_of_list_to_set. by apply Hin.
  - exists ret. split; [done|]. by rewrite Hr.
Qed.
End remote_lemmas.

(** ** Properties *)

(** The leader's record cache behaves as one map from instance to record:
    no operation panics, a batch of puts leaves the last record of each
    instance, [Get] answers every requested key with the stored record or
    with [Exist = false], deletions and [Clean] remove, [Snapshot] lists. *)
Theorem local_cache_is_a_map (hashFunc : string -> Z) (lc : LocalBeatRecordCache) (keys : list string) (rs : list WriteBeatRecord) :
  (forall k, 0 <= hashFunc k) -> local_ok hashFunc lc ->
  (exists ret, LocalGet hashFunc lc keys = Ret ret /\
    forall k, ret !! k = if decide (k ∈ keys) then Some (read (beats lc !! k)) else None) /\
  (exists lc', LocalPut hashFunc lc rs = Ret lc' /\ local_ok hashFunc lc' /\ beats lc' = write_all (beats lc) rs) /\
  (exists lc', LocalDel hashFunc lc keys = Ret lc' /\ local_ok hashFunc lc' /\
    beats lc' = foldl (fun m k => delete k m) (beats lc) keys) /\
  (exists lc', LocalClean lc = Ret lc' /\ local_ok hashFunc lc' /\ beats lc' = ∅) /\
  LocalSnapshot lc = (fun v => mkReadBeatRecord v false) <$> beats lc.
Proof.
  intros Hh Hi. split_and!;
    [by apply LocalGet_spec|by apply LocalPut_spec|by apply LocalDel_spec|by eapply LocalClean_spec|by eapply LocalSnapshot_spec].
Qed.

(** A follower's [Get] answers exactly the requested keys, unless the
    leader's response holds a record that was not asked for, and then it
    panics on a nil pointer instead of skipping the record. *)
Theorem remote_get_panics_on_unrequested {W} (getter : W -> list string -> list HeartbeatRecord) (w : W) (keys : list string) :
  ((forall r, r ∈ getter w keys -> pb_InstanceId r ∈ keys) ->
     exists ret, RemoteGet getter w keys = Ret ret /\ dom ret = list_to_set keys) /\
  (forall r, r ∈ getter w keys -> pb_InstanceId r ∉ keys -> RemoteGet getter w keys = Panics NilDereference).
Proof.
  split; [apply RemoteGet_returns|]. intros r Hr Hk. apply (remote_loop_panics _ _ r); [done|].
  apply not_elem_of_dom. rewrite asked_dom, dom_empty_L. set_solver.
Qed.

(** ** Witnesses *)

Definition demo_hash (k : string) : Z := Z.of_nat (String.length k).

Lemma local_cache_is_a_map_witness :
  exists lc, newLocalBeatRecordCache 64 0 = Ret lc /\
    exists ret, LocalGet demo_hash lc ["a"; "b"] = Ret ret /\ ret !! "a" = Some absent /\ ret !! "c" = None.
Proof.
  assert (forall k, 0 <= demo_hash k) as Hh by (intros; unfold demo_hash; lia).
  destruct (newLocal_spec demo_hash 64 0) as (lc & He & Hok & Hb); [lia..|].
  exists lc. split; [done|].
  destruct (local_cache_is_a_map demo_hash lc ["a"; "b"] []) as ((ret & Hr & Hl) & _); [done..|].
  exists ret. split; [done|]. rewrite !Hl, Hb. done.
Defined.

Lemma remote_get_panics_on_unrequested_witness :
  RemoteGet (fun (_ : unit) _ => [mkHeartbeatRecord "x" 7 true]) tt ["a"] = Panics NilDereference.
Proof.
  apply (proj2 (remote_get_panics_on_unrequested (fun (_ : unit) _ => [mkHeartbeatRecord "x" 7 true]) tt ["a"])
    (mkHeartbeatRecord "x" 7 true)); set_solver.
Defined.
