(* ===== verification/BatchJob.v ===== *)
(** * Batched jobs ([src/common/batchjob/future.go], [src/common/batchjob/batch.go])

    A [future] is answered at most once.  A [BatchController] has a main loop
    that collects futures into batches and hands them over unbuffered channels
    to workers that announced themselves on [idleSignal]; [Stop] and
    [GracefulStop] cancel its context.  The controller is a transition system:
    [exec] says which of its goroutines' next statements can run and what they
    do, and the theorems hold of every interleaving. *)

From S2P Require Import Prelude Checker.
From Stdlib Require Import ZArith Lia.
From stdpp Require Import base tactics list gmap.

(** ** Futures *)
Section Future.
  (** [R]: results.  Errors are those of [Checker.v] or the context's. *)
  Context {R : Type}.

Inductive future_error :=
| Replied (e : checker_error)
| ContextCanceled
| DeadlineExceeded.

(** [signalled]: [setsignal] has been sent to or closed, so that a receive on
    it is ready from now on; [ctx_done]: the future's context is cancelled. *)
Record future := mkFuture {
  replied : bool;
  signalled : bool;
  ctx_done : bool;
  fresult : option R;
  ferr : option future_error }.

Definition new_future : future := mkFuture false false false None None.

(** [Reply]: the compare-and-swap on [replied] decides who answers. *)
Definition Reply (f : future) (res : option R) (err : option future_error) : future * option checker_error :=
  if replied f then (f, Some ErrorReplyOnlyOnce)
  else (mkFuture true true (ctx_done f) res err, None).

Definition Cancel (f : future) : future :=
  if replied f then mkFuture true (signalled f) true (fresult f) (ferr f)
  else mkFuture true true true (fresult f) (ferr f).

(** What [Done] may return: Go's [select] takes any of the ready branches. *)
Definition Done (f : future) : list (option R * option future_error) :=
  (if ctx_done f then [(None, Some ContextCanceled)] else []) ++
  (if signalled f then [(fresult f, ferr f)] else []).

(** [DoneTimeout]: the timer is one more branch. *)
Definition DoneTimeout (f : future) (timer_fired : bool) : list (option R * option future_error) :=
  (if timer_fired then [(None, Some DeadlineExceeded)] else []) ++ Done f.

End Future.
Arguments future : clear implicits.

(** ** The controller *)

(** Futures are numbered by submission; the controller never looks inside. *)
Abbreviation fid := nat.

(** Where a [triggerConsume] returns to. *)
Inductive cont := BackToLoop | BackToDrain | ThenClose.

Inductive main_pc :=
| MLoop                      (* the select *)
| MTakeIdle (k : cont)       (* idleIndex := <-bc.idleSignal *)
| MSend (k : cont) (i : nat) (* bc.workers[idleIndex] <- data *)
| MDrain                     (* graceful: range bc.tasksChan *)
| MReject                    (* shutdownNow: range bc.tasksChan *)
| MWait                      (* <-bc.allWorkersStop *)
| MExited.

Inductive worker :=
| WSignal                    (* bc.idleSignal <- index *)
| WSelect                    (* the select *)
| WHandle (b : list fid)     (* bc.handler(futures) *)
| WStop (graceful : bool)    (* stopFunc: range bc.workers[index] *)
| WStopHandle (b : list fid) (* stopFunc: bc.handler(futures) *)
| WStopSignal                (* stopFunc: bc.idleSignal <- index *)
| WDone.

Inductive stop_state := Running | ShutdownNow | ShutdownGraceful.

#[export] Instance worker_eq_dec : EqDecision worker.
Proof. solve_decision. Defined.
#[export] Instance stop_state_eq_dec : EqDecision stop_state.
Proof. solve_decision. Defined.

Record controller := mkController {
  stop : stop_state;
  cancelled : bool;
  tasksChan : list fid;
  pc : main_pc;
  futures : list fid;
  idleSignal : list nat;
  workers : list worker;
  workersClosed : bool;
  submitted : list fid;   (* accepted by Submit, in order *)
  handled : list fid;     (* given to the handler *)
  stopped : list fid      (* answered ErrorBatchControllerStopped *) }.

Inductive label :=
| Submit (f : fid)
| CallStop
| CallGracefulStop
| MainTick                   (* <-ticker.C *)
| MainRecv                   (* future := <-bc.tasksChan *)
| MainCancel                 (* <-ctx.Done(): stopFunc begins *)
| MainTakeIdle
| MainSend
| MainDrain
| MainJoin
| WorkerSignal (i : nat)
| WorkerFinish (i : nat)
| WorkerCancel (i : nat)     (* <-ctx.Done() *)
| WorkerRecvClosed (i : nat) (* a receive from a closed channel *)
| WorkerExit (i : nat).

Section controller.
  Context (MaxBatchCount Concurrency QueueSize : nat).

Definition init : controller :=
  mkController Running false [] MLoop [] [] (replicate Concurrency WSignal) false [] [] [].

Definition set_pc (c : controller) (p : main_pc) : controller :=
  mkController (stop c) (cancelled c) (tasksChan c) p (futures c) (idleSignal c) (workers c)
    (workersClosed c) (submitted c) (handled c) (stopped c).
Definition set_worker (c : controller) (i : nat) (w : worker) : controller :=
  mkController (stop c) (cancelled c) (tasksChan c) (pc c) (futures c) (idleSignal c) (<[i := w]> (workers c))
    (workersClosed c) (submitted c) (handled c) (stopped c).
Definition set_idle (c : controller) (l : list nat) : controller :=
  mkController (stop c) (cancelled c) (tasksChan c) (pc c) (futures c) l (workers c)
    (workersClosed c) (submitted c) (handled c) (stopped c).
Definition set_futures (c : controller) (l : list fid) : controller :=
  mkController (stop c) (cancelled c) (tasksChan c) (pc c) l (idleSignal c) (workers c)
    (workersClosed c) (submitted c) (handled c) (stopped c).
Definition set_tasks (c : controller) (l : list fid) : controller :=
  mkController (stop c) (cancelled c) l (pc c) (futures c) (idleSignal c) (workers c)
    (workersClosed c) (submitted c) (handled c) (stopped c).
Definition close_workers (c : controller) : controller :=
  mkController (stop c) (cancelled c) (tasksChan c) (pc c) (futures c) (idleSignal c) (workers c)
    true (submitted c) (handled c) (stopped c).
Definition add_handled (c : controller) (l : list fid) : controller :=
  mkController (stop c) (cancelled c) (tasksChan c) (pc c) (futures c) (idleSignal c) (workers c)
    (workersClosed c) (submitted c) (handled c ++ l) (stopped c).
Definition add_stopped (c : controller) (l : list fid) : controller :=
  mkController (stop c) (cancelled c) (tasksChan c) (pc c) (futures c) (idleSignal c) (workers c)
    (workersClosed c) (submitted c) (handled c) (stopped c ++ l).

(** [bc.lock] is free: the main loop holds it from [stopFunc] to its exit. *)
Definition lock_free (c : controller) : bool :=
  match pc c with
  | MLoop | MTakeIdle BackToLoop | MSend BackToLoop _ | MExited => true
  | _ => false
  end.

(** [triggerConsume(futures)], called at [k]; nothing happens for no futures. *)
Definition triggerConsume (c : controller) (k : cont) (otherwise : controller) : controller :=
  match futures c with [] => otherwise | _ => set_pc c (MTakeIdle k) end.

(** [close(bc.workers[i])] for all [i], then wait for the workers. *)
Definition close_and_wait (c : controller) : controller := set_pc (close_workers c) MWait.

Definition after_consume (c : controller) (k : cont) : controller :=
  match k with
  | BackToLoop => set_pc c MLoop
  | BackToDrain => set_pc c MDrain
  | ThenClose => close_and_wait c
  end.

(** [stopFunc] of [mainLoop]. *)
Definition mainStop (c : controller) : controller :=
  match stop c with
  | ShutdownGraceful => triggerConsume c BackToDrain (set_pc c MDrain)
  | ShutdownNow => set_pc (set_futures (add_stopped (close_workers c) (futures c)) []) MReject
  | Running => set_pc c MWait
  end.

(** Appending a received future, and consuming when the batch is full. *)
Definition receive (c : controller) (f : fid) (rest : list fid) (k : cont) : controller :=
  let c := set_tasks (set_futures c (futures c ++ [f])) rest in
  if decide (length (futures c) = MaxBatchCount) then set_pc c (MTakeIdle k) else c.

(** Worker [i] receives the batch the main loop holds. *)
Definition deliver (c : controller) (i : nat) (k : cont) : option controller :=
  match workers c !! i with
  | Some WSelect =>
      Some (after_consume (set_futures (set_worker c i (WHandle (futures c))) []) k)
  | Some (WStop true) =>
      Some (after_consume (set_futures (set_worker c i (WStopHandle (futures c))) []) k)
  | Some (WStop false) =>
      Some (after_consume (set_futures (add_stopped c (futures c)) []) k)
  | _ => None
  end.

Definition exec (l : label) (c : controller) : option controller :=
  match l with
  | Submit f =>
      if decide (stop c = Running /\ lock_free c = true /\ (length (tasksChan c) < QueueSize)%nat /\ f ∉ submitted c)
      then Some (mkController (stop c) (cancelled c) (tasksChan c ++ [f]) (pc c) (futures c) (idleSignal c)
                   (workers c) (workersClosed c) (submitted c ++ [f]) (handled c) (stopped c))
      else None
  | CallStop =>
      if lock_free c
      then Some (mkController ShutdownNow true (tasksChan c) (pc c) (futures c) (idleSignal c)
                   (workers c) (workersClosed c) (submitted c) (handled c) (stopped c))
      else None
  | CallGracefulStop =>
      if lock_free c
      then Some (mkController ShutdownGraceful true (tasksChan c) (pc c) (futures c) (idleSignal c)
                   (workers c) (workersClosed c) (submitted c) (handled c) (stopped c))
      else None
  | MainTick => match pc c with MLoop => Some (triggerConsume c BackToLoop c) | _ => None end
  | MainRecv =>
      match pc c, tasksChan c with
      | MLoop, f :: rest => Some (receive c f rest BackToLoop)
      | _, _ => None
      end
  | MainCancel => match pc c with MLoop => if cancelled c then Some (mainStop c) else None | _ => None end
  | MainTakeIdle =>
      match pc c, idleSignal c with
      | MTakeIdle k, i :: rest => Some (set_pc (set_idle c rest) (MSend k i))
      | _, _ => None
      end
  | MainSend => match pc c with MSend k i => deliver c i k | _ => None end
  | MainDrain =>
      match pc c, tasksChan c with
      | MDrain, f :: rest => Some (receive c f rest BackToDrain)
      | MDrain, [] => Some (triggerConsume c ThenClose (close_and_wait c))
      | MReject, f :: rest => Some (set_tasks (add_stopped c [f]) rest)
      | MReject, [] => Some (set_pc c MWait)
      | _, _ => None
      end
  | MainJoin =>
      match pc c with
      | MWait => if decide (Forall (fun w => w = WDone) (workers c)) then Some (set_pc c MExited) else None
      | _ => None
      end
  | WorkerSignal i =>
      match workers c !! i with
      | Some WSignal =>
          if decide (length (idleSignal c) < Concurrency)%nat
          then Some (set_worker (set_idle c (idleSignal c ++ [i])) i WSelect) else None
      | Some WStopSignal =>
          if decide (length (idleSignal c) < Concurrency)%nat
          then Some (set_worker (set_idle c (idleSignal c ++ [i])) i (WStop true)) else None
      | _ => None
      end
  | WorkerFinish i =>
      match workers c !! i with
      | Some (WHandle b) => Some (set_worker (add_handled c b) i WSignal)
      | Some (WStopHandle b) => Some (set_worker (add_handled c b) i WStopSignal)
      | _ => None
      end
  | WorkerCancel i =>
      match workers c !! i with
      | Some WSelect =>
          if cancelled c then
            match stop c with
            | ShutdownGraceful => Some (set_worker c i (WStop true))
            | ShutdownNow => Some (set_worker c i (WStop false))
            | Running => Some (set_worker c i WDone)
            end
          else None
      | _ => None
      end
  | WorkerRecvClosed i =>
      match workers c !! i with
      | Some WSelect => if workersClosed c then Some (set_worker c i (WHandle [])) else None
      | _ => None
      end
  | WorkerExit i =>
      match workers c !! i with
      | Some (WStop _) => if workersClosed c then Some (set_worker c i WDone) else None
      | _ => None
      end
  end.

Fixpoint run (ls : list label) (c : controller) : option controller :=
  match ls with
  | [] => Some c
  | l :: ls => c' ← exec l c; run ls c'
  end.

Definition reachable (c : controller) : Prop := exists ls, run ls init = Some c.

(** None of the controller's goroutines ever moves again, whatever is called. *)
Definition deadlocked (c : controller) : Prop :=
  forall ls c', run ls c = Some c' -> pc c' = pc c /\ workers c' = workers c /\ futures c' = futures c.

End controller.

(** ** Invariants *)

Definition load (w : worker) : list fid :=
  match w with WHandle b | WStopHandle b => b | _ => [] end.

(** The futures the workers are handling. *)
Definition in_hand (ws : list worker) : list fid := concat (load <$> ws).

(** Everything a submitted future can be. *)
Definition accounted (c : controller) : list fid :=
  tasksChan c ++ futures c ++ in_hand (workers c) ++ handled c ++ stopped c.

(** Number of occurrences: multiset reasoning by linear arithmetic. *)
Abbreviation cnt := (count_occ Nat.eq_dec).

(** What the main loop and the workers hold, by the main loop's position. *)
Definition pc_ok (Max : nat) (c : controller) : Prop :=
  let bounded := (0 < Max)%nat -> (length (futures c) <= Max)%nat in
  match pc c with
  | MLoop => (0 < Max)%nat -> (length (futures c) < Max)%nat
  | MTakeIdle BackToLoop | MSend BackToLoop _ => bounded
  | MDrain => stop c <> Running /\ ((0 < Max)%nat -> (length (futures c) < Max)%nat)
  | MTakeIdle BackToDrain | MSend BackToDrain _ => stop c <> Running /\ bounded
  | MTakeIdle ThenClose | MSend ThenClose _ => stop c <> Running /\ bounded /\ tasksChan c = []
  | MReject => stop c <> Running /\ futures c = []
  | MWait => stop c <> Running /\ futures c = [] /\ tasksChan c = []
  | MExited => stop c <> Running /\ futures c = [] /\ tasksChan c = [] /\ Forall (fun w => w = WDone) (workers c)
  end.

Record main_ok (Max : nat) (c : controller) : Prop := {
  ok_stop : cancelled c = true -> stop c <> Running;
  ok_load : (0 < Max)%nat -> Forall (fun w => (length (load w) <= Max)%nat) (workers c);
  ok_pc : pc_ok Max c }.

(** Nobody has called [Stop]. *)
Record graceful (c : controller) : Prop := {
  gr_stop : stop c <> ShutdownNow;
  gr_pc : pc c <> MReject;
  gr_workers : Forall (fun w => w <> WStop false) (workers c);
  gr_stopped : stopped c = [] }.

Section lemmas.
  Context (Max Conc Queue : nat).
  #[local] Abbreviation exec := (exec Max Conc Queue).
  #[local] Abbreviation run := (run Max Conc Queue).
  #[local] Abbreviation init := (init Conc).

Lemma in_hand_update ws i w w' x :
  ws !! i = Some w ->
  (cnt (in_hand (<[i := w']> ws)) x + cnt (load w) x = cnt (in_hand ws) x + cnt (load w') x)%nat.
Proof.
  unfold in_hand. revert i. induction ws as [|w0 ws IH]; intros i Hi; [done|].
  destruct i as [|i]; simplify_eq/=; rewrite !count_occ_app; [lia|].
  specialize (IH i Hi). csimpl in *. lia.
Qed.

Lemma run_invariant (P : controller -> Prop) ls c c' :
  (forall l c c', P c -> exec l c = Some c' -> P c') -> P c -> run ls c = Some c' -> P c'.
Proof.
  intros Hstep. revert c. induction ls as [|l ls IH]; intros c Hc Hr; simpl in *; [by simplify_eq|].
  destruct (exec l c) as [c1|] eqn:He; [|done]. simpl in Hr. eauto.
Qed.

(** Opens the guards of one step. *)
Ltac open_step :=
  repeat (match goal with
  | H : None = Some _ |- _ => discriminate H
  | H : Some _ = Some _ |- _ => injection H as <-
  | H : context [match ?x with _ => _ end] |- _ => destruct x eqn:?
  | H : context [decide ?P] |- _ => destruct (decide P)
  end; simpl in *).

Lemma step_conserves l c c' :
  exec l c = Some c' ->
  (forall x, cnt (submitted c) x = cnt (accounted c) x) ->
  forall x, cnt (submitted c') x = cnt (accounted c') x.
Proof.
  intros He Hc x. specialize (Hc x).
  destruct l; unfold exec, BatchJob.exec, deliver, receive, mainStop, after_consume, close_and_wait, triggerConsume in He;
    open_step; repeat (case_match || case_decide); unfold accounted in *; simpl in *;
    rewrite ?count_occ_app in *; simpl in *;
    repeat match goal with
    | H : workers ?c !! ?i = Some ?w |- context [in_hand (<[?i := ?w']> (workers ?c))] =>
        pose proof (in_hand_update (workers c) i w w' x H); clear H; simpl in *
    | H : tasksChan _ = _ |- _ => rewrite H in *; clear H; simpl in *
    | H : futures _ = _ |- _ => rewrite H in *; clear H; simpl in *
    end; rewrite ?count_occ_app in *; simpl in *;
    repeat match goal with |- context [Nat.eq_dec ?a ?b] => destruct (Nat.eq_dec a b) end; lia.
Qed.

(** Closes what is left of [pc_ok] once the main loop's position is known. *)
Ltac finish_pc :=
  unfold pc_ok in *; simpl in *;
  repeat match goal with H : pc _ = _ |- _ => rewrite H in *; clear H; simpl in * end;
  repeat case_match;
  repeat match goal with H : left _ = left _ |- _ => clear H | H : right _ = right _ |- _ => clear H end;
  rewrite ?length_app in *; simpl in *;
  destruct_and?; split_and?; intros; simplify_eq; try done; try lia; try (by auto); try congruence;
  repeat match goal with H : 0 < _ -> _ |- _ => specialize (H ltac:(assumption)) end; try lia;
  try (by (apply Forall_insert; simpl; [auto|lia])).

(** A worker that is done takes no step. *)
Lemma done_no_step ws i w : Forall (fun w => w = WDone) ws -> ws !! i = Some w -> w = WDone.
Proof. rewrite Forall_lookup. eauto. Qed.

Lemma step_main_ok l c c' : exec l c = Some c' -> main_ok Max c -> main_ok Max c'.
Proof.
  intros He [Hs Hl Hp].
  destruct l; unfold exec, BatchJob.exec, deliver, receive, mainStop, after_consume, close_and_wait, triggerConsume in He;
    open_step; repeat (case_match || case_decide); constructor; simpl; try done; finish_pc;
    try match goal with
    | H : Forall (fun w => w = WDone) _, H' : _ !! _ = Some _ |- _ => discriminate (done_no_step _ _ _ H H')
    | H : Forall (fun w => (length (load w) <= Max)%nat) _, H' : _ !! _ = Some ?w |- _ =>
        pose proof (Forall_lookup_1 _ _ _ _ H H'); simpl in *; try done; try lia
    end;
    try (exfalso; apply Hs; reflexivity).
Qed.

(** Only [Stop] makes the main loop or a worker reject futures. *)
Lemma step_graceful l c c' : exec l c = Some c' -> l <> CallStop -> graceful c -> graceful c'.
Proof.
  intros He Hl [Hs Hp Hw Hst].
  destruct l; unfold exec, BatchJob.exec, deliver, receive, mainStop, after_consume, close_and_wait, triggerConsume in He;
    open_step; repeat (case_match || case_decide); constructor; simpl; try done; try congruence;
    try (by (apply Forall_insert; [|discriminate]));
    try match goal with
    | H : Forall (fun w => w <> WStop false) _, H' : _ !! _ = Some (WStop false) |- _ =>
        by destruct (Forall_lookup_1 _ _ _ _ H H')
    end.
Qed.

Lemma init_conserves x : cnt (submitted init) x = cnt (accounted init) x.
Proof.
  unfold accounted, in_hand. simpl. rewrite fmap_replicate, count_occ_app. simpl.
  induction Conc; simpl; [done|]. by rewrite <- IHn.
Qed.

Lemma init_main_ok : main_ok Max init.
Proof.
  constructor; simpl; [done| |unfold pc_ok; simpl; lia].
  intros _. apply Forall_replicate. simpl. lia.
Qed.

Lemma init_graceful : graceful init.
Proof. constructor; simpl; [done|done| |done]. by apply Forall_replicate. Qed.

Lemma step_submitted_fresh l c c' : exec l c = Some c' -> NoDup (submitted c) -> NoDup (submitted c').
Proof.
  intros He Hn.
  destruct l; unfold exec, BatchJob.exec, deliver, receive, mainStop, after_consume, close_and_wait, triggerConsume in He;
    open_step; repeat (case_match || case_decide); simpl; try done.
  apply NoDup_app. split_and!; [done| |apply NoDup_singleton]. set_solver.
Qed.

Lemma cnt_Permutation (l1 l2 : list fid) : (forall x, cnt l1 x = cnt l2 x) -> l1 ≡ₚ l2.
Proof. intros H. by apply (Permutation_count_occ Nat.eq_dec). Qed.

Lemma in_hand_done ws : Forall (fun w => w = WDone) ws -> in_hand ws = [].
Proof. unfold in_hand. by induction 1; simplify_eq/=. Qed.

Lemma run_graceful ls c c' : CallStop ∉ ls -> graceful c -> run ls c = Some c' -> graceful c'.
Proof.
  revert c. induction ls as [|l ls IH]; intros c Hn Hg Hr; simpl in *; [by simplify_eq|].
  destruct (exec l c) as [c1|] eqn:He; [|done]. simpl in Hr.
  apply (IH c1); [set_solver| |done]. eapply step_graceful; [done| |done]. set_solver.
Qed.

Lemma futures_conserved_lemma c :
  reachable Max Conc Queue c -> submitted c ≡ₚ accounted c /\ main_ok Max c.
Proof.
  intros [ls Hr]. split.
  - apply cnt_Permutation.
    eapply (run_invariant (fun c => forall x, cnt (submitted c) x = cnt (accounted c) x)); [|apply init_conserves|done].
    intros. eapply step_conserves; eauto.
  - eapply (run_invariant (main_ok Max)); [|apply init_main_ok|done]. intros. eapply step_main_ok; eauto.
Qed.

Lemma pc_ok_bounded c : (0 < Max)%nat -> pc_ok Max c -> (length (futures c) <= Max)%nat.
Proof.
  intros Hm Hp. unfold pc_ok in Hp.
  repeat case_match; destruct_and?;
    repeat match goal with H : 0 < _ -> _ |- _ => specialize (H Hm) | H : (0 < _)%nat -> _ |- _ => specialize (H Hm) end;
    try lia; match goal with H : futures c = [] |- _ => rewrite H; simpl; lia end.
Qed.

(** A main loop that waits for a single worker which waits for room in a full
    [idleSignal]. *)
Lemma blocked_waiting c ls c' :
  Conc = 1%nat -> stop c <> Running -> pc c = MWait -> workers c = [WSignal] -> idleSignal c = [0%nat] ->
  run ls c = Some c' -> pc c' = pc c /\ workers c' = workers c /\ futures c' = futures c.
Proof.
  intros HC Hs Hp Hw Hi Hr.
  assert (stop c' <> Running /\ pc c' = MWait /\ workers c' = [WSignal] /\ idleSignal c' = [0%nat] /\
    futures c' = futures c) as H; [|by destruct H as (_ & -> & -> & _ & ->); rewrite Hp, Hw].
  eapply (run_invariant (fun c' => stop c' <> Running /\ pc c' = MWait /\ workers c' = [WSignal] /\
    idleSignal c' = [0%nat] /\ futures c' = futures c)); [|done|exact Hr].
  clear -HC. intros l d d' (Hs & Hp & Hw & Hi & Hf) He.
  destruct l as [f| | | | | | | | | |i|i|i|i|i]; simpl in He; unfold lock_free in He;
    rewrite ?Hp, ?Hw, ?Hi in He; try discriminate.
  - rewrite decide_False in He by tauto. discriminate.
  - destruct i as [|i]; simpl in He; [|done].
    rewrite decide_False in He by (subst; simpl; lia). discriminate.
  - by destruct i.
  - by destruct i.
  - by destruct i.
  - by destruct i.
Qed.

(** A main loop that waits for a token of a single worker which rejects its
    batches and sends no token. *)
Lemma blocked_taking c ls c' :
  stop c <> Running -> pc c = MTakeIdle BackToLoop -> workers c = [WStop false] -> idleSignal c = [] ->
  workersClosed c = false ->
  run ls c = Some c' -> pc c' = pc c /\ workers c' = workers c /\ futures c' = futures c.
Proof.
  intros Hs Hp Hw Hi Hcl Hr.
  assert (stop c' <> Running /\ pc c' = MTakeIdle BackToLoop /\ workers c' = [WStop false] /\ idleSignal c' = [] /\
    workersClosed c' = false /\ futures c' = futures c) as H; [|by destruct H as (_ & -> & -> & _ & _ & ->); rewrite Hp, Hw].
  eapply (run_invariant (fun c' => stop c' <> Running /\ pc c' = MTakeIdle BackToLoop /\ workers c' = [WStop false] /\
    idleSignal c' = [] /\ workersClosed c' = false /\ futures c' = futures c)); [|done|exact Hr].
  clear. intros l d d' (Hs & Hp & Hw & Hi & Hcl & Hf) He.
  destruct l as [f| | | | | | | | | |i|i|i|i|i]; simpl in He; unfold lock_free in He;
    rewrite ?Hp, ?Hw, ?Hi, ?Hcl in He; try discriminate.
  - rewrite decide_False in He by tauto. discriminate.
  - by simplify_eq/=.
  - by simplify_eq/=.
  - by destruct i.
  - by destruct i.
  - by destruct i.
  - by destruct i.
  - by destruct i.
Qed.
End lemmas.

(** ** Properties *)

(** A future is answered by the first [Reply] only; every later one is
    refused with [ErrorReplyOnlyOnce] and changes nothing, and as long as
    nobody cancels the future, [Done] can return nothing but that answer. *)
Theorem reply_only_once {R} (f : future R) (res res' : option R) (err err' : option future_error) :
  replied f = false -> ctx_done f = false ->
  let '(f1, e1) := Reply f res err in
  e1 = None /\ Done f1 = [(res, err)] /\ Reply f1 res' err' = (f1, Some ErrorReplyOnlyOnce) /\
  fresult (Cancel f1) = res /\ ferr (Cancel f1) = err.
Proof. intros Hr Hc. unfold Reply, Done, Cancel. rewrite Hr. simpl. by rewrite Hc. Qed.

(** [Cancel] of an unanswered future makes two branches of [Done] ready,
    and one of them returns no result together with no error. *)
Theorem cancelled_future_may_return_nothing {R} :
  Done (Cancel (@new_future R)) = [(None, Some ContextCanceled); (None, None)] /\
  (forall res err, snd (Reply (Cancel (@new_future R)) res err) = Some ErrorReplyOnlyOnce).
Proof. done. Qed.

(** No future is lost or duplicated, whatever the interleaving of
    submissions, timer ticks, batches, workers and the two ways of stopping:
    every accepted future is in exactly one place (queued, batched, in a
    worker's hands, handled, or answered "stopped"), and no batch is larger
    than [MaxBatchCount]. *)
Theorem futures_conserved (MaxBatchCount Concurrency QueueSize : nat) (c : controller) :
  reachable MaxBatchCount Concurrency QueueSize c ->
  submitted c ≡ₚ accounted c /\ NoDup (accounted c) /\
  ((0 < MaxBatchCount)%nat -> (length (futures c) <= MaxBatchCount)%nat /\
     Forall (fun w => (length (load w) <= MaxBatchCount)%nat) (workers c)).
Proof.
  intros Hc. destruct (futures_conserved_lemma MaxBatchCount Concurrency QueueSize c Hc) as [Hp [_ Hl Hpc]].
  destruct Hc as [ls Hr]. split; [done|]. split.
  - rewrite <- Hp. eapply (run_invariant MaxBatchCount Concurrency QueueSize (fun c => NoDup (submitted c)) ls (init Concurrency));
      [|by apply NoDup_nil_2|done].
    intros. eapply step_submitted_fresh; eauto.
  - intros Hm. split; [by apply pc_ok_bounded|by apply Hl].
Qed.

(** When the main loop has exited, every accepted future has been handled
    or answered "stopped"; and when only [GracefulStop] was used, every one of
    them has been handled. *)
Theorem exited_controller_answered_all (MaxBatchCount Concurrency QueueSize : nat) (ls : list label) (c : controller) :
  run MaxBatchCount Concurrency QueueSize ls (init Concurrency) = Some c -> pc c = MExited ->
  submitted c ≡ₚ handled c ++ stopped c /\ (CallStop ∉ ls -> submitted c ≡ₚ handled c).
Proof.
  intros Hr Hx.
  destruct (futures_conserved_lemma MaxBatchCount Concurrency QueueSize c (ex_intro _ ls Hr)) as [Hp [_ _ Hpc]].
  unfold pc_ok in Hpc. rewrite Hx in Hpc. destruct Hpc as (_ & Hf & Ht & Hd).
  unfold accounted in Hp. rewrite Hf, Ht, (in_hand_done _ Hd) in Hp. simpl in Hp. split; [done|].
  intros Hn. rewrite Hp. destruct (run_graceful MaxBatchCount Concurrency QueueSize ls _ c Hn (init_graceful _) Hr) as [_ _ _ ->].
  by rewrite app_nil_r.
Qed.

(** Stopping can deadlock, with one worker and batches of one.  A worker
    that finishes its batch after the main loop closed the workers' channels
    may receive an empty batch from its closed channel and then blocks for
    good on the full [idleSignal], so a graceful stop never returns and keeps
    the lock; and after [Stop] the main loop may take a task off the queue
    while the only worker already drops its batches without announcing itself,
    which leaves that task unanswered for ever. *)
Theorem stopping_can_deadlock :
  (exists ls c, CallStop ∉ ls /\ run 1 1 1 ls (init 1) = Some c /\ pc c = MWait /\ deadlocked 1 1 1 c) /\
  (exists ls c, run 1 1 2 ls (init 1) = Some c /\ futures c = [1%nat] /\ deadlocked 1 1 2 c).
Proof.
  split.
  - exists [WorkerSignal 0; Submit 0; MainRecv; MainTakeIdle; MainSend; CallGracefulStop; MainCancel; MainDrain;
       WorkerFinish 0; WorkerSignal 0; WorkerRecvClosed 0; WorkerFinish 0].
    eexists. split; [set_solver|]. split; [vm_compute; reflexivity|]. split; [done|].
    intros ls c'. apply blocked_waiting; done.
  - exists [WorkerSignal 0; Submit 0; Submit 1; CallStop; WorkerCancel 0; MainRecv; MainTakeIdle; MainSend; MainRecv].
    eexists. split; [vm_compute; reflexivity|]. split; [done|].
    intros ls c'. apply blocked_taking; done.
Qed.

(** ** Witnesses *)

Lemma reply_only_once_witness :
  let '(f1, e1) := Reply (@new_future nat) (Some 3%nat) None in
  e1 = None /\ Done f1 = [(Some 3%nat, None)] /\ Reply f1 None None = (f1, Some ErrorReplyOnlyOnce) /\
  fresult (Cancel f1) = Some 3%nat /\ ferr (Cancel f1) = None.
Proof. exact (reply_only_once (@new_future nat) (Some 3%nat) None None None eq_refl eq_refl). Defined.

(** Two tasks, one batch of two, a graceful stop to the end. *)
Definition demo_run : list label :=
  [WorkerSignal 0; Submit 7; Submit 8; MainRecv; MainRecv; MainTakeIdle; MainSend; WorkerFinish 0; WorkerSignal 0;
   CallGracefulStop; WorkerCancel 0; MainCancel; MainDrain; WorkerExit 0; MainJoin].
Definition demo_exit : controller := default (init 1) (run 2 1 4 demo_run (init 1)).

Lemma futures_conserved_witness :
  reachable 2 1 4 demo_exit /\ submitted demo_exit ≡ₚ accounted demo_exit.
Proof.
  assert (reachable 2 1 4 demo_exit) as Hr by (exists demo_run; vm_compute; reflexivity).
  split; [exact Hr|]. exact (proj1 (futures_conserved 2 1 4 demo_exit Hr)).
Defined.

Lemma exited_controller_answered_all_witness :
  submitted demo_exit ≡ₚ handled demo_exit ++ stopped demo_exit /\
  (CallStop ∉ demo_run -> submitted demo_exit ≡ₚ handled demo_exit).
Proof.
  apply (exited_controller_answered_all 2 1 4 demo_run demo_exit); vm_compute; reflexivity.
Defined.
