(* ===== verification/LeaderChecker.v ===== *)
(** * The leader/follower heartbeat checker
    ([src/plugin/healthchecker/leader/checker_leader.go], [peer.go])

    One server, elected through the store, keeps all heartbeat records; the
    others forward to it.  The file models the reaction to election events
    ([OnEvent], [becomeLeader], [becomeFollower] and its delayed retry), the
    operations of the checker, and the batch handlers that answer the futures
    of the followers' peers.  What the network answers is an argument. *)

From S2P Require Import Prelude Hash SegmentMap BeatCache BatchJob Checker MemoryChecker.
From Stdlib Require Import ZArith Lia.
From stdpp Require Import base tactics list gmap strings.

Open Scope Z_scope.

Record LeaderChangeEvent := mkLeaderChangeEvent {
  EKey : string;
  ELeader : bool;
  LeaderHost : string }.

(** [store.ElectionKeySelfServiceChecker]. *)
Definition electionKey : string := "polaris.checker".

(** ** Peers *)

Record RemotePeer := mkRemotePeer { rp_host : string; rp_closed : bool }.

(** What a future of the batch controllers returned to [DoneTimeout]. *)
Abbreviation reply_map := (gmap string ReadBeatRecord).
Record net_reply := mkNet {
  get_reply : option reply_map * option future_error;
  put_error : option future_error }.

Definition error_of (e : future_error) : checker_error :=
  match e with
  | Replied e => e
  | ContextCanceled | DeadlineExceeded => ErrorDeadlineExceeded
  end.

(** [RemotePeer.Get]: a nil result without an error fails the type assertion;
    a missing key yields a nil record pointer. *)
Definition RemotePeer_Get (net : net_reply) (key : string) : outcome (result checker_error (option ReadBeatRecord)) :=
  match get_reply net with
  | (_, Some e) => Ret (Fail (error_of e))
  | (Some m, None) => Ret (Okay (m !! key))
  | (None, None) => Panics ExplicitPanic
  end.

Definition RemotePeer_Put (net : net_reply) : option checker_error := error_of <$> put_error net.

Definition RemotePeer_Close (p : RemotePeer) : RemotePeer := mkRemotePeer (rp_host p) true.

Section leader.
  (** [utils.LocalHost], and the hash of the local cache ([Fnv32] in the code). *)
  Context (localHost : string) (hashFunc : string -> Z).

(** [LocalPeer.Get]: the record of the local cache under the key. *)
Definition LocalPeer_Get (c : LocalBeatRecordCache) (key : string) : outcome (option ReadBeatRecord) :=
  m ← LocalGet hashFunc c [key]; Ret (m !! key).
Definition LocalPeer_Put (c : LocalBeatRecordCache) (r : WriteBeatRecord) : outcome LocalBeatRecordCache :=
  LocalPut hashFunc c [r].
Definition LocalPeer_Del (c : LocalBeatRecordCache) (key : string) : outcome LocalBeatRecordCache :=
  LocalDel hashFunc c [key].

(** ** The checker *)

Record LeaderHealthChecker := mkLeader {
  initialize : bool;
  leaderChangeTimeSec : Z;
  suspendTimeSec : Z;
  leader : bool;
  leaderVersion : Z;
  remote : option RemotePeer;
  self : LocalBeatRecordCache;
  retries : list (LeaderChangeEvent * Z) (* sleeping retry goroutines *);
  closedPeers : list string              (* hosts whose connection was closed *) }.

Definition new_checker (cache : LocalBeatRecordCache) : LeaderHealthChecker :=
  mkLeader false 0 0 false 0 None cache [] [].

Definition becomeLeader (c : LeaderHealthChecker) : LeaderHealthChecker :=
  mkLeader true (leaderChangeTimeSec c) (suspendTimeSec c) true (leaderVersion c) None (self c) (retries c)
    (closedPeers c ++ match remote c with Some p => [rp_host (RemotePeer_Close p)] | None => [] end).

(** [served] says whether [remoteLeader.Serve] connected; otherwise a retry is
    left behind for the version it was started with. *)
Definition becomeFollower (c : LeaderHealthChecker) (e : LeaderChangeEvent) (version : Z) (served : bool)
    : LeaderHealthChecker :=
  if decide (LeaderHost e = "") then c
  else
    let connect (c : LeaderHealthChecker) :=
      if served then
        mkLeader true (leaderChangeTimeSec c) (suspendTimeSec c) false (leaderVersion c)
          (Some (mkRemotePeer (LeaderHost e) false)) (self c) (retries c) (closedPeers c)
      else
        mkLeader (initialize c) (leaderChangeTimeSec c) (suspendTimeSec c) (leader c) (leaderVersion c)
          (remote c) (self c) (retries c ++ [(e, version)]) (closedPeers c) in
    match remote c with
    | None => connect c
    | Some p =>
        if decide (LeaderHost e = rp_host p)
        then mkLeader true (leaderChangeTimeSec c) (suspendTimeSec c) (leader c) (leaderVersion c)
               (remote c) (self c) (retries c) (closedPeers c)
        else connect (mkLeader (initialize c) (leaderChangeTimeSec c) (suspendTimeSec c) (leader c) (leaderVersion c)
               None (self c) (retries c) (closedPeers c ++ [rp_host (RemotePeer_Close p)]))
    end.

Definition set_self (c : LeaderHealthChecker) (s : LocalBeatRecordCache) : LeaderHealthChecker :=
  mkLeader (initialize c) (leaderChangeTimeSec c) (suspendTimeSec c) (leader c) (leaderVersion c)
    (remote c) s (retries c) (closedPeers c).

(** [refreshLeaderChangeTimeSec]. *)
Definition refresh (c : LeaderHealthChecker) (now : Z) : LeaderHealthChecker :=
  mkLeader (initialize c) (Z.quot now 1000) (suspendTimeSec c) (leader c) (leaderVersion c)
    (remote c) (self c) (retries c) (closedPeers c).

Definition OnEvent (c : LeaderHealthChecker) (e : LeaderChangeEvent) (served : bool) (now : Z)
    : outcome LeaderHealthChecker :=
  if decide (EKey e <> electionKey) then Ret c
  else
    let version := i64 (leaderVersion c + 1) in
    let c := mkLeader false (leaderChangeTimeSec c) (suspendTimeSec c) (leader c) version
               (remote c) (self c) (retries c) (closedPeers c) in
    if ELeader e then Ret (refresh (becomeLeader c) now)
    else
      let c := becomeFollower c e version served in
      s ← LocalClean (self c);
      Ret (refresh (set_self c s) now).

(** The [i]-th sleeping retry wakes up. *)
Definition retry (c : LeaderHealthChecker) (i : nat) (served : bool) : LeaderHealthChecker :=
  match retries c !! i with
  | None => c
  | Some (e, version) =>
      let c := mkLeader (initialize c) (leaderChangeTimeSec c) (suspendTimeSec c) (leader c) (leaderVersion c)
                 (remote c) (self c) (take i (retries c) ++ drop (S i) (retries c)) (closedPeers c) in
      if decide (version <> leaderVersion c) then c else becomeFollower c e version served
  end.

(** [findLeaderPeer]: the local cache, or the remote peer (nil when unset). *)
Inductive peer := LocalPeer | Remote (p : RemotePeer).
Definition findLeaderPeer (c : LeaderHealthChecker) : option peer :=
  if leader c then Some LocalPeer else Remote <$> remote c.

Definition peer_host (p : peer) : string :=
  match p with LocalPeer => localHost | Remote r => rp_host r end.

Definition Report (c : LeaderHealthChecker) (from_peer : bool) (net : net_reply) (request : ReportRequest)
    : outcome (LeaderHealthChecker * option checker_error) :=
  if from_peer then Ret (c, Some ErrorRedirectOnlyOnce)
  else if negb (initialize c) then Ret (c, None)
  else
    match findLeaderPeer c with
    | None => Panics NilDereference
    | Some p =>
        let record := mkWriteBeatRecord
          (mkRecordValue (peer_host p) (Checker.CurTimeSec request) (RCount request))
          (InstanceId (rquery request)) in
        match p with
        | LocalPeer => s ← LocalPeer_Put (self c) record; Ret (set_self c s, None)
        | Remote _ => Ret (c, RemotePeer_Put net)
        end
    end.

Definition Query (c : LeaderHealthChecker) (from_peer : bool) (net : net_reply) (request : QueryRequest)
    : outcome (result checker_error QueryResponse) :=
  if from_peer then Ret (Fail ErrorRedirectOnlyOnce)
  else if negb (initialize c) then Ret (Okay (mkQueryResponse "" false 0 0))
  else
    match findLeaderPeer c with
    | None => Panics NilDereference
    | Some p =>
        answer ← match p with
                 | LocalPeer => r ← LocalPeer_Get (self c) (InstanceId request); Ret (Okay r)
                 | Remote _ => RemotePeer_Get net (InstanceId request)
                 end;
        match answer with
        | Fail e => Ret (Fail e)
        | Okay None => Panics NilDereference
        | Okay (Some record) =>
            Ret (Okay (mkQueryResponse (peer_host p) (Exist record)
              (BeatCache.CurTimeSec (RRecord record)) (Count (RRecord record))))
        end
    end.

Definition skipCheck (c : LeaderHealthChecker) (now expireDurationSec : Z) : bool :=
  if negb (initialize c) then true
  else
    let localCurTimeSec := Z.quot now 1000 in
    if bool_decide (suspendTimeSec c > 0 /\ localCurTimeSec >= suspendTimeSec c /\
         i64 (localCurTimeSec - suspendTimeSec c) < expireDurationSec) then true
    else bool_decide (leaderChangeTimeSec c > 0 /\ localCurTimeSec >= leaderChangeTimeSec c /\
           i64 (localCurTimeSec - leaderChangeTimeSec c) < expireDurationSec).

Definition Check (c : LeaderHealthChecker) (net : net_reply) (now : Z) (request : CheckRequest)
    : outcome (result checker_error CheckResponse) :=
  queryResp ← Query c false net (cquery request);
  match queryResp with
  | Fail e => Ret (Fail e)
  | Okay queryResp =>
      let lastHeartbeatTime := LastHeartbeatSec queryResp in
      let curTimeSec := cur_time_sec request in
      if skipCheck c now (ExpireDurationSec request)
      then Ret (Okay (mkResponse false lastHeartbeatTime true false))
      else if decide (curTimeSec > lastHeartbeatTime /\ i64 (curTimeSec - lastHeartbeatTime) >= ExpireDurationSec request)
      then
        if QHealthy (cquery request) then Ret (Okay (mkResponse false lastHeartbeatTime false false))
        else Ret (Okay (mkResponse false lastHeartbeatTime true false))
      else
        if negb (QHealthy (cquery request)) then Ret (Okay (mkResponse true lastHeartbeatTime false false))
        else Ret (Okay (mkResponse true lastHeartbeatTime true false))
  end.

(** Unlike the other operations [Delete] does not ask [isInitialize]. *)
Definition Delete (c : LeaderHealthChecker) (from_peer : bool) (key : string)
    : outcome (LeaderHealthChecker * option checker_error) :=
  if from_peer then Ret (c, Some ErrorRedirectOnlyOnce)
  else
    match findLeaderPeer c with
    | None => Panics NilDereference
    | Some LocalPeer => s ← LocalPeer_Del (self c) key; Ret (set_self c s, None)
    | Some (Remote _) => Ret (c, None)
    end.

Definition Suspend (c : LeaderHealthChecker) (now : Z) : LeaderHealthChecker :=
  mkLeader (initialize c) (leaderChangeTimeSec c) (Z.quot now 1000) (leader c) (leaderVersion c)
    (remote c) (self c) (retries c) (closedPeers c).

(** ** Histories of elections *)

Inductive election :=
| Event (e : LeaderChangeEvent) (served : bool) (now : Z)
| Retry (i : nat) (served : bool).

Definition elect (c : LeaderHealthChecker) (o : election) : outcome LeaderHealthChecker :=
  match o with
  | Event e served now => OnEvent c e served now
  | Retry i served => Ret (retry c i served)
  end.

Fixpoint elections (c : LeaderHealthChecker) (os : list election) : outcome LeaderHealthChecker :=
  match os with
  | [] => Ret c
  | o :: os => c' ← elect c o; elections c' os
  end.


#[export] Instance leader_checker (net : net_reply) : HealthChecker LeaderHealthChecker := {
  hc_report c from_peer request := Report c from_peer net request;
  hc_query c from_peer request := Query c from_peer net request;
  hc_check c now request := Check c net now request;
  hc_delete c from_peer key := Delete c from_peer key;
  hc_suspend := Suspend;
  hc_suspend_time := suspendTimeSec }.

End leader.

(** ** Specification *)

(** The batch controllers answered with the key's record, or with an error. *)
Definition net_answers (net : net_reply) (key : string) : Prop :=
  match get_reply net with
  | (_, Some _) => True
  | (Some m, None) => is_Some (m !! key)
  | (None, None) => False
  end.

(** The last event of a history that was about the checker's election. *)
Definition last_event (os : list election) : option LeaderChangeEvent :=
  foldl (fun l o => match o with
                    | Event e _ _ => if decide (EKey e = electionKey) then Some e else l
                    | Retry _ _ => l
                    end) None os.

(** The roles agree with the last event [l] of [n]: an initialized checker
    leads or follows as [l] said, one that follows somebody does not lead and
    its connection is open, and a sleeping retry of the current version was
    started by [l]. *)
Record role_ok (hashFunc : string -> Z) (l : option LeaderChangeEvent) (n : Z) (c : LeaderHealthChecker) : Prop := {
  ro_version : 0 <= leaderVersion c <= n;
  ro_retries : Forall (fun ev => ev.2 <= leaderVersion c /\
    (ev.2 = leaderVersion c -> l = Some ev.1 /\ ELeader ev.1 = false)) (retries c);
  ro_role : initialize c = true ->
    exists e, l = Some e /\
      (ELeader e = true /\ leader c = true /\ remote c = None \/
       ELeader e = false /\ LeaderHost e <> "" /\ leader c = false /\
       remote c = Some (mkRemotePeer (LeaderHost e) false));
  ro_remote : forall p, remote c = Some p -> leader c = false /\ rp_closed p = false;
  ro_cache : local_ok hashFunc (self c) }.

Section lemmas.
  Context (localHost : string) (hashFunc : string -> Z) (hash_nonneg : forall k, 0 <= hashFunc k).
  Implicit Types (c : LeaderHealthChecker).

Lemma becomeFollower_role c e v served n :
  v = leaderVersion c -> ELeader e = false ->
  role_ok hashFunc (Some e) n c -> role_ok hashFunc (Some e) n (becomeFollower c e v served).
Proof.
  intros -> He [Hv Hr Hi Ho Hc]. unfold becomeFollower.
  assert (Forall (fun ev => ev.2 <= leaderVersion c /\
    (ev.2 = leaderVersion c -> Some e = Some ev.1 /\ ELeader ev.1 = false)) (retries c ++ [(e, leaderVersion c)])) as Hr'.
  { apply Forall_app. split; [done|]. repeat constructor; simpl; done || lia. }
  case_decide as Hh; [done|]. destruct (remote c) as [p|] eqn:Hp.
  - destruct (Ho p eq_refl) as [Hl Hopen]. case_decide as Hq.
    + split; simpl; try done; rewrite ?Hp; try done. intros _. exists e. split; [done|]. right.
      destruct p; simpl in *; subst. done.
    + destruct served; split; simpl; try done; rewrite ?Hl; naive_solver.
  - destruct served; split; simpl; try done; rewrite ?Hp; try naive_solver.
Qed.

Lemma OnEvent_role c e served now l n :
  EKey e = electionKey -> role_ok hashFunc l n c -> n + 1 < 2 ^ 63 ->
  exists c', OnEvent c e served now = Ret c' /\ role_ok hashFunc (Some e) (n + 1) c' /\
    leaderChangeTimeSec c' = Z.quot now 1000 /\ suspendTimeSec c' = suspendTimeSec c /\
    (if ELeader e then self c' = self c else beats (self c') = ∅).
Proof.
  intros Hk [Hv Hr Hi Ho Hc] Hn. unfold OnEvent. rewrite decide_False by auto.
  rewrite i64_small by lia.
  set (c1 := mkLeader false _ _ _ _ _ _ _ _).
  assert (Forall (fun ev => ev.2 <= leaderVersion c + 1 /\
    (ev.2 = leaderVersion c + 1 -> Some e = Some ev.1 /\ ELeader ev.1 = false)) (retries c)) as Hr'.
  { eapply Forall_impl; [done|]. intros ev [Hev _]. lia. }
  destruct (ELeader e) eqn:He.
  - eexists. split; [done|]. split; [|done]. split; simpl; try done; [lia|]. intros _. exists e. naive_solver.
  - assert (role_ok hashFunc (Some e) (n + 1) c1) as H1.
    { subst c1. split; simpl; try done; try lia; naive_solver. }
    pose proof (becomeFollower_role c1 e (leaderVersion c + 1) served (n + 1) eq_refl He H1) as [Hv2 Hr2 Hi2 Ho2 Hc2].
    assert (suspendTimeSec (becomeFollower c1 e (leaderVersion c + 1) served) = suspendTimeSec c) as Hsu.
    { unfold becomeFollower. subst c1. simpl. repeat case_match; done. }
    destruct (LocalClean_spec hashFunc (self (becomeFollower c1 e (leaderVersion c + 1) served))) as (s & -> & Hs & Hb); [done..|].
    eexists. split; [done|]. split; [|done]. by split.
Qed.

Lemma retry_role c i served l n :
  role_ok hashFunc l n c -> role_ok hashFunc l n (retry c i served).
Proof.
  intros Hok. unfold retry. destruct (retries c !! i) as [[e v]|] eqn:Hi; [|done].
  destruct Hok as [Hv Hr Hro Ho Hc].
  pose proof (Forall_lookup_1 _ _ _ _ Hr Hi) as [Hle Heq]. simpl in *.
  set (c1 := mkLeader _ _ _ _ _ _ _ (take i _ ++ _) _).
  assert (role_ok hashFunc l n c1) as H1.
  { split; simpl; try done. apply Forall_app. split; [by apply Forall_take|by apply Forall_drop]. }
  case_decide as Hd; [done|]. destruct (Heq Hd) as [-> He].
  by apply becomeFollower_role.
Qed.

Lemma elections_role_from c os l n :
  role_ok hashFunc l n c -> n + Z.of_nat (length os) < 2 ^ 63 ->
  exists c', elections c os = Ret c' /\
    role_ok hashFunc (foldl (fun l o => match o with
      | Event e _ _ => if decide (EKey e = electionKey) then Some e else l | Retry _ _ => l end) l os)
      (n + Z.of_nat (length os)) c'.
Proof.
  assert (forall l n m c, n <= m -> role_ok hashFunc l n c -> role_ok hashFunc l m c) as Hmono.
  { intros ???? Hle []. split; try done. lia. }
  revert c l n. induction os as [|o os IH]; intros c l n Hok Hn.
  { exists c. split; [done|]. simpl. by rewrite Z.add_0_r. }
  simpl length in *. replace (n + Z.of_nat (S (length os))) with (n + 1 + Z.of_nat (length os)) in * by lia.
  destruct o as [e served now|i served]; simpl.
  - destruct (decide (EKey e = electionKey)) as [Hk|Hk].
    + destruct (OnEvent_role c e served now l n Hk Hok) as (c1 & -> & H1 & _); [lia|]. simpl.
      by apply (IH c1 (Some e) (n + 1)).
    + unfold OnEvent. rewrite decide_True by done. simpl. apply (IH c l (n + 1)); [|done]. eapply Hmono; [|done]. lia.
  - apply (IH (retry c i served) l (n + 1)); [|done]. eapply Hmono; [|by apply retry_role]. lia.
Qed.

Lemma new_checker_role cache : local_ok hashFunc cache -> role_ok hashFunc None 0 (new_checker cache).
Proof. intros. split; simpl; try done. Qed.

Lemma elections_role cache os :
  local_ok hashFunc cache -> Z.of_nat (length os) < 2 ^ 63 ->
  exists c, elections (new_checker cache) os = Ret c /\ role_ok hashFunc (last_event os) (Z.of_nat (length os)) c.
Proof. intros Hc Hn. by apply (elections_role_from _ os None 0); [apply new_checker_role|]. Qed.

Lemma role_peer l n c :
  role_ok hashFunc l n c -> initialize c = true -> exists p, findLeaderPeer c = Some p.
Proof.
  intros [_ _ Hr _ _] Hi. destruct (Hr Hi) as (e & _ & [(_ & Hl & _)|(_ & _ & Hl & Hp)]);
    unfold findLeaderPeer; rewrite Hl; [eauto|]. rewrite Hp. simpl. eauto.
Qed.

Lemma LocalPeer_Get_spec s key :
  local_ok hashFunc s -> LocalPeer_Get hashFunc s key = Ret (Some (read (beats s !! key))).
Proof.
  intros Hs. unfold LocalPeer_Get. destruct (LocalGet_spec hashFunc hash_nonneg s [key] Hs) as (ret & -> & Hl).
  simpl. by rewrite Hl, decide_True by set_solver.
Qed.

Lemma Query_returns l n c from net req :
  role_ok hashFunc l n c -> net_answers net (InstanceId req) -> returns (Query localHost hashFunc c from net req).
Proof.
  intros Hok Hnet. unfold Query, returns. destruct from; [eauto|]. destruct (initialize c) eqn:Hi; simpl; [|eauto].
  destruct (role_peer l n c Hok Hi) as [p Hp]. rewrite Hp. destruct p as [|p].
  - rewrite LocalPeer_Get_spec by apply Hok. simpl. eauto.
  - unfold RemotePeer_Get, net_answers in *. destruct (get_reply net) as [[m|] [e|]]; simpl; eauto; [|done].
    destruct Hnet as [r ->]. simpl. eauto.
Qed.

Lemma Report_returns l n c from net req :
  role_ok hashFunc l n c ->
  exists c' e, Report localHost hashFunc c from net req = Ret (c', e) /\ role_ok hashFunc l n c'.
Proof.
  intros Hok. unfold Report. destruct from; [eauto|]. destruct (initialize c) eqn:Hi; simpl; [|eauto].
  destruct (role_peer l n c Hok Hi) as [p Hp]. rewrite Hp. destruct p as [|p]; [|eauto].
  unfold LocalPeer_Put. edestruct (LocalPut_spec hashFunc hash_nonneg (self c)) as (s & -> & Hs & _); [apply Hok|].
  simpl. do 2 eexists. split; [done|]. destruct Hok. by split.
Qed.

Lemma Check_returns l n c net now req :
  role_ok hashFunc l n c -> net_answers net (InstanceId (cquery req)) ->
  returns (Check localHost hashFunc c net now req).
Proof.
  intros Hok Hnet. unfold Check. destruct (Query_returns l n c false net (cquery req) Hok Hnet) as [r ->]. simpl.
  destruct r as [r|e]; [|by eexists]. unfold returns. repeat case_match; eauto.
Qed.
End lemmas.

(** ** The leading server implements the heartbeat contract *)

Section contract.
  Context (localHost : string) (hashFunc : string -> Z) (hash_nonneg : forall k, 0 <= hashFunc k).
  (** A leader does not use the network. *)
  Context (net : net_reply).

Definition leading (c : LeaderHealthChecker) : Prop :=
  leader c = true /\ initialize c = true /\ local_ok hashFunc (self c).

Definition leader_beat (c : LeaderHealthChecker) (id : string) : Z := BeatCache.CurTimeSec (RRecord (read (beats (self c) !! id))).

Lemma leading_set_self c s : leading c -> local_ok hashFunc s -> leading (set_self c s).
Proof. intros (? & ? & ?) ?. by split. Qed.

#[refine] Instance leader_contract :
  @HeartbeatContract LeaderHealthChecker (leader_checker localHost hashFunc net) := {|
  hc_ok := leading; last_beat := leader_beat; skips := skipCheck |}.
Proof.
  - intros c now req (Hl & Hi & Hc). simpl. unfold Check, Query, findLeaderPeer. rewrite Hl, Hi. simpl.
    rewrite LocalPeer_Get_spec by done. simpl. fold (leader_beat c (InstanceId (cquery req))).
    unfold verdict, expired. destruct (skipCheck _ _ _); [done|]. case_decide as Hd.
    + rewrite bool_decide_true by done. by destruct (QHealthy _).
    + rewrite bool_decide_false by done. by destruct (QHealthy _).
  - intros c req (Hl & Hi & Hc). simpl. unfold Report, findLeaderPeer. rewrite Hl, Hi. simpl. unfold LocalPeer_Put.
    edestruct (LocalPut_spec hashFunc hash_nonneg (self c)) as (s & -> & Hs & Hb); [done|].
    eexists. split; [done|]. split; [by split|]. intros id. unfold leader_beat. simpl. rewrite Hb. simpl.
    case_decide; subst; [by rewrite lookup_insert_eq|by rewrite lookup_insert_ne].
  - intros c key (Hl & Hi & Hc). simpl. unfold Delete, findLeaderPeer. rewrite Hl. unfold LocalPeer_Del.
    edestruct (LocalDel_spec hashFunc hash_nonneg (self c)) as (s & -> & Hs & Hb); [done|].
    eexists. split; [done|]. split; [by split|]. intros id. unfold leader_beat. simpl. rewrite Hb. simpl.
    case_decide; subst; [by rewrite lookup_delete_eq|by rewrite lookup_delete_ne].
  - intros c now (Hl & Hi & Hc). by split; [split|].
  - intros c now now' expire Hw. simpl. unfold skipCheck. simpl. destruct (initialize c); [|done]. simpl.
    unfold within in Hw. by rewrite Hw.
Defined.

(** The leader [c] and the in-memory checker [r] know the same. *)
Record same_beats (changed : Z) (c : LeaderHealthChecker) (r : MemoryHealthChecker) : Prop := {
  sb_leading : leading c;
  sb_beat : forall id, leader_beat c id = memory_beat r id;
  sb_suspend : suspendTimeSec c = MemoryChecker.suspendTimeSec r;
  sb_changed : leaderChangeTimeSec c = changed }.

Local Abbreviation leader_op := (@do_op _ (leader_checker localHost hashFunc net)).

Lemma same_beats_step t c r o :
  same_beats t c r ->
  exists c' r', leader_op c o = Ret c' /\ do_op r o = Ret r' /\ same_beats t c' r'.
Proof.
  intros [(Hl & Hi & Hc) Hb Hs Ht]. destruct o as [req|key|now]; simpl.
  - unfold Report, findLeaderPeer. rewrite Hl, Hi. simpl. unfold LocalPeer_Put.
    edestruct (LocalPut_spec hashFunc hash_nonneg (self c)) as (s & -> & Hs' & Hb'); [done|]. simpl.
    do 2 eexists. do 2 (split; [done|]). split; [by split|..|done|done].
    intros id. specialize (Hb id). unfold leader_beat, memory_beat in *. simpl. rewrite Hb'. simpl.
    destruct (decide (InstanceId (rquery req) = id)) as [<-|]; [by rewrite !lookup_insert_eq|by rewrite !lookup_insert_ne].
  - unfold Delete, findLeaderPeer. rewrite Hl. unfold LocalPeer_Del.
    edestruct (LocalDel_spec hashFunc hash_nonneg (self c)) as (s & -> & Hs' & Hb'); [done|]. simpl.
    do 2 eexists. do 2 (split; [done|]). split; [by split|..|done|done].
    intros id. specialize (Hb id). unfold leader_beat, memory_beat in *. simpl. rewrite Hb'. simpl.
    destruct (decide (key = id)) as [<-|]; [by rewrite !lookup_delete_eq|by rewrite !lookup_delete_ne].
  - do 2 eexists. do 2 (split; [done|]). by split; [split| | |].
Qed.

Lemma same_beats_steps t c r os :
  same_beats t c r ->
  exists c' r', @do_ops _ (leader_checker localHost hashFunc net) c os = Ret c' /\ do_ops r os = Ret r' /\ same_beats t c' r'.
Proof.
  revert c r. induction os as [|o os IH]; intros c r Hsb; simpl; [eauto|].
  destruct (same_beats_step t c r o Hsb) as (c1 & r1 & -> & -> & H1). simpl. by apply IH.
Qed.

Lemma same_beats_check t c r now req :
  same_beats t c r -> within t (Z.quot now 1000) (ExpireDurationSec req) = false ->
  Check localHost hashFunc c net now req = hc_check r now req.
Proof.
  intros [(Hl & Hi & Hc) Hb Hs Ht] Hw. transitivity (@hc_check _ (leader_checker localHost hashFunc net) c now req); [done|].
  assert (@hc_ok _ _ leader_contract c) as Hok by done.
  rewrite (@check_verdict _ _ leader_contract) by exact Hok. rewrite check_verdict by done. simpl. rewrite Hb.
  do 3 f_equal. unfold skipCheck, MemoryChecker.skipCheck, MemoryChecker.localCurTimeSec. rewrite Hi, Hs, Ht. simpl.
  unfold within in Hw. rewrite Hw. match goal with |- (if ?b then _ else _) = _ => by destruct b end.
Qed.
End contract.

(** ** Properties *)

(** A checker's role follows the elections: for every history of leader
    events and woken retries, whether connections succeed or not and in
    whatever order retries wake up, an initialized checker leads if the last
    event said so, and otherwise is a non-leader connected to exactly the host
    that event named; an outdated retry never wins. *)
Theorem role_follows_last_event (hashFunc : string -> Z) (cache : LocalBeatRecordCache) (os : list election) :
  local_ok hashFunc cache -> Z.of_nat (length os) < 2 ^ 63 ->
  exists c, elections (new_checker cache) os = Ret c /\
    (initialize c = true ->
     exists e, last_event os = Some e /\
       (ELeader e = true /\ leader c = true /\ remote c = None \/
        ELeader e = false /\ LeaderHost e <> "" /\ leader c = false /\
        remote c = Some (mkRemotePeer (LeaderHost e) false))).
Proof.
  intros Hc Hn. destruct (elections_role hashFunc cache os Hc Hn) as (c & -> & Hok).
  exists c. split; [done|]. apply Hok.
Qed.

(** After any history of elections, [Report], [Query] and [Check] never
    dereference a missing leader, however uninitialized the checker is: they
    return whenever the network's answer, if there is one, is about the key
    that was asked. *)
Theorem operations_never_lack_leader (localHost : string) (hashFunc : string -> Z) (cache : LocalBeatRecordCache)
    (os : list election) (net : net_reply) (rreq : ReportRequest) (creq : CheckRequest) (now : Z) (from_peer : bool) :
  (forall k, 0 <= hashFunc k) -> local_ok hashFunc cache -> Z.of_nat (length os) < 2 ^ 63 ->
  net_answers net (InstanceId (cquery creq)) ->
  exists c, elections (new_checker cache) os = Ret c /\
    returns (Report localHost hashFunc c from_peer net rreq) /\
    returns (Query localHost hashFunc c from_peer net (cquery creq)) /\
    returns (Check localHost hashFunc c net now creq).
Proof.
  intros Hh Hc Hn Hnet. destruct (elections_role hashFunc cache os Hc Hn) as (c & -> & Hok).
  exists c. split; [done|]. split_and!; [|by eapply Query_returns|by eapply Check_returns].
  destruct (Report_returns localHost hashFunc Hh _ _ c from_peer net rreq Hok) as (? & ? & -> & _). by eexists.
Qed.

(** [Delete] does dereference a missing leader: a follower whose
    connection to the new leader failed panics on every [Delete] that did not
    come from a peer, until a retry succeeds, while its [Report] and [Query]
    are ignored as they should be. *)
Theorem delete_panics_without_leader (localHost : string) (hashFunc : string -> Z) (cache : LocalBeatRecordCache)
    (e : LeaderChangeEvent) (now : Z) (net : net_reply) (rreq : ReportRequest) (key : string) :
  local_ok hashFunc cache -> EKey e = electionKey -> ELeader e = false -> LeaderHost e <> "" ->
  exists c, OnEvent (new_checker cache) e false now = Ret c /\
    Delete hashFunc c false key = Panics NilDereference /\
    Report localHost hashFunc c false net rreq = Ret (c, None) /\
    (let c' := retry c 0 true in Delete hashFunc c' false key = Ret (c', None)).
Proof.
  intros Hc Hk He Hh. unfold OnEvent. rewrite decide_False by auto. cbn [new_checker leaderVersion]. rewrite i64_small by lia. cbn [Z.add]. rewrite He. unfold becomeFollower. simpl.
  rewrite decide_False by done. simpl.
  destruct (LocalClean_spec hashFunc cache Hc) as (s & -> & _). simpl. eexists. split; [done|]. split; [done|]. split; [done|].
  unfold retry. simpl. unfold becomeFollower. simpl. rewrite decide_False by naive_solver. simpl.
  done.
Qed.

(** A change of leadership freezes every status for the instance's expire
    duration, and a server that does not lead drops the records it held:
    whatever the network answers, a check in the window either fails or leaves
    the instance unchanged. *)
Theorem leader_change_freezes_status (localHost : string) (hashFunc : string -> Z) (c : LeaderHealthChecker)
    (e : LeaderChangeEvent) (served : bool) (now now' : Z) (net : net_reply) (creq : CheckRequest)
    (l : option LeaderChangeEvent) (n : Z) :
  (forall k, 0 <= hashFunc k) -> role_ok hashFunc l n c -> n + 1 < 2 ^ 63 -> EKey e = electionKey ->
  net_answers net (InstanceId (cquery creq)) ->
  1000 <= now <= now' -> now' < 2 ^ 62 -> Z.quot now' 1000 < Z.quot now 1000 + ExpireDurationSec creq ->
  exists c', OnEvent c e served now = Ret c' /\
    (ELeader e = false -> beats (self c') = ∅) /\
    ((exists er, Check localHost hashFunc c' net now' creq = Ret (Fail er)) \/
     (exists resp, Check localHost hashFunc c' net now' creq = Ret (Okay resp) /\ StayUnchanged resp = true)).
Proof.
  intros Hh Hok Hn Hk Hnet Hnow Hnow' Hw.
  destruct (OnEvent_role hashFunc c e served now l n Hk Hok Hn) as (c' & -> & Hok' & Ht & _ & Hb).
  exists c'. split; [done|]. split; [intros He; by rewrite He in Hb|].
  unfold Check. destruct (Query_returns localHost hashFunc Hh _ _ c' false net (cquery creq) Hok' Hnet) as [[r|er] ->]; simpl; [right|eauto].
  assert (skipCheck c' now' (ExpireDurationSec creq) = true) as ->; [|by eexists].
  unfold skipCheck. destruct (initialize c'); [|done]. simpl. destruct (bool_decide _) eqn:?; [done|].
  apply bool_decide_eq_true. rewrite Ht. rewrite !Z.quot_div_nonneg in * by lia.
  pose proof (Z.div_le_mono now now' 1000). pose proof (Z.div_le_mono 1000 now 1000).
  assert (1000 / 1000 = 1) by done.
  assert (now' / 1000 <= now') by (apply Z.div_le_upper_bound; lia).
  rewrite i64_small by lia. lia.
Qed.

(** C30. The leader is the in-memory checker: run through the same reports,
    deletions and suspensions, a leading server whose cache was empty gives
    every check the answer the in-memory checker gives, except within the
    expire duration after it became leader. *)
Theorem leader_simulates_memory (localHost : string) (hashFunc : string -> Z) (net : net_reply)
    (c : LeaderHealthChecker) (os : list beat_op) (now : Z) (req : CheckRequest) :
  (forall k, 0 <= hashFunc k) -> leading hashFunc c -> beats (self c) = ∅ -> suspendTimeSec c = 0 ->
  within (leaderChangeTimeSec c) (Z.quot now 1000) (ExpireDurationSec req) = false ->
  exists c' r', @do_ops _ (leader_checker localHost hashFunc net) c os = Ret c' /\
    do_ops Initialize os = Ret r' /\ Check localHost hashFunc c' net now req = hc_check r' now req.
Proof.
  intros Hh Hl Hb Hs Hw. destruct (same_beats_steps localHost hashFunc Hh net (leaderChangeTimeSec c) c Initialize os) as (c' & r' & -> & -> & Hsb).
  - split; try done. intros id. unfold leader_beat. by rewrite Hb, lookup_empty.
  - do 2 eexists. do 2 (split; [done|]). by eapply same_beats_check.
Qed.

(** ** Witnesses *)

Definition event_lead : LeaderChangeEvent := mkLeaderChangeEvent electionKey true "".
Definition event_follow (host : string) : LeaderChangeEvent := mkLeaderChangeEvent electionKey false host.
Definition no_net : net_reply := mkNet (None, Some DeadlineExceeded) (Some DeadlineExceeded).

(** The cache of two slots that [newLocalBeatRecordCache] builds. *)
Definition demo_cache : LocalBeatRecordCache :=
  match newLocalBeatRecordCache 2 0 with Ret lc => lc | Panics _ => mkLocalBeatRecordCache 0 (mkSegmentMap 0 []) end.

Lemma demo_local_cache_ok hashFunc : local_ok hashFunc demo_cache /\ beats demo_cache = ∅.
Proof.
  destruct (newLocal_spec hashFunc 2 0) as (lc & He & Hok & Hb); [lia..|].
  unfold demo_cache. by rewrite He.
Qed.

Lemma fnv_nonneg k : 0 <= Fnv32 k.
Proof. apply Fnv32_range. Qed.

Lemma role_follows_last_event_witness :
  exists c, elections (new_checker demo_cache)
    [Event (event_follow "b") false 5000; Event (event_follow "c") true 6000; Retry 0 true] = Ret c /\
    initialize c = true /\
    exists e, Some (event_follow "c") = Some e /\
       (ELeader e = true /\ leader c = true /\ remote c = None \/
        ELeader e = false /\ LeaderHost e <> "" /\ leader c = false /\
        remote c = Some (mkRemotePeer (LeaderHost e) false)).
Proof.
  destruct (role_follows_last_event Fnv32 demo_cache
    [Event (event_follow "b") false 5000; Event (event_follow "c") true 6000; Retry 0 true]) as (c & He & Hc).
  - apply (demo_local_cache_ok Fnv32).
  - simpl. lia.
  - exists c. split; [exact He|]. assert (initialize c = true) as Hi; [|split; [exact Hi|exact (Hc Hi)]].
    vm_compute in He. injection He as <-. reflexivity.
Defined.

Lemma operations_never_lack_leader_witness :
  exists c, elections (new_checker demo_cache) [Event (event_follow "b") false 5000] = Ret c /\
    returns (Report "me" Fnv32 c false no_net (beat_at "a" 5)) /\
    returns (Query "me" Fnv32 c false no_net (cquery (check_at "a" true 5 3))) /\
    returns (Check "me" Fnv32 c no_net 9000 (check_at "a" true 5 3)).
Proof.
  apply (operations_never_lack_leader "me" Fnv32 demo_cache [Event (event_follow "b") false 5000] no_net
    (beat_at "a" 5) (check_at "a" true 5 3) 9000 false).
  - apply fnv_nonneg.
  - apply (demo_local_cache_ok Fnv32).
  - simpl. lia.
  - exact I.
Defined.

Lemma delete_panics_without_leader_witness :
  exists c, OnEvent (new_checker demo_cache) (event_follow "b") false 5000 = Ret c /\
    Delete Fnv32 c false "a" = Panics NilDereference /\
    Report "me" Fnv32 c false no_net (beat_at "a" 5) = Ret (c, None) /\
    (let c' := retry c 0 true in Delete Fnv32 c' false "a" = Ret (c', None)).
Proof.
  apply (delete_panics_without_leader "me" Fnv32 demo_cache (event_follow "b") 5000 no_net (beat_at "a" 5) "a").
  - apply (demo_local_cache_ok Fnv32).
  - reflexivity.
  - reflexivity.
  - discriminate.
Defined.

Lemma leader_change_freezes_status_witness :
  exists c', OnEvent (new_checker demo_cache) event_lead true 5000 = Ret c' /\
    (ELeader event_lead = false -> beats (self c') = ∅) /\
    ((exists er, Check "me" Fnv32 c' no_net 7000 (check_at "a" true 7 3) = Ret (Fail er)) \/
     (exists resp, Check "me" Fnv32 c' no_net 7000 (check_at "a" true 7 3) = Ret (Okay resp) /\ StayUnchanged resp = true)).
Proof.
  apply (leader_change_freezes_status "me" Fnv32 (new_checker demo_cache) event_lead true 5000 7000 no_net
    (check_at "a" true 7 3) None 0).
  - apply fnv_nonneg.
  - apply new_checker_role, (demo_local_cache_ok Fnv32).
  - lia.
  - reflexivity.
  - exact I.
  - lia.
  - lia.
  - reflexivity.
Defined.

Definition demo_leader : LeaderHealthChecker :=
  match OnEvent (new_checker demo_cache) event_lead true 5000 with Ret c => c | Panics _ => new_checker demo_cache end.

Lemma leader_simulates_memory_witness :
  exists c' r', @do_ops _ (leader_checker "me" Fnv32 no_net) demo_leader [DoReport (beat_at "a" 10); DoSuspend 11000] = Ret c' /\
    do_ops Initialize [DoReport (beat_at "a" 10); DoSuspend 11000] = Ret r' /\
    Check "me" Fnv32 c' no_net 30000 (check_at "a" true 30 15) = hc_check r' 30000 (check_at "a" true 30 15).
Proof.
  apply (leader_simulates_memory "me" Fnv32 no_net demo_leader [DoReport (beat_at "a" 10); DoSuspend 11000] 30000
    (check_at "a" true 30 15)).
  - apply fnv_nonneg.
  - split; [reflexivity|]. split; [reflexivity|]. apply (demo_local_cache_ok Fnv32).
  - apply (demo_local_cache_ok Fnv32).
  - reflexivity.
  - reflexivity.
Defined.
