(* ===== verification/LeaderBatch.v ===== *)
(** * The batch handlers of the leader checker
    ([handleSendGetRecords], [handleSendPutRecords] of
    [src/plugin/healthchecker/leader/checker_leader.go], [GetFunc] of [peer.go])

    A follower's reads and writes reach the leader as futures of the batch
    controllers of [BatchJob.v]; the handlers group them by leader host, make
    one call per host and answer every future.  Futures are numbered by their
    place in the batch.  What the remote servers answer, and the order in which
    Go visits a map, are parameters. *)

From S2P Require Import Prelude Checker BeatCache BatchJob LeaderChecker.
From Stdlib Require Import ZArith Lia.
From stdpp Require Import base tactics list gmap strings.

Record PeerTask := mkPeerTask {
  tPeer : RemotePeer;
  tKey : string;
  tRecord : WriteBeatRecord }.

Record PeerReadTask := mkPeerReadTask {
  prPeer : RemotePeer;
  prKeys : list string;
  prFutures : gmap string (list nat) }.

Record PeerWriteTask := mkPeerWriteTask {
  pwPeer : RemotePeer;
  pwRecords : list WriteBeatRecord }.

(** [isClose]. *)
Definition isClose (p : RemotePeer) : bool := rp_closed p.

(** [futures[i].Reply], whose error the handlers discard. *)
Definition reply_at {R} (fs : list (future R)) (i : nat) (res : option R) (err : option future_error) : list (future R) :=
  match fs !! i with
  | Some f => <[i := fst (Reply f res err)]> fs
  | None => fs
  end.

Section handlers.
  (** Go's map iteration order. *)
  Context (iter : forall A, gmap string A -> list (string * A)).
  (** [BatchGetHeartbeat] at a host: [None] is an RPC error. *)
  Context (rpc : string -> list string -> option (list HeartbeatRecord)).
  (** The worlds behind the hosts, and [PutFunc] at a host. *)
  Context {W : Type} (send : W -> string -> list string -> W).

(** [RemotePeer.GetFunc]: a failed call is an empty response. *)
Definition GetFunc (host : string) (keys : list string) : list HeartbeatRecord :=
  match rpc host keys with Some resp => resp | None => [] end.

(** *** [handleSendGetRecords] *)

Definition add_read (peers : gmap string PeerReadTask) (i : nat) (task : PeerTask) : gmap string PeerReadTask :=
  let host := rp_host (tPeer task) in
  let t := match peers !! host with Some t => t | None => mkPeerReadTask (tPeer task) [] ∅ end in
  let fs := match prFutures t !! tKey task with Some fs => fs | None => [] end in
  <[host := mkPeerReadTask (prPeer t) (prKeys t ++ [tKey task]) (<[tKey task := fs ++ [i]]> (prFutures t))]> peers.

Fixpoint collect_reads (i : nat) (tasks : list PeerTask) (fs : list (future reply_map)) (peers : gmap string PeerReadTask)
    : list (future reply_map) * gmap string PeerReadTask :=
  match tasks with
  | [] => (fs, peers)
  | task :: tasks =>
      if isClose (tPeer task)
      then collect_reads (S i) tasks (reply_at fs i None (Some (Replied ErrorPeerClosed))) peers
      else collect_reads (S i) tasks fs (add_read peers i task)
  end.

Definition answer_key (t : PeerReadTask) (fs : list (future reply_map)) (kr : string * ReadBeatRecord) : list (future reply_map) :=
  foldl (fun fs i => reply_at fs i (Some {[kr.1 := kr.2]}) None) fs (from_option id [] (prFutures t !! kr.1)).

Fixpoint answer_peers (peers : list (string * PeerReadTask)) (fs : list (future reply_map)) : outcome (list (future reply_map)) :=
  match peers with
  | [] => Ret fs
  | (host, t) :: peers =>
      resp ← RemoteGet GetFunc (rp_host (prPeer t)) (prKeys t);
      answer_peers peers (foldl (answer_key t) fs (iter _ resp))
  end.

Definition reply_all {R} (fs : list (future R)) (res : option R) (err : option future_error) : list (future R) :=
  foldl (fun fs i => reply_at fs i res err) fs (seq 0 (length fs)).

Definition handleSendGetRecords (tasks : list PeerTask) (fs : list (future reply_map)) : outcome (list (future reply_map)) :=
  let '(fs, peers) := collect_reads 0 tasks fs ∅ in
  fs ← answer_peers (iter _ peers) fs;
  Ret (reply_all fs None (Some (Replied ErrorRecordNotFound))).

(** *** [handleSendPutRecords] *)

Definition add_write (peers : gmap string PeerWriteTask) (task : PeerTask) : gmap string PeerWriteTask :=
  let host := rp_host (tPeer task) in
  let t := match peers !! host with Some t => t | None => mkPeerWriteTask (tPeer task) [] end in
  <[host := mkPeerWriteTask (pwPeer t) (pwRecords t ++ [tRecord task])]> peers.

Fixpoint collect_writes (i : nat) (tasks : list PeerTask) (fs : list (future unit)) (peers : gmap string PeerWriteTask)
    : list (future unit) * gmap string PeerWriteTask :=
  match tasks with
  | [] => (fs, peers)
  | task :: tasks =>
      if isClose (tPeer task)
      then collect_writes (S i) tasks (reply_at fs i None (Some (Replied ErrorPeerClosed))) peers
      else collect_writes (S i) tasks fs (add_write peers task)
  end.

Fixpoint put_peers (w : W) (peers : list (string * PeerWriteTask)) : outcome W :=
  match peers with
  | [] => Ret w
  | (host, t) :: peers =>
      w' ← RemotePut (fun w keys => send w (rp_host (pwPeer t)) keys) w (pwRecords t);
      put_peers w' peers
  end.

Definition handleSendPutRecords (w : W) (tasks : list PeerTask) (fs : list (future unit)) : outcome (W * list (future unit)) :=
  let '(fs, peers) := collect_writes 0 tasks fs ∅ in
  w ← put_peers w (iter _ peers);
  Ret (w, reply_all fs (Some tt) None).

End handlers.

(** ** Answering futures

    [ans i] is the answer the [i]-th future should get; every step of a
    handler answers futures with it, or does nothing. *)
Section answers.
  Context {R : Type} (ans : nat -> option R * option future_error) (n : nat).
  Implicit Types (fs : list (future R)).

Definition answered fs (i : nat) : Prop := fs !! i = Some (fst (Reply new_future (ans i).1 (ans i).2)).

Definition sound fs : Prop :=
  length fs = n /\ forall i f, fs !! i = Some f -> f = new_future \/ answered fs i.

Definition progress fs fs' : Prop :=
  sound fs -> sound fs' /\ forall i, answered fs i -> answered fs' i.

Lemma progress_trans fs1 fs2 fs3 : progress fs1 fs2 -> progress fs2 fs3 -> progress fs1 fs3.
Proof. intros H12 H23 H1. destruct (H12 H1) as [H2 Ha]. destruct (H23 H2) as [H3 Hb]. eauto. Qed.

Lemma reply_at_answered fs i res err : answered fs i -> reply_at fs i res err = fs.
Proof. intros Ha. unfold reply_at. rewrite Ha. simpl. by apply list_insert_id. Qed.

Lemma reply_at_progress fs i res err : (res, err) = ans i \/ answered fs i -> progress fs (reply_at fs i res err).
Proof.
  intros H Hs. destruct H as [Hr|Ha]; [|by rewrite reply_at_answered].
  destruct (fs !! i) as [f|] eqn:Hi; unfold reply_at; rewrite Hi; [|done].
  destruct Hs as [Hn Hs]. destruct (Hs i f Hi) as [->|Ha].
  - assert (forall j, answered fs j -> answered (<[i:=(Reply new_future res err).1]> fs) j) as Hmono.
    { intros j Hj. unfold answered. destruct (decide (j = i)) as [->|]; [|by rewrite list_lookup_insert_ne].
      rewrite list_lookup_insert_eq by (by eapply lookup_lt_Some). by rewrite <- Hr. }
    split; [|done]. split; [by rewrite length_insert|]. intros j f' Hj.
    destruct (decide (j = i)) as [->|Hne].
    + right. unfold answered. rewrite list_lookup_insert_eq by (by eapply lookup_lt_Some). by rewrite <- Hr.
    + rewrite list_lookup_insert_ne in Hj by done. destruct (Hs j f' Hj); auto.
  - unfold answered in Ha. simplify_eq/=. rewrite list_insert_id by done. done.
Qed.

Lemma reply_at_answers fs i : sound fs -> (i < n)%nat -> answered (reply_at fs i (ans i).1 (ans i).2) i.
Proof.
  intros [Hn Hs] Hi. destruct (lookup_lt_is_Some_2 fs i) as [f Hf]; [lia|].
  destruct (Hs i f Hf) as [->|Ha]; [|by rewrite reply_at_answered].
  unfold answered, reply_at. rewrite Hf. by rewrite list_lookup_insert_eq by lia.
Qed.

Lemma foldl_progress {A} (step : list (future R) -> A -> list (future R)) (l : list A) fs :
  (forall x fs, x ∈ l -> progress fs (step fs x)) -> progress fs (foldl step fs l).
Proof.
  revert fs. induction l as [|x l IH]; intros fs H; simpl; [done|].
  apply (progress_trans _ (step fs x)); [apply H; set_solver|]. apply IH. intros; apply H; set_solver.
Qed.

Lemma foldl_answers {A} (step : list (future R) -> A -> list (future R)) (l : list A) fs x i :
  (forall x fs, x ∈ l -> progress fs (step fs x)) -> x ∈ l ->
  (forall fs, sound fs -> answered (step fs x) i) -> sound fs -> answered (foldl step fs l) i.
Proof.
  revert fs. induction l as [|y l IH]; intros fs H Hx Ha Hs; [set_solver|]. simpl.
  assert (progress fs (step fs y)) as Hp by (apply H; set_solver). destruct (Hp Hs) as [Hs' _].
  assert (forall x fs, x ∈ l -> progress fs (step fs x)) as H' by (intros; apply H; set_solver).
  apply elem_of_cons in Hx as [->|Hx]; [|by apply IH].
  eapply (foldl_progress step l (step fs y) H'); [done|]. by apply Ha.
Qed.

(** The closing loop of a handler answers nothing that is answered. *)
Lemma reply_all_answered fs res err : (forall i, (i < length fs)%nat -> answered fs i) -> reply_all fs res err = fs.
Proof.
  intros Ha. unfold reply_all.
  assert (forall l, (forall i, i ∈ l -> (i < length fs)%nat) -> foldl (fun fs i => reply_at fs i res err) fs l = fs) as H.
  { induction l as [|i l IH]; intros Hl; simpl; [done|]. rewrite reply_at_answered by (apply Ha, Hl; set_solver).
    apply IH. intros; apply Hl; set_solver. }
  apply H. intros i Hi%elem_of_seq. lia.
Qed.

Lemma new_sound : sound (replicate n new_future).
Proof. split; [apply length_replicate|]. intros i f Hf%lookup_replicate. naive_solver. Qed.
End answers.

(** ** Specification *)

Definition open_at (host : string) (task : PeerTask) : bool :=
  negb (isClose (tPeer task)) && bool_decide (rp_host (tPeer task) = host).

(** The keys of a batch that go to a host, in order. *)
Definition keys_of (host : string) (tasks : list PeerTask) : list string :=
  tKey <$> filter (fun t => open_at host t = true) tasks.

Definition records_of (host : string) (tasks : list PeerTask) : list WriteBeatRecord :=
  tRecord <$> filter (fun t => open_at host t = true) tasks.

Section spec.
  Context (iter : forall A, gmap string A -> list (string * A)).
  Context (iter_perm : forall A (m : gmap string A), iter A m ≡ₚ map_to_list m).
  Context (rpc : string -> list string -> option (list HeartbeatRecord)).

(** What a host answers to a batch. *)
Definition host_answer (host : string) (tasks : list PeerTask) : gmap string ReadBeatRecord :=
  match RemoteGet (GetFunc rpc) host (keys_of host tasks) with Ret m => m | Panics _ => ∅ end.

Definition read_answer (tasks : list PeerTask) (i : nat) : option reply_map * option future_error :=
  match tasks !! i with
  | None => (None, None)
  | Some task =>
      if isClose (tPeer task) then (None, Some (Replied ErrorPeerClosed))
      else (Some {[tKey task := default absent (host_answer (rp_host (tPeer task)) tasks !! tKey task)]}, None)
  end.

Definition peers_ok (pre : list PeerTask) (peers : gmap string PeerReadTask) : Prop :=
  forall h, match peers !! h with
  | None => keys_of h pre = []
  | Some t => rp_host (prPeer t) = h /\ prKeys t = keys_of h pre /\
      forall k i, i ∈ from_option id [] (prFutures t !! k) <->
        exists task, pre !! i = Some task /\ open_at h task = true /\ tKey task = k
  end.

Lemma keys_of_snoc h pre task :
  keys_of h (pre ++ [task]) = keys_of h pre ++ (if open_at h task then [tKey task] else []).
Proof. unfold keys_of. rewrite filter_app, fmap_app. f_equal. rewrite filter_cons. simpl. by destruct (open_at h task). Qed.


Lemma add_read_ok pre task peers :
  peers_ok pre peers -> isClose (tPeer task) = false -> peers_ok (pre ++ [task]) (add_read peers (length pre) task).
Proof.
  intros Hp Hopen h. unfold add_read. set (h0 := rp_host (tPeer task)). specialize (Hp h).
  assert (forall k i, (exists task', (pre ++ [task]) !! i = Some task' /\ open_at h task' = true /\ tKey task' = k) <->
    (exists task', pre !! i = Some task' /\ open_at h task' = true /\ tKey task' = k) \/
    (i = length pre /\ open_at h task = true /\ tKey task = k)) as Hsnoc.
  { intros k i. setoid_rewrite lookup_snoc_Some. split; [naive_solver|].
    intros [(t' & Ht & ? & ?)|(-> & ? & ?)]; [|naive_solver]. exists t'. split; [|done]. left. split; [|done]. by eapply lookup_lt_Some. }
  rewrite keys_of_snoc. destruct (decide (h = h0)) as [->|Hne].
  - rewrite lookup_insert_eq. simpl.
    assert (open_at h0 task = true) as Ho by (unfold open_at; rewrite Hopen; by apply bool_decide_eq_true).
    rewrite Ho in *. destruct (peers !! h0) as [t|] eqn:Ht; simpl.
    + destruct Hp as (Hh & Hk & Hf). split; [done|]. split; [by rewrite Hk|]. intros k i. rewrite Hsnoc, <- Hf.
      destruct (decide (tKey task = k)) as [<-|].
      * rewrite lookup_insert_eq. simpl. rewrite elem_of_app, list_elem_of_singleton.
        destruct (prFutures t !! tKey task); simpl; naive_solver.
      * rewrite lookup_insert_ne by done. naive_solver.
    + split; [done|]. split; [by rewrite Hp|]. intros k i. rewrite Hsnoc.
      assert (forall t', t' ∈ pre -> open_at h0 t' = true -> False) as Hnone.
      { intros t' Hin Ht'. unfold keys_of in Hp. apply fmap_nil_inv in Hp.
        assert (t' ∈ filter (fun t => open_at h0 t = true) pre) as Hf by (by apply list_elem_of_filter). rewrite Hp in Hf. set_solver. }
      rewrite lookup_empty. simpl. destruct (decide (tKey task = k)) as [<-|].
      * rewrite lookup_insert_eq. simpl. rewrite list_elem_of_singleton. split; [naive_solver|].
        intros [(t' & ?%list_elem_of_lookup_2 & ? & ?)|?]; [by exfalso; eauto|naive_solver].
      * rewrite lookup_insert_ne, lookup_empty by done. simpl. split; [set_solver|].
        intros [(t' & ?%list_elem_of_lookup_2 & ? & ?)|?]; [by exfalso; eauto|naive_solver].
  - rewrite lookup_insert_ne by done.
    assert (open_at h task = false) as Ho.
    { unfold open_at. rewrite Hopen. apply bool_decide_eq_false. unfold h0 in Hne. auto. }
    rewrite Ho in *. rewrite app_nil_r. destruct (peers !! h) as [t|]; [|done].
    destruct Hp as (Hh & Hk & Hf). split; [done|]. split; [done|]. intros k i. rewrite Hsnoc, <- Hf. naive_solver.
Qed.

Lemma add_closed_ok pre task peers :
  peers_ok pre peers -> isClose (tPeer task) = true -> peers_ok (pre ++ [task]) peers.
Proof.
  intros Hp Hc h. specialize (Hp h).
  assert (open_at h task = false) as Ho by (unfold open_at; by rewrite Hc). rewrite keys_of_snoc, Ho, app_nil_r.
  destruct (peers !! h) as [t|]; [|done]. destruct Hp as (Hh & Hk & Hf). split; [done|]. split; [done|].
  intros k i. rewrite Hf. setoid_rewrite lookup_snoc_Some.
  split; [|intros (t' & [[_ ?]|[_ <-]] & ? & ?); [by exists t'|congruence]].
  intros (t' & Ht & ? & ?). exists t'. split; [|done]. left. split; [by eapply lookup_lt_Some|done].
Qed.

Lemma collect_reads_ok tasks pre all fs peers :
  all = pre ++ tasks -> peers_ok pre peers -> sound (read_answer all) (length all) fs ->
  let '(fs', peers') := collect_reads (length pre) tasks fs peers in
  peers_ok all peers' /\ progress (read_answer all) (length all) fs fs' /\
  (forall i task, all !! i = Some task -> (length pre <= i)%nat -> isClose (tPeer task) = true -> answered (read_answer all) fs' i).
Proof.
  revert pre fs peers. induction tasks as [|task tasks IH]; intros pre fs peers -> Hp Hs; simpl.
  { rewrite app_nil_r. split; [done|]. split; [done|]. intros i task Hi%lookup_lt_Some Hle. lia. }
  assert (pre ++ task :: tasks = (pre ++ [task]) ++ tasks) as Happ by by rewrite <- app_assoc.
  assert ((pre ++ task :: tasks) !! length pre = Some task) as Hl by by rewrite list_lookup_middle.
  assert (S (length pre) = length (pre ++ [task])) as Hlen by (rewrite length_app; simpl; lia).
  rewrite Hlen. set (all := pre ++ task :: tasks) in *. destruct (isClose (tPeer task)) eqn:Hc.
  - assert (read_answer all (length pre) = (None, Some (Replied ErrorPeerClosed))) as Hans by (unfold read_answer; by rewrite Hl, Hc).
    set (fs1 := reply_at fs (length pre) _ _).
    assert (progress (read_answer all) (length all) fs fs1) as Hp1 by (apply reply_at_progress; auto).
    specialize (IH (pre ++ [task]) fs1 peers Happ (add_closed_ok _ _ _ Hp Hc) (proj1 (Hp1 Hs))).
    destruct (collect_reads _ _ _ _) as [fs' peers']. destruct IH as (H1 & H2 & H3). split; [done|].
    split; [by eapply progress_trans|]. intros i t Hi Hle Ht. destruct (decide (i = length pre)) as [->|].
    + apply H2; [by apply Hp1|]. subst fs1. pose proof (reply_at_answers (read_answer all) (length all) fs (length pre) Hs) as Ha.
      rewrite Hans in Ha. apply Ha. by eapply lookup_lt_Some.
    + eapply H3; [done| |done]. rewrite <- Hlen. lia.
  - specialize (IH (pre ++ [task]) fs _ Happ (add_read_ok _ _ _ Hp Hc) Hs).
    destruct (collect_reads _ _ _ _) as [fs' peers']. destruct IH as (H1 & H2 & H3). split; [done|]. split; [done|].
    intros i t Hi Hle Ht. eapply H3; [done| |done]. rewrite <- Hlen. destruct (decide (i = length pre)) as [->|]; [congruence|lia].
Qed.

(** No host answers about instances it was not asked for. *)
Definition answers_asked : Prop :=
  forall host keys resp r, rpc host keys = Some resp -> r ∈ resp -> pb_InstanceId r ∈ keys.

Context (Hasked : answers_asked).

Lemma host_answer_spec h tasks :
  RemoteGet (GetFunc rpc) h (keys_of h tasks) = Ret (host_answer h tasks) /\
  dom (host_answer h tasks) = list_to_set (keys_of h tasks).
Proof.
  unfold host_answer. destruct (RemoteGet_returns (GetFunc rpc) h (keys_of h tasks)) as (ret & -> & Hd); [|done].
  intros r. unfold GetFunc. destruct (rpc h (keys_of h tasks)) as [resp|] eqn:Hr; [|set_solver]. by eapply Hasked.
Qed.

(** One host's part of [peers_ok]. *)
Definition task_ok (all : list PeerTask) (ht : string * PeerReadTask) : Prop :=
  rp_host (prPeer ht.2) = ht.1 /\ prKeys ht.2 = keys_of ht.1 all /\
  forall k i, i ∈ from_option id [] (prFutures ht.2 !! k) <->
    exists task, all !! i = Some task /\ open_at ht.1 task = true /\ tKey task = k.

Lemma open_at_inv h task : open_at h task = true -> isClose (tPeer task) = false /\ rp_host (tPeer task) = h.
Proof. unfold open_at. rewrite andb_true_iff, negb_true_iff, bool_decide_eq_true. done. Qed.

Lemma answer_key_progress all h t k r fs :
  task_ok all (h, t) -> host_answer h all !! k = Some r ->
  progress (read_answer all) (length all) fs (answer_key t fs (k, r)).
Proof.
  intros (_ & _ & Hf) Hr. apply foldl_progress. intros i fs' Hi. apply reply_at_progress. left. simpl in *.
  apply Hf in Hi as (task & Ht & [Hc Hh]%open_at_inv & Hk). unfold read_answer. by rewrite Ht, Hc, Hh, Hk, Hr.
Qed.

Lemma answer_host_progress all h t fs :
  task_ok all (h, t) ->
  progress (read_answer all) (length all) fs (foldl (answer_key t) fs (iter _ (host_answer h all))).
Proof.
  intros Ht. apply foldl_progress. intros [k r] fs' Hin. apply (answer_key_progress all h); [done|].
  rewrite iter_perm in Hin. by apply elem_of_map_to_list.
Qed.

Lemma answer_host_answers all h t fs i task :
  task_ok all (h, t) -> all !! i = Some task -> open_at h task = true ->
  sound (read_answer all) (length all) fs ->
  answered (read_answer all) (foldl (answer_key t) fs (iter _ (host_answer h all))) i.
Proof.
  intros Ht Hi Ho Hs. destruct (host_answer_spec h all) as [_ Hd].
  assert (exists r, host_answer h all !! tKey task = Some r) as [r Hr].
  { apply elem_of_dom. rewrite Hd. apply elem_of_list_to_set. unfold keys_of. apply list_elem_of_fmap.
    exists task. split; [done|]. apply list_elem_of_filter. split; [done|]. by eapply list_elem_of_lookup_2. }
  eapply (foldl_answers _ _ _ _ _ (tKey task, r)).
  - intros [k r'] fs' Hin. apply (answer_key_progress all h); [done|]. rewrite iter_perm in Hin. by apply elem_of_map_to_list.
  - rewrite iter_perm. by apply elem_of_map_to_list.
  - intros fs' Hs'. destruct Ht as (_ & _ & Hf). simpl in *. unfold answer_key. simpl.
    pose proof (open_at_inv h task Ho) as [Hc Hh].
    assert (read_answer all i = (Some {[tKey task := r]}, None)) as Hans by (unfold read_answer; by rewrite Hi, Hc, Hh, Hr).
    eapply (foldl_answers _ (length all) _ _ _ i).
    + intros j fs'' Hj. apply reply_at_progress. left. apply Hf in Hj as (task' & Ht' & [Hc' Hh']%open_at_inv & Hk).
      unfold read_answer. by rewrite Ht', Hc', Hh', Hk, Hr.
    + apply Hf. eauto.
    + intros fs'' Hs''. pose proof (reply_at_answers (read_answer all) (length all) fs'' i Hs'') as Ha. rewrite Hans in Ha.
      apply Ha. by eapply lookup_lt_Some.
    + done.
  - done.
Qed.

Lemma answer_peers_ok all l fs :
  Forall (task_ok all) l -> sound (read_answer all) (length all) fs ->
  exists fs', answer_peers iter rpc l fs = Ret fs' /\ progress (read_answer all) (length all) fs fs' /\
    forall h t i task, (h, t) ∈ l -> all !! i = Some task -> open_at h task = true -> answered (read_answer all) fs' i.
Proof.
  revert fs. induction l as [|[h t] l IH]; intros fs Hl Hs; simpl.
  { exists fs. split; [done|]. split; [done|]. set_solver. }
  inversion Hl as [|? ? Ht Hl']; subst. destruct (Ht) as (Hh & Hk & _). simpl in *. rewrite Hh, Hk.
  rewrite (proj1 (host_answer_spec h all)). simpl.
  pose proof (answer_host_progress all h t fs Ht) as Hp. destruct (IH _ Hl' (proj1 (Hp Hs))) as (fs' & -> & Hp' & Ha).
  exists fs'. split; [done|]. split; [by eapply progress_trans|]. intros h' t' i task Hin Hi Ho.
  apply elem_of_cons in Hin as [[= -> ->]|Hin]; [|by eapply Ha]. apply Hp'; [by apply Hp|]. by eapply answer_host_answers.
Qed.

Lemma get_batch_answered tasks :
  exists fs, handleSendGetRecords iter rpc tasks (replicate (length tasks) new_future) = Ret fs /\
    forall i, (i < length tasks)%nat -> answered (read_answer tasks) fs i.
Proof.
  unfold handleSendGetRecords. pose proof (new_sound (read_answer tasks) (length tasks)) as Hs.
  assert (peers_ok [] ∅) as Hnil by (intros h; by rewrite lookup_empty).
  pose proof (collect_reads_ok tasks [] tasks _ ∅ eq_refl Hnil Hs) as Hc. simpl in Hc.
  destruct (collect_reads _ _ _ _) as [fs1 peers]. destruct Hc as (Hp & Hpr & Hclosed). destruct (Hpr Hs) as [Hs1 _].
  destruct (answer_peers_ok tasks (iter _ peers) fs1) as (fs2 & -> & Hpr2 & Hopen); [|done|].
  { apply Forall_forall. intros [h t] Hin. rewrite iter_perm in Hin. apply elem_of_map_to_list in Hin.
    specialize (Hp h). by rewrite Hin in Hp. }
  destruct (Hpr2 Hs1) as [[Hlen Hs2] Hmono].
  assert (forall i, (i < length tasks)%nat -> answered (read_answer tasks) fs2 i) as Hall.
  { intros i [task Hi]%lookup_lt_is_Some_2. destruct (isClose (tPeer task)) eqn:Hc.
    - apply Hmono. eapply Hclosed; [done|lia|done].
    - assert (open_at (rp_host (tPeer task)) task = true) as Ho by (unfold open_at; rewrite Hc; by apply bool_decide_eq_true).
      specialize (Hp (rp_host (tPeer task))). destruct (peers !! rp_host (tPeer task)) as [t|] eqn:Ht.
      + eapply Hopen; [rewrite iter_perm; by apply elem_of_map_to_list|done|done].
      + unfold keys_of in Hp. apply fmap_nil_inv in Hp. exfalso.
        assert (task ∈ filter (fun t => open_at (rp_host (tPeer task)) t = true) tasks) as Hf.
        { apply list_elem_of_filter. split; [done|]. by eapply list_elem_of_lookup_2. }
        rewrite Hp in Hf. set_solver. }
  simpl. eexists. split; [done|]. rewrite reply_all_answered with (ans := read_answer tasks); [done|]. by rewrite Hlen.
Qed.
End spec.

Section puts.
  Context {W : Type} (send : W -> string -> list string -> W).

Definition put_answer (tasks : list PeerTask) (i : nat) : option unit * option future_error :=
  match tasks !! i with
  | None => (None, None)
  | Some task => if isClose (tPeer task) then (None, Some (Replied ErrorPeerClosed)) else (Some tt, None)
  end.

Definition writes_ok (pre : list PeerTask) (peers : gmap string PeerWriteTask) : Prop :=
  forall h, match peers !! h with
  | None => records_of h pre = []
  | Some t => rp_host (pwPeer t) = h /\ pwRecords t = records_of h pre /\ records_of h pre <> []
  end.

Lemma records_of_snoc h pre task :
  records_of h (pre ++ [task]) = records_of h pre ++ (if open_at h task then [tRecord task] else []).
Proof. unfold records_of. rewrite filter_app, fmap_app. f_equal. rewrite filter_cons. simpl. by destruct (open_at h task). Qed.

Lemma add_write_ok pre task peers :
  writes_ok pre peers -> isClose (tPeer task) = false -> writes_ok (pre ++ [task]) (add_write peers task).
Proof.
  intros Hp Hopen h. specialize (Hp h). unfold add_write. rewrite records_of_snoc.
  destruct (decide (h = rp_host (tPeer task))) as [->|Hne].
  - rewrite lookup_insert_eq. assert (open_at (rp_host (tPeer task)) task = true) as ->.
    { unfold open_at. rewrite Hopen. by apply bool_decide_eq_true. }
    split; [|split; [|by intros []%app_nil]]; destruct (peers !! _) as [t|]; simpl; try naive_solver.
    + destruct Hp as (_ & -> & _). done.
    + by rewrite Hp.
  - rewrite lookup_insert_ne by done. assert (open_at h task = false) as ->; [|by rewrite app_nil_r].
    unfold open_at. rewrite Hopen. apply bool_decide_eq_false. auto.
Qed.

Lemma closed_write_ok pre task peers :
  writes_ok pre peers -> isClose (tPeer task) = true -> writes_ok (pre ++ [task]) peers.
Proof.
  intros Hp Hc h. specialize (Hp h). assert (open_at h task = false) as Ho by (unfold open_at; by rewrite Hc).
  by rewrite records_of_snoc, Ho, app_nil_r.
Qed.

Lemma collect_writes_ok tasks pre all fs peers :
  all = pre ++ tasks -> writes_ok pre peers -> sound (put_answer all) (length all) fs ->
  let '(fs', peers') := collect_writes (length pre) tasks fs peers in
  writes_ok all peers' /\ progress (put_answer all) (length all) fs fs' /\
  (forall i task, all !! i = Some task -> (length pre <= i)%nat -> isClose (tPeer task) = true -> answered (put_answer all) fs' i).
Proof.
  revert pre fs peers. induction tasks as [|task tasks IH]; intros pre fs peers -> Hp Hs; simpl.
  { rewrite app_nil_r. split; [done|]. split; [done|]. intros i task Hi%lookup_lt_Some Hle. lia. }
  assert (pre ++ task :: tasks = (pre ++ [task]) ++ tasks) as Happ by by rewrite <- app_assoc.
  assert ((pre ++ task :: tasks) !! length pre = Some task) as Hl by by rewrite list_lookup_middle.
  assert (S (length pre) = length (pre ++ [task])) as Hlen by (rewrite length_app; simpl; lia).
  rewrite Hlen. set (all := pre ++ task :: tasks) in *. destruct (isClose (tPeer task)) eqn:Hc.
  - assert (put_answer all (length pre) = (None, Some (Replied ErrorPeerClosed))) as Hans by (unfold put_answer; by rewrite Hl, Hc).
    set (fs1 := reply_at fs (length pre) _ _).
    assert (progress (put_answer all) (length all) fs fs1) as Hp1 by (apply reply_at_progress; auto).
    specialize (IH (pre ++ [task]) fs1 peers Happ (closed_write_ok _ _ _ Hp Hc) (proj1 (Hp1 Hs))).
    destruct (collect_writes _ _ _ _) as [fs' peers']. destruct IH as (H1 & H2 & H3). split; [done|].
    split; [by eapply progress_trans|]. intros i t Hi Hle Ht. destruct (decide (i = length pre)) as [->|].
    + apply H2; [by apply Hp1|]. subst fs1. pose proof (reply_at_answers (put_answer all) (length all) fs (length pre) Hs) as Ha.
      rewrite Hans in Ha. apply Ha. by eapply lookup_lt_Some.
    + eapply H3; [done| |done]. rewrite <- Hlen. lia.
  - specialize (IH (pre ++ [task]) fs _ Happ (add_write_ok _ _ _ Hp Hc) Hs).
    destruct (collect_writes _ _ _ _) as [fs' peers']. destruct IH as (H1 & H2 & H3). split; [done|]. split; [done|].
    intros i t Hi Hle Ht. eapply H3; [done| |done]. rewrite <- Hlen. destruct (decide (i = length pre)) as [->|]; [congruence|lia].
Qed.

Lemma put_peers_spec all l w :
  Forall (fun ht => rp_host (pwPeer ht.2) = ht.1 /\ pwRecords ht.2 = records_of ht.1 all) l ->
  put_peers send w l = Ret (foldl (fun w h => send w h (Key <$> records_of h all)) w l.*1).
Proof.
  revert w. induction l as [|[h t] l IH]; intros w Hl; [done|]. inversion Hl as [|? ? [Hh Hr] Hl']; subst. simpl in *.
  rewrite Hh, Hr. by apply IH.
Qed.

(** After the loop over the peers, the closing loop answers what is left. *)
Lemma reply_all_rest all fs :
  sound (put_answer all) (length all) fs ->
  (forall i task, all !! i = Some task -> isClose (tPeer task) = true -> answered (put_answer all) fs i) ->
  forall i, (i < length all)%nat -> answered (put_answer all) (reply_all fs (Some tt) None) i.
Proof.
  intros Hs Hc i Hi. unfold reply_all.
  set (A := fun (fs : list (future unit)) => forall i task, all !! i = Some task -> isClose (tPeer task) = true -> answered (put_answer all) fs i).
  assert (forall l fs, (forall j, j ∈ l -> (j < length all)%nat) -> sound (put_answer all) (length all) fs -> A fs ->
    (i ∈ l \/ answered (put_answer all) fs i) ->
    answered (put_answer all) (foldl (fun fs i => reply_at fs i (Some tt) None) fs l) i) as H.
  { induction l as [|j l IH]; intros fs' Hl Hs' HA Hor; simpl; [destruct Hor; [set_solver|done]|].
    assert ((Some tt, None) = put_answer all j \/ answered (put_answer all) fs' j) as Hj.
    { destruct (lookup_lt_is_Some_2 all j) as [t Ht]; [apply Hl; set_solver|].
      unfold put_answer at 1. rewrite Ht. destruct (isClose (tPeer t)) eqn:Hct; [right; by eapply HA|by left]. }
    destruct (reply_at_progress (put_answer all) (length all) fs' j _ _ Hj Hs') as [Hs'' Hmono].
    apply IH; [intros; apply Hl; set_solver|done|intros k t Hk Hkc; apply Hmono; by eapply HA|].
    destruct Hor as [[->|Hin]%elem_of_cons|Ha]; [right|by left|right; by apply Hmono].
    destruct Hj as [Hj|Ha]; [|by apply Hmono]. pose proof (reply_at_answers _ _ _ j Hs' Hi) as Ha. by rewrite <- Hj in Ha. }
  destruct Hs as [Hlen Hs]. rewrite Hlen. apply H; [|done|done|].
  - intros j Hj%elem_of_seq. lia.
  - left. apply elem_of_seq. lia.
Qed.
End puts.

(** ** Properties *)

(** The read handler answers every future of a batch once and with the
    right answer, whatever the order in which Go visits its maps: the futures
    of a closed peer with [ErrorPeerClosed], every other one with the record
    its host returned for the future's own key - [ErrorRecordNotFound] is never
    sent - provided hosts only answer what they were asked. *)
Theorem get_batch_answers_every_future (iter : forall A, gmap string A -> list (string * A))
    (rpc : string -> list string -> option (list HeartbeatRecord)) (tasks : list PeerTask) :
  (forall A (m : gmap string A), iter A m ≡ₚ map_to_list m) -> answers_asked rpc ->
  exists fs, handleSendGetRecords iter rpc tasks (replicate (length tasks) new_future) = Ret fs /\
    forall i task, tasks !! i = Some task ->
      exists f, fs !! i = Some f /\
        Done f = [if isClose (tPeer task) then (None, Some (Replied ErrorPeerClosed))
                  else (Some {[tKey task := default absent (host_answer rpc (rp_host (tPeer task)) tasks !! tKey task)]}, None)].
Proof.
  intros Hi Ha. destruct (get_batch_answered iter Hi rpc Ha tasks) as (fs & -> & Hans). exists fs. split; [done|].
  intros i task Ht. eexists. split; [apply Hans; by eapply lookup_lt_Some|]. unfold read_answer. rewrite Ht.
  by destruct (isClose (tPeer task)).
Qed.

(** The write handler makes exactly one call per host that has an open
    peer in the batch, with all of that host's records in order, and answers
    every future: [ErrorPeerClosed] for a closed peer, success otherwise. *)
Theorem put_batch_sends_each_record_once {W} (iter : forall A, gmap string A -> list (string * A))
    (send : W -> string -> list string -> W) (w : W) (tasks : list PeerTask) :
  (forall A (m : gmap string A), iter A m ≡ₚ map_to_list m) ->
  exists w' fs hosts, handleSendPutRecords iter send w tasks (replicate (length tasks) new_future) = Ret (w', fs) /\
    NoDup hosts /\ (forall h, h ∈ hosts <-> records_of h tasks <> []) /\
    w' = foldl (fun w h => send w h (Key <$> records_of h tasks)) w hosts /\
    forall i task, tasks !! i = Some task ->
      exists f, fs !! i = Some f /\
        Done f = [if isClose (tPeer task) then (None, Some (Replied ErrorPeerClosed)) else (Some tt, None)].
Proof.
  intros Hiter. unfold handleSendPutRecords. pose proof (new_sound (put_answer tasks) (length tasks)) as Hs.
  assert (writes_ok [] ∅) as Hnil by (intros h; by rewrite lookup_empty).
  pose proof (collect_writes_ok tasks [] tasks _ ∅ eq_refl Hnil Hs) as Hc. simpl in Hc.
  destruct (collect_writes _ _ _ _) as [fs1 peers]. destruct Hc as (Hp & Hpr & Hclosed). destruct (Hpr Hs) as [Hs1 _].
  assert (forall h t, (h, t) ∈ iter _ peers <-> peers !! h = Some t) as Hin.
  { intros h t. rewrite Hiter. apply elem_of_map_to_list. }
  rewrite (put_peers_spec send tasks).
  2:{ apply Forall_forall. intros [h t] Ht%Hin. specialize (Hp h). rewrite Ht in Hp. naive_solver. }
  simpl. do 3 eexists. split; [done|]. split_and!; [| |done|].
  - rewrite Hiter. apply NoDup_fst_map_to_list.
  - intros h. rewrite list_elem_of_fmap. specialize (Hp h). split.
    + intros ([h' t] & -> & Ht%Hin). simpl in *. rewrite Ht in Hp. apply Hp.
    + intros Hne. destruct (peers !! h) as [t|] eqn:Ht; [|done]. exists (h, t). split; [done|]. by apply Hin.
  - intros i task Ht. eexists. split.
    + apply (reply_all_rest tasks); [done| |by eapply lookup_lt_Some]. intros j t Hj Hjc. eapply Hclosed; [done|lia|done].
    + unfold put_answer. rewrite Ht. by destruct (isClose (tPeer task)).
Qed.

Lemma failed_rpc_absent (rpc : string -> list string -> option (list HeartbeatRecord)) h tasks key :
  rpc h (keys_of h tasks) = None -> default absent (host_answer rpc h tasks !! key) = absent.
Proof.
  intros Hr. unfold host_answer, RemoteGet, GetFunc. rewrite Hr. simpl.
  assert (forall keys (m : gmap string ReadBeatRecord), default absent (m !! key) = absent ->
    default absent (foldl (fun m key => <[key := absent]> m) m keys !! key) = absent) as H.
  { induction keys as [|k keys IH]; intros m Hm; simpl; [done|]. apply IH.
    destruct (decide (k = key)) as [->|]; [by rewrite lookup_insert_eq|by rewrite lookup_insert_ne]. }
  apply H. by rewrite lookup_empty.
Qed.

(** A failed fetch takes instances down: when the leader cannot be reached,
    [GetFunc] answers with an empty response, the follower reads that as a
    last heartbeat at time 0, and outside the skip windows its [Check] reports
    every healthy instance of the batch as turned unhealthy. *)
Theorem failed_fetch_takes_instances_down (iter : forall A, gmap string A -> list (string * A))
    (rpc : string -> list string -> option (list HeartbeatRecord)) (tasks : list PeerTask) (i : nat) (task : PeerTask)
    (localHost : string) (hashFunc : string -> Z) (c : LeaderHealthChecker) (now : Z) (req : CheckRequest) :
  (forall A (m : gmap string A), iter A m ≡ₚ map_to_list m) -> answers_asked rpc ->
  tasks !! i = Some task -> isClose (tPeer task) = false ->
  rpc (rp_host (tPeer task)) (keys_of (rp_host (tPeer task)) tasks) = None ->
  initialize c = true -> leader c = false -> remote c = Some (tPeer task) ->
  tKey task = InstanceId (cquery req) -> QHealthy (cquery req) = true ->
  skipCheck c now (ExpireDurationSec req) = false ->
  (0 < cur_time_sec req < 2 ^ 62)%Z -> (ExpireDurationSec req <= cur_time_sec req)%Z ->
  exists fs f, handleSendGetRecords iter rpc tasks (replicate (length tasks) new_future) = Ret fs /\ fs !! i = Some f /\
    Check localHost hashFunc c (mkNet (fresult f, ferr f) None) now req = Ret (Okay (mkResponse false 0 false false)).
Proof.
  intros Hiter Ha Ht Hopen Hfail Hinit Hl Hrem Hkey Hh Hskip Hcur Hexp.
  destruct (get_batch_answered iter Hiter rpc Ha tasks) as (fs & -> & Hans). do 2 eexists. split; [done|].
  split; [apply Hans; by eapply lookup_lt_Some|]. unfold read_answer. rewrite Ht, Hopen. simpl.
  rewrite failed_rpc_absent by done. unfold Check, Query, findLeaderPeer. rewrite Hinit, Hl, Hrem. simpl.
  unfold RemotePeer_Get. simpl. rewrite <- Hkey, lookup_singleton_eq. simpl. rewrite Hskip, Hh.
  rewrite decide_True; [done|]. rewrite i64_small by lia. lia.
Qed.

(** ** Witnesses *)

Definition in_order (A : Type) (m : gmap string A) : list (string * A) := map_to_list m.
Definition open_peer : RemotePeer := mkRemotePeer "leader" false.
Definition old_peer : RemotePeer := mkRemotePeer "old" true.
Definition demo_write (id : string) : WriteBeatRecord := mkWriteBeatRecord zero_record id.
Definition demo_tasks : list PeerTask :=
  [mkPeerTask open_peer "a" (demo_write "a"); mkPeerTask old_peer "b" (demo_write "b"); mkPeerTask open_peer "a" (demo_write "a")].

(** A leader that knows [a] only, and one that cannot be reached. *)
Definition leader_rpc (host : string) (keys : list string) : option (list HeartbeatRecord) :=
  if decide ("a" ∈ keys) then Some [mkHeartbeatRecord "a" 7 true] else Some [].
Definition dead_rpc (host : string) (keys : list string) : option (list HeartbeatRecord) := None.

Lemma leader_rpc_asked : answers_asked leader_rpc.
Proof. intros host keys resp r. unfold leader_rpc. case_decide; intros [= <-]; [intros ->%list_elem_of_singleton; done|set_solver]. Qed.

Lemma get_batch_answers_every_future_witness :
  exists fs, handleSendGetRecords in_order leader_rpc demo_tasks (replicate 3 new_future) = Ret fs /\
    (exists f, fs !! 1%nat = Some f /\ Done f = [(None, Some (Replied ErrorPeerClosed))]) /\
    (exists f, fs !! 2%nat = Some f /\
      Done f = [(Some {["a" := mkReadBeatRecord (mkRecordValue "" 7 0) true]}, None)]).
Proof.
  destruct (get_batch_answers_every_future in_order leader_rpc demo_tasks) as (fs & He & Hf).
  - intros. reflexivity.
  - apply leader_rpc_asked.
  - exists fs. split; [exact He|]. split.
    + exact (Hf 1%nat _ eq_refl).
    + destruct (Hf 2%nat _ eq_refl) as (f & Hl & Hd). exists f. split; [exact Hl|]. rewrite Hd. reflexivity.
Defined.

Lemma put_batch_sends_each_record_once_witness :
  exists w' fs hosts, handleSendPutRecords in_order (fun w h ks => w ++ [(h, ks)]) [] demo_tasks (replicate 3 new_future) = Ret (w', fs) /\
    NoDup hosts /\ (forall h, h ∈ hosts <-> records_of h demo_tasks <> []) /\
    w' = foldl (fun w h => w ++ [(h, Key <$> records_of h demo_tasks)]) [] hosts /\
    forall i task, demo_tasks !! i = Some task ->
      exists f, fs !! i = Some f /\
        Done f = [if isClose (tPeer task) then (None, Some (Replied ErrorPeerClosed)) else (Some tt, None)].
Proof.
  apply (put_batch_sends_each_record_once in_order (fun w h ks => w ++ [(h, ks)]) [] demo_tasks). intros. reflexivity.
Defined.

Lemma failed_fetch_takes_instances_down_witness :
  exists fs f, handleSendGetRecords in_order dead_rpc demo_tasks (replicate 3 new_future) = Ret fs /\ fs !! 0%nat = Some f /\
    Check "me" (fun _ => 0%Z)
      (mkLeader true 5 0 false 1 (Some open_peer) (mkLocalBeatRecordCache 0 (SegmentMap.mkSegmentMap 0 [])) [] [])
      (mkNet (fresult f, ferr f) None) 90000 (mkCheck (mkQuery "a" "h" 80 true) 15 90)
    = Ret (Okay (mkResponse false 0 false false)).
Proof.
  apply (failed_fetch_takes_instances_down in_order dead_rpc demo_tasks 0 (mkPeerTask open_peer "a" (demo_write "a")) "me" (fun _ => 0%Z)
    (mkLeader true 5 0 false 1 (Some open_peer) (mkLocalBeatRecordCache 0 (SegmentMap.mkSegmentMap 0 [])) [] []) 90000
    (mkCheck (mkQuery "a" "h" 80 true) 15 90)).
  - intros. reflexivity.
  - intros host keys resp r. discriminate.
  - reflexivity.
  - reflexivity.
  - reflexivity.
  - reflexivity.
  - reflexivity.
  - reflexivity.
  - reflexivity.
  - reflexivity.
  - reflexivity.
  - simpl. lia.
  - simpl. lia.
Defined.
