(* ===== verification/RedisPool.v ===== *)
(** * The redis connection pool ([src/common/redispool/redis_pool.go])

    Tasks, retries and the liveness probe of the pool.  The redis server is
    not code of the repository: it is an instance of [RedisServer], whose laws
    say what a command does when redis reports no error, and that one that
    failed either took effect or did not. *)

From S2P Require Import Prelude.
From Stdlib Require Import ZArith Lia.
From stdpp Require Import base tactics list gmap strings.

Open Scope Z_scope.

(** ** The server *)

Inductive redis_value := RString (v : string) | RSet (ms : gset string).
Abbreviation redis_data := (gmap string redis_value).

Inductive command :=
| CmdGet (k : string)
| CmdSet (k v : string)
| CmdDel (k : string)
| CmdSAdd (k : string) (ms : list string)
| CmdSRem (k : string) (ms : list string).

Inductive redis_reply := RValue (v : string) | RNil | RDone | RError.

(** What a command that succeeds does, and what it answers. *)
Definition effect (c : command) (d : redis_data) : redis_data :=
  match c with
  | CmdGet _ => d
  | CmdSet k v => <[k := RString v]> d
  | CmdDel k => delete k d
  | CmdSAdd k ms =>
      match d !! k with
      | None => <[k := RSet (list_to_set ms)]> d
      | Some (RSet old) => <[k := RSet (old ∪ list_to_set ms)]> d
      | Some (RString _) => d
      end
  | CmdSRem k ms =>
      match d !! k with
      | Some (RSet old) =>
          if decide (old ∖ list_to_set ms = ∅) then delete k d else <[k := RSet (old ∖ list_to_set ms)]> d
      | _ => d
      end
  end.

Definition answer (c : command) (d : redis_data) : redis_reply :=
  match c with
  | CmdGet k => match d !! k with Some (RString v) => RValue v | Some (RSet _) => RError | None => RNil end
  | CmdSet _ _ | CmdDel _ => RDone
  | CmdSAdd k _ | CmdSRem k _ => match d !! k with Some (RString _) => RError | _ => RDone end
  end.

Class RedisServer (D : Type) := {
  exec : D -> command -> D * redis_reply;
  stored : D -> redis_data;
  exec_ok d c d' r : exec d c = (d', r) -> r <> RError -> stored d' = effect c (stored d) /\ r = answer c (stored d);
  exec_error d c d' : exec d c = (d', RError) -> stored d' = stored d \/ stored d' = effect c (stored d) }.

(** ** The pool *)

Definition keyPrefix : string := "hb_".
Definition toRedisKey (instanceID : string) (compatible : bool) : string :=
  if compatible then instanceID else keyPrefix +:+ instanceID.

Inductive Task :=
| TGet (id : string)
| TSet (id value : string)
| TDel (id : string)
| TSadd (id : string) (ms : list string)
| TSrem (id : string) (ms : list string).

Inductive pool_error := RedisIsDead | WorkerStopped | RedisFailed.
#[export] Instance pool_error_eq_dec : EqDecision pool_error.
Proof. solve_decision. Defined.

Record Resp := mkResp {
  Value : string;
  Err : option pool_error;
  Exists : bool;
  Compatible : bool;
  shouldRetry : bool }.

Record redisPool := mkRedisPool {
  redisDead : bool;
  recoverTimeSec : Z }.

(** What becomes of one attempt: it is served, or the pool's context is
    cancelled before the task is queued, or while its answer is awaited - and
    then a worker has executed it or not. *)
Inductive fate := Served | StoppedScheduling | StoppedFetching (executed : bool).

Section pool.
  Context {D : Type} `{RedisServer D}.
  (** [p.config]. *)
  Context (compatible : bool) (MaxRetry : Z).

Definition doHandleTask (task : Task) : command :=
  match task with
  | TSet id value => CmdSet (toRedisKey id compatible) value
  | TDel id => CmdDel (toRedisKey id compatible)
  | TSadd id ms => CmdSAdd id ms
  | TSrem id ms => CmdSRem id ms
  | TGet id => CmdGet (toRedisKey id compatible)
  end.

(** The response that [handleTasks] sends to a task. *)
Definition response (task : Task) (r : redis_reply) : Resp :=
  match task with
  | TGet _ =>
      match r with
      | RValue v => mkResp v None true false false
      | RNil => mkResp "" None false false false
      | RDone => mkResp "" None true false false
      | RError => mkResp "" (Some RedisFailed) true false false
      end
  | _ =>
      match r with
      | RError => mkResp "" (Some RedisFailed) false false false
      | _ => mkResp "" None false false false
      end
  end.

(** The pipelined commands of a batch run in order. *)
Fixpoint handleTasks (d : D) (tasks : list Task) : D * list Resp :=
  match tasks with
  | [] => (d, [])
  | task :: tasks =>
      let '(d, r) := exec d (doHandleTask task) in
      let '(d, rs) := handleTasks d tasks in
      (d, response task r :: rs)
  end.

Definition handleTask (d : D) (task : Task) (how : fate) : D * Resp :=
  match how with
  | StoppedScheduling => (d, mkResp "" (Some WorkerStopped) false compatible false)
  | StoppedFetching executed =>
      (if executed then fst (exec d (doHandleTask task)) else d, mkResp "" (Some WorkerStopped) false compatible false)
  | Served =>
      let '(d, r) := exec d (doHandleTask task) in
      let resp := response task r in
      (d, mkResp (Value resp) (Err resp) (Exists resp) compatible true)
  end.

(** The retry loop, [more] attempts after this one; the fates of the attempts
    are given in order. *)
Fixpoint retry_loop (more : nat) (d : D) (task : Task) (fates : list fate) : D * Resp :=
  let '(d, resp) := handleTask d task (default Served (head fates)) in
  match more with
  | O => (d, resp)
  | S more =>
      if decide (Err resp = None \/ shouldRetry resp = false) then (d, resp)
      else retry_loop more d task (tail fates)
  end.

Definition handleTaskWithRetries (d : D) (task : Task) (fates : list fate) : D * Resp :=
  let count := if decide (MaxRetry > 0) then 1 + MaxRetry else 1 in
  retry_loop (Z.to_nat (count - 1)) d task fates.

Definition checkRedisDead (p : redisPool) : option pool_error := if redisDead p then Some RedisIsDead else None.

Definition guarded (p : redisPool) (d : D) (k : D * Resp) : D * Resp :=
  match checkRedisDead p with
  | Some err => (d, mkResp "" (Some err) false false false)
  | None => k
  end.

Definition Get (p : redisPool) (d : D) (id : string) (fates : list fate) : D * Resp :=
  guarded p d (handleTask d (TGet id) (default Served (head fates))).
Definition SetKey (p : redisPool) (d : D) (id value : string) (fates : list fate) : D * Resp :=
  guarded p d (handleTaskWithRetries d (TSet id value) fates).
Definition Del (p : redisPool) (d : D) (id : string) (fates : list fate) : D * Resp :=
  guarded p d (handleTaskWithRetries d (TDel id) fates).
Definition Sdd (p : redisPool) (d : D) (id : string) (ms : list string) (fates : list fate) : D * Resp :=
  guarded p d (handleTaskWithRetries d (TSadd id ms) fates).
Definition Srem (p : redisPool) (d : D) (id : string) (ms : list string) (fates : list fate) : D * Resp :=
  guarded p d (handleTaskWithRetries d (TSrem id ms) fates).

End pool.

(** *** The liveness probe *)

Definition errCountThreshold : nat := 2.
Definition maxCheckCount : nat := 3.

(** One tick of [checkRedis]; [pings i] is what [doCheckRedis] answered the
    [i]-th time, [now] the Unix time in seconds. *)
Definition checkRedis (p : redisPool) (pings : nat -> bool) (now : Z) : redisPool :=
  let errCount := length (filter (fun i => pings i = false) (seq 0 maxCheckCount)) in
  if decide (errCountThreshold <= errCount)%nat
  then if redisDead p then p else mkRedisPool true 0
  else if redisDead p then mkRedisPool false now else p.

(** ** Lemmas *)

Lemma effect_idempotent c d : effect c (effect c d) = effect c d.
Proof.
  destruct c as [k|k v|k|k ms|k ms]; simpl; [done|by rewrite insert_insert_eq|by rewrite delete_delete_eq|..].
  - destruct (d !! k) as [[v|old]|] eqn:Hk; simpl.
    + by rewrite Hk.
    + rewrite lookup_insert_eq, insert_insert_eq. do 2 f_equal. set_solver.
    + rewrite lookup_insert_eq, insert_insert_eq. do 2 f_equal. set_solver.
  - destruct (d !! k) as [[v|old]|] eqn:Hk; simpl; rewrite ?Hk; [done| |done].
    case_decide as He; simpl; [by rewrite lookup_delete_eq|]. rewrite lookup_insert_eq.
    assert (old ∖ list_to_set ms ∖ list_to_set ms = (old ∖ list_to_set ms : gset string)) as -> by set_solver.
    by rewrite decide_False, insert_insert_eq.
Qed.

Section pool_lemmas.
  Context {D : Type} `{RedisServer D} (compatible : bool) (MaxRetry : Z).
  Implicit Types (d : D).

(** An attempt took effect, or failed. *)
Lemma exec_applied d c d' r : exec d c = (d', r) -> stored d' = stored d \/ stored d' = effect c (stored d).
Proof. intros He. destruct r; [right; by eapply exec_ok..|by eapply exec_error]. Qed.

Lemma response_ok task r : Err (response task r) = None -> r <> RError.
Proof. destruct task, r; simpl; done. Qed.

Lemma handleTask_spec d task how d' resp :
  handleTask compatible d task how = (d', resp) ->
  (stored d' = stored d \/ stored d' = effect (doHandleTask compatible task) (stored d)) /\
  (Err resp = None -> stored d' = effect (doHandleTask compatible task) (stored d) /\
    exists r, r = answer (doHandleTask compatible task) (stored d) /\
      Value resp = Value (response task r) /\ Exists resp = Exists (response task r)).
Proof.
  unfold handleTask. destruct how as [| |executed].
  - destruct (exec d (doHandleTask compatible task)) as [d1 r] eqn:He. intros [= <- <-]. split; [by eapply exec_applied|].
    simpl. intros Hr%response_ok. destruct (exec_ok d _ d1 r He Hr) as [Hs Ha]. eauto.
  - intros [= <- <-]. split; [by left|done].
  - intros [= <- <-]. split; [|done]. destruct executed; [|by left].
    destruct (exec d (doHandleTask compatible task)) as [d1 r] eqn:He. by eapply exec_applied.
Qed.

Lemma retry_loop_spec more d task fates d' resp :
  retry_loop compatible more d task fates = (d', resp) ->
  (stored d' = stored d \/ stored d' = effect (doHandleTask compatible task) (stored d)) /\
  (Err resp = None -> stored d' = effect (doHandleTask compatible task) (stored d)).
Proof.
  revert d fates. induction more as [|more IH]; intros d fates; simpl;
    destruct (handleTask compatible d task (default Served (head fates))) as [d1 resp1] eqn:He;
    destruct (handleTask_spec _ _ _ _ _ He) as [H1 H1'].
  - intros [= <- <-]. naive_solver.
  - case_decide; [intros [= <- <-]; naive_solver|]. intros Hr. destruct (IH _ _ Hr) as [H2 H2'].
    destruct H1 as [H1|H1]; rewrite H1 in *; [done|]. rewrite effect_idempotent in *. naive_solver.
Qed.
End pool_lemmas.

(** ** Properties *)

(** C36. Retrying a write is safe: however many attempts fail half way - each
    of which redis may or may not have executed - a write reported as
    successful has exactly the effect of one execution, and one reported as
    failed has that effect or none. *)
Theorem retried_write_applies_once {D} `{RedisServer D} (compatible : bool) (MaxRetry : Z)
    (d : D) (task : Task) (fates : list fate) (d' : D) (resp : Resp) :
  handleTaskWithRetries compatible MaxRetry d task fates = (d', resp) ->
  (Err resp = None -> stored d' = effect (doHandleTask compatible task) (stored d)) /\
  (Err resp <> None -> stored d' = stored d \/ stored d' = effect (doHandleTask compatible task) (stored d)).
Proof. intros Hr. destruct (retry_loop_spec _ _ _ _ _ _ _ Hr) as [H1 H2]. split; [done|]. by intros _. Qed.

(** ** Witnesses *)

(** A server that fails on demand: each command consumes one entry of the
    schedule, [Some executed] is a failure. *)
Record flaky := mkFlaky { fl_data : redis_data; fl_faults : list (option bool) }.

Definition flaky_exec (d : flaky) (c : command) : flaky * redis_reply :=
  match head (fl_faults d) with
  | Some (Some executed) =>
      (mkFlaky (if executed then effect c (fl_data d) else fl_data d) (tail (fl_faults d)), RError)
  | _ => (mkFlaky (effect c (fl_data d)) (tail (fl_faults d)), answer c (fl_data d))
  end.

#[export] Program Instance flaky_server : RedisServer flaky := { exec := flaky_exec; stored := fl_data }.
Next Obligation. intros [d fs] c d' r. unfold flaky_exec. simpl. destruct (head fs) as [[[]|]|]; intros [= <- <-]; done. Qed.
Next Obligation.
  intros [d fs] c d'. unfold flaky_exec. simpl. destruct (head fs) as [[[]|]|]; intros [= <-]; simpl; eauto.
Qed.

Lemma retried_write_applies_once_witness :
  let d0 := mkFlaky ∅ [Some true; Some false; None] in
  let '(d', resp) := handleTaskWithRetries false 2 d0 (TSet "a" "v") [] in
  (Err resp = None -> stored d' = effect (CmdSet "hb_a" "v") ∅) /\
  (Err resp <> None -> stored d' = ∅ \/ stored d' = effect (CmdSet "hb_a" "v") ∅).
Proof.
  cbv zeta. destruct (handleTaskWithRetries false 2 (mkFlaky ∅ [Some true; Some false; None]) (TSet "a" "v") []) as [d' resp] eqn:He.
  exact (retried_write_applies_once false 2 (mkFlaky ∅ [Some true; Some false; None]) (TSet "a" "v") [] d' resp He).
Defined.
