(* ===== verification/RedisChecker.v ===== *)
(** * The redis heartbeat checker ([src/plugin/healthchecker/redis/checker_redis.go])

    Every server writes the heartbeats it receives to redis, under the
    instance's key, in the text format of [Serialize]; checks read them back.
    The redis server is an instance of [RedisServer] ([RedisPool.v]). *)

From S2P Require Import Prelude GoStrings Checker RedisPool.
From Stdlib Require Import ZArith Lia Ascii String.
From stdpp Require Import base tactics list gmap strings pretty.

Open Scope Z_scope.

Definition Sep : ascii := ":".
Definition CountSep : ascii := "|".
Definition Servers : string := "servers".

Record HeathCheckRecord := mkHeathCheckRecord {
  HLocalHost : string;
  HCurTimeSec : Z;
  HCount : Z }.
Definition empty_record : HeathCheckRecord := mkHeathCheckRecord "" 0 0.

Definition IsEmpty (h : HeathCheckRecord) : bool :=
  bool_decide (slen (HLocalHost h) = 0) && bool_decide (HCurTimeSec h = 0).

Definition Serialize (h : HeathCheckRecord) (compatible : bool) : string :=
  (if compatible then "1" +:+ String Sep "" else "") +:+
  pretty (HCurTimeSec h) +:+ String Sep (HLocalHost h +:+ String CountSep (pretty (HCount h))).

(** [None] is an error. *)
Definition parseHeartbeatValue (value : string) (startIdx : nat) : option (string * Z * Z) :=
  let tokens := Split Sep value in
  if decide (length tokens < startIdx + 2)%nat then None
  else
    match tokens !! startIdx, tokens !! (startIdx + 1)%nat with
    | Some lastHeartbeatTimeStr, Some host =>
        match ParseInt lastHeartbeatTimeStr with
        | None => None
        | Some curTimeSec =>
            let countSepIndex := LastIndex CountSep host in
            if decide (countSepIndex > 0 /\ countSepIndex < slen host) then
              match ParseInt (sdrop (Z.to_nat (countSepIndex + 1)) host) with
              | Some countValue => Some (host, curTimeSec, countValue)
              | None => None
              end
            else Some (host, curTimeSec, 0)
        end
    | _, _ => None
    end.

(** An empty value leaves the receiver, here the empty record, unchanged. *)
Definition Deserialize (value : string) (compatible : bool) : option HeathCheckRecord :=
  if decide (slen value = 0) then Some empty_record
  else
    match parseHeartbeatValue value (if compatible then 1 else 0)%nat with
    | Some (host, cur, count) => Some (mkHeathCheckRecord host cur count)
    | None => None
    end.

Record RedisHealthChecker := mkRedisHealthChecker {
  hbPool : redisPool;
  checkPool : redisPool;
  suspendTimeSec : Z }.

(** A failed query: redis, or a value that does not parse. *)
Inductive redis_error := PoolError (e : pool_error) | InvalidValue.

Section checker.
  Context {D : Type} `{RedisServer D} (compatible : bool) (MaxRetry : Z).
  Implicit Types (fates : list fate).

(** [registerSelf], the part of [Initialize] that touches redis. *)
Definition registerSelf (r : RedisHealthChecker) (d : D) (localHost : string) fates : D * option pool_error :=
  let '(d, resp) := Sdd compatible MaxRetry (checkPool r) d Servers [localHost] fates in (d, Err resp).

(** [Report] only logs an error of redis. *)
Definition Report (r : RedisHealthChecker) (d : D) (request : ReportRequest) fates : D * option pool_error :=
  let value := mkHeathCheckRecord (LocalHost request) (CurTimeSec request) (RCount request) in
  let '(d, resp) := SetKey compatible MaxRetry (hbPool r) d (InstanceId (rquery request)) (Serialize value compatible) fates in
  (d, None).

Definition Query (r : RedisHealthChecker) (d : D) (request : QueryRequest) fates : D * result redis_error QueryResponse :=
  let '(d, resp) := Get compatible (checkPool r) d (InstanceId request) fates in
  match Err resp with
  | Some e => (d, Fail (PoolError e))
  | None =>
      let value := Value resp in
      if decide (slen value = 0) then (d, Okay (mkQueryResponse "" (RedisPool.Exists resp) 0 0))
      else
        match Deserialize value (Compatible resp) with
        | None => (d, Fail InvalidValue)
        | Some h => (d, Okay (mkQueryResponse (HLocalHost h) (RedisPool.Exists resp) (HCurTimeSec h) (HCount h)))
        end
  end.

Definition skipCheck (r : RedisHealthChecker) (now expireDurationSec : Z) : bool :=
  let localCurTimeSec := Z.quot now 1000 in
  if bool_decide (suspendTimeSec r > 0 /\ localCurTimeSec >= suspendTimeSec r /\
       i64 (localCurTimeSec - suspendTimeSec r) < expireDurationSec) then true
  else
    let recoverTimeSec := recoverTimeSec (checkPool r) in
    bool_decide (recoverTimeSec > 0 /\ localCurTimeSec >= recoverTimeSec /\
      i64 (localCurTimeSec - recoverTimeSec) < expireDurationSec).

Definition Check (r : RedisHealthChecker) (d : D) (now : Z) (request : CheckRequest) fates
    : D * result redis_error CheckResponse :=
  let '(d, queryResp) := Query r d (cquery request) fates in
  match queryResp with
  | Fail e => (d, Fail e)
  | Okay queryResp =>
      let lastHeartbeatTime := LastHeartbeatSec queryResp in
      let curTimeSec := cur_time_sec request in
      if skipCheck r now (ExpireDurationSec request) then (d, Okay (mkResponse false lastHeartbeatTime true false))
      else if decide (curTimeSec < lastHeartbeatTime) then (d, Okay (mkResponse false lastHeartbeatTime true false))
      else if decide (i64 (curTimeSec - lastHeartbeatTime) >= ExpireDurationSec request)
      then
        if QHealthy (cquery request) then (d, Okay (mkResponse false lastHeartbeatTime false true))
        else (d, Okay (mkResponse false lastHeartbeatTime true true))
      else
        if negb (QHealthy (cquery request)) then (d, Okay (mkResponse true lastHeartbeatTime false true))
        else (d, Okay (mkResponse true lastHeartbeatTime true true))
  end.

Definition AddToCheck (r : RedisHealthChecker) (d : D) (localHost : string) (instances : list string) fates : D * option pool_error :=
  if decide (length instances = 0%nat) then (d, None)
  else let '(d, resp) := Sdd compatible MaxRetry (checkPool r) d localHost instances fates in (d, Err resp).

Definition RemoveFromCheck (r : RedisHealthChecker) (d : D) (localHost : string) (instances : list string) fates : D * option pool_error :=
  if decide (length instances = 0%nat) then (d, None)
  else let '(d, resp) := Srem compatible MaxRetry (checkPool r) d localHost instances fates in (d, Err resp).

Definition Delete (r : RedisHealthChecker) (d : D) (id : string) fates : D * option pool_error :=
  let '(d, resp) := Del compatible MaxRetry (checkPool r) d id fates in (d, Err resp).

Definition Suspend (r : RedisHealthChecker) (now : Z) : RedisHealthChecker :=
  mkRedisHealthChecker (hbPool r) (checkPool r) (Z.quot now 1000).

End checker.

(** ** The text format *)

Definition start_idx (compatible : bool) : nat := if compatible then 1 else 0.

Lemma sep_in_number (z : Z) : occurs Sep (pretty z) = false.
Proof. by apply pretty_Z_occurs. Qed.
Lemma count_sep_in_number (z : Z) : occurs CountSep (pretty z) = false.
Proof. by apply pretty_Z_occurs. Qed.

(** The tokens of a serialized record. *)
Lemma Split_Serialize h compatible :
  Split Sep (Serialize h compatible) =
  (if compatible then ["1"] else []) ++ pretty (HCurTimeSec h) :: Split Sep (HLocalHost h +:+ String CountSep (pretty (HCount h))).
Proof.
  unfold Serialize. destruct compatible; simpl.
  - change (String.append "" ?s) with s. rewrite (Split_cons Sep (pretty _)) by apply sep_in_number. done.
  - change (String.append "" ?s) with s. by rewrite Split_cons by apply sep_in_number.
Qed.

Lemma parse_Serialize h compatible host rest :
  Split Sep (HLocalHost h +:+ String CountSep (pretty (HCount h))) = host :: rest ->
  - 2 ^ 63 <= HCurTimeSec h < 2 ^ 63 ->
  parseHeartbeatValue (Serialize h compatible) (start_idx compatible) =
  (let i := LastIndex CountSep host in
   if decide (i > 0 /\ i < slen host) then
     match ParseInt (sdrop (Z.to_nat (i + 1)) host) with
     | Some n => Some (host, HCurTimeSec h, n)
     | None => None
     end
   else Some (host, HCurTimeSec h, 0)).
Proof.
  intros Hs Ht. unfold parseHeartbeatValue. rewrite Split_Serialize, Hs.
  rewrite decide_False by (destruct compatible; simpl; lia).
  destruct compatible; simpl; by rewrite ParseInt_pretty.
Qed.

Lemma Split_host h : occurs Sep (HLocalHost h) = false ->
  Split Sep (HLocalHost h +:+ String CountSep (pretty (HCount h))) = [HLocalHost h +:+ String CountSep (pretty (HCount h))].
Proof.
  intros Ho. apply Split_plain. rewrite occurs_app, Ho. simpl. by rewrite sep_in_number.
Qed.

(** What a written record reads back as, for a host without the separator. *)
Lemma parse_plain_host h compatible :
  occurs Sep (HLocalHost h) = false -> HLocalHost h <> "" ->
  - 2 ^ 63 <= HCurTimeSec h < 2 ^ 63 -> - 2 ^ 63 <= HCount h < 2 ^ 63 ->
  parseHeartbeatValue (Serialize h compatible) (start_idx compatible) =
  Some (HLocalHost h +:+ String CountSep (pretty (HCount h)), HCurTimeSec h, HCount h).
Proof.
  intros Ho Hne Ht Hc. erewrite parse_Serialize; [|by apply Split_host|done]. cbn zeta.
  rewrite LastIndex_app by apply count_sep_in_number.
  assert (slen (HLocalHost h) > 0) as Hpos by (unfold slen; destruct (HLocalHost h); simpl; [done|lia]).
  rewrite decide_True; [|split; [done|]; unfold slen; rewrite length_sapp; simpl; lia].
  assert (HLocalHost h +:+ String CountSep (pretty (HCount h)) = (HLocalHost h +:+ String CountSep "") +:+ pretty (HCount h)) as Heq
    by by rewrite sapp_assoc.
  rewrite Heq at 1. rewrite sdrop_app; [by rewrite ParseInt_pretty|]. rewrite length_sapp. unfold slen. simpl. lia.
Qed.

(** A host with the separator, an IPv6 address say, is cut at it. *)
Lemma parse_cut_host h compatible a b :
  HLocalHost h = a +:+ String Sep b -> occurs Sep a = false -> occurs CountSep a = false ->
  - 2 ^ 63 <= HCurTimeSec h < 2 ^ 63 ->
  parseHeartbeatValue (Serialize h compatible) (start_idx compatible) = Some (a, HCurTimeSec h, 0).
Proof.
  intros He Ha Hb Ht. erewrite parse_Serialize; [|rewrite He, sapp_assoc; by apply Split_cons|done]. cbn zeta.
  rewrite LastIndex_none by done. by rewrite decide_False by lia.
Qed.

(** ** What checks conclude *)

(** The status of an instance after a check. *)
Definition new_status (resp : CheckResponse) (healthy : bool) : bool :=
  if StayUnchanged resp then healthy else RHealthy resp.

Section facts.
  Context {D : Type} `{RedisServer D} (compatible : bool) (MaxRetry : Z).
  Implicit Types (d : D) (r : RedisHealthChecker) (fates : list fate).

Lemma toRedisKey_inj c : Inj (=) (=) (fun id => toRedisKey id c).
Proof. intros a b. unfold toRedisKey, keyPrefix. destruct c; [done|]. simpl. intros [= ?]. done. Qed.

Lemma Query_stored r d req fates v :
  stored d !! toRedisKey (InstanceId req) compatible = Some (RString v) -> v <> "" ->
  let '(d', q) := Query compatible r d req fates in
  stored d' = stored d /\
  ((exists e, q = Fail (PoolError e)) \/
   q = match Deserialize v compatible with
       | None => Fail InvalidValue
       | Some h => Okay (mkQueryResponse (HLocalHost h) true (HCurTimeSec h) (HCount h))
       end).
Proof.
  intros Hv Hne. unfold Query, Get, guarded, checkRedisDead. destruct (redisDead (checkPool r)); [simpl; eauto|].
  destruct (handleTask compatible d (TGet (InstanceId req)) (default Served (head fates))) as [d' resp] eqn:He.
  destruct (handleTask_spec _ _ _ _ _ _ He) as [H1 H2]. simpl in *.
  destruct (Err resp) as [e|] eqn:Herr.
  - split; [by destruct H1|]. eauto.
  - destruct (H2 eq_refl) as (Hs & rep & Hr & Hval & Hex). rewrite Hv in Hr. subst rep. simpl in *.
    assert (Compatible resp = compatible) as Hc.
    { unfold handleTask in He. destruct (default Served (head fates)) as [| |[]]; [|by injection He as <- <-..].
      destruct (exec _ _). by injection He as <- <-. }
    rewrite Hval, Hex, Hc. rewrite decide_False by (unfold slen; destruct v; simpl; [done|lia]).
    destruct (Deserialize v compatible); simpl; auto.
Qed.

Lemma Serialize_nonempty h c : Serialize h c <> "".
Proof.
  unfold Serialize. destruct c; simpl; [done|]. change (String.append "" ?s) with s. intros He%(f_equal String.length).
  change (String.append ?a ?b) with (a +:+ b) in He. rewrite length_sapp in He. simpl in He. lia.
Qed.

Lemma Deserialize_Serialize h c :
  Deserialize (Serialize h c) c =
  match parseHeartbeatValue (Serialize h c) (start_idx c) with
  | Some (host, cur, count) => Some (mkHeathCheckRecord host cur count)
  | None => None
  end.
Proof.
  unfold Deserialize. rewrite decide_False; [done|]. pose proof (Serialize_nonempty h c) as Hne.
  unfold slen. destruct (Serialize h c); simpl; [done|lia].
Qed.

Lemma Check_Query r d now req fates d' resp :
  Check compatible r d now req fates = (d', Okay resp) ->
  exists q, Query compatible r d (cquery req) fates = (d', Okay q) /\
    resp = (let last := LastHeartbeatSec q in
            if skipCheck r now (ExpireDurationSec req) then mkResponse false last true false
            else if decide (cur_time_sec req < last) then mkResponse false last true false
            else if decide (i64 (cur_time_sec req - last) >= ExpireDurationSec req)
            then mkResponse false last (negb (QHealthy (cquery req))) true
            else mkResponse true last (QHealthy (cquery req)) true).
Proof.
  unfold Check. destruct (Query compatible r d (cquery req) fates) as [d1 [q|e]]; [|done]. cbn zeta. intros Hc.
  exists q. revert Hc. destruct (skipCheck _ _ _), (QHealthy (cquery req)); repeat case_decide; simpl; intros [= <- <-]; done.
Qed.
End facts.

(** ** Properties *)

(** A heartbeat written to redis and read back: the time and the count
    survive, in both text formats and for every host, as long as the host has
    none of the two separators - but the host comes back with the separator
    and the count still attached; a host with a colon in it is cut there and
    its count is lost. *)
Theorem heartbeat_value_roundtrip (h : HeathCheckRecord) (compatible : bool) :
  - 2 ^ 63 <= HCurTimeSec h < 2 ^ 63 -> - 2 ^ 63 <= HCount h < 2 ^ 63 -> HLocalHost h <> "" ->
  occurs CountSep (HLocalHost h) = false ->
  (occurs Sep (HLocalHost h) = false ->
   Deserialize (Serialize h compatible) compatible =
     Some (mkHeathCheckRecord (HLocalHost h +:+ "|" +:+ pretty (HCount h)) (HCurTimeSec h) (HCount h))) /\
  (forall a b, HLocalHost h = a +:+ ":" +:+ b -> occurs Sep a = false ->
   Deserialize (Serialize h compatible) compatible = Some (mkHeathCheckRecord a (HCurTimeSec h) 0)).
Proof.
  intros Ht Hc Hne Hcs. split.
  - intros Ho. rewrite Deserialize_Serialize, parse_plain_host by done. done.
  - intros a b He Ha. rewrite Deserialize_Serialize. erewrite parse_cut_host; [done|exact He|done| |done].
    rewrite He, occurs_app, orb_false_iff in Hcs. apply Hcs.
Qed.

(** What one server reports, every server reads: once a report reached
    redis, and until its key is written again, a query on any server either
    fails in the pool or answers the reported time and count - and, as the
    server that reported, the host with the count attached. *)
Theorem redis_report_then_query {D} `{RedisServer D} (compatible : bool) (MaxRetry : Z)
    (r r' : RedisHealthChecker) (d d1 d2 : D) (req : ReportRequest) (resp : Resp) (fates qfates : list fate) (qreq : QueryRequest) :
  let h := mkHeathCheckRecord (LocalHost req) (CurTimeSec req) (RCount req) in
  SetKey compatible MaxRetry (hbPool r) d (InstanceId (rquery req)) (Serialize h compatible) fates = (d1, resp) ->
  Err resp = None ->
  InstanceId qreq = InstanceId (rquery req) ->
  stored d2 !! toRedisKey (InstanceId qreq) compatible = stored d1 !! toRedisKey (InstanceId qreq) compatible ->
  - 2 ^ 63 <= CurTimeSec req < 2 ^ 63 -> - 2 ^ 63 <= RCount req < 2 ^ 63 ->
  LocalHost req <> "" -> occurs Sep (LocalHost req) = false ->
  Report compatible MaxRetry r d req fates = (d1, None) /\
  exists d3 q, Query compatible r' d2 qreq qfates = (d3, q) /\ stored d3 = stored d2 /\
    ((exists e, q = Fail (PoolError e)) \/
     q = Okay (mkQueryResponse (LocalHost req +:+ "|" +:+ pretty (RCount req)) true (CurTimeSec req) (RCount req))).
Proof.
  intros h Hset Herr Hid Hkey Ht Hc Hne Hsep. split; [unfold Report; fold h; by rewrite Hset|].
  assert (stored d1 = effect (CmdSet (toRedisKey (InstanceId qreq) compatible) (Serialize h compatible)) (stored d)) as Hs.
  { unfold SetKey, guarded, checkRedisDead in Hset. destruct (redisDead (hbPool r)); [injection Hset as <- <-; done|].
    unfold handleTaskWithRetries in Hset. rewrite Hid. by apply (retry_loop_spec _ _ _ _ _ _ _ Hset). }
  rewrite Hs in Hkey. simpl in Hkey. rewrite lookup_insert_eq in Hkey.
  pose proof (Query_stored compatible r' d2 qreq qfates _ Hkey (Serialize_nonempty h compatible)) as Hq.
  destruct (Query compatible r' d2 qreq qfates) as [d3 q]. destruct Hq as [Hs3 Hq]. exists d3, q. do 2 (split; [done|]).
  destruct Hq as [?|Hq]; [by left|right]. rewrite Hq, Deserialize_Serialize, parse_plain_host by done. done.
Qed.

(** Checking through redis and checking in memory agree: whenever a check
    gets an answer from redis, the status it leaves the instance with is the
    one the in-memory verdict gives for the same last heartbeat and the same
    skip decision - except that an unhealthy instance whose last heartbeat lies in the
    future stays unhealthy. *)
Theorem redis_check_like_memory {D} `{RedisServer D} (compatible : bool) (r : RedisHealthChecker) (d d' : D) (now : Z)
    (req : CheckRequest) (fates : list fate) (resp : CheckResponse) :
  Check compatible r d now req fates = (d', Okay resp) -> 0 < ExpireDurationSec req ->
  exists q, Query compatible r d (cquery req) fates = (d', Okay q) /\
    let last := LastHeartbeatSec q in
    let healthy := QHealthy (cquery req) in
    LastHeartbeatTimeSec resp = last /\
    (new_status resp healthy =
       new_status (verdict (skipCheck r now (ExpireDurationSec req)) healthy (cur_time_sec req) last (ExpireDurationSec req)) healthy \/
     cur_time_sec req < last /\ healthy = false /\ new_status resp healthy = false).
Proof.
  intros (q & Hq & ->)%Check_Query Hexp. exists q. split; [done|]. cbn zeta. split; [by repeat case_match|].
  unfold verdict, expired, new_status. destruct (skipCheck _ _ _); [by left|].
  destruct (QHealthy (cquery req)); case_decide as H1; simpl.
  - left. rewrite bool_decide_false; [done|lia].
  - left. case_decide as H2; simpl.
    + rewrite bool_decide_true; [done|]. split; [|done].
      assert (cur_time_sec req <> LastHeartbeatSec q) as Hne; [|lia].
      intros He. rewrite He, Z.sub_diag, i64_small in H2 by lia. lia.
    + rewrite bool_decide_false; [done|]. intros [? ?]. lia.
  - by right.
  - left. case_decide as H2; simpl.
    + rewrite bool_decide_true; [done|]. split; [|done].
      assert (cur_time_sec req <> LastHeartbeatSec q) as Hne; [|lia].
      intros He. rewrite He, Z.sub_diag, i64_small in H2 by lia. lia.
    + rewrite bool_decide_false; [done|]. intros [? ?]. lia.
Qed.

(** A redis outage takes nobody down: while the probe finds redis dead
    every check fails without a verdict, and from the tick at which it finds
    redis alive again, checks leave every instance as it is for the instance's
    whole expire duration - enough for it to report again. *)
Theorem redis_outage_freezes_status {D} `{RedisServer D} (compatible : bool) (r : RedisHealthChecker) (d : D) (req : CheckRequest)
    (fates : list fate) (p : redisPool) (down up : nat -> bool) (t0 t now : Z) :
  redisDead p = false -> (2 <= length (filter (fun i => down i = false) (seq 0 3)))%nat ->
  (length (filter (fun i => up i = false) (seq 0 3)) < 2)%nat ->
  0 < t -> t <= Z.quot now 1000 < t + ExpireDurationSec req -> 0 <= now < 2 ^ 62 ->
  let dead := checkRedis p down t0 in
  let alive := checkRedis dead up t in
  let with_pool q := mkRedisHealthChecker (hbPool r) q (suspendTimeSec r) in
  Check compatible (with_pool dead) d now req fates = (d, Fail (PoolError RedisIsDead)) /\
  exists d' res, Check compatible (with_pool alive) d now req fates = (d', res) /\
    ((exists e, res = Fail e) \/ (exists resp, res = Okay resp /\ StayUnchanged resp = true)).
Proof.
  intros Hp Hdown Hup Ht Hnow Hb dead alive with_pool.
  assert (dead = mkRedisPool true 0) as Hdead.
  { unfold dead, checkRedis, errCountThreshold, maxCheckCount. rewrite decide_True by done. by rewrite Hp. }
  assert (alive = mkRedisPool false t) as Halive.
  { unfold alive, checkRedis, errCountThreshold, maxCheckCount. rewrite decide_False by lia. by rewrite Hdead. }
  split; [unfold Check, Query, Get, guarded, checkRedisDead; simpl; by rewrite Hdead|].
  assert (skipCheck (with_pool alive) now (ExpireDurationSec req) = true) as Hskip.
  { unfold skipCheck. destruct (bool_decide _) eqn:?; [done|]. apply bool_decide_eq_true. simpl. rewrite Halive. simpl.
    assert (Z.quot now 1000 <= 2 ^ 62).
    { rewrite Z.quot_div_nonneg by lia. apply Z.div_le_upper_bound; lia. }
    rewrite i64_small by lia. lia. }
  destruct (Check compatible (with_pool alive) d now req fates) as [d' res] eqn:Hc. exists d', res. split; [done|].
  destruct res as [resp|e]; [right|eauto]. exists resp. split; [done|].
  destruct (Check_Query _ _ _ _ _ _ _ _ Hc) as (q & _ & ->). by rewrite Hskip.
Qed.

(** ** Witnesses *)

Definition demo_record : HeathCheckRecord := mkHeathCheckRecord "10.0.0.1" 1700000000 7.
Definition demo_report : ReportRequest := mkReport (mkQuery "inst" "h" 80 true) "10.0.0.1" 1700000000 7.
Definition demo_check : CheckRequest := mkCheck (mkQuery "inst" "h" 80 true) 15 1700000020.
Definition live_pool : redisPool := mkRedisPool false 0.
Definition demo_checker : RedisHealthChecker := mkRedisHealthChecker live_pool live_pool 0.
Definition empty_redis : flaky := mkFlaky ∅ [].
Definition reported_redis : flaky := mkFlaky {["hb_inst" := RString (Serialize demo_record false)]} [].

Lemma heartbeat_value_roundtrip_witness :
  Deserialize (Serialize demo_record true) true = Some (mkHeathCheckRecord "10.0.0.1|7" 1700000000 7) /\
  Deserialize (Serialize (mkHeathCheckRecord "fe80::1" 1700000000 7) false) false = Some (mkHeathCheckRecord "fe80" 1700000000 0).
Proof.
  split.
  - apply (heartbeat_value_roundtrip demo_record true); simpl; [lia|lia|discriminate|reflexivity|reflexivity].
  - apply (heartbeat_value_roundtrip (mkHeathCheckRecord "fe80::1" 1700000000 7) false) with (b := ":1"); simpl;
      [lia|lia|discriminate|reflexivity|reflexivity|reflexivity].
Defined.

Lemma redis_report_then_query_witness :
  let req := demo_report in
  Report false 2 demo_checker empty_redis req [] = (reported_redis, None) /\
  exists d3 q, Query false demo_checker reported_redis (rquery req) [] = (d3, q) /\ stored d3 = stored reported_redis /\
    ((exists e, q = Fail (PoolError e)) \/
     q = Okay (mkQueryResponse (LocalHost req +:+ "|" +:+ pretty (RCount req)) true (CurTimeSec req) (RCount req))).
Proof.
  apply (redis_report_then_query false 2 demo_checker demo_checker empty_redis reported_redis reported_redis demo_report
    (mkResp "" None false false true) [] [] (rquery demo_report)); simpl; try reflexivity; try lia. discriminate.
Defined.

Lemma redis_check_like_memory_witness :
  exists q, Query false demo_checker reported_redis (cquery demo_check) [] = (reported_redis, Okay q) /\
    let last := LastHeartbeatSec q in
    1700000000 = last /\
    (false = new_status (verdict (skipCheck demo_checker 1700000020000 15) true 1700000020 last 15) true \/
     1700000020 < last /\ true = false /\ false = false).
Proof.
  apply (redis_check_like_memory false demo_checker reported_redis reported_redis 1700000020000 demo_check []
    (mkResponse false 1700000000 false true)); [vm_compute; reflexivity|simpl; lia].
Defined.

Lemma redis_outage_freezes_status_witness :
  let dead := checkRedis live_pool (fun i => bool_decide (i = 0%nat)) 1700000000 in
  let alive := checkRedis dead (fun _ => true) 1700000010 in
  let with_pool q := mkRedisHealthChecker live_pool q 0 in
  Check false (with_pool dead) empty_redis 1700000020000 demo_check [] = (empty_redis, Fail (PoolError RedisIsDead)) /\
  exists d' res, Check false (with_pool alive) empty_redis 1700000020000 demo_check [] = (d', res) /\
    ((exists e, res = Fail e) \/ (exists resp, res = Okay resp /\ StayUnchanged resp = true)).
Proof.
  apply (redis_outage_freezes_status false demo_checker empty_redis demo_check [] live_pool
    (fun i => bool_decide (i = 0%nat)) (fun _ => true) 1700000000 1700000010 1700000020000); vm_compute; try reflexivity;
    try (split; [discriminate|reflexivity]); repeat constructor.
Defined.
