(* ===== verification/HealthCache.v ===== *)
(** * The health checker's view of the service cache ([src/service/healthcheck/cache.go])

    [CacheProvider] listens to the callbacks of the service cache and keeps, in
    three sharded maps, the polaris servers themselves, the instances that
    want health checks and the reporting clients.  Each change is announced to
    the dispatcher as a [CacheEvent].

    The accessors of [src/common/model/instance.go] and the generated getters
    answer the zero value for a nil message, so that a nil [Proto] is the
    instance whose fields are all zero. *)

From S2P Require Import Prelude Hash ShardMap.
From Stdlib Require Import ZArith Lia.
From stdpp Require Import base tactics list gmap strings.

Open Scope Z_scope.

(** ** Data *)

Record HealthCheck := mkHealthCheck { hcType : Z; Ttl : Z }.

Record Instance := mkInstance {
  ID : string;
  Namespace : string;
  Service : string;
  ServiceID : string;
  VpcID : string;
  IHost : string;
  Port : Z;
  Healthy : bool;
  Isolate : bool;
  Revision : string;
  Metadata : gmap string string;
  EnableHealthCheck : bool;
  GetHealthCheck : option HealthCheck }.
#[export] Instance HealthCheck_eq_dec : EqDecision HealthCheck.
Proof. solve_decision. Defined.
#[export] Instance Instance_eq_dec : EqDecision Instance.
Proof. solve_decision. Defined.

Record Client := mkClient { CId : string; CHost : string }.

(** [model.MetaKeyPolarisService], [HealthCheck_HEARTBEAT]. *)
Definition MetaKeyPolarisService : string := "polaris_service".
Definition HEARTBEAT : Z := 1.

Record CacheEvent := mkCacheEvent {
  healthCheckInstancesChanged : bool;
  selfServiceInstancesChanged : bool;
  healthCheckClientChanged : bool }.
Definition instances_changed := mkCacheEvent true false false.
Definition self_changed := mkCacheEvent false true false.
Definition clients_changed := mkCacheEvent false false true.

Section cache.
  (** [C]: the health checkers of the server, by type. *)
  Context {C : Type} (checkers : gmap Z C).

Record InstanceWithChecker := mkInstanceWithChecker {
  instance : Instance;
  ichecker : option C;
  ihashValue : Z }.

Record ClientWithChecker := mkClientWithChecker {
  client : Client;
  cchecker : C;
  chashValue : Z }.

Inductive ItemWithChecker :=
| InstanceItem (i : InstanceWithChecker)
| ClientItem (c : ClientWithChecker).

Definition GetInstanceOf (it : ItemWithChecker) : option Instance :=
  match it with InstanceItem i => Some (instance i) | ClientItem _ => None end.
Definition GetClientOf (it : ItemWithChecker) : option Client :=
  match it with InstanceItem _ => None | ClientItem c => Some (client c) end.
Definition GetHashValue (it : ItemWithChecker) : Z :=
  match it with InstanceItem i => ihashValue i | ClientItem c => chashValue c end.

Definition newInstanceWithChecker (i : Instance) (checker : option C) : InstanceWithChecker :=
  mkInstanceWithChecker i checker (HashString (ID i)).
Definition newClientWithChecker (c : Client) (checker : C) : ClientWithChecker :=
  mkClientWithChecker c checker (HashString (CId c)).

Record CacheProvider := mkCacheProvider {
  selfService : string;
  selfServiceInstances : shardMap ItemWithChecker;
  healthCheckInstances : shardMap ItemWithChecker;
  healthCheckClients : shardMap ItemWithChecker }.

Definition newCacheProvider (selfService : string) (DefaultShardSize : Z) : CacheProvider :=
  mkCacheProvider selfService (NewShardMap 1) (NewShardMap DefaultShardSize) (NewShardMap DefaultShardSize).

Definition set_self (c : CacheProvider) m := mkCacheProvider (selfService c) m (healthCheckInstances c) (healthCheckClients c).
Definition set_instances (c : CacheProvider) m := mkCacheProvider (selfService c) (selfServiceInstances c) m (healthCheckClients c).
Definition set_clients (c : CacheProvider) m := mkCacheProvider (selfService c) (selfServiceInstances c) (healthCheckInstances c) m.

(** ** Operations *)

Definition isSelfServiceInstance (c : CacheProvider) (i : Instance) : bool :=
  match Metadata i !! MetaKeyPolarisService with
  | Some svcName => bool_decide (svcName = selfService c)
  | None => false
  end.

Definition compareAndStoreServiceInstance (iw : InstanceWithChecker) (values : shardMap ItemWithChecker)
    : outcome (shardMap ItemWithChecker * bool) :=
  let instanceId := ID (instance iw) in
  '(values', value, isNew) ← PutIfAbsent values instanceId (InstanceItem iw);
  if isNew : bool then Ret (values', true)
  else
    match value with
    | Some (InstanceItem old) =>
        if decide (Revision (instance old) = Revision (instance iw)) then Ret (values', false)
        else values'' ← Store values' instanceId (InstanceItem iw); Ret (values'', true)
    | _ => Panics ExplicitPanic
    end.

Definition storeServiceInstance (iw : InstanceWithChecker) (values : shardMap ItemWithChecker) : outcome (shardMap ItemWithChecker) :=
  Store values (ID (instance iw)) (InstanceItem iw).

Definition deleteServiceInstance (i : Instance) (values : shardMap ItemWithChecker) : outcome (shardMap ItemWithChecker) :=
  fst <$> DeleteIfExist values (ID i).

Definition compareAndStoreClient (cw : ClientWithChecker) (values : shardMap ItemWithChecker)
    : outcome (shardMap ItemWithChecker * bool) :=
  '(values', _, isNew) ← PutIfAbsent values (CId (client cw)) (ClientItem cw);
  Ret (values', isNew).

Definition storeClient (cw : ClientWithChecker) (values : shardMap ItemWithChecker) : outcome (shardMap ItemWithChecker) :=
  Store values (CId (client cw)) (ClientItem cw).

Definition deleteClient (cl : Client) (values : shardMap ItemWithChecker) : outcome (shardMap ItemWithChecker) :=
  fst <$> DeleteIfExist values (CId cl).

Definition getHealthChecker (type : Z) : option C := checkers !! type.

(** [None] stands for [false, nil]. *)
Definition isHealthCheckEnable (i : Instance) : option C :=
  if EnableHealthCheck i then
    match GetHealthCheck i with Some hc => getHealthChecker (hcType hc) | None => None end
  else None.

(** The values of the callbacks. *)
Inductive cached := CachedInstance (i : Instance) | CachedClient (c : Client).

Definition OnCreated (c : CacheProvider) (value : cached) : outcome (CacheProvider * list CacheEvent) :=
  match value with
  | CachedInstance actual =>
      if isSelfServiceInstance c actual then
        m ← storeServiceInstance (newInstanceWithChecker actual None) (selfServiceInstances c);
        Ret (set_self c m, [self_changed])
      else
        match isHealthCheckEnable actual with
        | None => Ret (c, [])
        | Some checker =>
            m ← storeServiceInstance (newInstanceWithChecker actual (Some checker)) (healthCheckInstances c);
            Ret (set_instances c m, [instances_changed])
        end
  | CachedClient actual =>
      match getHealthChecker HEARTBEAT with
      | None => Ret (c, [])
      | Some checker =>
          m ← storeClient (newClientWithChecker actual checker) (healthCheckClients c);
          Ret (set_clients c m, [clients_changed])
      end
  end.

Definition OnUpdated (c : CacheProvider) (value : cached) : outcome (CacheProvider * list CacheEvent) :=
  match value with
  | CachedInstance actual =>
      if isSelfServiceInstance c actual then
        '(m, changed) ← compareAndStoreServiceInstance (newInstanceWithChecker actual None) (selfServiceInstances c);
        Ret (set_self c m, if changed : bool then [self_changed] else [])
      else
        let instanceId := ID actual in
        value ← Load (healthCheckInstances c) instanceId;
        match isHealthCheckEnable actual with
        | None =>
            match value with
            | None => Ret (c, [])
            | Some _ =>
                '(m, ok) ← DeleteIfExist (healthCheckInstances c) instanceId;
                Ret (set_instances c m, if ok : bool then [instances_changed] else [])
            end
        | Some checker =>
            noChanged ← match value with
                        | None => Ret false
                        | Some item =>
                            match GetInstanceOf item with
                            | Some healthCheckInstance => Ret (bool_decide (Revision healthCheckInstance = Revision actual))
                            | None => Panics NilDereference
                            end
                        end;
            if noChanged : bool then Ret (c, [])
            else
              m ← Store (healthCheckInstances c) instanceId (InstanceItem (newInstanceWithChecker actual (Some checker)));
              Ret (set_instances c m, [instances_changed])
        end
  | CachedClient actual =>
      match getHealthChecker HEARTBEAT with
      | None => Ret (c, [])
      | Some checker =>
          '(m, isNew) ← compareAndStoreClient (newClientWithChecker actual checker) (healthCheckClients c);
          Ret (set_clients c m, if isNew : bool then [clients_changed] else [])
      end
  end.

Definition OnDeleted (c : CacheProvider) (value : cached) : outcome (CacheProvider * list CacheEvent) :=
  match value with
  | CachedInstance actual =>
      if isSelfServiceInstance c actual then
        m ← deleteServiceInstance actual (selfServiceInstances c);
        Ret (set_self c m, [self_changed])
      else if negb (EnableHealthCheck actual) || bool_decide (GetHealthCheck actual = None) then Ret (c, [])
      else
        m ← deleteServiceInstance actual (healthCheckInstances c);
        Ret (set_instances c m, [instances_changed])
  | CachedClient actual =>
      m ← deleteClient actual (healthCheckClients c);
      Ret (set_clients c m, [clients_changed])
  end.

(** What the [Range] functions call their argument with. *)
Definition RangeHealthCheckInstances (c : CacheProvider) : list (string * ItemWithChecker) := Range (healthCheckInstances c).
Definition RangeHealthCheckClients (c : CacheProvider) : list (string * ItemWithChecker) := Range (healthCheckClients c).
Definition RangeSelfServiceInstances (c : CacheProvider) : list (option Instance) :=
  (fun kv => GetInstanceOf kv.2) <$> Range (selfServiceInstances c).

Definition GetSelfServiceInstance (c : CacheProvider) (id : string) : outcome (option Instance) :=
  v ← Load (selfServiceInstances c) id; Ret (v ≫= GetInstanceOf).
Definition GetInstance (c : CacheProvider) (id : string) : outcome (option Instance) :=
  v ← Load (healthCheckInstances c) id; Ret (v ≫= GetInstanceOf).
Definition GetClient (c : CacheProvider) (id : string) : outcome (option Client) :=
  v ← Load (healthCheckClients c) id; Ret (v ≫= GetClientOf).

(** A callback, and a sequence of them with the events they sent. *)
Inductive callback := Created (v : cached) | Updated (v : cached) | Deleted (v : cached).

Definition call (c : CacheProvider) (cb : callback) : outcome (CacheProvider * list CacheEvent) :=
  match cb with Created v => OnCreated c v | Updated v => OnUpdated c v | Deleted v => OnDeleted c v end.

Fixpoint calls (c : CacheProvider) (cbs : list callback) : outcome (CacheProvider * list CacheEvent) :=
  match cbs with
  | [] => Ret (c, [])
  | cb :: cbs =>
      '(c1, e1) ← call c cb;
      '(c2, e2) ← calls c1 cbs;
      Ret (c2, e1 ++ e2)
  end.

End cache.
Arguments InstanceWithChecker : clear implicits.
Arguments ClientWithChecker : clear implicits.
Arguments ItemWithChecker : clear implicits.
Arguments CacheProvider : clear implicits.

(** ** Specification *)

Section spec.
  Context {C : Type} (checkers : gmap Z C).
  Implicit Types (c : CacheProvider C).

(** The instances, servers and clients a provider knows. *)
Definition instances_of (m : shardMap (ItemWithChecker C)) : gmap string Instance := omap GetInstanceOf (contents m).
Definition clients_of (m : shardMap (ItemWithChecker C)) : gmap string Client := omap GetClientOf (contents m).

(** What the stored items look like: under their own id, with the id's hash
    and the checker of their type. *)
Definition instance_item_ok (key : string) (it : ItemWithChecker C) : Prop :=
  match it with
  | InstanceItem iw => key = ID (instance iw) /\ ihashValue iw = HashString (ID (instance iw)) /\
      ichecker iw = isHealthCheckEnable checkers (instance iw)
  | ClientItem _ => False
  end.
Definition self_item_ok (key : string) (it : ItemWithChecker C) : Prop :=
  match it with
  | InstanceItem iw => key = ID (instance iw)
  | ClientItem _ => False
  end.
Definition client_item_ok (key : string) (it : ItemWithChecker C) : Prop :=
  match it with
  | InstanceItem _ => False
  | ClientItem cw => key = CId (client cw) /\ chashValue cw = HashString (CId (client cw)) /\
      checkers !! HEARTBEAT = Some (cchecker cw)
  end.

Record cache_ok c : Prop := {
  co_self : inv (selfServiceInstances c);
  co_instances : inv (healthCheckInstances c);
  co_clients : inv (healthCheckClients c);
  co_self_items : map_Forall self_item_ok (contents (selfServiceInstances c));
  co_instance_items : map_Forall instance_item_ok (contents (healthCheckInstances c));
  co_client_items : map_Forall client_item_ok (contents (healthCheckClients c)) }.

(** The three tables a provider stands for, and what a callback does to them. *)
Record tables := mkTables {
  t_self : gmap string Instance;
  t_instances : gmap string Instance;
  t_clients : gmap string Client }.

Definition tables_of c : tables :=
  mkTables (instances_of (selfServiceInstances c)) (instances_of (healthCheckInstances c)) (clients_of (healthCheckClients c)).

(** A new revision replaces the old one; the same revision changes nothing. *)
Definition upsert (i : Instance) (t : gmap string Instance) : gmap string Instance :=
  match t !! ID i with
  | Some j => if decide (Revision j = Revision i) then t else <[ID i := i]> t
  | None => <[ID i := i]> t
  end.

(** [DeleteIfExist] ignores the empty id. *)
Definition remove {A} (id : string) (t : gmap string A) : gmap string A := if decide (id = "") then t else delete id t.

Definition spec_call (self : string) (t : tables) (cb : callback) : tables :=
  let is_self i := bool_decide (Metadata i !! MetaKeyPolarisService = Some self) in
  let enabled i := bool_decide (is_Some (isHealthCheckEnable checkers i)) in
  match cb with
  | Created (CachedInstance i) =>
      if is_self i then mkTables (<[ID i := i]> (t_self t)) (t_instances t) (t_clients t)
      else if enabled i then mkTables (t_self t) (<[ID i := i]> (t_instances t)) (t_clients t) else t
  | Updated (CachedInstance i) =>
      if is_self i then mkTables (upsert i (t_self t)) (t_instances t) (t_clients t)
      else if enabled i then mkTables (t_self t) (upsert i (t_instances t)) (t_clients t)
      else mkTables (t_self t) (remove (ID i) (t_instances t)) (t_clients t)
  | Deleted (CachedInstance i) =>
      if is_self i then mkTables (remove (ID i) (t_self t)) (t_instances t) (t_clients t)
      else if EnableHealthCheck i && bool_decide (GetHealthCheck i <> None)
      then mkTables (t_self t) (remove (ID i) (t_instances t)) (t_clients t) else t
  | Created (CachedClient cl) =>
      if bool_decide (is_Some (checkers !! HEARTBEAT)) then mkTables (t_self t) (t_instances t) (<[CId cl := cl]> (t_clients t)) else t
  | Updated (CachedClient cl) =>
      if bool_decide (is_Some (checkers !! HEARTBEAT) /\ t_clients t !! CId cl = None)
      then mkTables (t_self t) (t_instances t) (<[CId cl := cl]> (t_clients t)) else t
  | Deleted (CachedClient cl) => mkTables (t_self t) (t_instances t) (remove (CId cl) (t_clients t))
  end.

(** ** Lemmas *)

Lemma is_self_eq c i : isSelfServiceInstance c i = bool_decide (Metadata i !! MetaKeyPolarisService = Some (selfService c)).
Proof.
  unfold isSelfServiceInstance. destruct (Metadata i !! MetaKeyPolarisService); [|by rewrite bool_decide_false].
  apply bool_decide_ext. naive_solver.
Qed.

Lemma instances_of_insert m m' k iw :
  contents m' = <[k := InstanceItem iw]> (contents m) -> instances_of m' = <[k := instance iw]> (instances_of m).
Proof. intros He. unfold instances_of. rewrite He. by apply omap_insert_Some. Qed.

Lemma clients_of_insert m m' k cw :
  contents m' = <[k := ClientItem cw]> (contents m) -> clients_of m' = <[k := client cw]> (clients_of m).
Proof. intros He. unfold clients_of. rewrite He. by apply omap_insert_Some. Qed.

Lemma instances_of_remove m m' k :
  contents m' = (if decide (k = "") then contents m else delete k (contents m)) -> instances_of m' = remove k (instances_of m).
Proof. intros He. unfold instances_of, remove. rewrite He. case_decide; [done|apply omap_delete]. Qed.

Lemma clients_of_remove m m' k :
  contents m' = (if decide (k = "") then contents m else delete k (contents m)) -> clients_of m' = remove k (clients_of m).
Proof. intros He. unfold clients_of, remove. rewrite He. case_decide; [done|apply omap_delete]. Qed.

Lemma Forall_remove (P : string -> ItemWithChecker C -> Prop) (m : gmap string (ItemWithChecker C)) k :
  map_Forall P m -> map_Forall P (if decide (k = "") then m else delete k m).
Proof. intros HP. case_decide; [done|by apply map_Forall_delete]. Qed.

(** The table entry of a stored item. *)
Lemma instances_of_lookup (P : string -> ItemWithChecker C -> Prop) (m : shardMap (ItemWithChecker C)) k :
  map_Forall P (contents m) -> (forall k it, P k it -> exists iw, it = InstanceItem iw) ->
  contents m !! k = InstanceItem <$> (contents m !! k ≫= fun it => match it with InstanceItem iw => Some iw | _ => None end) /\
  instances_of m !! k = instance <$> (contents m !! k ≫= fun it => match it with InstanceItem iw => Some iw | _ => None end).
Proof.
  intros HP Hi. unfold instances_of. rewrite lookup_omap. destruct (contents m !! k) as [it|] eqn:Hk; [|done].
  destruct (Hi k it (HP k it Hk)) as [iw ->]. done.
Qed.

Lemma compareAndStore_spec (P : string -> ItemWithChecker C -> Prop) (m : shardMap (ItemWithChecker C)) iw :
  inv m -> map_Forall P (contents m) -> (forall k it, P k it -> exists iw, it = InstanceItem iw) ->
  P (ID (instance iw)) (InstanceItem iw) ->
  exists m' b, compareAndStoreServiceInstance iw m = Ret (m', b) /\ inv m' /\ map_Forall P (contents m') /\
    instances_of m' = upsert (instance iw) (instances_of m) /\ (b = false -> m' = m).
Proof.
  intros Hi HP HI Hiw. unfold compareAndStoreServiceInstance.
  destruct (instances_of_lookup P m (ID (instance iw)) HP HI) as [Hc Ht].
  destruct (getShard_home m (ID (instance iw)) Hi) as (s & Hs & Hg & Hsk).
  destruct (PutIfAbsent_spec m (ID (instance iw)) (InstanceItem iw) Hi) as (m1 & He & Hc1 & Hi1 & _). rewrite He. simpl.
  destruct (contents m !! ID (instance iw)) as [it|] eqn:Hk; simpl.
  - destruct (HI _ _ (HP _ _ Hk)) as [old ->]. simpl in *. unfold upsert. rewrite Ht.
    assert (m1 = m) as ->. { unfold PutIfAbsent in He. rewrite Hg in He. simpl in He. rewrite Hsk in He. congruence. }
    destruct (decide (Revision (instance old) = Revision (instance iw))); [by do 2 eexists|].
    destruct (Store_spec m (ID (instance iw)) (InstanceItem iw) Hi) as (m2 & -> & Hc2 & Hi2 & _). simpl.
    do 2 eexists. split; [done|]. split; [done|]. split; [rewrite Hc2; by apply map_Forall_insert_2|].
    split; [by apply instances_of_insert|done].
  - do 2 eexists. split; [done|]. split; [done|]. split; [rewrite Hc1; by apply map_Forall_insert_2|].
    unfold upsert. rewrite Ht. split; [by apply instances_of_insert|done].
Qed.

Lemma DeleteIfExist_false (m m' : shardMap (ItemWithChecker C)) k : DeleteIfExist m k = Ret (m', false) -> m' = m.
Proof.
  unfold DeleteIfExist. case_decide; [by intros [= <-]|]. intros ([i s] & _ & Hr)%bind_Ret.
  destruct (s !! k); [|by injection Hr]. by apply bind_Ret in Hr as (? & _ & [=]).
Qed.

Lemma PutIfAbsent_false (m m' : shardMap (ItemWithChecker C)) k v o : PutIfAbsent m k v = Ret (m', o, false) -> m' = m.
Proof.
  unfold PutIfAbsent. intros ([i s] & _ & Hr)%bind_Ret.
  destruct (s !! k); [by injection Hr|]. by apply bind_Ret in Hr as (? & _ & [=]).
Qed.

(** A table that changed was announced. *)
Definition announced c c' (es : list CacheEvent) : Prop :=
  (self_changed ∈ es \/ selfServiceInstances c' = selfServiceInstances c) /\
  (instances_changed ∈ es \/ healthCheckInstances c' = healthCheckInstances c) /\
  (clients_changed ∈ es \/ healthCheckClients c' = healthCheckClients c).

(** What every callback guarantees. *)
Definition step_ok c (cb : callback) (r : outcome (CacheProvider C * list CacheEvent)) : Prop :=
  exists c' es, r = Ret (c', es) /\ cache_ok c' /\ selfService c' = selfService c /\
    tables_of c' = spec_call (selfService c) (tables_of c) cb /\ announced c c' es.

Lemma step_self c cb m es :
  cache_ok c -> inv m -> map_Forall self_item_ok (contents m) ->
  mkTables (instances_of m) (t_instances (tables_of c)) (t_clients (tables_of c)) = spec_call (selfService c) (tables_of c) cb ->
  (es = [] -> m = selfServiceInstances c) -> (es = [] \/ es = [self_changed]) ->
  step_ok c cb (Ret (set_self c m, es)).
Proof.
  intros [] Hm HF Ht He Hes. do 2 eexists. split; [done|]. split; [by split|]. split; [done|]. split; [done|].
  split; [|split]; simpl; auto. destruct Hes as [->| ->]; [auto|set_solver].
Qed.

Lemma step_instances c cb m es :
  cache_ok c -> inv m -> map_Forall instance_item_ok (contents m) ->
  mkTables (t_self (tables_of c)) (instances_of m) (t_clients (tables_of c)) = spec_call (selfService c) (tables_of c) cb ->
  (es = [] -> m = healthCheckInstances c) -> (es = [] \/ es = [instances_changed]) ->
  step_ok c cb (Ret (set_instances c m, es)).
Proof.
  intros [] Hm HF Ht He Hes. do 2 eexists. split; [done|]. split; [by split|]. split; [done|]. split; [done|].
  split; [|split]; simpl; auto. destruct Hes as [->| ->]; [auto|set_solver].
Qed.

Lemma step_clients c cb m es :
  cache_ok c -> inv m -> map_Forall client_item_ok (contents m) ->
  mkTables (t_self (tables_of c)) (t_instances (tables_of c)) (clients_of m) = spec_call (selfService c) (tables_of c) cb ->
  (es = [] -> m = healthCheckClients c) -> (es = [] \/ es = [clients_changed]) ->
  step_ok c cb (Ret (set_clients c m, es)).
Proof.
  intros [] Hm HF Ht He Hes. do 2 eexists. split; [done|]. split; [by split|]. split; [done|]. split; [done|].
  split; [|split]; simpl; auto. destruct Hes as [->| ->]; [auto|set_solver].
Qed.

Lemma step_none c cb :
  cache_ok c -> tables_of c = spec_call (selfService c) (tables_of c) cb -> step_ok c cb (Ret (c, [])).
Proof. intros Hc Ht. do 2 eexists. split; [done|]. split; [done|]. split; [done|]. split; [done|]. split; [|split]; auto. Qed.

Lemma item_ok_new i checker : isHealthCheckEnable checkers i = Some checker ->
  instance_item_ok (ID i) (InstanceItem (newInstanceWithChecker i (Some checker))).
Proof. intros He. by split. Qed.

Lemma client_ok_new cl checker : checkers !! HEARTBEAT = Some checker ->
  client_item_ok (CId cl) (ClientItem (newClientWithChecker cl checker)).
Proof. intros He. by split. Qed.

Lemma OnCreated_ok c v : cache_ok c -> step_ok c (Created v) (OnCreated checkers c v).
Proof.
  intros Hc. destruct v as [i|cl]; unfold OnCreated.
  - destruct (isSelfServiceInstance c i) eqn:Hs; rewrite is_self_eq in Hs.
    + destruct (Store_spec (selfServiceInstances c) (ID i) (InstanceItem (newInstanceWithChecker i None)) (co_self _ Hc)) as (m & Hst & Hm & Hi & _).
      rewrite (Hst : storeServiceInstance (newInstanceWithChecker i None) _ = _). cbn [mbind outcome_bind].
      apply step_self; [done|done| | |done|by right].
      * rewrite Hm. apply map_Forall_insert_2; [done|apply Hc].
      * simpl. rewrite Hs. f_equal. by apply (instances_of_insert _ _ _ _ Hm).
    + destruct (isHealthCheckEnable checkers i) as [checker|] eqn:He.
      * destruct (Store_spec (healthCheckInstances c) (ID i) (InstanceItem (newInstanceWithChecker i (Some checker))) (co_instances _ Hc)) as (m & Hst & Hm & Hi & _).
        rewrite (Hst : storeServiceInstance (newInstanceWithChecker i (Some checker)) _ = _). cbn [mbind outcome_bind].
        apply step_instances; [done|done| | |done|by right].
        -- rewrite Hm. apply map_Forall_insert_2; [by apply item_ok_new|apply Hc].
        -- simpl. rewrite Hs, He, bool_decide_true by done. f_equal. by apply (instances_of_insert _ _ _ _ Hm).
      * apply step_none; [done|]. simpl. by rewrite Hs, He, bool_decide_false by (by intros [? ?]).
  - unfold getHealthChecker. destruct (checkers !! HEARTBEAT) as [checker|] eqn:He.
    + destruct (Store_spec (healthCheckClients c) (CId cl) (ClientItem (newClientWithChecker cl checker)) (co_clients _ Hc)) as (m & Hst & Hm & Hi & _).
      rewrite (Hst : storeClient (newClientWithChecker cl checker) _ = _). cbn [mbind outcome_bind].
      apply step_clients; [done|done| | |done|by right].
      * rewrite Hm. apply map_Forall_insert_2; [by apply client_ok_new|apply Hc].
      * simpl. rewrite He, bool_decide_true by done. f_equal. by apply (clients_of_insert _ _ _ _ Hm).
    + apply step_none; [done|]. simpl. by rewrite He, bool_decide_false by (by intros [? ?]).
Qed.

Lemma instance_items_instances k it : instance_item_ok k it -> exists iw : InstanceWithChecker C, it = InstanceItem iw.
Proof. destruct it; [eauto|done]. Qed.
Lemma self_items_instances k it : self_item_ok k it -> exists iw : InstanceWithChecker C, it = InstanceItem iw.
Proof. destruct it; [eauto|done]. Qed.

Lemma OnUpdated_instance_ok c i : cache_ok c -> step_ok c (Updated (CachedInstance i)) (OnUpdated checkers c (CachedInstance i)).
Proof.
  intros Hc. unfold OnUpdated. destruct (isSelfServiceInstance c i) eqn:Hs; rewrite is_self_eq in Hs.
  - destruct (compareAndStore_spec self_item_ok (selfServiceInstances c) (newInstanceWithChecker i None)) as (m & b & -> & Hi & HF & Ht & Hb);
      [apply Hc|apply Hc|apply self_items_instances|done|].
    apply step_self; [done|done|done| | |by destruct b; auto].
    + simpl. rewrite Hs. f_equal. exact Ht.
    + destruct b; [done|intros _; by apply Hb].
  - rewrite Load_spec by apply Hc. cbn [mbind outcome_bind].
    destruct (instances_of_lookup instance_item_ok (healthCheckInstances c) (ID i) (co_instance_items _ Hc) instance_items_instances) as [Hl Ht].
    destruct (isHealthCheckEnable checkers i) as [checker|] eqn:He.
    + pose proof (Store_spec (healthCheckInstances c) (ID i) (InstanceItem (newInstanceWithChecker i (Some checker))) (co_instances _ Hc)) as (m & Hst & Hm & Hi & _).
      assert (spec_call (selfService c) (tables_of c) (Updated (CachedInstance i)) =
        mkTables (t_self (tables_of c)) (upsert i (t_instances (tables_of c))) (t_clients (tables_of c))) as Hspec.
      { simpl. by rewrite Hs, He, bool_decide_true by done. }
      destruct (contents (healthCheckInstances c) !! ID i) as [it|] eqn:Hk; simpl in Hl.
      * destruct it as [old|]; [|discriminate Hl]. simpl in Ht. cbn [GetInstanceOf mbind outcome_bind].
        destruct (decide (Revision (instance old) = Revision i)) as [Hrev|Hrev];
          [rewrite bool_decide_true by done|rewrite bool_decide_false by done].
        -- apply step_none; [done|]. rewrite Hspec. unfold upsert, tables_of. simpl. by rewrite Ht, decide_True.
        -- rewrite Hst. apply step_instances; [done|done| | |done|by right].
           ++ rewrite Hm. apply map_Forall_insert_2; [by apply item_ok_new|apply Hc].
           ++ rewrite Hspec. unfold upsert, tables_of. simpl. rewrite Ht, decide_False by done. f_equal.
              by apply (instances_of_insert _ _ _ _ Hm).
      * cbn [mbind outcome_bind]. rewrite Hst. apply step_instances; [done|done| | |done|by right].
        -- rewrite Hm. apply map_Forall_insert_2; [by apply item_ok_new|apply Hc].
        -- rewrite Hspec. unfold upsert, tables_of. simpl in *. rewrite Ht. f_equal. by apply (instances_of_insert _ _ _ _ Hm).
    + assert (spec_call (selfService c) (tables_of c) (Updated (CachedInstance i)) =
        mkTables (t_self (tables_of c)) (remove (ID i) (t_instances (tables_of c))) (t_clients (tables_of c))) as Hspec.
      { simpl. by rewrite Hs, He, bool_decide_false by (by intros [? ?]). }
      destruct (contents (healthCheckInstances c) !! ID i) as [it|] eqn:Hk.
      * destruct (DeleteIfExist_spec (healthCheckInstances c) (ID i) (co_instances _ Hc)) as (m & Hd & Hm & Hi & _). rewrite Hd. simpl.
        apply step_instances; [done|done| | | |by case_bool_decide; auto].
        -- rewrite Hm. apply Forall_remove, Hc.
        -- rewrite Hspec. f_equal. by apply instances_of_remove.
        -- case_bool_decide; [done|]. intros _. by eapply DeleteIfExist_false.
      * apply step_none; [done|]. rewrite Hspec. clear Hspec. unfold remove, tables_of. simpl in *. destruct (decide (ID i = "")); [done|].
        f_equal. symmetry. by apply delete_id.
Qed.

Lemma OnUpdated_ok c v : cache_ok c -> step_ok c (Updated v) (OnUpdated checkers c v).
Proof.
  intros Hc. destruct v as [i|cl]; [by apply OnUpdated_instance_ok|]. unfold OnUpdated, getHealthChecker, compareAndStoreClient.
  destruct (checkers !! HEARTBEAT) as [checker|] eqn:He.
  - destruct (PutIfAbsent_spec (healthCheckClients c) (CId cl) (ClientItem (newClientWithChecker cl checker)) (co_clients _ Hc)) as (m & Hp & Hm & Hi & _).
    cbn [newClientWithChecker client]. rewrite Hp. cbn [mbind outcome_bind].
    assert (t_clients (tables_of c) !! CId cl = contents (healthCheckClients c) !! CId cl ≫= GetClientOf) as Ht.
    { simpl. unfold clients_of. by rewrite lookup_omap. }
    destruct (contents (healthCheckClients c) !! CId cl) as [it|] eqn:Hk.
    + assert (exists x, it = ClientItem x) as [x ->].
      { pose proof (co_client_items _ Hc _ _ Hk) as Hok. destruct it; [done|eauto]. }
      rewrite bool_decide_false in * by done. apply PutIfAbsent_false in Hp as ->.
      apply step_clients; [done|done|apply Hc| |done|by left].
      simpl in *. rewrite He, Ht, bool_decide_false; [done|]. intros [_ [=]].
    + rewrite bool_decide_true by done. apply step_clients; [done|done| | |done|by right].
      * rewrite Hm. apply map_Forall_insert_2; [by apply client_ok_new|apply Hc].
      * simpl in *. rewrite He, Ht, bool_decide_true by done. f_equal. by apply (clients_of_insert _ _ _ _ Hm).
  - apply step_none; [done|]. simpl. rewrite He, bool_decide_false; [done|]. by intros [[? [=]] _].
Qed.

Lemma OnDeleted_ok c v : cache_ok c -> step_ok c (Deleted v) (OnDeleted c v).
Proof.
  intros Hc. destruct v as [i|cl]; unfold OnDeleted.
  - destruct (isSelfServiceInstance c i) eqn:Hs; rewrite is_self_eq in Hs.
    + unfold deleteServiceInstance.
      destruct (DeleteIfExist_spec (selfServiceInstances c) (ID i) (co_self _ Hc)) as (m & -> & Hm & Hi & _). simpl.
      apply step_self; [done|done| | |done|by right].
      * rewrite Hm. apply Forall_remove, Hc.
      * simpl. rewrite Hs. f_equal. by apply instances_of_remove.
    + destruct (negb (EnableHealthCheck i) || bool_decide (GetHealthCheck i = None)) eqn:Hb.
      * apply step_none; [done|]. simpl. rewrite Hs. destruct (EnableHealthCheck i); [|done]. simpl in *.
        apply bool_decide_eq_true in Hb. by rewrite bool_decide_false by auto.
      * unfold deleteServiceInstance.
        destruct (DeleteIfExist_spec (healthCheckInstances c) (ID i) (co_instances _ Hc)) as (m & -> & Hm & Hi & _). simpl.
        apply step_instances; [done|done| | |done|by right].
        -- rewrite Hm. apply Forall_remove, Hc.
        -- simpl. rewrite Hs. destruct (EnableHealthCheck i); [|done]. simpl in *. apply bool_decide_eq_false in Hb.
           rewrite bool_decide_true by done. f_equal. by apply instances_of_remove.
  - unfold deleteClient. destruct (DeleteIfExist_spec (healthCheckClients c) (CId cl) (co_clients _ Hc)) as (m & -> & Hm & Hi & _). simpl.
    apply step_clients; [done|done| | |done|by right].
    + rewrite Hm. apply Forall_remove, Hc.
    + simpl. f_equal. by apply clients_of_remove.
Qed.

Lemma call_ok c cb : cache_ok c -> step_ok c cb (call checkers c cb).
Proof. intros Hc. destruct cb; [by apply OnCreated_ok|by apply OnUpdated_ok|by apply OnDeleted_ok]. Qed.

Lemma calls_ok c cbs :
  cache_ok c ->
  exists c' es, calls checkers c cbs = Ret (c', es) /\ cache_ok c' /\ selfService c' = selfService c /\
    tables_of c' = foldl (spec_call (selfService c)) (tables_of c) cbs /\ announced c c' es.
Proof.
  revert c. induction cbs as [|cb cbs IH]; intros c Hc; simpl.
  { do 2 eexists. split; [done|]. split; [done|]. split; [done|]. split; [done|]. split; [|split]; auto. }
  destruct (call_ok c cb Hc) as (c1 & e1 & -> & Hc1 & Hs1 & Ht1 & Ha1).
  destruct (IH c1 Hc1) as (c2 & e2 & He2 & Hc2 & Hs2 & Ht2 & Ha2). simpl. rewrite He2. simpl.
  do 2 eexists. split; [done|]. split; [done|]. split; [congruence|]. split; [by rewrite Ht2, Hs1, Ht1|].
  destruct Ha1 as (A1 & B1 & D1), Ha2 as (A2 & B2 & D2). unfold announced. setoid_rewrite elem_of_app.
  split_and!; [destruct A1 as [?|<-], A2|destruct B1 as [?|<-], B2|destruct D1 as [?|<-], D2]; auto.
Qed.

Lemma newCacheProvider_ok (self : string) (shards : Z) :
  0 < shards ->
  cache_ok (newCacheProvider self shards) /\ tables_of (newCacheProvider (C := C) self shards) = mkTables ∅ ∅ ∅.
Proof.
  intros Hs. destruct (NewShardMap_inv (V := ItemWithChecker C) 1) as [H1 E1]; [lia|].
  destruct (NewShardMap_inv (V := ItemWithChecker C) shards Hs) as [H2 E2]. split.
  - split; simpl; try done; rewrite ?E1, ?E2; apply map_Forall_empty.
  - unfold tables_of, instances_of, clients_of. simpl. by rewrite E1, E2, !omap_empty.
Qed.

(** The lookups answer from the tables. *)
Lemma lookups_spec c id :
  cache_ok c ->
  GetSelfServiceInstance c id = Ret (t_self (tables_of c) !! id) /\
  GetInstance c id = Ret (t_instances (tables_of c) !! id) /\
  GetClient c id = Ret (t_clients (tables_of c) !! id).
Proof.
  intros Hc. unfold GetSelfServiceInstance, GetInstance, GetClient. rewrite !Load_spec by apply Hc.
  cbn [mbind outcome_bind tables_of t_self t_instances t_clients]. unfold instances_of, clients_of. by rewrite !lookup_omap.
Qed.

End spec.

(** ** Properties *)

(** The provider mirrors the cache: after any sequence of created, updated
    and deleted callbacks, none of which panics, its three maps hold exactly
    the servers, the health-checked instances and the clients that replaying
    the callbacks on plain tables gives - an update with an unchanged revision
    is ignored, one that disables health checks removes the instance - and the
    lookups answer from those tables. *)
Theorem cache_mirrors_callbacks {C} (checkers : gmap Z C) (self : string) (shards : Z) (cbs : list callback) (id : string) :
  0 < shards ->
  exists c es, calls checkers (newCacheProvider self shards) cbs = Ret (c, es) /\
    let t := foldl (spec_call checkers self) (mkTables ∅ ∅ ∅) cbs in
    GetSelfServiceInstance c id = Ret (t_self t !! id) /\
    GetInstance c id = Ret (t_instances t !! id) /\
    GetClient c id = Ret (t_clients t !! id).
Proof.
  intros Hs. destruct (newCacheProvider_ok checkers self shards Hs) as [Hn Ht0].
  destruct (calls_ok checkers (newCacheProvider self shards) cbs Hn) as (c & es & He & Hc & _ & Ht & _).
  exists c, es. split; [exact He|]. rewrite Ht0 in Ht. simpl selfService in Ht. cbv zeta. rewrite <- Ht.
  by apply (lookups_spec checkers).
Qed.

(** Nothing changes unannounced, and what is stored can be dispatched:
    every callback that changes one of the maps sends the dispatcher the event
    of that map, and keeps every item under its id, with the hash of its id
    and the checker of its type. *)
Theorem cache_changes_are_announced {C} (checkers : gmap Z C) (c : CacheProvider C) (cb : callback) :
  cache_ok checkers c ->
  exists c' es, call checkers c cb = Ret (c', es) /\ cache_ok checkers c' /\ announced c c' es.
Proof. intros Hc. destruct (call_ok checkers c cb Hc) as (c' & es & He & Hc' & _ & _ & Ha). eauto. Qed.

(** ** Witnesses *)

Definition demo_checkers : gmap Z string := {[HEARTBEAT := "memory"]}.
Definition demo_instance (id rev : string) (on : bool) : Instance :=
  mkInstance id "default" "svc" "svc-id" "" "10.0.0.9" 80 true false rev ∅ on (Some (mkHealthCheck HEARTBEAT 5)).
Definition polaris_server (id host : string) : Instance :=
  mkInstance id "Polaris" "polaris.checker" "svc-p" "" host 8091 true false "r" {[MetaKeyPolarisService := "polaris.checker"]} true
    (Some (mkHealthCheck HEARTBEAT 2)).

Lemma cache_mirrors_callbacks_witness :
  exists c es, calls demo_checkers (newCacheProvider "polaris.checker" 32)
      [Created (CachedInstance (demo_instance "i1" "r1" true)); Updated (CachedInstance (demo_instance "i1" "r2" true));
       Created (CachedInstance (polaris_server "p1" "10.0.0.1")); Updated (CachedInstance (demo_instance "i2" "r1" false))] = Ret (c, es) /\
    GetInstance c "i1" = Ret (Some (demo_instance "i1" "r2" true)) /\ GetSelfServiceInstance c "i1" = Ret None.
Proof.
  destruct (cache_mirrors_callbacks demo_checkers "polaris.checker" 32
      [Created (CachedInstance (demo_instance "i1" "r1" true)); Updated (CachedInstance (demo_instance "i1" "r2" true));
       Created (CachedInstance (polaris_server "p1" "10.0.0.1")); Updated (CachedInstance (demo_instance "i2" "r1" false))] "i1")
    as (c & es & He & H1 & H2 & _); [lia|].
  exists c, es. split; [exact He|]. split; [rewrite H2|rewrite H1]; vm_compute; reflexivity.
Defined.

Lemma cache_changes_are_announced_witness :
  exists c' es, call demo_checkers (newCacheProvider "polaris.checker" 32) (Created (CachedInstance (demo_instance "i1" "r1" true))) = Ret (c', es) /\
    cache_ok demo_checkers c' /\ announced (newCacheProvider "polaris.checker" 32) c' es.
Proof.
  apply (cache_changes_are_announced demo_checkers (newCacheProvider "polaris.checker" 32)).
  apply newCacheProvider_ok. lia.
Defined.
