(* ===== verification/Scheduler.v ===== *)
(** * The check scheduler ([src/service/healthcheck/check.go])

    [CheckScheduler] keeps a timing wheel ([TimeWheel.v]) in which every
    scheduled instance has a pending check; a check that runs asks the
    instance's health checker, writes a changed status to the store, and puts
    the next check on the wheel.  Clients are checked by a ticker of their
    own, and the set of checked ids is handed to the checkers in batches
    ([doAdopt]).  Each handler is one step: the wheel starts the callbacks that
    are due as goroutines, which wait in [running] until they run. *)

From S2P Require Import Prelude TimeWheel Hash ShardMap HealthCache Checker MemoryChecker.
From Stdlib Require Import ZArith Lia.
From stdpp Require Import base tactics list gmap strings.

Open Scope Z_scope.

Definition expireTtlCount : Z := 3.
Definition clientPrefix : string := "c_".
Definition toClientId (instanceId : string) : string := clientPrefix +:+ instanceId.

Section scheduler.
  (** [C]: health checkers. *)
  Context {C : Type}.

Record itemValue := mkItemValue {
  iid : string;
  ihost : string;
  iport : Z;
  ttlDurationSec : Z;
  expireDurationSec : Z;
  checker : option C }.

Record clientItemValue := mkClientItemValue {
  item : itemValue;
  lastCheckTimeSec : Z }.

Record AdoptEvent := mkAdoptEvent {
  AInstanceId : string;
  Add : bool;
  AChecker : option C }.

(** The wheel's callback is always [checkCallbackInstance], its data an id. *)
Record CheckScheduler := mkCheckScheduler {
  scheduledInstances : gmap string itemValue;
  scheduledClients : gmap string clientItemValue;
  timeWheel : TimeWheel unit string;
  minCheckIntervalSec : Z;
  maxCheckIntervalSec : Z;
  clientCheckTtlSec : Z;
  adoptInstancesChan : list AdoptEvent;
  running : list string }.

Definition set_instances (c : CheckScheduler) m :=
  mkCheckScheduler m (scheduledClients c) (timeWheel c) (minCheckIntervalSec c) (maxCheckIntervalSec c)
    (clientCheckTtlSec c) (adoptInstancesChan c) (running c).
Definition set_clients (c : CheckScheduler) m :=
  mkCheckScheduler (scheduledInstances c) m (timeWheel c) (minCheckIntervalSec c) (maxCheckIntervalSec c)
    (clientCheckTtlSec c) (adoptInstancesChan c) (running c).
Definition set_wheel (c : CheckScheduler) w :=
  mkCheckScheduler (scheduledInstances c) (scheduledClients c) w (minCheckIntervalSec c) (maxCheckIntervalSec c)
    (clientCheckTtlSec c) (adoptInstancesChan c) (running c).
Definition set_running (c : CheckScheduler) r :=
  mkCheckScheduler (scheduledInstances c) (scheduledClients c) (timeWheel c) (minCheckIntervalSec c) (maxCheckIntervalSec c)
    (clientCheckTtlSec c) (adoptInstancesChan c) r.
Definition set_adopting (c : CheckScheduler) a :=
  mkCheckScheduler (scheduledInstances c) (scheduledClients c) (timeWheel c) (minCheckIntervalSec c) (maxCheckIntervalSec c)
    (clientCheckTtlSec c) a (running c).

(** [None]: the wheel could not be made and the first use would panic. *)
Definition newCheckScheduler (slotNum minCheckInterval maxCheckInterval clientCheckTtl : Z) : option CheckScheduler :=
  w ← TimeWheel.New Second slotNum;
  Some (mkCheckScheduler ∅ ∅ w (seconds minCheckInterval) (seconds maxCheckInterval) (seconds clientCheckTtl) [] []).

Definition getTtl (i : Instance) : Z := from_option Ttl 0 (GetHealthCheck i).
Definition getExpireDurationSec (i : Instance) : Z := u32 (expireTtlCount * getTtl i).

(** A send on the adopt channel (a full channel only delays the sender). *)
Definition addAdopting (c : CheckScheduler) (id : string) (ch : option C) : CheckScheduler :=
  set_adopting c (adoptInstancesChan c ++ [mkAdoptEvent id true ch]).
Definition removeAdopting (c : CheckScheduler) (id : string) (ch : option C) : CheckScheduler :=
  set_adopting c (adoptInstancesChan c ++ [mkAdoptEvent id false ch]).

Definition upsertInstanceChecker (c : CheckScheduler) (iw : InstanceWithChecker C) : CheckScheduler * bool * itemValue :=
  let i := instance iw in
  let ttl := getTtl i in
  match scheduledInstances c !! ID i with
  | Some instValue =>
      if decide (ttl = ttlDurationSec instValue) then (c, true, instValue)
      else
        let instValue := mkItemValue (iid instValue) (ihost instValue) (iport instValue) ttl (getExpireDurationSec i) (ichecker iw) in
        (set_instances c (<[ID i := instValue]> (scheduledInstances c)), true, instValue)
  | None =>
      let instValue := mkItemValue (ID i) (IHost i) (Port i) ttl (getExpireDurationSec i) (ichecker iw) in
      (set_instances c (<[ID i := instValue]> (scheduledInstances c)), false, instValue)
  end.

Definition putClientIfAbsent (c : CheckScheduler) (cw : ClientWithChecker C) : CheckScheduler * bool * clientItemValue :=
  match scheduledClients c !! CId (client cw) with
  | Some v => (c, true, v)
  | None =>
      let v := mkClientItemValue (mkItemValue (CId (client cw)) (CHost (client cw)) 0 (u32 (clientCheckTtlSec c))
                 (u32 (expireTtlCount * clientCheckTtlSec c)) (Some (cchecker cw))) 0 in
      (set_clients c (<[CId (client cw) := v]> (scheduledClients c)), false, v)
  end.

(** The delay in milliseconds of the next check; [rnd] is [getRandDelayMilli]. *)
Definition healthyDelay (c : CheckScheduler) (inst : itemValue) (lastHeartbeatTimeSec cur rnd : Z) : Z :=
  let delaySec := expireDurationSec inst in
  let timePassed := i64 (cur - lastHeartbeatTimeSec) in
  let nextDelaySec :=
    if decide (lastHeartbeatTimeSec > 0 /\ timePassed > 0) then i64 (delaySec - timePassed) else 0 in
  let nextDelaySec :=
    if decide (nextDelaySec > 0 /\ nextDelaySec < minCheckIntervalSec c) then minCheckIntervalSec c else nextDelaySec in
  let delaySec := if decide (nextDelaySec > 0) then u32 nextDelaySec else delaySec in
  u32 (u32 (delaySec * 1000) + rnd).

Definition unHealthyDelay (c : CheckScheduler) (inst : itemValue) (rnd : Z) : Z :=
  let delaySec := expireDurationSec inst in
  let delaySec :=
    if decide (maxCheckIntervalSec c > 0 /\ delaySec > maxCheckIntervalSec c) then u32 (maxCheckIntervalSec c) else delaySec in
  u32 (u32 (delaySec * 1000) + rnd).

Definition addHealthyCallback (c : CheckScheduler) (inst : itemValue) (lastHeartbeatTimeSec cur rnd : Z) : outcome CheckScheduler :=
  w ← AddTask (timeWheel c) (healthyDelay c inst lastHeartbeatTimeSec cur rnd) (iid inst) tt;
  Ret (set_wheel c w).
Definition addUnHealthyCallback (c : CheckScheduler) (inst : itemValue) (rnd : Z) : outcome CheckScheduler :=
  w ← AddTask (timeWheel c) (unHealthyDelay c inst rnd) (iid inst) tt;
  Ret (set_wheel c w).

Definition UpsertInstance (c : CheckScheduler) (iw : InstanceWithChecker C) (rnd : Z) : outcome CheckScheduler :=
  let '(c, exists_, instValue) := upsertInstanceChecker c iw in
  if exists_ : bool then Ret c
  else addUnHealthyCallback (addAdopting c (iid instValue) (checker instValue)) instValue rnd.

Definition AddClient (c : CheckScheduler) (cw : ClientWithChecker C) : CheckScheduler :=
  let '(c, exists_, v) := putClientIfAbsent c cw in
  if exists_ : bool then c else addAdopting c (iid (item v)) (checker (item v)).

Definition DelInstance (c : CheckScheduler) (iw : InstanceWithChecker C) : CheckScheduler :=
  let id := ID (instance iw) in
  let exists_ := bool_decide (is_Some (scheduledInstances c !! id)) in
  let c := set_instances c (delete id (scheduledInstances c)) in
  if exists_ then removeAdopting c id (ichecker iw) else c.

Definition DelClient (c : CheckScheduler) (cw : ClientWithChecker C) : CheckScheduler :=
  let id := CId (client cw) in
  let exists_ := bool_decide (is_Some (scheduledClients c !! id)) in
  let c := set_clients c (delete id (scheduledClients c)) in
  if exists_ then removeAdopting c id (Some (cchecker cw)) else c.

(** ** What checks do to the rest of the system *)

(** [model.InstanceEventType]. *)
Inductive InstanceEventType :=
| EventInstanceOnline
| EventInstanceTurnUnHealth
| EventInstanceTurnHealth
| EventInstanceOpenIsolate
| EventInstanceCloseIsolate
| EventInstanceOffline
| EventInstanceSendHeartbeat
| EventInstanceUpdate.

Inductive action :=
| AsyncHeartbeat (id : string) (healthy : bool) (lastBeatTime : Z)
| SetInstanceHealthStatus (id : string) (flag : Z)
| PublishEvent (id : string) (etype : InstanceEventType)
| AsyncDeregisterClient (id : string).

Definition StatusBoolToInt (b : bool) : Z := if b then 1 else 0.

Definition asyncSetInsDbStatus (i : Instance) (healthStatus : bool) (lastBeatTime : Z) : list action :=
  [AsyncHeartbeat (ID i) healthStatus lastBeatTime].
Definition serialSetInsDbStatus (i : Instance) (healthStatus : bool) : list action :=
  [SetInstanceHealthStatus (ID i) (StatusBoolToInt healthStatus)].

(** [success]: the store, or the batch job, answered [ExecuteSuccess]. *)
Definition setInsDbStatus (heartbeatOpen success : bool) (i : Instance) (healthStatus : bool) (lastBeatTime : Z) : list action :=
  (if heartbeatOpen then asyncSetInsDbStatus i healthStatus lastBeatTime else serialSetInsDbStatus i healthStatus) ++
  (if success && bool_decide (Healthy i <> healthStatus)
   then [PublishEvent (ID i) (if healthStatus then EventInstanceTurnHealth else EventInstanceTurnUnHealth)] else []).

(** What a check runs against: the cache, the checkers, the clock. *)
Record env := mkEnv {
  cachedInstance : string -> option Instance;
  cachedClient : string -> option Client;
  check_ : C -> CheckRequest -> outcome (result checker_error CheckResponse);
  heartbeatOpen : bool;
  store_success : bool;
  currentTimeSec : Z;
  rnd : Z }.

Definition check_request (v : itemValue) (key : string) (healthy : bool) (e : env) : CheckRequest :=
  mkCheck (mkQuery key (ihost v) (iport v) healthy) (expireDurationSec v) (currentTimeSec e).

(** The part of [checkCallbackInstance] before its deferred reschedule: the
    response, if there is one, and the actions. *)
Definition run_check (v : itemValue) (id : string) (e : env) : outcome (option CheckResponse * list action) :=
  match cachedInstance e id with
  | None => Ret (None, [])
  | Some i =>
      match checker v with
      | None => Panics NilDereference
      | Some ch =>
          r ← check_ e ch (check_request v (iid v) (Healthy i) e);
          match r with
          | Fail _ => Ret (None, [])
          | Okay resp =>
              Ret (Some resp,
                   if StayUnchanged resp then []
                   else setInsDbStatus (heartbeatOpen e) (store_success e) i (RHealthy resp) (LastHeartbeatTimeSec resp))
          end
      end
  end.

Definition checkCallbackInstance (c : CheckScheduler) (id : string) (e : env) : outcome (CheckScheduler * list action) :=
  match scheduledInstances c !! id with
  | None => Ret (c, [])
  | Some v =>
      '(checkResp, acts) ← run_check v id e;
      c' ← match checkResp with
           | Some resp =>
               if Regular resp && RHealthy resp
               then addHealthyCallback c v (LastHeartbeatTimeSec resp) (currentTimeSec e) (rnd e)
               else addUnHealthyCallback c v (rnd e)
           | None => addUnHealthyCallback c v (rnd e)
           end;
      Ret (c', acts)
  end.

Definition checkCallbackClient (c : CheckScheduler) (id : string) (e : env) : outcome (option clientItemValue * list action) :=
  match scheduledClients c !! id with
  | None => Ret (None, [])
  | Some v =>
      match cachedClient e id with
      | None => Ret (Some v, [])
      | Some cl =>
          match checker (item v) with
          | None => Panics NilDereference
          | Some ch =>
              r ← check_ e ch (check_request (item v) (toClientId (iid (item v))) true e);
              match r with
              | Fail _ => Ret (Some v, [])
              | Okay resp =>
                  Ret (Some v, if negb (StayUnchanged resp) && negb (RHealthy resp) then [AsyncDeregisterClient (CId cl)] else [])
              end
          end
      end
  end.

(** *** [doCheckClient] *)

(** The ids one tick collects, for one iteration order of the map. *)
Definition itemsToCheck (clients : list (string * clientItemValue)) (curTimeSec : Z) : list string :=
  concat ((fun kv : string * clientItemValue =>
    let value := kv.2 in
    (if decide (lastCheckTimeSec value = 0) then [kv.1] else []) ++
    (let diff := i64 (curTimeSec - lastCheckTimeSec value) in
     if decide (diff < 0 \/ diff >= expireDurationSec (item value)) then [kv.1] else [])) <$> clients).

Fixpoint check_clients (c : CheckScheduler) (ids : list string) (e : env) : outcome (CheckScheduler * list action) :=
  match ids with
  | [] => Ret (c, [])
  | id :: ids =>
      '(v, acts) ← checkCallbackClient c id e;
      let c := match v with
               | Some v => set_clients c (<[id := mkClientItemValue (item v) (currentTimeSec e)]> (scheduledClients c))
               | None => c
               end in
      '(c, rest) ← check_clients c ids e;
      Ret (c, acts ++ rest)
  end.

Definition doCheckClient (c : CheckScheduler) (e : env) : outcome (CheckScheduler * list action) :=
  check_clients c (itemsToCheck (map_to_list (scheduledClients c)) (currentTimeSec e)) e.

(** ** Histories *)

Inductive sched_op :=
| Upsert (iw : InstanceWithChecker C) (rnd : Z)
| Del (iw : InstanceWithChecker C)
| PutClient (cw : ClientWithChecker C)
| RemoveClient (cw : ClientWithChecker C)
| Tick                         (* the wheel's ticker *)
| Callback (i : nat) (e : env) (* the i-th waiting callback runs *)
| ClientTick (e : env).        (* the client check ticker *)

Definition step (c : CheckScheduler) (o : sched_op) : outcome (CheckScheduler * list action) :=
  match o with
  | Upsert iw rnd => c' ← UpsertInstance c iw rnd; Ret (c', [])
  | Del iw => Ret (DelInstance c iw, [])
  | PutClient cw => Ret (AddClient c cw, [])
  | RemoveClient cw => Ret (DelClient c cw, [])
  | Tick =>
      '(w, fired) ← taskRunner (timeWheel c);
      Ret (set_running (set_wheel c w) (running c ++ fired.*2), [])
  | Callback i e =>
      match running c !! i with
      | None => Ret (c, [])
      | Some id => checkCallbackInstance (set_running c (delete i (running c))) id e
      end
  | ClientTick e => doCheckClient c e
  end.

Fixpoint steps (c : CheckScheduler) (os : list sched_op) : outcome (CheckScheduler * list action) :=
  match os with
  | [] => Ret (c, [])
  | o :: os => '(c1, a1) ← step c o; '(c2, a2) ← steps c1 os; Ret (c2, a1 ++ a2)
  end.

(** ** Adopting *)

Definition batchAdoptCount : nat := 30.

Record adopter := mkAdopter {
  instancesToAdd : gset string;
  instancesToRemove : gset string;
  achecker : option C }.

(** A call of [AddToCheck] ([ac_add]) or [RemoveFromCheck], and whether it
    succeeded. *)
Record adopt_call := mkAdoptCall { ac_checker : option C; ac_add : bool; ac_ids : gset string; ac_ok : bool }.

Inductive adopt_in := AdoptReceive (e : AdoptEvent) | AdoptTick.

(** [processAdoptEvents]: [ok] says whether the call succeeded. *)
Definition processAdoptEvents (instances : gset string) (add : bool) (ch : option C) (ok : bool) : gset string * adopt_call :=
  (if ok then ∅ else instances, mkAdoptCall ch add instances ok).

Definition flush (a : adopter) (add rem : bool) (ok : bool) : adopter * list adopt_call :=
  let '(toAdd, calls1) :=
    if add then let '(s, call) := processAdoptEvents (instancesToAdd a) true (achecker a) ok in (s, [call])
    else (instancesToAdd a, []) in
  let '(toRemove, calls2) :=
    if rem then let '(s, call) := processAdoptEvents (instancesToRemove a) false (achecker a) ok in (s, [call])
    else (instancesToRemove a, []) in
  (mkAdopter toAdd toRemove (achecker a), calls1 ++ calls2).

(** One iteration of [doAdopt]; [ok]: the checkers answer without error. *)
Definition doAdopt (a : adopter) (i : adopt_in) (ok : bool) : adopter * list adopt_call :=
  match i with
  | AdoptReceive event =>
      let id := AInstanceId event in
      let a :=
        if Add event
        then mkAdopter ({[id]} ∪ instancesToAdd a) (instancesToRemove a ∖ {[id]}) (AChecker event)
        else mkAdopter (instancesToAdd a ∖ {[id]}) ({[id]} ∪ instancesToRemove a) (AChecker event) in
      flush a (bool_decide (size (instancesToAdd a) = batchAdoptCount)) (bool_decide (size (instancesToRemove a) = batchAdoptCount)) ok
  | AdoptTick =>
      flush a (bool_decide (0 < size (instancesToAdd a))%nat) (bool_decide (0 < size (instancesToRemove a))%nat) ok
  end.

Fixpoint adopt_all (a : adopter) (ins : list (adopt_in * bool)) : adopter * list adopt_call :=
  match ins with
  | [] => (a, [])
  | (i, ok) :: ins =>
      let '(a1, c1) := doAdopt a i ok in
      let '(a2, c2) := adopt_all a1 ins in
      (a2, c1 ++ c2)
  end.

End scheduler.
Arguments itemValue : clear implicits.
Arguments clientItemValue : clear implicits.
Arguments CheckScheduler : clear implicits.
Arguments AdoptEvent : clear implicits.
Arguments adopter : clear implicits.
Arguments adopt_call : clear implicits.
Arguments adopt_in : clear implicits.
Arguments env : clear implicits.
Arguments sched_op : clear implicits.

(** ** Lemmas *)

Section facts.
  Context {C : Type} (E : Z).
  (** [E] bounds the expire durations and check intervals, in seconds. *)
  Implicit Types (c : CheckScheduler C) (v : itemValue C).

(** The longest a check waits on the wheel, in ticks. *)
Definition max_wait c : Z := Z.max (slotNum (timeWheel c)) (E + 1).

(** The check of [k] is on the wheel, due within [max_wait] ticks. *)
Definition on_wheel c (k : string) : Prop := exists n, n <= max_wait c /\ (n, (tt, k)) ∈ pending (timeWheel c).

Record sched_ok c : Prop := {
  so_bound : 0 <= E <= 4294966;
  so_wheel : wf (timeWheel c);
  so_interval : interval (timeWheel c) = Second;
  so_min : minCheckIntervalSec c <= E;
  so_items : map_Forall (fun k v => iid v = k /\ is_Some (checker v) /\ 0 <= expireDurationSec v <= E) (scheduledInstances c);
  so_clients : map_Forall (fun k cv => iid (item cv) = k /\ is_Some (checker (item cv))) (scheduledClients c);
  so_pending : forall k, is_Some (scheduledInstances c !! k) -> k ∈ running c \/ on_wheel c k }.

Lemma due_bound (w : TimeWheel unit string) ms :
  wf w -> interval w = Second -> 0 <= ms <= E * 1000 + 999 -> due w ms <= Z.max (slotNum w) (E + 1).
Proof.
  intros Hw Hi Hms. unfold due. rewrite Hi. change (seconds Second) with 1. rewrite Z.quot_1_r.
  unfold seconds, Second, Millisecond. rewrite Z.quot_div_nonneg by lia.
  assert (ms * 1000000 / 1000000000 <= E) by (apply Z.lt_succ_r, Z.div_lt_upper_bound; lia).
  repeat case_decide; lia.
Qed.

Lemma unHealthyDelay_bound c v r :
  0 <= E <= 4294966 -> 0 <= expireDurationSec v <= E -> 0 <= r < 1000 -> 0 <= unHealthyDelay c v r <= E * 1000 + 999.
Proof.
  intros HE Hv Hr. unfold unHealthyDelay.
  set (d := if decide _ then _ else _). assert (0 <= d <= E) as Hd.
  { unfold d. case_decide; [|lia]. rewrite wrap_u_small by lia. lia. }
  rewrite (wrap_u_small 32 (d * 1000)) by lia. rewrite wrap_u_small by lia. lia.
Qed.

Lemma healthyDelay_bound c v last cur r :
  0 <= E <= 4294966 -> minCheckIntervalSec c <= E -> 0 <= expireDurationSec v <= E -> 0 <= r < 1000 ->
  0 <= healthyDelay c v last cur r <= E * 1000 + 999.
Proof.
  intros HE Hm Hv Hr. unfold healthyDelay. pose proof (wrap_i_range 64 (cur - last)) as Ht.
  set (t := i64 (cur - last)) in *.
  set (n := if decide (last > 0 /\ t > 0) then _ else _). assert (n <= E) as Hn.
  { unfold n. case_decide; [|lia]. rewrite i64_small by lia. lia. }
  set (n' := if decide (n > 0 /\ _) then _ else _). assert (n' <= E) as Hn' by (unfold n'; case_decide; lia).
  set (d := if decide _ then _ else _). assert (0 <= d <= E) as Hd.
  { unfold d. case_decide; [|lia]. rewrite wrap_u_small by lia. lia. }
  rewrite (wrap_u_small 32 (d * 1000)) by lia. rewrite wrap_u_small by lia. lia.
Qed.

(** Putting a check on the wheel; [w] is the new wheel. *)
Lemma add_check c v ms :
  sched_ok c -> 0 <= ms <= E * 1000 + 999 ->
  exists w, AddTask (timeWheel c) ms (iid v) tt = Ret w /\ wf w /\ interval w = Second /\ slotNum w = slotNum (timeWheel c) /\
    pending w ≡ₚ (due (timeWheel c) ms, (tt, iid v)) :: pending (timeWheel c) /\ on_wheel (set_wheel c w) (iid v) /\
    (forall k, on_wheel c k -> on_wheel (set_wheel c w) k).
Proof.
  intros [HE Hw Hi _ _ _ _] Hms.
  destruct (AddTask_eq (timeWheel c) ms (iid v) tt Hw) as (w & He & Hp & Hw' & Hi' & Hs' & _); [lia|].
  exists w. split; [done|]. split; [done|]. split; [congruence|]. split; [done|]. split; [done|].
  unfold on_wheel, max_wait. simpl. rewrite Hs'. split.
  - exists (due (timeWheel c) ms). split; [by apply due_bound|]. rewrite Hp. by left.
  - intros k (n & Hn & Hk). exists n. split; [done|]. rewrite Hp. by right.
Qed.

(** A change that keeps the invariant's other parts. *)
Lemma sched_ok_wheel c w :
  sched_ok c -> wf w -> interval w = Second ->
  (forall k, is_Some (scheduledInstances c !! k) -> k ∈ running c \/ on_wheel (set_wheel c w) k) -> sched_ok (set_wheel c w).
Proof. intros [] ???. by split. Qed.

Lemma add_check_ok c v ms :
  sched_ok c -> 0 <= ms <= E * 1000 + 999 ->
  exists w, AddTask (timeWheel c) ms (iid v) tt = Ret w /\ sched_ok (set_wheel c w).
Proof.
  intros Hc Hms. destruct (add_check c v ms Hc Hms) as (w & He & Hw & Hi & Hs & _ & _ & Hk). exists w. split; [done|].
  apply sched_ok_wheel; [done..|]. intros k [Hr|Hp]%(so_pending c Hc); auto.
Qed.

Definition iw_ok (iw : InstanceWithChecker C) : Prop :=
  is_Some (ichecker iw) /\ 0 <= getExpireDurationSec (instance iw) <= E.

Definition env_ok (e : env C) : Prop := 0 <= rnd e < 1000 /\ forall ch req, returns (check_ e ch req).

Definition op_ok (o : sched_op C) : Prop :=
  match o with
  | Upsert iw r => iw_ok iw /\ 0 <= r < 1000
  | Callback _ e | ClientTick e => env_ok e
  | _ => True
  end.

Lemma UpsertInstance_ok c iw r :
  sched_ok c -> iw_ok iw -> 0 <= r < 1000 ->
  exists c', UpsertInstance c iw r = Ret c' /\ sched_ok c' /\
    dom (scheduledInstances c') = {[ID (instance iw)]} ∪ dom (scheduledInstances c) /\ scheduledClients c' = scheduledClients c /\
    running c' = running c.
Proof.
  intros Hc [Hch Hexp] Hr. unfold UpsertInstance, upsertInstanceChecker.
  destruct (scheduledInstances c !! ID (instance iw)) as [v|] eqn:Hv.
  - assert (ID (instance iw) ∈ dom (scheduledInstances c)) as Hin by (by eapply elem_of_dom_2).
    case_decide.
    + exists c. split; [done|]. split; [done|]. split; [set_solver|done].
    + eexists. split; [done|]. simpl. rewrite dom_insert_L. split; [|split; [set_solver|done]].
      pose proof (so_items c Hc _ _ Hv) as (Hid & _). destruct Hc as [? ? ? ? Hit ? Hpe].
      split; simpl; try done; [by apply map_Forall_insert_2|]. intros k Hk. apply Hpe.
      apply lookup_insert_is_Some' in Hk as [<-|?]; [by eexists|done].
  - set (v := mkItemValue _ _ _ _ _ _).
    set (c1 := addAdopting (set_instances c (<[ID (instance iw):=v]> (scheduledInstances c))) (iid v) (checker v)).
    assert (map_Forall (fun k v => iid v = k /\ is_Some (checker v) /\ 0 <= expireDurationSec v <= E) (scheduledInstances c1)) as Hit.
    { apply map_Forall_insert_2; [done|apply Hc]. }
    unfold addUnHealthyCallback.
    assert (0 <= unHealthyDelay c1 v r <= E * 1000 + 999) as Hd by (apply unHealthyDelay_bound; [apply Hc|done|done]).
    destruct (add_check c v (unHealthyDelay c1 v r) Hc Hd) as (w & He & Hw & Hi & Hs & _ & Hon & Hk).
    change (timeWheel c1) with (timeWheel c). rewrite He. simpl. eexists. split; [done|]. split; [|split; [simpl; by rewrite dom_insert_L|done]].
    destruct Hc as [? ? ? ? ? ? Hpe]. split; try done. intros k Hks. simpl in Hks.
    apply lookup_insert_is_Some' in Hks as [<-|Hks]; [by right|]. destruct (Hpe k Hks); [by left|right; by apply Hk].
Qed.

Lemma run_check_returns v id e :
  is_Some (checker v) -> env_ok e -> exists r acts, run_check v id e = Ret (r, acts).
Proof.
  intros [ch Hch] [_ He]. unfold run_check. destruct (cachedInstance e id) as [i|]; [|eauto]. rewrite Hch.
  destruct (He ch (check_request v (iid v) (Healthy i) e)) as [res ->]. simpl. destruct res; eauto.
Qed.

(** A callback that runs puts the next check on the wheel. *)
Lemma checkCallbackInstance_ok c id e :
  sched_ok c -> env_ok e ->
  (forall v, scheduledInstances c !! id = Some v ->
    exists r acts w ms, run_check v id e = Ret (r, acts) /\ 0 <= ms <= E * 1000 + 999 /\ AddTask (timeWheel c) ms id tt = Ret w /\
      checkCallbackInstance c id e = Ret (set_wheel c w, acts)) /\
  (scheduledInstances c !! id = None -> checkCallbackInstance c id e = Ret (c, [])).
Proof.
  intros Hc He. unfold checkCallbackInstance. split; [|by intros ->]. intros v Hv. rewrite Hv.
  destruct (so_items c Hc _ _ Hv) as (Hid & Hch & Hexp). destruct (run_check_returns v id e Hch He) as (r & acts & Hr).
  rewrite Hr. cbn [mbind outcome_bind]. exists r, acts.
  assert (forall ms, 0 <= ms <= E * 1000 + 999 -> exists w, AddTask (timeWheel c) ms (iid v) tt = Ret w) as Hadd.
  { intros ms Hms. destruct (add_check c v ms Hc Hms) as (w & Hw & _). eauto. }
  assert (exists ms, 0 <= ms <= E * 1000 + 999 /\
    match r with
    | Some resp => if Regular resp && RHealthy resp
                   then addHealthyCallback c v (LastHeartbeatTimeSec resp) (currentTimeSec e) (rnd e)
                   else addUnHealthyCallback c v (rnd e)
    | None => addUnHealthyCallback c v (rnd e)
    end = (w ← AddTask (timeWheel c) ms (iid v) tt; Ret (set_wheel c w))) as (ms & Hms & ->).
  { destruct He as [Hrnd _]. destruct r as [resp|]; [destruct (Regular resp && RHealthy resp)|].
    - eexists. split; [|reflexivity]. apply healthyDelay_bound; [apply Hc|apply Hc|done|done].
    - eexists. split; [|reflexivity]. apply unHealthyDelay_bound; [apply Hc|done|done].
    - eexists. split; [|reflexivity]. apply unHealthyDelay_bound; [apply Hc|done|done]. }
  destruct (Hadd ms Hms) as [w Hw]. exists w, ms. rewrite Hw. rewrite Hid in Hw. done.
Qed.

(** Removing the [i]-th waiting callback leaves the others waiting. *)
Lemma delete_elem (l : list string) i id k : l !! i = Some id -> k ∈ l -> k <> id -> k ∈ delete i l.
Proof.
  intros Hi Hk Hne. rewrite delete_take_drop. rewrite <- (take_drop_middle l i id Hi) in Hk. set_solver.
Qed.

Lemma Callback_ok c i e :
  sched_ok c -> env_ok e -> exists c' acts, step c (Callback i e) = Ret (c', acts) /\ sched_ok c'.
Proof.
  intros Hc He. simpl. destruct (running c !! i) as [id|] eqn:Hi; [|eauto].
  set (c1 := set_running c (delete i (running c))).
  assert (forall w ms, 0 <= ms <= E * 1000 + 999 -> AddTask (timeWheel c) ms id tt = Ret w -> sched_ok (set_wheel c1 w)) as Hadd.
  { intros w ms Hms Hw. set (v := mkItemValue id "" 0 0 0 (None : option C)).
    destruct (add_check c v ms Hc Hms) as (w' & Hw' & Hwf & Hint & _ & _ & Hon & Hk). simpl in Hw'. rewrite Hw in Hw'. injection Hw' as <-.
    destruct Hc as [? ? ? ? ? ? Hpe]. split; try done. intros k Hks. simpl.
    destruct (decide (k = id)) as [->|Hne]; [by right|].
    destruct (Hpe k Hks) as [Hr|Hp]; [left; by eapply delete_elem|right; by apply Hk]. }
  destruct (scheduledInstances c !! id) as [v|] eqn:Hv.
  - assert (exists r acts w ms, run_check v id e = Ret (r, acts) /\ 0 <= ms <= E * 1000 + 999 /\ AddTask (timeWheel c) ms id tt = Ret w /\
      checkCallbackInstance c1 id e = Ret (set_wheel c1 w, acts)) as (r & acts & w & ms & _ & Hms & Hw & ->).
    { destruct (checkCallbackInstance_ok c id e Hc He) as [H1 _]. destruct (H1 v Hv) as (r & acts & w & ms & Hr & Hms & Hw & Hcb).
      exists r, acts, w, ms. do 3 (split; [done|]). unfold checkCallbackInstance in *. simpl. rewrite Hv in *. rewrite Hr in *. cbn [mbind outcome_bind] in *.
      destruct r as [resp|]; [destruct (Regular resp && RHealthy resp)|];
        unfold addHealthyCallback, addUnHealthyCallback in *; cbn [mbind outcome_bind] in *.
      - destruct (AddTask (timeWheel c) (healthyDelay c v (LastHeartbeatTimeSec resp) (currentTimeSec e) (rnd e)) (iid v) tt) as [w'|] eqn:Ha; [|done].
        unfold healthyDelay in *. simpl in *. rewrite Ha. simpl in *. by injection Hcb as Hw'; subst.
      - destruct (AddTask (timeWheel c) (unHealthyDelay c v (rnd e)) (iid v) tt) as [w'|] eqn:Ha; [|done].
        unfold unHealthyDelay in *. simpl in *. rewrite Ha. simpl in *. by injection Hcb as Hw'; subst.
      - destruct (AddTask (timeWheel c) (unHealthyDelay c v (rnd e)) (iid v) tt) as [w'|] eqn:Ha; [|done].
        unfold unHealthyDelay in *. simpl in *. rewrite Ha. simpl in *. by injection Hcb as Hw'; subst. }
    do 2 eexists. split; [done|]. by eapply Hadd.
  - unfold checkCallbackInstance. simpl. rewrite Hv. do 2 eexists. split; [done|].
    destruct Hc as [? ? ? ? ? ? Hpe]. split; try done. intros k Hks. destruct (Hpe k Hks) as [Hr|?]; [left; simpl|by right].
    eapply delete_elem; [done..|]. intros ->. simpl in Hks. rewrite Hv in Hks. by destruct Hks.
Qed.

Lemma Tick_ok c :
  sched_ok c ->
  exists c' fired, step c Tick = Ret (c', []) /\ sched_ok c' /\ running c' = running c ++ fired /\
    scheduledInstances c' = scheduledInstances c /\ slotNum (timeWheel c') = slotNum (timeWheel c) /\
    forall n k, (n, (tt, k)) ∈ pending (timeWheel c) -> k ∈ fired \/ (n - 1, (tt, k)) ∈ pending (timeWheel c').
Proof.
  intros Hc. destruct (tick_eq (timeWheel c) (so_wheel c Hc)) as (w & Ht & Hp & Hw & Hi & Hs & _). simpl. rewrite Ht. simpl.
  assert (forall n k, (n, (tt, k)) ∈ pending (timeWheel c) ->
    k ∈ (due_now (pending (timeWheel c))).*2 \/ (n - 1, (tt, k)) ∈ pending w) as Hmove.
  { intros n k Hin. rewrite Hp. destruct (decide (n = 1)) as [->|Hn].
    - left. apply list_elem_of_fmap. exists (tt, k). split; [done|]. unfold due_now. apply list_elem_of_fmap.
      exists (1, (tt, k)). split; [done|]. by apply list_elem_of_filter.
    - right. unfold later. apply list_elem_of_fmap. exists (n, (tt, k)). split; [done|]. by apply list_elem_of_filter. }
  do 2 eexists. split; [done|]. split; [|done].
  pose proof Hc as [? ? ? ? ? ? Hpe]. split; simpl; try done; [congruence|].
  intros k Hks. rewrite elem_of_app. destruct (Hpe k Hks) as [?|(n & Hn & Hin)]; [auto|].
  destruct (Hmove n k Hin) as [?|?]; [auto|right]. exists (n - 1). split; [unfold max_wait in *; simpl; rewrite Hs; lia|done].
Qed.

Lemma check_clients_ok c ids e :
  sched_ok c -> env_ok e ->
  exists c' acts, check_clients c ids e = Ret (c', acts) /\ sched_ok c' /\ scheduledInstances c' = scheduledInstances c.
Proof.
  intros Hc [_ He]. revert c Hc. induction ids as [|id ids IH]; intros c Hc; simpl; [eauto|].
  assert (exists o acts, checkCallbackClient c id e = Ret (o, acts) /\ (o = None \/ o = scheduledClients c !! id)) as (o & acts & -> & Ho).
  { unfold checkCallbackClient. destruct (scheduledClients c !! id) as [v|] eqn:Hv; [|eauto].
    destruct (cachedClient e id) as [cl|]; [|eauto]. destruct (so_clients c Hc _ _ Hv) as [_ [ch Hch]]. rewrite Hch.
    destruct (He ch (check_request (item v) (toClientId (iid (item v))) true e)) as [res ->]. simpl. destruct res; eauto. }
  cbn [mbind outcome_bind].
  set (c1 := match o with Some v => _ | None => c end).
  assert (sched_ok c1 /\ scheduledInstances c1 = scheduledInstances c) as [Hc1 Hs1].
  { unfold c1. destruct o as [v|]; [|done]. destruct Ho as [|Ho]; [done|]. symmetry in Ho.
    pose proof (so_clients c Hc _ _ Ho) as Hv. destruct Hc. split; [split; simpl; try done|done]. by apply map_Forall_insert_2. }
  destruct (IH c1 Hc1) as (c2 & acts2 & -> & Hc2 & Hs2). simpl. do 2 eexists. split; [done|]. split; [done|congruence].
Qed.

Lemma step_ok c o : sched_ok c -> op_ok o -> exists c' acts, step c o = Ret (c', acts) /\ sched_ok c'.
Proof.
  intros Hc Ho. destruct o as [iw r|iw|cw|cw| |i e|e].
  - destruct Ho as [Hiw Hr]. destruct (UpsertInstance_ok c iw r Hc Hiw Hr) as (c' & Hu & Hc' & _). simpl. rewrite Hu. simpl. eauto.
  - do 2 eexists. split; [done|]. unfold DelInstance. destruct Hc as [? ? ? ? ? ? Hpe].
    case_bool_decide; split; simpl; try done; try (by apply map_Forall_delete); intros k [? Hk]; apply lookup_delete_Some in Hk as [_ Hk]; apply Hpe; eauto.
  - do 2 eexists. split; [done|]. unfold AddClient, putClientIfAbsent. destruct (scheduledClients c !! CId (client cw)) as [v|] eqn:Hv; [done|].
    destruct Hc. split; simpl; try done. apply map_Forall_insert_2; [|done]. split; [done|]. by eexists.
  - do 2 eexists. split; [done|]. unfold DelClient. destruct Hc. case_bool_decide; split; simpl; try done; by apply map_Forall_delete.
  - destruct (Tick_ok c Hc) as (c' & fired & -> & Hc' & _). eauto.
  - by apply Callback_ok.
  - simpl. unfold doCheckClient. edestruct (check_clients_ok c) as (c' & acts & -> & Hc' & _); [done..|]. eauto.
Qed.

Lemma steps_ok c os : sched_ok c -> Forall op_ok os -> exists c' acts, steps c os = Ret (c', acts) /\ sched_ok c'.
Proof.
  revert c. induction os as [|o os IH]; intros c Hc Hos; simpl; [eauto|]. inversion Hos; subst.
  destruct (step_ok c o) as (c1 & a1 & -> & Hc1); [done..|]. simpl. destruct (IH c1) as (c2 & a2 & -> & Hc2); [done..|]. simpl. eauto.
Qed.

Lemma new_scheduler_ok slotNum minI maxI ttl c :
  newCheckScheduler slotNum minI maxI ttl = Some c -> 0 <= E <= 4294966 -> seconds minI <= E -> sched_ok c.
Proof.
  unfold newCheckScheduler. intros (w & Hw & [= <-])%bind_Some HE Hm. unfold TimeWheel.New in Hw. case_decide as Hs; [done|].
  injection Hw as <-. split; simpl; try done.
  - split; simpl; [lia|rewrite length_replicate; lia|lia|done].
  - intros k [? ?]. done.
Qed.

Lemma pending_pos c n k : sched_ok c -> (n, (tt, k)) ∈ pending (timeWheel c) -> 1 <= n.
Proof.
  intros Hc Hin. unfold pending in Hin. apply list_elem_of_In, in_concat in Hin as (l & Hl & Hin).
  apply list_elem_of_In, elem_of_lookup_imap in Hl as (p & ts & -> & Hp). apply list_elem_of_In in Hin. unfold slot_pending in Hin.
  apply list_elem_of_fmap in Hin as (t & Ht & _). injection Ht as Hn _. unfold remaining in Hn.
  pose proof (dist_pos (timeWheel c) (Z.of_nat p)) as Hd. pose proof (so_wheel c Hc) as [? ? ? ?]. nia.
Qed.

(** A check on the wheel has started after at most its number of ticks. *)
Lemma pending_starts n c k :
  sched_ok c -> is_Some (scheduledInstances c !! k) -> (Z.of_nat n, (tt, k)) ∈ pending (timeWheel c) ->
  exists c' acts, steps c (replicate n Tick) = Ret (c', acts) /\ sched_ok c' /\ k ∈ running c'.
Proof.
  revert c. induction n as [|n IH]; intros c Hc Hk Hin.
  { pose proof (pending_pos c _ k Hc Hin). lia. }
  destruct (Tick_ok c Hc) as (c1 & fired & He & Hc1 & Hrun & Hs & Hsl & Hmove). cbn [replicate steps]. rewrite He. cbn [mbind outcome_bind].
  destruct (Hmove _ _ Hin) as [Hf|Hp].
  - assert (forall m c, sched_ok c -> k ∈ running c -> exists c' acts, steps c (replicate m Tick) = Ret (c', acts) /\ sched_ok c' /\ k ∈ running c') as Hstay.
    { clear. induction m as [|m IH]; intros c Hc Hk; simpl; [eauto|]. destruct (Tick_ok c Hc) as (c1 & fired & He & Hc1 & Hrun & _).
      simpl in He. rewrite He. simpl. destruct (IH c1 Hc1) as (c2 & a & -> & Hc2 & Hk2); [rewrite Hrun; set_solver|]. simpl. eauto. }
    destruct (Hstay n c1 Hc1) as (c2 & a & -> & Hc2 & Hk2); [rewrite Hrun; set_solver|]. simpl. eauto.
  - replace (Z.of_nat (S n) - 1) with (Z.of_nat n) in Hp by lia.
    destruct (IH c1 Hc1) as (c2 & a & -> & Hc2 & Hk2); [by rewrite Hs|done|]. simpl. eauto.
Qed.

(** *** Chains of checks *)

(** The checks of [k] that are on the wheel or waiting to run. *)
Definition chains c (k : string) : nat :=
  (length (filter (fun x : Z * (unit * string) => x.2.2 = k) (pending (timeWheel c))) + length (filter (fun x => x = k) (running c)))%nat.

Lemma due_later_count (q : list (Z * (unit * string))) k :
  (length (filter (fun x : Z * (unit * string) => x.2.2 = k) (later q)) + length (filter (fun x => x = k) (due_now q).*2))%nat
  = length (filter (fun x : Z * (unit * string) => x.2.2 = k) q).
Proof.
  unfold later, due_now. induction q as [|[n [u x]] q IH]; [done|].
  rewrite !filter_cons. csimpl. repeat (case_decide; csimpl; rewrite ?filter_cons; csimpl); simplify_eq; try done; lia.
Qed.

Lemma add_check_chains c w v ms k :
  sched_ok c -> 0 <= ms <= E * 1000 + 999 -> AddTask (timeWheel c) ms (iid v) tt = Ret w ->
  length (filter (fun x : Z * (unit * string) => x.2.2 = k) (pending w)) =
  ((if decide (iid v = k) then 1 else 0) + length (filter (fun x : Z * (unit * string) => x.2.2 = k) (pending (timeWheel c))))%nat.
Proof.
  intros Hc Hms Hw. destruct (add_check c v ms Hc Hms) as (w' & Hw' & _ & _ & _ & Hp & _). rewrite Hw in Hw'. injection Hw' as <-.
  rewrite Hp, filter_cons. simpl. by case_decide.
Qed.

(** Every operation but the deletion of [k] keeps [k] scheduled with at least
    as many chains. *)
Definition keeps (k : string) (o : sched_op C) : Prop := match o with Del iw => ID (instance iw) <> k | _ => True end.

Lemma filter_delete (l : list string) i id k :
  l !! i = Some id ->
  length (filter (fun x => x = k) l) = ((if decide (id = k) then 1 else 0) + length (filter (fun x => x = k) (delete i l)))%nat.
Proof.
  intros Hi. rewrite delete_take_drop. rewrite <- (take_drop_middle l i id Hi) at 1. rewrite !filter_app, !length_app, filter_cons.
  case_decide; simpl; lia.
Qed.

Lemma step_chains c o k c' acts :
  sched_ok c -> op_ok o -> keeps k o -> is_Some (scheduledInstances c !! k) -> step c o = Ret (c', acts) ->
  is_Some (scheduledInstances c' !! k) /\ (chains c k <= chains c' k)%nat.
Proof.
  intros Hc Ho Hk Hs Hst. destruct o as [iw r|iw|cw|cw| |i e|e].
  - destruct Ho as [Hiw Hr]. destruct (UpsertInstance_ok c iw r Hc Hiw Hr) as (c1 & Hu & Hc1 & Hdom & _). simpl in Hst. rewrite Hu in Hst.
    simpl in Hst. injection Hst as <- <-. split.
    { apply elem_of_dom. rewrite Hdom. apply elem_of_dom in Hs. set_solver. }
    unfold UpsertInstance, upsertInstanceChecker in Hu. destruct (scheduledInstances c !! ID (instance iw)) as [v|].
    + case_decide; by injection Hu as <-.
    + unfold addUnHealthyCallback in Hu. apply bind_Ret in Hu as (w & Hw & [= <-]). simpl in Hw.
      set (v := mkItemValue _ _ _ _ _ _) in Hw. unfold chains. simpl.
      assert (0 <= unHealthyDelay c v r <= E * 1000 + 999) as Hd by (apply unHealthyDelay_bound; [apply Hc|apply Hiw|done]).
      pose proof (add_check_chains c w v (unHealthyDelay c v r) k Hc Hd Hw). lia.
  - injection Hst as <- <-. simpl in Hk. unfold DelInstance. case_bool_decide; simpl; rewrite lookup_delete_ne by done; done.
  - injection Hst as <- <-. unfold AddClient, putClientIfAbsent. by destruct (scheduledClients c !! CId (client cw)).
  - injection Hst as <- <-. unfold DelClient. by case_bool_decide.
  - simpl in Hst. destruct (tick_eq (timeWheel c) (so_wheel c Hc)) as (w & Ht & Hp & _). rewrite Ht in Hst. simpl in Hst.
    injection Hst as <- <-. split; [done|]. unfold chains. simpl. rewrite Hp, filter_app, length_app.
    pose proof (due_later_count (pending (timeWheel c)) k). lia.
  - simpl in Hst. destruct (running c !! i) as [id|] eqn:Hi; [|by injection Hst as <- <-].
    unfold checkCallbackInstance in Hst. simpl in Hst. destruct (scheduledInstances c !! id) as [v|] eqn:Hv.
    + apply bind_Ret in Hst as ([r acts'] & _ & Hst). apply bind_Ret in Hst as (c2 & Hadd & [= <- <-]).
      destruct (so_items c Hc _ _ Hv) as (Hid & _ & Hexp). destruct Ho as [Hrnd _].
      assert (exists ms w, 0 <= ms <= E * 1000 + 999 /\ AddTask (timeWheel c) ms (iid v) tt = Ret w /\
        c2 = set_wheel (set_running c (delete i (running c))) w) as (ms & w & Hms & Hw & ->).
      { destruct r as [resp|]; [destruct (Regular resp && RHealthy resp)|]; unfold addHealthyCallback, addUnHealthyCallback in Hadd;
          apply bind_Ret in Hadd as (w & Hw & [= <-]); do 2 eexists; (split; [|split; [exact Hw|done]]).
        - apply healthyDelay_bound; [apply Hc|apply Hc|done|done].
        - apply unHealthyDelay_bound; [apply Hc|done|done].
        - apply unHealthyDelay_bound; [apply Hc|done|done]. }
      split; [done|]. unfold chains. simpl. pose proof (add_check_chains c w v ms k Hc Hms Hw) as H1. rewrite Hid in H1.
      pose proof (filter_delete (running c) i id k Hi). lia.
    + injection Hst as <- <-. split; [done|]. unfold chains. simpl. pose proof (filter_delete (running c) i id k Hi) as H1.
      rewrite decide_False in H1; [lia|]. intros ->. rewrite Hv in Hs. by destruct Hs.
  - simpl in Hst. unfold doCheckClient in Hst.
    assert (forall ids c c' acts, check_clients c ids e = Ret (c', acts) ->
      scheduledInstances c' = scheduledInstances c /\ timeWheel c' = timeWheel c /\ running c' = running c) as Hcl.
    { clear. induction ids as [|id ids IH]; intros c c' acts; simpl; [by intros [= <- <-]|].
      intros ([v a] & _ & ([c2 a2] & H2 & [= <- <-])%bind_Ret)%bind_Ret. destruct (IH _ _ _ H2) as (-> & -> & ->). by destruct v. }
    destruct (Hcl _ _ _ _ Hst) as (H1 & H2 & H3). unfold chains. by rewrite H1, H2, H3.
Qed.

Lemma steps_chains os c k :
  sched_ok c -> Forall op_ok os -> Forall (keeps k) os -> is_Some (scheduledInstances c !! k) ->
  exists c' acts, steps c os = Ret (c', acts) /\ (chains c k <= chains c' k)%nat.
Proof.
  revert c. induction os as [|o os IH]; intros c Hc Hos Hk Hs; simpl; [eauto|]. inversion Hos; inversion Hk; subst.
  destruct (step_ok c o) as (c1 & a1 & He & Hc1); [done..|]. rewrite He. simpl.
  destruct (step_chains c o k c1 a1) as [Hs1 Hle]; [done..|]. destruct (IH c1) as (c2 & a2 & -> & Hle2); [done..|]. simpl.
  do 2 eexists. split; [done|lia].
Qed.
End facts.

(** *** Adopting *)

Section adopting.
  Context {C : Type}.
  Implicit Types (a : adopter C).

(** What the last event about [id] asked for, and what the last successful
    call that named it said. *)
Definition last_adopt (ins : list (adopt_in C * bool)) (acc : option bool) (id : string) : option bool :=
  foldl (fun acc i => match i.1 with
                      | AdoptReceive e => if decide (AInstanceId e = id) then Some (Add e) else acc
                      | AdoptTick => acc
                      end) acc ins.
Definition last_call (calls : list (adopt_call C)) (acc : option bool) (id : string) : option bool :=
  foldl (fun acc k => if decide (ac_ok k = true /\ id ∈ ac_ids k) then Some (ac_add k) else acc) acc calls.

(** [id], about which the last event said [ev] and the last call [call], is
    waiting in the right batch, or has been handed over. *)
Definition adopt_inv a (ev call : option bool) (id : string) : Prop :=
  match ev with
  | None => id ∉ instancesToAdd a /\ id ∉ instancesToRemove a
  | Some true => id ∉ instancesToRemove a /\ (id ∈ instancesToAdd a \/ call = Some true)
  | Some false => id ∉ instancesToAdd a /\ (id ∈ instancesToRemove a \/ call = Some false)
  end.

Lemma flush_inv a add rem ok a' calls ev call id :
  flush a add rem ok = (a', calls) -> adopt_inv a ev call id ->
  adopt_inv a' ev (last_call calls call id) id /\
  (ok = true -> add = true -> instancesToAdd a' = ∅) /\ (ok = true -> rem = true -> instancesToRemove a' = ∅).
Proof.
  unfold flush, processAdoptEvents. destruct add, rem, ok; intros [= <- <-] Hi; (split; [|done]);
    unfold adopt_inv in *; simpl in *; destruct ev as [[]|]; repeat case_decide; simpl in *; naive_solver set_solver.
Qed.

Lemma doAdopt_inv a i ok a' calls ev call id :
  doAdopt a i ok = (a', calls) -> adopt_inv a ev call id ->
  adopt_inv a' (last_adopt [(i, ok)] ev id) (last_call calls call id) id.
Proof.
  intros Hd Hi. destruct i as [e|]; simpl in *.
  - eapply flush_inv; [exact Hd|]. unfold adopt_inv in *.
    destruct (decide (AInstanceId e = id)) as [<-|]; destruct (Add e); simpl; [set_solver|set_solver|..];
      destruct ev as [[]|]; set_solver.
  - by eapply flush_inv.
Qed.

Lemma adopt_all_inv ins a a' calls ev call id :
  adopt_all a ins = (a', calls) -> adopt_inv a ev call id -> adopt_inv a' (last_adopt ins ev id) (last_call calls call id) id.
Proof.
  revert a calls ev call. induction ins as [|[i ok] ins IH]; intros a calls ev call; simpl; [by intros [= <- <-]|].
  destruct (doAdopt a i ok) as [a1 c1] eqn:H1. destruct (adopt_all a1 ins) as [a2 c2] eqn:H2. intros [= <- <-] Hi.
  unfold last_call. rewrite foldl_app. eapply IH; [done|]. by eapply (doAdopt_inv a i ok).
Qed.
End adopting.

(** ** Properties *)

(** C34. No scheduled instance is ever forgotten: after any history of
    insertions, deletions, client checks, ticks and callbacks - in any order,
    with any answers of the checkers and the store - no step has panicked, and
    the check of every instance that is still scheduled is either waiting to
    run or starts within a bounded number of ticks ([E] bounds the expire
    durations and intervals). *)
Theorem scheduled_instances_stay_checked {C} (E slotNum minI maxI ttl : Z) (c0 : CheckScheduler C) (os : list (sched_op C)) :
  newCheckScheduler slotNum minI maxI ttl = Some c0 -> 0 <= E <= 4294966 -> seconds minI <= E -> Forall (op_ok E) os ->
  exists c acts, steps c0 os = Ret (c, acts) /\
    forall k, is_Some (scheduledInstances c !! k) ->
      k ∈ running c \/
      exists n c' acts', Z.of_nat n <= max_wait E c /\ steps c (replicate n Tick) = Ret (c', acts') /\ k ∈ running c'.
Proof.
  intros Hn HE Hm Hos. destruct (steps_ok E c0 os) as (c & acts & -> & Hc); [by eapply new_scheduler_ok|done|].
  do 2 eexists. split; [done|]. intros k Hk. destruct (so_pending E c Hc k Hk) as [?|(n & Hle & Hin)]; [by left|right].
  pose proof (pending_pos E c n k Hc Hin). destruct (pending_starts E (Z.to_nat n) c k Hc Hk) as (c' & acts' & He & _ & Hr).
  { by rewrite Z2Nat.id by lia. }
  exists (Z.to_nat n), c', acts'. split; [lia|done].
Qed.

(** The check of a healthy instance writes to the store exactly when the
    instance is silent: with a checker that keeps the heartbeat contract and
    outside its skip windows, the callback marks the instance unhealthy (and
    publishes the change when the write succeeded) if its last heartbeat is
    its expire duration or more ago, writes nothing otherwise, and in both
    cases puts the next check on the wheel. *)
Theorem callback_takes_down_the_silent {C S} `{HeartbeatContract S} (E : Z) (c : CheckScheduler C) (id : string) (v : itemValue C)
    (i : Instance) (s : S) (now : Z) (e : env C) :
  let last := last_beat s id in
  sched_ok E c -> env_ok e -> scheduledInstances c !! id = Some v -> cachedInstance e id = Some i -> Healthy i = true ->
  (forall ch req, check_ e ch req = hc_check s now req) -> hc_ok s -> skips s now (expireDurationSec v) = false ->
  0 < expireDurationSec v -> - 2 ^ 62 <= last < 2 ^ 62 -> - 2 ^ 62 <= currentTimeSec e < 2 ^ 62 ->
  exists c', checkCallbackInstance c id e =
      Ret (c', if decide (last + expireDurationSec v <= currentTimeSec e)
               then setInsDbStatus (heartbeatOpen e) (store_success e) i false last else []) /\
    on_wheel E c' id.
Proof.
  intros last Hc He Hv Hi Hh Hch Hs Hskip Hexp Hl Hcur.
  destruct (checkCallbackInstance_ok E c id e Hc He) as [H1 _].
  destruct (H1 v Hv) as (r & acts & w & ms & Hr & Hms & Hw & ->). exists (set_wheel c w).
  destruct (so_items E c Hc _ _ Hv) as (Hid & [ch Hchk] & _). split.
  - do 2 f_equal. unfold run_check in Hr. rewrite Hi, Hchk, Hch, Hh in Hr.
    rewrite check_verdict in Hr by done. unfold check_request in Hr. simpl in Hr. rewrite Hid, Hskip in Hr.
    injection Hr as _ <-. unfold verdict, expired. fold last.
    case_decide as Hd; [rewrite bool_decide_true|rewrite bool_decide_false]; [done| |done|]; rewrite i64_small by lia; lia.
  - destruct (add_check E c v ms Hc Hms) as (w' & Hw' & _ & _ & _ & _ & Hon & _). rewrite Hid in *. rewrite Hw in Hw'. by injection Hw' as <-.
Qed.

(** An instance that is deleted and comes back before its pending check
    ran is checked twice from then on: the deletion leaves the pending check
    on the wheel, the insertion adds another, and no later operation, short
    of deleting the instance again, ever merges the two chains. *)
Theorem readded_instance_checked_twice {C} (E : Z) (c : CheckScheduler C) (iw : InstanceWithChecker C) (r : Z) :
  sched_ok E c -> iw_ok E iw -> 0 <= r < 1000 -> is_Some (scheduledInstances c !! ID (instance iw)) ->
  exists c1, steps c [Del iw; Upsert iw r] = Ret (c1, []) /\
    chains c1 (ID (instance iw)) = S (chains c (ID (instance iw))) /\
    forall os, Forall (op_ok E) os -> Forall (keeps (ID (instance iw))) os ->
      exists c2 acts, steps c1 os = Ret (c2, acts) /\ (S (chains c (ID (instance iw))) <= chains c2 (ID (instance iw)))%nat.
Proof.
  intros Hc Hiw Hr Hs. set (id := ID (instance iw)) in *.
  destruct (step_ok E c (Del iw) Hc I) as (c0 & a0 & Hd & Hc0). pose proof Hd as Hd'. simpl in Hd'. injection Hd' as Hc0e <-.
  destruct (UpsertInstance_ok E c0 iw r Hc0 Hiw Hr) as (c1 & Hu & Hc1 & Hdom & _).
  exists c1. cbn [steps]. rewrite Hd. simpl. rewrite Hu. simpl. split; [done|].
  assert (chains c1 id = S (chains c id)) as Hch.
  { unfold UpsertInstance, upsertInstanceChecker in Hu.
    assert (scheduledInstances c0 !! ID (instance iw) = None) as Hnone.
    { rewrite <- Hc0e. unfold DelInstance. case_bool_decide; simpl; by rewrite lookup_delete_eq. }
    rewrite Hnone in Hu. unfold addUnHealthyCallback in Hu. apply bind_Ret in Hu as (w & Hw & [= <-]). simpl in Hw.
    set (v := mkItemValue _ _ _ _ _ _) in Hw.
    assert (0 <= unHealthyDelay c0 v r <= E * 1000 + 999) as Hms by (apply unHealthyDelay_bound; [apply Hc|apply Hiw|done]).
    unfold chains. simpl. pose proof (add_check_chains E c0 w v (unHealthyDelay c0 v r) id Hc0 Hms Hw) as Hcnt. rewrite Hcnt.
    simpl. rewrite decide_True by done. rewrite <- Hc0e. unfold DelInstance. by case_bool_decide. }
  split; [done|]. intros os Hos Hk. rewrite <- Hch. apply (steps_chains E); [done..|].
  apply elem_of_dom. rewrite Hdom. set_solver.
Qed.

(** A client that has just been added is checked twice by the first client
    tick: its zero [lastCheckTimeSec] lists it once for being new and once
    for being overdue - and when it is silent, it is deregistered twice. *)
Theorem new_client_checked_twice {C} (c : CheckScheduler C) (e : env C) (id : string) (v : clientItemValue C) (cl : Client) (ch : C)
    (resp : CheckResponse) :
  scheduledClients c = {[id := v]} -> lastCheckTimeSec v = 0 -> checker (item v) = Some ch ->
  0 <= expireDurationSec (item v) <= currentTimeSec e -> currentTimeSec e < 2 ^ 63 ->
  cachedClient e id = Some cl ->
  (forall req, check_ e ch req = Ret (Okay resp)) -> StayUnchanged resp = false -> RHealthy resp = false ->
  exists c', doCheckClient c e = Ret (c', [AsyncDeregisterClient (CId cl); AsyncDeregisterClient (CId cl)]).
Proof.
  intros Hcl Hlast Hch Hexp Hcur Hcache Hresp Hst Hh. unfold doCheckClient. rewrite Hcl, map_to_list_singleton.
  assert (itemsToCheck [(id, v)] (currentTimeSec e) = [id; id]) as ->.
  { unfold itemsToCheck. simpl. rewrite Hlast, Z.sub_0_r, i64_small by lia. rewrite (decide_True (P := 0 = 0)) by done.
    rewrite decide_True by lia. done. }
  assert (scheduledClients c !! id = Some v) as Hl by (by rewrite Hcl, lookup_singleton_eq).
  assert (forall c0 v0, scheduledClients c0 !! id = Some v0 -> item v0 = item v ->
    checkCallbackClient c0 id e = Ret (Some v0, [AsyncDeregisterClient (CId cl)])) as Hcb.
  { intros c0 v0 H0 Hi. unfold checkCallbackClient. rewrite H0, Hcache, Hi, Hch, Hresp. simpl. by rewrite Hst, Hh. }
  cbn [check_clients]. rewrite (Hcb c v Hl eq_refl). cbn [mbind outcome_bind].
  erewrite Hcb; [|simpl; apply lookup_insert_eq|done]. simpl. eauto.
Qed.

(** Adopting loses nothing: after any sequence of adopt events and ticks,
    with any calls failing in between, once a tick's calls succeed the
    checkers have last been told about every instance what its last event
    said. *)
Theorem adopt_delivers_last_event {C} (ch : option C) (ins : list (adopt_in C * bool)) (id : string) :
  let '(a, calls) := adopt_all (mkAdopter ∅ ∅ ch) (ins ++ [(AdoptTick, true)]) in
  last_call calls None id = last_adopt ins None id \/ last_adopt ins None id = None.
Proof.
  assert (forall ins1 ins2 (a : adopter C), adopt_all a (ins1 ++ ins2) =
    (let '(a1, c1) := adopt_all a ins1 in let '(a2, c2) := adopt_all a1 ins2 in (a2, c1 ++ c2))) as Happ.
  { induction ins1 as [|[i ok] ins1 IH]; intros ins2 a; simpl; [by destruct (adopt_all a ins2)|].
    destruct (doAdopt a i ok) as [a1 c1]. rewrite IH. destruct (adopt_all a1 ins1) as [a2 c2].
    destruct (adopt_all a2 ins2) as [a3 c3]. by rewrite app_assoc. }
  rewrite Happ. destruct (adopt_all (mkAdopter ∅ ∅ ch) ins) as [a1 c1] eqn:H1.
  assert (adopt_inv a1 (last_adopt ins None id) (last_call c1 None id) id) as Hi.
  { eapply (adopt_all_inv ins); [exact H1|]. unfold adopt_inv. set_solver. }
  cbn [adopt_all]. destruct (doAdopt a1 AdoptTick true) as [a2 c2] eqn:H2. rewrite app_nil_r.
  unfold last_call. rewrite foldl_app. fold (last_call c1 None id). fold (last_call c2 (last_call c1 None id) id).
  simpl in H2. destruct (flush_inv _ _ _ _ _ _ _ _ _ H2 Hi) as (Hi2 & Hadd & Hrem). unfold adopt_inv in Hi2.
  destruct (last_adopt ins None id) as [[]|]; [| |by right]; left; destruct Hi2 as [_ [Hin|?]]; try done; exfalso.
  - assert (instancesToAdd a2 = ∅) as He; [|rewrite He in Hin; set_solver].
    destruct (bool_decide (0 < size (instancesToAdd a1))%nat) eqn:Hb; [by apply Hadd|]. apply bool_decide_eq_false in Hb.
    unfold flush in H2. case_bool_decide; injection H2 as <- _; simpl; apply leibniz_equiv, size_empty_inv; lia.
  - assert (instancesToRemove a2 = ∅) as He; [|rewrite He in Hin; set_solver].
    destruct (bool_decide (0 < size (instancesToRemove a1))%nat) eqn:Hb; [by apply Hrem|]. apply bool_decide_eq_false in Hb.
    unfold flush in H2. case_bool_decide; injection H2 as <- _; simpl; apply leibniz_equiv, size_empty_inv; lia.
Qed.

(** ** Witnesses *)

Definition demo_iw (id : string) : InstanceWithChecker unit := newInstanceWithChecker (demo_instance id "r1" true) (Some tt).
Definition demo_sched : CheckScheduler unit :=
  mkCheckScheduler ∅ ∅ (mkTimeWheel Second (-1) (replicate 20 []) 20) 1 30 120 [] [].

(** Checks against an in-memory checker that heard of nobody, at second 100. *)
Definition demo_env (success : bool) : env unit :=
  mkEnv (fun id => Some (demo_instance id "r1" true)) (fun id => Some (mkClient id "h"))
    (fun _ req => hc_check MemoryChecker.Initialize 100000 req) true success 100 7.

Lemma demo_sched_new : newCheckScheduler 20 (1 * Second) (30 * Second) (120 * Second) = Some demo_sched.
Proof. reflexivity. Qed.

Lemma demo_env_ok success : env_ok (demo_env success).
Proof. split; [simpl; lia|]. intros. eexists. reflexivity. Qed.

Lemma demo_iw_ok id : iw_ok 60 (demo_iw id).
Proof. split; [by eexists|]. change (getExpireDurationSec (instance (demo_iw id))) with (u32 15). rewrite wrap_u_small by lia. lia. Qed.

Lemma scheduled_instances_stay_checked_witness :
  exists c acts, steps demo_sched [Upsert (demo_iw "a") 500; Tick; Callback 0 (demo_env true); Tick] = Ret (c, acts) /\
    forall k, is_Some (scheduledInstances c !! k) ->
      k ∈ running c \/
      exists n c' acts', Z.of_nat n <= max_wait 60 c /\ steps c (replicate n Tick) = Ret (c', acts') /\ k ∈ running c'.
Proof.
  apply (scheduled_instances_stay_checked 60 20 (1 * Second) (30 * Second) (120 * Second) demo_sched).
  - exact demo_sched_new.
  - lia.
  - vm_compute. discriminate.
  - constructor; [|constructor; [|constructor; [|constructor; [|constructor]]]].
    + split; [apply demo_iw_ok|lia].
    + exact I.
    + apply demo_env_ok.
    + exact I.
Defined.

(** One instance, scheduled. *)
Definition demo_sched1 : CheckScheduler unit :=
  match steps demo_sched [Upsert (demo_iw "a") 500] with Ret (c, _) => c | Panics _ => demo_sched end.

Lemma demo_sched1_ok : sched_ok 60 demo_sched1.
Proof.
  destruct (steps_ok 60 demo_sched [Upsert (demo_iw "a") 500]) as (c & acts & He & Hc).
  - eapply new_scheduler_ok; [exact demo_sched_new|lia|]. vm_compute. discriminate.
  - constructor; [split; [apply demo_iw_ok|lia]|constructor].
  - unfold demo_sched1. by rewrite He.
Qed.

Lemma callback_takes_down_the_silent_witness :
  exists c', checkCallbackInstance demo_sched1 "a" (demo_env true) =
      Ret (c', [AsyncHeartbeat "a" false 0; PublishEvent "a" EventInstanceTurnUnHealth]) /\ on_wheel 60 c' "a".
Proof.
  destruct (callback_takes_down_the_silent 60 demo_sched1 "a" (mkItemValue "a" "10.0.0.9" 80 5 15 (Some tt))
    (demo_instance "a" "r1" true) MemoryChecker.Initialize 100000 (demo_env true)) as (c' & He & Hon).
  - exact demo_sched1_ok.
  - apply demo_env_ok.
  - vm_compute. reflexivity.
  - reflexivity.
  - reflexivity.
  - reflexivity.
  - exact I.
  - reflexivity.
  - simpl. lia.
  - split; vm_compute; [discriminate|reflexivity].
  - simpl. lia.
  - exists c'. split; [|exact Hon]. rewrite He. f_equal.
Defined.

Lemma readded_instance_checked_twice_witness :
  exists c1, steps demo_sched1 [Del (demo_iw "a"); Upsert (demo_iw "a") 500] = Ret (c1, []) /\
    chains c1 "a" = S (chains demo_sched1 "a") /\
    forall os, Forall (op_ok 60) os -> Forall (keeps "a") os ->
      exists c2 acts, steps c1 os = Ret (c2, acts) /\ (S (chains demo_sched1 "a") <= chains c2 "a")%nat.
Proof.
  apply (readded_instance_checked_twice 60 demo_sched1 (demo_iw "a") 500).
  - exact demo_sched1_ok.
  - apply demo_iw_ok.
  - lia.
  - vm_compute. eexists. reflexivity.
Defined.

Definition demo_client_value : clientItemValue unit := mkClientItemValue (mkItemValue "cl" "h" 0 20 60 (Some tt)) 0.
Definition demo_client_sched : CheckScheduler unit :=
  mkCheckScheduler ∅ {["cl" := demo_client_value]} (timeWheel demo_sched) 1 30 20 [] [].
Definition silent_env : env unit :=
  mkEnv (fun _ => None) (fun id => Some (mkClient id "h")) (fun _ _ => Ret (Okay (mkResponse false 0 false false))) true true 100 7.

Lemma new_client_checked_twice_witness :
  exists c', doCheckClient demo_client_sched silent_env = Ret (c', [AsyncDeregisterClient "cl"; AsyncDeregisterClient "cl"]).
Proof.
  apply (new_client_checked_twice demo_client_sched silent_env "cl" demo_client_value (mkClient "cl" "h") tt (mkResponse false 0 false false));
    try reflexivity; simpl; lia.
Defined.
