(* ===== verification/Dispatcher.v ===== *)
(** * The dispatcher ([src/service/healthcheck/dispatch.go])

    Every server keeps the ring ([Hash.v]) of the healthy polaris servers and
    checks the instances and clients whose hash falls to itself.  The
    dispatcher reacts to the events of the cache ([HealthCache.v]) and tells
    the scheduler ([Scheduler.v]) what to check. *)

From S2P Require Import Prelude TimeWheel Hash ShardMap HealthCache Scheduler.
From Stdlib Require Import ZArith Lia.
From stdpp Require Import base tactics list gmap strings sorting.

Open Scope Z_scope.

Definition weight : Z := 100.

Section dispatcher.
  Context {C : Type}.
  (** [commonhash.New] on a Go map: any iteration order, any sort. *)
  Context (build : gset Bucket -> option (list continuumPoint)).
  Context (localHost : string).

Record Dispatcher := mkDispatcher {
  instancesChanged : bool;
  clientsChanged : bool;
  selfChanged : bool;
  managedInstances : gmap string (InstanceWithChecker C);
  managedClients : gmap string (ClientWithChecker C);
  selfServiceBuckets : gset Bucket;
  continuum : option (list continuumPoint);
  noAvailableServers : bool }.

Definition newDispatcher : Dispatcher := mkDispatcher false false false ∅ ∅ ∅ None false.

Definition UpdateStatusByEvent (d : Dispatcher) (event : CacheEvent) : Dispatcher :=
  mkDispatcher (instancesChanged d || healthCheckInstancesChanged event)
    (clientsChanged d || healthCheckClientChanged event) (selfChanged d || selfServiceInstancesChanged event)
    (managedInstances d) (managedClients d) (selfServiceBuckets d) (continuum d) (noAvailableServers d).

Definition set_ring (d : Dispatcher) bs ring none :=
  mkDispatcher (instancesChanged d) (clientsChanged d) (selfChanged d) (managedInstances d) (managedClients d) bs ring none.
Definition set_managed (d : Dispatcher) m :=
  mkDispatcher (instancesChanged d) (clientsChanged d) (selfChanged d) m (managedClients d) (selfServiceBuckets d) (continuum d)
    (noAvailableServers d).
Definition set_managed_clients (d : Dispatcher) m :=
  mkDispatcher (instancesChanged d) (clientsChanged d) (selfChanged d) (managedInstances d) m (selfServiceBuckets d) (continuum d)
    (noAvailableServers d).
Definition clear_self (d : Dispatcher) :=
  mkDispatcher (instancesChanged d) (clientsChanged d) false (managedInstances d) (managedClients d) (selfServiceBuckets d) (continuum d)
    (noAvailableServers d).
Definition clear_instances (d : Dispatcher) :=
  mkDispatcher false (clientsChanged d) (selfChanged d) (managedInstances d) (managedClients d) (selfServiceBuckets d) (continuum d)
    (noAvailableServers d).
Definition clear_clients (d : Dispatcher) :=
  mkDispatcher (instancesChanged d) false (selfChanged d) (managedInstances d) (managedClients d) (selfServiceBuckets d) (continuum d)
    (noAvailableServers d).

Definition compareBuckets (src dst : gset Bucket) : bool :=
  if decide (size src <> size dst) then false
  else if decide (size src = 0%nat) then false
  else bool_decide (dst ⊆ src).

Fixpoint next_buckets (servers : list (option Instance)) (acc : gset Bucket) : outcome (gset Bucket) :=
  match servers with
  | [] => Ret acc
  | None :: _ => Panics NilDereference
  | Some i :: servers =>
      next_buckets servers (if Isolate i || negb (Healthy i) then acc else {[mkBucket (IHost i) weight]} ∪ acc)
  end.

(** Whether it reloaded, and whether it suspended all the checkers. *)
Definition reloadSelfContinuum (d : Dispatcher) (cache : CacheProvider C) : outcome (Dispatcher * bool * bool) :=
  nextBuckets ← next_buckets (RangeSelfServiceInstances cache) ∅;
  let none := if decide (size nextBuckets = 0%nat) then true else noAvailableServers d in
  if compareBuckets (selfServiceBuckets d) nextBuckets
  then Ret (set_ring d (selfServiceBuckets d) (continuum d) none, false, false)
  else
    let suspend := none && bool_decide (size nextBuckets <> 0%nat) in
    Ret (set_ring d nextBuckets (build nextBuckets) (if suspend then false else none), true, suspend).

Fixpoint next_instances (ring : list continuumPoint) (items : list (string * ItemWithChecker C)) (acc : gmap string (InstanceWithChecker C))
    : outcome (gmap string (InstanceWithChecker C)) :=
  match items with
  | [] => Ret acc
  | (_, ClientItem _) :: _ => Panics NilDereference
  | (_, InstanceItem iw) :: items =>
      host ← Hash.Hash ring (ihashValue iw);
      next_instances ring items (if decide (host = localHost) then <[ID (instance iw) := iw]> acc else acc)
  end.

Fixpoint next_clients (ring : list continuumPoint) (items : list (string * ItemWithChecker C)) (acc : gmap string (ClientWithChecker C))
    : outcome (gmap string (ClientWithChecker C)) :=
  match items with
  | [] => Ret acc
  | (_, InstanceItem _) :: _ => Panics NilDereference
  | (_, ClientItem cw) :: items =>
      host ← Hash.Hash ring (chashValue cw);
      next_clients ring items (if decide (host = localHost) then <[CId (client cw) := cw]> acc else acc)
  end.

(** The loops over the two maps; [rnds] draws the random delays. *)
Fixpoint upsert_all (s : CheckScheduler C) (items : list (string * InstanceWithChecker C)) (rnds : string -> Z) : outcome (CheckScheduler C) :=
  match items with
  | [] => Ret s
  | (id, iw) :: items => s' ← UpsertInstance s iw (rnds id); upsert_all s' items rnds
  end.

Definition delete_all (s : CheckScheduler C) (items : list (string * InstanceWithChecker C)) (next : gmap string (InstanceWithChecker C)) : CheckScheduler C :=
  foldl (fun s (kv : string * InstanceWithChecker C) =>
    if decide (size next = 0%nat) then DelInstance s kv.2
    else if decide (next !! kv.1 = None) then DelInstance s kv.2 else s) s items.

Definition reloadManagedInstances (d : Dispatcher) (cache : CacheProvider C) (s : CheckScheduler C) (rnds : string -> Z)
    : outcome (Dispatcher * CheckScheduler C) :=
  nextInstances ← match continuum d with
                  | Some ring => next_instances ring (RangeHealthCheckInstances cache) ∅
                  | None => Ret ∅
                  end;
  s ← upsert_all s (map_to_list nextInstances) rnds;
  Ret (set_managed d nextInstances, delete_all s (map_to_list (managedInstances d)) nextInstances).

Definition add_clients (s : CheckScheduler C) (items : list (string * ClientWithChecker C)) (origin : gmap string (ClientWithChecker C)) : CheckScheduler C :=
  foldl (fun s (kv : string * ClientWithChecker C) =>
    if decide (size origin = 0%nat) then AddClient s kv.2
    else if decide (origin !! kv.1 = None) then AddClient s kv.2 else s) s items.
Definition delete_clients (s : CheckScheduler C) (items : list (string * ClientWithChecker C)) (next : gmap string (ClientWithChecker C)) : CheckScheduler C :=
  foldl (fun s (kv : string * ClientWithChecker C) =>
    if decide (size next = 0%nat) then DelClient s kv.2
    else if decide (next !! kv.1 = None) then DelClient s kv.2 else s) s items.

Definition reloadManagedClients (d : Dispatcher) (cache : CacheProvider C) (s : CheckScheduler C) : outcome (Dispatcher * CheckScheduler C) :=
  nextClients ← match continuum d with
                | Some ring => next_clients ring (RangeHealthCheckClients cache) ∅
                | None => Ret ∅
                end;
  Ret (set_managed_clients d nextClients,
       delete_clients (add_clients s (map_to_list nextClients) (managedClients d)) (map_to_list (managedClients d)) nextClients).

(** The compare-and-swaps clear a flag only when they are evaluated. *)
Definition processEvent (d : Dispatcher) (cache : CacheProvider C) (s : CheckScheduler C) (rnds : string -> Z)
    : outcome (Dispatcher * CheckScheduler C * bool) :=
  '(d, reloaded, suspend) ← (if selfChanged d then reloadSelfContinuum (clear_self d) cache else Ret (d, false, false));
  '(d, s) ← (if reloaded : bool then reloadManagedInstances d cache s rnds
             else if instancesChanged d then reloadManagedInstances (clear_instances d) cache s rnds else Ret (d, s));
  '(d, s) ← (if reloaded : bool then reloadManagedClients d cache s
             else if clientsChanged d then reloadManagedClients (clear_clients d) cache s else Ret (d, s));
  Ret (d, s, suspend).

Definition processEnsure (d : Dispatcher) (cache : CacheProvider C) (s : CheckScheduler C) (rnds : string -> Z)
    : outcome (Dispatcher * CheckScheduler C * bool) :=
  '(d, _, suspend) ← reloadSelfContinuum d cache;
  '(d, s) ← reloadManagedInstances d cache s rnds;
  '(d, s) ← reloadManagedClients d cache s;
  Ret (d, s, suspend).

End dispatcher.
Arguments Dispatcher : clear implicits.

(** ** Specification *)

Section spec.
  Context {C : Type} (checkers : gmap Z C) (E : Z).
  Context (build : gset Bucket -> option (list continuumPoint)) (localHost : string).
  Implicit Types (d : Dispatcher C) (cache : CacheProvider C) (s : CheckScheduler C).

(** The buckets of the healthy servers of the cache. *)
Definition healthy_server (i : Instance) : bool := negb (Isolate i) && Healthy i.
Definition servers cache : gset Bucket :=
  list_to_set ((fun kv : string * Instance => mkBucket (IHost kv.2) weight) <$>
    filter (fun kv : string * Instance => healthy_server kv.2 = true) (map_to_list (instances_of (selfServiceInstances cache)))).

(** The ring gives [hash] to this server. *)
Definition mine (ring : option (list continuumPoint)) (hash : Z) : bool :=
  match ring with
  | Some ring => bool_decide (Hash.Hash ring hash = Ret localHost)
  | None => false
  end.

Definition my_instances (ring : option (list continuumPoint)) cache : gmap string (InstanceWithChecker C) :=
  omap (fun it => match it with
                  | InstanceItem iw => if mine ring (ihashValue iw) then Some iw else None
                  | ClientItem _ => None
                  end) (contents (healthCheckInstances cache)).
Definition my_clients (ring : option (list continuumPoint)) cache : gmap string (ClientWithChecker C) :=
  omap (fun it => match it with
                  | ClientItem cw => if mine ring (chashValue cw) then Some cw else None
                  | InstanceItem _ => None
                  end) (contents (healthCheckClients cache)).

(** The scheduler checks what the dispatcher manages. *)
Record in_step d s : Prop := {
  is_instances : dom (scheduledInstances s) = dom (managedInstances d);
  is_clients : dom (scheduledClients s) = dom (managedClients d);
  is_keys : map_Forall (fun k iw => ID (instance iw) = k) (managedInstances d);
  is_client_keys : map_Forall (fun k cw => CId (client cw) = k) (managedClients d) }.

(** The dispatcher reflects the cache. *)
Record reflects d cache : Prop := {
  rf_buckets : selfServiceBuckets d = servers cache;
  rf_ring : continuum d = build (servers cache);
  rf_instances : managedInstances d = my_instances (continuum d) cache;
  rf_clients : managedClients d = my_clients (continuum d) cache }.

(** Every cached instance has an expire duration the scheduler can handle. *)
Definition expires_ok cache : Prop :=
  map_Forall (fun _ it => match it with InstanceItem iw => iw_ok E iw | ClientItem _ => True end) (contents (healthCheckInstances cache)).

(** Looking a hash up in a ring never panics; for a ring that [build] made it
    follows from [Hash_owner]. *)
Definition sound_ring (ring : list continuumPoint) : Prop := StronglySorted point_le ring.
Context (build_sound : forall bs ring, build bs = Some ring -> sound_ring ring).

(** ** Lemmas *)

Lemma Hash_returns ring h : sound_ring ring -> exists host, Hash.Hash ring h = Ret host.
Proof.
  intros Hs. destruct (decide (ring = [])) as [->|Hne]; [by eexists|].
  destruct (Hash_owner ring h Hs Hne) as (p & _ & ->). eauto.
Qed.

Lemma next_buckets_spec ls acc :
  (forall o, o ∈ ls -> is_Some o) ->
  next_buckets ls acc = Ret (acc ∪ list_to_set ((fun i => mkBucket (IHost i) weight) <$> filter (fun i => healthy_server i = true) (omap id ls))).
Proof.
  clear build_sound build.
  revert acc. induction ls as [|o ls IH]; intros acc Hs; simpl; [f_equal; set_solver|].
  destruct (Hs o) as [i ->]; [set_solver|]. rewrite IH by (intros; apply Hs; set_solver). f_equal. simpl. rewrite filter_cons.
  destruct (healthy_server i) eqn:Hh; unfold healthy_server in Hh.
  - rewrite decide_True by done. destruct (Isolate i), (Healthy i); try done. csimpl. set_solver.
  - rewrite decide_False by done. by destruct (Isolate i), (Healthy i).
Qed.

Lemma omap_fmap_perm (m : gmap string (ItemWithChecker C)) :
  map_Forall self_item_ok m ->
  omap id ((fun kv => GetInstanceOf kv.2) <$> map_to_list m) ≡ₚ (map_to_list (omap GetInstanceOf m)).*2.
Proof.
  clear build_sound build.
  induction m as [|k it m Hk IH] using map_ind; intros HF.
  - by rewrite omap_empty, !map_to_list_empty.
  - rewrite map_to_list_insert by done. apply map_Forall_insert in HF as [Hit HF]; [|done].
    destruct it as [iw|]; [|done]. rewrite (omap_insert_Some _ _ _ _ (instance iw)) by done.
    rewrite map_to_list_insert by (by rewrite lookup_omap, Hk). csimpl. by rewrite IH.
Qed.

Lemma servers_range cache :
  cache_ok checkers cache -> next_buckets (RangeSelfServiceInstances cache) ∅ = Ret (servers cache).
Proof.
  clear build_sound build.
  intros Hc. pose proof (Range_spec _ (co_self _ _ Hc)) as Hr. unfold RangeSelfServiceInstances.
  rewrite next_buckets_spec.
  - f_equal. rewrite (left_id_L ∅ (∪)). unfold servers, instances_of.
    apply leibniz_equiv, list_to_set_perm.
    rewrite (fmap_Permutation _ _ _ Hr), (omap_fmap_perm _ (co_self_items _ _ Hc)).
    generalize (map_to_list (omap GetInstanceOf (contents (selfServiceInstances cache)) : gmap string Instance)). clear.
    induction l as [|[k i] l IH]; [done|]. csimpl. rewrite !filter_cons. csimpl. case_decide; csimpl; by rewrite IH.
  - intros o (kv & -> & Hin)%list_elem_of_fmap. rewrite Hr in Hin. destruct kv as [k it]. apply elem_of_map_to_list in Hin.
    pose proof (co_self_items _ _ Hc _ _ Hin) as Hit. destruct it; [by eexists|done].
Qed.

Lemma compareBuckets_eq src dst : compareBuckets src dst = true -> src = dst.
Proof.
  unfold compareBuckets. repeat case_decide; try done. intros Hsub%bool_decide_eq_true.
  symmetry. apply set_eq_subseteq. split; [done|]. destruct (decide (src ⊆ dst)) as [|Hn]; [done|].
  assert (size dst < size src)%nat; [|lia]. apply subset_size. set_solver.
Qed.

Lemma reloadSelfContinuum_spec d cache :
  cache_ok checkers cache -> continuum d = build (selfServiceBuckets d) ->
  exists d' reloaded suspend, reloadSelfContinuum build d cache = Ret (d', reloaded, suspend) /\
    selfServiceBuckets d' = servers cache /\ continuum d' = build (servers cache) /\
    (reloaded = false -> selfServiceBuckets d = servers cache) /\
    managedInstances d' = managedInstances d /\ managedClients d' = managedClients d /\
    instancesChanged d' = instancesChanged d /\ clientsChanged d' = clientsChanged d /\ selfChanged d' = selfChanged d /\
    (noAvailableServers d = true -> servers cache <> selfServiceBuckets d -> servers cache <> ∅ -> suspend = true).
Proof.
  intros Hc Hr. unfold reloadSelfContinuum. rewrite servers_range by done. cbn [mbind outcome_bind]. cbv zeta.
  destruct (compareBuckets _ _) eqn:Hcmp.
  - apply compareBuckets_eq in Hcmp. do 3 eexists. split; [done|]. simpl. rewrite <- Hcmp. split_and!; try done. 
  - do 3 eexists. split; [done|]. simpl. split_and!; try done. intros -> Hne Hnil.
    assert (size (servers cache) <> 0%nat) as Hs by (intros Hz%size_empty_inv; by apply Hnil, leibniz_equiv).
    rewrite decide_False by done. simpl. by apply bool_decide_eq_true.
Qed.

Lemma next_instances_spec ring items acc :
  sound_ring ring -> NoDup items.*1 -> Forall (fun kv => instance_item_ok checkers kv.1 kv.2) items ->
  next_instances localHost ring items acc =
  Ret (omap (fun it => match it with
                       | InstanceItem iw => if mine (Some ring) (ihashValue iw) then Some iw else None
                       | ClientItem _ => None
                       end) (list_to_map items : gmap string (ItemWithChecker C)) ∪ acc).
Proof.
  intros Hs. revert acc. induction items as [|[k it] items IH]; intros acc Hn HF; simpl.
  { by rewrite omap_empty, (left_id_L ∅ (∪)). }
  inversion HF as [|? ? Hit HF']; subst. inversion Hn as [|? ? Hk Hn']; subst. simpl in *.
  assert ((list_to_map items : gmap string (ItemWithChecker C)) !! k = None) as Hnone by (by apply not_elem_of_list_to_map_1).
  destruct it as [iw|]; [|done]. destruct Hit as (Hid & _). destruct (Hash_returns ring (ihashValue iw) Hs) as [host Hh]. rewrite Hh.
  cbn [mbind outcome_bind]. rewrite IH by done. f_equal. destruct (decide (host = localHost)) as [->|Hne].
  - rewrite (omap_insert_Some _ _ _ _ iw) by (by rewrite Hh, bool_decide_true). subst k.
    rewrite <- insert_union_l, <- insert_union_r; [done|]. by rewrite lookup_omap, Hnone.
  - rewrite omap_insert_None by (rewrite Hh, bool_decide_false; [done|congruence]).
    rewrite delete_id; [done|]. by rewrite lookup_omap, Hnone.
Qed.

Lemma next_clients_spec ring items acc :
  sound_ring ring -> NoDup items.*1 -> Forall (fun kv => client_item_ok checkers kv.1 kv.2) items ->
  next_clients localHost ring items acc =
  Ret (omap (fun it => match it with
                       | ClientItem cw => if mine (Some ring) (chashValue cw) then Some cw else None
                       | InstanceItem _ => None
                       end) (list_to_map items : gmap string (ItemWithChecker C)) ∪ acc).
Proof.
  intros Hs. revert acc. induction items as [|[k it] items IH]; intros acc Hn HF; simpl.
  { by rewrite omap_empty, (left_id_L ∅ (∪)). }
  inversion HF as [|? ? Hit HF']; subst. inversion Hn as [|? ? Hk Hn']; subst. simpl in *.
  assert ((list_to_map items : gmap string (ItemWithChecker C)) !! k = None) as Hnone by (by apply not_elem_of_list_to_map_1).
  destruct it as [|cw]; [done|]. destruct Hit as (Hid & _). destruct (Hash_returns ring (chashValue cw) Hs) as [host Hh]. rewrite Hh.
  cbn [mbind outcome_bind]. rewrite IH by done. f_equal. destruct (decide (host = localHost)) as [->|Hne].
  - rewrite (omap_insert_Some _ _ _ _ cw) by (by rewrite Hh, bool_decide_true). subst k.
    rewrite <- insert_union_l, <- insert_union_r; [done|]. by rewrite lookup_omap, Hnone.
  - rewrite omap_insert_None by (rewrite Hh, bool_decide_false; [done|congruence]).
    rewrite delete_id; [done|]. by rewrite lookup_omap, Hnone.
Qed.

(** The entries a [Range] visits, as the next maps want them. *)
Lemma range_items (m : shardMap (ItemWithChecker C)) P :
  inv m -> map_Forall P (contents m) ->
  NoDup (Range m).*1 /\ Forall (fun kv => P kv.1 kv.2) (Range m) /\ list_to_map (Range m) = contents m.
Proof.
  intros Hi HF. pose proof (Range_spec m Hi) as Hr. assert (NoDup (Range m).*1) as Hn.
  { rewrite Hr. apply NoDup_fst_map_to_list. }
  split; [done|]. split.
  - rewrite Hr. apply Forall_forall. intros [k it] Hin%elem_of_map_to_list. by apply HF.
  - rewrite (list_to_map_proper _ _ Hn Hr). apply list_to_map_to_list.
Qed.

(** One pass over the provider's instances collects this server's own. *)
Lemma next_instances_mine ring cache :
  cache_ok checkers cache -> sound_ring ring ->
  next_instances localHost ring (RangeHealthCheckInstances cache) ∅ = Ret (my_instances (Some ring) cache).
Proof.
  intros Hc Hs. destruct (range_items _ _ (co_instances _ _ Hc) (co_instance_items _ _ Hc)) as (Hn & HF & Hl).
  rewrite next_instances_spec by done. f_equal. unfold RangeHealthCheckInstances. rewrite Hl. by rewrite (right_id_L ∅ (∪)).
Qed.

Lemma my_instances_keys ring cache : cache_ok checkers cache -> map_Forall (fun k iw => ID (instance iw) = k) (my_instances ring cache).
Proof.
  intros Hc k iw Hk. unfold my_instances in Hk. rewrite lookup_omap in Hk.
  destruct (contents (healthCheckInstances cache) !! k) as [it|] eqn:Hit; [|done]. pose proof (co_instance_items _ _ Hc _ _ Hit) as Hok.
  destruct it as [iw'|]; [|done]. simpl in Hk. case_match; simplify_eq. symmetry. apply Hok.
Qed.

Lemma my_clients_keys ring cache : cache_ok checkers cache -> map_Forall (fun k cw => CId (client cw) = k) (my_clients ring cache).
Proof.
  intros Hc k cw Hk. unfold my_clients in Hk. rewrite lookup_omap in Hk.
  destruct (contents (healthCheckClients cache) !! k) as [it|] eqn:Hit; [|done]. pose proof (co_client_items _ _ Hc _ _ Hit) as Hok.
  destruct it as [|cw']; [done|]. simpl in Hk. case_match; simplify_eq. symmetry. apply Hok.
Qed.

Lemma my_instances_ok ring cache : cache_ok checkers cache -> expires_ok cache -> map_Forall (fun _ iw => iw_ok E iw) (my_instances ring cache).
Proof.
  intros Hc He k iw Hk. unfold my_instances in Hk. rewrite lookup_omap in Hk.
  destruct (contents (healthCheckInstances cache) !! k) as [it|] eqn:Hit; [|done]. pose proof (He _ _ Hit) as Hok.
  destruct it as [iw'|]; [|done]. simpl in Hk. by case_match; simplify_eq.
Qed.

(** *** The scheduler's side *)

Lemma DelInstance_dom s iw :
  sched_ok E s ->
  sched_ok E (DelInstance s iw) /\ dom (scheduledInstances (DelInstance s iw)) = dom (scheduledInstances s) ∖ {[ID (instance iw)]} /\
  scheduledClients (DelInstance s iw) = scheduledClients s.
Proof.
  intros Hs. destruct (step_ok E s (Del iw) Hs I) as (s' & a & He & Hs'). simpl in He. injection He as <- <-.
  split; [done|]. unfold DelInstance. by case_bool_decide; simpl; rewrite dom_delete_L.
Qed.

Lemma AddClient_dom s cw :
  sched_ok E s ->
  sched_ok E (AddClient s cw) /\ scheduledInstances (AddClient s cw) = scheduledInstances s /\
  dom (scheduledClients (AddClient s cw)) = {[CId (client cw)]} ∪ dom (scheduledClients s).
Proof.
  intros Hs. destruct (step_ok E s (PutClient cw) Hs I) as (s' & a & He & Hs'). simpl in He. injection He as <- <-.
  split; [done|]. unfold AddClient, putClientIfAbsent. destruct (scheduledClients s !! CId (client cw)) as [v|] eqn:Hv.
  - split; [done|]. apply elem_of_dom_2 in Hv. set_solver.
  - simpl. split; [done|]. by rewrite dom_insert_L.
Qed.

Lemma DelClient_dom s cw :
  sched_ok E s ->
  sched_ok E (DelClient s cw) /\ scheduledInstances (DelClient s cw) = scheduledInstances s /\
  dom (scheduledClients (DelClient s cw)) = dom (scheduledClients s) ∖ {[CId (client cw)]}.
Proof.
  intros Hs. destruct (step_ok E s (RemoveClient cw) Hs I) as (s' & a & He & Hs'). simpl in He. injection He as <- <-.
  split; [done|]. unfold DelClient. by case_bool_decide; simpl; rewrite dom_delete_L.
Qed.

Lemma upsert_all_spec s items rnds :
  sched_ok E s -> Forall (fun kv => iw_ok E kv.2 /\ ID (instance kv.2) = kv.1) items -> (forall id, 0 <= rnds id < 1000) ->
  exists s', upsert_all s items rnds = Ret s' /\ sched_ok E s' /\
    dom (scheduledInstances s') = list_to_set items.*1 ∪ dom (scheduledInstances s) /\ scheduledClients s' = scheduledClients s.
Proof.
  intros Hs HF Hr. revert s Hs. induction items as [|[k iw] items IH]; intros s Hs; cbn [upsert_all].
  { exists s. split; [done|]. split; [done|]. split; [set_solver|done]. }
  inversion HF as [|? ? [Hiw Hid] HF']; subst. simpl in Hiw, Hid. subst k.
  destruct (UpsertInstance_ok E s iw (rnds (ID (instance iw))) Hs Hiw (Hr _)) as (s1 & -> & Hs1 & Hd1 & Hc1 & _).
  cbn [mbind outcome_bind]. destruct (IH HF' s1 Hs1) as (s2 & -> & Hs2 & Hd2 & Hc2). exists s2. split; [done|]. split; [done|]. split; [|congruence].
  rewrite Hd2, Hd1. set_solver.
Qed.

(** The deletion loops remove exactly what is not in the next map. *)
Lemma delete_all_spec s items next :
  sched_ok E s -> Forall (fun kv => ID (instance kv.2) = kv.1) items ->
  sched_ok E (delete_all s items next) /\ scheduledClients (delete_all s items next) = scheduledClients s /\
  forall k, k ∈ dom (scheduledInstances (delete_all s items next)) <->
    k ∈ dom (scheduledInstances s) /\ ~ (k ∈ items.*1 /\ next !! k = None).
Proof.
  unfold delete_all. revert s. induction items as [|[k iw] items IH]; intros s Hs HF; simpl; [set_solver|].
  inversion HF as [|? ? Hid HF']; subst. simpl in Hid. subst k. cbn [fst snd] in *.
  set (s1 := if decide (size next = 0%nat) then _ else _).
  assert (sched_ok E s1 /\ scheduledClients s1 = scheduledClients s /\
    forall k, k ∈ dom (scheduledInstances s1) <-> k ∈ dom (scheduledInstances s) /\ ~ (k = ID (instance iw) /\ next !! k = None)) as (H1 & H2 & H3).
  { destruct (DelInstance_dom s iw Hs) as (Ha & Hb & Hcl). unfold s1. case_decide as Hz.
    - apply map_size_empty_inv in Hz as ->. split; [done|]. split; [done|]. intros k. rewrite Hb, lookup_empty. set_solver.
    - case_decide as Hk; [split; [done|]; split; [done|]; intros k; rewrite Hb; set_solver|]. split; [done|]. split; [done|]. naive_solver. }
  destruct (IH s1 H1 HF') as (G1 & G2 & G3). split; [done|]. split; [congruence|]. intros k. rewrite G3, H3. set_solver.
Qed.

Lemma map_keys {A} (m : gmap string A) k : k ∈ (map_to_list m).*1 <-> k ∈ dom m.
Proof.
  rewrite elem_of_dom. split.
  - intros ([k' x] & -> & Hx%elem_of_map_to_list)%list_elem_of_fmap. by eexists.
  - intros [x Hx]. apply list_elem_of_fmap. exists (k, x). split; [done|]. by apply elem_of_map_to_list.
Qed.

Lemma reloadManagedInstances_spec d cache s rnds :
  cache_ok checkers cache -> expires_ok cache -> sched_ok E s -> in_step d s -> (forall id, 0 <= rnds id < 1000) ->
  continuum d = build (selfServiceBuckets d) ->
  exists s', reloadManagedInstances localHost d cache s rnds = Ret (set_managed d (my_instances (continuum d) cache), s') /\
    sched_ok E s' /\ in_step (set_managed d (my_instances (continuum d) cache)) s' .
Proof.
  intros Hc He Hs [Hi Hcl Hk Hck] Hr Hring. unfold reloadManagedInstances.
  assert (match continuum d with
          | Some ring => next_instances localHost ring (RangeHealthCheckInstances cache) ∅
          | None => Ret ∅
          end = Ret (my_instances (continuum d) cache)) as ->.
  { destruct (continuum d) as [ring|] eqn:Hd.
    - apply next_instances_mine; [done|by eapply build_sound].
    - f_equal. unfold my_instances. symmetry. apply map_empty. intros k. rewrite lookup_omap.
      destruct (contents (healthCheckInstances cache) !! k) as [[|]|]; done. }
  cbn [mbind outcome_bind]. pose proof (my_instances_keys (continuum d) cache Hc) as Hmk.
  set (M := my_instances (continuum d) cache) in *.
  destruct (upsert_all_spec s (map_to_list M) rnds Hs) as (s1 & -> & Hs1 & Hd1 & Hcl1); [|done|].
  { apply Forall_forall. intros [k iw] Hin%elem_of_map_to_list. split; [by eapply my_instances_ok|by apply Hmk]. }
  cbn [mbind outcome_bind]. destruct (delete_all_spec s1 (map_to_list (managedInstances d)) M Hs1) as (Hs2 & Hcl2 & Hd2).
  { apply Forall_forall. intros [k iw] Hin%elem_of_map_to_list. by apply Hk. }
  eexists. split; [done|]. split; [done|]. split; simpl; [|by rewrite Hcl2, Hcl1|done|done].
  apply set_eq. intros k. rewrite Hd2, Hd1, elem_of_union, elem_of_list_to_set.
  rewrite !map_keys, Hi, <- not_elem_of_dom. destruct (decide (k ∈ dom M)); tauto.
Qed.

Lemma add_clients_spec s items origin :
  sched_ok E s -> Forall (fun kv => CId (client kv.2) = kv.1) items -> dom (origin : gmap string (ClientWithChecker C)) ⊆ dom (scheduledClients s) ->
  sched_ok E (add_clients s items origin) /\ scheduledInstances (add_clients s items origin) = scheduledInstances s /\
  dom (scheduledClients (add_clients s items origin)) = list_to_set items.*1 ∪ dom (scheduledClients s).
Proof.
  unfold add_clients. revert s. induction items as [|[k cw] items IH]; intros s Hs HF Ho; simpl; [set_solver|].
  inversion HF as [|? ? Hid HF']; subst. simpl in Hid. subst k. cbn [fst snd] in *.
  destruct (AddClient_dom s cw Hs) as (Ha & Hb & Hcl).
  set (s1 := if decide (size origin = 0%nat) then _ else _).
  assert (sched_ok E s1 /\ scheduledInstances s1 = scheduledInstances s /\
    dom (scheduledClients s1) = {[CId (client cw)]} ∪ dom (scheduledClients s)) as (H1 & H2 & H3).
  { unfold s1. case_decide; [done|]. case_decide as Hk; [done|]. split; [done|]. split; [done|].
    assert (CId (client cw) ∈ dom (scheduledClients s)); [|set_solver]. apply Ho, elem_of_dom.
    destruct (origin !! CId (client cw)); [by eexists|done]. }
  destruct (IH s1 H1 HF') as (G1 & G2 & G3); [set_solver|]. split; [done|]. split; [congruence|]. rewrite G3, H3. set_solver.
Qed.

Lemma delete_clients_spec s items next :
  sched_ok E s -> Forall (fun kv => CId (client kv.2) = kv.1) items ->
  sched_ok E (delete_clients s items next) /\ scheduledInstances (delete_clients s items next) = scheduledInstances s /\
  forall k, k ∈ dom (scheduledClients (delete_clients s items next)) <->
    k ∈ dom (scheduledClients s) /\ ~ (k ∈ items.*1 /\ next !! k = None).
Proof.
  unfold delete_clients. revert s. induction items as [|[k cw] items IH]; intros s Hs HF; simpl; [set_solver|].
  inversion HF as [|? ? Hid HF']; subst. simpl in Hid. subst k. cbn [fst snd] in *.
  set (s1 := if decide (size next = 0%nat) then _ else _).
  assert (sched_ok E s1 /\ scheduledInstances s1 = scheduledInstances s /\
    forall k, k ∈ dom (scheduledClients s1) <-> k ∈ dom (scheduledClients s) /\ ~ (k = CId (client cw) /\ next !! k = None)) as (H1 & H2 & H3).
  { destruct (DelClient_dom s cw Hs) as (Ha & Hb & Hcl). unfold s1. case_decide as Hz.
    - apply map_size_empty_inv in Hz as ->. split; [done|]. split; [done|]. intros k. rewrite Hcl, lookup_empty. set_solver.
    - case_decide as Hk; [split; [done|]; split; [done|]; intros k; rewrite Hcl; set_solver|]. split; [done|]. split; [done|]. naive_solver. }
  destruct (IH s1 H1 HF') as (G1 & G2 & G3). split; [done|]. split; [congruence|]. intros k. rewrite G3, H3. set_solver.
Qed.

Lemma reloadManagedClients_spec d cache s :
  cache_ok checkers cache -> sched_ok E s -> in_step d s -> continuum d = build (selfServiceBuckets d) ->
  exists s', reloadManagedClients localHost d cache s = Ret (set_managed_clients d (my_clients (continuum d) cache), s') /\
    sched_ok E s' /\ in_step (set_managed_clients d (my_clients (continuum d) cache)) s'.
Proof.
  intros Hc Hs [Hi Hcl Hk Hck] Hring. unfold reloadManagedClients.
  assert (match continuum d with
          | Some ring => next_clients localHost ring (RangeHealthCheckClients cache) ∅
          | None => Ret ∅
          end = Ret (my_clients (continuum d) cache)) as ->.
  { destruct (continuum d) as [ring|] eqn:Hd.
    - destruct (range_items _ _ (co_clients _ _ Hc) (co_client_items _ _ Hc)) as (Hn & HF & Hl).
      rewrite next_clients_spec; [|by eapply build_sound|done|done]. f_equal. unfold RangeHealthCheckClients. rewrite Hl.
      by rewrite (right_id_L ∅ (∪)).
    - f_equal. unfold my_clients. symmetry. apply map_empty. intros k. rewrite lookup_omap.
      destruct (contents (healthCheckClients cache) !! k) as [[|]|]; done. }
  cbn [mbind outcome_bind]. pose proof (my_clients_keys (continuum d) cache Hc) as Hmk.
  set (M := my_clients (continuum d) cache) in *.
  destruct (add_clients_spec s (map_to_list M) (managedClients d) Hs) as (Hs1 & Hi1 & Hd1); [|by rewrite Hcl|].
  { apply Forall_forall. intros [k cw] Hin%elem_of_map_to_list. by apply Hmk. }
  destruct (delete_clients_spec (add_clients s (map_to_list M) (managedClients d)) (map_to_list (managedClients d)) M Hs1) as (Hs2 & Hi2 & Hd2).
  { apply Forall_forall. intros [k cw] Hin%elem_of_map_to_list. by apply Hck. }
  eexists. split; [done|]. split; [done|]. split; simpl; [by rewrite Hi2, Hi1| |done|done].
  apply set_eq. intros k. rewrite Hd2, Hd1, elem_of_union, elem_of_list_to_set, !map_keys, Hcl, <- not_elem_of_dom.
  destruct (decide (k ∈ dom M)); tauto.
Qed.

(** What both jobs of the dispatcher need and keep. *)
Record disp_ok d s : Prop := {
  do_sched : sched_ok E s;
  do_step : in_step d s;
  do_ring : continuum d = build (selfServiceBuckets d) }.

Lemma in_step_same d d' s :
  in_step d s -> managedInstances d' = managedInstances d -> managedClients d' = managedClients d -> in_step d' s.
Proof. intros [] H1 H2. split; by rewrite ?H1, ?H2. Qed.

(** A full reload with the ring of the cache's servers. *)
Lemma reload_reflects d cache s rnds :
  cache_ok checkers cache -> expires_ok cache -> disp_ok d s -> (forall id, 0 <= rnds id < 1000) ->
  selfServiceBuckets d = servers cache -> continuum d = build (servers cache) ->
  exists d' s', ('(d, s) ← reloadManagedInstances localHost d cache s rnds; reloadManagedClients localHost d cache s) = Ret (d', s') /\
    disp_ok d' s' /\ reflects d' cache.
Proof.
  intros Hc He [Hs Hin Hring] Hr Hb Hco.
  destruct (reloadManagedInstances_spec d cache s rnds) as (s1 & -> & Hs1 & Hin1); [done..|]. cbn [mbind outcome_bind].
  destruct (reloadManagedClients_spec (set_managed d (my_instances (continuum d) cache)) cache s1) as (s2 & -> & Hs2 & Hin2); [done..|].
  do 2 eexists. split; [done|]. split; split; done.
Qed.

Lemma processEnsure_reflects d cache s rnds :
  cache_ok checkers cache -> expires_ok cache -> disp_ok d s -> (forall id, 0 <= rnds id < 1000) ->
  exists d' s' suspend, processEnsure build localHost d cache s rnds = Ret (d', s', suspend) /\ disp_ok d' s' /\ reflects d' cache /\
    (noAvailableServers d = true -> servers cache <> selfServiceBuckets d -> servers cache <> ∅ -> suspend = true).
Proof.
  intros Hc He [Hs Hin Hring] Hr. unfold processEnsure.
  destruct (reloadSelfContinuum_spec d cache Hc Hring) as (d1 & rl & su & -> & Hb & Hco & _ & Hm & Hmc & _ & _ & _ & Hsu).
  cbn [mbind outcome_bind].
  destruct (reload_reflects d1 cache s rnds Hc He) as (d2 & s2 & He2 & Hok & Hrf); [split; [done|by eapply in_step_same|congruence]|done..|].
  apply bind_Ret in He2 as ([d3 s3] & -> & H3). cbn [mbind outcome_bind]. rewrite H3. cbn [mbind outcome_bind].
  do 3 eexists. split; [done|]. split; [done|]. split; [done|exact Hsu].
Qed.

(** *** Events *)

Definition apply_events d (es : list CacheEvent) : Dispatcher C := foldl UpdateStatusByEvent d es.

Lemma apply_events_same d es :
  managedInstances (apply_events d es) = managedInstances d /\ managedClients (apply_events d es) = managedClients d /\
  selfServiceBuckets (apply_events d es) = selfServiceBuckets d /\ continuum (apply_events d es) = continuum d.
Proof. unfold apply_events. revert d. induction es as [|e es IH]; intros d; [done|]. simpl. destruct (IH (UpdateStatusByEvent d e)) as (-> & -> & -> & ->). done. Qed.

Lemma flags_mono d es :
  (selfChanged d = true -> selfChanged (apply_events d es) = true) /\
  (instancesChanged d = true -> instancesChanged (apply_events d es) = true) /\
  (clientsChanged d = true -> clientsChanged (apply_events d es) = true).
Proof.
  unfold apply_events. revert d. induction es as [|e es IH]; intros d; simpl; [done|].
  destruct (IH (UpdateStatusByEvent d e)) as (H1 & H2 & H3).
  split_and!; intros Hf; [apply H1|apply H2|apply H3]; simpl; by rewrite Hf.
Qed.

Lemma apply_events_flags d es :
  (self_changed ∈ es -> selfChanged (apply_events d es) = true) /\
  (instances_changed ∈ es -> instancesChanged (apply_events d es) = true) /\
  (clients_changed ∈ es -> clientsChanged (apply_events d es) = true).
Proof.
  revert d. induction es as [|e es IH]; intros d; [set_solver|]. simpl.
  destruct (IH (UpdateStatusByEvent d e)) as (I1 & I2 & I3). destruct (flags_mono (UpdateStatusByEvent d e) es) as (M1 & M2 & M3).
  split_and!; intros [<-|Hin]%elem_of_cons; auto; [apply M1|apply M2|apply M3]; simpl; by rewrite orb_true_r.
Qed.

Lemma my_instances_same ring cache cache' :
  healthCheckInstances cache' = healthCheckInstances cache -> my_instances ring cache' = my_instances ring cache.
Proof. unfold my_instances. by intros ->. Qed.
Lemma my_clients_same ring cache cache' :
  healthCheckClients cache' = healthCheckClients cache -> my_clients ring cache' = my_clients ring cache.
Proof. unfold my_clients. by intros ->. Qed.

(** The part of [processEvent] after a ring that did not change. *)
Lemma flagged_reload_reflects d cache0 cache s rnds :
  cache_ok checkers cache -> expires_ok cache -> disp_ok d s -> (forall id, 0 <= rnds id < 1000) ->
  selfServiceBuckets d = servers cache -> continuum d = build (servers cache) ->
  managedInstances d = my_instances (continuum d) cache0 -> managedClients d = my_clients (continuum d) cache0 ->
  (instancesChanged d = true \/ healthCheckInstances cache = healthCheckInstances cache0) ->
  (clientsChanged d = true \/ healthCheckClients cache = healthCheckClients cache0) ->
  exists d' s',
    ('(d, s) ← (if instancesChanged d then reloadManagedInstances localHost (clear_instances d) cache s rnds else Ret (d, s));
     if clientsChanged d then reloadManagedClients localHost (clear_clients d) cache s else Ret (d, s)) = Ret (d', s') /\
    disp_ok d' s' /\ reflects d' cache.
Proof.
  intros Hc He [Hs Hin Hring] Hr Hb Hco Hmi Hmc Hfi Hfc.
  assert (exists d1 s1, (if instancesChanged d then reloadManagedInstances localHost (clear_instances d) cache s rnds else Ret (d, s)) = Ret (d1, s1) /\
    disp_ok d1 s1 /\ selfServiceBuckets d1 = servers cache /\ continuum d1 = build (servers cache) /\
    managedInstances d1 = my_instances (continuum d1) cache /\ managedClients d1 = managedClients d /\ clientsChanged d1 = clientsChanged d)
    as (d1 & s1 & -> & [Hs1 Hin1 Hring1] & Hb1 & Hco1 & Hmi1 & Hmc1 & Hfc1).
  { destruct (instancesChanged d) eqn:Hfl.
    - destruct (reloadManagedInstances_spec (clear_instances d) cache s rnds) as (s1 & -> & Hs1 & Hin1); [done..|by eapply in_step_same|done|done|].
      do 2 eexists. split; [done|]. split; [by split|done].
    - destruct Hfi as [|Hsame]; [done|]. do 2 eexists. split; [done|]. split; [by split|]. split_and!; try done.
      rewrite Hmi. symmetry. by apply my_instances_same. }
  cbn [mbind outcome_bind]. rewrite Hfc1. destruct (clientsChanged d) eqn:Hfl.
  - destruct (reloadManagedClients_spec (clear_clients d1) cache s1) as (s2 & -> & Hs2 & Hin2); [done|done|by eapply in_step_same|done|].
    do 2 eexists. split; [done|]. split; split; done.
  - destruct Hfc as [|Hsame]; [done|]. do 2 eexists. split; [done|]. split; [by split|]. split; try done.
    rewrite Hmc1, Hmc, Hco1, Hco. symmetry. by apply my_clients_same.
Qed.

Lemma processEvent_reflects d cache0 cache s rnds es :
  cache_ok checkers cache -> expires_ok cache -> disp_ok d s -> reflects d cache0 -> announced cache0 cache es ->
  (forall id, 0 <= rnds id < 1000) ->
  exists d' s' suspend, processEvent build localHost (apply_events d es) cache s rnds = Ret (d', s', suspend) /\
    disp_ok d' s' /\ reflects d' cache.
Proof.
  intros Hc He [Hs Hin Hring] [Hb Hco Hmi Hmc] (Aself & Ainst & Acl) Hr.
  destruct (apply_events_same d es) as (E1 & E2 & E3 & E4). destruct (apply_events_flags d es) as (F1 & F2 & F3).
  set (d0 := apply_events d es) in *. unfold processEvent.
  assert (forall d1, managedInstances d1 = managedInstances d0 -> managedClients d1 = managedClients d0 ->
    selfServiceBuckets d1 = servers cache -> continuum d1 = build (servers cache) ->
    instancesChanged d1 = instancesChanged d0 -> clientsChanged d1 = clientsChanged d0 -> servers cache = servers cache0 ->
    exists d' s', ('(d, s) ← (if instancesChanged d1 then reloadManagedInstances localHost (clear_instances d1) cache s rnds else Ret (d1, s));
     if clientsChanged d then reloadManagedClients localHost (clear_clients d) cache s else Ret (d, s)) = Ret (d', s') /\
    disp_ok d' s' /\ reflects d' cache) as Hpart.
  { intros d1 G1 G2 G3 G4 G5 G6 G7.
    destruct (flagged_reload_reflects d1 cache0 cache s rnds) as (d' & s' & Heq & ?); try done.
    - split; [done|by eapply in_step_same; [exact Hin|congruence|congruence]|congruence].
    - rewrite G1, E1, Hmi, G4, Hco, G7. done.
    - rewrite G2, E2, Hmc, G4, Hco, G7. done.
    - destruct Ainst as [?|?]; [left; rewrite G5; auto|by right].
    - destruct Acl as [?|?]; [left; rewrite G6; auto|by right].
    - exists d', s'. done. }
  destruct (selfChanged d0) eqn:Hfs.
  - destruct (reloadSelfContinuum_spec (clear_self d0) cache Hc) as (d1 & rl & su & -> & G1 & G2 & G3 & G4 & G5 & G6 & G7 & _ & _).
    { simpl. congruence. }
    cbn [mbind outcome_bind]. destruct rl.
    + destruct (reload_reflects d1 cache s rnds Hc He) as (d2 & s2 & He2 & Hok & Hrf);
        [split; [done|eapply in_step_same; [exact Hin|simpl in *; congruence..]|congruence]|done..|].
      apply bind_Ret in He2 as ([d3 s3] & -> & H3). cbn [mbind outcome_bind]. rewrite H3. cbn [mbind outcome_bind]. eauto 10.
    + specialize (G3 eq_refl). simpl in *.
      destruct (Hpart d1) as (d2 & s2 & He2 & Hok & Hrf); [congruence..|].
      apply bind_Ret in He2 as ([d3 s3] & -> & H3). cbn [mbind outcome_bind]. rewrite H3. cbn [mbind outcome_bind]. eauto 10.
  - cbn [mbind outcome_bind]. assert (servers cache = servers cache0) as Hsv.
    { destruct Aself as [Hch|Hsame]; [discriminate (F1 Hch)|]. unfold servers. by rewrite Hsame. }
    destruct (Hpart d0) as (d2 & s2 & He2 & Hok & Hrf); [done|done|congruence|congruence|done|done|done|].
    apply bind_Ret in He2 as ([d3 s3] & -> & H3). cbn [mbind outcome_bind]. rewrite H3. cbn [mbind outcome_bind]. eauto 10.
Qed.
End spec.

(** ** Properties *)

(** The dispatcher keeps up with the cache: if it reflected the cache
    before a callback - its ring is the ring of the healthy servers, it
    manages exactly the instances and clients the ring gives to this server,
    and the scheduler checks exactly those - then the next event job, with the
    flags of the events that callback sent, makes it reflect the cache after
    it. *)
Theorem event_job_keeps_up {C} (checkers : gmap Z C) (E : Z) (build : gset Bucket -> option (list continuumPoint)) (localHost : string)
    (d : Dispatcher C) (s : CheckScheduler C) (cache0 : CacheProvider C) (cb : callback) (rnds : string -> Z) :
  (forall bs ring, build bs = Some ring -> sound_ring ring) -> (forall id, 0 <= rnds id < 1000) ->
  cache_ok checkers cache0 -> disp_ok E build d s -> reflects build localHost d cache0 ->
  exists cache es, call checkers cache0 cb = Ret (cache, es) /\
    (expires_ok E cache ->
     exists d' s' suspend, processEvent build localHost (apply_events d es) cache s rnds = Ret (d', s', suspend) /\
       disp_ok E build d' s' /\ reflects build localHost d' cache /\
       dom (scheduledInstances s') = dom (my_instances localHost (build (servers cache)) cache) /\
       dom (scheduledClients s') = dom (my_clients localHost (build (servers cache)) cache)).
Proof.
  intros Hb Hr Hc Hd Hrf. destruct (call_ok checkers cache0 cb Hc) as (cache & es & He & Hc' & _ & _ & Ha). exists cache, es.
  split; [done|]. intros Hex.
  destruct (processEvent_reflects checkers E build localHost Hb d cache0 cache s rnds es) as (d' & s' & su & Hp & Hd' & Hrf'); [done..|].
  exists d', s', su. split; [done|]. split; [done|]. split; [done|]. destruct Hd' as [_ [H1 H2 _ _] _], Hrf' as [_ Hco Hmi Hmc].
  by rewrite H1, H2, Hmi, Hmc, Hco.
Qed.

(** The ensure job repairs any drift: whatever the dispatcher's flags,
    ring and managed maps were, afterwards it reflects the cache; and when
    servers become available again after there were none, all checkers are
    suspended. *)
Theorem ensure_job_repairs {C} (checkers : gmap Z C) (E : Z) (build : gset Bucket -> option (list continuumPoint)) (localHost : string)
    (d : Dispatcher C) (s : CheckScheduler C) (cache : CacheProvider C) (rnds : string -> Z) :
  (forall bs ring, build bs = Some ring -> sound_ring ring) -> (forall id, 0 <= rnds id < 1000) ->
  cache_ok checkers cache -> expires_ok E cache -> disp_ok E build d s ->
  exists d' s' suspend, processEnsure build localHost d cache s rnds = Ret (d', s', suspend) /\
    disp_ok E build d' s' /\ reflects build localHost d' cache /\
    (noAvailableServers d = true -> servers cache <> selfServiceBuckets d -> servers cache <> ∅ -> suspend = true).
Proof. intros Hb Hr Hc He Hd. by eapply processEnsure_reflects. Qed.

(** C32. Every instance is checked by exactly one server: when all servers see
    the same cache, with at most 200 healthy servers and no collision on the
    ring, there is exactly one host - one of the healthy servers - that
    manages the instance, however each server iterated over its bucket map
    and sorted its ring. *)
Theorem each_instance_has_one_checker {C} (checkers : gmap Z C) (cache : CacheProvider C) (id : string) (it : ItemWithChecker C)
    (buckets : gset Bucket) :
  cache_ok checkers cache -> contents (healthCheckInstances cache) !! id = Some it ->
  next_buckets (RangeSelfServiceInstances cache) ∅ = Ret buckets ->
  buckets <> ∅ -> Z.of_nat (size buckets) <= 200 -> collision_free (ring_points (elements buckets)) ->
  exists h, h ∈ Host <$> elements buckets /\
    forall localHost order ring, order ≡ₚ elements buckets -> sorted_ring (ring_points order) ring ->
      exists m, next_instances localHost ring (RangeHealthCheckInstances cache) ∅ = Ret m /\ (is_Some (m !! id) <-> localHost = h).
Proof.
  intros Hc Hit Hbk Hne Hsz Hcf. rewrite (servers_range checkers cache Hc) in Hbk. injection Hbk as <-.
  pose proof (co_instance_items _ _ Hc _ _ Hit) as Hok. destruct it as [iw|]; [|done].
  set (bs := elements (servers cache)) in *.
  assert (bs <> []) as Hbs by (intros He%elements_empty_inv; by apply Hne, leibniz_equiv).
  assert (Forall (fun b => Weight b = 100) bs) as Hw.
  { apply Forall_forall. intros b Hb%elem_of_elements. unfold servers in Hb. rewrite elem_of_list_to_set in Hb.
    by apply list_elem_of_fmap in Hb as (kv & -> & _). }
  assert (ring_points bs <> []) as Hrp by (apply ring_points_nonempty; done).
  destruct (New_sorted bs Hbs) as (ring0 & _ & [Hp0 Hs0]).
  assert (ring0 <> []) as Hr0 by (intros ->; by apply Permutation_nil_l in Hp0).
  destruct (Hash_owner ring0 (ihashValue iw) Hs0 Hr0) as (p & Ho & Hh). exists (Host (bucket p)). split.
  - assert (p ∈ ring_points bs) as Hp by (rewrite <- Hp0; by destruct Ho as [(? & _)|(_ & ? & _)]).
    unfold ring_points in Hp. apply list_elem_of_In, in_concat in Hp as (l & Hl & Hp).
    apply list_elem_of_In, list_elem_of_fmap in Hl as (b & -> & Hb). apply list_elem_of_In, bucket_points_bucket in Hp. subst b.
    apply list_elem_of_fmap. eauto.
  - intros localHost order ring Hord [Hp Hs]. eexists. split; [by apply (next_instances_mine checkers)|].
    unfold my_instances. rewrite lookup_omap, Hit. simpl.
    assert (Hash.Hash ring (ihashValue iw) = Ret (Host (bucket p))) as ->.
    { rewrite <- Hh. symmetry. apply Hash_perm; [|done|done|by eapply collision_free_perm].
      by rewrite Hp0, Hp, (ring_points_perm _ _ Hord). }
    case_bool_decide as Heq; [naive_solver|]. split; [by intros [? ?]|]. intros ->. by destruct Heq.
Qed.

(** ** Witnesses *)

Definition plain_build (bs : gset Bucket) : option (list continuumPoint) := Hash.New (elements bs).

Lemma plain_build_sound bs ring : plain_build bs = Some ring -> sound_ring ring.
Proof.
  unfold plain_build. intros He. destruct (decide (elements bs = [])) as [Hn|Hn]; [by rewrite Hn in He|].
  destruct (New_sorted (elements bs) Hn) as (r & Hr & [_ Hs]). rewrite He in Hr. by injection Hr as ->.
Qed.

Definition tt_checkers : gmap Z unit := {[HEARTBEAT := tt]}.
Definition empty_cache : CacheProvider unit := newCacheProvider "polaris.checker" 4.
Definition demo_cache : CacheProvider unit :=
  match calls tt_checkers empty_cache
    [Created (CachedInstance (polaris_server "p1" "10.0.0.1")); Created (CachedInstance (demo_instance "i1" "r1" true))] with
  | Ret (c, _) => c
  | Panics _ => empty_cache
  end.

Lemma empty_cache_ok : cache_ok tt_checkers empty_cache.
Proof.
  destruct (NewShardMap_inv (V := ItemWithChecker unit) 1) as [H1 E1]; [lia|].
  destruct (NewShardMap_inv (V := ItemWithChecker unit) 4) as [H2 E2]; [lia|].
  split; simpl; try assumption; rewrite ?E1, ?E2; apply map_Forall_empty.
Qed.

Lemma demo_cache_ok : cache_ok tt_checkers demo_cache.
Proof.
  destruct (calls_ok tt_checkers empty_cache
    [Created (CachedInstance (polaris_server "p1" "10.0.0.1")); Created (CachedInstance (demo_instance "i1" "r1" true))] empty_cache_ok)
    as (c & es & He & Hc & _). unfold demo_cache. by rewrite He.
Qed.

Lemma demo_expires : expires_ok 60 demo_cache.
Proof.
  apply map_Forall_to_list. assert (map_to_list (contents (healthCheckInstances demo_cache)) =
    [("i1", InstanceItem (newInstanceWithChecker (demo_instance "i1" "r1" true) (Some tt)))]) as ->; [vm_compute; reflexivity|].
  constructor; [|constructor]. apply demo_iw_ok.
Qed.

Lemma demo_disp_ok : disp_ok 60 plain_build newDispatcher demo_sched.
Proof.
  split; [|split; simpl; try reflexivity; apply map_Forall_empty|reflexivity].
  eapply new_scheduler_ok; [exact demo_sched_new|lia|]. vm_compute. discriminate.
Qed.

Lemma event_job_keeps_up_witness :
  exists cache es, call tt_checkers empty_cache (Created (CachedInstance (polaris_server "p1" "10.0.0.1"))) = Ret (cache, es) /\
    exists d' s' suspend,
      processEvent plain_build "10.0.0.1" (apply_events newDispatcher es) cache demo_sched (fun _ => 5) = Ret (d', s', suspend) /\
      reflects plain_build "10.0.0.1" d' cache.
Proof.
  destruct (event_job_keeps_up tt_checkers 60 plain_build "10.0.0.1" newDispatcher demo_sched empty_cache
    (Created (CachedInstance (polaris_server "p1" "10.0.0.1"))) (fun _ => 5)) as (cache & es & He & Hp).
  - exact plain_build_sound.
  - intros. lia.
  - exact empty_cache_ok.
  - exact demo_disp_ok.
  - split; vm_compute; reflexivity.
  - exists cache, es. split; [exact He|]. destruct Hp as (d' & s' & su & Hpe & _ & Hrf & _).
    + vm_compute in He. injection He as <- _. intros k it Hk. exfalso.
      assert (contents (healthCheckInstances empty_cache) !! k = Some it) as Hk' by exact Hk.
      destruct (NewShardMap_inv (V := ItemWithChecker unit) 4) as [_ E2]; [lia|]. simpl in Hk'. rewrite E2 in Hk'. discriminate.
    + exists d', s', su. split; [exact Hpe|exact Hrf].
Defined.

Lemma ensure_job_repairs_witness :
  exists d' s' suspend, processEnsure plain_build "10.0.0.1" newDispatcher demo_cache demo_sched (fun _ => 5) = Ret (d', s', suspend) /\
    disp_ok 60 plain_build d' s' /\ reflects plain_build "10.0.0.1" d' demo_cache /\
    (false = true -> servers demo_cache <> ∅ -> servers demo_cache <> ∅ -> suspend = true).
Proof.
  apply (ensure_job_repairs tt_checkers 60 plain_build "10.0.0.1" newDispatcher demo_sched demo_cache (fun _ => 5)).
  - exact plain_build_sound.
  - intros. lia.
  - exact demo_cache_ok.
  - exact demo_expires.
  - exact demo_disp_ok.
Defined.

Lemma demo_servers : elements (servers demo_cache) = [mkBucket "10.0.0.1" 100].
Proof. vm_compute. reflexivity. Qed.

Lemma each_instance_has_one_checker_witness :
  exists h, h ∈ ["10.0.0.1"] /\
    forall localHost order ring, order ≡ₚ elements (servers demo_cache) -> sorted_ring (ring_points order) ring ->
      exists m, next_instances localHost ring (RangeHealthCheckInstances demo_cache) ∅ = Ret m /\ (is_Some (m !! "i1") <-> localHost = h).
Proof.
  destruct (each_instance_has_one_checker tt_checkers demo_cache "i1"
    (InstanceItem (newInstanceWithChecker (demo_instance "i1" "r1" true) (Some tt))) (servers demo_cache)) as (h & Hh & Hiff).
  - exact demo_cache_ok.
  - vm_compute. reflexivity.
  - vm_compute. reflexivity.
  - intros He%(f_equal elements). rewrite demo_servers in He. discriminate He.
  - vm_compute. discriminate.
  - rewrite demo_servers. apply NoDup_collision_free, nodupb_NoDup. vm_compute. reflexivity.
  - exists h. split; [|exact Hiff]. rewrite demo_servers in Hh. exact Hh.
Defined.
