(* ===== verification/Server.v ===== *)
(** * The health-check server ([src/service/healthcheck/server.go], [report.go], [client.go],
    [config.go], [time_adjust.go])

    The server owns the health checkers, one per type, and is what the API
    calls: it accepts heartbeats, answers when the last one came, forgets
    instances that go offline, and starts the other parts.  The checkers are
    shared objects; the cache provider and the scheduler refer to them by type,
    so that there is one copy of each ([checkers]). *)

From S2P Require Import Prelude Hash ShardMap GoStrings Utils TimeWheel HealthCache Checker MemoryChecker Scheduler Dispatcher.
From Stdlib Require Import ZArith Lia.
From stdpp Require Import base tactics list gmap strings pretty.

Open Scope Z_scope.

(** ** The clock shared with the store ([time_adjust.go]) *)

Record TimeAdjuster := mkTimeAdjuster { diff : Z }.

(** [store_time]: what [GetUnixSecond] answers, [None] an error. *)
Definition calcDiff (t : TimeAdjuster) (store_time : option Z) (sysNow : Z) : TimeAdjuster :=
  match store_time with
  | None => t
  | Some curTimeSecond =>
      if decide (curTimeSecond = 0) then t else mkTimeAdjuster (i64 (sysNow - curTimeSecond))
  end.

(** The rounds of [doTimeAdjust] so far, from a new adjuster. *)
Definition doTimeAdjust (rounds : list (option Z * Z)) : TimeAdjuster :=
  foldl (fun t (r : option Z * Z) => calcDiff t r.1 r.2) (mkTimeAdjuster 0) rounds.

Definition GetDiff (t : option TimeAdjuster) : Z :=
  match t with None => 0 | Some t => diff t end.

(** ** Configuration ([config.go]); durations in nanoseconds *)

Record Config := mkConfig {
  COpen : bool;
  CService : string;
  CSlotNum : Z;
  CLocalHost : string;
  CMinCheckInterval : Z;
  CMaxCheckInterval : Z;
  CClientCheckInterval : Z;
  CClientCheckTtl : Z;
  CCheckers : list string }.

Definition defaultMinCheckInterval : Z := 1 * Second.
Definition defaultMaxCheckInterval : Z := 30 * Second.
Definition defaultSlotNum : Z := 30.
Definition defaultClientReportTtl : Z := 120 * Second.
Definition defaultClientCheckInterval : Z := 120 * Second.

Definition SetDefault (c : Config) : Config :=
  let service := if decide (CService c = "") then "polaris.checker" else CService c in
  let slotNum := if decide (CSlotNum c = 0) then defaultSlotNum else CSlotNum c in
  let min := if decide (CMinCheckInterval c = 0) then defaultMinCheckInterval else CMinCheckInterval c in
  let max := if decide (CMaxCheckInterval c = 0) then defaultMaxCheckInterval else CMaxCheckInterval c in
  let '(min, max) := if decide (min > max) then (defaultMinCheckInterval, defaultMaxCheckInterval) else (min, max) in
  let interval := if decide (CClientCheckInterval c = 0) then defaultClientCheckInterval else CClientCheckInterval c in
  let ttl := if decide (CClientCheckTtl c = 0) then defaultClientReportTtl else CClientCheckTtl c in
  mkConfig (COpen c) service slotNum (CLocalHost c) min max interval ttl (CCheckers c).

(** ** Requests, answers and events *)

Record InstanceHeartbeat := mkHeartbeat { h_id : string; h_host : string; h_port : Z }.

(** [apiservice.Response]: the code, the instance it carries and, for
    [GetLastHeartbeat], the instance's health check and metadata. *)
Record Response := mkResp {
  code : Code;
  r_instance : option ApiInstance;
  r_healthCheck : option HealthCheck;
  r_metadata : gmap string string }.

Definition NewResponse (c : Code) : Response := mkResp c None None ∅.
Definition NewInstanceResponse (c : Code) (req : option ApiInstance) : Response := mkResp c req None ∅.

Record InstanceEvent := mkInstanceEvent { EId : string; SvcId : string; EType : InstanceEventType }.

Definition checkHeartbeatInstance (req : option ApiInstance) : result Code string :=
  match req with
  | None => Fail EmptyRequest
  | Some r =>
      match a_id r with
      | Some id => if decide (id = "") then Fail InvalidInstanceID else Okay id
      | None => CheckInstanceTetrad r
      end
  end.

Definition max404Count : Z := 3.

(** [InstanceEventHealthCheckHandler.OnEvent] ([check.go]): a full channel
    drops the event. *)
Definition OnEvent (chan : list InstanceEvent) (e : InstanceEvent) : list InstanceEvent :=
  if decide (Z.of_nat (length chan) < 1000) then chan ++ [e] else chan.

Section server.
  Context {S : Type} `{HealthChecker S}.
  (** [commontime.Time2String], which formats in the host's time zone. *)
  Context (Time2String : Z -> string).

(** [build], [localHost] and the random delays belong to the dispatcher and
    the scheduler; [instanceCache] is the service cache's table. *)
Record Server := mkServer {
  checkers : gmap Z S;
  defaultChecker : option Z;
  cacheProvider : option (CacheProvider Z);
  timeAdjuster : option TimeAdjuster;
  checkScheduler : option (CheckScheduler Z);
  dispatcher : option (Dispatcher Z);
  localHost : string;
  instanceCache : gmap string Instance;
  instanceEventChannel : list InstanceEvent }.

Definition set_checkers (s : Server) (m : gmap Z S) : Server :=
  mkServer m (defaultChecker s) (cacheProvider s) (timeAdjuster s) (checkScheduler s) (dispatcher s) (localHost s)
    (instanceCache s) (instanceEventChannel s).
Definition set_default (s : Server) (k : Z) : Server :=
  mkServer (checkers s) (Some k) (cacheProvider s) (timeAdjuster s) (checkScheduler s) (dispatcher s) (localHost s)
    (instanceCache s) (instanceEventChannel s).
Definition set_channel (s : Server) (ch : list InstanceEvent) : Server :=
  mkServer (checkers s) (defaultChecker s) (cacheProvider s) (timeAdjuster s) (checkScheduler s) (dispatcher s) (localHost s)
    (instanceCache s) ch.

(** The types of the checkers, which stand for the pointers to them. *)
Definition handles (m : gmap Z S) : gmap Z Z := map_imap (fun k _ => Some k) m.

(** A call through a pointer to a checker. *)
Definition deref (s : Server) (k : option Z) : outcome (Z * S) :=
  match k with
  | Some k => match checkers s !! k with Some ch => Ret (k, ch) | None => Panics NilDereference end
  | None => Panics NilDereference
  end.

Definition provider (s : Server) : outcome (CacheProvider Z) :=
  match cacheProvider s with Some cp => Ret cp | None => Panics NilDereference end.

(** [currentTimeSec], and the time a heartbeat is stamped with; [now] is
    [time.Now().Unix()]. *)
Definition currentTimeSec (s : Server) (now : Z) : Z := i64 (now - GetDiff (timeAdjuster s)).

(** [HealthCheck().GetType()], 0 for nil. *)
Definition type_of (i : Instance) : Z := from_option hcType 0 (GetHealthCheck i).

(** ** Reports *)

Definition checkInstanceExists (s : Server) (from : bool) (id : string) : outcome (Z * option Instance * Code) :=
  match instanceCache s !! id with
  | Some ins => Ret (-1, Some ins, ExecuteSuccess)
  | None =>
      '(_, ch) ← deref s (defaultChecker s);
      resp ← hc_query ch from (mkQuery id "" 0 false);
      match resp with
      | Fail _ => Ret (-1, None, ExecuteSuccess)
      | Okay resp =>
          if decide (QCount resp > max404Count) then Ret (QCount resp, None, NotFoundResource)
          else Ret (QCount resp, None, ExecuteSuccess)
      end
  end.

Definition getHealthChecker (s : Server) (id : string) : outcome (option Z) :=
  cp ← provider s;
  ins ← GetInstance cp id;
  insCache ← match ins with Some i => Ret (Some i) | None => GetSelfServiceInstance cp id end;
  match insCache with
  | None => Ret (defaultChecker s)
  | Some i =>
      match checkers s !! type_of i with
      | None => Ret (defaultChecker s)
      | Some _ => Ret (Some (type_of i))
      end
  end.

Definition publishInstanceEvent (serviceID id : string) (etype : InstanceEventType) : list InstanceEvent :=
  [mkInstanceEvent id serviceID etype].

Definition baseReport (s : Server) (from : bool) (id : string) (query : QueryRequest) (cur : Z)
    : outcome (Server * Code * option checker_error * list InstanceEvent) :=
  '(count, ins, code) ← checkInstanceExists s from id;
  k ← getHealthChecker s id;
  '(k, ch) ← deref s k;
  '(ch', err) ← hc_report ch from (mkReport query (localHost s) cur (i64 (count + 1)));
  Ret (set_checkers s (<[k := ch']> (checkers s)), code, err,
       match ins with Some i => publishInstanceEvent (ServiceID i) id EventInstanceSendHeartbeat | None => [] end).

Definition doReport (s : Server) (from : bool) (now : Z) (instance : option ApiInstance)
    : outcome (Server * Response * list InstanceEvent) :=
  if decide (size (checkers s) = 0%nat) then Ret (s, NewResponse HealthCheckNotOpen, [])
  else
    match checkHeartbeatInstance instance with
    | Fail c => Ret (s, NewInstanceResponse c instance, [])
    | Okay id =>
        let query := mkQuery id (GetValue (instance ≫= a_host)) (GetUint (instance ≫= a_port)) false in
        '(s', code, err, evs) ← baseReport s from id query (currentTimeSec s now);
        Ret (s', NewInstanceResponse (if err : option checker_error then HeartbeatException else code) instance, evs)
    end.

Fixpoint report_beats (s : Server) (from : bool) (now : Z) (beats : list InstanceHeartbeat)
    : outcome (Server * Response * list InstanceEvent) :=
  match beats with
  | [] => Ret (s, NewResponse ExecuteSuccess, [])
  | beat :: beats =>
      '(s', _, err, evs) ← baseReport s from (h_id beat) (mkQuery (h_id beat) (h_host beat) (h_port beat) false) (currentTimeSec s now);
      if err : option checker_error then Ret (s', NewInstanceResponse HeartbeatException None, evs)
      else
        '(s'', resp, rest) ← report_beats s' from now beats;
        Ret (s'', resp, evs ++ rest)
  end.

Definition doReports (s : Server) (from : bool) (now : Z) (beats : list InstanceHeartbeat)
    : outcome (Server * Response * list InstanceEvent) :=
  if decide (size (checkers s) = 0%nat) then Ret (s, NewResponse HealthCheckNotOpen, [])
  else report_beats s from now beats.

(** The client's id and host. *)
Definition doReportByClient (s : Server) (from : bool) (now : Z) (client : Client) : outcome (Server * Code) :=
  if decide (size (checkers s) = 0%nat) then Ret (s, HealthCheckNotOpen)
  else
    match checkers s !! HEARTBEAT with
    | None => Ret (s, HeartbeatTypeNotFound)
    | Some ch =>
        let query := mkQuery (toClientId (CId client)) (CHost client) 0 false in
        '(ch', err) ← hc_report ch from (mkReport query (localHost s) (currentTimeSec s now) 0);
        Ret (set_checkers s (<[HEARTBEAT := ch']> (checkers s)),
             if err : option checker_error then HeartbeatException else ExecuteSuccess)
    end.

(** ** Queries *)

Definition GetLastHeartbeat (s : Server) (now : Z) (req : option ApiInstance) : outcome Response :=
  if decide (size (checkers s) = 0%nat) then Ret (NewResponse HealthCheckNotOpen)
  else
    match checkHeartbeatInstance req, req with
    | Fail c, _ => Ret (NewInstanceResponse c req)
    | Okay _, None => Panics NilDereference
    | Okay id, Some r =>
        let r := mkApiInstance (Some id) (a_service r) (a_namespace r) (a_vpc r) (a_host r) (a_port r) in
        cp ← provider s;
        insCache ← GetInstance cp id;
        match insCache with
        | None => Ret (NewInstanceResponse NotFoundResource (Some r))
        | Some i =>
            match checkers s !! type_of i with
            | None => Ret (NewInstanceResponse HeartbeatTypeNotFound (Some r))
            | Some ch =>
                queryResp ← hc_query ch false (mkQuery (ID i) (IHost i) (Port i) false);
                match queryResp with
                | Fail _ => Ret (NewInstanceResponse ExecuteException (Some r))
                | Okay queryResp =>
                    let last := LastHeartbeatSec queryResp in
                    Ret (mkResp ExecuteSuccess
                      (Some (mkApiInstance (Some id) (Some (Service i)) (Some (Namespace i)) (Some (VpcID i)) (Some (IHost i)) (Some (Port i))))
                      (GetHealthCheck i)
                      (<["system-time" := Time2String (currentTimeSec s now)]>
                       (<["last-heartbeat-time" := Time2String last]>
                        (<["last-heartbeat-timestamp" := pretty last]> ∅))))
                end
            end
        end
    end.

Definition ListCheckerServer (s : Server) : outcome (list (option Instance)) :=
  cp ← provider s; Ret (RangeSelfServiceInstances cp).

(** ** Instance events: one turn of [handleInstanceEventWorker] *)

Definition handleInstanceEvent (s : Server) : outcome Server :=
  match instanceEventChannel s with
  | [] => Ret s
  | event :: rest =>
      let s := set_channel s rest in
      match EType event with
      | EventInstanceOffline =>
          cp ← provider s;
          insCache ← GetInstance cp (EId event);
          match insCache with
          | None => Ret s
          | Some i =>
              match checkers s !! type_of i with
              | None => Ret s
              | Some ch =>
                  '(ch', _) ← hc_delete ch false (EId event);
                  Ret (set_checkers s (<[type_of i := ch']> (checkers s)))
              end
          end
      | _ => Ret s
      end
  end.

(** ** Initialisation *)

(** A registered plugin: its type, the object as it is before and after its
    [Initialize] ([None]: that failed, and the process exits). *)
Record Plugin := mkPlugin { p_type : Z; p_raw : S; p_init : option S }.
Context (pluginSet : gmap string Plugin) (DefaultShardSize : Z).

Inductive init_error :=
| CacheNotOpen
| NoCheckerConfig
| UnknownHealthChecker (name : string)
| DuplicateHealthChecker (name : string) (type : Z)
| ProcessExit
| StoreError
| SubscribeError
| ElectionError.

(** [plugin.GetHealthChecker]: one [sync.Once] for all the names. *)
Definition GetHealthChecker (once : bool) (name : string) : result init_error (Z * S) :=
  match pluginSet !! name with
  | None => Fail (UnknownHealthChecker name)
  | Some p =>
      if once then Okay (p_type p, p_raw p)
      else match p_init p with None => Fail ProcessExit | Some ch => Okay (p_type p, ch) end
  end.

(** The loop over the configured checkers. *)
Fixpoint add_checkers (s : Server) (once : bool) (names : list string) : Server * option init_error :=
  match names with
  | [] => (s, None)
  | name :: names =>
      match GetHealthChecker once name with
      | Fail e => (s, Some e)
      | Okay (ty, ch) =>
          match checkers s !! ty with
          | Some _ => (s, Some (DuplicateHealthChecker name ty))
          | None =>
              let s := set_checkers s (<[ty := ch]> (checkers s)) in
              let s := match defaultChecker s with None => set_default s ty | Some _ => s end in
              add_checkers s true names
          end
      end
  end.

(** Whether the calls of other parts succeed. *)
Record deps := mkDeps { store_ok : bool; subscribe_ok : bool; election_ok : bool }.

Definition start (s : Server) (c : Config) : Server :=
  mkServer (checkers s) (defaultChecker s) (Some (newCacheProvider (CService c) DefaultShardSize))
    (Some (mkTimeAdjuster 0))
    (newCheckScheduler (CSlotNum c) (CMinCheckInterval c) (CMaxCheckInterval c) (CClientCheckTtl c))
    (Some newDispatcher) (CLocalHost c) (instanceCache s) [].

Definition initialize (s : Server) (hcOpt : Config) (cacheOpen once : bool) (d : deps) : Server * option init_error :=
  if negb (COpen hcOpt) then (s, None)
  else if negb cacheOpen then (s, Some CacheNotOpen)
  else
    let hcOpt := SetDefault hcOpt in
    match CCheckers hcOpt with
    | [] => (s, Some NoCheckerConfig)
    | names =>
        match add_checkers (set_checkers s ∅) once names with
        | (s, Some e) => (s, Some e)
        | (s, None) =>
            if negb (store_ok d) then (s, Some StoreError)
            else
              let s := start s hcOpt in
              if negb (subscribe_ok d) then (s, Some SubscribeError)
              else if negb (election_ok d) then (s, Some ElectionError)
              else (s, None)
        end
    end.

(** [Initialize] and [GetServer]: the package's variables. *)
Record globals := mkGlobals { g_server : Server; g_once : bool; finishInit : bool }.

Definition Initialize (g : globals) (hcOpt : Config) (cacheOpen once : bool) (d : deps) : globals * option init_error :=
  let '(s, err) := if g_once g then (g_server g, None) else initialize (g_server g) hcOpt cacheOpen once d in
  match err with
  | Some e => (mkGlobals s true (finishInit g), Some e)
  | None => (mkGlobals s true true, None)
  end.

Definition GetServer (g : globals) : option Server := if finishInit g then Some (g_server g) else None.

Definition newServer : Server := mkServer ∅ None None None None None "" ∅ [].
Definition startup : globals := mkGlobals newServer false false.

End server.
Arguments Server : clear implicits.
Arguments Plugin : clear implicits.
Arguments globals : clear implicits.

(** ** Specification *)

(** A server that can serve: it has a default checker, all its checkers are in
    order, and the cache provider refers to them by type. *)
Record server_ok {S} `{HeartbeatContract S} (s : Server S) (cp : CacheProvider Z) : Prop := {
  so_provider : cacheProvider s = Some cp;
  so_cache : cache_ok (handles (checkers s)) cp;
  so_default : exists k, defaultChecker s = Some k /\ is_Some (checkers s !! k);
  so_checkers : map_Forall (fun _ ch => hc_ok ch) (checkers s) }.

(** The checker the scheduler will ask about an instance: the one stored with
    it in the cache provider ([None]: it is not health-checked). *)
Definition checker_in_charge (cp : CacheProvider Z) (id : string) : option Z :=
  match contents (healthCheckInstances cp) !! id with
  | Some (InstanceItem iw) => ichecker iw
  | _ => None
  end.

(** How the scheduler's environment asks the server's checkers. *)
Definition ask_checkers {S} `{HealthChecker S} (s : Server S) (now_ms : Z) (k : Z) (req : CheckRequest)
    : outcome (result checker_error CheckResponse) :=
  '(_, ch) ← deref s (Some k); hc_check ch now_ms req.

(** An action that turns the instance unhealthy. *)
Definition takes_down (id : string) (a : action) : Prop :=
  match a with
  | AsyncHeartbeat id' healthy _ => id' = id /\ healthy = false
  | SetInstanceHealthStatus id' flag => id' = id /\ flag = 0
  | _ => False
  end.

(** ** Lemmas *)

Section lemmas.
  Context {S : Type} `{HeartbeatContract S}.
  Implicit Types (s : Server S) (cp : CacheProvider Z).

Lemma lookup_handles (m : gmap Z S) k : handles m !! k = (fun _ => k) <$> m !! k.
Proof. unfold handles. rewrite map_lookup_imap. by destruct (m !! k). Qed.

(** Replacing a checker's state leaves the pointers as they are. *)
Lemma handles_insert (m : gmap Z S) k ch : is_Some (m !! k) -> handles (<[k := ch]> m) = handles m.
Proof.
  intros [c Hc]. apply map_eq. intros j. rewrite !lookup_handles.
  destruct (decide (j = k)) as [->|]; [by rewrite lookup_insert_eq, Hc|by rewrite lookup_insert_ne].
Qed.

Lemma deref_Some s k ch : checkers s !! k = Some ch -> deref s (Some k) = Ret (k, ch).
Proof. intros Hk. simpl. by rewrite Hk. Qed.

Lemma checker_in_charge_spec s cp id i k :
  server_ok s cp -> t_instances (tables_of cp) !! id = Some i -> checker_in_charge cp id = Some k ->
  k = type_of i /\ is_Some (checkers s !! k).
Proof.
  intros Hs Hi. unfold checker_in_charge. simpl in Hi. unfold instances_of in Hi. rewrite lookup_omap in Hi.
  destruct (contents (healthCheckInstances cp) !! id) as [it|] eqn:Hk; [|done].
  pose proof (co_instance_items _ _ (so_cache _ _ Hs) _ _ Hk) as Hit. destruct it as [iw|]; [|done].
  simpl in Hi. injection Hi as <-. destruct Hit as (_ & _ & ->). unfold isHealthCheckEnable, type_of.
  destruct (EnableHealthCheck (instance iw)); [|done]. destruct (GetHealthCheck (instance iw)) as [hc|]; [|done].
  unfold HealthCache.getHealthChecker. rewrite lookup_handles. simpl.
  destruct (checkers s !! hcType hc) eqn:Hc; [|done]. intros [= <-]. by rewrite Hc.
Qed.

(** [getHealthChecker] names the checker in charge of a checked instance, and
    some checker of the server in any case. *)
Lemma getHealthChecker_charge s cp id i k :
  server_ok s cp -> t_instances (tables_of cp) !! id = Some i -> checker_in_charge cp id = Some k ->
  getHealthChecker s id = Ret (Some k).
Proof.
  intros Hs Hi Hk. destruct (checker_in_charge_spec _ _ _ _ _ Hs Hi Hk) as [-> [ch Hch]].
  unfold getHealthChecker, provider. rewrite (so_provider _ _ Hs). cbn [mbind outcome_bind].
  destruct (lookups_spec _ cp id (so_cache _ _ Hs)) as (_ & -> & _). rewrite Hi. cbn [mbind outcome_bind]. by rewrite Hch.
Qed.

Lemma getHealthChecker_unknown s cp id :
  server_ok s cp -> t_instances (tables_of cp) !! id = None -> t_self (tables_of cp) !! id = None ->
  getHealthChecker s id = Ret (defaultChecker s).
Proof.
  intros Hs Hi Hself. unfold getHealthChecker, provider. rewrite (so_provider _ _ Hs). cbn [mbind outcome_bind].
  destruct (lookups_spec _ cp id (so_cache _ _ Hs)) as (-> & -> & _). rewrite Hi, Hself. done.
Qed.

Lemma server_has_checkers s cp : server_ok s cp -> size (checkers s) <> 0%nat.
Proof.
  intros Hs. destruct (so_default _ _ Hs) as (k & _ & [ch Hch]). intros Hz. apply map_size_empty_inv in Hz.
  by rewrite Hz, lookup_empty in Hch.
Qed.

(** A report changes one checker. *)
Lemma set_checker_ok s cp k ch ch' :
  server_ok s cp -> checkers s !! k = Some ch -> hc_ok ch' -> server_ok (set_checkers s (<[k := ch']> (checkers s))) cp.
Proof.
  intros [Hp Hc (d & Hd & Hds) Hm] Hk Hok. split; simpl; [done| | |by apply map_Forall_insert_2].
  - by rewrite handles_insert by (by exists ch).
  - exists d. split; [done|]. destruct (decide (d = k)) as [->|].
    + rewrite lookup_insert_eq. by eexists.
    + by rewrite lookup_insert_ne.
Qed.

(** Reporting an instance whose checker is known. *)
Lemma baseReport_spec s cp id query cur k count ins c :
  server_ok s cp -> checkInstanceExists s false id = Ret (count, ins, c) -> getHealthChecker s id = Ret (Some k) ->
  InstanceId query = id -> is_Some (checkers s !! k) ->
  exists ch ch', checkers s !! k = Some ch /\ hc_ok ch' /\
    hc_report ch false (mkReport query (localHost s) cur (i64 (count + 1))) = Ret (ch', None) /\
    baseReport s false id query cur =
      Ret (set_checkers s (<[k := ch']> (checkers s)), c, None,
           match ins with Some i => [mkInstanceEvent id (ServiceID i) EventInstanceSendHeartbeat] | None => [] end) /\
    forall j, last_beat ch' j = if decide (j = id) then cur else last_beat ch j.
Proof.
  intros Hs He Hg Hq [ch Hch].
  destruct (report_beat ch (mkReport query (localHost s) cur (i64 (count + 1)))) as (ch' & Hr & Hok & Hb);
    [by apply (so_checkers _ _ Hs k)|].
  exists ch, ch'. split; [done|]. split; [done|]. split; [done|]. split.
  - unfold baseReport. rewrite He. cbn [mbind outcome_bind]. rewrite Hg. cbn [mbind outcome_bind].
    rewrite (deref_Some _ _ _ Hch). cbn [mbind outcome_bind]. rewrite Hr. cbn [mbind outcome_bind].
    by destruct ins.
  - intros j. rewrite Hb. simpl. by rewrite Hq.
Qed.

Lemma doReport_base s cp now req id :
  server_ok s cp -> checkHeartbeatInstance (Some req) = Okay id ->
  doReport s false now (Some req) =
    ('(s', code, err, evs) ← baseReport s false id (mkQuery id (GetValue (a_host req)) (GetUint (a_port req)) false) (currentTimeSec s now);
     Ret (s', NewInstanceResponse (if err : option checker_error then HeartbeatException else code) (Some req), evs)).
Proof.
  intros Hs Hid. unfold doReport. rewrite decide_False by (by eapply server_has_checkers). by rewrite Hid.
Qed.

(** A check whose verdict is not overdue takes nothing down. *)
Lemma run_check_alive s now_ms (v : itemValue Z) id (e : env Z) k ch :
  checkers s !! k = Some ch -> hc_ok ch -> checker v = Some k -> check_ e = ask_checkers s now_ms ->
  expired (Scheduler.currentTimeSec e) (last_beat ch (iid v)) (expireDurationSec v) = false ->
  exists resp acts, run_check v id e = Ret (resp, acts) /\ Forall (fun a => ~ takes_down id a) acts.
Proof.
  intros Hk Hok Hv He Hx. unfold run_check. destruct (cachedInstance e id) as [i|]; [|eauto].
  rewrite Hv, He. unfold ask_checkers. rewrite (deref_Some _ _ _ Hk). cbn [mbind outcome_bind].
  rewrite check_verdict by done. cbn [mbind outcome_bind]. unfold check_request. cbn [cquery InstanceId QHealthy cur_time_sec ExpireDurationSec].
  unfold verdict. rewrite Hx. do 2 eexists. split; [done|]. destruct (skips _ _ _); [by constructor|]. simpl.
  destruct (Healthy i); [by constructor|]. unfold setInsDbStatus, asyncSetInsDbStatus, serialSetInsDbStatus.
  apply Forall_app. split; [destruct (heartbeatOpen e)|destruct (store_success e && _)]; repeat constructor; simpl; intros []; done.
Qed.

End lemmas.

(** *** The memory checker's report count *)

Definition beat_count (r : MemoryHealthChecker) (id : string) : Z := from_option HCount 0 (hbRecords r !! id).

(** An instance no cache knows, and a server whose default checker counts its
    reports. *)
Record unknown_at (s : Server MemoryHealthChecker) (cp : CacheProvider Z) (id : string) (count : Z) : Prop := {
  ua_ok : server_ok s cp;
  ua_cache : instanceCache s !! id = None;
  ua_instances : t_instances (tables_of cp) !! id = None;
  ua_self : t_self (tables_of cp) !! id = None;
  ua_count : exists k ch, defaultChecker s = Some k /\ checkers s !! k = Some ch /\ beat_count ch id = count }.

Definition code_after (count : Z) : Code := if decide (count > max404Count) then NotFoundResource else ExecuteSuccess.

Lemma checkInstanceExists_unknown s cp id count :
  unknown_at s cp id count -> checkInstanceExists s false id = Ret (count, None, code_after count).
Proof.
  intros [Hs Hc _ _ (k & ch & Hd & Hch & <-)]. unfold checkInstanceExists. rewrite Hc, Hd, (deref_Some _ _ _ Hch).
  cbn [mbind outcome_bind]. unfold code_after, beat_count. simpl. unfold Query. simpl.
  destruct (hbRecords ch !! id); simpl; try case_decide; done.
Qed.

Lemma unknown_report s cp id count now req :
  unknown_at s cp id count -> checkHeartbeatInstance (Some req) = Okay id ->
  exists s', doReport s false now (Some req) = Ret (s', NewInstanceResponse (code_after count) (Some req), []) /\
    unknown_at s' cp id (i64 (count + 1)).
Proof.
  intros Hu Hid. pose proof (checkInstanceExists_unknown _ _ _ _ Hu) as He. destruct Hu as [Hs Hc Hi Hf (k & ch & Hd & Hch & Hcnt)].
  pose proof (getHealthChecker_unknown s cp id Hs Hi Hf) as Hg. rewrite Hd in Hg.
  rewrite (doReport_base _ _ _ _ _ Hs Hid).
  destruct (baseReport_spec s cp id (mkQuery id (GetValue (a_host req)) (GetUint (a_port req)) false) (currentTimeSec s now) k
    count None _ Hs He Hg eq_refl) as (ch0 & ch' & Hk & Hok & Hr & -> & _); [by eexists|].
  cbn [mbind outcome_bind]. eexists. split; [done|]. simpl in Hr. injection Hr as <-.
  split; simpl; try done.
  - by apply (set_checker_ok _ _ _ ch0).
  - exists k. eexists. split; [done|]. split; [by rewrite lookup_insert_eq|]. unfold beat_count. simpl.
    by rewrite lookup_insert_eq.
Qed.

(** The codes of a series of reports at given times. *)
Fixpoint report_all {S} `{HealthChecker S} (s : Server S) (req : ApiInstance) (nows : list Z) : outcome (list Code) :=
  match nows with
  | [] => Ret []
  | now :: nows =>
      '(s', resp, _) ← doReport s false now (Some req);
      codes ← report_all s' req nows;
      Ret (code resp :: codes)
  end.

Lemma unknown_reports s cp id count req nows :
  unknown_at s cp id count -> checkHeartbeatInstance (Some req) = Okay id ->
  0 <= count -> count + Z.of_nat (length nows) < 2 ^ 62 ->
  report_all s req nows = Ret ((fun j => code_after (count + Z.of_nat j)) <$> seq 0 (length nows)).
Proof.
  intros Hu Hid. revert s count Hu. induction nows as [|now nows IH]; intros s count Hu Hc Hb; [done|].
  simpl in Hb. destruct (unknown_report s cp id count now req Hu Hid) as (s' & He & Hu').
  cbn [report_all]. rewrite He. cbn [mbind outcome_bind]. rewrite i64_small in Hu' by lia.
  rewrite (IH s' (count + 1) Hu') by lia. cbn [mbind outcome_bind length seq fmap list_fmap code NewInstanceResponse].
  rewrite Z.add_0_r. do 2 f_equal. rewrite <- (fmap_S_seq 0), <- list_fmap_compose. apply list_fmap_ext.
  intros _ j _. unfold compose. f_equal. lia.
Qed.

(** *** Clocks *)

(** A round that read the store's time. *)
Definition clock_read (r : option Z * Z) : bool :=
  match r.1 with Some t => negb (t =? 0) | None => false end.

Lemma doTimeAdjust_diff off rounds :
  Forall (fun r => clock_read r = true -> exists t, r = (Some t, t + off)) rounds -> - 2 ^ 62 <= off < 2 ^ 62 ->
  diff (doTimeAdjust rounds) = if existsb clock_read rounds then off else 0.
Proof.
  intros Hr Hoff. induction rounds as [|r rounds IH] using rev_ind; [done|].
  apply Forall_app in Hr as [Hr1 Hr2]. inversion Hr2 as [|? ? Hr3 _]; subst. specialize (IH Hr1).
  unfold doTimeAdjust in *. rewrite foldl_app, existsb_app. cbn [foldl existsb]. rewrite orb_false_r.
  unfold calcDiff at 1. unfold clock_read at 2. unfold clock_read in Hr3. destruct r as [[t|] sys]; simpl in *; [|by rewrite orb_false_r].
  destruct (Z.eqb_spec t 0) as [->|Ht]; simpl; [by rewrite orb_false_r|]. rewrite decide_False by done. simpl.
  rewrite orb_true_r. destruct (Hr3 eq_refl) as (t' & [= <- ->]). rewrite i64_small; lia.
Qed.

(** *** Initialisation *)

Section init.
  Context {S : Type} `{HeartbeatContract S}.
  Context (pluginSet : gmap string (Plugin S)) (shards : Z).

(** The plugins registered under a list of names have these types. *)
Definition types_of (names : list string) (types : list Z) : Prop :=
  Forall2 (fun n t => exists p, pluginSet !! n = Some p /\ p_type p = t) names types.

Definition plugins_ok : Prop :=
  forall n p, pluginSet !! n = Some p -> hc_ok (p_raw p) /\ forall ch, p_init p = Some ch -> hc_ok ch.

Lemma GetHealthChecker_Okay once name ty ch :
  plugins_ok -> GetHealthChecker pluginSet once name = Okay (ty, ch) ->
  (exists p, pluginSet !! name = Some p /\ p_type p = ty) /\ hc_ok ch.
Proof.
  intros Hp. unfold GetHealthChecker. destruct (pluginSet !! name) as [p|] eqn:Hn; [|done].
  destruct (Hp name p Hn) as [Hr Hi]. destruct once; [by intros [= <- <-]; eauto|].
  destruct (p_init p) as [c|]; [|done]. intros [= <- <-]. split; eauto.
Qed.

Lemma add_checkers_spec (s s' : Server S) once names :
  plugins_ok -> map_Forall (fun _ ch => hc_ok ch) (checkers s) ->
  add_checkers pluginSet s once names = (s', None) ->
  exists types, types_of names types /\ NoDup types /\ (forall ty, ty ∈ types -> checkers s !! ty = None) /\
    (forall ty, is_Some (checkers s' !! ty) <-> is_Some (checkers s !! ty) \/ ty ∈ types) /\
    map_Forall (fun _ ch => hc_ok ch) (checkers s') /\
    defaultChecker s' = match defaultChecker s with Some k => Some k | None => head types end.
Proof.
  intros Hp. revert s once. induction names as [|name names IH]; intros s once Hs.
  - intros [= <-]. exists []. split; [by constructor|]. split; [constructor|]. split; [set_solver|].
    split; [set_solver|]. split; [done|]. by destruct (defaultChecker s).
  - cbn [add_checkers]. destruct (GetHealthChecker pluginSet once name) as [[ty ch]|e] eqn:Hg; [|done].
    apply GetHealthChecker_Okay in Hg as [Hn Hok]; [|done].
    destruct (checkers s !! ty) as [?|] eqn:Hty; [done|]. intros Hadd.
    set (s1 := match defaultChecker (set_checkers s (<[ty := ch]> (checkers s))) with
               | Some _ => set_checkers s (<[ty := ch]> (checkers s))
               | None => set_default (set_checkers s (<[ty := ch]> (checkers s))) ty end) in Hadd.
    assert (checkers s1 = <[ty := ch]> (checkers s)) as Hc1 by (subst s1; simpl; by destruct (defaultChecker s)).
    assert (defaultChecker s1 = Some (default ty (defaultChecker s))) as Hd1 by (subst s1; simpl; by destruct (defaultChecker s) eqn:Hd).
    destruct (IH s1 true) as (types & Ht & Hnd & Hnew & Hdom & Hoks & Hd); [|done|].
    { rewrite Hc1. by apply map_Forall_insert_2. }
    exists (ty :: types). rewrite Hc1 in Hnew, Hdom. rewrite Hd1 in Hd. split; [by constructor|]. split.
    { constructor; [|done]. intros Hin. specialize (Hnew ty Hin). by rewrite lookup_insert_eq in Hnew. }
    split; [|split; [|split; [done|]]].
    + intros j [->|Hj]%elem_of_cons; [done|]. specialize (Hnew j Hj). by apply lookup_insert_None in Hnew as [? _].
    + intros j. rewrite Hdom, lookup_insert_is_Some', elem_of_cons. naive_solver.
    + rewrite Hd. by destruct (defaultChecker s).
Qed.

Lemma add_checkers_provider (s s' : Server S) once names e :
  add_checkers pluginSet s once names = (s', e) -> cacheProvider s' = cacheProvider s.
Proof.
  revert s once. induction names as [|name names IH]; intros s once; cbn [add_checkers]; [by intros [= <- _]|].
  destruct (GetHealthChecker pluginSet once name) as [[ty ch]|e']; [|by intros [= <- _]].
  destruct (checkers s !! ty); [by intros [= <- _]|]. intros He. apply IH in He. rewrite He. simpl. by destruct (defaultChecker s).
Qed.

Lemma initialize_error_provider (s s' : Server S) c open once d e :
  cacheProvider s = None -> initialize pluginSet shards s c open once d = (s', Some e) ->
  e <> SubscribeError -> e <> ElectionError -> cacheProvider s' = None.
Proof.
  intros Hs. unfold initialize. destruct (COpen c); [|done]. destruct open; [|by intros [= <- <-]]. cbn [negb].
  destruct (CCheckers (SetDefault c)) as [|n names]; [by intros [= <- <-]|].
  destruct (add_checkers pluginSet (set_checkers s ∅) once (n :: names)) as [s1 [e1|]] eqn:Ha; apply add_checkers_provider in Ha.
  - intros [= <- <-] _ _. by rewrite Ha.
  - destruct (store_ok d); [|intros [= <- <-] _ _; by rewrite Ha]. destruct (subscribe_ok d), (election_ok d); cbn [negb]; naive_solver.
Qed.

End init.

(** ** Properties *)


(** An instance that neither the service cache nor the health checker
    knows may report: the memory checker counts its reports, the first four
    are answered with success and every later one with "not found", which
    tells the client to register again. *)
Theorem unknown_instance_gets_404 (s : Server MemoryHealthChecker) (cp : CacheProvider Z) (req : ApiInstance) (id : string) (nows : list Z) :
  unknown_at s cp id 0 -> checkHeartbeatInstance (Some req) = Okay id -> Z.of_nat (length nows) < 2 ^ 62 ->
  report_all s req nows =
    Ret (take (length nows) (replicate 4 ExecuteSuccess) ++ replicate (length nows - 4) NotFoundResource).
Proof.
  intros Hu Hid Hn. rewrite (unknown_reports s cp id 0 req nows) by (done || lia). f_equal.
  generalize (length nows) as n. clear. intros n. destruct (decide (n <= 4)%nat) as [Hn|Hn].
  - replace (n - 4)%nat with 0%nat by lia. do 5 (destruct n as [|n]; [done|]). lia.
  - rewrite take_ge by (rewrite length_replicate; lia). replace n with (4 + (n - 4))%nat at 1 by lia.
    rewrite seq_app, fmap_app. f_equal. apply list_eq. intros j.
    destruct (decide (j < n - 4)%nat) as [Hj|Hj].
    + rewrite lookup_replicate_2 by done. rewrite list_lookup_fmap, lookup_seq_lt by done. simpl. f_equal.
      unfold code_after, max404Count. rewrite decide_True; [done|lia].
    + rewrite !lookup_ge_None_2; [done| |]; rewrite ?length_fmap, ?length_seq, ?length_replicate; lia.
Qed.

(** A start that succeeds gives a server that can serve: every configured
    name is a registered plugin, the plugins have different types, there is
    exactly one checker for each type, the first one configured is the
    default, and the (empty) cache provider refers to these checkers. *)
Theorem started_server_is_ready {S} `{HeartbeatContract S} (pluginSet : gmap string (Plugin S)) (shards : Z)
    (hcOpt : Config) (cacheOpen : bool) (d : deps) (g : globals S) :
  plugins_ok pluginSet -> 0 < shards -> COpen hcOpt = true ->
  Initialize pluginSet shards startup hcOpt cacheOpen false d = (g, None) ->
  exists s cp types, GetServer g = Some s /\ types_of pluginSet (CCheckers hcOpt) types /\ NoDup types /\ types <> [] /\
    defaultChecker s = head types /\ (forall ty, is_Some (checkers s !! ty) <-> ty ∈ types) /\
    server_ok s cp /\ tables_of cp = mkTables ∅ ∅ ∅.
Proof.
  intros Hp Hsh Ho. unfold Initialize, initialize. cbn [startup g_once g_server]. rewrite Ho. destruct cacheOpen; [|done].
  cbn [negb]. assert (CCheckers (SetDefault hcOpt) = CCheckers hcOpt) as Hcs.
  { unfold SetDefault. cbv zeta. by destruct (if decide (_ > _) then _ else _). }
  rewrite Hcs. destruct (CCheckers hcOpt) as [|name names] eqn:Hnames; [done|].
  destruct (add_checkers _ _ _ _) as [s1 [e|]] eqn:Hadd; [done|].
  apply add_checkers_spec in Hadd as (types & Ht & Hnd & _ & Hdom & Hoks & Hd); [|done|apply map_Forall_empty].
  simpl in Hd. destruct (store_ok d); [|done]. destruct (subscribe_ok d); [|done]. destruct (election_ok d); [|done].
  cbn [negb]. intros [= <-]. destruct (newCacheProvider_ok (handles (checkers s1)) (CService (SetDefault hcOpt)) shards Hsh) as [Hcp Htab].
  assert (forall ty, is_Some (checkers s1 !! ty) <-> ty ∈ types) as Hdom'.
  { intros ty. rewrite Hdom. simpl. rewrite lookup_empty. split; [intros [[? [=]]|]; done|by right]. }
  assert (types <> []) as Hne by (inversion Ht; done).
  do 2 eexists. exists types. split; [done|]. split; [done|]. split; [done|]. split; [done|]. split; [done|]. split; [done|].
  split; [|exact Htab]. split; [done|exact Hcp| |done].
  destruct types as [|ty types]; [done|]. exists ty. split; [done|]. apply Hdom'. set_solver.
Qed.

(** The last heartbeat is the last heartbeat: after a report of a
    health-checked instance, [GetLastHeartbeat] answers the time the report was
    stamped with, and the instance as the cache knows it. *)
Theorem last_heartbeat_is_the_report (Time2String : Z -> string) (s : Server MemoryHealthChecker) (cp : CacheProvider Z)
    (now now' : Z) (req : ApiInstance) (id : string) (i ins : Instance) (k : Z) :
  server_ok s cp -> checkHeartbeatInstance (Some req) = Okay id ->
  instanceCache s !! id = Some ins -> t_instances (tables_of cp) !! id = Some i -> checker_in_charge cp id = Some k ->
  exists s' r evs resp, doReport s false now (Some req) = Ret (s', r, evs) /\
    GetLastHeartbeat Time2String s' now' (Some req) = Ret resp /\ code resp = ExecuteSuccess /\
    r_metadata resp !! "last-heartbeat-timestamp" = Some (pretty (currentTimeSec s now)) /\
    (a_host <$> r_instance resp) = Some (Some (IHost i)) /\ r_healthCheck resp = GetHealthCheck i.
Proof.
  intros Hs Hid Hins Hi Hk. rewrite (doReport_base _ _ _ _ _ Hs Hid).
  destruct (checker_in_charge_spec _ _ _ _ _ Hs Hi Hk) as [Hty Hch].
  assert (checkInstanceExists s false id = Ret (-1, Some ins, ExecuteSuccess)) as He by (unfold checkInstanceExists; by rewrite Hins).
  destruct (baseReport_spec s cp id (mkQuery id (GetValue (a_host req)) (GetUint (a_port req)) false) (currentTimeSec s now) k _ _ _
    Hs He (getHealthChecker_charge _ _ _ _ _ Hs Hi Hk) eq_refl Hch) as (ch & ch' & Hc & Hok & _ & -> & Hb).
  cbn [mbind outcome_bind]. do 4 eexists. split; [done|].
  assert (ID i = id) as Hii.
  { simpl in Hi. unfold instances_of in Hi. rewrite lookup_omap in Hi.
    destruct (contents (healthCheckInstances cp) !! id) as [[iw|]|] eqn:Hcont; try done. injection Hi as <-.
    symmetry. apply (co_instance_items _ _ (so_cache _ _ Hs) _ _ Hcont). }
  pose proof (set_checker_ok s cp k ch ch' Hs Hc Hok) as Hs'.
  unfold GetLastHeartbeat. rewrite decide_False by (by eapply server_has_checkers). rewrite Hid. unfold provider.
  rewrite (so_provider _ _ Hs'). cbn [mbind outcome_bind]. destruct (lookups_spec _ cp id (so_cache _ _ Hs)) as (_ & -> & _).
  rewrite Hi. cbn [mbind outcome_bind set_checkers checkers]. rewrite <- Hty, lookup_insert_eq.
  cbn [hc_query memory_checker mbind outcome_bind]. split; [done|]. cbn [code r_metadata r_instance r_healthCheck].
  split; [done|]. split; [|done]. rewrite !lookup_insert_ne, lookup_insert_eq by done. do 2 f_equal. rewrite Query_beat. simpl.
  rewrite Hii. specialize (Hb id). rewrite decide_True in Hb by done. exact Hb.
Qed.

(** Servers whose clocks disagree stamp heartbeats alike: whatever a
    server's clock is ahead of the store's ([off]), once one reading of the
    store's time has succeeded, the server's current time is the store's time,
    and later failed readings do not disturb it; before that, it is the local
    clock. *)
Theorem clocks_agree {S} (s : Server S) (off now : Z) (rounds : list (option Z * Z)) :
  Forall (fun r => clock_read r = true -> exists t, r = (Some t, t + off)) rounds ->
  - 2 ^ 62 <= off < 2 ^ 62 -> - 2 ^ 62 <= now < 2 ^ 62 ->
  timeAdjuster s = Some (doTimeAdjust rounds) ->
  currentTimeSec s now = if existsb clock_read rounds then now - off else now.
Proof.
  intros Hr Hoff Hnow Ht. unfold currentTimeSec. rewrite Ht. cbn [GetDiff]. rewrite (doTimeAdjust_diff off) by done.
  destruct (existsb clock_read rounds); rewrite i64_small; lia.
Qed.

(** Only the first configured plugin is initialised: [GetHealthChecker]
    guards [Initialize] with one [sync.Once] for all names, so a second plugin
    serves as it was registered, without its configuration. *)
Theorem second_plugin_not_initialized {S} `{HealthChecker S} (pluginSet : gmap string (Plugin S)) (n1 n2 : string) (p1 p2 : Plugin S) (c1 : S) :
  pluginSet !! n1 = Some p1 -> pluginSet !! n2 = Some p2 -> p_init p1 = Some c1 -> p_type p1 <> p_type p2 ->
  exists s, add_checkers pluginSet newServer false [n1; n2] = (s, None) /\
    checkers s !! p_type p1 = Some c1 /\ checkers s !! p_type p2 = Some (p_raw p2).
Proof.
  intros H1 H2 Hi Ht. eexists. split.
  - cbn [add_checkers]. unfold GetHealthChecker. rewrite H1, Hi, H2. cbn [checkers newServer]. rewrite lookup_empty.
    cbn [defaultChecker set_checkers newServer set_default checkers]. rewrite lookup_insert_ne, lookup_empty by done. reflexivity.
  - simpl. rewrite lookup_insert_ne, !lookup_insert_eq by done. done.
Qed.

(** A failed initialisation is forgotten: a second call of [Initialize]
    does nothing, reports success, and [GetServer] then hands out the server
    that was left half-initialised - without a cache provider when a checker
    or the store was at fault. *)
Theorem second_initialize_hides_failure {S} `{HealthChecker S} (pluginSet : gmap string (Plugin S)) (shards : Z)
    (c1 c2 : Config) (open1 open2 once1 once2 : bool) (d1 d2 : deps) (g : globals S) (e : init_error) :
  Initialize pluginSet shards startup c1 open1 once1 d1 = (g, Some e) -> e <> SubscribeError -> e <> ElectionError ->
  exists g', Initialize pluginSet shards g c2 open2 once2 d2 = (g', None) /\
    GetServer g' = Some (g_server g) /\ GetServer g = None /\ cacheProvider (g_server g) = None.
Proof.
  unfold Initialize at 1. cbn [startup g_once g_server finishInit].
  destruct (initialize pluginSet shards newServer c1 open1 once1 d1) as [s1 [e'|]] eqn:Hi; [|done].
  intros [= <- ->] H1 H2. eexists. split; [done|]. split; [done|]. split; [done|]. simpl.
  eapply initialize_error_provider; [|exact Hi|done|done]. done.
Qed.

(** ** Witnesses *)

Definition demo_plugins : gmap string (Plugin MemoryHealthChecker) :=
  <["heartbeatMemory" := mkPlugin 1 MemoryChecker.Initialize (Some MemoryChecker.Initialize)]>
  (<["other" := mkPlugin 2 (Suspend MemoryChecker.Initialize 5000) (Some MemoryChecker.Initialize)]> ∅).
Definition demo_config : Config := mkConfig true "" 0 "10.0.0.1" 0 0 0 0 ["heartbeatMemory"].
Definition all_ok : deps := mkDeps true true true.

Definition demo_handles : gmap Z Z := handles {[HEARTBEAT := MemoryChecker.Initialize]}.
Definition demo_cp : CacheProvider Z :=
  match calls demo_handles (newCacheProvider "polaris.checker" 32) [Created (CachedInstance (demo_instance "i1" "r1" true))] with
  | Ret (c, _) => c
  | Panics _ => newCacheProvider "polaris.checker" 32
  end.
Definition demo_server : Server MemoryHealthChecker :=
  mkServer {[HEARTBEAT := MemoryChecker.Initialize]} (Some HEARTBEAT) (Some demo_cp) (Some (mkTimeAdjuster 0)) None None "10.0.0.1"
    {["i1" := demo_instance "i1" "r1" true]} [].
Definition beat_of (id : string) : ApiInstance := mkApiInstance (Some id) None None None (Some "10.0.0.9") (Some 80).

Lemma demo_server_ok : server_ok demo_server demo_cp.
Proof.
  split; [done| |by exists HEARTBEAT; split; [done|eexists]|by apply map_Forall_singleton].
  destruct (calls_ok demo_handles (newCacheProvider "polaris.checker" 32) [Created (CachedInstance (demo_instance "i1" "r1" true))])
    as (c & es & He & Hc & _); [by apply newCacheProvider_ok|].
  unfold demo_cp. rewrite He. exact Hc.
Qed.

Definition demo_item : itemValue Z := mkItemValue "i1" "10.0.0.9" 80 5 15 (Some HEARTBEAT).


Lemma unknown_instance_gets_404_witness :
  report_all demo_server (beat_of "ghost") [1; 2; 3; 4; 5; 6] =
    Ret [ExecuteSuccess; ExecuteSuccess; ExecuteSuccess; ExecuteSuccess; NotFoundResource; NotFoundResource].
Proof.
  apply (unknown_instance_gets_404 demo_server demo_cp (beat_of "ghost") "ghost" [1; 2; 3; 4; 5; 6]).
  - split; [exact demo_server_ok|vm_compute; reflexivity..|]. exists HEARTBEAT, MemoryChecker.Initialize. done.
  - reflexivity.
  - vm_compute. reflexivity.
Defined.

Lemma started_server_is_ready_witness :
  exists s cp types, GetServer (Initialize demo_plugins 32 startup demo_config true false all_ok).1 = Some s /\
    types_of demo_plugins ["heartbeatMemory"] types /\ defaultChecker s = head types /\ server_ok s cp.
Proof.
  destruct (started_server_is_ready demo_plugins 32 demo_config true all_ok
    (Initialize demo_plugins 32 startup demo_config true false all_ok).1) as (s & cp & types & Hg & Ht & _ & _ & Hd & _ & Hs & _).
  - intros n p _. done.
  - lia.
  - reflexivity.
  - vm_compute. reflexivity.
  - exists s, cp, types. split; [exact Hg|]. split; [exact Ht|]. split; [exact Hd|exact Hs].
Defined.

Lemma last_heartbeat_is_the_report_witness :
  exists s' r evs resp, doReport demo_server false 1000 (Some (beat_of "i1")) = Ret (s', r, evs) /\
    GetLastHeartbeat (fun _ => "2023-05-01 10:00:00") s' 1007 (Some (beat_of "i1")) = Ret resp /\
    r_metadata resp !! "last-heartbeat-timestamp" = Some "1000".
Proof.
  destruct (last_heartbeat_is_the_report (fun _ => "2023-05-01 10:00:00") demo_server demo_cp 1000 1007 (beat_of "i1") "i1"
    (demo_instance "i1" "r1" true) (demo_instance "i1" "r1" true) HEARTBEAT) as (s' & r & evs & resp & H1 & H2 & _ & H4 & _).
  - exact demo_server_ok.
  - reflexivity.
  - reflexivity.
  - vm_compute. reflexivity.
  - vm_compute. reflexivity.
  - exists s', r, evs, resp. split; [exact H1|]. split; [exact H2|]. exact H4.
Defined.

Lemma clocks_agree_witness :
  currentTimeSec (mkServer (S := MemoryHealthChecker) ∅ None None (Some (doTimeAdjust [(Some 1000, 1090); (None, 1150)])) None None "" ∅ []) 1200 = 1110.
Proof.
  apply (clocks_agree _ 90 1200 [(Some 1000, 1090); (None, 1150)]).
  - constructor; [intros _; by exists 1000|]. constructor; [intros [=]|constructor].
  - lia.
  - lia.
  - reflexivity.
Defined.

Lemma second_plugin_not_initialized_witness :
  exists s, add_checkers demo_plugins newServer false ["heartbeatMemory"; "other"] = (s, None) /\
    checkers s !! 2 = Some (Suspend MemoryChecker.Initialize 5000).
Proof.
  destruct (second_plugin_not_initialized demo_plugins "heartbeatMemory" "other"
    (mkPlugin 1 MemoryChecker.Initialize (Some MemoryChecker.Initialize))
    (mkPlugin 2 (Suspend MemoryChecker.Initialize 5000) (Some MemoryChecker.Initialize)) MemoryChecker.Initialize) as (s & H1 & _ & H3).
  - reflexivity.
  - reflexivity.
  - reflexivity.
  - discriminate.
  - exists s. split; [exact H1|exact H3].
Defined.

Lemma second_initialize_hides_failure_witness :
  let c := mkConfig true "" 0 "" 0 0 0 0 ["heartbeatMemory"; "heartbeatMemory"] in
  exists g', Initialize demo_plugins 32 (Initialize demo_plugins 32 startup c true false all_ok).1 c true true all_ok = (g', None) /\
    GetServer g' <> None.
Proof.
  intros c. destruct (second_initialize_hides_failure demo_plugins 32 c c true true false true all_ok all_ok
    (Initialize demo_plugins 32 startup c true false all_ok).1 (DuplicateHealthChecker "heartbeatMemory" 1)) as (g' & H1 & H2 & _).
  - vm_compute. reflexivity.
  - discriminate.
  - discriminate.
  - exists g'. split; [exact H1|]. rewrite H2. discriminate.
Defined.
