(* ===== verification/SelfCheck.v ===== *)
(** * The checks of the polaris servers themselves ([src/service/healthcheck/leader.go])

    Only the elected server checks the health of the polaris servers.
    [LeaderChangeEventHandler] starts a loop when the server becomes leader and
    cancels it when it loses the election; a loop is a goroutine that notices
    its cancellation at its next turn.  The handlers and the turns of the loops
    interleave as steps. *)

From S2P Require Import Prelude Hash ShardMap TimeWheel HealthCache LeaderChecker Checker MemoryChecker Scheduler Server.
From Stdlib Require Import ZArith Lia.
From stdpp Require Import base tactics list gmap strings.

Open Scope Z_scope.

(** [ctx]: the context of the current loop ([cancel] cancels it). *)
Record LeaderChangeEventHandler := mkHandler {
  ctx : option nat;
  cancelled : gset nat;
  loops : gset nat;
  next_ctx : nat }.

Definition newLeaderChangeEventHandler : LeaderChangeEventHandler := mkHandler None ∅ ∅ 0.

Definition startCheckSelfServiceInstances (h : LeaderChangeEventHandler) : LeaderChangeEventHandler :=
  match ctx h with
  | Some _ => h
  | None => mkHandler (Some (next_ctx h)) (cancelled h) ({[next_ctx h]} ∪ loops h) (S (next_ctx h))
  end.

Definition stopCheckSelfServiceInstances (h : LeaderChangeEventHandler) : LeaderChangeEventHandler :=
  match ctx h with
  | None => h
  | Some c => mkHandler None ({[c]} ∪ cancelled h) (loops h) (next_ctx h)
  end.

Definition OnLeaderChange (h : LeaderChangeEventHandler) (e : LeaderChangeEvent) : LeaderChangeEventHandler :=
  if decide (EKey e <> electionKey) then h
  else if ELeader e then startCheckSelfServiceInstances h
  else stopCheckSelfServiceInstances h.

Section self_check.
  (** The server's checkers, by type. *)
  Context (handles : gmap Z Z).

Definition doCheckSelfServiceInstance (i : Instance) (e : env Z) : outcome (list action) :=
  match isHealthCheckEnable handles i with
  | None => Ret []
  | Some checker =>
      let request := mkCheck (mkQuery (ID i) (IHost i) (Port i) (Healthy i)) (getExpireDurationSec i) (Scheduler.currentTimeSec e) in
      checkResp ← check_ e checker request;
      match checkResp with
      | Fail _ => Ret []
      | Okay checkResp =>
          if negb (StayUnchanged checkResp)
          then Ret (setInsDbStatus (heartbeatOpen e) (store_success e) i (RHealthy checkResp) (LastHeartbeatTimeSec checkResp))
          else Ret []
      end
  end.

(** One tick of a loop. *)
Fixpoint check_all (is_ : list (option Instance)) (e : env Z) : outcome (list action) :=
  match is_ with
  | [] => Ret []
  | None :: _ => Panics NilDereference
  | Some i :: is_ =>
      acts ← doCheckSelfServiceInstance i e;
      rest ← check_all is_ e;
      Ret (acts ++ rest)
  end.

Inductive loop_op :=
| Event (e : LeaderChangeEvent)
| LoopTick (c : nat) (cp : CacheProvider Z) (e : env Z)
| LoopDone (c : nat).

Definition loop_step (h : LeaderChangeEventHandler) (o : loop_op) : outcome (LeaderChangeEventHandler * list action) :=
  match o with
  | Event e => Ret (OnLeaderChange h e, [])
  | LoopTick c cp e =>
      if decide (c ∈ loops h) then acts ← check_all (RangeSelfServiceInstances cp) e; Ret (h, acts) else Ret (h, [])
  | LoopDone c =>
      if decide (c ∈ loops h /\ c ∈ cancelled h)
      then Ret (mkHandler (ctx h) (cancelled h) (loops h ∖ {[c]}) (next_ctx h), []) else Ret (h, [])
  end.

Fixpoint loop_steps (h : LeaderChangeEventHandler) (os : list loop_op) : outcome (LeaderChangeEventHandler * list action) :=
  match os with
  | [] => Ret (h, [])
  | o :: os => '(h1, a1) ← loop_step h o; '(h2, a2) ← loop_steps h1 os; Ret (h2, a1 ++ a2)
  end.

(** The last election event said that this server leads. *)
Fixpoint leads (now : bool) (os : list loop_op) : bool :=
  match os with
  | [] => now
  | Event e :: os => leads (if decide (EKey e = electionKey) then ELeader e else now) os
  | _ :: os => leads now os
  end.

(** ** Lemmas *)

Record handler_ok (h : LeaderChangeEventHandler) : Prop := {
  ho_live : loops h ∖ cancelled h = match ctx h with Some c => {[c]} | None => ∅ end;
  ho_fresh : forall c, c ∈ loops h ∪ cancelled h -> (c < next_ctx h)%nat }.

Lemma start_ok h : handler_ok h -> handler_ok (startCheckSelfServiceInstances h) /\ is_Some (ctx (startCheckSelfServiceInstances h)).
Proof.
  intros [Hl Hf]. unfold startCheckSelfServiceInstances. destruct (ctx h) as [c|] eqn:Hc; [split; [split; [by rewrite Hc|done]|by rewrite Hc]|].
  split; [|by eexists]. split; simpl.
  - assert (next_ctx h ∉ cancelled h) by (intros Hin; assert (next_ctx h < next_ctx h)%nat by (apply Hf; set_solver); lia). set_solver.
  - intros c Hin. destruct (decide (c = next_ctx h)) as [->|]; [lia|]. assert (c < next_ctx h)%nat by (apply Hf; set_solver). lia.
Qed.

Lemma stop_ok h : handler_ok h -> handler_ok (stopCheckSelfServiceInstances h) /\ ctx (stopCheckSelfServiceInstances h) = None.
Proof.
  intros [Hl Hf]. unfold stopCheckSelfServiceInstances. destruct (ctx h) as [c|] eqn:Hc; [|split; [split; [by rewrite Hc|done]|done]].
  split; [|done]. split; simpl; [set_solver|]. intros j Hj. apply Hf. set_solver.
Qed.

Lemma loop_step_ok h o h' acts :
  handler_ok h -> loop_step h o = Ret (h', acts) ->
  handler_ok h' /\ bool_decide (is_Some (ctx h')) = leads (bool_decide (is_Some (ctx h))) [o].
Proof.
  intros Hh. destruct o as [e|c cp e|c]; cbn [loop_step leads].
  - intros [= <- _]. unfold OnLeaderChange. destruct (decide (EKey e = electionKey)) as [He|He].
    + rewrite decide_False by (by intros ?). destruct (ELeader e).
      * destruct (start_ok h Hh) as [? ?]. by rewrite bool_decide_true.
      * destruct (stop_ok h Hh) as [? Hn]. rewrite bool_decide_false; [done|]. rewrite Hn. by intros [].
    + by rewrite decide_True.
  - case_decide; [intros (a & _ & [= <- _])%bind_Ret; done|by intros [= <- _]].
  - case_decide as Hc; [|by intros [= <- _]]. intros [= <- _]. split; [|done]. destruct Hc as [_ Hc], Hh as [Hl Hf]. split; simpl.
    + rewrite <- Hl. set_solver.
    + intros j Hj. apply Hf. set_solver.
Qed.

Lemma loop_steps_ok h os h' acts :
  handler_ok h -> loop_steps h os = Ret (h', acts) ->
  handler_ok h' /\ bool_decide (is_Some (ctx h')) = leads (bool_decide (is_Some (ctx h))) os.
Proof.
  revert h acts. induction os as [|o os IH]; intros h acts Hh; [by intros [= <- _]|].
  cbn [loop_steps]. intros ([h1 a1] & H1 & ([h2 a2] & H2 & [= <- _])%bind_Ret)%bind_Ret.
  apply loop_step_ok in H1 as [Hh1 Hc1]; [|done]. destruct (IH _ _ Hh1 H2) as [Hh2 Hc2]. split; [done|].
  rewrite Hc2, Hc1. by destruct o.
Qed.

Lemma takes_down_setInsDbStatus op success i h last id :
  Exists (takes_down id) (setInsDbStatus op success i h last) <-> ID i = id /\ h = false.
Proof.
  unfold setInsDbStatus, asyncSetInsDbStatus, serialSetInsDbStatus. rewrite Exists_app.
  assert (~ Exists (takes_down id) (if success && bool_decide (Healthy i <> h)
    then [PublishEvent (ID i) (if h then EventInstanceTurnHealth else EventInstanceTurnUnHealth)] else [])) as Hp.
  { destruct (success && _); rewrite ?Exists_cons, Exists_nil; simpl; tauto. }
  destruct op; rewrite Exists_cons, Exists_nil; simpl; destruct h; simpl; naive_solver.
Qed.
End self_check.

(** What makes a leader's tick take a server down. *)
Definition silent {S} `{HeartbeatContract S} (s : Server S) (now_ms cur : Z) (i : Instance) : Prop :=
  Healthy i = true /\ exists k ch, isHealthCheckEnable (handles (checkers s)) i = Some k /\ checkers s !! k = Some ch /\
    skips ch now_ms (getExpireDurationSec i) = false /\ expired cur (last_beat ch (ID i)) (getExpireDurationSec i) = true.

Section tick.
  Context {S : Type} `{HeartbeatContract S}.

Lemma doCheck_silent (s : Server S) cp now_ms (e : env Z) i :
  server_ok s cp -> check_ e = ask_checkers s now_ms ->
  exists acts, doCheckSelfServiceInstance (handles (checkers s)) i e = Ret acts /\
    forall id, Exists (takes_down id) acts <-> ID i = id /\ silent s now_ms (Scheduler.currentTimeSec e) i.
Proof.
  intros Hs He. unfold doCheckSelfServiceInstance, silent.
  destruct (isHealthCheckEnable (handles (checkers s)) i) as [k|] eqn:Hk.
  2:{ eexists. split; [done|]. intros id. rewrite Exists_nil. naive_solver. }
  assert (exists ch, checkers s !! k = Some ch) as [ch Hch].
  { unfold isHealthCheckEnable in Hk. destruct (EnableHealthCheck i); [|done]. destruct (GetHealthCheck i) as [hc|]; [|done].
    unfold HealthCache.getHealthChecker in Hk. rewrite lookup_handles in Hk. destruct (checkers s !! hcType hc) eqn:?; [|done].
    injection Hk as <-. eauto. }
  rewrite He. unfold ask_checkers. rewrite (deref_Some _ _ _ Hch). cbn [mbind outcome_bind].
  rewrite check_verdict by (by apply (so_checkers _ _ Hs k)). cbn [mbind outcome_bind cquery InstanceId QHealthy cur_time_sec ExpireDurationSec].
  set (cur := Scheduler.currentTimeSec e). set (exp := getExpireDurationSec i).
  assert ((exists k' ch', Some k = Some k' /\ checkers s !! k' = Some ch' /\ skips ch' now_ms exp = false /\ expired cur (last_beat ch' (ID i)) exp = true)
    <-> skips ch now_ms exp = false /\ expired cur (last_beat ch (ID i)) exp = true) as Hx.
  { split; [|intros []; exists k, ch; done]. intros (k' & ch' & [= <-] & Hc' & ?). by rewrite Hch in Hc'; injection Hc' as <-. }
  setoid_rewrite Hx. clear Hx. unfold verdict.
  destruct (skips ch now_ms exp), (expired cur (last_beat ch (ID i)) exp), (Healthy i);
    cbn [StayUnchanged RHealthy LastHeartbeatTimeSec negb]; eexists; (split; [done|]); intros id;
    rewrite ?takes_down_setInsDbStatus, ?Exists_nil; intuition discriminate.
Qed.

Lemma check_all_silent (s : Server S) cp now_ms (e : env Z) (is_ : list Instance) :
  server_ok s cp -> check_ e = ask_checkers s now_ms ->
  exists acts, check_all (handles (checkers s)) (Some <$> is_) e = Ret acts /\
    forall id, Exists (takes_down id) acts <-> exists i, i ∈ is_ /\ ID i = id /\ silent s now_ms (Scheduler.currentTimeSec e) i.
Proof.
  intros Hs He. induction is_ as [|i is_ (rest & Hr & Hrs)]; cbn [check_all fmap list_fmap].
  - eexists. split; [done|]. intros id. rewrite Exists_nil. set_solver.
  - destruct (doCheck_silent s cp now_ms e i Hs He) as (acts & -> & Ha). cbn [mbind outcome_bind]. rewrite Hr.
    cbn [mbind outcome_bind]. eexists. split; [done|]. intros id. rewrite Exists_app, Ha, Hrs. set_solver.
Qed.

Lemma self_instances (s : Server S) cp :
  server_ok s cp ->
  exists is_, RangeSelfServiceInstances cp = Some <$> is_ /\
    forall i, i ∈ is_ <-> exists id, t_self (tables_of cp) !! id = Some i.
Proof.
  intros Hs. pose proof (Range_spec _ (co_self _ _ (so_cache _ _ Hs))) as Hp.
  unfold RangeSelfServiceInstances. exists (omap (fun kv => GetInstanceOf kv.2) (Range (selfServiceInstances cp))). split.
  - assert (Forall (fun kv : string * ItemWithChecker Z => exists i, GetInstanceOf kv.2 = Some i) (Range (selfServiceInstances cp))) as HF.
    { rewrite Hp. apply Forall_forall. intros [k it] Hin%elem_of_map_to_list.
      pose proof (co_self_items _ _ (so_cache _ _ Hs) _ _ Hin) as Hit. destruct it; [|done]. simpl. eauto. }
    clear Hp. induction HF as [|kv l [i Hi] HF IH]; [done|]. cbn [fmap list_fmap omap list_omap]. rewrite Hi. cbn [fmap list_fmap]. by f_equal.
  - intros i. rewrite list_elem_of_omap. simpl. unfold instances_of. setoid_rewrite lookup_omap_Some. split.
    + intros ([k it] & Hin & Hi). rewrite Hp in Hin. apply elem_of_map_to_list in Hin. eauto.
    + intros (k & it & Hi & Hin). exists (k, it). split; [|done]. rewrite Hp. by apply elem_of_map_to_list.
Qed.
End tick.

(** ** Properties *)

(** The servers are checked by the leader alone: after any sequence of
    election events and turns of the loops, the loops that have not been
    cancelled are exactly one while the last event made this server the
    leader, and none otherwise - repeated events start no second loop - and a
    cancelled loop can only stop. *)
Theorem self_checks_follow_leadership (types : gmap Z Z) (os : list loop_op) (h : LeaderChangeEventHandler) (acts : list action) :
  loop_steps types newLeaderChangeEventHandler os = Ret (h, acts) ->
  size (loops h ∖ cancelled h) = (if leads false os then 1%nat else 0%nat) /\
  forall c, c ∈ loops h -> c ∈ cancelled h ->
    exists h', loop_step types h (LoopDone c) = Ret (h', []) /\ c ∉ loops h' /\ ctx h' = ctx h.
Proof.
  intros He. apply loop_steps_ok in He as [[Hl Hf] Hc]; [|by split; [|set_solver]]. simpl in Hc. split.
  - rewrite Hl. unfold newLeaderChangeEventHandler in Hc. change (bool_decide (is_Some (ctx (mkHandler None ∅ ∅ 0)))) with false in Hc.
    rewrite <- Hc. destruct (ctx h); [rewrite bool_decide_true by eauto; apply size_singleton|].
    rewrite bool_decide_false by (by intros []). apply size_empty.
  - intros c Hc1 Hc2. cbn [loop_step]. rewrite decide_True by done. eexists. split; [done|]. simpl. set_solver.
Qed.

(** A tick of the leader's loop takes down exactly the silent servers: it
    never panics, and writes "unhealthy" for an id precisely when a healthy,
    health-checked polaris server of that id has let its expiry pass since
    its last heartbeat and its checker is not suspended. *)
Theorem leader_takes_down_exactly_the_silent {S} `{HeartbeatContract S} (s : Server S) (cp : CacheProvider Z)
    (h : LeaderChangeEventHandler) (c : nat) (now_ms : Z) (e : env Z) :
  server_ok s cp -> check_ e = ask_checkers s now_ms -> c ∈ loops h ->
  exists acts, loop_step (handles (checkers s)) h (LoopTick c cp e) = Ret (h, acts) /\
    forall id, Exists (takes_down id) acts <->
      exists key i, t_self (tables_of cp) !! key = Some i /\ ID i = id /\ silent s now_ms (Scheduler.currentTimeSec e) i.
Proof.
  intros Hs He Hc. cbn [loop_step]. rewrite decide_True by done.
  destruct (self_instances s cp Hs) as (is_ & -> & His). destruct (check_all_silent s cp now_ms e is_ Hs He) as (acts & -> & Ha).
  cbn [mbind outcome_bind]. eexists. split; [done|]. intros id. rewrite Ha. setoid_rewrite His. naive_solver.
Qed.

(** ** Witnesses *)

Lemma self_checks_follow_leadership_witness :
  exists h, loop_steps ∅ newLeaderChangeEventHandler
      [Event (mkLeaderChangeEvent electionKey true "10.0.0.1"); Event (mkLeaderChangeEvent electionKey true "10.0.0.1");
       Event (mkLeaderChangeEvent electionKey false "10.0.0.2"); Event (mkLeaderChangeEvent "other" true "10.0.0.1"); LoopDone 0;
       Event (mkLeaderChangeEvent electionKey true "10.0.0.1")] = Ret (h, []) /\
    size (loops h ∖ cancelled h) = 1%nat.
Proof.
  eexists. split; [vm_compute; reflexivity|].
  refine (proj1 (self_checks_follow_leadership ∅
    [Event (mkLeaderChangeEvent electionKey true "10.0.0.1"); Event (mkLeaderChangeEvent electionKey true "10.0.0.1");
     Event (mkLeaderChangeEvent electionKey false "10.0.0.2"); Event (mkLeaderChangeEvent "other" true "10.0.0.1"); LoopDone 0;
     Event (mkLeaderChangeEvent electionKey true "10.0.0.1")] _ [] _)).
  vm_compute. reflexivity.
Defined.

(** A provider that knows one polaris server, which last reported at 1000. *)
Definition leader_cp : CacheProvider Z :=
  match calls demo_handles (newCacheProvider "polaris.checker" 32) [Created (CachedInstance (polaris_server "p1" "10.0.0.1"))] with
  | Ret (c, _) => c
  | Panics _ => newCacheProvider "polaris.checker" 32
  end.
Definition leader_server : Server MemoryHealthChecker :=
  mkServer {[HEARTBEAT := Report MemoryChecker.Initialize (beat_at "p1" 1000)]} (Some HEARTBEAT) (Some leader_cp)
    (Some (mkTimeAdjuster 0)) None None "10.0.0.1" ∅ [].

Lemma leader_server_ok : server_ok leader_server leader_cp.
Proof.
  split; [done| |by exists HEARTBEAT; split; [done|eexists]|by apply map_Forall_singleton].
  destruct (calls_ok demo_handles (newCacheProvider "polaris.checker" 32) [Created (CachedInstance (polaris_server "p1" "10.0.0.1"))])
    as (c & es & He & Hc & _); [by apply newCacheProvider_ok|].
  unfold leader_cp. rewrite He. exact Hc.
Qed.

Lemma leader_takes_down_exactly_the_silent_witness :
  let e := mkEnv (fun _ => None) (fun _ => None) (ask_checkers leader_server 1006000) true true 1006 0 in
  exists acts, loop_step (handles (checkers leader_server)) (mkHandler (Some 0%nat) ∅ {[0%nat]} 1) (LoopTick 0 leader_cp e) =
      Ret (mkHandler (Some 0%nat) ∅ {[0%nat]} 1, acts) /\
    Exists (takes_down "p1") acts.
Proof.
  intros e. destruct (leader_takes_down_exactly_the_silent leader_server leader_cp (mkHandler (Some 0%nat) ∅ {[0%nat]} 1) 0 1006000 e)
    as (acts & He & Ha).
  - exact leader_server_ok.
  - reflexivity.
  - set_solver.
  - exists acts. split; [exact He|]. apply Ha. exists "p1", (polaris_server "p1" "10.0.0.1").
    split; [vm_compute; reflexivity|]. split; [reflexivity|]. split; [reflexivity|].
    exists HEARTBEAT, (Report MemoryChecker.Initialize (beat_at "p1" 1000)). repeat split; vm_compute; reflexivity.
Defined.
