(* ===== verification/BaseCache.v ===== *)
(** * What the resource caches share ([src/cache/cache.go], [src/cache/listener.go])

    Every cache of the package polls the store: it asks for the rows modified
    since its last fetch, applies them, and remembers the store's time.
    [baseCache] is that bookkeeping.  Times are nanoseconds since the epoch,
    except [lastFetchTime], which the code keeps in seconds.

    The second part is the revision of a service, a hash over the revisions of
    its instances, by which clients see that something changed. *)

From S2P Require Import Prelude GoStrings Hash Utils.
From Stdlib Require Import ZArith Lia Ascii String.
From stdpp Require Import base tactics list gmap strings sorting.

Open Scope Z_scope.

(** ** Time *)

Definition Second : Z := 1000000000.
(** [time.Unix(s, 0)] and [t.Unix()]. *)
Definition FromUnix (s : Z) : Z := s * Second.
Definition Unix (t : Z) : Z := t / Second.
Definition zeroTime : Z := FromUnix 0.

Lemma Unix_FromUnix s : Unix (FromUnix s) = s.
Proof. unfold Unix, FromUnix, Second. by rewrite Z.div_mul. Qed.

Section base.
  (** [DefaultTimeDiff], minus five seconds unless configured. *)
  Context (DefaultTimeDiff : Z).

Record baseCache := mkBase {
  firtstUpdate : bool;
  lastFetchTime : Z;
  lastMtimes : gmap string Z }.

Definition newBaseCache : baseCache := mkBase true 1 ∅.
Definition base_clear (bc : baseCache) : baseCache := mkBase true 1 ∅.

Definition resetLastMtime (bc : baseCache) (label : string) : baseCache :=
  mkBase (firtstUpdate bc) (lastFetchTime bc) (<[label := FromUnix 0]> (lastMtimes bc)).
Definition resetLastFetchTime (bc : baseCache) : baseCache :=
  mkBase (firtstUpdate bc) 1 (lastMtimes bc).

Definition LastMtime (bc : baseCache) (label : string) : Z := default (FromUnix 0) (lastMtimes bc !! label).

Definition LastFetchTime (bc : baseCache) : Z :=
  let lastTime := FromUnix (lastFetchTime bc) in
  let tmp := lastTime + DefaultTimeDiff in
  if decide (zeroTime > tmp) then lastTime else tmp.

(** [executed]: what the executor, which ran on [bc], returned: the new
    modification times, or an error. [storeTime]: the store's clock. *)
Definition doCacheUpdate (bc : baseCache) (storeTime : option Z) (executed : option (gmap string Z)) : baseCache :=
  let curStoreTime := default (lastFetchTime bc) storeTime in
  match executed with
  | None => mkBase (firtstUpdate bc) curStoreTime (lastMtimes bc)
  | Some m => mkBase false curStoreTime (if decide (size m = 0%nat) then lastMtimes bc else m)
  end.

End base.

(** ** Revisions *)

(** The order of [sort.Strings]: bytewise. *)
Definition string_le (s t : string) : Prop := String.leb s t = true.
#[export] Instance string_le_dec : RelDecision string_le := fun s t => decide (String.leb s t = true).

(** [sha1.New], a series of writes, and [Sum] in hexadecimal. *)
Definition sha1_hex (writes : list string) : string := hex (sha1_sum (bytes_of (String.concat "" writes))).

Definition ComputeRevisionBySlice (written : list string) (slice : list string) : string := sha1_hex (written ++ slice).
Definition ComputeRevision (serviceRevision : string) (instances : list string) : string :=
  ComputeRevisionBySlice [serviceRevision] (merge_sort string_le instances).
Definition CompositeComputeRevision (revisions : list string) : string :=
  sha1_hex (merge_sort string_le revisions).

(** [revisionNotify], and [processRevisionWorker]: [service] and [instances]
    are what the caches answer for the service id. *)
Record revisionNotify := mkNotify { nServiceID : string; nvalid : bool }.

Definition processRevisionWorker (revisions : gmap string string) (req : revisionNotify)
    (service : option string) (instances : list string) : gmap string string * bool :=
  if decide (nServiceID req = "") then (revisions, false)
  else if negb (nvalid req) then (delete (nServiceID req) revisions, true)
  else match service with
       | None => (revisions, false)
       | Some rev => (<[nServiceID req := ComputeRevision rev instances]> revisions, true)
       end.

Definition GetServiceInstanceRevision (revisions : gmap string string) (serviceID : string) : string :=
  default "" (revisions !! serviceID).

(** ** Lemmas *)

Lemma LastFetchTime_le D bc : D <= 0 -> LastFetchTime D bc <= FromUnix (lastFetchTime bc).
Proof. intros HD. unfold LastFetchTime. cbv zeta. case_decide; lia. Qed.

Lemma LastFetchTime_eq D bc t :
  lastFetchTime bc = t -> 0 <= FromUnix t + D -> LastFetchTime D bc = FromUnix t + D.
Proof. intros <- H0. unfold LastFetchTime. change zeroTime with 0. cbv zeta. by rewrite decide_False by lia. Qed.

Lemma ascii_compare_trans a b c : Ascii.compare a b = Lt -> Ascii.compare b c = Lt -> Ascii.compare a c = Lt.
Proof. unfold Ascii.compare. rewrite !N.compare_lt_iff. lia. Qed.

Lemma string_compare_trans a b c :
  String.compare a b <> Gt -> String.compare b c <> Gt -> String.compare a c <> Gt.
Proof.
  revert b c. induction a as [|x a IH]; intros [|y b] [|z c]; cbn [String.compare]; try done.
  destruct (Ascii.compare x y) eqn:Hxy; destruct (Ascii.compare y z) eqn:Hyz; try done; intros H1 H2.
  - apply Ascii.compare_eq_iff in Hxy, Hyz. subst. unfold Ascii.compare. rewrite N.compare_refl. by eapply IH.
  - apply Ascii.compare_eq_iff in Hxy. subst. by rewrite Hyz.
  - apply Ascii.compare_eq_iff in Hyz. subst. by rewrite Hxy.
  - by rewrite (ascii_compare_trans _ _ _ Hxy Hyz).
Qed.

Lemma string_le_compare a b : string_le a b <-> String.compare a b <> Gt.
Proof. unfold string_le, String.leb. by destruct (String.compare a b). Qed.

#[export] Instance string_le_trans : Transitive string_le.
Proof. intros a b c. rewrite !string_le_compare. apply string_compare_trans. Qed.
#[export] Instance string_le_total : Total string_le.
Proof. intros a b. destruct (String.leb_total a b); [by left|by right]. Qed.
#[export] Instance string_le_antisymm : AntiSymm (=) string_le.
Proof. intros a b. apply String.leb_antisym. Qed.

(** Sorting forgets the order. *)
Lemma sort_strings_perm l l' : l ≡ₚ l' -> merge_sort string_le l = merge_sort string_le l'.
Proof.
  intros Hl. apply (Sorted_unique string_le); [apply Sorted_merge_sort; apply _..|].
  by rewrite !merge_sort_Permutation.
Qed.

Lemma concat_cons s l : String.concat "" (s :: l) = s +:+ String.concat "" l.
Proof. destruct l; [by rewrite sapp_nil_r|done]. Qed.

Lemma sapp_inj_length s t s' t' :
  String.length s = String.length s' -> s +:+ t = s' +:+ t' -> s = s' /\ t = t'.
Proof.
  revert s'. induction s as [|c s IH]; intros [|c' s']; try done.
  cbn [String.length]. intros [= Hl] [= -> He]. by destruct (IH s' Hl He) as [-> ->].
Qed.

(** Writes of equal length can be read off their concatenation. *)
Lemma concat_inj n l l' :
  (0 < n)%nat -> Forall (fun s => String.length s = n) l -> Forall (fun s => String.length s = n) l' ->
  String.concat "" l = String.concat "" l' -> l = l'.
Proof.
  intros Hn Hl. revert l'. induction Hl as [|s l Hs Hl IH]; intros [|s' l'] Hl' He; [done| | |].
  - inversion Hl'; subst. rewrite concat_cons in He. destruct s'; [simpl in *; lia|discriminate].
  - rewrite concat_cons in He. destruct s; [simpl in *; lia|discriminate].
  - inversion Hl' as [|? ? Hs' Hl'']; subst. rewrite !concat_cons in He.
    apply sapp_inj_length in He as [-> He]; [|congruence]. f_equal. by apply IH.
Qed.

#[export] Instance byte_inj : Inj (=) (=) (fun a : ascii => Z.of_N (N_of_ascii a)).
Proof.
  intros a b Hab%(inj Z.of_N). by rewrite <- (ascii_N_embedding a), <- (ascii_N_embedding b), Hab.
Qed.

Lemma bytes_of_inj s t : bytes_of s = bytes_of t -> s = t.
Proof.
  unfold bytes_of. intros He. apply (inj (fmap _)) in He.
  apply (f_equal String.string_of_list_ascii) in He. by rewrite !String.string_of_list_ascii_of_string in He.
Qed.

(** *** Applying rows one by one

    [obs s k] is what a table shows under [k]; each row determines what is shown
    under its own key and leaves the rest alone. *)
Section rows.
  Context {S R K V : Type} `{EqDecision K} (step : S -> R -> S) (obs : S -> K -> V) (key : R -> K) (val : R -> V).

Lemma foldl_rows_notin rows s k :
  (forall s r, k <> key r -> obs (step s r) k = obs s k) -> k ∉ key <$> rows -> obs (foldl step s rows) k = obs s k.
Proof.
  intros Hstep. revert s. induction rows as [|r rows IH]; intros s Hk; [done|].
  rewrite fmap_cons, not_elem_of_cons in Hk. destruct Hk as [Hk Hks]. cbn [foldl]. by rewrite IH, Hstep.
Qed.

Lemma foldl_rows_in rows s r :
  (forall s r k, k <> key r -> obs (step s r) k = obs s k) -> (forall s r, obs (step s r) (key r) = val r) ->
  NoDup (key <$> rows) -> r ∈ rows -> obs (foldl step s rows) (key r) = val r.
Proof.
  intros Hne Heq. revert s. induction rows as [|r' rows IH]; intros s Hnd Hr; [by apply not_elem_of_nil in Hr|].
  rewrite fmap_cons, NoDup_cons in Hnd. destruct Hnd as [Hn Hnd]. cbn [foldl].
  apply elem_of_cons in Hr as [->|Hr]; [|by apply IH]. rewrite foldl_rows_notin; auto.
Qed.
End rows.

(** ** Properties *)

(** The revision of a service identifies its state: it does not depend on
    the order in which the cache lists the instances, and - revisions being of
    one length, and the hash not colliding on the two inputs - equal revisions
    mean the same service revision and the same instance revisions. *)
Theorem revision_identifies_service (n : nat) (rev rev' : string) (is_ is' : list string) :
  (0 < n)%nat -> Forall (fun s => String.length s = n) (rev :: is_) -> Forall (fun s => String.length s = n) (rev' :: is') ->
  (let input r l := bytes_of (String.concat "" ([r] ++ merge_sort string_le l)) in
   sha1_sum (input rev is_) = sha1_sum (input rev' is') -> input rev is_ = input rev' is') ->
  ComputeRevision rev is_ = ComputeRevision rev' is' <-> rev = rev' /\ is_ ≡ₚ is'.
Proof.
  cbv zeta. intros Hn Hl Hl' Hcol. unfold ComputeRevision, ComputeRevisionBySlice, sha1_hex. split.
  - intros He. apply hex_inj in He; [|apply sha1_sum_byte..]. apply Hcol, bytes_of_inj in He.
    apply (concat_inj n) in He; [| done | |].
    + injection He as -> He. split; [done|]. by rewrite <- (merge_sort_Permutation string_le is_), He, merge_sort_Permutation.
    + inversion Hl; subst. constructor; [done|]. by rewrite merge_sort_Permutation.
    + inversion Hl'; subst. constructor; [done|]. by rewrite merge_sort_Permutation.
  - intros [-> Hp]. by rewrite (sort_strings_perm _ _ Hp).
Qed.

Lemma revision_identifies_service_witness :
  ComputeRevision "r0" ["b1"; "a2"; "c3"] = ComputeRevision "r0" ["c3"; "b1"; "a2"] <->
  "r0" = "r0" /\ ["b1"; "a2"; "c3"] ≡ₚ ["c3"; "b1"; "a2"].
Proof.
  apply (revision_identifies_service 2 "r0" "r0" ["b1"; "a2"; "c3"] ["c3"; "b1"; "a2"]).
  - lia.
  - repeat constructor.
  - repeat constructor.
  - cbv zeta. intros _. reflexivity.
Defined.
