(* ===== verification/InstanceCache.v ===== *)
(** * The instance cache ([src/cache/instance.go], [src/cache/instance_bucket.go])

    [instanceCache] keeps every instance of the store three times - by id, by
    service, and as counts per service - and applies the rows that the store
    says were modified since the last fetch ([baseCache]).  What it changes it
    announces to its listeners; the health checker's provider is one of them.

    A [sync.Map] is a finite map; the order in which Go ranges over a map is the
    order of the list that the model is given.  The boltdb store's side of the
    fetch is [src/store/boltdb/instance.go]. *)

From S2P Require Import Prelude Hash Utils ShardMap HealthCache BaseCache.
From Stdlib Require Import ZArith Lia.
From stdpp Require Import base tactics list gmap strings sorting pretty.

Open Scope Z_scope.

(** ** Data *)

(** [model.Instance]: [proto] holds the fields the health checker reads, with
    the service id, the others are the protobuf's, read through its getters;
    [Mtime] is the protobuf's modification time [MtimeText] as [time.Parse]
    reads it, [None] when it does not parse. *)
Record StoreInstance := mkSI {
  proto : Instance;
  Protocol : string;
  Version : string;
  Location : option (string * string * string);
  Valid : bool;
  ModifyTime : Z;
  Mtime : option Z;
  MtimeText : string;
  Priority : Z;
  Weight : Z;
  LogicSet : string }.
#[export] Instance StoreInstance_eq_dec : EqDecision StoreInstance.
Proof. solve_decision. Defined.

Abbreviation iid it := (ID (proto it)).
Abbreviation sid it := (ServiceID (proto it)).

Record InstanceCount := mkCount {
  IsolateInstanceCount : Z;
  HealthyInstanceCount : Z;
  TotalInstanceCount : Z }.
Definition noInstances : InstanceCount := mkCount 0 0 0.

Definition set_metadata (i : Instance) (m : gmap string string) : Instance :=
  mkInstance (ID i) (Namespace i) (Service i) (ServiceID i) (VpcID i) (IHost i) (Port i) (Healthy i) (Isolate i)
    (Revision i) m (EnableHealthCheck i) (GetHealthCheck i).

Definition fillInternalLabels (item : StoreInstance) : StoreInstance :=
  let m := Metadata (proto item) in
  let m := if decide (Version item = "") then m else <["version" := Version item]> m in
  let m := if decide (Protocol item = "") then m else <["protocol" := Protocol item]> m in
  let m := match Location item with
           | None => m
           | Some (region, zone, campus) =>
               <["campus" := campus]> (<["zone" := zone]> (<["region" := region]> m))
           end in
  mkSI (set_metadata (proto item) m) (Protocol item) (Version item) (Location item) (Valid item) (ModifyTime item) (Mtime item)
    (MtimeText item) (Priority item) (Weight item) (LogicSet item).

(** What the listeners are told. *)
Inductive cache_event :=
| ECreated (it : StoreInstance)
| EUpdated (it : StoreInstance)
| EDeleted (it : StoreInstance)
| EReload (services : gset string).

Record instanceCache := mkIC {
  base : baseCache;
  ids : gmap string StoreInstance;
  services : gmap string (gmap string StoreInstance);
  instanceCounts : gmap string InstanceCount;
  servicePorts : gmap string (gset string);
  needMeta : bool;
  systemServiceID : list string;
  instanceCount : Z;
  lastCheckAllTime : Z }.

Definition newInstanceCache (needMeta : bool) (systemServiceID : list string) : instanceCache :=
  mkIC newBaseCache ∅ ∅ ∅ ∅ needMeta systemServiceID 0 0.

Definition set_base (ic : instanceCache) b :=
  mkIC b (ids ic) (services ic) (instanceCounts ic) (servicePorts ic) (needMeta ic) (systemServiceID ic) (instanceCount ic) (lastCheckAllTime ic).
Definition set_data (ic : instanceCache) i s p :=
  mkIC (base ic) i s (instanceCounts ic) p (needMeta ic) (systemServiceID ic) (instanceCount ic) (lastCheckAllTime ic).
Definition set_counts (ic : instanceCache) c :=
  mkIC (base ic) (ids ic) (services ic) c (servicePorts ic) (needMeta ic) (systemServiceID ic) (instanceCount ic) (lastCheckAllTime ic).
Definition set_count (ic : instanceCache) n :=
  mkIC (base ic) (ids ic) (services ic) (instanceCounts ic) (servicePorts ic) (needMeta ic) (systemServiceID ic) n (lastCheckAllTime ic).
Definition set_checked (ic : instanceCache) t :=
  mkIC (base ic) (ids ic) (services ic) (instanceCounts ic) (servicePorts ic) (needMeta ic) (systemServiceID ic) (instanceCount ic) t.

Definition InstanceName : string := "instance".
Definition checkAllIntervalSec : Z := 60.

(** ** [servicePortsBucket] *)

Definition appendPort (b : gmap string (gset string)) (serviceID : string) (port : Z) : gmap string (gset string) :=
  if decide (serviceID = "" \/ port = 0) then b
  else <[serviceID := {[pretty port]} ∪ default ∅ (b !! serviceID)]> b.

Definition listPort (b : gmap string (gset string)) (serviceID : string) : list string :=
  match b !! serviceID with None => [] | Some val => elements val end.

(** ** Applying rows *)

(** The variables of [setInstances]. *)
Record setting := mkSetting {
  s_ic : instanceCache;
  s_mtime : Z;
  s_update : Z;
  s_del : Z;
  s_affect : gset string;
  s_count : Z;
  s_events : list cache_event }.

Definition setInstance (st : setting) (item : StoreInstance) : setting :=
  let ic := s_ic st in
  let modifyTime := Unix (ModifyTime item) in
  let lastMtime := if decide (s_mtime st < modifyTime) then modifyTime else s_mtime st in
  let affect := {[sid item]} ∪ s_affect st in
  let itemExist := bool_decide (is_Some (ids ic !! iid item)) in
  if negb (Valid item) then
    let services' := match services ic !! sid item with
                     | None => services ic
                     | Some value => <[sid item := delete (iid item) value]> (services ic)
                     end in
    mkSetting (set_data ic (delete (iid item) (ids ic)) services' (servicePorts ic))
      lastMtime (s_update st) (s_del st + 1) affect
      (if itemExist then i64 (s_count st - 1) else s_count st)
      (s_events st ++ if itemExist then [EDeleted item] else [])
  else
    let item := fillInternalLabels item in
    let value := default ∅ (services ic !! sid item) in
    mkSetting (set_data ic (<[iid item := item]> (ids ic)) (<[sid item := <[iid item := item]> value]> (services ic))
                 (appendPort (servicePorts ic) (sid item) (Port (proto item))))
      lastMtime (s_update st + 1) (s_del st) affect
      (if itemExist then s_count st else i64 (s_count st + 1))
      (s_events st ++ [if itemExist then EUpdated item else ECreated item]).

Definition isInstanceHealthy (i : StoreInstance) : bool := Healthy (proto i) && negb (Isolate (proto i)).

Definition countInstance (count : InstanceCount) (i : StoreInstance) : InstanceCount :=
  mkCount (if Isolate (proto i) then u32 (IsolateInstanceCount count + 1) else IsolateInstanceCount count)
    (if isInstanceHealthy i then u32 (HealthyInstanceCount count + 1) else HealthyInstanceCount count)
    (u32 (TotalInstanceCount count + 1)).
Definition countInstances (l : list StoreInstance) : InstanceCount := foldl countInstance noInstances l.

(** The count of one affected service. *)
Definition countService (services : gmap string (gmap string StoreInstance)) (counts : gmap string InstanceCount)
    (serviceID : string) : gmap string InstanceCount :=
  match services !! serviceID with
  | None => delete serviceID counts
  | Some value =>
      let count := countInstances (map_to_list value).*2 in
      if decide (TotalInstanceCount count = 0) then delete serviceID counts
      else <[serviceID := count]> counts
  end.

Definition postProcessUpdatedServices (ic : instanceCache) (affect : gset string) : instanceCache * list revisionNotify :=
  (set_counts ic (foldl (countService (services ic)) (instanceCounts ic) (elements affect)),
   (fun serviceID => mkNotify serviceID true) <$> elements affect).

Record setResult := mkSet {
  r_ic : instanceCache;
  r_mtimes : gmap string Z;
  r_update : Z;
  r_del : Z;
  r_events : list cache_event;
  r_notify : list revisionNotify }.

(** [ins]: the rows, in the order of the iteration. *)
Definition setInstances (ic : instanceCache) (ins : list StoreInstance) : setResult :=
  if decide (ins = []) then mkSet ic ∅ 0 0 [] []
  else
    let st := foldl setInstance (mkSetting ic (Unix (LastMtime (base ic) InstanceName)) 0 0 ∅ (instanceCount ic) []) ins in
    let '(ic', notify) := postProcessUpdatedServices (set_count (s_ic st) (s_count st)) (s_affect st) in
    mkSet ic' {[InstanceName := FromUnix (s_mtime st)]} (s_update st) (s_del st)
      (s_events st ++ [EReload (s_affect st)]) notify.

(** ** Fetching *)

Section fetch.
  Context (DefaultTimeDiff : Z).

(** The arguments of [GetMoreInstances]. *)
Definition fetchTime (ic : instanceCache) : Z := LastFetchTime DefaultTimeDiff (base ic).
Definition isFirstUpdate (ic : instanceCache) : bool := firtstUpdate (base ic).

(** [answer]: the store's, [None] for an error. *)
Definition realUpdate (ic : instanceCache) (answer : option (list StoreInstance)) :
    instanceCache * option (gmap string Z) * list cache_event * list revisionNotify :=
  match answer with
  | None => (ic, None, [], [])
  | Some instances =>
      let r := setInstances ic instances in
      (r_ic r, Some (r_mtimes r), r_events r, r_notify r)
  end.

Definition checkAll (ic : instanceCache) (curTimeSec : Z) (count : option Z) : instanceCache :=
  if decide (i64 (curTimeSec - lastCheckAllTime ic) < checkAllIntervalSec) then ic
  else
    let ic' := match count with
               | None => ic
               | Some count =>
                   if decide (instanceCount ic = count) then ic
                   else set_base ic (resetLastFetchTime (resetLastMtime (base ic) InstanceName))
               end in
    set_checked ic' curTimeSec.

(** What the store and the clock answer during one [update]. *)
Record answers := mkAnswers {
  a_storeTime : option Z;
  a_rows : option (list StoreInstance);
  a_now : Z;
  a_count : option Z }.

Definition update (ic : instanceCache) (a : answers) : instanceCache * list cache_event * list revisionNotify :=
  let '(ic1, executed, events, notify) := realUpdate ic (a_rows a) in
  let ic2 := set_base ic1 (doCacheUpdate (base ic) (a_storeTime a) executed) in
  (checkAll ic2 (a_now a) (a_count a), events, notify).

End fetch.

Definition clear (ic : instanceCache) : instanceCache :=
  mkIC (base_clear (base ic)) ∅ ∅ ∅ ∅ (needMeta ic) (systemServiceID ic) 0 (lastCheckAllTime ic).

(** ** Queries *)

Definition GetInstance (ic : instanceCache) (instanceID : string) : option StoreInstance :=
  if decide (instanceID = "") then None else ids ic !! instanceID.

Definition GetInstancesByServiceID (ic : instanceCache) (serviceID : string) : list StoreInstance :=
  if decide (serviceID = "") then []
  else match services ic !! serviceID with None => [] | Some value => (map_to_list value).*2 end.

Definition GetInstancesCountByServiceID (ic : instanceCache) (serviceID : string) : InstanceCount :=
  if decide (serviceID = "") then noInstances else default noInstances (instanceCounts ic !! serviceID).

Definition GetInstancesCount (ic : instanceCache) : Z := Z.of_nat (length (map_to_list (ids ic))).

Definition GetServicePorts (ic : instanceCache) (serviceID : string) : list string := listPort (servicePorts ic) serviceID.

(** [iterProc] threads a state; its results are whether to continue, and an error. *)
Section iterate.
  Context {S E : Type} (iterProc : S -> string -> StoreInstance -> S * bool * option E).
Fixpoint iteratorInstancesProc (s : S) (data : list (string * StoreInstance)) : S * option E :=
  match data with
  | [] => (s, None)
  | (k, v) :: data =>
      match iterProc s k v with
      | (s', _, Some err) => (s', Some err)
      | (s', true, None) => iteratorInstancesProc s' data
      | (s', false, None) => (s', None)
      end
  end.
Definition IteratorInstances (ic : instanceCache) (s : S) : S * option E := iteratorInstancesProc s (map_to_list (ids ic)).
Definition IteratorInstancesWithService (ic : instanceCache) (serviceID : string) (s : S) : S * option E :=
  if decide (serviceID = "") then (s, None)
  else match services ic !! serviceID with None => (s, None) | Some value => iteratorInstancesProc s (map_to_list value) end.
End iterate.

(** The labels of a service's instances, key to values. *)
Definition addLabel (tmp : gmap string (gset string)) (kv : string * string) : gmap string (gset string) :=
  <[kv.1 := {[kv.2]} ∪ default ∅ (tmp !! kv.1)]> tmp.
Definition addLabels (tmp : gmap string (gset string)) (_ : string) (value : StoreInstance) :
    gmap string (gset string) * bool * option Empty_set :=
  (foldl addLabel tmp (map_to_list (Metadata (proto value))), true, None).
Definition GetInstanceLabels (ic : instanceCache) (serviceID : string) : gmap string (list string) :=
  if decide (serviceID = "") then ∅
  else match services ic !! serviceID with
       | None => ∅
       | Some value => elements <$> (iteratorInstancesProc addLabels ∅ (map_to_list value)).1
       end.

(** ** The boltdb store's answers ([src/store/boltdb/instance.go]) *)

(** The filter's verdict on a row. *)
Definition isModified (mtime : Z) (firstUpdate : bool) (serviceID : list string) (row : StoreInstance) : bool :=
  if firstUpdate && negb (Valid row) then false
  else match Mtime row with
       | None => false
       | Some insMtime =>
           if decide (insMtime < mtime) then false
           else bool_decide (serviceID = [] \/ sid row ∈ serviceID)
       end.

Definition GetMoreInstances (st : gmap string StoreInstance) (mtime : Z) (firstUpdate : bool) (serviceID : list string) :
    gmap string StoreInstance :=
  filter (fun kv => isModified mtime firstUpdate serviceID kv.2 = true) st.

(** Deleting marks the row, and stamps the row but not the protobuf. *)
Definition DeleteInstance (st : gmap string StoreInstance) (instanceID : string) (now : Z) : gmap string StoreInstance :=
  alter (fun r => mkSI (proto r) (Protocol r) (Version r) (Location r) false now (Mtime r) (MtimeText r) (Priority r) (Weight r) (LogicSet r)) instanceID st.

(** [CountValues] leaves out the rows that are not valid. *)
Definition StoreInstancesCount (st : gmap string StoreInstance) : Z :=
  u32 (Z.of_nat (size (filter (fun kv => Valid kv.2 = true) st))).

(** ** The invariant *)

(** The count a service's map deserves. *)
Definition counted (value : option (gmap string StoreInstance)) : option InstanceCount :=
  value ≫= fun value =>
    let count := countInstances (map_to_list value).*2 in
    if decide (TotalInstanceCount count = 0) then None else Some count.

(** What a row does to the table by id. *)
Definition apply_row (m : gmap string StoreInstance) (row : StoreInstance) : gmap string StoreInstance :=
  if Valid row then <[iid row := fillInternalLabels row]> m else delete (iid row) m.

Section invariant.
  (** The service of an instance never changes: its id is made from it. *)
  Context (svc : string -> string).

Definition row_ok (it : StoreInstance) : Prop := sid it = svc (iid it).

Definition entry_ok (k : string) (it : StoreInstance) : Prop := iid it = k /\ row_ok it /\ Valid it = true.

(** By service, the same instances as by id. *)
Definition services_ok (ids : gmap string StoreInstance) (services : gmap string (gmap string StoreInstance)) : Prop :=
  forall s k, (services !! s ≫= lookup k) = if decide (svc k = s) then ids !! k else None.

Record cache_inv (ic : instanceCache) : Prop := {
  ci_entries : map_Forall entry_ok (ids ic);
  ci_services : services_ok (ids ic) (services ic);
  ci_counts : forall s, instanceCounts ic !! s = counted (services ic !! s);
  ci_count : instanceCount ic = i64 (Z.of_nat (size (ids ic))) }.

(** Half way through [setInstances]: the affected services are not counted yet. *)
Record setting_inv (ic : instanceCache) (rows : list StoreInstance) (st : setting) : Prop := {
  si_entries : map_Forall entry_ok (ids (s_ic st));
  si_ids : ids (s_ic st) = foldl apply_row (ids ic) rows;
  si_services : services_ok (ids (s_ic st)) (services (s_ic st));
  si_counts : forall s, s ∉ s_affect st -> instanceCounts (s_ic st) !! s = counted (services (s_ic st) !! s);
  si_count : s_count st = i64 (Z.of_nat (size (ids (s_ic st))));
  si_frame : base (s_ic st) = base ic /\ lastCheckAllTime (s_ic st) = lastCheckAllTime ic /\
    needMeta (s_ic st) = needMeta ic /\ systemServiceID (s_ic st) = systemServiceID ic }.

Lemma apply_row_entries m row :
  row_ok row -> map_Forall entry_ok m -> map_Forall entry_ok (apply_row m row).
Proof.
  intros Hr Hm. unfold apply_row. destruct (Valid row) eqn:Hv.
  - apply map_Forall_insert_2; [|done]. by split_and!.
  - intros k it [_ Hk]%lookup_delete_Some. by apply Hm.
Qed.

Lemma services_ok_insert m services (it : StoreInstance) :
  row_ok it -> services_ok m services ->
  services_ok (<[iid it := it]> m) (<[sid it := <[iid it := it]> (default ∅ (services !! sid it))]> services).
Proof.
  intros Hr Hs s k. rewrite Hr. destruct (decide (s = svc (iid it))) as [->|Hne].
  - rewrite lookup_insert_eq. cbn [mbind option_bind]. destruct (decide (k = iid it)) as [->|Hk].
    + by rewrite !lookup_insert_eq, decide_True.
    + rewrite !lookup_insert_ne by done. rewrite <- (Hs (svc (iid it)) k).
      by destruct (services !! svc (iid it)).
  - rewrite lookup_insert_ne by done. rewrite (Hs s k). case_decide; [|done].
    rewrite lookup_insert_ne; [done|]. naive_solver.
Qed.

Lemma services_ok_delete m services (it : StoreInstance) :
  row_ok it -> services_ok m services ->
  services_ok (delete (iid it) m)
    (match services !! sid it with None => services | Some value => <[sid it := delete (iid it) value]> services end).
Proof.
  intros Hr Hs s k. rewrite Hr. pose proof (Hs s k) as Hk.
  destruct (services !! svc (iid it)) as [value|] eqn:Hv.
  - destruct (decide (s = svc (iid it))) as [->|Hne].
    + rewrite lookup_insert_eq. rewrite Hv in Hk. cbn [mbind option_bind] in *.
      destruct (decide (k = iid it)) as [->|]; [rewrite !lookup_delete_eq; by case_decide|].
      by rewrite !lookup_delete_ne.
    + rewrite lookup_insert_ne by done. rewrite Hk. case_decide; [|done]. rewrite lookup_delete_ne; [done|]. naive_solver.
  - rewrite Hk. case_decide; [|done]. destruct (decide (k = iid it)) as [->|]; [|by rewrite lookup_delete_ne].
    rewrite lookup_delete_eq. pose proof (Hs (svc (iid it)) (iid it)) as Hd. rewrite Hv, decide_True in Hd by done. done.
Qed.

Lemma i64_step n n' d : n' = n + d -> i64 (i64 n + d) = i64 n'.
Proof. intros ->. apply wrap_i_add. Qed.

Lemma setInstance_inv ic rows st item :
  row_ok item -> setting_inv ic rows st -> setting_inv ic (rows ++ [item]) (setInstance st item).
Proof.
  intros Hr [He Hi Hs Hc Hn (Hb & Ht & Hm & Hy)]. unfold setInstance.
  assert (ids (s_ic (setInstance st item)) = apply_row (ids (s_ic st)) item) as Hids.
  { unfold setInstance, apply_row. by destruct (Valid item). }
  pose proof (apply_row_entries _ _ Hr He) as Hent. unfold apply_row in Hent.
  destruct (Valid item) eqn:Hv; cbn [negb].
  - split; cbn [s_ic ids services instanceCounts s_affect s_count set_data base lastCheckAllTime needMeta systemServiceID]; try done.
    + rewrite foldl_app, <- Hi. cbn [foldl]. unfold apply_row. by rewrite Hv.
    + by apply (services_ok_insert _ _ (fillInternalLabels item)).
    + intros s Hsa. rewrite lookup_insert_ne by set_solver. apply Hc. set_solver.
    + case_bool_decide as Hex; rewrite Hn.
      * by rewrite map_size_insert_Some.
      * apply i64_step. rewrite map_size_insert_None by (by apply eq_None_not_Some). lia.
  - split; cbn [s_ic ids services instanceCounts s_affect s_count set_data base lastCheckAllTime needMeta systemServiceID]; try done.
    + rewrite foldl_app, <- Hi. cbn [foldl]. unfold apply_row. by rewrite Hv.
    + by apply services_ok_delete.
    + intros s Hsa. rewrite Hc by set_solver. f_equal. destruct (services (s_ic st) !! sid item); [|done].
      rewrite lookup_insert_ne; [done|]. set_solver.
    + case_bool_decide as Hex; rewrite Hn.
      * apply (i64_step _ _ (-1)). rewrite map_size_delete_Some by done. destruct Hex as [it Hit].
        assert (size (ids (s_ic st)) ≠ 0%nat) by (eapply map_size_ne_0_lookup_2; by eexists). lia.
      * rewrite delete_id; [done|]. by apply eq_None_not_Some.
Qed.

Lemma setInstance_foldl_inv ic rows rows' st :
  Forall row_ok rows' -> setting_inv ic rows st -> setting_inv ic (rows ++ rows') (foldl setInstance st rows').
Proof.
  revert rows st. induction rows' as [|r rows' IH]; intros rows st Hr Hst; [by rewrite app_nil_r|].
  inversion Hr; subst. cbn [foldl]. rewrite cons_middle, app_assoc. apply IH; [done|]. by apply setInstance_inv.
Qed.

Lemma countService_lookup services counts l s :
  foldl (countService services) counts l !! s = if decide (s ∈ l) then counted (services !! s) else counts !! s.
Proof.
  revert counts. induction l as [|x l IH]; intros counts; cbn [foldl]; [by rewrite decide_False by set_solver|].
  rewrite IH. destruct (decide (s ∈ l)) as [Hin|Hin]; [by rewrite decide_True by set_solver|].
  unfold countService, counted. destruct (decide (s = x)) as [->|Hne].
  - rewrite decide_True by set_solver. destruct (services !! x); cbn [mbind option_bind]; [|by rewrite lookup_delete_eq].
    case_decide; [by rewrite lookup_delete_eq|by rewrite lookup_insert_eq].
  - rewrite decide_False by set_solver. destruct (services !! x); [case_decide|];
      by rewrite ?lookup_delete_ne, ?lookup_insert_ne by done.
Qed.

Lemma setInstances_inv ic ins :
  Forall row_ok ins -> cache_inv ic ->
  let r := setInstances ic ins in
  cache_inv (r_ic r) /\ ids (r_ic r) = foldl apply_row (ids ic) ins /\ base (r_ic r) = base ic /\
  lastCheckAllTime (r_ic r) = lastCheckAllTime ic /\ systemServiceID (r_ic r) = systemServiceID ic.
Proof.
  intros Hr Hic. cbv zeta. unfold setInstances. case_decide as Hd; [by subst|].
  set (st0 := mkSetting ic _ 0 0 ∅ (instanceCount ic) []).
  assert (setting_inv ic [] st0) as H0 by (destruct Hic; by split).
  destruct (setInstance_foldl_inv ic [] ins st0 Hr H0) as [He Hi Hs Hc Hn (Hb & Ht & _ & Hy)].
  set (st := foldl setInstance st0 ins) in *. cbn [app] in Hi.
  cbn [postProcessUpdatedServices r_ic set_count set_counts base ids lastCheckAllTime systemServiceID]. split; [|by rewrite Hi].
  split; cbn [ids services instanceCounts instanceCount set_counts set_count]; try done.
  intros s. rewrite countService_lookup. case_decide as Hin; [done|]. apply Hc. by rewrite <- elem_of_elements.
Qed.

Lemma setInstances_nil ic : setInstances ic [] = mkSet ic ∅ 0 0 [] [].
Proof. unfold setInstances. by rewrite decide_True. Qed.

Lemma newInstanceCache_inv nm sys : cache_inv (newInstanceCache nm sys).
Proof.
  split; cbn; [apply map_Forall_empty| |done|by vm_compute].
  intros s k. rewrite !lookup_empty. by case_decide.
Qed.

End invariant.

(** ** The cache and the store *)

(** What the cache should hold of a store: its valid rows, labelled. *)
Definition watched (sys : list string) (row : StoreInstance) : bool := bool_decide (sys = [] \/ sid row ∈ sys).
Definition view_row (sys : list string) (row : StoreInstance) : option StoreInstance :=
  if Valid row && watched sys row then Some (fillInternalLabels row) else None.
Definition visible (sys : list string) (st : gmap string StoreInstance) : gmap string StoreInstance := omap (view_row sys) st.

Lemma apply_rows_notin m rows k : k ∉ ((fun r => iid r) <$> rows) -> foldl apply_row m rows !! k = m !! k.
Proof.
  revert m. induction rows as [|r rows IH]; intros m Hk; [done|]. rewrite fmap_cons, not_elem_of_cons in Hk.
  destruct Hk as [Hk Hks]. cbn [foldl]. rewrite IH by done. unfold apply_row.
  case_match; by rewrite ?lookup_insert_ne, ?lookup_delete_ne by done.
Qed.

Lemma apply_rows_in m rows r :
  NoDup ((fun r => iid r) <$> rows) -> r ∈ rows ->
  foldl apply_row m rows !! iid r = if Valid r then Some (fillInternalLabels r) else None.
Proof.
  revert m. induction rows as [|r' rows IH]; intros m Hnd Hr; [by apply not_elem_of_nil in Hr|].
  rewrite fmap_cons, NoDup_cons in Hnd. destruct Hnd as [Hn Hnd]. cbn [foldl].
  apply elem_of_cons in Hr as [->|Hr]; [|by apply IH].
  rewrite apply_rows_notin by done. unfold apply_row. case_match; by rewrite ?lookup_insert_eq, ?lookup_delete_eq.
Qed.

(** The rows of a store are kept by id; [rows_of] is any order of a table. *)
Definition keyed (st : gmap string StoreInstance) : Prop := map_Forall (fun k r => iid r = k) st.
Definition rows_of (st : gmap string StoreInstance) (rows : list StoreInstance) : Prop := rows ≡ₚ (map_to_list st).*2.

Lemma rows_of_elem st rows r : keyed st -> rows_of st rows -> r ∈ rows <-> st !! iid r = Some r.
Proof.
  intros Hk Hr. rewrite Hr, list_elem_of_fmap. split.
  - intros ([k r'] & -> & Hin%elem_of_map_to_list). cbn. by rewrite (Hk _ _ Hin).
  - intros Hs. exists (iid r, r). split; [done|]. by apply elem_of_map_to_list.
Qed.

Lemma rows_of_NoDup st rows : keyed st -> rows_of st rows -> NoDup ((fun r => iid r) <$> rows).
Proof.
  intros Hk Hr. unfold rows_of in Hr. rewrite Hr, <- list_fmap_compose.
  assert ((fun r => iid r) ∘ snd <$> map_to_list st = (map_to_list st).*1) as ->; [|apply NoDup_fst_map_to_list].
  apply list_fmap_ext. intros i [k r] Hi. apply list_elem_of_lookup_2, elem_of_map_to_list in Hi. by rewrite <- (Hk _ _ Hi).
Qed.

Lemma keyed_filter st (P : string * StoreInstance -> Prop) `{!forall x, Decision (P x)} : keyed st -> keyed (filter P st).
Proof. intros Hk k r [Hr _]%map_lookup_filter_Some. by apply Hk. Qed.

Lemma lookup_visible sys st k : visible sys st !! k = st !! k ≫= view_row sys.
Proof. apply lookup_omap. Qed.

(** A fetch that brings every row on which cache and store differ makes them agree. *)
Lemma fetch_mirrors sys (m st got : gmap string StoreInstance) rows :
  keyed st -> got ⊆ st -> rows_of got rows ->
  (forall k r, got !! k = Some r -> watched sys r = true) ->
  (forall k, is_Some (got !! k) \/ m !! k = visible sys st !! k) ->
  foldl apply_row m rows = visible sys st.
Proof.
  intros Hk Hsub Hrows Hw Hgot. apply map_eq. intros k.
  assert (keyed got) as Hkg by (intros i r Hi; apply Hk; by eapply lookup_weaken).
  pose proof (rows_of_NoDup _ _ Hkg Hrows) as Hnd.
  destruct (got !! k) as [r|] eqn:Hr.
  - rewrite <- (Hkg _ _ Hr) at 1. rewrite apply_rows_in; [|done|by apply (rows_of_elem got); rewrite ?(Hkg _ _ Hr)].
    rewrite lookup_visible, (lookup_weaken _ _ _ _ Hr Hsub). cbn [mbind option_bind]. unfold view_row.
    by rewrite (Hw _ _ Hr), andb_true_r.
  - rewrite apply_rows_notin.
    + destruct (Hgot k) as [[r Hs]|He]; [by rewrite Hr in Hs|done].
    + intros (r & -> & Hin)%list_elem_of_fmap. apply (rows_of_elem got) in Hin; [|done..]. by rewrite Hr in Hin.
Qed.

Section follow.
  Context (DefaultTimeDiff : Z) (svc : string -> string).
  #[local] Abbreviation fetchTime := (fetchTime DefaultTimeDiff).

(** A store keeps its rows by id, an instance's service is fixed by its id. *)
Definition store_ok (st : gmap string StoreInstance) : Prop := map_Forall (fun k r => iid r = k /\ row_ok svc r) st.

(** The row is stamped no earlier than [t]. *)
Definition stamped (t : Z) (row : StoreInstance) : Prop := exists mt, Mtime row = Some mt /\ t <= mt.

(** A row that the cache has wrong will be in the next answer: it is stamped
    after the fetch time, and it is not a deletion that a cache that has not
    been filled yet would not be told. *)
Definition fetchable (ic : instanceCache) (st : gmap string StoreInstance) : Prop :=
  forall k, (exists r, st !! k = Some r /\ watched (systemServiceID ic) r = true /\ stamped (fetchTime ic) r) \/ ids ic !! k = visible (systemServiceID ic) st !! k.

Definition first_empty (ic : instanceCache) : Prop := isFirstUpdate ic = true -> ids ic = ∅.

Lemma update_ids ic a rows :
  a_rows a = Some rows -> Forall (row_ok svc) rows -> cache_inv svc ic ->
  let ic' := (update ic a).1.1 in
  cache_inv svc ic' /\ ids ic' = foldl apply_row (ids ic) rows /\ isFirstUpdate ic' = false /\
  systemServiceID ic' = systemServiceID ic.
Proof.
  intros Ha Hr Hic. unfold update, realUpdate. rewrite Ha. cbn [fst].
  destruct (setInstances_inv svc ic rows Hr Hic) as ([He Hs Hc Hn] & Hi & _ & _ & Hy).
  unfold checkAll. case_decide; [by split_and!|]. destruct (a_count a); [case_decide|]; by split_and!.
Qed.

Lemma update_failed ic a :
  a_rows a = None -> cache_inv svc ic ->
  let ic' := (update ic a).1.1 in
  cache_inv svc ic' /\ ids ic' = ids ic /\ isFirstUpdate ic' = isFirstUpdate ic /\ systemServiceID ic' = systemServiceID ic.
Proof.
  intros Ha [He Hs Hc Hn]. unfold update, realUpdate. rewrite Ha. cbn [fst].
  unfold checkAll. case_decide; [by split_and!|]. destruct (a_count a); [case_decide|]; by split_and!.
Qed.

Lemma isModified_stamped t first sys r :
  stamped t r -> (first = true -> Valid r = true) -> watched sys r = true -> isModified t first sys r = true.
Proof.
  intros (mt & Hm & Ht) Hf Hw. unfold isModified. rewrite Hm.
  assert (first && negb (Valid r) = false) as -> by (destruct first; [by rewrite Hf|done]).
  rewrite decide_False by lia. done.
Qed.

Lemma isModified_watched t first sys r : isModified t first sys r = true -> watched sys r = true.
Proof. unfold isModified. case_match; [done|]. case_match; [|done]. by case_decide. Qed.

(** One successful fetch from boltdb. *)
Lemma update_mirrors ic st a rows :
  store_ok st -> cache_inv svc ic -> first_empty ic -> fetchable ic st ->
  a_rows a = Some rows ->
  rows_of (GetMoreInstances st (fetchTime ic) (isFirstUpdate ic) (systemServiceID ic)) rows ->
  let ic' := (update ic a).1.1 in
  cache_inv svc ic' /\ ids ic' = visible (systemServiceID ic) st /\ first_empty ic' /\ systemServiceID ic' = systemServiceID ic.
Proof.
  intros Hst Hic Hfe Hf Ha Hrows.
  set (got := GetMoreInstances _ _ _ _) in *.
  assert (keyed st) as Hk by (intros k r Hr; by apply Hst).
  assert (got ⊆ st) as Hsub by apply map_filter_subseteq.
  assert (Forall (row_ok svc) rows) as Hok.
  { apply Forall_forall. intros r Hr. apply (rows_of_elem got) in Hr; [|by apply keyed_filter|done].
    by destruct (Hst _ _ (lookup_weaken _ _ _ _ Hr Hsub)). }
  destruct (update_ids ic a rows Ha Hok Hic) as (Hinv & Hi & Hf' & Hy). cbv zeta. split; [done|]. split; [|split; [by intros ?; congruence|done]].
  rewrite Hi. apply (fetch_mirrors _ _ _ got); [done..| |].
  - intros k r [_ Hm]%map_lookup_filter_Some. by eapply isModified_watched.
  - intros k. destruct (Hf k) as [(r & Hr & Hw & Hs)|]; [|by right].
    destruct (isFirstUpdate ic) eqn:Hfi; [destruct (Valid r) eqn:Hv|].
    + left. exists r. apply map_lookup_filter_Some. split; [done|]. by apply isModified_stamped.
    + right. rewrite (Hfe Hfi), lookup_visible, Hr, lookup_empty. cbn. unfold view_row. by rewrite Hv.
    + left. exists r. apply map_lookup_filter_Some. split; [done|]. by apply isModified_stamped.
Qed.

(** A cache following a store that is written to between fetches: [follows ic st]
    when the last successful fetch of [ic] saw [st].  Every write stamps its row
    no earlier than the next fetch time, and only deleted rows are purged. *)
Definition written (t : Z) (st st' : gmap string StoreInstance) : Prop :=
  forall k, st' !! k = st !! k \/ (exists r, st' !! k = Some r /\ stamped t r) \/
    (st' !! k = None /\ exists r, st !! k = Some r /\ Valid r = false).

Inductive follows (sys : list string) : instanceCache -> gmap string StoreInstance -> Prop :=
| follows_new nm : follows sys (newInstanceCache nm sys) ∅
| follows_update ic st st' a rows :
    follows sys ic st -> store_ok st' -> written (fetchTime ic) st st' ->
    a_rows a = Some rows ->
    rows_of (GetMoreInstances st' (fetchTime ic) (isFirstUpdate ic) (systemServiceID ic)) rows ->
    follows sys (update ic a).1.1 st'
| follows_failed ic st a : follows sys ic st -> a_rows a = None -> follows sys (update ic a).1.1 st
| follows_clear ic st : follows sys ic st -> follows sys (clear ic) ∅.

Lemma written_fetchable ic st st' :
  store_ok st -> store_ok st' -> ids ic = visible (systemServiceID ic) st -> written (fetchTime ic) st st' -> fetchable ic st'.
Proof.
  intros Hst Hst' Hi Hw k. destruct (Hw k) as [He|[(r & Hr & Hs)|(Hn & r & Hr & Hv)]].
  - right. by rewrite Hi, !lookup_visible, He.
  - destruct (watched (systemServiceID ic) r) eqn:Hwr; [left; eauto|right].
    rewrite Hi, !lookup_visible, Hr. cbn [mbind option_bind]. unfold view_row at 2. rewrite Hwr, andb_false_r.
    destruct (st !! k) as [r'|] eqn:Hr'; [|done]. cbn. unfold view_row.
    destruct (Hst _ _ Hr') as [Hk1 Hr1], (Hst' _ _ Hr) as [Hk2 Hr2]. unfold row_ok in Hr1, Hr2.
    assert (watched (systemServiceID ic) r' = false) as ->; [|by rewrite andb_false_r].
    rewrite <- Hwr. unfold watched. by rewrite Hr1, Hr2, Hk1, Hk2.
  - right. rewrite Hi, !lookup_visible, Hn, Hr. cbn. unfold view_row. by rewrite Hv.
Qed.

Lemma follows_inv sys ic st :
  follows sys ic st ->
  cache_inv svc ic /\ ids ic = visible sys st /\ first_empty ic /\ systemServiceID ic = sys /\ store_ok st.
Proof.
  induction 1 as [nm|ic st st' a rows _ (Hic & Hi & Hf & Hy & Hst) Hst' Hw Ha Hr|ic st a _ (Hic & Hi & Hf & Hy & Hst) Ha|ic st _ IH].
  - split; [apply newInstanceCache_inv|]. split_and!; [by rewrite <- (omap_empty (view_row sys))|done..].
  - destruct (update_mirrors ic st' a rows Hst' Hic Hf) as (H1 & H2 & H3 & H4); [|done..|].
    + apply (written_fetchable ic st); [done|done|by rewrite Hy|done].
    + split_and!; [done|by rewrite H2, Hy|done|congruence|done].
  - destruct (update_failed ic a Ha Hic) as (H1 & H2 & H3 & H4). split_and!; [done|congruence| |congruence|done].
    intros Hfi. rewrite H2. apply Hf. by rewrite <- H3.
  - destruct IH as (Hic & Hi & Hf & Hy & Hst). split.
    + destruct (newInstanceCache_inv svc true sys). by split.
    + split_and!; [by rewrite <- (omap_empty (view_row sys))|done..].
Qed.

End follow.

(** The instances of a service are those of the table by id. *)
Lemma service_instances svc ic s :
  cache_inv svc ic -> s <> "" ->
  GetInstancesByServiceID ic s ≡ₚ (map_to_list (filter (fun kv => sid kv.2 = s) (ids ic))).*2.
Proof.
  intros [He Hs _ _] Hne. unfold GetInstancesByServiceID. rewrite decide_False by done.
  assert (forall k, (services ic !! s ≫= lookup k) = filter (fun kv => sid kv.2 = s) (ids ic) !! k) as Hk.
  { intros k. rewrite Hs. symmetry. case_decide as Hd.
    - destruct (ids ic !! k) as [it|] eqn:Hit.
      + apply map_lookup_filter_Some. split; [done|]. destruct (He _ _ Hit) as (Hi & Hr & _). cbn. by rewrite Hr, Hi.
      + apply map_lookup_filter_None. by left.
    - apply map_lookup_filter_None. right. intros it Hit. destruct (He _ _ Hit) as (Hi & Hr & _). cbn. by rewrite Hr, Hi. }
  destruct (services ic !! s) as [v|]; cbn in Hk.
  - by rewrite (map_eq v (filter (fun kv => sid kv.2 = s) (ids ic)) Hk).
  - assert (filter (fun kv => sid kv.2 = s) (ids ic) = ∅) as -> by (apply map_empty; intros k; by rewrite <- Hk).
    by rewrite map_to_list_empty.
Qed.

Lemma countInstances_spec l c :
  IsolateInstanceCount c + Z.of_nat (length l) < 2 ^ 32 -> HealthyInstanceCount c + Z.of_nat (length l) < 2 ^ 32 ->
  TotalInstanceCount c + Z.of_nat (length l) < 2 ^ 32 ->
  0 <= IsolateInstanceCount c -> 0 <= HealthyInstanceCount c -> 0 <= TotalInstanceCount c ->
  foldl countInstance c l =
    mkCount (IsolateInstanceCount c + Z.of_nat (length (filter (fun i => Isolate (proto i) = true) l)))
      (HealthyInstanceCount c + Z.of_nat (length (filter (fun i => isInstanceHealthy i = true) l)))
      (TotalInstanceCount c + Z.of_nat (length l)).
Proof.
  revert c. induction l as [|i l IH]; intros [a b n]; cbn [IsolateInstanceCount HealthyInstanceCount TotalInstanceCount length foldl]; intros.
  { by rewrite !Z.add_0_r. }
  assert (forall z, 0 <= z -> z + Z.of_nat (S (length l)) < 2 ^ 32 -> u32 (z + 1) = z + 1) as Hu by (intros; apply wrap_u_small; lia).
  rewrite IH; unfold countInstance; cbn [IsolateInstanceCount HealthyInstanceCount TotalInstanceCount];
    rewrite ?Hu by done; try (case_match; lia); try lia.
  rewrite !filter_cons. repeat case_decide; repeat case_match; try congruence; cbn [length]; f_equal; lia.
Qed.

Lemma healthy_not_isolated i : isInstanceHealthy i = true -> Isolate (proto i) <> true.
Proof. unfold isInstanceHealthy. by destruct (Isolate (proto i)); rewrite ?andb_false_r. Qed.

(** ** Properties of the cache *)

(** C20. The cache follows the store: through any sequence of fetches, failed ones
    included, and clearing, interleaved with writes that are stamped no earlier than
    the next fetch and that remove deleted rows only, the cache holds exactly the
    valid rows of the store as the last successful fetch saw it, with the internal
    labels; the lookups by id and by service answer from them. *)
Theorem cache_follows_store (DefaultTimeDiff : Z) (svc : string -> string) (sys : list string) (ic : instanceCache)
    (st : gmap string StoreInstance) (id s : string) :
  follows DefaultTimeDiff svc sys ic st -> id <> "" -> s <> "" ->
  ids ic = visible sys st /\
  GetInstance ic id = st !! id ≫= view_row sys /\
  GetInstancesByServiceID ic s ≡ₚ (map_to_list (filter (fun kv => sid kv.2 = s) (visible sys st))).*2.
Proof.
  intros Hf Hid Hs. destruct (follows_inv _ _ _ _ _ Hf) as (Hic & Hi & _). split_and!; [done| |].
  - unfold GetInstance. by rewrite decide_False, Hi, lookup_visible by done.
  - rewrite <- Hi. by apply (service_instances svc).
Qed.

(** The counts of a service add up: below 2^32 instances they are the
    number of its cached instances, of the healthy ones that are not isolated
    and of the isolated ones. *)
Theorem service_counts_add_up (DefaultTimeDiff : Z) (svc : string -> string) (sys : list string) (ic : instanceCache)
    (st : gmap string StoreInstance) (s : string) :
  follows DefaultTimeDiff svc sys ic st -> s <> "" ->
  let l := GetInstancesByServiceID ic s in
  Z.of_nat (length l) < 2 ^ 32 ->
  GetInstancesCountByServiceID ic s =
    mkCount (Z.of_nat (length (filter (fun i => Isolate (proto i) = true) l)))
      (Z.of_nat (length (filter (fun i => isInstanceHealthy i = true) l))) (Z.of_nat (length l)) /\
  HealthyInstanceCount (GetInstancesCountByServiceID ic s) + IsolateInstanceCount (GetInstancesCountByServiceID ic s)
    <= TotalInstanceCount (GetInstancesCountByServiceID ic s).
Proof.
  cbv zeta. intros Hf Hs Hl. destruct (follows_inv _ _ _ _ _ Hf) as ([He _ Hc _] & _).
  match goal with |- ?A = ?B /\ _ => assert (A = B) as -> end.
  - unfold GetInstancesCountByServiceID, GetInstancesByServiceID in *. rewrite !decide_False by done. rewrite !decide_False in Hl by done. rewrite Hc. unfold counted.
    destruct (services ic !! s) as [v|]; [|done]. cbn [mbind option_bind] in *.
    pose proof (countInstances_spec (map_to_list v).*2 noInstances) as Hs'. cbn [noInstances IsolateInstanceCount HealthyInstanceCount TotalInstanceCount] in Hs'.
    unfold countInstances. rewrite Hs' by lia. cbn [TotalInstanceCount].
    case_decide as Hz; [|done]. assert (length (map_to_list v).*2 = 0%nat) as Hl0 by lia.
    by apply length_zero_iff_nil in Hl0 as ->.
  - split; [done|]. cbn. clear. induction (GetInstancesByServiceID ic s) as [|i l IH]; [done|].
    rewrite !filter_cons. pose proof (healthy_not_isolated i). repeat case_decide; cbn [length]; tauto || lia.
Qed.

(** A wrong count repairs the cache: when [checkAll] finds a count other
    than the store's, whatever the cache missed, the next fetch - which then
    reaches back to the beginning - makes it hold exactly the valid rows. *)
Theorem count_mismatch_reloads (DefaultTimeDiff : Z) (svc : string -> string) (ic : instanceCache) (a a' : answers) (n : Z)
    (st : gmap string StoreInstance) (rows : list StoreInstance) :
  DefaultTimeDiff <= 0 -> cache_inv svc ic -> first_empty ic -> systemServiceID ic = [] ->
  a_rows a = Some [] -> a_count a = Some n -> n <> instanceCount ic ->
  checkAllIntervalSec <= i64 (a_now a - lastCheckAllTime ic) ->
  let ic1 := (update ic a).1.1 in
  store_ok svc st -> map_Forall (fun _ => stamped Second) st -> dom (ids ic1) ⊆ dom st ->
  a_rows a' = Some rows ->
  rows_of (GetMoreInstances st (fetchTime DefaultTimeDiff ic1) (isFirstUpdate ic1) (systemServiceID ic1)) rows ->
  ids (update ic1 a').1.1 = visible [] st.
Proof.
  intros HD Hic Hf Hsys Ha Hn Hne Ht ic1 Hst Hstamp Hdom Ha' Hrows.
  destruct (update_ids svc ic a [] Ha (Forall_nil_2 _) Hic) as (Hic1 & Hi1 & Hf1 & Hy1). fold ic1 in Hic1, Hi1, Hf1, Hy1.
  destruct (update_mirrors DefaultTimeDiff svc ic1 st a' rows Hst Hic1) as (_ & -> & _); [by intros ?; congruence| |done..|by rewrite Hy1, Hsys].
  intros k. rewrite Hy1, Hsys. destruct (st !! k) as [r|] eqn:Hr.
  - left. exists r. split_and!; [done|by unfold watched; rewrite bool_decide_true by auto|].
    destruct (Hstamp _ _ Hr) as (mt & Hm & Hmt). exists mt. split; [done|]. etrans; [|exact Hmt].
    assert (lastFetchTime (base ic1) = 1) as Hl.
    { unfold ic1, update, realUpdate, checkAll. rewrite Ha, Hn. cbn [fst]. rewrite setInstances_nil.
      rewrite decide_False by (cbn; lia). cbn [r_ic set_base instanceCount]. by rewrite decide_False by congruence. }
    etrans; [by apply LastFetchTime_le|]. rewrite Hl. done.
  - right. rewrite lookup_visible, Hr. apply not_elem_of_dom. intros Hk%Hdom%elem_of_dom. rewrite Hr in Hk. by destruct Hk.
Qed.

(** A failed fetch loses changes: the store's time is remembered although
    the rows were not read, so that a row stamped before that time, less the
    overlap of [DefaultTimeDiff], is not asked for again. *)
Theorem failed_fetch_skips_rows (DefaultTimeDiff : Z) (ic : instanceCache) (a : answers) (now : Z) (st : gmap string StoreInstance) (i : string) (row : StoreInstance) (mt : Z) :
  a_rows a = None -> a_storeTime a = Some now -> a_count a = None ->
  st !! i = Some row -> Mtime row = Some mt -> mt < FromUnix now + DefaultTimeDiff -> 0 <= FromUnix now + DefaultTimeDiff ->
  let ic' := (update ic a).1.1 in
  GetMoreInstances st (fetchTime DefaultTimeDiff ic') (isFirstUpdate ic') (systemServiceID ic') !! i = None.
Proof.
  intros Ha Hs Hc Hr Hm Hmt H0 ic'.
  assert (fetchTime DefaultTimeDiff ic' = FromUnix now + DefaultTimeDiff) as ->.
  { unfold ic', update, realUpdate, checkAll, fetchTime. rewrite Ha, Hc, Hs. cbn [fst].
    case_decide; by apply LastFetchTime_eq. }
  apply map_lookup_filter_None. right. intros r Hr'. rewrite Hr in Hr'. injection Hr' as <-. cbn [snd].
  unfold isModified. rewrite Hm. case_match; [done|]. by rewrite decide_True by lia.
Qed.

(** With boltdb a deletion is not fetched either: [DeleteInstance] stamps
    the row but not the protobuf, by whose time [GetMoreInstances] chooses, so
    that an instance last modified before the fetch time stays cached. *)
Theorem boltdb_deletion_not_fetched (st : gmap string StoreInstance) (id : string) (row : StoreInstance) (now mt t : Z) (first : bool) (sys : list string) :
  st !! id = Some row -> Mtime row = Some mt -> mt < t ->
  (exists row', DeleteInstance st id now !! id = Some row' /\ Valid row' = false) /\
  GetMoreInstances (DeleteInstance st id now) t first sys !! id = None.
Proof.
  intros Hr Hm Ht. unfold DeleteInstance. split.
  - rewrite lookup_alter_eq, Hr. by eexists.
  - apply map_lookup_filter_None. right. intros r'. rewrite lookup_alter_eq, Hr. intros [= <-]. cbn [snd].
    unfold isModified. cbn. rewrite Hm. case_match; [done|]. by rewrite decide_True.
Qed.

(** *** Labels *)

Lemma addLabel_spec l tmp k v :
  v ∈ default ∅ (foldl addLabel tmp l !! k) <-> (k, v) ∈ l \/ v ∈ default ∅ (tmp !! k).
Proof.
  revert tmp. induction l as [|[k' v'] l IH]; intros tmp; cbn [foldl]; [set_solver|].
  rewrite IH, elem_of_cons. unfold addLabel. cbn [fst snd]. destruct (decide (k = k')) as [->|Hne].
  - rewrite lookup_insert_eq. cbn. set_solver.
  - rewrite lookup_insert_ne by done. naive_solver.
Qed.

Lemma addLabels_spec l tmp k v :
  v ∈ default ∅ ((iteratorInstancesProc addLabels tmp l).1 !! k) <->
  (exists it, it ∈ l.*2 /\ Metadata (proto it) !! k = Some v) \/ v ∈ default ∅ (tmp !! k).
Proof.
  revert tmp. induction l as [|[i it] l IH]; intros tmp; cbn [iteratorInstancesProc addLabels]; [set_solver|].
  rewrite IH, addLabel_spec, elem_of_map_to_list. cbn. setoid_rewrite elem_of_cons. naive_solver.
Qed.

(** The labels of a service are exactly the metadata of its cached
    instances: a value is listed under a key when an instance has it. *)
Theorem labels_are_metadata (ic : instanceCache) (s k v : string) :
  s <> "" ->
  v ∈ default [] (GetInstanceLabels ic s !! k) <->
  exists it, it ∈ GetInstancesByServiceID ic s /\ Metadata (proto it) !! k = Some v.
Proof.
  intros Hs. unfold GetInstanceLabels, GetInstancesByServiceID. rewrite !decide_False by done.
  destruct (services ic !! s) as [value|].
  - rewrite lookup_fmap. pose proof (addLabels_spec (map_to_list value) ∅ k v) as Ha. rewrite lookup_empty in Ha.
    assert (forall o : option (gset string), v ∈ default [] (elements <$> o) <-> v ∈ default ∅ o) as ->
      by (intros [x|]; cbn; [apply elem_of_elements|set_solver]).
    rewrite Ha. set_solver.
  - rewrite lookup_empty. cbn. set_solver.
Qed.

(** *** The health checker as a listener

    [onEvent] hands each event to the provider's callbacks; its [OnBatchUpdated]
    is empty. *)

Definition callbacks (es : list cache_event) : list callback :=
  omap (fun e => match e with
    | ECreated it => Some (Created (CachedInstance (proto it)))
    | EUpdated it => Some (Updated (CachedInstance (proto it)))
    | EDeleted it => Some (Deleted (CachedInstance (proto it)))
    | EReload _ => None end) es.

Section provider.
  Context {C : Type} (checkers : gmap Z C) (self : string).

Definition is_self (i : Instance) : bool := bool_decide (Metadata i !! MetaKeyPolarisService = Some self).
Definition is_enabled (i : Instance) : bool := bool_decide (is_Some (isHealthCheckEnable checkers i)).

(** The provider's tables are the cached instances that are polaris servers,
    and the others that want health checks. *)
Definition provider_agrees (m : gmap string StoreInstance) (t : tables) : Prop :=
  forall k,
    t_self t !! k = (m !! k ≫= fun it => if is_self (proto it) then Some (proto it) else None) /\
    t_instances t !! k = (m !! k ≫= fun it => if negb (is_self (proto it)) && is_enabled (proto it) then Some (proto it) else None).

(** What the provider relies on: an instance has an id and does not become a
    polaris server or cease to be one, a changed instance has a new revision,
    and a deleted one still says that it had health checks. *)
Definition row_fits (m : gmap string StoreInstance) (row : StoreInstance) : Prop :=
  iid row <> "" /\
  forall it, m !! iid row = Some it ->
    is_self (proto row) = is_self (proto it) /\
    (Valid row = true -> Revision (proto row) = Revision (proto it) -> proto (fillInternalLabels row) = proto it) /\
    (Valid row = false -> is_enabled (proto it) = true -> EnableHealthCheck (proto row) = true /\ GetHealthCheck (proto row) <> None).

Lemma is_self_labelled row : is_self (proto (fillInternalLabels row)) = is_self (proto row).
Proof.
  unfold is_self, fillInternalLabels. cbn [proto set_metadata Metadata]. apply bool_decide_ext.
  destruct (Location row) as [[[? ?] ?]|]; repeat case_decide; by rewrite ?lookup_insert_ne by done.
Qed.

(** The event of one row. *)
Definition row_event (m : gmap string StoreInstance) (row : StoreInstance) : list cache_event :=
  match m !! iid row with
  | Some _ => if Valid row then [EUpdated (fillInternalLabels row)] else [EDeleted row]
  | None => if Valid row then [ECreated (fillInternalLabels row)] else []
  end.

Lemma upsert_lookup i t k :
  (forall j, t !! ID i = Some j -> Revision j = Revision i -> j = i) ->
  upsert i t !! k = if decide (k = ID i) then Some i else t !! k.
Proof.
  intros Hr. unfold upsert. destruct (t !! ID i) as [j|] eqn:Hj; [case_decide as Hd|]; case_decide as Hk; subst;
    rewrite ?lookup_insert_eq, ?lookup_insert_ne by done; try done.
  rewrite Hj. f_equal. by apply Hr.
Qed.

Lemma remove_lookup {A} i (t : gmap string A) k : i <> "" -> HealthCache.remove i t !! k = if decide (k = i) then None else t !! k.
Proof.
  intros Hi. unfold HealthCache.remove. rewrite decide_False by done. case_decide; subst; by rewrite ?lookup_delete_eq, ?lookup_delete_ne.
Qed.

Lemma agrees_at m m' t t' i :
  provider_agrees m t ->
  (forall k, k <> i -> m' !! k = m !! k /\ t_self t' !! k = t_self t !! k /\ t_instances t' !! k = t_instances t !! k) ->
  t_self t' !! i = (m' !! i ≫= fun it => if is_self (proto it) then Some (proto it) else None) ->
  t_instances t' !! i = (m' !! i ≫= fun it => if negb (is_self (proto it)) && is_enabled (proto it) then Some (proto it) else None) ->
  provider_agrees m' t'.
Proof.
  intros Ht Hne H1 H2 k. destruct (decide (k = i)) as [->|Hk]; [done|].
  destruct (Hne k Hk) as (-> & -> & ->). apply Ht.
Qed.

(** The three events, at the row's id; elsewhere nothing changes. *)
Lemma created_agrees m t it :
  provider_agrees m t -> m !! iid it = None ->
  provider_agrees (<[iid it := it]> m) (spec_call checkers self t (Created (CachedInstance (proto it)))).
Proof.
  intros Ht Hm. destruct (Ht (iid it)) as [T1 T2]. rewrite Hm in T1, T2. cbn [mbind option_bind] in T1, T2.
  cbn [spec_call]. fold (is_self (proto it)) (is_enabled (proto it)).
  apply (agrees_at m _ t _ (iid it)); [done|..].
  - intros k Hk. rewrite lookup_insert_ne by done. split; [done|].
    repeat case_match; cbn [t_self t_instances]; by rewrite ?lookup_insert_ne.
  - rewrite lookup_insert_eq. cbn [mbind option_bind]. repeat case_match; cbn [t_self]; try done; by rewrite lookup_insert_eq.
  - rewrite lookup_insert_eq. cbn [mbind option_bind].
    destruct (is_self (proto it)), (is_enabled (proto it)); cbn [t_instances negb andb]; try done; by rewrite lookup_insert_eq.
Qed.

Lemma updated_agrees m t old it :
  provider_agrees m t -> m !! iid it = Some old -> iid it <> "" -> is_self (proto it) = is_self (proto old) ->
  (Revision (proto it) = Revision (proto old) -> proto it = proto old) ->
  provider_agrees (<[iid it := it]> m) (spec_call checkers self t (Updated (CachedInstance (proto it)))).
Proof.
  intros Ht Hm Hid Hs Hrev. destruct (Ht (iid it)) as [T1 T2]. rewrite Hm in T1, T2. cbn [mbind option_bind] in T1, T2.
  assert (forall (P : bool) j, (if P then Some (proto old) else None) = Some j -> Revision j = Revision (proto it) -> j = proto it) as HR
    by (intros []; [intros j [= <-] ?; symmetry; by apply Hrev|done]).
  cbn [spec_call]. fold (is_self (proto it)) (is_enabled (proto it)). rewrite <- Hs in T1, T2.
  assert (forall k, upsert (proto it) (t_self t) !! k = if decide (k = iid it) then Some (proto it) else t_self t !! k) as Hu1
    by (intros k; apply upsert_lookup; rewrite T1; apply HR).
  assert (forall k, upsert (proto it) (t_instances t) !! k = if decide (k = iid it) then Some (proto it) else t_instances t !! k) as Hu2
    by (intros k; apply upsert_lookup; rewrite T2; apply HR).
  apply (agrees_at m _ t _ (iid it)); [done|..].
  - intros k Hk. rewrite lookup_insert_ne by done. split; [done|].
    repeat case_match; cbn [t_self t_instances]; by rewrite ?Hu1, ?Hu2, ?remove_lookup, ?decide_False.
  - rewrite lookup_insert_eq. cbn [mbind option_bind]. repeat case_match; cbn [t_self]; try done. by rewrite Hu1, decide_True.
  - rewrite lookup_insert_eq. cbn [mbind option_bind].
    destruct (is_self (proto it)), (is_enabled (proto it)); cbn [t_instances negb andb] in *; try done;
      by rewrite ?Hu2, ?remove_lookup, ?decide_True.
Qed.

Lemma deleted_agrees m t old it :
  provider_agrees m t -> m !! iid it = Some old -> iid it <> "" -> is_self (proto it) = is_self (proto old) ->
  (is_enabled (proto old) = true -> EnableHealthCheck (proto it) = true /\ GetHealthCheck (proto it) <> None) ->
  provider_agrees (delete (iid it) m) (spec_call checkers self t (Deleted (CachedInstance (proto it)))).
Proof.
  intros Ht Hm Hid Hs Hdel. destruct (Ht (iid it)) as [T1 T2]. rewrite Hm in T1, T2. cbn [mbind option_bind] in T1, T2.
  cbn [spec_call]. fold (is_self (proto it)). rewrite <- Hs in T1, T2.
  set (on := EnableHealthCheck (proto it) && _).
  assert (is_enabled (proto old) = true -> on = true) as Hon.
  { intros [He Hc]%Hdel. unfold on. by rewrite He, bool_decide_true. }
  apply (agrees_at m _ t _ (iid it)); [done|..].
  - intros k Hk. rewrite lookup_delete_ne by done. split; [done|].
    repeat case_match; cbn [t_self t_instances]; by rewrite ?remove_lookup, ?decide_False.
  - rewrite lookup_delete_eq. destruct (is_self (proto it)), on; cbn [t_self]; try done; by rewrite remove_lookup, decide_True.
  - rewrite lookup_delete_eq. destruct (is_self (proto it)), (is_enabled (proto old)), on; cbn [t_instances negb andb] in *;
      try done; try (by rewrite remove_lookup, decide_True). by specialize (Hon eq_refl).
Qed.

Lemma row_agrees m t row :
  row_fits m row -> provider_agrees m t ->
  provider_agrees (apply_row m row) (foldl (spec_call checkers self) t (callbacks (row_event m row))).
Proof.
  intros [Hid Hfit] Ht. set (it' := fillInternalLabels row). pose proof (is_self_labelled row) as Hsl. fold it' in Hsl.
  unfold row_event, apply_row. fold it'.
  destruct (m !! iid row) as [it|] eqn:Hm; [destruct (Hfit _ eq_refl) as (Hs & Hrev & Hdel)|];
    destruct (Valid row) eqn:Hv; cbn [callbacks omap list_omap foldl].
  - apply (updated_agrees m t it it'); [done..|by rewrite Hsl|]. intros He. by apply Hrev.
  - by apply (deleted_agrees m t it row); [..|by apply Hdel].
  - by apply (created_agrees m t it').
  - by rewrite delete_id.
Qed.

End provider.

Lemma setInstance_step st item :
  ids (s_ic (setInstance st item)) = apply_row (ids (s_ic st)) item /\
  s_events (setInstance st item) = s_events st ++ row_event (ids (s_ic st)) item.
Proof.
  unfold setInstance, apply_row, row_event. destruct (Valid item), (ids (s_ic st) !! iid item) as [it|];
    cbn [negb s_ic ids set_data s_events]; done.
Qed.

Lemma callbacks_app es es' : callbacks (es ++ es') = callbacks es ++ callbacks es'.
Proof. apply omap_app. Qed.

Lemma setInstances_agrees {C} (checkers : gmap Z C) self t rows st :
  NoDup ((fun r => iid r) <$> rows) -> Forall (row_fits checkers self (ids (s_ic st))) rows ->
  provider_agrees checkers self (ids (s_ic st)) (foldl (spec_call checkers self) t (callbacks (s_events st))) ->
  let st' := foldl setInstance st rows in
  provider_agrees checkers self (ids (s_ic st')) (foldl (spec_call checkers self) t (callbacks (s_events st'))).
Proof.
  revert st. induction rows as [|r rows IH]; intros st Hnd Hfit Hag; [done|].
  rewrite fmap_cons, NoDup_cons in Hnd. destruct Hnd as [Hn Hnd]. inversion Hfit as [|? ? Hr Hrs]; subst.
  destruct (setInstance_step st r) as [Hi He]. cbn [foldl]. apply IH; [done| |].
  - rewrite Hi. rewrite Forall_forall in Hrs |- *. intros r' Hin. destruct (Hrs _ Hin) as [Hne Hf].
    split; [done|]. intros it. change (apply_row (ids (s_ic st)) r) with (foldl apply_row (ids (s_ic st)) [r]).
    rewrite apply_rows_notin; [apply Hf|]. intros He'%list_elem_of_singleton. apply Hn. apply list_elem_of_fmap. by exists r'.
  - rewrite Hi, He, callbacks_app, foldl_app. by apply row_agrees.
Qed.

(** The health checker follows the cache: when its provider holds the
    cached polaris servers and the cached instances that want health checks,
    it does so after every update as well - no callback of the update panics -
    provided that a changed instance has a new revision, that an instance does
    not turn into a polaris server, and that a deleted row still says that
    health checks were enabled. *)
Theorem provider_follows_cache {C} (checkers : gmap Z C) (ic : instanceCache) (c : CacheProvider C) (a : answers)
    (rows : list StoreInstance) :
  cache_ok checkers c -> provider_agrees checkers (selfService c) (ids ic) (tables_of c) ->
  a_rows a = Some rows -> NoDup ((fun r => iid r) <$> rows) ->
  Forall (row_fits checkers (selfService c) (ids ic)) rows ->
  exists c' es, calls checkers c (callbacks (update ic a).1.2) = Ret (c', es) /\ cache_ok checkers c' /\
    provider_agrees checkers (selfService c) (ids (update ic a).1.1) (tables_of c').
Proof.
  intros Hc Hag Ha Hnd Hfit.
  destruct (calls_ok checkers c (callbacks (update ic a).1.2) Hc) as (c' & es & He & Hc' & _ & Ht & _).
  exists c', es. split; [exact He|]. split; [done|]. rewrite Ht. unfold update, realUpdate. rewrite Ha. cbn [fst snd].
  assert (forall b, ids (checkAll (set_base (r_ic (setInstances ic rows)) b) (a_now a) (a_count a)) = ids (r_ic (setInstances ic rows))) as ->.
  { intros b. unfold checkAll. repeat case_match; done. }
  unfold setInstances. case_decide as Hd; [done|]. cbn [postProcessUpdatedServices r_ic r_events set_counts set_count ids].
  rewrite callbacks_app. cbn [callbacks omap list_omap]. rewrite app_nil_r. by apply setInstances_agrees.
Qed.

(** An instance whose health check is switched off and that is deleted
    before the cache sees the change stays with the health checker: the
    deletion carries the new flags, and the provider ignores it. *)
Theorem disabled_then_deleted_stays {C} (checkers : gmap Z C) (c : CacheProvider C) (row : StoreInstance) :
  Valid row = false -> EnableHealthCheck (proto row) = false -> is_self (selfService c) (proto row) = false ->
  calls checkers c (callbacks [EDeleted row]) = Ret (c, []).
Proof.
  intros _ He Hs. cbn [callbacks omap list_omap calls call OnDeleted]. rewrite is_self_eq.
  unfold is_self in Hs. rewrite Hs, He. done.
Qed.

(** ** Witnesses *)

Definition demo_row (i rev : string) (valid : bool) (secs : Z) : StoreInstance :=
  mkSI (demo_instance i rev true) "grpc" "v1" (Some ("r", "z", "c")) valid (FromUnix secs) (Some (FromUnix secs)) (pretty secs) 0 100 "".
Definition demo_svc : string -> string := fun _ => "svc-id".
Definition demo_diff : Z := - (5 * Second).

Definition demo_store : gmap string StoreInstance := {["i1" := demo_row "i1" "r1" true 100; "i2" := demo_row "i2" "r1" true 100]}.
Definition demo_store' : gmap string StoreInstance := {["i1" := demo_row "i1" "r2" false 205; "i2" := demo_row "i2" "r1" true 100]}.
Definition demo_ask (st : gmap string StoreInstance) (ic : instanceCache) (now : Z) : answers :=
  mkAnswers (Some now) (Some (map_to_list (GetMoreInstances st (fetchTime demo_diff ic) (isFirstUpdate ic) (systemServiceID ic))).*2) now None.
Definition demo_ic0 := newInstanceCache true [].
Definition demo_ic1 := (update demo_ic0 (demo_ask demo_store demo_ic0 200)).1.1.
Definition demo_ic2 := (update demo_ic1 (demo_ask demo_store' demo_ic1 206)).1.1.

Lemma demo_two (P : string -> StoreInstance -> Prop) r1 r2 :
  P "i1" r1 -> P "i2" r2 -> map_Forall P ({["i1" := r1; "i2" := r2]} : gmap string StoreInstance).
Proof. intros H1 H2 k r [[<- <-]|[_ [<- <-]%lookup_singleton_Some]]%lookup_insert_Some; done. Qed.

Lemma demo_follows1 : follows demo_diff demo_svc [] demo_ic1 demo_store.
Proof.
  eapply (follows_update _ _ _ demo_ic0 ∅); [apply follows_new| |intros k|reflexivity|unfold rows_of; reflexivity].
  - by apply demo_two.
  - destruct (demo_store !! k) as [r|] eqn:Hr; [|by left]. right. left. exists r. split; [done|].
    assert (map_Forall (fun _ => stamped (fetchTime demo_diff demo_ic0)) demo_store) as Hs by (apply demo_two; by exists (FromUnix 100)).
    by apply (Hs k).
Qed.

Lemma demo_follows2 : follows demo_diff demo_svc [] demo_ic2 demo_store'.
Proof.
  eapply (follows_update _ _ _ demo_ic1 demo_store); [apply demo_follows1| |intros k|reflexivity|unfold rows_of; reflexivity].
  - by apply demo_two.
  - destruct (decide (k = "i1")) as [->|Hk]; [right; left; exists (demo_row "i1" "r2" false 205); split; [done|exists (FromUnix 205); split; [done|by vm_compute]]|left].
    unfold demo_store, demo_store'. by rewrite !(lookup_insert_ne _ "i1") by done.
Qed.

Lemma cache_follows_store_witness :
  ids demo_ic2 = visible [] demo_store' /\
  GetInstance demo_ic2 "i1" = demo_store' !! "i1" ≫= view_row [] /\
  GetInstancesByServiceID demo_ic2 "svc-id" ≡ₚ (map_to_list (filter (fun kv => sid kv.2 = "svc-id") (visible [] demo_store'))).*2.
Proof.
  apply (cache_follows_store demo_diff demo_svc [] demo_ic2 demo_store' "i1" "svc-id"); [apply demo_follows2|done|done].
Defined.

Lemma service_counts_add_up_witness :
  length (GetInstancesByServiceID demo_ic1 "svc-id") = 2%nat /\
  TotalInstanceCount (GetInstancesCountByServiceID demo_ic1 "svc-id") = 2.
Proof.
  split; [by vm_compute|].
  assert (Z.of_nat (length (GetInstancesByServiceID demo_ic1 "svc-id")) < 2 ^ 32) as Hl by (by vm_compute).
  destruct (service_counts_add_up demo_diff demo_svc [] demo_ic1 demo_store "svc-id" demo_follows1) as [-> _]; [done|done|].
  by vm_compute.
Defined.

(** A count that does not match: [i2] was deleted behind the cache's back. *)
Definition demo_lost : gmap string StoreInstance := {["i1" := demo_row "i1" "r1" true 100; "i2" := demo_row "i2" "r1" false 100]}.
Definition demo_quiet : answers := mkAnswers (Some 300) (Some []) 300 (Some 1).
Definition demo_ic3 := (update demo_ic1 demo_quiet).1.1.

Lemma count_mismatch_reloads_witness :
  ids demo_ic1 = visible [] demo_store /\
  ids (update demo_ic3 (demo_ask demo_lost demo_ic3 301)).1.1 = visible [] demo_lost.
Proof.
  destruct (follows_inv _ _ _ _ _ demo_follows1) as (Hic & Hi & Hf & _). split; [exact Hi|].
  apply (count_mismatch_reloads demo_diff demo_svc demo_ic1 demo_quiet (demo_ask demo_lost demo_ic3 301) 1 demo_lost
    (map_to_list (GetMoreInstances demo_lost (fetchTime demo_diff demo_ic3) (isFirstUpdate demo_ic3) (systemServiceID demo_ic3))).*2).
  - clear. by vm_compute.
  - exact Hic.
  - exact Hf.
  - reflexivity.
  - reflexivity.
  - reflexivity.
  - clear. by vm_compute.
  - clear. by vm_compute.
  - clear. by apply demo_two.
  - clear. apply demo_two; by exists (FromUnix 100).
  - destruct (update_ids demo_svc demo_ic1 demo_quiet [] eq_refl (Forall_nil_2 _) Hic) as (_ & -> & _). cbn [foldl]. rewrite Hi. clear. apply (bool_decide_eq_true_1 _). by vm_compute.
  - reflexivity.
  - unfold rows_of. reflexivity.
Defined.

Lemma failed_fetch_skips_rows_witness :
  let ic' := (update demo_ic1 (mkAnswers (Some 300) None 300 None)).1.1 in
  GetMoreInstances {["i3" := demo_row "i3" "r1" true 250]} (fetchTime demo_diff ic') (isFirstUpdate ic') (systemServiceID ic') !! "i3" = None.
Proof. by apply (failed_fetch_skips_rows demo_diff demo_ic1 (mkAnswers (Some 300) None 300 None) 300 _ "i3" (demo_row "i3" "r1" true 250) (FromUnix 250)). Defined.

Lemma boltdb_deletion_not_fetched_witness :
  GetMoreInstances (DeleteInstance demo_store "i1" (FromUnix 300)) (FromUnix 290) false [] !! "i1" = None.
Proof. apply (boltdb_deletion_not_fetched demo_store "i1" (demo_row "i1" "r1" true 100) (FromUnix 300) (FromUnix 100)); done. Defined.

Lemma labels_are_metadata_witness :
  "grpc" ∈ default [] (GetInstanceLabels demo_ic1 "svc-id" !! "protocol").
Proof.
  apply (labels_are_metadata demo_ic1 "svc-id" "protocol" "grpc"); [done|].
  destruct (follows_inv _ _ _ _ _ demo_follows1) as (Hic & Hi & _).
  exists (fillInternalLabels (demo_row "i1" "r1" true 100)). split; [|by vm_compute].
  rewrite (service_instances demo_svc demo_ic1 "svc-id" Hic) by done. rewrite Hi. apply list_elem_of_fmap.
  exists ("i1", fillInternalLabels (demo_row "i1" "r1" true 100)). split; [done|]. apply elem_of_map_to_list.
  apply map_lookup_filter_Some. split; [|done]. by rewrite lookup_visible.
Defined.

Lemma provider_follows_cache_witness :
  exists c' es, calls demo_checkers (newCacheProvider "polaris.checker" 32)
      (callbacks (update demo_ic0 (demo_ask demo_store demo_ic0 200)).1.2) = Ret (c', es) /\
    cache_ok demo_checkers c' /\ provider_agrees demo_checkers "polaris.checker" (ids demo_ic1) (tables_of c').
Proof.
  destruct (newCacheProvider_ok demo_checkers "polaris.checker" 32) as [Hc Ht]; [done|].
  eapply (provider_follows_cache demo_checkers demo_ic0 (newCacheProvider "polaris.checker" 32)); [exact Hc| |reflexivity| |].
  - rewrite Ht. intros k. split; reflexivity.
  - vm_compute. repeat (constructor; [set_solver|]). constructor.
  - apply Forall_forall. intros r Hr. split; [|intros it; unfold demo_ic0, newInstanceCache; cbn [ids]; by rewrite lookup_empty].
    assert (Forall (fun r => iid r <> "") (map_to_list (GetMoreInstances demo_store (fetchTime demo_diff demo_ic0) true [])).*2) as Hf
      by (vm_compute; repeat constructor; discriminate).
    rewrite Forall_forall in Hf. by apply Hf.
Defined.

Lemma disabled_then_deleted_stays_witness :
  calls demo_checkers (newCacheProvider "polaris.checker" 32)
    (callbacks [EDeleted (mkSI (demo_instance "i1" "r2" false) "" "" None false 0 None "" 0 0 "")]) = Ret (newCacheProvider "polaris.checker" 32, []).
Proof. by apply disabled_then_deleted_stays. Defined.
