(* ===== verification/UserCache.v ===== *)
(** * The cache of users and user groups ([src/cache/user.go], [src/cache/user_bucket.go])

    Accounts are the administrator, main accounts (owners) and their sub
    accounts.  The cache keeps the accounts by id and by [owner@name], the
    groups by id, and for each user the groups it is a member of; the
    authorization checks read it.  A user or group that the code dereferences
    without having found it is a panic. *)

From S2P Require Import Prelude Hash Utils BaseCache.
From Stdlib Require Import ZArith Lia.
From stdpp Require Import base tactics list gmap strings.

Open Scope Z_scope.

(** ** Data ([src/common/model/auth.go]) *)

Definition UnknownUserRole : Z := -1.
Definition AdminUserRole : Z := 0.
Definition OwnerUserRole : Z := 20.
Definition SubAccountUserRole : Z := 50.

Record User := mkUser {
  UID : string;
  UName : string;
  UPassword : string;
  UOwner : string;
  USource : string;
  UMobile : string;
  UEmail : string;
  UType : Z;
  UToken : string;
  UTokenEnable : bool;
  UValid : bool;
  UComment : string;
  UCreateTime : Z;
  UModifyTime : Z }.

Record UserGroupDetail := mkGroup {
  GID : string;
  GName : string;
  GOwner : string;
  GToken : string;
  GTokenEnable : bool;
  GValid : bool;
  GComment : string;
  GCreateTime : Z;
  GModifyTime : Z;
  UserIds : gset string }.
#[export] Instance User_eq_dec : EqDecision User.
Proof. solve_decision. Defined.
#[export] Instance UserGroupDetail_eq_dec : EqDecision UserGroupDetail.
Proof. solve_decision. Defined.

Record userRefreshResult := mkRefresh {
  userAdd : Z; userUpdate : Z; userDel : Z;
  groupAdd : Z; groupUpdate : Z; groupDel : Z }.

Record userCache := mkUC {
  ubase : baseCache;
  adminUser : option User;
  users : gmap string User;
  name2Users : gmap string User;
  groups : gmap string UserGroupDetail;
  user2Groups : gmap string (gset string) }.

Definition newUserCache : userCache := mkUC newBaseCache None ∅ ∅ ∅ ∅.

Definition set_ubase (uc : userCache) b := mkUC b (adminUser uc) (users uc) (name2Users uc) (groups uc) (user2Groups uc).
Definition set_admin (uc : userCache) u := mkUC (ubase uc) u (users uc) (name2Users uc) (groups uc) (user2Groups uc).
Definition set_users (uc : userCache) m := mkUC (ubase uc) (adminUser uc) m (name2Users uc) (groups uc) (user2Groups uc).
Definition set_names (uc : userCache) m := mkUC (ubase uc) (adminUser uc) (users uc) m (groups uc) (user2Groups uc).
Definition set_groups (uc : userCache) m := mkUC (ubase uc) (adminUser uc) (users uc) (name2Users uc) m (user2Groups uc).
Definition set_links (uc : userCache) m := mkUC (ubase uc) (adminUser uc) (users uc) (name2Users uc) (groups uc) m.

Definition NameLinkOwnerTemp (owner name : string) : string := owner +:+ "@" +:+ name.

(** ** The buckets ([user_bucket.go]) *)

(** [userGroupsBucket]: the slices are shared pointers, which the code reads
    from the bucket before each change, so that a change is an update of the map. *)
Definition links_save (m : gmap string (gset string)) (key : string) : gmap string (gset string) :=
  match m !! key with Some _ => m | None => <[key := ∅]> m end.
Definition slice_save (m : gmap string (gset string)) (key groupID : string) : gmap string (gset string) :=
  alter (fun ids => {[groupID]} ∪ ids) key m.
Definition slice_delete (m : gmap string (gset string)) (key groupID : string) : gmap string (gset string) :=
  alter (fun ids => ids ∖ {[groupID]}) key m.

(** ** Updating *)

Definition ownerSupplier (uc : userCache) (user : User) : option User :=
  if decide (UType user = SubAccountUserRole) then users uc !! UOwner user else Some user.

(** One user of the loop of [handlerUserCacheUpdate]. *)
Definition handleUser (filter : User -> bool) (st : userCache * userRefreshResult) (user : User) :
    outcome (userCache * userRefreshResult) :=
  let '(uc, ret) := st in
  if decide (UType user = AdminUserRole) then
    let uc := set_admin uc (Some user) in
    let uc := set_users uc (<[UID user := user]> (users uc)) in
    Ret (set_names uc (<[NameLinkOwnerTemp (UName user) (UName user) := user]> (name2Users uc)), ret)
  else if negb (filter user) then Ret (uc, ret)
  else
    let owner := ownerSupplier uc user in
    if negb (UValid user) then
      let uc := set_users uc (delete (UID user) (users uc)) in
      match owner with
      | None => Panics NilDereference
      | Some owner =>
          Ret (set_names uc (delete (NameLinkOwnerTemp (UName owner) (UName user)) (name2Users uc)),
               mkRefresh (userAdd ret) (userUpdate ret) (userDel ret + 1) (groupAdd ret) (groupUpdate ret) (groupDel ret))
      end
    else
      let ret := match users uc !! UID user with
                 | Some _ => mkRefresh (userAdd ret) (userUpdate ret + 1) (userDel ret) (groupAdd ret) (groupUpdate ret) (groupDel ret)
                 | None => mkRefresh (userAdd ret + 1) (userUpdate ret) (userDel ret) (groupAdd ret) (groupUpdate ret) (groupDel ret)
                 end in
      let uc := set_users uc (<[UID user := user]> (users uc)) in
      match owner with
      | None => Panics NilDereference
      | Some owner => Ret (set_names uc (<[NameLinkOwnerTemp (UName owner) (UName user) := user]> (name2Users uc)), ret)
      end.

Fixpoint handleUsers (filter : User -> bool) (st : userCache * userRefreshResult) (us : list User) :
    outcome (userCache * userRefreshResult) :=
  match us with
  | [] => Ret st
  | user :: us => st' ← handleUser filter st user; handleUsers filter st' us
  end.

Definition maxMtime (last : Z) (times : list Z) : Z := foldl (fun m t => Z.max m (Unix t)) last times.

Definition handlerUserCacheUpdate (lastMimes : gmap string Z) (st : userCache * userRefreshResult) (us : list User)
    (filter : User -> bool) : outcome (gmap string Z * (userCache * userRefreshResult)) :=
  let lastUserMtime := maxMtime (Unix (LastMtime (ubase st.1) "users")) (UModifyTime <$> us) in
  st' ← handleUsers filter st us;
  Ret (<["users" := FromUnix lastUserMtime]> lastMimes, st').

(** One group of the loop of [handlerGroupCacheUpdate]. *)
Definition handleGroup (st : userCache * userRefreshResult) (group : UserGroupDetail) : userCache * userRefreshResult :=
  let '(uc, ret) := st in
  if negb (GValid group) then
    (set_groups uc (delete (GID group) (groups uc)),
     mkRefresh (userAdd ret) (userUpdate ret) (userDel ret) (groupAdd ret) (groupUpdate ret) (groupDel ret + 1))
  else
    let oldGroup := groups uc !! GID group in
    let ret := match oldGroup with
               | Some _ => mkRefresh (userAdd ret) (userUpdate ret) (userDel ret) (groupAdd ret) (groupUpdate ret + 1) (groupDel ret)
               | None => mkRefresh (userAdd ret) (userUpdate ret) (userDel ret) (groupAdd ret + 1) (groupUpdate ret) (groupDel ret)
               end in
    let uc := set_groups uc (<[GID group := group]> (groups uc)) in
    let delUserIds := match oldGroup with
                      | None => []
                      | Some old => elements (UserIds old ∖ UserIds group)
                      end in
    let links := foldl (fun m waitDel => slice_delete m waitDel (GID group)) (user2Groups uc) delUserIds in
    let links := foldl (fun m uid => slice_save (links_save m uid) uid (GID group)) links (elements (UserIds group)) in
    (set_links uc links, ret).

Definition handlerGroupCacheUpdate (lastMimes : gmap string Z) (st : userCache * userRefreshResult) (gs : list UserGroupDetail) :
    gmap string Z * (userCache * userRefreshResult) :=
  let lastGroupMtime := maxMtime (Unix (LastMtime (ubase st.1) "group")) (GModifyTime <$> gs) in
  (<["group" := FromUnix lastGroupMtime]> lastMimes, foldl handleGroup st gs).

Definition is_owner_row (user : User) : bool := bool_decide (UType user = OwnerUserRole).
Definition is_sub_row (user : User) : bool := bool_decide (UType user = SubAccountUserRole).

Definition setUserAndGroups (uc : userCache) (us : list User) (gs : list UserGroupDetail) :
    outcome (gmap string Z * (userCache * userRefreshResult)) :=
  '(lastMimes, st) ← handlerUserCacheUpdate ∅ (uc, mkRefresh 0 0 0 0 0 0) us is_owner_row;
  '(lastMimes, st) ← handlerUserCacheUpdate lastMimes st us is_sub_row;
  Ret (handlerGroupCacheUpdate lastMimes st gs).

(** [None]: the store failed. *)
Definition user_realUpdate (uc : userCache) (us : option (list User)) (gs : option (list UserGroupDetail)) :
    outcome (userCache * option (gmap string Z)) :=
  match us with
  | None => Ret (uc, None)
  | Some us =>
      match gs with
      | None => Ret (uc, None)
      | Some gs => '(lastMimes, (uc', _)) ← setUserAndGroups uc us gs; Ret (uc', Some lastMimes)
      end
  end.

Definition user_update (uc : userCache) (storeTime : option Z) (us : option (list User)) (gs : option (list UserGroupDetail)) :
    outcome userCache :=
  '(uc', executed) ← user_realUpdate uc us gs;
  Ret (set_ubase uc' (doCacheUpdate (ubase uc) storeTime executed)).

Definition user_clear (uc : userCache) : userCache := mkUC (base_clear (ubase uc)) None ∅ ∅ ∅ ∅.

(** ** Queries *)

Definition GetAdmin (uc : userCache) : option User := adminUser uc.

Definition IsOwner (uc : userCache) (id : string) : bool :=
  match users uc !! id with
  | None => false
  | Some val => bool_decide (UType val = AdminUserRole) || bool_decide (UType val = OwnerUserRole)
  end.

Definition GetUserByID (uc : userCache) (id : string) : option User :=
  if decide (id = "") then None else users uc !! id.
Definition GetUserByName (uc : userCache) (name ownerName : string) : option User :=
  name2Users uc !! NameLinkOwnerTemp ownerName name.
Definition GetGroup (uc : userCache) (id : string) : option UserGroupDetail :=
  if decide (id = "") then None else groups uc !! id.

Definition IsUserInGroup (uc : userCache) (userId groupId : string) : bool :=
  match GetGroup uc groupId with
  | None => false
  | Some group => bool_decide (userId ∈ UserIds group)
  end.

Definition GetUserLinkGroupIds (uc : userCache) (userId : string) : list string :=
  if decide (userId = "") then []
  else match user2Groups uc !! userId with None => [] | Some val => elements val end.

(** ** Lemmas *)

Definition links_of (m : gmap string (gset string)) (uid : string) : gset string := default ∅ (m !! uid).

Lemma slice_delete_links m k g uid : links_of (slice_delete m k g) uid = if decide (uid = k) then links_of m uid ∖ {[g]} else links_of m uid.
Proof.
  unfold links_of, slice_delete. case_decide as Hd; subst.
  - rewrite lookup_alter_eq. destruct (m !! k); cbn; set_solver.
  - by rewrite lookup_alter_ne.
Qed.

Lemma slice_save_links m k g uid :
  links_of (slice_save (links_save m k) k g) uid = if decide (uid = k) then {[g]} ∪ links_of m uid else links_of m uid.
Proof.
  unfold links_of, slice_save, links_save. case_decide as Hd; subst.
  - rewrite lookup_alter_eq. destruct (m !! k) eqn:Hm; [by rewrite Hm|]. by rewrite lookup_insert_eq.
  - rewrite lookup_alter_ne by done. destruct (m !! k); [done|]. by rewrite lookup_insert_ne.
Qed.

Lemma deletes_links l m g uid g' :
  g' ∈ links_of (foldl (fun m k => slice_delete m k g) m l) uid <-> g' ∈ links_of m uid /\ ~ (uid ∈ l /\ g' = g).
Proof.
  revert m. induction l as [|k l IH]; intros m; cbn [foldl]; [set_solver|].
  rewrite IH, slice_delete_links. case_decide; set_solver.
Qed.

Lemma saves_links l m g uid g' :
  g' ∈ links_of (foldl (fun m k => slice_save (links_save m k) k g) m l) uid <-> g' ∈ links_of m uid \/ (uid ∈ l /\ g' = g).
Proof.
  revert m. induction l as [|k l IH]; intros m; cbn [foldl]; [set_solver|].
  rewrite IH, slice_save_links. case_decide; set_solver.
Qed.

Lemma links_spec uc uid g : uid <> "" -> g ∈ GetUserLinkGroupIds uc uid <-> g ∈ links_of (user2Groups uc) uid.
Proof.
  intros Hu. unfold GetUserLinkGroupIds, links_of. rewrite decide_False by done.
  destruct (user2Groups uc !! uid); cbn; [apply elem_of_elements|set_solver].
Qed.

(** *** Groups: [dead] are the groups deleted so far *)

Record groups_inv (dead : gset string) (uc : userCache) : Prop := {
  gi_keys : map_Forall (fun k g => GID g = k) (groups uc);
  gi_dead : forall g, g ∈ dead -> groups uc !! g = None;
  gi_live : forall g group uid, groups uc !! g = Some group -> g ∈ links_of (user2Groups uc) uid <-> uid ∈ UserIds group;
  gi_none : forall g uid, g ∉ dead -> groups uc !! g = None -> g ∉ links_of (user2Groups uc) uid }.

Definition deleted_groups (gs : list UserGroupDetail) : gset string :=
  list_to_set (GID <$> filter (fun g => GValid g = false) gs).

(** A deleted group does not come back. *)
Fixpoint never_reused (dead : gset string) (gs : list UserGroupDetail) : Prop :=
  match gs with
  | [] => True
  | g :: gs => (GValid g = true -> GID g ∉ dead) /\ never_reused (if GValid g then dead else {[GID g]} ∪ dead) gs
  end.

Lemma handleGroup_inv dead st g :
  (GValid g = true -> GID g ∉ dead) -> groups_inv dead st.1 ->
  groups_inv (if GValid g then dead else {[GID g]} ∪ dead) (handleGroup st g).1.
Proof.
  intros Hg [Hk Hd Hl Hn]. destruct st as [uc ret]. unfold handleGroup. cbn [fst] in *.
  destruct (GValid g) eqn:Hv; cbn [negb fst].
  - specialize (Hg eq_refl).
    assert (forall uid g', g' <> GID g -> (g' ∈ links_of (user2Groups (handleGroup (uc, ret) g).1) uid <-> g' ∈ links_of (user2Groups uc) uid)) as Hne.
    { intros uid g' Hg'. unfold handleGroup. rewrite Hv. cbn. rewrite saves_links, deletes_links. tauto. }
    unfold handleGroup in Hne. rewrite Hv in Hne. cbn [negb fst set_links user2Groups] in Hne.
    split; cbn [groups set_links set_groups user2Groups] in *.
    + by apply map_Forall_insert_2.
    + intros g' Hg'. rewrite lookup_insert_ne; [by apply Hd|]. by intros <-.
    + intros g' group uid. destruct (decide (g' = GID g)) as [->|Hg'].
      * rewrite lookup_insert_eq. intros [= <-]. rewrite saves_links, deletes_links, elem_of_elements.
        split; [|by right]. intros [[Hin Hnot]|[? _]]; [|done].
        destruct (groups uc !! GID g) as [old|] eqn:Ho; [|by destruct (Hn (GID g) uid Hg Ho)].
        apply (Hl _ _ _ Ho) in Hin. rewrite elem_of_elements in Hnot. destruct (decide (uid ∈ UserIds g)); set_solver.
      * rewrite lookup_insert_ne by done. intros Hgr. rewrite Hne by done. by apply Hl.
    + intros g' uid Hg'. destruct (decide (g' = GID g)) as [->|Hne']; [by rewrite lookup_insert_eq|].
      rewrite lookup_insert_ne by done. rewrite Hne by done. by apply Hn.
  - split; cbn [groups set_groups user2Groups].
    + by apply map_Forall_delete.
    + intros g' [->%elem_of_singleton|Hg']%elem_of_union; [by rewrite lookup_delete_eq|].
      apply lookup_delete_None. right. by apply Hd.
    + intros g' group uid [_ Hg']%lookup_delete_Some. by apply Hl.
    + intros g' uid Hg' Hnone. apply Hn; [set_solver|]. rewrite lookup_delete_ne in Hnone; [done|set_solver].
Qed.

Lemma handleGroups_inv dead st gs :
  never_reused dead gs -> groups_inv dead st.1 -> exists dead', dead ⊆ dead' /\ groups_inv dead' (foldl handleGroup st gs).1.
Proof.
  revert dead st. induction gs as [|g gs IH]; intros dead st Hr Hi; [by exists dead|].
  destruct Hr as [Hg Hr]. cbn [foldl]. destruct (IH _ (handleGroup st g) Hr) as (dead' & Hs & Hi').
  - by apply handleGroup_inv.
  - exists dead'. split; [|done]. destruct (GValid g); set_solver.
Qed.

(** *** Users *)

(** What a row does to the table by id. *)
Definition user_row (m : gmap string User) (u : User) : gmap string User :=
  if decide (UType u = AdminUserRole) then <[UID u := u]> m
  else if UValid u then <[UID u := u]> m else delete (UID u) m.

Lemma handleUser_users filter st u st' :
  handleUser filter st u = Ret st' ->
  users st'.1 = (if decide (UType u = AdminUserRole) then user_row (users st.1) u
                 else if filter u then user_row (users st.1) u else users st.1) /\
  groups st'.1 = groups st.1 /\ user2Groups st'.1 = user2Groups st.1 /\ ubase st'.1 = ubase st.1.
Proof.
  destruct st as [uc ret]. unfold handleUser, user_row. repeat case_decide; [by intros [= <-]|].
  destruct (filter u); cbn [negb]; [|by intros [= <-]].
  destruct (UValid u); cbn [negb]; destruct (ownerSupplier uc u); intros [= <-]; done.
Qed.

(** The pass goes through when the owner of each sub account is known. *)
Definition owner_known (uc : userCache) (u : User) : Prop :=
  UType u = SubAccountUserRole -> is_Some (users uc !! UOwner u).

Lemma handleUser_returns filter st u :
  (filter u = true -> UType u <> AdminUserRole -> owner_known st.1 u) -> returns (handleUser filter st u).
Proof.
  intros Hk. destruct st as [uc ret]. unfold handleUser. case_decide as Ha; [by eexists|].
  destruct (filter u); cbn [negb]; [|by eexists]. specialize (Hk eq_refl Ha). unfold owner_known in Hk. cbn in Hk.
  unfold ownerSupplier. destruct (UValid u); cbn [negb]; case_decide; try (by eexists); destruct (Hk ltac:(done)) as [o ->]; by eexists.
Qed.

(** The rows one pass applies. *)
Definition pass (filter : User -> bool) (m : gmap string User) (u : User) : gmap string User :=
  if bool_decide (UType u = AdminUserRole) || filter u then user_row m u else m.

Lemma handleUsers_users filter us st st' :
  handleUsers filter st us = Ret st' ->
  users st'.1 = foldl (pass filter) (users st.1) us /\
  groups st'.1 = groups st.1 /\ user2Groups st'.1 = user2Groups st.1 /\ ubase st'.1 = ubase st.1.
Proof.
  revert st. induction us as [|u us IH]; intros st; cbn [handleUsers foldl]; [by intros [= <-]|].
  intros (st1 & H1 & H2)%bind_Ret. destruct (handleUser_users _ _ _ _ H1) as (Hu & Hg & Hl & Hb).
  destruct (IH _ H2) as (-> & -> & -> & ->). split_and!; [|done..]. f_equal. rewrite Hu. unfold pass.
  case_decide; [by rewrite bool_decide_true|]. by rewrite bool_decide_false.
Qed.

Lemma pass_other filter m u k : UID u <> k -> pass filter m u !! k = m !! k.
Proof. intros Hk. unfold pass, user_row. repeat case_match; rewrite ?lookup_insert_ne, ?lookup_delete_ne; done. Qed.

Lemma passes_other filter us m k : k ∉ UID <$> us -> foldl (pass filter) m us !! k = m !! k.
Proof.
  revert m. induction us as [|u us IH]; intros m Hk; [done|]. rewrite fmap_cons, not_elem_of_cons in Hk.
  destruct Hk. cbn [foldl]. rewrite IH, pass_other by done. done.
Qed.

Lemma NoDup_same_id (us : list User) u u' : NoDup (UID <$> us) -> u ∈ us -> u' ∈ us -> UID u = UID u' -> u = u'.
Proof.
  induction us as [|v us IH]; intros Hnd Hu Hu' He; [by apply not_elem_of_nil in Hu|].
  rewrite fmap_cons, NoDup_cons in Hnd. destruct Hnd as [Hn Hnd].
  apply elem_of_cons in Hu as [->|Hu], Hu' as [->|Hu']; [done|..|by apply IH].
  - destruct Hn. rewrite He. by apply list_elem_of_fmap_2.
  - destruct Hn. rewrite <- He. by apply list_elem_of_fmap_2.
Qed.

Definition known_role (u : User) : Prop := UType u = AdminUserRole \/ UType u = OwnerUserRole \/ UType u = SubAccountUserRole.

(** The value a row leaves under its id. *)
Definition row_value (u : User) : option User := if bool_decide (UType u = AdminUserRole) || UValid u then Some u else None.

Lemma passes_row filter us m u :
  NoDup (UID <$> us) -> u ∈ us ->
  foldl (pass filter) m us !! UID u =
    if bool_decide (UType u = AdminUserRole) || filter u then row_value u else m !! UID u.
Proof.
  revert m. induction us as [|u' us IH]; intros m Hnd Hu; [by apply not_elem_of_nil in Hu|].
  rewrite fmap_cons, NoDup_cons in Hnd. destruct Hnd as [Hn Hnd]. cbn [foldl].
  apply elem_of_cons in Hu as [->|Hu].
  - rewrite passes_other by done. unfold pass, user_row, row_value. case_bool_decide; cbn [orb].
    + rewrite decide_True by done. by rewrite lookup_insert_eq.
    + rewrite decide_False by done. destruct (filter u'); [|done]. destruct (UValid u'); by rewrite ?lookup_insert_eq, ?lookup_delete_eq.
  - rewrite IH by done. rewrite pass_other; [done|]. intros He. apply Hn. rewrite He. by apply list_elem_of_fmap_2.
Qed.

Lemma handleUsers_returns filter us st :
  (forall u st' us1 us2, us = us1 ++ u :: us2 -> handleUsers filter st us1 = Ret st' ->
     filter u = true -> UType u <> AdminUserRole -> owner_known st'.1 u) ->
  returns (handleUsers filter st us).
Proof.
  revert st. induction us as [|u us IH]; intros st Hk; cbn [handleUsers]; [by eexists|].
  destruct (handleUser_returns filter st u) as [st1 H1].
  { intros Hf Ha. by apply (Hk u st [] us). }
  rewrite H1. cbn. apply IH. intros u' st' us1 us2 -> H2. apply (Hk u' st' (u :: us1) us2); [done|].
  cbn [handleUsers]. rewrite H1. exact H2.
Qed.

Lemma setUserAndGroups_inv uc us gs times st' :
  setUserAndGroups uc us gs = Ret (times, st') ->
  exists st, users st.1 = foldl (pass is_sub_row) (foldl (pass is_owner_row) (users uc) us) us /\
    groups st.1 = groups uc /\ user2Groups st.1 = user2Groups uc /\ ubase st.1 = ubase uc /\ st' = foldl handleGroup st gs.
Proof.
  unfold setUserAndGroups, handlerUserCacheUpdate. intros H. invert_ret.
  repeat match goal with H : handleUsers _ _ _ = Ret _ |- _ => apply handleUsers_users in H; destruct H as (? & ? & ? & ?) end.
  cbn [fst] in *. eexists. split_and!; [..|reflexivity]; congruence.
Qed.

Lemma foldl_handleGroup_users gs st : users (foldl handleGroup st gs).1 = users st.1 /\ ubase (foldl handleGroup st gs).1 = ubase st.1.
Proof.
  revert st. induction gs as [|g gs IH]; intros [uc ret]; [done|]. cbn [foldl].
  destruct (IH (handleGroup (uc, ret) g)) as [-> ->]. unfold handleGroup. by destruct (GValid g).
Qed.

(** ** The cache over time *)

(** The updates of a cache: any answers of the store that do not make it
    panic, in which no deleted group comes back. *)
Inductive user_reachable : gset string -> userCache -> Prop :=
| ur_new : user_reachable ∅ newUserCache
| ur_update dead uc uc' t us gs :
    user_reachable dead uc -> never_reused dead gs ->
    user_update uc t (Some us) (Some gs) = Ret uc' ->
    user_reachable (dead ∪ deleted_groups gs) uc'
| ur_failed dead uc uc' t us gs :
    user_reachable dead uc -> us = None \/ gs = None -> user_update uc t us gs = Ret uc' -> user_reachable dead uc'.

Lemma handleGroups_dead dead st gs :
  never_reused dead gs -> groups_inv dead st.1 -> groups_inv (dead ∪ deleted_groups gs) (foldl handleGroup st gs).1.
Proof.
  revert dead st. induction gs as [|g gs IH]; intros dead st Hr Hi.
  - unfold deleted_groups. cbn. by rewrite (right_id_L ∅ (∪)).
  - destruct Hr as [Hg Hr]. cbn [foldl]. unfold deleted_groups. rewrite filter_cons.
    assert (dead ∪ list_to_set (GID <$> (if decide (GValid g = false) then g :: filter (fun g => GValid g = false) gs else filter (fun g => GValid g = false) gs))
      = (if GValid g then dead else {[GID g]} ∪ dead) ∪ deleted_groups gs) as ->.
    { unfold deleted_groups. destruct (GValid g); rewrite ?decide_False, ?decide_True by done; [done|]. cbn. set_solver. }
    apply IH; [done|]. by apply handleGroup_inv.
Qed.

Lemma groups_inv_ext dead uc uc' :
  groups uc' = groups uc -> user2Groups uc' = user2Groups uc -> groups_inv dead uc -> groups_inv dead uc'.
Proof. intros Hg Hl [? ? ? ?]. split; rewrite ?Hg, ?Hl; done. Qed.

Lemma user_update_inv uc t us gs uc' :
  user_update uc t (Some us) (Some gs) = Ret uc' ->
  exists times st' b, setUserAndGroups uc us gs = Ret (times, st') /\ uc' = set_ubase st'.1 b.
Proof.
  unfold user_update, user_realUpdate. intros [[uc1 ex] [H1 H2]]%bind_Ret.
  apply bind_Ret in H1 as ([times [uc2 ret]] & H1 & H3). injection H3 as <- <-. injection H2 as <-.
  by exists times, (uc2, ret), (doCacheUpdate (ubase uc) t (Some times)).
Qed.

Lemma user_reachable_inv dead uc : user_reachable dead uc -> groups_inv dead uc.
Proof.
  induction 1 as [|dead uc uc' t us gs _ IH Hr Hu|dead uc uc' t us gs _ IH Hf Hu].
  - split; cbn; [apply map_Forall_empty|done|done|]. intros g uid _ _. unfold links_of. by rewrite lookup_empty.
  - apply user_update_inv in Hu as (times & st' & b & Hu & ->).
    apply setUserAndGroups_inv in Hu as (st & _ & Hg & Hl & _ & ->).
    apply (groups_inv_ext _ (foldl handleGroup st gs).1); [done..|]. apply handleGroups_dead; [done|]. by apply (groups_inv_ext _ uc).
  - unfold user_update, user_realUpdate in Hu. destruct Hf as [->| ->]; [|destruct us]; invert_ret; by apply (groups_inv_ext _ uc).
Qed.

(** ** Properties *)

(** C40. Membership answers agree: after any sequence of updates, none of which
    clears the cache or brings a deleted group back, a group that is still cached
    lists a user exactly when the group is among those linked to the user. *)
Theorem membership_agrees (dead : gset string) (uc : userCache) (uid gid : string) :
  user_reachable dead uc -> uid <> "" -> gid <> "" -> is_Some (groups uc !! gid) ->
  IsUserInGroup uc uid gid = true <-> gid ∈ GetUserLinkGroupIds uc uid.
Proof.
  intros Hr Hu Hg [group Hgr]. destruct (user_reachable_inv _ _ Hr) as [_ _ Hl _].
  unfold IsUserInGroup, GetGroup. rewrite decide_False, Hgr, links_spec, bool_decide_eq_true by done.
  by rewrite (Hl _ _ uid Hgr).
Qed.

(** Deleting a group does not unlink its members: they keep being
    reported as linked to it, although the group is gone. *)
Theorem deleted_group_stays_linked (uc : userCache) (ret : userRefreshResult) (group : UserGroupDetail) (uid : string) :
  GValid group = false -> GID group <> "" ->
  let uc' := (handleGroup (uc, ret) group).1 in
  IsUserInGroup uc' uid (GID group) = false /\ GetUserLinkGroupIds uc' uid = GetUserLinkGroupIds uc uid.
Proof.
  intros Hv Hg. cbv zeta. unfold handleGroup. rewrite Hv. cbn [negb fst]. split; [|done].
  unfold IsUserInGroup, GetGroup. rewrite decide_False by done. cbn [set_groups groups]. by rewrite lookup_delete_eq.
Qed.

(** An update applies every row, and does not panic when the owner of each
    sub account in it is known: a valid main account of the same update, or one
    cached and not touched by it.  Afterwards the table holds the valid
    accounts, and the administrator, under their ids. *)
Theorem user_update_applies_rows (uc : userCache) (us : list User) (gs : list UserGroupDetail) :
  NoDup (UID <$> us) -> Forall known_role us ->
  (forall u, u ∈ us -> UType u = SubAccountUserRole ->
     (exists o, o ∈ us /\ UID o = UOwner u /\ UType o = OwnerUserRole /\ UValid o = true) \/
     (is_Some (users uc !! UOwner u) /\ UOwner u ∉ UID <$> us)) ->
  exists times st', setUserAndGroups uc us gs = Ret (times, st') /\
    (forall u, u ∈ us -> users st'.1 !! UID u = row_value u) /\
    (forall id, id ∉ UID <$> us -> users st'.1 !! id = users uc !! id).
Proof.
  intros Hnd Hroles Howner. unfold setUserAndGroups, handlerUserCacheUpdate.
  set (st0 := (uc, mkRefresh 0 0 0 0 0 0)).
  destruct (handleUsers_returns is_owner_row us st0) as [st1 H1].
  { intros u st' us1 us2 _ _ Hu%bool_decide_eq_true _ Hs. rewrite Hu in Hs. discriminate. }
  destruct (handleUsers_users _ _ _ _ H1) as (Hu1 & _). cbn [fst st0] in Hu1.
  assert (forall u m, u ∈ us -> foldl (pass is_sub_row) m us !! UID u
      = if bool_decide (UType u = AdminUserRole) || is_sub_row u then row_value u else m !! UID u) as Hsub
    by (intros; by apply passes_row).
  destruct (handleUsers_returns is_sub_row us st1) as [st2 H2].
  { intros u st' us1 us2 He Hst Hu%bool_decide_eq_true _ _. destruct (handleUsers_users _ _ _ _ Hst) as (-> & _).
    assert (u ∈ us) as Hin by (rewrite He; set_solver). rewrite Hu1.
    destruct (Howner u Hin Hu) as [(o & Ho & Hoid & Hot & Hov)|[Hs Hno]].
    - rewrite <- Hoid. destruct (decide (UID o ∈ UID <$> us1)) as [(o' & He' & Ho')%list_elem_of_fmap|Hn].
      + assert (o' = o) as ->.
        { apply (NoDup_same_id us); [done|by rewrite He; set_solver|done|done]. }
        rewrite passes_row; [|rewrite He, fmap_app in Hnd; by apply NoDup_app in Hnd as [? _]|done].
        unfold is_sub_row. rewrite Hot. cbn. rewrite passes_row by done. unfold is_owner_row, row_value. rewrite Hot, Hov. by eexists.
      + rewrite passes_other by done. rewrite passes_row by done. unfold is_owner_row, row_value. rewrite Hot, Hov. by eexists.
    - rewrite !passes_other; [done|done|]. intros Hin'. apply Hno. rewrite He, fmap_app. set_solver. }
  destruct (handleUsers_users _ _ _ _ H2) as (Hu2 & _). cbn [mbind outcome_bind fst]. rewrite H1. cbn [mbind outcome_bind]. rewrite H2. cbn.
  do 2 eexists. split; [reflexivity|]. destruct (foldl_handleGroup_users gs st2) as [Hg _]. cbn. rewrite Hg, Hu2, Hu1. split.
  - intros u Hu. rewrite Hsub by done. rewrite passes_row by done.
    rewrite Forall_forall in Hroles. unfold is_sub_row, is_owner_row. destruct (Hroles u Hu) as [->|[->| ->]]; done.
  - intros id Hid. by rewrite !passes_other.
Qed.

Lemma handleUser_panics filter st u w : handleUser filter st u = Panics w -> w = NilDereference.
Proof. destruct st as [uc ret]. unfold handleUser. repeat case_match; congruence. Qed.

Lemma handleUsers_panics filter us st w : handleUsers filter st us = Panics w -> w = NilDereference.
Proof.
  revert st. induction us as [|u us IH]; intros st; cbn [handleUsers]; [done|].
  destruct (handleUser filter st u) eqn:Hu; cbn; [apply IH|]. intros [= <-]. by eapply handleUser_panics.
Qed.

Lemma handleUsers_app filter us us' st : handleUsers filter st (us ++ us') = (handleUsers filter st us ≫= fun st' => handleUsers filter st' us').
Proof.
  revert st. induction us as [|u us IH]; intros st; [done|]. cbn [handleUsers app].
  destruct (handleUser filter st u); [|done]. apply IH.
Qed.

(** When a main account and one of its sub accounts are deleted in the same
    fetch, the update panics: the owner is removed from the table first, and
    the sub account's owner is then dereferenced without having been found. *)
Theorem owner_and_sub_deleted_together_panics (uc : userCache) (us : list User) (gs : list UserGroupDetail) (o s : User) :
  NoDup (UID <$> us) -> o ∈ us -> s ∈ us ->
  UType o = OwnerUserRole -> UValid o = false -> UType s = SubAccountUserRole -> UOwner s = UID o ->
  setUserAndGroups uc us gs = Panics NilDereference.
Proof.
  intros Hnd Ho Hs Hot Hov Hst Hso. unfold setUserAndGroups, handlerUserCacheUpdate.
  set (st0 := (uc, mkRefresh 0 0 0 0 0 0)).
  destruct (handleUsers is_owner_row st0 us) as [st1|w] eqn:H1; [|by apply handleUsers_panics in H1 as ->].
  destruct (handleUsers_users _ _ _ _ H1) as (Hu1 & _). cbn [mbind outcome_bind fst st0].
  destruct (list_elem_of_split _ _ Hs) as (us1 & us2 & He). rewrite He, handleUsers_app.
  destruct (handleUsers is_sub_row st1 us1) as [st2|w] eqn:H2; [|by apply handleUsers_panics in H2 as ->].
  destruct (handleUsers_users _ _ _ _ H2) as (Hu2 & _).
  assert (users st2.1 !! UOwner s = None) as Hnone.
  { rewrite Hu2, Hu1, Hso. assert (foldl (pass is_owner_row) (users uc) us !! UID o = None) as Hn.
    { rewrite passes_row by done. unfold is_owner_row, row_value. by rewrite Hot, Hov. }
    destruct (decide (UID o ∈ UID <$> us1)) as [(o' & He' & Ho')%list_elem_of_fmap|]; [|by rewrite passes_other].
    assert (o' = o) as -> by (apply (NoDup_same_id us); [done|by rewrite He; set_solver|done|done]).
    rewrite passes_row; [|rewrite He, fmap_app in Hnd; by apply NoDup_app in Hnd as [? _]|done].
    unfold is_sub_row. by rewrite Hot. }
  cbn [mbind outcome_bind handleUsers]. destruct st2 as [uc2 ret2]. unfold handleUser, is_sub_row, ownerSupplier. cbn [fst] in Hnone. cbn [set_users users].
  rewrite Hst, Hnone, bool_decide_true by done. cbn. by destruct (UValid s).
Qed.

(** ** Witnesses *)

Definition demo_user (id name owner : string) (type : Z) (valid : bool) : User :=
  mkUser id name "" owner "" "" "" type ("token-" +:+ id) true valid "" 100 100.
Definition demo_group (id : string) (valid : bool) (members : gset string) : UserGroupDetail :=
  mkGroup id id "u-owner" ("token-" +:+ id) true valid "" 100 100 members.
Definition demo_accounts : list User := [demo_user "u-owner" "polaris" "" 20 true; demo_user "u-sub" "dev" "u-owner" 50 true].
Definition demo_user_cache : outcome userCache :=
  user_update newUserCache (Some 100) (Some demo_accounts) (Some [demo_group "g1" true {["u-sub"]}]).

Lemma membership_agrees_witness :
  exists uc, demo_user_cache = Ret uc /\ IsUserInGroup uc "u-sub" "g1" = true /\ "g1" ∈ GetUserLinkGroupIds uc "u-sub".
Proof.
  destruct demo_user_cache as [uc|] eqn:Hu; [|by vm_compute in Hu]. exists uc. split; [done|].
  assert (user_reachable (∅ ∪ deleted_groups [demo_group "g1" true {["u-sub"]}]) uc) as Hr.
  { eapply ur_update; [apply ur_new| |exact Hu]. split; [set_solver|done]. }
  assert (is_Some (groups uc !! "g1") /\ IsUserInGroup uc "u-sub" "g1" = true) as [Hs Hi].
  { vm_compute in Hu. injection Hu as <-. split; [by eexists|reflexivity]. }
  split; [done|]. by apply (membership_agrees _ uc "u-sub" "g1" Hr).
Defined.

Lemma deleted_group_stays_linked_witness :
  IsUserInGroup (handleGroup (newUserCache, mkRefresh 0 0 0 0 0 0) (demo_group "g1" false {["u-sub"]})).1 "u-sub" "g1" = false.
Proof. apply (deleted_group_stays_linked newUserCache (mkRefresh 0 0 0 0 0 0) (demo_group "g1" false {["u-sub"]}) "u-sub"); done. Defined.

Lemma user_update_applies_rows_witness :
  exists times st', setUserAndGroups newUserCache demo_accounts [] = Ret (times, st') /\
    users st'.1 !! "u-sub" = Some (demo_user "u-sub" "dev" "u-owner" 50 true).
Proof.
  destruct (user_update_applies_rows newUserCache demo_accounts []) as (times & st' & Hs & Hr & _).
  - by apply (bool_decide_eq_true_1 _).
  - repeat (apply Forall_cons_2; [unfold known_role; cbn; auto|]). apply Forall_nil_2.
  - intros u [->|[->|[]%not_elem_of_nil]%elem_of_cons]%elem_of_cons; [done|]. intros _. left.
    exists (demo_user "u-owner" "polaris" "" 20 true). split; [by left|done].
  - exists times, st'. split; [done|]. by apply (Hr (demo_user "u-sub" "dev" "u-owner" 50 true)); right; left.
Defined.

Lemma owner_and_sub_deleted_together_panics_witness :
  setUserAndGroups newUserCache [demo_user "u-sub" "dev" "u-owner" 50 false; demo_user "u-owner" "polaris" "" 20 false] [] = Panics NilDereference.
Proof.
  apply (owner_and_sub_deleted_together_panics _ _ _ (demo_user "u-owner" "polaris" "" 20 false) (demo_user "u-sub" "dev" "u-owner" 50 false)); try done.
  - by apply (bool_decide_eq_true_1 _).
  - set_solver.
  - set_solver.
Defined.
