(* ===== verification/StrategyCache.v ===== *)
(** * The cache of authorization strategies ([src/cache/strategy.go], [src/cache/strategy_bucket.go])

    A strategy lists principals (users and groups) and resources (namespaces,
    services and configuration groups).  The cache keeps the strategies by id,
    and five link tables: from each user, group and resource to the ids of the
    strategies that mention it.  [IsResourceEditable] is the decision whether a
    principal may change a resource. *)

From S2P Require Import Prelude GoStrings Hash Utils BaseCache UserCache.
From Stdlib Require Import ZArith Lia Ascii.
From stdpp Require Import base tactics list gmap strings pretty.

Open Scope Z_scope.

(** ** Data ([src/common/model/auth.go]) *)

Definition PrincipalUser : Z := 1.
Definition PrincipalGroup : Z := 2.
(** [apisecurity.ResourceType]. *)
Definition Namespaces : Z := 0.
Definition Services : Z := 1.
Definition ConfigGroups : Z := 2.

Record Principal := mkPrincipal { PrincipalID : string; PrincipalRole : Z }.
Record StrategyResource := mkResource { ResType : Z; ResID : string }.
Record StrategyDetail := mkStrategy {
  SID : string;
  SName : string;
  SAction : string;
  SComment : string;
  Principals : list Principal;
  SDefault : bool;
  SOwner : string;
  Resources : list StrategyResource;
  SValid : bool;
  SRevision : string;
  SCreateTime : Z;
  SModifyTime : Z }.
#[export] Instance Principal_eq_dec : EqDecision Principal.
Proof. solve_decision. Defined.

Record StrategyDetailCache := mkCached {
  detail : StrategyDetail;
  UserPrincipal : gmap string Principal;
  GroupPrincipal : gmap string Principal }.

(** ** The buckets ([strategy_bucket.go]) *)

Abbreviation links := (gmap string (gset string)).

Definition link_save (s : links) (linkId strategyId : string) : links :=
  let s := match s !! linkId with Some _ => s | None => <[linkId := ∅]> s end in
  alter (fun ids => {[strategyId]} ∪ ids) linkId s.

Definition link_delete (s : links) (linkId strategyID : string) : links :=
  match s !! linkId with
  | None => s
  | Some v =>
      let v := v ∖ {[strategyID]} in
      if decide (v = ∅) then delete linkId (<[linkId := v]> s) else <[linkId := v]> s
  end.

Definition link_deleteAll (s : links) (linkId : string) : links := delete linkId s.

Definition link_get (s : links) (key : string) : list string * bool :=
  match s !! key with None => ([], false) | Some val => (elements val, true) end.

(** ** The cache *)

(** The five link tables. *)
Inductive kind := KUser | KGroup | KNamespace | KService | KConfigGroup.
#[export] Instance kind_eq_dec : EqDecision kind.
Proof. solve_decision. Defined.

Record strategyCache := mkSC {
  sbase : baseCache;
  strategys : gmap string StrategyDetailCache;
  uid2Strategy : links;
  groupid2Strategy : links;
  namespace2Strategy : links;
  service2Strategy : links;
  configGroup2Strategy : links }.

Definition newStrategyCache : strategyCache := mkSC newBaseCache ∅ ∅ ∅ ∅ ∅ ∅.

Definition table (sc : strategyCache) (k : kind) : links :=
  match k with
  | KUser => uid2Strategy sc
  | KGroup => groupid2Strategy sc
  | KNamespace => namespace2Strategy sc
  | KService => service2Strategy sc
  | KConfigGroup => configGroup2Strategy sc
  end.
Definition set_table (sc : strategyCache) (k : kind) (m : links) : strategyCache :=
  let f j := if decide (j = k) then m else table sc j in
  mkSC (sbase sc) (strategys sc) (f KUser) (f KGroup) (f KNamespace) (f KService) (f KConfigGroup).
Definition set_strategys (sc : strategyCache) m :=
  mkSC (sbase sc) m (uid2Strategy sc) (groupid2Strategy sc) (namespace2Strategy sc) (service2Strategy sc) (configGroup2Strategy sc).
Definition set_sbase (sc : strategyCache) b :=
  mkSC b (strategys sc) (uid2Strategy sc) (groupid2Strategy sc) (namespace2Strategy sc) (service2Strategy sc) (configGroup2Strategy sc).

Definition StrategyRuleName : string := "strategyRule".

Definition save_link (sc : strategyCache) (k : kind) (linkId strategyId : string) : strategyCache :=
  set_table sc k (link_save (table sc k) linkId strategyId).
Definition delete_link (sc : strategyCache) (k : kind) (linkId strategyId : string) : strategyCache :=
  set_table sc k (link_delete (table sc k) linkId strategyId).

(** ** Updating *)

Definition buildEnchanceStrategyDetail (strategy : StrategyDetail) : StrategyDetailCache :=
  let step (acc : gmap string Principal * gmap string Principal) (p : Principal) :=
    if decide (PrincipalRole p = PrincipalUser) then (<[PrincipalID p := p]> acc.1, acc.2)
    else (acc.1, <[PrincipalID p := p]> acc.2) in
  let '(users, groups) := foldl step (∅, ∅) (Principals strategy) in
  mkCached strategy users groups.

(** The switch of [operateLink]; other types are ignored. *)
Definition operateLink (sc : strategyCache) (resType : Z) (resId strategyId : string) (remove : bool) : strategyCache :=
  let op k := if remove then delete_link sc k resId strategyId else save_link sc k resId strategyId in
  if decide (resType = Namespaces) then op KNamespace
  else if decide (resType = Services) then op KService
  else if decide (resType = ConfigGroups) then op KConfigGroup
  else sc.

(** [fmt.Sprintf("%d_%s", n, s)]. *)
Definition item_key (n : Z) (s : string) : string := pretty n +:+ "_" +:+ s.
Definition resource_key (r : StrategyResource) : string := item_key (ResType r) (ResID r).
Definition principal_key (p : Principal) : string := item_key (PrincipalRole p) (PrincipalID p).

(** What the old list had and the new one does not. *)
Definition dropped {A} (key : A -> string) (olds news : list A) : list A :=
  filter (fun item => key item ∉ key <$> news) olds.

Definition handleResources (sc : strategyCache) (rule : StrategyDetail) : strategyCache :=
  let addRes := Resources rule in
  let sc := match strategys sc !! SID rule with
            | None => sc
            | Some oldRule =>
                let delRes := dropped resource_key (Resources (detail oldRule)) addRes in
                foldl (fun sc r => operateLink sc (ResType r) (ResID r) (SID rule) true) sc delRes
            end in
  foldl (fun sc r => operateLink sc (ResType r) (ResID r) (SID rule) (negb (SValid rule))) sc addRes.

Definition handlerResourceStrategy (sc : strategyCache) (strategies : list StrategyDetail) : strategyCache :=
  foldl handleResources sc strategies.

Definition removePrincipalLink (sc : strategyCache) (principal : Principal) (rule : StrategyDetail) : strategyCache :=
  if decide (PrincipalRole principal = PrincipalUser) then delete_link sc KUser (PrincipalID principal) (SID rule)
  else delete_link sc KGroup (PrincipalID principal) (SID rule).
Definition addPrincipalLink (sc : strategyCache) (principal : Principal) (rule : StrategyDetail) : strategyCache :=
  if decide (PrincipalRole principal = PrincipalUser) then save_link sc KUser (PrincipalID principal) (SID rule)
  else save_link sc KGroup (PrincipalID principal) (SID rule).

Definition handlePrincipals (sc : strategyCache) (rule : StrategyDetail) : strategyCache :=
  let principals := Principals rule in
  let sc := match strategys sc !! SID rule with
            | None => sc
            | Some oldRule =>
                let delMembers := dropped principal_key (Principals (detail oldRule)) principals in
                foldl (fun sc p => removePrincipalLink sc p rule) sc delMembers
            end in
  if SValid rule then foldl (fun sc p => addPrincipalLink sc p rule) sc principals
  else foldl (fun sc p => removePrincipalLink sc p rule) sc principals.

Definition handlerPrincipalStrategy (sc : strategyCache) (strategies : list StrategyDetail) : strategyCache :=
  foldl handlePrincipals sc strategies.

(** The loop of [setStrategys]: the cache, [add], [update] and [remove]. *)
Definition storeStrategy (st : strategyCache * (Z * Z * Z)) (rule : StrategyDetail) : strategyCache * (Z * Z * Z) :=
  let '(sc, (add, update, remove)) := st in
  if negb (SValid rule) then (set_strategys sc (delete (SID rule) (strategys sc)), (add, update, remove + 1))
  else
    let counts := match strategys sc !! SID rule with
                  | None => (add + 1, update, remove)
                  | Some _ => (add, update + 1, remove)
                  end in
    (set_strategys sc (<[SID rule := buildEnchanceStrategyDetail rule]> (strategys sc)), counts).

Definition setStrategys (sc : strategyCache) (strategies : list StrategyDetail) :
    strategyCache * gmap string Z * (Z * Z * Z) :=
  let sc1 := handlerResourceStrategy sc strategies in
  let sc2 := handlerPrincipalStrategy sc1 strategies in
  let lastMtime := maxMtime (Unix (LastMtime (sbase sc) StrategyRuleName)) (SModifyTime <$> strategies) in
  let '(sc3, counts) := foldl storeStrategy (sc2, (0, 0, 0)) strategies in
  (sc3, {[StrategyRuleName := FromUnix lastMtime]}, counts).

Definition strategy_realUpdate (sc : strategyCache) (answer : option (list StrategyDetail)) :
    strategyCache * option (gmap string Z) :=
  match answer with
  | None => (sc, None)
  | Some strategies => let '(sc', lastMtimes, _) := setStrategys sc strategies in (sc', Some lastMtimes)
  end.

Definition strategy_update (sc : strategyCache) (storeTime : option Z) (answer : option (list StrategyDetail)) : strategyCache :=
  let '(sc', executed) := strategy_realUpdate sc answer in
  set_sbase sc' (doCacheUpdate (sbase sc) storeTime executed).
(** Its error is the fetch's. *)
Definition ForceSyncStrategy2Cache (sc : strategyCache) (storeTime : option Z) (answer : option (list StrategyDetail)) :
    strategyCache * bool :=
  (strategy_update sc storeTime answer, bool_decide (answer <> None)).

Definition strategy_clear (sc : strategyCache) : strategyCache := mkSC (base_clear (sbase sc)) ∅ ∅ ∅ ∅ ∅ ∅.

(** ** Queries *)

Definition lists_principal (rule : StrategyDetailCache) (principal : Principal) : bool :=
  if decide (PrincipalRole principal = PrincipalUser) then bool_decide (is_Some (UserPrincipal rule !! PrincipalID principal))
  else bool_decide (is_Some (GroupPrincipal rule !! PrincipalID principal)).

Definition checkResourceEditable (sc : strategyCache) (strategIds : list string) (principal : Principal) (mustCheck : bool) : bool :=
  if bool_decide (strategIds = []) && negb mustCheck then true
  else foldl (fun editable id => match strategys sc !! id with
                                 | None => editable
                                 | Some rule => editable || lists_principal rule principal
                                 end) false strategIds.

Definition kind_of (resType : Z) : option kind :=
  if decide (resType = Namespaces) then Some KNamespace
  else if decide (resType = Services) then Some KService
  else if decide (resType = ConfigGroups) then Some KConfigGroup
  else None.

Definition IsResourceEditable (sc : strategyCache) (uc : userCache) (principal : Principal) (resType : Z) (resId : string) : bool :=
  let '(val, ok, valAll) := match kind_of resType with
                            | None => ([], false, [])
                            | Some k => (link_get (table sc k) resId, (link_get (table sc k) "*").1)
                            end in
  if negb ok then true
  else
    let principals := principal ::
      if decide (PrincipalRole principal = PrincipalUser)
      then (fun g => mkPrincipal g PrincipalGroup) <$> GetUserLinkGroupIds uc (PrincipalID principal)
      else [] in
    existsb (fun item => checkResourceEditable sc valAll item true || checkResourceEditable sc val item false) principals.

Definition getStrategyDetails (sc : strategyCache) (uid gid : string) : list StrategyDetail :=
  let '(strategyIds, ok) := if decide (uid <> "") then link_get (uid2Strategy sc) uid
                            else if decide (gid <> "") then link_get (groupid2Strategy sc) gid
                            else ([], true) in
  if negb ok then [] else omap (fun id => detail <$> strategys sc !! id) strategyIds.
Definition GetStrategyDetailsByUID (sc : strategyCache) (uid : string) : list StrategyDetail := getStrategyDetails sc uid "".
Definition GetStrategyDetailsByGroupID (sc : strategyCache) (groupid : string) : list StrategyDetail := getStrategyDetails sc "" groupid.

Definition hasLinkRule (val : list string) : bool := bool_decide (length val <> 0%nat).
Definition IsResourceLinkStrategy (sc : strategyCache) (resType : Z) (resId : string) : bool :=
  match kind_of resType with
  | None => true
  | Some k => let '(val, ok) := link_get (table sc k) resId in ok && hasLinkRule val
  end.

(** ** Lemmas *)

Definition linked (sc : strategyCache) (k : kind) (key sid : string) : Prop := sid ∈ default ∅ (table sc k !! key).
Definition nonempty (sc : strategyCache) : Prop := forall k key s, table sc k !! key = Some s -> s <> ∅.

Lemma table_set sc k m j : table (set_table sc k m) j = if decide (j = k) then m else table sc j.
Proof. by destruct j. Qed.

Lemma link_save_spec (s : links) l id key : default ∅ (link_save s l id !! key) = if decide (key = l) then {[id]} ∪ default ∅ (s !! key) else default ∅ (s !! key).
Proof.
  unfold link_save. case_decide as Hd; subst.
  - rewrite lookup_alter_eq. destruct (s !! l) eqn:Hl; [by rewrite Hl|]. by rewrite lookup_insert_eq.
  - rewrite lookup_alter_ne by done. destruct (s !! l); [done|]. by rewrite lookup_insert_ne.
Qed.

Lemma link_delete_spec (s : links) l id key : default ∅ (link_delete s l id !! key) = if decide (key = l) then default ∅ (s !! key) ∖ {[id]} else default ∅ (s !! key).
Proof.
  unfold link_delete. destruct (s !! l) as [v|] eqn:Hl; [case_decide as He|]; case_decide as Hd; subst;
    rewrite ?lookup_delete_eq, ?lookup_delete_ne, ?lookup_insert_eq, ?lookup_insert_ne by done; rewrite ?Hl; cbn; set_solver.
Qed.

Lemma linked_save sc k l id k' key id' :
  linked (save_link sc k l id) k' key id' <-> linked sc k' key id' \/ (k' = k /\ key = l /\ id' = id).
Proof.
  unfold linked, save_link. rewrite table_set. case_decide as Hk; [subst|naive_solver].
  rewrite link_save_spec. case_decide; set_solver.
Qed.

Lemma linked_delete sc k l id k' key id' :
  linked (delete_link sc k l id) k' key id' <-> linked sc k' key id' /\ ~ (k' = k /\ key = l /\ id' = id).
Proof.
  unfold linked, delete_link. rewrite table_set. case_decide as Hk; [subst|naive_solver].
  rewrite link_delete_spec. case_decide; set_solver.
Qed.

Lemma nonempty_save sc k l id : nonempty sc -> nonempty (save_link sc k l id).
Proof.
  intros Hn k' key s. unfold save_link. rewrite table_set. case_decide as Hk; [subst|apply Hn].
  intros Hs. pose proof (link_save_spec (table sc k) l id key) as Hl. rewrite Hs in Hl. cbn in Hl.
  revert Hl. case_decide as Hne; [set_solver|intros Hl].
  unfold link_save in Hs. rewrite lookup_alter_ne in Hs by done.
  destruct (table sc k !! l); [|rewrite lookup_insert_ne in Hs by done]; by apply (Hn _ _ _ Hs).
Qed.

Lemma nonempty_delete sc k l id : nonempty sc -> nonempty (delete_link sc k l id).
Proof.
  intros Hn k' key s. unfold delete_link. rewrite table_set. case_decide as Hk; [subst|apply Hn].
  unfold link_delete. destruct (table sc k !! l); [|apply Hn]. case_decide.
  - intros [Hne Hs]%lookup_delete_Some. rewrite lookup_insert_ne in Hs by done. by apply Hn in Hs.
  - destruct (decide (key = l)) as [->|]; [rewrite lookup_insert_eq; by intros [= <-]|].
    rewrite lookup_insert_ne by done. apply Hn.
Qed.

(** What a strategy mentions, by table. *)
Definition res_items (rs : list StrategyResource) : list (kind * string) :=
  omap (fun r => (fun k => (k, ResID r)) <$> kind_of (ResType r)) rs.
Definition resource_items (d : StrategyDetail) : list (kind * string) := res_items (Resources d).
Definition principal_item (p : Principal) : kind * string :=
  (if decide (PrincipalRole p = PrincipalUser) then KUser else KGroup, PrincipalID p).
Definition principal_items (d : StrategyDetail) : list (kind * string) := principal_item <$> Principals d.
Definition of_resource (k : kind) : bool := match k with KUser | KGroup => false | _ => true end.
Definition mentions (d : StrategyDetail) (k : kind) (key : string) : Prop :=
  (k, key) ∈ resource_items d ++ principal_items d.

Definition del_all (sc : strategyCache) (sid : string) (l : list (kind * string)) : strategyCache :=
  foldl (fun sc i => delete_link sc i.1 i.2 sid) sc l.
Definition add_all (sc : strategyCache) (sid : string) (l : list (kind * string)) : strategyCache :=
  foldl (fun sc i => save_link sc i.1 i.2 sid) sc l.

Lemma del_all_spec sc sid l :
  (forall k key id, linked (del_all sc sid l) k key id <-> linked sc k key id /\ ~ ((k, key) ∈ l /\ id = sid)) /\
  strategys (del_all sc sid l) = strategys sc /\ sbase (del_all sc sid l) = sbase sc /\ (nonempty sc -> nonempty (del_all sc sid l)).
Proof.
  revert sc. induction l as [|[k0 key0] l IH]; intros sc; cbn [del_all foldl]; [set_solver|].
  destruct (IH (delete_link sc k0 key0 sid)) as (H1 & H2 & H3 & H4). split; [|split_and!].
  - intros k key id. etrans; [apply H1|]. rewrite linked_delete, elem_of_cons. cbn. naive_solver.
  - etrans; [apply H2|done].
  - etrans; [apply H3|done].
  - intros Hn. apply H4. by apply nonempty_delete.
Qed.

Lemma add_all_spec sc sid l :
  (forall k key id, linked (add_all sc sid l) k key id <-> linked sc k key id \/ ((k, key) ∈ l /\ id = sid)) /\
  strategys (add_all sc sid l) = strategys sc /\ sbase (add_all sc sid l) = sbase sc /\ (nonempty sc -> nonempty (add_all sc sid l)).
Proof.
  revert sc. induction l as [|[k0 key0] l IH]; intros sc; cbn [add_all foldl]; [set_solver|].
  destruct (IH (save_link sc k0 key0 sid)) as (H1 & H2 & H3 & H4). split; [|split_and!].
  - intros k key id. etrans; [apply H1|]. rewrite linked_save, elem_of_cons. cbn. naive_solver.
  - etrans; [apply H2|done].
  - etrans; [apply H3|done].
  - intros Hn. apply H4. by apply nonempty_save.
Qed.

Lemma item_key_inj n s n' s' : item_key n s = item_key n' s' -> n = n' /\ s = s'.
Proof.
  intros He. change (pretty n +:+ String "_" s = pretty n' +:+ String "_" s') in He.
  assert (forall z, occurs "_" (pretty z) = false) as Hp by (intros z; by apply pretty_Z_occurs).
  pose proof (f_equal (Split "_") He) as Hs. rewrite !(Split_cons "_") in Hs by apply Hp.
  injection Hs as Hn _. apply (inj pretty) in Hn as ->. split; [done|].
  apply (f_equal (sdrop (String.length (pretty n')))) in He. rewrite !sdrop_app in He by done. by injection He.
Qed.

(** The resource loops are loops over items. *)
Lemma operateLinks_items sc rs sid remove :
  foldl (fun sc r => operateLink sc (ResType r) (ResID r) sid remove) sc rs =
  (if remove then del_all else add_all) sc sid (res_items rs).
Proof.
  revert sc. induction rs as [|r rs IH]; intros sc; [by destruct remove|]. cbn [foldl]. rewrite IH. cbn [res_items omap list_omap].
  unfold operateLink, kind_of. repeat case_decide; by destruct remove.
Qed.

Lemma principal_del_items sc ps rule :
  foldl (fun sc p => removePrincipalLink sc p rule) sc ps = del_all sc (SID rule) (principal_item <$> ps).
Proof.
  revert sc. induction ps as [|p ps IH]; intros sc; [done|]. cbn [foldl]. rewrite IH.
  unfold del_all. cbn [fmap list_fmap foldl]. f_equal. unfold removePrincipalLink, principal_item. by case_decide.
Qed.
Lemma principal_add_items sc ps rule :
  foldl (fun sc p => addPrincipalLink sc p rule) sc ps = add_all sc (SID rule) (principal_item <$> ps).
Proof.
  revert sc. induction ps as [|p ps IH]; intros sc; [done|]. cbn [foldl]. rewrite IH.
  unfold add_all. cbn [fmap list_fmap foldl]. f_equal. unfold addPrincipalLink, principal_item. by case_decide.
Qed.

Definition roles_ok (d : StrategyDetail) : Prop :=
  Forall (fun p => PrincipalRole p = PrincipalUser \/ PrincipalRole p = PrincipalGroup) (Principals d).

Lemma kind_of_inj t t' k : kind_of t = Some k -> kind_of t' = Some k -> t = t'.
Proof. unfold kind_of. repeat case_decide; congruence. Qed.

Lemma resource_item_elem rs k key : (k, key) ∈ res_items rs <->
  exists r, r ∈ rs /\ kind_of (ResType r) = Some k /\ ResID r = key.
Proof.
  unfold res_items. rewrite list_elem_of_omap. setoid_rewrite fmap_Some. naive_solver.
Qed.

(** An item of the old list is dropped, or in the new list. *)
Lemma dropped_resources olds news k key :
  (k, key) ∈ res_items olds ->
  (k, key) ∈ res_items (dropped resource_key olds news) \/
  (k, key) ∈ res_items news.
Proof.
  rewrite !resource_item_elem. intros (r & Hr & Hk & Hid). destruct (decide (resource_key r ∈ resource_key <$> news)) as [Hin|Hn].
  - right. apply list_elem_of_fmap in Hin as (r' & He & Hr'). apply item_key_inj in He as [Ht Hi].
    exists r'. split_and!; [done|by rewrite <- Ht|by rewrite <- Hi].
  - left. exists r. split; [|done]. unfold dropped. apply list_elem_of_filter. done.
Qed.

Lemma dropped_principals olds news i :
  i ∈ principal_item <$> olds -> i ∈ principal_item <$> dropped principal_key olds news \/ i ∈ principal_item <$> news.
Proof.
  intros (p & -> & Hp)%list_elem_of_fmap. destruct (decide (principal_key p ∈ principal_key <$> news)) as [Hin|Hn].
  - right. apply list_elem_of_fmap in Hin as (p' & He & Hp'). apply item_key_inj in He as [Ht Hi].
    apply list_elem_of_fmap. exists p'. split; [|done]. unfold principal_item. by rewrite Ht, Hi.
  - left. apply list_elem_of_fmap_2, list_elem_of_filter. done.
Qed.

Lemma dropped_resource_kept olds news k key :
  (k, key) ∈ res_items (dropped resource_key olds news) ->
  (k, key) ∉ res_items news.
Proof.
  rewrite !resource_item_elem. intros (r & [Hn Hr]%list_elem_of_filter & Hk & Hid) (r' & Hr' & Hk' & Hid').
  apply Hn, list_elem_of_fmap. exists r'. split; [|done]. unfold resource_key. by rewrite (kind_of_inj _ _ _ Hk Hk'), Hid, Hid'.
Qed.

(** One side of a rule: drop, then add when valid and delete otherwise. *)
Definition relink (sc : strategyCache) (sid : string) (drops news : list (kind * string)) (valid : bool) : strategyCache :=
  (if valid then add_all else del_all) (del_all sc sid drops) sid news.

Lemma relink_spec sc sid drops news valid (mine : kind -> bool) :
  (forall k key, (k, key) ∈ drops ++ news -> mine k = true) ->
  (forall k key, mine k = true -> linked sc k key sid -> (k, key) ∈ drops \/ (k, key) ∈ news) ->
  (forall k key id, linked (relink sc sid drops news valid) k key id <->
     if decide (id = sid /\ mine k = true) then valid = true /\ (k, key) ∈ news else linked sc k key id) /\
  strategys (relink sc sid drops news valid) = strategys sc /\ sbase (relink sc sid drops news valid) = sbase sc /\
  (nonempty sc -> nonempty (relink sc sid drops news valid)).
Proof.
  intros Hmine Hold. unfold relink. destruct (del_all_spec sc sid drops) as (D1 & D2 & D3 & D4).
  destruct valid.
  - destruct (add_all_spec (del_all sc sid drops) sid news) as (A1 & A2 & A3 & A4). split_and!; [|congruence..|tauto].
    intros k key id. rewrite A1, D1. case_decide as Hd; [|set_solver]. destruct Hd as [-> Hk].
    split; [|tauto]. intros [[Hl Hnd]|[? _]]; [|done]. split; [done|]. destruct (Hold k key Hk Hl); tauto.
  - destruct (del_all_spec (del_all sc sid drops) sid news) as (A1 & A2 & A3 & A4). split_and!; [|congruence..|tauto].
    intros k key id. rewrite A1, D1. case_decide as Hd; [|set_solver]. destruct Hd as [-> Hk].
    split; [|naive_solver]. intros [[Hl Hnd] Hnn]. destruct (Hold k key Hk Hl); tauto.
Qed.

(** *** The invariant: the links are the cached strategies' mentions *)

Definition cached_ok (id : string) (c : StrategyDetailCache) : Prop :=
  SID (detail c) = id /\ c = buildEnchanceStrategyDetail (detail c).
Definition link_of (m : gmap string StrategyDetailCache) (k : kind) (key id : string) : Prop :=
  exists c, m !! id = Some c /\ mentions (detail c) k key.

Record cache_inv (sc : strategyCache) : Prop := {
  sci_cached : map_Forall cached_ok (strategys sc);
  sci_links : forall k key id, linked sc k key id <-> link_of (strategys sc) k key id;
  sci_nonempty : nonempty sc }.

Lemma resource_item_kind d k key : (k, key) ∈ resource_items d -> of_resource k = true.
Proof.
  intros (r & _ & Hk & _)%resource_item_elem. unfold kind_of in Hk. repeat case_decide; by simplify_eq.
Qed.
Lemma principal_item_kind (ps : list Principal) k key : (k, key) ∈ principal_item <$> ps -> of_resource k = false.
Proof. intros (p & He & _)%list_elem_of_fmap. unfold principal_item in He. case_decide; by simplify_eq. Qed.

Lemma mentions_split d k key :
  mentions d k key <-> if of_resource k then (k, key) ∈ resource_items d else (k, key) ∈ principal_items d.
Proof.
  unfold mentions. rewrite elem_of_app. destruct (of_resource k) eqn:Hk.
  - split; [|by left]. intros [?|Hp]; [done|]. apply principal_item_kind in Hp. congruence.
  - split; [|by right]. intros [Hr|?]; [|done]. apply resource_item_kind in Hr. congruence.
Qed.

(** One side ([mine]) of one rule. *)
Definition handled (mine : kind -> bool) (sc sc' : strategyCache) (rule : StrategyDetail) : Prop :=
  (forall k key id, linked sc' k key id <->
     if decide (id = SID rule /\ mine k = true) then SValid rule = true /\ mentions rule k key else linked sc k key id) /\
  strategys sc' = strategys sc /\ sbase sc' = sbase sc /\ (nonempty sc -> nonempty sc').

(** The old links of a rule, on one side, are the cached ones. *)
Definition old_links (mine : kind -> bool) (sc : strategyCache) (id : string) : Prop :=
  forall k key, mine k = true -> linked sc k key id -> link_of (strategys sc) k key id.

Lemma handleResources_handled sc rule :
  old_links of_resource sc (SID rule) -> handled of_resource sc (handleResources sc rule) rule.
Proof.
  intros Hold. unfold handleResources.
  set (drops := match strategys sc !! SID rule with None => [] | Some o => res_items (dropped resource_key (Resources (detail o)) (Resources rule)) end).
  assert (foldl (fun sc r => operateLink sc (ResType r) (ResID r) (SID rule) (negb (SValid rule)))
    (match strategys sc !! SID rule with
     | None => sc
     | Some o => foldl (fun sc r => operateLink sc (ResType r) (ResID r) (SID rule) true) sc (dropped resource_key (Resources (detail o)) (Resources rule))
     end) (Resources rule) = relink sc (SID rule) drops (resource_items rule) (SValid rule)) as ->.
  { rewrite operateLinks_items. unfold relink, drops. destruct (strategys sc !! SID rule); rewrite ?operateLinks_items; by destruct (SValid rule). }
  destruct (relink_spec sc (SID rule) drops (resource_items rule) (SValid rule) of_resource) as (H1 & H2 & H3 & H4).
  - intros k key [Hd|Hn]%elem_of_app; [|by eapply resource_item_kind]. unfold drops in Hd.
    destruct (strategys sc !! SID rule); [|by apply not_elem_of_nil in Hd].
    by apply (resource_item_kind (mkStrategy "" "" "" "" [] false "" (dropped resource_key (Resources (detail s)) (Resources rule)) true "" 0 0) k key).
  - intros k key Hk Hl. destruct (Hold k key Hk Hl) as (c & Hc & Hm). unfold drops. rewrite Hc.
    apply mentions_split in Hm. rewrite Hk in Hm. by apply dropped_resources.
  - split; [|done]. intros k key id. rewrite H1. case_decide as Hd; [|done]. rewrite mentions_split. by rewrite (proj2 Hd).
Qed.

Definition of_principal (k : kind) : bool := negb (of_resource k).

Lemma handlePrincipals_handled sc rule :
  old_links of_principal sc (SID rule) -> handled of_principal sc (handlePrincipals sc rule) rule.
Proof.
  intros Hold. unfold handlePrincipals.
  set (drops := match strategys sc !! SID rule with None => [] | Some o => principal_item <$> dropped principal_key (Principals (detail o)) (Principals rule) end).
  match goal with |- handled _ _ ?x _ => assert (x = relink sc (SID rule) drops (principal_items rule) (SValid rule)) as -> end.
  { unfold relink, drops. rewrite principal_add_items, principal_del_items.
    destruct (strategys sc !! SID rule); rewrite ?principal_del_items; by destruct (SValid rule). }
  destruct (relink_spec sc (SID rule) drops (principal_items rule) (SValid rule) of_principal) as (H1 & H2 & H3 & H4).
  - intros k key [Hd|Hn]%elem_of_app; unfold of_principal.
    + unfold drops in Hd. destruct (strategys sc !! SID rule); [|by apply not_elem_of_nil in Hd].
      by rewrite (principal_item_kind _ _ _ Hd).
    + by rewrite (principal_item_kind _ _ _ Hn).
  - intros k key Hk Hl. destruct (Hold k key Hk Hl) as (c & Hc & Hm). unfold drops. rewrite Hc.
    apply mentions_split in Hm. unfold of_principal in Hk. destruct (of_resource k); [done|]. by apply dropped_principals.
  - split; [|done]. intros k key id. rewrite H1. case_decide as Hd; [|done]. rewrite mentions_split.
    destruct Hd as [_ Hk]. unfold of_principal in Hk. by destruct (of_resource k).
Qed.

(** A pass over the rows of an update. *)
Lemma pass_handled (mine : kind -> bool) (step : strategyCache -> StrategyDetail -> strategyCache) rules sc :
  (forall sc rule, old_links mine sc (SID rule) -> handled mine sc (step sc rule) rule) ->
  NoDup (SID <$> rules) -> (forall rule, rule ∈ rules -> old_links mine sc (SID rule)) ->
  let sc' := foldl step sc rules in
  (forall k key id, mine k = true -> id ∈ SID <$> rules ->
     linked sc' k key id <-> exists rule, rule ∈ rules /\ SID rule = id /\ SValid rule = true /\ mentions rule k key) /\
  (forall k key id, mine k = false \/ id ∉ SID <$> rules -> linked sc' k key id <-> linked sc k key id) /\
  strategys sc' = strategys sc /\ sbase sc' = sbase sc /\ (nonempty sc -> nonempty sc').
Proof.
  intros Hstep. revert sc. induction rules as [|rule rules IH]; intros sc Hnd Hold.
  { cbn. split_and!; try done. intros ? ? ? _ []%not_elem_of_nil. }
  rewrite fmap_cons, NoDup_cons in Hnd. destruct Hnd as [Hn Hnd]. cbn [foldl].
  destruct (Hstep sc rule (Hold _ (list_elem_of_here _ _))) as (S1 & S2 & S3 & S4).
  destruct (IH (step sc rule) Hnd) as (I1 & I2 & I3 & I4 & I5).
  { intros r Hr k key Hk Hl. unfold link_of. rewrite S2. apply (Hold r); [by right|done|].
    apply S1 in Hl. case_decide as Hd; [|done]. destruct Hd as [He _]. destruct Hn. rewrite <- He. by apply list_elem_of_fmap_2. }
  split_and!; [| |congruence..|tauto].
  - intros k key id Hk Hid. rewrite fmap_cons, elem_of_cons in Hid. destruct (decide (id = SID rule)) as [->|Hne].
    + rewrite (I2 k key (SID rule) (or_intror Hn)), S1, decide_True by done. split; [intros []; exists rule; split; [by left|done]|].
      intros (r & [->|Hr]%elem_of_cons & He & Hv & Hm); [done|]. destruct Hn. rewrite <- He. by apply list_elem_of_fmap_2.
    + destruct Hid as [?|Hid]; [done|]. rewrite (I1 k key id Hk Hid). split; intros (r & Hr & He & Hv & Hm).
      * exists r. split; [by right|done].
      * apply elem_of_cons in Hr as [->|Hr]; [by destruct Hne|]. by exists r.
  - intros k key id Hor. rewrite fmap_cons, not_elem_of_cons in Hor. rewrite I2 by tauto. rewrite S1.
    case_decide as Hd; [|done]. destruct Hd as [-> Hk]. destruct Hor as [?|[? _]]; [congruence|done].
Qed.

Definition rule_row (m : gmap string StrategyDetailCache) (rule : StrategyDetail) : gmap string StrategyDetailCache :=
  if SValid rule then <[SID rule := buildEnchanceStrategyDetail rule]> m else delete (SID rule) m.

Lemma storeStrategies_fields rules st :
  strategys (foldl storeStrategy st rules).1 = foldl rule_row (strategys st.1) rules /\
  (forall k, table (foldl storeStrategy st rules).1 k = table st.1 k) /\ sbase (foldl storeStrategy st rules).1 = sbase st.1.
Proof.
  revert st. induction rules as [|r rules IH]; intros [sc [[a u] d]]; [done|]. cbn [foldl].
  destruct (IH (storeStrategy (sc, (a, u, d)) r)) as (H1 & H2 & H3).
  assert (strategys (storeStrategy (sc, (a, u, d)) r).1 = rule_row (strategys sc) r /\
    (forall k, table (storeStrategy (sc, (a, u, d)) r).1 k = table sc k) /\ sbase (storeStrategy (sc, (a, u, d)) r).1 = sbase sc) as (S1 & S2 & S3).
  { unfold storeStrategy, rule_row. destruct (SValid r); cbn [negb fst]; split_and!; try done; by intros []. }
  rewrite H1, H3, S1, S3. split_and!; [done|intros k; by rewrite H2, S2|done].
Qed.

Lemma rule_rows_other rules m id : id ∉ SID <$> rules -> foldl rule_row m rules !! id = m !! id.
Proof.
  revert m. induction rules as [|r rules IH]; intros m Hid; [done|]. rewrite fmap_cons, not_elem_of_cons in Hid. destruct Hid.
  cbn [foldl]. rewrite IH by done. unfold rule_row. destruct (SValid r); by rewrite ?lookup_insert_ne, ?lookup_delete_ne.
Qed.

Lemma rule_rows_row rules m rule :
  NoDup (SID <$> rules) -> rule ∈ rules ->
  foldl rule_row m rules !! SID rule = if SValid rule then Some (buildEnchanceStrategyDetail rule) else None.
Proof.
  revert m. induction rules as [|r rules IH]; intros m Hnd Hr; [by apply not_elem_of_nil in Hr|].
  rewrite fmap_cons, NoDup_cons in Hnd. destruct Hnd as [Hn Hnd]. cbn [foldl].
  apply elem_of_cons in Hr as [->|Hr]; [|by apply IH].
  rewrite rule_rows_other by done. unfold rule_row. destruct (SValid r); by rewrite ?lookup_insert_eq, ?lookup_delete_eq.
Qed.

Lemma detail_build d : detail (buildEnchanceStrategyDetail d) = d.
Proof. unfold buildEnchanceStrategyDetail. by destruct (foldl _ _ _). Qed.

(** [setStrategys] keeps the invariant, and applies every row. *)
Lemma setStrategys_inv sc rules :
  NoDup (SID <$> rules) -> cache_inv sc ->
  let sc' := (setStrategys sc rules).1.1 in
  cache_inv sc' /\ strategys sc' = foldl rule_row (strategys sc) rules /\ sbase sc' = sbase sc.
Proof.
  intros Hnd [Hc Hl Hn]. unfold setStrategys, handlerResourceStrategy, handlerPrincipalStrategy.
  destruct (pass_handled of_resource handleResources rules sc handleResources_handled Hnd) as (R1 & R2 & R3 & R4 & R5).
  { intros r _ k key _ Hlk. by apply Hl. }
  set (sc1 := foldl handleResources sc rules) in *.
  destruct (pass_handled of_principal handlePrincipals rules sc1 handlePrincipals_handled Hnd) as (P1 & P2 & P3 & P4 & P5).
  { intros r _ k key Hk Hlk. unfold link_of. rewrite R3. apply Hl. apply R2; [|done]. left. unfold of_principal in Hk. by destruct (of_resource k). }
  set (sc2 := foldl handlePrincipals sc1 rules) in *.
  destruct (storeStrategies_fields rules (sc2, (0, 0, 0))) as (S1 & S2 & S3). cbn [fst] in S1, S2, S3.
  destruct (foldl storeStrategy (sc2, (0, 0, 0)) rules) as [sc3 counts]. cbn [fst] in *. rewrite P3, R3 in S1.
  assert (forall k key id, linked sc3 k key id <-> linked sc2 k key id) as S2' by (intros k key id; unfold linked; by rewrite S2).
  split; [|split; [done|congruence]]. split.
  - rewrite S1. intros id c Hid. destruct (decide (id ∈ SID <$> rules)) as [(r & -> & Hr)%list_elem_of_fmap|Hno].
    + rewrite rule_rows_row in Hid by done. destruct (SValid r); [|done]. injection Hid as <-. by split; rewrite detail_build.
    + rewrite rule_rows_other in Hid by done. by apply Hc.
  - intros k key id. rewrite S2', S1. unfold link_of.
    destruct (decide (id ∈ SID <$> rules)) as [Hin|Hno].
    + assert (linked sc2 k key id <-> exists rule, rule ∈ rules /\ SID rule = id /\ SValid rule = true /\ mentions rule k key) as ->.
      { destruct (of_resource k) eqn:Hk.
        - rewrite P2 by (left; unfold of_principal; by rewrite Hk). by apply R1.
        - apply P1; [unfold of_principal; by rewrite Hk|done]. }
      split.
      * intros (r & Hr & <- & Hv & Hm). exists (buildEnchanceStrategyDetail r). rewrite rule_rows_row, Hv, detail_build by done. done.
      * intros (c & Hlook & Hm). apply list_elem_of_fmap in Hin as (r & -> & Hr). rewrite rule_rows_row in Hlook by done.
        destruct (SValid r) eqn:Hv; [|done]. injection Hlook as <-. rewrite detail_build in Hm. by exists r.
    + rewrite P2, R2, rule_rows_other by auto. apply Hl.
  - intros k key s. rewrite S2. by apply P5, R5.
Qed.

Lemma newStrategyCache_inv : cache_inv newStrategyCache.
Proof.
  split; cbn; [apply map_Forall_empty| |].
  - intros k key id. unfold linked, link_of. assert (table newStrategyCache k = ∅) as -> by (by destruct k).
    rewrite !lookup_empty. cbn. split; [set_solver|by intros (c & [=] & _)].
  - intros k key s. assert (table newStrategyCache k = ∅) as -> by (by destruct k). by rewrite lookup_empty.
Qed.

(** *** The decision *)

Definition principal_kind (p : Principal) : kind := if decide (PrincipalRole p = PrincipalUser) then KUser else KGroup.

Lemma build_lists d p :
  lists_principal (buildEnchanceStrategyDetail d) p = true <-> mentions d (principal_kind p) (PrincipalID p).
Proof.
  rewrite mentions_split. unfold lists_principal, buildEnchanceStrategyDetail, principal_kind.
  match goal with |- context [foldl ?f (∅, ∅) _] => set (step := f) end.
  assert (forall l acc, let r := foldl step acc l in
    (is_Some (r.1 !! PrincipalID p) <-> is_Some (acc.1 !! PrincipalID p) \/ (KUser, PrincipalID p) ∈ principal_item <$> l) /\
    (is_Some (r.2 !! PrincipalID p) <-> is_Some (acc.2 !! PrincipalID p) \/ (KGroup, PrincipalID p) ∈ principal_item <$> l)) as Hstep.
  { induction l as [|q l IH]; intros [us gs]; [cbn; set_solver|]. cbn [foldl fmap list_fmap].
    rewrite !elem_of_cons. destruct (IH (step (us, gs) q)) as [I1 I2]. cbv zeta in *. rewrite I1, I2.
    unfold step, principal_item at 2 5.
    assert (forall k : kind, (k, PrincipalID p) = (k, PrincipalID q) <-> PrincipalID q = PrincipalID p) as Heq by (intros k; split; congruence).
    assert ((KUser, PrincipalID p) <> (KGroup, PrincipalID q)) by done. assert ((KGroup, PrincipalID p) <> (KUser, PrincipalID q)) by done.
    case_decide; cbn [fst snd]; rewrite lookup_insert_is_Some', Heq; split; tauto. }
  destruct (Hstep (Principals d) (∅, ∅)) as [H1 H2]. destruct (foldl step (∅, ∅) (Principals d)) as [us gs].
  cbn [fst snd UserPrincipal GroupPrincipal] in *. rewrite !lookup_empty in H1, H2.
  assert (~ is_Some (@None Principal)) as Hns by (by intros []).
  case_decide; rewrite bool_decide_eq_true; cbn [of_resource]; unfold principal_items; tauto.
Qed.

Lemma checkResourceEditable_spec sc ids p must :
  checkResourceEditable sc ids p must = true <->
  (ids = [] /\ must = false) \/ exists id c, id ∈ ids /\ strategys sc !! id = Some c /\ lists_principal c p = true.
Proof.
  unfold checkResourceEditable. destruct (bool_decide (ids = []) && negb must) eqn:Hb.
  { apply andb_true_iff in Hb as [?%bool_decide_eq_true ?%negb_true_iff]. naive_solver. }
  assert (~ (ids = [] /\ must = false)) as Hno by (intros [-> ->]; by rewrite bool_decide_true in Hb).
  match goal with |- foldl ?f _ _ = _ <-> _ => assert (forall b, foldl f b ids = true <-> b = true \/
    exists id c, id ∈ ids /\ strategys sc !! id = Some c /\ lists_principal c p = true) as Hf end.
  { clear. induction ids as [|i ids IH]; intros b; cbn [foldl]; [set_solver|]. rewrite IH. clear IH.
    assert ((exists id c, id ∈ i :: ids /\ strategys sc !! id = Some c /\ lists_principal c p = true) <->
      (exists c, strategys sc !! i = Some c /\ lists_principal c p = true) \/
      (exists id c, id ∈ ids /\ strategys sc !! id = Some c /\ lists_principal c p = true)) as ->.
    { split.
      - intros (id & c & [->|Hin]%elem_of_cons & Hc & Hp); [left; eauto|right; eauto].
      - intros [(c & Hc & Hp)|(id & c & Hin & Hc & Hp)]; [exists i, c|exists id, c]; (split; [by constructor|done]). }
    destruct (strategys sc !! i) as [c|].
    - rewrite orb_true_iff. split; [intros [[?|?]|?]; eauto|intros [?|[(? & [= <-] & ?)|?]]; auto].
    - split; [intros [?|?]; auto|intros [?|[(? & [=] & _)|?]]; auto]. }
  rewrite Hf. clear Hf. split; [intros [[=]|?]; auto|intros [?|?]; [done|auto]].
Qed.

(** Who acts: the principal, and the groups of a user. *)
Definition acting (uc : userCache) (p : Principal) (q : Principal) : Prop :=
  q = p \/ (PrincipalRole p = PrincipalUser /\ exists g, g ∈ GetUserLinkGroupIds uc (PrincipalID p) /\ q = mkPrincipal g PrincipalGroup).

Lemma link_get_elem (s : links) key id : id ∈ (link_get s key).1 <-> id ∈ default ∅ (s !! key).
Proof. unfold link_get. destruct (s !! key); cbn; [apply elem_of_elements|set_solver]. Qed.

Lemma link_get_ok sc k key : nonempty sc -> (link_get (table sc k) key).2 = true <-> exists id, linked sc k key id.
Proof.
  intros Hn. unfold link_get, linked. destruct (table sc k !! key) as [s|] eqn:Hs; cbn; [|set_solver].
  split; [|done]. intros _. by apply set_choose_L, (Hn k key).
Qed.

(** A cache that has seen any sequence of fetches: one row a strategy. *)
Inductive strategy_reachable : strategyCache -> Prop :=
| sr_new : strategy_reachable newStrategyCache
| sr_update sc t answer :
    strategy_reachable sc -> (forall rules, answer = Some rules -> NoDup (SID <$> rules)) ->
    strategy_reachable (strategy_update sc t answer)
| sr_clear sc : strategy_reachable sc -> strategy_reachable (strategy_clear sc).

Lemma cache_inv_base sc b : cache_inv sc -> cache_inv (set_sbase sc b).
Proof.
  intros [H1 H2 H3]. assert (forall k, table (set_sbase sc b) k = table sc k) as Ht by (by intros []).
  split; [done| |].
  - intros k key id. unfold linked. rewrite Ht. apply H2.
  - intros k key s. rewrite Ht. apply H3.
Qed.

Lemma strategy_reachable_inv sc : strategy_reachable sc -> cache_inv sc.
Proof.
  induction 1 as [|sc t answer _ IH Hnd|sc _ [H1 H2 H3]].
  - apply newStrategyCache_inv.
  - unfold strategy_update, strategy_realUpdate. destruct answer as [rules|]; [|by apply cache_inv_base].
    destruct (setStrategys_inv sc rules (Hnd _ eq_refl) IH) as (Hi & _).
    destruct (setStrategys sc rules) as [[sc' m] c]. by apply cache_inv_base.
  - destruct newStrategyCache_inv as [N1 N2 N3].
    assert (forall k, table (strategy_clear sc) k = table newStrategyCache k) as Ht by (by intros []).
    split; [done| |].
    + intros k key id. unfold linked. rewrite Ht. apply N2.
    + intros k key s. rewrite Ht. apply N3.
Qed.

Lemma resource_editable_spec (sc : strategyCache) (uc : userCache) (p : Principal) (t : Z) (res : string) :
  strategy_reachable sc ->
  IsResourceEditable sc uc p t res = true <->
  match kind_of t with
  | None => True
  | Some k =>
      (forall id c, strategys sc !! id = Some c -> ~ mentions (detail c) k res) \/
      exists q id c, acting uc p q /\ strategys sc !! id = Some c /\
        (mentions (detail c) k res \/ mentions (detail c) k "*") /\ mentions (detail c) (principal_kind q) (PrincipalID q)
  end.
Proof.
  intros Hr. destruct (strategy_reachable_inv sc Hr) as [Hc Hl Hn]. unfold IsResourceEditable.
  destruct (kind_of t) as [k|]; [|done].
  assert (forall key i, i ∈ (link_get (table sc k) key).1 <-> link_of (strategys sc) k key i) as Hi
    by (intros key i; rewrite link_get_elem; apply Hl).
  pose proof (link_get_ok sc k res Hn) as Hok. pose proof (Hi res) as Hir. pose proof (Hi "*") as Hia.
  destruct (link_get (table sc k) res) as [val ok]. cbn [fst snd] in *. destruct ok; cbn [negb].
  - assert (exists id c, strategys sc !! id = Some c /\ mentions (detail c) k res) as (i0 & c0 & H0 & Hm0).
    { destruct (proj1 Hok eq_refl) as [i Hlk]. apply Hl in Hlk as (c & ? & ?). eauto. }
    assert (val <> []) as Hne.
    { intros ->. assert (i0 ∈ ([] : list string)) as []%not_elem_of_nil. apply Hir. by exists c0. }
    rewrite existsb_exists. setoid_rewrite orb_true_iff. setoid_rewrite checkResourceEditable_spec.
    setoid_rewrite Hir. setoid_rewrite Hia.
    assert (forall q, In q (p :: (if decide (PrincipalRole p = PrincipalUser) then (fun g => mkPrincipal g PrincipalGroup) <$> GetUserLinkGroupIds uc (PrincipalID p) else []))
      <-> acting uc p q) as Hact.
    { intros q. rewrite <- list_elem_of_In, elem_of_cons. unfold acting. case_decide; [rewrite list_elem_of_fmap|]; set_solver. }
    setoid_rewrite Hact.
    assert (forall i c q, strategys sc !! i = Some c -> lists_principal c q = true <-> mentions (detail c) (principal_kind q) (PrincipalID q)) as Hlp.
    { intros i c q Hic. destruct (Hc i c Hic) as [_ Hb]. rewrite Hb at 1. apply build_lists. }
    split.
    + intros (q & Hq & [[[_ [=]]|(i & c & (c' & Hc' & Hm) & Hic & Hp)]|[[? _]|(i & c & (c' & Hc' & Hm) & Hic & Hp)]]); [|done|];
        right; simplify_eq; exists q, i, c'; (split_and!; [done|done|auto|by apply (Hlp i c' q)]).
    + intros [Hno|(q & i & c & Hq & Hic & Hm & Hp)]; [by destruct (Hno _ _ H0)|]. exists q. split; [done|].
      assert (lists_principal c q = true) as Hlq by (by apply (Hlp i c q)).
      destruct Hm; [right|left]; right; exists i, c; (split; [by exists c|done]).
  - split; [|done]. intros _. left. intros i c Hic Hm. assert (false = true); [|done]. apply Hok. exists i. apply Hl. by exists c.
Qed.

(** ** Properties *)

(** The link tables are exact: after any sequence of fetches a strategy is
    linked to a user, group or resource exactly when the cached strategy
    mentions it - whatever was added to or removed from strategies on the way -
    and the queries by user and by group return the strategies that list them. *)
Theorem links_are_mentions (sc : strategyCache) (k : kind) (key id : string) (d : StrategyDetail) :
  strategy_reachable sc ->
  (linked sc k key id <-> exists c, strategys sc !! id = Some c /\ mentions (detail c) k key) /\
  (key <> "" -> d ∈ GetStrategyDetailsByUID sc key <-> exists i c, strategys sc !! i = Some c /\ d = detail c /\ mentions d KUser key) /\
  (key <> "" -> d ∈ GetStrategyDetailsByGroupID sc key <-> exists i c, strategys sc !! i = Some c /\ d = detail c /\ mentions d KGroup key).
Proof.
  intros Hr. destruct (strategy_reachable_inv sc Hr) as [_ Hl Hn]. split; [apply Hl|].
  assert (forall kk, d ∈ (let '(ids, ok) := link_get (table sc kk) key in
      if negb ok then [] else omap (fun i => detail <$> strategys sc !! i) ids) <->
      exists i c, strategys sc !! i = Some c /\ d = detail c /\ mentions d kk key) as Hq.
  { intros kk. assert (forall i, i ∈ (link_get (table sc kk) key).1 <-> link_of (strategys sc) kk key i) as Hi
      by (intros i; rewrite link_get_elem; apply Hl).
    pose proof (link_get_ok sc kk key Hn) as Hok. destruct (link_get (table sc kk) key) as [ids ok]. cbn [fst snd] in *.
    destruct ok; cbn [negb].
    - rewrite list_elem_of_omap. setoid_rewrite Hi. setoid_rewrite fmap_Some. unfold link_of. naive_solver.
    - split; [by intros ?%not_elem_of_nil|]. intros (i & c & Hc & -> & Hm).
      assert (false = true); [|done]. apply Hok. exists i. apply Hl. by exists c. }
  split; intros Hk; unfold GetStrategyDetailsByUID, GetStrategyDetailsByGroupID, getStrategyDetails.
  - rewrite decide_True by done. apply (Hq KUser).
  - rewrite decide_False by (by intros []). rewrite decide_True by done. apply (Hq KGroup).
Qed.

(** C39. Who may change a resource: anybody when no cached strategy mentions it,
    and otherwise the principals - a user, or one of the groups linked to the
    user - that are listed by a strategy that mentions the resource or all
    resources of its type; the types without strategies are free. *)
Theorem resource_editable_iff (sc : strategyCache) (uc : userCache) (p : Principal) (t : Z) (res : string) :
  strategy_reachable sc ->
  IsResourceEditable sc uc p t res = true <->
  match kind_of t with
  | None => True
  | Some k =>
      (forall id c, strategys sc !! id = Some c -> ~ mentions (detail c) k res) \/
      exists q id c, acting uc p q /\ strategys sc !! id = Some c /\
        (mentions (detail c) k res \/ mentions (detail c) k "*") /\ mentions (detail c) (principal_kind q) (PrincipalID q)
  end.
Proof. apply resource_editable_spec. Qed.

(** A strategy for all resources protects only those that another strategy
    mentions: the rest of its type can be changed by anybody. *)
Theorem star_alone_protects_nothing (sc : strategyCache) (uc : userCache) (p : Principal) (k : kind) (t : Z) (res : string) :
  strategy_reachable sc -> kind_of t = Some k ->
  (forall id c, strategys sc !! id = Some c -> mentions (detail c) k res -> False) ->
  IsResourceEditable sc uc p t res = true.
Proof.
  intros Hr Hk Hno. destruct (strategy_reachable_inv sc Hr) as [_ Hl Hn]. unfold IsResourceEditable. rewrite Hk.
  pose proof (link_get_ok sc k res Hn) as Hok. destruct (link_get (table sc k) res) as [val ok]. cbn [snd] in Hok.
  destruct ok; [|done]. destruct (proj1 Hok eq_refl) as [i Hlk]. apply Hl in Hlk as (c & Hc & Hm). by destruct (Hno i c).
Qed.

(** A fetch applies every row: valid strategies are stored with their
    principals, the others removed, and the rest untouched. *)
Theorem strategy_update_applies_rows (sc : strategyCache) (t : option Z) (rules : list StrategyDetail) (rule : StrategyDetail) (id : string) :
  strategy_reachable sc -> NoDup (SID <$> rules) -> rule ∈ rules -> id ∉ SID <$> rules ->
  let sc' := strategy_update sc t (Some rules) in
  strategys sc' !! SID rule = (if SValid rule then Some (buildEnchanceStrategyDetail rule) else None) /\
  strategys sc' !! id = strategys sc !! id.
Proof.
  intros Hr Hnd Hin Hid. cbv zeta. unfold strategy_update, strategy_realUpdate.
  destruct (setStrategys_inv sc rules Hnd (strategy_reachable_inv sc Hr)) as (_ & Hs & _).
  destruct (setStrategys sc rules) as [[sc' m] c]. cbn [fst set_sbase strategys] in *. rewrite Hs.
  by rewrite rule_rows_row, rule_rows_other.
Qed.

(** ** Witnesses *)

Definition demo_rule (id : string) (principals : list Principal) (resources : list StrategyResource) (valid : bool) : StrategyDetail :=
  mkStrategy id id "READ_WRITE" "" principals false "u-owner" resources valid "" 100 100.
Definition demo_rules : list StrategyDetail :=
  [demo_rule "s1" [mkPrincipal "u-sub" PrincipalUser; mkPrincipal "g1" PrincipalGroup] [mkResource Services "svc-1"] true;
   demo_rule "s2" [mkPrincipal "u-owner" PrincipalUser] [mkResource Services "*"; mkResource Namespaces "default"] true].
Definition demo_strategies : strategyCache := strategy_update newStrategyCache (Some 100) (Some demo_rules).

Lemma demo_strategies_reachable : strategy_reachable demo_strategies.
Proof. apply sr_update; [apply sr_new|]. intros rules [= <-]. by apply (bool_decide_eq_true_1 _). Qed.

Lemma links_are_mentions_witness :
  linked demo_strategies KService "svc-1" "s1" /\ demo_rule "s1" (Principals (demo_rule "s1" [mkPrincipal "u-sub" PrincipalUser; mkPrincipal "g1" PrincipalGroup] [] true))
    [mkResource Services "svc-1"] true ∈ GetStrategyDetailsByGroupID demo_strategies "g1".
Proof.
  split.
  - apply (links_are_mentions demo_strategies KService "svc-1" "s1" (demo_rule "s1" [] [] true) demo_strategies_reachable).
    exists (buildEnchanceStrategyDetail (demo_rule "s1" [mkPrincipal "u-sub" PrincipalUser; mkPrincipal "g1" PrincipalGroup] [mkResource Services "svc-1"] true)).
    split; [by vm_compute|]. rewrite detail_build. left.
  - vm_compute. left.
Defined.

Lemma resource_editable_iff_witness :
  IsResourceEditable demo_strategies newUserCache (mkPrincipal "u-sub" PrincipalUser) Services "svc-1" = true /\
  IsResourceEditable demo_strategies newUserCache (mkPrincipal "u-x" PrincipalUser) Services "svc-1" = false.
Proof.
  split; [|by vm_compute].
  apply (resource_editable_iff demo_strategies newUserCache (mkPrincipal "u-sub" PrincipalUser) Services "svc-1" demo_strategies_reachable).
  right. exists (mkPrincipal "u-sub" PrincipalUser), "s1",
    (buildEnchanceStrategyDetail (demo_rule "s1" [mkPrincipal "u-sub" PrincipalUser; mkPrincipal "g1" PrincipalGroup] [mkResource Services "svc-1"] true)).
  rewrite detail_build. split_and!; [by left|by vm_compute|left; left|]. vm_compute. right; left.
Defined.

Lemma star_alone_protects_nothing_witness :
  IsResourceEditable demo_strategies newUserCache (mkPrincipal "u-x" PrincipalUser) Services "svc-9" = true.
Proof.
  apply (star_alone_protects_nothing demo_strategies newUserCache _ KService); [apply demo_strategies_reachable|done|].
  intros id c Hc Hm. assert (linked demo_strategies KService "svc-9" id) as Hl
    by (apply (sci_links _ (strategy_reachable_inv _ demo_strategies_reachable)); by exists c).
  vm_compute in Hl. by inversion Hl.
Defined.

Lemma strategy_update_applies_rows_witness :
  strategys (strategy_update demo_strategies (Some 101) (Some [demo_rule "s1" [] [] false])) !! "s1" = None /\
  strategys (strategy_update demo_strategies (Some 101) (Some [demo_rule "s1" [] [] false])) !! "s2" = strategys demo_strategies !! "s2".
Proof.
  apply (strategy_update_applies_rows demo_strategies (Some 101) [demo_rule "s1" [] [] false] (demo_rule "s1" [] [] false) "s2").
  - apply demo_strategies_reachable.
  - by apply (bool_decide_eq_true_1 _).
  - left.
  - by apply (bool_decide_eq_true_1 _).
Defined.
