(* ===== verification/Cipher.v ===== *)
(** * The ciphers and encodings of Go's standard library

    [crypto/aes], the block modes of [crypto/cipher] and [encoding/base64], as
    far as [src/plugin/crypto/aes] and the tokens of [src/auth/defaultauth] use
    them.  A block cipher is the class [BlockCipher], against which the modes
    are proved to be inverses; AES is its instance, checked against the vectors
    of FIPS 197.  Bytes are integers below 256. *)

From S2P Require Import Prelude GoStrings Hash Utils.
From Stdlib Require Import ZArith Lia Ascii Btauto.
From stdpp Require Import base tactics list strings.

Open Scope Z_scope.

Abbreviation bytes := (list Z).

Definition is_block (b : bytes) : Prop := length b = 16%nat /\ Forall byte b.

Class BlockCipher := {
  valid_key : bytes -> Prop;
  enc_block : bytes -> bytes -> bytes;
  dec_block : bytes -> bytes -> bytes;
  enc_block_block : forall k b, valid_key k -> is_block b -> is_block (enc_block k b);
  dec_enc_block : forall k b, valid_key k -> is_block b -> dec_block k (enc_block k b) = b }.

Definition xor_bytes (a b : bytes) : bytes := zip_with Z.lxor a b.

(** ** AES *)

Module AES.

Definition xtime (a : Z) : Z := if decide (2 * a < 256) then 2 * a else Z.lxor (2 * a) 283.
Definition mul2 := xtime.
Definition mul3 (a : Z) : Z := Z.lxor (xtime a) a.
Definition mul9 (a : Z) : Z := Z.lxor (xtime (xtime (xtime a))) a.
Definition mul11 (a : Z) : Z := Z.lxor (xtime (xtime (xtime a))) (Z.lxor (xtime a) a).
Definition mul13 (a : Z) : Z := Z.lxor (xtime (xtime (xtime a))) (Z.lxor (xtime (xtime a)) a).
Definition mul14 (a : Z) : Z := Z.lxor (xtime (xtime (xtime a))) (Z.lxor (xtime (xtime a)) (xtime a)).

(** Multiplication in the field, for the table. *)
Fixpoint gmul (n : nat) (a b : Z) : Z :=
  match n with
  | O => 0
  | S n => Z.lxor (if Z.odd b then a else 0) (gmul n (xtime a) (b / 2))
  end.
Definition square (a : Z) : Z := gmul 8 a a.
(** [a^254], the inverse. *)
Definition finv (a : Z) : Z :=
  let a2 := square a in let a3 := gmul 8 a2 a in let a6 := square a3 in let a12 := square a6 in
  let a15 := gmul 8 a12 a3 in let a240 := square (square (square (square a15))) in
  gmul 8 (gmul 8 a240 a12) a2.
Definition rotl8 (a n : Z) : Z := Z.lor (Z.land (Z.shiftl a n) 255) (Z.shiftr a (8 - n)).
Definition sbox_of (x : Z) : Z :=
  let a := finv x in
  Z.lxor (Z.lxor (Z.lxor a (rotl8 a 1)) (Z.lxor (rotl8 a 2) (rotl8 a 3))) (Z.lxor (rotl8 a 4) 99).

Definition all_bytes : list Z := seqZ 0 256.
Definition sbox0 : list Z := Eval vm_compute in sbox_of <$> all_bytes.
Definition index_of (l : list Z) (x : Z) : Z := match list_find (fun y => y = x) l with Some (i, _) => Z.of_nat i | None => 0 end.
Definition sbox1 : list Z := Eval vm_compute in index_of sbox0 <$> all_bytes.
Definition sub (x : Z) : Z := nth (Z.to_nat x) sbox0 0.
Definition inv_sub (x : Z) : Z := nth (Z.to_nat x) sbox1 0.

(** The state is column by column: byte [r + 4c]. *)
Definition permute (k : nat) (s : bytes) : bytes := (fun i => nth (k * i mod 16) s 0) <$> seq 0 16.
Definition shiftRows := permute 5.
Definition invShiftRows := permute 13.

Definition mixColumn (a b c d : Z) : bytes :=
  [Z.lxor (Z.lxor (mul2 a) (mul3 b)) (Z.lxor c d); Z.lxor (Z.lxor a (mul2 b)) (Z.lxor (mul3 c) d);
   Z.lxor (Z.lxor a b) (Z.lxor (mul2 c) (mul3 d)); Z.lxor (Z.lxor (mul3 a) b) (Z.lxor c (mul2 d))].
Definition invMixColumn (a b c d : Z) : bytes :=
  [Z.lxor (Z.lxor (mul14 a) (mul11 b)) (Z.lxor (mul13 c) (mul9 d)); Z.lxor (Z.lxor (mul9 a) (mul14 b)) (Z.lxor (mul11 c) (mul13 d));
   Z.lxor (Z.lxor (mul13 a) (mul9 b)) (Z.lxor (mul14 c) (mul11 d)); Z.lxor (Z.lxor (mul11 a) (mul13 b)) (Z.lxor (mul9 c) (mul14 d))].
Fixpoint columns (f : Z -> Z -> Z -> Z -> bytes) (s : bytes) : bytes :=
  match s with a :: b :: c :: d :: s => f a b c d ++ columns f s | _ => [] end.
Definition mixColumns := columns mixColumn.
Definition invMixColumns := columns invMixColumn.

Definition addRoundKey (k s : bytes) : bytes := xor_bytes s k.

Fixpoint enc_rounds (ks : list bytes) (s : bytes) : bytes :=
  match ks with
  | [] => s
  | [k] => addRoundKey k (shiftRows (sub <$> s))
  | k :: ks => enc_rounds ks (addRoundKey k (mixColumns (shiftRows (sub <$> s))))
  end.
Fixpoint dec_rounds (ks : list bytes) (s : bytes) : bytes :=
  match ks with
  | [] => s
  | [k] => inv_sub <$> invShiftRows (addRoundKey k s)
  | k :: ks => inv_sub <$> invShiftRows (invMixColumns (addRoundKey k (dec_rounds ks s)))
  end.

(** Key expansion; [ws] are the words so far, latest first. *)
Definition rotWord (w : bytes) : bytes := match w with a :: w => w ++ [a] | [] => [] end.
Fixpoint expand (n : nat) (Nk i : nat) (rcon : Z) (ws : list bytes) : list bytes :=
  match n with
  | O => ws
  | S n =>
      let temp := nth 0 ws [] in
      let first := bool_decide (i mod Nk = 0)%nat in
      let temp := if first then xor_bytes (sub <$> rotWord temp) [rcon; 0; 0; 0]
                  else if bool_decide (6 < Nk)%nat && bool_decide (i mod Nk = 4)%nat then sub <$> temp else temp in
      expand n Nk (S i) (if first then xtime rcon else rcon) (xor_bytes (nth (Nk - 1) ws []) temp :: ws)
  end.
Fixpoint quads (ws : list bytes) : list bytes :=
  match ws with a :: b :: c :: d :: ws => (a ++ b ++ c ++ d) :: quads ws | _ => [] end.
Fixpoint words (k : bytes) : list bytes :=
  match k with a :: b :: c :: d :: k => [a; b; c; d] :: words k | _ => [] end.
Definition roundKeys (key : bytes) : list bytes :=
  let Nk := (length key / 4)%nat in
  quads (reverse (expand (4 * (Nk + 7) - Nk) Nk Nk 1 (reverse (words key)))).

Definition encrypt (key b : bytes) : bytes :=
  match roundKeys key with [] => b | k :: ks => enc_rounds ks (addRoundKey k b) end.
Definition decrypt (key b : bytes) : bytes :=
  match roundKeys key with [] => b | k :: ks => addRoundKey k (dec_rounds ks b) end.

(** FIPS 197, appendix C. *)
Definition fips_key (n : nat) : bytes := seqZ 0 (Z.of_nat n).
Definition fips_text : bytes := (fun i => 17 * i) <$> seqZ 0 16.
Example fips_128 : hex (encrypt (fips_key 16) fips_text) = "69c4e0d86a7b0430d8cdb78070b4c55a".
Proof. by vm_compute. Qed.
Example fips_192 : hex (encrypt (fips_key 24) fips_text) = "dda97ca4864cdfe06eaf70a0ec0d7191".
Proof. by vm_compute. Qed.
Example fips_256 : hex (encrypt (fips_key 32) fips_text) = "8ea2b7ca516745bfeafc49904b496089".
Proof. by vm_compute. Qed.
Example fips_decrypt : decrypt (fips_key 32) (encrypt (fips_key 32) fips_text) = fips_text.
Proof. by vm_compute. Qed.

(** *** Inverses *)

Lemma byte_cases (P : Z -> bool) : forallb P all_bytes = true -> forall x, byte x -> P x = true.
Proof.
  intros H x Hx. rewrite forallb_forall in H. apply H. apply list_elem_of_In, elem_of_seqZ. unfold byte in Hx. lia.
Qed.
Lemma byte_cases2 (P : Z -> Z -> bool) :
  forallb (fun x => forallb (P x) all_bytes) all_bytes = true -> forall x y, byte x -> byte y -> P x y = true.
Proof. intros H x y Hx Hy. by apply byte_cases; [apply (byte_cases (fun x => forallb (P x) all_bytes))|]. Qed.

Definition is_byte (x : Z) : bool := (0 <=? x) && (x <? 256).
Lemma is_byte_true x : is_byte x = true <-> byte x.
Proof. unfold is_byte, byte. rewrite andb_true_iff, Z.leb_le, Z.ltb_lt. done. Qed.

Lemma lxor_byte a b : byte a -> byte b -> byte (Z.lxor a b).
Proof. apply (lxor_range 8). lia. Qed.

Lemma xtime_byte a : byte a -> byte (xtime a).
Proof. intros Ha. apply is_byte_true. revert a Ha. apply (byte_cases (fun a => is_byte (xtime a))). by vm_compute. Qed.

Lemma xtime_lxor a b : byte a -> byte b -> xtime (Z.lxor a b) = Z.lxor (xtime a) (xtime b).
Proof.
  intros Ha Hb. apply Z.eqb_eq. revert a b Ha Hb.
  apply (byte_cases2 (fun a b => xtime (Z.lxor a b) =? Z.lxor (xtime a) (xtime b))). by vm_compute.
Qed.

Lemma sub_byte x : byte (sub x).
Proof.
  unfold sub. destruct (nth_in_or_default (Z.to_nat x) sbox0 0) as [Hin| ->]; [|by unfold byte].
  assert (forallb is_byte sbox0 = true) as Hb by (by vm_compute). rewrite forallb_forall in Hb. by apply is_byte_true, Hb.
Qed.

Lemma inv_sub_sub x : byte x -> inv_sub (sub x) = x.
Proof. intros Hx. apply Z.eqb_eq. revert x Hx. apply (byte_cases (fun x => inv_sub (sub x) =? x)). by vm_compute. Qed.

Lemma xor_bytes_byte a b : Forall byte a -> Forall byte b -> Forall byte (xor_bytes a b).
Proof. intros Ha. revert b. induction Ha; intros [|y b] Hb; constructor; inversion Hb; subst; [by apply lxor_byte|by apply IHHa]. Qed.

Ltac bytes := repeat first [assumption | apply lxor_byte | apply xtime_byte].

Lemma mixColumn_byte a b c d : byte a -> byte b -> byte c -> byte d -> Forall byte (mixColumn a b c d).
Proof. intros. unfold mixColumn, mul2, mul3. repeat (constructor; [bytes|]). constructor. Qed.

Lemma invMixColumn_mixColumn a b c d :
  byte a -> byte b -> byte c -> byte d ->
  match mixColumn a b c d with [x; y; z; w] => invMixColumn x y z w | _ => [] end = [a; b; c; d].
Proof.
  intros Ha Hb Hc Hd. unfold mixColumn, invMixColumn, mul2, mul3, mul9, mul11, mul13, mul14.
  rewrite !xtime_lxor by bytes.
  repeat f_equal; apply Z.bits_inj'; intros n _; rewrite !Z.lxor_spec; btauto.
Qed.

Lemma columns_byte f (s : bytes) :
  (forall a b c d, byte a -> byte b -> byte c -> byte d -> Forall byte (f a b c d)) -> Forall byte s -> Forall byte (columns f s).
Proof.
  intros Hf. enough (forall n s, (length s < n)%nat -> Forall byte s -> Forall byte (columns f s)) by eauto.
  intros n. induction n as [|n IH]; [lia|]. intros [|a [|b [|c [|d t]]]] Hl Hs; try by constructor.
  repeat match goal with H : Forall byte (_ :: _) |- _ => inversion H; subst; clear H end.
  cbn [columns]. apply Forall_app. split; [by apply Hf|]. apply IH; [simpl in Hl; lia|done].
Qed.

Lemma invMixColumns_mixColumns s : is_block s -> invMixColumns (mixColumns s) = s.
Proof.
  intros [Hl Hs]. do 16 (destruct s as [|? s]; [discriminate|]). destruct s; [|discriminate]. clear Hl.
  repeat match goal with H : Forall byte (_ :: _) |- _ => inversion H; subst; clear H end.
  repeat match goal with H : Forall byte [] |- _ => clear H end.
  unfold mixColumns, invMixColumns. cbn [columns].
  repeat match goal with |- context [mixColumn ?a ?b ?c ?d] =>
    let H := fresh in pose proof (invMixColumn_mixColumn a b c d ltac:(assumption) ltac:(assumption) ltac:(assumption) ltac:(assumption)) as H;
    unfold mixColumn at 1 in H; unfold mixColumn at 1; cbn [app columns] in H |- *; rewrite H; clear H end.
  done.
Qed.

Lemma mixColumns_block s : is_block s -> is_block (mixColumns s).
Proof.
  intros [Hl Hs]. split; [|by apply columns_byte; [apply mixColumn_byte|]].
  do 16 (destruct s as [|? s]; [discriminate|]). by destruct s.
Qed.

Lemma permute_block k s : is_block s -> is_block (permute k s).
Proof.
  intros [Hl Hs]. split; [done|]. unfold permute. apply Forall_fmap, Forall_forall. intros i _. unfold compose.
  destruct (nth_in_or_default (k * i mod 16) s 0) as [Hin| ->]; [|by unfold byte].
  rewrite Forall_forall in Hs. by apply Hs, list_elem_of_In.
Qed.

Lemma invShiftRows_shiftRows s : length s = 16%nat -> invShiftRows (shiftRows s) = s.
Proof. intros Hl. do 16 (destruct s as [|? s]; [discriminate|]). destruct s; [done|discriminate]. Qed.

Lemma xor_bytes_twice s k : (length s <= length k)%nat -> xor_bytes (xor_bytes s k) k = s.
Proof.
  revert k. induction s as [|x s IH]; intros [|y k] Hl; [done..|simpl in Hl; lia|]. cbn. f_equal; [|by apply IH; simpl in Hl; lia].
  by rewrite Z.lxor_assoc, Z.lxor_nilpotent, Z.lxor_0_r.
Qed.

Lemma addRoundKey_twice k s : is_block k -> is_block s -> addRoundKey k (addRoundKey k s) = s.
Proof. intros [Hk _] [Hs _]. apply xor_bytes_twice. lia. Qed.

Lemma addRoundKey_block k s : is_block k -> is_block s -> is_block (addRoundKey k s).
Proof.
  intros [Hk Hkb] [Hs Hsb]. split; [|by apply xor_bytes_byte]. unfold addRoundKey, xor_bytes. rewrite length_zip_with. lia.
Qed.

Lemma sub_block s : is_block s -> is_block (sub <$> s).
Proof. intros [Hl Hs]. split; [by rewrite length_fmap|]. apply Forall_fmap, Forall_true. intros x. apply sub_byte. Qed.

Lemma inv_subs s : is_block s -> inv_sub <$> (sub <$> s) = s.
Proof. intros [_ Hs]. rewrite <- list_fmap_compose. induction Hs as [|x s Hx Hs IH]; [done|]. rewrite fmap_cons. f_equal; [by apply inv_sub_sub|done]. Qed.

#[local] Hint Resolve sub_block addRoundKey_block permute_block mixColumns_block : aes.
#[local] Hint Unfold shiftRows invShiftRows : aes.

Lemma rounds_inverse ks s : Forall is_block ks -> is_block s -> dec_rounds ks (enc_rounds ks s) = s /\ is_block (enc_rounds ks s).
Proof.
  intros Hks. revert s. induction Hks as [|k ks Hk Hks IH]; intros s Hs; [done|].
  assert (is_block (shiftRows (sub <$> s))) as Hsh by (apply permute_block; auto with aes).
  destruct ks as [|k' ks].
  - cbn [dec_rounds enc_rounds]. split; [|by apply addRoundKey_block].
    rewrite addRoundKey_twice, invShiftRows_shiftRows by (done || rewrite length_fmap; apply Hs). by apply inv_subs.
  - change (dec_rounds (k :: k' :: ks)) with (fun s => inv_sub <$> invShiftRows (invMixColumns (addRoundKey k (dec_rounds (k' :: ks) s)))).
    change (enc_rounds (k :: k' :: ks) s) with (enc_rounds (k' :: ks) (addRoundKey k (mixColumns (shiftRows (sub <$> s))))).
    cbv beta. destruct (IH (addRoundKey k (mixColumns (shiftRows (sub <$> s))))) as [-> Hb]; [auto with aes|]. split; [|done].
    rewrite addRoundKey_twice by auto with aes. rewrite invMixColumns_mixColumns by done.
    rewrite invShiftRows_shiftRows by (rewrite length_fmap; apply Hs). by apply inv_subs.
Qed.

(** *** Round keys *)

Definition is_word (w : bytes) : Prop := length w = 4%nat /\ Forall byte w.

Lemma xor_word a b : is_word a -> is_word b -> is_word (xor_bytes a b).
Proof. intros [Ha Hab] [Hb Hbb]. split; [|by apply xor_bytes_byte]. unfold xor_bytes. rewrite length_zip_with. lia. Qed.

Lemma sub_word w : is_word w -> is_word (sub <$> w).
Proof. intros [Hl _]. split; [by rewrite length_fmap|]. apply Forall_fmap, Forall_true. intros x. apply sub_byte. Qed.

Lemma rot_word w : is_word w -> is_word (rotWord w).
Proof.
  intros [Hl Hw]. destruct w as [|a w]; [discriminate|]. inversion Hw; subst. split; cbn.
  - rewrite length_app. simpl in *. lia.
  - apply Forall_app. split; [done|]. by apply Forall_singleton.
Qed.

Lemma nth_word i ws : Forall is_word ws -> (i < length ws)%nat -> is_word (nth i ws []).
Proof. intros Hw Hi. rewrite Forall_forall in Hw. apply Hw, list_elem_of_In, nth_In. lia. Qed.

Lemma expand_words n Nk i rcon ws :
  (0 < Nk <= length ws)%nat -> byte rcon -> Forall is_word ws -> Forall is_word (expand n Nk i rcon ws).
Proof.
  revert i rcon ws. induction n as [|n IH]; intros i rcon ws Hl Hr Hws; [done|]. cbn [expand].
  assert (is_word (nth 0 ws [])) as H0 by (apply nth_word; [done|lia]).
  assert (is_word (nth (Nk - 1) ws [])) as H1 by (apply nth_word; [done|lia]).
  assert (is_word [rcon; 0; 0; 0]) as Hrc by (split; [done|]; repeat (apply Forall_cons_2; [done|]); apply Forall_nil_2).
  apply IH; [simpl; lia|by destruct (bool_decide _); [apply xtime_byte|]|].
  constructor; [|done]. apply xor_word; [done|]. destruct (bool_decide (i mod Nk = 0)%nat).
  - apply xor_word; [by apply sub_word, rot_word|done].
  - case_match; [by apply sub_word|done].
Qed.

Lemma quads_blocks ws : Forall is_word ws -> Forall is_block (quads ws).
Proof.
  enough (forall n ws, (length ws < n)%nat -> Forall is_word ws -> Forall is_block (quads ws)) by eauto.
  intros n. clear ws. induction n as [|n IH]; [lia|]. intros [|a [|b [|c [|d ws]]]] Hl Hw; try by constructor.
  repeat match goal with H : Forall is_word (_ :: _) |- _ => inversion H; subst; clear H end.
  cbn [quads]. constructor; [|by apply IH; [simpl in Hl; lia|]].
  repeat match goal with H : is_word _ |- _ => destruct H end. split; [rewrite !length_app; lia|by repeat (apply Forall_app; split)].
Qed.

Lemma words_words k : Forall byte k -> Forall is_word (words k) /\ (length (words k) = length k / 4)%nat.
Proof.
  enough (forall n k, (length k < n)%nat -> Forall byte k -> Forall is_word (words k) /\ (length (words k) = length k / 4)%nat) by eauto.
  intros n. clear k. induction n as [|n IH]; [lia|]. intros [|a [|b [|c [|d k]]]] Hl Hk; try (by split; [constructor|]).
  repeat match goal with H : Forall byte (_ :: _) |- _ => inversion H; subst; clear H end. cbn [words].
  destruct (IH k) as [Hws Hlen]; [simpl in Hl; lia|done|]. split.
  - constructor; [|done]. split; [done|]. repeat (apply Forall_cons_2; [done|]). apply Forall_nil_2.
  - cbn [length]. rewrite Hlen. change (S (S (S (S (length k))))) with (4 + length k)%nat. symmetry. apply (Nat.div_add_l 1 4). lia.
Qed.

(** The key lengths [NewCipher] accepts. *)
Definition key_ok (key : bytes) : Prop :=
  (length key = 16 \/ length key = 24 \/ length key = 32)%nat /\ Forall byte key.

Lemma roundKeys_blocks key : key_ok key -> Forall is_block (roundKeys key).
Proof.
  intros [Hl Hk]. unfold roundKeys. destruct (words_words key Hk) as [Hw Hn]. apply quads_blocks, Forall_reverse, expand_words.
  - rewrite length_reverse, Hn. split; [|done]. destruct Hl as [->|[->| ->]]; cbn; lia.
  - by unfold byte.
  - by apply Forall_reverse.
Qed.

Lemma encrypt_block key b : key_ok key -> is_block b -> is_block (encrypt key b).
Proof.
  intros Hk%roundKeys_blocks Hb. unfold encrypt. destruct (roundKeys key) as [|k ks]; [done|].
  inversion Hk; subst. apply rounds_inverse; auto with aes.
Qed.

Lemma decrypt_encrypt key b : key_ok key -> is_block b -> decrypt key (encrypt key b) = b.
Proof.
  intros Hk%roundKeys_blocks Hb. unfold encrypt, decrypt. destruct (roundKeys key) as [|k ks]; [done|].
  inversion Hk; subst. destruct (rounds_inverse ks (addRoundKey k b)) as [-> _]; [done|auto with aes|]. by apply addRoundKey_twice.
Qed.

End AES.

#[export] Instance aes : BlockCipher := {|
  valid_key := AES.key_ok;
  enc_block := AES.encrypt;
  dec_block := AES.decrypt;
  enc_block_block := AES.encrypt_block;
  dec_enc_block := AES.decrypt_encrypt |}.

(** ** Block modes ([crypto/cipher]) *)

(** The data in pieces of a block, the last one possibly shorter. *)
Fixpoint pieces (fuel : nat) (l : bytes) : list bytes :=
  match fuel with
  | O => []
  | S fuel => match l with [] => [] | _ => take 16 l :: pieces fuel (drop 16 l) end
  end.
Definition blocks (l : bytes) : list bytes := pieces (length l) l.

Section modes.
  Context `{BlockCipher}.

Fixpoint cbc_encrypt (k iv : bytes) (bs : list bytes) : list bytes :=
  match bs with
  | [] => []
  | b :: bs => let c := enc_block k (xor_bytes b iv) in c :: cbc_encrypt k c bs
  end.
Fixpoint cbc_decrypt (k iv : bytes) (cs : list bytes) : list bytes :=
  match cs with
  | [] => []
  | c :: cs => xor_bytes (dec_block k c) iv :: cbc_decrypt k c cs
  end.

(** [CryptBlocks] panics on input that is not full blocks. *)
Definition CryptBlocks (mode : list bytes -> list bytes) (src : bytes) : outcome bytes :=
  if decide (length src mod 16 = 0)%nat then Ret (concat (mode (blocks src))) else Panics ExplicitPanic.

(** The stream modes work on any length. *)
Fixpoint cfb_encrypt (k iv : bytes) (ps : list bytes) : list bytes :=
  match ps with
  | [] => []
  | p :: ps => let c := xor_bytes p (enc_block k iv) in c :: cfb_encrypt k c ps
  end.
Fixpoint cfb_decrypt (k iv : bytes) (cs : list bytes) : list bytes :=
  match cs with
  | [] => []
  | c :: cs => xor_bytes c (enc_block k iv) :: cfb_decrypt k c cs
  end.
Definition XORKeyStream (mode : list bytes -> list bytes) (src : bytes) : bytes := concat (mode (blocks src)).

(** *** Inverses *)

Fixpoint chunked (cs : list bytes) : Prop :=
  match cs with
  | [] => True
  | [c] => (0 < length c <= 16)%nat
  | c :: cs => length c = 16%nat /\ chunked cs
  end.

Lemma pieces_chunked fuel l : (length l <= fuel)%nat -> chunked (pieces fuel l) /\ concat (pieces fuel l) = l.
Proof.
  revert l. induction fuel as [|fuel IH]; intros l Hl; [by destruct l; [|simpl in Hl; lia]|].
  cbn [pieces]. destruct l as [|x l]; [done|]. destruct (IH (drop 16 (x :: l))) as [H1 H2].
  { rewrite length_drop. simpl in *. lia. }
  split; [|cbn [concat]; rewrite H2; apply take_drop].
  destruct (decide (drop 16 (x :: l) = [])) as [He|Hne].
  - rewrite He. assert (pieces fuel [] = []) as -> by (by destruct fuel). cbn [chunked]. rewrite length_take. cbn [length]. lia.
  - assert (length (take 16 (x :: l)) = 16%nat) as H16.
    { rewrite length_take. assert (length (drop 16 (x :: l)) <> 0%nat) as Hd by (by intros ?%length_zero_iff_nil).
      rewrite length_drop in Hd. lia. }
    destruct (pieces fuel (drop 16 (x :: l))); [|done]. cbn in H2. by destruct Hne.
Qed.

Lemma blocks_chunked l : chunked (blocks l) /\ concat (blocks l) = l.
Proof. by apply pieces_chunked. Qed.

Lemma pieces_concat cs fuel : chunked cs -> (length (concat cs) <= fuel)%nat -> pieces fuel (concat cs) = cs.
Proof.
  revert fuel. induction cs as [|c cs IH]; intros fuel Hc Hl; [by destruct fuel|].
  assert (0 < length c <= 16)%nat as Hlen by (destruct cs; cbn in Hc; lia).
  cbn [concat] in *. rewrite length_app in Hl. destruct fuel as [|fuel]; [lia|]. cbn [pieces].
  destruct (c ++ concat cs) as [|x l] eqn:He; [by apply app_eq_nil in He as [-> _]; simpl in Hlen; lia|].
  rewrite <- He. destruct cs as [|c' cs].
  - cbn [concat]. rewrite app_nil_r, take_ge, drop_ge by lia. by destruct fuel.
  - destruct Hc as [H16 Hc]. rewrite take_app_length', drop_app_length' by done. f_equal. apply IH; [done|lia].
Qed.

Lemma blocks_concat cs : chunked cs -> blocks (concat cs) = cs.
Proof. intros Hc. by apply pieces_concat. Qed.

Lemma chunked_lengths cs cs' : length <$> cs = length <$> cs' -> chunked cs -> chunked cs'.
Proof.
  revert cs'. induction cs as [|c cs IH]; intros [|c' cs'] He Hc; try done.
  injection He as Hlc He. destruct cs as [|c2 cs], cs' as [|c2' cs']; try done; [cbn in *; lia|].
  destruct Hc as [H16 Hc]. split; [congruence|]. by apply IH.
Qed.

Lemma concat_lengths (cs cs' : list bytes) : length <$> cs = length <$> cs' -> length (concat cs) = length (concat cs').
Proof.
  revert cs'. induction cs as [|c cs IH]; intros [|c' cs'] He; try done.
  injection He as Hc He. cbn [concat]. rewrite !length_app, Hc. by rewrite (IH cs').
Qed.

(** Whole blocks stay whole. *)
Lemma chunked_blocks l : (length l mod 16 = 0)%nat -> Forall byte l -> Forall is_block (blocks l).
Proof.
  intros Hm Hb. destruct (blocks_chunked l) as [Hc Hl].
  assert (forall cs, chunked cs -> (length (concat cs) mod 16 = 0)%nat -> Forall (fun c => length c = 16%nat) cs) as H16.
  { induction cs as [|c cs IH]; intros Hcs Hcm; [done|]. destruct cs as [|c' cs].
    - cbn [concat chunked] in Hcm, Hcs. rewrite app_nil_r in Hcm. constructor; [|done].
      destruct (decide (length c = 16%nat)); [done|]. rewrite Nat.mod_small in Hcm by lia. lia.
    - destruct Hcs as [Hl16 Hcs]. constructor; [done|]. apply IH; [done|].
      change (concat (c :: c' :: cs)) with (c ++ concat (c' :: cs)) in Hcm. rewrite length_app, Hl16 in Hcm.
      rewrite Nat.add_comm in Hcm. change 16%nat with (1 * 16)%nat in Hcm at 1. by rewrite Nat.Div0.mod_add in Hcm. }
  rewrite <- Hl in Hm, Hb. specialize (H16 _ Hc Hm). rewrite Forall_concat in Hb.
  apply Forall_and. by split.
Qed.

Lemma xor_block a b : is_block a -> is_block b -> is_block (xor_bytes a b).
Proof.
  intros [Ha Hab] [Hb Hbb]. split; [|by apply AES.xor_bytes_byte]. unfold xor_bytes. rewrite length_zip_with. lia.
Qed.

Lemma cbc_inverse k iv bs :
  valid_key k -> is_block iv -> Forall is_block bs ->
  cbc_decrypt k iv (cbc_encrypt k iv bs) = bs /\ Forall is_block (cbc_encrypt k iv bs).
Proof.
  intros Hk Hiv Hbs. revert iv Hiv. induction Hbs as [|b bs Hb Hbs IH]; intros iv Hiv; [done|].
  cbn [cbc_encrypt cbc_decrypt]. assert (is_block (enc_block k (xor_bytes b iv))) as Hc by (by apply enc_block_block, xor_block).
  destruct (IH _ Hc) as [-> Hcs]. split; [|by constructor]. f_equal.
  rewrite dec_enc_block by (done || by apply xor_block). apply AES.xor_bytes_twice. destruct Hb, Hiv. lia.
Qed.

Lemma chunked_cons c cs : chunked (c :: cs) -> (0 < length c <= 16)%nat /\ chunked cs /\ (cs <> [] -> length c = 16%nat).
Proof. destruct cs; cbn; [done|]. intros [-> ?]. split_and!; [lia..|done|done]. Qed.

Lemma cfb_inverse k iv ps :
  valid_key k -> is_block iv -> chunked ps -> Forall (Forall byte) ps ->
  cfb_decrypt k iv (cfb_encrypt k iv ps) = ps /\ length <$> cfb_encrypt k iv ps = length <$> ps /\
  Forall (Forall byte) (cfb_encrypt k iv ps).
Proof.
  intros Hk. revert iv. induction ps as [|p ps IH]; intros iv Hiv Hc Hb; [done|].
  apply chunked_cons in Hc as (Hlp & Hc & H16). inversion Hb as [|? ? Hpb Hpsb]; subst. cbn [cfb_encrypt cfb_decrypt].
  destruct (enc_block_block k iv Hk Hiv) as [Hel Heb].
  assert (length (xor_bytes p (enc_block k iv)) = length p) as Hl by (unfold xor_bytes in *; rewrite length_zip_with; lia).
  assert (Forall byte (xor_bytes p (enc_block k iv))) as Hxb by (by apply AES.xor_bytes_byte).
  destruct (decide (ps = [])) as [->|Hne].
  - cbn. split_and!; [|by rewrite Hl|by repeat constructor]. f_equal. apply AES.xor_bytes_twice. lia.
  - destruct (IH (xor_bytes p (enc_block k iv))) as (-> & Hls & Hcb); [split; [rewrite Hl; by apply H16|done]|done..|].
    split_and!; [|by cbn; rewrite Hl, Hls|by constructor]. f_equal. apply AES.xor_bytes_twice. lia.
Qed.

Lemma blocks_bytes l : Forall byte l -> Forall (Forall byte) (blocks l).
Proof. intros Hb. destruct (blocks_chunked l) as [_ Hl]. rewrite <- Hl in Hb. by rewrite Forall_concat in Hb. Qed.

(** CBC undoes itself on whole blocks; CFB on anything. *)
Lemma cbc_roundtrip k iv data :
  valid_key k -> is_block iv -> Forall byte data -> (length data mod 16 = 0)%nat ->
  exists c, CryptBlocks (cbc_encrypt k iv) data = Ret c /\ Forall byte c /\ CryptBlocks (cbc_decrypt k iv) c = Ret data.
Proof.
  intros Hk Hiv Hd Hm. unfold CryptBlocks. rewrite decide_True by done. eexists. split; [reflexivity|].
  pose proof (chunked_blocks _ Hm Hd) as Hbs. destruct (cbc_inverse k iv (blocks data) Hk Hiv Hbs) as [Hinv Hcs].
  destruct (blocks_chunked data) as [Hc Hl]. split.
  { apply Forall_concat. eapply Forall_impl; [exact Hcs|]. by intros c [_ Hb]. }
  assert (length <$> blocks data = length <$> cbc_encrypt k iv (blocks data)) as Hls.
  { clear - Hbs Hcs. generalize dependent (blocks data). intros bs Hbs. revert iv. induction Hbs as [|b bs [Hb _] Hbs IH]; intros iv Hcs; [done|].
    cbn [cbc_encrypt] in *. inversion Hcs as [|? ? [Hc _] Hcs']; subst. cbn. by rewrite Hb, Hc, <- IH. }
  rewrite blocks_concat by (by apply (chunked_lengths (blocks data))).
  rewrite decide_True; [by rewrite Hinv, Hl|]. by rewrite <- (concat_lengths _ _ Hls), Hl.
Qed.

Lemma cfb_roundtrip k iv data :
  valid_key k -> is_block iv -> Forall byte data ->
  XORKeyStream (cfb_decrypt k iv) (XORKeyStream (cfb_encrypt k iv) data) = data /\
  Forall byte (XORKeyStream (cfb_encrypt k iv) data).
Proof.
  intros Hk Hiv Hd. unfold XORKeyStream. destruct (blocks_chunked data) as [Hc Hl].
  destruct (cfb_inverse k iv (blocks data) Hk Hiv Hc (blocks_bytes _ Hd)) as (Hinv & Hls & Hcb).
  rewrite blocks_concat by (by apply (chunked_lengths (blocks data))). split; [by rewrite Hinv|by apply Forall_concat].
Qed.

End modes.

(** ** [base64.StdEncoding] *)

(** The character of six bits. *)
Definition b64_char (v : Z) : ascii :=
  ascii_of_N (Z.to_N (if decide (v < 26) then 65 + v else if decide (v < 52) then 71 + v
    else if decide (v < 62) then v - 4 else if decide (v = 62) then 43 else 47)).
Definition b64_value (c : ascii) : option Z :=
  let n := Z.of_N (N_of_ascii c) in
  if decide (65 <= n <= 90) then Some (n - 65)
  else if decide (97 <= n <= 122) then Some (n - 71)
  else if decide (48 <= n <= 57) then Some (n + 4)
  else if decide (n = 43) then Some 62
  else if decide (n = 47) then Some 63
  else None.
Definition b64_pad : ascii := "=".

Fixpoint EncodeToString (src : bytes) : string :=
  match src with
  | [] => EmptyString
  | [a] => String (b64_char (a / 4)) (String (b64_char (a mod 4 * 16)) (String b64_pad (String b64_pad EmptyString)))
  | [a; b] =>
      String (b64_char (a / 4)) (String (b64_char (a mod 4 * 16 + b / 16)) (String (b64_char (b mod 16 * 4)) (String b64_pad EmptyString)))
  | a :: b :: c :: src =>
      String (b64_char (a / 4)) (String (b64_char (a mod 4 * 16 + b / 16)) (String (b64_char (b mod 16 * 4 + c / 64))
        (String (b64_char (c mod 64)) (EncodeToString src))))
  end.

(** The decoder ignores line breaks, and takes padding in the last group only. *)
Fixpoint no_breaks (s : string) : string :=
  match s with
  | EmptyString => EmptyString
  | String c s => if bool_decide (c = "010"%char) || bool_decide (c = "013"%char) then no_breaks s else String c (no_breaks s)
  end.
Fixpoint decode_quads (s : string) : option bytes :=
  match s with
  | EmptyString => Some []
  | String a (String b (String c (String d s'))) =>
      va ← b64_value a; vb ← b64_value b;
      match b64_value c, b64_value d with
      | Some vc, Some vd =>
          rest ← decode_quads s';
          Some (va * 4 + vb / 16 :: vb mod 16 * 16 + vc / 4 :: vc mod 4 * 64 + vd :: rest)
      | Some vc, None =>
          if bool_decide (d = b64_pad) && bool_decide (s' = EmptyString) then Some [va * 4 + vb / 16; vb mod 16 * 16 + vc / 4] else None
      | None, _ =>
          if bool_decide (c = b64_pad) && bool_decide (d = b64_pad) && bool_decide (s' = EmptyString) then Some [va * 4 + vb / 16] else None
      end
  | _ => None
  end.
Definition DecodeString (s : string) : option bytes := decode_quads (no_breaks s).

Example b64_1 : EncodeToString (bytes_of "polaris") = "cG9sYXJpcw==". Proof. reflexivity. Qed.
Example b64_2 : DecodeString ("cG9s" +:+ String "010" "YXJpcw==") = Some (bytes_of "polaris"). Proof. reflexivity. Qed.
Example b64_3 : DecodeString "cG9sYXJpc" = None. Proof. reflexivity. Qed.

Lemma b64_cases (P : Z -> bool) : forallb P (seqZ 0 64) = true -> forall v, 0 <= v < 64 -> P v = true.
Proof. intros H v Hv. rewrite forallb_forall in H. apply H, list_elem_of_In, elem_of_seqZ. lia. Qed.

Lemma b64_value_char v : 0 <= v < 64 -> b64_value (b64_char v) = Some v.
Proof.
  intros Hv. apply (bool_decide_eq_true_1 _). revert v Hv. apply (b64_cases (fun v => bool_decide (b64_value (b64_char v) = Some v))). by vm_compute.
Qed.

Lemma b64_char_break v : 0 <= v < 64 -> bool_decide (b64_char v = "010"%char) || bool_decide (b64_char v = "013"%char) = false.
Proof.
  intros Hv. apply negb_true_iff. revert v Hv.
  apply (b64_cases (fun v => negb (bool_decide (b64_char v = "010"%char) || bool_decide (b64_char v = "013"%char)))). by vm_compute.
Qed.

Lemma no_breaks_char v s : 0 <= v < 64 -> no_breaks (String (b64_char v) s) = String (b64_char v) (no_breaks s).
Proof. intros Hv. cbn [no_breaks]. by rewrite b64_char_break. Qed.

Lemma six_bits a b c :
  byte a -> byte b -> byte c ->
  0 <= a / 4 < 64 /\ 0 <= a mod 4 * 16 < 64 /\ 0 <= a mod 4 * 16 + b / 16 < 64 /\ 0 <= b mod 16 * 4 < 64 /\
  0 <= b mod 16 * 4 + c / 64 < 64 /\ 0 <= c mod 64 < 64.
Proof. unfold byte. intros. Z.to_euclidean_division_equations. lia. Qed.

Lemma eight_bits a b c :
  byte a -> byte b -> byte c ->
  a / 4 * 4 + (a mod 4 * 16 + b / 16) / 16 = a /\ a / 4 * 4 + (a mod 4 * 16) / 16 = a /\
  (a mod 4 * 16 + b / 16) mod 16 * 16 + (b mod 16 * 4 + c / 64) / 4 = b /\ (a mod 4 * 16 + b / 16) mod 16 * 16 + (b mod 16 * 4) / 4 = b /\
  (b mod 16 * 4 + c / 64) mod 4 * 64 + c mod 64 = c.
Proof. unfold byte. intros. Z.to_euclidean_division_equations. lia. Qed.

(** Decoding undoes encoding. *)
Lemma base64_roundtrip src : Forall byte src -> DecodeString (EncodeToString src) = Some src.
Proof.
  unfold DecodeString. enough (forall n src, (length src < n)%nat -> Forall byte src -> decode_quads (no_breaks (EncodeToString src)) = Some src) by eauto.
  intros n. clear src. induction n as [|n IH]; [lia|].
  intros [|a [|b [|c src]]] Hl Hs; [done|..];
    repeat match goal with H : Forall byte (_ :: _) |- _ => inversion H; subst; clear H end.
  - destruct (six_bits a 0 0) as (B1 & B2 & _); [done..|]. destruct (eight_bits a 0 0) as (_ & E2 & _); [done..|].
    cbn [EncodeToString]. rewrite !no_breaks_char by done. cbn [decode_quads no_breaks b64_pad bool_decide].
    change (no_breaks (String b64_pad (String b64_pad ""))) with "==". cbn [decode_quads].
    rewrite !b64_value_char by done. cbn. by rewrite E2.
  - destruct (six_bits a b 0) as (B1 & B2 & B3 & B4 & _); [done..|]. destruct (eight_bits a b 0) as (E1 & _ & _ & E4 & _); [done..|].
    cbn [EncodeToString]. rewrite !no_breaks_char by done.
    change (no_breaks (String b64_pad "")) with "=". cbn [decode_quads].
    rewrite !b64_value_char by done. cbn. by rewrite E1, E4.
  - destruct (six_bits a b c) as (B1 & B2 & B3 & B4 & B5 & B6); [done..|]. destruct (eight_bits a b c) as (E1 & _ & E3 & _ & E5); [done..|].
    cbn [EncodeToString]. rewrite !no_breaks_char by done. cbn [decode_quads].
    rewrite !b64_value_char by done. cbn [mbind option_bind]. rewrite IH; [|simpl in Hl; lia|done]. cbn. by rewrite E1, E3, E5.
Qed.
