(* ===== verification/Token.v ===== *)
(** * The AES plugin and access tokens ([src/plugin/crypto/aes/aes.go], [src/auth/defaultauth/token.go])

    The plugin encrypts configuration files with AES in CBC mode and PKCS7
    padding.  A token is [random::uid/id] or [random::groupid/id], encrypted with
    AES in CFB mode under the configured salt; both are written in base64.
    What [crypto/rand] returns is an argument. *)

From S2P Require Import Prelude GoStrings Hash Utils BaseCache Cipher UserCache.
From Stdlib Require Import ZArith Lia Ascii.
From stdpp Require Import base tactics list gmap strings.

Open Scope Z_scope.

(** [string(b)]. *)
Definition string_of (b : bytes) : string := String.string_of_list_ascii ((fun z => ascii_of_N (Z.to_N z)) <$> b).

Inductive crypto_error := KeySizeError | CorruptInputError | InvalidEncryptionData | InvalidCiphertextSize | RandFailed | NoIds.
#[export] Instance crypto_error_eq_dec : EqDecision crypto_error.
Proof. solve_decision. Defined.

(** [aes.NewCipher] accepts keys of 16, 24 and 32 bytes. *)
Definition NewCipher (key : bytes) : bool := bool_decide (length key = 16 \/ length key = 24 \/ length key = 32)%nat.
Definition BlockSize : Z := 16.

(** ** The plugin *)

Definition GenerateKey (rand : option bytes) : result crypto_error bytes :=
  match rand with None => Fail RandFailed | Some key => Okay (take 16 key) end.

Definition pkcs7Padding (data : bytes) (blockSize : Z) : bytes :=
  let padding := blockSize - Z.of_nat (length data) mod blockSize in
  data ++ replicate (Z.to_nat padding) (u8 padding).

Definition pkcs7UnPadding (data : bytes) : outcome (result crypto_error bytes) :=
  let length := Z.of_nat (length data) in
  if decide (length = 0) then Ret (Fail InvalidEncryptionData)
  else
    unPadding ← index data (length - 1);
    if decide (length - unPadding < 0) then Panics SliceOutOfRange
    else Ret (Okay (take (Z.to_nat (length - unPadding)) data)).

Definition encrypt (plaintext key : bytes) : outcome (result crypto_error bytes) :=
  if negb (NewCipher key) then Ret (Fail KeySizeError)
  else
    let paddingData := pkcs7Padding plaintext BlockSize in
    Okay <$> CryptBlocks (cbc_encrypt key (take 16 key)) paddingData.

Definition decrypt (ciphertext key : bytes) : outcome (result crypto_error bytes) :=
  if negb (NewCipher key) then Ret (Fail KeySizeError)
  else
    paddingPlaintext ← CryptBlocks (cbc_decrypt key (take 16 key)) ciphertext;
    pkcs7UnPadding paddingPlaintext.

Definition Encrypt (plaintext : string) (key : bytes) : outcome (result crypto_error string) :=
  r ← encrypt (bytes_of plaintext) key;
  Ret match r with Okay ciphertext => Okay (EncodeToString ciphertext) | Fail e => Fail e end.

Definition Decrypt (ciphertext : string) (key : bytes) : outcome (result crypto_error string) :=
  match DecodeString ciphertext with
  | None => Ret (Fail CorruptInputError)
  | Some ciphertextBytes =>
      r ← decrypt ciphertextBytes key;
      Ret match r with Okay plaintext => Okay (string_of plaintext) | Fail e => Fail e end
  end.

(** ** Tokens *)

Record OperatorInfo := mkOperator {
  Origin : string;
  OperatorID : string;
  OwnerID : string;
  ORole : Z;
  IsUserToken : bool;
  Disable : bool;
  Anonymous : bool }.
#[export] Instance OperatorInfo_eq_dec : EqDecision OperatorInfo.
Proof. solve_decision. Defined.

(** The fields not given are Go's zero values; a role of zero is the administrator's. *)
Definition emptyOperator : OperatorInfo := mkOperator "" "" "" 0 false false false.
Definition newAnonymous : OperatorInfo := mkOperator "" "__anonymous__" "" 0 false false true.
Definition IsEmptyOperator (t : OperatorInfo) : bool := bool_decide (Origin t = "") || Anonymous t.
Definition IsSubAccount (t : OperatorInfo) : bool := bool_decide (ORole t = SubAccountUserRole).

Definition TokenForUser : string := "uid".
Definition TokenForUserGroup : string := "groupid".
Definition TokenSplit : string := "::".

Definition encryptMessage (rand : option bytes) (key : bytes) (message : string) : result crypto_error string :=
  if negb (NewCipher key) then Fail KeySizeError
  else match rand with
       | None => Fail RandFailed
       | Some iv => Okay (EncodeToString (iv ++ XORKeyStream (cfb_encrypt key iv) (bytes_of message)))
       end.

Definition decryptMessage (key : bytes) (message : string) : result crypto_error string :=
  match DecodeString message with
  | None => Fail CorruptInputError
  | Some cipherText =>
      if negb (NewCipher key) then Fail KeySizeError
      else if decide (Z.of_nat (length cipherText) < BlockSize) then Fail InvalidCiphertextSize
      else
        let iv := take 16 cipherText in
        Okay (string_of (XORKeyStream (cfb_decrypt key iv) (drop 16 cipherText)))
  end.

(** [rand]: the vector read from [crypto/rand]; [uuid]: [uuid.NewString()[8:16]]. *)
Definition createToken (rand : option bytes) (uuid : string) (salt : string) (uid gid : string) : result crypto_error string :=
  if decide (uid = "" /\ gid = "") then Fail NoIds
  else
    let val := if decide (uid = "") then TokenForUserGroup +:+ "/" +:+ gid else TokenForUser +:+ "/" +:+ uid in
    encryptMessage rand (bytes_of salt) (uuid +:+ "::" +:+ val).
Definition createUserToken rand uuid salt (uid : string) := createToken rand uuid salt uid "".
Definition createGroupToken rand uuid salt (gid : string) := createToken rand uuid salt "" gid.

(** [strings.Split(s, "::")]. *)
Fixpoint SplitColons (s : string) : list string :=
  match s with
  | String ":" (String ":" s') => "" :: SplitColons s'
  | String c s' => match SplitColons s' with [] => [String c EmptyString] | t :: ts => String c t :: ts end
  | EmptyString => [""]
  end.

Inductive auth_error :=
| ErrorTokenInvalid
| ErrorTokenNotExist
| ErrorTokenDisabled
| ErrorNoUser
| ErrorNoUserGroup
| DecryptError (e : crypto_error)
| NoPermission
| OnlyUser
| OnlyOwner
| SyncFailed.
#[export] Instance auth_error_eq_dec : EqDecision auth_error.
Proof. solve_decision. Defined.

(** [decodeToken] ([auth_checker.go]). *)
Definition decodeToken (salt : string) (t : string) : result auth_error OperatorInfo :=
  if decide (t = "") then Fail ErrorTokenInvalid
  else match decryptMessage (bytes_of salt) t with
       | Fail e => Fail (DecryptError e)
       | Okay ret =>
           match SplitColons ret with
           | [_; details] =>
               match Split "/" details with
               | [kind; id] => Okay (mkOperator t id "" UnknownUserRole (bool_decide (kind = TokenForUser)) false false)
               | _ => Fail ErrorTokenInvalid
               end
           | _ => Fail ErrorTokenInvalid
           end
       end.

(** ** Lemmas *)

Lemma bytes_of_byte s : Forall byte (bytes_of s).
Proof.
  unfold bytes_of. apply Forall_fmap, Forall_true. intros c. unfold compose, byte.
  destruct c as [[] [] [] [] [] [] [] []]; cbn; lia.
Qed.

Lemma string_of_bytes s : string_of (bytes_of s) = s.
Proof.
  unfold string_of, bytes_of. rewrite <- list_fmap_compose. rewrite (list_fmap_ext _ id).
  - rewrite list_fmap_id. apply String.string_of_list_ascii_of_string.
  - intros _ c _. unfold compose. rewrite N2Z.id. apply ascii_N_embedding.
Qed.

Lemma NewCipher_valid key : Forall byte key -> NewCipher key = true -> valid_key key /\ is_block (take 16 key).
Proof.
  unfold NewCipher. intros Hb Hk%bool_decide_eq_true. split; [by split|]. split; [rewrite length_take; lia|by apply Forall_take].
Qed.

Lemma padding_spec data :
  let padding := BlockSize - Z.of_nat (length data) mod BlockSize in
  1 <= padding <= 16 /\ (length (pkcs7Padding data BlockSize) mod 16 = 0)%nat /\
  pkcs7Padding data BlockSize = data ++ replicate (Z.to_nat padding) padding.
Proof.
  unfold BlockSize. cbv zeta. pose proof (Z.mod_pos_bound (Z.of_nat (length data)) 16) as Hm.
  assert (1 <= 16 - Z.of_nat (length data) mod 16 <= 16) as Hp by lia. split; [done|].
  unfold pkcs7Padding. split.
  - rewrite length_app, length_replicate. apply Nat2Z.inj. rewrite Nat2Z.inj_mod, Nat2Z.inj_add, Z2Nat.id by lia.
    change (Z.of_nat 16) with 16. change (Z.of_nat 0) with 0. Z.to_euclidean_division_equations. lia.
  - do 2 f_equal. apply wrap_u_small. lia.
Qed.

Lemma unpadding_padding data : pkcs7UnPadding (pkcs7Padding data BlockSize) = Ret (Okay data).
Proof.
  destruct (padding_spec data) as (Hp & _ & ->). set (padding := BlockSize - _) in *. unfold pkcs7UnPadding.
  assert (length (data ++ replicate (Z.to_nat padding) padding) = (length data + Z.to_nat padding)%nat) as Hl
    by (rewrite length_app, length_replicate; done).
  rewrite Hl. rewrite decide_False by lia.
  assert (index (data ++ replicate (Z.to_nat padding) padding) (Z.of_nat (length data + Z.to_nat padding) - 1) = Ret padding) as ->.
  { apply index_Ret. split; [lia|]. rewrite lookup_app_r by lia. apply lookup_replicate. split; [done|lia]. }
  cbn [mbind outcome_bind]. rewrite decide_False by lia. do 2 f_equal.
  rewrite take_app_length'; [done|lia].
Qed.

Lemma pkcs7Padding_byte data : Forall byte data -> Forall byte (pkcs7Padding data BlockSize).
Proof.
  intros Hd. destruct (padding_spec data) as (Hp & _ & ->). apply Forall_app. split; [done|].
  apply Forall_replicate. unfold byte. lia.
Qed.

(** Pieces between double colons. *)
Lemma SplitColons_plain s : occurs ":" s = false -> SplitColons s = [s].
Proof.
  induction s as [|c s IH]; [done|]. cbn [occurs]. intros [Hc Hs]%orb_false_iff. specialize (IH Hs).
  cbn [SplitColons]. rewrite IH. destruct c as [[] [] [] [] [] [] [] []]; done.
Qed.

Lemma SplitColons_cons s t : occurs ":" s = false -> SplitColons (s +:+ "::" +:+ t) = s :: SplitColons t.
Proof.
  induction s as [|c s IH]; [done|]. cbn [occurs]. intros [Hc Hs]%orb_false_iff. specialize (IH Hs).
  change (String c s +:+ "::" +:+ t) with (String c (s +:+ "::" +:+ t)). cbn [SplitColons]. rewrite IH.
  destruct c as [[] [] [] [] [] [] [] []]; done.
Qed.

(** ** Properties *)

(** The AES plugin's encryption can be undone: any text, encrypted under any
    key that [NewCipher] accepts, decrypts to itself. *)
Theorem aes_decrypt_encrypt (plaintext : string) (key : bytes) :
  Forall byte key -> NewCipher key = true ->
  exists ciphertext, Encrypt plaintext key = Ret (Okay ciphertext) /\ Decrypt ciphertext key = Ret (Okay plaintext).
Proof.
  intros Hb Hn. destruct (NewCipher_valid key Hb Hn) as [Hk Hiv].
  destruct (padding_spec (bytes_of plaintext)) as (_ & Hm & _).
  destruct (cbc_roundtrip key (take 16 key) (pkcs7Padding (bytes_of plaintext) BlockSize)) as (c & He & Hc & Hd);
    [done|done|by apply pkcs7Padding_byte, bytes_of_byte|done|].
  exists (EncodeToString c). unfold Encrypt, Decrypt, encrypt, decrypt. rewrite Hn. cbn [negb]. split.
  - rewrite He. done.
  - rewrite base64_roundtrip by done. rewrite Hd. cbn [mbind outcome_bind]. rewrite unpadding_padding. cbn. by rewrite string_of_bytes.
Qed.

(** Decryption does not return an error for every corrupt input: it panics
    on one that is not whole blocks, and on one whose last byte, decrypted, is
    more than its length. *)
Theorem aes_corrupt_input_panics (key data : bytes) :
  Forall byte key -> NewCipher key = true -> Forall byte data ->
  ((length data mod 16 <> 0)%nat -> Decrypt (EncodeToString data) key = Panics ExplicitPanic) /\
  (forall p last, data = p ++ [last] -> (length data mod 16 = 0)%nat -> Z.of_nat (length data) < last ->
     exists c, CryptBlocks (cbc_encrypt key (take 16 key)) data = Ret c /\ Decrypt (EncodeToString c) key = Panics SliceOutOfRange).
Proof.
  intros Hb Hn Hd. destruct (NewCipher_valid key Hb Hn) as [Hk Hiv]. split.
  - intros Hm. unfold Decrypt, decrypt. rewrite base64_roundtrip, Hn by done. cbn [negb]. unfold CryptBlocks. by rewrite decide_False.
  - intros p last -> Hm Hl. destruct (cbc_roundtrip key (take 16 key) (p ++ [last])) as (c & He & Hc & Hdec); [done..|].
    exists c. split; [done|]. unfold Decrypt, decrypt. rewrite base64_roundtrip, Hn by done. cbn [negb]. rewrite Hdec.
    cbn [mbind outcome_bind]. unfold pkcs7UnPadding. rewrite length_app in *. cbn [length] in *.
    rewrite decide_False by lia.
    assert (index (p ++ [last]) (Z.of_nat (length p + 1) - 1) = Ret last) as ->.
    { apply index_Ret. split; [lia|]. rewrite lookup_app_r by lia. replace (Z.to_nat _ - length p)%nat with 0%nat by lia. done. }
    cbn [mbind outcome_bind]. by rewrite decide_True by lia.
Qed.

Lemma created_token_decodes (iv : bytes) (uuid salt uid gid token : string) :
  is_block iv -> occurs ":" uuid = false ->
  occurs ":" (uid +:+ gid) = false -> occurs "/" (uid +:+ gid) = false ->
  createToken (Some iv) uuid salt uid gid = Okay token ->
  decodeToken salt token =
    Okay (mkOperator token (if decide (uid = "") then gid else uid) "" UnknownUserRole (bool_decide (uid <> "")) false false).
Proof.
  intros Hiv Hu Hc Hs. rewrite !occurs_app in Hc, Hs. apply orb_false_iff in Hc as [Hcu Hcg], Hs as [Hsu Hsg].
  unfold createToken. case_decide as Hne; [done|]. unfold encryptMessage. destruct (NewCipher (bytes_of salt)) eqn:Hn; [|done]. cbn [negb].
  destruct (NewCipher_valid _ (bytes_of_byte salt) Hn) as [Hk _].
  set (kind := if decide (uid = "") then TokenForUserGroup else TokenForUser).
  set (id := if decide (uid = "") then gid else uid).
  assert ((if decide (uid = "") then TokenForUserGroup +:+ "/" +:+ gid else TokenForUser +:+ "/" +:+ uid) = kind +:+ "/" +:+ id) as ->
    by (unfold kind, id; by case_decide).
  set (msg := uuid +:+ "::" +:+ kind +:+ "/" +:+ id). intros [= <-].
  destruct (cfb_roundtrip (bytes_of salt) iv (bytes_of msg) Hk Hiv (bytes_of_byte _)) as [Hr Hxb].
  set (x := XORKeyStream (cfb_encrypt (bytes_of salt) iv) (bytes_of msg)) in *.
  assert (EncodeToString (iv ++ x) <> "") as Hnempty.
  { destruct Hiv as [Hl _]. destruct iv as [|a [|b [|c iv]]]; discriminate. }
  unfold decodeToken. rewrite decide_False by done. unfold decryptMessage. destruct Hiv as [Hl Hivb].
  rewrite base64_roundtrip by (by apply Forall_app). rewrite Hn. cbn [negb]. unfold BlockSize.
  rewrite decide_False by (rewrite length_app; lia). rewrite take_app_length', drop_app_length' by done. rewrite Hr, string_of_bytes.
  unfold msg. rewrite SplitColons_cons by done.
  assert (occurs ":" (kind +:+ "/" +:+ id) = false) as Hck by (rewrite !occurs_app; unfold kind, id; by case_decide).
  rewrite SplitColons_plain by done.
  assert (Split "/" (kind +:+ "/" +:+ id) = [kind; id]) as ->.
  { assert (occurs "/" kind = false) as Hk1 by (unfold kind; by case_decide). assert (occurs "/" id = false) as Hk2 by (unfold id; by case_decide).
    change (kind +:+ "/" +:+ id) with (kind +:+ String "/" id). rewrite Split_cons by done. by rewrite Split_plain. }
  do 2 f_equal. unfold kind. case_decide as Hz; [subst; done|]. by rewrite !bool_decide_true.
Qed.


(** ** Witnesses *)

Definition demo_salt : string := "polarismesh@2021".
Definition demo_iv : bytes := seqZ 7 16.

Lemma aes_decrypt_encrypt_witness :
  exists c, Encrypt "password" (bytes_of demo_salt) = Ret (Okay c) /\ Decrypt c (bytes_of demo_salt) = Ret (Okay "password").
Proof. apply (aes_decrypt_encrypt "password" (bytes_of demo_salt)); [apply bytes_of_byte|done]. Defined.

Lemma aes_corrupt_input_panics_witness :
  Decrypt (EncodeToString [1; 2; 3]) (bytes_of demo_salt) = Panics ExplicitPanic.
Proof.
  apply (aes_corrupt_input_panics (bytes_of demo_salt) [1; 2; 3]); [apply bytes_of_byte|done|by repeat constructor|done].
Defined.

