(* ===== verification/AuthCheck.v ===== *)
(** * Authorization of requests ([src/auth/defaultauth/auth_checker.go], [utils.go], [server.go], [config.go])

    A request carries a token.  [VerifyCredential] decodes it, compares it with
    the token stored for the account it names and notes the operator in the
    request's context; [CheckPermission] then asks the strategy cache whether
    the operator may change every resource of the request, once more after
    fetching the strategies when the answer is no.  Creating or deleting a
    resource links it to the default strategies ([AfterResourceOperation]). *)

From S2P Require Import Prelude GoStrings Hash Utils BaseCache UserCache StrategyCache Cipher Token.
From Stdlib Require Import ZArith Lia Ascii.
From stdpp Require Import base tactics list gmap strings.

Open Scope Z_scope.

(** ** Data *)

Record AuthConfig := mkAuthConfig { ConsoleOpen : bool; ClientOpen : bool; Salt : string; Strict : bool }.
Definition DefaultAuthConfig : AuthConfig := mkAuthConfig true false "polarismesh@2021" true.
(** [nil] is [true]. *)
Definition Verify (cfg : AuthConfig) : bool :=
  bool_decide (slen (Salt cfg) = 16) || bool_decide (slen (Salt cfg) = 24) || bool_decide (slen (Salt cfg) = 32).

(** [model.BzModule], [model.ResourceOperation]. *)
Definition UnknowModule : Z := 0.
Definition AuthModule : Z := 4.
Definition MaintainModule : Z := 5.
Definition Read : Z := 10.
Definition Create : Z := 20.
Definition Delete : Z := 40.

(** The values of the request's [context.Context]. *)
Record RequestContext := mkRequest {
  ContextAuthToken : string;
  ContextIsOwner : option bool;
  ContextUserID : option string;
  ContextOwnerID : option string;
  ContextUserName : option string;
  ContextUserRoleID : option Z }.

(** [model.AcquireContext]; an attachment that is not set is [None]. *)
Record AcquireContext := mkAcquire {
  requestContext : RequestContext;
  module : Z;
  operation : Z;
  fromClient : bool;
  accessResources : list (Z * list string);
  TokenInfo : option OperatorInfo;
  OperatorRole : option Z;
  OperatorPrincipalType : option Z;
  AttOperatorID : option string;
  LinkUsers : option (list string);
  LinkGroups : option (list string);
  RemoveLinkUsers : option (list string);
  RemoveLinkGroups : option (list string);
  ResourceAttachment : option (list (Z * list string)) }.

Definition SetRequestContext (a : AcquireContext) c :=
  mkAcquire c (module a) (operation a) (fromClient a) (accessResources a) (TokenInfo a) (OperatorRole a)
    (OperatorPrincipalType a) (AttOperatorID a) (LinkUsers a) (LinkGroups a) (RemoveLinkUsers a) (RemoveLinkGroups a) (ResourceAttachment a).
Definition SetTokenInfo (a : AcquireContext) t :=
  mkAcquire (requestContext a) (module a) (operation a) (fromClient a) (accessResources a) (Some t) (OperatorRole a)
    (OperatorPrincipalType a) (AttOperatorID a) (LinkUsers a) (LinkGroups a) (RemoveLinkUsers a) (RemoveLinkGroups a) (ResourceAttachment a).
Definition SetOperator (a : AcquireContext) role ptype id :=
  mkAcquire (requestContext a) (module a) (operation a) (fromClient a) (accessResources a) (TokenInfo a) (Some role)
    (Some ptype) (Some id) (LinkUsers a) (LinkGroups a) (RemoveLinkUsers a) (RemoveLinkGroups a) (ResourceAttachment a).

Definition NewAcquireContext (c : RequestContext) (module operation : Z) (fromClient : bool) (res : list (Z * list string)) : AcquireContext :=
  mkAcquire c module operation fromClient res None None None None None None None None None.

(** A type assertion on an attachment that is not set panics. *)
Definition attachment {A} (o : option A) : outcome A := match o with Some a => Ret a | None => Panics ExplicitPanic end.

Definition ParseUserID (c : RequestContext) : string := default "" (ContextUserID c).

Section checker.
  Context (AuthOption : AuthConfig).

Definition IsOpenConsoleAuth : bool := ConsoleOpen AuthOption.
Definition IsOpenClientAuth : bool := ClientOpen AuthOption.
Definition IsOpenAuth : bool := IsOpenConsoleAuth || IsOpenClientAuth.

(** ** Who is asking *)

Definition canDowngradeAnonymous (authCtx : AcquireContext) (err : auth_error) : bool :=
  if decide (module authCtx = AuthModule) then false
  else if Strict AuthOption then false
  else bool_decide (err = ErrorTokenInvalid) || bool_decide (err = ErrorTokenNotExist).

Definition set_disable (t : OperatorInfo) (d : bool) : OperatorInfo :=
  mkOperator (Origin t) (OperatorID t) (OwnerID t) (ORole t) (IsUserToken t) d (Anonymous t).
Definition set_owner (t : OperatorInfo) (o : string) : OperatorInfo :=
  mkOperator (Origin t) (OperatorID t) o (ORole t) (IsUserToken t) (Disable t) (Anonymous t).
Definition set_role (t : OperatorInfo) (r : Z) : OperatorInfo :=
  mkOperator (Origin t) (OperatorID t) (OwnerID t) r (IsUserToken t) (Disable t) (Anonymous t).

(** The token with its [Disable] field set, the owner id, and whether it is an owner. *)
Definition checkToken (uc : userCache) (tokenInfo : OperatorInfo) : result auth_error (OperatorInfo * string * bool) :=
  if IsEmptyOperator tokenInfo then Okay (tokenInfo, "", false)
  else
    let id := OperatorID tokenInfo in
    if IsUserToken tokenInfo then
      match GetUserByID uc id with
      | None => Fail ErrorNoUser
      | Some user =>
          if decide (Origin tokenInfo <> UToken user) then Fail ErrorTokenNotExist
          else
            let tokenInfo := set_disable tokenInfo (negb (UTokenEnable user)) in
            if decide (UOwner user = "") then Okay (tokenInfo, UID user, true)
            else Okay (tokenInfo, UOwner user, false)
      end
    else
      match GetGroup uc id with
      | None => Fail ErrorNoUserGroup
      | Some group =>
          if decide (Origin tokenInfo <> GToken group) then Fail ErrorTokenNotExist
          else Okay (set_disable tokenInfo (negb (GTokenEnable group)), GOwner group, false)
      end.

Definition parseOperatorInfo (uc : userCache) (operator : OperatorInfo) (authCtx : AcquireContext) : outcome AcquireContext :=
  '(operator, ctx) ←
    (if IsUserToken operator then
       match GetUserByID uc (OperatorID operator) with
       | None => Panics NilDereference
       | Some user =>
           let c := requestContext authCtx in
           Ret (set_role operator (UType user),
                mkRequest (ContextAuthToken c) (ContextIsOwner c) (ContextUserID c) (ContextOwnerID c) (ContextUserName c) (Some (UType user)))
       end
     else Ret (operator, requestContext authCtx));
  let a := SetOperator authCtx (ORole operator) (if IsUserToken operator then PrincipalUser else PrincipalGroup) (OperatorID operator) in
  Ret (SetRequestContext (SetTokenInfo a operator) ctx).

(** The request, with what was learned about it, and the error. *)
Definition VerifyCredential (uc : userCache) (authCtx : AcquireContext) : outcome (AcquireContext * option auth_error) :=
  '(authCtx, checkErr) ←
    (match decodeToken (Salt AuthOption) (ContextAuthToken (requestContext authCtx)) with
     | Fail _ => Ret (authCtx, Some ErrorTokenInvalid)
     | Okay operator =>
         match checkToken uc operator with
         | Fail err => Ret (authCtx, Some err)
         | Okay (operator, ownerId, isOwner) =>
             let operator := set_owner operator ownerId in
             let c := requestContext authCtx in
             let ctx := mkRequest (ContextAuthToken c) (Some isOwner) (Some (OperatorID operator)) (Some ownerId)
               (match GetUserByID uc (OperatorID operator) with Some user => Some (UName user) | None => ContextUserName c end)
               (ContextUserRoleID c) in
             authCtx ← parseOperatorInfo uc operator (SetRequestContext authCtx ctx);
             Ret (authCtx, None)
         end
     end);
  match checkErr with
  | None => Ret (authCtx, None)
  | Some err =>
      if negb (canDowngradeAnonymous authCtx err) then Ret (authCtx, Some err)
      else Ret (SetTokenInfo authCtx newAnonymous, None)
  end.

(** ** What they may do *)

Definition isResourceEditable (sc : strategyCache) (uc : userCache) (userid : string) (resourceType : Z) (resEntries : list string) : bool :=
  forallb (fun entry => IsResourceEditable sc uc (mkPrincipal userid PrincipalUser) resourceType entry) resEntries.

(** The entries of a type, by the map of the request. *)
Definition entries (reqRes : list (Z * list string)) (t : Z) : list string :=
  match list_find (fun e => e.1 = t) reqRes with Some (_, e) => e.2 | None => [] end.

Definition doCheckPermission (sc : strategyCache) (uc : userCache) (authCtx : AcquireContext) : bool * option auth_error :=
  let userId := ParseUserID (requestContext authCtx) in
  let reqRes := accessResources authCtx in
  let checkNamespace := isResourceEditable sc uc userId Namespaces (entries reqRes Namespaces) in
  let checkSvc := isResourceEditable sc uc userId Services (entries reqRes Services) in
  let checkCfgGroup := isResourceEditable sc uc userId ConfigGroups (entries reqRes ConfigGroups) in
  let checkAllResEntries := checkNamespace && checkSvc && checkCfgGroup in
  (checkAllResEntries, if checkAllResEntries then None else Some NoPermission).

(** [syncTime], [sync]: what the store answers if the strategies are fetched. *)
Section permission.
  Context (uc : userCache) (sc : strategyCache) (syncTime : option Z) (sync : option (list StrategyDetail)).

Definition CheckPermission (authCtx : AcquireContext) : outcome (AcquireContext * strategyCache * bool * option auth_error) :=
  '(authCtx, err) ← VerifyCredential uc authCtx;
  match err with
  | Some err => Ret (authCtx, sc, false, Some err)
  | None =>
      if decide (operation authCtx = Read) then Ret (authCtx, sc, true, None)
      else
        operatorInfo ← attachment (TokenInfo authCtx);
        if Disable operatorInfo then Ret (authCtx, sc, false, Some ErrorTokenDisabled)
        else
          let '(ok, _) := doCheckPermission sc uc authCtx in
          if ok then Ret (authCtx, sc, ok, None)
          else
            let '(sc', synced) := ForceSyncStrategy2Cache sc syncTime sync in
            if negb synced then Ret (authCtx, sc', false, Some SyncFailed)
            else let '(ok, err) := doCheckPermission sc' uc authCtx in Ret (authCtx, sc', ok, err)
  end.

Definition checkMaintainPermission (authCtx : AcquireContext) : outcome (AcquireContext * bool * option auth_error) :=
  '(authCtx, err) ← VerifyCredential uc authCtx;
  match err with
  | Some err => Ret (authCtx, false, Some err)
  | None =>
      if decide (operation authCtx = Read) then Ret (authCtx, true, None)
      else
        tokenInfo ← attachment (TokenInfo authCtx);
        if Disable tokenInfo then Ret (authCtx, false, Some ErrorTokenDisabled)
        else if negb (IsUserToken tokenInfo) then Ret (authCtx, false, Some OnlyUser)
        else if decide (ORole tokenInfo <> OwnerUserRole) then Ret (authCtx, false, Some OnlyOwner)
        else Ret (authCtx, true, None)
  end.

Definition CheckClientPermission (preCtx : AcquireContext) : outcome (AcquireContext * strategyCache * bool * option auth_error) :=
  if negb IsOpenClientAuth then Ret (preCtx, sc, true, None) else CheckPermission preCtx.

Definition CheckConsolePermission (preCtx : AcquireContext) : outcome (AcquireContext * strategyCache * bool * option auth_error) :=
  if negb IsOpenConsoleAuth then Ret (preCtx, sc, true, None)
  else if decide (module preCtx = MaintainModule) then
    '(a, ok, err) ← checkMaintainPermission preCtx; Ret (a, sc, ok, err)
  else CheckPermission preCtx.

End permission.

(** ** The account API's own check ([utils.go]) *)

Definition verifyAuth (uc : userCache) (ctx : RequestContext) (isWrite needOwner : bool) : outcome (result Code RequestContext) :=
  if decide (ContextAuthToken ctx = "") then Ret (Fail EmptyAutToken)
  else
    '(authCtx, err) ← VerifyCredential uc (NewAcquireContext ctx AuthModule 0 false []);
    match err with
    | Some _ => Ret (Fail AuthTokenForbidden)
    | None =>
        tokenInfo ← attachment (TokenInfo authCtx);
        if isWrite && Disable tokenInfo then Ret (Fail TokenDisabled)
        else if negb (IsUserToken tokenInfo) then Ret (Fail OperationRoleForbidden)
        else if needOwner && IsSubAccount tokenInfo then Ret (Fail OperationRoleForbidden)
        else Ret (Okay (requestContext authCtx))
    end.

End checker.

(** ** After a resource was created or deleted ([server.go]) *)

Section after.
  (** The store: the default strategy of a principal (an error, none, or its
      id), and whether a write succeeds. *)
Inductive strategy_write :=
  | LooseAddStrategyResources (strategyId : string) (res : list (Z * string))
  | RemoveStrategyResources (strategyId : string) (res : list (Z * string)).
  Context (GetDefaultStrategyDetailByPrincipal : string -> Z -> option (option string)) (write : strategy_write -> bool).

Inductive after_error := NotFoundTargetUser | NotFoundTargetGroup | NotFoundDefaultStrategy | StoreFailed.

(** The writes so far, and the error. *)
Abbreviation effect := (list strategy_write * option after_error)%type.

Definition StringSliceDeDuplication (s : list string) : list string :=
  reverse (foldl (fun res x => if decide (x ∈ res) then res else x :: res) [] s).

Definition handlerModifyDefaultStrategy (done : list strategy_write) (id : string) (uType : Z) (afterCtx : AcquireContext) (cleanRealtion : bool) : outcome effect :=
  match GetDefaultStrategyDetailByPrincipal id uType with
  | None => Ret (done, Some StoreFailed)
  | Some None => Ret (done, Some NotFoundDefaultStrategy)
  | Some (Some strategyId) =>
      resources ← attachment (ResourceAttachment afterCtx);
      let isDelete := bool_decide (operation afterCtx = Delete) in
      let strategyId := if isDelete then "" else strategyId in
      let strategyResource := resources ≫= (fun e => (fun id => (e.1, id)) <$> e.2) in
      let w := if isDelete || cleanRealtion then RemoveStrategyResources strategyId strategyResource
               else LooseAddStrategyResources strategyId strategyResource in
      Ret (done ++ [w], if write w then None else Some StoreFailed)
  end.

(** The loops range over the positions of the list without duplicates, and
    index the list with them. *)
Fixpoint handleStrategies (find : string -> bool) (missing : after_error) (uType : Z) (afterCtx : AcquireContext) (isRemove : bool)
    (ids : list string) (indices : list nat) (written : list strategy_write) : outcome effect :=
  match indices with
  | [] => Ret (written, None)
  | i :: indices =>
      id ← index ids (Z.of_nat i);
      if negb (find id) then Ret (written, Some missing)
      else
        '(written, err) ← handlerModifyDefaultStrategy written id uType afterCtx isRemove;
        match err with
        | Some e => Ret (written, Some e)
        | None => handleStrategies find missing uType afterCtx isRemove ids indices written
        end
  end.

Definition handleUserStrategy (uc : userCache) (written : list strategy_write) (userIds : list string) (afterCtx : AcquireContext) (isRemove : bool) : outcome effect :=
  handleStrategies (fun id => bool_decide (is_Some (GetUserByID uc id))) NotFoundTargetUser PrincipalUser afterCtx isRemove userIds
    (seq 0 (length (StringSliceDeDuplication userIds))) written.
Definition handleGroupStrategy (uc : userCache) (written : list strategy_write) (groupIds : list string) (afterCtx : AcquireContext) (isRemove : bool) : outcome effect :=
  handleStrategies (fun id => bool_decide (is_Some (GetGroup uc id))) NotFoundTargetGroup PrincipalGroup afterCtx isRemove groupIds
    (seq 0 (length (StringSliceDeDuplication groupIds))) written.

(** One of the four calls, unless an earlier one failed. *)
Definition unless_failed (e : effect) (k : list strategy_write -> outcome effect) : outcome effect :=
  match e.2 with Some _ => Ret e | None => k e.1 end.

Definition AfterResourceOperation (AuthOption : AuthConfig) (uc : userCache) (afterCtx : AcquireContext) : outcome effect :=
  if negb (IsOpenAuth AuthOption) || bool_decide (operation afterCtx = Read) then Ret ([], None)
  else if fromClient afterCtx && negb (IsOpenClientAuth AuthOption) then Ret ([], None)
  else if negb (fromClient afterCtx) && negb (IsOpenConsoleAuth AuthOption) then Ret ([], None)
  else
    tokenInfo ← attachment (TokenInfo afterCtx);
    if IsEmptyOperator tokenInfo then Ret ([], None)
    else
      addUserIds ← attachment (LinkUsers afterCtx);
      addGroupIds ← attachment (LinkGroups afterCtx);
      removeUserIds ← attachment (RemoveLinkUsers afterCtx);
      removeGroupIds ← attachment (RemoveLinkGroups afterCtx);
      let creating := bool_decide (operation afterCtx = Create) in
      let addUserIds := if creating && IsUserToken tokenInfo then addUserIds ++ [OperatorID tokenInfo] else addUserIds in
      let addGroupIds := if creating && negb (IsUserToken tokenInfo) then addGroupIds ++ [OperatorID tokenInfo] else addGroupIds in
      e ← handleUserStrategy uc [] addUserIds afterCtx false;
      e ← unless_failed e (fun w => handleGroupStrategy uc w addGroupIds afterCtx false);
      e ← unless_failed e (fun w => handleUserStrategy uc w removeUserIds afterCtx true);
      unless_failed e (fun w => handleGroupStrategy uc w removeGroupIds afterCtx true).

End after.

(** ** Lemmas *)

(** The account a token belongs to. *)
Definition token_of (uc : userCache) (token : string) (operatorID : string) (isUser : bool) (enabled : bool) : Prop :=
  if isUser then exists user, GetUserByID uc operatorID = Some user /\ UToken user = token /\ UTokenEnable user = enabled
  else exists group, GetGroup uc operatorID = Some group /\ GToken group = token /\ GTokenEnable group = enabled.

Lemma decodeToken_origin salt t op : decodeToken salt t = Okay op -> Origin op = t /\ t <> "" /\ Anonymous op = false.
Proof.
  unfold decodeToken. case_decide; [done|]. repeat case_match; try done. by intros [= <-].
Qed.

Lemma checkToken_Okay uc op op' owner isOwner :
  Origin op <> "" -> Anonymous op = false -> checkToken uc op = Okay (op', owner, isOwner) ->
  token_of uc (Origin op) (OperatorID op) (IsUserToken op) (negb (Disable op')) /\
  OperatorID op' = OperatorID op /\ IsUserToken op' = IsUserToken op /\ Origin op' = Origin op /\ ORole op' = ORole op.
Proof.
  intros Ho Ha. unfold checkToken, IsEmptyOperator, token_of. rewrite bool_decide_false, Ha by done. cbn [orb].
  destruct (IsUserToken op) eqn:Hu.
  - destruct (GetUserByID uc (OperatorID op)) as [user|] eqn:Hg; [|done]. case_decide as Ht; [done|].
    case_decide; intros [= <- <- <-]; cbn; rewrite Hu; (split; [|done]); exists user; by rewrite negb_involutive.
  - destruct (GetGroup uc (OperatorID op)) as [group|] eqn:Hg; [|done]. case_decide as Ht; [done|].
    intros [= <- <- <-]. cbn. rewrite Hu. split; [|done]. exists group. by rewrite negb_involutive.
Qed.

(** What [VerifyCredential] leaves: the operator of the stored token, or the
    anonymous one. *)
Definition identified (uc : userCache) (a a' : AcquireContext) : Prop :=
  exists op, TokenInfo a' = Some op /\ Anonymous op = false /\ Origin op = ContextAuthToken (requestContext a) /\
    token_of uc (Origin op) (OperatorID op) (IsUserToken op) (negb (Disable op)) /\
    ParseUserID (requestContext a') = OperatorID op /\
    (IsUserToken op = true -> exists user, GetUserByID uc (OperatorID op) = Some user /\ ORole op = UType user).
Definition anonymous (AuthOption : AuthConfig) (a a' : AcquireContext) : Prop :=
  Strict AuthOption = false /\ module a <> AuthModule /\ a' = SetTokenInfo a newAnonymous.

Lemma VerifyCredential_spec AuthOption uc a :
  exists a' err, VerifyCredential AuthOption uc a = Ret (a', err) /\
    accessResources a' = accessResources a /\ operation a' = operation a /\ module a' = module a /\
    (err = None -> identified uc a a' \/ anonymous AuthOption a a').
Proof.
  assert (forall err, exists a' err', (if negb (canDowngradeAnonymous AuthOption a err) then Ret (a, Some err)
      else Ret (SetTokenInfo a newAnonymous, None)) = Ret (a', err') /\
    accessResources a' = accessResources a /\ operation a' = operation a /\ module a' = module a /\
    (err' = None -> identified uc a a' \/ anonymous AuthOption a a')) as Hfail.
  { intros err. destruct (canDowngradeAnonymous AuthOption a err) eqn:Hc; cbn [negb]; [|by do 2 eexists; split_and!].
    do 2 eexists. split_and!; [reflexivity|done..|]. intros _. right. unfold canDowngradeAnonymous in Hc.
    case_decide; [done|]. destruct (Strict AuthOption) eqn:Hs; [done|]. by split_and!. }
  unfold VerifyCredential. destruct (decodeToken _ _) as [op|e] eqn:Hd; [|apply Hfail].
  destruct (decodeToken_origin _ _ _ Hd) as (Ho & Hne & Ha).
  destruct (checkToken uc op) as [[[op' owner] isOwner]|e] eqn:Hc; [|apply Hfail].
  destruct (checkToken_Okay _ _ _ _ _ ltac:(by rewrite Ho) Ha Hc) as (Htok & Hid & Hu & Hor & Hrole).
  assert (Anonymous op' = false) as Ha'.
  { revert Hc. unfold checkToken. repeat case_match; intros; simplify_eq/=; done. }
  unfold parseOperatorInfo. cbn [set_owner IsUserToken OperatorID]. rewrite Hid, Hu. destruct (IsUserToken op) eqn:Hisu.
  - destruct Htok as (user & Hg & Ht & He). rewrite Hg. cbn. do 2 eexists. split_and!; [reflexivity|done..|]. intros _. left.
    eexists. split_and!; [reflexivity|done|by cbn; rewrite Hor|..].
    + unfold token_of. cbn. rewrite Hu. exists user. split_and!; [congruence|congruence|done].
    + done.
    + intros _. exists user. cbn. rewrite Hid. done.
  - cbn. do 2 eexists. split_and!; [reflexivity|done..|]. intros _. left.
    eexists. split_and!; [reflexivity|done|by cbn; rewrite Hor|..].
    + unfold token_of in *. cbn. rewrite Hu. destruct Htok as (group & ? & ? & ?). exists group. split_and!; congruence.
    + done.
    + cbn. rewrite Hu. done.
Qed.

(** Every resource of the request is one the user may change. *)
Definition may_change (sc : strategyCache) (uc : userCache) (userid : string) (a : AcquireContext) : Prop :=
  forall t res, t = Namespaces \/ t = Services \/ t = ConfigGroups -> res ∈ entries (accessResources a) t ->
    IsResourceEditable sc uc (mkPrincipal userid PrincipalUser) t res = true.

Lemma doCheckPermission_spec sc uc a :
  (doCheckPermission sc uc a).1 = true <-> may_change sc uc (ParseUserID (requestContext a)) a.
Proof.
  unfold doCheckPermission, may_change, isResourceEditable. cbn [fst]. rewrite !andb_true_iff, !forallb_forall.
  setoid_rewrite <- list_elem_of_In. split.
  - intros [[Hn Hs] Hc] t res [->|[->| ->]] Hr; auto.
  - intros H. split_and!; intros x Hx; apply H; auto.
Qed.

Lemma may_change_ext sc uc u a a' : accessResources a = accessResources a' -> may_change sc uc u a <-> may_change sc uc u a'.
Proof. intros He. unfold may_change. by rewrite He. Qed.

(** ** Properties *)

(** C31. No write without the right to it: when a request other than a read is
    permitted, by the strategies cached or fetched during the check, either its
    token is the stored and enabled token of an account that may change every
    resource the request names; or the check is not strict, the module is not the
    account API's, the request passes as anonymous, and the user id that its context
    holds may change them - which is also granted of a resource that no strategy
    names, whatever the strategies for * say. *)
Theorem write_permission_sound (AuthOption : AuthConfig) (uc : userCache) (sc sc' : strategyCache) (t : option Z)
    (sync : option (list StrategyDetail)) (a a' : AcquireContext) (err : option auth_error) :
  CheckPermission AuthOption uc sc t sync a = Ret (a', sc', true, err) -> operation a <> Read ->
  (sc' = sc \/ sc' = strategy_update sc t sync) /\
  ((exists id isUser, token_of uc (ContextAuthToken (requestContext a)) id isUser true /\ may_change sc' uc id a) \/
   (anonymous AuthOption a a' /\ may_change sc' uc (ParseUserID (requestContext a)) a)).
Proof.
  unfold CheckPermission. destruct (VerifyCredential_spec AuthOption uc a) as (a1 & e & -> & Hres & Hop & _ & Hid).
  cbn [mbind outcome_bind]. destruct e as [e|]; [done|]. specialize (Hid eq_refl). rewrite Hop. intros H Hne.
  rewrite decide_False in H by done.
  assert (exists op, TokenInfo a1 = Some op /\ (Disable op = false -> a' = a1 -> may_change sc' uc (ParseUserID (requestContext a1)) a1 ->
    (exists id isUser, token_of uc (ContextAuthToken (requestContext a)) id isUser true /\ may_change sc' uc id a) \/
    (anonymous AuthOption a a' /\ may_change sc' uc (ParseUserID (requestContext a)) a))) as (op & Htok & Hgoal).
  { destruct Hid as [(op & Ht & _ & Ho & Hst & Hu & _)|Han].
    - exists op. split; [done|]. intros Hd _ Hm. left. exists (OperatorID op), (IsUserToken op). rewrite Hd, Ho in Hst.
      split; [done|]. rewrite Hu in Hm. by apply (may_change_ext _ _ _ a1).
    - assert (a1 = SetTokenInfo a newAnonymous) as Ha1 by apply Han. exists newAnonymous. split; [by rewrite Ha1|].
      intros _ -> Hm. right. split; [done|]. rewrite Ha1 in Hm. by apply (may_change_ext _ _ _ (SetTokenInfo a newAnonymous)). }
  rewrite Htok in H. cbn [attachment mbind outcome_bind] in H.
  destruct (Disable op) eqn:Hdis; [done|]. pose proof (doCheckPermission_spec sc uc a1) as Hc1.
  destruct (doCheckPermission sc uc a1) as [[] e1]; cbn [fst] in Hc1.
  { injection H as <- <- _. split; [by left|]. apply Hgoal; [done..|]. by apply Hc1. }
  unfold ForceSyncStrategy2Cache in H. destruct (bool_decide (sync <> None)); [|done]. cbn [negb] in H.
  pose proof (doCheckPermission_spec (strategy_update sc t sync) uc a1) as Hc2.
  destruct (doCheckPermission (strategy_update sc t sync) uc a1) as [ok e2]; cbn [fst] in Hc2. injection H as <- <- -> _.
  split; [by right|]. apply Hgoal; [done..|]. by apply Hc2.
Qed.

(** Who has the right is let through: a request whose token is a stored,
    enabled one is permitted when the cached strategies allow its resources,
    and without asking the store; a disabled token only reads. *)
Theorem write_permission_complete (AuthOption : AuthConfig) (uc : userCache) (sc : strategyCache) (t : option Z)
    (sync : option (list StrategyDetail)) (a : AcquireContext) (op : OperatorInfo) :
  decodeToken (Salt AuthOption) (ContextAuthToken (requestContext a)) = Okay op ->
  (exists enabled, token_of uc (ContextAuthToken (requestContext a)) (OperatorID op) (IsUserToken op) enabled /\
     (enabled = true /\ may_change sc uc (OperatorID op) a \/ operation a = Read)) ->
  exists a', CheckPermission AuthOption uc sc t sync a = Ret (a', sc, true, None) /\ ParseUserID (requestContext a') = OperatorID op.
Proof.
  intros Hd (enabled & Htok & Hmay). destruct (decodeToken_origin _ _ _ Hd) as (Ho & Hne & Ha).
  assert (exists a1 op1, VerifyCredential AuthOption uc a = Ret (a1, None) /\ TokenInfo a1 = Some op1 /\ Disable op1 = negb enabled /\
    operation a1 = operation a /\ accessResources a1 = accessResources a /\ ParseUserID (requestContext a1) = OperatorID op)
    as (a1 & op1 & HV & Hinfo & Hdis & Hop & Hres & Hu).
  { unfold VerifyCredential. rewrite Hd. unfold checkToken, IsEmptyOperator. rewrite Ho, bool_decide_false, Ha by done. cbn [orb].
    unfold token_of in Htok. destruct (IsUserToken op) eqn:Hisu.
    - destruct Htok as (user & Hg & Ht & He). rewrite Hg. rewrite decide_False by (by intros []).
      case_decide; unfold parseOperatorInfo; cbn; rewrite Hisu, Hg; cbn; do 2 eexists; (split_and!; [reflexivity|reflexivity|..]); cbn; by rewrite ?He.
    - destruct Htok as (group & Hg & Ht & He). rewrite Hg. rewrite decide_False by (by intros []).
      unfold parseOperatorInfo; cbn; rewrite Hisu; cbn; do 2 eexists; (split_and!; [reflexivity|reflexivity|..]); cbn; by rewrite ?He. }
  unfold CheckPermission. rewrite HV. cbn [mbind outcome_bind]. rewrite Hop. case_decide as Hr; [by exists a1|].
  destruct Hmay as [[-> Hmay]|]; [|done]. rewrite Hinfo. cbn [attachment mbind outcome_bind]. rewrite Hdis. cbn [negb].
  assert ((doCheckPermission sc uc a1).1 = true) as Hc.
  { apply doCheckPermission_spec. rewrite Hu. by apply (may_change_ext _ _ _ a). }
  destruct (doCheckPermission sc uc a1) as [ok e]. cbn [fst] in Hc. rewrite Hc. by exists a1.
Qed.

(** In strict mode a request passes only with the stored token of an
    account in the cache, reads included: a well-formed token that somebody
    made up, or one that was reset, does not. *)
Theorem strict_requires_stored_token (AuthOption : AuthConfig) (uc : userCache) (sc sc' : strategyCache) (t : option Z)
    (sync : option (list StrategyDetail)) (a a' : AcquireContext) (err : option auth_error) :
  Strict AuthOption = true -> CheckPermission AuthOption uc sc t sync a = Ret (a', sc', true, err) ->
  exists id isUser enabled, token_of uc (ContextAuthToken (requestContext a)) id isUser enabled /\ (operation a = Read \/ enabled = true).
Proof.
  intros Hs. unfold CheckPermission. destruct (VerifyCredential_spec AuthOption uc a) as (a1 & e & -> & Hres & Hop & _ & Hid).
  cbn [mbind outcome_bind]. destruct e as [e|]; [done|]. destruct (Hid eq_refl) as [(op & Ht & _ & Ho & Hst & _)|(Hns & _)]; [|congruence].
  rewrite Ho in Hst. intros H. exists (OperatorID op), (IsUserToken op), (negb (Disable op)). split; [done|].
  rewrite Hop, Ht in H. case_decide as Hr; [by left|right]. cbn in H. by destruct (Disable op).
Qed.

(** The account API admits only users: [verifyAuth] succeeds only with the
    stored token of a user, enabled if the call writes, and not of a sub
    account if the call is for owners; strictness does not matter. *)
Theorem verifyAuth_sound (AuthOption : AuthConfig) (uc : userCache) (c c' : RequestContext) (isWrite needOwner : bool) :
  verifyAuth AuthOption uc c isWrite needOwner = Ret (Okay c') ->
  exists user, GetUserByID uc (ParseUserID c') = Some user /\ UToken user = ContextAuthToken c /\
    (isWrite = true -> UTokenEnable user = true) /\ (needOwner = true -> UType user <> SubAccountUserRole).
Proof.
  unfold verifyAuth. case_decide; [done|].
  destruct (VerifyCredential_spec AuthOption uc (NewAcquireContext c AuthModule 0 false [])) as (a1 & e & -> & _ & _ & _ & Hid).
  cbn [mbind outcome_bind]. destruct e; [done|]. destruct (Hid eq_refl) as [(op & Ht & _ & Ho & Hst & Hu & Hr)|(_ & Hm & _)]; [|done].
  rewrite Ht. cbn [attachment mbind outcome_bind]. destruct (isWrite && Disable op) eqn:Hw; [done|].
  destruct (IsUserToken op) eqn:Hisu; [|done]. cbn [negb]. destruct (needOwner && IsSubAccount op) eqn:Hs; [done|]. intros [= <-].
  unfold token_of in Hst. destruct Hst as (user & Hg & Htk & He). exists user. rewrite Hu. split_and!; [done|by rewrite Htk, Ho|..].
  - intros ->. cbn in Hw. by rewrite He, Hw.
  - intros ->. cbn in Hs. unfold IsSubAccount in Hs. apply bool_decide_eq_false in Hs. destruct (Hr eq_refl) as (user' & Hg' & Hrole). congruence.
Qed.

(** Only an owner maintains: the maintenance API's write operations pass
    only with the stored, enabled token of a main account - not even the
    administrator's. *)
Theorem maintain_write_needs_owner (AuthOption : AuthConfig) (uc : userCache) (a a' : AcquireContext) (err : option auth_error) :
  operation a <> Read -> checkMaintainPermission AuthOption uc a = Ret (a', true, err) ->
  exists id user, GetUserByID uc id = Some user /\ UToken user = ContextAuthToken (requestContext a) /\
    UTokenEnable user = true /\ UType user = OwnerUserRole.
Proof.
  intros Hne. unfold checkMaintainPermission.
  destruct (VerifyCredential_spec AuthOption uc a) as (a1 & e & -> & _ & Hop & _ & Hid). cbn [mbind outcome_bind]. destruct e; [done|].
  rewrite Hop, decide_False by done. destruct (Hid eq_refl) as [(op & Ht & _ & Ho & Hst & Hu & Hr)|(_ & _ & Ha)].
  - rewrite Ht. cbn [attachment mbind outcome_bind]. destruct (Disable op) eqn:Hd; [done|]. destruct (IsUserToken op) eqn:Hisu; [|done]. cbn [negb].
    case_decide as Hrole; [done|]. intros _. destruct Hst as (user & Hg & Htk & He). exists (OperatorID op), user.
    destruct (Hr eq_refl) as (user' & Hg' & Hrole'). rewrite Hg in Hg'. injection Hg' as <-. split_and!; [done|congruence|done|].
    rewrite <- Hrole'. by destruct (decide (ORole op = OwnerUserRole)).
  - rewrite Ha. done.
Qed.

(** A group's token cannot use the group's strategies: the check always
    asks for a user of the operator's id, so that a group listed in a strategy
    is refused the strategy's resource unless its id is listed as a user. *)
Theorem group_token_is_refused (AuthOption : AuthConfig) (uc : userCache) (sc : strategyCache) (a : AcquireContext) (gid : string) (k : kind) (t : Z) (res id : string) (c : StrategyDetailCache) :
  strategy_reachable sc -> ParseUserID (requestContext a) = gid -> GetUserLinkGroupIds uc gid = [] ->
  t = Namespaces \/ t = Services \/ t = ConfigGroups -> kind_of t = Some k -> res ∈ entries (accessResources a) t ->
  strategys sc !! id = Some c -> mentions (detail c) k res ->
  (forall i c', strategys sc !! i = Some c' -> ~ mentions (detail c') KUser gid) ->
  doCheckPermission sc uc a = (false, Some NoPermission).
Proof.
  intros Hr Hu Hg Ht Hk Hres Hc Hm Hno.
  destruct (doCheckPermission sc uc a) as [ok err] eqn:Hd.
  assert (ok = false) as ->; [|unfold doCheckPermission in Hd; injection Hd as Hok Herr; rewrite Hok in Herr; by rewrite <- Herr].
  destruct ok; [|done]. exfalso. pose proof (doCheckPermission_spec sc uc a) as Hs. rewrite Hd in Hs. cbn [fst] in Hs.
  specialize (proj1 Hs eq_refl t res Ht Hres). rewrite Hu. intros He. apply (resource_editable_spec sc uc _ t res Hr) in He. rewrite Hk in He.
  destruct He as [He|(q & i & c' & Hq & Hc' & _ & Hl)]; [by destruct (He id c Hc)|].
  unfold acting in Hq. cbn [PrincipalID PrincipalRole] in Hq. rewrite Hg in Hq.
  destruct Hq as [->|(_ & g & []%not_elem_of_nil & _)]. by apply (Hno i c' Hc').
Qed.

(** *** Default strategies *)

Lemma dedup_NoDup s : NoDup s -> StringSliceDeDuplication s = s.
Proof.
  intros Hs. unfold StringSliceDeDuplication.
  enough (forall acc, NoDup (reverse acc ++ s) -> foldl (fun res x => if decide (x ∈ res) then res else x :: res) acc s = reverse s ++ acc) as H.
  { rewrite (H [] Hs), app_nil_r. apply reverse_involutive. }
  clear Hs. induction s as [|x s IH]; intros acc Hnd; [done|]. cbn [foldl]. rewrite decide_False.
  - rewrite IH; [by rewrite reverse_cons, <- app_assoc|]. by rewrite reverse_cons, <- app_assoc.
  - apply NoDup_app in Hnd as (_ & Hd & _). intros Hx. apply (Hd x); [by apply elem_of_reverse|by left].
Qed.

(** The write for one principal. *)
Definition link_write (a : AcquireContext) (strategyId : string) (isRemove : bool) (res : list (Z * list string)) : strategy_write :=
  let rs := res ≫= (fun e => (fun id => (e.1, id)) <$> e.2) in
  if bool_decide (operation a = Delete) then RemoveStrategyResources "" rs
  else if isRemove then RemoveStrategyResources strategyId rs else LooseAddStrategyResources strategyId rs.

Lemma handleStrategies_all store write find missing uType a isRemove ids res (sid : string -> string) n written :
  ResourceAttachment a = Some res -> (forall w, write w = true) ->
  (forall id, id ∈ ids -> find id = true /\ store id uType = Some (Some (sid id))) ->
  forall i, (i + n = length ids)%nat ->
  handleStrategies store write find missing uType a isRemove ids (seq i n) written =
    Ret (written ++ ((fun id => link_write a (sid id) isRemove res) <$> drop i ids), None).
Proof.
  intros Hres Hw Hids. revert written. induction n as [|n IH]; intros written i Hi.
  - cbn. rewrite drop_ge by lia. by rewrite app_nil_r.
  - cbn [seq handleStrategies]. destruct (lookup_lt_is_Some_2 ids i) as [id Hid]; [lia|].
    assert (index ids (Z.of_nat i) = Ret id) as -> by (apply index_Ret; rewrite Nat2Z.id; split; [lia|done]).
    cbn [mbind outcome_bind]. destruct (Hids id) as [Hf Hs]; [by eapply list_elem_of_lookup_2|]. rewrite Hf. cbn [negb].
    unfold handlerModifyDefaultStrategy at 1. rewrite Hs, Hres. cbn [attachment mbind outcome_bind]. rewrite Hw.
    rewrite IH by lia. rewrite (drop_S _ _ _ Hid). cbn [fmap list_fmap]. rewrite <- app_assoc. do 4 f_equal.
    unfold link_write. repeat case_bool_decide; by destruct isRemove.
Qed.

(** Creating a resource links it: when the users and groups to link are
    known, listed once and have default strategies, and the store takes every
    write, the resource is added to the default strategy of each of them and of
    the creator, and removed from those to unlink, in that order. *)
Theorem created_resource_is_linked (AuthOption : AuthConfig) store write (uc : userCache) (a : AcquireContext) (op : OperatorInfo)
    (addU addG remU remG : list string) (res : list (Z * list string)) (uid_strategy gid_strategy : string -> string) :
  ConsoleOpen AuthOption = true -> fromClient a = false -> operation a = Create ->
  TokenInfo a = Some op -> IsEmptyOperator op = false -> IsUserToken op = true ->
  LinkUsers a = Some addU -> LinkGroups a = Some addG -> RemoveLinkUsers a = Some remU -> RemoveLinkGroups a = Some remG ->
  ResourceAttachment a = Some res -> (forall w, write w = true) ->
  NoDup (addU ++ [OperatorID op]) -> NoDup addG -> NoDup remU -> NoDup remG ->
  (forall u, u ∈ (addU ++ [OperatorID op]) ++ remU -> is_Some (GetUserByID uc u) /\ store u PrincipalUser = Some (Some (uid_strategy u))) ->
  (forall g, g ∈ addG ++ remG -> is_Some (GetGroup uc g) /\ store g PrincipalGroup = Some (Some (gid_strategy g))) ->
  AfterResourceOperation store write AuthOption uc a =
    Ret (((fun u => link_write a (uid_strategy u) false res) <$> addU ++ [OperatorID op]) ++
         ((fun g => link_write a (gid_strategy g) false res) <$> addG) ++
         ((fun u => link_write a (uid_strategy u) true res) <$> remU) ++
         ((fun g => link_write a (gid_strategy g) true res) <$> remG), None).
Proof.
  intros Hopen Hfc Hop Htok Hne Hu HaU HaG HrU HrG Hres Hw N1 N2 N3 N4 HU HG.
  unfold AfterResourceOperation, IsOpenAuth, IsOpenConsoleAuth. rewrite Hopen, Hfc, Hop. cbn [orb negb andb bool_decide].
  rewrite (bool_decide_false (Create = Read)) by done. rewrite Htok, HaU, HaG, HrU, HrG. cbn [attachment mbind outcome_bind orb].
  rewrite Hne, Hu. rewrite (bool_decide_true (Create = Create)) by done. cbn [andb negb].
  assert (forall ids rm w, NoDup ids -> (forall u, u ∈ ids -> u ∈ (addU ++ [OperatorID op]) ++ remU) ->
    handleUserStrategy store write uc w ids a rm = Ret (w ++ ((fun u => link_write a (uid_strategy u) rm res) <$> ids), None)) as HUs.
  { intros ids rm w Hnd Hin. unfold handleUserStrategy. rewrite dedup_NoDup by done.
    rewrite (handleStrategies_all _ _ _ _ _ _ _ _ res uid_strategy); [done|done|done| |lia].
    intros id Hid. destruct (HU id (Hin id Hid)) as [? ?]. split; [by apply bool_decide_eq_true|done]. }
  assert (forall ids rm w, NoDup ids -> (forall u, u ∈ ids -> u ∈ addG ++ remG) ->
    handleGroupStrategy store write uc w ids a rm = Ret (w ++ ((fun u => link_write a (gid_strategy u) rm res) <$> ids), None)) as HGs.
  { intros ids rm w Hnd Hin. unfold handleGroupStrategy. rewrite dedup_NoDup by done.
    rewrite (handleStrategies_all _ _ _ _ _ _ _ _ res gid_strategy); [done|done|done| |lia].
    intros id Hid. destruct (HG id (Hin id Hid)) as [? ?]. split; [by apply bool_decide_eq_true|done]. }
  rewrite HUs by (done || set_solver). cbn [mbind outcome_bind unless_failed fst snd app].
  rewrite HGs by (done || set_solver). cbn [mbind outcome_bind unless_failed fst snd].
  rewrite HUs by (done || set_solver). cbn [mbind outcome_bind unless_failed fst snd].
  rewrite HGs by (done || set_solver). by rewrite <- !app_assoc.
Qed.

(** A repeated id hides another: the loop counts the ids without
    duplicates but indexes the list with them, so that of [u, u, v] the user
    [v] is never linked. *)
Theorem repeated_id_hides_another store write (uc : userCache) (a : AcquireContext) (u v su sv : string) (res : list (Z * list string)) :
  u <> v -> ResourceAttachment a = Some res -> (forall w, write w = true) ->
  is_Some (GetUserByID uc u) -> is_Some (GetUserByID uc v) ->
  store u PrincipalUser = Some (Some su) -> store v PrincipalUser = Some (Some sv) ->
  handleUserStrategy store write uc [] [u; u; v] a false = Ret ([link_write a su false res; link_write a su false res], None).
Proof.
  intros Huv Hres Hw Hu Hv Hsu Hsv. unfold handleUserStrategy.
  assert (length (StringSliceDeDuplication [u; u; v]) = 2%nat) as ->.
  { unfold StringSliceDeDuplication. rewrite length_reverse. cbn [foldl].
    rewrite (decide_False (P := u ∈ [])) by (by intros ?%not_elem_of_nil). rewrite (decide_True (P := u ∈ [u])) by (by left).
    rewrite (decide_False (P := v ∈ [u])); [done|]. intros ?%list_elem_of_singleton. congruence. }
  cbn [seq handleStrategies]. change (index [u; u; v] (Z.of_nat 0)) with (@Ret string u). change (index [u; u; v] (Z.of_nat 1)) with (@Ret string u).
  cbn [mbind outcome_bind]. rewrite bool_decide_true by done. cbn [negb]. unfold handlerModifyDefaultStrategy, link_write.
  rewrite Hsu, Hres. cbn [attachment mbind outcome_bind app]. rewrite !Hw. cbn [mbind outcome_bind app].
  by case_bool_decide.
Qed.

(** ** Witnesses *)

Definition demo_token : string := match createUserToken (Some demo_iv) "-ab12-cd" demo_salt "u-sub" with Okay t => t | Fail _ => "" end.
Definition demo_group_token : string := match createGroupToken (Some demo_iv) "-ab12-cd" demo_salt "g1" with Okay t => t | Fail _ => "" end.
Definition demo_users : gmap string User :=
  {["u-sub" := mkUser "u-sub" "dev" "" "u-owner" "" "" "" SubAccountUserRole demo_token true true "" 100 100;
    "u-owner" := mkUser "u-owner" "polaris" "" "" "" "" "" OwnerUserRole demo_token true true "" 100 100]}.
Definition demo_uc : userCache := mkUC newBaseCache None demo_users ∅ {["g1" := mkGroup "g1" "g1" "u-owner" demo_group_token true true "" 100 100 ∅]} ∅.
Definition demo_request (token : string) (op : Z) : AcquireContext :=
  NewAcquireContext (mkRequest token None None None None None) UnknowModule op false [(Services, ["svc-1"])].
Definition demo_config : AuthConfig := DefaultAuthConfig.

Lemma demo_passes : exists a', CheckPermission demo_config demo_uc demo_strategies None None (demo_request demo_token Create) = Ret (a', demo_strategies, true, None).
Proof. eexists. by vm_compute. Qed.

Lemma write_permission_sound_witness :
  exists id isUser, token_of demo_uc demo_token id isUser true.
Proof.
  destruct demo_passes as [a' Ha].
  destruct (write_permission_sound _ _ _ _ _ _ _ _ _ Ha) as [_ [(id & isUser & Ht & _)|[(Hs & _) _]]]; [done|by exists id, isUser|done].
Defined.

Lemma write_permission_complete_witness :
  exists a', CheckPermission demo_config demo_uc demo_strategies None None (demo_request demo_token Create) = Ret (a', demo_strategies, true, None) /\
    ParseUserID (requestContext a') = "u-sub".
Proof.
  apply (write_permission_complete demo_config demo_uc demo_strategies None None (demo_request demo_token Create)
    (mkOperator demo_token "u-sub" "" UnknownUserRole true false false)).
  - by vm_compute.
  - exists true. split; [eexists; split; [by vm_compute|done]|]. left. split; [done|].
    intros t res [->|[->| ->]] Hr; cbn in Hr; try (by apply not_elem_of_nil in Hr). apply list_elem_of_singleton in Hr as ->. by vm_compute.
Defined.

Lemma strict_requires_stored_token_witness :
  exists id isUser enabled, token_of demo_uc demo_token id isUser enabled.
Proof.
  destruct demo_passes as [a' Ha].
  destruct (strict_requires_stored_token demo_config _ _ _ _ _ _ _ _ eq_refl Ha) as (id & isUser & en & Ht & _). by exists id, isUser, en.
Defined.

Lemma verifyAuth_sound_witness :
  exists user, UToken user = demo_token /\ UTokenEnable user = true.
Proof.
  destruct (verifyAuth demo_config demo_uc (mkRequest demo_token None None None None None) true false) as [[c'|]|] eqn:Hv; [|by vm_compute in Hv..].
  destruct (verifyAuth_sound _ _ _ _ _ _ Hv) as (user & _ & Ht & He & _). exists user. split; [done|by apply He].
Defined.

Lemma maintain_write_needs_owner_witness :
  exists a' user, checkMaintainPermission demo_config
    (mkUC newBaseCache None {["u-sub" := mkUser "u-sub" "dev" "" "" "" "" "" OwnerUserRole demo_token true true "" 100 100]} ∅ ∅ ∅) (demo_request demo_token Create) = Ret (a', true, None) /\
    UType user = OwnerUserRole.
Proof.
  match goal with |- exists a' user, ?c = _ /\ _ => destruct c as [[[a' ok] err]|] eqn:Hc end; [|by vm_compute in Hc].
  assert (ok = true /\ err = None) as [-> ->] by (by vm_compute in Hc; simplify_eq).
  destruct (maintain_write_needs_owner demo_config _ (demo_request demo_token Create) a' None ltac:(done) Hc) as (id & user & _ & _ & _ & Ht).
  exists a', user. split; [reflexivity|exact Ht].
Defined.

Lemma group_token_is_refused_witness :
  exists a', VerifyCredential demo_config demo_uc (demo_request demo_group_token Create) = Ret (a', None) /\
    doCheckPermission demo_strategies demo_uc a' = (false, Some NoPermission).
Proof.
  destruct (VerifyCredential demo_config demo_uc (demo_request demo_group_token Create)) as [[a' err]|] eqn:Hv; [|by vm_compute in Hv].
  exists a'. assert (err = None /\ ParseUserID (requestContext a') = "g1" /\ accessResources a' = [(Services, ["svc-1"])]) as (-> & Hu & Hr)
    by (vm_compute in Hv; by simplify_eq). split; [done|].
  apply (group_token_is_refused demo_config demo_uc demo_strategies a' "g1" KService Services "svc-1" "s1"
    (buildEnchanceStrategyDetail (demo_rule "s1" [mkPrincipal "u-sub" PrincipalUser; mkPrincipal "g1" PrincipalGroup] [mkResource Services "svc-1"] true))).
  - apply demo_strategies_reachable.
  - done.
  - done.
  - auto.
  - done.
  - rewrite Hr. left.
  - by vm_compute.
  - rewrite detail_build. left.
  - clear. intros i c' Hc' Hm. assert (linked demo_strategies KUser "g1" i) as Hl
      by (apply (sci_links _ (strategy_reachable_inv _ demo_strategies_reachable)); exists c'; split; [exact Hc'|exact Hm]).
    vm_compute in Hl. by inversion Hl.
Defined.

Definition demo_created : AcquireContext :=
  mkAcquire (mkRequest demo_token None None None None None) UnknowModule Create false [] (Some (mkOperator demo_token "u-sub" "u-owner" SubAccountUserRole true false false))
    None None None (Some ["u-owner"]) (Some []) (Some []) (Some []) (Some [(Services, ["svc-2"])]).
Definition demo_store_strategy (id : string) (_ : Z) : option (option string) := Some (Some ("default-" +:+ id)).

Lemma created_resource_is_linked_witness :
  AfterResourceOperation demo_store_strategy (fun _ => true) demo_config demo_uc demo_created =
    Ret ([LooseAddStrategyResources "default-u-owner" [(Services, "svc-2")]; LooseAddStrategyResources "default-u-sub" [(Services, "svc-2")]], None).
Proof.
  apply (created_resource_is_linked demo_config demo_store_strategy (fun _ => true) demo_uc demo_created
    (mkOperator demo_token "u-sub" "u-owner" SubAccountUserRole true false false) ["u-owner"] [] [] [] [(Services, ["svc-2"])]
    (fun u => "default-" +:+ u) (fun g => "default-" +:+ g)); try reflexivity; try (by apply (bool_decide_eq_true_1 _)).
  - intros u [->|[->|[]%not_elem_of_nil]%elem_of_cons]%elem_of_cons; (split; [eexists; by vm_compute|done]).
  - intros g []%not_elem_of_nil.
Defined.

Lemma repeated_id_hides_another_witness :
  handleUserStrategy demo_store_strategy (fun _ => true) demo_uc [] ["u-owner"; "u-owner"; "u-sub"] demo_created false =
    Ret ([LooseAddStrategyResources "default-u-owner" [(Services, "svc-2")]; LooseAddStrategyResources "default-u-owner" [(Services, "svc-2")]], None).
Proof.
  apply (repeated_id_hides_another demo_store_strategy (fun _ => true) demo_uc demo_created "u-owner" "u-sub" "default-u-owner" "default-u-sub" [(Services, ["svc-2"])]);
    try done; eexists; by vm_compute.
Defined.
