(* ===== verification/ConnLimit.v ===== *)
(** * Limits on connections ([src/common/conn/limit])

    A [Listener] wraps a network listener: it counts the open connections, in
    all and per client host, refuses those above the limits, and from time to
    time forgets hosts that have none.  Counters are shared by pointer, so the
    model has a heap of them; a connection is its position in a table.

    Connections are accepted by one goroutine, but closed by many, and the
    purge is a goroutine of its own.  [acquire] is therefore split where the
    purge can come in between: after the counter was looked up and before it is
    locked. *)

From S2P Require Import Prelude GoStrings.
From Stdlib Require Import ZArith Lia Ascii.
From stdpp Require Import base tactics list gmap strings fin_maps.

Open Scope Z_scope.

(** ** Data *)

Record counter := mkCounter { csize : Z; actives : gmap string nat; clastAccess : Z }.

Record Conn := mkConn { closed : bool; releaseOnce : bool; host : string; address : string }.

Record Config := mkConfig {
  OpenConnLimit : bool;
  MaxConnPerHost : Z;
  MaxConnLimit : Z;
  WhiteList : string;
  ReadTimeout : Z;
  PurgeCounterInterval : Z;
  PurgeCounterExpire : Z }.

Record Listener := mkListener {
  protocol : string;
  maxConnPerHost : Z;
  maxConnLimit : Z;
  whiteList : gset string;
  purgeCounterExpire : Z;
  connCount : Z;
  conns : gmap string nat;
  heap : gmap nat counter;
  table : gmap nat Conn }.

Definition set_connCount (l : Listener) n :=
  mkListener (protocol l) (maxConnPerHost l) (maxConnLimit l) (whiteList l) (purgeCounterExpire l) n (conns l) (heap l) (table l).
Definition set_conns (l : Listener) m :=
  mkListener (protocol l) (maxConnPerHost l) (maxConnLimit l) (whiteList l) (purgeCounterExpire l) (connCount l) m (heap l) (table l).
Definition set_heap (l : Listener) m :=
  mkListener (protocol l) (maxConnPerHost l) (maxConnLimit l) (whiteList l) (purgeCounterExpire l) (connCount l) (conns l) m (table l).
Definition set_table (l : Listener) m :=
  mkListener (protocol l) (maxConnPerHost l) (maxConnLimit l) (whiteList l) (purgeCounterExpire l) (connCount l) (conns l) (heap l) m.

Definition Second : Z := 1000000000.
Definition minHostConnLimit : Z := 1.
Definition newCounter (now : Z) : counter := mkCounter 1 ∅ now.

(** ** Making a listener *)

Inductive listener_error := MissingProtocol | InvalidPurge | InvalidHostLimit | ProtocolExists.
#[export] Instance listener_error_eq_dec : EqDecision listener_error.
Proof. solve_decision. Defined.

(** [limitEntry], the listeners by protocol; only their names matter here. *)
Definition SetLimitListener (listenerMap : gset string) (protocol : string) : result listener_error (gset string) :=
  if decide (protocol ∈ listenerMap) then Fail ProtocolExists else Okay ({[protocol]} ∪ listenerMap).
Definition RemoveLimitListener (listenerMap : gset string) (protocol : string) : gset string := listenerMap ∖ {[protocol]}.
Definition GetLimitListener (listenerMap : gset string) (protocol : string) : bool := bool_decide (protocol ∈ listenerMap).

(** [None]: the listener that was passed in, without limits. *)
Definition NewListener (listenerMap : gset string) (protocol : string) (config : option Config) :
    result listener_error (gset string * option Listener) :=
  if decide (protocol = "") then Fail MissingProtocol
  else match config with
  | None => Okay (listenerMap, None)
  | Some config =>
      if negb (OpenConnLimit config) then Okay (listenerMap, None)
      else if decide (PurgeCounterInterval config = 0 \/ PurgeCounterExpire config = 0) then Fail InvalidPurge
      else
        let hostConnLimit := i32 (MaxConnPerHost config) in
        let lisConnLimit := i32 (MaxConnLimit config) in
        if decide (hostConnLimit < minHostConnLimit) then Fail InvalidHostLimit
        else
          let whites := Split "," (WhiteList config) in
          let whiteList := list_to_set (filter (fun entry => entry <> "") whites) in
          match SetLimitListener listenerMap protocol with
          | Fail e => Fail e
          | Okay listenerMap =>
              Okay (listenerMap, Some (mkListener protocol hostConnLimit lisConnLimit whiteList
                (Z.quot (PurgeCounterExpire config) Second) 0 ∅ ∅ ∅))
          end
  end.

(** ** Counting *)

Definition incConnCount (l : Listener) : option Listener :=
  if decide (maxConnLimit l <= 0) then Some l
  else if decide (connCount l >= maxConnLimit l) then None
  else Some (set_connCount l (i32 (connCount l + 1))).
Definition descConnCount (l : Listener) : Listener :=
  if decide (maxConnLimit l <= 0) then l else set_connCount l (i32 (connCount l - 1)).
Definition ignoreHostConnLimit (l : Listener) (h : string) : bool := bool_decide (h ∈ whiteList l).

(** [accept] limits only addresses of the form [host:port]. *)
Definition hostOf (addr : string) : option string :=
  match Split ":" addr with
  | [h; _] => if decide (h = "") then None else Some h
  | _ => None
  end.

(** [acquire]: the count and the look-up. [None] when the listener is full;
    otherwise the counter that was found. *)
Definition acquire_load (l : Listener) (h : string) : option (Listener * option nat) :=
  match incConnCount l with
  | None => None
  | Some l => Some (l, conns l !! h)
  end.

(** The rest: [id] is the new connection. *)
Definition acquire_rest (l : Listener) (found : option nat) (id : nat) (addr h : string) (now : Z) : Listener :=
  match found with
  | None =>
      let ptr := fresh (dom (heap l)) in
      let ctr := mkCounter (csize (newCounter now)) {[addr := id]} now in
      set_table (set_conns (set_heap l (<[ptr := ctr]> (heap l))) (<[h := ptr]> (conns l)))
        (<[id := mkConn false false h addr]> (table l))
  | Some ptr =>
      match heap l !! ptr with
      | None => l
      | Some c =>
          if bool_decide (csize c >= maxConnPerHost l) && negb (ignoreHostConnLimit l h) then
            let l := descConnCount l in
            set_table l (<[id := mkConn true false h addr]> (table l))
          else
            let c := mkCounter (i32 (csize c + 1)) (<[addr := id]> (actives c)) now in
            set_table (set_heap l (<[ptr := c]> (heap l))) (<[id := mkConn false false h addr]> (table l))
      end
  end.

Definition acquire (l : Listener) (id : nat) (addr h : string) (now : Z) : Listener :=
  match acquire_load l h with
  | None => set_table l (<[id := mkConn true false h addr]> (table l))
  | Some (l, found) => acquire_rest l found id addr h now
  end.

(** The address of an accepted connection; [None] leaves it unlimited. *)
Definition accept (l : Listener) (id : nat) (addr : string) (now : Z) : Listener :=
  match hostOf addr with None => l | Some h => acquire l id addr h now end.

Definition release (l : Listener) (conn : Conn) : Listener :=
  let l := descConnCount l in
  match conns l !! host conn with
  | None => l
  | Some ptr =>
      match heap l !! ptr with
      | None => l
      | Some c => set_heap l (<[ptr := mkCounter (i32 (csize c - 1)) (delete (address conn) (actives c)) (clastAccess c)]> (heap l))
      end
  end.

(** [Conn.Close], after the test of [closed]: several goroutines may be here. *)
Definition close_rest (l : Listener) (id : nat) : Listener :=
  match table l !! id with
  | None => l
  | Some c =>
      if releaseOnce c then l
      else release (set_table l (<[id := mkConn true true (host c) (address c)]> (table l))) c
  end.
Definition Close (l : Listener) (id : nat) : Listener :=
  match table l !! id with
  | None => l
  | Some c => if closed c then l else close_rest l id
  end.

(** The purge; one host, and the scan in some order. *)
Definition purge_host (now : Z) (l : Listener) (h : string) : Listener :=
  match conns l !! h ≫= fun ptr => heap l !! ptr with
  | None => l
  | Some ct =>
      if decide (csize ct = 0 /\ now - clastAccess ct > purgeCounterExpire l) then set_conns l (delete h (conns l)) else l
  end.
Definition purgeExpireCounterHandler (l : Listener) (now : Z) : Listener :=
  foldl (purge_host now) l (map_to_list (conns l)).*1.

(** ** Queries *)

Definition GetHostConnCount (l : Listener) (h : string) : Z :=
  match conns l !! h ≫= fun ptr => heap l !! ptr with None => 0 | Some c => csize c end.
Definition GetListenerConnCount (l : Listener) : Z := connCount l.
Definition GetDistinctHostCount (l : Listener) : Z := foldl (fun count _ => i32 (count + 1)) 0 (map_to_list (conns l)).
Definition GetHostActiveConns (l : Listener) (h : string) : option (gmap string nat) :=
  c ← (conns l !! h ≫= fun ptr => heap l !! ptr); Some (actives c).
Definition GetHostConnection (l : Listener) (h : string) (target : string) : option nat :=
  c ← (conns l !! h ≫= fun ptr => heap l !! ptr); actives c !! target.
Definition isValid (c : Conn) : bool := negb (closed c).

(** ** Runs *)

(** A step of the listener's life with [acquire] uninterrupted: accepting
    (never more than 2^31 connections at once), any goroutine closing - also
    one that tested [closed] before another closed - and a purge. *)
Definition is_open (h : string) (c : Conn) : bool := negb (closed c) && bool_decide (host c = h).
Definition opened (l : Listener) (h : string) : nat := size (filter (fun kc => is_open h kc.2 = true) (table l)).
Definition open_total (l : Listener) : nat := size (filter (fun kc => closed kc.2 = false) (table l)).

Inductive step : Listener -> Listener -> Prop :=
| step_accept l id addr now :
    table l !! id = None -> Z.of_nat (open_total l) + 1 < 2 ^ 31 -> step l (accept l id addr now)
| step_close l id : step l (Close l id)
| step_close_late l id c :
    table l !! id = Some c -> closed c = false \/ releaseOnce c = true -> step l (close_rest l id)
| step_purge l now : step l (purgeExpireCounterHandler l now).

Definition reachable (l0 : Listener) : Listener -> Prop := rtc step l0.

(** ** Lemmas *)

Section count.
  Context (p : Conn -> bool).
Definition count (m : gmap nat Conn) : nat := size (filter (fun kc => p kc.2 = true) m).
Definition one (o : option Conn) : nat := match o with Some c => if p c then 1 else 0 | None => 0 end.

Lemma count_insert m id c : (count (<[id := c]> m) + one (m !! id) = count m + one (Some c))%nat.
Proof.
  assert (forall c' m', m' !! id = None -> count (<[id := c']> m') = (count m' + one (Some c'))%nat) as Hnew.
  { intros c' m' Hm'. unfold count, one. destruct (p c') eqn:Hp.
    - rewrite map_filter_insert_True by done. rewrite map_size_insert_None; [lia|]. apply map_lookup_filter_None. by left.
    - rewrite map_filter_insert_False by (cbn; congruence). rewrite delete_id by done. lia. }
  destruct (m !! id) as [c0|] eqn:Hm; [|rewrite Hnew by done; cbn; lia].
  rewrite <- (insert_delete_eq m id c). rewrite Hnew by apply lookup_delete_eq.
  rewrite <- (insert_delete_id m id c0 Hm) at 2. rewrite Hnew by apply lookup_delete_eq. lia.
Qed.
End count.

Lemma opened_count l h : opened l h = count (is_open h) (table l).
Proof. done. Qed.
Lemma total_count l : open_total l = count (fun c => negb (closed c)) (table l).
Proof.
  unfold open_total, count. f_equal. apply map_filter_ext. intros i c _. cbn. by destruct (closed c).
Qed.

Lemma opened_le_total l h : (opened l h <= open_total l)%nat.
Proof.
  apply map_subseteq_size. apply map_filter_subseteq_ext. intros i c _. cbn. unfold is_open. intros [Hc _]%andb_true_iff. by apply negb_true_iff.
Qed.

Record inv (l : Listener) : Prop := {
  inv_limits : 1 <= maxConnPerHost l < 2 ^ 31 /\ maxConnLimit l < 2 ^ 31;
  inv_inj : forall h h' p, conns l !! h = Some p -> conns l !! h' = Some p -> h = h';
  inv_some : forall h p, conns l !! h = Some p -> exists c, heap l !! p = Some c /\ csize c = Z.of_nat (opened l h);
  inv_none : forall h, conns l !! h = None -> opened l h = 0%nat;
  inv_host : forall h, h ∉ whiteList l -> Z.of_nat (opened l h) <= maxConnPerHost l;
  inv_total : 0 < maxConnLimit l -> connCount l = Z.of_nat (open_total l) /\ Z.of_nat (open_total l) <= maxConnLimit l;
  inv_room : Z.of_nat (open_total l) < 2 ^ 31;
  inv_once : forall id c, table l !! id = Some c -> releaseOnce c = true -> closed c = true }.

(** A refused connection changes nothing but the table. *)
Lemma opened_refused l id h addr h' :
  table l !! id = None -> opened (set_table l (<[id := mkConn true false h addr]> (table l))) h' = opened l h'.
Proof.
  intros Hid. rewrite !opened_count. pose proof (count_insert (is_open h') (table l) id (mkConn true false h addr)) as Hc.
  rewrite Hid in Hc. cbn in *. lia.
Qed.
Lemma total_refused l id h addr :
  table l !! id = None -> open_total (set_table l (<[id := mkConn true false h addr]> (table l))) = open_total l.
Proof.
  intros Hid. rewrite !total_count. pose proof (count_insert (fun c => negb (closed c)) (table l) id (mkConn true false h addr)) as Hc.
  rewrite Hid in Hc. cbn in *. lia.
Qed.

Lemma refused_inv l id h addr : table l !! id = None -> inv l -> inv (set_table l (<[id := mkConn true false h addr]> (table l))).
Proof.
  intros Hid [H1 H2 H3 H4 H5 H6 H7 H8].
  split; cbn [set_table maxConnPerHost maxConnLimit conns heap whiteList connCount]; rewrite ?total_refused by done; try done.
  - intros h' p Hp. rewrite opened_refused by done. by apply H3.
  - intros h' Hp. rewrite opened_refused by done. by apply H4.
  - intros h' Hp. rewrite opened_refused by done. by apply H5.
  - intros i c. cbn. intros [[<- <-]|[_ Hc]]%lookup_insert_Some; [done|]. by apply (H8 i).
Qed.

(** An accepted one is open. *)
Definition admitted (l l' : Listener) (id : nat) (addr h : string) : Prop :=
  table l' = <[id := mkConn false false h addr]> (table l) /\ whiteList l' = whiteList l /\
  maxConnPerHost l' = maxConnPerHost l /\ maxConnLimit l' = maxConnLimit l /\
  connCount l' = (if decide (0 < maxConnLimit l) then i32 (connCount l + 1) else connCount l).

Lemma opened_admitted l l' id addr h h' :
  table l !! id = None -> admitted l l' id addr h -> opened l' h' = (opened l h' + (if decide (h' = h) then 1 else 0))%nat.
Proof.
  intros Hid (Ht & _). rewrite !opened_count, Ht. pose proof (count_insert (is_open h') (table l) id (mkConn false false h addr)) as Hc.
  rewrite Hid in Hc. cbn [one] in Hc. change (is_open h' (mkConn false false h addr)) with (bool_decide (h = h')) in Hc.
  destruct (decide (h' = h)); [rewrite bool_decide_true in Hc by done|rewrite bool_decide_false in Hc by done]; lia.
Qed.
Lemma total_admitted l l' id addr h : table l !! id = None -> admitted l l' id addr h -> open_total l' = S (open_total l).
Proof.
  intros Hid (Ht & _). rewrite !total_count, Ht. pose proof (count_insert (fun c => negb (closed c)) (table l) id (mkConn false false h addr)) as Hc.
  rewrite Hid in Hc. cbn in *. lia.
Qed.

Lemma admitted_inv l l' id addr h :
  table l !! id = None -> Z.of_nat (open_total l) + 1 < 2 ^ 31 -> inv l -> admitted l l' id addr h ->
  (0 < maxConnLimit l -> connCount l < maxConnLimit l) ->
  (h ∉ whiteList l -> Z.of_nat (opened l h) < maxConnPerHost l) ->
  (forall h1 h2 p, conns l' !! h1 = Some p -> conns l' !! h2 = Some p -> h1 = h2) ->
  (forall h1 p, conns l' !! h1 = Some p -> exists c, heap l' !! p = Some c /\
     csize c = Z.of_nat (opened l h1 + (if decide (h1 = h) then 1 else 0))%nat) ->
  (forall h1, conns l' !! h1 = None -> h1 <> h /\ conns l !! h1 = None) ->
  inv l'.
Proof.
  intros Hid Hroom [H1 H2 H3 H4 H5 H6 H7 H8] Had Hlim Hhost Hinj Hsome Hnone.
  pose proof (total_admitted _ _ _ _ _ Hid Had) as Htot. pose proof (fun h' => opened_admitted l l' id addr h h' Hid Had) as Hop.
  destruct Had as (Ht & Hw & Hmh & Hml & Hcc). split; rewrite ?Hw, ?Hmh, ?Hml, ?Htot.
  - done.
  - done.
  - intros h1 p Hp. destruct (Hsome h1 p Hp) as (c & Hc & Hs). exists c. by rewrite Hop.
  - intros h1 Hn. destruct (Hnone h1 Hn) as [Hne Hn']. rewrite Hop, decide_False, (H4 h1 Hn') by done. done.
  - intros h1 Hw1. rewrite Hop. specialize (H5 h1 Hw1). destruct (decide (h1 = h)) as [->|]; [specialize (Hhost Hw1)|]; lia.
  - intros Hpos. destruct (H6 Hpos) as [Hc Hle]. specialize (Hlim Hpos). rewrite Hcc, decide_True by done. rewrite i32_small; lia.
  - lia.
  - intros i c. rewrite Ht. intros [[<- <-]|[_ Hc]]%lookup_insert_Some; [done|]. by apply (H8 i).
Qed.

Lemma acquire_inv l id addr h now :
  table l !! id = None -> Z.of_nat (open_total l) + 1 < 2 ^ 31 -> inv l -> inv (acquire l id addr h now).
Proof.
  intros Hid Hroom Hi. pose proof Hi as [[H1 H1'] H2 H3 H4 H5 H6 H7 H8]. unfold acquire, acquire_load, incConnCount.
  set (l1 := if decide (0 < maxConnLimit l) then set_connCount l (i32 (connCount l + 1)) else l).
  assert (connCount l1 = (if decide (0 < maxConnLimit l) then i32 (connCount l + 1) else connCount l)) as Hcc by (unfold l1; by case_decide).
  assert (table l1 = table l /\ whiteList l1 = whiteList l /\ maxConnPerHost l1 = maxConnPerHost l /\ maxConnLimit l1 = maxConnLimit l /\
    conns l1 = conns l /\ heap l1 = heap l) as (T1 & T2 & T3 & T4 & T5 & T6) by (unfold l1; by case_decide).
  assert (inv (acquire_rest l1 (conns l1 !! h) id addr h now) \/ (0 < maxConnLimit l /\ connCount l >= maxConnLimit l)) as Hrest.
  2: { unfold l1 in Hrest. repeat case_decide; try lia; destruct Hrest as [Hrest|[? ?]]; try lia; try done; by apply refused_inv. }
  destruct (decide (0 < maxConnLimit l /\ connCount l >= maxConnLimit l)) as [|Hfull]; [by right|left].
  assert (0 < maxConnLimit l -> connCount l < maxConnLimit l) as Hlim by lia. clear Hfull.
  assert (descConnCount l1 = l) as Hdesc.
  { unfold descConnCount, l1. destruct (decide (0 < maxConnLimit l)) as [Hpos|Hneg]; [|by rewrite decide_True by lia].
    cbn [set_connCount maxConnLimit connCount]. rewrite decide_False by lia.
    destruct (H6 Hpos) as [Hcn Hle]. specialize (Hlim Hpos).
    rewrite i32_small by lia. rewrite i32_small by lia. replace (connCount l + 1 - 1) with (connCount l) by lia. by destruct l. }
  clearbody l1. unfold acquire_rest. rewrite T5. destruct (conns l !! h) as [p|] eqn:Hp.
  - destruct (H3 h p Hp) as (c & Hc & Hs). rewrite T6, Hc, T3. unfold ignoreHostConnLimit. rewrite T2.
    destruct (bool_decide (csize c >= maxConnPerHost l) && negb (bool_decide (h ∈ whiteList l))) eqn:Hfull.
    + rewrite Hdesc. by apply refused_inv.
    + apply (admitted_inv l _ id addr h); try done.
      * split; cbn; [by rewrite T1|by split_and!].
      * intros Hw. rewrite (bool_decide_false (h ∈ whiteList l)) in Hfull by done. rewrite andb_true_r in Hfull. apply bool_decide_eq_false in Hfull. lia.
      * cbn. rewrite T5. done.
      * cbn. rewrite T5. intros h1 p1 Hp1. destruct (decide (h1 = h)) as [->|Hne].
        -- rewrite Hp in Hp1. injection Hp1 as <-. rewrite lookup_insert_eq. eexists. split; [done|]. cbn.
           pose proof (opened_le_total l h). rewrite Hs, i32_small by lia. lia.
        -- rewrite lookup_insert_ne by (intros <-; by apply Hne, (H2 h1 h p)). rewrite Nat.add_0_r. by apply H3.
      * cbn. rewrite T5. intros h1 Hn. split; [|done]. intros ->. congruence.
  - set (ptr := fresh (dom (heap l1))). assert (heap l !! ptr = None) as Hfresh.
    { rewrite <- T6. apply not_elem_of_dom. unfold ptr. apply is_fresh. }
    pose proof (H4 h Hp) as Hz. apply (admitted_inv l _ id addr h); try done.
    + split; cbn; [by rewrite T1|by split_and!].
    + lia.
    + cbn. intros h1 h2 p [[<- <-]|[Hn1 Hl1]]%lookup_insert_Some [[He Hep]|[Hn2 Hl2]]%lookup_insert_Some; try done.
      * destruct (H3 _ _ Hl2) as (c & Hc & _). congruence.
      * subst p. destruct (H3 _ _ Hl1) as (c & Hc & _). congruence.
      * by apply (H2 h1 h2 p).
    + cbn. rewrite ?T6. intros h1 p [[<- <-]|[Hn1 Hl1]]%lookup_insert_Some.
      * rewrite lookup_insert_eq. eexists. split; [done|]. cbn. by rewrite decide_True, Hz.
      * destruct (H3 _ _ Hl1) as (c & Hc & Hs). exists c. rewrite lookup_insert_ne by congruence. rewrite decide_False by done.
        by rewrite Nat.add_0_r.
    + cbn. intros h1 [Hn Hne]%lookup_insert_None. done.
Qed.

Lemma close_rest_inv l id c :
  table l !! id = Some c -> closed c = false \/ releaseOnce c = true -> inv l -> inv (close_rest l id).
Proof.
  intros Hid Hor Hi. pose proof Hi as [[H1 H1'] H2 H3 H4 H5 H6 H7 H8]. unfold close_rest. rewrite Hid.
  destruct (releaseOnce c) eqn:Ho; [done|]. destruct Hor as [Hcl|]; [|done].
  set (l1 := set_table l _).
  assert (forall h', (opened l1 h' + (if decide (h' = host c) then 1 else 0) = opened l h')%nat) as Hop.
  { intros h'. rewrite !opened_count. pose proof (count_insert (is_open h') (table l) id (mkConn true true (host c) (address c))) as Hc.
    rewrite Hid in Hc. unfold one in Hc. change (is_open h' (mkConn true true (host c) (address c))) with false in Hc.
    unfold l1. cbn [set_table table]. unfold is_open at 2 in Hc. rewrite Hcl in Hc. cbn [negb andb] in Hc.
    destruct (decide (h' = host c)); [rewrite bool_decide_true in Hc by done|rewrite bool_decide_false in Hc by done]; lia. }
  assert (S (open_total l1) = open_total l) as Htot.
  { rewrite !total_count. pose proof (count_insert (fun c => negb (closed c)) (table l) id (mkConn true true (host c) (address c))) as Hc.
    rewrite Hid in Hc. unfold one in Hc. rewrite Hcl in Hc. unfold l1. cbn [set_table table]. cbn in Hc. lia. }
  pose proof (Hop (host c)) as Hoph. rewrite decide_True in Hoph by done.
  assert (exists p ct, conns l !! host c = Some p /\ heap l !! p = Some ct /\ csize ct = Z.of_nat (opened l (host c))) as (p & ct & Hp & Hct & Hs).
  { destruct (conns l !! host c) as [p|] eqn:Hp; [|specialize (H4 _ Hp); lia]. destruct (H3 _ _ Hp) as (ct & ? & ?). by exists p, ct. }
  pose proof (opened_le_total l (host c)) as Hle.
  unfold release. set (l2 := descConnCount l1).
  assert (conns l2 = conns l /\ heap l2 = heap l /\ table l2 = table l1 /\ whiteList l2 = whiteList l /\ maxConnPerHost l2 = maxConnPerHost l /\
    maxConnLimit l2 = maxConnLimit l /\ (0 < maxConnLimit l -> connCount l2 = i32 (connCount l - 1))) as (E1 & E2 & E3 & E4 & E5 & E6 & E7).
  { unfold l2, descConnCount. destruct (decide (maxConnLimit l1 <= 0)) as [Hneg|]; split_and!; try done.
    intros Hpos. unfold l1 in Hneg. cbn in Hneg. lia. }
  rewrite E1, Hp, E2, Hct.
  match goal with |- inv ?x => set (l3 := x) end.
  assert (forall h', opened l3 h' = opened l1 h') as Hop3 by (intros h'; rewrite !opened_count; unfold l3; cbn; by rewrite E3).
  assert (open_total l3 = open_total l1) as Htot3 by (rewrite !total_count; unfold l3; cbn; by rewrite E3).
  split; unfold l3; cbn [set_heap maxConnPerHost maxConnLimit conns heap whiteList connCount]; fold l3; rewrite ?Htot3, ?E1, ?E4, ?E5, ?E6.
  - done.
  - done.
  - intros h1 p1 Hp1. rewrite Hop3. destruct (decide (h1 = host c)) as [->|Hne].
    + rewrite Hp in Hp1. injection Hp1 as <-. rewrite lookup_insert_eq. eexists. split; [done|]. cbn. rewrite i32_small; lia.
    + rewrite lookup_insert_ne by (intros <-; by apply Hne, (H2 h1 (host c) p)). destruct (H3 _ _ Hp1) as (c1 & Hc1 & Hs1).
      exists c1. split; [done|]. specialize (Hop h1). rewrite decide_False in Hop by done. lia.
  - intros h1 Hn. rewrite Hop3. specialize (Hop h1). rewrite (H4 h1 Hn) in Hop. lia.
  - intros h1 Hw. rewrite Hop3. specialize (H5 h1 Hw). specialize (Hop h1). lia.
  - intros Hpos. destruct (H6 Hpos) as [Hc Hl]. rewrite (E7 Hpos), i32_small; lia.
  - lia.
  - intros i c1. cbn. rewrite E3. unfold l1. cbn. intros [[<- <-]|[_ Hc]]%lookup_insert_Some; [done|]. by apply (H8 i).
Qed.

Lemma purge_host_inv now l h : inv l -> inv (purge_host now l h).
Proof.
  intros Hi. pose proof Hi as [[H1 H1'] H2 H3 H4 H5 H6 H7 H8]. unfold purge_host.
  destruct (conns l !! h) as [p|] eqn:Hp; cbn [mbind option_bind]; [|done]. destruct (H3 _ _ Hp) as (c & -> & Hs).
  case_decide as Hd; [|done]. assert (forall h', opened (set_conns l (delete h (conns l))) h' = opened l h') as Hop by done.
  split; cbn [set_conns maxConnPerHost maxConnLimit conns heap whiteList connCount]; try done.
  - intros h1 h2 p1 [_ Hl1]%lookup_delete_Some [_ Hl2]%lookup_delete_Some. by apply (H2 h1 h2 p1).
  - intros h1 p1 [_ Hl1]%lookup_delete_Some. rewrite Hop. by apply H3.
  - intros h1 Hn. rewrite Hop. destruct (decide (h1 = h)) as [->|Hne]; [lia|]. rewrite lookup_delete_ne in Hn by done. by apply H4.
Qed.

Lemma purge_inv now l : inv l -> inv (purgeExpireCounterHandler l now).
Proof.
  unfold purgeExpireCounterHandler. generalize ((map_to_list (conns l)).*1). intros hs. revert l.
  induction hs as [|h hs IH]; intros l Hi; [done|]. cbn [foldl]. by apply IH, purge_host_inv.
Qed.

Lemma step_inv l l' : step l l' -> inv l -> inv l'.
Proof.
  intros [l1 id addr now Hid Hroom|l1 id|l1 id c Hid Hor|l1 now] Hi.
  - unfold accept. destruct (hostOf addr); [|done]. by apply acquire_inv.
  - unfold Close. destruct (table l1 !! id) as [c|] eqn:Hc; [|done]. destruct (closed c) eqn:Hcl; [done|].
    apply (close_rest_inv _ _ c); auto.
  - by apply (close_rest_inv _ _ c).
  - by apply purge_inv.
Qed.

Lemma NewListener_inv m protocol config m' l :
  NewListener m protocol config = Okay (m', Some l) -> inv l.
Proof.
  unfold NewListener. case_decide; [done|]. destruct config as [config|]; [|done]. destruct (OpenConnLimit config); [|done].
  cbn [negb]. case_decide; [done|]. case_decide as Hh; [done|]. destruct (SetLimitListener m protocol); [|done]. intros [= <- <-].
  pose proof (wrap_i_range 32 (MaxConnPerHost config)) as R1. pose proof (wrap_i_range 32 (MaxConnLimit config)) as R2.
  unfold minHostConnLimit in Hh. assert (forall h, opened (mkListener protocol (i32 (MaxConnPerHost config)) (i32 (MaxConnLimit config))
    (list_to_set (filter (fun entry => entry <> "") (Split "," (WhiteList config)))) (Z.quot (PurgeCounterExpire config) Second) 0 ∅ ∅ ∅) h = 0%nat) as Hz
    by (intros h; unfold opened; cbn; by rewrite map_filter_empty, map_size_empty).
  split; cbn [maxConnPerHost maxConnLimit conns heap whiteList connCount table].
  - lia.
  - by intros ? ? ? ?%lookup_empty_Some.
  - by intros ? ? ?%lookup_empty_Some.
  - intros h _. apply Hz.
  - intros h _. rewrite Hz. lia.
  - intros Hpos. unfold open_total. cbn. rewrite map_filter_empty, map_size_empty. lia.
  - unfold open_total. cbn. by rewrite map_filter_empty, map_size_empty.
  - by intros ? ? ?%lookup_empty_Some.
Qed.

(** ** Properties *)

(** C35. The limits hold: in every run of a listener in which the purge does not
    come into the middle of an [acquire] - whoever closes connections, however often
    - and in which fewer than 2^31 are open, of the connections whose addresses are
    of the form host:port - others are neither limited nor counted - a host that is
    not on the white list has no more open than the limit per host, all hosts
    together no more than the listener's limit when there is one, and the counters
    are the numbers of open ones. *)
Theorem connections_within_limits (m m' : gset string) (protocol : string) (config : Config) (l0 l : Listener) (h : string) :
  NewListener m protocol (Some config) = Okay (m', Some l0) -> reachable l0 l ->
  (h ∉ whiteList l -> Z.of_nat (opened l h) <= maxConnPerHost l) /\
  (0 < maxConnLimit l -> Z.of_nat (open_total l) <= maxConnLimit l /\ GetListenerConnCount l = Z.of_nat (open_total l)) /\
  GetHostConnCount l h = Z.of_nat (opened l h).
Proof.
  intros Hn Hr. assert (inv l) as [_ _ H3 H4 H5 H6 _ _].
  { apply NewListener_inv in Hn. induction Hr as [|l1 l2 l3 Hs _ IH]; [done|]. apply IH. by apply (step_inv l1). }
  split; [apply H5|]. split; [intros Hp; by destruct (H6 Hp)|].
  unfold GetHostConnCount. destruct (conns l !! h) as [p|] eqn:Hp; cbn [mbind option_bind].
  - by destruct (H3 h p Hp) as (c & -> & Hs).
  - by rewrite (H4 h Hp).
Qed.

(** Closing a connection releases it once: closing again, also by a
    goroutine that saw it open before, changes nothing. *)
Theorem close_releases_once (l : Listener) (id : nat) (c : Conn) :
  table l !! id = Some c -> closed c = false -> releaseOnce c = false ->
  let l1 := Close l id in
  Close l1 id = l1 /\ close_rest l1 id = l1 /\
  (forall c', table l1 !! id = Some c' -> closed c' = true /\ releaseOnce c' = true).
Proof.
  intros Hid Hc Ho. cbv zeta. assert (table (Close l id) !! id = Some (mkConn true true (host c) (address c))) as Ht.
  { unfold Close, close_rest. rewrite Hid, Hc, Ho. unfold release, descConnCount.
    repeat case_match; cbn [set_heap set_connCount set_table table]; by rewrite lookup_insert_eq. }
  split_and!.
  - unfold Close at 1. by rewrite Ht.
  - unfold close_rest. by rewrite Ht.
  - intros c'. rewrite Ht. by intros [= <-].
Qed.

(** The purge can lift the limit: when it forgets a host between the
    look-up of its counter and the lock, the accepted connection is counted in
    a counter nobody finds, and with a limit of one the host gets a second. *)
Theorem purge_race_exceeds_limit (l : Listener) (p id id' : nat) (c : counter) (addr addr' h : string) (now : Z) :
  inv l -> maxConnLimit l <= 0 -> maxConnPerHost l = 1 -> h ∉ whiteList l ->
  conns l !! h = Some p -> heap l !! p = Some c -> csize c = 0 -> now - clastAccess c > purgeCounterExpire l ->
  table l !! id = None -> table l !! id' = None -> id <> id' ->
  acquire_load l h = Some (l, Some p) /\
  let l1 := acquire_rest (purge_host now l h) (Some p) id addr h now in
  let l2 := acquire l1 id' addr' h now in
  opened l2 h = 2%nat.
Proof.
  intros Hi Hlim Hmax Hw Hp Hc Hs Hexp Hid Hid' Hne. destruct Hi as [_ _ H3 _ _ _ _ _].
  destruct (H3 h p Hp) as (c0 & Hc0 & Hs0). rewrite Hc in Hc0. injection Hc0 as <-.
  split. { unfold acquire_load, incConnCount. rewrite decide_True by done. by rewrite Hp. }
  cbv zeta.
  assert (purge_host now l h = set_conns l (delete h (conns l))) as ->.
  { unfold purge_host. rewrite Hp. cbn [mbind option_bind]. by rewrite Hc, decide_True. }
  unfold acquire_rest at 1. cbn [set_conns heap maxConnPerHost]. rewrite Hc, Hmax, Hs. cbn [bool_decide].
  rewrite (bool_decide_false (0 >= 1)) by lia. cbn [andb].
  match goal with |- opened (acquire ?x _ _ _ _) _ = _ => set (l1 := x) end.
  assert (opened l1 h = 1%nat) as Ho1.
  { rewrite opened_count. unfold l1. cbn [set_table table]. pose proof (count_insert (is_open h) (table l) id (mkConn false false h addr)) as Hcnt.
    rewrite Hid in Hcnt. cbn [one] in Hcnt. change (is_open h (mkConn false false h addr)) with (bool_decide (h = h)) in Hcnt.
    rewrite bool_decide_true in Hcnt by done. fold (opened l h) in Hcnt. change (count (is_open h) (table l)) with (opened l h) in Hcnt. cbn. lia. }
  assert (table l1 !! id' = None) as Hid1 by (unfold l1; cbn; by rewrite lookup_insert_ne).
  unfold acquire, acquire_load, incConnCount. rewrite decide_True by done.
  assert (conns l1 !! h = None) as -> by (unfold l1; cbn; apply lookup_delete_eq).
  cbn [acquire_rest]. rewrite opened_count. cbn [set_table table set_conns set_heap].
  pose proof (count_insert (is_open h) (table l1) id' (mkConn false false h addr')) as Hcnt. rewrite Hid1 in Hcnt. cbn [one] in Hcnt.
  change (is_open h (mkConn false false h addr')) with (bool_decide (h = h)) in Hcnt. rewrite bool_decide_true in Hcnt by done.
  change (count (is_open h) (table l1)) with (opened l1 h) in Hcnt. lia.
Qed.

(** ** Witnesses *)

Definition demo_config : Config := mkConfig true 1 10 "10.0.0.9," 0 1 (300 * Second).
Definition demo_listener : Listener := mkListener "http" 1 10 {["10.0.0.9"]} 300 0 ∅ ∅ ∅.
Definition demo_run : Listener := accept (accept demo_listener 0 "10.0.0.1:5000" 100) 1 "10.0.0.1:5001" 100.

Lemma connections_within_limits_witness :
  Z.of_nat (opened demo_run "10.0.0.1") <= 1 /\ GetHostConnCount demo_run "10.0.0.1" = 1.
Proof.
  assert (NewListener ∅ "http" (Some demo_config) = Okay ({["http"]}, Some demo_listener)) as Hn by (by vm_compute).
  assert (reachable demo_listener demo_run) as Hr.
  { eapply rtc_l; [apply (step_accept _ 0 "10.0.0.1:5000" 100); [done|by vm_compute]|].
    eapply rtc_l; [apply (step_accept _ 1 "10.0.0.1:5001" 100); [by vm_compute|by vm_compute]|]. apply rtc_refl. }
  destruct (connections_within_limits _ _ _ _ _ _ "10.0.0.1" Hn Hr) as (Hh & _ & Hc).
  split; [apply Hh; apply (bool_decide_eq_true_1 _); by vm_compute|]. rewrite Hc. by vm_compute.
Defined.

Lemma close_releases_once_witness :
  Close (Close demo_run 0) 0 = Close demo_run 0 /\ GetHostConnCount (Close demo_run 0) "10.0.0.1" = 0.
Proof.
  split; [|by vm_compute].
  apply (close_releases_once demo_run 0 (mkConn false false "10.0.0.1" "10.0.0.1:5000")); by vm_compute.
Defined.

Definition demo_idle : Listener := Close (accept (mkListener "http" 1 0 ∅ 300 0 ∅ ∅ ∅) 0 "10.0.0.1:5000" 100) 0.

Lemma purge_race_exceeds_limit_witness :
  let l1 := acquire_rest (purge_host 1000 demo_idle "10.0.0.1") (Some 0%nat) 1 "10.0.0.1:5001" "10.0.0.1" 1000 in
  opened (acquire l1 2 "10.0.0.1:5002" "10.0.0.1" 1000) "10.0.0.1" = 2%nat.
Proof.
  assert (inv demo_idle) as Hi.
  { assert (NewListener ∅ "http" (Some (mkConfig true 1 0 "" 0 1 (300 * Second))) = Okay ({["http"]}, Some (mkListener "http" 1 0 ∅ 300 0 ∅ ∅ ∅))) as Hn by (by vm_compute).
    apply NewListener_inv in Hn. eapply step_inv; [apply step_close|]. eapply step_inv; [apply step_accept; [done|by vm_compute]|]. done. }
  refine (proj2 (purge_race_exceeds_limit demo_idle 0 1 2 (mkCounter 0 ∅ 100) "10.0.0.1:5001" "10.0.0.1:5002" "10.0.0.1" 1000 Hi _ _ _ _ _ _ _ _ _ _));
    try (by vm_compute); try done; by apply (bool_decide_eq_true_1 _).
Defined.
