(* ===== verification/RateLimit.v ===== *)
(** * The rate limiters ([src/plugin/ratelimit/token], [src/plugin/ratelimit/lrurate])

    Both plugins keep a token bucket for each key.  The buckets are
    [golang.org/x/time/rate], the caches that hold them [hashicorp/golang-lru];
    each is a class here, with the documented behaviour the plugins rely on:
    a bucket of size [b] filled at [r] tokens a second allows, from its making
    on, at most [b + r*t] events in [t] seconds; a cache keeps what was added
    until it is full.  Buckets are shared by pointer, so there is a heap. *)

From S2P Require Import Prelude GoStrings Hash Utils BaseCache.
From Stdlib Require Import ZArith Lia Ascii.
From stdpp Require Import base tactics list gmap strings sorting.

Open Scope Z_scope.

(** ** The libraries *)

(** [now]: the clock at the call, in nanoseconds. *)
Class RateLimiter (L : Type) := {
  NewLimiter : Z -> Z -> L;
  Allow : L -> Z -> bool * L }.

Fixpoint allow_run {L} `{RateLimiter L} (l : L) (times : list Z) : nat :=
  match times with
  | [] => 0
  | t :: times => let '(ok, l') := Allow l t in (if ok then 1 else 0) + allow_run l' times
  end.

Class RateLimiterLaws (L : Type) `{RateLimiter L} : Prop := {
  allow_bound : forall r b t0 times, 0 < r -> 0 < b -> StronglySorted Z.le (t0 :: times) ->
    Z.of_nat (allow_run (NewLimiter r b) times) <= b + r * (List.last times t0 - t0) / Second }.

(** A cache of pointers. *)
Class LRU (K C : Type) `{Countable K} := {
  lru_New : Z -> option C;
  lru_Get : C -> K -> option nat * C;
  lru_ContainsOrAdd : C -> K -> nat -> C;
  contents : C -> gmap K nat;
  capacity : C -> Z }.

Class LRULaws (K C : Type) `{LRU K C} : Prop := {
  lru_New_spec : forall n, 0 < n -> exists c, lru_New n = Some c /\ contents c = ∅ /\ capacity c = n;
  lru_Get_spec : forall c k,
    (lru_Get c k).1 = contents c !! k /\ contents (lru_Get c k).2 = contents c /\ capacity (lru_Get c k).2 = capacity c;
  lru_capacity : forall c k v, capacity (lru_ContainsOrAdd c k v) = capacity c;
  lru_Contains : forall c k v, is_Some (contents c !! k) -> contents (lru_ContainsOrAdd c k v) = contents c;
  lru_Add_room : forall c k v, contents c !! k = None -> Z.of_nat (size (contents c)) < capacity c ->
    contents (lru_ContainsOrAdd c k v) = <[k := v]> (contents c);
  lru_Add_evict : forall c k v, contents c !! k = None -> 0 < capacity c ->
    exists k', contents (lru_ContainsOrAdd c k v) = <[k := v]> (delete k' (contents c)) }.

(** ** A bucket per key

    What both plugins do with a cache and the heap of buckets. *)

Section cached.
  Context {L : Type} `{!RateLimiter L} {K C : Type} `{LRULaws K C}.

(** [Allow] on the bucket that the cache points to. *)
Definition call_bucket (c : C) (heap : gmap nat L) (ptr : nat) (now : Z) : outcome (bool * (C * gmap nat L)) :=
  match heap !! ptr with
  | None => Panics NilDereference
  | Some l => Ret ((Allow l now).1, (c, <[ptr := (Allow l now).2]> heap))
  end.

(** Make a bucket, offer it to the cache, and ask the bucket the cache has. *)
Definition add_then_allow (s : C * gmap nat L) (key : K) (limiter : L) (now : Z) : outcome (bool * (C * gmap nat L)) :=
  let ptr := fresh (dom s.2) in
  let heap := <[ptr := limiter]> s.2 in
  match lru_Get (lru_ContainsOrAdd s.1 key ptr) key with
  | (None, c) => Ret (true, (c, heap))
  | (Some ptr, c) => call_bucket c heap ptr now
  end.

(** The bucket of a key. *)
Definition bucket_at (s : C * gmap nat L) (key : K) : option L := contents s.1 !! key ≫= fun ptr => s.2 !! ptr.

Record good (s : C * gmap nat L) (cap : Z) : Prop := {
  good_cap : capacity s.1 = cap;
  good_heap : forall key ptr, contents s.1 !! key = Some ptr -> is_Some (s.2 !! ptr);
  good_inj : forall key key' ptr, contents s.1 !! key = Some ptr -> contents s.1 !! key' = Some ptr -> key = key' }.

Lemma bucket_at_None s cap key : good s cap -> bucket_at s key = None -> contents s.1 !! key = None.
Proof.
  intros G. unfold bucket_at. destruct (contents s.1 !! key) eqn:E; [|done].
  destruct (good_heap _ _ G _ _ E) as [l El]. cbn. by rewrite El.
Qed.

(** A cached bucket is found, and a call on it touches no other. *)
Lemma call_cached c heap cap key ptr now : good (c, heap) cap -> contents c !! key = Some ptr ->
  exists l c', bucket_at (c, heap) key = Some l /\
    call_bucket (lru_Get c key).2 heap ptr now = Ret ((Allow l now).1, (c', <[ptr := (Allow l now).2]> heap)) /\
    contents c' = contents c /\ good (c', <[ptr := (Allow l now).2]> heap) cap /\
    bucket_at (c', <[ptr := (Allow l now).2]> heap) key = Some (Allow l now).2 /\
    forall key', key' <> key -> bucket_at (c', <[ptr := (Allow l now).2]> heap) key' = bucket_at (c, heap) key'.
Proof.
  intros [Gc Gh Gi] E. cbn in *. destruct (lru_Get_spec c key) as (_ & Ec & Ek).
  destruct (Gh _ _ E) as [l El]. exists l, (lru_Get c key).2.
  split; [unfold bucket_at; cbn; by rewrite E|]. split; [unfold call_bucket; by rewrite El|].
  split; [done|]. split; [split; cbn; [by rewrite Ek| |]|split].
  - intros k p. rewrite Ec. intros Hk. destruct (Gh _ _ Hk) as [l' ?].
    destruct (decide (p = ptr)) as [->|]; [rewrite lookup_insert_eq|rewrite lookup_insert_ne by done]; eauto.
  - intros k k' p. rewrite Ec. apply Gi.
  - unfold bucket_at; cbn. rewrite Ec, E. cbn. by rewrite lookup_insert_eq.
  - intros k Hk. unfold bucket_at; cbn. rewrite Ec. destruct (contents c !! k) as [p|] eqn:Ep; [|done].
    cbn. rewrite lookup_insert_ne; [done|]. intros ->. apply Hk. by eapply Gi.
Qed.

Lemma good_contains c c' heap cap : good (c, heap) cap -> contents c' = contents c -> capacity c' = capacity c -> good (c', heap) cap.
Proof. intros [Gc Gh Gi] E1 E2. cbn in *. split; cbn; [by rewrite E2|rewrite E1; eauto|rewrite E1; eauto]. Qed.

Lemma good_fresh c heap cap l : good (c, heap) cap -> good (c, <[fresh (dom heap) := l]> heap) cap.
Proof.
  intros [Gc Gh Gi]. split; cbn in *; [done| |done]. intros k p E. destruct (Gh _ _ E) as [l' ?].
  destruct (decide (p = fresh (dom heap))) as [->|]; [rewrite lookup_insert_eq|rewrite lookup_insert_ne by done]; eauto.
Qed.

Lemma fresh_dom (heap : gmap nat L) : heap !! fresh (dom heap) = None.
Proof. apply not_elem_of_dom, is_fresh. Qed.

Lemma good_add c c' heap cap key l m : good (c, heap) cap -> capacity c' = capacity c ->
  m ⊆ contents c -> contents c' = <[key := fresh (dom heap)]> m -> good (c', <[fresh (dom heap) := l]> heap) cap.
Proof.
  intros G E1 Hm E2. destruct (good_fresh _ _ _ l G) as [Gc Gh Gi]. cbn in *.
  assert (forall k, m !! k = Some (fresh (dom heap)) -> False) as Hno.
  { intros k Ek. destruct (good_heap _ _ G k (fresh (dom heap))) as [l' El]; [by eapply lookup_weaken|].
    cbn in El. by rewrite fresh_dom in El. }
  split; cbn; [congruence| |]; rewrite E2.
  - intros k p [[<- <-]|[? ?]]%lookup_insert_Some; [rewrite lookup_insert_eq; eauto|].
    eapply Gh, lookup_weaken; eauto.
  - intros k k' p [[<- <-]|[? Ek]]%lookup_insert_Some [[<- Ep]|[? Ek']]%lookup_insert_Some; try done.
    + exfalso; eauto.
    + subst. exfalso; eauto.
    + eapply Gi; eapply lookup_weaken; eauto.
Qed.

(** The call is answered, and leaves the table good. *)
Lemma add_then_allow_good s cap key l now : good s cap -> 0 < cap ->
  exists r, add_then_allow s key l now = Ret r /\ good r.2 cap.
Proof.
  intros G Hcap. destruct s as [c heap]. unfold add_then_allow. cbn [fst snd].
  set (c1 := lru_ContainsOrAdd c key (fresh (dom heap))).
  assert (good (c1, <[fresh (dom heap) := l]> heap) cap) as G1.
  { destruct (contents c !! key) as [p|] eqn:E.
    - apply (good_contains c); [by apply good_fresh|apply lru_Contains; eauto|apply lru_capacity].
    - destruct (lru_Add_evict c key (fresh (dom heap)) E) as [k' E']; [by rewrite (good_cap _ _ G : capacity c = cap)|].
      refine (good_add _ _ _ _ _ _ _ G (lru_capacity _ _ _) (delete_subseteq _ k') E'). }
  destruct (lru_Get_spec c1 key) as (Eg & Ec & Ek).
  destruct (lru_Get c1 key) as [[p|] c2] eqn:EG; cbn in *.
  - destruct (call_cached _ _ _ _ p now G1 (eq_sym Eg)) as (l' & c3 & _ & Hc & _ & G3 & _).
    rewrite EG in Hc. eauto.
  - eexists; split; [done|]. by eapply good_contains.
Qed.

(** With room in the cache, it is the key's own bucket that answers, made on its
    first call and kept. *)
Lemma add_then_allow_room s cap key l now : good s cap ->
  (bucket_at s key = None -> Z.of_nat (size (contents s.1)) < cap) ->
  exists s', add_then_allow s key l now = Ret ((Allow (default l (bucket_at s key)) now).1, s') /\ good s' cap /\
    bucket_at s' key = Some (Allow (default l (bucket_at s key)) now).2 /\
    dom (contents s'.1) = {[key]} ∪ dom (contents s.1) /\
    forall key', key' <> key -> bucket_at s' key' = bucket_at s key'.
Proof.
  intros G Hroom. destruct s as [c heap]. unfold add_then_allow. cbn [fst snd] in *.
  set (c1 := lru_ContainsOrAdd c key (fresh (dom heap))).
  assert (good (c1, <[fresh (dom heap) := l]> heap) cap /\
    dom (contents c1) = {[key]} ∪ dom (contents c) /\
    bucket_at (c1, <[fresh (dom heap) := l]> heap) key = Some (default l (bucket_at (c, heap) key)) /\
    forall key', key' <> key -> bucket_at (c1, <[fresh (dom heap) := l]> heap) key' = bucket_at (c, heap) key')
    as (G1 & D1 & B1 & F1).
  { destruct (contents c !! key) as [p|] eqn:E.
    - assert (contents c1 = contents c) as E1 by (apply lru_Contains; eauto).
      destruct (good_heap _ _ G _ _ E) as [l' El]. cbn in El.
      assert (forall k q, contents c !! k = Some q -> <[fresh (dom heap) := l]> heap !! q = heap !! q) as Hq.
      { intros k q Eq. apply lookup_insert_ne. intros <-. destruct (good_heap _ _ G _ _ Eq) as [? Hx].
        cbn in Hx. by rewrite fresh_dom in Hx. }
      split_and!.
      + apply (good_contains c); [by apply good_fresh|done|apply lru_capacity].
      + rewrite E1. apply elem_of_dom_2 in E. set_solver.
      + unfold bucket_at; cbn. rewrite E1, E. cbn. by rewrite (Hq _ _ E), El.
      + intros k Hk. unfold bucket_at; cbn. rewrite E1. destruct (contents c !! k) eqn:Ek; [cbn; eauto|done].
    - assert (bucket_at (c, heap) key = None) as Hn by (unfold bucket_at; cbn; by rewrite E).
      assert (contents c1 = <[key := fresh (dom heap)]> (contents c)) as E1.
      { apply lru_Add_room; [done|]. rewrite (good_cap _ _ G : capacity c = cap). by apply Hroom. }
      split_and!.
      + by refine (good_add _ _ _ _ _ _ _ G (lru_capacity _ _ _) (reflexivity _) E1).
      + rewrite E1. apply dom_insert_L.
      + rewrite Hn. unfold bucket_at; cbn. rewrite E1, lookup_insert_eq. cbn. by rewrite lookup_insert_eq.
      + intros k Hk. unfold bucket_at; cbn. rewrite E1, lookup_insert_ne by done.
        destruct (contents c !! k) as [q|] eqn:Ek; [cbn|done]. apply lookup_insert_ne. intros <-.
        destruct (good_heap _ _ G _ _ Ek) as [? Hx]. cbn in Hx. by rewrite fresh_dom in Hx. }
  destruct (lru_Get_spec c1 key) as (Eg & _ & _).
  unfold bucket_at in B1; cbn in B1. destruct (contents c1 !! key) as [p|] eqn:Ep; [|done].
  destruct (call_cached _ _ _ _ p now G1 Ep) as (l' & c3 & Bl & Hc & E3 & G3 & B3 & F3).
  unfold bucket_at in Bl; cbn in Bl; rewrite Ep in Bl; cbn in Bl, B1. rewrite B1 in Bl. injection Bl as <-.
  destruct (lru_Get c1 key) as [o c2]; cbn in Eg, Hc; subst o. eexists. split; [exact Hc|].
  split; [done|]. split; [done|]. split; [cbn; by rewrite E3|]. intros k Hk. rewrite F3 by done. by apply F1.
Qed.

End cached.

(** ** Sequences of calls *)

Section run.
  Context {S Call : Type} (step : S -> Call -> outcome (bool * S)).

Fixpoint run (s : S) (calls : list Call) : outcome (list bool * S) :=
  match calls with
  | [] => Ret ([], s)
  | call :: calls =>
      '(ok, s) ← step s call;
      '(oks, s) ← run s calls;
      Ret (ok :: oks, s)
  end.

(** How many of the calls of interest were answered with [true]. *)
Definition granted (mine : Call -> Prop) `{forall c, Decision (mine c)} (calls : list Call) (oks : list bool) : nat :=
  length (filter (fun co : Call * bool => mine co.1 /\ co.2 = true) (zip calls oks)).
#[local] Arguments granted : simpl never.

  Context (mine : Call -> Prop) `{forall c, Decision (mine c)}.

Lemma granted_cons c calls ok oks :
  granted mine (c :: calls) (ok :: oks) = ((if decide (mine c) then if ok then 1 else 0 else 0) + granted mine calls oks)%nat.
Proof.
  unfold granted. cbn [zip zip_with]. rewrite filter_cons. cbn [fst snd].
  destruct (decide (mine c)); destruct ok; destruct (decide _); naive_solver.
Qed.

(** Nothing limits the calls of interest. *)
Lemma granted_all (I : S -> Prop) :
  (forall s c, I s -> exists ok s', step s c = Ret (ok, s') /\ I s' /\ (mine c -> ok = true)) ->
  forall calls s, I s -> exists oks s', run s calls = Ret (oks, s') /\ I s' /\
    granted mine calls oks = length (filter mine calls).
Proof.
  intros Hstep. induction calls as [|c calls IH]; intros s HI; [by exists [], s|].
  destruct (Hstep s c HI) as (ok & s1 & E & HI1 & Hok). destruct (IH _ HI1) as (oks & s2 & Hr & HI2 & Hg).
  cbn [run]. rewrite filter_cons, E. cbn. rewrite Hr. cbn. eexists _, _. split; [done|]. split; [done|].
  rewrite granted_cons, Hg. destruct (decide (mine c)) as [Hm|]; [by rewrite Hok|done].
Qed.

  Context {L : Type} `{!RateLimiter L} (time : Call -> Z) (fits : Call -> Prop).

(** One bucket answers all the calls of interest, in their order. *)
Lemma granted_by_bucket (P : S -> L -> Prop) :
  (forall s l c, P s l -> fits c -> mine c -> exists s', step s c = Ret ((Allow l (time c)).1, s') /\ P s' (Allow l (time c)).2) ->
  (forall s l c, P s l -> fits c -> ~ mine c -> exists ok s', step s c = Ret (ok, s') /\ P s' l) ->
  forall calls s l, P s l -> Forall fits calls ->
  exists oks s', run s calls = Ret (oks, s') /\ granted mine calls oks = allow_run l (time <$> filter mine calls).
Proof.
  intros Hmine Hother. induction calls as [|c calls IH]; intros s l HP Hf; [by exists [], s|].
  apply Forall_cons in Hf as [Hc Hf]. cbn [run]. rewrite filter_cons. destruct (decide (mine c)) as [Hm|Hm].
  - destruct (Hmine _ _ _ HP Hc Hm) as (s1 & -> & HP1). destruct (IH _ _ HP1 Hf) as (oks & s2 & Hr & Hg).
    cbn. rewrite Hr. cbn. eexists _, _. split; [done|]. rewrite granted_cons, decide_True by done.
    rewrite Hg. cbn. by destruct (Allow l (time c)).
  - destruct (Hother _ _ _ HP Hc Hm) as (ok & s1 & -> & HP1). destruct (IH _ _ HP1 Hf) as (oks & s2 & Hr & Hg).
    cbn. rewrite Hr. cbn. eexists _, _. split; [done|]. by rewrite granted_cons, decide_False.
Qed.

End run.

(** ** Configuration ([token/config.go]) *)

Record BucketRatelimit := mkBucket { BOpen : bool; Bucket : Z; Rate : Z }.
Record ResourceLimitConfig := mkResourceConfig {
  ROpen : bool; Global : option BucketRatelimit; MaxResourceCacheAmount : Z; RWhiteList : list string }.
Record RateLimitRule := mkRule { RuleName : string; Limit : option BucketRatelimit }.
Record APILimitInfo := mkApi { ApiName : string; ApiRule : string }.
Record APILimitConfig := mkApiConfig { AOpen : bool; Rules : list RateLimitRule; Apis : list APILimitInfo }.
Record Config := mkConfig {
  IPLimitConf : option ResourceLimitConfig; APILimitConf : option APILimitConfig; InstanceLimitConf : option ResourceLimitConfig }.

Inductive config_error :=
| RulesEmpty | RuleNameEmpty | RuleLimitNull | RuleBucketInvalid
| ApisEmpty | ApiNameEmpty | ApiRuleEmpty | ApiRuleNotFound
| GlobalEmpty | GlobalInvalid | AmountInvalid | CacheError.
#[export] Instance config_error_eq_dec : EqDecision config_error.
Proof. solve_decision. Defined.

(** [plugin.RatelimitType]. *)
Definition IPRatelimit : Z := 1.
Definition APIRatelimit : Z := 2.
Definition ServiceRatelimit : Z := 3.
Definition InstanceRatelimit : Z := 4.

Section token.
  Context {L : Type} `{!RateLimiter L, !RateLimiterLaws L} {C : Type} `{!LRU string C, !LRULaws string C}.

(** ** Limits per API ([token/api_limit.go]) *)

Record apiLimiter := mkApiLimiter { open : bool; name : string; Limiter : option L }.

Definition newAPILimiter (name : string) (open : bool) (r b : Z) : apiLimiter :=
  if negb open then mkApiLimiter false name None else mkApiLimiter true name (Some (NewLimiter r b)).

(** A limiter that is open has a bucket; without one the call is a nil dereference. *)
Definition apiAllow (a : apiLimiter) (now : Z) : outcome (bool * apiLimiter) :=
  if negb (open a) then Ret (true, a)
  else match Limiter a with
       | None => Panics NilDereference
       | Some l => let '(ok, l') := Allow l now in Ret (ok, mkApiLimiter (open a) (name a) (Some l'))
       end.

Record apiRatelimit := mkApiRatelimit {
  rules : gmap string BucketRatelimit; apis : gmap string apiLimiter; aconfig : option APILimitConfig }.

Fixpoint addRules (acc : gmap string BucketRatelimit) (rs : list RateLimitRule) : result config_error (gmap string BucketRatelimit) :=
  match rs with
  | [] => Okay acc
  | entry :: rs =>
      if decide (RuleName entry = "") then Fail RuleNameEmpty
      else match Limit entry with
           | None => Fail RuleLimitNull
           | Some limit =>
               if BOpen limit && (bool_decide (Bucket limit <= 0) || bool_decide (Rate limit <= 0)) then Fail RuleBucketInvalid
               else addRules (<[RuleName entry := limit]> acc) rs
           end
  end.
Definition parseRules (rs : list RateLimitRule) : result config_error (gmap string BucketRatelimit) :=
  if decide (rs = []) then Fail RulesEmpty else addRules ∅ rs.

Definition createLimiter (apis : gmap string apiLimiter) (name : string) (limit : BucketRatelimit) : gmap string apiLimiter :=
  <[name := newAPILimiter name (BOpen limit) (Rate limit) (Bucket limit)]> apis.

Fixpoint addApis (rules : gmap string BucketRatelimit) (acc : gmap string apiLimiter) (es : list APILimitInfo) :
    result config_error (gmap string apiLimiter) :=
  match es with
  | [] => Okay acc
  | entry :: es =>
      if decide (ApiName entry = "") then Fail ApiNameEmpty
      else if decide (ApiRule entry = "") then Fail ApiRuleEmpty
      else match rules !! ApiRule entry with
           | None => Fail ApiRuleNotFound
           | Some limit => addApis rules (createLimiter acc (ApiName entry) limit) es
           end
  end.
Definition parseApis (rules : gmap string BucketRatelimit) (es : list APILimitInfo) : result config_error (gmap string apiLimiter) :=
  if decide (es = []) then Fail ApisEmpty else addApis rules ∅ es.

Definition newAPIRatelimit (config : option APILimitConfig) : result config_error apiRatelimit :=
  match config with
  | None => Okay (mkApiRatelimit ∅ ∅ config)
  | Some c =>
      if negb (AOpen c) then Okay (mkApiRatelimit ∅ ∅ config)
      else match parseRules (Rules c) with
           | Fail e => Fail e
           | Okay rs => match parseApis rs (Apis c) with Fail e => Fail e | Okay ls => Okay (mkApiRatelimit rs ls config) end
           end
  end.

Definition api_isOpen (art : apiRatelimit) : bool := match aconfig art with None => false | Some c => AOpen c end.

Definition api_allow (art : apiRatelimit) (name : string) (now : Z) : outcome (bool * apiRatelimit) :=
  if negb (api_isOpen art) then Ret (true, art)
  else match apis art !! name with
       | None => Ret (true, art)
       | Some limiter =>
           '(ok, limiter') ← apiAllow limiter now;
           Ret (ok, mkApiRatelimit (rules art) (<[name := limiter']> (apis art)) (aconfig art))
       end.

(** ** Limits per resource ([token/resource_limiter.go]) *)

Record resourceRatelimit := mkResource {
  resources : option C; rwhiteList : gset string; rconfig : option ResourceLimitConfig; buckets : gmap nat L }.

Definition newResourceRatelimit (config : option ResourceLimitConfig) : result config_error resourceRatelimit :=
  match config with
  | None => Okay (mkResource None ∅ config ∅)
  | Some c =>
      if negb (ROpen c) then Okay (mkResource None ∅ config ∅)
      else match Global c with
           | None => Fail GlobalEmpty
           | Some g =>
               if decide (Bucket g <= 0 \/ Rate g <= 0) then Fail GlobalInvalid
               else if decide (MaxResourceCacheAmount c <= 0) then Fail AmountInvalid
               else match lru_New (MaxResourceCacheAmount c) with
                    | None => Fail CacheError
                    | Some cache => Okay (mkResource (Some cache) (list_to_set (RWhiteList c)) config ∅)
                    end
           end
  end.

Definition resource_isOpen (r : resourceRatelimit) : bool := match rconfig r with None => false | Some c => ROpen c end.
Definition isWhiteList (r : resourceRatelimit) (key : string) : bool := bool_decide (key ∈ rwhiteList r).

Definition set_table (r : resourceRatelimit) (t : C * gmap nat L) : resourceRatelimit :=
  mkResource (Some t.1) (rwhiteList r) (rconfig r) t.2.

Definition resource_allow (r : resourceRatelimit) (key : string) (now : Z) : outcome (bool * resourceRatelimit) :=
  if negb (resource_isOpen r) then Ret (true, r)
  else if isWhiteList r key then Ret (true, r)
  else match resources r, rconfig r with
       | Some cache, Some config =>
           '(ok, t) ← match lru_Get cache key with
                      | (Some ptr, cache) => call_bucket cache (buckets r) ptr now
                      | (None, cache) =>
                          match Global config with
                          | None => Panics NilDereference
                          | Some g => add_then_allow (cache, buckets r) key (NewLimiter (Rate g) (Bucket g)) now
                          end
                      end;
           Ret (ok, set_table r t)
       | _, _ => Panics NilDereference
       end.

(** ** The plugin ([token/implement.go]) *)

Record tokenBucket := mkTokenBucket { ipLimiter : resourceRatelimit; apiLimit : apiRatelimit; instanceLimiter : resourceRatelimit }.

Definition initialize (config : Config) : result config_error tokenBucket :=
  match newResourceRatelimit (IPLimitConf config) with
  | Fail e => Fail e
  | Okay irt =>
      match newAPIRatelimit (APILimitConf config) with
      | Fail e => Fail e
      | Okay art =>
          match newResourceRatelimit (InstanceLimitConf config) with
          | Fail e => Fail e
          | Okay instance => Okay (mkTokenBucket irt art instance)
          end
      end
  end.

Definition allow (tb : tokenBucket) (typ : Z) (key : string) (now : Z) : outcome (bool * tokenBucket) :=
  if decide (key = "") then Ret (true, tb)
  else if decide (typ = IPRatelimit) then
    '(ok, r) ← resource_allow (ipLimiter tb) key now; Ret (ok, mkTokenBucket r (apiLimit tb) (instanceLimiter tb))
  else if decide (typ = APIRatelimit) then
    '(ok, a) ← api_allow (apiLimit tb) key now; Ret (ok, mkTokenBucket (ipLimiter tb) a (instanceLimiter tb))
  else if decide (typ = InstanceRatelimit) then
    '(ok, r) ← resource_allow (instanceLimiter tb) key now; Ret (ok, mkTokenBucket (ipLimiter tb) (apiLimit tb) r)
  else Ret (true, tb).

(** A call: what is limited, the key and the time. *)
Definition allow_call (tb : tokenBucket) (c : Z * string * Z) : outcome (bool * tokenBucket) := allow tb c.1.1 c.1.2 c.2.
Definition calls_for (typ : Z) (key : string) (c : Z * string * Z) : Prop := c.1 = (typ, key).
#[export] Instance calls_for_decision typ key c : Decision (calls_for typ key c) := ltac:(unfold calls_for; apply _).

(** ** What the configuration asks for *)

Definition resource_conf (config : Config) (typ : Z) : option ResourceLimitConfig :=
  if decide (typ = IPRatelimit) then IPLimitConf config
  else if decide (typ = InstanceRatelimit) then InstanceLimitConf config else None.

(** The last entry for the API, and the last rule with the name it gives. *)
Definition api_limit (c : APILimitConfig) (name : string) : option BucketRatelimit :=
  entry ← last (filter (fun e => ApiName e = name) (Apis c));
  rule ← last (filter (fun r => RuleName r = ApiRule entry) (Rules c));
  Limit rule.

Definition limit_for (config : Config) (typ : Z) (key : string) : option BucketRatelimit :=
  if decide (key = "") then None
  else if decide (typ = APIRatelimit) then
    c ← APILimitConf config; limit ← api_limit c key; if AOpen c && BOpen limit then Some limit else None
  else
    c ← resource_conf config typ; if ROpen c && negb (bool_decide (key ∈ RWhiteList c)) then Global c else None.

(** The cache for the kind holds a bucket for each key of the calls. *)
Definition cache_fits (config : Config) (typ : Z) (calls : list (Z * string * Z)) : Prop :=
  match resource_conf config typ with
  | Some c => Z.of_nat (size (list_to_set (snd ∘ fst <$> filter (fun call : Z * string * Z => call.1.1 = typ) calls) : gset string)) <= MaxResourceCacheAmount c
  | None => True
  end.

(** ** The resource limiter *)

Record resource_open (config : option ResourceLimitConfig) (r : resourceRatelimit) (c : ResourceLimitConfig) (g : BucketRatelimit) (cache : C) : Prop := {
  ro_config : config = Some c; ro_rconfig : rconfig r = Some c; ro_open : ROpen c = true; ro_global : Global c = Some g;
  ro_bucket : 0 < Bucket g; ro_rate : 0 < Rate g; ro_amount : 0 < MaxResourceCacheAmount c;
  ro_cache : resources r = Some cache; ro_white : rwhiteList r = list_to_set (RWhiteList c);
  ro_good : good (cache, buckets r) (MaxResourceCacheAmount c) }.

Definition resource_closed (config : option ResourceLimitConfig) (r : resourceRatelimit) : Prop :=
  rconfig r = config /\ match config with None => True | Some c => ROpen c = false end.

Definition resource_ok config r := resource_closed config r \/ exists c g cache, resource_open config r c g cache.

Lemma newResourceRatelimit_ok config r : newResourceRatelimit config = Okay r ->
  resource_closed config r \/ exists c g cache, resource_open config r c g cache /\ contents cache = ∅.
Proof.
  unfold newResourceRatelimit. destruct config as [c|]; [|intros [= <-]; by left].
  destruct (ROpen c) eqn:Eo; cbn [negb]; [|intros [= <-]; left; by split].
  destruct (Global c) as [g|] eqn:Eg; [|done]. destruct (decide _) as [|Hg]; [done|].
  destruct (decide _) as [|Hm]; [done|].
  destruct (lru_New_spec (MaxResourceCacheAmount c)) as (cache & -> & Ec & Ek); [lia|].
  intros [= <-]. right. exists c, g, cache. split; [|done].
  split; try done; try lia. split; cbn; [done| |]; rewrite Ec; intros; by simplify_map_eq.
Qed.

Lemma resource_open_set config r c g cache t : resource_open config r c g cache -> good t (MaxResourceCacheAmount c) ->
  resource_open config (set_table r t) c g t.1.
Proof. intros [] ?. destruct t. by split. Qed.

(** The heart of [allow] on an open limiter and a key that is not white-listed. *)
Lemma resource_allow_open config r c g cache key now : resource_open config r c g cache -> key ∉ RWhiteList c ->
  resource_allow r key now =
  ('(ok, t) ← match lru_Get cache key with
              | (Some ptr, cache) => call_bucket cache (buckets r) ptr now
              | (None, cache) => add_then_allow (cache, buckets r) key (NewLimiter (Rate g) (Bucket g)) now
              end;
   Ret (ok, set_table r t)).
Proof.
  intros [] Hw. unfold resource_allow, resource_isOpen, isWhiteList. rewrite ro_rconfig0, ro_open0, ro_white0, ro_cache0, ro_global0.
  cbn [negb]. rewrite bool_decide_eq_false_2 by (by rewrite elem_of_list_to_set). done.
Qed.

Lemma resource_allow_free config r key now :
  resource_closed config r \/ (exists c g cache, resource_open config r c g cache /\ key ∈ RWhiteList c) ->
  resource_allow r key now = Ret (true, r).
Proof.
  intros [[E Hc]|(c & g & cache & [] & Hw)]; unfold resource_allow, resource_isOpen, isWhiteList.
  - rewrite E. destruct config as [c|]; [by rewrite Hc|done].
  - rewrite ro_rconfig0, ro_open0, ro_white0. cbn [negb].
    by rewrite bool_decide_eq_true_2 by (by rewrite elem_of_list_to_set).
Qed.

Lemma resource_allow_returns config r key now : resource_ok config r ->
  exists ok r', resource_allow r key now = Ret (ok, r') /\ resource_ok config r'.
Proof.
  intros [Hc|(c & g & cache & Ho)].
  { rewrite (resource_allow_free config) by eauto. exists true, r. split; [done|by left]. }
  destruct (decide (key ∈ RWhiteList c)) as [Hw|Hw].
  { rewrite (resource_allow_free config) by eauto 10. exists true, r. split; [done|]. right; eauto. }
  rewrite (resource_allow_open _ _ _ _ _ _ _ Ho Hw). destruct (lru_Get_spec cache key) as (Eg & Ec & Ek).
  pose proof (ro_good _ _ _ _ _ Ho) as G.
  assert (exists x, match lru_Get cache key with
              | (Some ptr, cache) => call_bucket cache (buckets r) ptr now
              | (None, cache) => add_then_allow (cache, buckets r) key (NewLimiter (Rate g) (Bucket g)) now
              end = Ret x /\ good x.2 (MaxResourceCacheAmount c)) as ([ok t] & -> & Gt).
  { destruct (lru_Get cache key) as [[p|] c2] eqn:E; cbn in *.
    - destruct (call_cached _ _ _ _ p now G (eq_sym Eg)) as (l & c3 & _ & Hc & _ & G3 & _). rewrite E in Hc. eauto.
    - apply add_then_allow_good; [by eapply good_contains|apply Ho]. }
  cbn. eexists _, _. split; [done|]. right. exists c, g, t.1. by apply (resource_open_set _ _ _ _ cache).
Qed.

(** The bucket of a key, whether it has been made yet or not. *)
Definition bucket_for (r : resourceRatelimit) (g : BucketRatelimit) (cache : C) (key : string) : L :=
  default (NewLimiter (Rate g) (Bucket g)) (bucket_at (cache, buckets r) key).

(** With room in the cache for [keys], a key's bucket answers its calls and is
    unchanged by the others. *)
Lemma resource_allow_bucket config r c g cache key now (keys : gset string) :
  resource_open config r c g cache -> key ∉ RWhiteList c -> key ∈ keys -> dom (contents cache) ⊆ keys ->
  Z.of_nat (size keys) <= MaxResourceCacheAmount c ->
  exists r' cache', resource_allow r key now = Ret ((Allow (bucket_for r g cache key) now).1, r') /\
    resource_open config r' c g cache' /\ dom (contents cache') ⊆ keys /\
    bucket_for r' g cache' key = (Allow (bucket_for r g cache key) now).2 /\
    forall key', key' <> key -> bucket_for r' g cache' key' = bucket_for r g cache key'.
Proof.
  intros Ho Hw Hk Hd Hs. rewrite (resource_allow_open _ _ _ _ _ _ _ Ho Hw).
  destruct (lru_Get_spec cache key) as (Eg & Ec & Ek). pose proof (ro_good _ _ _ _ _ Ho) as G.
  unfold bucket_for. destruct (lru_Get cache key) as [[p|] c2] eqn:E; cbn [fst snd] in *.
  - destruct (call_cached _ _ _ _ p now G (eq_sym Eg)) as (l & c3 & Bl & Hc & E3 & G3 & B3 & F3).
    rewrite E in Hc. cbn [snd] in Hc. rewrite Hc, Bl. cbn. eexists _, c3. split; [done|].
    split; [by apply (resource_open_set _ _ _ _ cache (c3, _) Ho)|]. split; [by rewrite E3|]. cbn. split; [by rewrite B3|].
    intros k Hne. by rewrite F3.
  - assert (good (c2, buckets r) (MaxResourceCacheAmount c)) as G2 by (by eapply good_contains).
    assert (forall k, bucket_at (c2, buckets r) k = bucket_at (cache, buckets r) k) as Eb
      by (intros; unfold bucket_at; cbn; by rewrite Ec).
    destruct (add_then_allow_room _ _ key (NewLimiter (Rate g) (Bucket g)) now G2) as (t & -> & Gt & Bt & Dt & Ft).
    { intros _. cbn. rewrite Ec. rewrite <- size_dom. eapply Z.lt_le_trans; [|exact Hs].
      apply inj_lt, subset_size. split; [done|]. intros Hsub. apply Hsub, elem_of_dom in Hk. rewrite <- Eg in Hk. by destruct Hk. }
    cbn. eexists _, t.1. split; [by rewrite Eb|]. split; [by apply (resource_open_set _ _ _ _ cache _ Ho)|].
    destruct t as [ct ht]; cbn in *. split; [rewrite Dt, Ec; set_solver|]. split; [by rewrite Bt, Eb|].
    intros k Hne. by rewrite Ft, Eb.
Qed.

(** ** The API limiter *)

Definition api_entry_ok (limit : option BucketRatelimit) (name : string) (entry : option apiLimiter) : Prop :=
  match limit with
  | None => entry = None
  | Some g =>
      if BOpen g then 0 < Rate g /\ 0 < Bucket g /\ exists l, entry = Some (mkApiLimiter true name (Some l))
      else entry = Some (mkApiLimiter false name None)
  end.

Definition api_ok (config : option APILimitConfig) (art : apiRatelimit) : Prop :=
  aconfig art = config /\
  forall c, config = Some c -> AOpen c = true -> forall name, api_entry_ok (api_limit c name) name (apis art !! name).

Definition rule_valid (g : BucketRatelimit) : Prop := BOpen g = true -> 0 < Rate g /\ 0 < Bucket g.

Lemma addRules_ok rs : forall acc m, addRules acc rs = Okay m -> map_Forall (fun _ g => rule_valid g) acc ->
  map_Forall (fun _ g => rule_valid g) m /\
  forall n, m !! n = match last (filter (fun r => RuleName r = n) rs) with Some r => Limit r | None => acc !! n end.
Proof.
  induction rs as [|r rs IH]; intros acc m; cbn [addRules]; [by intros [= ->]|].
  destruct (decide _); [done|]. destruct (Limit r) as [g|] eqn:El; [|done].
  destruct (BOpen g && _) eqn:Ev; [done|]. intros Hm Hacc.
  edestruct IH as [Hv Hl]; [exact Hm| |].
  { apply map_Forall_insert_2; [|done]. intros Ho. rewrite Ho in Ev. cbn in Ev.
    apply orb_false_iff in Ev as [?%bool_decide_eq_false ?%bool_decide_eq_false]. lia. }
  split; [done|]. intros n'. rewrite Hl, filter_cons. destruct (decide (RuleName r = n')) as [<-|].
  - rewrite last_cons. destruct (last _); [done|]. by rewrite lookup_insert_eq.
  - destruct (last _); [done|]. by rewrite lookup_insert_ne.
Qed.

Lemma addApis_ok rules es : forall acc m, addApis rules acc es = Okay m ->
  forall n, m !! n = match last (filter (fun e => ApiName e = n) es) with
                     | Some e => (fun g => newAPILimiter n (BOpen g) (Rate g) (Bucket g)) <$> rules !! ApiRule e
                     | None => acc !! n
                     end.
Proof.
  induction es as [|e es IH]; intros acc m; cbn [addApis]; [by intros [= ->]|].
  destruct (decide _); [done|]. destruct (decide _); [done|]. destruct (rules !! ApiRule e) as [g|] eqn:Er; [|done].
  intros Hm n'. rewrite (IH _ _ Hm), filter_cons. unfold createLimiter. destruct (decide (ApiName e = n')) as [<-|].
  - rewrite last_cons. destruct (last _); [done|]. by rewrite lookup_insert_eq, Er.
  - destruct (last _); [done|]. by rewrite lookup_insert_ne.
Qed.

(** A fresh API limiter has a full bucket for each API that the configuration limits. *)
Lemma newAPIRatelimit_ok config art : newAPIRatelimit config = Okay art -> api_ok config art /\
  forall c name g, config = Some c -> AOpen c = true -> api_limit c name = Some g -> BOpen g = true ->
    apis art !! name = Some (mkApiLimiter true name (Some (NewLimiter (Rate g) (Bucket g)))).
Proof.
  unfold newAPIRatelimit. destruct config as [c|]; [|intros [= <-]; done].
  destruct (AOpen c) eqn:Eo; cbn [negb]; [|intros [= <-]; split; [split; [done|]|]; intros; congruence].
  unfold parseRules. destruct (decide _); [done|]. destruct (addRules ∅ (Rules c)) as [rs|] eqn:Er; [|done].
  destruct (addRules_ok _ _ _ Er) as [Hv Hl]; [apply map_Forall_empty|].
  unfold parseApis. destruct (decide _); [done|]. destruct (addApis rs ∅ (Apis c)) as [ls|] eqn:Ea; [|done].
  intros [= <-]. assert (forall n, ls !! n = (fun g => newAPILimiter n (BOpen g) (Rate g) (Bucket g)) <$> api_limit c n) as E.
  { intros n'. rewrite (addApis_ok _ _ _ _ Ea). unfold api_limit. destruct (last _) as [e|]; [|apply lookup_empty].
    cbn. rewrite Hl. by destruct (last _). }
  assert (forall n g, api_limit c n = Some g -> rule_valid g) as Hr.
  { intros n' g. unfold api_limit. destruct (last _) as [e|]; [|done]. cbn. intros Hg. apply (Hv (ApiRule e)).
    rewrite Hl. by destruct (last _). }
  split; [split; [done|]|]; cbn [apis].
  - intros ? [= <-] _ name. rewrite E. unfold api_entry_ok. destruct (api_limit c name) as [g|] eqn:Eg; [|done].
    cbn. unfold newAPILimiter. destruct (BOpen g) eqn:Ob; cbn; [|done]. destruct (Hr _ _ Eg Ob). eauto.
  - intros ? name g [= <-] _ Eg Ob. rewrite E, Eg. cbn. unfold newAPILimiter. by rewrite Ob.
Qed.

Lemma api_allow_spec config art key now : api_ok config art ->
  match (c ← config; limit ← api_limit c key; if AOpen c && BOpen limit then Some limit else None) with
  | None => exists art', api_allow art key now = Ret (true, art') /\ api_ok config art' /\ forall k, apis art' !! k = apis art !! k
  | Some _ => exists l, apis art !! key = Some (mkApiLimiter true key (Some l)) /\
      exists art', api_allow art key now = Ret ((Allow l now).1, art') /\ api_ok config art' /\
        apis art' = <[key := mkApiLimiter true key (Some (Allow l now).2)]> (apis art)
  end.
Proof.
  intros HA. pose proof HA as [Ec Ha]. unfold api_allow, api_isOpen. rewrite Ec. destruct config as [c|]; cbn; [|by exists art].
  destruct (AOpen c) eqn:Eo; cbn; [|destruct (api_limit c key); by exists art].
  pose proof (Ha c eq_refl Eo key) as Hk. unfold api_entry_ok in Hk. destruct (api_limit c key) as [g|] eqn:Eg; cbn.
  2: { rewrite Hk. by exists art. }
  destruct (BOpen g) eqn:Ob.
  - destruct Hk as (? & ? & l & El). exists l. split; [done|]. rewrite El. unfold apiAllow; cbn.
    destruct (Allow l now) as [ok l'] eqn:EA; cbn. eexists. split; [done|]. split; [split; [done|]|done]. cbn.
    intros ? [= <-] _ n'. destruct (decide (key = n')) as [<-|].
    + rewrite lookup_insert_eq. unfold api_entry_ok. rewrite Eg, Ob. eauto.
    + rewrite lookup_insert_ne by done. by apply Ha.
  - rewrite Hk. cbn. eexists. split; [done|]. split; [split; [done|]|]; cbn.
    + intros ? [= <-] _ n'. rewrite insert_id by done. by apply Ha.
    + intros k. by rewrite insert_id.
Qed.

(** ** The plugin *)

Record tb_ok (config : Config) (tb : tokenBucket) : Prop := {
  tb_ip : resource_ok (IPLimitConf config) (ipLimiter tb);
  tb_api : api_ok (APILimitConf config) (apiLimit tb);
  tb_instance : resource_ok (InstanceLimitConf config) (instanceLimiter tb) }.

Lemma closed_or_open config r :
  resource_closed config r \/ (exists c g cache, resource_open config r c g cache /\ contents cache = ∅) -> resource_ok config r.
Proof. unfold resource_ok. naive_solver. Qed.

Lemma initialize_ok config tb : initialize config = Okay tb ->
  newResourceRatelimit (IPLimitConf config) = Okay (ipLimiter tb) /\
  newAPIRatelimit (APILimitConf config) = Okay (apiLimit tb) /\
  newResourceRatelimit (InstanceLimitConf config) = Okay (instanceLimiter tb) /\ tb_ok config tb.
Proof.
  unfold initialize. destruct (newResourceRatelimit (IPLimitConf config)) eqn:E1; [|done].
  destruct (newAPIRatelimit (APILimitConf config)) eqn:E2; [|done].
  destruct (newResourceRatelimit (InstanceLimitConf config)) eqn:E3; [|done]. intros [= <-]. cbn.
  split_and!; [done..|]. split; cbn;
    [by apply closed_or_open, newResourceRatelimit_ok|by apply newAPIRatelimit_ok|by apply closed_or_open, newResourceRatelimit_ok].
Qed.

Definition is_resource (typ : Z) : Prop := typ = IPRatelimit \/ typ = InstanceRatelimit.
Definition limiter_of (typ : Z) (tb : tokenBucket) : resourceRatelimit :=
  if decide (typ = IPRatelimit) then ipLimiter tb else instanceLimiter tb.

Lemma limiter_of_ok config tb typ : tb_ok config tb -> is_resource typ -> resource_ok (resource_conf config typ) (limiter_of typ tb).
Proof. intros [] [->| ->]; done. Qed.

(** Which limiter a call goes to, and that it leaves the others alone. *)
Record call_effect (config : Config) (tb : tokenBucket) (typ : Z) (key : string) (now : Z) (ok : bool) (tb' : tokenBucket) : Prop := {
  ce_ok : tb_ok config tb';
  ce_resource : is_resource typ -> key <> "" -> resource_allow (limiter_of typ tb) key now = Ret (ok, limiter_of typ tb');
  ce_api : typ = APIRatelimit -> key <> "" -> api_allow (apiLimit tb) key now = Ret (ok, apiLimit tb');
  ce_other : forall typ', is_resource typ' -> typ' <> typ \/ key = "" -> limiter_of typ' tb' = limiter_of typ' tb;
  ce_other_api : typ <> APIRatelimit \/ key = "" -> apiLimit tb' = apiLimit tb;
  ce_free : key = "" \/ ~ is_resource typ /\ typ <> APIRatelimit -> ok = true }.

Lemma allow_effect config tb typ key now : tb_ok config tb ->
  exists ok tb', allow tb typ key now = Ret (ok, tb') /\ call_effect config tb typ key now ok tb'.
Proof.
  intros T. unfold allow. destruct (decide (key = "")) as [->|Hk].
  { exists true, tb. split; [done|]. split; naive_solver. }
  destruct (decide (typ = IPRatelimit)) as [->|N1]; [|destruct (decide (typ = APIRatelimit)) as [->|N2];
    [|destruct (decide (typ = InstanceRatelimit)) as [->|N3]]].
  - destruct (resource_allow_returns _ _ key now (tb_ip _ _ T)) as (ok & r & E & Hr). rewrite E. cbn. eexists _, _. split; [done|].
    destruct T. split; [by split|done|done| |done|]; [intros ? [->| ->] [|]; done|intros [|[[]]]; [done|by left]].
  - pose proof (api_allow_spec _ _ key now (tb_api _ _ T)) as A.
    assert (exists ok art, api_allow (apiLimit tb) key now = Ret (ok, art) /\ api_ok (APILimitConf config) art) as (ok & art & E & Hr)
      by (destruct (_ ≫= _); naive_solver).
    rewrite E. cbn. eexists _, _. split; [done|]. destruct T. split; [by split|by intros []|done|done|by intros []|].
    intros [|[]]; done.
  - destruct (resource_allow_returns _ _ key now (tb_instance _ _ T)) as (ok & r & E & Hr). rewrite E. cbn. eexists _, _. split; [done|].
    destruct T. split; [by split|done|done| |done|]; [intros ? [->| ->] [|]; done|intros [|[[]]]; [done|by right]].
  - exists true, tb. split; [done|]. split; [done| |done|done|done|done]. intros []; done.
Qed.

(** ** What is granted *)

(** The API's own bucket answers its calls. *)
Lemma api_granted config tb key l calls : tb_ok config tb -> key <> "" ->
  (c ← APILimitConf config; limit ← api_limit c key; if AOpen c && BOpen limit then Some limit else None) <> None ->
  apis (apiLimit tb) !! key = Some (mkApiLimiter true key (Some l)) ->
  exists oks tb', run allow_call tb calls = Ret (oks, tb') /\
    granted (calls_for APIRatelimit key) calls oks = allow_run l (snd <$> filter (calls_for APIRatelimit key) calls).
Proof.
  intros T Hk Hlim El. apply (granted_by_bucket allow_call (calls_for APIRatelimit key) snd (fun _ => True)
    (fun tb l => tb_ok config tb /\ apis (apiLimit tb) !! key = Some (mkApiLimiter true key (Some l)))).
  3: done. 3: by apply Forall_true.
  - intros s l' [[typ k] now] [Ts E] _ [= -> ->]. destruct (allow_effect config s APIRatelimit key now Ts) as (ok & s' & Ea & []).
    pose proof (api_allow_spec _ _ key now (tb_api _ _ Ts)) as A. rewrite (ce_api0 eq_refl Hk) in A.
    destruct (APILimitConf config ≫= _); [|done]. destruct A as (l2 & El2 & art & [= Eok Eapi] & _ & Eart).
    rewrite E in El2. injection El2 as <-. exists s'. subst ok. split; [done|]. split; [done|]. rewrite Eapi, Eart. apply lookup_insert_eq.
  - intros s l' [[typ k] now] [Ts E] _ Hne. destruct (allow_effect config s typ k now Ts) as (ok & s' & Ea & []).
    exists ok, s'. split; [done|]. split; [done|]. destruct (decide (typ = APIRatelimit)) as [->|]; [|by rewrite ce_other_api0 by auto].
    destruct (decide (k = "")) as [->|Hk']; [by rewrite ce_other_api0 by auto|].
    pose proof (api_allow_spec _ _ k now (tb_api _ _ Ts)) as A. rewrite (ce_api0 eq_refl Hk') in A. clear Hlim.
    destruct (APILimitConf config ≫= _).
    + destruct A as (l2 & El2 & art & [= _ Eapi] & _ & Eart). rewrite Eapi, Eart. rewrite lookup_insert_ne; [done|]. intros ->. by apply Hne.
    + destruct A as (art & [= _ Eapi] & _ & Eart). by rewrite Eapi, Eart.
Qed.

(** A resource's own bucket answers its calls, when the cache has room for all. *)
Lemma resource_granted config tb typ key c g cache (keys : gset string) calls : tb_ok config tb -> is_resource typ -> key <> "" ->
  resource_open (resource_conf config typ) (limiter_of typ tb) c g cache -> key ∉ RWhiteList c ->
  dom (contents cache) ⊆ keys -> Z.of_nat (size keys) <= MaxResourceCacheAmount c ->
  Forall (fun call : Z * string * Z => call.1.1 = typ -> call.1.2 ∈ keys) calls ->
  exists oks tb', run allow_call tb calls = Ret (oks, tb') /\
    granted (calls_for typ key) calls oks =
    allow_run (bucket_for (limiter_of typ tb) g cache key) (snd <$> filter (calls_for typ key) calls).
Proof.
  intros T Ht Hk Ho Hw Hd Hs Hf. apply (granted_by_bucket allow_call (calls_for typ key) snd _
    (fun tb l => tb_ok config tb /\ exists cache, resource_open (resource_conf config typ) (limiter_of typ tb) c g cache /\
       dom (contents cache) ⊆ keys /\ bucket_for (limiter_of typ tb) g cache key = l)) with (4 := Hf); [| |eauto 10].
  - intros s l' [[? k] now] (Ts & ch & Hos & Hds & <-) Hfit [= -> ->].
    destruct (allow_effect config s typ key now Ts) as (ok & s' & Ea & []).
    destruct (resource_allow_bucket _ _ _ _ _ key now _ Hos Hw (Hfit eq_refl) Hds Hs) as (r' & ch' & E & Ho' & Hd' & Hb & _).
    rewrite (ce_resource0 Ht Hk) in E. injection E as -> <-. exists s'. split; [done|]. eauto 10.
  - intros s l' [[typ' k] now] (Ts & ch & Hos & Hds & <-) Hfit Hne.
    destruct (allow_effect config s typ' k now Ts) as (ok & s' & Ea & []). exists ok, s'. split; [done|]. split; [done|].
    destruct (decide (typ' = typ)) as [->|]; [|rewrite ce_other0 by auto; eauto].
    destruct (decide (k = "")) as [->|Hk']; [rewrite ce_other0 by auto; eauto|].
    specialize (ce_resource0 Ht Hk'). destruct (decide (k ∈ RWhiteList c)) as [Hwk|Hwk].
    + rewrite (resource_allow_free (resource_conf config typ)) in ce_resource0 by eauto 10.
      injection ce_resource0 as _ <-. eauto.
    + destruct (resource_allow_bucket _ _ _ _ _ k now _ Hos Hwk (Hfit eq_refl) Hds Hs) as (r' & ch' & E & Ho' & Hd' & _ & Hb).
      rewrite ce_resource0 in E. injection E as _ <-. exists ch'. split; [done|]. split; [done|]. apply Hb.
      intros ->. by apply Hne.
Qed.

(** What [initialize] makes of a kind and key that have a limit: a new bucket. *)
Lemma run_unlimited config tb typ key calls : initialize config = Okay tb -> limit_for config typ key = None ->
  exists oks tb', run allow_call tb calls = Ret (oks, tb') /\
    granted (calls_for typ key) calls oks = length (filter (calls_for typ key) calls).
Proof.
  intros Hi Hl. destruct (initialize_ok _ _ Hi) as (_ & _ & _ & T).
  destruct (granted_all allow_call (calls_for typ key) (tb_ok config)) with (calls := calls) (s := tb)
    as (oks & tb' & E & _ & G); [|done|eauto].
  intros s [[typ' k] now] Ts. destruct (allow_effect config s typ' k now Ts) as (ok & s' & Ea & []).
  exists ok, s'. split; [done|]. split; [done|]. intros [= -> ->]. unfold limit_for in Hl.
  destruct (decide (key = "")) as [->|Hk]; [by apply ce_free0; left|].
  destruct (decide (typ = APIRatelimit)) as [->|Ht].
  - pose proof (api_allow_spec _ _ key now (tb_api _ _ Ts)) as A. rewrite Hl, (ce_api0 eq_refl Hk) in A.
    by destruct A as (? & [= -> _] & _).
  - destruct (decide (is_resource typ)) as [Hr|]; [|by apply ce_free0; right].
    specialize (ce_resource0 Hr Hk). rewrite (resource_allow_free (resource_conf config typ)) in ce_resource0.
    { by injection ce_resource0 as <- _. }
    destruct (limiter_of_ok _ _ _ Ts Hr) as [Hc|(c & g & ch & Ho)]; [by left|]. right. exists c, g, ch. split; [done|].
    rewrite (ro_config _ _ _ _ _ Ho) in Hl. cbn in Hl. rewrite (ro_open _ _ _ _ _ Ho), (ro_global _ _ _ _ _ Ho) in Hl.
    cbn in Hl. case_bool_decide; done.
Qed.

Lemma run_limited config tb typ key g calls : initialize config = Okay tb -> limit_for config typ key = Some g ->
  cache_fits config typ calls ->
  0 < Rate g /\ 0 < Bucket g /\ exists oks tb', run allow_call tb calls = Ret (oks, tb') /\
    granted (calls_for typ key) calls oks = allow_run (NewLimiter (Rate g) (Bucket g)) (snd <$> filter (calls_for typ key) calls).
Proof.
  intros Hi Hl Hfit. destruct (initialize_ok _ _ Hi) as (E1 & E2 & E3 & T). unfold limit_for in Hl.
  destruct (decide (key = "")) as [->|Hk]; [done|]. destruct (decide (typ = APIRatelimit)) as [->|Ht].
  - destruct (newAPIRatelimit_ok _ _ E2) as [[_ Ha] Hnew]. destruct (APILimitConf config) as [c|] eqn:Ec; [|done]. cbn in Hl.
    destruct (api_limit c key) as [g'|] eqn:Eg; [|done]. cbn in Hl. destruct (AOpen c) eqn:Eo; [|done].
    destruct (BOpen g') eqn:Ob; [|done]. injection Hl as ->.
    pose proof (Ha c eq_refl Eo key) as Hv. unfold api_entry_ok in Hv. rewrite Eg, Ob in Hv. destruct Hv as (? & ? & _).
    split; [done|]. split; [done|]. apply (api_granted config); [done|done| |by apply (Hnew c)].
    rewrite Ec. cbn. rewrite Eg. cbn. by rewrite Eo, Ob.
  - destruct (resource_conf config typ) as [c|] eqn:Ec; [|done]. cbn in Hl. destruct (ROpen c) eqn:Eo; [|done]. cbn in Hl.
    case_bool_decide as Hw; [done|]. cbn in Hl.
    assert (is_resource typ) as Hr.
    { unfold resource_conf in Ec. unfold is_resource. destruct (decide (typ = IPRatelimit)); [by left|].
      destruct (decide (typ = InstanceRatelimit)); [by right|done]. }
    assert (newResourceRatelimit (resource_conf config typ) = Okay (limiter_of typ tb)) as En by (by destruct Hr as [->| ->]).
    destruct (newResourceRatelimit_ok _ _ En) as [[_ Hc]|(c' & g' & ch & Ho & Hch)]; [rewrite Ec in Hc; congruence|].
    pose proof Ho as []. rewrite Ec in ro_config0. injection ro_config0 as <-. rewrite Hl in ro_global0. injection ro_global0 as <-.
    split; [done|]. split; [done|]. unfold cache_fits in Hfit. rewrite Ec in Hfit.
    replace (NewLimiter (Rate g) (Bucket g)) with (bucket_for (limiter_of typ tb) g ch key)
      by (unfold bucket_for, bucket_at; cbn; by rewrite Hch).
    eapply (resource_granted config tb typ key c g ch _ calls T Hr Hk); [by rewrite Ec|done| |exact Hfit|].
    + rewrite Hch. set_solver.
    + apply Forall_forall. intros [[t k] now] Hin ?; cbn in *; subst. apply elem_of_list_to_set, list_elem_of_fmap.
      exists (typ, k, now). split; [done|]. by apply list_elem_of_filter.
Qed.


(** C38. After a successful [initialize] the plugin answers every sequence of
    calls.  For a kind and key that the configuration limits, with a cache that
    holds the keys of that kind, it allows within any [t] seconds from the start
    no more than the bucket's size plus [t] times its rate, whatever else is
    called in between; for all others (limiter closed, API without an open rule,
    white-listed or empty key, kind without a limiter) it allows every call. *)
Theorem calls_within_rate (config : Config) (tb : tokenBucket) (typ : Z) (key : string) (calls : list (Z * string * Z)) (t0 : Z) :
  initialize config = Okay tb -> cache_fits config typ calls ->
  StronglySorted Z.le (t0 :: (snd <$> filter (calls_for typ key) calls)) ->
  exists oks tb', run allow_call tb calls = Ret (oks, tb') /\
    match limit_for config typ key with
    | Some g =>
        Z.of_nat (granted (calls_for typ key) calls oks) <=
        Bucket g + Rate g * (List.last (snd <$> filter (calls_for typ key) calls) t0 - t0) / Second
    | None => granted (calls_for typ key) calls oks = length (filter (calls_for typ key) calls)
    end.
Proof.
  intros Hi Hf Hs. destruct (limit_for config typ key) as [g|] eqn:E; [|by apply (run_unlimited config)].
  destruct (run_limited config tb typ key g calls Hi E Hf) as (? & ? & oks & tb' & Hr & Hg).
  exists oks, tb'. split; [done|]. rewrite Hg. by apply allow_bound.
Qed.

End token.

(** ** The plugin [lrurate] ([lrurate/base.go], [lrurate/lrurate.go]) *)

(** [crc32.ChecksumIEEE] of the standard library. *)
Definition crc_shift (c : Z) : Z := if Z.testbit c 0 then Z.lxor (Z.shiftr c 1) 3988292384 else Z.shiftr c 1.
Definition crc_byte (c : Z) (a : ascii) : Z := Nat.iter 8 crc_shift (Z.lxor c (Z.of_nat (nat_of_ascii a))).
Definition ChecksumIEEE (str : string) : Z :=
  Z.lxor (foldl crc_byte 4294967295 (String.list_ascii_of_string str)) 4294967295.

Example crc_check : ChecksumIEEE "123456789" = 3421780262.
Proof. reflexivity. Qed.

Definition hash (str : string) : Z := ChecksumIEEE str.

(** A value of the options: an [int], or of another type. *)
Inductive value := VInt (n : Z) | VOther.
Definition options := gmap string value.
Inductive option_error := NotFound (option : string) | Invalid (option : string) | CacheNotMade.

(** The check that is repeated for each option. *)
Definition intOption (opt : options) (option : string) : result option_error Z :=
  match opt !! option with
  | None => Fail (NotFound option)
  | Some (VInt n) => if decide (n <= 0) then Fail (Invalid option) else Okay n
  | Some VOther => Fail (Invalid option)
  end.

Record limits := mkLimits { LruSize : Z; LRate : Z; LBurst : Z }.

Definition parseOption (opt : options) (size rate burst : string) : result option_error limits :=
  match intOption opt size with
  | Fail e => Fail e
  | Okay n =>
      match intOption opt rate with
      | Fail e => Fail e
      | Okay r => match intOption opt burst with Fail e => Fail e | Okay b => Okay (mkLimits n r b) end
      end
  end.
Definition parseRateLimitIPOption (opt : options) := parseOption opt "rateLimitIPLruSize" "rateLimitIPRate" "rateLimitIPBurst".
Definition parseRateLimitServiceOption (opt : options) :=
  parseOption opt "rateLimitServiceLruSize" "rateLimitServiceRate" "rateLimitServiceBurst".

Section lrurate.
  Context {L : Type} `{!RateLimiter L, !RateLimiterLaws L} {C : Type} `{!LRU Z C, !LRULaws Z C}.

Record LRURate := mkLRURate {
  ipLimits : limits; ipLruCache : C * gmap nat L; serviceLimits : limits; serviceLruCache : C * gmap nat L }.

Definition initEnv (ip service : limits) : result option_error LRURate :=
  match lru_New (LruSize ip) with
  | None => Fail CacheNotMade
  | Some c1 =>
      match lru_New (LruSize service) with
      | None => Fail CacheNotMade
      | Some c2 => Okay (mkLRURate ip (c1, ∅) service (c2, ∅))
      end
  end.

Definition Initialize (opt : options) : result option_error LRURate :=
  match parseRateLimitIPOption opt with
  | Fail e => Fail e
  | Okay ip => match parseRateLimitServiceOption opt with Fail e => Fail e | Okay service => initEnv ip service end
  end.

Definition allowIP (m : LRURate) (id : string) (now : Z) : outcome (bool * LRURate) :=
  '(ok, t) ← add_then_allow (ipLruCache m) (hash id) (NewLimiter (LRate (ipLimits m)) (LBurst (ipLimits m))) now;
  Ret (ok, mkLRURate (ipLimits m) t (serviceLimits m) (serviceLruCache m)).
Definition allowService (m : LRURate) (id : string) (now : Z) : outcome (bool * LRURate) :=
  '(ok, t) ← add_then_allow (serviceLruCache m) (hash id) (NewLimiter (LRate (serviceLimits m)) (LBurst (serviceLimits m))) now;
  Ret (ok, mkLRURate (ipLimits m) (ipLruCache m) (serviceLimits m) t).

Definition LRURate_Allow (m : LRURate) (rateType : Z) (id : string) (now : Z) : outcome (bool * LRURate) :=
  if decide (rateType = IPRatelimit) then allowIP m id now
  else if decide (rateType = ServiceRatelimit) then allowService m id now
  else Ret (true, m).

Definition lru_call (m : LRURate) (c : Z * string * Z) : outcome (bool * LRURate) := LRURate_Allow m c.1.1 c.1.2 c.2.
Definition hash_calls (typ : Z) (id : string) (c : Z * string * Z) : Prop := c.1.1 = typ /\ hash c.1.2 = hash id.
#[export] Instance hash_calls_decision typ id c : Decision (hash_calls typ id c) := ltac:(unfold hash_calls; apply _).

Definition table_of (typ : Z) (m : LRURate) := if decide (typ = IPRatelimit) then ipLruCache m else serviceLruCache m.
Definition limits_of (typ : Z) (m : LRURate) := if decide (typ = IPRatelimit) then ipLimits m else serviceLimits m.

Lemma intOption_pos opt o n : intOption opt o = Okay n -> 0 < n.
Proof. unfold intOption. destruct (opt !! o) as [[]|]; try done. destruct (decide _); [done|]. intros [= <-]. lia. Qed.

Lemma parseOption_pos opt a b c l : parseOption opt a b c = Okay l -> 0 < LruSize l /\ 0 < LRate l /\ 0 < LBurst l.
Proof.
  unfold parseOption. destruct (intOption opt a) eqn:Ea; [|done]. destruct (intOption opt b) eqn:Eb; [|done].
  destruct (intOption opt c) eqn:Ec; [|done]. intros [= <-]. cbn. split_and!; by eapply intOption_pos.
Qed.

Lemma good_empty (c : C) n : contents c = ∅ -> capacity c = n -> good (c, ∅ : gmap nat L) n.
Proof. intros E E'. split; cbn; [done| |]; intros *; rewrite E; intros; by simplify_map_eq. Qed.

Lemma Initialize_ok opt m typ : Initialize opt = Okay m -> typ = IPRatelimit \/ typ = ServiceRatelimit ->
  0 < LruSize (limits_of typ m) /\ 0 < LRate (limits_of typ m) /\ 0 < LBurst (limits_of typ m) /\
  good (table_of typ m) (LruSize (limits_of typ m)) /\ contents (table_of typ m).1 = ∅.
Proof.
  unfold Initialize, initEnv. destruct (parseRateLimitIPOption opt) as [ip|] eqn:E1; [|done].
  destruct (parseRateLimitServiceOption opt) as [service|] eqn:E2; [|done].
  apply parseOption_pos in E1 as (? & ? & ?), E2 as (? & ? & ?).
  destruct (lru_New_spec (LruSize ip)) as (c1 & -> & ? & ?); [done|].
  destruct (lru_New_spec (LruSize service)) as (c2 & -> & ? & ?); [done|].
  intros [= <-] [->| ->]; cbn; (split_and!; [done|done|done|by apply good_empty|done]).
Qed.

Definition limited_kind (typ : Z) : Prop := typ = IPRatelimit \/ typ = ServiceRatelimit.
Definition set_lru (typ : Z) (m : LRURate) (t : C * gmap nat L) : LRURate :=
  if decide (typ = IPRatelimit) then mkLRURate (ipLimits m) t (serviceLimits m) (serviceLruCache m)
  else mkLRURate (ipLimits m) (ipLruCache m) (serviceLimits m) t.

Lemma LRURate_Allow_kind m typ id now : limited_kind typ ->
  LRURate_Allow m typ id now =
  ('(ok, t) ← add_then_allow (table_of typ m) (hash id) (NewLimiter (LRate (limits_of typ m)) (LBurst (limits_of typ m))) now;
   Ret (ok, set_lru typ m t)).
Proof. by intros [->| ->]. Qed.

Lemma table_of_set typ ty m t : limited_kind typ -> limited_kind ty ->
  table_of ty (set_lru typ m t) = if decide (ty = typ) then t else table_of ty m.
Proof. by intros [->| ->] [->| ->]. Qed.

Lemma limits_of_set typ ty m t : limits_of ty (set_lru typ m t) = limits_of ty m.
Proof. unfold limits_of, set_lru. by destruct (decide (typ = IPRatelimit)), (decide (ty = IPRatelimit)). Qed.

(** Both tables are in order. *)
Definition lru_ok (m : LRURate) : Prop := forall ty, limited_kind ty -> good (table_of ty m) (LruSize (limits_of ty m)) /\ 0 < LruSize (limits_of ty m).

Lemma lru_ok_set typ m t : limited_kind typ -> lru_ok m -> good t (LruSize (limits_of typ m)) -> lru_ok (set_lru typ m t).
Proof.
  intros Ht Hm G ty Hty. rewrite limits_of_set, table_of_set by done. destruct (decide (ty = typ)) as [->|]; [|by apply Hm].
  split; [done|]. by apply Hm.
Qed.

(** The bucket of a checksum is [l], and the table holds no others than [keys]. *)
Record lru_bucket (typ : Z) (lim : limits) (keys : gset Z) (key : Z) (m : LRURate) (l : L) : Prop := {
  lb_ok : lru_ok m; lb_lim : limits_of typ m = lim; lb_dom : dom (contents (table_of typ m).1) ⊆ keys;
  lb_bucket : default (NewLimiter (LRate lim) (LBurst lim)) (bucket_at (table_of typ m) key) = l }.

(** A call of the kind works on the bucket of its checksum and on no other. *)
Lemma lru_call_kind typ lim keys key m l id now : lru_bucket typ lim keys key m l -> limited_kind typ ->
  Z.of_nat (size keys) <= LruSize lim -> hash id ∈ keys ->
  exists ok m', LRURate_Allow m typ id now = Ret (ok, m') /\
    if decide (hash id = key) then ok = (Allow l now).1 /\ lru_bucket typ lim keys key m' (Allow l now).2
    else lru_bucket typ lim keys key m' l.
Proof.
  intros [Hok Hlim Hdom <-] Ht Hs Hin. destruct (Hok typ Ht) as [G _]. rewrite (LRURate_Allow_kind _ _ _ _ Ht), Hlim.
  destruct (add_then_allow_room _ _ (hash id) (NewLimiter (LRate lim) (LBurst lim)) now G) as (t & -> & Gt & Bt & Dt & Ft).
  { intros Hn. rewrite Hlim, <- size_dom. eapply Z.lt_le_trans; [|exact Hs]. apply inj_lt, subset_size. split; [done|].
    intros Hsub. apply Hsub, elem_of_dom in Hin. rewrite (bucket_at_None _ _ _ G Hn) in Hin. by destruct Hin. }
  cbn. eexists _, _. split; [done|].
  assert (forall l', default (NewLimiter (LRate lim) (LBurst lim)) (bucket_at t key) = l' -> lru_bucket typ lim keys key (set_lru typ m t) l') as Hb.
  { intros l' E. split; [by apply lru_ok_set|by rewrite limits_of_set| |]; rewrite table_of_set, decide_True by done; [|done].
    rewrite Dt. set_solver. }
  destruct (decide (hash id = key)) as [<-|Hne]; [split; [done|]|]; apply Hb; [by rewrite Bt|by rewrite Ft].
Qed.

Lemma lru_call_other typ lim keys key m l typ' id now : lru_bucket typ lim keys key m l -> limited_kind typ -> typ' <> typ ->
  exists ok m', LRURate_Allow m typ' id now = Ret (ok, m') /\ lru_bucket typ lim keys key m' l.
Proof.
  intros HB Ht Hne. destruct HB as [Hok Hlim Hdom Hl]. assert (limited_kind typ' \/ ~ limited_kind typ') as [Ht'|Hn].
  { unfold limited_kind. lia. }
  - rewrite (LRURate_Allow_kind _ _ _ _ Ht'). destruct (Hok typ' Ht') as [G' Hpos].
    destruct (add_then_allow_good _ _ (hash id) (NewLimiter (LRate (limits_of typ' m)) (LBurst (limits_of typ' m))) now G' Hpos)
      as ([ok t] & -> & Gt). cbn. eexists _, _. split; [done|].
    split; [by apply lru_ok_set|by rewrite limits_of_set| |]; rewrite table_of_set, decide_False by done; done.
  - exists true, m. split; [|by split]. unfold LRURate_Allow, limited_kind in *. rewrite !decide_False by tauto. done.
Qed.

(** [lrurate] allows within any [t] seconds from the start at most
    [burst + t*rate] calls for an IP or a service, when the cache is large enough
    for the keys; the bucket is that of the CRC-32 of the name, so the bound
    covers all names with the same checksum together. *)
Theorem lrurate_within_rate (opt : options) (m : LRURate) (typ : Z) (id : string) (calls : list (Z * string * Z)) (t0 : Z) :
  Initialize opt = Okay m -> typ = IPRatelimit \/ typ = ServiceRatelimit ->
  Z.of_nat (size (list_to_set (hash ∘ snd ∘ fst <$> filter (fun c : Z * string * Z => c.1.1 = typ) calls) : gset Z)) <= LruSize (limits_of typ m) ->
  StronglySorted Z.le (t0 :: (snd <$> filter (hash_calls typ id) calls)) ->
  exists oks m', run lru_call m calls = Ret (oks, m') /\
    Z.of_nat (granted (hash_calls typ id) calls oks) <=
    LBurst (limits_of typ m) + LRate (limits_of typ m) * (List.last (snd <$> filter (hash_calls typ id) calls) t0 - t0) / Second.
Proof.
  intros Hi Ht Hsize Hs. destruct (Initialize_ok _ _ _ Hi Ht) as (? & ? & ? & G & Ec).
  set (keys := list_to_set _ : gset Z) in Hsize.
  destruct (granted_by_bucket lru_call (hash_calls typ id) snd (fun c => c.1.1 = typ -> hash c.1.2 ∈ keys)
    (lru_bucket typ (limits_of typ m) keys (hash id))) with (calls := calls) (s := m)
    (l := NewLimiter (LRate (limits_of typ m)) (LBurst (limits_of typ m))) as (oks & m' & Hr & Hg).
  - intros s l [[ty k] now] HP Hf [Hty Hk]. cbn in *. subst ty.
    destruct (lru_call_kind _ _ _ _ _ _ k now HP Ht Hsize (Hf eq_refl)) as (ok & s' & E & Hd).
    rewrite decide_True in Hd by done. destruct Hd as [-> Hd]. eauto.
  - intros s l [[ty k] now] HP Hf Hn. cbn in *. destruct (decide (ty = typ)) as [->|Hne]; [|by apply lru_call_other].
    destruct (lru_call_kind _ _ _ _ _ _ k now HP Ht Hsize (Hf eq_refl)) as (ok & s' & E & Hd).
    rewrite decide_False in Hd; [eauto|]. intros Hk. by apply Hn.
  - split; [|done| |].
    + intros ty Hty. by destruct (Initialize_ok _ _ _ Hi Hty) as (? & _ & _ & ? & _).
    + rewrite Ec. set_solver.
    + unfold bucket_at. by rewrite Ec.
  - apply Forall_forall. intros [[ty k] now] Hin E. cbn in *. subst ty. apply elem_of_list_to_set, list_elem_of_fmap.
    exists (typ, k, now). split; [done|]. by apply list_elem_of_filter.
  - exists oks, m'. split; [done|]. rewrite Hg. by apply allow_bound.
Qed.
End lrurate.

(** ** A token bucket and a cache that keep the promises *)

(** Tokens are counted in parts of [Second], so a rate of [r] a second is [r] parts
    a nanosecond.  The bucket is full at its first call. *)
Record tokens := mkTokens { trate : Z; tburst : Z; tleft : option (Z * Z) }.

#[export] Instance tokens_limiter : RateLimiter tokens := {
  NewLimiter r b := mkTokens r b None;
  Allow l now :=
    let have := match tleft l with
                | None => tburst l * Second
                | Some (n, last) => Z.min (tburst l * Second) (n + trate l * (now - last))
                end in
    if bool_decide (Second <= have) then (true, mkTokens (trate l) (tburst l) (Some (have - Second, now)))
    else (false, mkTokens (trate l) (tburst l) (Some (have, now))) }.

Lemma last_default {A} (x : A) xs d d' : List.last (x :: xs) d = List.last (x :: xs) d'.
Proof. revert x. induction xs as [|y xs IH]; [done|]. intros x. apply IH. Qed.

Lemma last_later xs : forall (t t' : Z), List.last (t :: xs) t' = List.last xs t.
Proof. intros t t'. destruct xs as [|x xs]; [done|]. exact (last_default x xs t' t). Qed.

Lemma allow_run_tokens r b times : forall n t0, 0 < r -> 0 <= b -> StronglySorted Z.le (t0 :: times) -> 0 <= n ->
  Second * Z.of_nat (allow_run (mkTokens r b (Some (n, t0))) times) <= n + r * (List.last times t0 - t0).
Proof.
  induction times as [|t times IH]; intros n t0 Hr Hb Hs Hn; [cbn [allow_run List.last]; lia|].
  apply StronglySorted_inv in Hs as [Hs Hle%Forall_cons]. destruct Hle as [Ht _]. rewrite last_later.
  cbn [allow_run Allow tokens_limiter tleft trate tburst].
  set (have := Z.min _ _). assert (0 <= have <= n + r * (t - t0)) as Hh by (unfold have, Second; nia).
  case_bool_decide as Hge.
  - specialize (IH (have - Second) t Hr Hb Hs). cbn [allow_run]. lia.
  - specialize (IH have t Hr Hb Hs). lia.
Qed.

#[export] Instance tokens_laws : RateLimiterLaws tokens.
Proof.
  split. intros r b t0 times Hr Hb Hs. destruct times as [|t times].
  { cbn [allow_run List.last]. rewrite Z.sub_diag, Z.mul_0_r, Z.div_0_l by done. lia. }
  apply StronglySorted_inv in Hs as [Hs Hle%Forall_cons]. destruct Hle as [Ht _]. rewrite last_later.
  cbn [allow_run Allow tokens_limiter NewLimiter tleft trate tburst]. rewrite bool_decide_eq_true_2 by (unfold Second; lia).
  pose proof (allow_run_tokens r b times (b * Second - Second) t Hr ltac:(lia) Hs ltac:(unfold Second; lia)) as H.
  set (run := allow_run _ times) in *. set (d := List.last times t) in *. rewrite Nat2Z.inj_add. cbn match.
  assert (Z.of_nat run + 1 - b <= r * (d - t0) / Second); [|lia]. apply Z.div_le_lower_bound; [done|]. unfold Second in *. nia.
Qed.

(** A cache that drops the key which has been in it longest. *)
Record fifo (K : Type) `{Countable K} := mkFifo { fmap_ : gmap K nat; forder : list K; fcap : Z }.
Arguments mkFifo {K _ _}. Arguments fmap_ {K _ _}. Arguments forder {K _ _}. Arguments fcap {K _ _}.

#[export] Instance fifo_lru K `{Countable K} : LRU K (fifo K) := {
  lru_New n := if bool_decide (0 < n) then Some (mkFifo ∅ [] n) else None;
  lru_Get c k := (fmap_ c !! k, c);
  lru_ContainsOrAdd c k v :=
    match fmap_ c !! k with
    | Some _ => c
    | None =>
        if bool_decide (Z.of_nat (size (fmap_ c)) < fcap c) then mkFifo (<[k := v]> (fmap_ c)) (forder c ++ [k]) (fcap c)
        else match forder c with
             | [] => mkFifo (<[k := v]> (fmap_ c)) [k] (fcap c)
             | k' :: order => mkFifo (<[k := v]> (delete k' (fmap_ c))) (order ++ [k]) (fcap c)
             end
    end;
  contents := fmap_;
  capacity := fcap }.

#[export] Instance fifo_laws K `{Countable K} : LRULaws K (fifo K).
Proof.
  split; cbn.
  - intros n Hn. rewrite bool_decide_eq_true_2 by done. by eexists.
  - done.
  - intros c k v. destruct (fmap_ c !! k); [done|]. case_bool_decide; [done|]. by destruct (forder c).
  - intros c k v [? ->]. done.
  - intros c k v -> Hs. by rewrite bool_decide_eq_true_2.
  - intros c k v E Hc. rewrite E. assert (exists k', <[k := v]> (fmap_ c) = <[k := v]> (delete k' (fmap_ c))) as Hk.
    { exists k. by rewrite delete_id. }
    case_bool_decide; [done|]. destruct (forder c) as [|k' order]; [done|]. by exists k'.
Qed.

(** ** Witnesses *)

Definition example_limit : BucketRatelimit := mkBucket true 2 1.
Definition example_config : Config := mkConfig
  (Some (mkResourceConfig true (Some example_limit) 3 ["10.0.0.9"]))
  (Some (mkApiConfig true [mkRule "write" (Some example_limit); mkRule "off" (Some (mkBucket false 0 0))]
           [mkApi "POST:/v1/instances" "write"; mkApi "GET:/v1/instances" "off"]))
  None.
Definition example_tb : tokenBucket (L := tokens) (C := fifo string) :=
  match initialize example_config with Okay tb => tb | Fail _ => mkTokenBucket (mkResource None ∅ None ∅) (mkApiRatelimit ∅ ∅ None) (mkResource None ∅ None ∅) end.

(** Four calls by an IP within a second and one two seconds later, among calls by
    another and calls of an API. *)
Definition example_calls : list (Z * string * Z) :=
  [(1, "10.0.0.1", 0); (1, "10.0.0.1", 100); (1, "10.0.0.2", 150); (1, "10.0.0.1", 200);
   (2, "POST:/v1/instances", 250); (1, "10.0.0.9", 300); (1, "10.0.0.1", 400); (1, "10.0.0.1", 2 * Second)].

Example example_answers : fst <$> run allow_call example_tb example_calls =
  Ret [true; true; true; false; true; true; false; true].
Proof. vm_compute. reflexivity. Qed.

Ltac sorted := repeat (apply SSorted_cons || apply SSorted_nil || apply Forall_cons || apply Forall_nil || split); vm_compute; discriminate.

Lemma calls_within_rate_witness :
  exists oks tb', run allow_call example_tb example_calls = Ret (oks, tb') /\
    Z.of_nat (granted (calls_for IPRatelimit "10.0.0.1") example_calls oks) <= 2 + 1 * (2 * Second - 0) / Second.
Proof.
  apply (calls_within_rate example_config example_tb IPRatelimit "10.0.0.1" example_calls 0);
    [vm_compute; reflexivity|vm_compute; discriminate|].
  vm_compute. sorted.
Defined.

Definition example_options : options := list_to_map
  [("rateLimitIPLruSize", VInt 10); ("rateLimitIPRate", VInt 1); ("rateLimitIPBurst", VInt 1);
   ("rateLimitServiceLruSize", VInt 10); ("rateLimitServiceRate", VInt 1); ("rateLimitServiceBurst", VInt 1)].
Definition example_lrurate : LRURate (L := tokens) (C := fifo Z) :=
  match Initialize example_options with Okay m => m | Fail _ => mkLRURate (mkLimits 0 0 0) (mkFifo ∅ [] 0, ∅) (mkLimits 0 0 0) (mkFifo ∅ [] 0, ∅) end.

Lemma lrurate_within_rate_witness :
  exists oks m', run lru_call example_lrurate [(3, "plumless", 0); (3, "buckeroo", 5); (3, "other", 6); (3, "plumless", Second)] = Ret (oks, m') /\
    Z.of_nat (granted (hash_calls ServiceRatelimit "plumless")
      [(3, "plumless", 0); (3, "buckeroo", 5); (3, "other", 6); (3, "plumless", Second)] oks) <= 1 + 1 * (Second - 0) / Second.
Proof.
  apply (lrurate_within_rate example_options example_lrurate ServiceRatelimit "plumless"
    [(3, "plumless", 0); (3, "buckeroo", 5); (3, "other", 6); (3, "plumless", Second)] 0);
    [vm_compute; reflexivity|by right|vm_compute; discriminate|].
  vm_compute. sorted.
Defined.

(** [lrurate] keeps its buckets under the CRC-32 of the name, so a service is
    refused because another one, with the same checksum, has used its tokens. *)
Theorem colliding_names_share_bucket :
  fst <$> run lru_call example_lrurate [(3, "plumless", 0); (3, "buckeroo", 5); (3, "other", 6)] = Ret [true; false; true].
Proof. vm_compute. reflexivity. Qed.

(** With more clients than the cache holds, the dropped ones start over with a
    full bucket: two addresses that take turns are never refused. *)
Example dropped_bucket_is_refilled :
  let conf := mkConfig (Some (mkResourceConfig true (Some (mkBucket true 1 1)) 1 [])) None None in
  match initialize (L := tokens) (C := fifo string) conf with
  | Okay tb => fst <$> run allow_call tb [(1, "a", 0); (1, "b", 1); (1, "a", 2); (1, "b", 3); (1, "a", 4); (1, "a", 5)]
               = Ret [true; true; true; true; true; false]
  | Fail _ => False
  end.
Proof. vm_compute. reflexivity. Qed.
