(* ===== verification/EventHub.v ===== *)
(** * The event hub ([src/common/eventhub])

    A topic is a queue that one goroutine ([run]) empties; for each event it
    starts a goroutine for each subscriber ([send]), which puts the event into the
    subscriber's queue, from where the subscriber's goroutine ([receive]) hands it
    to the handler.  The goroutines are steps on the topic's state; each step is
    one channel operation or one critical section.  The last fields of the records
    are history: what was published, dispatched, handled and given up. *)

From S2P Require Import Prelude.
From Stdlib Require Import ZArith Lia.
From stdpp Require Import base tactics list gmap strings.

Open Scope Z_scope.

Definition defaultQueueSize : Z := 16384.

(** [newSubscription]: zero stands for the default; the options are the last
    [WithQueueSize].  [make] panics on a negative size. *)
Definition queueSize (size : option Z) : Z :=
  let n := default defaultQueueSize size in if decide (n = 0) then defaultQueueSize else n.

Section topic.
  Context {Event : Type}.

Record subscription := mkSubscription {
  sname : string; squeue : list Event; QueueSize : Z; sclosed : bool; receiving : bool;
  since : nat; due : list Event; handled : list Event; lost : list Event }.

Definition newSubscription (name : string) (size : option Z) (now : nat) : outcome subscription :=
  if decide (queueSize size < 0) then Panics NegativeLength
  else Ret (mkSubscription name [] (queueSize size) false true now [] [] []).

Record topic := mkTopic {
  tname : string; tqueue : list Event; tclosed : bool; subs : gmap string nat; running : bool;
  sheap : gmap nat subscription; sends : list (nat * Event);
  published : list Event; dispatched : list Event }.

Definition newTopic (name : string) : topic := mkTopic name [] false ∅ true ∅ [] [] [].

Definition set_subs t m := mkTopic (tname t) (tqueue t) (tclosed t) m (running t) (sheap t) (sends t) (published t) (dispatched t).
Definition set_sheap t m := mkTopic (tname t) (tqueue t) (tclosed t) (subs t) (running t) m (sends t) (published t) (dispatched t).
Definition set_sends t l := mkTopic (tname t) (tqueue t) (tclosed t) (subs t) (running t) (sheap t) l (published t) (dispatched t).

(** [subscribe]: [true] for success, [false] for the error that the name is taken. *)
Definition subscribe (t : topic) (name : string) (size : option Z) : outcome (bool * topic) :=
  sub ← newSubscription name size (length (dispatched t));
  match subs t !! name with
  | Some _ => Ret (false, t)
  | None =>
      let p := fresh (dom (sheap t)) in
      Ret (true, set_sheap (set_subs t (<[name := p]> (subs t))) (<[p := sub]> (sheap t)))
  end.

(** [sub.close]: closing a channel twice panics. *)
Definition close_sub (s : subscription) : outcome subscription :=
  if sclosed s then Panics CloseOfClosedChannel
  else Ret (mkSubscription (sname s) (squeue s) (QueueSize s) true (receiving s) (since s) (due s) (handled s) (lost s)).

Definition close_at (heap : gmap nat subscription) (p : nat) : outcome (gmap nat subscription) :=
  match heap !! p with
  | None => Panics NilDereference
  | Some s => s' ← close_sub s; Ret (<[p := s']> heap)
  end.

(** The critical section of [unsubscribe], with the subscription that was read
    before the lock was taken. *)
Definition unsubscribe_locked (t : topic) (p : nat) : outcome topic :=
  match sheap t !! p with
  | None => Panics NilDereference
  | Some s => heap ← close_at (sheap t) p; Ret (set_sheap (set_subs t (delete (sname s) (subs t))) heap)
  end.

Fixpoint close_all (heap : gmap nat subscription) (ps : list nat) : outcome (gmap nat subscription) :=
  match ps with [] => Ret heap | p :: ps => heap ← close_at heap p; close_all heap ps end.

Definition close (t : topic) : outcome topic :=
  if tclosed t then Panics CloseOfClosedChannel
  else heap ← close_all (sheap t) (snd <$> map_to_list (subs t));
       Ret (mkTopic (tname t) (tqueue t) true ∅ (running t) heap (sends t) (published t) (dispatched t)).

Definition listSubscribers (t : topic) : list nat := snd <$> map_to_list (subs t).

(** History: the event is due to the subscription. *)
Definition add_due (e : Event) (s : subscription) : subscription :=
  mkSubscription (sname s) (squeue s) (QueueSize s) (sclosed s) (receiving s) (since s) (due s ++ [e]) (handled s) (lost s).

(** [run], one round of its loop: a [send] is started for each subscription. *)
Definition run_once (t : topic) : option topic :=
  match running t, tqueue t with
  | true, msg :: queue =>
      let ps := listSubscribers t in
      Some (mkTopic (tname t) queue (tclosed t) (subs t) true
              (foldr (alter (add_due msg)) (sheap t) ps) (sends t ++ ((fun p => (p, msg)) <$> ps))
              (published t) (dispatched t ++ [msg]))
  | _, _ => None
  end.

Definition enqueue (e : Event) (s : subscription) : subscription :=
  mkSubscription (sname s) (squeue s ++ [e]) (QueueSize s) (sclosed s) (receiving s) (since s) (due s) (handled s) (lost s).
Definition lose (e : Event) (s : subscription) : subscription :=
  mkSubscription (sname s) (squeue s) (QueueSize s) (sclosed s) (receiving s) (since s) (due s) (handled s) (lost s ++ [e]).

(** [send]: the queue has room, or the subscription or the context is closed;
    when both hold, either may happen. *)
Definition send (t : topic) (i : nat) : option topic :=
  '(p, e) ← sends t !! i; s ← sheap t !! p;
  if decide (Z.of_nat (length (squeue s)) < QueueSize s)
  then Some (set_sheap (set_sends t (delete i (sends t))) (<[p := enqueue e s]> (sheap t))) else None.
Definition send_close (done : bool) (t : topic) (i : nat) : option topic :=
  '(p, e) ← sends t !! i; s ← sheap t !! p;
  if sclosed s || done then Some (set_sheap (set_sends t (delete i (sends t))) (<[p := lose e s]> (sheap t))) else None.

(** [receive], one round; an error of the handler is only logged. *)
Definition receive (t : topic) (p : nat) : option topic :=
  s ← sheap t !! p;
  match receiving s, squeue s with
  | true, e :: queue =>
      Some (set_sheap t (<[p := mkSubscription (sname s) queue (QueueSize s) (sclosed s) true (since s) (due s) (handled s ++ [e]) (lost s)]> (sheap t)))
  | _, _ => None
  end.
Definition receive_close (done : bool) (t : topic) (p : nat) : option topic :=
  s ← sheap t !! p;
  if receiving s && (sclosed s || done)
  then Some (set_sheap t (<[p := mkSubscription (sname s) (squeue s) (QueueSize s) (sclosed s) false (since s) (due s) (handled s) (lost s)]> (sheap t)))
  else None.
Definition run_close (done : bool) (t : topic) : option topic :=
  if running t && (tclosed t || done)
  then Some (mkTopic (tname t) (tqueue t) (tclosed t) (subs t) false (sheap t) (sends t) (published t) (dispatched t)) else None.

(** [publish]: the caller waits while the queue is full. *)
Definition publish (t : topic) (e : Event) : option topic :=
  if decide (Z.of_nat (length (tqueue t)) < defaultQueueSize)
  then Some (mkTopic (tname t) (tqueue t ++ [e]) (tclosed t) (subs t) (running t) (sheap t) (sends t) (published t ++ [e]) (dispatched t))
  else None.

(** ** Steps *)

(** [Unsubscribe p]: [p] was the subscription under its name when the caller read
    the map, now or earlier. *)
Inductive label :=
| Publish (e : Event) | Subscribe (name : string) (size : option Z) | Unsubscribe (p : nat) | Close
| Run | RunClose | Send (i : nat) | SendClose (i : nat) | Receive (p : nat) | ReceiveClose (p : nat).

Definition exec (done : bool) (l : label) (t : topic) : option (outcome topic) :=
  match l with
  | Publish e => Ret <$> publish t e
  | Subscribe name size => Some ('(_, t) ← subscribe t name size; Ret t)
  | Unsubscribe p => match sheap t !! p with Some _ => Some (unsubscribe_locked t p) | None => None end
  | Close => Some (close t)
  | Run => Ret <$> run_once t
  | RunClose => Ret <$> run_close done t
  | Send i => Ret <$> send t i
  | SendClose i => Ret <$> send_close done t i
  | Receive p => Ret <$> receive t p
  | ReceiveClose p => Ret <$> receive_close done t p
  end.

(** The goroutines' own steps: what goes on when nobody calls. *)
Definition internal (l : label) : bool :=
  match l with Publish _ | Subscribe _ _ | Unsubscribe _ | Close => false | _ => true end.

(** The context is cancelled at most once: [done] only grows. *)
Inductive reachable : bool -> topic -> Prop :=
| reach_new name : reachable false (newTopic name)
| reach_cancel t d : reachable d t -> reachable true t
| reach_step d l t t' : reachable d t -> exec d l t = Some (Ret t') -> reachable d t'.

(** ** The invariant *)

Definition pending_in (l : list (nat * Event)) (p : nat) : list Event := snd <$> filter (fun x => x.1 = p) l.
Definition pending (t : topic) : nat -> list Event := pending_in (sends t).
#[local] Arguments pending_in : simpl never.

Record sub_ok (done : bool) (t : topic) (p : nat) (s : subscription) : Prop := {
  so_events : handled s ++ squeue s ++ pending t p ++ lost s ≡ₚ due s;
  so_size : 0 < QueueSize s;
  so_live : sclosed s = false -> done = false -> receiving s = true /\ lost s = [];
  so_due : sclosed s = false ->
    subs t !! sname s = Some p /\ (since s <= length (dispatched t))%nat /\ due s = drop (since s) (dispatched t) }.

Record inv (done : bool) (t : topic) : Prop := {
  i_published : published t = dispatched t ++ tqueue t;
  i_subs : forall name p, subs t !! name = Some p -> exists s, sheap t !! p = Some s /\ sname s = name /\ sclosed s = false;
  i_heap : forall p s, sheap t !! p = Some s -> sub_ok done t p s;
  i_sends : forall x, x ∈ sends t -> is_Some (sheap t !! x.1);
  i_running : tclosed t = false -> done = false -> running t = true }.

Lemma pending_perm l l' p : l ≡ₚ l' -> pending_in l p ≡ₚ pending_in l' p.
Proof. intros E. unfold pending_in. by rewrite E. Qed.

Lemma pending_cons x l p : pending_in (x :: l) p = (if decide (x.1 = p) then [x.2] else []) ++ pending_in l p.
Proof. unfold pending_in. rewrite filter_cons. by destruct (decide _). Qed.

Lemma pending_delete l i p e : l !! i = Some (p, e) ->
  pending_in l p ≡ₚ e :: pending_in (delete i l) p /\ forall p', p' <> p -> pending_in l p' ≡ₚ pending_in (delete i l) p'.
Proof.
  intros E%delete_Permutation. split; [|intros p' Hp]; (etrans; [apply (pending_perm _ _ _ E)|]); rewrite pending_cons; cbn.
  - by rewrite decide_True.
  - by rewrite decide_False.
Qed.

(** One subscription's queue, handler or [send]s move on; the rest stands still. *)
Lemma inv_update done t p s s' l : inv done t -> sheap t !! p = Some s ->
  sname s' = sname s -> sclosed s' = sclosed s -> since s' = since s -> due s' = due s -> QueueSize s' = QueueSize s ->
  (forall p', p' <> p -> pending t p' ≡ₚ pending_in l p') -> (forall x, x ∈ l -> x ∈ sends t) ->
  handled s' ++ squeue s' ++ pending_in l p ++ lost s' ≡ₚ due s ->
  (sclosed s = false -> done = false -> receiving s' = true /\ lost s' = []) ->
  inv done (set_sheap (set_sends t l) (<[p := s']> (sheap t))).
Proof.
  intros [I1 I2 I3 I4 I5] Hs En Ec Esi Ed Eq Hpend Hl Hev Hlive. split; cbn; [done| | | |done].
  - intros name q Hq. destruct (I2 _ _ Hq) as (sq & ? & ? & ?). destruct (decide (q = p)) as [->|].
    + rewrite lookup_insert_eq. simplify_eq. eexists. split; [done|]. by rewrite En, Ec.
    + rewrite lookup_insert_ne by done. eauto.
  - intros q sq [[<- <-]|[Hne Hq]]%lookup_insert_Some.
    + destruct (I3 _ _ Hs). split; [by rewrite Ed|by rewrite Eq|by rewrite Ec|by rewrite Ec, En, Esi, Ed].
    + destruct (I3 _ _ Hq). split; [|done|done|done]. unfold pending; cbn. rewrite <- (Hpend q) by done. done.
  - intros x Hx. destruct (decide (x.1 = p)) as [->|]; [rewrite lookup_insert_eq|rewrite lookup_insert_ne by done]; eauto.
Qed.

Lemma delete_incl {A} (l : list A) i x : x ∈ delete i l -> x ∈ l.
Proof. intros Hx. eapply (sublist_subseteq (delete i l) l); [apply sublist_delete|done]. Qed.

Lemma elem_of_listSubscribers t p : p ∈ listSubscribers t <-> exists name, subs t !! name = Some p.
Proof.
  unfold listSubscribers. rewrite list_elem_of_fmap. split.
  - intros ([name q] & -> & Hin%elem_of_map_to_list). eauto.
  - intros [name Hn%elem_of_map_to_list]. by exists (name, p).
Qed.

Lemma NoDup_listSubscribers done t : inv done t -> NoDup (listSubscribers t).
Proof.
  intros I. apply NoDup_fmap_2_strong; [|apply NoDup_map_to_list].
  intros [n1 p1] [n2 p2] H1%elem_of_map_to_list H2%elem_of_map_to_list; cbn. intros ->.
  destruct (i_subs _ _ I _ _ H1) as (s1 & E1 & <- & _), (i_subs _ _ I _ _ H2) as (s2 & E2 & <- & _). by simplify_eq.
Qed.

Lemma lookup_add_due e ps (m : gmap nat subscription) p : NoDup ps ->
  foldr (alter (add_due e)) m ps !! p = (if decide (p ∈ ps) then add_due e <$> m !! p else m !! p).
Proof.
  induction ps as [|q ps IH]; intros Hnd; [done|]. apply NoDup_cons in Hnd as [Hq Hnd]. cbn [foldr].
  destruct (decide (q = p)) as [->|Hne].
  - rewrite lookup_alter_eq, IH by done. by rewrite decide_False, decide_True by set_solver.
  - rewrite lookup_alter_ne, IH by done. destruct (decide (p ∈ ps)); [by rewrite decide_True by set_solver|].
    by rewrite decide_False by set_solver.
Qed.

Lemma pending_started (ps : list nat) (e : Event) l p : NoDup ps ->
  pending_in (l ++ ((fun p => (p, e)) <$> ps)) p = pending_in l p ++ (if decide (p ∈ ps) then [e] else []).
Proof.
  intros Hnd. unfold pending_in. rewrite filter_app, fmap_app. f_equal. induction ps as [|q ps IH]; [done|].
  apply NoDup_cons in Hnd as [Hq Hnd]. cbn [fmap list_fmap]. rewrite filter_cons. cbn [fst].
  destruct (decide (q = p)) as [->|Hne].
  - cbn. rewrite IH, decide_False, decide_True by set_solver. done.
  - rewrite IH by done. destruct (decide (p ∈ ps)); [by rewrite decide_True by set_solver|]. by rewrite decide_False by set_solver.
Qed.

Lemma run_inv done t t' : inv done t -> run_once t = Some t' -> inv done t'.
Proof.
  intros I. pose proof (NoDup_listSubscribers _ _ I) as Hnd. pose proof I as [I1 I2 I3 I4 I5]. unfold run_once.
  destruct (running t) eqn:Er; [|done]. destruct (tqueue t) as [|e queue] eqn:Eq; [done|]. intros [= <-].
  split; cbn; [rewrite I1; by rewrite <- app_assoc| | | |done].
  - intros name p Hp. destruct (I2 _ _ Hp) as (s & Es & ? & ?). rewrite lookup_add_due by done.
    rewrite decide_True, Es by (apply elem_of_listSubscribers; eauto). by eexists.
  - intros p s. rewrite lookup_add_due by done. destruct (decide (p ∈ listSubscribers t)) as [Hp|Hp].
    + intros (s0 & Es & ->)%fmap_Some. destruct (I3 _ _ Es) as [H1 H2 H3 H4]. split; cbn; [|done|done|].
      * unfold pending; cbn. rewrite pending_started, decide_True, <- H1 by done. unfold pending. solve_Permutation.
      * intros Hc. destruct (H4 Hc) as (? & ? & ->). split; [done|]. rewrite length_app; cbn. split; [lia|].
        rewrite drop_app_le by done. done.
    + intros Es. destruct (I3 _ _ Es) as [H1 H2 H3 H4]. split; cbn; [|done|done|].
      * unfold pending; cbn. rewrite pending_started, decide_False, app_nil_r by done. done.
      * intros Hc. destruct Hp. apply elem_of_listSubscribers. exists (sname s). by apply H4.
  - intros x [Hx|Hx]%elem_of_app; [destruct (I4 _ Hx) as [s Es]|].
    + rewrite lookup_add_due by done. rewrite Es. destruct (decide _); cbn; eauto.
    + apply list_elem_of_fmap in Hx as (p & -> & Hp). cbn. rewrite lookup_add_due, decide_True by done.
      apply elem_of_listSubscribers in Hp as [name Hp]. destruct (I2 _ _ Hp) as (s & -> & _). cbn; eauto.
Qed.

Lemma send_inv done t i t' : inv done t -> send t i = Some t' -> inv done t'.
Proof.
  intros I. unfold send. destruct (sends t !! i) as [[p e]|] eqn:E; [|done]. cbn.
  destruct (sheap t !! p) as [s|] eqn:Es; [|done]. cbn. destruct (decide _); [|done]. intros [= <-].
  destruct (pending_delete _ _ _ _ E) as [Hp Hother]. pose proof (i_heap _ _ I _ _ Es) as [H1 H2 H3 H4].
  eapply (inv_update _ _ _ s); try done; [by apply delete_incl|]. cbn. rewrite <- H1. unfold pending. rewrite Hp. solve_Permutation.
Qed.

Lemma send_close_inv done t i t' : inv done t -> send_close done t i = Some t' -> inv done t'.
Proof.
  intros I. unfold send_close. destruct (sends t !! i) as [[p e]|] eqn:E; [|done]. cbn.
  destruct (sheap t !! p) as [s|] eqn:Es; [|done]. cbn. destruct (sclosed s || done) eqn:Ec; [|done]. intros [= <-].
  destruct (pending_delete _ _ _ _ E) as [Hp Hother]. pose proof (i_heap _ _ I _ _ Es) as [H1 H2 H3 H4].
  eapply (inv_update _ _ _ s); try done; [by apply delete_incl| |].
  - cbn. rewrite <- H1. unfold pending. rewrite Hp. solve_Permutation.
  - intros Hc ->. by rewrite Hc in Ec.
Qed.

Lemma receive_inv done t p t' : inv done t -> receive t p = Some t' -> inv done t'.
Proof.
  intros I. unfold receive. destruct (sheap t !! p) as [s|] eqn:Es; [|done]. cbn.
  destruct (receiving s) eqn:Er; [|done]. destruct (squeue s) as [|e queue] eqn:Eq; [done|]. intros [= <-].
  pose proof (i_heap _ _ I _ _ Es) as [H1 H2 H3 H4].
  apply (inv_update done t p s _ (sends t)); try done.
  - cbn. rewrite <- H1, Eq. unfold pending. solve_Permutation.
  - intros Hc Hd. split; [done|]. by apply H3.
Qed.

Lemma receive_close_inv done t p t' : inv done t -> receive_close done t p = Some t' -> inv done t'.
Proof.
  intros I. unfold receive_close. destruct (sheap t !! p) as [s|] eqn:Es; [|done]. cbn.
  destruct (receiving s && (sclosed s || done)) eqn:Ec; [|done]. intros [= <-].
  pose proof (i_heap _ _ I _ _ Es) as [H1 H2 H3 H4].
  apply (inv_update done t p s _ (sends t)); try done.
  intros Hc ->. rewrite Hc in Ec. cbn in Ec. by rewrite andb_false_r in Ec.
Qed.

(** Closing subscriptions: the closed ones are out of the map. *)
Definition closed_sub (s : subscription) : subscription :=
  mkSubscription (sname s) (squeue s) (QueueSize s) true (receiving s) (since s) (due s) (handled s) (lost s).

Lemma close_at_Ret heap p heap' : close_at heap p = Ret heap' ->
  exists s, heap !! p = Some s /\ sclosed s = false /\ heap' = <[p := closed_sub s]> heap.
Proof.
  unfold close_at. destruct (heap !! p) as [s|] eqn:Es; [|done]. unfold close_sub. destruct (sclosed s) eqn:Ec; [done|].
  cbn. intros [= <-]. eauto.
Qed.

Lemma close_all_Ret ps : forall heap heap', close_all heap ps = Ret heap' ->
  forall p, heap' !! p = if decide (p ∈ ps) then closed_sub <$> heap !! p else heap !! p.
Proof.
  induction ps as [|q ps IH]; intros heap heap'; [by intros [= <-]|]. cbn [close_all]. intros (h1 & H1 & H2)%bind_Ret p.
  apply close_at_Ret in H1 as (s & Es & Hc & ->). rewrite (IH _ _ H2). destruct (decide (q = p)) as [->|Hne].
  - rewrite lookup_insert_eq, Es. destruct (decide (p ∈ ps)); rewrite decide_True by set_solver; done.
  - rewrite lookup_insert_ne by done. destruct (decide (p ∈ ps)); [by rewrite decide_True by set_solver|].
    by rewrite decide_False by set_solver.
Qed.

(** A state in which the subscriptions of [ps] are closed and the others as before. *)
Lemma inv_closed done t (ps : list nat) t' : inv done t ->
  sends t' = sends t -> tqueue t' = tqueue t -> published t' = published t -> dispatched t' = dispatched t -> running t' = running t ->
  (tclosed t' = false -> tclosed t = false) ->
  (forall p, sheap t' !! p = if decide (p ∈ ps) then closed_sub <$> sheap t !! p else sheap t !! p) ->
  (forall name p, subs t' !! name = Some p <-> subs t !! name = Some p /\ p ∉ ps) -> inv done t'.
Proof.
  intros [I1 I2 I3 I4 I5] Es Eq Ep Ed Er Ec Eh Em. split.
  - by rewrite Ep, Ed, Eq.
  - intros name p [Hn Hp]%Em. rewrite Eh, decide_False by done. by apply I2.
  - intros p s. rewrite Eh. destruct (decide (p ∈ ps)) as [Hp|Hp].
    + intros (s0 & E & ->)%fmap_Some. destruct (I3 _ _ E). split; cbn; [|done|done|done]. unfold pending. by rewrite Es.
    + intros E. destruct (I3 _ _ E) as [H1 H2 H3 H4]. split; cbn; [|done|done|].
      * unfold pending. by rewrite Es.
      * rewrite Ed. intros Hc. destruct (H4 Hc) as (? & ? & ?). split; [|done]. by apply Em.
  - intros x. rewrite Es. intros [s E]%I4. rewrite Eh, E. destruct (decide _); cbn; eauto.
  - rewrite Er. auto.
Qed.

Lemma close_inv done t t' : inv done t -> close t = Ret t' -> inv done t'.
Proof.
  intros I. unfold close. destruct (tclosed t) eqn:Ec; [done|]. intros (heap & Hh & [= <-])%bind_Ret.
  apply (inv_closed done t (listSubscribers t)); try done; cbn.
  - by apply close_all_Ret.
  - intros name p. rewrite lookup_empty. split; [done|]. intros [Hn []]. apply elem_of_listSubscribers. eauto.
Qed.

Lemma unsubscribe_inv done t p t' : inv done t -> unsubscribe_locked t p = Ret t' -> inv done t'.
Proof.
  intros I. unfold unsubscribe_locked. destruct (sheap t !! p) as [s|] eqn:Es; [|done].
  intros (heap & (s1 & Es1 & Hc & ->)%close_at_Ret & [= <-])%bind_Ret. simplify_eq.
  destruct (i_heap _ _ I _ _ Es) as [_ _ _ H4]. destruct (H4 Hc) as [Hp _].
  apply (inv_closed done t [p]); try done; cbn.
  - intros q. destruct (decide (q = p)) as [->|Hne].
    + rewrite lookup_insert_eq, decide_True, Es by set_solver. done.
    + by rewrite lookup_insert_ne, decide_False by set_solver.
  - intros name q. rewrite list_elem_of_singleton, lookup_delete_Some. split.
    + intros [Hne Hq]. split; [done|]. intros ->. destruct (i_subs _ _ I _ _ Hq) as (s2 & E2 & <- & _). by simplify_eq.
    + intros [Hq Hne]. split; [|done]. intros <-. by simplify_eq.
Qed.

Lemma subscribe_inv done t name size ok t' : inv done t -> subscribe t name size = Ret (ok, t') -> inv done t'.
Proof.
  intros I. pose proof I as [I1 I2 I3 I4 I5]. unfold subscribe, newSubscription. destruct (decide _) as [|Hsz]; [done|]. cbn.
  destruct (subs t !! name) as [q|] eqn:Eq; [by intros [= _ <-]|]. intros [= <- <-].
  set (p := fresh (dom (sheap t))). assert (sheap t !! p = None) as Hp by apply not_elem_of_dom, is_fresh.
  assert (pending t p = []) as Hpend.
  { unfold pending, pending_in. destruct (filter (fun x => x.1 = p) (sends t)) as [|x l] eqn:Ef; [done|].
    assert (x ∈ filter (fun x => x.1 = p) (sends t)) as [E Hx]%list_elem_of_filter by (rewrite Ef; set_solver).
    destruct (I4 _ Hx) as [s Es]. by rewrite E, Hp in Es. }
  split; cbn; [done| | | |done].
  - intros name' q [[<- <-]|[Hne Hq]]%lookup_insert_Some; [rewrite lookup_insert_eq; by eexists|].
    destruct (I2 _ _ Hq) as (s & Es & ?). exists s. split; [|done]. rewrite lookup_insert_ne; [done|]. intros <-. by rewrite Hp in Es.
  - intros q s [[<- <-]|[Hne Hq]]%lookup_insert_Some.
    + split; cbn; [|unfold queueSize in *; destruct (decide _); [done|lia]|done|].
      * unfold pending in Hpend |- *; cbn. by rewrite Hpend.
      * intros _. rewrite lookup_insert_eq, drop_all. done.
    + destruct (I3 _ _ Hq) as [H1 H2 H3 H4]. split; cbn; [done|done|done|]. intros Hc. destruct (H4 Hc) as (Hs & ? & ?).
      split; [|done]. rewrite lookup_insert_ne; [done|]. intros Hn. by rewrite <- Hn, Eq in Hs.
  - intros x Hx. destruct (I4 _ Hx) as [s Es]. rewrite lookup_insert_ne; [by eexists|]. intros Hn. by rewrite <- Hn, Hp in Es.
Qed.

Lemma sub_ok_same done t t' p s : sends t' = sends t -> subs t' = subs t -> dispatched t' = dispatched t ->
  sub_ok done t p s -> sub_ok done t' p s.
Proof. intros E1 E2 E3 []. split; [unfold pending; by rewrite E1|done|done|by rewrite E2, E3]. Qed.

Lemma exec_inv done l t t' : inv done t -> exec done l t = Some (Ret t') -> inv done t'.
Proof.
  intros I. destruct l as [e|name size|p| | | |i|i|p|p]; cbn.
  - unfold publish. destruct (decide _); [|done]. intros [= <-]. destruct I as [I1 I2 I3 I4 I5]. split; [cbn; by rewrite I1, app_assoc|done| |done|done].
    intros q s E. by eapply (sub_ok_same done t), I3.
  - intros [= H]. apply bind_Ret in H as ([ok t1] & H & [= <-]). by eapply subscribe_inv.
  - destruct (sheap t !! p); [|done]. intros [= H]. by eapply unsubscribe_inv.
  - intros [= H]. by eapply close_inv.
  - intros (t1 & H & [= ->])%fmap_Some. by eapply run_inv.
  - intros (t1 & H & [= ->])%fmap_Some. unfold run_close in H. destruct (running t && (tclosed t || done)) eqn:Ec; [|done].
    injection H as <-. destruct I as [I1 I2 I3 I4 I5].
    split; [done|done| |done|cbn; intros Hc ->; by rewrite Hc, andb_false_r in Ec].
    intros q s E. by eapply (sub_ok_same done t), I3.
  - intros (t1 & H & [= ->])%fmap_Some. by eapply send_inv.
  - intros (t1 & H & [= ->])%fmap_Some. by eapply send_close_inv.
  - intros (t1 & H & [= ->])%fmap_Some. by eapply receive_inv.
  - intros (t1 & H & [= ->])%fmap_Some. by eapply receive_close_inv.
Qed.

Lemma inv_cancel done t : inv done t -> inv true t.
Proof. intros [I1 I2 I3 I4 I5]. split; try done. intros p s E. by destruct (I3 _ _ E). Qed.

Lemma reachable_inv done t : reachable done t -> inv done t.
Proof.
  induction 1 as [name|t d _ IH|d l t t' _ IH E]; [|by eapply inv_cancel|by eapply exec_inv].
  split; cbn; [done| | |set_solver|done]; intros *; by rewrite lookup_empty.
Qed.

(** The events dispatched since a subscription are with its handler, in its queue
    or with a [send]. *)
Lemma topic_accounts (t : topic) (name : string) (p : nat) :
  reachable false t -> subs t !! name = Some p ->
  published t = dispatched t ++ tqueue t /\
  exists s, sheap t !! p = Some s /\ sname s = name /\ receiving s = true /\
    handled s ++ squeue s ++ pending t p ≡ₚ drop (since s) (dispatched t).
Proof.
  intros R%reachable_inv Hp. split; [apply R|]. destruct (i_subs _ _ R _ _ Hp) as (s & Es & En & Ec).
  destruct (i_heap _ _ R _ _ Es) as [H1 _ H3 H4]. destruct (H3 Ec eq_refl) as [Hr Hl]. destruct (H4 Ec) as (_ & _ & Hd).
  exists s. split_and!; [done..|]. by rewrite <- Hd, <- H1, Hl, app_nil_r.
Qed.

(** ** The goroutines come to rest *)

Definition weight (x : nat * subscription) : nat := length (squeue x.2) + (if receiving x.2 then 1 else 0).
Definition total (heap : gmap nat subscription) : nat := sum_list_with weight (map_to_list heap).
Definition measure (t : topic) : nat :=
  length (tqueue t) * (1 + 2 * length (listSubscribers t)) + 2 * length (sends t) + total (sheap t) + (if running t then 1 else 0).

Lemma total_insert (m : gmap nat subscription) p s s' : m !! p = Some s ->
  (total (<[p := s']> m) + weight (p, s) = total m + weight (p, s'))%nat.
Proof.
  intros E. unfold total. rewrite <- (map_to_list_delete m p s E). rewrite <- insert_delete_eq.
  rewrite (map_to_list_insert (delete p m) p s') by apply lookup_delete_eq. cbn. lia.
Qed.

Lemma total_add_due e ps : forall m : gmap nat subscription, total (foldr (alter (add_due e)) m ps) = total m.
Proof.
  induction ps as [|p ps IH]; intros m; [done|]. cbn [foldr]. set (m' := foldr _ m ps).
  replace (total m) with (total m') by apply IH. destruct (m' !! p) as [s|] eqn:E.
  - assert (alter (add_due e) p m' = <[p := add_due e s]> m') as ->.
    { apply map_eq. intros q. destruct (decide (p = q)) as [->|];
        [by rewrite lookup_alter_eq, lookup_insert_eq, E|by rewrite lookup_alter_ne, lookup_insert_ne]. }
    pose proof (total_insert m' p s (add_due e s) E) as H. unfold weight in H; cbn in H. lia.
  - f_equal. apply map_eq. intros q. destruct (decide (p = q)) as [->|]; [by rewrite lookup_alter_eq, E|by rewrite lookup_alter_ne].
Qed.

Lemma length_delete_lt {A} (l : list A) i x : l !! i = Some x -> length l = S (length (delete i l)).
Proof. intros E%delete_Permutation. by rewrite E at 1. Qed.

Definition istep (done : bool) (t t' : topic) : Prop := exists l, internal l = true /\ exec done l t = Some (Ret t').

Lemma istep_measure done t t' : istep done t t' -> (measure t' < measure t)%nat /\ subs t' = subs t /\ published t' = published t /\ tclosed t' = tclosed t.
Proof.
  intros (l & Hl & E). destruct l as [e|name size|p| | | |i|i|p|p]; cbn in Hl, E; try done;
    apply fmap_Some in E as (t1 & E & [= ->]).
  - unfold run_once in E. destruct (running t) eqn:Er; [|done]. destruct (tqueue t) as [|e q] eqn:Eq; [done|]. injection E as <-.
    split_and!; try done. unfold measure, listSubscribers; cbn. rewrite Er, Eq, total_add_due, length_app, !length_fmap. cbn. lia.
  - unfold run_close in E. destruct (running t) eqn:Er; [|done]. cbn in E. destruct (tclosed t || done) eqn:Ec; [|done].
    injection E as <-. split_and!; try done. unfold measure, listSubscribers; cbn. rewrite Er. lia.
  - unfold send in E. destruct (sends t !! i) as [[p e]|] eqn:Ei; [|done]. cbn in E. destruct (sheap t !! p) as [s|] eqn:Es; [|done].
    cbn in E. destruct (decide _); [|done]. injection E as <-. split_and!; try done. unfold measure, listSubscribers; cbn.
    pose proof (total_insert _ p s (enqueue e s) Es) as Ht. apply length_delete_lt in Ei.
    unfold weight in Ht; cbn in Ht. rewrite length_app in Ht. cbn in Ht. lia.
  - unfold send_close in E. destruct (sends t !! i) as [[p e]|] eqn:Ei; [|done]. cbn in E. destruct (sheap t !! p) as [s|] eqn:Es; [|done].
    cbn in E. destruct (sclosed s || done); [|done]. injection E as <-. split_and!; try done. unfold measure, listSubscribers; cbn.
    pose proof (total_insert _ p s (lose e s) Es) as Ht. apply length_delete_lt in Ei. unfold weight in Ht; cbn in Ht. lia.
  - unfold receive in E. destruct (sheap t !! p) as [s|] eqn:Es; [|done]. cbn in E. destruct (receiving s) eqn:Er; [|done].
    destruct (squeue s) as [|e q] eqn:Eq; [done|]. injection E as <-. split_and!; try done. unfold measure, listSubscribers; cbn.
    match goal with |- context [total (<[p := ?s']> _)] => specialize (total_insert _ p s s' Es) end.
    unfold weight; cbn. rewrite Er, Eq. cbn. lia.
  - unfold receive_close in E. destruct (sheap t !! p) as [s|] eqn:Es; [|done]. cbn in E.
    destruct (receiving s) eqn:Er; [|done]. cbn in E. destruct (sclosed s || done); [|done]. injection E as <-. split_and!; try done.
    unfold measure, listSubscribers; cbn.
    match goal with |- context [total (<[p := ?s']> _)] => specialize (total_insert _ p s s' Es) end.
    unfold weight; cbn. rewrite Er. cbn. lia.
Qed.

(** Nothing more happens by itself. *)
Definition quiet (done : bool) (t : topic) : Prop := forall l, internal l = true -> exec done l t = None.

Definition candidates (t : topic) : list label :=
  Run :: RunClose :: ((seq 0 (length (sends t)) ≫= fun i => [Send i; SendClose i])
                      ++ (elements (dom (sheap t)) ≫= fun p => [Receive p; ReceiveClose p])).

Lemma enabled_candidate done t l : internal l = true -> is_Some (exec done l t) -> l ∈ candidates t.
Proof.
  intros Hl. unfold candidates. destruct l as [e|name size|p| | | |i|i|p|p]; cbn in *; try done; intros [o E];
    rewrite !elem_of_cons, elem_of_app, !list_elem_of_bind; [by left|by right; left|..]; right; right.
  1,2: left; exists i; split; [set_solver|]; apply elem_of_seq; unfold send, send_close in E;
    destruct (sends t !! i) as [x|] eqn:Ei; [|done]; apply lookup_lt_Some in Ei; lia.
  all: right; exists p; split; [set_solver|]; apply elem_of_elements, elem_of_dom; unfold receive, receive_close in E;
    destruct (sheap t !! p); [done|]; done.
Qed.

Lemma quiet_or_step done t : quiet done t \/ exists t', istep done t t'.
Proof.
  destruct (decide (Exists (fun l => internal l = true /\ is_Some (exec done l t)) (candidates t))) as [H|H].
  - right. apply Exists_exists in H as (l & _ & Hl & [o E]). destruct o as [t'|w]; [exists t', l; done|].
    destruct l; cbn in Hl, E; try done; by apply fmap_Some in E as (? & _ & ?).
  - left. intros l Hl. destruct (exec done l t) eqn:E; [|done]. exfalso. apply H, Exists_exists. exists l.
    split; [|by rewrite E]. apply (enabled_candidate done); [done|by rewrite E].
Qed.

Lemma comes_to_rest done : forall n t, (measure t < n)%nat -> exists t', rtc (istep done) t t' /\ quiet done t'.
Proof.
  induction n as [|n IH]; intros t Hn; [lia|]. destruct (quiet_or_step done t) as [Hq|[t1 H1]]; [by exists t|].
  destruct (istep_measure _ _ _ H1) as (Hm & _). destruct (IH t1) as (t' & Hs & Hq); [lia|]. exists t'. split; [by econstructor|done].
Qed.

Lemma isteps_frame done t t' : rtc (istep done) t t' -> inv done t -> inv done t' /\ subs t' = subs t /\ published t' = published t /\ tclosed t' = tclosed t.
Proof.
  induction 1 as [t|t t1 t' H1 _ IH]; [done|]. intros I. destruct (istep_measure _ _ _ H1) as (_ & <- & <- & <-).
  apply IH. destruct H1 as (l & _ & E). by eapply exec_inv.
Qed.

Lemma quiet_delivered t name p : inv false t -> quiet false t -> tclosed t = false -> subs t !! name = Some p ->
  exists s, sheap t !! p = Some s /\ sname s = name /\ tqueue t = [] /\ squeue s = [] /\ pending t p = [].
Proof.
  intros I Hq Hc Hp. destruct (i_subs _ _ I _ _ Hp) as (s & Es & En & Ec). destruct (i_heap _ _ I _ _ Es) as [_ Hs Hl _].
  destruct (Hl Ec eq_refl) as [Hr _]. exists s. split; [done|]. split; [done|].
  assert (tqueue t = []) as ->.
  { pose proof (Hq Run eq_refl) as H. cbn in H. unfold run_once in H. rewrite (i_running _ _ I Hc eq_refl) in H. by destruct (tqueue t). }
  assert (squeue s = []) as Eq.
  { pose proof (Hq (Receive p) eq_refl) as H. cbn in H. unfold receive in H. rewrite Es in H. cbn in H. rewrite Hr in H. by destruct (squeue s). }
  split; [done|]. split; [done|]. unfold pending, pending_in. destruct (filter _ (sends t)) as [|x l] eqn:Ef; [done|].
  assert (x ∈ filter (fun x => x.1 = p) (sends t)) as [Ex Hx]%list_elem_of_filter by (rewrite Ef; set_solver).
  apply list_elem_of_lookup in Hx as [i Ei]. pose proof (Hq (Send i) eq_refl) as H. cbn in H. unfold send in H.
  rewrite Ei in H. destruct x as [q e]; cbn in Ex, H; subst q. rewrite Es in H. cbn in H. rewrite Eq in H. by rewrite decide_True in H.
Qed.

(** C33. Left alone, the goroutines of a topic come to rest: there is a run to a
    state where none can move, and no run is longer than the measure says.  When
    the hub is not shut down, every such state has delivered everything: each
    subscriber's handler has had every event published since it subscribed, each
    exactly once. *)
Theorem delivery_terminates (done : bool) (t : topic) : reachable done t ->
  (exists t', rtc (istep done) t t' /\ quiet done t') /\
  (forall n t', nsteps (istep done) n t t' -> (n <= measure t)%nat) /\
  (done = false -> tclosed t = false -> forall t' name p, rtc (istep done) t t' -> quiet done t' -> subs t !! name = Some p ->
     exists s, sheap t' !! p = Some s /\ sname s = name /\ handled s ≡ₚ drop (since s) (published t)).
Proof.
  intros R%reachable_inv. split; [apply (comes_to_rest done (S (measure t))); lia|]. split.
  - intros n. clear R. revert t. induction n as [|n IH]; intros t t' H; [lia|]. inversion H as [|? ? t1 ? H1 H2]; subst.
    destruct (istep_measure _ _ _ H1) as (Hm & _). apply IH in H2. lia.
  - intros -> Hc t' name p Hs Hq Hp. destruct (isteps_frame _ _ _ Hs R) as (I & Esub & Epub & Ecl).
    rewrite <- Esub in Hp. rewrite <- Ecl in Hc. destruct (quiet_delivered _ _ _ I Hq Hc Hp) as (s & Es & En & Et & Eq & Ep).
    exists s. split; [done|]. split; [done|]. destruct (i_subs _ _ I _ _ Hp) as (s1 & Es1 & _ & Ecs). simplify_eq.
    destruct (i_heap _ _ I _ _ Es) as [H1 _ H3 H4]. destruct (H3 Ecs eq_refl) as [_ Hl]. destruct (H4 Ecs) as (_ & _ & Hd).
    rewrite <- Epub, (i_published _ _ I), Et, app_nil_r, <- Hd, <- H1, Eq, Ep, Hl. by rewrite !app_nil_r.
Qed.

(** ** The hub *)

Record eventHub := mkEventHub { topics : gmap string nat; theap : gmap nat topic; cancelled : bool; locked : bool }.

Definition InitEventHub : eventHub := mkEventHub ∅ ∅ false false.

(** [createTopic] looks again under the write lock. *)
Definition createTopic (h : eventHub) (name : string) : nat * eventHub :=
  match topics h !! name with
  | Some q => (q, h)
  | None =>
      let q := fresh (dom (theap h)) in
      (q, mkEventHub (<[name := q]> (topics h)) (<[q := newTopic name]> (theap h)) (cancelled h) (locked h))
  end.
Definition getTopic (h : eventHub) (name : string) : nat * eventHub :=
  match topics h !! name with Some q => (q, h) | None => createTopic h name end.

(** A caller gets the topic, then acts on it ([Act]), as do its goroutines; it may
    hold a topic that [Shutdown] has removed.  [Shutdown] keeps the hub's lock while
    it cancels the context and closes the topics. *)
Inductive hlabel :=
| GetTopic (name : string) | Act (q : nat) (l : label) | Shutdown | ShutdownTopic (name : string) | ShutdownDone.

Definition hexec (l : hlabel) (h : eventHub) : option (outcome eventHub) :=
  match l with
  | GetTopic name => if locked h then None else Some (Ret (getTopic h name).2)
  | Act q l =>
      t ← theap h !! q; o ← exec (cancelled h) l t;
      Some (t' ← o; Ret (mkEventHub (topics h) (<[q := t']> (theap h)) (cancelled h) (locked h)))
  | Shutdown => if locked h then None else Some (Ret (mkEventHub (topics h) (theap h) true true))
  | ShutdownTopic name =>
      if locked h then
        q ← topics h !! name; t ← theap h !! q;
        Some (t' ← close t; Ret (mkEventHub (delete name (topics h)) (<[q := t']> (theap h)) (cancelled h) (locked h)))
      else None
  | ShutdownDone =>
      if locked h && bool_decide (topics h = ∅) then Some (Ret (mkEventHub (topics h) (theap h) (cancelled h) false)) else None
  end.

Inductive hub_reachable : eventHub -> Prop :=
| hub_init : hub_reachable InitEventHub
| hub_step l h h' : hub_reachable h -> hexec l h = Some (Ret h') -> hub_reachable h'.

Lemma getTopic_heap h name q t : theap (getTopic h name).2 !! q = Some t -> theap h !! q = Some t \/ t = newTopic name.
Proof.
  unfold getTopic, createTopic. destruct (topics h !! name); [by left|]. cbn.
  intros [[_ <-]|[_ ?]]%lookup_insert_Some; auto.
Qed.

Lemma getTopic_cancelled h name : cancelled (getTopic h name).2 = cancelled h.
Proof. unfold getTopic, createTopic. by destruct (topics h !! name). Qed.

(** Each topic of the hub runs as a topic of its own: whatever the hub does is, for
    one topic, a step of that topic or the cancellation. *)
Lemma hub_topics_reachable h : hub_reachable h -> forall q t, theap h !! q = Some t -> reachable (cancelled h) t.
Proof.
  induction 1 as [|l h h' _ IH E]; intros q t; [cbn; by rewrite lookup_empty|].
  destruct l as [name|q' l| |name|]; cbn in E.
  - destruct (locked h); [done|]. injection E as <-. intros [Hq| ->]%getTopic_heap; rewrite getTopic_cancelled; [eauto|].
    destruct (cancelled h); [eapply reach_cancel|]; constructor.
  - destruct (theap h !! q') as [t1|] eqn:Et; [|done]. cbn in E. destruct (exec _ l t1) as [o|] eqn:Ee; [|done]. cbn in E.
    injection E as E. apply bind_Ret in E as (t2 & -> & [= <-]). cbn.
    intros [[_ <-]|[_ ?]]%lookup_insert_Some; [by eapply reach_step; eauto|eauto].
  - destruct (locked h); [done|]. injection E as <-. cbn. intros Hq. by eapply reach_cancel, IH.
  - destruct (locked h); [|done]. destruct (topics h !! name) as [q'|]; [|done]. cbn in E.
    destruct (theap h !! q') as [t1|] eqn:Et; [|done]. cbn in E. injection E as E. apply bind_Ret in E as (t2 & Ec & [= <-]). cbn.
    intros [[_ <-]|[_ ?]]%lookup_insert_Some; [|eauto]. eapply (reach_step _ Close); [by eapply IH|]. cbn. by rewrite Ec.
  - destruct (locked h && _); [|done]. injection E as <-. apply IH.
Qed.

(** Every event is accounted for exactly once.  What was published to a topic
    has been dispatched in its order or waits in the topic's queue; and for each
    subscriber of a hub that is not shut down, the events dispatched since it
    subscribed are, each once, those that its handler got, those in its queue and
    those that a [send] carries, whatever else callers and goroutines do meanwhile. *)
Theorem subscriber_gets_every_event_once (h : eventHub) (q : nat) (t : topic) (name : string) (p : nat) :
  hub_reachable h -> cancelled h = false -> theap h !! q = Some t -> subs t !! name = Some p ->
  published t = dispatched t ++ tqueue t /\
  exists s, sheap t !! p = Some s /\ sname s = name /\ receiving s = true /\
    handled s ++ squeue s ++ pending t p ≡ₚ drop (since s) (dispatched t).
Proof. intros R Hc Hq. apply topic_accounts. rewrite <- Hc. by eapply hub_topics_reachable. Qed.

Fixpoint run_labels (done : bool) (ls : list label) (t : topic) : option (outcome topic) :=
  match ls with
  | [] => Some (Ret t)
  | l :: ls => o ← exec done l t; match o with Ret t' => run_labels done ls t' | Panics w => Some (Panics w) end
  end.

Lemma run_labels_reachable done ls : forall t t', reachable done t -> run_labels done ls t = Some (Ret t') -> reachable done t'.
Proof.
  induction ls as [|l ls IH]; intros t t' R; cbn; [by intros [= <-]|].
  destruct (exec done l t) as [[t1|w]|] eqn:E; cbn; [|done|done]. intros H. eapply IH; [|done]. by eapply reach_step.
Qed.

Fixpoint hrun (ls : list hlabel) (h : eventHub) : option (outcome eventHub) :=
  match ls with
  | [] => Some (Ret h)
  | l :: ls => o ← hexec l h; match o with Ret h' => hrun ls h' | Panics w => Some (Panics w) end
  end.

Lemma hrun_reachable ls : forall h h', hub_reachable h -> hrun ls h = Some (Ret h') -> hub_reachable h'.
Proof.
  induction ls as [|l ls IH]; intros h h' R; cbn; [by intros [= <-]|].
  destruct (hexec l h) as [[h1|w]|] eqn:E; cbn; [|done|done]. intros H. eapply IH; [|done]. by eapply hub_step.
Qed.

End topic.
Arguments topic : clear implicits.
Arguments subscription : clear implicits.
Arguments label : clear implicits.
Arguments eventHub : clear implicits.
Arguments hlabel : clear implicits.

(** ** Examples and witnesses *)

(** Two subscribers; three events, of which two have been dispatched. *)
Definition demo_labels : list (label Z) :=
  [Subscribe "a" None; Subscribe "b" (Some 2); Publish 1; Publish 2; Run; Send 1; Run; Receive 1; Publish 3].
Definition demo_topic : topic Z :=
  match run_labels false demo_labels (newTopic "events") with Some (Ret t) => t | _ => newTopic "events" end.

Lemma delivery_terminates_witness :
  reachable false demo_topic /\ subs demo_topic !! "b" = Some 1%nat /\
  (exists t', rtc (istep false) demo_topic t' /\ quiet false t') /\ (forall n t', nsteps (istep false) n demo_topic t' -> (n <= 14)%nat).
Proof.
  assert (reachable false demo_topic) as R.
  { apply (run_labels_reachable false demo_labels (newTopic "events")); [constructor|vm_compute; reflexivity]. }
  destruct (delivery_terminates false demo_topic R) as (H1 & H2 & _). split; [exact R|]. split; [vm_compute; reflexivity|].
  split; [exact H1|]. intros n t' H. assert (measure demo_topic = 14%nat) as <- by (vm_compute; reflexivity). exact (H2 n t' H).
Defined.

Definition demo_hub : eventHub Z :=
  match hrun (GetTopic "events" :: (Act 0 <$> demo_labels)) InitEventHub with Some (Ret h) => h | _ => InitEventHub end.

Lemma subscriber_gets_every_event_once_witness :
  hub_reachable demo_hub /\
  exists s, sheap demo_topic !! 1%nat = Some s /\ sname s = "b" /\ receiving s = true /\
    handled s ++ squeue s ++ pending demo_topic 1 ≡ₚ drop (since s) (dispatched demo_topic).
Proof.
  assert (hub_reachable demo_hub) as R.
  { apply (hrun_reachable (GetTopic "events" :: (Act 0 <$> demo_labels)) InitEventHub); [constructor|vm_compute; reflexivity]. }
  split; [exact R|].
  apply (subscriber_gets_every_event_once demo_hub 0 demo_topic "b" 1 R); vm_compute; reflexivity.
Defined.

(** Events can reach a handler in another order than they were published in:
    the [send]s of one subscription are goroutines of their own.  Here the handler
    gets 2 before 1. *)
Theorem events_can_be_reordered :
  exists t s, run_labels false [Subscribe "a" None; Publish 1; Publish 2; Run; Run; Send 1; Send 0; Receive 0; Receive 0] (newTopic "events") = Some (Ret t) /\
    published t = [1; 2] /\ sheap t !! 0%nat = Some s /\ handled s = [2; 1].
Proof. vm_compute. do 2 eexists. split; [reflexivity|]. split; [reflexivity|]. split; reflexivity. Qed.

(** [unsubscribe] reads the map before it takes the lock: of two callers that
    read the same subscription, the second closes a closed channel and the process
    panics. *)
Theorem concurrent_unsubscribe_panics :
  run_labels (Event := Z) false [Subscribe "a" None; Unsubscribe 0; Unsubscribe 0] (newTopic "events") = Some (Panics CloseOfClosedChannel).
Proof. vm_compute. reflexivity. Qed.
