(* ===== verification/Effects.v ===== *)
(** * Calls that change a world and may fail

    The handlers of the naming server call the store, return early with an
    error response, publish events.  [call W E A] is such a computation: from a
    world it goes to a world, with a value or an error, unless it panics;
    sequencing stops at the first error.  [ends] is its total-correctness
    postcondition, with one rule for each way of building a call; [runs] is the
    same for calls that may panic.  A panic forgets the world; a [crash] does not. *)

From S2P Require Import Prelude.
From stdpp Require Import base tactics list.

Definition call (W E A : Type) : Type := W -> outcome (W * result E A).

Section calls.
  Context {W E : Type}.

#[export] Instance call_ret : MRet (call W E) := fun A a w => Ret (w, Okay a).
#[export] Instance call_bind : MBind (call W E) := fun A B k m w =>
  match m w with
  | Ret (w', Okay a) => k a w'
  | Ret (w', Fail e) => Ret (w', Fail e)
  | Panics why => Panics why
  end.

Definition raise {A} (e : E) : call W E A := fun w => Ret (w, Fail e).
Definition panics {A} (why : panic) : call W E A := fun _ => Panics why.
Definition get : call W E W := fun w => Ret (w, Okay w).
Definition modify (f : W -> W) : call W E unit := fun w => Ret (f w, Okay ()).

(** [if err := m; err != nil { return f(err) }]. *)
Definition orelse {E' A} (m : call W E' A) (f : E' -> E) : call W E A := fun w =>
  match m w with
  | Ret (w', Okay a) => Ret (w', Okay a)
  | Ret (w', Fail e) => Ret (w', Fail (f e))
  | Panics why => Panics why
  end.

(** The error as a value. *)
Definition attempt {E' A} (m : call W E' A) : call W E (result E' A) := fun w =>
  match m w with Ret (w', r) => Ret (w', Okay r) | Panics why => Panics why end.

(** [for _, x := range l { ... }], with early return. *)
Fixpoint each {A} (f : A -> call W E unit) (l : list A) : call W E unit :=
  match l with [] => mret () | x :: l => f x ≫= fun _ => each f l end.

(** A pointer that may be nil. *)
Definition deref {A} (p : option A) : call W E A := match p with Some a => mret a | None => panics NilDereference end.

(** ** Postconditions *)

Definition ends {A} (m : call W E A) (w : W) (Q : W -> result E A -> Prop) : Prop :=
  exists w' r, m w = Ret (w', r) /\ Q w' r.

Lemma ends_weaken {A} (m : call W E A) w (Q Q' : W -> result E A -> Prop) :
  ends m w Q -> (forall w' r, Q w' r -> Q' w' r) -> ends m w Q'.
Proof. intros (w' & r & Hm & HQ) Hw. exists w', r. eauto. Qed.

(** A call has one outcome. *)
Lemma ends_both {A} (m : call W E A) w (Q Q' : W -> result E A -> Prop) :
  ends m w Q -> ends m w Q' -> ends m w (fun w' r => Q w' r /\ Q' w' r).
Proof. intros (w' & r & Hm & HQ) (w'' & r' & Hm' & HQ'). rewrite Hm in Hm'. injection Hm' as <- <-. by exists w', r. Qed.

Lemma ends_ret {A} (a : A) w (Q : W -> result E A -> Prop) : Q w (Okay a) -> ends (mret a) w Q.
Proof. intros HQ. by exists w, (Okay a). Qed.

Lemma ends_raise {A} e w (Q : W -> result E A -> Prop) : Q w (Fail e) -> ends (raise e) w Q.
Proof. intros HQ. by exists w, (Fail e). Qed.

Lemma ends_get w (Q : W -> result E W -> Prop) : Q w (Okay w) -> ends get w Q.
Proof. intros HQ. by exists w, (Okay w). Qed.

Lemma ends_modify f w (Q : W -> result E unit -> Prop) : Q (f w) (Okay ()) -> ends (modify f) w Q.
Proof. intros HQ. by exists (f w), (Okay ()). Qed.

Lemma ends_bind {A B} (m : call W E A) (k : A -> call W E B) w (Q : W -> result E B -> Prop) :
  ends m w (fun w' r => match r with Okay a => ends (k a) w' Q | Fail e => Q w' (Fail e) end) ->
  ends (m ≫= k) w Q.
Proof.
  intros (w' & r & Hm & HQ). unfold ends, mbind, call_bind. rewrite Hm. destruct r as [a|e]; [done|]. by exists w', (Fail e).
Qed.

Lemma ends_attempt {E' A} (m : W -> outcome (W * result E' A)) w (Q : W -> result E (result E' A) -> Prop) :
  (exists w' r, m w = Ret (w', r) /\ Q w' (Okay r)) -> ends (attempt m) w Q.
Proof. intros (w' & r & Hm & HQ). exists w', (Okay r). unfold attempt. by rewrite Hm. Qed.

Lemma ends_orelse {E' A} (m : W -> outcome (W * result E' A)) (f : E' -> E) w (Q : W -> result E A -> Prop) :
  (exists w' r, m w = Ret (w', r) /\ Q w' (match r with Okay a => Okay a | Fail e => Fail (f e) end)) ->
  ends (orelse m f) w Q.
Proof. intros (w' & r & Hm & HQ). unfold ends, orelse. rewrite Hm. destruct r; eauto. Qed.

Lemma ends_deref {A} (p : option A) a w (Q : W -> result E A -> Prop) :
  p = Some a -> Q w (Okay a) -> ends (deref p) w Q.
Proof. intros -> HQ. by apply ends_ret. Qed.

(** A loop keeps an invariant on what it has done so far. *)
Lemma ends_each {A} (f : A -> call W E unit) (I : list A -> W -> Prop) (Q : W -> result E unit -> Prop) l w :
  I [] w ->
  (forall done x rest w, l = done ++ x :: rest -> I done w ->
     ends (f x) w (fun w' r => match r with Okay _ => I (done ++ [x]) w' | Fail e => Q w' (Fail e) end)) ->
  (forall w, I l w -> Q w (Okay ())) ->
  ends (each f l) w Q.
Proof.
  intros HI Hf HQ. assert (forall rest done w, l = done ++ rest -> I done w -> ends (each f rest) w Q) as Hgen.
  { intros rest. induction rest as [|x rest IH]; intros d w' Hl Hd; cbn [each].
    - apply ends_ret, HQ. by rewrite Hl, app_nil_r.
    - apply ends_bind. eapply ends_weaken; [by apply (Hf d x rest w' Hl)|]. intros w'' [[]|e] Hr; [|done].
      apply (IH (d ++ [x])); [|done]. by rewrite <- (assoc_L (++)). }
  by apply (Hgen l []).
Qed.

(** The same with panics: [P] says which of them may happen. *)
Definition runs {A} (P : panic -> Prop) (m : call W E A) (w : W) (Q : W -> result E A -> Prop) : Prop :=
  match m w with Ret (w', r) => Q w' r | Panics why => P why end.

Section runs.
  Context (P : panic -> Prop).

Lemma runs_weaken {A} (m : call W E A) w (Q Q' : W -> result E A -> Prop) :
  runs P m w Q -> (forall w' r, Q w' r -> Q' w' r) -> runs P m w Q'.
Proof. unfold runs. destruct (m w) as [[w' r]|why]; auto. Qed.

(** Which outcome it is. *)
Lemma runs_eqn {A} (m : call W E A) w (Q : W -> result E A -> Prop) : runs P m w (fun w' r => m w = Ret (w', r) -> Q w' r) -> runs P m w Q.
Proof. unfold runs. destruct (m w) as [[w' r]|why]; auto. Qed.

Lemma runs_ret {A} (a : A) w (Q : W -> result E A -> Prop) : Q w (Okay a) -> runs P (mret a) w Q.
Proof. done. Qed.

Lemma runs_raise {A} e w (Q : W -> result E A -> Prop) : Q w (Fail e) -> runs P (raise e) w Q.
Proof. done. Qed.

Lemma runs_get w (Q : W -> result E W -> Prop) : Q w (Okay w) -> runs P get w Q.
Proof. done. Qed.

Lemma runs_modify f w (Q : W -> result E unit -> Prop) : Q (f w) (Okay ()) -> runs P (modify f) w Q.
Proof. done. Qed.

Lemma runs_bind {A B} (m : call W E A) (k : A -> call W E B) w (Q : W -> result E B -> Prop) :
  runs P m w (fun w' r => match r with Okay a => runs P (k a) w' Q | Fail e => Q w' (Fail e) end) -> runs P (m ≫= k) w Q.
Proof. unfold runs, mbind, call_bind. by destruct (m w) as [[w' [a|e]]|why]. Qed.

Lemma runs_deref {A} (p : option A) a w (Q : W -> result E A -> Prop) : p = Some a -> Q w (Okay a) -> runs P (deref p) w Q.
Proof. by intros ->. Qed.

Lemma runs_each {A} (f : A -> call W E unit) (I : W -> Prop) (Q : W -> result E unit -> Prop) l w :
  I w -> (forall x w, I w -> runs P (f x) w (fun w' r => match r with Okay _ => I w' | Fail e => Q w' (Fail e) end)) ->
  (forall w, I w -> Q w (Okay ())) -> runs P (each f l) w Q.
Proof.
  intros HI Hf HQ. revert w HI. induction l as [|x l IH]; intros w HI; cbn [each]; [by apply runs_ret, HQ|].
  apply runs_bind. eapply runs_weaken; [by apply Hf|]. intros w' [[]|e]; [apply IH|done].
Qed.

End runs.

Lemma ends_runs {A} (m : call W E A) w (Q : W -> result E A -> Prop) : runs (fun _ => False) m w Q -> ends m w Q.
Proof. unfold runs, ends. destruct (m w) as [[w' r]|why]; [by exists w', r|done]. Qed.

End calls.

#[global] Arguments runs {W E A} P m w Q : simpl never.

#[global] Arguments ends {W E A} m w Q : simpl never.

Lemma runs_attempt {W E E' A} P (m : call W E' A) w (Q : W -> result E (result E' A) -> Prop) :
  runs P m w (fun w' r => Q w' (Okay r)) -> runs P (attempt m) w Q.
Proof. unfold runs, attempt. by destruct (m w) as [[w' r]|why]. Qed.

Lemma runs_orelse {W E E' A} P (m : call W E' A) (f : E' -> E) w (Q : W -> result E A -> Prop) :
  runs P m w (fun w' r => Q w' (match r with Okay a => Okay a | Fail e => Fail (f e) end)) -> runs P (orelse m f) w Q.
Proof. unfold runs, orelse. by destruct (m w) as [[w' [a|e]]|why]. Qed.

(** ** Panics that keep what was written

    Where it matters what a call has written before it panics, its errors are of
    two kinds: an answer, or the panic. *)

Definition crash {W E A} (why : panic) : call W (E + panic) A := raise (inr why).
Definition landing {W E A} (m : call W E A) : call W (E + panic) A := orelse m inl.

(** How it ends. *)
Definition settle {E A} (r : result (E + panic) A) : outcome (result E A) :=
  match r with
  | Okay a => Ret (Okay a)
  | Fail (inl e) => Ret (Fail e)
  | Fail (inr why) => Panics why
  end.

Lemma runs_landing {W E A} P (m : call W E A) w (Q : W -> result (E + panic) A -> Prop) :
  runs P m w (fun w' r => Q w' (match r with Okay a => Okay a | Fail e => Fail (inl e) end)) -> runs P (landing m) w Q.
Proof. apply runs_orelse. Qed.
