(* ===== verification/Registry.v ===== *)
(** * Instances in the registry ([src/common/model/instance.go], [src/service/instance.go])

    An instance as the API sends it ([PbInstance], the protobuf message
    [apiservice.Instance]) and as the store keeps it ([Instance], the struct
    [model.Instance]): how a request becomes a stored instance, how an update
    changes one, and the checks a request passes first.  A nil wrapper is
    [None]; a getter of a nil message answers the zero value.

    A request and the instance made from it share the health check message,
    which the code normalises in place; the functions below return the request
    with the instance. *)

From S2P Require Import Prelude GoStrings Utils.
From Stdlib Require Import ZArith Lia.
From stdpp Require Import base tactics list gmap strings.

Open Scope Z_scope.

(** ** Data *)

Record Location := mkLocation {
  Region : option string;
  Zone : option string;
  Campus : option string }.

(** [HeartbeatHealthCheck] has the one field [Ttl]. *)
Inductive HealthCheckType := UNKNOWN | HEARTBEAT | OtherType (n : Z).
Record HealthCheck := mkHealthCheck {
  Type_ : HealthCheckType;
  Heartbeat : option (option Z) }.

Record PbInstance := mkPb {
  pId : option string;
  pService : option string;
  pNamespace : option string;
  pVpcId : option string;
  pHost : option string;
  pPort : option Z;
  pProtocol : option string;
  pVersion : option string;
  pPriority : option Z;
  pWeight : option Z;
  pEnableHealthCheck : option bool;
  pHealthCheck : option HealthCheck;
  pHealthy : option bool;
  pIsolate : option bool;
  pLocation : option Location;
  pMetadata : option (gmap string string);
  pLogicSet : option string;
  pCtime : option string;
  pMtime : option string;
  pRevision : option string;
  pServiceToken : option string }.
#[export] Instance Location_eq_dec : EqDecision Location.
Proof. solve_decision. Defined.
#[export] Instance HealthCheckType_eq_dec : EqDecision HealthCheckType.
Proof. solve_decision. Defined.
#[export] Instance HealthCheck_eq_dec : EqDecision HealthCheck.
Proof. solve_decision. Defined.
#[export] Instance PbInstance_eq_dec : EqDecision PbInstance.
Proof. solve_decision. Defined.

Definition set_Id (i : PbInstance) v := mkPb v (pService i) (pNamespace i) (pVpcId i) (pHost i) (pPort i)
    (pProtocol i) (pVersion i) (pPriority i) (pWeight i) (pEnableHealthCheck i) (pHealthCheck i) (pHealthy i)
    (pIsolate i) (pLocation i) (pMetadata i) (pLogicSet i) (pCtime i) (pMtime i) (pRevision i) (pServiceToken i).
Definition set_Service (i : PbInstance) v := mkPb (pId i) v (pNamespace i) (pVpcId i) (pHost i) (pPort i)
    (pProtocol i) (pVersion i) (pPriority i) (pWeight i) (pEnableHealthCheck i) (pHealthCheck i) (pHealthy i)
    (pIsolate i) (pLocation i) (pMetadata i) (pLogicSet i) (pCtime i) (pMtime i) (pRevision i) (pServiceToken i).
Definition set_Namespace (i : PbInstance) v := mkPb (pId i) (pService i) v (pVpcId i) (pHost i) (pPort i)
    (pProtocol i) (pVersion i) (pPriority i) (pWeight i) (pEnableHealthCheck i) (pHealthCheck i) (pHealthy i)
    (pIsolate i) (pLocation i) (pMetadata i) (pLogicSet i) (pCtime i) (pMtime i) (pRevision i) (pServiceToken i).
Definition set_Protocol (i : PbInstance) v := mkPb (pId i) (pService i) (pNamespace i) (pVpcId i) (pHost i)
    (pPort i) v (pVersion i) (pPriority i) (pWeight i) (pEnableHealthCheck i) (pHealthCheck i) (pHealthy i)
    (pIsolate i) (pLocation i) (pMetadata i) (pLogicSet i) (pCtime i) (pMtime i) (pRevision i) (pServiceToken i).
Definition set_Version (i : PbInstance) v := mkPb (pId i) (pService i) (pNamespace i) (pVpcId i) (pHost i)
    (pPort i) (pProtocol i) v (pPriority i) (pWeight i) (pEnableHealthCheck i) (pHealthCheck i) (pHealthy i)
    (pIsolate i) (pLocation i) (pMetadata i) (pLogicSet i) (pCtime i) (pMtime i) (pRevision i) (pServiceToken i).
Definition set_Priority (i : PbInstance) v := mkPb (pId i) (pService i) (pNamespace i) (pVpcId i) (pHost i)
    (pPort i) (pProtocol i) (pVersion i) v (pWeight i) (pEnableHealthCheck i) (pHealthCheck i) (pHealthy i)
    (pIsolate i) (pLocation i) (pMetadata i) (pLogicSet i) (pCtime i) (pMtime i) (pRevision i) (pServiceToken i).
Definition set_Weight (i : PbInstance) v := mkPb (pId i) (pService i) (pNamespace i) (pVpcId i) (pHost i)
    (pPort i) (pProtocol i) (pVersion i) (pPriority i) v (pEnableHealthCheck i) (pHealthCheck i) (pHealthy i)
    (pIsolate i) (pLocation i) (pMetadata i) (pLogicSet i) (pCtime i) (pMtime i) (pRevision i) (pServiceToken i).
Definition set_EnableHealthCheck (i : PbInstance) v := mkPb (pId i) (pService i) (pNamespace i) (pVpcId i)
    (pHost i) (pPort i) (pProtocol i) (pVersion i) (pPriority i) (pWeight i) v (pHealthCheck i) (pHealthy i)
    (pIsolate i) (pLocation i) (pMetadata i) (pLogicSet i) (pCtime i) (pMtime i) (pRevision i) (pServiceToken i).
Definition set_HealthCheck (i : PbInstance) v := mkPb (pId i) (pService i) (pNamespace i) (pVpcId i) (pHost i)
    (pPort i) (pProtocol i) (pVersion i) (pPriority i) (pWeight i) (pEnableHealthCheck i) v (pHealthy i)
    (pIsolate i) (pLocation i) (pMetadata i) (pLogicSet i) (pCtime i) (pMtime i) (pRevision i) (pServiceToken i).
Definition set_Healthy (i : PbInstance) v := mkPb (pId i) (pService i) (pNamespace i) (pVpcId i) (pHost i)
    (pPort i) (pProtocol i) (pVersion i) (pPriority i) (pWeight i) (pEnableHealthCheck i) (pHealthCheck i) v
    (pIsolate i) (pLocation i) (pMetadata i) (pLogicSet i) (pCtime i) (pMtime i) (pRevision i) (pServiceToken i).
Definition set_Isolate (i : PbInstance) v := mkPb (pId i) (pService i) (pNamespace i) (pVpcId i) (pHost i)
    (pPort i) (pProtocol i) (pVersion i) (pPriority i) (pWeight i) (pEnableHealthCheck i) (pHealthCheck i)
    (pHealthy i) v (pLocation i) (pMetadata i) (pLogicSet i) (pCtime i) (pMtime i) (pRevision i)
    (pServiceToken i).
Definition set_Location (i : PbInstance) v := mkPb (pId i) (pService i) (pNamespace i) (pVpcId i) (pHost i)
    (pPort i) (pProtocol i) (pVersion i) (pPriority i) (pWeight i) (pEnableHealthCheck i) (pHealthCheck i)
    (pHealthy i) (pIsolate i) v (pMetadata i) (pLogicSet i) (pCtime i) (pMtime i) (pRevision i)
    (pServiceToken i).
Definition set_Metadata (i : PbInstance) v := mkPb (pId i) (pService i) (pNamespace i) (pVpcId i) (pHost i)
    (pPort i) (pProtocol i) (pVersion i) (pPriority i) (pWeight i) (pEnableHealthCheck i) (pHealthCheck i)
    (pHealthy i) (pIsolate i) (pLocation i) v (pLogicSet i) (pCtime i) (pMtime i) (pRevision i)
    (pServiceToken i).
Definition set_LogicSet (i : PbInstance) v := mkPb (pId i) (pService i) (pNamespace i) (pVpcId i) (pHost i)
    (pPort i) (pProtocol i) (pVersion i) (pPriority i) (pWeight i) (pEnableHealthCheck i) (pHealthCheck i)
    (pHealthy i) (pIsolate i) (pLocation i) (pMetadata i) v (pCtime i) (pMtime i) (pRevision i)
    (pServiceToken i).
Definition set_Ctime (i : PbInstance) v := mkPb (pId i) (pService i) (pNamespace i) (pVpcId i) (pHost i)
    (pPort i) (pProtocol i) (pVersion i) (pPriority i) (pWeight i) (pEnableHealthCheck i) (pHealthCheck i)
    (pHealthy i) (pIsolate i) (pLocation i) (pMetadata i) (pLogicSet i) v (pMtime i) (pRevision i)
    (pServiceToken i).
Definition set_Mtime (i : PbInstance) v := mkPb (pId i) (pService i) (pNamespace i) (pVpcId i) (pHost i)
    (pPort i) (pProtocol i) (pVersion i) (pPriority i) (pWeight i) (pEnableHealthCheck i) (pHealthCheck i)
    (pHealthy i) (pIsolate i) (pLocation i) (pMetadata i) (pLogicSet i) (pCtime i) v (pRevision i)
    (pServiceToken i).
Definition set_Revision (i : PbInstance) v := mkPb (pId i) (pService i) (pNamespace i) (pVpcId i) (pHost i)
    (pPort i) (pProtocol i) (pVersion i) (pPriority i) (pWeight i) (pEnableHealthCheck i) (pHealthCheck i)
    (pHealthy i) (pIsolate i) (pLocation i) (pMetadata i) (pLogicSet i) (pCtime i) (pMtime i) v
    (pServiceToken i).
Definition set_ServiceToken (i : PbInstance) v := mkPb (pId i) (pService i) (pNamespace i) (pVpcId i) (pHost i)
    (pPort i) (pProtocol i) (pVersion i) (pPriority i) (pWeight i) (pEnableHealthCheck i) (pHealthCheck i)
    (pHealthy i) (pIsolate i) (pLocation i) (pMetadata i) (pLogicSet i) (pCtime i) (pMtime i) (pRevision i) v.
Definition nilInstance : PbInstance := mkPb None None None None None None None None None None None None None None None None None None None None None.
Record Instance := mkInstance {
  Proto : option PbInstance;
  ServiceID : string;
  ServicePlatformID : string;
  Valid : bool;
  ModifyTime : Z }.
#[export] Instance Instance_eq_dec : EqDecision Instance.
Proof. solve_decision. Defined.

(** ** Getters *)

Definition GetBool (b : option bool) : bool := default false b.
Definition GetRegion (l : option Location) : string := GetValue (l ≫= Region).
Definition GetZone (l : option Location) : string := GetValue (l ≫= Zone).
Definition GetCampus (l : option Location) : string := GetValue (l ≫= Campus).
Definition GetHeartbeat (h : option HealthCheck) : option (option Z) := h ≫= Heartbeat.
Definition GetTtl (h : option HealthCheck) : Z := GetUint (default None (GetHeartbeat h)).
Definition GetType (h : option HealthCheck) : HealthCheckType := from_option Type_ UNKNOWN h.
(** A map of a protobuf message, nil or not. *)
Definition GetMap (m : option (gmap string string)) : gmap string string := default ∅ m.

(** The accessors of [model.Instance]: of a nil [Proto], the zero value. *)
Definition proto (i : Instance) : PbInstance := default nilInstance (Proto i).
Definition ID (i : Instance) : string := GetValue (pId (proto i)).
Definition Service (i : Instance) : string := GetValue (pService (proto i)).
Definition Namespace (i : Instance) : string := GetValue (pNamespace (proto i)).
Definition VpcID (i : Instance) : string := GetValue (pVpcId (proto i)).
Definition Host (i : Instance) : string := GetValue (pHost (proto i)).
Definition Port (i : Instance) : Z := GetUint (pPort (proto i)).
Definition Protocol (i : Instance) : string := GetValue (pProtocol (proto i)).
Definition Version (i : Instance) : string := GetValue (pVersion (proto i)).
Definition Priority (i : Instance) : Z := GetUint (pPriority (proto i)).
Definition Weight (i : Instance) : Z := GetUint (pWeight (proto i)).
Definition EnableHealthCheck (i : Instance) : bool := GetBool (pEnableHealthCheck (proto i)).
Definition HealthCheckOf (i : Instance) : option HealthCheck := pHealthCheck (proto i).
Definition Healthy (i : Instance) : bool := GetBool (pHealthy (proto i)).
Definition Isolate (i : Instance) : bool := GetBool (pIsolate (proto i)).
Definition LocationOf (i : Instance) : option Location := pLocation (proto i).
Definition Metadata (i : Instance) : option (gmap string string) := pMetadata (proto i).
Definition LogicSet (i : Instance) : string := GetValue (pLogicSet (proto i)).
Definition Revision (i : Instance) : string := GetValue (pRevision (proto i)).

Definition set_Proto (i : Instance) (p : PbInstance) : Instance :=
  mkInstance (Some p) (ServiceID i) (ServicePlatformID i) (Valid i) (ModifyTime i).
Definition MallocProto (i : Instance) : Instance := set_Proto i (proto i).

(** ** Creating *)

Definition DefaultTLL : Z := 5.

(** A ttl outside (0, 60] becomes the default. *)
Definition clampTtl (ttl : Z) : Z := if decide (ttl = 0 \/ 60 < ttl) then DefaultTLL else ttl.

(** The health check that [CreateInstanceModel] leaves behind in the message. *)
Definition createHealthCheck (h : HealthCheck) : HealthCheck :=
  let ttl := GetTtl (Some h) in
  mkHealthCheck HEARTBEAT (if decide (ttl = 0 \/ 60 < ttl) then Some (Some 5) else Heartbeat h).

Definition wantsHealthCheck (req : PbInstance) : bool :=
  bool_decide (GetHeartbeat (pHealthCheck req) <> None) && default true (pEnableHealthCheck req).

(** [uuid] is the new revision.  The second component is the request as the
    call leaves it. *)
Definition CreateInstanceModel (serviceID : string) (req : PbInstance) (uuid : string) : Instance * PbInstance :=
  let healthy := default true (pHealthy req) in
  let isolate := default false (pIsolate req) in
  let weight := default 100 (pWeight req) in
  let check := if wantsHealthCheck req then createHealthCheck <$> pHealthCheck req else None in
  let protoIns :=
    mkPb (pId req) None None (pVpcId req) (Some (TrimSpace (GetValue (pHost req)))) (pPort req) (pProtocol req) (pVersion req)
      (pPriority req) (Some weight) (if wantsHealthCheck req then Some true else None) check (Some healthy) (Some isolate)
      (pLocation req) (pMetadata req) (pLogicSet req) None None (Some uuid) None in
  (mkInstance (Some protoIns) serviceID "" false 0,
   if wantsHealthCheck req then set_HealthCheck req check else req).

(** ** Updating *)

Definition instanceMetaNeedUpdate (req old : option (gmap string string)) : bool :=
  match req with
  | None => false
  | Some req =>
      let old := GetMap old in
      if decide (size req = size old) then
        bool_decide (~ map_Forall (fun k v => old !! k = Some v) req) || bool_decide (~ map_Forall (fun k v => req !! k = Some v) old)
      else true
  end.

Definition instanceLocationNeedUpdate (req old : option Location) : bool :=
  negb (bool_decide (GetRegion req = GetRegion old) && bool_decide (GetZone req = GetZone old) &&
        bool_decide (GetCampus req = GetCampus old)).

(** A wrapper that is present and differs from the instance's value. *)
Definition wants {A} `{EqDecision A} (req : option A) (old : A) : bool :=
  match req with None => false | Some v => bool_decide (v <> old) end.

Definition updateHealthCheck (req : PbInstance) (instance : Instance) : PbInstance * Instance * bool :=
  let '(req, instance, need) :=
    if wantsHealthCheck req then
      let off := negb (EnableHealthCheck instance) in
      let instance1 := if off then set_Proto instance (set_EnableHealthCheck (set_Healthy (proto instance) (Some false)) (Some true))
                       else instance in
      let ttl := clampTtl (GetTtl (pHealthCheck req)) in
      let need := off || bool_decide (ttl <> GetTtl (HealthCheckOf instance)) || bool_decide (HEARTBEAT <> GetType (HealthCheckOf instance)) in
      let check := Some (mkHealthCheck HEARTBEAT (Some (Some ttl))) in
      (set_HealthCheck req check, set_Proto instance1 (set_HealthCheck (proto instance1) check), need)
    else (req, instance, false) in
  if decide (pEnableHealthCheck req = Some false) then
    let need := need || EnableHealthCheck instance || bool_decide (HealthCheckOf instance <> None) in
    (req, set_Proto instance (set_HealthCheck (set_EnableHealthCheck (proto instance) (Some false)) None), need)
  else (req, instance, need).

(** [model.InstanceEventType]. *)
Definition EventInstanceOnline : string := "InstanceOnline".
Definition EventInstanceOffline : string := "InstanceOffline".
Definition EventInstanceTurnHealth : string := "InstanceTurnHealth".
Definition EventInstanceTurnUnHealth : string := "InstanceTurnUnHealth".
Definition EventInstanceOpenIsolate : string := "InstanceOpenIsolate".
Definition EventInstanceCloseIsolate : string := "InstanceCloseIsolate".
Definition EventInstanceUpdate : string := "InstanceUpdate".

(** One of the comparisons of [updateInstanceAttribute]: the instance, the flag
    [needUpdate] and the set of event types go through it. *)
Definition edit (need : bool) (change : PbInstance -> PbInstance) (event : string) (s : Instance * bool * gset string)
    : Instance * bool * gset string :=
  let '(instance, needUpdate, updateEvents) := s in
  if need then (set_Proto instance (change (proto instance)), true, {[event]} ∪ updateEvents) else s.

Definition updateInstanceAttribute (req : PbInstance) (instance : Instance) (uuid : string)
    : PbInstance * Instance * bool * gset string :=
  let i := MallocProto instance in
  let s := (i, false, ∅) in
  let s := edit (instanceMetaNeedUpdate (pMetadata req) (Metadata i)) (fun p => set_Metadata p (pMetadata req)) EventInstanceUpdate s in
  let s := edit (instanceLocationNeedUpdate (pLocation req) (LocationOf i)) (fun p => set_Location p (pLocation req)) EventInstanceUpdate s in
  let s := edit (wants (pProtocol req) (Protocol i)) (fun p => set_Protocol p (pProtocol req)) EventInstanceUpdate s in
  let s := edit (wants (pVersion req) (Version i)) (fun p => set_Version p (pVersion req)) EventInstanceUpdate s in
  let s := edit (wants (pPriority req) (Priority i)) (fun p => set_Priority p (pPriority req)) EventInstanceUpdate s in
  let s := edit (wants (pWeight req) (Weight i)) (fun p => set_Weight p (pWeight req)) EventInstanceUpdate s in
  let s := edit (wants (pHealthy req) (Healthy i)) (fun p => set_Healthy p (pHealthy req))
             (if GetBool (pHealthy req) then EventInstanceTurnHealth else EventInstanceTurnUnHealth) s in
  let s := edit (wants (pIsolate req) (Isolate i)) (fun p => set_Isolate p (pIsolate req))
             (if GetBool (pIsolate req) then EventInstanceOpenIsolate else EventInstanceCloseIsolate) s in
  let '(i', needUpdate, updateEvents) :=
    edit (wants (pLogicSet req) (LogicSet i)) (fun p => set_LogicSet p (pLogicSet req)) EventInstanceUpdate s in
  let '(req', i'', checkChanged) := updateHealthCheck req i' in
  let needUpdate := needUpdate || checkChanged in
  let updateEvents := if checkChanged then {[EventInstanceUpdate]} ∪ updateEvents else updateEvents in
  (req', if needUpdate then set_Proto i'' (set_Revision (proto i'') (Some uuid)) else i'', needUpdate, updateEvents).

(** ** Checks of requests *)

Definition MaxBatchSize : Z := 100.
Definition MaxMetadataLength : Z := 64.
Definition MaxDbServiceNameLength : Z := 128.
Definition MaxDbServiceNamespaceLength : Z := 64.
Definition MaxDbInsHostLength : Z := 128.
Definition MaxDbInsProtocolLength : Z := 32.
Definition MaxDbInsVersionLength : Z := 32.
Definition MaxDbInsLogicSetLength : Z := 128.

(** The first check that fails decides the code. *)
Fixpoint first_failure (checks : list (bool * Code)) : option Code :=
  match checks with
  | [] => None
  | (failed, code) :: checks => if failed then Some code else first_failure checks
  end.

Definition failed (e : option check_error) : bool := bool_decide (e <> None).

Definition checkMetadata (meta : option (gmap string string)) : option check_error :=
  match meta with
  | None => None
  | Some meta => if decide (MaxMetadataLength < Z.of_nat (size meta)) then Some InvalidValue else None
  end.

Definition CheckDbInstanceFieldLen (req : PbInstance) : option Code :=
  first_failure [
    (failed (CheckDbStrFieldLen (pService req) MaxDbServiceNameLength), InvalidServiceName);
    (failed (CheckDbStrFieldLen (pNamespace req) MaxDbServiceNamespaceLength), InvalidNamespaceName);
    (failed (CheckDbStrFieldLen (pHost req) MaxDbInsHostLength), InvalidInstanceHost);
    (failed (CheckDbStrFieldLen (pProtocol req) MaxDbInsProtocolLength), InvalidInstanceProtocol);
    (failed (CheckDbStrFieldLen (pVersion req) MaxDbInsVersionLength), InvalidInstanceVersion);
    (failed (CheckDbStrFieldLen (pLogicSet req) MaxDbInsLogicSetLength), InvalidInstanceLogicSet);
    (failed (CheckDbMetaDataFieldLen (GetMap (pMetadata req))), InvalidMetadata);
    (bool_decide (65535 < GetUint (pPort req)), InvalidInstancePort);
    (bool_decide (65535 < GetUint (pWeight req)), InvalidParameter)].

(** What [utils.CheckInstanceTetrad] reads of the request. *)
Definition tetrad (req : PbInstance) : ApiInstance :=
  mkApiInstance (pId req) (pService req) (pNamespace req) (pVpcId req) (pHost req) (pPort req).

(** Requests are pointers: [None] is nil. *)
Definition checkCreateInstance (req : option PbInstance) : result Code string :=
  match req with
  | None => Fail EmptyRequest
  | Some req =>
      if failed (checkMetadata (pMetadata req)) then Fail InvalidMetadata
      else match CheckDbInstanceFieldLen req with
           | Some code => Fail code
           | None => CheckInstanceTetrad (tetrad req)
           end
  end.

Definition checkReviseInstance (req : option PbInstance) : result Code string :=
  match req with
  | None => Fail EmptyRequest
  | Some req =>
      match pId req with
      | Some id => if decide (id = "") then Fail InvalidInstanceID else Okay id
      | None => match CheckDbInstanceFieldLen req with
                | Some code => Fail code
                | None => CheckInstanceTetrad (tetrad req)
                end
      end
  end.

Definition checkHeartbeatInstance (req : option PbInstance) : result Code string :=
  match req with
  | None => Fail EmptyRequest
  | Some req =>
      match pId req with
      | Some id => if decide (id = "") then Fail InvalidInstanceID else Okay id
      | None => CheckInstanceTetrad (tetrad req)
      end
  end.

Definition checkInstanceByHost (req : option PbInstance) : option Code :=
  match req with
  | None => Some EmptyRequest
  | Some req =>
      first_failure [
        (failed (CheckResourceName (pService req)), InvalidServiceName);
        (failed (CheckResourceName (pNamespace req)), InvalidNamespaceName);
        (failed (CheckInstanceHost (pHost req)), InvalidInstanceHost)]
  end.

Definition checkBatchInstance {A} (req : list A) : option Code :=
  if decide (req = []) then Some EmptyRequest
  else if decide (MaxBatchSize < Z.of_nat (length req)) then Some BatchSizeOverLimit else None.

Definition isEmptyLocation (loc : option Location) : bool :=
  bool_decide (GetRegion loc = "") && bool_decide (GetZone loc = "") && bool_decide (GetCampus loc = "").

(** ** Queries *)

Definition InstanceFilterAttributes : gset string :=
  list_to_set ["id"; "service"; "namespace"; "host"; "port"; "keys"; "values"; "protocol"; "version"; "health_status"; "healthy";
    "isolate"; "weight"; "logic_set"; "cmdb_region"; "cmdb_zone"; "cmdb_idc"; "priority"; "offset"; "limit"].
Definition InsFilter2toreAttr (key : string) : string :=
  if decide (key = "service") then "name" else if decide (key = "healthy") then "health_status" else key.
Definition NotInsFilterAttr (key : string) : bool := bool_decide (key = "keys" \/ key = "values").

Definition bool2Str (query : gmap string string) (key : string) : gmap string string :=
  match query !! key with
  | Some val => if decide (val = "true") then <[key := "1"]> query else if decide (val = "false") then <[key := "0"]> query else query
  | None => query
  end.

(** The filters for the store, and the one on metadata.  [query] is rewritten
    first; a key that is not known and an empty value are refused. *)
Definition preGetInstances (query : gmap string string) : result Code (gmap string string * gmap string string) :=
  if decide (query = ∅) then Fail EmptyQueryParameter
  else if decide (is_Some (query !! "keys") <-> is_Some (query !! "values")) then
    let metaFilter := match query !! "keys", query !! "values" with
                      | Some metaKey, Some metaValue => {[metaKey := metaValue]}
                      | _, _ => ∅
                      end in
    let query := if decide (is_Some (query !! "health_status") /\ is_Some (query !! "healthy")) then delete "health_status" query else query in
    let query := foldl bool2Str query ["health_status"; "healthy"; "isolate"] in
    if decide (map_Forall (fun key value => key ∈ InstanceFilterAttributes /\ value <> "") query) then
      Okay (list_to_map (omap (fun '(key, value) => let key := InsFilter2toreAttr key in
                                 if NotInsFilterAttr key then None else Some (key, value)) (map_to_list query)), metaFilter)
    else Fail InvalidParameter
  else Fail InvalidQueryInsParameter.

(** ** Well-formed instances

    What [CreateInstanceModel] makes and [updateInstanceAttribute] keeps: the
    wrappers the store writes through are there, and an instance is health
    checked exactly when it has a heartbeat check with a ttl in (0, 60]. *)

Definition check_ok (p : PbInstance) : Prop :=
  match pHealthCheck p with
  | None => GetBool (pEnableHealthCheck p) = false
  | Some h => pEnableHealthCheck p = Some true /\ Type_ h = HEARTBEAT /\ exists ttl, Heartbeat h = Some (Some ttl) /\ 0 < ttl <= 60
  end.

Record wrapped (p : PbInstance) : Prop := {
  w_healthy : is_Some (pHealthy p);
  w_isolate : is_Some (pIsolate p);
  w_weight : is_Some (pWeight p);
  w_revision : is_Some (pRevision p);
  w_check : check_ok p }.

Definition well_formed (i : Instance) : Prop := exists p, Proto i = Some p /\ wrapped p.

(** The ttl is an unsigned integer. *)
Definition typed (req : PbInstance) : Prop := 0 <= GetTtl (pHealthCheck req).

Lemma clampTtl_range ttl : 0 <= ttl -> 0 < clampTtl ttl <= 60.
Proof. unfold clampTtl, DefaultTLL. intros Ht. case_decide; lia. Qed.

Lemma wantsHealthCheck_spec req :
  wantsHealthCheck req = true <->
  (exists h beat, pHealthCheck req = Some h /\ Heartbeat h = Some beat) /\ pEnableHealthCheck req <> Some false.
Proof.
  unfold wantsHealthCheck, GetHeartbeat. rewrite andb_true_iff, bool_decide_eq_true.
  destruct (pHealthCheck req) as [h|], (pEnableHealthCheck req) as [[]|]; simpl; try destruct (Heartbeat h) eqn:Hh; naive_solver.
Qed.

(** [CreateInstanceModel] and [updateHealthCheck] leave the same message. *)
Lemma createHealthCheck_clamps h beat :
  Heartbeat h = Some beat -> 0 <= GetTtl (Some h) ->
  createHealthCheck h = mkHealthCheck HEARTBEAT (Some (Some (clampTtl (GetTtl (Some h))))) .
Proof.
  unfold createHealthCheck, clampTtl, DefaultTLL, GetTtl, GetHeartbeat, GetUint. cbn [mbind option_bind]. intros Hh Ht.
  rewrite Hh in *. cbn [default from_option id] in *. case_decide; [done|].
  destruct beat; [done|]. cbn [default from_option id] in *. lia.
Qed.

(** Whatever a request with typed fields says, the instance made from it is well
    formed, and [CreateInstanceModel] answers the same when it is called on the
    request again, as the asynchronous registration does. *)
Lemma CreateInstanceModel_well_formed serviceID req uuid :
  typed req -> well_formed (CreateInstanceModel serviceID req uuid).1.
Proof.
  intros Ht. eexists. split; [done|].
  split; cbn; try (by eexists). unfold check_ok. cbn [pHealthCheck pEnableHealthCheck].
  destruct (wantsHealthCheck req) eqn:Hw; [|done]. apply wantsHealthCheck_spec in Hw as [(h & beat & Hh & Hb) _].
  unfold typed in Ht. rewrite Hh in *. cbn [fmap option_fmap option_map]. rewrite (createHealthCheck_clamps _ _ Hb Ht). cbn.
  split_and!; [done..|]. eexists. split; [done|]. by apply clampTtl_range.
Qed.

Lemma CreateInstanceModel_again serviceID req uuid :
  typed req ->
  let req' := (CreateInstanceModel serviceID req uuid).2 in
  typed req' /\ CreateInstanceModel serviceID req' uuid = ((CreateInstanceModel serviceID req uuid).1, req').
Proof.
  intros Ht. cbv zeta. unfold CreateInstanceModel. cbn [fst snd].
  destruct (wantsHealthCheck req) eqn:Hw; cbn [fst snd]; [|split; [done|]; by rewrite Hw].
  pose proof Hw as [(h & beat & Hh & Hb) He]%wantsHealthCheck_spec. unfold typed in *. rewrite Hh in *.
  cbn [fmap option_fmap option_map]. rewrite (createHealthCheck_clamps _ _ Hb Ht).
  set (h' := mkHealthCheck _ _). pose proof (clampTtl_range _ Ht) as Hc.
  assert (GetTtl (Some h') = clampTtl (GetTtl (Some h))) as Hg by done.
  assert (wantsHealthCheck (set_HealthCheck req (Some h')) = true) as Hw'.
  { apply wantsHealthCheck_spec. split; [by exists h', (Some (clampTtl (GetTtl (Some h))))|done]. }
  split; [cbn [set_HealthCheck pHealthCheck]; lia|]. rewrite Hw'. cbn [set_HealthCheck pHealthCheck fmap option_fmap option_map].
  rewrite (createHealthCheck_clamps h' (Some (clampTtl (GetTtl (Some h))))), Hg by (done || lia).
  assert (clampTtl (clampTtl (GetTtl (Some h))) = clampTtl (GetTtl (Some h))) as -> by (unfold clampTtl at 1; rewrite decide_False by lia; done).
  done.
Qed.

(** ** What an update does *)

Definition when (b : bool) (f : PbInstance -> PbInstance) (p : PbInstance) : PbInstance := if b then f p else p.

Lemma edit_when need f ev i p n es :
  edit need f ev (set_Proto i p, n, es) =
  (set_Proto i (when need f p), need || n, if need then {[ev]} ∪ es else es).
Proof. by destruct need. Qed.

(** There are events exactly when something changes. *)
Lemma edit_silent need f ev s : (s.2 = ∅ <-> s.1.2 = false) -> ((edit need f ev s).2 = ∅ <-> (edit need f ev s).1.2 = false).
Proof. destruct s as [[i n] es]; cbn. intros Hs. destruct need; cbn; [|done]. split; [set_solver|done]. Qed.

Lemma when_other {A} (g : PbInstance -> A) b f p : (forall p, g (f p) = g p) -> g (when b f p) = g p.
Proof. intros Hf. destruct b; [apply Hf|done]. Qed.
Lemma when_if {A} (g : PbInstance -> A) b f p : g (when b f p) = if b then g (f p) else g p.
Proof. by destruct b. Qed.

(** Reads a field off a chain of conditional changes. *)
Ltac through g := repeat (rewrite (when_other g) by reflexivity); try rewrite (when_if g); repeat (rewrite (when_other g) by reflexivity).

(** The first part of [updateInstanceAttribute], before the health check. *)
Definition attributes (req p : PbInstance) (i : Instance) : PbInstance :=
  when (wants (pLogicSet req) (LogicSet i)) (fun p => set_LogicSet p (pLogicSet req))
  (when (wants (pIsolate req) (Isolate i)) (fun p => set_Isolate p (pIsolate req))
  (when (wants (pHealthy req) (Healthy i)) (fun p => set_Healthy p (pHealthy req))
  (when (wants (pWeight req) (Weight i)) (fun p => set_Weight p (pWeight req))
  (when (wants (pPriority req) (Priority i)) (fun p => set_Priority p (pPriority req))
  (when (wants (pVersion req) (Version i)) (fun p => set_Version p (pVersion req))
  (when (wants (pProtocol req) (Protocol i)) (fun p => set_Protocol p (pProtocol req))
  (when (instanceLocationNeedUpdate (pLocation req) (LocationOf i)) (fun p => set_Location p (pLocation req))
  (when (instanceMetaNeedUpdate (pMetadata req) (Metadata i)) (fun p => set_Metadata p (pMetadata req)) p)))))))).

Definition attributes_differ (req : PbInstance) (i : Instance) : bool :=
  wants (pLogicSet req) (LogicSet i) || (wants (pIsolate req) (Isolate i) || (wants (pHealthy req) (Healthy i) ||
  (wants (pWeight req) (Weight i) || (wants (pPriority req) (Priority i) || (wants (pVersion req) (Version i) ||
  (wants (pProtocol req) (Protocol i) || (instanceLocationNeedUpdate (pLocation req) (LocationOf i) ||
  (instanceMetaNeedUpdate (pMetadata req) (Metadata i) || false)))))))).

(** The health check part, on the protobuf. *)
Definition check_differs (req p : PbInstance) : bool :=
  wantsHealthCheck req &&
    (negb (GetBool (pEnableHealthCheck p)) || bool_decide (clampTtl (GetTtl (pHealthCheck req)) <> GetTtl (pHealthCheck p)) ||
     bool_decide (HEARTBEAT <> GetType (pHealthCheck p))) ||
  bool_decide (pEnableHealthCheck req = Some false) && (GetBool (pEnableHealthCheck p) || bool_decide (pHealthCheck p <> None)).

Definition checked (req p : PbInstance) : PbInstance :=
  when (bool_decide (pEnableHealthCheck req = Some false)) (fun p => set_HealthCheck (set_EnableHealthCheck p (Some false)) None)
  (when (wantsHealthCheck req) (fun p => set_HealthCheck p (Some (mkHealthCheck HEARTBEAT (Some (Some (clampTtl (GetTtl (pHealthCheck req))))))))
  (when (wantsHealthCheck req && negb (GetBool (pEnableHealthCheck p)))
     (fun p => set_EnableHealthCheck (set_Healthy p (Some false)) (Some true)) p)).

Lemma updateHealthCheck_checked req i p :
  (updateHealthCheck req (set_Proto i p)).1.2 = set_Proto i (checked req p) /\
  (updateHealthCheck req (set_Proto i p)).2 = check_differs req p.
Proof.
  unfold updateHealthCheck, checked, check_differs.
  destruct (wantsHealthCheck req) eqn:Hw; cbn [andb].
  - assert (pEnableHealthCheck req <> Some false) as He by by apply wantsHealthCheck_spec.
    rewrite (bool_decide_false (pEnableHealthCheck req = Some false)) by done. cbn [set_HealthCheck pEnableHealthCheck].
    rewrite decide_False by done. cbn [fst snd when andb]. rewrite orb_false_r. split; [|done].
    change (EnableHealthCheck (set_Proto i p)) with (GetBool (pEnableHealthCheck p)).
    by destruct (GetBool (pEnableHealthCheck p)).
  - cbv beta iota. destruct (decide (pEnableHealthCheck req = Some false)) as [He|He].
    + rewrite (bool_decide_true (pEnableHealthCheck req = Some false)) by done. done.
    + rewrite (bool_decide_false (pEnableHealthCheck req = Some false)) by done. done.
Qed.

Lemma update_eq req i uuid :
  let p := attributes req (proto i) i in
  let need := attributes_differ req i || check_differs req p in
  let '(req', i', need', events) := updateInstanceAttribute req i uuid in
  i' = set_Proto i (when need (fun p => set_Revision p (Some uuid)) (checked req p)) /\ need' = need /\
  (events = ∅ <-> need = false).
Proof.
  cbv zeta. unfold updateInstanceAttribute, MallocProto. cbv zeta.
  match goal with |- context [edit ?b ?f ?ev ?s] => 
    assert ((edit b f ev s).2 = ∅ <-> (edit b f ev s).1.2 = false) as Hs by by repeat apply edit_silent
  end.
  rewrite !edit_when in *. cbn [fst snd] in Hs.
  change (Metadata (set_Proto i (proto i))) with (Metadata i) in *. change (LocationOf (set_Proto i (proto i))) with (LocationOf i) in *.
  change (Protocol (set_Proto i (proto i))) with (Protocol i) in *. change (Version (set_Proto i (proto i))) with (Version i) in *.
  change (Priority (set_Proto i (proto i))) with (Priority i) in *. change (Weight (set_Proto i (proto i))) with (Weight i) in *.
  change (Healthy (set_Proto i (proto i))) with (Healthy i) in *. change (Isolate (set_Proto i (proto i))) with (Isolate i) in *.
  change (LogicSet (set_Proto i (proto i))) with (LogicSet i) in *.
  fold (attributes_differ req i) (attributes req (proto i) i) in *.
  revert Hs. match goal with |- (?es = ∅ <-> _) -> _ => generalize es end. intros es Hs.
  destruct (updateHealthCheck_checked req i (attributes req (proto i) i)) as [H1 H2].
  destruct (updateHealthCheck req _) as [[req' i''] changed]. cbn [fst snd] in *. subst.
  split_and!; [by destruct (attributes_differ req i || check_differs req _)|done|].
  destruct (check_differs req _); [rewrite orb_true_r; split; [set_solver|done]|by rewrite orb_false_r].
Qed.

(** What the request asks for is what the instance has.  Wrappers that the
    request leaves out ask for nothing, with one exception: the location. *)
Record agrees (req p : PbInstance) : Prop := {
  ag_metadata : forall m, pMetadata req = Some m -> GetMap (pMetadata p) = m;
  ag_location : GetRegion (pLocation req) = GetRegion (pLocation p) /\ GetZone (pLocation req) = GetZone (pLocation p) /\
    GetCampus (pLocation req) = GetCampus (pLocation p);
  ag_protocol : forall v, pProtocol req = Some v -> GetValue (pProtocol p) = v;
  ag_version : forall v, pVersion req = Some v -> GetValue (pVersion p) = v;
  ag_priority : forall v, pPriority req = Some v -> GetUint (pPriority p) = v;
  ag_weight : forall v, pWeight req = Some v -> GetUint (pWeight p) = v;
  ag_healthy : forall v, pHealthy req = Some v -> GetBool (pHealthy p) = v;
  ag_isolate : forall v, pIsolate req = Some v -> GetBool (pIsolate p) = v;
  ag_logicset : forall v, pLogicSet req = Some v -> GetValue (pLogicSet p) = v;
  ag_check : wantsHealthCheck req = true ->
    GetBool (pEnableHealthCheck p) = true /\ GetTtl (pHealthCheck p) = clampTtl (GetTtl (pHealthCheck req)) /\
    GetType (pHealthCheck p) = HEARTBEAT;
  ag_unchecked : pEnableHealthCheck req = Some false -> GetBool (pEnableHealthCheck p) = false /\ pHealthCheck p = None }.

(** The request turns the health check on and says that the instance is healthy. *)
Definition vouches (req p : PbInstance) : Prop :=
  wantsHealthCheck req = true /\ GetBool (pEnableHealthCheck p) = false /\ pHealthy req = Some true.

Lemma wants_false {A} `{EqDecision A} (req : option A) old : wants req old = false <-> forall v, req = Some v -> old = v.
Proof. destruct req as [v|]; cbn; [|naive_solver]. rewrite bool_decide_eq_false. split; [intros ? ? [= <-]; by destruct (decide (v = old))|naive_solver]. Qed.

Lemma meta_false req old : instanceMetaNeedUpdate req old = false <-> forall m, req = Some m -> GetMap old = m.
Proof.
  destruct req as [m|]; cbn; [|naive_solver]. split.
  - case_decide; [|done]. rewrite orb_false_iff, !bool_decide_eq_false. intros [H1%dec_stable H2%dec_stable] ? [= <-].
    apply map_eq. intros k. apply option_eq. intros v. split; [apply H2|apply H1].
  - intros Hm. rewrite (Hm m) by done. rewrite decide_True by done. rewrite orb_false_iff, !bool_decide_eq_false.
    split; intros Hn; apply Hn; by intros k v Hkv.
Qed.

Lemma location_false req old :
  instanceLocationNeedUpdate req old = false <->
  GetRegion req = GetRegion old /\ GetZone req = GetZone old /\ GetCampus req = GetCampus old.
Proof. unfold instanceLocationNeedUpdate. rewrite negb_false_iff, !andb_true_iff, !bool_decide_eq_true. tauto. Qed.

Lemma neq_false {A} `{EqDecision A} (x y : A) {Hd : Decision (x <> y)} : bool_decide (x <> y) = false <-> x = y.
Proof. rewrite bool_decide_eq_false. split; [apply dec_stable|intros -> Hn; by apply Hn]. Qed.

Lemma check_differs_false req p :
  check_differs req p = false <->
  (wantsHealthCheck req = true ->
     GetBool (pEnableHealthCheck p) = true /\ GetTtl (pHealthCheck p) = clampTtl (GetTtl (pHealthCheck req)) /\
     GetType (pHealthCheck p) = HEARTBEAT) /\
  (pEnableHealthCheck req = Some false -> GetBool (pEnableHealthCheck p) = false /\ pHealthCheck p = None).
Proof.
  unfold check_differs. rewrite orb_false_iff, !andb_false_iff, !orb_false_iff, negb_false_iff, !neq_false, bool_decide_eq_false.
  destruct (wantsHealthCheck req), (decide (pEnableHealthCheck req = Some false)); intuition congruence.
Qed.

(** [NoNeedUpdate] is answered exactly when there is nothing to do. *)
Lemma need_false req i :
  attributes_differ req i || check_differs req (attributes req (proto i) i) = false <-> agrees req (proto i).
Proof.
  assert (check_differs req (attributes req (proto i) i) = check_differs req (proto i)) as ->.
  { unfold check_differs, attributes. through pEnableHealthCheck. through pHealthCheck. done. }
  unfold attributes_differ. rewrite !orb_false_iff, !wants_false, meta_false, location_false, check_differs_false.
  split; [intros; constructor; tauto|]. intros []. tauto.
Qed.

(** *** What is announced *)

(** The request without what it says of health and isolation. *)
Definition plain_part (req : PbInstance) : PbInstance := set_Isolate (set_Healthy req None) None.

(** An update of an instance that is [p] is announced by an event of kind [e]:
    health and isolation have kinds of their own. *)
Definition announces (req p : PbInstance) (e : string) : Prop :=
  (e = EventInstanceUpdate /\ ~ agrees (plain_part req) p) \/
  (e = EventInstanceTurnHealth /\ pHealthy req = Some true /\ GetBool (pHealthy p) = false) \/
  (e = EventInstanceTurnUnHealth /\ pHealthy req = Some false /\ GetBool (pHealthy p) = true) \/
  (e = EventInstanceOpenIsolate /\ pIsolate req = Some true /\ GetBool (pIsolate p) = false) \/
  (e = EventInstanceCloseIsolate /\ pIsolate req = Some false /\ GetBool (pIsolate p) = true).

Lemma edit_events b f ev s e : e ∈ (edit b f ev s).2 <-> (b = true /\ e = ev) \/ e ∈ s.2.
Proof. destruct s as [[i need] es], b; cbn; set_solver. Qed.

(** The kind of event for a flag. *)
Lemma wants_flag (req : option bool) (old : bool) (on off e : string) :
  (wants req old = true /\ e = if GetBool req then on else off) <->
  (e = on /\ req = Some true /\ old = false) \/ (e = off /\ req = Some false /\ old = true).
Proof. destruct req as [[]|], old; cbn; naive_solver. Qed.

Lemma plain_differs req i :
  ~ agrees (plain_part req) (proto i) <->
  (wants (pLogicSet req) (LogicSet i) || (wants (pWeight req) (Weight i) || (wants (pPriority req) (Priority i) ||
    (wants (pVersion req) (Version i) || (wants (pProtocol req) (Protocol i) ||
    (instanceLocationNeedUpdate (pLocation req) (LocationOf i) || (instanceMetaNeedUpdate (pMetadata req) (Metadata i) ||
    check_differs req (proto i)))))))) = true.
Proof.
  rewrite <- need_false, not_false_iff_true.
  assert (check_differs (plain_part req) (attributes (plain_part req) (proto i) i) = check_differs req (proto i)) as ->.
  { unfold check_differs, attributes. through pEnableHealthCheck. through pHealthCheck. done. }
  unfold attributes_differ. cbn [plain_part set_Isolate set_Healthy pLogicSet pIsolate pHealthy pWeight pPriority pVersion pProtocol pLocation pMetadata wants orb].
  rewrite !orb_false_r, <- !orb_assoc. done.
Qed.

Lemma update_events req i uuid e : e ∈ (updateInstanceAttribute req i uuid).2 <-> announces req (proto i) e.
Proof.
  unfold announces. rewrite plain_differs, !orb_true_iff. unfold updateInstanceAttribute, MallocProto. cbv zeta.
  match goal with |- context [edit ?b ?f ?ev ?s] =>
    eassert (e ∈ (edit b f ev s).2 <-> ?[D]) as Hs; [rewrite !edit_events; apply iff_refl|]
  end.
  rewrite !edit_when in *. cbn [fst snd] in Hs.
  change (Metadata (set_Proto i (proto i))) with (Metadata i) in *. change (LocationOf (set_Proto i (proto i))) with (LocationOf i) in *.
  change (Protocol (set_Proto i (proto i))) with (Protocol i) in *. change (Version (set_Proto i (proto i))) with (Version i) in *.
  change (Priority (set_Proto i (proto i))) with (Priority i) in *. change (Weight (set_Proto i (proto i))) with (Weight i) in *.
  change (Healthy (set_Proto i (proto i))) with (Healthy i) in *. change (Isolate (set_Proto i (proto i))) with (Isolate i) in *.
  change (LogicSet (set_Proto i (proto i))) with (LogicSet i) in *.
  fold (attributes_differ req i) (attributes req (proto i) i) in *.
  destruct (updateHealthCheck_checked req i (attributes req (proto i) i)) as [H1 H2].
  destruct (updateHealthCheck req _) as [[req' i''] changed]. cbn [fst snd] in *. subst.
  rewrite !wants_flag in Hs. revert Hs. match goal with |- (_ ∈ ?es <-> _) -> _ => generalize es end. intros es Hs.
  assert (check_differs req (attributes req (proto i) i) = check_differs req (proto i)) as ->.
  { unfold check_differs, attributes. through pEnableHealthCheck. through pHealthCheck. done. }
  destruct (check_differs req (proto i)); [rewrite elem_of_union, elem_of_singleton|]; rewrite Hs, elem_of_empty;
    change (GetBool (pHealthy (proto i))) with (Healthy i); change (GetBool (pIsolate (proto i))) with (Isolate i).
  - assert (true = true) by done. tauto.
  - assert (false <> true) by done. tauto.
Qed.

(** ** The update theorem *)

Lemma attributes_agree req i p :
  p = attributes req (proto i) i ->
  (forall m, pMetadata req = Some m -> GetMap (pMetadata p) = m) /\
  (GetRegion (pLocation req) = GetRegion (pLocation p) /\ GetZone (pLocation req) = GetZone (pLocation p) /\
   GetCampus (pLocation req) = GetCampus (pLocation p)) /\
  (forall v, pProtocol req = Some v -> GetValue (pProtocol p) = v) /\
  (forall v, pVersion req = Some v -> GetValue (pVersion p) = v) /\
  (forall v, pPriority req = Some v -> GetUint (pPriority p) = v) /\
  (forall v, pWeight req = Some v -> GetUint (pWeight p) = v) /\
  (forall v, pHealthy req = Some v -> GetBool (pHealthy p) = v) /\
  (forall v, pIsolate req = Some v -> GetBool (pIsolate p) = v) /\
  (forall v, pLogicSet req = Some v -> GetValue (pLogicSet p) = v).
Proof.
  intros ->. unfold attributes.
  through pMetadata. through pLocation. through pProtocol. through pVersion. through pPriority. through pWeight.
  through pHealthy. through pIsolate. through pLogicSet.
  assert (forall A (Heq : EqDecision A) (get : option A -> A) (req old : option A) (v : A),
    (forall v, get (Some v) = v) -> req = Some v -> get (if wants req (get old) then req else old) = v) as Hw.
  { intros A ? g rq old v Hg ->. destruct (wants _ _) eqn:Hwants; [apply Hg|]. by apply (proj1 (wants_false (Some v) (g old)) Hwants). }
  split_and!; try (intros v Hv; by first [apply (Hw _ _ GetValue) | apply (Hw _ _ GetUint) | apply (Hw _ _ GetBool)]).
  { intros m Hm. destruct (instanceMetaNeedUpdate _ _) eqn:Hn; [by rewrite Hm|]. by apply (proj1 (meta_false _ _) Hn). }
  all: destruct (instanceLocationNeedUpdate _ _) eqn:Hn; [done|]; by destruct (proj1 (location_false _ _) Hn) as (? & ? & ?).
Qed.

Lemma checked_wrapped req p : typed req -> wrapped p -> wrapped (checked req p).
Proof.
  intros Ht Hp. pose proof (w_check p Hp) as Hok. unfold checked.
  destruct (wantsHealthCheck req) eqn:Hw; cbn [andb].
  - rewrite (bool_decide_false (pEnableHealthCheck req = Some false)) by by apply wantsHealthCheck_spec. cbn [when].
    pose proof (clampTtl_range _ Ht). split; destruct (GetBool (pEnableHealthCheck p)) eqn:He; cbn; try apply Hp; try by eexists.
    + unfold check_ok. cbn [pHealthCheck pEnableHealthCheck set_HealthCheck]. split_and!; [|done|by eexists].
      destruct (pEnableHealthCheck p) as [[]|]; done.
    + unfold check_ok. cbn. split_and!; [done..|by eexists].
  - destruct (decide (pEnableHealthCheck req = Some false)).
    + rewrite bool_decide_true by done. split; cbn; try apply Hp. done.
    + by rewrite bool_decide_false.
Qed.

Lemma attributes_wrapped req i : wrapped (proto i) -> wrapped (attributes req (proto i) i).
Proof.
  intros Hp. unfold attributes. split.
  - through pHealthy. destruct (wants (pHealthy req) (Healthy i)) eqn:Hw; [|apply Hp]. destruct (pHealthy req); [by eexists|done].
  - through pIsolate. destruct (wants (pIsolate req) (Isolate i)) eqn:Hw; [|apply Hp]. destruct (pIsolate req); [by eexists|done].
  - through pWeight. destruct (wants (pWeight req) (Weight i)) eqn:Hw; [|apply Hp]. destruct (pWeight req); [by eexists|done].
  - through pRevision. apply Hp.
  - unfold check_ok. through pHealthCheck. through pEnableHealthCheck. apply Hp.
Qed.

Lemma checked_agrees req p :
  let q := checked req p in
  (wantsHealthCheck req = true ->
     GetBool (pEnableHealthCheck q) = true /\ GetTtl (pHealthCheck q) = clampTtl (GetTtl (pHealthCheck req)) /\
     GetType (pHealthCheck q) = HEARTBEAT) /\
  (pEnableHealthCheck req = Some false -> GetBool (pEnableHealthCheck q) = false /\ pHealthCheck q = None) /\
  (pHealthy q = pHealthy p \/ wantsHealthCheck req = true /\ GetBool (pEnableHealthCheck p) = false /\ pHealthy q = Some false).
Proof.
  cbv zeta. unfold checked. split_and!.
  - intros Hw. rewrite (bool_decide_false (pEnableHealthCheck req = Some false)) by by apply wantsHealthCheck_spec. rewrite Hw.
    cbn [when andb]. by destruct (GetBool (pEnableHealthCheck p)) eqn:He.
  - intros He. by rewrite bool_decide_true.
  - destruct (wantsHealthCheck req), (GetBool (pEnableHealthCheck p)), (bool_decide (pEnableHealthCheck req = Some false)); cbn; auto.
Qed.

(** Nothing an update can say touches who the instance is. *)
Definition identity (i : Instance) :=
  (pId (proto i), pService (proto i), pNamespace (proto i), pVpcId (proto i), pHost (proto i), pPort (proto i),
   ServiceID i, ServicePlatformID i, Valid i).

Lemma identity_kept req i p uuid need :
  p = attributes req (proto i) i ->
  identity (set_Proto i (when need (fun p => set_Revision p uuid) (checked req p))) = identity i.
Proof.
  intros ->. unfold identity, checked, attributes. cbn [proto Proto set_Proto default from_option id ServiceID ServicePlatformID Valid].
  through pId. through pService. through pNamespace. through pVpcId. through pHost. through pPort. done.
Qed.

(** An update leaves a well-formed instance well formed and who it is; it
    answers that there is nothing to do, and has no events to announce, exactly
    when the instance already has everything the request asks for; otherwise the
    revision is new.  Afterwards the instance has what the request asks for, so
    that repeating the request does nothing - unless the request both turns the
    health check on and claims that the instance is healthy. *)
Theorem update_settles req i uuid :
  typed req -> well_formed i ->
  let '(req', i', need, events) := updateInstanceAttribute req i uuid in
  well_formed i' /\ identity i' = identity i /\
  (need = false <-> agrees req (proto i)) /\ (events = ∅ <-> need = false) /\ (need = true -> Revision i' = uuid) /\
  (~ vouches req (proto i) -> agrees req (proto i')).
Proof.
  intros Ht (p0 & Hp0 & Hw). pose proof (update_eq req i uuid) as Hup. cbv zeta in Hup.
  pose proof (need_false req i) as Hneed.
  set (p := attributes req (proto i) i) in *. set (need := attributes_differ req i || check_differs req p) in *.
  destruct (updateInstanceAttribute req i uuid) as [[[req' i'] need'] events]. destruct Hup as (-> & -> & Hev).
  assert (proto i = p0) as Hi by (unfold proto; by rewrite Hp0).
  assert (wrapped p) as Hwp by (apply attributes_wrapped; by rewrite Hi).
  pose proof (checked_wrapped req p Ht Hwp) as Hwc. pose proof (checked_agrees req p) as (Hc1 & Hc2 & Hh).
  pose proof (attributes_agree req i p eq_refl) as (A1 & A2 & A3 & A4 & A5 & A6 & A7 & A8 & A9).
  set (q := checked req p) in *.
  assert (forall A (g : PbInstance -> A), (forall x, g (set_Revision x (Some uuid)) = g x) ->
    g (proto (set_Proto i (when need (fun p => set_Revision p (Some uuid)) q))) = g q) as Hg.
  { intros A g Hx. unfold proto. cbn [Proto set_Proto default from_option id]. by rewrite (when_other g). }
  refine (conj _ (conj _ (conj Hneed (conj Hev (conj _ _))))).
  - eexists. split; [done|]. destruct need; [|done]. split; try apply Hwc. by eexists.
  - by apply identity_kept.
  - intros ->. done.
  - intros Hv.
    assert (forall A (g : PbInstance -> A), (forall b x, g (when b (fun p => set_HealthCheck (set_EnableHealthCheck p (Some false)) None) x) = g x) ->
      (forall b x c, g (when b (fun p => set_HealthCheck p c) x) = g x) ->
      (forall b x, g (when b (fun p => set_EnableHealthCheck (set_Healthy p (Some false)) (Some true)) x) = g x) -> g q = g p) as Hq.
    { intros A g H1 H2 H3. unfold q, checked. by rewrite H1, H2, H3. }
    assert (pHealthy q = pHealthy p \/ pHealthy q = Some false /\ pHealthy req <> Some true) as Hhealthy.
    { destruct Hh as [?|(H1 & H2 & H3)]; [by left|right]. split; [done|]. intros H4. apply Hv. split_and!; [done| |done].
      revert H2. unfold p, attributes. by through pEnableHealthCheck. }
    split; rewrite ?Hg by done;
      try (rewrite Hq by (intros []; done); done).
    + intros v Hreq. destruct Hhealthy as [->|[-> Hn]]; [by apply A7|]. by destruct v.
    + done.
    + done.
Qed.

(** Unlike every other attribute, a location that the request leaves out is
    erased. *)
Theorem update_without_location_erases req i uuid :
  pLocation req = None -> isEmptyLocation (LocationOf i) = false ->
  let '(_, i', need, _) := updateInstanceAttribute req i uuid in need = true /\ LocationOf i' = None.
Proof.
  intros Hl He. pose proof (update_eq req i uuid) as Hup. cbv zeta in Hup.
  destruct (updateInstanceAttribute req i uuid) as [[[req' i'] need] events]. destruct Hup as (-> & -> & _).
  assert (instanceLocationNeedUpdate (pLocation req) (LocationOf i) = true) as Hd.
  { apply not_false_is_true. intros Hf%location_false. rewrite Hl in Hf. cbn in Hf. revert He. unfold isEmptyLocation.
    destruct Hf as (<- & <- & <-). done. }
  split.
  - unfold attributes_differ. by rewrite Hd, !orb_true_r.
  - unfold LocationOf, proto. cbn [Proto set_Proto default from_option id].
    rewrite (when_other pLocation) by done. unfold checked, attributes. through pLocation.
    fold (LocationOf i). by rewrite Hd.
Qed.
