(* ===== verification/Services.v ===== *)
(** * Services and their aliases ([src/common/model/naming.go], [src/service/service.go], [service_alias.go])

    A service as the API sends it ([PbService], the protobuf message
    [apiservice.Service]) and as the store keeps it ([ServiceModel], the struct
    [model.Service]); an alias is a service with a reference.  The checks a request
    passes, how it becomes a row and how an update changes one. *)

From S2P Require Import Prelude GoStrings Utils Registry.
From Stdlib Require Import ZArith Lia.
From stdpp Require Import base tactics list gmap strings.

Open Scope Z_scope.

(** ** Data *)

Record PbService := mkPbService {
  sId : option string;
  sName : option string;
  sNamespace : option string;
  sMetadata : option (gmap string string);
  sPorts : option string;
  sBusiness : option string;
  sDepartment : option string;
  sCmdbMod1 : option string;
  sCmdbMod2 : option string;
  sCmdbMod3 : option string;
  sComment : option string;
  sOwners : option string;
  sToken : option string;
  sRevision : option string;
  sPlatformId : option string }.

Definition set_sId (s : PbService) v := mkPbService v (sName s) (sNamespace s) (sMetadata s) (sPorts s) (sBusiness s) (sDepartment s)
  (sCmdbMod1 s) (sCmdbMod2 s) (sCmdbMod3 s) (sComment s) (sOwners s) (sToken s) (sRevision s) (sPlatformId s).
Definition nilService : PbService :=
  mkPbService None None None None None None None None None None None None None None None.

Record ServiceModel := mkService {
  svcID : string;
  svcName : string;
  svcNamespace : string;
  svcBusiness : string;
  svcPorts : string;
  svcMeta : option (gmap string string);
  svcComment : string;
  svcDepartment : string;
  svcCmdbMod1 : string;
  svcCmdbMod2 : string;
  svcCmdbMod3 : string;
  svcToken : string;
  svcOwner : string;
  svcRevision : string;
  svcReference : string;
  svcPlatformID : string;
  svcValid : bool;
  svcCreateTime : Z;
  svcModifyTime : Z }.
#[export] Instance ServiceModel_eq_dec : EqDecision ServiceModel.
Proof. solve_decision. Defined.

Definition IsAlias (s : ServiceModel) : bool := bool_decide (svcReference s <> "").

(** [apiservice.ServiceAlias]. *)
Inductive AliasType := AliasDefault | AliasCL5SID.
Record PbAlias := mkPbAlias {
  aService : option string;
  aNamespace : option string;
  aAlias : option string;
  aAliasNamespace : option string;
  aType : AliasType;
  aOwners : option string;
  aComment : option string;
  aServiceToken : option string }.

(** ** Checks of requests *)

Definition MaxDbServicePortsLength : Z := 8192.
Definition MaxDbServiceBusinessLength : Z := 128.
Definition MaxDbServiceDeptLength : Z := 1024.
Definition MaxDbServiceCMDBLength : Z := 1024.
Definition MaxDbServiceCommentLength : Z := 1024.
Definition MaxDbServiceOwnerLength : Z := 1024.
Definition MaxDbServiceToken : Z := 2048.
Definition MaxPlatformIDLength : Z := 32.

Definition CheckDbServiceFieldLen (req : PbService) : option Code :=
  first_failure [
    (failed (CheckDbStrFieldLen (sName req) MaxDbServiceNameLength), InvalidServiceName);
    (failed (CheckDbStrFieldLen (sNamespace req) MaxDbServiceNamespaceLength), InvalidNamespaceName);
    (failed (CheckDbMetaDataFieldLen (GetMap (sMetadata req))), InvalidMetadata);
    (failed (CheckDbStrFieldLen (sPorts req) MaxDbServicePortsLength), InvalidServicePorts);
    (failed (CheckDbStrFieldLen (sBusiness req) MaxDbServiceBusinessLength), InvalidServiceBusiness);
    (failed (CheckDbStrFieldLen (sDepartment req) MaxDbServiceDeptLength), InvalidServiceDepartment);
    (failed (CheckDbStrFieldLen (sCmdbMod1 req) MaxDbServiceCMDBLength), InvalidServiceCMDB);
    (failed (CheckDbStrFieldLen (sCmdbMod2 req) MaxDbServiceCMDBLength), InvalidServiceCMDB);
    (failed (CheckDbStrFieldLen (sCmdbMod3 req) MaxDbServiceCMDBLength), InvalidServiceCMDB);
    (failed (CheckDbStrFieldLen (sComment req) MaxDbServiceCommentLength), InvalidServiceComment);
    (failed (CheckDbStrFieldLen (sOwners req) MaxDbServiceOwnerLength), InvalidServiceOwners);
    (failed (CheckDbStrFieldLen (sToken req) MaxDbServiceToken), InvalidServiceToken);
    (failed (CheckDbStrFieldLen (sPlatformId req) MaxPlatformIDLength), InvalidPlatformID)].

Definition or_else (a b : option Code) : option Code := match a with Some code => Some code | None => b end.

(** [checkCreateService] and [checkReviseService]; a nil request is empty. *)
Definition checkCreateService (req : option PbService) : option Code :=
  match req with
  | None => Some EmptyRequest
  | Some req => or_else (first_failure [
      (failed (CheckResourceName (sName req)), InvalidServiceName);
      (failed (CheckResourceName (sNamespace req)), InvalidNamespaceName);
      (failed (checkMetadata (sMetadata req)), InvalidMetadata)]) (CheckDbServiceFieldLen req)
  end.

Definition checkReviseService (req : option PbService) : option Code :=
  match req with
  | None => Some EmptyRequest
  | Some req => or_else (first_failure [
      (failed (CheckResourceName (sName req)), InvalidServiceName);
      (failed (CheckResourceName (sNamespace req)), InvalidNamespaceName)]) (CheckDbServiceFieldLen req)
  end.

Definition checkBatchService {A} (reqs : list A) : option Code :=
  if decide (reqs = []) then Some EmptyRequest
  else if decide (MaxBatchSize < Z.of_nat (length reqs)) then Some BatchSizeOverLimit else None.

Definition CheckDbServiceAliasFieldLen (req : PbAlias) : option Code :=
  first_failure [
    (failed (CheckDbStrFieldLen (aService req) MaxDbServiceNameLength), InvalidServiceName);
    (failed (CheckDbStrFieldLen (aNamespace req) MaxDbServiceNamespaceLength), InvalidNamespaceName);
    (failed (CheckDbStrFieldLen (aAlias req) MaxDbServiceNameLength), InvalidServiceAlias);
    (failed (CheckDbStrFieldLen (aAliasNamespace req) MaxDbServiceNamespaceLength), InvalidNamespaceWithAlias);
    (failed (CheckDbStrFieldLen (aComment req) MaxDbServiceCommentLength), InvalidServiceAliasComment);
    (failed (CheckDbStrFieldLen (aOwners req) MaxDbServiceOwnerLength), InvalidServiceAliasOwners)].

Definition preCheckAlias (req : PbAlias) : option Code :=
  first_failure [
    (failed (CheckResourceName (aService req)), InvalidServiceName);
    (failed (CheckResourceName (aNamespace req)), InvalidNamespaceName);
    (failed (CheckResourceName (aAliasNamespace req)), InvalidNamespaceWithAlias);
    (match aType req with AliasDefault => failed (CheckResourceName (aAlias req)) | AliasCL5SID => false end, InvalidServiceAlias)].

Definition checkCreateServiceAliasReq (req : option PbAlias) : option Code :=
  match req with None => Some EmptyRequest | Some req => or_else (preCheckAlias req) (CheckDbServiceAliasFieldLen req) end.

Definition checkDeleteServiceAliasReq (req : option PbAlias) : option Code :=
  match req with
  | None => Some EmptyRequest
  | Some req =>
      or_else (first_failure [
        (failed (CheckResourceName (aAlias req)), InvalidServiceAlias);
        (failed (CheckResourceName (aAliasNamespace req)), InvalidNamespaceWithAlias)]) (CheckDbServiceAliasFieldLen req)
  end.

Definition checkReviseServiceAliasReq (req : option PbAlias) : option Code :=
  or_else (checkDeleteServiceAliasReq req)
    match req with
    | None => None
    | Some req => first_failure [
        (failed (CheckResourceName (aService req)), InvalidServiceName);
        (failed (CheckResourceName (aNamespace req)), InvalidNamespaceName)]
    end.

(** *** What the checks let through *)

(** Names without wildcards, as the checks of the API leave them. *)
Definition plain (name : string) : Prop := name <> "" /\ IsWildName name = false.

Lemma checked_plain o : CheckResourceName o = None -> plain (GetValue o).
Proof.
  intros Hc. destruct (CheckResourceName_None o Hc) as (s & Hs & Hne & _). split; [by subst|].
  apply (CheckResourceName_plain o star) in Hc; [|done]. subst o. cbn in *. unfold IsWildName, IsPrefixWildName, IsSuffixWildName.
  apply orb_false_iff. split; apply not_true_is_false.
  - intros [t ->]%HasSuffix_spec. rewrite occurs_app in Hc. by apply orb_false_iff in Hc as [_ Hc].
  - intros [t ->]%HasPrefix_spec. done.
Qed.

Lemma first_failure_None l : first_failure l = None -> Forall (fun c => c.1 = false) l.
Proof. induction l as [|[[] code] l IH]; cbn; [intros _; constructor|done|]. intros Hl. constructor; [done|by apply IH]. Qed.

Lemma or_else_None a b : or_else a b = None -> a = None /\ b = None.
Proof. by destruct a. Qed.

Lemma failed_None e : failed e = false -> e = None.
Proof. unfold failed. rewrite bool_decide_eq_false. destruct e; [intros []; done|done]. Qed.

(** What the checks let through has plain names. *)
Definition plain_service (req : PbService) : Prop := plain (GetValue (sName req)) /\ plain (GetValue (sNamespace req)).

Lemma checkCreateService_plain req : checkCreateService (Some req) = None -> plain_service req.
Proof.
  intros [H _]%or_else_None. apply first_failure_None in H. rewrite !Forall_cons in H. destruct H as (H1 & H2 & _).
  split; apply checked_plain; by apply failed_None.
Qed.

Lemma checkReviseService_plain req : checkReviseService (Some req) = None -> plain_service req.
Proof.
  intros [H _]%or_else_None. apply first_failure_None in H. rewrite !Forall_cons in H. destruct H as (H1 & H2 & _).
  split; apply checked_plain; by apply failed_None.
Qed.

(** No check fails with success. *)
Lemma first_failure_code l code : Forall (fun c => c.2 <> ExecuteSuccess /\ c.2 <> ExistedResource) l -> first_failure l = Some code ->
  code <> ExecuteSuccess /\ code <> ExistedResource.
Proof. induction 1 as [|[[] c] l Hc _ IH]; cbn; [done|by intros [= <-]|done]. Qed.

Lemma CheckDbServiceFieldLen_code req code : CheckDbServiceFieldLen req = Some code -> code <> ExecuteSuccess /\ code <> ExistedResource.
Proof. apply first_failure_code. repeat constructor; done. Qed.

Lemma or_else_code a b code (P : Code -> Prop) : (forall c, a = Some c -> P c) -> (forall c, b = Some c -> P c) -> or_else a b = Some code -> P code.
Proof. destruct a; naive_solver. Qed.

Lemma checkCreateService_code req code : checkCreateService req = Some code -> code <> ExecuteSuccess /\ code <> ExistedResource.
Proof.
  destruct req as [req|]; [|by intros [= <-]]. unfold checkCreateService.
  apply (or_else_code _ _ _ (fun c => c <> ExecuteSuccess /\ c <> ExistedResource)).
  - intros c. apply first_failure_code. repeat constructor; done.
  - apply CheckDbServiceFieldLen_code.
Qed.

Lemma checkReviseService_code req code : checkReviseService req = Some code -> code <> ExecuteSuccess /\ code <> ExistedResource.
Proof.
  destruct req as [req|]; [|by intros [= <-]]. unfold checkReviseService.
  apply (or_else_code _ _ _ (fun c => c <> ExecuteSuccess /\ c <> ExistedResource)).
  - intros c. apply first_failure_code. repeat constructor; done.
  - apply CheckDbServiceFieldLen_code.
Qed.

Definition names_plain (req : PbAlias) : Prop := plain (GetValue (aAlias req)) /\ plain (GetValue (aAliasNamespace req)).

Lemma checkDeleteServiceAliasReq_plain req : checkDeleteServiceAliasReq (Some req) = None -> names_plain req.
Proof.
  intros [H _]%or_else_None. apply first_failure_None in H. rewrite !Forall_cons in H. destruct H as (H1 & H2 & _).
  split; apply checked_plain; by apply failed_None.
Qed.

Lemma CheckDbServiceAliasFieldLen_code req code : CheckDbServiceAliasFieldLen req = Some code -> code <> ExecuteSuccess /\ code <> ExistedResource.
Proof. apply first_failure_code. repeat constructor; done. Qed.

Lemma checkDeleteServiceAliasReq_code req code : checkDeleteServiceAliasReq req = Some code -> code <> ExecuteSuccess /\ code <> ExistedResource.
Proof.
  destruct req as [req|]; [|by intros [= <-]]. unfold checkDeleteServiceAliasReq.
  apply (or_else_code _ _ _ (fun c => c <> ExecuteSuccess /\ c <> ExistedResource)).
  - intros c. apply first_failure_code. repeat constructor; done.
  - apply CheckDbServiceAliasFieldLen_code.
Qed.

Lemma checkReviseServiceAliasReq_plain req : checkReviseServiceAliasReq (Some req) = None ->
  names_plain req /\ plain (GetValue (aService req)) /\ plain (GetValue (aNamespace req)).
Proof.
  intros [H1 H]%or_else_None. split; [by apply checkDeleteServiceAliasReq_plain|]. apply first_failure_None in H.
  rewrite !Forall_cons in H. destruct H as (H2 & H3 & _). split; apply checked_plain; by apply failed_None.
Qed.

Lemma checkReviseServiceAliasReq_code req code : checkReviseServiceAliasReq req = Some code -> code <> ExecuteSuccess /\ code <> ExistedResource.
Proof.
  unfold checkReviseServiceAliasReq. apply (or_else_code _ _ _ (fun c => c <> ExecuteSuccess /\ c <> ExistedResource)).
  - apply checkDeleteServiceAliasReq_code.
  - destruct req as [req|]; [|done]. intros c. apply first_failure_code. repeat constructor; done.
Qed.

Lemma checkCreateServiceAliasReq_plain req : checkCreateServiceAliasReq (Some req) = None ->
  plain (GetValue (aService req)) /\ plain (GetValue (aNamespace req)) /\ plain (GetValue (aAliasNamespace req)) /\
  (aType req = AliasDefault -> plain (GetValue (aAlias req))).
Proof.
  intros [H _]%or_else_None. apply first_failure_None in H. rewrite !Forall_cons in H. destruct H as (H1 & H2 & H3 & H4 & _).
  cbn [fst] in H4. split_and!; try (apply checked_plain; by apply failed_None). intros Ht. rewrite Ht in H4. apply checked_plain; by apply failed_None.
Qed.

Lemma checkCreateServiceAliasReq_code req code : checkCreateServiceAliasReq req = Some code -> code <> ExecuteSuccess /\ code <> ExistedResource.
Proof.
  destruct req as [req|]; [|by intros [= <-]]. unfold checkCreateServiceAliasReq.
  apply (or_else_code _ _ _ (fun c => c <> ExecuteSuccess /\ c <> ExistedResource)).
  - intros c. apply first_failure_code. repeat constructor; done.
  - apply CheckDbServiceAliasFieldLen_code.
Qed.

(** ** Rows *)

(** The three arguments are fresh: the id, the token and the revision. *)
Definition createServiceModel (uuid : nat -> string) (req : PbService) : ServiceModel :=
  mkService (uuid 0%nat) (GetValue (sName req)) (GetValue (sNamespace req)) (GetValue (sBusiness req)) (GetValue (sPorts req))
    (sMetadata req) (GetValue (sComment req)) (GetValue (sDepartment req)) (GetValue (sCmdbMod1 req)) (GetValue (sCmdbMod2 req))
    (GetValue (sCmdbMod3 req)) (uuid 1%nat) (GetValue (sOwners req)) (uuid 2%nat) "" (GetValue (sPlatformId req)) false 0 0.

Definition createAliasModel (uuid : nat -> string) (req : PbAlias) (name svcId : string) : ServiceModel :=
  mkService (uuid 0%nat) name (GetValue (aAliasNamespace req)) "" "" None (GetValue (aComment req)) "" "" "" "" (uuid 1%nat)
    (GetValue (aOwners req)) (uuid 2%nat) svcId "" false 0 0.

(** [serviceMetaNeedUpdate] is the comparison of instances' metadata. *)
Definition serviceMetaNeedUpdate (req : PbService) (service : ServiceModel) : bool :=
  instanceMetaNeedUpdate (sMetadata req) (svcMeta service).

Definition differs (req : option string) (old : string) : bool :=
  match req with None => false | Some v => bool_decide (v <> old) end.

(** The metadata of a service whose metadata does not change is cleared in the
    row handed to the store.  The answer: the row, whether to update, and whether
    the owner changes; [None] when the metadata is refused. *)
Definition updateServiceAttribute (uuid : string) (req : PbService) (s : ServiceModel) : option (ServiceModel * bool * bool) :=
  if failed (checkMetadata (sMetadata req)) then None
  else
    let meta := serviceMetaNeedUpdate req s in
    let owner := differs (sOwners req) (svcOwner s) in
    let other := differs (sPorts req) (svcPorts s) || differs (sBusiness req) (svcBusiness s) ||
      differs (sDepartment req) (svcDepartment s) || differs (sCmdbMod1 req) (svcCmdbMod1 s) ||
      differs (sCmdbMod2 req) (svcCmdbMod2 s) || differs (sCmdbMod3 req) (svcCmdbMod3 s) ||
      differs (sComment req) (svcComment s) || differs (sPlatformId req) (svcPlatformID s) in
    let take (req : option string) (old : string) := default old req in
    Some (mkService (svcID s) (svcName s) (svcNamespace s) (take (sBusiness req) (svcBusiness s)) (take (sPorts req) (svcPorts s))
            (if meta then sMetadata req else None) (take (sComment req) (svcComment s)) (take (sDepartment req) (svcDepartment s))
            (take (sCmdbMod1 req) (svcCmdbMod1 s)) (take (sCmdbMod2 req) (svcCmdbMod2 s)) (take (sCmdbMod3 req) (svcCmdbMod3 s))
            (svcToken s) (take (sOwners req) (svcOwner s)) (if meta then uuid else svcRevision s) (svcReference s)
            (take (sPlatformId req) (svcPlatformID s)) (svcValid s) (svcCreateTime s) (svcModifyTime s),
          meta || other || owner, owner).

(** [service] is the one the alias refers to now, [serviceID] the one it shall. *)
Definition updateServiceAliasAttribute (uuid : string) (req : PbAlias) (alias : ServiceModel) (service : ServiceModel) (serviceID : string)
    : ServiceModel * bool * bool :=
  let point := bool_decide (svcID service <> serviceID) in
  let owner := bool_decide (GetValue (aOwners req) <> "" /\ GetValue (aOwners req) <> svcOwner alias) in
  let comment := differs (aComment req) (svcComment alias) in
  let needUpdate := point || owner || comment in
  (mkService (svcID alias) (svcName alias) (svcNamespace alias) (svcBusiness alias) (svcPorts alias) (svcMeta alias)
     (if comment then GetValue (aComment req) else svcComment alias) (svcDepartment alias) (svcCmdbMod1 alias) (svcCmdbMod2 alias)
     (svcCmdbMod3 alias) (svcToken alias) (if owner then GetValue (aOwners req) else svcOwner alias)
     (if needUpdate then uuid else svcRevision alias) (if point then serviceID else svcReference alias) (svcPlatformID alias)
     (svcValid alias) (svcCreateTime alias) (svcModifyTime alias), needUpdate, owner).

Definition set_token (s : ServiceModel) (token revision : string) : ServiceModel :=
  mkService (svcID s) (svcName s) (svcNamespace s) (svcBusiness s) (svcPorts s) (svcMeta s) (svcComment s) (svcDepartment s)
    (svcCmdbMod1 s) (svcCmdbMod2 s) (svcCmdbMod3 s) token (svcOwner s) revision (svcReference s) (svcPlatformID s) (svcValid s)
    (svcCreateTime s) (svcModifyTime s).

(** [Namespace2SidLayoutID]. *)
Definition Namespace2SidLayoutID : gmap string Z :=
  list_to_map [("Production", 1); ("Development", 2); ("Pre-release", 3); ("Test", 4); ("Polaris", 5); ("default", 6)].
