(* ===== verification/Namespace.v ===== *)
(** * Namespaces ([src/common/model/naming.go])

    A namespace as the API sends it and as the store keeps it. *)

From S2P Require Import Prelude GoStrings Utils.
From Stdlib Require Import ZArith Lia.
From stdpp Require Import base tactics list gmap strings.

Open Scope Z_scope.

(** The fields of [apimodel.Namespace] that the handlers read or fill in. *)
Record PbNamespace := mkPbNamespace {
  nName : option string;
  nComment : option string;
  nOwners : option string;
  nToken : option string }.

Record NamespaceModel := mkNamespace {
  nsName : string;
  nsComment : string;
  nsToken : string;
  nsOwner : string;
  nsValid : bool;
  nsCreateTime : Z;
  nsModifyTime : Z }.
#[export] Instance NamespaceModel_eq_dec : EqDecision NamespaceModel.
Proof. solve_decision. Defined.

(** [checkCreateNamespace] and [checkReviseNamespace]. *)
Definition checkNamespace (req : option PbNamespace) : option Code :=
  match req with
  | None => Some EmptyRequest
  | Some req => match CheckResourceName (nName req) with Some _ => Some InvalidNamespaceName | None => None end
  end.

Definition createNamespaceModel (uuid : string) (req : PbNamespace) : NamespaceModel :=
  mkNamespace (GetValue (nName req)) (GetValue (nComment req)) uuid (GetValue (nOwners req)) false 0 0.

Definition updateNamespaceAttribute (req : PbNamespace) (ns : NamespaceModel) : NamespaceModel :=
  mkNamespace (nsName ns) (default (nsComment ns) (nComment req)) (nsToken ns) (default (nsOwner ns) (nOwners req)) (nsValid ns)
    (nsCreateTime ns) (nsModifyTime ns).
