(* ===== verification/InstanceStore.v ===== *)
(** * What the naming server asks of a store ([src/store/discover_api.go], [src/store/status.go])

    [InstanceStorage] is the part of the store's interface that the instance
    handlers use; a world is whatever state the store keeps.  The code hands
    instances over by pointer, and the store stamps them: such an operation
    answers the instance as it leaves it.

    [InstanceStorageLaws] is what the handlers rely on: a store holds rows by
    id, and [stored] is what the rows say apart from their time stamps; an
    operation that fails changes at most the rows it is about.  [BoltStore.v] is
    an implementation. *)

From S2P Require Import Prelude Effects GoStrings Utils Registry Services Namespace.
From Stdlib Require Import ZArith Lia.
From stdpp Require Import base tactics list gmap strings.

Open Scope Z_scope.

(** ** Errors *)

Inductive StatusCode :=
| EmptyParamsErr | OutOfRangeErr | DataConflictErr | NotFoundNamespaceErr | NotFoundServiceErr | NotFoundMasterConfigErr
| NotFoundTagConfigOrServiceErr | ExistReleasedConfigErr | AffectedRowsNotMatch | DuplicateEntryErr | ForeignKeyErr
| DeadlockErr | Unknown.

Definition StoreCode2APICode (err : StatusCode) : Code :=
  match err with
  | EmptyParamsErr | OutOfRangeErr => InvalidParameter
  | DataConflictErr => DataConflict
  | NotFoundNamespaceErr => NotFoundNamespace
  | NotFoundServiceErr => NotFoundService
  | NotFoundMasterConfigErr => NotFoundMasterConfig
  | NotFoundTagConfigOrServiceErr => NotFoundTagConfigOrService
  | ExistReleasedConfigErr => ExistReleasedConfig
  | DuplicateEntryErr => ExistedResource
  | AffectedRowsNotMatch | ForeignKeyErr | DeadlockErr | Unknown => StoreLayerException
  end.

(** [store.InstanceMetadataRequest]. *)
Record InstanceMetadataRequest := mkMetaReq {
  mrInstanceID : string;
  mrRevision : string;
  mrKeys : list string;
  mrMetadata : gmap string string }.

(** ** The interface *)

Class InstanceStorage (W : Type) := {
  AddInstance : Instance -> call W StatusCode Instance;
  BatchAddInstances : list Instance -> call W StatusCode (list Instance);
  UpdateInstance : Instance -> call W StatusCode Instance;
  DeleteInstance : string -> call W StatusCode unit;
  BatchDeleteInstances : list string -> call W StatusCode unit;
  BatchGetInstanceIsolate : gset string -> call W StatusCode (gmap string bool);
  GetInstancesBrief : gset string -> call W StatusCode (gmap string Instance);
  GetInstance : string -> call W StatusCode (option Instance);
  (** [None] is the nil slice. *)
  GetInstancesMainByService : string -> string -> call W StatusCode (option (list Instance));
  BatchSetInstanceHealthStatus : list string -> Z -> string -> call W StatusCode unit;
  BatchSetInstanceIsolate : list string -> Z -> string -> call W StatusCode unit;
  BatchAppendInstanceMetadata : list InstanceMetadataRequest -> call W StatusCode unit;
  BatchRemoveInstanceMetadata : list InstanceMetadataRequest -> call W StatusCode unit;
  GetServiceByID : string -> call W StatusCode (option ServiceModel);
  GetService : string -> string -> call W StatusCode (option ServiceModel);
  GetSourceServiceToken : string -> string -> call W StatusCode (option ServiceModel) }.

(** A row apart from its time stamps. *)
Definition unstamped (p : PbInstance) : PbInstance := set_Mtime (set_Ctime p None) None.
Definition content (i : Instance) : PbInstance * string := (unstamped (proto i), ServiceID i).

(** Two tables that differ at most at some keys. *)
Definition same_off {A} (ids : gset string) (m m' : gmap string A) : Prop := forall k, k ∉ ids -> m' !! k = m !! k.

#[export] Instance same_off_refl {A} ids : Reflexive (@same_off A ids).
Proof. by intros m k. Qed.
#[export] Instance same_off_trans {A} ids : Transitive (@same_off A ids).
Proof. intros m1 m2 m3 H1 H2 k Hk. by rewrite H2, H1. Qed.
Lemma same_off_mono {A} ids ids' (m m' : gmap string A) : ids ⊆ ids' -> same_off ids m m' -> same_off ids' m m'.
Proof. intros Hs H k Hk. apply H. set_solver. Qed.

(** The rows a batch adds, the last of equal ids winning. *)
Definition insert_all (l : list Instance) (m : gmap string (PbInstance * string)) : gmap string (PbInstance * string) :=
  foldl (fun m i => <[ID i := content i]> m) m l.

Lemma insert_all_lookup l m k :
  insert_all l m !! k = match list_find (fun i => ID i = k) (reverse l) with Some (_, i) => Some (content i) | None => m !! k end.
Proof.
  unfold insert_all. induction l as [|i l IH] using rev_ind; [done|].
  rewrite foldl_snoc, reverse_snoc. cbn [list_find]. case_decide as Hi; [subst; by rewrite lookup_insert_eq|].
  rewrite lookup_insert_ne, IH by done. by destruct (list_find _ _) as [[]|].
Qed.

Lemma insert_all_same l m m' : same_off (list_to_set (ID <$> l)) m m' -> insert_all l m' = insert_all l m.
Proof.
  intros Hs. apply map_eq. intros k. rewrite !insert_all_lookup.
  destruct (list_find _ _) as [[]|] eqn:Hf; [done|]. apply Hs. rewrite elem_of_list_to_set, list_elem_of_fmap.
  intros (i & -> & Hi). apply list_find_None in Hf. rewrite Forall_forall in Hf. apply (Hf i); [by apply elem_of_reverse|done].
Qed.

Lemma insert_all_fmap (f : Instance -> Instance) l m :
  Forall (fun i => content (f i) = content i /\ ID (f i) = ID i) l -> insert_all (f <$> l) m = insert_all l m.
Proof.
  unfold insert_all. intros Hl. revert m. induction Hl as [|i l [Hc Hi] _ IH]; intros m; [done|]. cbn [fmap list_fmap foldl].
  by rewrite Hc, Hi.
Qed.

Lemma insert_all_snoc l i m : insert_all (l ++ [i]) m = <[ID i := content i]> (insert_all l m).
Proof. unfold insert_all. by rewrite foldl_snoc. Qed.

Lemma insert_all_off l m : same_off (list_to_set (ID <$> l)) m (insert_all l m).
Proof.
  intros k Hk. rewrite insert_all_lookup. destruct (list_find _ _) as [[j i]|] eqn:Hf; [|done].
  apply list_find_Some in Hf as (Hi%list_elem_of_lookup_2 & <- & _). destruct Hk.
  apply elem_of_list_to_set, list_elem_of_fmap_2. by apply elem_of_reverse.
Qed.

Lemma insert_all_elem l i m : NoDup (ID <$> l) -> i ∈ l -> insert_all l m !! ID i = Some (content i).
Proof.
  intros Hnd Hi. rewrite insert_all_lookup. destruct (list_find _ _) as [[j i']|] eqn:Hf.
  - apply list_find_Some in Hf as (Hj & Hid & _). apply list_elem_of_lookup_2 in Hj. rewrite elem_of_reverse in Hj.
    apply list_elem_of_lookup in Hi as [k Hk], Hj as [k' Hk'].
    assert (k = k') as ->; [|by simplify_eq].
    apply (NoDup_lookup (ID <$> l) k k' (ID i)); [done|rewrite list_lookup_fmap, Hk; done|rewrite list_lookup_fmap, Hk'; cbn; congruence].
  - apply list_find_None in Hf. rewrite Forall_forall in Hf. destruct (Hf i); [by apply elem_of_reverse|done].
Qed.

(** An isolation that a request does not mention is the one that is stored. *)
Definition take_over (old : option (PbInstance * string)) (ins : PbInstance) : PbInstance :=
  match old, pIsolate ins with Some (p, _), None => set_Isolate ins (pIsolate p) | _, _ => ins end.

(** The service that has a name. *)
Definition has_name (name namespace : string) (s : ServiceModel) : Prop := svcName s = name /\ svcNamespace s = namespace.

(** What a store keeps besides instances: services, and namespaces. *)
Abbreviation Catalogue := (gmap string ServiceModel * gmap string NamespaceModel)%type.

Class InstanceStorageLaws (W : Type) `{!InstanceStorage W} := {
  stored : W -> gmap string (PbInstance * string);
  catalogue : W -> Catalogue;
  store_ok : W -> Prop;
  stored_ids w k c : store_ok w -> stored w !! k = Some c -> GetValue (pId c.1) = k /\ wrapped c.1;

  AddInstance_spec i w : store_ok w -> well_formed i ->
    ends (AddInstance i) w (fun w' r => store_ok w' /\ catalogue w' = catalogue w /\
      match r with
      | Okay i' => stored w' = <[ID i := content i]> (stored w) /\ content i' = content i
      | Fail _ => same_off {[ID i]} (stored w) (stored w') /\ stored w' ⊆ stored w
      end);
  BatchAddInstances_spec l w : store_ok w -> Forall well_formed l ->
    ends (BatchAddInstances l) w (fun w' r => store_ok w' /\ catalogue w' = catalogue w /\
      match r with
      | Okay l' => stored w' = insert_all l (stored w) /\ content <$> l' = content <$> l
      | Fail _ => same_off (list_to_set (ID <$> l)) (stored w) (stored w')
      end);
  UpdateInstance_spec i c w : store_ok w -> well_formed i -> stored w !! ID i = Some c -> c.2 = ServiceID i ->
    ends (UpdateInstance i) w (fun w' r => store_ok w' /\ catalogue w' = catalogue w /\
      match r with
      | Okay i' => stored w' = <[ID i := content i]> (stored w) /\ content i' = content i
      | Fail _ => stored w' = stored w
      end);
  DeleteInstance_spec id w : store_ok w ->
    ends (DeleteInstance id) w (fun w' r => store_ok w' /\ catalogue w' = catalogue w /\
      stored w' = match r with Okay _ => delete id (stored w) | Fail _ => stored w end);
  BatchDeleteInstances_spec ids w : store_ok w ->
    ends (BatchDeleteInstances ids) w (fun w' r => store_ok w' /\ catalogue w' = catalogue w /\
      same_off (list_to_set ids) (stored w) (stored w') /\ stored w' ⊆ stored w /\ (r = Okay () -> forall id, id ∈ ids -> stored w' !! id = None));
  BatchGetInstanceIsolate_spec ids w : store_ok w ->
    ends (BatchGetInstanceIsolate ids) w (fun w' r => store_ok w' /\ catalogue w' = catalogue w /\ stored w' = stored w /\
      match r with
      | Okay m => forall id, id ∈ ids -> m !! id = Some (GetBool ((stored w !! id) ≫= fun c => pIsolate c.1))
      | Fail _ => True
      end);
  GetInstancesBrief_spec ids w : store_ok w ->
    ends (GetInstancesBrief ids) w (fun w' r => store_ok w' /\ catalogue w' = catalogue w /\ stored w' = stored w /\
      match r with
      | Okay m => forall id, is_Some (m !! id) <-> id ∈ ids /\ is_Some (stored w !! id)
      | Fail _ => True
      end);
  GetInstance_spec id w : store_ok w ->
    ends (GetInstance id) w (fun w' r => store_ok w' /\ catalogue w' = catalogue w /\ stored w' = stored w /\
      match r with
      | Okay o => content <$> o = stored w !! id /\ forall i, o = Some i -> ID i = id /\ well_formed i
      | Fail _ => True
      end);
  GetServiceByID_spec id s w : store_ok w -> (catalogue w).1 !! id = Some s ->
    ends (GetServiceByID id) w (fun w' r => store_ok w' /\ catalogue w' = catalogue w /\ stored w' = stored w /\
      match r with Okay o => o = Some s | Fail _ => True end);
  GetService_spec name namespace w : store_ok w ->
    ends (GetService name namespace) w (fun w' r => store_ok w' /\ catalogue w' = catalogue w /\ stored w' = stored w /\
      match r with
      | Okay o => plain name -> plain namespace ->
          match o with
          | Some s => (catalogue w).1 !! svcID s = Some s /\ has_name name namespace s
          | None => map_Forall (fun _ s => ~ has_name name namespace s) (catalogue w).1
          end
      | Fail _ => True
      end) }.

Definition services {W} `{!InstanceStorage W, !InstanceStorageLaws W} (w : W) : gmap string ServiceModel := (catalogue w).1.
Definition namespaces {W} `{!InstanceStorage W, !InstanceStorageLaws W} (w : W) : gmap string NamespaceModel := (catalogue w).2.
