(* ===== verification/ServiceStore.v ===== *)
(** * What the naming server asks of a store about services and namespaces ([src/store/discover_api.go], [src/store/api.go])

    [ServiceStorage] is the part of the store's interface that the handlers of
    services and namespaces use, and [ServiceStorageLaws] what they rely on, over
    the catalogue of [InstanceStore.v].  [BoltServices.v] is an implementation. *)

From S2P Require Import Prelude Effects GoStrings Utils Registry Services Namespace InstanceStore.
From Stdlib Require Import ZArith Lia.
From stdpp Require Import base tactics list gmap strings.

Open Scope Z_scope.

(** [model.ServiceAlias] and [store.InstanceArgs]. *)
Record ServiceAlias := mkAlias {
  alID : string;
  alAlias : string;
  alAliasNamespace : string;
  alServiceID : string;
  alService : string;
  alNamespace : string;
  alOwner : string;
  alComment : string;
  alCreateTime : Z;
  alModifyTime : Z }.
Record InstanceArgs := mkInstanceArgs {
  argHosts : list string;
  argPorts : list Z }.

(** ** The interface *)

(** The routing configuration, the configuration groups and the circuit breakers
    belong to other stores; only whether there are some matters here. *)
Class ServiceStorage (W : Type) := {
  AddService : ServiceModel -> call W StatusCode ServiceModel;
  DeleteService : string -> string -> string -> call W StatusCode unit;
  DeleteServiceAlias : string -> string -> call W StatusCode unit;
  UpdateServiceAlias : ServiceModel -> bool -> call W StatusCode unit;
  UpdateService : ServiceModel -> bool -> call W StatusCode unit;
  UpdateServiceToken : string -> string -> string -> call W StatusCode unit;
  GetServiceAliases : gmap string string -> Z -> Z -> call W StatusCode (Z * list ServiceAlias);
  GetExpandInstances : gmap string string -> list (string * string) -> Z -> Z -> call W StatusCode (Z * list Instance);
  GetServices : gmap string string -> list (string * string) -> option InstanceArgs -> Z -> Z -> call W StatusCode (Z * list ServiceModel);
  HasRoutingConfig : string -> call W StatusCode bool;
  GenNextL5Sid : Z -> call W StatusCode string;
  CreateTransaction : call W StatusCode unit;
  LockService : string -> string -> call W StatusCode (option ServiceModel);
  LockNamespace : string -> call W StatusCode (option NamespaceModel);
  DeleteNamespace : string -> call W StatusCode unit;
  GetNamespace : string -> call W StatusCode (option NamespaceModel);
  AddNamespace : NamespaceModel -> call W StatusCode NamespaceModel;
  UpdateNamespace : NamespaceModel -> call W StatusCode unit;
  UpdateNamespaceToken : string -> string -> call W StatusCode unit;
  CircuitBreakerCount : string -> call W StatusCode Z;
  ConfigGroupCount : string -> call W StatusCode Z }.

(** A service apart from its time stamps and its validity. *)
Definition untimed (s : ServiceModel) : ServiceModel :=
  mkService (svcID s) (svcName s) (svcNamespace s) (svcBusiness s) (svcPorts s) (svcMeta s) (svcComment s) (svcDepartment s)
    (svcCmdbMod1 s) (svcCmdbMod2 s) (svcCmdbMod3 s) (svcToken s) (svcOwner s) (svcRevision s) (svcReference s) (svcPlatformID s)
    true 0 0.

(** What identifies a service, and what it refers to. *)
Definition same_place (s s' : ServiceModel) : Prop :=
  svcID s' = svcID s /\ svcName s' = svcName s /\ svcNamespace s' = svcNamespace s.

(** ** The laws *)

Section changes.
  Context {W : Type} `{!InstanceStorage W, !InstanceStorageLaws W}.

(** A call that only reads, one that changes at most the services and one that
    changes at most the namespaces. *)
Definition reads {E A} (m : call W E A) (w : W) (Q : result E A -> Prop) : Prop :=
  ends m w (fun w' r => store_ok w' /\ catalogue w' = catalogue w /\ stored w' = stored w /\ Q r).
Definition on_services {E A} (m : call W E A) (w : W) (Q : result E A -> gmap string ServiceModel -> Prop) : Prop :=
  ends m w (fun w' r => store_ok w' /\ stored w' = stored w /\ namespaces w' = namespaces w /\ Q r (services w')).
Definition on_namespaces {E A} (m : call W E A) (w : W) (Q : result E A -> gmap string NamespaceModel -> Prop) : Prop :=
  ends m w (fun w' r => store_ok w' /\ stored w' = stored w /\ services w' = services w /\ Q r (namespaces w')).

(** Less than 2^32 rows, so that counts do not wrap. *)
Definition countable (w : W) : Prop := Z.of_nat (size (stored w)) < 2 ^ 32 /\ Z.of_nat (size (services w)) < 2 ^ 32.

(** A service that nothing refers to. *)
Definition unused (x : ServiceModel) (w : W) : Prop :=
  map_Forall (fun _ c => c.2 <> svcID x) (stored w) /\ map_Forall (fun _ t => svcReference t <> svcID x) (services w).

Definition nobody_named (name namespace : string) (m : gmap string ServiceModel) : Prop :=
  map_Forall (fun _ s => ~ has_name name namespace s) m.
End changes.

Definition named_filter (k name namespace : string) : gmap string string := {[k := name; "namespace" := namespace]}.

Class ServiceStorageLaws (W : Type) `{!InstanceStorage W, !InstanceStorageLaws W, !ServiceStorage W} := {
  (** No call of the store is about to fail. *)
  reliable : W -> Prop;
  GetService_reliable name namespace w : reliable w -> ends (GetService name namespace) w (fun w' _ => reliable w');
  GetExpandInstances_reliable filter w : reliable w -> ends (GetExpandInstances filter [] 0 1) w (fun w' _ => reliable w');

  services_ids w k s : store_ok w -> services w !! k = Some s -> svcID s = k;
  namespaces_names w k n : store_ok w -> namespaces w !! k = Some n -> nsName n = k;

  AddService_spec s w : store_ok w -> plain (svcName s) -> plain (svcNamespace s) -> svcID s <> "" -> services w !! svcID s = None ->
    nobody_named (svcName s) (svcNamespace s) (services w) ->
    on_services (AddService s) w (fun r m =>
      match r with
      | Okay s' => m = <[svcID s := s']> (services w) /\ untimed s' = untimed s
      | Fail e => m = services w /\ e <> DuplicateEntryErr
      end);
  DeleteService_spec id name namespace w : store_ok w ->
    on_services (DeleteService id name namespace) w (fun r m =>
      m = match r with Okay _ => delete id (services w) | Fail _ => services w end);
  DeleteServiceAlias_spec name namespace w : store_ok w -> plain name -> plain namespace ->
    on_services (DeleteServiceAlias name namespace) w (fun r m =>
      match r with
      | Okay _ => (exists s, services w !! svcID s = Some s /\ has_name name namespace s /\ m = delete (svcID s) (services w)) \/
          (nobody_named name namespace (services w) /\ m = services w)
      | Fail _ => m = services w
      end);
  UpdateServiceAlias_spec s o old w : store_ok w -> services w !! svcID s = Some old -> same_place old s ->
    on_services (UpdateServiceAlias s o) w (fun r m =>
      match r with
      | Okay _ => exists s', m = <[svcID s := s']> (services w) /\ same_place old s' /\ svcReference s' = svcReference s
      | Fail _ => m = services w
      end);
  UpdateService_spec s o old w : store_ok w -> services w !! svcID s = Some old -> same_place old s ->
    on_services (UpdateService s o) w (fun r m =>
      match r with
      | Okay _ => exists s', m = <[svcID s := s']> (services w) /\ same_place old s' /\ svcReference s' = svcReference s
      | Fail _ => m = services w
      end);
  UpdateServiceToken_spec id token revision old w : store_ok w -> services w !! id = Some old ->
    on_services (UpdateServiceToken id token revision) w (fun r m =>
      match r with
      | Okay _ => exists s', m = <[id := s']> (services w) /\ untimed s' = untimed (set_token old token revision)
      | Fail _ => m = services w
      end);

  GetServiceAliases_spec name namespace w : store_ok w ->
    reads (GetServiceAliases (named_filter "service" name namespace) 0 1) w (fun r =>
      match r with
      | Okay (total, _) => reliable w -> countable w -> total = 0 -> forall s, services w !! svcID s = Some s -> has_name name namespace s ->
          svcID s <> "" -> map_Forall (fun _ t => svcReference t <> svcID s) (services w)
      | Fail _ => True
      end);
  GetExpandInstances_spec name namespace w : store_ok w -> plain name -> plain namespace ->
    reads (GetExpandInstances (named_filter "name" name namespace) [] 0 1) w (fun r =>
      match r with
      | Okay (total, _) => countable w -> total = 0 -> forall s, services w !! svcID s = Some s -> has_name name namespace s ->
          map_Forall (fun _ c => c.2 <> svcID s) (stored w)
      | Fail _ => True
      end);
  GetServices_spec namespace w : store_ok w -> plain namespace ->
    reads (GetServices {["namespace" := namespace]} [] None 0 1) w (fun r =>
      match r with
      | Okay (total, _) => countable w -> total = 0 -> map_Forall (fun _ s => svcNamespace s <> namespace) (services w)
      | Fail _ => True
      end);
  HasRoutingConfig_spec id w : store_ok w -> reads (HasRoutingConfig id) w (fun _ => True);
  GenNextL5Sid_spec layout w : store_ok w -> reads (GenNextL5Sid layout) w (fun _ => True);
  CreateTransaction_spec w : store_ok w -> reads CreateTransaction w (fun _ => True);
  CircuitBreakerCount_spec namespace w : store_ok w -> reads (CircuitBreakerCount namespace) w (fun _ => True);
  ConfigGroupCount_spec namespace w : store_ok w -> reads (ConfigGroupCount namespace) w (fun _ => True);
  LockService_spec name namespace w : store_ok w ->
    reads (LockService name namespace) w (fun r =>
      match r with Okay (Some s) => services w !! svcID s = Some s /\ has_name name namespace s | _ => True end);
  GetNamespace_spec name w : store_ok w ->
    reads (GetNamespace name) w (fun r => match r with Okay o => o = namespaces w !! name | Fail _ => True end);
  LockNamespace_spec name w : store_ok w ->
    reads (LockNamespace name) w (fun r => match r with Okay o => o = namespaces w !! name | Fail _ => True end);
  AddNamespace_spec n w : store_ok w -> namespaces w !! nsName n = None ->
    on_namespaces (AddNamespace n) w (fun r m =>
      match r with
      | Okay n' => m = <[nsName n := n']> (namespaces w) /\ nsToken n' = nsToken n /\ nsOwner n' = nsOwner n /\ nsComment n' = nsComment n
      | Fail _ => m = namespaces w
      end);
  UpdateNamespace_spec n old w : store_ok w -> namespaces w !! nsName n = Some old ->
    on_namespaces (UpdateNamespace n) w (fun r m =>
      match r with
      | Okay _ => exists n', m = <[nsName n := n']> (namespaces w) /\ nsToken n' = nsToken old /\ nsOwner n' = nsOwner n /\ nsComment n' = nsComment n
      | Fail _ => m = namespaces w
      end);
  UpdateNamespaceToken_spec name token old w : store_ok w -> namespaces w !! name = Some old ->
    on_namespaces (UpdateNamespaceToken name token) w (fun r m =>
      match r with
      | Okay _ => exists n', m = <[name := n']> (namespaces w) /\ nsToken n' = token /\ nsOwner n' = nsOwner old /\ nsComment n' = nsComment old
      | Fail _ => m = namespaces w
      end);
  DeleteNamespace_spec name w : store_ok w ->
    on_namespaces (DeleteNamespace name) w (fun r m =>
      m = match r with Okay _ => delete name (namespaces w) | Fail _ => namespaces w end) }.
