(* ===== verification/L5.v ===== *)
(** * The sequence of l5 ids ([src/store/boltdb/l5.go])

    An alias of type CL5SID gets a generated name: a module and a command id,
    made of a sequence of three counters of 32 bits that the database keeps.
    (Reading the row of the sequence, which is written when the database is
    opened, is not modelled.) *)

From S2P Require Import Prelude GoStrings.
From Stdlib Require Import ZArith Lia Ascii.
From stdpp Require Import base tactics list strings pretty.

Open Scope Z_scope.

Record L5Sequence := mkL5 {
  moduleId : Z;
  interfaceId : Z;
  rangeNum : Z }.

Definition initL5 : L5Sequence := mkL5 3000001 1 0.

(** The counters are read as 64 bits, and written back as 32. *)
Definition nextL5 (l : L5Sequence) : L5Sequence :=
  let rnum := wrap_u 64 (rangeNum l + 1) in
  let '(iid, rnum) := if decide (65536 <= rnum) then (wrap_u 64 (interfaceId l + 1), 0) else (interfaceId l, rnum) in
  let '(mid, iid) := if decide (4096 <= iid) then (wrap_u 64 (moduleId l + 1), 1) else (moduleId l, iid) in
  mkL5 (wrap_u 32 mid) (wrap_u 32 iid) (wrap_u 32 rnum).

Definition modID (l : L5Sequence) (layoutID : Z) : Z := wrap_u 32 (wrap_u 32 (moduleId l * 2 ^ 6) + layoutID).
Definition cmdID (l : L5Sequence) : Z := wrap_u 32 (wrap_u 32 (interfaceId l * 2 ^ 16) + rangeNum l).
Definition l5_sid (l : L5Sequence) (layoutID : Z) : string := pretty (modID l layoutID) +:+ String ":"%char (pretty (cmdID l)).

(** ** The ids are distinct *)

Definition l5_ok (l : L5Sequence) : Prop := 0 <= moduleId l < 2 ^ 26 /\ 1 <= interfaceId l < 4096 /\ 0 <= rangeNum l < 65536.

(** How far the sequence is. *)
Definition l5_position (l : L5Sequence) : Z := (moduleId l * 4095 + (interfaceId l - 1)) * 65536 + rangeNum l.

Lemma nextL5_position l : l5_ok l -> moduleId l < 2 ^ 26 - 1 -> l5_ok (nextL5 l) /\ l5_position (nextL5 l) = l5_position l + 1.
Proof.
  intros (Hm & Hi & Hr) Hlt. unfold nextL5, l5_position, l5_ok. rewrite !(wrap_u_small 64) by lia.
  destruct (decide (65536 <= rangeNum l + 1)); [destruct (decide (4096 <= interfaceId l + 1))|rewrite decide_False by lia];
    cbn [moduleId interfaceId rangeNum]; rewrite !wrap_u_small by lia; (split; [lia|]); lia.
Qed.

Lemma sid_inj l l' layout layout' : l5_ok l -> l5_ok l' -> 0 <= layout < 64 -> 0 <= layout' < 64 ->
  l5_sid l layout = l5_sid l' layout' -> l = l' /\ layout = layout'.
Proof.
  intros (Hm & Hi & Hr) (Hm' & Hi' & Hr') Hl Hl' Heq. unfold l5_sid in Heq. apply (f_equal (Split ":"%char)) in Heq.
  rewrite !Split_cons, !Split_plain in Heq by (by apply pretty_Z_occurs). injection Heq as Hmod Hcmd.
  apply (f_equal signed) in Hmod, Hcmd. rewrite !signed_pretty in Hmod, Hcmd. injection Hmod as Hmod. injection Hcmd as Hcmd.
  unfold modID, cmdID in *. rewrite !wrap_u_small in Hmod, Hcmd by (rewrite ?wrap_u_small by lia; lia).
  assert (moduleId l = moduleId l' /\ layout = layout') as [? ->] by lia.
  assert (interfaceId l = interfaceId l' /\ rangeNum l = rangeNum l') as [? ?] by lia.
  split; [|done]. destruct l, l'; cbn in *; congruence.
Qed.

(** No two calls are given the same id, whatever their layouts, as long as the
    module id has 26 bits: the shift by the six bits of the layout would lose
    more, and the sequence starts at 3000001. *)
Theorem sids_distinct l n m layout layout' :
  l5_ok l -> 0 <= layout < 64 -> 0 <= layout' < 64 -> l5_position l + Z.of_nat (max n m) < (2 ^ 26 - 1) * 4095 * 65536 -> n <> m ->
  l5_sid (Nat.iter n nextL5 l) layout <> l5_sid (Nat.iter m nextL5 l) layout'.
Proof.
  intros Hok Hl Hl' Hmax Hne Heq.
  assert (forall k, Z.of_nat k <= Z.of_nat (max n m) -> l5_ok (Nat.iter k nextL5 l) /\ l5_position (Nat.iter k nextL5 l) = l5_position l + Z.of_nat k) as Hk.
  { intros k. induction k as [|k IH]; intros Hle; [cbn; split; [done|lia]|]. destruct IH as [Hok' Hp]; [lia|]. rewrite Nat.iter_succ.
    destruct (nextL5_position (Nat.iter k nextL5 l)) as [H1 H2]; [done| |].
    - unfold l5_position in Hp at 1. destruct Hok' as (? & ? & ?). nia.
    - split; [done|]. rewrite H2, Hp. lia. }
  destruct (Hk n ltac:(lia)) as [Hn Hpn], (Hk m ltac:(lia)) as [Hm Hpm].
  destruct (sid_inj _ _ _ _ Hn Hm Hl Hl' Heq) as [Hsame _]. rewrite Hsame in Hpn. lia.
Qed.

Lemma sids_distinct_witness : l5_sid (Nat.iter 1 nextL5 initL5) 1 <> l5_sid (Nat.iter 2 nextL5 initL5) 6.
Proof. apply (sids_distinct initL5); [unfold l5_ok; cbn; lia|lia|lia|vm_compute; reflexivity|lia]. Defined.

Example first_sid : l5_sid (nextL5 initL5) 1 = "192000065:65537".
Proof. vm_compute. reflexivity. Qed.
