(* ===== verification/BoltStore.v ===== *)
(** * Instances in the boltdb store ([src/store/boltdb/handler.go], [instance.go], [service.go])

    The database has a bucket for each table and in it a bucket for each row; a
    row is written property by property, and a row that was deleted stays with
    [Valid] off.  Every call of the handler is one transaction, which may fail
    without effect: [faults] says which of the next transactions do.  (The
    encoding of a message does not tell an empty map from a nil one, and neither
    do its readers; the model keeps what was written.)

    [InstanceStorageLaws] is proved for it at the end. *)

From S2P Require Import Prelude Effects GoStrings Utils Registry Services Namespace InstanceStore L5.
From Stdlib Require Import ZArith Lia.
From stdpp Require Import base tactics list gmap strings pretty.

Open Scope Z_scope.

(** [tblRouting]: which routing configurations are valid, by service id.
    [l5]: the sequence of the l5 ids. *)
Record bolt := mkBolt {
  tblInstance : gmap string Instance;
  tblService : gmap string ServiceModel;
  tblNamespace : gmap string NamespaceModel;
  tblRouting : gmap string bool;
  l5 : L5Sequence;
  clock : Z;
  faults : list bool }.

Definition set_tblInstance (w : bolt) t :=
  mkBolt t (tblService w) (tblNamespace w) (tblRouting w) (l5 w) (clock w) (faults w).
Definition set_tblService (w : bolt) t :=
  mkBolt (tblInstance w) t (tblNamespace w) (tblRouting w) (l5 w) (clock w) (faults w).
Definition set_tblNamespace (w : bolt) t :=
  mkBolt (tblInstance w) (tblService w) t (tblRouting w) (l5 w) (clock w) (faults w).
Definition set_l5 (w : bolt) l :=
  mkBolt (tblInstance w) (tblService w) (tblNamespace w) (tblRouting w) l (clock w) (faults w).
Definition set_faults (w : bolt) l :=
  mkBolt (tblInstance w) (tblService w) (tblNamespace w) (tblRouting w) (l5 w) (clock w) l.

Abbreviation db := (call bolt StatusCode).

Section boltdb.
  (** [common/time]: the local time of a number of seconds, in Go's layout. *)
  Context (Time2String : Z -> string).
  (** The order in which Go ranges over a map. *)
  Context (range : gmap string Instance -> list (string * Instance)).

(** ** The handler *)

(** [db.Update] and [db.View]: the transaction is rolled back when [body] fails. *)
Definition transaction {A} (body : db A) : db A := fun w =>
  let w' := set_faults w (tail (faults w)) in
  if default false (head (faults w)) then Ret (w', Fail Unknown)
  else match body w' with
       | Ret (_, Fail e) => Ret (w', Fail e)
       | r => r
       end.

Definition setValid (i : Instance) (b : bool) : Instance := mkInstance (Proto i) (ServiceID i) (ServicePlatformID i) b (ModifyTime i).
Definition setModify (i : Instance) (t : Z) : Instance := mkInstance (Proto i) (ServiceID i) (ServicePlatformID i) (Valid i) t.

Definition deleteValues (w : bolt) (keys : list string) : bolt := set_tblInstance w (foldl (fun t k => delete k t) (tblInstance w) keys).
Definition saveValue (w : bolt) (key : string) (value : Instance) : bolt := set_tblInstance w (<[key := setValid value true]> (tblInstance w)).
(** A row that is not there is not updated, and that is no error. *)
Definition updateValue (w : bolt) (key : string) (properties : Instance -> Instance) : bolt :=
  set_tblInstance w (alter properties key (tblInstance w)).
Definition loadValuesByFilter (w : bolt) (pred : Instance -> bool) : gmap string Instance :=
  filter (fun kv => pred kv.2 = true) (tblInstance w).
Definition loadValues (w : bolt) (keys : gset string) : gmap string Instance :=
  filter (fun kv => kv.1 ∈ keys) (tblInstance w).

Definition DeleteValues (keys : list string) : db unit :=
  if decide (keys = []) then mret () else transaction (modify (fun w => deleteValues w keys)).
Definition SaveValue (key : string) (value : Instance) : db unit := transaction (modify (fun w => saveValue w key value)).
Definition UpdateValue (key : string) (properties : Instance -> Instance) : db unit :=
  transaction (modify (fun w => updateValue w key properties)).
Definition LoadValuesByFilter (pred : Instance -> bool) : db (gmap string Instance) :=
  transaction (w ← get; mret (loadValuesByFilter w pred)).
Definition LoadValues (keys : gset string) : db (gmap string Instance) :=
  if decide (keys = ∅) then mret ∅ else transaction (w ← get; mret (loadValues w keys)).

(** ** [instanceStore] *)

Definition hasProto (i : Instance) : bool := bool_decide (Proto i <> None).

(** An empty stamp is filled in; the row is made valid. *)
Definition initInstance (currT : Z) (i : Instance) : Instance :=
  let stamp (s : option string) := if decide (GetValue s = "") then Some (Time2String currT) else s in
  mkInstance ((fun p => set_Ctime (set_Mtime p (stamp (pMtime p))) (stamp (pCtime p))) <$> Proto i)
    (ServiceID i) (ServicePlatformID i) true currT.

Definition bolt_AddInstance (instance : Instance) : db Instance :=
  w ← get;
  let instance := initInstance (clock w) instance in
  _ ← DeleteValues [ID instance];
  _ ← SaveValue (ID instance) instance;
  mret instance.

Definition bolt_BatchAddInstances (instances : list Instance) : db (list Instance) :=
  if decide (instances = []) then mret []
  else
    _ ← DeleteValues (ID <$> instances);
    w ← get;
    let instances := initInstance (clock w) <$> instances in
    _ ← each (fun i => SaveValue (ID i) i) instances;
    mret instances.

Definition stampMtime (p : PbInstance) (curr : Z) : PbInstance := set_Mtime p (Some (Time2String curr)).

Definition bolt_UpdateInstance (instance : Instance) : db Instance :=
  w ← get;
  p ← deref (Proto instance);
  let p := stampMtime p (clock w) in
  _ ← UpdateValue (GetValue (pId p)) (fun row => setModify (set_Proto row p) (clock w));
  mret (set_Proto instance p).

Definition bolt_DeleteInstance (instanceID : string) : db unit :=
  w ← get; UpdateValue instanceID (fun row => setModify (setValid row false) (clock w)).

Definition bolt_BatchDeleteInstances (ids : list string) : db unit := each bolt_DeleteInstance ids.

Definition bolt_CleanInstance (instanceID : string) : db unit := DeleteValues [instanceID].

(** Every id is in the answer; one without a valid row is not isolated. *)
Definition bolt_BatchGetInstanceIsolate (ids : gset string) : db (gmap string bool) :=
  if decide (ids = ∅) then mret ∅
  else
    result ← LoadValues ids;
    mret (set_to_map (fun id =>
      (id, match result !! id with Some ins => Valid ins && GetBool (pIsolate (proto ins)) | None => false end)) ids).

Definition bolt_GetInstance (instanceID : string) : db (option Instance) :=
  ins ← LoadValuesByFilter (fun i => Valid i && hasProto i && bool_decide (GetValue (pId (proto i)) = instanceID));
  mret (ins !! instanceID).

Definition bolt_GetInstancesCount : db Z :=
  transaction (w ← get; mret (wrap_u 32 (Z.of_nat (size (filter (fun kv => Valid kv.2 = true) (tblInstance w)))))).

(** The instance that [ExpandStore2Instance] makes of an id, a host, a port and a service. *)
Definition briefInstance (i : Instance) (s : ServiceModel) : Instance :=
  let location := mkLocation (Some "") (Some "") (Some "") in
  mkInstance
    (Some (mkPb (Some (ID i)) (Some (svcName s)) (Some (svcNamespace s)) (Some "") (Some (Host i)) (Some (Port i)) (Some "") (Some "")
       (Some 0) (Some 0) (Some false) (Some (mkHealthCheck UNKNOWN (Some (Some 0)))) (Some false) (Some false) (Some location) None
       (Some "") (Some (Time2String 0)) (Some (Time2String 0)) (Some "")
       (if decide (svcToken s = "") then None else Some (svcToken s))))
    "" (svcPlatformID s) true 0.

(** The services are loaded in a second transaction, whose error is dropped. *)
Definition bolt_GetInstancesBrief (ids : gset string) : db (gmap string Instance) :=
  if decide (ids = ∅) then mret ∅
  else
    inss ← LoadValuesByFilter (fun i => Valid i && hasProto i && bool_decide (GetValue (pId (proto i)) ∈ ids));
    svcs ← attempt (transaction (w ← get; mret (filter (fun kv => svcValid kv.2 = true) (tblService w))));
    let svcs := match svcs with Okay m => m | Fail _ => ∅ end in
    if decide (map_Forall (fun _ i => is_Some (svcs !! ServiceID i)) inss) then
      mret (omap (fun i => briefInstance i <$> svcs !! ServiceID i) inss)
    else raise Unknown.

(** [getRealInstancesList] puts the latest first. *)
Definition newer (a b : Instance) : bool :=
  bool_decide (ModifyTime b < ModifyTime a) || bool_decide (ModifyTime a = ModifyTime b) && String.ltb (ID a) (ID b).
Fixpoint insert_sorted (a : Instance) (l : list Instance) : list Instance :=
  match l with [] => [a] | b :: l' => if newer b a then b :: insert_sorted a l' else a :: b :: l' end.
Definition sort_instances (l : list Instance) : list Instance := foldr insert_sorted [] l.

Definition getRealInstancesList (originServices : gmap string Instance) (offset limit : Z) : list Instance :=
  let endIndex := wrap_u 32 (offset + limit) in
  let totalCount := wrap_u 32 (Z.of_nat (size originServices)) in
  if decide (totalCount = 0 \/ endIndex <= offset \/ totalCount <= offset) then []
  else let endIndex := if decide (totalCount < endIndex) then totalCount else endIndex in
       take (Z.to_nat (endIndex - offset)) (drop (Z.to_nat offset) (sort_instances (range originServices).*2)).

Definition bolt_GetInstancesMainByService (serviceID host : string) : db (option (list Instance)) :=
  instances ← LoadValuesByFilter (fun i => Valid i && hasProto i && bool_decide (ServiceID i = serviceID) &&
                                          bool_decide (GetValue (pHost (proto i)) = host));
  mret (Some (getRealInstancesList instances 0 (wrap_u 32 (Z.of_nat (size instances))))).

(** The value of a wrapper that must be there. *)
Definition put {A} (field : option A) (v : A) : db (option A) := _ ← deref field; mret (Some v).

Definition bolt_SetInstanceHealthStatus (instanceID : string) (flag : Z) (revision : string) : db unit :=
  instances ← LoadValuesByFilter (fun i => hasProto i && bool_decide (GetValue (pId (proto i)) = instanceID));
  if decide (instances = ∅) then mret ()
  else
    ins ← deref (instances !! instanceID);
    let p := proto ins in
    healthy ← put (pHealthy p) (bool_decide (flag <> 0));
    revision ← put (pRevision p) revision;
    w ← get;
    let p := stampMtime (set_Revision (set_Healthy p healthy) revision) (clock w) in
    UpdateValue instanceID (fun row => setModify (set_Proto row p) (clock w)).

Definition bolt_BatchSetInstanceHealthStatus (ids : list string) (healthy : Z) (revision : string) : db unit :=
  each (fun id => bolt_SetInstanceHealthStatus id healthy revision) ids.

Definition bolt_BatchSetInstanceIsolate (ids : list string) (isolate : Z) (revision : string) : db unit :=
  instances ← LoadValuesByFilter (fun i => hasProto i && bool_decide (GetValue (pId (proto i)) ∈ ids));
  if decide (instances = ∅) then mret ()
  else each (fun '(id, ins) =>
    let p := proto ins in
    isolated ← put (pIsolate p) (bool_decide (isolate <> 0));
    revision ← put (pRevision p) revision;
    w ← get;
    let p := stampMtime (set_Revision (set_Isolate p isolated) revision) (clock w) in
    UpdateValue id (fun row => setModify (set_Proto row p) (clock w))) (range instances).

(** Both changes of metadata: one transaction; [change] is applied to the rows
    that [values] had at its start, so that two requests for one id see each
    other through the shared message. *)
Definition metaRow (w : bolt) (r : InstanceMetadataRequest) (change : gmap string string -> gmap string string) : bolt :=
  updateValue w (mrInstanceID r) (fun row =>
    setModify (set_Proto row (set_Metadata (proto row) (Some (change (GetMap (pMetadata (proto row))))))) (clock w)).

(** A request whose instance is not there ends the loop of the first, and is
    skipped by the second. *)
Fixpoint appendMetadata (values : gmap string Instance) (requests : list InstanceMetadataRequest) (w : bolt) : bolt :=
  match requests with
  | [] => w
  | r :: requests =>
      match values !! mrInstanceID r with
      | None => w
      | Some _ => appendMetadata values requests (metaRow w r (fun m => mrMetadata r ∪ m))
      end
  end.
Fixpoint removeMetadata (values : gmap string Instance) (requests : list InstanceMetadataRequest) (w : bolt) : bolt :=
  match requests with
  | [] => w
  | r :: requests =>
      removeMetadata values requests
        (match values !! mrInstanceID r with
         | None => w
         | Some _ => metaRow w r (fun m => foldl (fun m k => delete k m) m (mrKeys r))
         end)
  end.

Definition changeMetadata (loop : gmap string Instance -> list InstanceMetadataRequest -> bolt -> bolt)
    (requests : list InstanceMetadataRequest) : db unit :=
  if decide (requests = []) then mret ()
  else transaction (modify (fun w =>
    loop (loadValuesByFilter w (fun i => Valid i && hasProto i && bool_decide (GetValue (pId (proto i)) ∈ mrInstanceID <$> requests)))
      requests w)).
Definition bolt_BatchAppendInstanceMetadata := changeMetadata appendMetadata.
Definition bolt_BatchRemoveInstanceMetadata := changeMetadata removeMetadata.

(** ** [serviceStore] *)

Definition loadServices (pred : ServiceModel -> bool) : db (gmap string ServiceModel) :=
  transaction (w ← get; mret (filter (fun kv => pred kv.2 = true) (tblService w))).

(** An id that is not there is a type assertion on nil. *)
Definition bolt_GetServiceByID (id : string) : db (option ServiceModel) :=
  svc ← loadServices (fun s => bool_decide (svcID s = id));
  if decide (1 < Z.of_nat (size svc)) then raise Unknown
  else
    svcRet ← deref (svc !! id);
    mret (if svcValid svcRet then Some svcRet else None).

(** A name or namespace matches an equal one, a wildcard pattern what it says,
    and the empty string everything. *)
Definition matches (pattern name : string) : bool :=
  bool_decide (pattern = "") || (if IsWildName pattern then IsWildMatch name pattern else bool_decide (name = pattern)).

Definition bolt_getServiceByNameAndNs (name namespace : string) : db (option ServiceModel) :=
  svcs ← loadServices (fun s => svcValid s && matches name (svcName s) && matches namespace (svcNamespace s));
  mret (head (map_to_list svcs).*2).

Definition bolt_GetService := bolt_getServiceByNameAndNs.

Definition bolt_GetSourceServiceToken (name namespace : string) : db (option ServiceModel) :=
  s ← bolt_getServiceByNameAndNs name namespace;
  mret ((fun s => mkService (svcID s) name namespace "" "" None "" "" "" "" "" (svcToken s) "" "" "" (svcPlatformID s) false 0 0) <$> s).

#[export] Instance bolt_storage : InstanceStorage bolt := {|
  AddInstance := bolt_AddInstance;
  BatchAddInstances := bolt_BatchAddInstances;
  UpdateInstance := bolt_UpdateInstance;
  DeleteInstance := bolt_DeleteInstance;
  BatchDeleteInstances := bolt_BatchDeleteInstances;
  BatchGetInstanceIsolate := bolt_BatchGetInstanceIsolate;
  GetInstancesBrief := bolt_GetInstancesBrief;
  GetInstance := bolt_GetInstance;
  GetInstancesMainByService := bolt_GetInstancesMainByService;
  BatchSetInstanceHealthStatus := bolt_BatchSetInstanceHealthStatus;
  BatchSetInstanceIsolate := bolt_BatchSetInstanceIsolate;
  BatchAppendInstanceMetadata := bolt_BatchAppendInstanceMetadata;
  BatchRemoveInstanceMetadata := bolt_BatchRemoveInstanceMetadata;
  GetServiceByID := bolt_GetServiceByID;
  GetService := bolt_GetService;
  GetSourceServiceToken := bolt_GetSourceServiceToken |}.

(** ** The laws *)

Definition row_ok (k : string) (i : Instance) : Prop := ID i = k /\ well_formed i.
Definition bolt_ok (w : bolt) : Prop :=
  map_Forall row_ok (tblInstance w) /\ map_Forall (fun k s => svcID s = k) (tblService w) /\ map_Forall (fun k n => nsName n = k) (tblNamespace w).
Definition bolt_stored (w : bolt) : gmap string (PbInstance * string) :=
  omap (fun i => if Valid i then Some (content i) else None) (tblInstance w).
Definition bolt_services (w : bolt) : gmap string ServiceModel :=
  omap (fun s => if svcValid s then Some s else None) (tblService w).

Definition bolt_catalogue (w : bolt) : Catalogue := (bolt_services w, tblNamespace w).

Lemma ends_update (f : bolt -> bolt) w (Q : bolt -> result StatusCode unit -> Prop) :
  (forall l, Q (set_faults w l) (Fail Unknown) /\ Q (f (set_faults w l)) (Okay ())) ->
  ends (transaction (modify f)) w Q.
Proof.
  intros HQ. unfold ends, transaction, modify. destruct (HQ (tail (faults w))) as [H1 H2].
  destruct (default false _); eauto.
Qed.

Lemma ends_view {A} (f : bolt -> A) w (Q : bolt -> result StatusCode A -> Prop) :
  (forall l, Q (set_faults w l) (Fail Unknown) /\ Q (set_faults w l) (Okay (f (set_faults w l)))) ->
  ends (transaction (w ← get; mret (f w))) w Q.
Proof.
  intros HQ. destruct (HQ (tail (faults w))) as [H1 H2]. unfold ends, transaction. destruct (default false _); [eauto|].
  unfold mbind, call_bind, get, mret, call_ret. eauto.
Qed.

(** What the rows of a table say, by id. *)
Lemma stored_lookup w k : bolt_stored w !! k = tblInstance w !! k ≫= fun i => if Valid i then Some (content i) else None.
Proof. apply lookup_omap. Qed.

Lemma stored_Some w k c : bolt_stored w !! k = Some c <-> exists i, tblInstance w !! k = Some i /\ Valid i = true /\ content i = c.
Proof. rewrite stored_lookup. destruct (tblInstance w !! k) as [i|]; cbn; [|naive_solver]. destruct (Valid i) eqn:Hv; split.
  - intros [= <-]. by exists i.
  - intros (? & [= <-] & _ & <-). done.
  - done.
  - intros (? & [= <-] & ? & _). congruence.
Qed.

Lemma stored_save w k v : bolt_stored (saveValue w k v) = <[k := content v]> (bolt_stored w).
Proof. unfold bolt_stored, saveValue. cbn [tblInstance set_tblInstance]. by apply omap_insert_Some. Qed.

Lemma stored_update w k f j :
  bolt_stored (updateValue w k f) !! j =
  if decide (j = k) then (f <$> tblInstance w !! k) ≫= (fun i => if Valid i then Some (content i) else None) else bolt_stored w !! j.
Proof.
  rewrite !stored_lookup. unfold updateValue. cbn [tblInstance set_tblInstance].
  case_decide as Hj; [subst; by rewrite lookup_alter_eq|by rewrite lookup_alter_ne].
Qed.

Lemma deleted_lookup keys (t : gmap string Instance) j :
  foldl (fun t k => delete k t) t keys !! j = if decide (j ∈ keys) then None else t !! j.
Proof.
  revert t. induction keys as [|k keys IH]; intros t; cbn [foldl]; [by rewrite decide_False by apply not_elem_of_nil|].
  rewrite IH. destruct (decide (j ∈ keys)) as [Hj|Hj]; [by rewrite decide_True by by right|].
  destruct (decide (j = k)) as [->|Hn]; [rewrite decide_True by (by left); apply lookup_delete_eq|].
  rewrite decide_False by by inversion 1. by apply lookup_delete_ne.
Qed.

Lemma stored_delete w keys j : bolt_stored (deleteValues w keys) !! j = if decide (j ∈ keys) then None else bolt_stored w !! j.
Proof. rewrite !stored_lookup. unfold deleteValues. cbn [tblInstance set_tblInstance]. rewrite deleted_lookup. by case_decide. Qed.

Lemma stored_delete_subset w keys : bolt_stored (deleteValues w keys) ⊆ bolt_stored w.
Proof. apply map_subseteq_spec. intros k c. rewrite stored_delete. by case_decide. Qed.

Lemma ok_save w k v : bolt_ok w -> row_ok k v -> bolt_ok (saveValue w k v).
Proof. intros [Hi Hs] Hv. split; [|done]. by apply map_Forall_insert_2. Qed.

Lemma ok_delete w keys : bolt_ok w -> bolt_ok (deleteValues w keys).
Proof.
  intros [Hi Hs]. split; [|done]. intros k i. unfold deleteValues. cbn [tblInstance set_tblInstance]. rewrite deleted_lookup.
  case_decide; [done|apply Hi].
Qed.

Lemma ok_update w k f : bolt_ok w -> (forall i, row_ok k i -> row_ok k (f i)) -> bolt_ok (updateValue w k f).
Proof.
  intros [Hi Hs] Hf. split; [|done]. intros j i. unfold updateValue. cbn [tblInstance set_tblInstance].
  destruct (decide (j = k)) as [->|Hn]; [|rewrite lookup_alter_ne by done; apply Hi].
  rewrite lookup_alter_eq, fmap_Some. intros (i' & Hi' & ->). by apply Hf, Hi.
Qed.

(** Stamping a row leaves what it says. *)
Lemma init_content t i : well_formed i ->
  content (initInstance t i) = content i /\ ID (initInstance t i) = ID i /\ well_formed (initInstance t i).
Proof.
  intros (p & Hp & Hw). unfold content, ID, well_formed, initInstance, proto. cbn [Proto ServiceID]. rewrite Hp.
  cbn [fmap option_fmap option_map default from_option id]. split_and!; [done..|]. eexists. split; [done|]. split; apply Hw.
Qed.

Lemma wrapped_stamped p s : wrapped p -> wrapped (set_Mtime p s).
Proof. intros Hw. split; apply Hw. Qed.

#[local] Hint Resolve ok_save ok_delete ok_update : core.

Lemma bolt_AddInstance_spec i w : bolt_ok w -> well_formed i ->
  ends (bolt_AddInstance i) w (fun w' r => bolt_ok w' /\ bolt_catalogue w' = bolt_catalogue w /\
    match r with
    | Okay i' => bolt_stored w' = <[ID i := content i]> (bolt_stored w) /\ content i' = content i
    | Fail _ => same_off {[ID i]} (bolt_stored w) (bolt_stored w') /\ bolt_stored w' ⊆ bolt_stored w
    end).
Proof.
  intros Hok Hi. destruct (init_content (clock w) i Hi) as (Hc & Hid & Hwf). unfold bolt_AddInstance.
  apply ends_bind, ends_get, ends_bind. unfold DeleteValues. rewrite decide_False by done. rewrite Hid.
  apply ends_update. intros l. split; [by split_and!|]. apply ends_bind, ends_update. intros l'.
  assert (bolt_ok (deleteValues (set_faults w l) [ID i])) as Hok' by by apply (ok_delete (set_faults w l)).
  assert (same_off {[ID i]} (bolt_stored w) (bolt_stored (deleteValues (set_faults w l) [ID i]))) as Hoff.
  { intros k Hk. rewrite stored_delete, decide_False by set_solver. done. }
  split; [split_and!; [done..|apply (stored_delete_subset (set_faults w l))]|]. apply ends_ret. split_and!; [|done| |done].
  - apply (ok_save (set_faults _ l')); [done|]. by split.
  - rewrite stored_save, Hc. apply map_eq. intros k. destruct (decide (k = ID i)) as [->|Hn]; [by rewrite !lookup_insert_eq|].
    rewrite !lookup_insert_ne by done. apply Hoff. set_solver.
Qed.

Lemma bolt_BatchAddInstances_spec l w : bolt_ok w -> Forall well_formed l ->
  ends (bolt_BatchAddInstances l) w (fun w' r => bolt_ok w' /\ bolt_catalogue w' = bolt_catalogue w /\
    match r with
    | Okay l' => bolt_stored w' = insert_all l (bolt_stored w) /\ content <$> l' = content <$> l
    | Fail _ => same_off (list_to_set (ID <$> l)) (bolt_stored w) (bolt_stored w')
    end).
Proof.
  intros Hok Hl. unfold bolt_BatchAddInstances. case_decide as Hnil; [subst; by apply ends_ret|].
  apply ends_bind. unfold DeleteValues. rewrite decide_False by by destruct l. apply ends_update. intros f. split; [done|].
  set (w1 := deleteValues (set_faults w f) (ID <$> l)).
  assert (bolt_ok w1) as Hok1 by by apply (ok_delete (set_faults w f)).
  assert (same_off (list_to_set (ID <$> l)) (bolt_stored w) (bolt_stored w1)) as Hoff.
  { intros k Hk. unfold w1. rewrite stored_delete, decide_False by (by rewrite elem_of_list_to_set in Hk). done. }
  apply ends_bind, ends_get, ends_bind. set (l' := initInstance (clock w1) <$> l).
  assert (forall l0, Forall well_formed l0 -> content <$> (initInstance (clock w1) <$> l0) = content <$> l0 /\
    ID <$> (initInstance (clock w1) <$> l0) = ID <$> l0 /\ Forall well_formed (initInstance (clock w1) <$> l0)) as Hmap.
  { intros l0. induction 1 as [|i l0 Hi _ IH]; [done|]. destruct (init_content (clock w1) i Hi) as (? & ? & ?), IH as (? & ? & ?).
    cbn. split_and!; [by f_equal..|by constructor]. }
  destruct (Hmap l Hl) as (Hc & Hid & Hwf). fold l' in Hc, Hid, Hwf. clear Hmap.
  assert (forall m, insert_all l' m = insert_all l m) as Hins.
  { intros m. apply insert_all_fmap. eapply Forall_impl; [exact Hl|]. intros i Hi. by destruct (init_content (clock w1) i Hi) as (? & ? & ?). }
  apply (ends_each _ (fun done w' => bolt_ok w' /\ bolt_catalogue w' = bolt_catalogue w /\ bolt_stored w' = insert_all done (bolt_stored w1))).
  - done.
  - intros dn x rest w' Hsplit (Hok' & Hs' & Hst). apply ends_update. intros g. split.
    + split_and!; [done..|]. change (bolt_stored (set_faults w' g)) with (bolt_stored w'). rewrite Hst.
      transitivity (bolt_stored w1); [done|]. eapply same_off_mono; [|apply insert_all_off].
      rewrite <- Hid, Hsplit, fmap_app. set_solver.
    + split_and!; [|done|].
      * apply (ok_save (set_faults w' g)); [done|]. split; [done|]. rewrite Forall_forall in Hwf. apply Hwf. rewrite Hsplit. set_solver.
      * rewrite stored_save, insert_all_snoc. by rewrite <- Hst.
  - intros w' (Hok' & Hs' & Hst). apply ends_ret. split_and!; [done..| |done]. rewrite Hst, Hins. by apply insert_all_same.
Qed.

Lemma bolt_UpdateInstance_spec i c w : bolt_ok w -> well_formed i -> bolt_stored w !! ID i = Some c -> c.2 = ServiceID i ->
  ends (bolt_UpdateInstance i) w (fun w' r => bolt_ok w' /\ bolt_catalogue w' = bolt_catalogue w /\
    match r with
    | Okay i' => bolt_stored w' = <[ID i := content i]> (bolt_stored w) /\ content i' = content i
    | Fail _ => bolt_stored w' = bolt_stored w
    end).
Proof.
  intros Hok (p & Hp & Hw) Hc Hsid. unfold bolt_UpdateInstance. apply ends_bind, ends_get, ends_bind.
  apply (ends_deref _ p); [done|]. apply ends_bind.
  assert (GetValue (pId (stampMtime p (clock w))) = ID i) as Hid by (unfold ID, proto; by rewrite Hp).
  apply ends_update. intros l. split; [done|]. rewrite Hid. apply ends_ret. split_and!; [|done| |].
  - apply (ok_update (set_faults w l)); [done|]. intros row _. split; [done|]. eexists. split; [done|]. by apply wrapped_stamped.
  - apply map_eq. intros k. rewrite stored_update. case_decide as Hk; [subst; rewrite lookup_insert_eq|by rewrite lookup_insert_ne].
    apply stored_Some in Hc as (row & Hrow & Hv & <-). cbn [tblInstance set_faults]. rewrite Hrow.
    cbn [fmap option_fmap option_map mbind option_bind Valid setModify set_Proto]. rewrite Hv. unfold content, proto in *. rewrite Hp.
    cbn [Proto ServiceID setModify set_Proto default from_option id snd] in *. by rewrite Hsid.
  - unfold content, proto. by rewrite Hp.
Qed.

Lemma bolt_DeleteInstance_spec id w : bolt_ok w ->
  ends (bolt_DeleteInstance id) w (fun w' r => bolt_ok w' /\ bolt_catalogue w' = bolt_catalogue w /\
    bolt_stored w' = match r with Okay _ => delete id (bolt_stored w) | Fail _ => bolt_stored w end).
Proof.
  intros Hok. unfold bolt_DeleteInstance. apply ends_bind, ends_get. apply ends_update. intros l. split; [done|].
  split_and!; [|done|].
  - by apply (ok_update (set_faults w l)).
  - apply map_eq. intros k. rewrite stored_update. case_decide as Hk; [subst; rewrite lookup_delete_eq|by rewrite lookup_delete_ne].
    cbn [tblInstance set_faults]. by destruct (tblInstance w !! id).
Qed.

Lemma bolt_BatchDeleteInstances_spec ids w : bolt_ok w ->
  ends (bolt_BatchDeleteInstances ids) w (fun w' r => bolt_ok w' /\ bolt_catalogue w' = bolt_catalogue w /\
    same_off (list_to_set ids) (bolt_stored w) (bolt_stored w') /\ bolt_stored w' ⊆ bolt_stored w /\
    (r = Okay () -> forall id, id ∈ ids -> bolt_stored w' !! id = None)).
Proof.
  intros Hok. unfold bolt_BatchDeleteInstances.
  apply (ends_each _ (fun done w' => bolt_ok w' /\ bolt_catalogue w' = bolt_catalogue w /\
    same_off (list_to_set done) (bolt_stored w) (bolt_stored w') /\ bolt_stored w' ⊆ bolt_stored w /\
    forall id, id ∈ done -> bolt_stored w' !! id = None)).
  - split_and!; [done..|]. by intros id ?%not_elem_of_nil.
  - intros dn x rest w' Hids (Hok' & Hs & Hoff & Hsub & Hdel).
    eapply ends_weaken; [by apply bolt_DeleteInstance_spec|]. intros w'' [[]|e] (Hok'' & Hs'' & Hst); rewrite Hst.
    + split_and!; [done|congruence| | |].
      * intros k Hk. rewrite lookup_delete_ne by set_solver. apply Hoff. set_solver.
      * by etransitivity; [apply delete_subseteq|].
      * intros id Hid. apply elem_of_app in Hid as [Hd|Hd%list_elem_of_singleton]; [|subst].
      2: by rewrite lookup_delete_eq.
        destruct (decide (id = x)) as [->|]; [by rewrite lookup_delete_eq|]. rewrite lookup_delete_ne by done. by apply Hdel.
    + split_and!; [done|congruence| |done|done]. eapply same_off_mono; [|exact Hoff]. subst. set_solver.
  - intros w' (? & ? & ? & ? & ?). done.
Qed.

Lemma bolt_BatchGetInstanceIsolate_spec ids w : bolt_ok w ->
  ends (bolt_BatchGetInstanceIsolate ids) w (fun w' r => bolt_ok w' /\ bolt_catalogue w' = bolt_catalogue w /\
    bolt_stored w' = bolt_stored w /\
    match r with
    | Okay m => forall id, id ∈ ids -> m !! id = Some (GetBool ((bolt_stored w !! id) ≫= fun c => pIsolate c.1))
    | Fail _ => True
    end).
Proof.
  intros Hok. unfold bolt_BatchGetInstanceIsolate. case_decide as Hids; [apply ends_ret; set_solver|].
  apply ends_bind. unfold LoadValues. rewrite decide_False by done. apply ends_view. intros l. split; [done|].
  apply ends_ret. split_and!; [done..|]. intros id Hid.
  apply lookup_set_to_map; [by intros y y' _ _|]. exists id. split; [done|]. f_equal. rewrite stored_lookup.
  unfold loadValues. cbn [tblInstance set_faults].
  destruct (tblInstance w !! id) as [i|] eqn:Hi.
  - rewrite (map_lookup_filter_Some_2 _ _ id i) by done. cbn [mbind option_bind]. by destruct (Valid i).
  - by rewrite map_lookup_filter_None_2 by by left.
Qed.

Lemma ok_row w k i : bolt_ok w -> tblInstance w !! k = Some i -> ID i = k /\ hasProto i = true /\ well_formed i.
Proof.
  intros [Hi _] Hk. destruct (Hi k i Hk) as [Hid Hwf]. split_and!; [done| |done]. destruct Hwf as (p & Hp & _).
  unfold hasProto. by rewrite Hp.
Qed.

Lemma filter_lookup w (f : Instance -> bool) k :
  loadValuesByFilter w f !! k = tblInstance w !! k ≫= fun i => if f i then Some i else None.
Proof.
  unfold loadValuesByFilter. rewrite map_lookup_filter. destruct (tblInstance w !! k) as [i|]; cbn [mbind option_bind]; [|done].
  destruct (f i) eqn:Hf; [by rewrite option_guard_True|by rewrite option_guard_False by (cbn; congruence)].
Qed.

Lemma bolt_GetInstance_spec id w : bolt_ok w ->
  ends (bolt_GetInstance id) w (fun w' r => bolt_ok w' /\ bolt_catalogue w' = bolt_catalogue w /\ bolt_stored w' = bolt_stored w /\
    match r with
    | Okay o => content <$> o = bolt_stored w !! id /\ forall i, o = Some i -> ID i = id /\ well_formed i
    | Fail _ => True
    end).
Proof.
  intros Hok. unfold bolt_GetInstance. apply ends_bind. unfold LoadValuesByFilter. apply ends_view. intros l. split; [done|].
  apply ends_ret. split_and!; [done..| |].
  - rewrite filter_lookup, stored_lookup. cbn [tblInstance set_faults].
    destruct (tblInstance w !! id) as [i|] eqn:Hi; [|done]. destruct (ok_row w id i Hok Hi) as (Hid & Hp & _).
    cbn [mbind option_bind]. unfold ID in Hid. rewrite Hp, (bool_decide_true (_ = id)) by done. by destruct (Valid i).
  - intros i. rewrite filter_lookup. cbn [tblInstance set_faults].
    destruct (tblInstance w !! id) as [i'|] eqn:Hi; [|done]. destruct (ok_row w id i' Hok Hi) as (Hid & Hp & Hwf).
    cbn [mbind option_bind]. match goal with |- context [if ?b then _ else _] => destruct b; [by intros [= <-]|done] end.
Qed.

Lemma bolt_GetInstancesBrief_spec ids w : bolt_ok w ->
  ends (bolt_GetInstancesBrief ids) w (fun w' r => bolt_ok w' /\ bolt_catalogue w' = bolt_catalogue w /\ bolt_stored w' = bolt_stored w /\
    match r with
    | Okay m => forall id, is_Some (m !! id) <-> id ∈ ids /\ is_Some (bolt_stored w !! id)
    | Fail _ => True
    end).
Proof.
  intros Hok. unfold bolt_GetInstancesBrief. case_decide as Hids.
  { apply ends_ret. split_and!; [done..|]. intros id. subst. rewrite lookup_empty, is_Some_alt. set_solver. }
  apply ends_bind. unfold LoadValuesByFilter. apply ends_view. intros l. split; [done|]. apply ends_bind, ends_attempt.
  destruct (ends_view (fun w => filter (fun kv => svcValid kv.2 = true) (tblService w)) (set_faults w l)
    (fun w' _ => bolt_ok w' /\ bolt_catalogue w' = bolt_catalogue w /\ bolt_stored w' = bolt_stored w)) as (w' & r & Hm & Hok' & Hs & Hst);
    [done|]. rewrite Hm.
  eexists _, _. split; [done|].
  set (svcs := match r with Okay m => m | Fail _ => ∅ end). case_decide as Hall; [|by apply ends_raise].
  apply ends_ret. split_and!; [done..|]. intros id. rewrite lookup_omap, filter_lookup, stored_lookup. cbn [tblInstance set_faults].
  specialize (Hall id). setoid_rewrite filter_lookup in Hall. cbn [tblInstance set_faults] in Hall.
  destruct (tblInstance w !! id) as [i|] eqn:Hi; cbn [mbind option_bind] in *; [|rewrite is_Some_alt; naive_solver].
  destruct (ok_row w id i Hok Hi) as (Hid & Hp & _). unfold ID in Hid. rewrite Hp, Hid in *.
  destruct (Valid i); cbn [andb] in *; [|rewrite is_Some_alt; naive_solver].
  destruct (decide (id ∈ ids)) as [Hin|Hin]; [rewrite bool_decide_true in * by done|rewrite bool_decide_false in * by done].
  - destruct (Hall i eq_refl) as [s Hsv]. cbn [mbind option_bind]. fold svcs in Hsv. rewrite Hsv. cbn. naive_solver.
  - cbn. rewrite is_Some_alt. naive_solver.
Qed.

Lemma bolt_GetServiceByID_spec id s w : bolt_ok w -> bolt_services w !! id = Some s ->
  ends (bolt_GetServiceByID id) w (fun w' r => bolt_ok w' /\ bolt_catalogue w' = bolt_catalogue w /\ bolt_stored w' = bolt_stored w /\
    match r with Okay o => o = Some s | Fail _ => True end).
Proof.
  intros Hok Hs. unfold bolt_services in Hs. rewrite lookup_omap in Hs.
  destruct (tblService w !! id) as [s'|] eqn:Hs'; [|done]. cbn [mbind option_bind] in Hs.
  destruct (svcValid s') eqn:Hv; [|done]. injection Hs as [= ->].
  unfold bolt_GetServiceByID. apply ends_bind. unfold loadServices. apply ends_view. intros l. split; [done|].
  case_decide; [by apply ends_raise|]. apply ends_bind, (ends_deref _ s).
  - apply map_lookup_filter_Some_2; [done|]. cbn. apply bool_decide_eq_true. by apply Hok in Hs'.
  - apply ends_ret. rewrite Hv. done.
Qed.

Lemma plain_matches pattern name : plain pattern -> matches pattern name = bool_decide (name = pattern).
Proof. intros [Hne Hw]. unfold matches. by rewrite Hw, bool_decide_false by done. Qed.

(** The services that a name finds. *)
Lemma matches_named name namespace k s w : plain name -> plain namespace -> bolt_ok w ->
  filter (fun kv : string * ServiceModel => (svcValid kv.2 && matches name (svcName kv.2) && matches namespace (svcNamespace kv.2)) = true)
    (tblService w) !! k = Some s <->
  bolt_services w !! k = Some s /\ has_name name namespace s.
Proof.
  intros Hn Hns Hok. rewrite map_lookup_filter_Some. unfold bolt_services. rewrite lookup_omap_Some. cbn [snd].
  rewrite !plain_matches by done. rewrite !andb_true_iff, !bool_decide_eq_true. unfold has_name. split.
  - intros (Hs & (Hv & ?) & ?). split; [|done]. exists s. by rewrite Hv.
  - intros ((s' & Hv & Hs) & ? & ?). destruct (svcValid s') eqn:Hv'; [|done]. injection Hv as ->. by rewrite Hv'.
Qed.

Lemma bolt_GetService_spec name namespace w : bolt_ok w ->
  ends (bolt_GetService name namespace) w (fun w' r => bolt_ok w' /\ bolt_catalogue w' = bolt_catalogue w /\ bolt_stored w' = bolt_stored w /\
    match r with
    | Okay o => plain name -> plain namespace ->
        match o with
        | Some s => bolt_services w !! svcID s = Some s /\ has_name name namespace s
        | None => map_Forall (fun _ s => ~ has_name name namespace s) (bolt_services w)
        end
    | Fail _ => True
    end).
Proof.
  intros Hok. unfold bolt_GetService, bolt_getServiceByNameAndNs. apply ends_bind. unfold loadServices. apply ends_view.
  intros l. split; [done|]. apply ends_ret. split_and!; [done..|]. intros Hn Hns. cbn [tblService set_faults]. set (m := filter _ _).
  assert (forall k s, m !! k = Some s <-> bolt_services w !! k = Some s /\ has_name name namespace s) as Hm by (intros; by apply matches_named).
  destruct (map_to_list m) as [|[k s] rest] eqn:Hl.
  - cbn. intros k s Hs Hname. apply map_to_list_empty_iff in Hl. specialize (proj2 (Hm k s) (conj Hs Hname)). by rewrite Hl, lookup_empty.
  - cbn. assert (m !! k = Some s) as Hk by (apply elem_of_map_to_list; rewrite Hl; by left).
    apply Hm in Hk as [Hk Hname]. split; [|done].
    assert (svcID s = k) as ->; [|done]. unfold bolt_services in Hk. rewrite lookup_omap_Some in Hk. destruct Hk as (s' & Hv & Hs').
    destruct (svcValid s'); [|done]. injection Hv as ->. by apply Hok in Hs'.
Qed.

Lemma bolt_stored_ids w k c : bolt_ok w -> bolt_stored w !! k = Some c -> GetValue (pId c.1) = k /\ wrapped c.1.
Proof.
  intros Hok (i & Hi & _ & <-)%stored_Some. destruct (ok_row w k i Hok Hi) as (Hid & _ & p & Hp & Hw). unfold ID, proto in *.
  cbn [content fst]. unfold proto. rewrite Hp in *. split; [done|]. split; apply Hw.
Qed.

#[export] Instance bolt_laws : @InstanceStorageLaws bolt bolt_storage :=
  @Build_InstanceStorageLaws bolt bolt_storage bolt_stored bolt_catalogue bolt_ok bolt_stored_ids
    bolt_AddInstance_spec bolt_BatchAddInstances_spec bolt_UpdateInstance_spec bolt_DeleteInstance_spec bolt_BatchDeleteInstances_spec
    bolt_BatchGetInstanceIsolate_spec bolt_GetInstancesBrief_spec bolt_GetInstance_spec bolt_GetServiceByID_spec
    bolt_GetService_spec.

End boltdb.
