(* ===== verification/BoltServices.v ===== *)
(** * Services and namespaces in the boltdb store ([src/store/boltdb/service.go], [namespace.go], [transaction.go], [instance.go])

    The rest of the store of [BoltStore.v]: the tables of services and of
    namespaces, and [ServiceStorageLaws] for it.  The tables of circuit breakers
    and of configuration groups are not modelled: how many rows they have for a
    namespace is an argument. *)

From S2P Require Import Prelude Effects GoStrings Utils Registry Services Namespace InstanceStore ServiceStore L5 BoltStore.
From Stdlib Require Import ZArith Lia.
From stdpp Require Import base tactics list gmap strings pretty.

Open Scope Z_scope.

Section boltdb.
  Context (Time2String : Z -> string).
  Context (range : gmap string Instance -> list (string * Instance)).
  (** The order in which Go ranges over a map of services. *)
  Context (rangeS : gmap string ServiceModel -> list (string * ServiceModel)).
  Context (circuitBreakers configGroups : string -> Z).

(** ** The table of services *)

Definition saveService (w : bolt) (key : string) (value : ServiceModel) : bolt := set_tblService w (<[key := value]> (tblService w)).
Definition updateService (w : bolt) (key : string) (properties : ServiceModel -> ServiceModel) : bolt :=
  set_tblService w (alter properties key (tblService w)).
Definition deleteService (w : bolt) (key : string) : bolt := set_tblService w (delete key (tblService w)).

Definition SaveService (key : string) (value : ServiceModel) : db unit := transaction (modify (fun w => saveService w key value)).
Definition UpdateServiceRow (key : string) (properties : ServiceModel -> ServiceModel) : db unit :=
  transaction (modify (fun w => updateService w key properties)).
Definition DeleteServiceRow (key : string) : db unit := transaction (modify (fun w => deleteService w key)).

Definition initService (currT : Z) (s : ServiceModel) : ServiceModel :=
  mkService (svcID s) (svcName s) (svcNamespace s) (svcBusiness s) (svcPorts s) (svcMeta s) (svcComment s) (svcDepartment s)
    (svcCmdbMod1 s) (svcCmdbMod2 s) (svcCmdbMod3 s) (svcToken s) (svcOwner s) (svcRevision s) (svcReference s) (svcPlatformID s)
    true currT currT.

(** More than one row of a name is an error. *)
Definition getServiceByNameAndNsIgnoreValid (name namespace : string) : db (option ServiceModel) :=
  svc ← loadServices (fun s => bool_decide (svcName s = name) && bool_decide (svcNamespace s = namespace));
  match (map_to_list svc).*2 with
  | [] => mret None
  | [s] => mret (Some s)
  | _ => raise Unknown
  end.

Definition cleanInValidService (name namespace : string) : db unit :=
  old ← getServiceByNameAndNsIgnoreValid name namespace;
  match old with None => mret () | Some old => DeleteServiceRow (svcID old) end.

Definition bolt_AddService (s : ServiceModel) : db ServiceModel :=
  _ ← cleanInValidService (svcName s) (svcNamespace s);
  w ← get;
  let s := initService (clock w) s in
  if decide (svcID s = "" \/ svcName s = "" \/ svcNamespace s = "") then raise EmptyParamsErr
  else _ ← SaveService (svcID s) s; mret s.

Definition invalidate (currT : Z) (s : ServiceModel) : ServiceModel :=
  mkService (svcID s) (svcName s) (svcNamespace s) (svcBusiness s) (svcPorts s) (svcMeta s) (svcComment s) (svcDepartment s)
    (svcCmdbMod1 s) (svcCmdbMod2 s) (svcCmdbMod3 s) (svcToken s) (svcOwner s) (svcRevision s) (svcReference s) (svcPlatformID s)
    false (svcCreateTime s) currT.

Definition bolt_DeleteService (id serviceName namespaceName : string) : db unit :=
  if decide (id = "") then raise EmptyParamsErr else w ← get; UpdateServiceRow id (invalidate (clock w)).

Definition bolt_DeleteServiceAlias (name namespace : string) : db unit :=
  if decide (name = "" \/ namespace = "") then raise EmptyParamsErr
  else
    svc ← bolt_getServiceByNameAndNs name namespace;
    match svc with
    | None => mret ()
    | Some svc => w ← get; UpdateServiceRow (svcID svc) (invalidate (clock w))
    end.

Definition bolt_UpdateServiceAlias (alias : ServiceModel) (needUpdateOwner : bool) : db unit :=
  if decide (svcID alias = "" \/ svcName alias = "" \/ svcNamespace alias = "" \/ svcRevision alias = "" \/ svcReference alias = "" \/
             (needUpdateOwner = true /\ svcOwner alias = "")) then raise EmptyParamsErr
  else
    w ← get;
    UpdateServiceRow (svcID alias) (fun s =>
      mkService (svcID s) (svcName alias) (svcNamespace alias) (svcBusiness s) (svcPorts s) (svcMeta s) (svcComment alias) (svcDepartment s)
        (svcCmdbMod1 s) (svcCmdbMod2 s) (svcCmdbMod3 s) (svcToken alias) (svcOwner alias) (svcRevision alias) (svcReference alias)
        (svcPlatformID s) (svcValid s) (svcCreateTime s) (clock w)).

(** The metadata is written whatever it is; the platform is not. *)
Definition bolt_UpdateService (service : ServiceModel) (needUpdateOwner : bool) : db unit :=
  if decide (svcID service = "" \/ svcName service = "" \/ svcNamespace service = "" \/ svcToken service = "" \/ svcOwner service = "" \/
             svcRevision service = "") then raise EmptyParamsErr
  else
    w ← get;
    UpdateServiceRow (svcID service) (fun s =>
      mkService (svcID s) (svcName service) (svcNamespace service) (svcBusiness service) (svcPorts service) (svcMeta service)
        (svcComment service) (svcDepartment service) (svcCmdbMod1 service) (svcCmdbMod2 service) (svcCmdbMod3 service) (svcToken service)
        (svcOwner service) (svcRevision service) (svcReference service) (svcPlatformID s) (svcValid s) (svcCreateTime s) (clock w)).

Definition bolt_UpdateServiceToken (serviceID token revision : string) : db unit :=
  w ← get;
  UpdateServiceRow serviceID (fun s =>
    mkService (svcID s) (svcName s) (svcNamespace s) (svcBusiness s) (svcPorts s) (svcMeta s) (svcComment s) (svcDepartment s)
      (svcCmdbMod1 s) (svcCmdbMod2 s) (svcCmdbMod3 s) token (svcOwner s) revision (svcReference s) (svcPlatformID s) (svcValid s)
      (svcCreateTime s) (clock w)).

(** ** Queries *)

(** [doPageAliasServices] and [getRealServicesList] put the latest first. *)
Section page.
  Context {A : Type} (modified : A -> Z) (id : A -> string).
Definition later (a b : A) : bool :=
  bool_decide (modified b < modified a) || bool_decide (modified a = modified b) && String.ltb (id a) (id b).
Fixpoint insert_later (a : A) (l : list A) : list A :=
  match l with [] => [a] | b :: l' => if later b a then b :: insert_later a l' else a :: b :: l' end.
Definition page (l : list A) (offset limit : Z) : list A :=
  let endIndex := wrap_u 32 (offset + limit) in
  let totalCount := wrap_u 32 (Z.of_nat (length l)) in
  if decide (totalCount = 0 \/ endIndex <= offset \/ totalCount <= offset) then []
  else let endIndex := if decide (totalCount < endIndex) then totalCount else endIndex in
       take (Z.to_nat (endIndex - offset)) (drop (Z.to_nat offset) (foldr insert_later [] l)).
End page.

(** A filter that is there must hold. *)
Definition where_ (filter : gmap string string) (key : string) (p : string -> bool) : bool :=
  match filter !! key with Some v => p v | None => true end.

(** A pattern is stripped of its star, and then must still be equal. *)
Definition wild_eq (value pattern : string) : bool :=
  let '(p, isWild) := ParseWildName pattern in negb (isWild && negb (Contains value p)) && bool_decide (value = p).

Definition isAliasRow (filter : gmap string string) (s : ServiceModel) : bool :=
  svcValid s && IsAlias s && where_ filter "alias" (wild_eq (svcName s)) && where_ filter "alias_namespace" (wild_eq (svcNamespace s)) &&
  where_ filter "keys" (fun k =>
    match GetMap (svcMeta s) !! k with None => false | Some v => where_ filter "values" (fun v' => bool_decide (v' = v)) end) &&
  where_ filter "department" (fun v => bool_decide (v = svcDepartment s)) && where_ filter "business" (fun v => bool_decide (v = svcBusiness s)).

(** The error of the second read is dropped: then no alias is found. *)
Definition bolt_GetServiceAliases (filter : gmap string string) (offset limit : Z) : db (Z * list ServiceAlias) :=
  services ← loadServices (isAliasRow filter);
  let referenceService : gset string := list_to_set (svcReference <$> (rangeS services).*2) in
  refServices ← attempt (loadServices (fun s =>
    svcValid s && where_ filter "service" (fun v => bool_decide (svcName s = v)) &&
    where_ filter "namespace" (fun v => bool_decide (svcNamespace s = v)) && bool_decide (svcID s ∈ referenceService)));
  let refServices := match refServices with Okay m => m | Fail _ => ∅ end in
  let serviceAlias := omap (fun s => (fun r =>
    mkAlias (svcID s) (svcName s) (svcNamespace s) (svcReference s) (svcName r) (svcNamespace r) (svcOwner s) (svcComment s)
      (svcCreateTime s) (svcModifyTime s)) <$> refServices !! svcReference s) (rangeS services).*2 in
  mret (wrap_u 32 (Z.of_nat (length serviceAlias)), page alModifyTime alID serviceAlias offset limit).

(** A pattern ends the comparison: the filters after it are not asked. *)
Definition prefixed (filters : gmap string string) (key value : string) (rest : bool) : bool :=
  match filters !! key with
  | None => rest
  | Some pattern =>
      if decide (pattern = "") then rest
      else if IsPrefixWildName pattern then Contains value (String.substring 0 (String.length pattern - 1) pattern)
      else bool_decide (value = pattern) && rest
  end.

Definition serviceMatches (ids : gset string) (filters : gmap string string) (metas : list (string * string)) (s : ServiceModel) : bool :=
  svcValid s && (bool_decide (ids = ∅) || bool_decide (svcID s ∈ ids)) &&
  prefixed filters "namespace" (svcNamespace s) (prefixed filters "name" (svcName s)
    (match metas with
     | [] => true
     | (k, v) :: _ => match GetMap (svcMeta s) !! k with None => false | Some v' => bool_decide (v = "" \/ v = v') end
     end && prefixed filters "department" (svcDepartment s) (prefixed filters "business" (svcBusiness s) true))).

Definition instanceMatches (args : InstanceArgs) (i : Instance) : bool :=
  Valid i && hasProto i && (bool_decide (argHosts args = []) || bool_decide (Host i ∈ argHosts args)) &&
  (bool_decide (argPorts args = []) || bool_decide (Port i ∈ argPorts args)).

(** No service id means no filter on instances. *)
Definition bolt_GetServices (filters : gmap string string) (metas : list (string * string)) (args : option InstanceArgs) (offset limit : Z)
    : db (Z * list ServiceModel) :=
  ids ← (match args with
         | Some args =>
             if decide (argHosts args = [] /\ argPorts args = []) then mret (∅ : gset string)
             else inss ← LoadValuesByFilter (instanceMatches args); mret (list_to_set (ServiceID <$> (range inss).*2))
         | None => mret ∅
         end);
  svcs ← loadServices (serviceMatches ids filters metas);
  mret (wrap_u 32 (Z.of_nat (size svcs)), page svcModifyTime svcID (rangeS svcs).*2 offset limit).

Definition compareParam2BoolNotEqual (param : string) (b : bool) : bool := negb (bool_decide (param = if b then "1" else "0")).

Definition expandMatches (filter : gmap string string) (metas : list (string * string)) (svcIDs : option (gset string)) (i : Instance) : bool :=
  let p := proto i in
  Valid i && hasProto i &&
  where_ filter "id" (fun id => if IsWildName id then IsWildMatch (ID i) id else bool_decide (id = ID i)) &&
  where_ filter "host" (fun host => bool_decide (host = Host i)) && where_ filter "port" (fun port => bool_decide (port = pretty (Port i))) &&
  where_ filter "protocol" (fun v => bool_decide (v = GetValue (pProtocol p))) &&
  where_ filter "version" (fun v => bool_decide (v = GetValue (pVersion p))) &&
  where_ filter "health_status" (fun v => negb (compareParam2BoolNotEqual v (GetBool (pHealthy p)))) &&
  where_ filter "isolate" (fun v => negb (compareParam2BoolNotEqual v (GetBool (pIsolate p)))) &&
  match svcIDs with None => true | Some ids => bool_decide (ServiceID i ∈ ids) end &&
  match metas with [] => true | (k, v) :: _ => bool_decide (GetMap (pMetadata p) !! k = Some v) end.

(** The names of the service go into the answer; an instance whose service has no
    row is an error.  Services are loaded twice, the first time for nothing. *)
Definition bolt_GetExpandInstances (filter : gmap string string) (metas : list (string * string)) (offset limit : Z) : db (Z * list Instance) :=
  if decide (limit = 0) then mret (0, [])
  else
    let find := bool_decide (is_Some (filter !! "name") \/ is_Some (filter !! "namespace")) in
    svcs ← (if find then
              loadServices (fun s => svcValid s && matches (GetValue (filter !! "name")) (svcName s) &&
                                     matches (GetValue (filter !! "namespace")) (svcNamespace s))
            else mret ∅);
    let svcIDs : gset string := list_to_set (svcID <$> (rangeS svcs).*2) in
    if decide (find = true /\ svcIDs = ∅) then mret (0, [])
    else
      instances ← LoadValuesByFilter (expandMatches filter metas (if find then Some svcIDs else None));
      let svcIds : gset string := list_to_set (ServiceID <$> (range instances).*2) in
      _ ← (if decide (instances = ∅) then mret (Okay ∅) else attempt (loadServices (fun s => bool_decide (svcID s ∈ svcIds))));
      svcRets ← loadServices (fun _ => true);
      if decide (map_Forall (fun _ i => is_Some (svcRets !! ServiceID i)) instances) then
        let named := omap (fun i => (fun s => set_Proto i (set_Namespace (set_Service (proto i) (Some (svcName s))) (Some (svcNamespace s))))
                                      <$> svcRets !! ServiceID i) instances in
        mret (wrap_u 32 (Z.of_nat (size instances)), getRealInstancesList range named offset limit)
      else raise Unknown.

(** ** Other tables *)

Definition bolt_HasRoutingConfig (id : string) : db bool := transaction (w ← get; mret (default false (tblRouting w !! id))).

Definition bolt_GenNextL5Sid (layoutID : Z) : db string :=
  _ ← transaction (modify (fun w => set_l5 w (nextL5 (l5 w))));
  w ← get; mret (l5_sid (l5 w) layoutID).

(** ** Namespaces *)

Definition saveNamespace (w : bolt) (n : NamespaceModel) : bolt := set_tblNamespace w (<[nsName n := n]> (tblNamespace w)).
Definition deleteNamespace (w : bolt) (name : string) : bolt := set_tblNamespace w (delete name (tblNamespace w)).
Definition updateNamespace (w : bolt) (name : string) (properties : NamespaceModel -> NamespaceModel) : bolt :=
  set_tblNamespace w (alter properties name (tblNamespace w)).

Definition bolt_AddNamespace (n : NamespaceModel) : db NamespaceModel :=
  if decide (nsName n = "") then raise Unknown
  else
    _ ← transaction (modify (fun w => deleteNamespace w (nsName n)));
    w ← get;
    let n := mkNamespace (nsName n) (nsComment n) (nsToken n) (nsOwner n) true (clock w) (clock w) in
    _ ← transaction (modify (fun w => saveNamespace w n));
    mret n.

Definition bolt_UpdateNamespace (n : NamespaceModel) : db unit :=
  if decide (nsName n = "") then raise Unknown
  else
    w ← get;
    transaction (modify (fun w' => updateNamespace w' (nsName n) (fun old =>
      mkNamespace (nsName old) (nsComment n) (nsToken old) (nsOwner n) (nsValid old) (nsCreateTime old) (clock w)))).

Definition bolt_UpdateNamespaceToken (name token : string) : db unit :=
  if decide (name = "" \/ token = "") then raise Unknown
  else
    w ← get;
    transaction (modify (fun w' => updateNamespace w' name (fun old =>
      mkNamespace (nsName old) (nsComment old) token (nsOwner old) (nsValid old) (nsCreateTime old) (clock w)))).

Definition bolt_GetNamespace (name : string) : db (option NamespaceModel) := transaction (w ← get; mret (tblNamespace w !! name)).

(** ** Transactions

    They lock nothing, and each of their calls is a transaction of the database. *)

Definition bolt_CreateTransaction : db unit := mret ().
Definition bolt_LockNamespace : string -> db (option NamespaceModel) := bolt_GetNamespace.
Definition bolt_DeleteNamespace (name : string) : db unit := transaction (modify (fun w => deleteNamespace w name)).
Definition bolt_LockService (name namespace : string) : db (option ServiceModel) :=
  values ← loadServices (fun s => svcValid s && bool_decide (svcName s = name) && bool_decide (svcNamespace s = namespace));
  mret (head (rangeS values).*2).

#[export] Instance bolt_service_storage : ServiceStorage bolt := {|
  AddService := bolt_AddService;
  DeleteService := bolt_DeleteService;
  DeleteServiceAlias := bolt_DeleteServiceAlias;
  UpdateServiceAlias := bolt_UpdateServiceAlias;
  UpdateService := bolt_UpdateService;
  UpdateServiceToken := bolt_UpdateServiceToken;
  GetServiceAliases := bolt_GetServiceAliases;
  GetExpandInstances := bolt_GetExpandInstances;
  GetServices := bolt_GetServices;
  HasRoutingConfig := bolt_HasRoutingConfig;
  GenNextL5Sid := bolt_GenNextL5Sid;
  CreateTransaction := bolt_CreateTransaction;
  LockService := bolt_LockService;
  LockNamespace := bolt_LockNamespace;
  DeleteNamespace := bolt_DeleteNamespace;
  GetNamespace := bolt_GetNamespace;
  AddNamespace := bolt_AddNamespace;
  UpdateNamespace := bolt_UpdateNamespace;
  UpdateNamespaceToken := bolt_UpdateNamespaceToken;
  CircuitBreakerCount := fun namespace => transaction (_ ← get; mret (circuitBreakers namespace));
  ConfigGroupCount := fun namespace => transaction (_ ← get; mret (configGroups namespace)) |}.

(** ** The laws *)

#[local] Instance istore : InstanceStorage bolt := bolt_storage Time2String range.
#[local] Instance ilaws : InstanceStorageLaws bolt := bolt_laws Time2String range.

Context (range_ok : forall m, rangeS m ≡ₚ map_to_list m).

Lemma ok_service w k s : bolt_ok w -> bolt_services w !! k = Some s -> svcID s = k /\ svcValid s = true /\ tblService w !! k = Some s.
Proof.
  intros (_ & Hs & _) Hk. unfold bolt_services in Hk. rewrite lookup_omap_Some in Hk. destruct Hk as (s' & Hv & Hl).
  destruct (svcValid s') eqn:Hv'; [|done]. injection Hv as ->. by pose proof (Hs _ _ Hl).
Qed.

Lemma services_row w k s : tblService w !! k = Some s -> svcValid s = true -> bolt_services w !! k = Some s.
Proof. intros Hk Hv. unfold bolt_services. rewrite lookup_omap, Hk. cbn. by rewrite Hv. Qed.

Lemma services_update w k f : bolt_services (updateService w k f) =
  match tblService w !! k with
  | Some s => if svcValid (f s) then <[k := f s]> (bolt_services w) else delete k (bolt_services w)
  | None => bolt_services w
  end.
Proof.
  apply map_eq. intros j. unfold bolt_services, updateService. cbn [tblService set_tblService]. rewrite lookup_omap.
  destruct (decide (j = k)) as [->|Hj].
  - rewrite lookup_alter_eq. destruct (tblService w !! k) as [s|] eqn:Hk; cbn; [|by rewrite lookup_omap, Hk].
    destruct (svcValid (f s)); [by rewrite lookup_insert_eq|by rewrite lookup_delete_eq].
  - rewrite lookup_alter_ne by done. destruct (tblService w !! k) as [s|] eqn:Hk; [|by rewrite lookup_omap].
    destruct (svcValid (f s)); [rewrite lookup_insert_ne by done|rewrite lookup_delete_ne by done]; by rewrite lookup_omap.
Qed.

Lemma services_save w k s : svcValid s = true -> bolt_services (saveService w k s) = <[k := s]> (bolt_services w).
Proof. intros Hv. unfold bolt_services, saveService. cbn [tblService set_tblService]. apply omap_insert_Some. by rewrite Hv. Qed.

Lemma services_delete w k : bolt_services (deleteService w k) = delete k (bolt_services w).
Proof. unfold bolt_services, deleteService. cbn [tblService set_tblService]. apply omap_delete. Qed.

Lemma ok_update_service w k f : bolt_ok w -> (forall s, svcID (f s) = svcID s) -> bolt_ok (updateService w k f).
Proof.
  intros (H1 & H2 & H3) Hf. split; [done|]. split; [|done]. intros j s. unfold updateService. cbn [tblService set_tblService].
  destruct (decide (j = k)) as [->|Hj]; [|rewrite lookup_alter_ne by done; apply H2].
  rewrite lookup_alter_eq, fmap_Some. intros (s' & Hs' & ->). rewrite Hf. by apply H2.
Qed.

Lemma ok_delete_service w k : bolt_ok w -> bolt_ok (deleteService w k).
Proof. intros (H1 & H2 & H3). split; [done|]. split; [|done]. by apply map_Forall_delete. Qed.

Lemma ok_save_service w s : bolt_ok w -> bolt_ok (saveService w (svcID s) s).
Proof. intros (H1 & H2 & H3). split; [done|]. split; [|done]. by apply map_Forall_insert_2. Qed.

(** One change of the table of services. *)
Lemma change_services (f : bolt -> bolt) w (Q : result StatusCode unit -> gmap string ServiceModel -> Prop) :
  bolt_ok w ->
  (forall l, bolt_ok (f (set_faults w l)) /\ bolt_stored (f (set_faults w l)) = bolt_stored w /\ tblNamespace (f (set_faults w l)) = tblNamespace w /\
     Q (Okay ()) (bolt_services (f (set_faults w l)))) ->
  Q (Fail Unknown) (bolt_services w) ->
  on_services (transaction (modify f)) w Q.
Proof.
  intros Hok Hf HF. apply ends_update. intros l. split; [by split_and!|]. destruct (Hf l) as (H1 & H2 & H3 & H4). by split_and!.
Qed.

Lemma row_changed w k f (old : ServiceModel) (Q : result StatusCode unit -> gmap string ServiceModel -> Prop) :
  bolt_ok w -> bolt_services w !! k = Some old -> (forall s, svcID (f s) = svcID s) -> svcValid (f old) = svcValid old ->
  Q (Okay ()) (<[k := f old]> (bolt_services w)) -> Q (Fail Unknown) (bolt_services w) ->
  on_services (UpdateServiceRow k f) w Q.
Proof.
  intros Hok Hk Hf Hv HQ HF. destruct (ok_service _ _ _ Hok Hk) as (Hid & Hval & Hrow). apply change_services; [done| |done].
  intros l. split_and!; [by apply (ok_update_service (set_faults w l))|done..|].
  rewrite services_update. cbn [tblService set_faults]. by rewrite Hrow, Hv, Hval.
Qed.

Lemma row_invalidated w k t (Q : result StatusCode unit -> gmap string ServiceModel -> Prop) :
  bolt_ok w -> Q (Okay ()) (delete k (bolt_services w)) -> Q (Fail Unknown) (bolt_services w) ->
  on_services (UpdateServiceRow k (invalidate t)) w Q.
Proof.
  intros Hok HQ HF. apply change_services; [done| |done]. intros l. split_and!; [by apply (ok_update_service (set_faults w l))|done..|].
  rewrite services_update. cbn [tblService set_faults]. destruct (tblService w !! k) eqn:Hk; [done|].
  rewrite delete_id in HQ; [done|]. unfold bolt_services. by rewrite lookup_omap, Hk.
Qed.

Lemma refused {A} e w (Q : result StatusCode A -> gmap string ServiceModel -> Prop) :
  bolt_ok w -> Q (Fail e) (bolt_services w) -> on_services (raise e) w Q.
Proof. intros Hok HQ. by apply ends_raise. Qed.

Lemma from_now {A} (k : bolt -> db A) w (Q : result StatusCode A -> gmap string ServiceModel -> Prop) :
  on_services (k w) w Q -> on_services (get ≫= k) w Q.
Proof. intros HQ. by apply ends_bind, ends_get. Qed.

Lemma bolt_DeleteService_spec id name namespace w : bolt_ok w ->
  on_services (bolt_DeleteService id name namespace) w (fun r m =>
    m = match r with Okay _ => delete id (bolt_services w) | Fail _ => bolt_services w end).
Proof.
  intros Hok. unfold bolt_DeleteService. case_decide; [by apply refused|]. apply from_now. by apply row_invalidated.
Qed.

Lemma bolt_UpdateService_spec s o old w : bolt_ok w -> bolt_services w !! svcID s = Some old -> same_place old s ->
  on_services (bolt_UpdateService s o) w (fun r m =>
    match r with
    | Okay _ => exists s', m = <[svcID s := s']> (bolt_services w) /\ same_place old s' /\ svcReference s' = svcReference s
    | Fail _ => m = bolt_services w
    end).
Proof.
  intros Hok Hs (H1 & H2 & H3). unfold bolt_UpdateService. case_decide; [by apply refused|]. apply from_now.
  eapply row_changed; [done..| |done]. eexists. split; [done|]. by split.
Qed.

Lemma bolt_UpdateServiceAlias_spec s o old w : bolt_ok w -> bolt_services w !! svcID s = Some old -> same_place old s ->
  on_services (bolt_UpdateServiceAlias s o) w (fun r m =>
    match r with
    | Okay _ => exists s', m = <[svcID s := s']> (bolt_services w) /\ same_place old s' /\ svcReference s' = svcReference s
    | Fail _ => m = bolt_services w
    end).
Proof.
  intros Hok Hs (H1 & H2 & H3). unfold bolt_UpdateServiceAlias. case_decide; [by apply refused|]. apply from_now.
  eapply row_changed; [done..| |done]. eexists. split; [done|]. by split.
Qed.

Lemma bolt_UpdateServiceToken_spec id token revision old w : bolt_ok w -> bolt_services w !! id = Some old ->
  on_services (bolt_UpdateServiceToken id token revision) w (fun r m =>
    match r with
    | Okay _ => exists s', m = <[id := s']> (bolt_services w) /\ untimed s' = untimed (set_token old token revision)
    | Fail _ => m = bolt_services w
    end).
Proof.
  intros Hok Hs. unfold bolt_UpdateServiceToken. apply from_now. eapply row_changed; [done..| |done]. by eexists.
Qed.

Lemma bolt_DeleteServiceAlias_spec name namespace w : bolt_ok w -> plain name -> plain namespace ->
  on_services (bolt_DeleteServiceAlias name namespace) w (fun r m =>
    match r with
    | Okay _ => (exists s, bolt_services w !! svcID s = Some s /\ has_name name namespace s /\ m = delete (svcID s) (bolt_services w)) \/
        (nobody_named name namespace (bolt_services w) /\ m = bolt_services w)
    | Fail _ => m = bolt_services w
    end).
Proof.
  intros Hok Hn Hns. unfold bolt_DeleteServiceAlias. rewrite decide_False by (destruct Hn, Hns; tauto). apply ends_bind.
  eapply ends_weaken; [by apply bolt_GetService_spec|]. intros w1 [o|err] (H1 & H2 & H3 & H4); [|by injection H2 as ? ?].
  injection H2 as Hsv Hnt. specialize (H4 Hn Hns). destruct o as [x|].
  - destruct H4 as [Hx Hname]. apply ends_bind, ends_get. set (t := clock w1).
    destruct (row_invalidated w1 (svcID x) t (fun r m => m = match r with Okay _ => delete (svcID x) (bolt_services w1) | Fail _ => bolt_services w1 end))
      as (w2 & r & Hm & Hok2 & Hst2 & Hns2 & HQ); [done..|]. exists w2, r. split; [done|].
    change (bolt_services w2 = match r with Okay _ => delete (svcID x) (bolt_services w1) | Fail _ => bolt_services w1 end) in HQ.
    rewrite Hsv in HQ. split_and!; [done|exact (eq_trans Hst2 H3)|exact (eq_trans Hns2 Hnt)|].
    destruct r as [[]|err]; [|exact HQ]. left. by exists x.
  - apply ends_ret. split_and!; [done..|]. right. split; [done|exact Hsv].
Qed.

Lemma valid_named w name namespace k s : tblService w !! k = Some s -> svcValid s = true -> nobody_named name namespace (bolt_services w) ->
  ~ has_name name namespace s.
Proof. intros Hk Hv Hno. by apply (Hno k), services_row. Qed.

(** What is cleaned away was not valid. *)
Lemma cleanInValidService_spec name namespace w : bolt_ok w -> nobody_named name namespace (bolt_services w) ->
  ends (cleanInValidService name namespace) w (fun w' r =>
    (bolt_ok w' /\ bolt_catalogue w' = bolt_catalogue w /\ bolt_stored w' = bolt_stored w) /\ r <> Fail DuplicateEntryErr).
Proof.
  intros Hok Hno. unfold cleanInValidService, getServiceByNameAndNsIgnoreValid. apply ends_bind, ends_bind. unfold loadServices.
  apply ends_view. intros l. split; [by split|]. cbn [tblService set_faults]. set (m := filter _ _).
  destruct (map_to_list m) as [|[k s] [|]] eqn:Hl; [by apply ends_ret, ends_ret| |by apply ends_raise].
  apply ends_ret, ends_update. intros l'. split; [by split|]. split; [|done]. cbn [fst snd fmap list_fmap].
  assert (m !! k = Some s) as Hk by (apply elem_of_map_to_list; rewrite Hl; by left).
  apply map_lookup_filter_Some in Hk as [Hk Hname]. cbn [snd] in Hname. rewrite andb_true_iff, !bool_decide_eq_true in Hname.
  split_and!; [by apply (ok_delete_service (set_faults w l'))| |done]. unfold bolt_catalogue. f_equal.
  change (bolt_services (deleteService (set_faults w l') (svcID s)) = bolt_services w). rewrite services_delete. apply delete_id.
  change (bolt_services w !! svcID s = None). unfold bolt_services. rewrite lookup_omap.
  destruct Hok as (_ & Hs & _). assert (svcID s = k) as -> by exact (Hs _ _ Hk).
  rewrite Hk. cbn. destruct (svcValid s) eqn:Hv; [|done]. by destruct (valid_named _ _ _ _ _ Hk Hv Hno).
Qed.

Lemma bolt_AddService_spec s w : bolt_ok w -> plain (svcName s) -> plain (svcNamespace s) -> svcID s <> "" -> bolt_services w !! svcID s = None ->
  nobody_named (svcName s) (svcNamespace s) (bolt_services w) ->
  on_services (bolt_AddService s) w (fun r m =>
    match r with
    | Okay s' => m = <[svcID s := s']> (bolt_services w) /\ untimed s' = untimed s
    | Fail e => m = bolt_services w /\ e <> DuplicateEntryErr
    end).
Proof.
  intros Hok [Hn _] [Hns _] Hid Hnone Hno. unfold bolt_AddService. apply ends_bind.
  eapply ends_weaken; [by apply cleanInValidService_spec|]. intros w1 r [(H1 & H2 & H3) Hr]. injection H2 as Hsv Hnt.
  destruct r as [[]|err]; [|split_and!; [done..|by intros ->]]. apply ends_bind, ends_get. rewrite decide_False by (cbn; tauto).
  apply ends_bind, ends_update. intros l. split; [by split_and!|]. apply ends_ret.
  split_and!; [by apply (ok_save_service (set_faults w1 l))|exact H3|exact Hnt| |done].
  etransitivity; [by apply (services_save (set_faults w1 l))|]. cbn [initService svcID]. f_equal. exact Hsv.
Qed.

(** ** Queries *)

Definition bolt_reliable (w : bolt) : Prop := Forall (eq false) (faults w).

Lemma ends_view_reliable {A} (f : bolt -> A) w (Q : bolt -> result StatusCode A -> Prop) : bolt_reliable w ->
  (forall l, bolt_reliable (set_faults w l) -> Q (set_faults w l) (Okay (f (set_faults w l)))) ->
  ends (transaction (w ← get; mret (f w))) w Q.
Proof.
  intros Hr HQ. unfold ends, transaction. assert (default false (head (faults w)) = false) as ->.
  { unfold bolt_reliable in Hr. inversion Hr; [done|by subst]. }
  unfold mbind, call_bind, get, mret, call_ret. eexists _, _. split; [done|]. apply HQ. unfold bolt_reliable in *. cbn. by inversion Hr.
Qed.

Lemma GetService_keeps_reliable name namespace w : bolt_reliable w ->
  ends (bolt_GetService name namespace) w (fun w' _ => bolt_reliable w').
Proof.
  intros Hr. unfold bolt_GetService, bolt_getServiceByNameAndNs. apply ends_bind. apply ends_view_reliable; [done|]. intros l Hl. by apply ends_ret.
Qed.

Lemma GetExpandInstances_keeps_reliable filter w : bolt_reliable w ->
  ends (bolt_GetExpandInstances filter [] 0 1) w (fun w' _ => bolt_reliable w').
Proof.
  intros Hr. unfold bolt_GetExpandInstances. case_decide; [done|]. apply ends_bind.
  set (find := bool_decide _).
  assert (forall svcs w1, bolt_reliable w1 -> ends (
      let svcIDs : gset string := list_to_set (svcID <$> (rangeS svcs).*2) in
      if decide (find = true /\ svcIDs = ∅) then mret (0, [])
      else
        instances ← LoadValuesByFilter (expandMatches filter [] (if find then Some svcIDs else None));
        let svcIds : gset string := list_to_set (ServiceID <$> (range instances).*2) in
        _ ← (if decide (instances = ∅) then mret (Okay ∅) else attempt (loadServices (fun s => bool_decide (svcID s ∈ svcIds))));
        svcRets ← loadServices (fun _ => true);
        if decide (map_Forall (fun _ i => is_Some (svcRets !! ServiceID i)) instances) then
          let named := omap (fun i => (fun s => set_Proto i (set_Namespace (set_Service (proto i) (Some (svcName s))) (Some (svcNamespace s))))
                                        <$> svcRets !! ServiceID i) instances in
          mret (wrap_u 32 (Z.of_nat (size instances)), getRealInstancesList range named 0 1)
        else raise Unknown : db (Z * list Instance)) w1 (fun w' _ => bolt_reliable w')) as Hrest.
  { intros svcs w1 Hr1. cbv zeta. case_decide; [by apply ends_ret|]. apply ends_bind, ends_view_reliable; [done|]. intros l Hl.
    assert (forall w2, bolt_reliable w2 -> forall instances, ends (
        svcRets ← loadServices (fun _ => true);
        if decide (map_Forall (fun _ i => is_Some (svcRets !! ServiceID i)) instances) then
          mret (wrap_u 32 (Z.of_nat (size instances)), getRealInstancesList range (omap (fun i => (fun s => set_Proto i (set_Namespace (set_Service (proto i) (Some (svcName s))) (Some (svcNamespace s))))
                                        <$> svcRets !! ServiceID i) instances) 0 1)
        else raise Unknown : db (Z * list Instance)) w2 (fun w' _ => bolt_reliable w')) as Hlast.
    { intros w2 Hr2 instances. apply ends_bind, ends_view_reliable; [done|]. intros l' Hl'. case_decide; [by apply ends_ret|by apply ends_raise]. }
    apply ends_bind. case_decide; [by apply ends_ret, Hlast|]. apply ends_attempt.
    match goal with |- exists _ _, loadServices ?p ?w = _ /\ _ =>
      destruct (ends_view_reliable (fun x => base.filter (fun kv => p kv.2 = true) (tblService x)) w (fun w' _ => bolt_reliable w')) as (w3 & r & Hm & Hr3); [done|done|] end.
    exists w3, r. split; [exact Hm|]. by apply Hlast. }
  destruct find; [|by apply ends_ret, Hrest]. apply ends_view_reliable; [done|]. intros l Hl. by apply Hrest.
Qed.

Lemma isAliasRow_named name namespace s : isAliasRow (named_filter "service" name namespace) s = svcValid s && IsAlias s.
Proof. unfold isAliasRow. by rewrite !andb_true_r. Qed.

Lemma rangeS_elem m s : s ∈ (rangeS m).*2 <-> exists k, m !! k = Some s.
Proof.
  rewrite range_ok, list_elem_of_fmap. split.
  - intros ([k x] & -> & Hk%elem_of_map_to_list). by exists k.
  - intros (k & Hk). exists (k, s). by rewrite elem_of_map_to_list.
Qed.

Definition bolt_countable (w : bolt) : Prop := Z.of_nat (size (bolt_stored w)) < 2 ^ 32 /\ Z.of_nat (size (bolt_services w)) < 2 ^ 32.

Lemma count_zero (n m : nat) : (n <= m)%nat -> Z.of_nat m < 2 ^ 32 -> wrap_u 32 (Z.of_nat n) = 0 -> n = 0%nat.
Proof. intros Hle Hm. rewrite wrap_u_small by lia. lia. Qed.

(** Valid rows are the services. *)
Lemma selected_services w (p : ServiceModel -> bool) k s : bolt_ok w ->
  base.filter (fun kv : string * ServiceModel => (svcValid kv.2 && p kv.2) = true) (tblService w) !! k = Some s <->
  bolt_services w !! k = Some s /\ p s = true.
Proof.
  intros Hok. rewrite map_lookup_filter_Some. cbn [snd]. rewrite andb_true_iff. split.
  - intros (Hk & Hv & Hp). split; [by apply services_row|done].
  - intros (Hk & Hp). by destruct (ok_service _ _ _ Hok Hk) as (_ & Hv & Hrow).
Qed.

Lemma selected_size w (p : ServiceModel -> bool) : bolt_ok w ->
  (size (base.filter (fun kv : string * ServiceModel => (svcValid kv.2 && p kv.2) = true) (tblService w)) <= size (bolt_services w))%nat.
Proof.
  intros Hok. apply map_subseteq_size, map_subseteq_spec. intros k s Hk. by apply selected_services in Hk as [? _].
Qed.

Lemma length_omap {A B} (f : A -> option B) l : (length (omap f l) <= length l)%nat.
Proof. induction l as [|x l IH]; cbn; [done|]. destruct (f x); cbn; lia. Qed.

(** When both reads succeed, an alias of the service is counted. *)
Lemma aliases_counted name namespace w : bolt_ok w -> bolt_reliable w ->
  ends (bolt_GetServiceAliases (named_filter "service" name namespace) 0 1) w (fun _ r => exists total l, r = Okay (total, l) /\
    (bolt_countable w -> total = 0 -> forall s, bolt_services w !! svcID s = Some s -> has_name name namespace s -> svcID s <> "" ->
       map_Forall (fun _ t => svcReference t <> svcID s) (bolt_services w))).
Proof.
  intros Hok Hr. unfold bolt_GetServiceAliases. apply ends_bind, ends_view_reliable; [done|]. intros l Hl. cbn [tblService set_faults].
  set (m := base.filter _ _). apply ends_bind, ends_attempt. set (refs := list_to_set (svcReference <$> (rangeS m).*2) : gset string).
  match goal with |- exists _ _, loadServices ?p ?w = _ /\ _ => set (found := p);
    destruct (ends_view_reliable (fun x => base.filter (fun kv => p kv.2 = true) (tblService x)) w
      (fun w' r => r = Okay (base.filter (fun kv => p kv.2 = true) (tblService w)))) as (w3 & r & Hm & Hr3); [done|done|] end.
  subst r. exists w3. eexists. split; [exact Hm|]. apply ends_ret. eexists _, _. split; [done|]. cbn [tblService set_faults].
  intros [_ Hc] Ht s Hs Hname Hne k t Hk Href.
  assert (forall k s, m !! k = Some s <-> bolt_services w !! k = Some s /\ IsAlias s = true) as Hsel.
  { intros k' s'. rewrite <- (selected_services w IsAlias) by done. unfold m. rewrite !map_lookup_filter_Some. cbn [snd]. by rewrite isAliasRow_named. }
  assert (IsAlias t = true) as Hal by (unfold IsAlias; rewrite Href; by apply bool_decide_eq_true).
  assert (t ∈ (rangeS m).*2) as Htm by (apply rangeS_elem; exists k; by apply Hsel).
  apply count_zero with (m := size (bolt_services w)) in Ht; [|etransitivity; [apply length_omap|]|done].
  2: { rewrite length_fmap, range_ok, length_map_to_list. apply map_subseteq_size, map_subseteq_spec. intros k' s' Hk'. by apply Hsel in Hk' as [? _]. }
  apply length_zero_iff_nil in Ht. eapply (not_elem_of_nil (A := ServiceAlias)). erewrite <- Ht. apply list_elem_of_omap. exists t. split; [done|].
  destruct (ok_service _ _ _ Hok Hs) as (_ & Hv & Hrow). destruct Hname as [Hn Hns].
  rewrite Href. rewrite (map_lookup_filter_Some_2 _ _ _ s); [done|done|]. cbn [snd]. unfold found. rewrite Hv.
  rewrite !andb_true_iff. split_and!; [done|by apply bool_decide_eq_true|by apply bool_decide_eq_true|]. apply bool_decide_eq_true.
  unfold refs. rewrite elem_of_list_to_set, list_elem_of_fmap. by exists t.
Qed.

Lemma aliases_read filter w : bolt_ok w -> ends (bolt_GetServiceAliases filter 0 1) w (fun w' _ =>
  bolt_ok w' /\ bolt_catalogue w' = bolt_catalogue w /\ bolt_stored w' = bolt_stored w).
Proof.
  intros Hok. unfold bolt_GetServiceAliases. apply ends_bind, ends_view. intros l. split; [done|]. apply ends_bind, ends_attempt.
  match goal with |- exists _ _, loadServices ?p ?w1 = _ /\ _ =>
    destruct (ends_view (fun x => base.filter (fun kv => p kv.2 = true) (tblService x)) w1
      (fun w' r => bolt_ok w' /\ bolt_catalogue w' = bolt_catalogue w /\ bolt_stored w' = bolt_stored w)) as (w3 & r & Hm & Hr3); [done|] end.
  exists w3, r. split; [exact Hm|]. by apply ends_ret.
Qed.

Lemma bolt_GetServiceAliases_spec name namespace w : bolt_ok w ->
  reads (bolt_GetServiceAliases (named_filter "service" name namespace) 0 1) w (fun r =>
    match r with
    | Okay (total, _) => bolt_reliable w -> bolt_countable w -> total = 0 -> forall s, bolt_services w !! svcID s = Some s -> has_name name namespace s ->
        svcID s <> "" -> map_Forall (fun _ t => svcReference t <> svcID s) (bolt_services w)
    | Fail _ => True
    end).
Proof.
  intros Hok. destruct (aliases_read (named_filter "service" name namespace) w Hok) as (w' & r & Hm & H1 & H2 & H3).
  exists w', r. split; [done|]. split_and!; [done..|]. destruct r as [[total l]|e]; [|done]. intros Hr.
  destruct (aliases_counted name namespace w Hok Hr) as (w2 & r2 & Hm2 & t2 & l2 & -> & HQ). rewrite Hm2 in Hm. injection Hm as _ <- <-. exact HQ.
Qed.

Lemma view_reads {A} (f : bolt -> A) w (Q : result StatusCode A -> Prop) : bolt_ok w -> (forall e, Q (Fail e)) ->
  (forall l, Q (Okay (f (set_faults w l)))) -> reads (transaction (w ← get; mret (f w))) w Q.
Proof. intros Hok HF HQ. apply ends_view. intros l. by split_and!. Qed.

Lemma expandMatches_named name namespace ids i :
  expandMatches (named_filter "name" name namespace) [] (Some ids) i = Valid i && hasProto i && bool_decide (ServiceID i ∈ ids).
Proof. unfold expandMatches. by rewrite !andb_true_r. Qed.

(** An instance of the service is counted. *)
Lemma bolt_GetExpandInstances_spec name namespace w : bolt_ok w -> plain name -> plain namespace ->
  reads (bolt_GetExpandInstances (named_filter "name" name namespace) [] 0 1) w (fun r =>
    match r with
    | Okay (total, _) => bolt_countable w -> total = 0 -> forall s, bolt_services w !! svcID s = Some s -> has_name name namespace s ->
        map_Forall (fun _ c => c.2 <> svcID s) (bolt_stored w)
    | Fail _ => True
    end).
Proof.
  intros Hok Hn Hns. set (Q := fun r : result StatusCode (Z * list Instance) => _). unfold reads, bolt_GetExpandInstances. rewrite decide_False by done.
  apply ends_bind. rewrite (bool_decide_true (is_Some _ \/ _)) by (left; by eexists). apply ends_view. intros l. split; [done|].
  cbn [tblService set_faults]. change (named_filter "name" name namespace !! "name") with (Some name).
  change (named_filter "name" name namespace !! "namespace") with (Some namespace). cbn [GetValue default from_option id].
  set (m := base.filter _ _). assert (forall k s, m !! k = Some s <-> bolt_services w !! k = Some s /\ has_name name namespace s) as Hm.
  { intros k s. by apply matches_named. }
  set (ids := list_to_set (svcID <$> (rangeS m).*2) : gset string).
  assert (forall s, bolt_services w !! svcID s = Some s -> has_name name namespace s -> svcID s ∈ ids) as Hids.
  { intros s Hs Hname. unfold ids. rewrite elem_of_list_to_set, list_elem_of_fmap. exists s. split; [done|]. apply rangeS_elem. exists (svcID s). by apply Hm. }
  destruct (decide (true = true /\ ids = ∅)) as [[_ He]|_].
  { apply ends_ret. split_and!; [done..|]. intros _ _ s Hs Hname. specialize (Hids s Hs Hname). set_solver. }
  apply ends_bind. unfold LoadValuesByFilter. apply ends_view. intros l2. split; [done|]. cbn [set_faults].
  set (insts := loadValuesByFilter _ _).
  assert (forall k i, insts !! k = Some i <-> tblInstance w !! k = Some i /\ (Valid i && hasProto i && bool_decide (ServiceID i ∈ ids)) = true) as Hi.
  { intros k i. unfold insts, loadValuesByFilter. rewrite map_lookup_filter_Some. cbn [snd tblInstance set_faults]. by rewrite expandMatches_named. }
  assert (forall named, Q (Okay (wrap_u 32 (Z.of_nat (size insts)), named))) as HQ.
  { intros named [Hc _] Ht s Hs Hname k c Hk Hsid.
    apply (stored_Some w) in Hk as (i & Hrow & Hv & <-). cbn [content snd] in Hsid.
    assert (insts !! k = Some i) as Hin.
    { apply Hi. split; [done|]. destruct (ok_row _ _ _ Hok Hrow) as (_ & -> & _). rewrite Hv, Hsid. cbn. by apply bool_decide_eq_true, Hids. }
    apply count_zero with (m := size (bolt_stored w)) in Ht; [apply map_size_empty_inv in Ht; by rewrite Ht in Hin| |done].
    rewrite <- (size_dom insts), <- (size_dom (bolt_stored w)). apply subseteq_size. intros k' [i' [Hk' Hp]%Hi]%elem_of_dom.
    rewrite !andb_true_iff in Hp. apply elem_of_dom. exists (content i'). apply (stored_Some w). naive_solver. }
  assert (forall w2, bolt_ok w2 /\ bolt_catalogue w2 = bolt_catalogue w /\ bolt_stored w2 = bolt_stored w -> ends (
      svcRets ← loadServices (fun _ => true);
      if decide (map_Forall (fun _ i => is_Some (svcRets !! ServiceID i)) insts) then
        let named := omap (fun i => (fun s => set_Proto i (set_Namespace (set_Service (proto i) (Some (svcName s))) (Some (svcNamespace s))))
                                      <$> svcRets !! ServiceID i) insts in
        mret (wrap_u 32 (Z.of_nat (size insts)), getRealInstancesList range named 0 1)
      else raise Unknown) w2 (fun w' r => bolt_ok w' /\ bolt_catalogue w' = bolt_catalogue w /\ bolt_stored w' = bolt_stored w /\ Q r)) as Hlast.
  { intros w2 (H1 & H2 & H3). apply ends_bind, ends_view. intros l3. split; [done|]. case_decide; [by apply ends_ret|by apply ends_raise]. }
  apply ends_bind. case_decide as Hempty; [by apply ends_ret, Hlast|]. apply ends_attempt.
  match goal with |- exists _ _, loadServices ?p ?w1 = _ /\ _ =>
    destruct (ends_view (fun x => base.filter (fun kv => p kv.2 = true) (tblService x)) w1
      (fun w' r => bolt_ok w' /\ bolt_catalogue w' = bolt_catalogue w /\ bolt_stored w' = bolt_stored w)) as (w3 & r & Hm3 & Hr3); [done|] end.
  exists w3, r. split; [exact Hm3|]. by apply Hlast.
Qed.

Lemma plain_not_wild name : plain name -> name <> "" /\ IsPrefixWildName name = false.
Proof. intros [Hn Hw]. split; [done|]. unfold IsWildName in Hw. by apply orb_false_iff in Hw as [? _]. Qed.

Lemma prefixed_here namespace value rest : plain namespace ->
  prefixed {["namespace" := namespace]} "namespace" value rest = bool_decide (value = namespace) && rest.
Proof.
  intros [Hne Hw]%plain_not_wild. unfold prefixed. rewrite lookup_singleton_eq. by rewrite decide_False, Hw by done.
Qed.

Lemma prefixed_absent filters key value rest : filters !! key = None -> prefixed filters key value rest = rest.
Proof. intros Hk. unfold prefixed. by rewrite Hk. Qed.

Lemma alter_present {A} (f : A -> A) (m : gmap string A) k x : m !! k = Some x -> alter f k m = <[k := f x]> m.
Proof.
  intros Hk. apply map_eq. intros j. destruct (decide (j = k)) as [->|Hj]; [by rewrite lookup_alter_eq, lookup_insert_eq, Hk|].
  by rewrite lookup_alter_ne, lookup_insert_ne.
Qed.

Lemma bolt_GetServices_spec namespace w : bolt_ok w -> plain namespace ->
  reads (bolt_GetServices {["namespace" := namespace]} [] None 0 1) w (fun r =>
    match r with
    | Okay (total, _) => bolt_countable w -> total = 0 -> map_Forall (fun _ s => svcNamespace s <> namespace) (bolt_services w)
    | Fail _ => True
    end).
Proof.
  intros Hok Hns. unfold reads, bolt_GetServices. apply ends_bind, ends_ret, ends_bind, ends_view.
  intros l. split; [done|]. apply ends_ret. split_and!; [done..|]. intros [_ Hc] Ht k s Hs Hname. cbn [tblService set_faults] in Ht.
  set (p := fun s => bool_decide (svcNamespace s = namespace)). set (m := base.filter _ _) in Ht.
  assert (forall k s, m !! k = Some s <-> bolt_services w !! k = Some s /\ p s = true) as Hm.
  { intros k' s'. rewrite <- (selected_services w p) by done. unfold m. rewrite !map_lookup_filter_Some. cbn [snd].
    unfold serviceMatches, p. rewrite prefixed_here, !prefixed_absent by (done || by apply lookup_singleton_ne). by rewrite !andb_true_r. }
  apply count_zero with (m := size (bolt_services w)) in Ht; [| |done].
  - apply map_size_empty_inv in Ht. assert (m !! k = Some s) as Hk by (apply Hm; split; [done|]; by apply bool_decide_eq_true). by rewrite Ht in Hk.
  - apply map_subseteq_size, map_subseteq_spec. intros k' s' Hk'. by apply Hm in Hk' as [? _].
Qed.

Lemma bolt_LockService_spec name namespace w : bolt_ok w ->
  reads (bolt_LockService name namespace) w (fun r =>
    match r with Okay (Some s) => bolt_services w !! svcID s = Some s /\ has_name name namespace s | _ => True end).
Proof.
  intros Hok. unfold reads, bolt_LockService. apply ends_bind, ends_view. intros l. split; [done|]. apply ends_ret. split_and!; [done..|].
  cbn [tblService set_faults]. set (m := base.filter _ _). destruct ((rangeS m).*2) as [|s rest] eqn:Hl; [done|]. cbn [head].
  assert (s ∈ (rangeS m).*2) as (k & Hk)%rangeS_elem by (rewrite Hl; by left).
  apply map_lookup_filter_Some in Hk as [Hk Hname]. cbn [snd] in Hname. rewrite !andb_true_iff, !bool_decide_eq_true in Hname.
  destruct Hname as [[Hv Hn] Hns]. split; [|done]. apply services_row; [|done]. destruct Hok as (_ & Hs & _).
  assert (svcID s = k) as -> by exact (Hs _ _ Hk). done.
Qed.

Lemma bolt_HasRoutingConfig_spec id w : bolt_ok w -> reads (bolt_HasRoutingConfig id) w (fun _ => True).
Proof. intros Hok. by apply view_reads. Qed.

Lemma bolt_GenNextL5Sid_spec layout w : bolt_ok w -> reads (bolt_GenNextL5Sid layout) w (fun _ => True).
Proof. intros Hok. apply ends_bind, ends_update. intros l. split; [done|]. by apply ends_bind, ends_get, ends_ret. Qed.

Lemma bolt_CreateTransaction_spec w : bolt_ok w -> reads bolt_CreateTransaction w (fun _ => True).
Proof. intros Hok. by apply ends_ret. Qed.

(** ** Namespaces *)

Lemma bolt_GetNamespace_spec name w : bolt_ok w ->
  reads (bolt_GetNamespace name) w (fun r => match r with Okay o => o = tblNamespace w !! name | Fail _ => True end).
Proof. intros Hok. by apply view_reads. Qed.

Lemma change_namespaces (f : bolt -> bolt) w (Q : result StatusCode unit -> gmap string NamespaceModel -> Prop) :
  bolt_ok w ->
  (forall l, bolt_ok (f (set_faults w l)) /\ bolt_stored (f (set_faults w l)) = bolt_stored w /\ bolt_services (f (set_faults w l)) = bolt_services w /\
     Q (Okay ()) (tblNamespace (f (set_faults w l)))) ->
  Q (Fail Unknown) (tblNamespace w) ->
  on_namespaces (transaction (modify f)) w Q.
Proof.
  intros Hok Hf HF. apply ends_update. intros l. split; [by split_and!|]. destruct (Hf l) as (H1 & H2 & H3 & H4). by split_and!.
Qed.

Lemma ok_update_namespace w k f : bolt_ok w -> (forall n, nsName (f n) = nsName n) -> bolt_ok (updateNamespace w k f).
Proof.
  intros (H1 & H2 & H3) Hf. split; [done|]. split; [done|]. intros j n. unfold updateNamespace. cbn [tblNamespace set_tblNamespace].
  destruct (decide (j = k)) as [->|Hj]; [|rewrite lookup_alter_ne by done; apply H3].
  rewrite lookup_alter_eq, fmap_Some. intros (n' & Hn' & ->). rewrite Hf. by apply H3.
Qed.

Lemma bolt_DeleteNamespace_spec name w : bolt_ok w ->
  on_namespaces (bolt_DeleteNamespace name) w (fun r m => m = match r with Okay _ => delete name (tblNamespace w) | Fail _ => tblNamespace w end).
Proof.
  intros Hok. apply change_namespaces; [done| |done]. intros l. split_and!; [|done..].
  destruct Hok as (H1 & H2 & H3). split; [done|]. split; [done|]. by apply map_Forall_delete.
Qed.

Lemma bolt_AddNamespace_spec n w : bolt_ok w -> tblNamespace w !! nsName n = None ->
  on_namespaces (bolt_AddNamespace n) w (fun r m =>
    match r with
    | Okay n' => m = <[nsName n := n']> (tblNamespace w) /\ nsToken n' = nsToken n /\ nsOwner n' = nsOwner n /\ nsComment n' = nsComment n
    | Fail _ => m = tblNamespace w
    end).
Proof.
  intros Hok Hnone. unfold on_namespaces, bolt_AddNamespace. case_decide; [by apply ends_raise|].
  assert (forall l, tblNamespace (deleteNamespace (set_faults w l) (nsName n)) = tblNamespace w) as Hsame by (intros l; by apply delete_id).
  assert (forall l, bolt_ok (deleteNamespace (set_faults w l) (nsName n))) as Hok1.
  { intros l. destruct Hok as (H1 & H2 & H3). split; [done|]. split; [done|]. by rewrite Hsame. }
  apply ends_bind, ends_update. intros l. split; [by split_and!|]. apply ends_bind, ends_get, ends_bind, ends_update. intros l'.
  split; [by split_and!; [apply (Hok1 l)|done|done|exact (Hsame l)]|]. apply ends_ret. split_and!; [|done|done| |done..].
  - destruct (Hok1 l) as (H1 & H2 & H3). split; [done|]. split; [done|]. by apply map_Forall_insert_2.
  - cbn. f_equal. exact (Hsame l).
Qed.

Lemma bolt_UpdateNamespace_spec n old w : bolt_ok w -> tblNamespace w !! nsName n = Some old ->
  on_namespaces (bolt_UpdateNamespace n) w (fun r m =>
    match r with
    | Okay _ => exists n', m = <[nsName n := n']> (tblNamespace w) /\ nsToken n' = nsToken old /\ nsOwner n' = nsOwner n /\ nsComment n' = nsComment n
    | Fail _ => m = tblNamespace w
    end).
Proof.
  intros Hok Hold. unfold bolt_UpdateNamespace. case_decide; [by apply ends_raise|]. apply ends_bind, ends_get.
  apply (change_namespaces _ _ (fun (r : result StatusCode unit) m => match r with
    | Okay _ => exists n', m = <[nsName n := n']> (tblNamespace w) /\ nsToken n' = nsToken old /\ nsOwner n' = nsOwner n /\ nsComment n' = nsComment n
    | Fail _ => m = tblNamespace w end)); [done| |done].
  intros l. split_and!; [by apply (ok_update_namespace (set_faults w l))|done..|]. cbn. rewrite (alter_present _ _ _ _ Hold). by eexists.
Qed.

Lemma bolt_UpdateNamespaceToken_spec name token old w : bolt_ok w -> tblNamespace w !! name = Some old ->
  on_namespaces (bolt_UpdateNamespaceToken name token) w (fun r m =>
    match r with
    | Okay _ => exists n', m = <[name := n']> (tblNamespace w) /\ nsToken n' = token /\ nsOwner n' = nsOwner old /\ nsComment n' = nsComment old
    | Fail _ => m = tblNamespace w
    end).
Proof.
  intros Hok Hold. unfold bolt_UpdateNamespaceToken. case_decide; [by apply ends_raise|]. apply ends_bind, ends_get.
  apply (change_namespaces _ _ (fun (r : result StatusCode unit) m => match r with
    | Okay _ => exists n', m = <[name := n']> (tblNamespace w) /\ nsToken n' = token /\ nsOwner n' = nsOwner old /\ nsComment n' = nsComment old
    | Fail _ => m = tblNamespace w end)); [done| |done].
  intros l. split_and!; [by apply (ok_update_namespace (set_faults w l))|done..|]. cbn. rewrite (alter_present _ _ _ _ Hold). by eexists.
Qed.

Lemma bolt_services_ids w k s : bolt_ok w -> bolt_services w !! k = Some s -> svcID s = k.
Proof. intros Hok Hk. by destruct (ok_service _ _ _ Hok Hk). Qed.

Lemma bolt_namespaces_names w k n : bolt_ok w -> tblNamespace w !! k = Some n -> nsName n = k.
Proof. intros (_ & _ & Hn). apply Hn. Qed.

Lemma bolt_count_spec (count : string -> Z) namespace w : bolt_ok w -> reads (transaction (_ ← get; mret (count namespace))) w (fun _ => True).
Proof. intros Hok. by apply (view_reads (fun _ => count namespace)). Qed.

#[export] Instance bolt_service_laws : @ServiceStorageLaws bolt istore ilaws bolt_service_storage :=
  @Build_ServiceStorageLaws bolt istore ilaws bolt_service_storage
    bolt_reliable GetService_keeps_reliable GetExpandInstances_keeps_reliable bolt_services_ids bolt_namespaces_names
    bolt_AddService_spec bolt_DeleteService_spec bolt_DeleteServiceAlias_spec bolt_UpdateServiceAlias_spec bolt_UpdateService_spec
    bolt_UpdateServiceToken_spec bolt_GetServiceAliases_spec bolt_GetExpandInstances_spec bolt_GetServices_spec
    bolt_HasRoutingConfig_spec bolt_GenNextL5Sid_spec bolt_CreateTransaction_spec
    (bolt_count_spec circuitBreakers) (bolt_count_spec configGroups) bolt_LockService_spec bolt_GetNamespace_spec bolt_GetNamespace_spec
    bolt_AddNamespace_spec bolt_UpdateNamespace_spec bolt_UpdateNamespaceToken_spec bolt_DeleteNamespace_spec.

End boltdb.
