(* ===== verification/Api.v ===== *)
(** * Answers and the state of the API servers ([src/common/api/v1/response.go], [src/service/server.go])

    What the handlers of instances, services and namespaces share: responses and
    their batches, the state of the server - the store, the events published, the
    history - and the steps every handler is made of. *)

From S2P Require Import Prelude Effects GoStrings Utils Registry Services Namespace InstanceStore ServiceStore.
From Stdlib Require Import ZArith Lia.
From stdpp Require Import base tactics list gmap strings pretty.

Open Scope Z_scope.

(** ** Responses *)

(** A response carries what it is about, if anything. *)
Record Response := mkResponse {
  rCode : Code;
  rInstance : option PbInstance;
  rService : option PbService;
  rAlias : option PbAlias;
  rNamespace : option PbNamespace }.
Definition NewResponse (code : Code) : Response := mkResponse code None None None None.
Definition NewInstanceResponse (code : Code) (instance : option PbInstance) : Response := mkResponse code instance None None None.
Definition NewServiceResponse (code : Code) (service : option PbService) : Response := mkResponse code None service None None.
Definition NewServiceAliasResponse (code : Code) (alias : option PbAlias) : Response := mkResponse code None None alias None.
Definition NewNamespaceResponse (code : Code) (namespace : option PbNamespace) : Response := mkResponse code None None None namespace.

(** A handler's answer, whichever way it returned. *)
Definition answer (r : result Response Response) : Response := match r with Okay r => r | Fail r => r end.

(** [api.Collect] and [api.FormatBatchWriteResponse].  The numbers of the codes
    are those of the API's specification; the thousands are HTTP statuses. *)
Section batch_response.
  Context (number : Code -> Z).

Record BatchWriteResponse := mkBatch {
  bCode : Z;
  bSize : Z;
  bResponses : list Response }.

Definition CalcCode (rm : Response) : Z := number (rCode rm) / 1000.
Definition NewBatchWriteResponse (code : Code) : BatchWriteResponse := mkBatch (number code) 0 [].

Definition Collect (batch : BatchWriteResponse) (response : Response) : BatchWriteResponse :=
  mkBatch (if decide (CalcCode response <> 200 /\ bCode batch <= number (rCode response)) then number (rCode response) else bCode batch)
    (wrap_u 32 (bSize batch + 1)) (bResponses batch ++ [response]).

(** The common code of the responses, 0 when there are several. *)
Fixpoint commonCode (code : Z) (responses : list Response) : Z :=
  match responses with
  | [] => code
  | resp :: responses =>
      if decide (code = 0) then commonCode (number (rCode resp)) responses
      else if decide (code = number (rCode resp)) then commonCode code responses else 0
  end.

Fixpoint worstCode (code : Z) (hasBadRequest : bool) (responses : list Response) : Z :=
  match responses with
  | [] => if hasBadRequest then number BadRequest else code
  | resp :: responses =>
      if decide (500 <= CalcCode resp) then number ExecuteException
      else worstCode code (hasBadRequest || bool_decide (400 <= CalcCode resp)) responses
  end.

Definition FormatBatchWriteResponse (response : BatchWriteResponse) : BatchWriteResponse :=
  let code := commonCode 0 (bResponses response) in
  mkBatch (if decide (code = 0) then worstCode (bCode response) false (bResponses response) else code)
    (bSize response) (bResponses response).
End batch_response.

(** ** The server *)

Record InstanceEvent := mkEvent {
  eId : string;
  eNamespace : string;
  eService : string;
  eInstance : option PbInstance;
  EType : string }.

(** The fields of [model.RecordEntry] that do not come from the context. *)
Inductive OperationType := OCreate | ODelete | OUpdate | OUpdateIsolate | OUpdateToken.
Record RecordEntry := mkEntry {
  ResourceName : string;
  EntryNamespace : string;
  Operation : OperationType }.

Section server.
  Context {W : Type}.

(** The store, the events published on the instance topic and the records of the
    history plugin. *)
Record Server := mkServer {
  storage : W;
  published : list InstanceEvent;
  history : list RecordEntry }.

Abbreviation handler := (call Server Response).

Definition on_storage {E A} (m : call W E A) : call Server E A := fun s =>
  match m (storage s) with
  | Ret (w, r) => Ret (mkServer w (published s) (history s), r)
  | Panics why => Panics why
  end.

(** [if err != nil { return response(err) }] after a call of the store. *)
Definition stored_or {A} (m : call W StatusCode A) (response : StatusCode -> Response) : handler A := orelse (on_storage m) response.

Definition sendDiscoverEvent (event : InstanceEvent) : handler unit :=
  modify (fun s => mkServer (storage s) (published s ++ [event]) (history s)).

(** [recording]: there is a history plugin, and the request does not come from a client. *)
Definition RecordHistory {E} (recording : bool) (entry : RecordEntry) : call Server E unit :=
  if recording then modify (fun s => mkServer (storage s) (published s) (history s ++ [entry])) else mret ().

(** A call of the store that reports through its result. *)
Definition queued {A} (m : call W Empty_set A) : handler A := orelse (on_storage m) (fun e => match e with end).

(** ** Batches of requests *)

(** One goroutine for each request; they run in the order [schedule] of the
    positions, and their responses are collected in the order of the requests.
    [handle] is told the position, since each of them draws its own uuids. *)
Fixpoint run_each {A} (handle : nat -> option A -> handler Response) (reqs : list (option A)) (schedule : list nat)
    : handler (gmap nat Response) :=
  match schedule with
  | [] => mret ∅
  | i :: schedule =>
      r ← attempt (handle i (reqs !! i ≫= id));
      rest ← run_each handle reqs schedule;
      mret (<[i := answer r]> rest)
  end.

Definition batchOperateInstances {A} (number : Code -> Z) (handle : nat -> option A -> handler Response)
    (reqs : list (option A)) (schedule : list nat) : handler BatchWriteResponse :=
  chs ← run_each handle reqs schedule;
  mret (FormatBatchWriteResponse number
    (foldl (Collect number) (NewBatchWriteResponse number ExecuteSuccess) (omap (fun i => chs !! i) (seq 0 (length reqs))))).

(** [CreateServices] and the like handle one request after the other. *)
Fixpoint batchOperateInTurn {A} (number : Code -> Z) (handle : nat -> option A -> handler Response) (i : nat) (reqs : list (option A))
    (responses : BatchWriteResponse) : handler BatchWriteResponse :=
  match reqs with
  | [] => mret responses
  | req :: reqs => r ← attempt (handle i req); batchOperateInTurn number handle (S i) reqs (Collect number responses (answer r))
  end.

(** ** How the steps end *)

Definition swap (s : Server) (w : W) : Server := mkServer w (published s) (history s).

Lemma ends_stored {A} (m : call W StatusCode A) f s (Q : Server -> result Response A -> Prop) :
  ends m (storage s) (fun w' r => Q (swap s w') (match r with Okay a => Okay a | Fail e => Fail (f e) end)) ->
  ends (stored_or m f) s Q.
Proof. intros (w' & r & Hm & HQ). apply ends_orelse. exists (swap s w'), r. unfold on_storage. rewrite Hm. by destruct r. Qed.

Lemma ends_queued {A} (m : call W Empty_set A) s (Q : Server -> result Response A -> Prop) :
  ends m (storage s) (fun w' r => forall a, r = Okay a -> Q (swap s w') (Okay a)) -> ends (queued m) s Q.
Proof.
  intros (w' & r & Hm & HQ). apply ends_orelse. exists (swap s w'), r. unfold on_storage. rewrite Hm.
  destruct r as [a|[]]. split; [done|]. by apply HQ.
Qed.

Lemma ends_event e s (Q : Server -> result Response unit -> Prop) :
  Q (mkServer (storage s) (published s ++ [e]) (history s)) (Okay ()) -> ends (sendDiscoverEvent e) s Q.
Proof. intros HQ. by apply (ends_modify _ s Q). Qed.

(** The history is nobody's precondition. *)
Lemma ends_record {E} recording e s (Q : Server -> result E unit -> Prop) :
  (forall h, Q (mkServer (storage s) (published s) h) (Okay ())) -> ends (RecordHistory recording e) s Q.
Proof. intros HQ. unfold RecordHistory. destruct recording; [apply (ends_modify _ s Q), HQ|]. apply ends_ret. destruct s. apply HQ. Qed.

(** ** The answer to a batch *)

Section batch_laws.
  Context (number : Code -> Z).
  (** Every code of the API is a 200, or a client or server error. *)
  Context (number_ok : forall c, number c / 1000 = 200 \/ 400 <= number c / 1000).

Definition codes (rs : list Response) : list Z := (fun r => number (rCode r)) <$> rs.

(** The code a batch deserves: the common one; else the worst kind. *)
Definition batch_code (rs : list Response) : Z :=
  match codes rs with
  | [] => number ExecuteSuccess
  | c :: cs =>
      if decide (Forall (eq c) cs) then c
      else if decide (Exists (fun c => 500 <= c / 1000) (c :: cs)) then number ExecuteException
      else if decide (Exists (fun c => 400 <= c / 1000) (c :: cs)) then number BadRequest
      else number ExecuteSuccess
  end.

Lemma number_positive c : 0 < number c.
Proof.
  destruct (Z.lt_trichotomy 0 (number c)) as [|[H|H]]; [done|..].
  - pose proof (number_ok c) as Hc. rewrite <- H, Z.div_0_l in Hc by lia. lia.
  - pose proof (number_ok c) as Hc. assert (number c / 1000 < 0) by (apply Z.div_lt_upper_bound; lia). lia.
Qed.

Lemma commonCode_eq c rs : 0 < c -> commonCode number c rs = if decide (Forall (eq c) (codes rs)) then c else 0.
Proof.
  intros Hc. induction rs as [|r rs IH]; cbn [commonCode codes fmap list_fmap]; [by rewrite decide_True|].
  rewrite decide_False by lia. destruct (decide (c = number (rCode r))) as [Hr|Hr].
  - rewrite IH. apply decide_ext. rewrite Forall_cons. unfold codes. tauto.
  - rewrite decide_False; [done|]. intros [? _]%Forall_cons. done.
Qed.

Lemma worstCode_eq c bad rs :
  worstCode number c bad rs =
  if decide (Exists (fun c => 500 <= c / 1000) (codes rs)) then number ExecuteException
  else if decide (bad = true \/ Exists (fun c => 400 <= c / 1000) (codes rs)) then number BadRequest else c.
Proof.
  revert bad. induction rs as [|r rs IH]; intros bad; cbn [worstCode codes fmap list_fmap].
  - destruct (decide (Exists _ [])) as [[]%Exists_nil|_].
    destruct (decide (bad = true \/ _)) as [[->|[]%Exists_nil]|Hn]; [done|]. destruct bad; [destruct Hn; by left|done].
  - unfold CalcCode. destruct (decide (500 <= number (rCode r) / 1000)) as [H5|H5].
    + rewrite decide_True; [done|]. by apply Exists_cons_hd.
    + rewrite IH. change ((fun r => number (rCode r)) <$> rs) with (codes rs).
      destruct (decide (Exists (fun c => 500 <= c / 1000) (codes rs))) as [He|He].
      * rewrite (decide_True (P := Exists _ (_ :: _))); [done|]. by apply Exists_cons_tl.
      * rewrite (decide_False (P := Exists _ (_ :: _))) by (intros [|]%Exists_cons; done). apply decide_ext.
        rewrite Exists_cons, orb_true_iff, bool_decide_eq_true. tauto.
Qed.

(** [Collect] raises the code only for failures. *)
Lemma Collect_all rs b :
  let b' := foldl (Collect number) b rs in
  bResponses b' = bResponses b ++ rs /\
  (Forall (fun c => c / 1000 = 200) (codes rs) -> bCode b' = bCode b) /\
  bSize b' = (if decide (rs = []) then bSize b else wrap_u 32 (bSize b + Z.of_nat (length rs))).
Proof.
  cbv zeta. revert b. induction rs as [|r rs IH]; intros b; cbn [foldl]; [by rewrite app_nil_r|].
  destruct (IH (Collect number b r)) as (H1 & H2 & H3). rewrite H1, H3. cbn [Collect bResponses bCode bSize]. split_and!.
  - by rewrite <- (assoc_L (++)).
  - intros [Hr Hrs]%Forall_cons. rewrite (H2 Hrs). cbn [Collect bCode]. unfold CalcCode. rewrite decide_False; [done|]. tauto.
  - cbn [length]. case_decide as Hn; [by subst|]. unfold wrap_u. rewrite Zplus_mod_idemp_l. f_equal. lia.
Qed.

Lemma batch_response_code rs :
  let b := FormatBatchWriteResponse number (foldl (Collect number) (NewBatchWriteResponse number ExecuteSuccess) rs) in
  bResponses b = rs /\ bCode b = batch_code rs /\ bSize b = wrap_u 32 (Z.of_nat (length rs)).
Proof.
  cbv zeta. destruct (Collect_all rs (NewBatchWriteResponse number ExecuteSuccess)) as (H1 & H2 & H3).
  cbn [FormatBatchWriteResponse bResponses bCode bSize]. rewrite H1, H3. cbn [NewBatchWriteResponse bResponses app bSize]. split_and!; [done| |].
  - unfold batch_code. destruct rs as [|r rs]; cbn [commonCode codes fmap list_fmap].
    + by rewrite decide_True by done.
    + rewrite !(decide_True (P := 0 = 0)) by done. rewrite commonCode_eq by apply number_positive.
      change ((fun r => number (rCode r)) <$> rs) with (codes rs). pose proof (number_positive (rCode r)).
      destruct (decide (Forall (eq (number (rCode r))) (codes rs))); [by rewrite decide_False by lia|]. rewrite (decide_True (P := 0 = 0)) by done.
      rewrite worstCode_eq. cbn [codes fmap list_fmap]. change ((fun r => number (rCode r)) <$> rs) with (codes rs).
      destruct (decide (Exists (fun c => 500 <= c / 1000) _)); [done|].
      destruct (decide (Exists (fun c => 400 <= c / 1000) _)) as [He|He]; [by rewrite decide_True by by right|].
      rewrite decide_False by (intros [|]; done). rewrite H2; [done|].
      apply Forall_fmap, Forall_forall. intros x Hx. cbn [compose]. destruct (number_ok (rCode x)) as [|Hbad]; [done|]. destruct He.
      apply Exists_exists. exists (number (rCode x)). split; [|done]. exact (list_elem_of_fmap_2 (fun r => number (rCode r)) _ _ Hx).
  - by destruct rs.
Qed.

(** Requests that are handled in turn are answered in turn. *)
Lemma ends_in_turn {A} (I : Server -> Prop) (handle : nat -> option A -> handler Response) reqs i s b :
  (forall i r s, I s -> ends (handle i r) s (fun s' _ => I s')) -> I s ->
  ends (batchOperateInTurn number handle i reqs b) s (fun s' r => I s' /\
    exists rs, length rs = length reqs /\ r = Okay (foldl (Collect number) b rs)).
Proof.
  intros Hh. revert i s b. induction reqs as [|req reqs IH]; intros i s b HI; cbn [batchOperateInTurn].
  - apply ends_ret. split; [done|]. by exists [].
  - apply ends_bind, ends_attempt. destruct (Hh i req s HI) as (s1 & r & Hr & HI1). exists s1, r. split; [done|].
    eapply ends_weaken; [by apply IH|]. intros s' r' (HI' & rs & Hl & ->). split; [done|]. exists (answer r :: rs). cbn [length foldl]. by rewrite Hl.
Qed.

End batch_laws.

End server.

(** ** Steps that change nothing, or one thing *)

Lemma StoreCode2APICode_fails err : StoreCode2APICode err <> ExecuteSuccess.
Proof. by destruct err. Qed.

Section frames.
  Context {W : Type} `{!InstanceStorage W, !InstanceStorageLaws W}.

Definition same (s s' : @Server W) : Prop :=
  store_ok (storage s') /\ catalogue (storage s') = catalogue (storage s) /\ stored (storage s') = stored (storage s) /\
  published s' = published s.

(** Only services changed, only namespaces did, or both. *)
Definition same_but_services (s s' : @Server W) : Prop :=
  store_ok (storage s') /\ stored (storage s') = stored (storage s) /\ namespaces (storage s') = namespaces (storage s) /\
  published s' = published s.
Definition same_but_namespaces (s s' : @Server W) : Prop :=
  store_ok (storage s') /\ stored (storage s') = stored (storage s) /\ services (storage s') = services (storage s) /\
  published s' = published s.
Definition untouched (s s' : @Server W) : Prop :=
  store_ok (storage s') /\ stored (storage s') = stored (storage s) /\ published s' = published s.

Lemma same_services s s' : same s s' -> services (storage s') = services (storage s).
Proof. intros (_ & Hc & _). unfold services. by rewrite Hc. Qed.
Lemma same_namespaces s s' : same s s' -> namespaces (storage s') = namespaces (storage s).
Proof. intros (_ & Hc & _). unfold namespaces. by rewrite Hc. Qed.
Lemma same_refl s : store_ok (storage s) -> same s s.
Proof. done. Qed.
Lemma same_trans s1 s2 s3 : same s1 s2 -> same s2 s3 -> same s1 s3.
Proof. intros (_ & H1 & H2 & H3) (H0 & H4 & H5 & H6). unfold same. split_and!; congruence. Qed.
Lemma catalogue_eq (w w' : W) : services w' = services w -> namespaces w' = namespaces w -> catalogue w' = catalogue w.
Proof. unfold services, namespaces. destruct (catalogue w), (catalogue w'). cbn. congruence. Qed.

Lemma same_elim s s' : same s s' -> same_but_namespaces s s' /\ same_but_services s s' /\ untouched s s' /\
  namespaces (storage s') = namespaces (storage s) /\ services (storage s') = services (storage s).
Proof.
  intros Hs. pose proof (same_services _ _ Hs). pose proof (same_namespaces _ _ Hs). destruct Hs as (? & ? & ? & ?). done.
Qed.
Lemma same_unused x s s' : same s s' -> unused x (storage s') <-> unused x (storage s).
Proof. intros Hs. unfold unused. rewrite (same_services _ _ Hs). by destruct Hs as (_ & _ & -> & _). Qed.
Lemma same_countable s s' : same s s' -> countable (storage s') <-> countable (storage s).
Proof. intros Hs. unfold countable. rewrite (same_services _ _ Hs). by destruct Hs as (_ & _ & -> & _). Qed.
Lemma same_ok s s' : same s s' -> store_ok (storage s').
Proof. by intros []. Qed.

Lemma ends_reads {A} (m : call W StatusCode A) f s (P : result StatusCode A -> Prop) (Q : @Server W -> result Response A -> Prop) :
  reads m (storage s) P ->
  (forall s' r, same s s' -> P r -> Q s' (match r with Okay a => Okay a | Fail e => Fail (f e) end)) ->
  ends (stored_or m f) s Q.
Proof.
  intros Hm HQ. apply ends_stored. eapply ends_weaken; [exact Hm|]. intros w' r (H1 & H2 & H3 & HP). by apply HQ.
Qed.

Lemma ends_services {A} (m : call W StatusCode A) f s P (Q : @Server W -> result Response A -> Prop) :
  on_services m (storage s) P ->
  (forall s' r, same_but_services s s' -> P r (services (storage s')) -> Q s' (match r with Okay a => Okay a | Fail e => Fail (f e) end)) ->
  ends (stored_or m f) s Q.
Proof.
  intros Hm HQ. apply ends_stored. eapply ends_weaken; [exact Hm|]. intros w' r (H1 & H2 & H3 & HP). by apply HQ.
Qed.

Lemma ends_namespaces {A} (m : call W StatusCode A) f s P (Q : @Server W -> result Response A -> Prop) :
  on_namespaces m (storage s) P ->
  (forall s' r, same_but_namespaces s s' -> P r (namespaces (storage s')) -> Q s' (match r with Okay a => Okay a | Fail e => Fail (f e) end)) ->
  ends (stored_or m f) s Q.
Proof.
  intros Hm HQ. apply ends_stored. eapply ends_weaken; [exact Hm|]. intros w' r (H1 & H2 & H3 & HP). by apply HQ.
Qed.

(** The history is not part of what is promised. *)
Lemma ends_recorded recording e s (Q : @Server W -> result Response unit -> Prop) :
  store_ok (storage s) -> (forall s', same s s' -> Q s' (Okay ())) -> ends (RecordHistory recording e) s Q.
Proof. intros Hok HQ. apply ends_record. intros h. by apply HQ. Qed.

Lemma ends_hook (m : call W unit unit) f s (Q : @Server W -> result Response unit -> Prop) :
  reads m (storage s) (fun _ => True) ->
  (forall s', same s s' -> Q s' (Okay ()) /\ Q s' (Fail (f ()))) -> ends (orelse (on_storage m) f) s Q.
Proof.
  intros (w' & r & Hm & H1 & H2 & H3 & _) HQ. apply ends_orelse. exists (swap s w'), r. unfold on_storage. rewrite Hm. split; [done|].
  destruct (HQ (swap s w')) as [? ?]; [done|]. by destruct r as [[]|[]].
Qed.

Lemma ends_hook_ignored (m : call W unit unit) s (Q : @Server W -> result Response (result unit unit) -> Prop) :
  reads m (storage s) (fun _ => True) ->
  (forall s' r, same s s' -> Q s' (Okay r)) -> ends (attempt (on_storage m)) s Q.
Proof.
  intros (w' & r & Hm & H1 & H2 & H3 & _) HQ. apply ends_attempt. exists (swap s w'), r. unfold on_storage. rewrite Hm. split; [done|]. by apply HQ.
Qed.
End frames.
