(* ===== verification/NamespaceServer.v ===== *)
(** * The namespace API ([src/namespace/namespace.go])

    Creating, updating and deleting namespaces, and creating one on demand.  The
    namespace cache, the configuration and the resource hooks (the auth plugin,
    which keeps tables of its own) are arguments. *)

From S2P Require Import Prelude Effects GoStrings Utils Registry Services Namespace InstanceStore ServiceStore Api.
From Stdlib Require Import ZArith Lia.
From stdpp Require Import base tactics list gmap strings.

Open Scope Z_scope.

Section server.
  Context {W : Type} `{!InstanceStorage W, !ServiceStorage W}.
  Context (recording : bool).
  (** [s.cfg.AutoCreate], [s.caches.Namespace().GetNamespace(name) != nil] and the hooks. *)
  Context (allowAutoCreate : bool) (cached : string -> bool).
  Context (afterNamespaceResource : PbNamespace -> NamespaceModel -> bool -> call W unit unit).
#[local] Abbreviation Server := (@Server W).
#[local] Abbreviation handler := (call Server Response).
#[local] Abbreviation RecordHistory := (RecordHistory recording).

Definition nsException (req : PbNamespace) (_ : StatusCode) : Response := NewNamespaceResponse StoreLayerException (Some req).

Definition namespaceRecordEntry (req : PbNamespace) (opt : OperationType) : RecordEntry :=
  mkEntry (GetValue (nName req)) (GetValue (nName req)) opt.

Definition loadNamespace (name : string) : handler string :=
  if cached name then mret name
  else
    val ← stored_or (GetNamespace name) (fun _ => NewResponse StoreLayerException);
    mret (match val with None => "" | Some n => nsName n end).

Definition CreateNamespace (uuid : string) (req : option PbNamespace) : handler Response :=
  match checkNamespace req, req with
  | Some code, _ => raise (NewNamespaceResponse code req)
  | None, None => panics NilDereference
  | None, Some req =>
      namespace ← stored_or (GetNamespace (GetValue (nName req))) (nsException req);
      match namespace with
      | Some _ => raise (NewNamespaceResponse ExistedResource (Some req))
      | None =>
          data ← stored_or (AddNamespace (createNamespaceModel uuid req)) (nsException req);
          _ ← attempt (on_storage (afterNamespaceResource req data false));
          mret (NewNamespaceResponse ExecuteSuccess (Some (mkPbNamespace (nName req) None None (Some (nsToken data)))))
      end
  end.

(** An error of [loadNamespace] counts as "the namespace is there". *)
Definition CreateNamespaceIfAbsent (uuid : string) (req : option PbNamespace) : handler string :=
  match checkNamespace req, req with
  | Some code, _ => raise (NewNamespaceResponse code req)
  | None, None => panics NilDereference
  | None, Some r =>
      let name := GetValue (nName r) in
      val ← attempt (loadNamespace name);
      match val with
      | Fail _ => mret name
      | Okay val =>
          if decide (val = "" /\ allowAutoCreate = false) then raise (NewResponse NotFoundNamespace)
          else
            resp ← attempt (CreateNamespace uuid req);
            if decide (rCode (answer resp) = ExecuteSuccess \/ rCode (answer resp) = ExistedResource) then mret name
            else raise (answer resp)
      end
  end.

Definition checkNamespaceAuthority (req : PbNamespace) : handler NamespaceModel :=
  namespace ← stored_or (GetNamespace (GetValue (nName req))) (nsException req);
  match namespace with
  | None => raise (NewNamespaceResponse NotFoundResource (Some req))
  | Some n => mret n
  end.

Definition getServicesCountWithNamespace (namespace : string) : call W StatusCode Z :=
  '(total, _) ← GetServices {["namespace" := namespace]} [] None 0 1; mret total.

(** [None] when nothing stands in the way. *)
Definition refuse_when (count : call W StatusCode Z) (req : PbNamespace) (code : Code) : handler unit :=
  total ← stored_or count (nsException req);
  if decide (total <> 0) then raise (NewNamespaceResponse code (Some req)) else mret ().

Definition DeleteNamespaceAPI (req : option PbNamespace) : handler Response :=
  match checkNamespace req, req with
  | Some code, _ => raise (NewNamespaceResponse code req)
  | None, None => panics NilDereference
  | None, Some req =>
      _ ← stored_or CreateTransaction (nsException req);
      namespace ← stored_or (LockNamespace (GetValue (nName req))) (nsException req);
      match namespace with
      | None => raise (NewNamespaceResponse ExecuteSuccess (Some req))
      | Some namespace =>
          _ ← refuse_when (getServicesCountWithNamespace (nsName namespace)) req NamespaceExistedServices;
          _ ← refuse_when (CircuitBreakerCount (nsName namespace)) req NamespaceExistedCircuitBreakers;
          _ ← refuse_when (ConfigGroupCount (nsName namespace)) req NamespaceExistedConfigGroups;
          _ ← stored_or (DeleteNamespace (nsName namespace)) (nsException req);
          _ ← RecordHistory (namespaceRecordEntry req ODelete);
          _ ← attempt (on_storage (afterNamespaceResource req (mkNamespace (GetValue (nName req)) "" "" "" false 0 0) true));
          mret (NewNamespaceResponse ExecuteSuccess (Some req))
      end
  end.

Definition UpdateNamespaceAPI (req : option PbNamespace) : handler Response :=
  match checkNamespace req, req with
  | Some code, _ => raise (NewNamespaceResponse code req)
  | None, None => panics NilDereference
  | None, Some req =>
      namespace ← checkNamespaceAuthority req;
      let namespace := updateNamespaceAttribute req namespace in
      _ ← stored_or (UpdateNamespace namespace) (nsException req);
      _ ← RecordHistory (namespaceRecordEntry req OUpdate);
      _ ← orelse (on_storage (afterNamespaceResource req namespace false)) (fun _ => NewNamespaceResponse ExecuteException (Some req));
      mret (NewNamespaceResponse ExecuteSuccess (Some req))
  end.

Definition UpdateNamespaceTokenAPI (token : string) (req : option PbNamespace) : handler Response :=
  match checkNamespace req, req with
  | Some code, _ => raise (NewNamespaceResponse code req)
  | None, None => panics NilDereference
  | None, Some req =>
      namespace ← checkNamespaceAuthority req;
      _ ← stored_or (UpdateNamespaceToken (nsName namespace) token) (nsException req);
      _ ← RecordHistory (namespaceRecordEntry req OUpdateToken);
      mret (NewNamespaceResponse ExecuteSuccess (Some (mkPbNamespace (nName req) None None (Some token))))
  end.

Definition GetNamespaceToken (req : option PbNamespace) : handler Response :=
  match checkNamespace req, req with
  | Some code, _ => raise (NewNamespaceResponse code req)
  | None, None => panics NilDereference
  | None, Some req =>
      namespace ← checkNamespaceAuthority req;
      mret (NewNamespaceResponse ExecuteSuccess (Some (mkPbNamespace (nName req) None None (Some (nsToken namespace)))))
  end.

(** ** Batches

    [CreateNamespaces], [DeleteNamespaces] and [UpdateNamespaces]: the code of
    the answer is the highest one of a failure. *)

Definition batchNamespaces (number : Code -> Z) (handle : nat -> option PbNamespace -> handler Response) (reqs : list (option PbNamespace))
    : handler BatchWriteResponse :=
  match checkBatchInstance reqs with
  | Some code => mret (NewBatchWriteResponse number code)
  | None => batchOperateInTurn number handle 0 reqs (NewBatchWriteResponse number ExecuteSuccess)
  end.

(** ** What the handlers do *)

Section laws.
  Context `{!InstanceStorageLaws W, !ServiceStorageLaws W}.
  Context (hook_ok : forall req n remove w, store_ok w -> reads (afterNamespaceResource req n remove) w (fun _ => True)).

Lemma checkNamespace_plain req : checkNamespace (Some req) = None -> plain (GetValue (nName req)).
Proof. unfold checkNamespace. destruct (CheckResourceName (nName req)) eqn:Hc; [done|]. intros _. by apply checked_plain. Qed.

Lemma checkNamespace_code req code : checkNamespace (Some req) = Some code -> code = InvalidNamespaceName.
Proof. unfold checkNamespace. destruct (CheckResourceName (nName req)); [|done]. by intros [= <-]. Qed.

(** What creating a namespace does. *)
Definition created (uuid : string) (req : PbNamespace) (s s' : Server) (resp : Response) : Prop :=
  (rCode resp = ExecuteSuccess -> namespaces (storage s) !! GetValue (nName req) = None /\
     exists n, namespaces (storage s') = <[GetValue (nName req) := n]> (namespaces (storage s)) /\
       nsToken n = uuid /\ nsOwner n = GetValue (nOwners req) /\ nsComment n = GetValue (nComment req) /\
       rNamespace resp ≫= nToken = Some uuid) /\
  (rCode resp = ExistedResource -> is_Some (namespaces (storage s) !! GetValue (nName req))) /\
  (rCode resp <> ExecuteSuccess -> namespaces (storage s') = namespaces (storage s)).

(** A namespace that is created - and only such a one - is in the store with
    what the request says and the token that is answered; a name that is taken is
    answered with "existed"; every other answer leaves the namespaces alone. *)
Lemma CreateNamespace_spec uuid req s : store_ok (storage s) ->
  ends (CreateNamespace uuid (Some req)) s (fun s' r => same_but_namespaces s s' /\ created uuid req s s' (answer r)).
Proof.
  intros Hok. unfold CreateNamespace. destruct (checkNamespace (Some req)) as [code|] eqn:Hc.
  { apply ends_raise. split; [done|]. rewrite (checkNamespace_code _ _ Hc). by split_and!. }
  apply ends_bind. eapply ends_reads; [by apply GetNamespace_spec|]. intros s1 [o|err] Hs1 Ho.
  2: { destruct (same_elim _ _ Hs1) as (? & _ & _ & ? & _). split; [done|]. by split_and!. }
  destruct (same_elim _ _ Hs1) as (Hb1 & _ & _ & Hn1 & _). destruct o as [n|].
  { apply ends_raise. split; [done|]. unfold created. cbn [answer rCode NewNamespaceResponse]. split_and!; [done| |done]. intros _. by rewrite <- Ho. }
  apply ends_bind. eapply ends_namespaces.
  { apply AddNamespace_spec; [by apply same_ok in Hs1|]. cbn. by rewrite Hn1. }
  destruct Hb1 as (_ & Hst1 & Hsv1 & Hp1). intros s2 [n|err] (Hok2 & Hst2 & Hsv2 & Hp2) Hn2.
  2: { split; [split_and!; congruence|]. unfold created. cbn [answer rCode nsException NewNamespaceResponse]. split_and!; [done..|]. intros _. congruence. }
  destruct Hn2 as (Hn2 & Htok & Hown & Hcom). cbn in Htok, Hown, Hcom.
  apply ends_bind. eapply ends_hook_ignored; [by apply hook_ok|]. intros s3 r Hs3. apply ends_ret.
  destruct (same_elim _ _ Hs3) as ((Hok3 & Hst3 & Hsv3 & Hp3) & _ & _ & Hn3 & _).
  split; [split_and!; congruence|]. unfold created. cbn [answer rCode NewNamespaceResponse]. split_and!; [|done|done]. intros _.
  split; [done|]. exists n. rewrite Hn3, Hn2, Hn1, Htok. by split_and!.
Qed.

(** One entry of a map may be new. *)
Definition grows {A} (name : string) (m m' : gmap string A) : Prop := m ⊆ m' /\ forall k, k <> name -> m' !! k = m !! k.

Lemma grows_insert {A} name (a : A) m : m !! name = None -> grows name m (<[name := a]> m).
Proof. intros Hm. split; [by apply insert_subseteq|]. intros k Hk. by rewrite lookup_insert_ne. Qed.

(** Creating on demand: a namespace is only added, and services keep theirs. *)
Lemma CreateNamespaceIfAbsent_spec uuid req s : store_ok (storage s) ->
  ends (CreateNamespaceIfAbsent uuid (Some req)) s (fun s' r => same_but_namespaces s s' /\
    grows (GetValue (nName req)) (namespaces (storage s)) (namespaces (storage s')) /\
    match r with
    | Okay _ => checkNamespace (Some req) = None
    | Fail resp => rCode resp <> ExecuteSuccess /\ rCode resp <> ExistedResource
    end).
Proof.
  intros Hok. unfold CreateNamespaceIfAbsent. destruct (checkNamespace (Some req)) as [code|] eqn:Hc.
  { apply ends_raise. split; [done|]. by rewrite (checkNamespace_code _ _ Hc). }
  apply ends_bind. assert (forall s1 (val : result Response string), same s s1 ->
    ends (match val with
          | Okay val => if decide (val = "" /\ allowAutoCreate = false) then raise (NewResponse NotFoundNamespace)
              else resp ← attempt (CreateNamespace uuid (Some req));
                   if decide (rCode (answer resp) = ExecuteSuccess \/ rCode (answer resp) = ExistedResource) then mret (GetValue (nName req))
                   else raise (answer resp)
          | Fail _ => mret (GetValue (nName req))
          end : handler string) s1 (fun s' r => same_but_namespaces s s' /\
      grows (GetValue (nName req)) (namespaces (storage s)) (namespaces (storage s')) /\
      match r with Okay _ => True | Fail resp => rCode resp <> ExecuteSuccess /\ rCode resp <> ExistedResource end)) as Hrest.
  { intros s1 val Hs1. destruct (same_elim _ _ Hs1) as (Hb1 & _ & _ & Hn1 & _).
    destruct val as [val|resp]; [|by apply ends_ret; rewrite Hn1].
    case_decide; [by apply ends_raise; rewrite Hn1|]. apply ends_bind, ends_attempt.
    destruct (CreateNamespace_spec uuid req s1 (same_ok _ _ Hs1)) as (s2 & r & Hr & (Hok2 & Hst2 & Hsv2 & Hp2) & Hcr).
    exists s2, r. split; [done|]. destruct Hb1 as (_ & Hst1 & Hsv1 & Hp1).
    assert (grows (GetValue (nName req)) (namespaces (storage s)) (namespaces (storage s2))) as Hsub.
    { destruct Hcr as (H1 & _ & H3). destruct (decide (rCode (answer r) = ExecuteSuccess)) as [He|He].
      - destruct (H1 He) as (Hnone & n & -> & _). rewrite <- Hn1. by apply grows_insert.
      - by rewrite (H3 He), Hn1. }
    case_decide as Hcode; [apply ends_ret|apply ends_raise]; (split; [split_and!; congruence|]); (split; [done|]); [done|tauto]. }
  apply ends_attempt. assert (exists s1 val, loadNamespace (GetValue (nName req)) s = Ret (s1, val) /\ same s s1) as (s1 & val & Hl & Hs1).
  { unfold loadNamespace. destruct (cached _); [by eexists s, _|].
    destruct (GetNamespace_spec (GetValue (nName req)) (storage s) Hok) as (w' & r & Hm & H1 & H2 & H3 & _).
    unfold stored_or, orelse, on_storage, mbind, call_bind. rewrite Hm. destruct r as [o|err]; by eexists (swap s w'), _. }
  exists s1, val. split; [done|]. eapply ends_weaken; [exact (Hrest s1 val Hs1)|]. intros s' [a|e] (? & ? & ?); done.
Qed.

Lemma ends_refuse_when count req code s P (Q : Server -> result Response unit -> Prop) :
  reads count (storage s) P -> code <> ExecuteSuccess ->
  (forall s', same s s' -> P (Okay 0) -> Q s' (Okay ())) ->
  (forall s' resp, same s s' -> rCode resp <> ExecuteSuccess -> Q s' (Fail resp)) ->
  ends (refuse_when count req code) s Q.
Proof.
  intros Hm Hcode Hgo Hstop. apply ends_bind. eapply ends_reads; [exact Hm|]. intros s1 [n|err] Hs1 HP; [|by apply Hstop].
  case_decide as Hn; [by apply ends_raise, Hstop|]. apply ends_ret, Hgo; [done|]. assert (n = 0) as -> by lia. done.
Qed.

Lemma count_services namespace w : store_ok w -> plain namespace ->
  reads (getServicesCountWithNamespace namespace) w (fun r => r = Okay 0 -> countable w ->
    map_Forall (fun _ s => svcNamespace s <> namespace) (services w)).
Proof.
  intros Hok Hp. unfold reads, getServicesCountWithNamespace. apply ends_bind.
  eapply ends_weaken; [by apply GetServices_spec|]. intros w' [[n l]|e] (H1 & H2 & H3 & HP); [|done].
  apply ends_ret. split_and!; [done..|]. intros [= ->] Hc. by apply HP.
Qed.

(** Only a namespace without services can be deleted. *)
Lemma DeleteNamespaceAPI_spec req s : store_ok (storage s) ->
  ends (DeleteNamespaceAPI (Some req)) s (fun s' r => same_but_namespaces s s' /\
    (namespaces (storage s') = namespaces (storage s) \/
     namespaces (storage s') = delete (GetValue (nName req)) (namespaces (storage s)) /\
     (countable (storage s) -> map_Forall (fun _ x => svcNamespace x <> GetValue (nName req)) (services (storage s)))) /\
    (rCode (answer r) = ExecuteSuccess -> namespaces (storage s') = delete (GetValue (nName req)) (namespaces (storage s)))).
Proof.
  intros Hok. unfold DeleteNamespaceAPI. destruct (checkNamespace (Some req)) as [code|] eqn:Hc.
  { apply ends_raise. split; [done|]. rewrite (checkNamespace_code _ _ Hc). split; [by left|done]. }
  pose proof (checkNamespace_plain req Hc) as Hplain. set (name := GetValue (nName req)) in *.
  assert (forall s' resp, same s s' -> rCode resp <> ExecuteSuccess -> same_but_namespaces s s' /\
    (namespaces (storage s') = namespaces (storage s) \/ namespaces (storage s') = delete name (namespaces (storage s)) /\
      (countable (storage s) -> map_Forall (fun _ x => svcNamespace x <> name) (services (storage s)))) /\
    (rCode resp = ExecuteSuccess -> namespaces (storage s') = delete name (namespaces (storage s)))) as Hstop.
  { intros s' resp Hs' Hr. destruct (same_elim _ _ Hs') as (? & _ & _ & ? & _). split; [done|]. split; [by left|done]. }
  apply ends_bind. eapply ends_reads; [by apply CreateTransaction_spec|]. intros s1 [[]|err] Hs1 _; [|by apply Hstop].
  apply ends_bind. eapply ends_reads; [apply LockNamespace_spec; by apply same_ok in Hs1|]. intros s2 [o|err] Hs2 Ho.
  2: { apply Hstop; [by eapply same_trans|done]. }
  pose proof (same_trans _ _ _ Hs1 Hs2) as Hs02. destruct o as [n|].
  2: { apply ends_raise. destruct (same_elim _ _ Hs02) as (? & _ & _ & Hn & _). split; [done|]. split; [by left|]. intros _.
       rewrite Hn. symmetry. apply delete_id. by rewrite Ho, (same_namespaces _ _ Hs1). }
  assert (nsName n = name) as ->.
  { apply (namespaces_names (storage s1) name n); [by apply same_ok in Hs1|done]. }
  apply ends_bind. eapply ends_refuse_when; [apply count_services; [by apply same_ok in Hs2|done]|done| |].
  2: { intros s' resp Hs' Hr. apply Hstop; [by eapply same_trans|done]. }
  intros s3 Hs3 Hnone. pose proof (same_trans _ _ _ Hs02 Hs3) as Hs03.
  apply ends_bind. eapply ends_refuse_when; [apply CircuitBreakerCount_spec; by apply same_ok in Hs3|done| |].
  2: { intros s' resp Hs' Hr. apply Hstop; [by eapply same_trans|done]. }
  intros s4 Hs4 _. pose proof (same_trans _ _ _ Hs03 Hs4) as Hs04.
  apply ends_bind. eapply ends_refuse_when; [apply ConfigGroupCount_spec; by apply same_ok in Hs4|done| |].
  2: { intros s' resp Hs' Hr. apply Hstop; [by eapply same_trans|done]. }
  intros s5 Hs5 _. pose proof (same_trans _ _ _ Hs04 Hs5) as Hs05.
  apply ends_bind. eapply ends_namespaces; [apply DeleteNamespace_spec; by apply same_ok in Hs5|].
  destruct (same_elim _ _ Hs05) as ((Hok5 & Hst5 & Hsv5 & Hp5) & _ & _ & Hn5 & _).
  intros s6 [[]|err] (Hok6 & Hst6 & Hsv6 & Hp6) Hn6.
  2: { split; [split_and!; congruence|]. split; [left; congruence|done]. }
  apply ends_bind, ends_recorded; [done|]. intros s7 Hs7. apply ends_bind, ends_hook_ignored; [apply hook_ok; by apply same_ok in Hs7|].
  intros s8 r Hs8. apply ends_ret. destruct (same_elim _ _ (same_trans _ _ _ Hs7 Hs8)) as ((Hok8 & Hst8 & Hsv8 & Hp8) & _ & _ & Hn8 & _).
  split; [split_and!; congruence|]. assert (namespaces (storage s8) = delete name (namespaces (storage s))) by congruence.
  split; [right|done]. split; [done|]. intros Hcount. rewrite <- (same_services _ _ Hs02). apply Hnone; [done|].
  unfold countable in *. destruct (same_elim _ _ Hs02) as (_ & (_ & -> & _) & _ & _ & ->). done.
Qed.

(** Updates keep the set of namespaces. *)
Lemma UpdateNamespaceAPI_spec req s : store_ok (storage s) ->
  ends (UpdateNamespaceAPI (Some req)) s (fun s' r => same_but_namespaces s s' /\
    dom (namespaces (storage s')) = dom (namespaces (storage s))).
Proof.
  intros Hok. unfold UpdateNamespaceAPI. destruct (checkNamespace (Some req)) as [code|] eqn:Hc; [by apply ends_raise|].
  apply ends_bind. unfold checkNamespaceAuthority. apply ends_bind. eapply ends_reads; [by apply GetNamespace_spec|].
  intros s1 [o|err] Hs1 Ho; destruct (same_elim _ _ Hs1) as (Hb1 & _ & _ & Hn1 & _); [|by rewrite Hn1].
  destruct o as [n|]; [apply ends_ret|by apply ends_raise; rewrite Hn1].
  assert (nsName n = GetValue (nName req)) as Hname by (by apply (namespaces_names (storage s) _ n)).
  apply ends_bind. eapply ends_namespaces; [apply (UpdateNamespace_spec _ n); [by apply same_ok in Hs1|by cbn; rewrite Hn1, Hname]|].
  destruct Hb1 as (_ & Hst1 & Hsv1 & Hp1). intros s2 [[]|err] (Hok2 & Hst2 & Hsv2 & Hp2) Hn2.
  2: { rewrite Hn2, Hn1. split; [split_and!; congruence|done]. }
  destruct Hn2 as (n' & Hn2 & _). cbn in Hn2. apply ends_bind, ends_recorded; [done|]. intros s3 Hs3.
  assert (forall s4, same s2 s4 -> same_but_namespaces s s4 /\ dom (namespaces (storage s4)) = dom (namespaces (storage s))) as Hend.
  { intros s4 Hs4. destruct (same_elim _ _ Hs4) as ((Hok4 & Hst4 & Hsv4 & Hp4) & _ & _ & Hn4 & _).
    split; [split_and!; congruence|]. rewrite Hn4, Hn2, Hn1, Hname. apply dom_insert_lookup_L. by rewrite <- Ho. }
  apply ends_bind, ends_hook; [apply hook_ok; by apply same_ok in Hs3|]. intros s4 Hs4. pose proof (same_trans _ _ _ Hs3 Hs4) as Hs24.
  split; [by apply ends_ret, Hend|by apply Hend].
Qed.

Lemma UpdateNamespaceTokenAPI_spec token req s : store_ok (storage s) ->
  ends (UpdateNamespaceTokenAPI token (Some req)) s (fun s' r => same_but_namespaces s s' /\
    dom (namespaces (storage s')) = dom (namespaces (storage s)) /\
    (rCode (answer r) = ExecuteSuccess -> exists n, namespaces (storage s') !! GetValue (nName req) = Some n /\ nsToken n = token)).
Proof.
  intros Hok. unfold UpdateNamespaceTokenAPI. destruct (checkNamespace (Some req)) as [code|] eqn:Hc.
  { apply ends_raise. rewrite (checkNamespace_code _ _ Hc). by split_and!. }
  apply ends_bind. unfold checkNamespaceAuthority. apply ends_bind. eapply ends_reads; [by apply GetNamespace_spec|].
  intros s1 [o|err] Hs1 Ho; destruct (same_elim _ _ Hs1) as (Hb1 & _ & _ & Hn1 & _); [|by rewrite Hn1].
  destruct o as [n|]; [apply ends_ret|by apply ends_raise; rewrite Hn1].
  assert (nsName n = GetValue (nName req)) as Hname by (by apply (namespaces_names (storage s) _ n)). rewrite Hname.
  apply ends_bind. eapply ends_namespaces; [apply (UpdateNamespaceToken_spec _ _ n); [by apply same_ok in Hs1|by rewrite Hn1]|].
  destruct Hb1 as (_ & Hst1 & Hsv1 & Hp1). intros s2 [[]|err] (Hok2 & Hst2 & Hsv2 & Hp2) Hn2.
  2: { rewrite Hn2, Hn1. split; [split_and!; congruence|]. by split. }
  destruct Hn2 as (n' & Hn2 & Htok & _). apply ends_bind, ends_recorded; [done|]. intros s3 Hs3. apply ends_ret.
  destruct (same_elim _ _ Hs3) as ((Hok3 & Hst3 & Hsv3 & Hp3) & _ & _ & Hn3 & _).
  split; [split_and!; congruence|]. rewrite Hn3, Hn2, Hn1. split; [apply dom_insert_lookup_L; by rewrite <- Ho|].
  intros _. exists n'. by rewrite lookup_insert_eq.
Qed.

End laws.

End server.
