(* ===== verification/ServiceServer.v ===== *)
(** * The service API ([src/service/service.go], [service_alias.go])

    Creating, updating and deleting services and aliases, on the server's store.
    The resource hooks (the auth plugin, which keeps tables of its own) are an
    argument. *)

From S2P Require Import Prelude Effects GoStrings Utils Registry Services Namespace InstanceStore ServiceStore Api NamespaceServer.
From Stdlib Require Import ZArith Lia.
From stdpp Require Import base tactics list gmap strings.

Open Scope Z_scope.

Section server.
  Context {W : Type} `{!InstanceStorage W, !ServiceStorage W}.
  Context (recording allowAutoCreate : bool) (cached : string -> bool).
  Context (afterNamespaceResource : PbNamespace -> NamespaceModel -> bool -> call W unit unit).
  Context (afterServiceResource : PbService -> ServiceModel -> bool -> call W unit unit).
#[local] Abbreviation Server := (@Server W).
#[local] Abbreviation handler := (call Server Response).
#[local] Abbreviation RecordHistory := (RecordHistory recording).

Definition svcException (req : PbService) (_ : StatusCode) : Response := NewServiceResponse StoreLayerException (Some req).
Definition wrapperServiceStoreResponse (req : PbService) (err : StatusCode) : Response :=
  NewServiceResponse (StoreCode2APICode err) (Some req).
Definition serviceRecordEntry (req : PbService) (opt : OperationType) : RecordEntry :=
  mkEntry (GetValue (sName req)) (GetValue (sNamespace req)) opt.

(** ** Services *)

Definition createNamespaceIfAbsent (uuid : string) (req : PbService) : handler string :=
  CreateNamespaceIfAbsent allowAutoCreate cached afterNamespaceResource uuid
    (Some (mkPbNamespace (Some (GetValue (sNamespace req))) None (sOwners req) None)).

(** [uuid]: the id, the token and the revision of the service, the token of the
    namespace. *)
Definition CreateService (uuid : nat -> string) (req : option PbService) : handler Response :=
  match checkCreateService req, req with
  | Some code, _ => raise (NewServiceResponse code req)
  | None, None => panics NilDereference
  | None, Some req =>
      _ ← createNamespaceIfAbsent (uuid 3%nat) req;
      let namespaceName := GetValue (sNamespace req) in
      let serviceName := GetValue (sName req) in
      let existing (s : ServiceModel) : Response := NewServiceResponse ExistedResource (Some (set_sId req (Some (svcID s)))) in
      namespace ← stored_or (GetNamespace namespaceName) (svcException req);
      if decide (namespace = None) then raise (NewServiceResponse NotFoundNamespace (Some req))
      else
        service ← stored_or (GetService serviceName namespaceName) (svcException req);
        match service with
        | Some s => raise (existing s)
        | None =>
            data ← attempt (on_storage (AddService (createServiceModel uuid req)));
            match data with
            | Fail err =>
                if decide (StoreCode2APICode err = ExistedResource) then
                  service ← stored_or (GetService serviceName namespaceName) (svcException req);
                  raise (match service with Some s => existing s | None => wrapperServiceStoreResponse req err end)
                else raise (wrapperServiceStoreResponse req err)
            | Okay data =>
                _ ← RecordHistory (serviceRecordEntry req OCreate);
                _ ← orelse (on_storage (afterServiceResource req data false)) (fun _ => NewResponse ExecuteException);
                mret (NewServiceResponse ExecuteSuccess
                  (Some (mkPbService (Some (svcID data)) (sName req) (sNamespace req) None None None None None None None None None
                     (Some (svcToken data)) None None)))
            end
        end
  end.

(** [isServiceExistedResource]: a service that still has instances, aliases or
    routings is refused. *)
Definition refuse_when (count : call W StatusCode bool) (out : PbService) (code : Code) : handler unit :=
  some ← stored_or count (svcException out);
  if some : bool then raise (NewServiceResponse code (Some out)) else mret ().

Definition hasInstances (s : ServiceModel) : call W StatusCode bool :=
  '(total, _) ← GetExpandInstances (named_filter "name" (svcName s) (svcNamespace s)) [] 0 1; mret (bool_decide (total <> 0)).
Definition hasAliases (s : ServiceModel) : call W StatusCode bool :=
  '(total, _) ← GetServiceAliases (named_filter "service" (svcName s) (svcNamespace s)) 0 1; mret (bool_decide (total <> 0)).

Definition isServiceExistedResource (s : ServiceModel) : handler unit :=
  if IsAlias s then mret ()
  else
    let out := mkPbService None (Some (svcName s)) (Some (svcNamespace s)) None None None None None None None None None None None None in
    _ ← refuse_when (hasInstances s) out ServiceExistedInstances;
    _ ← refuse_when (hasAliases s) out ServiceExistedAlias;
    refuse_when (HasRoutingConfig (svcID s)) out ServiceExistedRoutings.

Definition DeleteServiceAPI (req : option PbService) : handler Response :=
  match checkReviseService req, req with
  | Some code, _ => raise (NewServiceResponse code req)
  | None, None => panics NilDereference
  | None, Some req =>
      let namespaceName := GetValue (sNamespace req) in
      let serviceName := GetValue (sName req) in
      service ← stored_or (GetService serviceName namespaceName) (svcException req);
      match service with
      | None => raise (NewServiceResponse ExecuteSuccess (Some req))
      | Some s =>
          _ ← isServiceExistedResource s;
          _ ← stored_or (DeleteService (svcID s) serviceName namespaceName) (wrapperServiceStoreResponse req);
          _ ← RecordHistory (serviceRecordEntry req ODelete);
          _ ← orelse (on_storage (afterServiceResource req s true)) (fun _ => NewServiceResponse ExecuteException (Some req));
          mret (NewServiceResponse ExecuteSuccess (Some req))
      end
  end.

(** The service that a request is about; for an alias, the one it refers to. *)
Definition checkServiceAuthority (req : PbService) : handler ServiceModel :=
  svc ← stored_or (GetService (GetValue (sName req)) (GetValue (sNamespace req))) (svcException req);
  match svc with
  | None => raise (NewServiceResponse NotFoundResource (Some req))
  | Some svc =>
      if decide (svcReference svc = "") then mret svc
      else
        source ← stored_or (GetServiceByID (svcReference svc)) (svcException req);
        match source with
        | None => raise (NewServiceResponse NotFoundResource (Some req))
        | Some source => mret source
        end
  end.

Definition UpdateServiceAPI (uuid : string) (req : option PbService) : handler Response :=
  match checkReviseService req, req with
  | Some code, _ => raise (NewServiceResponse code req)
  | None, None => panics NilDereference
  | None, Some req =>
      service ← checkServiceAuthority req;
      if IsAlias service then raise (NewServiceResponse NotAllowAliasUpdate (Some req))
      else
        match updateServiceAttribute uuid req service with
        | None => raise (NewServiceResponse InvalidMetadata (Some req))
        | Some (service, needUpdate, needUpdateOwner) =>
            let after := orelse (on_storage (afterServiceResource req service false)) (fun _ => NewServiceResponse ExecuteException (Some req)) in
            if negb needUpdate then
              _ ← after; raise (NewServiceResponse NoNeedUpdate (Some req))
            else
              _ ← stored_or (UpdateService service needUpdateOwner) (wrapperServiceStoreResponse req);
              _ ← RecordHistory (serviceRecordEntry req OUpdate);
              _ ← after;
              mret (NewServiceResponse ExecuteSuccess (Some req))
        end
  end.

Definition UpdateServiceTokenAPI (token revision : string) (req : option PbService) : handler Response :=
  match checkReviseService req, req with
  | Some code, _ => raise (NewServiceResponse code req)
  | None, None => panics NilDereference
  | None, Some req =>
      service ← checkServiceAuthority req;
      if IsAlias service then raise (NewServiceResponse NotAllowAliasUpdate (Some req))
      else
        _ ← stored_or (UpdateServiceToken (svcID service) token revision) (wrapperServiceStoreResponse req);
        _ ← RecordHistory (serviceRecordEntry req OUpdateToken);
        mret (NewServiceResponse ExecuteSuccess
          (Some (mkPbService None (sName req) (sNamespace req) None None None None None None None None None (Some token) None None)))
  end.

Definition GetServiceToken (req : option PbService) : handler Response :=
  match checkReviseService req, req with
  | Some code, _ => raise (NewServiceResponse code req)
  | None, None => panics NilDereference
  | None, Some req =>
      service ← checkServiceAuthority req;
      mret (NewServiceResponse ExecuteSuccess
        (Some (mkPbService None (sName req) (sNamespace req) None None None None None None None None None (Some (svcToken service)) None None)))
  end.

(** ** Aliases *)

Definition aliasException (req : PbAlias) (_ : StatusCode) : Response := NewServiceAliasResponse StoreLayerException (Some req).
Definition aliasRefused {A} (code : Code) (req : PbAlias) : handler A := raise (NewServiceAliasResponse code (Some req)).

Definition checkPointServiceAlias (req : PbAlias) : handler ServiceModel :=
  service ← stored_or (LockService (GetValue (aService req)) (GetValue (aNamespace req))) (aliasException req);
  match service with
  | None => aliasRefused NotFoundService req
  | Some s => if IsAlias s then aliasRefused NotAllowCreateAliasForAlias req else mret s
  end.

(** The name of an alias of type CL5SID is generated. *)
Definition createServiceAliasModel (uuid : nat -> string) (req : PbAlias) (svcId : string) : handler ServiceModel :=
  match aType req with
  | AliasDefault => mret (createAliasModel uuid req (GetValue (aAlias req)) svcId)
  | AliasCL5SID =>
      match Namespace2SidLayoutID !! GetValue (aAliasNamespace req) with
      | None => aliasRefused InvalidNamespaceWithAlias req
      | Some layoutID =>
          sid ← stored_or (GenNextL5Sid layoutID) (aliasException req);
          mret (createAliasModel uuid req sid svcId)
      end
  end.

Definition CreateServiceAlias (uuid : nat -> string) (req : option PbAlias) : handler Response :=
  match checkCreateServiceAliasReq req, req with
  | Some code, _ => raise (NewServiceAliasResponse code req)
  | None, None => panics NilDereference
  | None, Some req =>
      _ ← stored_or CreateTransaction (aliasException req);
      service ← checkPointServiceAlias req;
      _ ← (if decide (GetValue (aAlias req) = "") then mret ()
           else
             old ← stored_or (GetService (GetValue (aAlias req)) (GetValue (aAliasNamespace req))) (aliasException req);
             match old with Some _ => aliasRefused ExistedResource req | None => mret () end);
      input ← createServiceAliasModel uuid req (svcID service);
      input ← stored_or (AddService input) (aliasException req);
      let alias := if decide (GetValue (aAlias req) = "") then Some (svcName input) else aAlias req in
      _ ← RecordHistory (mkEntry (GetValue alias) (GetValue (aAliasNamespace req)) OCreate);
      mret (NewServiceAliasResponse ExecuteSuccess
        (Some (mkPbAlias (aService req) (aNamespace req) alias (aAliasNamespace req) AliasDefault None None (Some (svcToken input)))))
  end.

(** Whether what is deleted is an alias is not asked. *)
Definition DeleteServiceAliasAPI (req : option PbAlias) : handler Response :=
  match checkDeleteServiceAliasReq req, req with
  | Some code, _ => raise (NewServiceAliasResponse code req)
  | None, None => panics NilDereference
  | None, Some req =>
      let name := GetValue (aAlias req) in
      let namespace := GetValue (aAliasNamespace req) in
      alias ← stored_or (GetService name namespace) (aliasException req);
      match alias with
      | None => aliasRefused NotFoundServiceAlias req
      | Some _ =>
          _ ← stored_or (DeleteServiceAlias name namespace) (aliasException req);
          mret (NewServiceAliasResponse ExecuteSuccess (Some req))
      end
  end.

Definition UpdateServiceAliasAPI (uuid : string) (req : option PbAlias) : handler Response :=
  match checkReviseServiceAliasReq req, req with
  | Some code, _ => raise (NewServiceAliasResponse code req)
  | None, None => panics NilDereference
  | None, Some req =>
      alias ← stored_or (GetService (GetValue (aAlias req)) (GetValue (aAliasNamespace req))) (aliasException req);
      match alias with
      | None => aliasRefused NotFoundServiceAlias req
      | Some alias =>
          service ← stored_or (GetService (GetValue (aService req)) (GetValue (aNamespace req))) (aliasException req);
          match service with
          | None => aliasRefused NotFoundService req
          | Some service =>
              if IsAlias service then aliasRefused NotAllowCreateAliasForAlias req
              else
                current ← stored_or (GetServiceByID (svcReference alias)) (aliasException req);
                current ← deref current;
                let '(alias, needUpdate, needUpdateOwner) := updateServiceAliasAttribute uuid req alias current (svcID service) in
                if negb needUpdate then aliasRefused NoNeedUpdate req
                else
                  _ ← stored_or (UpdateServiceAlias alias needUpdateOwner)
                        (fun err => NewServiceAliasResponse (StoreCode2APICode err) (Some req));
                  _ ← RecordHistory (mkEntry (GetValue (aAlias req)) (GetValue (aNamespace req)) OUpdate);
                  mret (NewServiceAliasResponse ExecuteSuccess (Some req))
          end
      end
  end.

(** ** Batches: [CreateServices], [DeleteServices], [UpdateServices] and [DeleteServiceAliases] *)

Definition batchServices {A} (number : Code -> Z) (handle : nat -> option A -> handler Response) (reqs : list (option A))
    : handler BatchWriteResponse :=
  match checkBatchService reqs with
  | Some code => mret (NewBatchWriteResponse number code)
  | None =>
      responses ← batchOperateInTurn number handle 0 reqs (NewBatchWriteResponse number ExecuteSuccess);
      mret (FormatBatchWriteResponse number responses)
  end.

Lemma batchServices_answers {A} number (I : Server -> Prop) (handle : nat -> option A -> handler Response) reqs s :
  (forall c, number c / 1000 = 200 \/ 400 <= number c / 1000) ->
  (forall i r s, I s -> ends (handle i r) s (fun s' _ => I s')) -> I s ->
  ends (batchServices number handle reqs) s (fun s' r => I s' /\ exists b, r = Okay b /\
    match checkBatchService reqs with
    | Some code => bCode b = number code /\ bResponses b = []
    | None => length (bResponses b) = length reqs /\ bCode b = batch_code number (bResponses b)
    end).
Proof.
  intros Hnum Hh HI. unfold batchServices. destruct (checkBatchService reqs); [apply ends_ret; split; [done|by eexists]|].
  apply ends_bind. eapply ends_weaken; [by apply (ends_in_turn number I)|]. intros s' r (HI' & rs & Hl & ->). apply ends_ret.
  split; [done|]. eexists. split; [done|]. destruct (batch_response_code number Hnum rs) as (H1 & H2 & _). by rewrite H1, H2.
Qed.

(** ** What the handlers do *)

Section laws.
  Context `{!InstanceStorageLaws W, !ServiceStorageLaws W}.
  Context (ns_hook_ok : forall req n remove w, store_ok w -> reads (afterNamespaceResource req n remove) w (fun _ => True)).
  Context (svc_hook_ok : forall req s remove w, store_ok w -> reads (afterServiceResource req s remove) w (fun _ => True)).

(** *** Creating a service *)

(** The ids that are drawn are new. *)
Definition new_ids (uuid : nat -> string) (s : Server) : Prop := uuid 0%nat <> "" /\ services (storage s) !! uuid 0%nat = None.

(** What the answer to a creation means, when the store was [s] and is [s']. *)
Definition service_created (uuid : nat -> string) (req : PbService) (s s' : Server) (resp : Response) : Prop :=
  let name := GetValue (sName req) in
  let namespace := GetValue (sNamespace req) in
  let new := exists data, services (storage s') = <[uuid 0%nat := data]> (services (storage s)) /\
    untimed data = untimed (createServiceModel uuid req) /\ nobody_named name namespace (services (storage s)) /\
    is_Some (namespaces (storage s') !! namespace) in
  (rCode resp = ExecuteSuccess -> new /\ rService resp ≫= sId = Some (uuid 0%nat)) /\
  (rCode resp = ExistedResource -> services (storage s') = services (storage s) /\
     exists x, rService resp = Some (set_sId req (Some (svcID x))) /\ services (storage s) !! svcID x = Some x /\ has_name name namespace x) /\
  (services (storage s') = services (storage s) \/ new).

(** Only the namespace of this name may be new. *)
Definition changes_catalogue (namespace : string) (s s' : Server) : Prop :=
  untouched s s' /\ grows namespace (namespaces (storage s)) (namespaces (storage s')).

Lemma grown_same namespace s1 s2 s3 : changes_catalogue namespace s1 s2 -> same s2 s3 -> changes_catalogue namespace s1 s3.
Proof.
  intros [(H1 & H2 & H3) H4] Hs. destruct (same_elim _ _ Hs) as (_ & _ & (H5 & H6 & H7) & H8 & _).
  split; [|by rewrite H8]. split_and!; congruence.
Qed.

Lemma not_created uuid req s s' resp :
  services (storage s') = services (storage s) -> rCode resp <> ExecuteSuccess -> rCode resp <> ExistedResource -> service_created uuid req s s' resp.
Proof. intros Hs H1 H2. split_and!; [done|done|by left]. Qed.

(** The service that has the name asked for, or that none has. *)
Definition found (name namespace : string) (s : Server) (o : option ServiceModel) : Prop :=
  match o with
  | Some x => services (storage s) !! svcID x = Some x /\ has_name name namespace x
  | None => nobody_named name namespace (services (storage s))
  end.

Lemma ends_find name namespace f s (Q : Server -> result Response (option ServiceModel) -> Prop) :
  store_ok (storage s) -> plain name -> plain namespace ->
  (forall s' o, same s s' -> found name namespace s o -> Q s' (Okay o)) ->
  (forall s' err, same s s' -> Q s' (Fail (f err))) ->
  ends (stored_or (GetService name namespace) f) s Q.
Proof.
  intros Hok Hn Hns HQ HF. apply ends_stored. eapply ends_weaken; [by apply GetService_spec|].
  intros w' r (H1 & H2 & H3 & H4). destruct r as [o|err]; [|by apply HF]. apply HQ; [done|]. exact (H4 Hn Hns).
Qed.

Lemma CreateService_spec uuid req s : store_ok (storage s) -> new_ids uuid s ->
  ends (CreateService uuid (Some req)) s (fun s' r => changes_catalogue (GetValue (sNamespace req)) s s' /\ service_created uuid req s s' (answer r)).
Proof.
  intros Hok [Hne Hnew]. unfold CreateService. destruct (checkCreateService (Some req)) as [code|] eqn:Hc.
  { apply ends_raise. split; [by split|]. apply not_created; [done|apply (checkCreateService_code _ _ Hc)..]. }
  destruct (checkCreateService_plain req Hc) as [Hn Hns]. apply ends_bind. unfold createNamespaceIfAbsent.
  eapply ends_weaken; [by apply (CreateNamespaceIfAbsent_spec _ _ _ ns_hook_ok)|].
  intros s1 r ((Hok1 & Hst1 & Hsv1 & Hp1) & Hsub & Hr). assert (changes_catalogue (GetValue (sNamespace req)) s s1) as Hch by done.
  destruct r as [ns|resp]; [|split; [done|by apply not_created; destruct Hr]]. clear Hr.
  apply ends_bind. eapply ends_reads; [by apply GetNamespace_spec|]. intros s2 [o|err] Hs2 Ho.
  2: { split; [by eapply grown_same|]. apply not_created; [|done..]. by rewrite (same_services _ _ Hs2). }
  case_decide as Hnone.
  { apply ends_raise. split; [by eapply grown_same|]. apply not_created; [|done..]. by rewrite (same_services _ _ Hs2). }
  pose proof (grown_same _ _ _ _ Hch Hs2) as Hch2. pose proof (same_services _ _ Hs2) as Hsv2. rewrite Hsv1 in Hsv2.
  assert (is_Some (namespaces (storage s2) !! GetValue (sNamespace req))) as Hns2.
  { rewrite (same_namespaces _ _ Hs2), <- Ho. by apply not_eq_None_Some. }
  clear Ho Hnone. apply ends_bind, ends_find; [by apply same_ok in Hs2|done|done|..].
  2: { intros s3 err Hs3. split; [by eapply grown_same|]. apply not_created; [|done..]. by rewrite (same_services _ _ Hs3). }
  intros s3 o3 Hs3 Ho3. pose proof (grown_same _ _ _ _ Hch2 Hs3) as Hch3. pose proof (same_services _ _ Hs3) as Hsv3. rewrite Hsv2 in Hsv3.
  assert (forall s' x, changes_catalogue (GetValue (sNamespace req)) s s' -> services (storage s') = services (storage s) ->
    found (GetValue (sName req)) (GetValue (sNamespace req)) s (Some x) -> changes_catalogue (GetValue (sNamespace req)) s s' /\
    service_created uuid req s s' (NewServiceResponse ExistedResource (Some (set_sId req (Some (svcID x)))))) as Hex.
  { intros s' x Hs' Hsv Hx. split; [done|]. split_and!; [done| |by left]. intros _. split; [done|]. by exists x. }
  unfold found in Ho3, Hex. rewrite Hsv2 in Ho3. destruct o3 as [x|]; [by apply ends_raise, Hex|].
  apply ends_bind, ends_attempt.
  destruct (AddService_spec (createServiceModel uuid req) (storage s3)) as (w4 & r4 & Hm & Hok4 & Hst4 & Hns4 & Hr4);
    [by apply same_ok in Hs3|done..|cbn; by rewrite Hsv3|cbn; by rewrite Hsv3|].
  exists (swap s3 w4), r4. unfold on_storage. rewrite Hm. split; [done|].
  destruct Hch3 as [(Hok3 & Hst3 & Hp3) Hsub3].
  assert (changes_catalogue (GetValue (sNamespace req)) s (swap s3 w4)) as Hch4.
  { split; [split_and!; cbn; congruence|]. cbn. by rewrite Hns4. }
  destruct r4 as [data|err].
  - destruct Hr4 as [Hsv4 Hdata]. rewrite Hsv3 in Hsv4. change (svcID (createServiceModel uuid req)) with (uuid 0%nat) in Hsv4.
    assert (forall s5, same (swap s3 w4) s5 -> changes_catalogue (GetValue (sNamespace req)) s s5 /\ exists data, services (storage s5) = <[uuid 0%nat := data]> (services (storage s)) /\
      untimed data = untimed (createServiceModel uuid req) /\ nobody_named (GetValue (sName req)) (GetValue (sNamespace req)) (services (storage s)) /\
      is_Some (namespaces (storage s5) !! GetValue (sNamespace req))) as Hnew5.
    { intros s5 Hs5. split; [by eapply grown_same|]. exists data. rewrite (same_services _ _ Hs5), (same_namespaces _ _ Hs5).
      split_and!; [done..|]. cbn. by rewrite Hns4, (same_namespaces _ _ Hs3). }
    apply ends_bind, ends_recorded; [done|]. intros s5 Hs5. apply ends_bind, ends_hook; [apply svc_hook_ok; by apply same_ok in Hs5|].
    intros s6 Hs6. destruct (Hnew5 s6 (same_trans _ _ _ Hs5 Hs6)) as [Hch6 Hex6].
    split; [apply ends_ret|]; (split; [done|]); split_and!; try done; [|by right..].
    intros _. split; [done|]. cbn. f_equal. by apply (f_equal svcID) in Hdata.
  - destruct Hr4 as [Hr4 Hdup]. rewrite Hsv3 in Hr4. rewrite decide_False by (intros He; by destruct err).
    apply ends_raise. split; [done|]. apply not_created; [done|apply StoreCode2APICode_fails|by destruct err].
Qed.

(** C17. A service that is created with success is in the store under a new id, as
    the request describes it, no other service having its name, and its
    namespace is there; it is answered that it existed only if a service has the
    name, with the id of that service.  Every other answer leaves the services alone
    or has stored the new one, before a hook failed.  Nothing else changes: no other
    service, no instance, no event; the namespace of the request, and no other, may
    be new. *)
Theorem service_creation uuid req s : store_ok (storage s) -> new_ids uuid s ->
  ends (CreateService uuid (Some req)) s (fun s' r => changes_catalogue (GetValue (sNamespace req)) s s' /\ service_created uuid req s s' (answer r)).
Proof. exact (CreateService_spec uuid req s). Qed.

(** *** Deleting a service *)

Lemma ends_refused count out code s (P : W -> result StatusCode bool -> Prop) (Q : Server -> result Response unit -> Prop) :
  ends count (storage s) (fun w' r => store_ok w' /\ catalogue w' = catalogue (storage s) /\ stored w' = stored (storage s) /\ P w' r) ->
  code <> ExecuteSuccess ->
  (forall s', same s s' -> P (storage s') (Okay false) -> Q s' (Okay ())) ->
  (forall s' resp, same s s' -> rCode resp <> ExecuteSuccess -> Q s' (Fail resp)) ->
  ends (refuse_when count out code) s Q.
Proof.
  intros Hm Hcode Hgo Hstop. apply ends_bind, ends_stored. eapply ends_weaken; [exact Hm|].
  intros w' r (H1 & H2 & H3 & HP). destruct r as [[]|err]; [by apply ends_raise, Hstop|by apply ends_ret, Hgo|by apply Hstop].
Qed.

Lemma hasInstances_spec x w : store_ok w -> plain (svcName x) -> plain (svcNamespace x) -> services w !! svcID x = Some x ->
  ends (hasInstances x) w (fun w' r => store_ok w' /\ catalogue w' = catalogue w /\ stored w' = stored w /\
    (reliable w -> reliable w') /\ (r = Okay false -> countable w -> map_Forall (fun _ c => c.2 <> svcID x) (stored w))).
Proof.
  intros Hok Hn Hns Hx. unfold hasInstances. apply ends_bind.
  destruct (GetExpandInstances_spec (svcName x) (svcNamespace x) w Hok Hn Hns) as (w' & r & Hm & H1 & H2 & H3 & HP).
  exists w', r. split; [done|]. assert (reliable w -> reliable w') as Hrel.
  { intros (w'' & r' & Hm' & Hw)%(GetExpandInstances_reliable (named_filter "name" (svcName x) (svcNamespace x))). congruence. }
  destruct r as [[total l]|e]; [|done]. apply ends_ret. split_and!; [done..|]. intros [= Ht%bool_decide_eq_false] Hc. apply dec_stable in Ht.
  by apply HP.
Qed.

Lemma hasAliases_spec x w : store_ok w -> services w !! svcID x = Some x -> svcID x <> "" ->
  ends (hasAliases x) w (fun w' r => store_ok w' /\ catalogue w' = catalogue w /\ stored w' = stored w /\
    (r = Okay false -> reliable w -> countable w -> map_Forall (fun _ t => svcReference t <> svcID x) (services w))).
Proof.
  intros Hok Hx Hne. unfold hasAliases. apply ends_bind. eapply ends_weaken; [by apply (GetServiceAliases_spec (svcName x) (svcNamespace x))|].
  intros w' [[total l]|e] (H1 & H2 & H3 & HP); [|done]. apply ends_ret. split_and!; [done..|].
  intros [= Ht%bool_decide_eq_false] Hr Hc. apply dec_stable in Ht. by apply HP.
Qed.

(** What passes is an alias, or nothing refers to it. *)
Lemma isServiceExistedResource_spec x s : store_ok (storage s) -> plain (svcName x) -> plain (svcNamespace x) ->
  services (storage s) !! svcID x = Some x -> svcID x <> "" ->
  ends (isServiceExistedResource x) s (fun s' r => same s s' /\
    match r with
    | Okay _ => IsAlias x = true \/ (reliable (storage s) -> countable (storage s) -> unused x (storage s))
    | Fail resp => rCode resp <> ExecuteSuccess
    end).
Proof.
  intros Hok Hn Hns Hx Hne. unfold isServiceExistedResource. destruct (IsAlias x); [apply ends_ret; split; [done|by left]|].
  apply ends_bind. eapply ends_refused; [by apply hasInstances_spec|done| |done]. intros s1 Hs1 [Hrel Hins].
  pose proof (same_services _ _ Hs1) as Hsv1. apply ends_bind. eapply ends_refused; [apply hasAliases_spec; [by apply same_ok in Hs1|by rewrite Hsv1|done]|done| |].
  2: { intros s2 resp Hs2 Hr. split; [by eapply same_trans|done]. }
  intros s2 Hs2 Hal. pose proof (same_trans _ _ _ Hs1 Hs2) as Hs02.
  eapply ends_refused; [eapply ends_weaken; [apply HasRoutingConfig_spec; by apply same_ok in Hs2|]|done|..].
  - intros w' r (H1 & H2 & H3 & _). split_and!; [done..|]. exact I.
  - intros s3 Hs3 _. split; [by eapply same_trans|]. right. intros Hr Hc. split; [by apply Hins|].
    rewrite <- Hsv1. apply Hal; [done|by apply Hrel|]. by apply (same_countable _ _ Hs1).
  - intros s3 resp Hs3 Hr. split; [by eapply same_trans|done].
Qed.

Definition drops (m m' : gmap string ServiceModel) (x : ServiceModel) : Prop := m !! svcID x = Some x /\ m' = delete (svcID x) m.

(** The service named is removed, if it is an alias or nothing refers to it;
    nothing else changes. *)
Lemma DeleteServiceAPI_spec req s : store_ok (storage s) -> (services (storage s) !! "" = None) ->
  ends (DeleteServiceAPI (Some req)) s (fun s' r => same_but_services s s' /\
    (services (storage s') = services (storage s) \/
     exists x, drops (services (storage s)) (services (storage s')) x /\ has_name (GetValue (sName req)) (GetValue (sNamespace req)) x /\
       (IsAlias x = true \/ (reliable (storage s) -> countable (storage s) -> unused x (storage s)))) /\
    (rCode (answer r) = ExecuteSuccess ->
     (exists x, drops (services (storage s)) (services (storage s')) x /\ has_name (GetValue (sName req)) (GetValue (sNamespace req)) x) \/
     nobody_named (GetValue (sName req)) (GetValue (sNamespace req)) (services (storage s')))).
Proof.
  intros Hok Hempty. set (Q := fun s' (r : result Response Response) => _).
  assert (forall s' resp, same s s' -> rCode resp <> ExecuteSuccess -> Q s' (Fail resp)) as Hstop.
  { intros s' resp Hs' Hr. destruct (same_elim _ _ Hs') as (_ & ? & _ & _ & ?). split; [done|]. split; [by left|done]. }
  unfold DeleteServiceAPI. destruct (checkReviseService (Some req)) as [code|] eqn:Hc.
  { apply ends_raise, Hstop; [done|]. apply (checkReviseService_code _ _ Hc). }
  destruct (checkReviseService_plain req Hc) as [Hn Hns]. apply ends_bind.
  destruct (GetService_spec (GetValue (sName req)) (GetValue (sNamespace req)) (storage s) Hok) as (w1 & r1 & Hm1 & H1 & H2 & H3 & H4).
  assert (reliable (storage s) -> reliable w1) as Hrel1.
  { intros (w' & r' & Hm' & Hw)%(GetService_reliable (GetValue (sName req)) (GetValue (sNamespace req))). congruence. }
  apply ends_stored. exists w1, r1. split; [done|]. set (s1 := swap s w1). assert (same s s1) as Hs1 by done.
  destruct r1 as [o|err]; [|by apply Hstop]. specialize (H4 Hn Hns). pose proof (same_services _ _ Hs1) as Hsv1.
  change (found (GetValue (sName req)) (GetValue (sNamespace req)) s o) in H4. destruct o as [x|].
  2: { apply ends_raise. destruct (same_elim _ _ Hs1) as (_ & ? & _). split; [done|]. split; [by left|]. intros _. right. by rewrite Hsv1. }
  destruct H4 as [Hx Hname]. assert (svcID x <> "") as Hne by (intros He; rewrite He, Hempty in Hx; done).
  pose proof Hname as [Hn1 Hns1]. apply ends_bind.
  eapply ends_weaken; [apply (isServiceExistedResource_spec x s1)|]; [done|by rewrite Hn1|by rewrite Hns1|by rewrite Hsv1|done|].
  intros s2 r2 [Hs2 Hr2]. pose proof (same_trans _ _ _ Hs1 Hs2) as Hs02. destruct r2 as [[]|resp]; [|by apply Hstop].
  apply ends_bind. eapply ends_services; [apply DeleteService_spec; by apply same_ok in Hs2|].
  destruct (same_elim _ _ Hs02) as (_ & (Hok2 & Hst2 & Hns2 & Hp2) & _ & _ & Hsv2).
  intros s3 [[]|err] (Hok3 & Hst3 & Hns3 & Hp3) Hsv3; rewrite Hsv2 in Hsv3.
  2: { split; [split_and!; congruence|]. split; [by left|]. intros He. by apply StoreCode2APICode_fails in He. }
  assert (forall s4 r, same s3 s4 -> Q s4 r) as Hend.
  { intros s4 r Hs4. destruct (same_elim _ _ Hs4) as (_ & (Hok4 & Hst4 & Hns4 & Hp4) & _ & _ & Hsv4).
    assert (drops (services (storage s)) (services (storage s4)) x) as Hd by (split; [done|congruence]).
    split; [split_and!; congruence|]. split; [right|intros _; left]; exists x; [split; [done|]; split; [done|]|done].
    destruct Hr2 as [|Hun]; [by left|]. right. intros Hr Hcnt.
    apply (same_unused x _ _ Hs1), Hun; [by apply Hrel1|by apply (same_countable _ _ Hs1)]. }
  apply ends_bind, ends_recorded; [done|]. intros s4 Hs4. apply ends_bind, ends_hook; [apply svc_hook_ok; by apply same_ok in Hs4|].
  intros s5 Hs5. split; [apply ends_ret|]; apply Hend; by eapply same_trans.
Qed.

(** *** Updating a service *)

(** A service that is there, and is not an alias. *)
Definition real (m : gmap string ServiceModel) (id : string) : Prop := exists x, m !! id = Some x /\ svcReference x = "".
Definition aliases_resolve (m : gmap string ServiceModel) : Prop :=
  map_Forall (fun _ t => svcReference t <> "" -> real m (svcReference t)) m.

(** A service is replaced by one with its id and its name. *)
Definition replaces (m m' : gmap string ServiceModel) (old new : ServiceModel) : Prop :=
  m !! svcID old = Some old /\ same_place old new /\ m' = <[svcID old := new]> m.

(** The service with the name, or the one that the alias of this name refers to. *)
Lemma checkServiceAuthority_spec req s : store_ok (storage s) -> plain_service req -> aliases_resolve (services (storage s)) ->
  ends (checkServiceAuthority req) s (fun s' r => same s s' /\
    match r with
    | Okay x => services (storage s) !! svcID x = Some x /\ svcReference x = "" /\
        exists y, services (storage s) !! svcID y = Some y /\ has_name (GetValue (sName req)) (GetValue (sNamespace req)) y /\
          (y = x \/ svcReference y = svcID x)
    | Fail resp => rCode resp <> ExecuteSuccess
    end).
Proof.
  intros Hok [Hn Hns] Hres. apply ends_bind, ends_find; [done..| |by intros s1 err Hs1].
  intros s1 [x|] Hs1 Hx; [|by apply ends_raise]. destruct Hx as [Hx Hname].
  case_decide as Href; [apply ends_ret; split_and!; [done..|]; exists x; split_and!; [done..|by left]|].
  destruct (Hres _ _ Hx Href) as (y & Hy & Hyr). apply ends_bind, ends_stored.
  pose proof (same_services _ _ Hs1) as Hsv1.
  eapply ends_weaken; [apply (GetServiceByID_spec _ y); [by apply same_ok in Hs1|by change ((catalogue (storage s1)).1) with (services (storage s1)); rewrite Hsv1]|].
  intros w2 r2 (H1 & H2 & H3 & Hr). assert (same s (swap s1 w2)) as Hs2 by (by apply (same_trans _ s1)).
  destruct r2 as [o|err]; [|done]. subst o. apply ends_ret. split; [done|].
  pose proof (services_ids _ _ _ Hok Hy) as Hid. rewrite Hid. split_and!; [done..|].
  exists x. split_and!; [done..|by right].
Qed.

Lemma updateServiceAttribute_place uuid req x x' b c : updateServiceAttribute uuid req x = Some (x', b, c) ->
  same_place x x' /\ svcReference x' = svcReference x.
Proof. unfold updateServiceAttribute. destruct (failed _); [done|]. by intros [= <- _ _]. Qed.

(** An update replaces at most one service, which is not an alias. *)
Definition service_updated (s s' : Server) (r : result Response Response) : Prop :=
  let changed := exists old new, replaces (services (storage s)) (services (storage s')) old new /\ svcReference old = "" /\ svcReference new = "" in
  same_but_services s s' /\ (services (storage s') = services (storage s) \/ changed) /\ (rCode (answer r) = ExecuteSuccess -> changed).

Lemma not_updated s s' resp : same s s' -> rCode resp <> ExecuteSuccess -> service_updated s s' (Fail resp).
Proof. intros Hs Hr. destruct (same_elim _ _ Hs) as (_ & ? & _ & _ & ?). split; [done|]. by split; [left|]. Qed.

Lemma updated_step s s1 s2 s3 x new r : same s s1 -> services (storage s) !! svcID x = Some x -> svcReference x = "" -> same_place x new -> svcReference new = "" ->
  same_but_services s1 s2 -> services (storage s2) = <[svcID x := new]> (services (storage s1)) -> same s2 s3 -> service_updated s s3 r.
Proof.
  intros Hs1 Hx Hxr Hpl Hnr (Hok2 & Hst2 & Hns2 & Hp2) Hsv2 Hs3.
  destruct (same_elim _ _ Hs1) as (_ & (Hok1 & Hst1 & Hns1 & Hp1) & _ & _ & Hsv1).
  destruct (same_elim _ _ Hs3) as (_ & (Hok3 & Hst3 & Hns3 & Hp3) & _ & _ & Hsv3).
  assert (replaces (services (storage s)) (services (storage s3)) x new) as Hrep by (split; [done|]; split; [done|congruence]).
  split; [split_and!; congruence|]. split; [right|intros _]; by exists x, new.
Qed.

Lemma UpdateServiceAPI_spec uuid req s : store_ok (storage s) -> aliases_resolve (services (storage s)) ->
  ends (UpdateServiceAPI uuid (Some req)) s (service_updated s).
Proof.
  intros Hok Hres. unfold UpdateServiceAPI. destruct (checkReviseService (Some req)) as [code|] eqn:Hc.
  { apply ends_raise, not_updated; [done|apply (checkReviseService_code _ _ Hc)]. }
  apply ends_bind. eapply ends_weaken; [apply checkServiceAuthority_spec; [done|by apply checkReviseService_plain|done]|].
  intros s1 [x|resp] [Hs1 Hx]; [|by apply not_updated]. destruct Hx as (Hx & Hxr & _).
  destruct (IsAlias x); [by apply ends_raise, not_updated|].
  destruct (updateServiceAttribute uuid req x) as [[[x' need] owner]|] eqn:Hup; [|by apply ends_raise, not_updated].
  destruct (updateServiceAttribute_place _ _ _ _ _ _ Hup) as [Hpl Hr']. rewrite Hxr in Hr'.
  destruct (same_elim _ _ Hs1) as (_ & _ & _ & _ & Hsv1). destruct need; cbn [negb].
  - apply ends_bind. eapply ends_services.
    { apply (UpdateService_spec _ _ x); [by apply same_ok in Hs1|destruct Hpl as (-> & _); by rewrite Hsv1|done]. }
    intros s2 [[]|err] Hs2 Hsv2.
    2: { apply not_updated; [|apply StoreCode2APICode_fails]. destruct Hs2 as (Hok2 & Hst2 & Hns2 & Hp2).
         apply (same_trans _ s1); [done|]. split; [done|]. split; [by apply catalogue_eq|done]. }
    destruct Hsv2 as (new & Hsv2 & Hpl2 & Hr2). destruct Hpl as (Hid & Hpl). rewrite Hid in Hsv2. rewrite Hr' in Hr2.
    apply ends_bind, ends_recorded; [by destruct Hs2|]. intros s3 Hs3. apply ends_bind, ends_hook; [apply svc_hook_ok; by apply same_ok in Hs3|].
    intros s4 Hs4. pose proof (same_trans _ _ _ Hs3 Hs4).
    split; [apply ends_ret|]; (eapply (updated_step s s1 s2 s4 x new); done).
  - apply ends_bind, ends_hook; [apply svc_hook_ok; by apply same_ok in Hs1|]. intros s2 Hs2. pose proof (same_trans _ _ _ Hs1 Hs2).
    split; [apply ends_raise|]; by apply not_updated.
Qed.

Lemma UpdateServiceTokenAPI_spec token revision req s : store_ok (storage s) -> aliases_resolve (services (storage s)) ->
  ends (UpdateServiceTokenAPI token revision (Some req)) s (service_updated s).
Proof.
  intros Hok Hres. unfold UpdateServiceTokenAPI. destruct (checkReviseService (Some req)) as [code|] eqn:Hc.
  { apply ends_raise, not_updated; [done|apply (checkReviseService_code _ _ Hc)]. }
  apply ends_bind. eapply ends_weaken; [apply checkServiceAuthority_spec; [done|by apply checkReviseService_plain|done]|].
  intros s1 [x|resp] [Hs1 Hx]; [|by apply not_updated]. destruct Hx as (Hx & Hxr & _).
  destruct (IsAlias x); [by apply ends_raise, not_updated|]. pose proof (same_services _ _ Hs1) as Hsv1.
  apply ends_bind. eapply ends_services.
  { apply (UpdateServiceToken_spec _ _ _ x); [by apply same_ok in Hs1|by rewrite Hsv1]. }
  intros s2 [[]|err] Hs2 Hsv2.
  2: { apply not_updated; [|apply StoreCode2APICode_fails]. destruct Hs2 as (Hok2 & Hst2 & Hns2 & Hp2).
       apply (same_trans _ s1); [done|]. split; [done|]. split; [by apply catalogue_eq|done]. }
  destruct Hsv2 as (new & Hsv2 & Hnew).
  apply ends_bind, ends_recorded; [by destruct Hs2|]. intros s3 Hs3. apply ends_ret.
  eapply (updated_step s s1 s2 s3 x new); [done..| | |done|done|done].
  - split_and!; [by apply (f_equal svcID) in Hnew|by apply (f_equal svcName) in Hnew|by apply (f_equal svcNamespace) in Hnew].
  - apply (f_equal svcReference) in Hnew. by transitivity (svcReference x).
Qed.

(** *** Aliases *)

(** What a call of the alias handlers does to the services: nothing, or what [changed] says. *)
Definition alias_outcome (changed : Prop) (s s' : Server) (r : result Response Response) : Prop :=
  same_but_services s s' /\ (services (storage s') = services (storage s) \/ changed) /\ (rCode (answer r) = ExecuteSuccess -> changed).

Lemma alias_refused changed s s' resp : same s s' -> rCode resp <> ExecuteSuccess -> alias_outcome changed s s' (Fail resp).
Proof. intros Hs Hr. destruct (same_elim _ _ Hs) as (_ & ? & _ & _ & ?). split; [done|]. by split; [left|]. Qed.

Lemma store_refused changed s s1 s2 resp : same s s1 -> same_but_services s1 s2 -> services (storage s2) = services (storage s1) ->
  rCode resp <> ExecuteSuccess -> alias_outcome changed s s2 (Fail resp).
Proof.
  intros Hs1 (Hok2 & Hst2 & Hns2 & Hp2) Hsv2 Hr. apply alias_refused; [|done].
  apply (same_trans _ s1); [done|]. split; [done|]. split; [by apply catalogue_eq|done].
Qed.

Lemma alias_done (changed : Prop) s s1 s2 s3 resp : same s s1 -> same_but_services s1 s2 -> same s2 s3 ->
  (services (storage s3) = services (storage s2) -> changed) -> alias_outcome changed s s3 (Okay resp).
Proof.
  intros Hs1 (Hok2 & Hst2 & Hns2 & Hp2) Hs3 Hc.
  destruct (same_elim _ _ Hs1) as (_ & (Hok1 & Hst1 & Hns1 & Hp1) & _ & _ & Hsv1).
  destruct (same_elim _ _ Hs3) as (_ & (Hok3 & Hst3 & Hns3 & Hp3) & _ & _ & Hsv3). specialize (Hc Hsv3).
  split; [split_and!; congruence|]. by split; [right|].
Qed.

Definition alias_created (uuid : nat -> string) (req : PbAlias) (s s' : Server) : Prop :=
  exists x data, services (storage s) !! svcID x = Some x /\ svcReference x = "" /\ has_name (GetValue (aService req)) (GetValue (aNamespace req)) x /\
    nobody_named (GetValue (aAlias req)) (GetValue (aAliasNamespace req)) (services (storage s)) /\
    services (storage s') = <[uuid 0%nat := data]> (services (storage s)) /\
    untimed data = untimed (createAliasModel uuid req (GetValue (aAlias req)) (svcID x)).

Lemma not_alias x : IsAlias x = false -> svcReference x = "".
Proof. unfold IsAlias. rewrite bool_decide_eq_false. apply dec_stable. Qed.

(** An alias whose name is not generated is a new service that refers to the one asked for. *)
Lemma CreateServiceAlias_spec uuid req s : store_ok (storage s) -> new_ids uuid s -> aType req = AliasDefault ->
  ends (CreateServiceAlias uuid (Some req)) s (fun s' r => alias_outcome (alias_created uuid req s s') s s' r).
Proof.
  intros Hok [Hne Hnew] Htype. unfold CreateServiceAlias. destruct (checkCreateServiceAliasReq (Some req)) as [code|] eqn:Hc.
  { apply ends_raise, alias_refused; [done|apply (checkCreateServiceAliasReq_code _ _ Hc)]. }
  destruct (checkCreateServiceAliasReq_plain req Hc) as (_ & _ & Hpns & Hpn). specialize (Hpn Htype).
  apply ends_bind. eapply ends_reads; [by apply CreateTransaction_spec|]. intros s1 [[]|err] Hs1 _; [|by apply alias_refused].
  apply ends_bind. unfold checkPointServiceAlias. apply ends_bind. eapply ends_reads; [apply LockService_spec; by apply same_ok in Hs1|].
  intros s2 [o|err] Hs2 Hx; pose proof (same_trans _ _ _ Hs1 Hs2) as Hs02; [|by apply alias_refused].
  destruct o as [x|]; [|by apply ends_raise, alias_refused]. destruct Hx as [Hx Hname]. rewrite (same_services _ _ Hs1) in Hx.
  destruct (IsAlias x) eqn:Hal; [by apply ends_raise, alias_refused|]. apply not_alias in Hal. apply ends_ret.
  rewrite decide_False by (by destruct Hpn). apply ends_bind, ends_bind, ends_find; [by apply same_ok in Hs2|done..| |].
  2: { intros s3 err Hs3. apply alias_refused; [by eapply same_trans|done]. }
  intros s3 o Hs3 Ho. pose proof (same_trans _ _ _ Hs02 Hs3) as Hs03. unfold found in Ho. rewrite (same_services _ _ Hs02) in Ho.
  destruct o as [y|]; [by apply ends_raise, alias_refused|apply ends_ret].
  apply ends_bind. unfold createServiceAliasModel. rewrite Htype. apply ends_ret.
  pose proof (same_services _ _ Hs03) as Hsv3. apply ends_bind. eapply ends_services.
  { apply AddService_spec; [by apply same_ok in Hs3|done..|cbn; by rewrite Hsv3|cbn; by rewrite Hsv3]. }
  intros s4 [data|err] Hs4 Hsv4; [|destruct Hsv4; by eapply store_refused]. destruct Hsv4 as [Hsv4 Hdata].
  rewrite decide_False by (by destruct Hpn). apply ends_bind, ends_recorded; [by destruct Hs4|]. intros s5 Hs5. apply ends_ret.
  eapply (alias_done _ s s3 s4 s5); [done..|]. intros Hsv5. exists x, data. split_and!; [done..| |done].
  rewrite Hsv5, Hsv4, Hsv3. done.
Qed.

(** What is deleted is whatever has the name, alias or not. *)
Lemma DeleteServiceAliasAPI_spec req s : store_ok (storage s) ->
  ends (DeleteServiceAliasAPI (Some req)) s (fun s' r =>
    alias_outcome (exists x, drops (services (storage s)) (services (storage s')) x /\ has_name (GetValue (aAlias req)) (GetValue (aAliasNamespace req)) x)
      s s' r).
Proof.
  intros Hok. unfold DeleteServiceAliasAPI. destruct (checkDeleteServiceAliasReq (Some req)) as [code|] eqn:Hc.
  { apply ends_raise, alias_refused; [done|apply (checkDeleteServiceAliasReq_code _ _ Hc)]. }
  destruct (checkDeleteServiceAliasReq_plain req Hc) as (Hpn & Hpns). apply ends_bind, ends_find; [done..| |].
  2: { intros s1 err Hs1. by apply alias_refused. }
  intros s1 [y|] Hs1 Hy; [|by apply ends_raise, alias_refused]. pose proof (same_services _ _ Hs1) as Hsv1.
  apply ends_bind. eapply ends_services; [apply DeleteServiceAlias_spec; [by apply same_ok in Hs1|done..]|].
  intros s2 [[]|err] Hs2 Hsv2; [|by eapply store_refused]. apply ends_ret, (alias_done _ s s1 s2 s2); [done..|by apply same_refl; destruct Hs2|].
  intros _. rewrite Hsv1 in Hsv2. destruct Hsv2 as [(x & Hx & Hname & Hd)|[Hno _]]; [by exists x|].
  destruct Hy as [Hy Hname]. by destruct (Hno _ _ Hy).
Qed.

Definition alias_updated (s s' : Server) : Prop :=
  exists old new, replaces (services (storage s)) (services (storage s')) old new /\ svcReference old <> "" /\
    real (services (storage s)) (svcReference new).

(** An alias may be pointed at another service, not at an alias. *)
Lemma UpdateServiceAliasAPI_spec uuid req s : store_ok (storage s) -> aliases_resolve (services (storage s)) ->
  (forall x, services (storage s) !! svcID x = Some x -> has_name (GetValue (aAlias req)) (GetValue (aAliasNamespace req)) x -> svcReference x <> "") ->
  ends (UpdateServiceAliasAPI uuid (Some req)) s (fun s' r => alias_outcome (alias_updated s s') s s' r).
Proof.
  intros Hok Hres Halias. unfold UpdateServiceAliasAPI. destruct (checkReviseServiceAliasReq (Some req)) as [code|] eqn:Hc.
  { apply ends_raise, alias_refused; [done|apply (checkReviseServiceAliasReq_code _ _ Hc)]. }
  destruct (checkReviseServiceAliasReq_plain req Hc) as ([Hpn Hpns] & Hps & Hpsn). apply ends_bind, ends_find; [done..| |].
  2: { intros s1 err Hs1. by apply alias_refused. }
  intros s1 [y|] Hs1 Hy; [|by apply ends_raise, alias_refused]. pose proof (same_services _ _ Hs1) as Hsv1.
  destruct Hy as [Hy Hyn]. specialize (Halias y Hy Hyn). destruct (Hres _ _ Hy Halias) as (z & Hz & Hzr).
  apply ends_bind, ends_find; [by apply same_ok in Hs1|done..| |].
  2: { intros s2 err Hs2. apply alias_refused; [by eapply same_trans|done]. }
  intros s2 o Hs2 Hx; pose proof (same_trans _ _ _ Hs1 Hs2) as Hs02.
  destruct o as [x|]; [|by apply ends_raise, alias_refused]. destruct Hx as [Hx Hxn]. rewrite Hsv1 in Hx.
  destruct (IsAlias x) eqn:Hal; [by apply ends_raise, alias_refused|]. apply not_alias in Hal.
  pose proof (same_services _ _ Hs02) as Hsv2. apply ends_bind, ends_stored.
  eapply ends_weaken; [apply (GetServiceByID_spec _ z); [by apply same_ok in Hs02|change ((catalogue (storage s2)).1) with (services (storage s2)); by rewrite Hsv2]|].
  intros w3 r3 (H1 & H2 & H3 & Hr). assert (same s (swap s2 w3)) as Hs3 by (by apply (same_trans _ s2)).
  destruct r3 as [o|err]; [|by apply alias_refused]. subst o. apply ends_bind, (ends_deref _ z); [done|].
  pose proof (services_ids _ _ _ Hok Hz) as Hzid.
  set (u := updateServiceAliasAttribute uuid req y z (svcID x)). assert (same_place y u.1.1 /\ real (services (storage s)) (svcReference u.1.1)) as [Hpl Hreal].
  { split; [done|]. cbn. case_bool_decide; [by exists x|by exists z]. }
  destruct u as [[y' need] owner]. cbn [fst] in Hpl, Hreal. destruct need; cbn [negb]; [|by apply ends_raise, alias_refused].
  pose proof (same_services _ _ Hs3) as Hsv3. apply ends_bind. eapply ends_services.
  { apply (UpdateServiceAlias_spec _ _ y); [by apply same_ok in Hs3|destruct Hpl as (-> & _); by rewrite Hsv3|done]. }
  intros s4 [[]|err] Hs4 Hsv4; [|eapply store_refused; [done..|apply StoreCode2APICode_fails]].
  destruct Hsv4 as (new & Hsv4 & Hpl4 & Hr4). destruct Hpl as (Hid & Hpl). rewrite Hid in Hsv4.
  apply ends_bind, ends_recorded; [by destruct Hs4|]. intros s5 Hs5. apply ends_ret.
  eapply (alias_done _ s _ s4 s5); [done..|]. intros Hsv5. exists y, new. split; [|by rewrite Hr4].
  split; [done|]. split; [done|]. by rewrite Hsv5, Hsv4, Hsv3.
Qed.

End laws.

End server.
