(* ===== verification/InstanceServer.v ===== *)
(** * The instance API of the naming server ([src/service/instance.go])

    Registering, deregistering, updating and isolating instances.  A handler is
    a [call] on the server: early returns are its errors, so that every answer is
    a [Response].  It is proved against the laws of a store, for every store.
    The first instance of a service creates it ([ServiceServer.v]).

    Arguments stand for what the server is configured with: the rate limiter's
    verdicts, the cmdb plugin, the service cache and, for the asynchronous paths,
    the batch controller ([InstanceBatch.v]). *)

From S2P Require Import Prelude Effects GoStrings Utils Registry Services Namespace InstanceStore ServiceStore Api NamespaceServer ServiceServer.
From Stdlib Require Import ZArith Lia.
From stdpp Require Import base tactics list gmap strings pretty.

Open Scope Z_scope.

Definition wrapperInstanceStoreResponse (instance : PbInstance) (err : StatusCode) : Response :=
  NewInstanceResponse (StoreCode2APICode err) (Some instance).
Definition storeException (req : option PbInstance) (_ : StatusCode) : Response := NewInstanceResponse StoreLayerException req.

Definition instanceRecordEntry (service namespace : string) (ins : Instance) (opt : OperationType) : RecordEntry :=
  mkEntry (service +:+ "(" +:+ Host ins +:+ ":" +:+ pretty (Port ins) +:+ ")") namespace opt.

Section server.
  Context {W : Type} `{!InstanceStorage W, !ServiceStorage W}.
  Context (recording allowAutoCreate : bool) (cached : string -> bool).
  Context (afterNamespaceResource : PbNamespace -> NamespaceModel -> bool -> call W unit unit).
  Context (afterServiceResource : PbService -> ServiceModel -> bool -> call W unit unit).
#[local] Abbreviation Server := (@Server W).
#[local] Abbreviation handler := (call Server Response).
#[local] Abbreviation RecordHistory := (RecordHistory recording).
#[local] Abbreviation CreateService := (CreateService recording allowAutoCreate cached afterNamespaceResource afterServiceResource).

(** ** Configuration and plugins *)

  Context (allow : string -> bool).
  Context (cmdb : option (string -> result unit (option Location))).
  Context (ctxToken ownerID : string).
  Context (GetServiceByName : string -> string -> option ServiceModel).

Definition parseInstanceReqToken (req : PbInstance) : string :=
  let reqToken := GetValue (pServiceToken req) in if decide (reqToken = "") then ctxToken else reqToken.

Definition packCmdb (instance : PbInstance) : PbInstance :=
  match cmdb with
  | None => instance
  | Some GetLocation =>
      if isEmptyLocation (pLocation instance) then
        match GetLocation (GetValue (pHost instance)) with
        | Okay (Some location) => set_Location instance (Some location)
        | _ => instance
        end
      else instance
  end.

(** ** The service of a request *)

Definition loadService (namespace svcName : string) : handler (option ServiceModel) :=
  match GetServiceByName svcName namespace with
  | Some svc => if IsAlias svc then raise (NewResponse BadRequest) else mret (Some svc)
  | None =>
      svc ← stored_or (GetService svcName namespace) (fun _ => NewResponse StoreLayerException);
      match svc with
      | Some svc => if IsAlias svc then raise (NewResponse BadRequest) else mret (Some svc)
      | None => mret None
      end
  end.

Definition simpleService (namespace svcName : string) : PbService :=
  mkPbService None (Some svcName) (Some namespace) None None None None None None None None
    (Some (if decide (ownerID = "") then "Polaris" else ownerID)) None None None.

(** Concurrent creations of one service are merged into one call.  [uuid] goes
    to [CreateService]. *)
Definition createServiceIfAbsent (uuid : nat -> string) (namespace svcName : string) : handler string :=
  svc ← loadService namespace svcName;
  match svc with
  | Some svc => mret (svcID svc)
  | None =>
      resp ← attempt (CreateService uuid (Some (simpleService namespace svcName)));
      let resp := answer resp in
      if decide (rCode resp <> ExecuteSuccess /\ rCode resp <> ExistedResource) then raise resp
      else mret (GetValue (rService resp ≫= sId))
  end.

Definition instanceAuth (req : PbInstance) (serviceID : string) : handler ServiceModel :=
  service ← stored_or (GetServiceByID serviceID) (storeException (Some req));
  match service with
  | None => raise (NewInstanceResponse NotFoundResource (Some req))
  | Some service => mret service
  end.

(** ** Registering *)

(** [ins] is [req] with the id and the token filled in. *)
Definition serialCreateInstance (uuid svcId : string) (req ins : PbInstance) : handler Instance :=
  instance ← stored_or (GetInstance (GetValue (pId ins))) (storeException (Some req));
  ins ← match instance, pIsolate ins with
        | Some instance, None => p ← deref (Proto instance); mret (set_Isolate ins (pIsolate p))
        | _, _ => mret ins
        end;
  let '(data, ins') := CreateInstanceModel svcId ins uuid in
  let req := set_HealthCheck req (pHealthCheck ins') in
  stored_or (AddInstance data) (wrapperInstanceStoreResponse req).

(** The registration queue and its answer: [None] when the store has the instance. *)
  Context (CreateInstanceOpen DeleteInstanceOpen : bool).
  Context (allowAsyncRegis : bool).
  Context (AsyncCreateInstance : string -> PbInstance -> bool -> call W Empty_set (option Code)).
  Context (AsyncDeleteInstance : PbInstance -> call W Empty_set (result Code Instance)).

Definition asyncCreateInstance (uuid svcId : string) (req ins : PbInstance) : handler Instance :=
  code ← queued (AsyncCreateInstance svcId ins (negb allowAsyncRegis));
  match code with
  | Some code =>
      let req := if decide (code = ExistedResource) then set_Id req (Some (GetValue (pId ins))) else req in
      raise (NewInstanceResponse code (Some req))
  | None => mret (CreateInstanceModel svcId req uuid).1
  end.

(** [uuid 4] is the revision of the instance. *)
Definition createInstance (uuid : nat -> string) (req ins : PbInstance) : handler Instance :=
  svcId ← createServiceIfAbsent uuid (GetValue (pNamespace req)) (GetValue (pService req));
  if decide (svcId = "") then raise (NewResponse BadRequest)
  else
    let ins := packCmdb ins in
    if CreateInstanceOpen then asyncCreateInstance (uuid 4%nat) svcId req ins else serialCreateInstance (uuid 4%nat) svcId req ins.

Definition CreateInstance (uuid : nat -> string) (req : option PbInstance) : handler Response :=
  match checkCreateInstance req, req with
  | Fail code, _ => raise (NewInstanceResponse code req)
  | Okay _, None => panics NilDereference
  | Okay instanceID, Some req =>
      if negb (allow instanceID) then raise (NewInstanceResponse InstanceTooManyRequests (Some req))
      else
        let ins := set_Id (set_ServiceToken req (Some (parseInstanceReqToken req))) (Some instanceID) in
        data ← createInstance uuid req ins;
        let name := GetValue (pService req) in
        let namespace := GetValue (pNamespace req) in
        _ ← sendDiscoverEvent (mkEvent instanceID namespace name (Proto data) EventInstanceOnline);
        _ ← RecordHistory (instanceRecordEntry name namespace data OCreate);
        let p := proto data in
        mret (NewInstanceResponse ExecuteSuccess
          (Some (set_Id (set_Service (set_Namespace (mkPb None None None (pVpcId p) (pHost p) (pPort p) None None None None None None
             None None None None None None None None None) (Some namespace)) (Some name)) (Some instanceID))))
  end.

(** ** Deregistering *)

Definition offline (id service namespace : string) (instance : Instance) : handler unit :=
  _ ← RecordHistory (instanceRecordEntry service namespace instance ODelete);
  sendDiscoverEvent (mkEvent id namespace service (Proto instance) EventInstanceOffline).

Definition serialDeleteInstance (req ins : PbInstance) : handler Response :=
  instance ← stored_or (GetInstance (GetValue (pId ins))) (storeException (Some req));
  match instance with
  | None => raise (NewInstanceResponse ExecuteSuccess (Some req))
  | Some instance =>
      service ← instanceAuth req (ServiceID instance);
      _ ← stored_or (DeleteInstance (ID instance)) (wrapperInstanceStoreResponse req);
      _ ← offline (ID instance) (svcName service) (svcNamespace service) instance;
      mret (NewInstanceResponse ExecuteSuccess (Some req))
  end.

(** An instance that is not there has been deleted already. *)
Definition asyncDeleteInstance (req ins : PbInstance) : handler Response :=
  r ← queued (AsyncDeleteInstance ins);
  match r with
  | Fail code => raise (NewInstanceResponse (if decide (code = NotFoundResource) then ExecuteSuccess else code) (Some req))
  | Okay instance =>
      _ ← offline (ID instance) (Service instance) (Namespace instance) instance;
      mret (NewInstanceResponse ExecuteSuccess (Some req))
  end.

Definition DeleteInstanceAPI (req : option PbInstance) : handler Response :=
  match checkReviseInstance req, req with
  | Fail code, _ => raise (NewInstanceResponse code req)
  | Okay _, None => panics NilDereference
  | Okay instanceID, Some req =>
      if negb (allow instanceID) then raise (NewInstanceResponse InstanceTooManyRequests (Some req))
      else
        let ins := set_ServiceToken (set_Id req (Some instanceID)) (Some (parseInstanceReqToken req)) in
        if DeleteInstanceOpen then asyncDeleteInstance req ins else serialDeleteInstance req ins
  end.

Definition getInstancesMainByService (req : PbInstance) : handler (option (list Instance) * ServiceModel) :=
  service ← stored_or (GetSourceServiceToken (GetValue (pService req)) (GetValue (pNamespace req))) (storeException (Some req));
  match service with
  | None => raise (NewInstanceResponse NotFoundService (Some req))
  | Some service =>
      instances ← stored_or (GetInstancesMainByService (svcID service) (GetValue (pHost req))) (storeException (Some req));
      mret (instances, service)
  end.

Definition DeleteInstanceByHost (req : option PbInstance) : handler Response :=
  match checkInstanceByHost req, req with
  | Some code, _ => raise (NewInstanceResponse code req)
  | None, None => panics NilDereference
  | None, Some req =>
      '(instances, service) ← getInstancesMainByService req;
      match instances with
      | None => raise (NewInstanceResponse ExecuteSuccess (Some req))
      | Some instances =>
          _ ← stored_or (BatchDeleteInstances (ID <$> instances)) (wrapperInstanceStoreResponse req);
          _ ← each (fun i => offline (ID i) (svcName service) (svcNamespace service) i) instances;
          mret (NewInstanceResponse ExecuteSuccess (Some req))
      end
  end.

(** ** Updating *)

Definition execInstancePreStep (req : option PbInstance) : handler (PbInstance * ServiceModel * Instance) :=
  match checkReviseInstance req, req with
  | Fail code, _ => raise (NewInstanceResponse code req)
  | Okay _, None => panics NilDereference
  | Okay instanceID, Some req =>
      instance ← stored_or (GetInstance instanceID) (storeException (Some req));
      match instance with
      | None => raise (NewInstanceResponse NotFoundInstance (Some req))
      | Some instance =>
          service ← instanceAuth req (ServiceID instance);
          mret (req, service, instance)
      end
  end.

(** [order] is the order in which Go ranges over the set of event types. *)
Definition UpdateInstanceAPI (order : gset string -> list string) (uuid : string) (req : option PbInstance) : handler Response :=
  '(req, service, instance) ← execInstancePreStep req;
  if failed (checkMetadata (pMetadata req)) then raise (NewInstanceResponse InvalidMetadata (Some req))
  else
    let '(req, instance, needUpdate, eventTypes) := updateInstanceAttribute req instance uuid in
    if negb needUpdate then raise (NewInstanceResponse NoNeedUpdate (Some req))
    else
      instance ← stored_or (UpdateInstance instance) (wrapperInstanceStoreResponse req);
      _ ← RecordHistory (instanceRecordEntry (svcName service) (svcNamespace service) instance OUpdate);
      _ ← each (fun eventType =>
            sendDiscoverEvent (mkEvent (ID instance) (svcNamespace service) (svcName service) (Proto instance) eventType)) (order eventTypes);
      mret (NewInstanceResponse ExecuteSuccess (Some req)).

(** ** Isolating *)

Definition withIsolate (isolate : option bool) (instance : Instance) : Instance := set_Proto instance (set_Isolate (proto instance) isolate).

(** The instances are changed before the store is asked, and compared with the
    request once more after it answered. *)
Definition UpdateInstanceIsolate (uuid : string) (req : option PbInstance) : handler Response :=
  match checkInstanceByHost req, req with
  | Some code, _ => raise (NewInstanceResponse code req)
  | None, None => panics NilDereference
  | None, Some req =>
      match pIsolate req with
      | None => raise (NewInstanceResponse InvalidInstanceIsolate (Some req))
      | Some value =>
          '(instances, service) ← getInstancesMainByService req;
          match instances with
          | None => raise (NewInstanceResponse NotFoundInstance (Some req))
          | Some instances =>
              if negb (existsb (fun i => bool_decide (Isolate i <> value)) instances) then
                raise (NewInstanceResponse NoNeedUpdate (Some req))
              else
                let instances := withIsolate (Some value) <$> instances in
                _ ← stored_or (BatchSetInstanceIsolate (ID <$> instances) (if value then 1 else 0) uuid) (wrapperInstanceStoreResponse req);
                _ ← each (fun i =>
                      _ ← RecordHistory (instanceRecordEntry (svcName service) (svcNamespace service) i OUpdateIsolate);
                      if wants (pIsolate req) (Isolate i) then
                        sendDiscoverEvent (mkEvent (ID i) (GetValue (pNamespace req)) (GetValue (pService req)) (Proto i)
                          (if value then EventInstanceOpenIsolate else EventInstanceCloseIsolate))
                      else mret ()) instances;
                mret (NewInstanceResponse ExecuteSuccess (Some req))
          end
      end
  end.

(** ** Batches of requests *)

(** [CreateInstances], [DeleteInstances], [UpdateInstances] and the like. *)
Definition batchHandler (number : Code -> Z) (handle : nat -> option PbInstance -> handler Response)
    (reqs : list (option PbInstance)) (schedule : list nat) : handler BatchWriteResponse :=
  match checkBatchInstance reqs with
  | Some code => mret (NewBatchWriteResponse number code)
  | None => batchOperateInstances number handle reqs schedule
  end.

(** ** What the handlers do to the store *)

Section laws.
  Context `{!InstanceStorageLaws W, !ServiceStorageLaws W}.
  Context (ns_hook_ok : forall req n remove w, store_ok w -> reads (afterNamespaceResource req n remove) w (fun _ => True)).
  Context (svc_hook_ok : forall req s remove w, store_ok w -> reads (afterServiceResource req s remove) w (fun _ => True)).

(** The service cache may lag behind, but it does not make services up. *)
Definition cache_true (w : W) : Prop := forall name namespace x, GetServiceByName name namespace = Some x -> services w !! svcID x = Some x.

Lemma loadService_spec namespace name s : store_ok (storage s) -> cache_true (storage s) -> plain name -> plain namespace ->
  ends (loadService namespace name) s (fun s' r => same s s' /\
    match r with
    | Okay (Some x) => services (storage s) !! svcID x = Some x /\ svcReference x = ""
    | Okay None => nobody_named name namespace (services (storage s))
    | Fail resp => rCode resp <> ExecuteSuccess
    end).
Proof.
  intros Hok Hcache Hn Hns. unfold loadService. destruct (GetServiceByName name namespace) as [x|] eqn:Hx.
  - destruct (IsAlias x) eqn:Hal; [by apply ends_raise|]. apply ends_ret. split; [done|]. split; [by eapply Hcache|by apply not_alias].
  - apply ends_bind, ends_find; [done..| |done]. intros s1 [x|] Hs1 Ho; [|by apply ends_ret].
    destruct Ho as [Hs _]. destruct (IsAlias x) eqn:Hal; [by apply ends_raise|]. apply ends_ret. split; [done|]. split; [done|by apply not_alias].
Qed.

(** The service of a registration is there already, or it is created. *)
Definition service_provided (uuid : nat -> string) (namespace name : string) (s s' : Server) : Prop :=
  services (storage s') = services (storage s) \/
  exists data, services (storage s') = <[uuid 0%nat := data]> (services (storage s)) /\
    untimed data = untimed (createServiceModel uuid (simpleService namespace name)) /\
    nobody_named name namespace (services (storage s)) /\ is_Some (namespaces (storage s') !! namespace).

Lemma createServiceIfAbsent_spec uuid namespace name s :
  store_ok (storage s) -> cache_true (storage s) -> new_ids uuid s -> plain name -> plain namespace ->
  ends (createServiceIfAbsent uuid namespace name) s (fun s' r =>
    changes_catalogue namespace s s' /\ service_provided uuid namespace name s s' /\
    match r with Okay id => id = "" \/ real (services (storage s')) id | Fail r => rCode r <> ExecuteSuccess end).
Proof.
  intros Hok Hcache Hfresh Hn Hns. unfold createServiceIfAbsent. apply ends_bind.
  eapply ends_weaken; [by apply loadService_spec|]. intros s1 [o|resp] [Hs1 Ho]; pose proof (same_services _ _ Hs1) as Hsv1;
    destruct (same_elim _ _ Hs1) as (_ & _ & Hun & Hns1 & _).
  2: { split; [split; [done|by rewrite Hns1]|]. split; [by left|done]. }
  destruct o as [x|].
  { apply ends_ret. split; [split; [done|by rewrite Hns1]|]. split; [by left|]. right. exists x. by rewrite Hsv1. }
  apply ends_bind, ends_attempt. set (req := simpleService namespace name).
  destruct (CreateService_spec recording allowAutoCreate cached _ _ ns_hook_ok svc_hook_ok uuid req s1) as (s2 & r & Hm & [Hun2 Hsub2] & Hc);
    [by apply same_ok in Hs1|by split; [|rewrite Hsv1]; apply Hfresh|].
  exists s2, r. split; [done|]. destruct Hc as (Hsucc & Hexist & Hany). rewrite Hsv1 in *. change (GetValue (sName req)) with name in *.
  change (GetValue (sNamespace req)) with namespace in *.
  assert (changes_catalogue namespace s s2) as Hch.
  { destruct Hun as (_ & H2 & H3), Hun2 as (H4 & H5 & H6). split; [split_and!; congruence|by rewrite <- Hns1]. }
  assert (service_provided uuid namespace name s s2) as Hp by done. case_decide as Hcode.
  { apply ends_raise. split; [done|]. split; [done|tauto]. }
  apply ends_ret. split; [done|]. split; [done|]. destruct (decide (rCode (answer r) = ExecuteSuccess)) as [He|He].
  - destruct (Hsucc He) as [(data & Hsv2 & Hdata & _) Hid]. rewrite Hid. right. exists data. rewrite Hsv2, lookup_insert_eq. split; [done|].
    by apply (f_equal svcReference) in Hdata.
  - destruct (Hexist) as [_ Hid]; [destruct (decide (rCode (answer r) = ExistedResource)); [done|tauto]|].
    destruct Hid as (y & _ & Hy & Hname). by destruct (Ho _ _ Hy).
Qed.

(** What the checks let through has plain names. *)
Lemma checkCreateInstance_plain req id : checkCreateInstance (Some req) = Okay id ->
  plain (GetValue (pService req)) /\ plain (GetValue (pNamespace req)).
Proof.
  unfold checkCreateInstance. destruct (failed _); [done|]. destruct (CheckDbInstanceFieldLen req); [done|].
  unfold CheckInstanceTetrad. cbn [tetrad a_service a_namespace].
  destruct (CheckResourceName (pService req)) eqn:H1; [done|]. destruct (CheckResourceName (pNamespace req)) eqn:H2; [done|].
  intros _. by split; apply checked_plain.
Qed.

(** ** Registering and deregistering, one at a time *)

(** What the store will say of an instance that registers: its own request, with
    the location of the cmdb when it gave none, and the isolation that the
    store knows of when it does not mention any. *)
Definition registered (uuid svcId : string) (req : PbInstance) (instanceID : string) (old : option (PbInstance * string)) : Instance :=
  let ins := packCmdb (set_Id (set_ServiceToken req (Some (parseInstanceReqToken req))) (Some instanceID)) in
  (CreateInstanceModel svcId (take_over old ins) uuid).1.

Lemma packCmdb_fields ins :
  pId (packCmdb ins) = pId ins /\ pHealthCheck (packCmdb ins) = pHealthCheck ins /\ pIsolate (packCmdb ins) = pIsolate ins.
Proof.
  unfold packCmdb. destruct cmdb as [f|]; [|done]. destruct (isEmptyLocation _); [|done].
  by destruct (f _) as [[l|]|].
Qed.

Lemma registered_ok uuid svcId req id old : typed req ->
  ID (registered uuid svcId req id old) = id /\ well_formed (registered uuid svcId req id old).
Proof.
  intros Ht. unfold registered. set (ins := set_Id _ _). destruct (packCmdb_fields ins) as (H1 & H2 & H3).
  assert (typed (packCmdb ins)) by (unfold typed in *; by rewrite H2).
  assert (forall ins', pId ins' = Some id -> typed ins' ->
    ID (CreateInstanceModel svcId ins' uuid).1 = id /\ well_formed (CreateInstanceModel svcId ins' uuid).1) as Hmodel.
  { intros ins' Hid ?. split; [|by apply CreateInstanceModel_well_formed]. unfold ID, proto. cbn. by rewrite Hid. }
  unfold take_over. destruct old as [[p sid]|]; [destruct (pIsolate (packCmdb ins))|]; by apply Hmodel.
Qed.

Lemma serialCreateInstance_stores uuid svcId req id s :
  store_ok (storage s) -> typed req ->
  let ins := packCmdb (set_Id (set_ServiceToken req (Some (parseInstanceReqToken req))) (Some id)) in
  let new := registered uuid svcId req id (stored (storage s) !! id) in
  ends (serialCreateInstance uuid svcId req ins) s (fun s' r =>
    store_ok (storage s') /\ catalogue (storage s') = catalogue (storage s) /\ published s' = published s /\
    match r with
    | Okay data => content data = content new /\ stored (storage s') = <[id := content new]> (stored (storage s))
    | Fail r => rCode r <> ExecuteSuccess /\ same_off {[id]} (stored (storage s)) (stored (storage s')) /\ stored (storage s') ⊆ stored (storage s)
    end).
Proof.
  intros Hok Ht. cbv zeta. set (new := registered _ _ _ _ _). set (ins := packCmdb _).
  destruct (registered_ok uuid svcId req id (stored (storage s) !! id) Ht) as [Hid Hwf]. fold new in Hid, Hwf.
  assert (GetValue (pId ins) = id) as Hins.
  { destruct (packCmdb_fields (set_Id (set_ServiceToken req (Some (parseInstanceReqToken req))) (Some id))) as (H & _).
    unfold ins. by rewrite H. }
  unfold serialCreateInstance. apply ends_bind, ends_stored. rewrite Hins.
  eapply ends_weaken; [by apply GetInstance_spec|]. intros w1 [o|err] (Hok1 & Hct1 & Hst1 & Ho).
  2: { cbn [storage swap]. rewrite Hst1, Hct1. by split_and!. }
  destruct Ho as [Ho Hwfo]. apply ends_bind.
  assert (forall ins', (CreateInstanceModel svcId ins' uuid).1 = new ->
    ends (let '(data, ins'') := CreateInstanceModel svcId ins' uuid in
          let req0 := set_HealthCheck req (pHealthCheck ins'') in
          stored_or (AddInstance data) (wrapperInstanceStoreResponse req0)) (swap s w1) (fun s' r =>
      store_ok (storage s') /\ catalogue (storage s') = catalogue (storage s) /\ published s' = published s /\
      match r with
      | Okay data => content data = content new /\ stored (storage s') = <[id := content new]> (stored (storage s))
      | Fail r => rCode r <> ExecuteSuccess /\ same_off {[id]} (stored (storage s)) (stored (storage s')) /\ stored (storage s') ⊆ stored (storage s)
      end)) as Hadd.
  { intros ins' Hnew. destruct (CreateInstanceModel svcId ins' uuid) as [data ins'']. cbn [fst] in Hnew. subst data. cbv zeta.
    apply ends_stored. eapply ends_weaken; [by apply AddInstance_spec|]. rewrite Hid. cbn [storage swap].
    intros w2 [data|err] (Hok2 & Hct2 & Hst2); cbn [storage swap]; rewrite Hct2, Hct1, <- Hst1.
    - destruct Hst2 as [Hst2 Hc]. by rewrite Hst2.
    - split_and!; [done..|apply StoreCode2APICode_fails| |]; apply Hst2. }
  unfold registered, take_over in new. fold ins in new.
  destruct o as [old|].
  - cbn [fmap option_fmap option_map] in Ho. destruct (Hwfo old eq_refl) as (_ & p & Hp & _).
    destruct (pIsolate ins) as [b|] eqn:Hiso.
    + apply ends_ret, Hadd. unfold new. rewrite <- Ho. cbn [content]. by rewrite ?Hiso.
    + apply ends_bind, (ends_deref _ p); [done|]. apply ends_ret, Hadd. unfold new. rewrite <- Ho. cbn [content].
      rewrite ?Hiso. unfold proto. by rewrite Hp.
  - apply ends_ret, Hadd. unfold new. by rewrite <- Ho.
Qed.

(** What only loses an entry, if anything. *)
Lemma kept_or_gone {A} id (m m' : gmap string A) : same_off {[id]} m m' -> m' ⊆ m -> m' = m \/ m' = delete id m.
Proof.
  intros Hoff Hsub. destruct (m' !! id) as [x|] eqn:Hx; [left|right]; apply map_eq; intros k; destruct (decide (k = id)) as [->|Hk].
  - rewrite Hx. symmetry. by eapply lookup_weaken.
  - apply Hoff. set_solver.
  - by rewrite lookup_delete_eq.
  - rewrite lookup_delete_ne by done. apply Hoff. set_solver.
Qed.

(** What a registration does, to instances, services and namespaces. *)
Definition registration (uuid : nat -> string) (req : PbInstance) (s s' : Server) (resp : Response) : Prop :=
  let name := GetValue (pService req) in
  let namespace := GetValue (pNamespace req) in
  store_ok (storage s') /\
  match checkCreateInstance (Some req) with
  | Fail code => same s s' /\ resp = NewInstanceResponse code (Some req)
  | Okay id =>
      namespaces (storage s) ⊆ namespaces (storage s') /\ service_provided uuid namespace name s s' /\
      plain name /\ plain namespace /\
      (rCode resp <> ExecuteSuccess ->
         (stored (storage s') = stored (storage s) \/ stored (storage s') = delete id (stored (storage s))) /\ published s' = published s) /\
      (rCode resp = ExecuteSuccess -> exists svcId data,
         svcId <> "" /\ real (services (storage s')) svcId /\
         content data = content (registered (uuid 4%nat) svcId req id (stored (storage s) !! id)) /\
         stored (storage s') = <[id := content data]> (stored (storage s)) /\
         published s' = published s ++ [mkEvent id namespace name (Proto data) EventInstanceOnline])
  end.

Lemma CreateInstance_spec uuid req s :
  CreateInstanceOpen = false -> store_ok (storage s) -> cache_true (storage s) -> new_ids uuid s -> typed req ->
  ends (CreateInstance uuid (Some req)) s (fun s' r => registration uuid req s s' (answer r)).
Proof.
  intros Hserial Hok Hcache Hfresh Ht. unfold CreateInstance, registration.
  destruct (checkCreateInstance (Some req)) as [id|code] eqn:Hcheck; [|by apply ends_raise].
  destruct (checkCreateInstance_plain _ _ Hcheck) as [Hn Hns].
  destruct (negb (allow id)); [apply ends_raise; split; [done|]; split_and!; [done|by left|done|done|intros _; split; [by left|done]|done]|].
  apply ends_bind. unfold createInstance. apply ends_bind.
  eapply ends_weaken; [by apply createServiceIfAbsent_spec|].
  intros s1 [svcId|resp] ([(Hok1 & Hst1 & Hp1) [Hsub1 _]] & Hsv1 & Hr).
  2: { split; [done|]. split_and!; [done..|intros _; split; [by left|done]|done]. }
  destruct (decide (svcId = "")) as [->|Hsvc].
  { apply ends_raise. split; [done|]. split_and!; [done..|intros _; split; [by left|done]|done]. }
  destruct Hr as [|Hreal]; [done|]. rewrite Hserial. eapply ends_weaken; [by apply serialCreateInstance_stores|]. rewrite Hst1.
  intros s2 r (Hok2 & Hct2 & Hp2 & Hdata).
  assert (services (storage s2) = services (storage s1) /\ namespaces (storage s2) = namespaces (storage s1)) as [Hsv2 Hns2].
  { unfold services, namespaces. by rewrite Hct2. }
  assert (service_provided uuid (GetValue (pNamespace req)) (GetValue (pService req)) s s2) as Hprov.
  { unfold service_provided. by rewrite Hsv2, Hns2. }
  destruct r as [data|resp].
  2: { split; [done|]. destruct Hdata as (Hcode & Hoff & Hsub). pose proof (kept_or_gone _ _ _ Hoff Hsub).
    split_and!; [by rewrite Hns2|done..|intros _; split_and!; [done..|congruence]|done]. }
  destruct Hdata as [Hc Hst2]. apply ends_bind, ends_event, ends_bind, ends_record. intros h. apply ends_ret.
  split; [done|]. split_and!; [by cbn [storage]; rewrite Hns2|done..|]. intros _. exists svcId, data. split_and!; [done|by cbn [storage]; rewrite Hsv2|done| |].
  - cbn [storage]. by rewrite Hc.
  - cbn [published]. by rewrite Hp2, Hp1.
Qed.

(** C13. A registration that is answered with success makes the store hold, under
    the instance's id and for a service that is there and is no alias, exactly what
    the request says, filled up with the defaults, the cmdb's location and the
    isolation that was already set, changes no other instance, and announces the
    instance once as online.  A request that is refused by its checks changes
    nothing; any other answer announces nothing and stores nothing: the instances
    are as before, or without the one of this id (which is removed before it is
    stored anew).  This is for registrations one by one, not in batches, and a cache
    that tells the truth of the services. *)
Theorem registration_is_stored uuid req s :
  CreateInstanceOpen = false -> store_ok (storage s) -> cache_true (storage s) -> new_ids uuid s -> typed req ->
  ends (CreateInstance uuid (Some req)) s (fun s' r =>
    store_ok (storage s') /\
    match checkCreateInstance (Some req) with
    | Fail code => untouched s s' /\ answer r = NewInstanceResponse code (Some req)
    | Okay id =>
        (rCode (answer r) <> ExecuteSuccess ->
           (stored (storage s') = stored (storage s) \/ stored (storage s') = delete id (stored (storage s))) /\ published s' = published s) /\
        (rCode (answer r) = ExecuteSuccess -> exists svcId data,
           svcId <> "" /\ real (services (storage s')) svcId /\
           content data = content (registered (uuid 4%nat) svcId req id (stored (storage s) !! id)) /\
           stored (storage s') = <[id := content data]> (stored (storage s)) /\
           published s' = published s ++
             [mkEvent id (GetValue (pNamespace req)) (GetValue (pService req)) (Proto data) EventInstanceOnline])
    end).
Proof.
  intros Hserial Hok Hcache Hfresh Ht. eapply ends_weaken; [by apply CreateInstance_spec|]. unfold registration.
  intros s' r [Hok' Hreg]. split; [done|]. destruct (checkCreateInstance (Some req)) as [id|code].
  - destruct Hreg as (_ & _ & _ & _ & Hfail & Hdone). by split.
  - destruct Hreg as [Hs ->]. split; [|done]. by destruct (same_elim _ _ Hs) as (_ & _ & ? & _).
Qed.

Lemma CreateInstance_nil uuid s : ends (CreateInstance uuid None) s (fun s' r => s' = s /\ rCode (answer r) = EmptyRequest).
Proof. by apply ends_raise. Qed.

(** Every instance belongs to a service that is there. *)
Definition services_present (w : W) : Prop := forall k c, stored w !! k = Some c -> is_Some (services w !! c.2).

Lemma instanceAuth_ok req id sv s : store_ok (storage s) -> services (storage s) !! id = Some sv ->
  ends (instanceAuth req id) s (fun s' r => same s s' /\ match r with Okay s' => s' = sv | Fail r => rCode r = StoreLayerException end).
Proof.
  intros Hok Hsv. unfold instanceAuth. apply ends_bind, ends_stored. eapply ends_weaken; [by apply GetServiceByID_spec|].
  intros w' [o|err] (H1 & H3 & H2 & Ho); [subst; by apply ends_ret|done].
Qed.

Lemma DeleteInstanceAPI_spec req s :
  DeleteInstanceOpen = false -> store_ok (storage s) -> services_present (storage s) ->
  ends (DeleteInstanceAPI (Some req)) s (fun s' r =>
    store_ok (storage s') /\ catalogue (storage s') = catalogue (storage s) /\
    match checkReviseInstance (Some req) with
    | Fail code => same s s' /\ answer r = NewInstanceResponse code (Some req)
    | Okay id =>
        (rCode (answer r) <> ExecuteSuccess -> same s s') /\
        (rCode (answer r) = ExecuteSuccess ->
           stored (storage s') = delete id (stored (storage s)) /\
           match stored (storage s) !! id with
           | None => published s' = published s
           | Some _ => exists e, published s' = published s ++ [e] /\ eId e = id /\ EType e = EventInstanceOffline
           end)
    end).
Proof.
  intros Hserial Hok Hsvc. unfold DeleteInstanceAPI. destruct (checkReviseInstance (Some req)) as [id|code]; [|by apply ends_raise].
  destruct (negb (allow id)); [by apply ends_raise|]. rewrite Hserial. unfold serialDeleteInstance. cbn [set_ServiceToken set_Id pId].
  change (GetValue (Some id)) with id. apply ends_bind, ends_stored. eapply ends_weaken; [by apply GetInstance_spec|].
  intros w1 [o|err] (Hok1 & Hsv1 & Hst1 & Ho); [|done]. destruct Ho as [Ho Hwf].
  destruct o as [i|].
  2: { apply ends_raise. split; [done|]. split; [done|]. split; [done|]. intros _. cbn [storage swap published]. rewrite <- Ho, Hst1.
       split; [|done]. symmetry. apply delete_id. by rewrite <- Ho. }
  cbn [fmap option_fmap option_map] in Ho. destruct (Hwf i eq_refl) as [Hid _].
  destruct (Hsvc id (content i)) as [sv Hsv]; [done|]. cbn [content snd] in Hsv.
  apply ends_bind. eapply ends_weaken; [apply (instanceAuth_ok _ _ sv); [done|by unfold services; cbn; rewrite Hsv1]|].
  intros s2 [sv'|resp] [(Hok2 & Hct2 & Hst2 & Hp2) Hr]; cbn [storage published swap] in *.
  2: { split; [done|]. split; [congruence|]. cbn [answer]. rewrite Hr. split; [intros _; split_and!; congruence|done]. }
  subst sv'. apply ends_bind, ends_stored. rewrite Hid. eapply ends_weaken; [by apply DeleteInstance_spec|].
  intros w3 [[]|err] (Hok3 & Hct3 & Hst3).
  - apply ends_bind. unfold offline. apply ends_bind, ends_record. intros h. apply ends_event, ends_ret.
    split; [done|]. split; [cbn; congruence|]. split; [done|]. intros _. cbn [storage published swap]. rewrite Hst3, Hst2, Hst1, <- Ho, Hp2.
    split; [done|]. by eexists.
  - split; [done|]. split; [cbn; congruence|]. cbn [answer rCode wrapperInstanceStoreResponse]. split; [|by intros H%StoreCode2APICode_fails].
    intros _. split_and!; cbn [storage published swap]; congruence.
Qed.

(** Deregistering removes the instance from the store and nothing else, and
    announces it as offline; an instance that is not there counts as removed, so
    that the call can be repeated.  Every other answer leaves the store as it was. *)
Theorem deregistration_removes req s :
  DeleteInstanceOpen = false -> store_ok (storage s) -> services_present (storage s) ->
  ends (DeleteInstanceAPI (Some req)) s (fun s' r =>
    store_ok (storage s') /\
    match checkReviseInstance (Some req) with
    | Fail code => untouched s s' /\ answer r = NewInstanceResponse code (Some req)
    | Okay id =>
        (rCode (answer r) <> ExecuteSuccess -> untouched s s') /\
        (rCode (answer r) = ExecuteSuccess ->
           stored (storage s') = delete id (stored (storage s)) /\
           match stored (storage s) !! id with
           | None => published s' = published s
           | Some _ => exists e, published s' = published s ++ [e] /\ eId e = id /\ EType e = EventInstanceOffline
           end)
    end).
Proof.
  intros Hserial Hok Hsvc. eapply ends_weaken; [by apply DeleteInstanceAPI_spec|]. intros s' r (Hok' & _ & HQ). split; [done|].
  destruct (checkReviseInstance (Some req)) as [id|code]; [|destruct HQ as [Hs ->]; by apply same_elim in Hs as (_ & _ & ? & _)].
  destruct HQ as [Hfail Hdone]. split; [|done]. intros Hr. by apply Hfail, same_elim in Hr as (_ & _ & ? & _).
Qed.

Lemma agrees_unstamped req p : agrees req (unstamped p) <-> agrees req p.
Proof. split; intros []; by constructor. Qed.
Lemma announces_unstamped req p e : announces req (unstamped p) e <-> announces req p e.
Proof. unfold announces. by rewrite agrees_unstamped. Qed.

(** What two rows with the same content have in common. *)
Lemma content_fields a b : content a = content b ->
  ID a = ID b /\ Revision a = Revision b /\ ServiceID a = ServiceID b /\ forall req, agrees req (proto a) <-> agrees req (proto b).
Proof.
  intros H. pose proof (f_equal fst H) as H1. pose proof (f_equal snd H) as H2. cbn [content fst snd] in H1, H2.
  unfold ID, Revision. split_and!; [by rewrite (f_equal pId H1 : pId (proto a) = pId (proto b))| |done|].
  - by rewrite (f_equal pRevision H1 : pRevision (proto a) = pRevision (proto b)).
  - intros req. by rewrite <- (agrees_unstamped req (proto a)), H1, agrees_unstamped.
Qed.

Lemma execInstancePreStep_ok req id s :
  store_ok (storage s) -> services_present (storage s) -> checkReviseInstance (Some req) = Okay id ->
  ends (execInstancePreStep (Some req)) s (fun s' r => same s s' /\
    match r with
    | Okay (req', sv, i) => req' = req /\ ID i = id /\ well_formed i /\ stored (storage s) !! id = Some (content i) /\
        services (storage s) !! ServiceID i = Some sv
    | Fail r => rCode r <> ExecuteSuccess /\ rCode r <> NoNeedUpdate
    end).
Proof.
  intros Hok Hsvc Hcheck. unfold execInstancePreStep. rewrite Hcheck.
  apply ends_bind, ends_stored. eapply ends_weaken; [by apply GetInstance_spec|].
  intros w1 [o|err] (Hok1 & Hsv1 & Hst1 & Ho); [|done]. destruct Ho as [Ho Hwf]. destruct o as [i|]; [|by apply ends_raise].
  cbn [fmap option_fmap option_map] in Ho. destruct (Hwf i eq_refl) as [Hid Hwfi]. symmetry in Ho.
  destruct (Hsvc id (content i)) as [sv Hsv]; [done|]. cbn [content snd] in Hsv.
  apply ends_bind. eapply ends_weaken; [apply (instanceAuth_ok _ _ sv); [done|by unfold services; cbn; rewrite Hsv1]|].
  intros s2 [sv'|resp] [(Hok2 & Hct2 & Hst2 & Hp2) Hr]; cbn [storage published swap] in *.
  - subst sv'. apply ends_ret. split; [unfold same; split_and!; congruence|done].
  - split; [unfold same; split_and!; congruence|]. by rewrite Hr.
Qed.

Lemma UpdateInstanceAPI_spec order uuid req s :
  store_ok (storage s) -> services_present (storage s) -> typed req -> (forall es, order es ≡ₚ elements es) ->
  ends (UpdateInstanceAPI order uuid (Some req)) s (fun s' r =>
    store_ok (storage s') /\ catalogue (storage s') = catalogue (storage s) /\
    match checkReviseInstance (Some req) with
    | Fail code => same s s' /\ answer r = NewInstanceResponse code (Some req)
    | Okay id =>
        (rCode (answer r) <> ExecuteSuccess -> same s s') /\
        (rCode (answer r) = NoNeedUpdate -> exists c, stored (storage s) !! id = Some c /\ agrees req c.1) /\
        (rCode (answer r) = ExecuteSuccess -> exists c i,
           stored (storage s) !! id = Some c /\ ~ agrees req c.1 /\
           stored (storage s') = <[id := content i]> (stored (storage s)) /\
           (~ vouches req c.1 -> agrees req (proto i)) /\ Revision i = uuid /\ ServiceID i = c.2 /\
           exists es, es <> [] /\ NoDup es /\ (forall e, e ∈ es <-> announces req c.1 e) /\ published s' = published s ++
             ((fun e => mkEvent id (default "" (svcNamespace <$> services (storage s) !! c.2))
                          (default "" (svcName <$> services (storage s) !! c.2)) (Proto i) e) <$> es))
    end).
Proof.
  clear cached allow ctxToken GetServiceByName AsyncCreateInstance AsyncDeleteInstance.
  intros Hok Hsvc Ht Horder. unfold UpdateInstanceAPI. apply ends_bind.
  destruct (checkReviseInstance (Some req)) as [id|code] eqn:Hcheck.
  2: { unfold execInstancePreStep. rewrite Hcheck. by apply ends_raise. }
  eapply ends_weaken; [by apply (execInstancePreStep_ok req id)|].
  intros s2 [[[req0 sv] i]|resp] [Hun Hr]; [|split; [apply Hun|split; [apply Hun|tauto]]].
  destruct Hr as (-> & Hid & Hwfi & Ho & Hsv). pose proof Hun as (Hok2 & Hct2 & Hst2 & Hp2).
  destruct (failed (checkMetadata (pMetadata req))); [by apply ends_raise|].
  pose proof (update_settles req i uuid Ht Hwfi) as Hup. pose proof (update_events req i uuid) as Hkinds.
  destruct (updateInstanceAttribute req i uuid) as [[[req' i'] need] events].
  destruct Hup as (Hwf' & Hidentity & Hneed & Hevents & Hrev & Hagree).
  assert (ID i' = id /\ ServiceID i' = ServiceID i) as [Hid' Hsid'].
  { unfold identity in Hidentity. split; [|congruence]. unfold ID. rewrite <- Hid. unfold ID. f_equal. congruence. }
  destruct need; cbn [negb].
  2: { apply ends_raise. split; [done|]. split; [done|]. split; [done|]. split; [|done]. intros _. exists (content i). split; [done|].
       apply agrees_unstamped. by apply Hneed. }
  apply ends_bind, ends_stored. eapply ends_weaken.
  { apply (UpdateInstance_spec i' (content i)); [done|done| |by cbn]. by rewrite Hid', Hst2. }
  intros w3 [i3|err] (Hok3 & Hct3 & Hst3).
  2: { split; [done|]. split; [cbn; congruence|]. cbn [answer rCode wrapperInstanceStoreResponse].
       split; [intros _; unfold same; split_and!; cbn [storage published swap]; congruence|]. by destruct err. }
  destruct Hst3 as [Hst3 Hc3]. apply ends_bind, ends_record. intros h. apply ends_bind.
  destruct (content_fields _ _ Hc3) as (Hid3 & Hrev3 & Hsid3 & Hag3).
  eapply (ends_each _ (fun done s' => storage s' = w3 /\ published s' = published s ++
    ((fun e => mkEvent (ID i3) (svcNamespace sv) (svcName sv) (Proto i3) e) <$> done))).
  - cbn [storage published swap fmap list_fmap]. by rewrite app_nil_r, Hp2.
  - intros dn e rest s' _ [H1 H2]. apply ends_event. cbn [storage published]. split; [done|].
    rewrite H2, fmap_app. by rewrite <- (assoc_L (++)).
  - intros s' [H1 H2]. apply ends_ret. rewrite H1. split; [done|]. split; [congruence|]. split; [done|]. split; [done|]. intros _.
    exists (content i), i3. cbn [content fst snd]. split_and!; [done| |..].
    + intros Hag. assert (true = false); [|done]. apply Hneed. exact (proj1 (agrees_unstamped _ _) Hag).
    + by rewrite Hst3, Hid', Hst2, Hc3.
    + intros Hv. apply Hag3, Hagree. intros Hv'. by apply Hv.
    + rewrite Hrev3. by apply Hrev.
    + congruence.
    + exists (order events). rewrite Hsv, H2, Hid3, Hid'. split_and!; [|rewrite Horder; apply NoDup_elements| |done].
      2: { intros e. rewrite Horder, elem_of_elements, announces_unstamped. apply Hkinds. }
      intros Hn. pose proof (Horder events) as Hperm. rewrite Hn in Hperm. symmetry in Hperm.
      apply Permutation_nil_r, elements_empty_inv, leibniz_equiv in Hperm. by apply Hevents in Hperm.
Qed.

(** C22. Updating: the answer is "no need to update" only if the instance already
    has everything the request asks for, and success only if it has not.  On success
    the store holds, for this instance only, what the request asks for (unless it
    vouches for an instance whose health check it turns on), under a new revision
    and for the same service; and there is one event for each kind of change, and
    no other: the flag of health turned on or off, the isolation begun or ended, and
    the update of anything else.  Any other answer leaves the store as it was and
    announces nothing.  It is for instances whose services are there. *)
Theorem update_is_stored order uuid req s :
  store_ok (storage s) -> services_present (storage s) -> typed req -> (forall es, order es ≡ₚ elements es) ->
  ends (UpdateInstanceAPI order uuid (Some req)) s (fun s' r =>
    store_ok (storage s') /\
    match checkReviseInstance (Some req) with
    | Fail code => untouched s s' /\ answer r = NewInstanceResponse code (Some req)
    | Okay id =>
        (rCode (answer r) <> ExecuteSuccess -> untouched s s') /\
        (rCode (answer r) = NoNeedUpdate -> exists c, stored (storage s) !! id = Some c /\ agrees req c.1) /\
        (rCode (answer r) = ExecuteSuccess -> exists c i,
           stored (storage s) !! id = Some c /\ ~ agrees req c.1 /\
           stored (storage s') = <[id := content i]> (stored (storage s)) /\
           (~ vouches req c.1 -> agrees req (proto i)) /\ Revision i = uuid /\ ServiceID i = c.2 /\
           exists es, es <> [] /\ NoDup es /\ (forall e, e ∈ es <-> announces req c.1 e) /\ published s' = published s ++
             ((fun e => mkEvent id (default "" (svcNamespace <$> services (storage s) !! c.2))
                          (default "" (svcName <$> services (storage s) !! c.2)) (Proto i) e) <$> es))
    end).
Proof.
  intros Hok Hsvc Ht Horder. eapply ends_weaken; [by apply UpdateInstanceAPI_spec|]. intros s' r (Hok' & _ & HQ). split; [done|].
  destruct (checkReviseInstance (Some req)) as [id|code]; [|destruct HQ as [Hs ->]; by apply same_elim in Hs as (_ & _ & ? & _)].
  destruct HQ as (Hfail & Hrest). split; [|done]. intros Hr. by apply Hfail, same_elim in Hr as (_ & _ & ? & _).
Qed.

(** ** Isolating *)

(** Handlers that publish nothing, whatever happens. *)
Definition silent {A} (m : call Server Response A) : Prop := forall s s' r, m s = Ret (s', r) -> published s' = published s.

Lemma silent_ret {A} (a : A) : silent (mret a).
Proof. by intros s s' r [= <- _]. Qed.
Lemma silent_raise {A} e : silent (raise e : call Server Response A).
Proof. by intros s s' r [= <- _]. Qed.
Lemma silent_panics {A} why : silent (panics why : call Server Response A).
Proof. done. Qed.
Lemma silent_bind {A B} (m : call Server Response A) (k : A -> call Server Response B) :
  silent m -> (forall a, silent (k a)) -> silent (m ≫= k).
Proof.
  intros Hm Hk s s' r. unfold mbind, call_bind. destruct (m s) as [[s1 [a|e]]|] eqn:Hs; [| |done].
  - intros H. rewrite (Hk a _ _ _ H). by eapply Hm.
  - intros [= <- _]. by eapply Hm.
Qed.
Lemma silent_stored_or {A} (m : call W StatusCode A) f : silent (stored_or m f).
Proof.
  intros s s' r. unfold stored_or, orelse, on_storage. destruct (m (storage s)) as [[w [a|e]]|]; [| |done]; by intros [= <- _].
Qed.
Lemma silent_record e : silent (RecordHistory e).
Proof. unfold RecordHistory. destruct recording; [|apply silent_ret]. by intros s s' r [= <- _]. Qed.
Lemma silent_each {A} (f : A -> call Server Response unit) l : Forall (fun a => silent (f a)) l -> silent (each f l).
Proof. induction 1; cbn [each]; [apply silent_ret|]. by apply silent_bind. Qed.

#[local] Hint Resolve silent_ret silent_raise silent_panics silent_bind silent_stored_or silent_record : silent.

Lemma silent_getInstancesMainByService req : silent (getInstancesMainByService req).
Proof. unfold getInstancesMainByService. apply silent_bind; [auto with silent|]. intros [sv|]; auto with silent. Qed.

(** The comparison after the store's answer is made on instances that were
    changed before it: no event of isolation is ever published. *)
Theorem isolation_is_never_announced uuid req s s' r :
  UpdateInstanceIsolate uuid req s = Ret (s', r) -> published s' = published s.
Proof.
  revert s s' r. change (silent (UpdateInstanceIsolate uuid req)). unfold UpdateInstanceIsolate.
  destruct (checkInstanceByHost req) as [code|]; [auto with silent|]. destruct req as [req|]; [|auto with silent].
  destruct (pIsolate req) as [value|] eqn:Hiso; [|auto with silent].
  apply silent_bind; [apply silent_getInstancesMainByService|]. intros [[instances|] service]; [|auto with silent].
  destruct (negb _); [auto with silent|]. apply silent_bind; [auto with silent|]. intros _.
  apply silent_bind; [|auto with silent]. apply silent_each, Forall_fmap, Forall_forall. intros i _. cbn [compose].
  apply silent_bind; [auto with silent|]. intros _. rewrite ?Hiso. unfold wants, Isolate, withIsolate, proto. cbn.
  rewrite bool_decide_false by tauto. auto with silent.
Qed.

End laws.

(** ** The answer to a batch *)

Section batch_laws.
  Context (number : Code -> Z).
  Context (number_ok : forall c, number c / 1000 = 200 \/ 400 <= number c / 1000).

(** A batch of well-sized requests is answered with one response for each
    request, in the order of the requests, whatever the order in which their
    goroutines ran; its code is the responses' common code, or else tells of the
    worst of them: a server error, then a client error, then success. *)
Theorem batch_answers_each_request (I : Server -> Prop) handle reqs schedule s :
  (forall i s, I s -> ends (handle i (reqs !! i ≫= id)) s (fun s' _ => I s')) -> I s -> schedule ≡ₚ seq 0 (length reqs) ->
  ends (batchHandler number handle reqs schedule) s (fun s' r => exists b, r = Okay b /\
    match checkBatchInstance reqs with
    | Some code => s' = s /\ bCode b = number code /\ bResponses b = []
    | None => length (bResponses b) = length reqs /\ bCode b = batch_code number (bResponses b) /\
        bSize b = Z.of_nat (length reqs) /\
        exists chs, run_each handle reqs schedule s = Ret (s', Okay chs) /\
          forall i, (i < length reqs)%nat -> bResponses b !! i = chs !! i
    end).
Proof.
  intros Hh HI Hperm. unfold batchHandler. destruct (checkBatchInstance reqs) as [code|] eqn:Hcheck; [apply ends_ret; by eexists|].
  assert (forall sch s, I s -> ends (run_each handle reqs sch) s (fun s' r => exists chs, r = Okay chs /\ forall i, i ∈ sch -> is_Some (chs !! i))) as Hrun.
  { intros sch. induction sch as [|i sch IH]; intros s0 HI0; cbn [run_each].
    - apply ends_ret. eexists. split; [done|]. by intros i ?%not_elem_of_nil.
    - apply ends_bind, ends_attempt. destruct (Hh i s0 HI0) as (s1 & r & Hr & HI1). exists s1, r. split; [done|].
      apply ends_bind. eapply ends_weaken; [by apply IH|]. intros s2 ? (chs & -> & Hchs). apply ends_ret. eexists. split; [done|].
      intros j [->|Hj]%elem_of_cons; [by rewrite lookup_insert_eq; eexists|].
      destruct (decide (i = j)) as [->|]; [by rewrite lookup_insert_eq; eexists|]. rewrite lookup_insert_ne by done. by apply Hchs. }
  unfold batchOperateInstances. destruct (Hrun schedule s HI) as (s1 & ? & Hr & chs & -> & Hchs).
  exists s1. eexists. unfold mbind, call_bind. rewrite Hr. split; [done|]. eexists. split; [done|].
  set (rs := omap _ _). destruct (batch_response_code number number_ok rs) as (H1 & H2 & H3). rewrite H1, H2, H3.
  assert (forall n, (n <= length reqs)%nat -> forall k, (k < n)%nat ->
     length (omap (fun i => chs !! i) (seq 0 n)) = n /\ omap (fun i => chs !! i) (seq 0 n) !! k = chs !! k) as Hrs.
  { intros n. induction n as [|n IH]; intros Hn k Hk; [lia|]. rewrite seq_S, omap_app. cbn [omap list_omap plus].
    destruct (Hchs n) as [r Hrn]; [rewrite Hperm; apply elem_of_seq; lia|]. rewrite Hrn.
    assert (length (omap (fun i => chs !! i) (seq 0 n)) = n) as Hlen.
    { destruct n; [done|]. by apply (IH ltac:(lia) 0%nat ltac:(lia)). }
    rewrite length_app, Hlen. split; [cbn; lia|].
    destruct (decide (k = n)) as [->|Hkn]; [rewrite lookup_app_r by lia; by rewrite Hlen, Nat.sub_diag, Hrn|].
    rewrite lookup_app_l by lia. apply IH; lia. }
  assert (length rs = length reqs) as Hlen.
  { unfold rs. destruct (decide (length reqs = 0%nat)) as [->|Hn]; [done|]. apply (Hrs (length reqs) (le_n _) 0%nat). lia. }
  rewrite Hlen. split_and!; [done..| |].
  - apply wrap_u_small. unfold checkBatchInstance, MaxBatchSize in Hcheck. 
    destruct (decide (reqs = [])); [done|]. destruct (decide (100 < Z.of_nat (length reqs))); [done|]. lia.
  - exists chs. split; [done|]. intros i Hi. by apply (Hrs _ (le_n _)).
Qed.

End batch_laws.

End server.
