(* ===== verification/InstanceBatch.v ===== *)
(** * Batches of registrations ([src/service/batch/instance.go], [future.go], [utils.go])

    Requests wait in a queue as futures; a store goroutine takes a batch of them,
    asks the store once for all and answers each.  (The queue and the workers
    are those of [BatchJob.v], built by hand.)  Futures are shared by pointer:
    a batch is a list, and the handlers' maps hold positions in it.  The order in
    which Go ranges over a map is an argument. *)

From S2P Require Import Prelude Effects GoStrings Utils Registry Services InstanceStore.
From Stdlib Require Import ZArith Lia.
From stdpp Require Import base tactics list gmap strings pretty.

Open Scope Z_scope.

(** ** Futures *)

(** [result] is the channel of capacity one: what was sent, an error ([false])
    or nil.  [code] is [None] before the first reply. *)
Record InstanceFuture := mkFuture {
  begin : Z;
  serviceId : string;
  request : PbInstance;
  finstance : option Instance;
  fcode : option Code;
  needWait : bool;
  sent : option bool;
  fhealthy : bool;
  lastHeartbeatTimeSec : Z }.

Definition set_request (f : InstanceFuture) r :=
  mkFuture (begin f) (serviceId f) r (finstance f) (fcode f) (needWait f) (sent f) (fhealthy f) (lastHeartbeatTimeSec f).
Definition SetInstance (f : InstanceFuture) i :=
  mkFuture (begin f) (serviceId f) (request f) (Some i) (fcode f) (needWait f) (sent f) (fhealthy f) (lastHeartbeatTimeSec f).

Definition fid (f : InstanceFuture) : string := GetValue (pId (request f)).
Definition CanDrop (f : InstanceFuture) : bool := negb (needWait f).

(** A reply that nobody waits for is dropped; a second reply finds the channel
    full, but still replaces the code. *)
Definition Reply (code : Code) (ok : bool) (f : InstanceFuture) : InstanceFuture :=
  if needWait f then
    mkFuture (begin f) (serviceId f) (request f) (finstance f) (Some code) true
      (match sent f with None => Some ok | s => s end) (fhealthy f) (lastHeartbeatTimeSec f)
  else f.

(** [Wait] and [Code]: [None] blocks, otherwise the code of an error or nil. *)
Definition Wait (f : InstanceFuture) : option (option Code) :=
  if needWait f then
    match sent f with
    | None => None
    | Some true => Some None
    | Some false => Some (Some (default ExecuteSuccess (fcode f)))
    end
  else Some None.

(** ** Configuration *)

Record CtrlConfig := mkCtrlConfig {
  Open_ : bool;
  QueueSize : Z;
  WaitTime : string;
  MaxBatchCount : Z;
  Concurrency : Z;
  TaskLife : string }.

Definition defaultWaitTime : Z := 32 * 10 ^ 6.
Definition defaultTaskLife : Z := 30 * 10 ^ 9.

Section config.
  (** [time.ParseDuration], in nanoseconds. *)
  Context (ParseDuration : string -> option Z).

Record ctrlTimes := mkTimes { waitDuration : Z; taskLife : Z }.

(** [None] for an error; [Some None] when the controller is not opened. *)
Definition newBatchInstanceCtrl (config : option CtrlConfig) : option (option ctrlTimes) :=
  match config with
  | None => Some None
  | Some config =>
      if negb (Open_ config) then Some None
      else match ParseDuration (WaitTime config) with
           | None => None
           | Some duration =>
               let duration := if decide (duration = 0) then defaultWaitTime else duration in
               if decide (TaskLife config = "") then Some (Some (mkTimes duration 0))
               else match ParseDuration (TaskLife config) with
                    | None => None
                    | Some _ => Some (Some (mkTimes duration defaultTaskLife))
                    end
           end
  end.

(** [checkCtrlConfig]. *)
Definition checkCtrlConfig (ctrl : option CtrlConfig) : bool :=
  match ctrl with
  | None => true
  | Some ctrl => negb (bool_decide (QueueSize ctrl <= 0) || bool_decide (MaxBatchCount ctrl <= 0) || bool_decide (Concurrency ctrl <= 0))
  end.

(** The configured life of a task is parsed into a variable of an inner scope:
    whatever it says, tasks live for the default time. *)
Theorem taskLife_is_not_configurable config t :
  TaskLife config <> "" -> newBatchInstanceCtrl (Some config) = Some (Some t) -> taskLife t = defaultTaskLife.
Proof.
  intros Ht. unfold newBatchInstanceCtrl. destruct (negb _); [done|]. destruct (ParseDuration (WaitTime config)); [|done].
  rewrite decide_False by done. destruct (ParseDuration (TaskLife config)); [|done]. by intros [= <-].
Qed.
End config.

(** ** The handlers *)

Section batch.
  Context {W : Type} `{!InstanceStorage W}.
  Context (range : forall {A : Type}, gmap string A -> list (string * A)).
  #[local] Arguments range {A}.

(** The store, and the futures of the batch. *)
Record Batch := mkBatchState { bstorage : W; futures : list InstanceFuture }.
Abbreviation bcall := (call Batch StatusCode).

Definition on_batch {E A} (m : call W E A) : call Batch E A := fun b =>
  match m (bstorage b) with
  | Ret (w, r) => Ret (mkBatchState w (futures b), r)
  | Panics why => Panics why
  end.

Definition update_future (i : nat) (f : InstanceFuture -> InstanceFuture) (l : list InstanceFuture) : list InstanceFuture := alter f i l.
Definition on_future (i : nat) (f : InstanceFuture -> InstanceFuture) : bcall unit :=
  modify (fun b => mkBatchState (bstorage b) (update_future i f (futures b))).
Definition future (i : nat) : bcall InstanceFuture := b ← get; deref (futures b !! i).

(** [sendReply] for a map, and for a slice. *)
Definition sendReply (remains : gmap string nat) (code : Code) (ok : bool) : bcall unit :=
  each (fun kv => on_future kv.2 (Reply code ok)) (range remains).
Definition sendReplyAll (code : Code) (ok : bool) : bcall unit :=
  modify (fun b => mkBatchState (bstorage b) (Reply code ok <$> futures b)).

(** [if err != nil { sendReply(remains, code(err), err); return err }]. *)
Definition or_reply {A} (m : call W StatusCode A) (reply : StatusCode -> bcall unit) : bcall A :=
  r ← attempt (on_batch m);
  match r with Okay a => mret a | Fail err => _ ← reply err; raise err end.

(** The first loop of [registerHandler]: doubles are refused, and so are futures
    that nobody waits for and that are too old. *)
Fixpoint collect (cur life : Z) (i : nat) (l : list InstanceFuture) (remains : gmap string nat) : bcall (gmap string nat) :=
  match l with
  | [] => mret remains
  | f :: l =>
      if decide (is_Some (remains !! fid f)) then
        _ ← on_future i (Reply SameInstanceRequest false); collect cur life (S i) l remains
      else if decide (life <> 0 /\ CanDrop f = true /\ begin f + life < cur) then
        _ ← on_future i (Reply InstanceRegisTimeout false); collect cur life (S i) l remains
      else collect cur life (S i) l (<[fid f := i]> remains)
  end.

(** An isolation that the request does not mention is taken over from the store. *)
Definition restoreIsolate (id2Isolate : gmap string bool) (f : InstanceFuture) : InstanceFuture :=
  match id2Isolate !! fid f, pIsolate (request f) with
  | Some isolate, None => set_request f (set_Isolate (request f) (Some isolate))
  | _, _ => f
  end.

Definition batchRestoreInstanceIsolate (remains : gmap string nat) : bcall unit :=
  if decide (remains = ∅) then mret ()
  else
    id2Isolate ← or_reply (BatchGetInstanceIsolate (dom remains)) (fun _ => sendReply remains StoreLayerException false);
    each (fun kv => on_future kv.2 (restoreIsolate id2Isolate)) (range remains).

Definition makeModel (uuid : string) (f : InstanceFuture) : InstanceFuture :=
  let '(ins, req) := CreateInstanceModel (serviceId f) (request f) uuid in SetInstance (set_request f req) ins.

Fixpoint take_instances (l : list (string * nat)) : bcall (list Instance) :=
  match l with
  | [] => mret []
  | kv :: l =>
      f ← future kv.2;
      i ← deref (finstance f);
      rest ← take_instances l;
      mret (i :: rest)
  end.

(** An error of [batchRestoreInstanceIsolate] is logged, and the batch goes on. *)
Definition registerHandler (cur life : Z) (uuid : nat -> string) : bcall unit :=
  b ← get;
  if decide (futures b = []) then mret ()
  else
    remains ← collect cur life 0 (futures b) ∅;
    _ ← attempt (batchRestoreInstanceIsolate remains);
    if decide (remains = ∅) then mret ()
    else
      _ ← each (fun kv => on_future kv.2 (makeModel (uuid kv.2))) (range remains);
      instances ← take_instances (range remains);
      _ ← or_reply (BatchAddInstances instances) (fun err => sendReply remains (StoreCode2APICode err) false);
      sendReply remains ExecuteSuccess true.

(** [deregisterHandler]: doubles are refused, but looked up again with the rest. *)
Fixpoint verify (instances : gmap string Instance) (i : nat) (l : list InstanceFuture) (remains : gmap string nat) : bcall (gmap string nat) :=
  match l with
  | [] => mret remains
  | f :: l =>
      match instances !! fid f with
      | None => _ ← on_future i (Reply NotFoundResource false); verify instances (S i) l (delete (fid f) remains)
      | Some instance => _ ← on_future i (fun f => SetInstance f instance); verify instances (S i) l remains
      end
  end.

Definition deregisterHandler : bcall unit :=
  b ← get;
  if decide (futures b = []) then mret ()
  else
    remains ← collect 0 0 0 (futures b) ∅;
    instances ← or_reply (GetInstancesBrief (dom remains)) (fun _ => sendReply remains StoreLayerException false);
    remains ← verify instances 0 (futures b) remains;
    if decide (remains = ∅) then mret ()
    else
      _ ← or_reply (BatchDeleteInstances (range remains).*1) (fun _ => sendReply remains StoreLayerException false);
      sendReply remains ExecuteSuccess true.

(** ** Heartbeats *)

Definition MetadataInstanceLastHeartbeatTime : string := "internal-lastheartbeat".

(** [statusToIds]: for each status the ids with the time of their last beat; a
    later record of an id replaces an earlier one. *)
Record beats := mkBeats { beat_true : gmap string Z; beat_false : gmap string Z }.
Definition beats_of (b : beats) (healthy : bool) : gmap string Z := if healthy then beat_true b else beat_false b.
Definition add_beat (b : beats) (f : InstanceFuture) : beats :=
  if fhealthy f then mkBeats (<[fid f := lastHeartbeatTimeSec f]> (beat_true b)) (delete (fid f) (beat_false b))
  else mkBeats (delete (fid f) (beat_true b)) (<[fid f := lastHeartbeatTimeSec f]> (beat_false b)).

Definition removeReq (revision : string) (kv : string * Z) : InstanceMetadataRequest :=
  mkMetaReq kv.1 revision [MetadataInstanceLastHeartbeatTime] ∅.
Definition appendReq (revision : string) (kv : string * Z) : InstanceMetadataRequest :=
  mkMetaReq kv.1 revision [] {[MetadataInstanceLastHeartbeatTime := pretty kv.2]}.

(** One turn of the loop over the two statuses; the requests of the turns
    accumulate. *)
Definition heartbeat_turn (b : beats) (revision uuid : string) (healthy : bool)
    (reqs : list InstanceMetadataRequest * list InstanceMetadataRequest)
    : bcall (list InstanceMetadataRequest * list InstanceMetadataRequest) :=
  let values := range (beats_of b healthy) in
  if decide (values = []) then mret reqs
  else
    let '(appendMetaReqs, removeMetaReqs) := reqs in
    let appendMetaReqs := if healthy then appendMetaReqs else appendMetaReqs ++ (appendReq revision <$> values) in
    let removeMetaReqs := if healthy then removeMetaReqs ++ (removeReq revision <$> values) else removeMetaReqs in
    let failing (_ : StatusCode) := sendReplyAll StoreLayerException false in
    _ ← or_reply (BatchSetInstanceHealthStatus values.*1 (if healthy then 1 else 0) uuid) failing;
    _ ← or_reply (BatchAppendInstanceMetadata appendMetaReqs) failing;
    _ ← or_reply (BatchRemoveInstanceMetadata removeMetaReqs) failing;
    mret (appendMetaReqs, removeMetaReqs).

(** [first]: which status Go's range comes to first; [uuid]: the revision that
    the instances of a status get. *)
Definition heartbeatHandler (first : bool) (revision : string) (uuid : bool -> string) : bcall unit :=
  b ← get;
  if decide (futures b = []) then mret ()
  else
    let bts := foldl add_beat (mkBeats ∅ ∅) (futures b) in
    reqs ← heartbeat_turn bts revision (uuid first) first ([], []);
    _ ← heartbeat_turn bts revision (uuid (negb first)) (negb first) reqs;
    sendReplyAll ExecuteSuccess true.

(** ** What a batch does to its futures *)

Section laws.
  Context `{!InstanceStorageLaws W}.
  Context (range_ok : forall A (m : gmap string A), range m ≡ₚ map_to_list m).

(** The futures at some positions change. *)
Definition changed (S : list nat) (g : nat -> InstanceFuture -> InstanceFuture) (l : list InstanceFuture) : list InstanceFuture :=
  imap (fun i f => if decide (i ∈ S) then g i f else f) l.

Lemma changed_lookup S g l i : changed S g l !! i = (fun f => if decide (i ∈ S) then g i f else f) <$> l !! i.
Proof. apply list_lookup_imap. Qed.

Lemma ends_future i b f (Q : Batch -> result StatusCode InstanceFuture -> Prop) :
  futures b !! i = Some f -> Q b (Okay f) -> ends (future i) b Q.
Proof. intros Hf HQ. unfold future. apply ends_bind, ends_get. by apply (ends_deref _ f). Qed.

Lemma ends_each_future (g : nat -> InstanceFuture -> InstanceFuture) (l : list (string * nat)) b (Q : Batch -> result StatusCode unit -> Prop) :
  NoDup l.*2 -> Q (mkBatchState (bstorage b) (changed l.*2 g (futures b))) (Okay ()) ->
  ends (each (fun kv => on_future kv.2 (g kv.2)) l) b Q.
Proof.
  intros Hnd HQ.
  apply (ends_each _ (fun dn b' => bstorage b' = bstorage b /\ futures b' = changed dn.*2 g (futures b))).
  - split; [done|]. apply list_eq. intros i. rewrite changed_lookup. destruct (futures b !! i); [|done]. cbn [fmap option_fmap option_map].
    by rewrite decide_False by apply not_elem_of_nil.
  - intros dn [k i] rest b' -> [H1 H2]. apply ends_modify. cbn [bstorage futures snd]. split; [done|]. rewrite H2.
    rewrite !fmap_app in Hnd. cbn in Hnd. apply NoDup_app in Hnd as (_ & Hx & _).
    apply list_eq. intros j. unfold update_future. rewrite fmap_app, !changed_lookup.
    destruct (decide (j = i)) as [->|Hji].
    + rewrite list_lookup_alter_eq, changed_lookup. destruct (futures b !! i); [|done]. cbn [fmap option_fmap option_map].
      rewrite decide_False by (intros Hi; apply (Hx i Hi); by left). rewrite decide_True by set_solver. done.
    + rewrite list_lookup_alter_ne, changed_lookup by done. destruct (futures b !! j); [|done]. cbn [fmap option_fmap option_map].
      f_equal. by apply decide_ext; set_solver.
  - intros b' [H1 H2]. destruct b' as [st fs]. cbn in *. by subst.
Qed.

Lemma ends_on_batch {A} (m : call W StatusCode A) reply b (Q : Batch -> result StatusCode A -> Prop) :
  ends m (bstorage b) (fun w' r => let b' := mkBatchState w' (futures b) in
    match r with Okay a => Q b' (Okay a) | Fail err => ends (reply err) b' (fun b'' _ => Q b'' (Fail err)) end) ->
  (forall err b', exists b'', reply err b' = Ret (b'', Okay ())) ->
  ends (or_reply m reply) b Q.
Proof.
  intros (w' & r & Hm & HQ) Hreply. unfold or_reply. apply ends_bind, ends_attempt.
  exists (mkBatchState w' (futures b)), r. split; [unfold on_batch; by rewrite Hm|]. cbv zeta in HQ.
  destruct r as [a|err]; [by apply ends_ret|]. apply ends_bind. destruct HQ as (b2 & r2 & H2 & HQ2).
  destruct (Hreply err (mkBatchState w' (futures b))) as [b3 H3]. rewrite H3 in H2. injection H2 as <- <-.
  exists b3, (Okay ()). split; [done|]. by apply ends_raise.
Qed.

Lemma each_future_returns (g : nat -> InstanceFuture -> InstanceFuture) (l : list (string * nat)) b :
  exists b', each (fun kv => on_future kv.2 (g kv.2)) l b = Ret (b', Okay ()).
Proof.
  revert b. induction l as [|kv l IH]; intros b; cbn [each]; [by eexists|].
  destruct (IH (mkBatchState (bstorage b) (update_future kv.2 (g kv.2) (futures b)))) as [b' Hb']. exists b'.
  unfold mbind, call_bind, on_future, modify at 1. exact Hb'.
Qed.

(** The map of the futures that remain: each entry is a future of that id. *)
Definition entries_ok (fs : list InstanceFuture) (remains : gmap string nat) : Prop :=
  forall id i, remains !! id = Some i -> exists f, fs !! i = Some f /\ fid f = id.

Lemma entries_positions fs remains : entries_ok fs remains ->
  NoDup (range remains).*2 /\ forall i f, fs !! i = Some f -> (i ∈ (range remains).*2 <-> remains !! fid f = Some i).
Proof.
  intros He. split.
  - rewrite range_ok. assert (forall l : list (string * nat), NoDup l.*1 -> (forall kv, kv ∈ l -> remains !! kv.1 = Some kv.2) -> NoDup l.*2) as Hgen.
    { induction l as [|[k i] l IH]; cbn; intros Hnd Hl; [constructor|]. apply NoDup_cons in Hnd as [Hk Hnd]. apply NoDup_cons. split.
      - intros ([k' i'] & Hi' & Hin)%list_elem_of_fmap. cbn in Hi'. subst i'. apply Hk, list_elem_of_fmap. exists (k', i). split; [|done].
        cbn. destruct (He k i) as (f & Hf & <-); [apply (Hl (k, i)); by left|].
        destruct (He k' i) as (f' & Hf' & <-); [apply (Hl (k', i)); by right|]. congruence.
      - apply IH; [done|]. intros kv Hkv. apply Hl. by right. }
    apply Hgen; [apply NoDup_fst_map_to_list|]. intros [k i] Hkv. by apply elem_of_map_to_list.
  - intros i f Hf. rewrite (range_ok _ remains), list_elem_of_fmap. split.
    + intros ([k i'] & -> & Hkv%elem_of_map_to_list). cbn in *. destruct (He k i' Hkv) as (f' & Hf' & <-). congruence.
    + intros Hr. exists (fid f, i). split; [done|]. by apply elem_of_map_to_list.
Qed.

(** After the first loop: who is not in the map has been refused, for being a
    double or because nobody waits for him; who is in it is as he was. *)
Definition double (fs : list InstanceFuture) (i : nat) : Prop :=
  exists j f g, (j < i)%nat /\ fs !! i = Some f /\ fs !! j = Some g /\ fid f = fid g.
Definition refused (fs : list InstanceFuture) (i : nat) (f f' : InstanceFuture) : Prop :=
  exists code, f' = Reply code false f /\ (CanDrop f = true \/ code = SameInstanceRequest /\ double fs i).

Record collected (fs : list InstanceFuture) (n : nat) (remains : gmap string nat) (fs' : list InstanceFuture) : Prop := {
  co_entries : entries_ok fs remains;
  co_before : forall id i, remains !! id = Some i -> (i < n)%nat;
  co_waiting : forall i f, fs !! i = Some f -> (i < n)%nat -> needWait f = true -> is_Some (remains !! fid f);
  co_futures : forall i f, fs !! i = Some f -> exists f', fs' !! i = Some f' /\
    if decide (i < n)%nat then (if decide (remains !! fid f = Some i) then f' = f else refused fs i f f') else f' = f }.

Lemma collected_refuse fs n remains fs' f code :
  collected fs n remains fs' -> fs !! n = Some f -> (CanDrop f = true \/ code = SameInstanceRequest /\ is_Some (remains !! fid f)) ->
  collected fs (S n) remains (update_future n (Reply code false) fs').
Proof.
  intros [He Hb Hw Hf] Hn Hwhy. split; [done| | |].
  - intros id i Hi. specialize (Hb id i Hi). lia.
  - intros i g Hg Hi Hng. destruct (decide (i = n)) as [->|]; [|apply (Hw i g); [done|lia|done]]. assert (g = f) as -> by congruence.
    destruct Hwhy as [Hc|[_ ?]]; [|done]. unfold CanDrop in Hc. by rewrite Hng in Hc.
  - intros i g Hg. destruct (Hf i g Hg) as (f' & Hf' & Hrel). unfold update_future.
    destruct (decide (i = n)) as [->|Hin].
    + rewrite list_lookup_alter_eq, Hf'. eexists. split; [done|]. rewrite decide_False in Hrel by lia. subst f'.
      assert (g = f) as -> by congruence.
      rewrite decide_True by lia. rewrite decide_False; [|intros Hr; specialize (Hb _ _ Hr); lia].
      eexists. split; [done|]. destruct Hwhy as [?|[Hc [j Hj]]]; [by left|right]. split; [done|]. destruct (He _ _ Hj) as (h & Hh & Hid).
      exists j, f, h. split_and!; [|done..]. by apply (Hb (fid f)).
    + rewrite list_lookup_alter_ne by done. exists f'. split; [done|].
      destruct (decide (i < n)%nat); [rewrite decide_True by lia|rewrite decide_False by lia]; done.
Qed.

Lemma collected_keep fs n remains fs' f :
  collected fs n remains fs' -> fs !! n = Some f -> remains !! fid f = None ->
  collected fs (S n) (<[fid f := n]> remains) fs'.
Proof.
  intros [He Hb Hw Hf] Hn Hnone. split.
  - intros id i. destruct (decide (id = fid f)) as [->|]; [rewrite lookup_insert_eq; intros [= <-]; by exists f|].
    rewrite lookup_insert_ne by done. apply He.
  - intros id i. destruct (decide (id = fid f)) as [->|]; [rewrite lookup_insert_eq; intros [= <-]; lia|].
    rewrite lookup_insert_ne by done. intros Hi. specialize (Hb _ _ Hi). lia.
  - intros i g Hg Hi Hng. destruct (decide (fid g = fid f)) as [->|]; [by rewrite lookup_insert_eq|]. rewrite lookup_insert_ne by done.
    apply (Hw i g); [done| |done]. destruct (decide (i = n)) as [->|]; [congruence|lia].
  - intros i g Hg. destruct (Hf i g Hg) as (f' & Hf' & Hrel). exists f'. split; [done|].
    destruct (decide (i = n)) as [->|Hin].
    + rewrite decide_False in Hrel by lia. rewrite decide_True by lia. assert (g = f) as -> by congruence.
      by rewrite decide_True by by rewrite lookup_insert_eq.
    + destruct (decide (i < n)%nat); [rewrite decide_True by lia|by rewrite decide_False by lia].
      destruct (decide (remains !! fid g = Some i)) as [Hr|Hr].
      * rewrite decide_True; [done|]. rewrite lookup_insert_ne; [done|]. intros Heq. rewrite Heq in Hnone. congruence.
      * rewrite decide_False; [done|]. destruct (decide (fid g = fid f)) as [->|Hgf]; [rewrite lookup_insert_eq; congruence|].
        by rewrite lookup_insert_ne.
Qed.

Lemma drop_cons {A} n (l l' : list A) x : drop n l = x :: l' -> l !! n = Some x /\ drop (S n) l = l'.
Proof.
  intros Hl. assert (l !! n = Some x) as Hn.
  { pose proof (f_equal (fun l => l !! 0%nat) Hl) as H. cbn in H. by rewrite lookup_drop, Nat.add_0_r in H. }
  split; [done|]. pose proof (f_equal tail Hl) as H. cbn in H. rewrite <- H. symmetry. by rewrite (drop_S l x n Hn).
Qed.

Lemma collect_spec cur life l n b fs remains :
  drop n fs = l -> collected fs n remains (futures b) ->
  ends (collect cur life n l remains) b (fun b' r => bstorage b' = bstorage b /\
    exists remains', r = Okay remains' /\ collected fs (length fs) remains' (futures b')).
Proof.
  revert n b remains. induction l as [|f l IH]; intros n b remains Hl Hc; cbn [collect].
  - apply ends_ret. split; [done|]. exists remains. split; [done|].
    assert (length fs <= n)%nat as Hn by (pose proof (f_equal length Hl) as H; rewrite length_drop in H; cbn in H; lia).
    destruct Hc as [He Hb Hw Hf]. split; [done| | |].
    + intros id i Hi. destruct (He id i Hi) as (g & Hg%lookup_lt_Some & _). done.
    + intros i g Hg Hi. apply (Hw i g); [done|lia].
    + intros i g Hg. destruct (Hf i g Hg) as (f' & Hf' & Hrel). exists f'. split; [done|]. apply lookup_lt_Some in Hg.
      rewrite decide_True in Hrel by lia. by rewrite decide_True by lia.
  - destruct (drop_cons _ _ _ _ Hl) as [Hn Hl'].
    destruct (decide (is_Some (remains !! fid f))) as [Hs|Hs].
    { apply ends_bind, ends_modify.
      eapply ends_weaken; [by apply IH; [done|apply (collected_refuse _ _ _ _ f); auto]|]. by intros b' r H. }
    destruct (decide (life <> 0 /\ _)) as [(_ & Hdrop & _)|].
    { apply ends_bind, ends_modify.
      eapply ends_weaken; [by apply IH; [done|apply (collected_refuse _ _ _ _ f); auto]|]. by intros b' r H. }
    apply IH; [done|]. apply collected_keep; [done|done|]. by apply eq_None_not_Some.
Qed.

Lemma collected_start fs : collected fs 0 ∅ fs.
Proof.
  split; [by intros id i ?%lookup_empty_Some|by intros id i ?%lookup_empty_Some|intros; lia|].
  intros i f Hf. exists f. split; [done|]. by rewrite decide_False by lia.
Qed.

(** *** Registering *)

Lemma changed_changed S g h l : changed S g (changed S h l) = changed S (fun i f => g i (h i f)) l.
Proof. apply list_eq. intros i. rewrite !changed_lookup. destruct (l !! i); [|done]. cbn [fmap option_fmap option_map]. by case_decide. Qed.

Lemma changed_none g l : changed [] g l = l.
Proof.
  apply list_eq. intros i. rewrite changed_lookup. destruct (l !! i); [|done]. cbn [fmap option_fmap option_map].
  by rewrite decide_False by apply not_elem_of_nil.
Qed.

Lemma ends_known {S E A} (m : call S E A) w (Q : S -> result E A -> Prop) :
  ends m w Q -> ends m w (fun w' r => m w = Ret (w', r) /\ Q w' r).
Proof. intros (w' & r & Hm & HQ). by exists w', r. Qed.

(** The futures that are left, after [batchRestoreInstanceIsolate]: either all of
    them have learnt what the store knows, or all have been told that it failed. *)
Definition restored (st : W) (remains : gmap string nat) (w : W) (g : InstanceFuture -> InstanceFuture) : Prop :=
  (exists m, g = restoreIsolate m /\
     forall id, id ∈ dom remains -> m !! id = Some (GetBool ((stored st !! id) ≫= fun c => pIsolate c.1))) \/
  (exists e, BatchGetInstanceIsolate (dom remains) st = Ret (w, Fail e) /\ g = Reply StoreLayerException false).

Lemma restore_spec fs remains b : store_ok (bstorage b) -> entries_ok fs remains ->
  ends (attempt (E := StatusCode) (batchRestoreInstanceIsolate remains)) b (fun b' r => exists x g, r = Okay x /\
    store_ok (bstorage b') /\ stored (bstorage b') = stored (bstorage b) /\
    futures b' = changed (range remains).*2 (fun _ => g) (futures b) /\
    restored (bstorage b) remains (bstorage b') g /\
    (remains <> ∅ -> exists r', BatchGetInstanceIsolate (dom remains) (bstorage b) = Ret (bstorage b', r'))).
Proof.
  intros Hok He. destruct (entries_positions fs remains He) as [Hnd _]. apply ends_attempt. unfold batchRestoreInstanceIsolate.
  case_decide as Hr.
  - subst. exists b, (Okay ()). split; [done|]. eexists _, (restoreIsolate ∅). split; [done|]. split_and!; [done..| | |done].
    + rewrite (proj1 (Permutation_nil_r (range (∅ : gmap string nat)))) by by rewrite range_ok, map_to_list_empty.
      apply list_eq. intros i. rewrite changed_lookup. destruct (futures b !! i); [|done]. cbn [fmap option_fmap option_map].
      by rewrite decide_False by apply not_elem_of_nil.
    + left. exists ∅. split; [done|]. rewrite dom_empty_L. set_solver.
  - destruct (ends_known _ _ _ (BatchGetInstanceIsolate_spec (dom remains) (bstorage b) Hok)) as (w' & r & Hm & Hm' & Hok' & _ & Hst & Hisos).
    unfold or_reply, mbind, call_bind, attempt, on_batch. rewrite Hm. destruct r as [m|e].
    + cbn [mret call_ret]. unfold mret, call_ret.
      destruct (ends_each_future (fun _ => restoreIsolate m) (range remains) (mkBatchState w' (futures b))
        (fun b' r => r = Okay () /\ bstorage b' = w' /\ futures b' = changed (range remains).*2 (fun _ => restoreIsolate m) (futures b)))
        as (b' & r & Hb' & -> & Hw & Hf); [done..|]. exists b', (Okay ()). split; [exact Hb'|].
      eexists _, (restoreIsolate m). rewrite Hw. split_and!; [done..|by left; exists m|]. intros _. by exists (Okay m).
    + destruct (ends_each_future (fun _ => Reply StoreLayerException false) (range remains) (mkBatchState w' (futures b))
        (fun b' r => r = Okay () /\ bstorage b' = w' /\ futures b' = changed (range remains).*2 (fun _ => Reply StoreLayerException false) (futures b)))
        as (b' & r & Hb' & -> & Hw & Hf); [done..|]. exists b', (Fail e). split.
      { unfold sendReply. cbn in Hb'. rewrite Hb'. done. }
      eexists _, (Reply StoreLayerException false). rewrite Hw. split_and!; [done..|right; by exists e|]. intros _. by exists (Fail e).
Qed.

(** What the request of a future becomes. *)
Definition model_of (st : W) (uuid : nat -> string) (i : nat) (f : InstanceFuture) : Instance :=
  (CreateInstanceModel (serviceId f) (take_over (stored st !! fid f) (request f)) (uuid i)).1.

(** Taking over no isolation and taking over "not isolated" give the same instance. *)
Lemma restored_model st remains w g uuid i f :
  restored st remains w g -> store_ok st -> fid f ∈ dom remains ->
  fid (g f) = fid f /\ serviceId (g f) = serviceId f /\ needWait (g f) = needWait f /\ (typed (request f) -> typed (request (g f))) /\
  (g = Reply StoreLayerException false \/
   sent (g f) = sent f /\ (CreateInstanceModel (serviceId (g f)) (request (g f)) (uuid i)).1 = model_of st uuid i f).
Proof.
  intros [(m & -> & Hm)|(e & _ & ->)] Hok Hd.
  - unfold restoreIsolate, model_of, take_over. rewrite (Hm _ Hd).
    destruct (pIsolate (request f)) as [x|] eqn:Hi.
    { split_and!; try done. right. split; [done|]. by destruct (stored st !! fid f) as [[]|]. }
    split_and!; try done. right. split; [done|]. cbn [serviceId request set_request].
    destruct (stored st !! fid f) as [[p sid]|] eqn:Hst; cbn [mbind option_bind fst GetBool default from_option id].
    + destruct (stored_ids _ _ _ Hok Hst) as (_ & Hw). destruct (w_isolate _ Hw) as [y Hy]. cbn in Hy. by rewrite Hy.
    + unfold CreateInstanceModel, wantsHealthCheck. cbn [fst]. by rewrite Hi.
  - unfold Reply. destruct (needWait f) eqn:Hn; cbn; split_and!; try done; by left.
Qed.

Lemma take_instances_spec (h : nat -> Instance) (l : list (string * nat)) b (Q : Batch -> result StatusCode (list Instance) -> Prop) :
  Forall (fun kv => exists f, futures b !! kv.2 = Some f /\ finstance f = Some (h kv.2)) l -> Q b (Okay (h <$> l.*2)) ->
  ends (take_instances l) b Q.
Proof.
  intros Hl. revert Q. induction Hl as [|kv l (f & Hf & Hi) _ IH]; intros Q HQ; cbn [take_instances]; [by apply ends_ret|].
  apply ends_bind, (ends_future _ _ f); [done|]. apply ends_bind, (ends_deref _ (h kv.2)); [done|].
  apply ends_bind, IH. by apply ends_ret.
Qed.

(** The store fails one of the two calls that a batch makes. *)
Definition store_fails (st : W) : Prop := exists ids w r, BatchGetInstanceIsolate ids st = Ret (w, r) /\
  ((exists e, r = Fail e) \/ exists l w' e, BatchAddInstances l w = Ret (w', Fail e)).

(** What the waiting futures of a batch [fs] are told, when the store went from
    [st] to [st'] and the futures are now [fs']. *)
Definition told (st : W) (uuid : nat -> string) (fs : list InstanceFuture) (st' : W) (fs' : list InstanceFuture) : Prop :=
  forall i f, fs !! i = Some f -> needWait f = true -> exists f' w, fs' !! i = Some f' /\ Wait f' = Some w /\
    (w = None -> stored st' !! fid f = Some (content (model_of st uuid i f))) /\
    (w <> None -> double fs i \/ store_fails st).

Lemma Wait_Reply code (ok : bool) f : needWait f = true ->
  Wait (Reply code ok f) = Some (if (default ok (sent f) : bool) then None else Some code).
Proof. intros Hn. unfold Wait, Reply. rewrite Hn. cbn. by destruct (sent f) as [[]|], ok. Qed.

Lemma makeModel_fields u f : needWait (makeModel u f) = needWait f /\ sent (makeModel u f) = sent f /\
  finstance (makeModel u f) = Some (CreateInstanceModel (serviceId f) (request f) u).1.
Proof. unfold makeModel. by destruct (CreateInstanceModel _ _ _). Qed.

(** The last replies of [registerHandler], to the futures that remain. *)
Lemma told_by_reply st w1 st' uuid fs fs1 remains g code (ok : bool) :
  Forall (fun f => typed (request f) /\ sent f = None) fs -> store_ok st ->
  collected fs (length fs) remains fs1 -> restored st remains w1 g ->
  (ok = true -> forall i f, fs !! i = Some f -> remains !! fid f = Some i -> g <> Reply StoreLayerException false ->
    stored st' !! fid f = Some (content (model_of st uuid i f))) ->
  (ok = false -> store_fails st) ->
  told st uuid fs st' (changed (range remains).*2 (fun i f => Reply code ok (makeModel (uuid i) (g f))) fs1).
Proof.
  intros Hfs Hst [He Hb _ Hco] Hg Hok Hfail i f Hf Hn. destruct (Hco i f Hf) as (f1 & Hf1 & Hrel).
  rewrite decide_True in Hrel by by eapply lookup_lt_Some. rewrite changed_lookup, Hf1. cbn [fmap option_fmap option_map].
  destruct (proj1 (Forall_lookup _ _) Hfs i f Hf) as [_ Hsent]. destruct (entries_positions fs remains He) as [_ Hpos].
  specialize (Hpos i f Hf). destruct (decide (remains !! fid f = Some i)) as [Hr|Hr].
  - subst f1. rewrite decide_True by by apply Hpos.
    assert (fid f ∈ dom remains) as Hd by by apply elem_of_dom_2 in Hr.
    destruct (restored_model _ _ _ _ uuid i f Hg Hst Hd) as (_ & _ & Hw & _ & Hcase).
    destruct (makeModel_fields (uuid i) (g f)) as (Hw2 & Hs2 & _). rewrite Hw, Hn in Hw2.
    eexists _, _. split; [done|]. split; [by apply Wait_Reply|]. rewrite Hs2. destruct Hcase as [->|[Hs _]].
    + unfold Reply. rewrite Hn, Hsent. cbn. split; [done|]. intros _. right. destruct Hg as [(m & Hm & _)|(e & Hm & _)].
      * exfalso. apply (f_equal (fun h => sent (h f))) in Hm. unfold Reply, restoreIsolate in Hm. rewrite Hn, Hsent in Hm.
        cbn in Hm. destruct (m !! fid f), (pIsolate (request f)); cbn in Hm; congruence.
      * exists (dom remains), w1, (Fail e). split; [done|]. left. by exists e.
    + rewrite Hs, Hsent. cbn [default from_option id]. destruct ok.
      * split; [|done]. intros _. apply Hok; [done..|]. intros Hgr. rewrite Hgr in Hs. unfold Reply in Hs. rewrite Hn, Hsent in Hs. done.
      * split; [done|]. intros _. right. by apply Hfail.
  - rewrite decide_False by by rewrite Hpos. destruct Hrel as (c & -> & Hwhy). eexists _, _. split; [done|].
    split; [by apply Wait_Reply|]. rewrite Hsent. cbn. split; [done|]. intros _. left.
    unfold CanDrop in Hwhy. rewrite Hn in Hwhy. by destruct Hwhy as [|[]].
Qed.

(** The futures that the handler asks about are those that remain. *)
Lemma entries_range fs remains : entries_ok fs remains ->
  Forall (fun kv => exists f, fs !! kv.2 = Some f /\ fid f = kv.1 /\ remains !! fid f = Some kv.2) (range remains) /\
  list_to_set (C := gset string) (range remains).*1 ⊆ list_to_set (fid <$> fs).
Proof.
  intros He. assert (Forall (fun kv => exists f, fs !! kv.2 = Some f /\ fid f = kv.1 /\ remains !! fid f = Some kv.2) (range remains)) as Hrange.
  { apply Forall_forall. intros [k i]. rewrite (range_ok _ remains), elem_of_map_to_list. intros Hi.
    destruct (He k i Hi) as (f & Hf & <-). by exists f. }
  split; [done|]. intros k. rewrite !elem_of_list_to_set, !list_elem_of_fmap. intros (kv & -> & Hkv).
  rewrite Forall_forall in Hrange. destruct (Hrange _ Hkv) as (f & Hf & <- & _). exists f. split; [done|]. by eapply list_elem_of_lookup_2.
Qed.

(** The instances that the handler makes: [h i] for the future at [i]. *)
Lemma models_made st w fs fs1 remains g uuid :
  Forall (fun f => typed (request f) /\ sent f = None) fs -> store_ok st ->
  collected fs (length fs) remains fs1 -> restored st remains w g ->
  let fs3 := changed (range remains).*2 (fun i f => makeModel (uuid i) (g f)) fs1 in
  exists h : nat -> Instance,
    Forall (fun kv => exists f, fs3 !! kv.2 = Some f /\ finstance f = Some (h kv.2)) (range remains) /\
    Forall well_formed (h <$> (range remains).*2) /\ ID <$> (h <$> (range remains).*2) = (range remains).*1 /\
    forall i f, fs !! i = Some f -> remains !! fid f = Some i ->
      ID (h i) = fid f /\ (g <> Reply StoreLayerException false -> h i = model_of st uuid i f).
Proof.
  intros Hfs Hok Hco Hg. cbv zeta. pose proof (co_entries _ _ _ _ Hco) as He. destruct (entries_positions _ _ He) as [_ Hpos].
  destruct (entries_range _ _ He) as [Hrange _]. set (fs3 := changed _ _ _).
  set (h := fun i => default (mkInstance None "" "" false 0) (fs3 !! i ≫= finstance)).
  assert (forall i f, fs !! i = Some f -> remains !! fid f = Some i -> fs3 !! i = Some (makeModel (uuid i) (g f)) /\
    h i = (CreateInstanceModel (serviceId (g f)) (request (g f)) (uuid i)).1) as Hfs3.
  { intros i f Hf Hi. destruct (co_futures _ _ _ _ Hco i f Hf) as (f1 & Hf1 & Hrel).
    rewrite decide_True in Hrel by by eapply lookup_lt_Some. rewrite decide_True in Hrel by done. subst f1.
    assert (fs3 !! i = Some (makeModel (uuid i) (g f))) as Hl.
    { unfold fs3. rewrite changed_lookup, Hf1. cbn [fmap option_fmap option_map]. by rewrite decide_True by by apply (Hpos i f). }
    split; [done|]. unfold h. rewrite Hl. cbn [mbind option_bind]. by rewrite (proj2 (proj2 (makeModel_fields (uuid i) (g f)))). }
  assert (forall i f, fs !! i = Some f -> remains !! fid f = Some i -> ID (h i) = fid f /\ well_formed (h i) /\
    (g <> Reply StoreLayerException false -> h i = model_of st uuid i f)) as Hh.
  { intros i f Hf Hi. destruct (Hfs3 i f Hf Hi) as [_ ->].
    destruct (restored_model _ _ _ _ uuid i f Hg Hok (elem_of_dom_2 _ _ _ Hi)) as (Hid & _ & _ & Ht & Hcase).
    split_and!; [exact Hid|apply CreateInstanceModel_well_formed, Ht; by apply (proj1 (Forall_lookup _ _) Hfs i f)|].
    intros Hgr. by destruct Hcase as [|[_ ->]]. }
  exists h. split_and!.
  - eapply Forall_impl; [exact Hrange|]. intros kv (f & Hf & _ & Hi). destruct (Hfs3 _ _ Hf Hi) as [Hl ->].
    eexists. split; [exact Hl|]. by destruct (makeModel_fields (uuid kv.2) (g f)) as (_ & _ & ->).
  - apply Forall_fmap, Forall_fmap. eapply Forall_impl; [exact Hrange|]. intros kv (f & Hf & _ & Hi). by apply (Hh _ _ Hf Hi).
  - rewrite <- !list_fmap_compose. apply list_fmap_ext. intros j kv Hkv. rewrite Forall_lookup in Hrange.
    destruct (Hrange _ _ Hkv) as (f & Hf & Hid & Hi). cbn. destruct (Hh _ _ Hf Hi) as [-> _]. done.
  - intros i f Hf Hi. by destruct (Hh i f Hf Hi) as (? & _ & ?).
Qed.

(** C26. A batch of registrations is answered completely: every caller that waits
    gets one answer, and an answer without an error means that the store holds,
    under the caller's id, the instance made of his own request, with the
    isolation that the store knew.  No other instance is touched.  Errors go only
    to requests that repeat an id of the batch, or come from the store. *)
Theorem batch_registration cur life uuid b :
  store_ok (bstorage b) -> Forall (fun f => typed (request f) /\ sent f = None) (futures b) ->
  ends (registerHandler cur life uuid) b (fun b' _ =>
    store_ok (bstorage b') /\
    same_off (list_to_set (fid <$> futures b)) (stored (bstorage b)) (stored (bstorage b')) /\
    told (bstorage b) uuid (futures b) (bstorage b') (futures b')).
Proof.
  intros Hok Hfs. unfold registerHandler. apply ends_bind, ends_get.
  case_decide as Hnil; [apply ends_ret; split_and!; [done..|]; by intros i f; rewrite Hnil|].
  apply ends_bind. eapply ends_weaken; [by apply (collect_spec cur life _ _ _ (futures b)), collected_start|].
  intros b1 ? (Hst1 & remains & -> & Hco). pose proof (co_entries _ _ _ _ Hco) as He.
  destruct (entries_positions _ _ He) as [Hnd Hpos], (entries_range _ _ He) as [_ Hsub].
  apply ends_bind. eapply ends_weaken; [apply (restore_spec (futures b)); [by rewrite Hst1|done]|].
  intros b2 ? (x & g & -> & Hok2 & Hst2 & Hf2 & Hg & Hcall). rewrite Hst1 in *. clear x.
  case_decide as Hr.
  { apply ends_ret. rewrite Hst2. split_and!; [done..|]. pose proof (told_by_reply (bstorage b) (bstorage b2) (bstorage b2) uuid (futures b)
      (futures b1) remains g ExecuteSuccess true Hfs Hok Hco Hg ltac:(by intros _ ? ? _; rewrite Hr) ltac:(done)) as Ht.
    rewrite (proj1 (Permutation_nil_r (range remains))) in * by by rewrite Hr, range_ok, map_to_list_empty.
    rewrite changed_none in Ht. by rewrite Hf2, changed_none. }
  destruct (Hcall Hr) as [rc Hrc], (models_made _ _ _ _ _ _ uuid Hfs Hok Hco Hg) as (h & Htake & Hwf & Hids & Hh).
  apply ends_bind, (ends_each_future (fun i => makeModel (uuid i))); [done|]. rewrite Hf2, changed_changed.
  apply ends_bind, (take_instances_spec h); [done|]. set (ins := h <$> (range remains).*2) in *. rewrite <- Hids in Hsub.
  apply ends_bind, ends_on_batch; [|by intros err b'; apply (each_future_returns (fun _ => Reply _ false))].
  eapply ends_weaken; [by apply ends_known, BatchAddInstances_spec|]. cbv zeta. intros w' [l'|err] (Hm & Hok' & _ & Hst'); cbn [bstorage] in *.
  - apply (ends_each_future (fun _ => Reply _ true)); [done|]. cbn [bstorage futures]. split_and!; [done|..].
    + rewrite (proj1 Hst'), Hst2. eapply same_off_mono; [exact Hsub|apply insert_all_off].
    + rewrite changed_changed. eapply told_by_reply; [done..| |done].
      intros _ i f Hf Hi Hgr. rewrite (proj1 Hst'). destruct (Hh i f Hf Hi) as (Hid & Hmod). rewrite <- Hmod, <- Hid by done.
      apply insert_all_elem; [rewrite Hids, range_ok; apply NoDup_fst_map_to_list|]. by apply list_elem_of_fmap_2, (Hpos i f).
  - apply (ends_each_future (fun _ => Reply _ false)); [done|]. cbn [bstorage futures]. split_and!; [done|..].
    + rewrite <- Hst2. by eapply same_off_mono.
    + rewrite changed_changed. eapply told_by_reply; [done..|].
      intros _. exists (dom remains), (bstorage b2), rc. split; [done|]. right. by exists ins, w', err.
Qed.

(** *** Deregistering *)

Definition verified (instances : gmap string Instance) (fs : list InstanceFuture) (i : nat) (f : InstanceFuture) : InstanceFuture :=
  match (fs !! i) ≫= fun f0 => instances !! fid f0 with None => Reply NotFoundResource false f | Some ins => SetInstance f ins end.
Definition kept (instances : gmap string Instance) (l : list InstanceFuture) (remains : gmap string nat) : gmap string nat :=
  foldl (fun r f => match instances !! fid f with None => delete (fid f) r | Some _ => r end) remains l.

Lemma kept_lookup instances l remains id :
  kept instances l remains !! id = if decide (instances !! id = None /\ id ∈ fid <$> l) then None else remains !! id.
Proof.
  revert remains. unfold kept. induction l as [|f l IH]; intros remains; cbn [foldl fmap list_fmap].
  - rewrite decide_False; [done|]. by intros [_ ?%not_elem_of_nil].
  - rewrite IH. destruct (decide (instances !! id = None /\ id ∈ fid <$> l)) as [[H1 H2]|Hn].
    { rewrite decide_True; [done|]. split; [done|by right]. }
    destruct (decide (instances !! id = None /\ id ∈ fid f :: (fid <$> l))) as [[H1 H2]|Hn'].
    + apply elem_of_cons in H2 as [->|]; [|tauto]. by rewrite H1, lookup_delete_eq.
    + destruct (instances !! fid f) eqn:Hf; [done|]. apply lookup_delete_ne. intros <-. apply Hn'. split; [done|by left].
Qed.

Lemma ends_verify instances fs l n remains b (Q : Batch -> result StatusCode (gmap string nat) -> Prop) :
  drop n fs = l ->
  Q (mkBatchState (bstorage b) (changed (seq n (length l)) (verified instances fs) (futures b))) (Okay (kept instances l remains)) ->
  ends (verify instances n l remains) b Q.
Proof.
  revert n remains b. induction l as [|f l IH]; intros n remains b Hl HQ; cbn [verify].
  - apply ends_ret. cbn in HQ. rewrite changed_none in HQ. by destruct b.
  - destruct (drop_cons _ _ _ _ Hl) as [Hn Hl'].
    assert (forall g, verified instances fs n = g -> changed (seq (S n) (length l)) (verified instances fs) (update_future n g (futures b)) =
      changed (seq n (length (f :: l))) (verified instances fs) (futures b)) as Hstep.
    { intros g Hg. apply list_eq. intros i. rewrite !changed_lookup. unfold update_future. cbn [length seq].
      destruct (decide (i = n)) as [->|Hi].
      - rewrite list_lookup_alter_eq. destruct (futures b !! n); [|done]. cbn [fmap option_fmap option_map].
        rewrite decide_False by (rewrite elem_of_seq; lia). rewrite decide_True by set_solver. by rewrite Hg.
      - rewrite list_lookup_alter_ne by done. destruct (futures b !! i); [|done]. cbn [fmap option_fmap option_map].
        f_equal. apply decide_ext. set_solver. }
    unfold verified in Hstep at 1. rewrite Hn in Hstep. cbn [mbind option_bind] in Hstep. unfold kept in HQ. cbn [foldl] in HQ.
    destruct (instances !! fid f) as [ins|]; apply ends_bind, ends_modify, IH; try done; cbn [bstorage futures]; by rewrite Hstep.
Qed.

(** What the waiting futures of a batch of deregistrations are told. *)
Definition dismissed (st : W) (fs : list InstanceFuture) (st' : W) (fs' : list InstanceFuture) : Prop :=
  forall i f, fs !! i = Some f -> needWait f = true -> exists f' w, fs' !! i = Some f' /\ Wait f' = Some w /\
    match w with
    | None => is_Some (stored st !! fid f) /\ stored st' !! fid f = None
    | Some c => (c = NotFoundResource /\ stored st !! fid f = None /\ stored st' !! fid f = None) \/
        (c = SameInstanceRequest /\ double fs i) \/ c = StoreLayerException
    end.

(** A waiting future after the first loop. *)
Lemma collected_waiting fs remains fs1 i f : collected fs (length fs) remains fs1 -> fs !! i = Some f -> needWait f = true ->
  exists f1, fs1 !! i = Some f1 /\ needWait f1 = true /\
    if decide (remains !! fid f = Some i) then f1 = f else f1 = Reply SameInstanceRequest false f /\ double fs i.
Proof.
  intros Hco Hf Hn. destruct (co_futures _ _ _ _ Hco i f Hf) as (f1 & Hf1 & Hrel). exists f1. split; [done|].
  rewrite decide_True in Hrel by by eapply lookup_lt_Some. case_decide; [by subst|].
  destruct Hrel as (code & -> & [Hc|[-> Hd]]); [unfold CanDrop in Hc; by rewrite Hn in Hc|]. unfold Reply. by rewrite Hn.
Qed.

Lemma Wait_set_instance f i : Wait (SetInstance f i) = Wait f.
Proof. done. Qed.

(** The store could not say which instances there are. *)
Lemma dismissed_unknown st st' fs fs1 remains :
  Forall (fun f => sent f = None) fs -> collected fs (length fs) remains fs1 ->
  dismissed st fs st' (changed (range remains).*2 (fun _ => Reply StoreLayerException false) fs1).
Proof.
  intros Hfs Hco i f Hf Hn. destruct (collected_waiting _ _ _ _ _ Hco Hf Hn) as (f1 & Hf1 & Hn1 & Hrel).
  pose proof (proj1 (Forall_lookup _ _) Hfs i f Hf) as Hsent. cbn in Hsent.
  destruct (entries_positions _ _ (co_entries _ _ _ _ Hco)) as [_ Hpos]. specialize (Hpos i f Hf).
  rewrite changed_lookup, Hf1. cbn [fmap option_fmap option_map]. destruct (decide (remains !! fid f = Some i)) as [Hr|Hr].
  - rewrite decide_True by by apply Hpos. subst f1. eexists _, _. split; [done|]. split; [by apply Wait_Reply|].
    rewrite Hsent. cbn. auto.
  - rewrite decide_False by by rewrite Hpos. destruct Hrel as [-> Hd]. eexists _, _. split; [done|].
    split; [by apply Wait_Reply|]. rewrite Hsent. cbn. auto.
Qed.

(** It could, and was asked to delete those that remain. *)
Lemma dismissed_known st st' fs fs1 remains m code (ok : bool) :
  Forall (fun f => sent f = None) fs -> collected fs (length fs) remains fs1 ->
  (forall id, id ∈ dom remains -> is_Some (m !! id) <-> is_Some (stored st !! id)) ->
  let remains' := kept m fs remains in
  entries_ok fs remains' -> same_off (list_to_set (range remains').*1) (stored st) (stored st') ->
  (forall id, ok = true -> id ∈ (range remains').*1 -> stored st' !! id = None) -> (ok = false -> code = StoreLayerException) ->
  dismissed st fs st' (changed (range remains').*2 (fun _ => Reply code ok) (changed (seq 0 (length fs)) (verified m fs) fs1)).
Proof.
  intros Hfs Hco Hm remains' He' Hoff Hdel Hcode i f Hf Hn.
  destruct (collected_waiting _ _ _ _ _ Hco Hf Hn) as (f1 & Hf1 & Hn1 & Hrel).
  pose proof (proj1 (Forall_lookup _ _) Hfs i f Hf) as Hsent. cbn in Hsent.
  destruct (entries_positions _ _ He') as [_ Hpos]. specialize (Hpos i f Hf).
  assert (remains' !! fid f = if decide (m !! fid f = None) then None else remains !! fid f) as Hk.
  { unfold remains'. rewrite kept_lookup. apply decide_ext. split; [tauto|]. intros ?. split; [done|].
    apply list_elem_of_fmap_2. by eapply list_elem_of_lookup_2. }
  rewrite !changed_lookup, Hf1. cbn [fmap option_fmap option_map].
  rewrite (decide_True (P := i ∈ seq _ _)) by (rewrite elem_of_seq; apply lookup_lt_Some in Hf; lia).
  assert (fid f ∈ dom remains) as Hd.
  { apply elem_of_dom, (co_waiting _ _ _ _ Hco i f); [done| |done]. by eapply lookup_lt_Some. }
  unfold verified. rewrite Hf. cbn [mbind option_bind]. destruct (m !! fid f) as [ins|] eqn:Hmf.
  - rewrite decide_False in Hk by done. assert (is_Some (stored st !! fid f)) as Hs by (apply Hm; [done|by rewrite Hmf]).
    destruct (decide (remains !! fid f = Some i)) as [Hr|Hr].
    + rewrite decide_True by (apply Hpos; by rewrite Hk). subst f1. eexists _, _. split; [done|]. split; [by apply Wait_Reply|].
      cbn [SetInstance sent]. rewrite Hsent. cbn. destruct ok; [|right; right; by apply Hcode]. split; [done|]. apply Hdel; [done|].
      rewrite range_ok, list_elem_of_fmap. exists (fid f, i). split; [done|]. by rewrite elem_of_map_to_list, Hk.
    + rewrite decide_False by by rewrite Hpos, Hk. destruct Hrel as [-> Hdb]. eexists _, _. split; [done|].
      rewrite Wait_set_instance. split; [by apply Wait_Reply|]. rewrite Hsent. cbn. auto.
  - rewrite decide_True in Hk by done. rewrite decide_False by by rewrite Hpos, Hk. eexists _, _. split; [done|].
    split; [by apply Wait_Reply|]. assert (stored st !! fid f = None) as Hs.
    { apply eq_None_not_Some. intros Hs. apply (Hm _ Hd) in Hs. rewrite Hmf in Hs. by destruct Hs. }
    assert (stored st' !! fid f = None).
    { rewrite Hoff; [done|]. rewrite elem_of_list_to_set, range_ok, list_elem_of_fmap.
      intros ([k j] & Hfk & Hkv%elem_of_map_to_list). cbn in Hfk. subst k. congruence. }
    assert (sent f1 = None \/ sent f1 = Some false) as Hs1.
    { case_decide; [subst; by left|]. destruct Hrel as [-> _]. unfold Reply. rewrite Hn, Hsent. by right. }
    destruct Hs1 as [->| ->]; cbn; auto.
Qed.

(** A batch of deregistrations is answered completely: an answer without an
    error means that the instance was there and is gone, "not found" that it was
    not there and is not; other errors go only to requests that repeat an id of the
    batch and to a failing store.  No other instance is touched. *)
Theorem batch_deregistration b :
  store_ok (bstorage b) -> Forall (fun f => sent f = None) (futures b) ->
  ends deregisterHandler b (fun b' _ =>
    store_ok (bstorage b') /\
    same_off (list_to_set (fid <$> futures b)) (stored (bstorage b)) (stored (bstorage b')) /\
    dismissed (bstorage b) (futures b) (bstorage b') (futures b')).
Proof.
  intros Hok Hfs. unfold deregisterHandler. apply ends_bind, ends_get.
  case_decide as Hnil; [apply ends_ret; split_and!; [done..|]; by intros i f; rewrite Hnil|].
  apply ends_bind. eapply ends_weaken; [by apply (collect_spec 0 0 _ _ _ (futures b)), collected_start|].
  intros b1 ? (Hst1 & remains & -> & Hco). pose proof (co_entries _ _ _ _ Hco) as He.
  destruct (entries_positions _ _ He) as [Hnd _].
  apply ends_bind, ends_on_batch; [|by intros err b'; apply (each_future_returns (fun _ => Reply _ false))]. rewrite Hst1.
  eapply ends_weaken; [by apply GetInstancesBrief_spec|]. cbv zeta. intros w2 [m|err] (Hok2 & _ & Hst2 & Hm).
  2: { apply (ends_each_future (fun _ => Reply _ false)); [done|]. cbn [bstorage futures]. rewrite Hst2.
       split_and!; [done..|]. by apply dismissed_unknown. }
  apply ends_bind, (ends_verify m (futures b)); [done|]. cbn [bstorage futures].
  assert (entries_ok (futures b) (kept m (futures b) remains)) as He'.
  { intros id i. rewrite kept_lookup. case_decide; [done|apply He]. }
  assert (forall id, id ∈ dom remains -> is_Some (m !! id) <-> is_Some (stored (bstorage b) !! id)) as Hm' by (intros id Hid; rewrite Hm; tauto).
  destruct (entries_positions _ _ He') as [Hnd' _], (entries_range _ _ He') as [_ Hsub].
  pose proof (fun st' code ok => dismissed_known (bstorage b) st' _ _ _ m code ok Hfs Hco Hm' He') as Hdone. cbv zeta in Hdone.
  case_decide as Hr.
  { apply ends_ret. cbn [bstorage futures]. rewrite Hst2. split_and!; [done..|].
    specialize (Hdone w2 ExecuteSuccess true). rewrite (proj1 (Permutation_nil_r (range (kept m (futures b) remains)))) in Hdone
      by by rewrite Hr, range_ok, map_to_list_empty.
    rewrite changed_none in Hdone. apply Hdone; [by rewrite Hst2|by intros id _ ?%not_elem_of_nil|done]. }
  apply ends_bind, ends_on_batch; [|by intros err b'; apply (each_future_returns (fun _ => Reply _ false))].
  eapply ends_weaken; [by apply BatchDeleteInstances_spec|]. cbv zeta. cbn [bstorage]. intros w3 [[]|err] (Hok3 & _ & Hoff & Hdel); rewrite Hst2 in Hoff.
  - apply (ends_each_future (fun _ => Reply _ true)); [done|]. cbn [bstorage futures].
    split_and!; [done|by eapply same_off_mono|]. apply Hdone; [done| |done]. intros id _. by apply Hdel.
  - apply (ends_each_future (fun _ => Reply _ false)); [done|]. cbn [bstorage futures].
    split_and!; [done|by eapply same_off_mono|]. by apply Hdone.
Qed.

End laws.

End batch.
