(* ===== verification/BoltRegistry.v ===== *)
(** * The registry on the boltdb store

    The handlers of [InstanceServer.v] and [InstanceBatch.v] over the store of
    [BoltStore.v], on concrete requests: the theorems apply, and what the calls
    answer.  Then behaviours that only the composition shows. *)

From S2P Require Import Prelude Effects GoStrings Utils Registry Services Namespace InstanceStore ServiceStore L5 BoltStore BoltServices Api NamespaceServer ServiceServer InstanceServer InstanceBatch.
From Stdlib Require Import ZArith Lia.
From stdpp Require Import base tactics list gmap strings pretty.

Open Scope Z_scope.

(** ** A small world *)

Definition no_time (_ : Z) : string := "now".
#[local] Instance store : InstanceStorage bolt := bolt_storage no_time map_to_list.
#[local] Instance laws : InstanceStorageLaws bolt := bolt_laws no_time map_to_list.

#[local] Instance services_store : ServiceStorage bolt := bolt_service_storage map_to_list map_to_list (fun _ => 0) (fun _ => 0).
#[local] Instance services_laws : ServiceStorageLaws bolt :=
  bolt_service_laws no_time map_to_list map_to_list (fun _ => 0) (fun _ => 0) (fun _ => reflexivity _).

Definition cart : ServiceModel :=
  mkService "s1" "cart" "default" "" "" (Some {["k" := "v"]}) "" "" "" "" "" "t1" "admin" "v1" "" "p1" true 1 1.
Definition ns : NamespaceModel := mkNamespace "default" "" "t0" "polaris" true 1 1.
Definition shop (services : gmap string ServiceModel) (instances : gmap string Instance) (failures : list bool) : bolt :=
  mkBolt instances services {["default" := ns]} ∅ initL5 100 failures.
Definition world := shop {["s1" := cart]}.

Definition req_of (host : string) (id : option string) (weight : option Z) (isolate : option bool) : PbInstance :=
  mkPb id (Some "cart") (Some "default") None (Some host) (Some 8080) None None None weight None
    (Some (mkHealthCheck HEARTBEAT (Some (Some 5)))) None isolate None None None None None None None.
Definition req := req_of "10.0.0.1".

(** The instance i1, isolated. *)
Definition row : Instance := setValid (CreateInstanceModel "s1" (req (Some "i1") None (Some true)) "r0").1 true.
Definition full : bolt := world {["i1" := row]} [].

Definition server (w : bolt) : Server := mkServer w [] [].

(** No hooks, and nothing in the caches. *)
Definition no_hook {A B} (_ : A) (_ : B) (_ : bool) : call bolt unit unit := mret ().
Lemma no_hook_ok {A B} (a : A) (b : B) remove w : store_ok w -> reads (no_hook a b remove) w (fun _ => True).
Proof. intros Hok. by apply ends_ret. Qed.
Definition uncached (_ _ : string) : option ServiceModel := None.

Definition uuids (n : nat) : string := match n with 0%nat => "u0" | 1%nat => "u1" | 2%nat => "u2" | 3%nat => "u3" | _ => "r1" end.

Lemma world_ok failures : store_ok (world ∅ failures).
Proof.
  change (bolt_ok (world ∅ failures)). split; [apply map_Forall_empty|]. split; by apply map_Forall_singleton.
Qed.

Lemma world_ids instances failures : new_ids uuids (server (world instances failures)).
Proof. split; [discriminate|]. vm_compute. reflexivity. Qed.

Lemma full_ok : store_ok full.
Proof.
  change (bolt_ok full). split; [|split; by apply map_Forall_singleton]. apply map_Forall_singleton. split; [done|].
  eexists. split; [done|]. split; try by eexists. cbn. split_and!; [done..|]. by exists 5.
Qed.

Lemma full_services : services_present full.
Proof.
  intros k c Hc. assert (c.2 = "s1") as ->; [|by eexists].
  apply (stored_Some full) in Hc as (i & Hi & _ & <-). cbn in Hi. by apply lookup_singleton_Some in Hi as [<- <-].
Qed.

(** What a call answers, when it answers. *)
Definition code_of {W} (m : call (@Server W) Response Response) (s : Server) : option Code :=
  match m s with Ret (_, r) => Some (rCode (answer r)) | Panics _ => None end.

Lemma code_of_answer {W} (m : call (@Server W) Response Response) s s' r c :
  m s = Ret (s', r) -> code_of m s = Some c -> rCode (answer r) = c.
Proof. intros Hm Hc. unfold code_of in Hc. rewrite Hm in Hc. by injection Hc. Qed.

(** ** One at a time *)

Abbreviation create := (CreateInstance true true (fun _ => false) no_hook no_hook (fun _ => true) None "" "" uncached false true
  (fun _ _ _ => mret None) uuids).
Abbreviation remove := (DeleteInstanceAPI true (fun _ => true) "" false (fun _ => mret (Fail NotFoundResource))).
Abbreviation update := (UpdateInstanceAPI true elements "r1").

Lemma registration_is_stored_witness :
  exists s' r, create (Some (req (Some "i1") None None)) (server (world ∅ [])) = Ret (s', r) /\
    rCode (answer r) = ExecuteSuccess /\ is_Some (stored (storage s') !! "i1") /\ length (published s') = 1%nat.
Proof.
  destruct (registration_is_stored true true (fun _ => false) no_hook no_hook (fun _ => true) None "" "" uncached false true
    (fun _ _ _ => mret None) no_hook_ok no_hook_ok uuids (req (Some "i1") None None) (server (world ∅ [])) eq_refl (world_ok [])
    ltac:(by intros ? ? ?) (world_ids ∅ []) ltac:(unfold typed; cbn; lia))
    as (s' & r & Hm & _ & HQ).
  pose proof (code_of_answer _ _ _ _ ExecuteSuccess Hm ltac:(vm_compute; reflexivity)) as Hc.
  exists s', r. split; [exact Hm|]. split; [done|]. change (checkCreateInstance _) with (@Okay Code _ "i1") in HQ.
  destruct (proj2 HQ Hc) as (svcId & data & _ & _ & _ & -> & ->). rewrite lookup_insert_eq. by split.
Defined.

Lemma deregistration_removes_witness :
  exists s' r, remove (Some (req (Some "i1") None None)) (server full) = Ret (s', r) /\
    rCode (answer r) = ExecuteSuccess /\ stored (storage s') !! "i1" = None /\ length (published s') = 1%nat.
Proof.
  destruct (deregistration_removes true (fun _ => true) "" false (fun _ => mret (Fail NotFoundResource))
    (req (Some "i1") None None) (server full) eq_refl full_ok full_services) as (s' & r & Hm & _ & HQ).
  pose proof (code_of_answer _ _ _ _ ExecuteSuccess Hm ltac:(vm_compute; reflexivity)) as Hc.
  exists s', r. split; [exact Hm|]. split; [done|]. change (checkReviseInstance _) with (@Okay Code _ "i1") in HQ.
  destruct (proj2 HQ Hc) as (-> & He). split; [by rewrite lookup_delete_eq|].
  change (stored (storage (server full)) !! "i1") with (Some (content row)) in He. by destruct He as (e & -> & _).
Defined.

Lemma update_is_stored_witness :
  exists s' r, update (Some (req (Some "i1") (Some 7) (Some false))) (server full) = Ret (s', r) /\
    rCode (answer r) = ExecuteSuccess /\ stored (storage s') !! "i1" <> stored full !! "i1" /\ published s' <> [].
Proof.
  destruct (update_is_stored true elements "r1" (req (Some "i1") (Some 7) (Some false)) (server full) full_ok full_services ltac:(unfold typed; cbn; lia) ltac:(done))
    as (s' & r & Hm & _ & HQ).
  pose proof (code_of_answer _ _ _ _ ExecuteSuccess Hm ltac:(vm_compute; reflexivity)) as Hc.
  exists s', r. split; [exact Hm|]. split; [done|]. change (checkReviseInstance _) with (@Okay Code _ "i1") in HQ.
  destruct (proj2 (proj2 HQ) Hc) as (c & i & _ & _ & -> & _ & Hrev & _ & es & Hes & _ & _ & ->). rewrite lookup_insert_eq. split.
  - change (stored full !! "i1") with (Some (content row)). intros Heq.
    pose proof (f_equal (fun o => (fun c => pRevision c.1) <$> o) Heq) as Hr. cbn in Hr. injection Hr as Hr. unfold Revision in Hrev.
    discriminate (eq_trans (eq_sym Hrev) (f_equal GetValue Hr)).
  - destruct es as [|e es]; [exact (fun _ => Hes eq_refl)|]. cbn [published server app fmap list_fmap]. discriminate.
Defined.

(** ** Batches *)

Definition numbers (c : Code) : Z := match c with ExecuteSuccess => 200000 | NoNeedUpdate => 200001 | _ => 400201 end.
Definition three : list (option PbInstance) := [Some (req (Some "i1") None None); None; Some nilInstance].

(** Registering for the service that is there keeps the services. *)
Definition one_service (s : Server) : Prop := store_ok (storage s) /\ services (storage s) = {["s1" := cart]}.

Lemma create_keeps r s : one_service s -> (forall req, r = Some req -> typed req /\
    (GetValue (pService req) = "cart" /\ GetValue (pNamespace req) = "default" \/ exists code, checkCreateInstance (Some req) = Fail code)) ->
  ends (create r) s (fun s' _ => one_service s').
Proof.
  intros [Hok Hsv] Hr. destruct r as [req'|]; [|apply ends_raise; by split]. destruct (Hr req' eq_refl) as [Ht Hcase].
  eapply ends_weaken; [apply (CreateInstance_spec true true (fun _ => false) no_hook no_hook (fun _ => true) None "" "" uncached false true
    (fun _ _ _ => mret None) no_hook_ok no_hook_ok uuids req' s)|]; [done|done|by intros ? ? ?| |done|].
  { split; [discriminate|]. by rewrite Hsv. }
  intros s' r' [Hok' Hreg]. split; [done|]. destruct (checkCreateInstance (Some req')) as [id|code] eqn:Hc.
  - destruct Hcase as [[Hn Hns]|[? ?]]; [|done]. destruct Hreg as (_ & Hp & _). destruct Hp as [Hp|(data & _ & _ & Hno & _)]; [congruence|].
    destruct (Hno "s1" cart); [by rewrite Hsv|]. by rewrite Hn, Hns.
  - destruct Hreg as [Hs _]. by rewrite (same_services _ _ Hs).
Qed.

(** A batch of three, of which one can be served, run last to first. *)
Lemma batch_answers_each_request_witness :
  exists s' b, batchHandler numbers (fun _ => create) three [2; 1; 0]%nat (server (world ∅ [])) = Ret (s', Okay b) /\
    length (bResponses b) = 3%nat /\ bSize b = 3 /\ bCode b = batch_code numbers (bResponses b).
Proof.
  destruct (batch_answers_each_request numbers ltac:(intros []; (left; reflexivity) || (right; vm_compute; discriminate))
    one_service (fun _ => create) three [2; 1; 0]%nat (server (world ∅ []))) as (s' & ? & Hm & b & -> & HQ).
  - intros i s Hs. apply create_keeps; [exact Hs|]. intros r Hr. destruct i as [|[|[|i]]]; cbn in Hr; simplify_eq.
    + split; [unfold typed; cbn; lia|]. by left.
    + split; [unfold typed; cbn; lia|]. right. eexists. vm_compute. reflexivity.
  - split; [apply world_ok|]. vm_compute. reflexivity.
  - apply Permutation_rev.
  - exists s', b. split; [exact Hm|]. change (checkBatchInstance three) with (@None Code) in HQ. cbv beta iota in HQ.
    destruct HQ as (Hl & Hc & Hs & _). split; [exact Hl|]. split; [exact Hs|exact Hc].
Defined.

Definition ranging (A : Type) (m : gmap string A) : list (string * A) := map_to_list m.
Lemma ranging_ok A (m : gmap string A) : ranging A m ≡ₚ map_to_list m.
Proof. done. Qed.

Definition fut (r : PbInstance) : InstanceFuture := mkFuture 0 "s1" r None None true None false 0.

(** The same instance twice: the first keeps the isolation, the second is refused. *)
Definition twice (w : bolt) : Batch := mkBatchState w [fut (req (Some "i1") (Some 7) None); fut (req (Some "i1") (Some 8) None)].
Abbreviation register := (registerHandler ranging 0 0 (fun _ => "r1")).
Abbreviation deregister := (deregisterHandler ranging).

(** What the callers of a batch see. *)
Definition waits {A} (m : call (@Batch bolt) StatusCode A) (b : Batch) : option (list (option (option Code))) :=
  match m b with Ret (b', _) => Some (Wait <$> futures b') | Panics _ => None end.

Lemma batch_registration_witness :
  exists b' r, register (twice full) = Ret (b', r) /\ waits register (twice full) = Some [Some None; Some (Some SameInstanceRequest)] /\
    stored (bstorage b') !! "i1" = Some (content (model_of full (fun _ => "r1") 0 (fut (req (Some "i1") (Some 7) None)))).
Proof.
  destruct (batch_registration ranging ranging_ok 0 0 (fun _ => "r1") (twice full) full_ok
    ltac:(repeat constructor; unfold typed; cbn; lia)) as (b' & r & Hm & _ & _ & Ht).
  exists b', r. split; [exact Hm|].
  assert (waits register (twice full) = Some [Some None; Some (Some SameInstanceRequest)]) as Hw by (vm_compute; reflexivity).
  split; [exact Hw|]. destruct (Ht 0%nat _ eq_refl eq_refl) as (f' & w & Hf' & Hwf & Hnone & _). apply Hnone.
  unfold waits in Hw. rewrite Hm in Hw. injection Hw as Hw. pose proof (f_equal (fun l => l !! 0%nat) Hw) as H0.
  rewrite list_lookup_fmap, Hf' in H0. cbn [fmap option_fmap option_map lookup list_lookup] in H0. rewrite Hwf in H0.
  by injection H0.
Defined.

(** An instance that is there and one that is not. *)
Definition both (w : bolt) : Batch := mkBatchState w [fut (req (Some "i1") None None); fut (req (Some "i2") None None)].

Lemma batch_deregistration_witness :
  exists b' r, deregister (both full) = Ret (b', r) /\ waits deregister (both full) = Some [Some None; Some (Some NotFoundResource)] /\
    stored (bstorage b') !! "i1" = None.
Proof.
  destruct (batch_deregistration ranging ranging_ok (both full) full_ok ltac:(repeat constructor)) as (b' & r & Hm & _ & _ & Ht).
  exists b', r. split; [exact Hm|].
  assert (waits deregister (both full) = Some [Some None; Some (Some NotFoundResource)]) as Hw by (vm_compute; reflexivity).
  split; [exact Hw|]. destruct (Ht 0%nat _ eq_refl eq_refl) as (f' & w & Hf' & Hwf & Hdone).
  unfold waits in Hw. rewrite Hm in Hw. injection Hw as Hw. pose proof (f_equal (fun l => l !! 0%nat) Hw) as H0.
  rewrite list_lookup_fmap, Hf' in H0. cbn [fmap option_fmap option_map lookup list_lookup] in H0. rewrite Hwf in H0.
  injection H0 as ->. apply Hdone.
Defined.

(** ** What the composition shows *)

(** When the isolations cannot be read, the batch is refused - and then stored all
    the same, without the isolation; and the refusal carries the code of success. *)
Theorem refused_registration_is_stored :
  let w := world {["i1" := row]} [true] in
  waits register (twice w) = Some [Some (Some ExecuteSuccess); Some (Some SameInstanceRequest)] /\
  match register (twice w) with
  | Ret (b', _) => (fun c => pIsolate c.1) <$> stored (bstorage b') !! "i1" = Some (Some false)
  | Panics _ => False
  end.
Proof. split; vm_compute; reflexivity. Qed.

(** Asking for a service that never was panics instead of answering "not found". *)
Theorem absent_service_panics : GetServiceByID "s2" full = Panics NilDereference.
Proof. vm_compute. reflexivity. Qed.

(** An update that turns the health check on and says that the instance is
    healthy leaves it unhealthy; sent again, it makes it healthy. *)
Definition unwatched : Instance := setValid (CreateInstanceModel "s1"
  (set_HealthCheck (set_Healthy (req (Some "i1") None None) (Some true)) None) "r0").1 true.
Definition vouching : PbInstance := set_Healthy (req (Some "i1") None None) (Some true).
Theorem repeated_update_makes_healthy :
  match update (Some vouching) (server (world {["i1" := unwatched]} [])) with
  | Ret (s1, _) =>
      (fun c => pHealthy c.1) <$> stored (storage s1) !! "i1" = Some (Some false) /\
      match update (Some vouching) s1 with
      | Ret (s2, _) => (fun c => pHealthy c.1) <$> stored (storage s2) !! "i1" = Some (Some true)
      | Panics _ => False
      end
  | Panics _ => False
  end.
Proof. vm_compute. split; reflexivity. Qed.

(** Appending metadata stops, without an error, at an instance that is not there. *)
Theorem append_stops_at_absent_instance :
  let r id := mkMetaReq id "r1" [] {["k" := "v"]} in
  match BatchAppendInstanceMetadata [r "i2"; r "i1"] full with
  | Ret (w, e) => e = Okay () /\ stored w = stored full
  | Panics _ => False
  end.
Proof. vm_compute. by split. Qed.

(** Isolating a host that has no instance is "no need to update". *)
Theorem isolating_nobody_needs_no_update :
  code_of (UpdateInstanceIsolate true "r1" (Some (req_of "10.0.0.2" None None (Some true)))) (server full)
    = Some NoNeedUpdate.
Proof. vm_compute. reflexivity. Qed.
