(* ===== verification/RegistryIntegrity.v ===== *)
(** * The registry keeps its references ([src/service], [src/namespace])

    Instances, services, aliases and namespaces refer to each other by id and by
    name, and no handler changes all of them: that the references stay good is a
    property of the API as a whole.  [request] is what a client may ask for,
    [serve] the handler that serves it and [admissible] what the handlers rely on
    without checking it. *)

From S2P Require Import Prelude Effects GoStrings Utils Registry Services Namespace InstanceStore ServiceStore Api NamespaceServer ServiceServer InstanceServer.
From Stdlib Require Import ZArith Lia.
From stdpp Require Import base tactics list gmap strings relations.

Open Scope Z_scope.

(** ** The invariant *)

(** On the services [m], the namespaces [n] and the instances [st]. *)
Record referential (m : gmap string ServiceModel) (n : gmap string NamespaceModel) (st : gmap string (PbInstance * string)) : Prop := {
  ref_ids : forall k s, m !! k = Some s -> svcID s = k /\ k <> "";
  ref_names : forall k k' s s', m !! k = Some s -> m !! k' = Some s' -> svcName s = svcName s' -> svcNamespace s = svcNamespace s' -> k = k';
  ref_aliases : aliases_resolve m;
  ref_instances : forall k c, st !! k = Some c -> real m c.2;
  ref_namespaces : forall k s, m !! k = Some s -> svcReference s = "" -> is_Some (n !! svcNamespace s) }.

Lemma real_insert m id s k : m !! id = None -> real m k -> real (<[id := s]> m) k.
Proof. intros Hid (x & Hx & Hr). exists x. split; [|done]. rewrite lookup_insert_ne; [done|]. intros <-. congruence. Qed.

(** A new service: its name is new, and it refers to nothing or to a service. *)
Lemma referential_add m n n' st id s :
  referential m n st -> m !! id = None -> id <> "" -> svcID s = id -> nobody_named (svcName s) (svcNamespace s) m -> n ⊆ n' ->
  (svcReference s = "" /\ is_Some (n' !! svcNamespace s) \/ svcReference s <> "" /\ real m (svcReference s)) ->
  referential (<[id := s]> m) n' st.
Proof.
  intros [H1 H2 H3 H4 H5] Hnone Hne Hid Hno Hsub Href. split.
  - intros k x. rewrite lookup_insert_Some. intros [[<- <-]|[_ Hx]]; [done|by apply H1].
  - intros k k' x x'. rewrite !lookup_insert_Some. intros [[<- <-]|[? Hx]] [[<- <-]|[? Hx']] Hn Hns; [done|..].
    + by destruct (Hno _ _ Hx').
    + by destruct (Hno _ _ Hx).
    + by eapply H2.
  - intros k x. rewrite lookup_insert_Some. intros [[<- <-]|[_ Hx]] Hr; apply real_insert; [done| |done|by eapply H3].
    destruct Href as [[? _]|[_ ?]]; done.
  - intros k c Hc. apply real_insert; [done|by eapply H4].
  - intros k x. rewrite lookup_insert_Some. intros [[<- <-]|[_ Hx]] Hr; [by destruct Href as [[_ ?]|[? _]]|].
    destruct (H5 k x Hx Hr) as [y Hy]. exists y. by eapply lookup_weaken.
Qed.

Lemma real_delete m k id : real m id -> id <> k -> real (delete k m) id.
Proof. intros (x & Hx & Hr) Hne. exists x. by rewrite lookup_delete_ne. Qed.

(** A service that goes: an alias, or one that nothing refers to. *)
Lemma referential_drop m n st x :
  referential m n st -> m !! svcID x = Some x ->
  (svcReference x <> "" \/ map_Forall (fun _ c => c.2 <> svcID x) st /\ map_Forall (fun _ t => svcReference t <> svcID x) m) ->
  referential (delete (svcID x) m) n st.
Proof.
  intros [H1 H2 H3 H4 H5] Hx Hfree.
  assert (forall id, real m id -> svcReference x <> "" -> id <> svcID x) as Halias by (intros id (y & Hy & Hr) Hne ->; congruence).
  split.
  - intros k s. rewrite lookup_delete_Some. intros [_ Hs]. by apply H1.
  - intros k k' s s'. rewrite !lookup_delete_Some. intros [_ Hs] [_ Hs']. by eapply H2.
  - intros k s. rewrite lookup_delete_Some. intros [_ Hs] Hr. apply real_delete; [by eapply H3|].
    destruct Hfree as [Hne|[_ Hno]]; [apply Halias; [by eapply H3|done]|by apply (Hno _ _ Hs)].
  - intros k c Hc. apply real_delete; [by eapply H4|]. destruct Hfree as [Hne|[Hno _]]; [apply Halias; [by eapply H4|done]|by apply (Hno _ _ Hc)].
  - intros k s. rewrite lookup_delete_Some. intros [_ Hs]. by eapply H5.
Qed.

(** A service that changes keeps its place, and remains what it is. *)
Lemma referential_replace m n st old new :
  referential m n st -> m !! svcID old = Some old -> same_place old new ->
  (svcReference old = "" /\ svcReference new = "" \/ svcReference old <> "" /\ svcReference new <> "" /\ real m (svcReference new)) ->
  referential (<[svcID old := new]> m) n st.
Proof.
  intros [H1 H2 H3 H4 H5] Hold (Hid & Hn & Hns) Hkind.
  assert (forall k, real m k -> real (<[svcID old := new]> m) k) as Hreal.
  { intros k (x & Hx & Hr). destruct (decide (k = svcID old)) as [->|Hk]; [|exists x; by rewrite lookup_insert_ne].
    exists new. rewrite lookup_insert_eq. split; [done|]. destruct Hkind as [[_ ?]|[? _]]; [done|congruence]. }
  assert (forall k x, <[svcID old := new]> m !! k = Some x -> exists y, m !! k = Some y /\ svcID x = svcID y /\ svcName x = svcName y /\
    svcNamespace x = svcNamespace y /\ (svcReference x = "" -> svcReference y = "") /\ (svcReference x <> "" -> real m (svcReference x))) as Hback.
  { intros k x. rewrite lookup_insert_Some. intros [[<- <-]|[_ Hx]].
    - exists old. split_and!; [done..| |]; destruct Hkind as [[? ?]|(? & ? & ?)]; done.
    - exists x. split_and!; [done..|]. intros Hr. by eapply H3. }
  split.
  - intros k x (y & Hy & -> & _)%Hback. by apply H1.
  - intros k k' x x' (y & Hy & _ & -> & -> & _)%Hback (y' & Hy' & _ & -> & -> & _)%Hback. by eapply H2.
  - intros k x (y & _ & _ & _ & _ & _ & Hr)%Hback Hne. by apply Hreal, Hr.
  - intros k c Hc. by eapply Hreal, H4.
  - intros k x (y & Hy & _ & _ & -> & Hr & _)%Hback Hx. by eapply H5, Hr.
Qed.

Lemma referential_instances m n st st' :
  referential m n st -> (forall k c, st' !! k = Some c -> st !! k = Some c \/ real m c.2) -> referential m n st'.
Proof. intros [H1 H2 H3 H4 H5] Hst. split; [done..| |done]. intros k c Hc. destruct (Hst k c Hc); [by eapply H4|done]. Qed.

Lemma referential_namespaces m n n' st :
  referential m n st -> (forall k s, m !! k = Some s -> is_Some (n !! svcNamespace s) -> is_Some (n' !! svcNamespace s)) -> referential m n' st.
Proof. intros [H1 H2 H3 H4 H5] Hn. split; [done..|]. intros k s Hs Hr. eapply Hn; [done|]. by eapply H5. Qed.

Lemma referential_subset m n st st' : referential m n st -> st' ⊆ st -> referential m n st'.
Proof. intros Hr Hsub. eapply referential_instances; [done|]. intros k c Hc. left. by eapply lookup_weaken. Qed.

(** ** The API *)

Section api.
  Context {W : Type} `{!InstanceStorage W, !InstanceStorageLaws W, !ServiceStorage W, !ServiceStorageLaws W}.
  Context (recording allowAutoCreate : bool) (cached : string -> bool).
  Context (afterNamespaceResource : PbNamespace -> NamespaceModel -> bool -> call W unit unit).
  Context (afterServiceResource : PbService -> ServiceModel -> bool -> call W unit unit).
  Context (ns_hook_ok : forall req n remove w, store_ok w -> reads (afterNamespaceResource req n remove) w (fun _ => True)).
  Context (svc_hook_ok : forall req s remove w, store_ok w -> reads (afterServiceResource req s remove) w (fun _ => True)).
  Context (allow : string -> bool) (cmdb : option (string -> result unit (option Location))) (ctxToken ownerID : string).
  Context (allowAsyncRegis : bool) (AsyncCreateInstance : string -> PbInstance -> bool -> call W Empty_set (option Code)).
  Context (AsyncDeleteInstance : PbInstance -> call W Empty_set (result Code Instance)).
  Context (order : gset string -> list string) (order_ok : forall es, order es ≡ₚ elements es).
#[local] Abbreviation Server := (@Server W).

(** What a client may ask for, with the uuids that the server draws for it; the
    service cache is as stale as it is at that moment. *)
Inductive request :=
| RegisterInstance (cache : string -> string -> option ServiceModel) (uuid : nat -> string) (req : PbInstance)
| DeregisterInstance (req : PbInstance)
| ChangeInstance (uuid : string) (req : PbInstance)
| NewService (uuid : nat -> string) (req : PbService)
| DropService (req : PbService)
| ChangeService (uuid : string) (req : PbService)
| ChangeServiceToken (token revision : string) (req : PbService)
| NewAlias (uuid : nat -> string) (req : PbAlias)
| DropAlias (req : PbAlias)
| ChangeAlias (uuid : string) (req : PbAlias)
| NewNamespace (uuid : string) (req : PbNamespace)
| DropNamespace (req : PbNamespace)
| ChangeNamespace (req : PbNamespace)
| ChangeNamespaceToken (token : string) (req : PbNamespace).

Definition serve (r : request) : call Server Response Response :=
  match r with
  | RegisterInstance cache uuid req =>
      CreateInstance recording allowAutoCreate cached afterNamespaceResource afterServiceResource allow cmdb ctxToken ownerID cache false
        allowAsyncRegis AsyncCreateInstance uuid (Some req)
  | DeregisterInstance req => DeleteInstanceAPI recording allow ctxToken false AsyncDeleteInstance (Some req)
  | ChangeInstance uuid req => UpdateInstanceAPI recording order uuid (Some req)
  | NewService uuid req => CreateService recording allowAutoCreate cached afterNamespaceResource afterServiceResource uuid (Some req)
  | DropService req => DeleteServiceAPI recording afterServiceResource (Some req)
  | ChangeService uuid req => UpdateServiceAPI recording afterServiceResource uuid (Some req)
  | ChangeServiceToken token revision req => UpdateServiceTokenAPI recording token revision (Some req)
  | NewAlias uuid req => CreateServiceAlias recording uuid (Some req)
  | DropAlias req => DeleteServiceAliasAPI (Some req)
  | ChangeAlias uuid req => UpdateServiceAliasAPI recording uuid (Some req)
  | NewNamespace uuid req => CreateNamespace afterNamespaceResource uuid (Some req)
  | DropNamespace req => DeleteNamespaceAPI recording afterNamespaceResource (Some req)
  | ChangeNamespace req => UpdateNamespaceAPI recording afterNamespaceResource (Some req)
  | ChangeNamespaceToken token req => UpdateNamespaceTokenAPI recording token (Some req)
  end.

Definition named_aliases (req : PbAlias) (w : W) : Prop :=
  forall x, services w !! svcID x = Some x -> has_name (GetValue (aAlias req)) (GetValue (aAliasNamespace req)) x -> svcReference x <> "".

(** The uuids are new; the store can count its rows, and while a service is
    deleted none of its reads fails; what is deleted or changed as an alias is one.
    Generated names of aliases are left out. *)
Definition admissible (r : request) (s : Server) : Prop :=
  match r with
  | RegisterInstance cache uuid req => cache_true cache (storage s) /\ new_ids uuid s /\ typed req
  | ChangeInstance _ req => typed req
  | NewService uuid _ => new_ids uuid s
  | DropService _ => reliable (storage s) /\ countable (storage s)
  | NewAlias uuid req => new_ids uuid s /\ aType req = AliasDefault
  | DropAlias req | ChangeAlias _ req => named_aliases req (storage s)
  | DropNamespace _ => countable (storage s)
  | _ => True
  end.

Definition intact (w : W) : Prop := store_ok w /\ referential (services w) (namespaces w) (stored w).

Lemma intact_services_present w : intact w -> services_present w.
Proof. intros [_ Hr] k c Hc. destruct (ref_instances _ _ _ Hr k c Hc) as (x & -> & _). by eexists. Qed.

Lemma intact_empty w : intact w -> services w !! "" = None.
Proof. intros [_ Hr]. apply eq_None_not_Some. intros [x Hx]. by destruct (ref_ids _ _ _ Hr _ _ Hx). Qed.

(** A state that differs in one respect is intact if that part is. *)
Lemma intact_but_services s s' : same_but_services s s' -> referential (services (storage s')) (namespaces (storage s)) (stored (storage s)) -> intact (storage s').
Proof. intros (Hok & Hst & Hns & _) Hr. split; [done|]. by rewrite Hst, Hns. Qed.
Lemma intact_but_namespaces s s' : same_but_namespaces s s' -> referential (services (storage s)) (namespaces (storage s')) (stored (storage s)) -> intact (storage s').
Proof. intros (Hok & Hst & Hsv & _) Hr. split; [done|]. by rewrite Hst, Hsv. Qed.

(** A new service as the handlers make it. *)
Lemma added_service uuid s m' n' data model : intact (storage s) -> new_ids uuid s ->
  m' = <[uuid 0%nat := data]> (services (storage s)) -> untimed data = untimed model -> svcID model = uuid 0%nat ->
  nobody_named (svcName model) (svcNamespace model) (services (storage s)) -> namespaces (storage s) ⊆ n' ->
  (svcReference model = "" /\ is_Some (n' !! svcNamespace model) \/ real (services (storage s)) (svcReference model)) ->
  referential m' n' (stored (storage s)).
Proof.
  intros Hint [Hne Hnew] -> Hdata Hid Hno Hsub Hkind.
  assert (svcID data = svcID model /\ svcName data = svcName model /\ svcNamespace data = svcNamespace model /\ svcReference data = svcReference model)
    as (H1 & H2 & H3 & H4) by (split_and!; [by apply (f_equal svcID) in Hdata|by apply (f_equal svcName) in Hdata|
      by apply (f_equal svcNamespace) in Hdata|by apply (f_equal svcReference) in Hdata]).
  eapply referential_add; [apply Hint|done|done|congruence|by rewrite H2, H3|done|]. rewrite H3, H4.
  destruct Hkind as [|Hreal]; [by left|right]. split; [|done]. intros He. rewrite He in Hreal. destruct Hreal as (x & Hx & _).
  by rewrite (intact_empty _ Hint) in Hx.
Qed.

Lemma service_updated_intact s s' r : intact (storage s) -> service_updated s s' r -> intact (storage s').
Proof.
  intros Hint (Hsame & Hch & _). eapply intact_but_services; [done|].
  destruct Hch as [->|(old & new & (Hold & Hpl & ->) & Hr & Hr')]; [apply Hint|]. eapply referential_replace; [apply Hint|done..|]. by left.
Qed.

(** What an intact registry gives the handlers. *)
#[local] Ltac given :=
  try exact _; try done;
  try match goal with
      | H : intact _ |- store_ok _ => apply H
      | H : intact _ |- aliases_resolve _ => apply (ref_aliases _ _ _ (proj2 H))
      | H : intact _ |- services_present _ => by apply intact_services_present
      | H : intact _ |- _ !! "" = None => by apply intact_empty
      end.

(** Instances come and go. *)
Lemma register_intact cache uuid req s : intact (storage s) -> cache_true cache (storage s) -> new_ids uuid s -> typed req ->
  ends (serve (RegisterInstance cache uuid req)) s (fun s' _ => intact (storage s')).
Proof.
  intros Hint Hcache Hnew Ht. eapply ends_weaken; [apply CreateInstance_spec; given|]. intros s' r [Hok Hreg].
  split; [done|]. destruct (checkCreateInstance (Some req)) as [id|code].
  2: { destruct Hreg as [Hs _]. rewrite (same_services _ _ Hs), (same_namespaces _ _ Hs). destruct Hs as (_ & _ & -> & _). apply Hint. }
  destruct Hreg as (Hsub & Hprov & _ & _ & Hfail & Hdone).
  assert (referential (services (storage s')) (namespaces (storage s')) (stored (storage s))) as Href.
  { destruct Hprov as [->|(data & Hsv & Hdata & Hno & Hns)].
    - eapply referential_namespaces; [apply Hint|]. intros k x _ [n Hn]. exists n. by eapply lookup_weaken.
    - eapply added_service; [done|done|exact Hsv|exact Hdata|done|done|done|]. by left. }
  destruct (decide (rCode (answer r) = ExecuteSuccess)) as [He|He].
  - destruct (Hdone He) as (svcId & data & _ & Hreal & Hc & -> & _). eapply referential_instances; [exact Href|].
    intros k c. rewrite lookup_insert_Some. intros [[_ <-]|[_ ?]]; [right|by left]. rewrite Hc. exact Hreal.
  - destruct (Hfail He) as [[->| ->] _]; [done|]. eapply referential_subset; [exact Href|apply delete_subseteq].
Qed.

Lemma deregister_intact req s : intact (storage s) -> ends (serve (DeregisterInstance req)) s (fun s' _ => intact (storage s')).
Proof.
  intros Hint. eapply ends_weaken; [apply DeleteInstanceAPI_spec; given|].
  intros s' r (Hok & Hct & HQ). split; [done|]. unfold services, namespaces. rewrite Hct.
  destruct (checkReviseInstance (Some req)) as [id|code].
  - destruct HQ as [Hfail Hdone]. destruct (decide (rCode (answer r) = ExecuteSuccess)) as [He|He].
    + destruct (Hdone He) as [-> _]. eapply referential_subset; [apply Hint|apply delete_subseteq].
    + destruct (Hfail He) as (_ & _ & -> & _). apply Hint.
  - destruct HQ as [(_ & _ & -> & _) _]. apply Hint.
Qed.

Lemma change_instance_intact uuid req s : intact (storage s) -> typed req ->
  ends (serve (ChangeInstance uuid req)) s (fun s' _ => intact (storage s')).
Proof.
  intros Hint Ht. eapply ends_weaken; [apply UpdateInstanceAPI_spec; given|].
  intros s' r (Hok & Hct & HQ). split; [done|]. unfold services, namespaces. rewrite Hct.
  destruct (checkReviseInstance (Some req)) as [id|code].
  - destruct HQ as (Hfail & _ & Hdone). destruct (decide (rCode (answer r) = ExecuteSuccess)) as [He|He].
    + destruct (Hdone He) as (c & i & Hc & _ & -> & _ & _ & Hsid & _). eapply referential_instances; [apply Hint|].
      intros k c'. rewrite lookup_insert_Some. intros [[_ <-]|[_ ?]]; [right|by left]. cbn [content snd]. rewrite Hsid.
      by eapply (ref_instances _ _ _ (proj2 Hint)).
    + destruct (Hfail He) as (_ & _ & -> & _). apply Hint.
  - destruct HQ as [(_ & _ & -> & _) _]. apply Hint.
Qed.

(** So do services and aliases. *)
Lemma new_service_intact uuid req s : intact (storage s) -> new_ids uuid s ->
  ends (serve (NewService uuid req)) s (fun s' _ => intact (storage s')).
Proof.
  intros Hint Hnew. eapply ends_weaken; [apply CreateService_spec; given|].
  intros s' r [[(Hok & Hst & _) [Hsub _]] (_ & _ & Hany)]. split; [done|]. rewrite Hst. destruct Hany as [->|(data & Hsv & Hdata & Hno & Hns)].
  - eapply referential_namespaces; [apply Hint|]. intros k x _ [n Hn]. exists n. by eapply lookup_weaken.
  - eapply added_service; [done|done|exact Hsv|exact Hdata|done|done|done|]. by left.
Qed.

Lemma drop_service_intact req s : intact (storage s) -> reliable (storage s) -> countable (storage s) ->
  ends (serve (DropService req)) s (fun s' _ => intact (storage s')).
Proof.
  intros Hint Hrel Hcount. eapply ends_weaken; [apply DeleteServiceAPI_spec; given|].
  intros s' r (Hsame & Hany & _). eapply intact_but_services; [done|]. destruct Hany as [->|(x & [Hx ->] & _ & Hfree)]; [apply Hint|].
  apply referential_drop; [apply Hint|done|]. destruct Hfree as [Hal|Hfree]; [left|right; by apply Hfree].
  unfold IsAlias in Hal. by apply bool_decide_eq_true in Hal.
Qed.

Lemma new_alias_intact uuid req s : intact (storage s) -> new_ids uuid s -> aType req = AliasDefault ->
  ends (serve (NewAlias uuid req)) s (fun s' _ => intact (storage s')).
Proof.
  intros Hint Hnew Htype. eapply ends_weaken; [apply CreateServiceAlias_spec; given|].
  intros s' r (Hsame & Hany & _). eapply intact_but_services; [done|].
  destruct Hany as [->|(x & data & Hx & Hr & _ & Hno & Hsv & Hdata)]; [apply Hint|].
  eapply added_service; [done|done|exact Hsv|exact Hdata|done|done|done|]. right. by exists x.
Qed.

Lemma drop_alias_intact req s : intact (storage s) -> named_aliases req (storage s) ->
  ends (serve (DropAlias req)) s (fun s' _ => intact (storage s')).
Proof.
  intros Hint Hal. eapply ends_weaken; [apply DeleteServiceAliasAPI_spec; given|].
  intros s' r (Hsame & Hany & _). eapply intact_but_services; [done|]. destruct Hany as [->|(x & [Hx ->] & Hname)]; [apply Hint|].
  apply referential_drop; [apply Hint|done|]. left. by apply Hal.
Qed.

Lemma change_alias_intact uuid req s : intact (storage s) -> named_aliases req (storage s) ->
  ends (serve (ChangeAlias uuid req)) s (fun s' _ => intact (storage s')).
Proof.
  intros Hint Hal. eapply ends_weaken; [apply UpdateServiceAliasAPI_spec; given|].
  intros s' r (Hsame & Hany & _). eapply intact_but_services; [done|].
  destruct Hany as [->|(old & new & (Hold & Hpl & ->) & Hr & Hreal)]; [apply Hint|].
  eapply referential_replace; [apply Hint|done..|]. right. split; [done|]. split; [|done].
  intros He. rewrite He in Hreal. destruct Hreal as (x & Hx & _). by rewrite (intact_empty _ Hint) in Hx.
Qed.

(** And namespaces. *)
Lemma new_namespace_intact uuid req s : intact (storage s) -> ends (serve (NewNamespace uuid req)) s (fun s' _ => intact (storage s')).
Proof.
  intros Hint. eapply ends_weaken; [apply CreateNamespace_spec; given|]. intros s' r [Hsame (Hdone & _ & Hfail)].
  eapply intact_but_namespaces; [done|]. eapply referential_namespaces; [apply Hint|]. intros k x _ [n Hn].
  destruct (decide (rCode (answer r) = ExecuteSuccess)) as [He|He]; [|rewrite (Hfail He); by exists n].
  destruct (Hdone He) as (Hnone & n' & -> & _). rewrite lookup_insert_ne; [by exists n|]. intros Heq. congruence.
Qed.

Lemma drop_namespace_intact req s : intact (storage s) -> countable (storage s) ->
  ends (serve (DropNamespace req)) s (fun s' _ => intact (storage s')).
Proof.
  intros Hint Hcount. eapply ends_weaken; [apply DeleteNamespaceAPI_spec; given|]. intros s' r (Hsame & Hany & _).
  eapply intact_but_namespaces; [done|]. destruct Hany as [->|[-> Hno]]; [apply Hint|]. eapply referential_namespaces; [apply Hint|].
  intros k x Hx [n Hn]. rewrite lookup_delete_ne; [by exists n|]. intros Heq. by apply (Hno Hcount _ _ Hx).
Qed.

Lemma kept_namespaces s s' : intact (storage s) -> same_but_namespaces s s' -> dom (namespaces (storage s')) = dom (namespaces (storage s)) -> intact (storage s').
Proof.
  intros Hint Hsame Hdom. eapply intact_but_namespaces; [done|]. eapply referential_namespaces; [apply Hint|].
  intros k x _. by rewrite <- !elem_of_dom, Hdom.
Qed.

Lemma serve_intact r s : intact (storage s) -> admissible r s -> ends (serve r) s (fun s' _ => intact (storage s')).
Proof.
  intros Hint Hadm. destruct r; cbn [admissible] in Hadm.
  - apply register_intact; tauto.
  - by apply deregister_intact.
  - by apply change_instance_intact.
  - by apply new_service_intact.
  - by apply drop_service_intact; destruct Hadm.
  - eapply ends_weaken; [apply UpdateServiceAPI_spec; given|].
    intros s' r. by apply service_updated_intact.
  - eapply ends_weaken; [apply UpdateServiceTokenAPI_spec; given|].
    intros s' r. by apply service_updated_intact.
  - by apply new_alias_intact; destruct Hadm.
  - by apply drop_alias_intact.
  - by apply change_alias_intact.
  - by apply new_namespace_intact.
  - by apply drop_namespace_intact.
  - eapply ends_weaken; [apply UpdateNamespaceAPI_spec; given|]. intros s' r [Hsame Hdom]. by eapply kept_namespaces.
  - eapply ends_weaken; [apply UpdateNamespaceTokenAPI_spec; given|]. intros s' r (Hsame & Hdom & _). by eapply kept_namespaces.
Qed.

(** A client is served. *)
Definition served (s s' : Server) : Prop := exists r x, admissible r s /\ serve r s = Ret (s', x).

(** C2. Referential integrity: however clients register, change and remove
    instances, services, aliases and namespaces, by admissible requests one after
    the other, every instance belongs to a service that is there and is no alias,
    every alias refers to such a service, every service that is no alias has its
    namespace, and no two services have the same name - whichever of the store's
    transactions fail, the reads of a service's deletion apart. Admissible is a
    request that is not batched, draws new ids, of a type that the wire can carry,
    registers with a cache that tells the truth of the services, creates aliases
    under names of their own, deletes and changes as an alias only what is one, and
    deletes while there are fewer than 2^32 rows. *)
Theorem registry_integrity s s' : intact (storage s) -> rtc served s s' -> intact (storage s').
Proof.
  intros Hint. induction 1 as [s|s s1 s2 (r & x & Hadm & Hr) _ IH]; [done|]. apply IH.
  destruct (serve_intact r s Hint Hadm) as (s1' & x' & Hr' & Hint'). rewrite Hr in Hr'. by injection Hr' as <- _.
Qed.

(** C27. From an intact registry, every admissible request is answered: no handler
    panics, and the registry is intact again. *)
Theorem requests_are_answered r s : intact (storage s) -> admissible r s ->
  exists s' x, serve r s = Ret (s', x) /\ intact (storage s').
Proof. intros Hint Hadm. exact (serve_intact r s Hint Hadm). Qed.

End api.
