(* ===== verification/BoltIntegrity.v ===== *)
(** * Services and namespaces on the boltdb store

    The handlers of [ServiceServer.v] and [NamespaceServer.v] over the store of
    [BoltServices.v], on concrete requests: a history of the registry that its
    integrity covers, and then histories that it does not. *)

From S2P Require Import Prelude Effects GoStrings Utils Registry Services Namespace InstanceStore ServiceStore L5 BoltStore BoltServices Api NamespaceServer ServiceServer InstanceServer BoltRegistry RegistryIntegrity.
From Stdlib Require Import ZArith Lia.
From stdpp Require Import base tactics list gmap strings relations.

Open Scope Z_scope.

#[local] Existing Instances BoltRegistry.store BoltRegistry.laws BoltRegistry.services_store BoltRegistry.services_laws.

(** ** A history *)

Definition serve_bolt : request -> call (@Server bolt) Response Response :=
  serve true true (fun _ => false) no_hook no_hook (fun _ => true) None "" "" true (fun _ _ _ => mret None)
    (fun _ => mret (Fail NotFoundResource)) elements.
Abbreviation served_bolt := (served true true (fun _ => false) no_hook no_hook (fun _ => true) None "" "" true (fun _ _ _ => mret None)
    (fun _ => mret (Fail NotFoundResource)) elements).

Definition after (r : request) (s : @Server bolt) : @Server bolt := match serve_bolt r s with Ret (s', _) => s' | Panics _ => s end.
Definition answered (r : request) (s : @Server bolt) : option Code := code_of (serve_bolt r) s.

Lemma served_step r s c : admissible r s -> answered r s = Some c -> served_bolt s (after r s).
Proof.
  intros Hadm Hc. unfold answered, code_of, after in *. destruct (serve_bolt r s) as [[s' x]|] eqn:Hs; [|done]. by exists r, x.
Qed.

(** Nothing is registered, not even a namespace. *)
Definition blank (failures : list bool) : bolt := mkBolt ∅ ∅ ∅ ∅ initL5 100 failures.

Lemma blank_intact failures : intact (blank failures).
Proof.
  split; [change (bolt_ok (blank failures)); split; [|split]; apply map_Forall_empty|].
  change (services (blank failures)) with (∅ : gmap string ServiceModel).
  change (stored (blank failures)) with (∅ : gmap string (PbInstance * string)). split.
  - by intros k s ?%lookup_empty_Some.
  - by intros k k' s s' ?%lookup_empty_Some.
  - by intros k s ?%lookup_empty_Some.
  - by intros k c ?%lookup_empty_Some.
  - by intros k s ?%lookup_empty_Some.
Qed.

Definition alias_ids (n : nat) : string := match n with 0%nat => "a0" | 1%nat => "a1" | _ => "a2" end.
Definition alias_of (service alias : string) : PbAlias :=
  mkPbAlias (Some service) (Some "default") (Some alias) (Some "default") AliasDefault None None None.
Definition svc_req (name : string) (comment : option string) : PbService :=
  mkPbService None (Some name) (Some "default") None None None None None None None comment None None None None.

(** The first registration makes the namespace and the service. *)
Definition h0 : @Server bolt := server (blank []).
Definition r1 : request := RegisterInstance uncached uuids (req (Some "i1") None None).
Definition h1 : @Server bolt := after r1 h0.
Definition r2 : request := NewAlias alias_ids (alias_of "cart" "cart2").
Definition h2 : @Server bolt := after r2 h1.
Definition r3 : request := DropService (svc_req "cart" None).
Definition h3 : @Server bolt := after r3 h2.

Lemma history : rtc served_bolt h0 h3.
Proof.
  eapply rtc_l; [apply (served_step r1 h0 ExecuteSuccess); [|vm_compute; reflexivity]|].
  { split; [by intros ? ? ?|]. split; [split; [discriminate|vm_compute; reflexivity]|unfold typed; cbn; lia]. }
  eapply rtc_l; [apply (served_step r2 h1 ExecuteSuccess); [|vm_compute; reflexivity]|].
  { split; [split; [discriminate|vm_compute; reflexivity]|reflexivity]. }
  apply rtc_once, (served_step r3 h2 ServiceExistedInstances); [|vm_compute; reflexivity].
  split; [|vm_compute; by split]. change (bolt_reliable (storage h2)). vm_compute. constructor.
Qed.

Lemma registry_integrity_witness : rtc served_bolt h0 h3 /\ intact (storage h3) /\
  length (map_to_list (services (storage h3))) = 2%nat.
Proof.
  split; [apply history|]. split; [|vm_compute; reflexivity].
  exact (registry_integrity true true (fun _ => false) no_hook no_hook no_hook_ok no_hook_ok (fun _ => true) None "" "" true
    (fun _ _ _ => mret None) (fun _ => mret (Fail NotFoundResource)) elements (fun _ => reflexivity _) h0 h3 (blank_intact []) history).
Defined.

Lemma requests_are_answered_witness : exists s' x, serve_bolt r1 h0 = Ret (s', x) /\ intact (storage s').
Proof.
  apply (requests_are_answered true true (fun _ => false) no_hook no_hook no_hook_ok no_hook_ok (fun _ => true) None "" "" true
    (fun _ _ _ => mret None) (fun _ => mret (Fail NotFoundResource)) elements (fun _ => reflexivity _) r1 h0 (blank_intact [])).
  split; [by intros ? ? ?|]. split; [split; [discriminate|vm_compute; reflexivity]|unfold typed; cbn; lia].
Defined.

(** A service in a namespace that is not there yet. *)
Definition shop_req : PbService :=
  mkPbService None (Some "shop") (Some "mall") None None None None None None None None (Some "admin") None None None.
Lemma service_creation_witness :
  exists s' r, CreateService true true (fun _ => false) no_hook no_hook uuids (Some shop_req) (server (world ∅ [])) = Ret (s', r) /\
    rCode (answer r) = ExecuteSuccess /\ svcName <$> services (storage s') !! "u0" = Some "shop" /\
    is_Some (namespaces (storage s') !! "mall").
Proof.
  destruct (service_creation true true (fun _ => false) no_hook no_hook no_hook_ok no_hook_ok uuids shop_req (server (world ∅ [])) (world_ok [])
    (world_ids ∅ [])) as (s' & r & Hm & _ & Hc & _).
  pose proof (code_of_answer _ _ _ _ ExecuteSuccess Hm ltac:(vm_compute; reflexivity)) as Hcode.
  exists s', r. split; [exact Hm|]. split; [exact Hcode|]. destruct (Hc Hcode) as [(data & Hsv & Hdata & _ & Hns) _].
  split; [|exact Hns]. rewrite Hsv. change (uuids 0) with "u0". rewrite lookup_insert_eq. exact (f_equal (fun x => Some (svcName x)) Hdata).
Defined.

(** ** What is not kept *)

Abbreviation drop_service := (DeleteServiceAPI true no_hook).
Abbreviation change_service := (UpdateServiceAPI true no_hook "v2").
Abbreviation change_alias := (UpdateServiceAliasAPI true "v2").

(** What a call answers and leaves. *)
Definition outcome_of {A} (m : call (@Server bolt) Response Response) (s : @Server bolt) (look : bolt -> A) : option (Code * A) :=
  match m s with Ret (s', r) => Some (rCode (answer r), look (storage s')) | Panics _ => None end.

Definition cart2 : ServiceModel :=
  mkService "s2" "cart2" "default" "" "" None "" "" "" "" "" "t2" "admin" "v1" "s1" "" true 1 1.
Definition both_services : gmap string ServiceModel := {["s1" := cart; "s2" := cart2]}.
Definition aliased (failures : list bool) : bolt := shop both_services ∅ failures.

(** An update that does not speak of the metadata erases it, and one of the
    platform is answered with success and not stored. *)
Theorem update_erases_metadata :
  outcome_of (change_service (Some (svc_req "cart" (Some "hello")))) (server (world ∅ []))
    (fun w => (fun s => (svcComment s, svcMeta s)) <$> tblService w !! "s1") = Some (ExecuteSuccess, Some ("hello", None)).
Proof. vm_compute. reflexivity. Qed.

Definition platform_req : PbService :=
  mkPbService None (Some "cart") (Some "default") None None None None None None None None None None None (Some "p2").
Theorem platform_is_not_stored :
  outcome_of (change_service (Some platform_req)) (server (world ∅ [])) (fun w => svcPlatformID <$> tblService w !! "s1")
    = Some (ExecuteSuccess, Some "p1").
Proof. vm_compute. reflexivity. Qed.

(** A service that was created without owners cannot be updated. *)
Definition ownerless : ServiceModel :=
  mkService "s1" "cart" "default" "" "" None "" "" "" "" "" "t1" "" "v1" "" "" true 1 1.
Theorem ownerless_service_is_fixed :
  outcome_of (change_service (Some (svc_req "cart" (Some "hello")))) (server (shop {["s1" := ownerless]} ∅ []))
    (fun w => svcComment <$> tblService w !! "s1") = Some (InvalidParameter, Some "").
Proof. vm_compute. reflexivity. Qed.

(** An update that names the alias changes the service: the answer that aliases may
    not be updated is never given. *)
Theorem update_through_alias :
  outcome_of (change_service (Some (svc_req "cart2" (Some "hello")))) (server (aliased []))
    (fun w => (svcComment <$> tblService w !! "s1", svcComment <$> tblService w !! "s2")) = Some (ExecuteSuccess, (Some "hello", Some "")).
Proof. vm_compute. reflexivity. Qed.

(** Deleting an alias deletes whatever has the name: here a service that has an
    instance, which is left without one. *)
Theorem alias_deletion_orphans :
  outcome_of (DeleteServiceAliasAPI (Some (alias_of "" "cart"))) (server full)
    (fun w => (services w !! "s1", snd <$> stored w !! "i1")) = Some (ExecuteSuccess, (None, Some "s1")).
Proof. vm_compute. reflexivity. Qed.

(** Updating a service as if it were an alias panics. *)
Theorem updating_no_alias_panics :
  change_alias (Some (alias_of "cart" "cart")) (server (world ∅ [])) = Panics NilDereference.
Proof. vm_compute. reflexivity. Qed.

(** The sixth transaction of a deletion reads the services that aliases refer to.
    If it fails, there are no aliases, and the service goes from under them. *)
Theorem unread_aliases_are_no_aliases :
  outcome_of (drop_service (Some (svc_req "cart" None))) (server (aliased [])) (fun w => bool_decide (services w !! "s1" = None))
    = Some (ServiceExistedAlias, false) /\
  outcome_of (drop_service (Some (svc_req "cart" None))) (server (aliased [false; false; false; false; false; true]))
    (fun w => (bool_decide (services w !! "s1" = None), svcReference <$> services w !! "s2")) = Some (ExecuteSuccess, (true, Some "s1")).
Proof. split; vm_compute; reflexivity. Qed.

(** An alias may live in a namespace that is not there. *)
Theorem alias_in_absent_namespace :
  outcome_of (CreateServiceAlias true alias_ids (Some (mkPbAlias (Some "cart") (Some "default") (Some "x") (Some "nowhere") AliasDefault None None None)))
    (server (world ∅ [])) (fun w => (svcNamespace <$> services w !! "a0", bool_decide (namespaces w !! "nowhere" = None)))
    = Some (ExecuteSuccess, (Some "nowhere", true)).
Proof. vm_compute. reflexivity. Qed.

(** When the namespace cannot be read, it counts as there. *)
Theorem unread_namespace_is_there :
  match CreateNamespaceIfAbsent true (fun _ => false) no_hook "u3" (Some (mkPbNamespace (Some "nowhere") None None None)) (server (blank [true])) with
  | Ret (s', r) => r = Okay "nowhere" /\ namespaces (storage s') !! "nowhere" = None
  | Panics _ => False
  end.
Proof. vm_compute. by split. Qed.

(** A filter on hosts that no instance has selects every service. *)
Theorem absent_host_selects_everything :
  match GetServices ∅ [] (Some (mkInstanceArgs ["10.9.9.9"] [])) 0 10 (aliased []) with
  | Ret (_, Okay (total, _)) => total = 2
  | _ => False
  end.
Proof. vm_compute. reflexivity. Qed.

(** A prefix of the namespace makes the name in the query void. *)
Theorem prefix_voids_other_filters :
  match GetServices {["namespace" := "def*"; "name" := "nothing"]} [] None 0 10 (aliased []) with
  | Ret (_, Okay (total, _)) => total = 2
  | _ => False
  end.
Proof. vm_compute. reflexivity. Qed.

(** A prefix finds no alias, unless it is the whole name. *)
Theorem prefix_finds_no_alias :
  match GetServiceAliases {["alias" := "cart*"]} 0 10 (aliased []), GetServiceAliases {["alias" := "cart2*"]} 0 10 (aliased []) with
  | Ret (_, Okay (total, _)), Ret (_, Okay (total', _)) => total = 0 /\ total' = 1
  | _, _ => False
  end.
Proof. vm_compute. by split. Qed.
