(* ===== verification/ServiceCache.v ===== *)
(** * The service cache ([src/cache/service.go], [src/cache/service_bucket.go])

    [serviceCache] keeps the services of the store by id, by namespace and name,
    by their CL5 name, as lists of a namespace with a revision, and the aliases of
    each service.  All tables hold pointers to the same objects, and readers write
    to them: [fillServicePorts] stores the ports of the instances in an object that
    has none.  Hence the objects live in a heap, [objects], and a pointer is an
    index of it.

    The order in which Go ranges over a map is the order of the list that the
    model is given; what is computed from a map in another order is sorted by the
    code.  The boltdb store's side of the fetch is [src/store/boltdb/service.go]. *)

From S2P Require Import Prelude GoStrings Hash Utils Services BaseCache InstanceCache.
From Stdlib Require Import ZArith Lia.
From stdpp Require Import base tactics list gmap strings sorting.

Open Scope Z_scope.

(** ** Data *)

Abbreviation ptr := nat.

#[export] Instance ServiceModel_inhabited : Inhabited ServiceModel :=
  populate (mkService "" "" "" "" "" None "" "" "" "" "" "" "" "" "" "" false 0 0).

(** [serviceAliasBucket]: namespace, service, id of the alias. *)
Abbreviation serviceAliasBucket := (gmap string (gmap string (gmap string ptr))).

Record serviceNameBucket := mkNameBucket {
  nbRevisions : string;
  nbNames : gmap string ptr }.
Record serviceNamespaceBucket := mkNamespaceBucket {
  sbRevision : string;
  sbNames : gmap string serviceNameBucket }.

(** [model.NamespaceServiceCount], with the fields of its [InstanceCount] that
    the cache adds up. *)
Record NamespaceServiceCount := mkNsCount {
  ServiceCount : Z;
  nsTotalInstanceCount : Z;
  nsHealthyInstanceCount : Z }.
Definition noServices : NamespaceServiceCount := mkNsCount 0 0 0.

(** The [sync.Map]s and buckets of a [serviceCache]. *)
Record tables := mkTables {
  ids : gmap string ptr;
  names : gmap string (gmap string ptr);
  cl5Sid2Name : gmap string string;
  cl5Names : gmap string ptr;
  alias : serviceAliasBucket;
  serviceList : serviceNamespaceBucket;
  pendingServices : gset string }.

Record serviceCache := mkSC {
  base : baseCache;
  objects : list ServiceModel;
  tbl : tables;
  namespaceServiceCnt : gmap string NamespaceServiceCount;
  disableBusiness : bool;
  needMeta : bool;
  serviceCount : Z;
  lastCheckAllTime : Z }.

Definition newServiceAliasBucket : serviceAliasBucket := ∅.
Definition newServiceNamespaceBucket : serviceNamespaceBucket := mkNamespaceBucket "" ∅.
Definition noTables : tables := mkTables ∅ ∅ ∅ ∅ newServiceAliasBucket newServiceNamespaceBucket ∅.

(** [newServiceCache] and [initialize]. *)
Definition newServiceCache (disableBusiness needMeta : bool) : serviceCache :=
  mkSC newBaseCache [] noTables ∅ disableBusiness needMeta 0 0.

Definition set_base (sc : serviceCache) b :=
  mkSC b (objects sc) (tbl sc) (namespaceServiceCnt sc) (disableBusiness sc) (needMeta sc) (serviceCount sc) (lastCheckAllTime sc).
Definition set_objects (sc : serviceCache) o :=
  mkSC (base sc) o (tbl sc) (namespaceServiceCnt sc) (disableBusiness sc) (needMeta sc) (serviceCount sc) (lastCheckAllTime sc).
Definition set_tbl (sc : serviceCache) t :=
  mkSC (base sc) (objects sc) t (namespaceServiceCnt sc) (disableBusiness sc) (needMeta sc) (serviceCount sc) (lastCheckAllTime sc).
Definition set_cnt (sc : serviceCache) c :=
  mkSC (base sc) (objects sc) (tbl sc) c (disableBusiness sc) (needMeta sc) (serviceCount sc) (lastCheckAllTime sc).
Definition set_serviceCount (sc : serviceCache) n :=
  mkSC (base sc) (objects sc) (tbl sc) (namespaceServiceCnt sc) (disableBusiness sc) (needMeta sc) n (lastCheckAllTime sc).
Definition set_checked (sc : serviceCache) t :=
  mkSC (base sc) (objects sc) (tbl sc) (namespaceServiceCnt sc) (disableBusiness sc) (needMeta sc) (serviceCount sc) t.

Definition set_ids (t : tables) v := mkTables v (names t) (cl5Sid2Name t) (cl5Names t) (alias t) (serviceList t) (pendingServices t).
Definition set_names (t : tables) v := mkTables (ids t) v (cl5Sid2Name t) (cl5Names t) (alias t) (serviceList t) (pendingServices t).
Definition set_cl5 (t : tables) s n := mkTables (ids t) (names t) s n (alias t) (serviceList t) (pendingServices t).
Definition set_alias (t : tables) v := mkTables (ids t) (names t) (cl5Sid2Name t) (cl5Names t) v (serviceList t) (pendingServices t).
Definition set_serviceList (t : tables) v := mkTables (ids t) (names t) (cl5Sid2Name t) (cl5Names t) (alias t) v (pendingServices t).
Definition set_pending (t : tables) v := mkTables (ids t) (names t) (cl5Sid2Name t) (cl5Names t) (alias t) (serviceList t) v.

Definition ServiceName : string := "service".

(** [model.Service] through a pointer; the cache stores no nil pointers. *)
Definition deref (sc : serviceCache) (p : ptr) : ServiceModel := objects sc !!! p.

(** ** The buckets *)

Definition cleanServiceAlias (s : serviceAliasBucket) (aliasFor : ServiceModel) : serviceAliasBucket :=
  match s !! svcNamespace aliasFor with
  | None => s
  | Some b => <[svcNamespace aliasFor := delete (svcName aliasFor) b]> s
  end.

Definition addServiceAlias (s : serviceAliasBucket) (p : ptr) (alias aliasFor : ServiceModel) : serviceAliasBucket :=
  let b := default ∅ (s !! svcNamespace aliasFor) in
  let bucket := default ∅ (b !! svcName aliasFor) in
  <[svcNamespace aliasFor := <[svcName aliasFor := <[svcID alias := p]> bucket]> b]> s.

Definition delServiceAlias (s : serviceAliasBucket) (alias aliasFor : ServiceModel) : serviceAliasBucket :=
  match s !! svcNamespace aliasFor with
  | None => s
  | Some b =>
      match b !! svcName aliasFor with
      | None => s
      | Some bucket => <[svcNamespace aliasFor := <[svcName aliasFor := delete (svcID alias) bucket]> b]> s
      end
  end.

Definition getServiceAliases (s : serviceAliasBucket) (namespace name : string) : list ptr :=
  match s !! namespace with
  | None => []
  | Some b => match b !! name with None => [] | Some bucket => (map_to_list bucket).*2 end
  end.

Definition emptyBucket : serviceNameBucket := mkNameBucket "" ∅.

Definition addService (s : serviceNamespaceBucket) (p : ptr) (svc : ServiceModel) : serviceNamespaceBucket :=
  let b := default emptyBucket (sbNames s !! svcNamespace svc) in
  mkNamespaceBucket (sbRevision s)
    (<[svcNamespace svc := mkNameBucket (nbRevisions b) (<[svcName svc := p]> (nbNames b))]> (sbNames s)).

Definition removeService (s : serviceNamespaceBucket) (svc : ServiceModel) : serviceNamespaceBucket :=
  let b := default emptyBucket (sbNames s !! svcNamespace svc) in
  mkNamespaceBucket (sbRevision s)
    (<[svcNamespace svc := mkNameBucket (nbRevisions b) (delete (svcName svc) (nbNames b))]> (sbNames s)).

Definition reloadNames (objs : list ServiceModel) (b : serviceNameBucket) : serviceNameBucket :=
  mkNameBucket (CompositeComputeRevision ((fun p => svcRevision (objs !!! p)) <$> (map_to_list (nbNames b)).*2)) (nbNames b).

Definition reloadRevision (objs : list ServiceModel) (s : serviceNamespaceBucket) : serviceNamespaceBucket :=
  let names := reloadNames objs <$> sbNames s in
  mkNamespaceBucket (CompositeComputeRevision (nbRevisions <$> (map_to_list names).*2)) names.

Definition bucketListServices (s : serviceNamespaceBucket) (namespace : string) : string * list ptr :=
  match sbNames s !! namespace with
  | None => ("", [])
  | Some b => (nbRevisions b, (map_to_list (nbNames b)).*2)
  end.

Definition bucketListAllServices (s : serviceNamespaceBucket) : string * list ptr :=
  (sbRevision s, (map_to_list (sbNames s)).*1 ≫= fun namespace => (bucketListServices s namespace).2).

(** ** Applying rows *)

(** The CL5 names a service brings, with a prefix that keeps them apart from names. *)
Definition genCl5Name (name : string) : string := "cl5." +:+ name.

Definition updateCl5SidAndNames (t : tables) (p : ptr) (service : ServiceModel) : tables :=
  let meta := default ∅ (svcMeta service) in
  match meta !! "internal-cl5-sid" with
  | None => t
  | Some _ =>
      let sid := svcName service in
      match meta !! "internal-cl5-name" with
      | None =>
          match cl5Sid2Name t !! sid with
          | Some oldCl5Name => set_cl5 t (delete sid (cl5Sid2Name t)) (delete oldCl5Name (cl5Names t))
          | None => t
          end
      | Some cl5NameMeta =>
          let cl5Name := genCl5Name cl5NameMeta in
          set_cl5 t (<[sid := cl5Name]> (cl5Sid2Name t)) (<[cl5Name := p]> (cl5Names t))
      end
  end.

Definition removeServices (t : tables) (service : ServiceModel) : tables :=
  let t := set_ids t (delete (svcID service) (ids t)) in
  let t := set_serviceList t (removeService (serviceList t) service) in
  let t := set_alias t (cleanServiceAlias (alias t) service) in
  let t := set_pending t (pendingServices t ∖ {[svcID service]}) in
  let t := match names t !! svcNamespace service with
           | Some spaces => set_names t (<[svcNamespace service := delete (svcName service) spaces]> (names t))
           | None => t
           end in
  match cl5Sid2Name t !! svcName service with
  | Some cl5Name => set_cl5 t (delete (svcName service) (cl5Sid2Name t)) (delete cl5Name (cl5Names t))
  | None => t
  end.

(** The variables of the loop of [setServices]. *)
Record setting := mkSetting {
  s_tbl : tables;
  s_mtime : Z;
  s_update : Z;
  s_del : Z;
  s_changeNs : gset string;
  s_count : Z;
  s_aliases : list (ptr * ServiceModel);
  s_notify : list revisionNotify }.

Definition storeService (t : tables) (p : ptr) (service : ServiceModel) : tables :=
  let t := set_ids t (<[svcID service := p]> (ids t)) in
  let t := set_serviceList t (addService (serviceList t) p service) in
  let spaces := default ∅ (names t !! svcNamespace service) in
  let t := set_names t (<[svcNamespace service := <[svcName service := p]> spaces]> (names t)) in
  updateCl5SidAndNames t p service.

Definition setService (st : setting) (row : ptr * ServiceModel) : setting :=
  let '(p, service) := row in
  let serviceMtime := Unix (svcModifyTime service) in
  let lastMtime := if decide (s_mtime st < serviceMtime) then serviceMtime else s_mtime st in
  let aliases := if IsAlias service then s_aliases st ++ [(p, service)] else s_aliases st in
  let changeNs := {[svcNamespace service]} ∪ s_changeNs st in
  if negb (svcValid service) then
    mkSetting (removeServices (s_tbl st) service) lastMtime (s_update st) (s_del st + 1) changeNs
      (i64 (s_count st - 1)) aliases (s_notify st ++ [mkNotify (svcID service) false])
  else
    mkSetting (storeService (s_tbl st) p service) lastMtime (s_update st + 1) (s_del st) changeNs
      (if decide (is_Some (ids (s_tbl st) !! svcID service)) then s_count st else i64 (s_count st + 1))
      aliases (s_notify st ++ [mkNotify (svcID service) true]).

Definition postProcessAlias (objs : list ServiceModel) (t : tables) (row : ptr * ServiceModel) : tables :=
  let '(p, a) := row in
  match ids t !! svcReference a with
  | None => t
  | Some q =>
      set_alias t (match ids t !! svcID a with
                   | Some _ => addServiceAlias (alias t) p a (objs !!! q)
                   | None => delServiceAlias (alias t) a (objs !!! q)
                   end)
  end.

Definition postProcessServiceAlias (objs : list ServiceModel) (t : tables) (aliases : list (ptr * ServiceModel)) : tables :=
  foldl (postProcessAlias objs) t aliases.

(** The namespaces whose counts are due, those of pending services included,
    which are pending no more. *)
Definition appendServiceCountChangeNamespace (objs : list ServiceModel) (t : tables) (changeNs : gset string) : tables * gset string :=
  let due := filter (fun svcId => is_Some (ids t !! svcId)) (elements (pendingServices t)) in
  (set_pending t (pendingServices t ∖ list_to_set due),
   list_to_set ((fun svcId => svcNamespace (objs !!! default 0%nat (ids t !! svcId))) <$> due) ∪ changeNs).

Section instances.
  (** [sc.instCache]. *)
  Context (ic : instanceCache).

Definition countOne (objs : list ServiceModel) (count : NamespaceServiceCount) (p : ptr) : NamespaceServiceCount :=
  let insCnt := GetInstancesCountByServiceID ic (svcID (objs !!! p)) in
  mkNsCount (u32 (ServiceCount count + 1)) (u32 (nsTotalInstanceCount count + TotalInstanceCount insCnt))
    (u32 (nsHealthyInstanceCount count + HealthyInstanceCount insCnt)).

Definition countNamespace (objs : list ServiceModel) (t : tables) (cnt : gmap string NamespaceServiceCount) (namespace : string) :
    gmap string NamespaceServiceCount :=
  match names t !! namespace with
  | None => delete namespace cnt
  | Some value => <[namespace := foldl (countOne objs) noServices (map_to_list value).*2]> cnt
  end.

Definition postProcessUpdatedServices (sc : serviceCache) (affect : gset string) : serviceCache :=
  let '(t, affect) := appendServiceCountChangeNamespace (objects sc) (tbl sc) affect in
  set_cnt (set_tbl sc t) (foldl (countNamespace (objects sc) t) (namespaceServiceCnt sc) (elements affect)).

(** The rows of a fetch, as new objects. *)
Definition allocate (sc : serviceCache) (services : list ServiceModel) : serviceCache * list (ptr * ServiceModel) :=
  (set_objects sc (objects sc ++ services), imap (fun i s => ((length (objects sc) + i)%nat, s)) services).

Record setResult := mkSet {
  r_sc : serviceCache;
  r_mtimes : gmap string Z;
  r_update : Z;
  r_del : Z;
  r_notify : list revisionNotify }.

Definition setServices (sc : serviceCache) (rows : list (ptr * ServiceModel)) : setResult :=
  if decide (rows = []) then mkSet sc ∅ 0 0 []
  else
    let st := foldl setService (mkSetting (tbl sc) (Unix (LastMtime (base sc) ServiceName)) 0 0 ∅ (serviceCount sc) [] []) rows in
    let sc := set_serviceCount (set_tbl sc (s_tbl st)) (s_count st) in
    let sc := set_tbl sc (postProcessServiceAlias (objects sc) (tbl sc) (s_aliases st)) in
    let sc := postProcessUpdatedServices sc (s_changeNs st) in
    let sc := set_tbl sc (set_serviceList (tbl sc) (reloadRevision (objects sc) (serviceList (tbl sc)))) in
    mkSet sc {[ServiceName := FromUnix (s_mtime st)]} (s_update st) (s_del st) (s_notify st).

(** ** Fetching *)

Section fetch.
  Context (DefaultTimeDiff : Z).

Definition fetchTime (sc : serviceCache) : Z := LastFetchTime DefaultTimeDiff (base sc).
Definition isFirstUpdate (sc : serviceCache) : bool := firtstUpdate (base sc).

(** [answer]: the store's rows, in the order of the iteration; [None] for an error. *)
Definition realUpdate (sc : serviceCache) (answer : option (list ServiceModel)) :
    serviceCache * option (gmap string Z) * list revisionNotify :=
  match answer with
  | None => (sc, None, [])
  | Some services =>
      let '(sc, rows) := allocate sc services in
      let r := setServices sc rows in
      (r_sc r, Some (r_mtimes r), r_notify r)
  end.

Definition checkAll (sc : serviceCache) (curTimeSec : Z) (count : option Z) : serviceCache :=
  if decide (i64 (curTimeSec - lastCheckAllTime sc) < checkAllIntervalSec) then sc
  else
    let sc' := match count with
               | None => sc
               | Some count =>
                   if decide (serviceCount sc = count) then sc
                   else set_base sc (resetLastMtime (base sc) ServiceName)
               end in
    set_checked sc' curTimeSec.

(** What the store and the clock answer during one [update]. *)
Record answers := mkAnswers {
  a_storeTime : option Z;
  a_rows : option (list ServiceModel);
  a_now : Z;
  a_count : option Z }.

Definition update (sc : serviceCache) (a : answers) : serviceCache * list revisionNotify :=
  let '(sc1, executed, notify) := realUpdate sc (a_rows a) in
  let sc2 := set_base sc1 (doCacheUpdate (base sc) (a_storeTime a) executed) in
  (checkAll sc2 (a_now a) (a_count a), notify).

End fetch.

(** ** Queries *)

Definition set_ports (s : ServiceModel) (ports : string) : ServiceModel :=
  mkService (svcID s) (svcName s) (svcNamespace s) (svcBusiness s) ports (svcMeta s) (svcComment s) (svcDepartment s)
    (svcCmdbMod1 s) (svcCmdbMod2 s) (svcCmdbMod3 s) (svcToken s) (svcOwner s) (svcRevision s) (svcReference s) (svcPlatformID s)
    (svcValid s) (svcCreateTime s) (svcModifyTime s).

(** The object gets the ports of the service's instances, when it has none. *)
Definition fillPorts (svc : ServiceModel) : ServiceModel :=
  if decide (svcPorts svc = "") then
    let ports := GetServicePorts ic (svcID svc) in
    if decide (ports = []) then svc else set_ports svc (String.concat "," ports)
  else svc.
Definition fillServicePorts (sc : serviceCache) (p : ptr) : serviceCache := set_objects sc (alter fillPorts p (objects sc)).

Definition GetServiceByID (sc : serviceCache) (id : string) : serviceCache * option ptr :=
  if decide (id = "") then (sc, None)
  else match ids (tbl sc) !! id with
       | None => (sc, None)
       | Some p => (fillServicePorts sc p, Some p)
       end.

Definition GetServiceByName (sc : serviceCache) (name namespace : string) : serviceCache * option ptr :=
  if decide (name = "" \/ namespace = "") then (sc, None)
  else match names (tbl sc) !! namespace with
       | None => (sc, None)
       | Some spaces =>
           match spaces !! name with
           | None => (sc, None)
           | Some p => (fillServicePorts sc p, Some p)
           end
       end.

Definition GetAliasFor (sc : serviceCache) (name namespace : string) : serviceCache * option ptr :=
  match GetServiceByName sc name namespace with
  | (sc, None) => (sc, None)
  | (sc, Some svc) =>
      if decide (svcReference (deref sc svc) = "") then (sc, None)
      else GetServiceByID sc (svcReference (deref sc svc))
  end.

(** [iterProc] threads a state; its results are whether to continue, and an error. *)
Section iterate.
  Context {S E : Type} (iterProc : S -> string -> ServiceModel -> S * bool * option E).
Fixpoint iterateServices (sc : serviceCache) (s : S) (data : list (string * ptr)) : serviceCache * S * option E :=
  match data with
  | [] => (sc, s, None)
  | (k, p) :: data =>
      let sc := fillServicePorts sc p in
      match iterProc s k (deref sc p) with
      | (s', _, Some err) => (sc, s', Some err)
      | (s', true, None) => iterateServices sc s' data
      | (s', false, None) => (sc, s', None)
      end
  end.
Definition IteratorServices (sc : serviceCache) (s : S) : serviceCache * S * option E :=
  iterateServices sc s (map_to_list (ids (tbl sc))).
End iterate.

End instances.

(** [clear]; the count of services stays as it was. *)
Definition clear (sc : serviceCache) : serviceCache :=
  mkSC (base_clear (base sc)) (objects sc) noTables ∅ (disableBusiness sc) (needMeta sc) (serviceCount sc) (lastCheckAllTime sc).

Definition CleanNamespace (sc : serviceCache) (namespace : string) : serviceCache :=
  set_tbl sc (set_names (tbl sc) (delete namespace (names (tbl sc)))).

Definition GetNamespaceCntInfo (sc : serviceCache) (namespace : string) : NamespaceServiceCount :=
  default noServices (namespaceServiceCnt sc !! namespace).

Definition GetServicesCount (sc : serviceCache) : Z := Z.of_nat (length (map_to_list (ids (tbl sc)))).

Definition ListServices (sc : serviceCache) (ns : string) : string * list ServiceModel :=
  prod_map id (fmap (deref sc)) (bucketListServices (serviceList (tbl sc)) ns).
Definition ListAllServices (sc : serviceCache) : string * list ServiceModel :=
  prod_map id (fmap (deref sc)) (bucketListAllServices (serviceList (tbl sc))).
Definition ListServiceAlias (sc : serviceCache) (namespace name : string) : list ServiceModel :=
  deref sc <$> getServiceAliases (alias (tbl sc)) namespace name.
Definition GetServiceByCl5Name (sc : serviceCache) (cl5Name : string) : option ptr :=
  cl5Names (tbl sc) !! genCl5Name cl5Name.

(** The instance cache's listener: the counts of these services are due. *)
Definition notifyServiceCountReload (sc : serviceCache) (svcIds : gset string) : serviceCache :=
  set_tbl sc (set_pending (tbl sc) (svcIds ∪ pendingServices (tbl sc))).

(** ** The boltdb store's answer ([src/store/boltdb/service.go]) *)

Definition SystemNamespace : string := "Polaris".

Definition isModifiedService (mtime : Z) (disableBusiness : bool) (row : ServiceModel) : bool :=
  if disableBusiness && negb (bool_decide (svcNamespace row = SystemNamespace)) then false
  else bool_decide (mtime <= svcModifyTime row).

Definition GetMoreServices (st : gmap string ServiceModel) (mtime : Z) (firstUpdate disableBusiness needMeta : bool) :
    gmap string ServiceModel :=
  filter (fun kv => isModifiedService mtime disableBusiness kv.2 = true) st.

(** [CountValues] leaves out the rows that are not valid. *)
Definition StoreServicesCount (st : gmap string ServiceModel) : Z :=
  u32 (Z.of_nat (size (filter (fun kv => svcValid kv.2 = true) st))).

(** ** What the tables show *)

Definition svcKey (s : ServiceModel) : string * string := (svcNamespace s, svcName s).

(** By id, by name, and in the lists of the namespaces. *)
Definition byID (t : tables) (k : string) : option ptr := ids t !! k.
Definition byName (t : tables) (k : string * string) : option ptr := names t !! k.1 ≫= lookup k.2.
Definition listed (t : tables) (k : string * string) : option ptr := sbNames (serviceList t) !! k.1 ≫= fun b => nbNames b !! k.2.

Lemma updateCl5_frame t p s :
  ids (updateCl5SidAndNames t p s) = ids t /\ names (updateCl5SidAndNames t p s) = names t /\
  serviceList (updateCl5SidAndNames t p s) = serviceList t /\ alias (updateCl5SidAndNames t p s) = alias t /\
  pendingServices (updateCl5SidAndNames t p s) = pendingServices t.
Proof. unfold updateCl5SidAndNames. by repeat case_match. Qed.

Lemma storeService_frame t p s :
  ids (storeService t p s) = <[svcID s := p]> (ids t) /\ serviceList (storeService t p s) = addService (serviceList t) p s /\
  names (storeService t p s) = <[svcNamespace s := <[svcName s := p]> (default ∅ (names t !! svcNamespace s))]> (names t) /\
  alias (storeService t p s) = alias t /\ pendingServices (storeService t p s) = pendingServices t.
Proof.
  unfold storeService. cbv zeta.
  match goal with |- context [updateCl5SidAndNames ?t p s] => destruct (updateCl5_frame t p s) as (-> & -> & -> & -> & ->) end. done.
Qed.

Lemma removeServices_frame t s :
  ids (removeServices t s) = delete (svcID s) (ids t) /\ serviceList (removeServices t s) = removeService (serviceList t) s /\
  names (removeServices t s) =
    match names t !! svcNamespace s with Some m => <[svcNamespace s := delete (svcName s) m]> (names t) | None => names t end /\
  alias (removeServices t s) = cleanServiceAlias (alias t) s /\ pendingServices (removeServices t s) = pendingServices t ∖ {[svcID s]}.
Proof. unfold removeServices. cbn. by repeat case_match. Qed.

(** What one row sets, under its own key. *)
Definition row_ptr (row : ptr * ServiceModel) : option ptr := if svcValid row.2 then Some row.1 else None.

(** Two-level maps, one cell at a time. *)
Lemma cell_insert {A} (m : gmap string (gmap string A)) a b (k : string * string) x :
  <[a := <[b := x]> (default ∅ (m !! a))]> m !! k.1 ≫= lookup k.2 = if decide (k = (a, b)) then Some x else m !! k.1 ≫= lookup k.2.
Proof.
  destruct k as [c d]. cbn [fst snd]. destruct (decide (c = a)) as [->|Hc].
  - rewrite lookup_insert_eq. cbn [mbind option_bind]. destruct (decide (d = b)) as [->|Hd].
    + by rewrite lookup_insert_eq, decide_True.
    + rewrite lookup_insert_ne, decide_False by congruence. by destruct (m !! a).
  - by rewrite lookup_insert_ne, decide_False by congruence.
Qed.

Lemma cell_delete {A} (m : gmap string (gmap string A)) a b (k : string * string) :
  match m !! a with Some v => <[a := delete b v]> m | None => m end !! k.1 ≫= lookup k.2 =
  if decide (k = (a, b)) then None else m !! k.1 ≫= lookup k.2.
Proof.
  destruct k as [c d]. cbn [fst snd]. destruct (m !! a) as [v|] eqn:Hv.
  - destruct (decide (c = a)) as [->|Hc].
    + rewrite lookup_insert_eq, Hv. cbn [mbind option_bind]. destruct (decide (d = b)) as [->|Hd].
      * by rewrite lookup_delete_eq, decide_True.
      * by rewrite lookup_delete_ne, decide_False by congruence.
    + by rewrite lookup_insert_ne, decide_False by congruence.
  - case_decide as Hk; [|done]. injection Hk as -> ->. by rewrite Hv.
Qed.

Lemma bucket_set (s : serviceNamespaceBucket) ns (f : gmap string ptr -> gmap string ptr) (k : string * string) rev :
  sbNames (mkNamespaceBucket (sbRevision s)
    (<[ns := mkNameBucket rev (f (nbNames (default emptyBucket (sbNames s !! ns))))]> (sbNames s))) !! k.1
    ≫= (fun b => nbNames b !! k.2) =
  if decide (k.1 = ns) then f (default ∅ (nbNames <$> sbNames s !! ns)) !! k.2
  else sbNames s !! k.1 ≫= fun b => nbNames b !! k.2.
Proof.
  cbn [sbNames]. case_decide as Hk.
  - subst ns. rewrite lookup_insert_eq. cbn. by destruct (sbNames s !! k.1).
  - by rewrite lookup_insert_ne.
Qed.

Lemma setService_byID st row k :
  byID (s_tbl (setService st row)) k = if decide (k = svcID row.2) then row_ptr row else byID (s_tbl st) k.
Proof.
  destruct row as [p s]. unfold setService, row_ptr, byID. cbn [fst snd].
  destruct (svcValid s); cbn [negb s_tbl].
  - rewrite (proj1 (storeService_frame _ p s)).
    case_decide; subst; by rewrite ?lookup_insert_eq, ?lookup_insert_ne.
  - rewrite (proj1 (removeServices_frame _ s)). case_decide; subst; by rewrite ?lookup_delete_eq, ?lookup_delete_ne.
Qed.

Lemma setService_byName st row k :
  byName (s_tbl (setService st row)) k = if decide (k = svcKey row.2) then row_ptr row else byName (s_tbl st) k.
Proof.
  destruct row as [p s]. unfold setService, row_ptr, byName, svcKey. cbn [fst snd].
  destruct (svcValid s); cbn [negb s_tbl].
  - destruct (storeService_frame (s_tbl st) p s) as (_ & _ & -> & _). apply cell_insert.
  - destruct (removeServices_frame (s_tbl st) s) as (_ & _ & -> & _). apply cell_delete.
Qed.

Lemma setService_listed st row k :
  listed (s_tbl (setService st row)) k = if decide (k = svcKey row.2) then row_ptr row else listed (s_tbl st) k.
Proof.
  destruct row as [p s]. unfold setService, row_ptr, listed, svcKey. destruct k as [c d]. cbn [fst snd].
  assert (forall (f : gmap string ptr -> gmap string ptr) o, (forall m, f m !! d = if decide (d = svcName s) then o else m !! d) ->
    (if decide (c = svcNamespace s) then f (default ∅ (nbNames <$> sbNames (serviceList (s_tbl st)) !! svcNamespace s)) !! d
     else sbNames (serviceList (s_tbl st)) !! c ≫= fun b => nbNames b !! d) =
    if decide ((c, d) = (svcNamespace s, svcName s)) then o else sbNames (serviceList (s_tbl st)) !! c ≫= fun b => nbNames b !! d) as Hf.
  { intros f o Hf. destruct (decide (c = svcNamespace s)) as [Hc|Hc]; [subst c; rewrite Hf; destruct (decide (d = svcName s)) as [Hd|Hd]|].
    - by rewrite decide_True by congruence.
    - rewrite (decide_False (P := (_, _) = _)) by congruence. by destruct (sbNames (serviceList (s_tbl st)) !! svcNamespace s).
    - by rewrite decide_False by congruence. }
  destruct (svcValid s); cbn [negb s_tbl].
  - destruct (storeService_frame (s_tbl st) p s) as (_ & -> & _). etrans; [|apply (Hf (fun m => <[svcName s := p]> m))].
    + exact (bucket_set (serviceList (s_tbl st)) (svcNamespace s) (fun m => <[svcName s := p]> m) (c, d) _).
    + intros m. case_decide; subst; by rewrite ?lookup_insert_eq, ?lookup_insert_ne.
  - destruct (removeServices_frame (s_tbl st) s) as (_ & -> & _ & _). etrans; [|apply (Hf (fun m => delete (svcName s) m))].
    + exact (bucket_set (serviceList (s_tbl st)) (svcNamespace s) (fun m => delete (svcName s) m) (c, d) _).
    + intros m. case_decide; subst; by rewrite ?lookup_delete_eq, ?lookup_delete_ne.
Qed.

(** The passes after the loop leave these tables alone. *)
Definition shown (t : tables) : (string -> option ptr) * (string * string -> option ptr) * (string * string -> option ptr) :=
  (byID t, byName t, listed t).

Lemma postProcessServiceAlias_frame objs t l :
  ids (postProcessServiceAlias objs t l) = ids t /\ names (postProcessServiceAlias objs t l) = names t /\
  serviceList (postProcessServiceAlias objs t l) = serviceList t /\ pendingServices (postProcessServiceAlias objs t l) = pendingServices t.
Proof.
  unfold postProcessServiceAlias. revert t. induction l as [|[p a] l IH]; intros t; [done|]. cbn [foldl].
  destruct (IH (postProcessAlias objs t (p, a))) as (-> & -> & -> & ->). unfold postProcessAlias. by case_match.
Qed.

Lemma reload_listed objs (s : serviceNamespaceBucket) (k : string * string) :
  sbNames (reloadRevision objs s) !! k.1 ≫= (fun b => nbNames b !! k.2) = sbNames s !! k.1 ≫= fun b => nbNames b !! k.2.
Proof. cbn [reloadRevision sbNames]. rewrite lookup_fmap. by destruct (sbNames s !! k.1). Qed.

(** The loop of [setServices] on the tables. *)
Definition loop (sc : serviceCache) (rows : list (ptr * ServiceModel)) : setting :=
  foldl setService (mkSetting (tbl sc) (Unix (LastMtime (base sc) ServiceName)) 0 0 ∅ (serviceCount sc) [] []) rows.

Lemma setServices_frame ic sc rows :
  let sc' := r_sc (setServices ic sc rows) in
  objects sc' = objects sc /\ base sc' = base sc /\ disableBusiness sc' = disableBusiness sc /\ needMeta sc' = needMeta sc /\
  lastCheckAllTime sc' = lastCheckAllTime sc /\
  (forall k, byID (tbl sc') k = byID (s_tbl (loop sc rows)) k) /\
  (forall k, byName (tbl sc') k = byName (s_tbl (loop sc rows)) k) /\
  (forall k, listed (tbl sc') k = listed (s_tbl (loop sc rows)) k).
Proof.
  cbv zeta. unfold setServices. case_decide as Hd; [by subst|]. fold (loop sc rows).
  unfold postProcessUpdatedServices, appendServiceCountChangeNamespace. cbn.
  destruct (postProcessServiceAlias_frame (objects sc) (s_tbl (loop sc rows)) (s_aliases (loop sc rows))) as (Hi & Hn & Hl & _).
  split_and!; try done; intros k.
  - unfold byID. cbn. by rewrite Hi.
  - unfold byName. cbn. by rewrite Hn.
  - unfold listed. etrans; [apply reload_listed|]. cbn. by rewrite Hl.
Qed.

Lemma setServices_notify ic sc rows :
  r_notify (setServices ic sc rows) = (fun row => mkNotify (svcID row.2) (svcValid row.2)) <$> rows.
Proof.
  unfold setServices. case_decide as Hd; [by subst|]. cbv zeta. cbn [r_notify].
  assert (forall st, s_notify (foldl setService st rows) = s_notify st ++ ((fun row => mkNotify (svcID row.2) (svcValid row.2)) <$> rows)) as ->; [|done].
  clear. induction rows as [|[p s] rows IH]; intros st; cbn [foldl]; [by rewrite app_nil_r|].
  rewrite IH. unfold setService. destruct (svcValid s) eqn:Hv; cbn; rewrite Hv, <- app_assoc; done.
Qed.

(** ** The invariant *)

(** What a reader sees through a pointer: the row, but for the ports it may have
    been given and for metadata that was nil. *)
Definition seesRow (row o : ServiceModel) : Prop :=
  svcID o = svcID row /\ svcName o = svcName row /\ svcNamespace o = svcNamespace row /\ svcRevision o = svcRevision row /\
  svcReference o = svcReference row /\ svcToken o = svcToken row /\ svcOwner o = svcOwner row /\ svcBusiness o = svcBusiness row /\
  svcComment o = svcComment row /\ svcDepartment o = svcDepartment row /\ svcCmdbMod1 o = svcCmdbMod1 row /\
  svcCmdbMod2 o = svcCmdbMod2 row /\ svcCmdbMod3 o = svcCmdbMod3 row /\ svcPlatformID o = svcPlatformID row /\
  svcCreateTime o = svcCreateTime row /\ svcModifyTime o = svcModifyTime row /\
  (svcPorts row <> "" -> svcPorts o = svcPorts row) /\ default ∅ (svcMeta o) = default ∅ (svcMeta row).

Lemma seesRow_refl r : seesRow r r.
Proof. by unfold seesRow; split_and!. Qed.

(** A change of an object that readers may make. *)
Definition harmless (f : ServiceModel -> ServiceModel) : Prop := forall r o, seesRow r o -> seesRow r (f o).

Lemma fillPorts_harmless ic : harmless (fillPorts ic).
Proof.
  intros r o Hr. unfold fillPorts. repeat case_decide; try done. unfold seesRow in *. cbn.
  destruct Hr as (?&?&?&?&?&?&?&?&?&?&?&?&?&?&?&?&Hp&?). split_and!; try done. intros Hne. pose proof (Hp Hne). congruence.
Qed.

Definition points (sc : serviceCache) (p : ptr) (row : ServiceModel) : Prop :=
  exists o, objects sc !! p = Some o /\ seesRow row o.

Lemma points_deref sc p row : points sc p row -> seesRow row (deref sc p).
Proof. intros (o & Ho & Hs). unfold deref. by rewrite (list_lookup_total_correct _ _ _ Ho). Qed.

Lemma points_alter sc f p q row : harmless f -> points sc q row -> points (set_objects sc (alter f p (objects sc))) q row.
Proof.
  intros Hf (o & Ho & Hs). unfold points. cbn [objects set_objects]. destruct (decide (p = q)) as [->|Hne].
  - exists (f o). split; [|by apply Hf]. by rewrite list_lookup_alter_eq, Ho.
  - exists o. split; [|done]. by rewrite list_lookup_alter_ne.
Qed.

(** The store keeps its rows by id, and a name has one row. *)
Definition store_ok (st : gmap string ServiceModel) : Prop :=
  map_Forall (fun k r => svcID r = k) st /\
  forall i j r r', st !! i = Some r -> st !! j = Some r' -> svcKey r = svcKey r' -> i = j.

Section table.
  Context {K : Type} (kof : ServiceModel -> K) (obs : K -> option ptr).

(** The table shows every valid row under its key, and no row that is deleted. *)
Definition shows (sc : serviceCache) (st : gmap string ServiceModel) : Prop :=
  forall i r, st !! i = Some r ->
    if svcValid r then exists p, obs (kof r) = Some p /\ points sc p r else obs (kof r) = None.

(** It shows nothing else. *)
Definition exact (st : gmap string ServiceModel) : Prop :=
  forall k p, obs k = Some p -> exists i r, st !! i = Some r /\ kof r = k.

End table.

(** What changed in the store since the last fetch is stamped no earlier than
    [t], a service keeps its name, and a row disappears when it is deleted or
    when the name is created again. *)
Definition written (t : Z) (st st' : gmap string ServiceModel) : Prop :=
  forall i, st' !! i = st !! i \/
    (exists r', st' !! i = Some r' /\ t <= svcModifyTime r' /\ forall r, st !! i = Some r -> svcKey r = svcKey r') \/
    (st' !! i = None /\ forall r, st !! i = Some r -> svcValid r = false \/ exists j r', st' !! j = Some r' /\ svcKey r' = svcKey r).

Section update_table.
  Context {K : Type} `{EqDecision K} (kof : ServiceModel -> K) (obs obs' : K -> option ptr).
  Context (sc sc' : serviceCache) (st st' : gmap string ServiceModel) (t : Z) (rows : list (ptr * ServiceModel)).
  Hypothesis Hone : forall i j r r', st' !! i = Some r -> st' !! j = Some r' -> kof r = kof r' -> i = j.
  Hypothesis Hobjs : forall p o, objects sc !! p = Some o -> objects sc' !! p = Some o.
  Hypothesis Hrows : Forall (fun row => objects sc' !! row.1 = Some row.2) rows.
  Hypothesis Hgot : forall r, r ∈ rows.*2 <-> exists i, st' !! i = Some r /\ t <= svcModifyTime r.
  Hypothesis Hnotin : forall k, k ∉ (fun row => kof row.2) <$> rows -> obs' k = obs k.
  Hypothesis Hin : forall row, row ∈ rows -> obs' (kof row.2) = row_ptr row.
  Hypothesis Hw : written t st st'.

Lemma update_shows : shows kof obs sc st -> shows kof obs' sc' st'.
Proof.
  intros Hs i r Hr. destruct (decide (r ∈ rows.*2)) as [Hf|Hf].
  - apply list_elem_of_fmap in Hf as ([p s] & -> & Hrow). cbn [snd] in *. pose proof (Hin _ Hrow) as Ho. unfold row_ptr in Ho. cbn in Ho.
    rewrite Forall_forall in Hrows. pose proof (Hrows _ Hrow) as Hp. cbn in Hp.
    destruct (svcValid s); [|done]. exists p. split; [done|]. exists s. split; [done|apply seesRow_refl].
  - assert (kof r ∉ (fun row => kof row.2) <$> rows) as Hk.
    { intros (row & He & Hrow)%list_elem_of_fmap. assert (row.2 ∈ rows.*2) as Hg by (apply list_elem_of_fmap; eauto).
      apply Hgot in Hg as (j & Hj & Ht). assert (i = j) as -> by (eapply Hone; [done..|by rewrite He]).
      apply Hf, Hgot. exists j. split; [done|]. congruence. }
    rewrite (Hnotin _ Hk). destruct (Hw i) as [He|[(r' & Hr' & Ht & _)|(Hn & _)]]; [| |congruence].
    + rewrite Hr in He. specialize (Hs i r (eq_sym He)). destruct (svcValid r); [|done].
      destruct Hs as (p & Hp & o & Ho & Hso). exists p. split; [done|]. exists o. split; [by apply Hobjs|done].
    + destruct Hf. apply Hgot. exists i. split; [done|]. congruence.
Qed.

Lemma update_exact :
  (forall r r', svcKey r = svcKey r' -> kof r = kof r') ->
  shows kof obs sc st -> exact kof obs st -> exact kof obs' st'.
Proof.
  intros Hkey Hs He k p Hp. destruct (decide (k ∈ (fun row => kof row.2) <$> rows)) as [Hk|Hk].
  - apply list_elem_of_fmap in Hk as (row & -> & Hrow). assert (row.2 ∈ rows.*2) as Hg by (apply list_elem_of_fmap; eauto).
    apply Hgot in Hg as (j & Hj & _). by exists j, row.2.
  - rewrite (Hnotin _ Hk) in Hp. destruct (He _ _ Hp) as (i & r & Hr & Hkr).
    destruct (Hw i) as [Hsame|[(r' & Hr' & _ & Hren)|(_ & Hgone)]].
    + exists i, r. split; [congruence|done].
    + exists i, r'. split; [done|]. rewrite <- Hkr. symmetry. apply Hkey, Hren, Hr.
    + destruct (Hgone _ Hr) as [Hv|(j & r' & Hr' & Hk')].
      * specialize (Hs _ _ Hr). rewrite Hv, Hkr in Hs. congruence.
      * exists j, r'. split; [done|]. rewrite <- Hkr. by apply Hkey.
Qed.

End update_table.

(** *** One update *)

Lemma allocate_rows sc services :
  (allocate sc services).2.*2 = services /\
  Forall (fun row => (objects sc ++ services) !! row.1 = Some row.2) (allocate sc services).2.
Proof.
  unfold allocate. cbn [snd]. split.
  - rewrite fmap_imap. cbn. rewrite (imap_ext _ (fun _ s => s)) by done. clear. induction services; cbn; [done|]. by f_equal.
  - apply Forall_forall. intros row (i & Hi)%list_elem_of_lookup. rewrite list_lookup_imap in Hi.
    apply fmap_Some in Hi as (s & Hs & ->). cbn [fst snd]. rewrite lookup_app_r by lia. by replace (length (objects sc) + i - length (objects sc))%nat with i by lia.
Qed.

Lemma keys_of_rows {K} (kof : ServiceModel -> K) (rows : list (ptr * ServiceModel)) :
  (fun row => kof row.2) <$> rows = kof <$> rows.*2.
Proof. by rewrite <- list_fmap_compose. Qed.

(** Fetched rows, one per key. *)
Lemma fetched_NoDup {K} (kof : ServiceModel -> K) (got : gmap string ServiceModel) rows :
  (forall i j r r', got !! i = Some r -> got !! j = Some r' -> kof r = kof r' -> i = j) ->
  rows ≡ₚ (map_to_list got).*2 -> NoDup (kof <$> rows).
Proof.
  intros Hone ->. rewrite <- list_fmap_compose. apply NoDup_fmap_2_strong; [|apply NoDup_map_to_list].
  intros [i r] [j r'] Hi%elem_of_map_to_list Hj%elem_of_map_to_list Hk. cbn in Hk.
  assert (i = j) as -> by (by eapply Hone). congruence.
Qed.

Lemma checkAll_frame sc now count :
  objects (checkAll sc now count) = objects sc /\ tbl (checkAll sc now count) = tbl sc /\
  disableBusiness (checkAll sc now count) = disableBusiness sc /\ serviceCount (checkAll sc now count) = serviceCount sc /\
  namespaceServiceCnt (checkAll sc now count) = namespaceServiceCnt sc.
Proof. unfold checkAll. case_decide; [done|]. by destruct count as [n|]; [case_decide|]. Qed.

Lemma update_frame ic sc a :
  let sc' := (update ic sc a).1 in
  disableBusiness sc' = disableBusiness sc /\
  match a_rows a with
  | None => objects sc' = objects sc /\ tbl sc' = tbl sc /\ namespaceServiceCnt sc' = namespaceServiceCnt sc
  | Some services =>
      objects sc' = objects sc ++ services /\
      tbl sc' = tbl (r_sc (setServices ic (allocate sc services).1 (allocate sc services).2)) /\
      namespaceServiceCnt sc' = namespaceServiceCnt (r_sc (setServices ic (allocate sc services).1 (allocate sc services).2))
  end.
Proof.
  cbv zeta. unfold update, realUpdate. destruct (a_rows a) as [services|].
  - destruct (allocate sc services) as [sc1 rows] eqn:Hal. cbn [fst snd].
    match goal with |- context [checkAll ?s ?n ?c] => destruct (checkAll_frame s n c) as (-> & -> & -> & _ & ->) end.
    destruct (setServices_frame ic sc1 rows) as (Ho & _ & Hb & _). cbn [set_base objects tbl disableBusiness].
    unfold allocate in Hal. injection Hal as <- <-. by rewrite Ho, Hb.
  - cbn [fst]. match goal with |- context [checkAll ?s ?n ?c] => destruct (checkAll_frame s n c) as (-> & -> & -> & _ & ->) end. done.
Qed.

Lemma update_notify ic sc a :
  (update ic sc a).2 = (fun s => mkNotify (svcID s) (svcValid s)) <$> default [] (a_rows a).
Proof.
  unfold update, realUpdate. destruct (a_rows a) as [services|]; [|done].
  destruct (allocate sc services) as [sc1 rows] eqn:Hal. cbn [snd default]. rewrite setServices_notify.
  rewrite (keys_of_rows (fun s => mkNotify (svcID s) (svcValid s))).
  pose proof (proj1 (allocate_rows sc services)) as Hr. rewrite Hal in Hr. cbn in Hr. by rewrite Hr.
Qed.

(** A table that each row sets under its own key goes on agreeing with the store. *)
Lemma table_update {K} `{EqDecision K} (kof : ServiceModel -> K) (obs : tables -> K -> option ptr) :
  (forall st row k, obs (s_tbl (setService st row)) k = if decide (k = kof row.2) then row_ptr row else obs (s_tbl st) k) ->
  forall (sc sc' sc1 : serviceCache) st st' t rows,
  tbl sc1 = tbl sc -> (forall k, obs (tbl sc') k = obs (s_tbl (loop sc1 rows)) k) ->
  NoDup ((fun row => kof row.2) <$> rows) ->
  (forall i j r r', st' !! i = Some r -> st' !! j = Some r' -> kof r = kof r' -> i = j) ->
  (forall p o, objects sc !! p = Some o -> objects sc' !! p = Some o) ->
  Forall (fun row => objects sc' !! row.1 = Some row.2) rows ->
  (forall r, r ∈ rows.*2 <-> exists i, st' !! i = Some r /\ t <= svcModifyTime r) ->
  written t st st' ->
  (shows kof (obs (tbl sc)) sc st -> shows kof (obs (tbl sc')) sc' st') /\
  ((forall r r', svcKey r = svcKey r' -> kof r = kof r') ->
   shows kof (obs (tbl sc)) sc st -> exact kof (obs (tbl sc)) st -> exact kof (obs (tbl sc')) st').
Proof.
  intros Hstep sc sc' sc1 st st' t rows Ht Hobs Hnd Hone Hobjs Hrows Hgot Hw.
  assert (forall k, k ∉ (fun row => kof row.2) <$> rows -> obs (tbl sc') k = obs (tbl sc) k) as Hni.
  { intros k Hk. rewrite Hobs, <- Ht. apply (foldl_rows_notin setService (fun s => obs (s_tbl s)) (fun row => kof row.2)); [|done].
    intros s r Hd. by rewrite Hstep, decide_False. }
  assert (forall row, row ∈ rows -> obs (tbl sc') (kof row.2) = row_ptr row) as Hin.
  { intros row Hrow. rewrite Hobs. apply (foldl_rows_in setService (fun s => obs (s_tbl s)) (fun row => kof row.2) row_ptr); try done.
    - intros s r k Hd. by rewrite Hstep, decide_False.
    - intros s r. by rewrite Hstep, decide_True. }
  split; [by eapply update_shows|by eapply update_exact].
Qed.

(** The revision of a namespace's list is computed from the services in it, and
    the one of all services from those. *)
Definition revisions_ok (sc : serviceCache) : Prop :=
  map_Forall (fun _ b => nbRevisions b = CompositeComputeRevision ((fun p => svcRevision (deref sc p)) <$> (map_to_list (nbNames b)).*2))
    (sbNames (serviceList (tbl sc))) /\
  (sbRevision (serviceList (tbl sc)) = CompositeComputeRevision (nbRevisions <$> (map_to_list (sbNames (serviceList (tbl sc)))).*2) \/
   serviceList (tbl sc) = newServiceNamespaceBucket).

Lemma reload_revisions_ok objs s :
  map_Forall (fun _ b => nbRevisions b = CompositeComputeRevision ((fun p => svcRevision (objs !!! p)) <$> (map_to_list (nbNames b)).*2))
    (sbNames (reloadRevision objs s)).
Proof.
  intros ns b. cbn [reloadRevision sbNames]. rewrite lookup_fmap. intros (b' & Hb & ->)%fmap_Some. done.
Qed.

Lemma setServices_revisions ic sc rows :
  rows <> [] -> revisions_ok (r_sc (setServices ic sc rows)).
Proof.
  intros Hne. unfold setServices. rewrite decide_False by done. fold (loop sc rows). cbv zeta. cbn [r_sc].
  unfold revisions_ok, deref. cbn [tbl set_tbl serviceList set_serviceList objects].
  split; [apply reload_revisions_ok|by left].
Qed.

Section follow.
  Context (DefaultTimeDiff : Z).
  #[local] Abbreviation fetchTime := (fetchTime DefaultTimeDiff).

(** What the cache and the store agree on. *)
Record agrees (sc : serviceCache) (st : gmap string ServiceModel) : Prop := {
  ag_store : store_ok st;
  ag_ids : shows svcID (byID (tbl sc)) sc st;
  ag_names : shows svcKey (byName (tbl sc)) sc st;
  ag_names_exact : exact svcKey (byName (tbl sc)) st;
  ag_list : shows svcKey (listed (tbl sc)) sc st;
  ag_list_exact : exact svcKey (listed (tbl sc)) st;
  ag_revisions : revisions_ok sc }.

Lemma agrees_empty sc : tbl sc = noTables -> agrees sc ∅.
Proof.
  intros Ht. split; rewrite ?Ht.
  - split; [apply map_Forall_empty|]. intros i j r r' Hr. by rewrite lookup_empty in Hr.
  - intros i r Hr. by rewrite lookup_empty in Hr.
  - intros i r Hr. by rewrite lookup_empty in Hr.
  - intros k p. unfold byName. cbn. by rewrite lookup_empty.
  - intros i r Hr. by rewrite lookup_empty in Hr.
  - intros k p. unfold listed. cbn. by rewrite lookup_empty.
  - split; rewrite Ht; [apply map_Forall_empty|by right].
Qed.

(** What a cache that leaves business services out sees of a store. *)
Definition business (b : bool) (st : gmap string ServiceModel) : gmap string ServiceModel :=
  filter (fun kv => b = true -> svcNamespace kv.2 = SystemNamespace) st.

Lemma GetMoreServices_elem st t first b m r :
  r ∈ (map_to_list (GetMoreServices st t first b m)).*2 <-> exists i, business b st !! i = Some r /\ t <= svcModifyTime r.
Proof.
  rewrite list_elem_of_fmap. setoid_rewrite map_lookup_filter_Some. split.
  - intros ([i s] & -> & [Hs Hm]%elem_of_map_to_list%map_lookup_filter_Some). exists i. cbn in *.
    unfold isModifiedService in Hm. destruct b; [case_bool_decide; cbn in Hm; [|done]|]; by apply bool_decide_eq_true in Hm.
  - intros (i & [Hs Hb] & Ht). exists (i, r). split; [done|]. apply elem_of_map_to_list, map_lookup_filter_Some. split; [done|].
    cbn in *. unfold isModifiedService. destruct b; [rewrite (bool_decide_true (_ = _)) by auto; cbn|cbn]; by apply bool_decide_eq_true.
Qed.

Lemma update_agrees ic sc st full a rows :
  let st' := business (disableBusiness sc) full in
  agrees sc st -> store_ok st' -> written (fetchTime sc) st st' -> a_rows a = Some rows ->
  rows ≡ₚ (map_to_list (GetMoreServices full (fetchTime sc) (isFirstUpdate sc) (disableBusiness sc) (needMeta sc))).*2 ->
  agrees (update ic sc a).1 st'.
Proof.
  cbv zeta. set (st' := business _ full). intros [Hst Hi Hn Hne Hl Hle Hr] Hst' Hw Ha Hrows.
  destruct (update_frame ic sc a) as [_ Hf]. rewrite Ha in Hf. destruct Hf as (Ho & Ht & _).
  destruct (allocate_rows sc rows) as [Hsnd Hall].
  destruct (setServices_frame ic (allocate sc rows).1 (allocate sc rows).2) as (Eo & _ & _ & _ & _ & Ei & En & El).
  set (sc1 := (allocate sc rows).1) in *. set (ps := (allocate sc rows).2) in *. rewrite <- Ht in Ei, En, El.
  assert (forall r, r ∈ ps.*2 <-> exists i, st' !! i = Some r /\ fetchTime sc <= svcModifyTime r) as Hgot
    by (intros r; rewrite Hsnd, Hrows; apply GetMoreServices_elem).
  assert (forall p o, objects sc !! p = Some o -> objects (update ic sc a).1 !! p = Some o) as Hobjs
    by (intros p o Hp; rewrite Ho; by apply lookup_app_l_Some).
  rewrite <- Ho in Hall.
  assert (forall i j r r', st' !! i = Some r -> st' !! j = Some r' -> svcID r = svcID r' -> i = j) as Hone
    by (intros i j r r' H1 H2; by rewrite (proj1 Hst' _ _ H1), (proj1 Hst' _ _ H2)).
  assert (forall i r, GetMoreServices full (fetchTime sc) (isFirstUpdate sc) (disableBusiness sc) (needMeta sc) !! i = Some r -> st' !! i = Some r) as Hsub.
  { intros i r [Hi' Hm]%map_lookup_filter_Some. apply map_lookup_filter_Some. split; [done|]. cbn in *. intros Hb.
    unfold isModifiedService in Hm. rewrite Hb in Hm. by case_bool_decide. }
  assert (NoDup ((fun row => svcID row.2) <$> ps) /\ NoDup ((fun row => svcKey row.2) <$> ps)) as [Nd1 Nd2].
  { rewrite !keys_of_rows, Hsnd. split; (eapply fetched_NoDup; [|exact Hrows]); intros i j r r' H1%Hsub H2%Hsub; [by eapply Hone|by eapply Hst']. }
  destruct (table_update svcID byID setService_byID sc (update ic sc a).1 sc1 st st' (fetchTime sc) ps) as [Hi' _]; [done..|].
  destruct (table_update svcKey byName setService_byName sc (update ic sc a).1 sc1 st st' (fetchTime sc) ps) as [Hn' Hne']; [try done; apply Hst'..|].
  destruct (table_update svcKey listed setService_listed sc (update ic sc a).1 sc1 st st' (fetchTime sc) ps) as [Hl' Hle']; [try done; apply Hst'..|].
  split; [done|by apply Hi'|by apply Hn'|by apply Hne'|by apply Hl'|by apply Hle'|].
  unfold revisions_ok in *. rewrite Ht. unfold deref. rewrite Ho. destruct (decide (rows = [])) as [->|Hr0].
  - unfold setServices. rewrite decide_True by done. cbn. by rewrite app_nil_r.
  - assert (ps <> []) as Hps by (intros He; apply Hr0; by rewrite <- Hsnd, He).
    pose proof (setServices_revisions ic sc1 ps Hps) as Hrev. unfold revisions_ok, deref in Hrev. by rewrite Eo in Hrev.
Qed.

Lemma harmless_revision f : harmless f -> forall o, svcRevision (f o) = svcRevision o.
Proof. intros Hf o. apply (Hf o o (seesRow_refl o)). Qed.

(** Readers' changes of an object. *)
Lemma alter_agrees sc st f p : harmless f -> agrees sc st -> agrees (set_objects sc (alter f p (objects sc))) st.
Proof.
  intros Hf [Hst Hi Hn Hne Hl Hle [Hr1 Hr2]].
  assert (forall K (kof : ServiceModel -> K) obs, shows kof obs sc st -> shows kof obs (set_objects sc (alter f p (objects sc))) st) as Hs.
  { intros K kof obs H i r Hr. specialize (H i r Hr). destruct (svcValid r); [|done]. destruct H as (q & Hq & Ho). exists q. split; [done|]. by apply points_alter. }
  split; auto. split; [|done]. cbn [tbl set_objects]. intros ns b Hb. rewrite (Hr1 ns b Hb). f_equal. apply list_fmap_ext. intros _ q _.
  unfold deref. cbn [objects set_objects]. rewrite !list_lookup_total_alt. destruct (decide (p = q)) as [->|Hpq].
  - rewrite list_lookup_alter_eq. destruct (objects sc !! q); cbn; [by rewrite harmless_revision|done].
  - by rewrite list_lookup_alter_ne.
Qed.

(** A cache in use: it is updated, successfully or not, read - a reader may change
    an object -, told of instances, cleared and freed of an empty namespace.
    [follows b sc st]: the last successful fetch of [sc] saw the store [st]. *)
Inductive follows (b : bool) : serviceCache -> gmap string ServiceModel -> Prop :=
| follows_new nm : follows b (newServiceCache b nm) ∅
| follows_update ic sc st full a rows :
    follows b sc st -> store_ok (business b full) -> written (fetchTime sc) st (business b full) -> a_rows a = Some rows ->
    rows ≡ₚ (map_to_list (GetMoreServices full (fetchTime sc) (isFirstUpdate sc) (disableBusiness sc) (needMeta sc))).*2 ->
    follows b (update ic sc a).1 (business b full)
| follows_failed ic sc st a : follows b sc st -> a_rows a = None -> follows b (update ic sc a).1 st
| follows_read sc st f p : follows b sc st -> harmless f -> follows b (set_objects sc (alter f p (objects sc))) st
| follows_notify sc st svcs : follows b sc st -> follows b (notifyServiceCountReload sc svcs) st
| follows_clear sc st : follows b sc st -> follows b (clear sc) ∅
| follows_clean sc st ns :
    follows b sc st -> (forall i r, st !! i = Some r -> svcNamespace r = ns -> svcValid r = false) ->
    follows b (CleanNamespace sc ns) st.

Lemma byName_clean sc ns k : byName (tbl (CleanNamespace sc ns)) k = if decide (k.1 = ns) then None else byName (tbl sc) k.
Proof. unfold byName. cbn. case_decide; subst; by rewrite ?lookup_delete_eq, ?lookup_delete_ne. Qed.

Lemma follows_agrees b sc st : follows b sc st -> disableBusiness sc = b /\ agrees sc st.
Proof.
  induction 1 as [nm|ic sc st full a rows _ [Hb IH] Hst Hw Ha Hr|ic sc st a _ [Hb IH] Ha|sc st f p _ [Hb IH] Hf|sc st svcs _ [Hb IH]
    |sc st _ [Hb IH]|sc st ns _ [Hb IH] Hns].
  - split; [done|]. by apply agrees_empty.
  - split; [by rewrite (proj1 (update_frame ic sc a))|]. rewrite <- Hb in *. by eapply update_agrees.
  - destruct (update_frame ic sc a) as [Hd Hf]. rewrite Ha in Hf. destruct Hf as (Ho & Ht & _). split; [by rewrite Hd|].
    destruct IH as [Hst Hi Hn Hne Hl Hle Hr]. split; rewrite ?Ht; try done; unfold revisions_ok, deref, shows, points in *; by rewrite ?Ht, ?Ho.
  - split; [done|]. by apply alter_agrees.
  - split; [done|]. by destruct IH.
  - split; [done|]. by apply agrees_empty.
  - split; [done|]. destruct IH as [Hst Hi Hn Hne Hl Hle Hr]. split; try done.
    + intros i r Hi'. rewrite byName_clean. specialize (Hn i r Hi'). case_decide as Hk; [|done]. by rewrite (Hns _ _ Hi' Hk).
    + intros k p. rewrite byName_clean. case_decide; [done|]. apply Hne.
Qed.

End follow.

(** ** Queries *)

Lemma GetServiceByName_spec ic sc st name namespace :
  agrees sc st -> name <> "" -> namespace <> "" ->
  agrees (GetServiceByName ic sc name namespace).1 st /\
  match (GetServiceByName ic sc name namespace).2 with
  | Some p => exists i r, st !! i = Some r /\ svcValid r = true /\ svcKey r = (namespace, name) /\ points (GetServiceByName ic sc name namespace).1 p r
  | None => forall i r, st !! i = Some r -> svcKey r = (namespace, name) -> svcValid r = false
  end.
Proof.
  intros Hag Hn Hns. unfold GetServiceByName. rewrite decide_False by tauto.
  assert (byName (tbl sc) (namespace, name) = names (tbl sc) !! namespace ≫= lookup name) as Hb by done.
  destruct (byName (tbl sc) (namespace, name)) as [p|] eqn:Hp.
  - destruct (names (tbl sc) !! namespace) as [spaces|]; [|done]. cbn in Hb. rewrite <- Hb. cbn [fst snd].
    split; [apply alter_agrees; [apply fillPorts_harmless|done]|].
    destruct Hag as [Hst _ Hs He _ _ _]. destruct (He _ _ Hp) as (i & r & Hr & Hk). specialize (Hs i r Hr). rewrite Hk, Hp in Hs.
    destruct (svcValid r) eqn:Hv; [|done]. destruct Hs as (q & [= <-] & Hq). exists i, r. split_and!; [done..|].
    apply points_alter; [apply fillPorts_harmless|done].
  - assert (forall i r, st !! i = Some r -> svcKey r = (namespace, name) -> svcValid r = false) as Hnone.
    { intros i r Hr Hk. pose proof (ag_names _ _ Hag i r Hr) as Hs. rewrite Hk, Hp in Hs. destruct (svcValid r); [by destruct Hs as (? & ? & _)|done]. }
    destruct (names (tbl sc) !! namespace) as [spaces|]; [cbn in Hb; rewrite <- Hb|]; done.
Qed.

Lemma GetServiceByID_spec ic sc st id r :
  agrees sc st -> id <> "" -> st !! id = Some r ->
  agrees (GetServiceByID ic sc id).1 st /\
  match (GetServiceByID ic sc id).2 with
  | Some p => svcValid r = true /\ points (GetServiceByID ic sc id).1 p r
  | None => svcValid r = false
  end.
Proof.
  intros Hag Hid Hr. unfold GetServiceByID. rewrite decide_False by done.
  pose proof (ag_ids _ _ Hag id r Hr) as Hs. rewrite (proj1 (ag_store _ _ Hag) _ _ Hr) in Hs. unfold byID in Hs.
  destruct (ids (tbl sc) !! id) as [p|]; cbn [fst snd].
  - split; [apply alter_agrees; [apply fillPorts_harmless|done]|]. destruct (svcValid r); [|done].
    destruct Hs as (q & [= <-] & Hq). split; [done|]. apply points_alter; [apply fillPorts_harmless|done].
  - split; [done|]. destruct (svcValid r); [by destruct Hs as (? & ? & _)|done].
Qed.

(** The services a namespace's list holds. *)
Lemma ListServices_spec sc st ns s :
  agrees sc st ->
  (s ∈ (ListServices sc ns).2 -> exists i r, st !! i = Some r /\ svcValid r = true /\ svcNamespace r = ns /\ seesRow r s) /\
  (forall i r, st !! i = Some r -> svcValid r = true -> svcNamespace r = ns -> exists s, s ∈ (ListServices sc ns).2 /\ seesRow r s).
Proof.
  intros Hag. unfold ListServices, bucketListServices. split.
  - destruct (sbNames (serviceList (tbl sc)) !! ns) as [b|] eqn:Hb; [|intros []%not_elem_of_nil]. cbn [prod_map snd].
    intros (p & -> & Hp)%list_elem_of_fmap. apply list_elem_of_fmap in Hp as ([n q] & -> & Hq%elem_of_map_to_list). cbn [snd].
    assert (listed (tbl sc) (ns, n) = Some q) as Hl by (unfold listed; cbn; by rewrite Hb).
    destruct (ag_list_exact _ _ Hag _ _ Hl) as (i & r & Hr & Hk). pose proof (ag_list _ _ Hag i r Hr) as Hs. rewrite Hk, Hl in Hs.
    injection Hk as Hns Hn. destruct (svcValid r) eqn:Hv; [|done]. destruct Hs as (p & [= <-] & Hp). exists i, r. split_and!; [done..|]. by apply points_deref.
  - intros i r Hr Hv Hns. pose proof (ag_list _ _ Hag i r Hr) as Hs. rewrite Hv in Hs. destruct Hs as (p & Hp & Hpt).
    unfold listed, svcKey in Hp. cbn [fst snd] in Hp. rewrite Hns in Hp.
    destruct (sbNames (serviceList (tbl sc)) !! ns) as [b|]; [|done]. cbn in Hp. cbn [prod_map snd].
    exists (deref sc p). split; [|by apply points_deref]. apply list_elem_of_fmap. exists p. split; [done|].
    apply list_elem_of_fmap. exists (svcName r, p). split; [done|]. by apply elem_of_map_to_list.
Qed.

Lemma ListServices_revision sc st ns :
  agrees sc st -> (ListServices sc ns).1 = "" \/ (ListServices sc ns).1 = CompositeComputeRevision (svcRevision <$> (ListServices sc ns).2).
Proof.
  intros Hag. unfold ListServices, bucketListServices. destruct (sbNames (serviceList (tbl sc)) !! ns) as [b|] eqn:Hb; [right|by left].
  cbn [prod_map fst snd id]. destruct (ag_revisions _ _ Hag) as [H _]. rewrite (H _ _ Hb). f_equal. apply (list_fmap_compose (deref sc) svcRevision).
Qed.

(** ** Counts *)

Lemma countNamespace_lookup ic objs t cnt l ns :
  foldl (countNamespace ic objs t) cnt l !! ns =
  if decide (ns ∈ l) then (fun value => foldl (countOne ic objs) noServices (map_to_list value).*2) <$> names t !! ns else cnt !! ns.
Proof.
  revert cnt. induction l as [|x l IH]; intros cnt; cbn [foldl]; [by rewrite decide_False by set_solver|].
  rewrite IH. destruct (decide (ns ∈ l)) as [Hin|Hin]; [by rewrite decide_True by set_solver|].
  unfold countNamespace. destruct (decide (ns = x)) as [->|Hne].
  - rewrite decide_True by set_solver. destruct (names t !! x); by rewrite ?lookup_delete_eq, ?lookup_insert_eq.
  - rewrite decide_False by set_solver. destruct (names t !! x); by rewrite ?lookup_delete_ne, ?lookup_insert_ne.
Qed.

Definition total (l : list Z) : Z := foldr Z.add 0 l.

Lemma total_nonneg l : Forall (fun z => 0 <= z) l -> 0 <= total l.
Proof. unfold total. induction 1; cbn; lia. Qed.

Lemma countOne_spec ic objs l c :
  let counts := (fun p => GetInstancesCountByServiceID ic (svcID (objs !!! p))) <$> l in
  Forall (fun n => 0 <= HealthyInstanceCount n <= TotalInstanceCount n) counts ->
  0 <= ServiceCount c -> 0 <= nsTotalInstanceCount c -> 0 <= nsHealthyInstanceCount c <= nsTotalInstanceCount c ->
  ServiceCount c + Z.of_nat (length l) < 2 ^ 32 -> nsTotalInstanceCount c + total (TotalInstanceCount <$> counts) < 2 ^ 32 ->
  foldl (countOne ic objs) c l =
    mkNsCount (ServiceCount c + Z.of_nat (length l)) (nsTotalInstanceCount c + total (TotalInstanceCount <$> counts))
      (nsHealthyInstanceCount c + total (HealthyInstanceCount <$> counts)).
Proof.
  cbv zeta. revert c. induction l as [|p l IH]; intros [a b n] Hpos H1 H2 H3 H4 H5; cbn [foldl length].
  { cbn. by rewrite !Z.add_0_r. }
  rewrite !fmap_cons in *. cbn [length total foldr] in *. inversion Hpos as [|? ? Hp Hl]; subst.
  set (k := GetInstancesCountByServiceID ic (svcID (objs !!! p))) in *. cbn [ServiceCount nsTotalInstanceCount nsHealthyInstanceCount] in *.
  assert (0 <= total (TotalInstanceCount <$> ((fun p => GetInstancesCountByServiceID ic (svcID (objs !!! p))) <$> l))) as Ht.
  { apply total_nonneg. rewrite Forall_fmap. eapply Forall_impl; [exact Hl|]. cbn. lia. }
  assert (forall z, 0 <= z < 2 ^ 32 -> u32 z = z) as Hu by (intros; by apply wrap_u_small).
  unfold total in *. rewrite IH; unfold countOne; fold k; cbn [ServiceCount nsTotalInstanceCount nsHealthyInstanceCount];
    rewrite ?Hu by lia; try done; try lia. f_equal; lia.
Qed.

Lemma changed_namespaces rows st ns :
  ns ∈ s_changeNs st \/ (exists row, row ∈ rows /\ svcNamespace row.2 = ns) -> ns ∈ s_changeNs (foldl setService st rows).
Proof.
  revert st. induction rows as [|[p s] rows IH]; intros st Hns; cbn [foldl]; [destruct Hns as [|(? & []%not_elem_of_nil & _)]; done|].
  apply IH. assert (s_changeNs (setService st (p, s)) = {[svcNamespace s]} ∪ s_changeNs st) as -> by (unfold setService; by destruct (svcValid s)).
  destruct Hns as [Hns|(row & [->|Hrow]%elem_of_cons & Hns)]; [set_solver|cbn in Hns; set_solver|]. right. by exists row.
Qed.

Lemma setServices_counts ic sc rows ns :
  (exists row, row ∈ rows /\ svcNamespace row.2 = ns) ->
  let sc' := r_sc (setServices ic sc rows) in
  namespaceServiceCnt sc' !! ns =
    (fun value => foldl (countOne ic (objects sc')) noServices (map_to_list value).*2) <$> names (tbl sc') !! ns.
Proof.
  intros Hns. cbv zeta. unfold setServices. rewrite decide_False by (destruct Hns as (row & Hrow & _); by intros ->; apply not_elem_of_nil in Hrow).
  fold (loop sc rows). unfold postProcessUpdatedServices, appendServiceCountChangeNamespace. cbn.
  rewrite countNamespace_lookup, decide_True; [done|]. apply elem_of_elements, elem_of_union_r.
  by apply changed_namespaces; right.
Qed.

(** ** Properties *)

(** C4. The service cache follows the store: through any sequence of fetches, failed
    ones included, readers' changes of the shared objects, notifications, clearing
    and the cleaning of empty namespaces, interleaved with writes that are stamped
    no earlier than the next fetch and keep the names of services, a service is
    found by its name exactly when the store as the last successful fetch saw it has
    a valid row of that name; by an id that has a row there it is found exactly when
    that row is valid - nothing is said of an id whose row is gone, when the name
    was created again under another id -; what is found is the row (but for ports
    and metadata that it lacked), and the lists of a namespace hold exactly its
    valid rows. *)
Theorem service_cache_follows_store (DefaultTimeDiff : Z) (b : bool) (ic : instanceCache) (sc : serviceCache)
    (st : gmap string ServiceModel) (name namespace id : string) :
  follows DefaultTimeDiff b sc st -> name <> "" -> namespace <> "" -> id <> "" ->
  (let '(sc', found) := GetServiceByName ic sc name namespace in
   match found with
   | Some p => exists i r, st !! i = Some r /\ svcValid r = true /\ svcName r = name /\ svcNamespace r = namespace /\ seesRow r (deref sc' p)
   | None => forall i r, st !! i = Some r -> svcName r = name -> svcNamespace r = namespace -> svcValid r = false
   end) /\
  (forall r, st !! id = Some r ->
   let '(sc', found) := GetServiceByID ic sc id in
   match found with Some p => svcValid r = true /\ seesRow r (deref sc' p) | None => svcValid r = false end) /\
  (forall r, (exists s, s ∈ (ListServices sc namespace).2 /\ seesRow r s /\ exists i, st !! i = Some r) <->
    exists i, st !! i = Some r /\ svcValid r = true /\ svcNamespace r = namespace).
Proof.
  intros Hf Hn Hns Hid. destruct (follows_agrees _ _ _ _ Hf) as [_ Hag]. split_and!.
  - destruct (GetServiceByName_spec ic sc st name namespace Hag Hn Hns) as [_ Hs].
    destruct (GetServiceByName ic sc name namespace) as [sc' [p|]]; cbn [fst snd] in Hs.
    + destruct Hs as (i & r & Hr & Hv & [= Hk1 Hk2] & Hp). exists i, r. split_and!; try done. by apply points_deref.
    + intros i r Hr H1 H2. apply (Hs i r Hr). unfold svcKey. congruence.
  - intros r Hr. destruct (GetServiceByID_spec ic sc st id r Hag Hid Hr) as [_ Hs].
    destruct (GetServiceByID ic sc id) as [sc' [p|]]; cbn [fst snd] in Hs; [|done]. destruct Hs as [Hv Hp]. split; [done|]. by apply points_deref.
  - intros r. destruct (ag_store _ _ Hag) as [Hk _]. split.
    + intros (s & Hs & Hsr & i & Hr). destruct (ListServices_spec sc st namespace s Hag) as [H _].
      destruct (H Hs) as (j & r' & Hr' & Hv & Hns' & Hsr'). exists i.
      assert (i = j) as -> by (rewrite <- (Hk _ _ Hr), <- (Hk _ _ Hr'); destruct Hsr as (<- & _), Hsr' as (<- & _); done).
      assert (r = r') as -> by congruence. done.
    + intros (i & Hr & Hv & Hns'). destruct (ListServices_spec sc st namespace r Hag) as [_ H].
      destruct (H i r Hr Hv Hns') as (s & Hs & Hsr). exists s. split_and!; [done..|]. by exists i.
Qed.

(** The statistics of a namespace add up after every fetch that brought one of
    its services: the number of its services and the sums of their instances and
    of the healthy ones, below 2^32. *)
Theorem namespace_counts_add_up (ic : instanceCache) (sc : serviceCache) (a : answers) (rows : list ServiceModel) (row : ServiceModel) :
  a_rows a = Some rows -> row ∈ rows ->
  let ns := svcNamespace row in
  let sc' := (update ic sc a).1 in
  let services := (map_to_list (default ∅ (names (tbl sc') !! ns))).*2 in
  let counts := (fun p => GetInstancesCountByServiceID ic (svcID (deref sc' p))) <$> services in
  Forall (fun n => 0 <= HealthyInstanceCount n <= TotalInstanceCount n) counts ->
  Z.of_nat (length services) < 2 ^ 32 -> total (TotalInstanceCount <$> counts) < 2 ^ 32 ->
  GetNamespaceCntInfo sc' ns =
    mkNsCount (Z.of_nat (length services)) (total (TotalInstanceCount <$> counts)) (total (HealthyInstanceCount <$> counts)).
Proof.
  intros Ha Hrow. cbv zeta. unfold GetNamespaceCntInfo, deref.
  destruct (update_frame ic sc a) as [_ Hf]. rewrite Ha in Hf. destruct Hf as (Ho & -> & ->).
  pose proof (setServices_counts ic (allocate sc rows).1 (allocate sc rows).2 (svcNamespace row)) as Hc. cbv zeta in Hc.
  destruct (setServices_frame ic (allocate sc rows).1 (allocate sc rows).2) as (Eo & _). rewrite Hc; [|].
  - rewrite Eo. cbn [allocate fst objects set_objects]. rewrite Ho.
    destruct (names _ !! _) as [value|]; [|done]. cbn [fmap option_fmap option_map default]. intros H1 H2 H3.
    rewrite (countOne_spec ic _ (map_to_list value).*2 noServices); cbn [noServices ServiceCount nsTotalInstanceCount nsHealthyInstanceCount]; try done.
  - rewrite <- (proj1 (allocate_rows sc rows)) in Hrow. apply list_elem_of_fmap in Hrow as (r & -> & Hr). by exists r.
Qed.

(** *** What the code does not do *)

(** A wrong count does not repair the cache: unlike the instance cache's, whose
    count mismatch resets the time from which it fetches, the service cache's
    resets the modification time only, and fetches from where it would have
    fetched without the mismatch. *)
Theorem service_count_mismatch_does_not_reload (DefaultTimeDiff : Z) (ic : instanceCache) (sc : serviceCache) (a : answers) :
  fetchTime DefaultTimeDiff (update ic sc a).1 =
    fetchTime DefaultTimeDiff (update ic sc (mkAnswers (a_storeTime a) (a_rows a) (a_now a) None)).1 /\
  tbl (update ic sc a).1 = tbl (update ic sc (mkAnswers (a_storeTime a) (a_rows a) (a_now a) None)).1.
Proof.
  unfold update. cbn [a_storeTime a_rows a_now a_count]. destruct (realUpdate ic sc (a_rows a)) as [[sc1 executed] notify]. cbn [fst].
  unfold checkAll. case_decide; [done|]. destruct (a_count a) as [n|]; [|done]. by case_decide.
Qed.

(** The counts of a namespace wait for a service to change: when only instances
    did, the fetch brings no services and the due counts stay due. *)
Theorem due_counts_wait_for_services (ic : instanceCache) (sc : serviceCache) (a : answers) :
  a_rows a = Some [] ->
  namespaceServiceCnt (update ic sc a).1 = namespaceServiceCnt sc /\
  pendingServices (tbl (update ic sc a).1) = pendingServices (tbl sc).
Proof.
  intros Ha. destruct (update_frame ic sc a) as [_ Hf]. rewrite Ha in Hf. destruct Hf as (_ & -> & ->). done.
Qed.

(** The ports of a service are filled in once: whatever its instances do later,
    a reader finds the ports that an earlier reader stored. *)
Theorem filled_ports_stay (ic ic' : instanceCache) (sc : serviceCache) (p : ptr) (o : ServiceModel) :
  objects sc !! p = Some o -> svcPorts (fillPorts ic o) <> "" ->
  objects (fillServicePorts ic' (fillServicePorts ic sc p) p) !! p = objects (fillServicePorts ic sc p) !! p.
Proof.
  intros Ho Hf. unfold fillServicePorts. cbn [objects set_objects]. rewrite !list_lookup_alter_eq, Ho. cbn. f_equal.
  unfold fillPorts at 1. by rewrite decide_False.
Qed.
