(* ===== verification/CacheManager.v ===== *)
(** * The cache manager and the revisions of services ([src/cache/cache.go], [src/cache/default.go])

    [CacheManager] owns the caches and, for each service, a revision computed
    from the service's and its instances' revisions, by which a client that asks
    for instances learns whether anything changed.  An update of the service or
    the instance cache puts the services it touched on a channel; sixty-four
    workers take them off, read the caches and store the revision.

    The manager is a transition system.  An update of a cache is one step; a
    worker's handling of a notification is several - it takes the notification,
    reads the service, reads the instances and stores the revision - between which
    anything else may happen.  The channel is taken to be never full (it holds
    102400 notifications). *)

From S2P Require Import Prelude GoStrings Hash Utils Services HealthCache BaseCache InstanceCache ServiceCache.
From Stdlib Require Import ZArith Lia.
From stdpp Require Import base tactics list gmap strings sorting relations.

Open Scope Z_scope.

(** ** The state *)

(** Where a worker is in [processRevisionWorker], for the service it holds. *)
Inductive work :=
| Deleting
| ReadingService
| ReadingInstances (serviceRevision : string)
| Setting (revision : string).

Record CacheManager := mkCM {
  services : serviceCache;
  instances : instanceCache;
  comRevisionCh : list revisionNotify;
  revisions : gmap string string;
  working : list (string * work) }.

Definition newCacheManager (sc : serviceCache) (ic : instanceCache) : CacheManager := mkCM sc ic [] ∅ [].

Definition readRevisions (m : CacheManager) (key : string) : option string := revisions m !! key.
Definition GetServiceInstanceRevision (m : CacheManager) (serviceID : string) : string := default "" (readRevisions m serviceID).

Definition set_services (m : CacheManager) sc := mkCM sc (instances m) (comRevisionCh m) (revisions m) (working m).
Definition set_working (m : CacheManager) w := mkCM (services m) (instances m) (comRevisionCh m) (revisions m) w.
Definition deleteRevisions (m : CacheManager) (id : string) : CacheManager :=
  mkCM (services m) (instances m) (comRevisionCh m) (delete id (revisions m)) (working m).
Definition setRevisions (m : CacheManager) (key val : string) : CacheManager :=
  mkCM (services m) (instances m) (comRevisionCh m) (<[key := val]> (revisions m)) (working m).

(** ** Updates *)

Definition updateServices (m : CacheManager) (a : ServiceCache.answers) : CacheManager :=
  let '(sc, notify) := ServiceCache.update (instances m) (services m) a in
  mkCM sc (instances m) (comRevisionCh m ++ notify) (revisions m) (working m).

(** [newCacheManager] makes the service cache a listener of the instance cache. *)
Definition watchInstanceReload (sc : serviceCache) (e : cache_event) : serviceCache :=
  match e with EReload svcIds => notifyServiceCountReload sc svcIds | _ => sc end.

Definition updateInstances (m : CacheManager) (a : InstanceCache.answers) : CacheManager :=
  let '(ic, events, notify) := InstanceCache.update (instances m) a in
  mkCM (foldl watchInstanceReload (services m) events) ic (comRevisionCh m ++ notify) (revisions m) (working m).

(** ** Workers *)

(** A worker takes the next notification; a nil one or one without id is dropped. *)
Definition takeNotify (m : CacheManager) : CacheManager :=
  match comRevisionCh m with
  | [] => m
  | req :: ch =>
      let w := if decide (nServiceID req = "") then working m
               else (nServiceID req, if nvalid req then ReadingService else Deleting) :: working m in
      mkCM (services m) (instances m) ch (revisions m) w
  end.

Definition instanceRevisions (ic : instanceCache) (serviceID : string) : list string :=
  (fun it => Revision (proto it)) <$> GetInstancesByServiceID ic serviceID.

(** The next step of a worker on service [s], which is at [w]. *)
Definition proceed (m : CacheManager) (s : string) (w : work) : CacheManager * option work :=
  match w with
  | Deleting => (deleteRevisions m s, None)
  | ReadingService =>
      let '(sc, service) := GetServiceByID (instances m) (services m) s in
      (set_services m sc, match service with None => None | Some p => Some (ReadingInstances (svcRevision (deref sc p))) end)
  | ReadingInstances rev => (m, Some (Setting (ComputeRevision rev (instanceRevisions (instances m) s))))
  | Setting revision => (setRevisions m s revision, None)
  end.

(** The [i]-th worker proceeds. *)
Definition workerStep (m : CacheManager) (i : nat) : CacheManager :=
  match working m !! i with
  | None => m
  | Some (s, w) =>
      let '(m', w') := proceed m s w in
      set_working m' (match w' with None => delete i (working m) | Some w' => <[i := (s, w')]> (working m) end)
  end.

Inductive step : CacheManager -> CacheManager -> Prop :=
| step_services m a : step m (updateServices m a)
| step_instances m a : step m (updateInstances m a)
| step_read m f p : harmless f -> step m (set_services m (set_objects (services m) (alter f p (objects (services m)))))
| step_take m : step m (takeNotify m)
| step_worker m i : step m (workerStep m i).

(** No two workers hold the same service. *)
Definition calm (m : CacheManager) : Prop := NoDup (working m).*1.

Inductive calmly : CacheManager -> CacheManager -> Prop :=
| calmly_refl m : calmly m m
| calmly_step m m' m'' : calmly m m' -> step m' m'' -> calm m'' -> calmly m m''.

(** Nothing is left to do. *)
Definition settled (m : CacheManager) : Prop := comRevisionCh m = [] /\ working m = [].

(** The revision that the caches give a service. *)
Definition currentRevision (m : CacheManager) (s : string) : option string :=
  (fun p => ComputeRevision (svcRevision (deref (services m) p)) (instanceRevisions (instances m) s)) <$> ids (tbl (services m)) !! s.

(** ** The notifications of an update *)

(** The last notification of a service on the channel. *)
Definition lastNotify (s : string) (ch : list revisionNotify) : option bool :=
  foldl (fun o n => if decide (nServiceID n = s) then Some (nvalid n) else o) None ch.

Lemma lastNotify_app s ch ch' :
  lastNotify s (ch ++ ch') = match lastNotify s ch' with Some b => Some b | None => lastNotify s ch end.
Proof.
  unfold lastNotify. rewrite foldl_app. generalize (foldl (fun o n => if decide (nServiceID n = s) then Some (nvalid n) else o) None ch) as o.
  induction ch' as [|n ch' IH] using rev_ind; intros o; [done|]. rewrite !foldl_app. cbn [foldl]. case_decide; [done|]. apply IH.
Qed.

Lemma lastNotify_cons s n ch :
  lastNotify s (n :: ch) = match lastNotify s ch with Some b => Some b | None => if decide (nServiceID n = s) then Some (nvalid n) else None end.
Proof. change (n :: ch) with ([n] ++ ch). by rewrite lastNotify_app. Qed.

Lemma lastNotify_None s ch : lastNotify s ch = None <-> Forall (fun n => nServiceID n <> s) ch.
Proof.
  induction ch as [|n ch IH]; [done|]. rewrite lastNotify_cons, Forall_cons. destruct (lastNotify s ch); [naive_solver|].
  case_decide; naive_solver.
Qed.

Lemma lastNotify_Some s b ch : Forall (fun n => nvalid n = b) ch -> Exists (fun n => nServiceID n = s) ch -> lastNotify s ch = Some b.
Proof.
  induction 1 as [|n ch Hn Hch IH]; [by intros []%Exists_nil|]. rewrite Exists_cons, lastNotify_cons. intros [He|He]; [|by rewrite IH].
  destruct (lastNotify s ch) as [b'|] eqn:Hb.
  - destruct (decide (Exists (fun n => nServiceID n = s) ch)) as [Hx|Hx]; [by rewrite <- IH|].
    apply not_Exists_Forall in Hx; [|apply _]. apply lastNotify_None in Hx. congruence.
  - by rewrite decide_True, Hn.
Qed.

Lemma setInstance_services st item s :
  s <> sid item -> InstanceCache.services (s_ic (setInstance st item)) !! s = InstanceCache.services (s_ic st) !! s.
Proof.
  intros Hs. unfold setInstance. destruct (Valid item); cbn [negb s_ic set_data InstanceCache.services].
  - by rewrite lookup_insert_ne.
  - case_match; by rewrite ?lookup_insert_ne.
Qed.

Lemma setInstance_affect st item : s_affect (setInstance st item) = {[sid item]} ∪ s_affect st.
Proof. unfold setInstance. by destruct (Valid item). Qed.

Lemma affected rows st s : s ∈ s_affect (foldl setInstance st rows) <-> s ∈ s_affect st \/ s ∈ (fun r => sid r) <$> rows.
Proof.
  revert st. induction rows as [|r rows IH]; intros st; cbn [foldl fmap list_fmap]; [set_solver|].
  rewrite IH, setInstance_affect. set_solver.
Qed.

Lemma setInstances_touched ic rows s :
  let r := setInstances ic rows in
  (s ∈ (fun x => sid x) <$> rows /\ lastNotify s (InstanceCache.r_notify r) = Some true) \/
  (InstanceCache.services (r_ic r) !! s = InstanceCache.services ic !! s /\ lastNotify s (InstanceCache.r_notify r) = None).
Proof.
  cbv zeta. unfold setInstances. case_decide as Hd; [by right|]. cbn [InstanceCache.postProcessUpdatedServices r_ic InstanceCache.r_notify].
  set (st0 := InstanceCache.mkSetting ic _ 0 0 ∅ _ []). destruct (decide (s ∈ (fun x => sid x) <$> rows)) as [Hs|Hs]; [left|right]; (split; [done|]) || split.
  - apply lastNotify_Some; [by apply Forall_fmap, Forall_forall|]. apply Exists_exists. exists (mkNotify s true). split; [|done].
    apply list_elem_of_fmap. exists s. split; [done|]. apply elem_of_elements, affected. by right.
  - cbn [InstanceCache.services set_counts set_count].
    apply (foldl_rows_notin setInstance (fun st => fun k => InstanceCache.services (s_ic st) !! k) (fun r => sid r)); [|done].
    intros st r Hne. by apply setInstance_services.
  - apply lastNotify_None, Forall_fmap, Forall_forall. intros s' Hs'%elem_of_elements Heq. cbn in Heq. subst s'.
    apply affected in Hs' as [H|H]; [by apply elem_of_empty in H|done].
Qed.

Lemma update_instances_touched ic a s :
  let '(ic', _, notify) := InstanceCache.update ic a in
  lastNotify s notify = Some true \/ (instanceRevisions ic' s = instanceRevisions ic s /\ lastNotify s notify = None).
Proof.
  unfold InstanceCache.update, InstanceCache.realUpdate.
  assert (forall ic b now c, instanceRevisions (InstanceCache.checkAll (InstanceCache.set_base ic b) now c) s = instanceRevisions ic s) as Hc.
  { intros. unfold InstanceCache.checkAll. case_decide; [done|]. destruct c; [case_decide|]; done. }
  destruct (InstanceCache.a_rows a) as [rows|]; [|right; by rewrite Hc].
  destruct (setInstances_touched ic rows s) as [[_ H]|[Hs H]]; [by left|right]. split; [|done].
  rewrite Hc. unfold instanceRevisions, GetInstancesByServiceID. by rewrite Hs.
Qed.

(** Pointers of the table by id are into the heap. *)
Definition wf (sc : serviceCache) : Prop := forall s p, ids (tbl sc) !! s = Some p -> is_Some (objects sc !! p).

Lemma loop_ids sc rows s :
  match lastNotify s ((fun row => mkNotify (svcID row.2) (svcValid row.2)) <$> rows) with
  | Some true => exists row, row ∈ rows /\ byID (s_tbl (loop sc rows)) s = Some row.1
  | Some false => byID (s_tbl (loop sc rows)) s = None
  | None => byID (s_tbl (loop sc rows)) s = byID (tbl sc) s
  end.
Proof.
  induction rows as [|row rows IH] using rev_ind; [done|]. rewrite fmap_app, lastNotify_app. unfold loop in *. rewrite foldl_app.
  cbn [foldl fmap list_fmap lastNotify nServiceID nvalid]. rewrite setService_byID. unfold row_ptr.
  destruct (decide (svcID row.2 = s)) as [He|He].
  - rewrite decide_True by done. destruct (svcValid row.2); [|done]. exists row. split; [set_solver|done].
  - rewrite decide_False by done. destruct (lastNotify s _) as [[]|]; [|done..]. destruct IH as (r & Hr & ->). exists r. set_solver.
Qed.

Lemma update_services_touched ic sc a s :
  wf sc ->
  let sc' := (ServiceCache.update ic sc a).1 in let notify := (ServiceCache.update ic sc a).2 in
  wf sc' /\ (forall p, is_Some (objects sc !! p) -> deref sc' p = deref sc p) /\
  match lastNotify s notify with
  | Some true => is_Some (ids (tbl sc') !! s)
  | Some false => ids (tbl sc') !! s = None /\ mkNotify s false ∈ notify
  | None => ids (tbl sc') !! s = ids (tbl sc) !! s
  end.
Proof.
  intros Hwf. cbv zeta. destruct (update_frame ic sc a) as [_ Hf]. rewrite (update_notify ic sc a).
  destruct (ServiceCache.a_rows a) as [rows|]; cbn [default id].
  2:{ destruct Hf as (Ho & Ht & _). unfold wf, deref. rewrite Ho, Ht. cbn. by split_and!. }
  destruct Hf as (Ho & Ht & _). destruct (allocate_rows sc rows) as [Hsnd Hall]. rewrite Forall_forall in Hall.
  destruct (setServices_frame ic (allocate sc rows).1 (allocate sc rows).2) as (_ & _ & _ & _ & _ & Ei & _).
  set (ps := (allocate sc rows).2) in *. set (sc1 := (allocate sc rows).1) in *. rewrite <- Ht in Ei. unfold byID in Ei at 1.
  assert ((fun s => mkNotify (svcID s) (svcValid s)) <$> rows = (fun row => mkNotify (svcID row.2) (svcValid row.2)) <$> ps) as Hn
    by (rewrite (keys_of_rows (fun s => mkNotify (svcID s) (svcValid s))); by rewrite Hsnd).
  split_and!.
  - intros t p. rewrite Ei, Ho. pose proof (loop_ids sc1 ps t) as Hl. destruct (lastNotify t _) as [[]|].
    + destruct Hl as (row & Hrow & ->). intros [= <-]. rewrite (Hall _ Hrow). by eexists.
    + by rewrite Hl.
    + rewrite Hl. unfold byID. intros Hp. destruct (Hwf t p Hp) as [o Hp']. exists o. by apply lookup_app_l_Some.
  - intros p [o Hp]. unfold deref. rewrite Ho. rewrite !list_lookup_total_alt. by rewrite (lookup_app_l_Some _ _ _ _ Hp), Hp.
  - rewrite Hn, Ei. pose proof (loop_ids sc1 ps s) as Hl. destruct (lastNotify s _) as [[]|] eqn:Hb.
    + destruct Hl as (row & _ & ->). by eexists.
    + split; [done|]. clear -Hb. induction ps as [|row ps IH]; [done|]. rewrite fmap_cons, lastNotify_cons in Hb. rewrite fmap_cons.
      destruct (lastNotify s _) as [b|]; [right; by apply IH|]. case_decide as He; [|done]. cbn in *. injection Hb as Hb. rewrite He, Hb. left.
    + by rewrite Hl.
Qed.

(** ** What the workers keep true *)

Definition revisionOf (m : CacheManager) (p : ptr) : string := svcRevision (deref (services m) p).

(** The revision of [s] is the current one, or a worker is about to make it so. *)
Definition onTheWay (m : CacheManager) (s : string) (p : ptr) : Prop :=
  (s, ReadingService) ∈ working m \/ (s, ReadingInstances (revisionOf m p)) ∈ working m \/
  (s, Setting (ComputeRevision (revisionOf m p) (instanceRevisions (instances m) s))) ∈ working m \/
  (revisions m !! s = Some (ComputeRevision (revisionOf m p) (instanceRevisions (instances m) s)) /\ s ∉ (working m).*1).

(** No worker is about to give [s] a revision. *)
Definition forgotten (m : CacheManager) (s : string) : Prop :=
  revisions m !! s = None /\ forall w, (s, w) ∈ working m -> w = ReadingService.

Definition revision_inv (m : CacheManager) (s : string) : Prop :=
  match ids (tbl (services m)) !! s with
  | Some p => lastNotify s (comRevisionCh m) = Some true \/ (lastNotify s (comRevisionCh m) = None /\ onTheWay m s p)
  | None => mkNotify s false ∈ comRevisionCh m \/ (s, Deleting) ∈ working m \/ forgotten m s
  end.

Definition manager_inv (m : CacheManager) : Prop := wf (services m) /\ forall s, s <> "" -> revision_inv m s.

Lemma working_delete (l : list (string * work)) i s w t x :
  NoDup l.*1 -> l !! i = Some (s, w) -> (t, x) ∈ delete i l <-> (t, x) ∈ l /\ t <> s.
Proof.
  intros Hnd Hi. pose proof (delete_Permutation l i _ Hi) as Hp. rewrite Hp, fmap_cons, NoDup_cons in Hnd. destruct Hnd as [Hs _]. cbn in Hs.
  assert ((t, x) ∈ l <-> (t, x) ∈ (s, w) :: delete i l) as -> by (by apply elem_of_Permutation_proper).
  rewrite elem_of_cons. split; [|naive_solver]. intros Hx. split; [by right|]. intros ->. apply Hs. apply list_elem_of_fmap. by exists (s, x).
Qed.

Lemma working_unique (l : list (string * work)) s w w' : NoDup l.*1 -> (s, w) ∈ l -> (s, w') ∈ l -> w = w'.
Proof.
  induction l as [|[t x] l IH]; [intros _ []%not_elem_of_nil|]. rewrite fmap_cons, NoDup_cons. intros [Ht Hnd].
  rewrite !elem_of_cons. assert (forall y, (t, y) ∉ l) as Hno by (intros y Hy; apply Ht, list_elem_of_fmap; by exists (t, y)).
  intros [H1|H1] [H2|H2]; simplify_eq; [done|by destruct (Hno w')|by destruct (Hno w)|by apply IH].
Qed.

Lemma not_working (l : list (string * work)) s : s ∉ l.*1 <-> forall w, (s, w) ∉ l.
Proof.
  rewrite list_elem_of_fmap. split.
  - intros H w Hw. apply H. by exists (s, w).
  - intros H ([t w] & -> & Hw). by apply (H w).
Qed.

(** The caches show the same as before. *)
Definition same_caches (m m' : CacheManager) (s : string) : Prop :=
  ids (tbl (services m')) !! s = ids (tbl (services m)) !! s /\
  (forall p, ids (tbl (services m)) !! s = Some p -> revisionOf m' p = revisionOf m p) /\
  instanceRevisions (instances m') s = instanceRevisions (instances m) s.

Lemma revision_inv_frame m m' s :
  same_caches m m' s -> revisions m' !! s = revisions m !! s ->
  (forall w, (s, w) ∈ working m' <-> (s, w) ∈ working m) ->
  lastNotify s (comRevisionCh m') = lastNotify s (comRevisionCh m) ->
  (mkNotify s false ∈ comRevisionCh m -> mkNotify s false ∈ comRevisionCh m') ->
  revision_inv m s -> revision_inv m' s.
Proof.
  intros (Hi & Hp & Hr) Hrev Hw Hl Hf. unfold revision_inv. rewrite Hi. destruct (ids (tbl (services m)) !! s) as [p|].
  - rewrite Hl. unfold onTheWay. rewrite (Hp p eq_refl), Hr, !Hw, Hrev, !not_working. setoid_rewrite Hw. done.
  - unfold forgotten. rewrite Hrev, Hw. setoid_rewrite Hw. tauto.
Qed.

Lemma updateServices_inv m a : manager_inv m -> manager_inv (updateServices m a).
Proof.
  intros [Hwf Hinv]. unfold updateServices.
  destruct (ServiceCache.update (instances m) (services m) a) as [sc notify] eqn:Hu. split.
  { pose proof (update_services_touched (instances m) (services m) a "" Hwf) as (H & _). by rewrite Hu in H. }
  intros s Hs. specialize (Hinv s Hs).
  destruct (update_services_touched (instances m) (services m) a s Hwf) as (_ & Hd & Ht). rewrite Hu in Hd, Ht. cbn [fst snd] in Hd, Ht.
  destruct (lastNotify s notify) as [[]|] eqn:Hl.
  - destruct Ht as [p Hp]. unfold revision_inv. cbn [services comRevisionCh]. rewrite Hp. left. by rewrite lastNotify_app, Hl.
  - destruct Ht as [Hn Hin]. unfold revision_inv. cbn [services comRevisionCh]. rewrite Hn. left. set_solver.
  - apply (revision_inv_frame m); cbn [services instances comRevisionCh working revisions]; try done.
    + split_and!; cbn [services instances]; [done| |done]. intros p Hp. unfold revisionOf. cbn [services]. by rewrite Hd by (by eapply Hwf).
    + by rewrite lastNotify_app, Hl.
    + set_solver.
Qed.

Lemma watch_frame events sc :
  ids (tbl (foldl watchInstanceReload sc events)) = ids (tbl sc) /\ objects (foldl watchInstanceReload sc events) = objects sc.
Proof. revert sc. induction events as [|e events IH]; intros sc; [done|]. cbn [foldl]. destruct (IH (watchInstanceReload sc e)) as [-> ->]. by destruct e. Qed.

Lemma updateInstances_inv m a : manager_inv m -> manager_inv (updateInstances m a).
Proof.
  intros [Hwf Hinv]. unfold updateInstances.
  destruct (InstanceCache.update (instances m) a) as [[ic events] notify] eqn:Hu.
  destruct (watch_frame events (services m)) as [Hi Ho]. split.
  { unfold wf. cbn [services]. by rewrite Hi, Ho. }
  intros s Hs. specialize (Hinv s Hs). pose proof (update_instances_touched (instances m) a s) as Ht. rewrite Hu in Ht.
  destruct Ht as [Hl|[Hr Hl]].
  - unfold revision_inv in *. cbn [services comRevisionCh working]. rewrite Hi. destruct (ids (tbl (services m)) !! s) as [p|].
    + left. by rewrite lastNotify_app, Hl.
    + rewrite elem_of_app. unfold forgotten in *. cbn [revisions working]. tauto.
  - apply (revision_inv_frame m); cbn [services instances comRevisionCh working revisions]; try done.
    + split_and!; cbn [services instances]; [by rewrite Hi| |done]. intros p Hp. unfold revisionOf, deref. cbn [services]. by rewrite Ho.
    + by rewrite lastNotify_app, Hl.
    + set_solver.
Qed.

Lemma alter_caches m f p s :
  harmless f -> same_caches m (set_services m (set_objects (services m) (alter f p (objects (services m))))) s.
Proof.
  intros Hf. split_and!; cbn; [done| |done]. intros q _. unfold revisionOf, deref. cbn [services set_services objects set_objects].
  rewrite !list_lookup_total_alt. destruct (decide (p = q)) as [->|Hne].
  - rewrite list_lookup_alter_eq. destruct (objects (services m) !! q); cbn; [by apply harmless_revision|done].
  - by rewrite list_lookup_alter_ne.
Qed.

Lemma alter_wf sc f p : wf sc -> wf (set_objects sc (alter f p (objects sc))).
Proof.
  intros Hwf s q Hq. cbn in *. destruct (Hwf s q Hq) as [o Ho]. destruct (decide (p = q)) as [->|Hne].
  - rewrite list_lookup_alter_eq, Ho. by eexists.
  - rewrite list_lookup_alter_ne, Ho by done. by eexists.
Qed.

Lemma read_inv m f p :
  harmless f -> manager_inv m -> manager_inv (set_services m (set_objects (services m) (alter f p (objects (services m))))).
Proof.
  intros Hf [Hwf Hinv]. split; [by apply alter_wf|]. intros s Hs. apply (revision_inv_frame m); try done; [by apply alter_caches|by apply Hinv].
Qed.

Lemma take_inv m : calm (takeNotify m) -> manager_inv m -> manager_inv (takeNotify m).
Proof.
  unfold takeNotify. destruct (comRevisionCh m) as [|[s' v] ch] eqn:Hch; [done|]. cbn [nServiceID nvalid]. intros Hcalm [Hwf Hinv]. split; [done|].
  intros s Hs. specialize (Hinv s Hs). unfold calm in Hcalm. cbn [working] in Hcalm.
  destruct (decide (s' = "")) as [->|Hs'].
  { apply (revision_inv_frame m); cbn [comRevisionCh working]; try done; rewrite Hch.
    - rewrite lastNotify_cons, decide_False by done. by destruct (lastNotify s ch).
    - by intros [[= ? ?]|?]%elem_of_cons. }
  rewrite fmap_cons, NoDup_cons in Hcalm. destruct Hcalm as [Hnew _]. cbn [fst] in Hnew. rewrite not_working in Hnew.
  destruct (decide (s = s')) as [<-|Hne].
  2:{ apply (revision_inv_frame m); cbn [comRevisionCh working]; try done; rewrite ?Hch.
    - intros w. rewrite elem_of_cons. naive_solver.
    - rewrite lastNotify_cons, decide_False by (cbn; congruence). by destruct (lastNotify s ch).
    - by intros [[= ? ?]|?]%elem_of_cons. }
  unfold revision_inv in *. cbn [services comRevisionCh working]. rewrite Hch, lastNotify_cons in Hinv. cbn [nServiceID nvalid] in Hinv.
  rewrite decide_True in Hinv by done. destruct (ids (tbl (services m)) !! s) as [p|].
  - destruct (lastNotify s ch) as [b|]; [by left; destruct Hinv as [?|[? _]]|]. right. split; [done|].
    destruct Hinv as [[= ->]|[? _]]; [|done]. left. apply list_elem_of_here.
  - destruct v.
    + destruct Hinv as [[[= ]|Hin]%elem_of_cons|[Hd|[Hr Hw]]]; [by left|by destruct (Hnew Deleting)|]. do 2 right. split; [done|].
      cbn [working]. intros w [[= ->]|Hin]%elem_of_cons; [done|by apply Hw].
    + right. left. apply list_elem_of_here.
Qed.

Lemma GetServiceByID_frame ic sc s :
  s <> "" ->
  (GetServiceByID ic sc s).2 = ids (tbl sc) !! s /\
  exists f p, harmless f /\ (GetServiceByID ic sc s).1 = set_objects sc (alter f p (objects sc)).
Proof.
  intros Hs. unfold GetServiceByID. rewrite decide_False by done. destruct (ids (tbl sc) !! s) as [p|]; cbn [fst snd].
  - split; [done|]. exists (fillPorts ic), p. split; [apply fillPorts_harmless|done].
  - split; [done|]. exists id, 0%nat. split; [by intros r o|]. rewrite list_alter_id by done. by destruct sc.
Qed.

(** A worker that is done with its notification. *)
Lemma finished_working m i s w t x :
  calm m -> working m !! i = Some (s, w) -> (t, x) ∈ delete i (working m) <-> (t, x) ∈ working m /\ t <> s.
Proof. intros Hc Hi. by eapply working_delete. Qed.

Lemma moved_working m i s w w' t x :
  calm m -> working m !! i = Some (s, w) ->
  (t, x) ∈ <[i := (s, w')]> (working m) <-> ((t, x) ∈ working m /\ t <> s) \/ (t, x) = (s, w').
Proof.
  intros Hc Hi. rewrite insert_take_drop by (by eapply lookup_lt_Some). rewrite elem_of_app, elem_of_cons.
  rewrite <- (finished_working m i s w t x Hc Hi), delete_take_drop, elem_of_app. naive_solver.
Qed.

Lemma workerStep_inv m i : calm m -> manager_inv m -> manager_inv (workerStep m i).
Proof.
  intros Hcalm [Hwf Hinv]. unfold workerStep. destruct (working m !! i) as [[s w]|] eqn:Hi; [|done].
  assert ((s, w) ∈ working m) as Hin by (by eapply list_elem_of_lookup_2).
  assert (forall x, (s, x) ∈ working m -> x = w) as Honly by (intros x Hx; by eapply working_unique).
  pose proof (fun t x => finished_working m i s w t x Hcalm Hi) as Hfin.
  pose proof (fun w' t x => moved_working m i s w w' t x Hcalm Hi) as Hmov.
  destruct w as [| |rev|rev]; cbn [proceed].
  - split; [done|]. intros t Ht. specialize (Hinv t Ht). destruct (decide (t = s)) as [->|Hne].
    + unfold revision_inv in *. cbn. destruct (ids (tbl (services m)) !! s) as [p|].
      * destruct Hinv as [?|[_ H]]; [by left|exfalso]. unfold onTheWay in H. rewrite not_working in H.
        destruct H as [H|[H|[H|[_ H]]]]; [by apply Honly in H..|by apply (H Deleting)].
      * do 2 right. split; [apply lookup_delete_eq|]. intros x Hx. apply Hfin in Hx. tauto.
    + apply (revision_inv_frame m); cbn; try done; [by rewrite lookup_delete_ne|]. intros x. rewrite Hfin. tauto.
  - destruct (decide (s = "")) as [->|Hs].
    { unfold GetServiceByID. rewrite decide_True by done. split; [done|]. intros t Ht. apply (revision_inv_frame m); cbn; try done; [|by apply Hinv].
      intros x. rewrite Hfin. tauto. }
    destruct (GetServiceByID_frame (instances m) (services m) s Hs) as (Hp & f & q & Hf & Hsc).
    destruct (GetServiceByID (instances m) (services m) s) as [sc o]. cbn [fst snd] in Hp, Hsc. subst sc o.
    pose proof (fun u => alter_caches m f q u Hf) as Hsame. split; [by apply alter_wf|]. intros t Ht. specialize (Hinv t Ht).
    destruct (decide (t = s)) as [->|Hne].
    + unfold revision_inv in *. cbn [services set_working set_services tbl set_objects comRevisionCh working]. destruct (Hsame s) as (_ & Hrev & _).
      destruct (ids (tbl (services m)) !! s) as [p|].
      * destruct Hinv as [?|[? _]]; [by left|right]. split; [done|]. right; left. cbn [working set_working]. apply Hmov. right. do 2 f_equal.
      * destruct Hinv as [?|[Hd|[Hr _]]]; [by left|by apply Honly in Hd|]. do 2 right. split; [done|]. cbn [working set_working]. intros x Hx. apply Hfin in Hx. tauto.
    + apply (revision_inv_frame m); try done; [apply Hsame|]. intros x. cbn [working set_working].
      destruct (ids (tbl (services m)) !! s); [rewrite Hmov; naive_solver|rewrite Hfin; tauto].
  - split; [done|]. intros t Ht. specialize (Hinv t Ht). destruct (decide (t = s)) as [->|Hne].
    + unfold revision_inv in *. cbn. destruct (ids (tbl (services m)) !! s) as [p|].
      * destruct Hinv as [?|[? H]]; [by left|right]. split; [done|]. do 2 right. left. cbn. apply Hmov. right. do 2 f_equal.
        unfold onTheWay in H. rewrite not_working in H. destruct H as [H|[H|[H|[_ H]]]]; [by apply Honly in H| |by apply Honly in H|by destruct (H (ReadingInstances rev))].
        apply Honly in H. injection H as <-. done.
      * destruct Hinv as [?|[Hd|[_ Hr]]]; [by left|by apply Honly in Hd|]. by apply Hr in Hin.
    + apply (revision_inv_frame m); cbn; try done. intros x. rewrite Hmov. naive_solver.
  - split; [done|]. intros t Ht. specialize (Hinv t Ht). destruct (decide (t = s)) as [->|Hne].
    + unfold revision_inv in *. cbn. destruct (ids (tbl (services m)) !! s) as [p|].
      * destruct Hinv as [?|[? H]]; [by left|right]. split; [done|]. do 3 right. cbn. split.
        -- rewrite lookup_insert_eq. f_equal. unfold onTheWay in H. rewrite not_working in H.
           destruct H as [H|[H|[H|[_ H]]]]; [by apply Honly in H..| |by destruct (H (Setting rev))]. apply Honly in H. injection H as <-. done.
        -- apply not_working. intros x Hx%Hfin. tauto.
      * destruct Hinv as [?|[Hd|[_ Hr]]]; [by left|by apply Honly in Hd|]. by apply Hr in Hin.
    + apply (revision_inv_frame m); cbn; try done; [by rewrite lookup_insert_ne|]. intros x. rewrite Hfin. tauto.
Qed.

Lemma calmly_inv m m' : calm m -> manager_inv m -> calmly m m' -> calm m' /\ manager_inv m'.
Proof.
  intros Hc Hi. induction 1 as [m|m m1 m2 _ IH Hstep Hc2]; [done|]. destruct (IH Hc Hi) as [Hc1 Hi1]. split; [done|].
  destruct Hstep; [by apply updateServices_inv|by apply updateInstances_inv|by apply read_inv|by apply take_inv|by apply workerStep_inv].
Qed.

Lemma settled_revision m s :
  manager_inv m -> settled m -> s <> "" -> revisions m !! s = currentRevision m s.
Proof.
  intros [_ Hi] [Hch Hw] Hs. specialize (Hi s Hs). unfold revision_inv in Hi. unfold currentRevision. rewrite Hch in Hi.
  destruct (ids (tbl (services m)) !! s) as [p|]; cbn.
  - destruct Hi as [Hi|[_ Hi]]; [done|]. unfold onTheWay in Hi. rewrite Hw in Hi. set_solver.
  - destruct Hi as [Hi|[Hi|[Hi _]]]; [set_solver|rewrite Hw in Hi; set_solver|done].
Qed.

(** ** The workers finish *)

(** The workers alone, the first one first. *)
Definition drain (m : CacheManager) : CacheManager :=
  match working m with [] => takeNotify m | _ :: _ => workerStep m 0 end.

Definition remaining (w : work) : nat :=
  match w with Deleting => 1 | ReadingService => 3 | ReadingInstances _ => 2 | Setting _ => 1 end.
Definition left_to_do (m : CacheManager) : nat :=
  4 * length (comRevisionCh m) + foldr (fun sw n => remaining sw.2 + n)%nat 0%nat (working m).

Lemma settled_iff m : settled m <-> left_to_do m = 0%nat.
Proof.
  unfold settled, left_to_do. destruct (comRevisionCh m), (working m) as [|[s []] ?]; cbn; try (split; [by intros []|lia]). done.
Qed.

Lemma drain_step m : calm m -> step m (drain m) /\ calm (drain m) /\ (left_to_do (drain m) < left_to_do m \/ settled m)%nat /\
  ids (tbl (services (drain m))) = ids (tbl (services m)) /\ instances (drain m) = instances m.
Proof.
  intros Hc. unfold drain. destruct (working m) as [|[s w] ws] eqn:Hw.
  - split; [constructor|]. unfold takeNotify, calm, left_to_do, settled. destruct (comRevisionCh m) as [|[s v] ch] eqn:Hch.
    + rewrite Hw. split; [constructor|]. auto.
    + cbn [working comRevisionCh services instances nServiceID nvalid]. rewrite Hw. case_decide; [split; [constructor|]; split; [left; cbn; lia|done]|].
      split; [apply NoDup_singleton|]. split; [left; destruct v; cbn; lia|done].
  - split; [constructor|]. unfold workerStep, calm, left_to_do in *. rewrite Hw in *. cbn [lookup list_lookup].
    rewrite fmap_cons, NoDup_cons in Hc. cbn [fst] in Hc.
    destruct w as [| |rev|rev]; cbn [proceed].
    + cbn. split; [apply Hc|]. split; [left; lia|done].
    + destruct (decide (s = "")) as [->|Hs].
      { unfold GetServiceByID. rewrite decide_True by done. cbn. split; [apply Hc|]. split; [left; lia|done]. }
      destruct (GetServiceByID_frame (instances m) (services m) s Hs) as (Hp & f & q & Hf & Hsc).
      destruct (GetServiceByID (instances m) (services m) s) as [sc o]. cbn [fst snd] in Hp, Hsc. subst sc o.
      destruct (ids (tbl (services m)) !! s) as [p|]; cbn; (split; [by first [apply Hc|apply NoDup_cons]|]); (split; [left; lia|done]).
    + cbn. split; [by apply NoDup_cons|]. split; [left; lia|done].
    + cbn. split; [apply Hc|]. split; [left; lia|done].
Qed.

Lemma drain_settles n m :
  calm m -> (left_to_do m <= n)%nat ->
  let m' := Nat.iter n drain m in
  settled m' /\ calmly m m' /\ calm m' /\ ids (tbl (services m')) = ids (tbl (services m)) /\ instances m' = instances m.
Proof.
  cbv zeta. intros Hc. assert (forall k, (k <= n)%nat -> let m' := Nat.iter k drain m in
    (left_to_do m' + k <= left_to_do m \/ settled m')%nat /\ calmly m m' /\ calm m' /\ ids (tbl (services m')) = ids (tbl (services m)) /\ instances m' = instances m) as H.
  { induction k as [|k IH]; intros Hk; cbv zeta in *; [split; [left; cbn; lia|by split_and!; try constructor]|].
    change (Nat.iter (S k) drain m) with (drain (Nat.iter k drain m)). set (m1 := Nat.iter k drain m) in *.
    destruct (IH ltac:(lia)) as (Hm & Hr & Hc' & Hi & Hn). destruct (drain_step _ Hc') as (Hs & Hc'' & Hl & Hi' & Hn'). split; [|split_and!].
    - destruct Hl as [Hl|[Hch Hw]]; [destruct Hm as [Hm|Hm%settled_iff]; [left; lia|exfalso; lia]|right].
      unfold drain. rewrite Hw. unfold takeNotify. by rewrite Hch.
    - by eapply calmly_step.
    - done.
    - by rewrite Hi'.
    - by rewrite Hn'. }
  intros Hn. destruct (H n (le_n n)) as (Hm & Hr & Hc' & Hi & Hins). split_and!; try done.
  destruct Hm as [Hm|Hm]; [|done]. apply settled_iff. lia.
Qed.

(** ** Properties *)

Lemma new_manager_inv b nm ic : calm (newCacheManager (newServiceCache b nm) ic) /\ manager_inv (newCacheManager (newServiceCache b nm) ic).
Proof.
  split; [constructor|]. split.
  - intros s p. cbn. by rewrite lookup_empty.
  - intros s _. unfold revision_inv. cbn. rewrite lookup_empty. right; right. split; cbn; [apply lookup_empty|set_solver].
Qed.

(** C5. The revisions settle.  In every run of the manager in which no two
    workers hold the same service - however updates of the caches, readers and
    the steps of the workers interleave - once no notification is left the revision
    kept for a service is the one of the service and the instances that are cached
    now, and none is kept for a service that is not cached; and from every such
    state the workers reach, by themselves and without changing what is cached, a
    state in which nothing is left. *)
Theorem revisions_settle (b nm : bool) (ic : instanceCache) (m : CacheManager) (s : string) :
  calmly (newCacheManager (newServiceCache b nm) ic) m -> s <> "" ->
  (settled m -> GetServiceInstanceRevision m s = default "" (currentRevision m s)) /\
  (let m' := Nat.iter (left_to_do m) drain m in
   settled m' /\ calmly m m' /\ ids (tbl (services m')) = ids (tbl (services m)) /\ instances m' = instances m).
Proof.
  intros Hr Hs. destruct (new_manager_inv b nm ic) as [Hc0 Hi0]. destruct (calmly_inv _ _ Hc0 Hi0 Hr) as [Hc Hi]. split.
  - intros Hset. unfold GetServiceInstanceRevision, readRevisions. by rewrite (settled_revision m s).
  - destruct (drain_settles (left_to_do m) m Hc (le_n _)) as (H1 & H2 & _ & H3 & H4). done.
Qed.
