(* ===== verification/Discovery.v ===== *)
(** * Service discovery ([src/service/client_v1.go], [src/service/server.go])

    Clients ask for the instances of a service and for the list of the services of
    a namespace; both are answered from the caches.  [ServiceInstancesCache] finds
    the service - for an alias, the service it stands for -, compares the revision
    the client has with the one the cache manager keeps, and answers the instances
    or that nothing changed.

    A response carries protobuf messages; the times of the service, which the
    code prints, are kept as times.  The location service ([cmdb], a plugin) is a
    parameter. *)

From S2P Require Import Prelude GoStrings Hash Utils Services HealthCache BaseCache InstanceCache ServiceCache CacheManager.
From Stdlib Require Import ZArith Lia.
From stdpp Require Import base tactics list gmap strings sorting.

Open Scope Z_scope.

(** ** Data *)

(** An instance of a response; its fields as the getters read them. *)
Record ApiInstance := mkApiInstance {
  aId : string;
  aService : option string;
  aNamespace : option string;
  aVpcId : string;
  aHost : string;
  aPort : Z;
  aProtocol : string;
  aVersion : string;
  aPriority : Z;
  aWeight : Z;
  aEnableHealthCheck : bool;
  aHealthCheck : option HealthCheck;
  aHealthy : bool;
  aIsolate : bool;
  aLocation : option (string * string * string);
  aMetadata : gmap string string;
  aLogicSet : string;
  aMtime : string;
  aRevision : string }.

Inductive DiscoverResponseType := SERVICES | INSTANCE.

(** [dTimes]: the creation and modification time of [dService]. *)
Record DiscoverResponse := mkDiscover {
  dCode : Code;
  dType : DiscoverResponseType;
  dService : option PbService;
  dTimes : option (Z * Z);
  dServices : list PbService;
  dInstances : list ApiInstance;
  dAliasFor : option PbService }.

Definition NewDiscoverServiceResponse (code : Code) (service : option PbService) : DiscoverResponse :=
  mkDiscover code SERVICES service None [] [] None.
Definition NewDiscoverInstanceResponse (code : Code) (service : option PbService) : DiscoverResponse :=
  mkDiscover code INSTANCE service None [] [] None.

(** A service message with a namespace, a name and a revision. *)
Definition pbService (namespace name : option string) (meta : option (gmap string string)) (revision : option string) : PbService :=
  mkPbService None name namespace meta None None None None None None None None None revision None.

Definition createCommonDiscoverResponse (req : option PbService) (dT : DiscoverResponseType) : DiscoverResponse :=
  mkDiscover ExecuteSuccess dT (Some (pbService (req ≫= sNamespace) (req ≫= sName) None None)) None [] [] None.

Definition DefaultNamespace : string := "default".

Definition set_namespace (s : PbService) (ns : string) : PbService :=
  mkPbService (sId s) (sName s) (Some ns) (sMetadata s) (sPorts s) (sBusiness s) (sDepartment s)
    (sCmdbMod1 s) (sCmdbMod2 s) (sCmdbMod3 s) (sComment s) (sOwners s) (sToken s) (sRevision s) (sPlatformId s).
Definition set_revision (s : PbService) (revision : string) : PbService :=
  mkPbService (sId s) (sName s) (sNamespace s) (sMetadata s) (sPorts s) (sBusiness s) (sDepartment s)
    (sCmdbMod1 s) (sCmdbMod2 s) (sCmdbMod3 s) (sComment s) (sOwners s) (sToken s) (Some revision) (sPlatformId s).

(** [service2Api]; the token stays out. *)
Definition service2Api (s : ServiceModel) : PbService :=
  mkPbService (Some (svcID s)) (Some (svcName s)) (Some (svcNamespace s)) (svcMeta s) (Some (svcPorts s)) (Some (svcBusiness s))
    (Some (svcDepartment s)) (Some (svcCmdbMod1 s)) (Some (svcCmdbMod2 s)) (Some (svcCmdbMod3 s)) (Some (svcComment s))
    (Some (svcOwner s)) None (Some (svcRevision s)) (Some (svcPlatformID s)).

Section server.
  (** [s.cmdb]: absent, or what [GetLocation] answers for a host - an error, nil,
      or a location. *)
  Context (cmdb : option (string -> option (option (string * string * string)))).

(** ** Instances *)

Definition isEmptyLocation (loc : option (string * string * string)) : bool :=
  match loc with
  | None => true
  | Some (region, zone, campus) => bool_decide (region = "") && bool_decide (zone = "") && bool_decide (campus = "")
  end.

Definition packCmdb (out : ApiInstance) : ApiInstance :=
  match cmdb with
  | None => out
  | Some GetLocation =>
      if negb (isEmptyLocation (aLocation out)) then out
      else match GetLocation (aHost out) with
           | Some (Some location) =>
               mkApiInstance (aId out) (aService out) (aNamespace out) (aVpcId out) (aHost out) (aPort out) (aProtocol out)
                 (aVersion out) (aPriority out) (aWeight out) (aEnableHealthCheck out) (aHealthCheck out) (aHealthy out)
                 (aIsolate out) (Some location) (aMetadata out) (aLogicSet out) (aMtime out) (aRevision out)
           | _ => out
           end
  end.

Definition getInstance (service : PbService) (i : StoreInstance) : ApiInstance :=
  packCmdb (mkApiInstance (ID (proto i)) (sName service) (sNamespace service) (VpcID (proto i)) (IHost (proto i)) (Port (proto i))
    (Protocol i) (Version i) (Priority i) (Weight i) (EnableHealthCheck (proto i)) (GetHealthCheck (proto i)) (Healthy (proto i))
    (Isolate (proto i)) (Location i) (Metadata (proto i)) (LogicSet i) (MtimeText i) (Revision (proto i))).

(** ** The handlers

    [caches]: nil when the server runs without.  A handler returns the caches, as
    it may have changed objects they share. *)

Definition commonCheckDiscoverRequest (caches : option CacheManager) (req : option PbService) : option Code :=
  match caches, req with
  | None, _ => Some ClientAPINotOpen
  | Some _, None => Some EmptyRequest
  | Some _, Some req =>
      if decide (GetValue (sName req) = "") then Some InvalidServiceName
      else if decide (GetValue (sNamespace req) = "") then Some InvalidNamespaceName
      else None
  end.

(** Metadata that is nil becomes an empty map, in the shared object. *)
Definition fillMeta (s : ServiceModel) : ServiceModel :=
  match svcMeta s with
  | Some _ => s
  | None => mkService (svcID s) (svcName s) (svcNamespace s) (svcBusiness s) (svcPorts s) (Some ∅) (svcComment s) (svcDepartment s)
      (svcCmdbMod1 s) (svcCmdbMod2 s) (svcCmdbMod3 s) (svcToken s) (svcOwner s) (svcRevision s) (svcReference s) (svcPlatformID s)
      (svcValid s) (svcCreateTime s) (svcModifyTime s)
  end.

(** The service of that name, or the one it is an alias of. *)
Definition getServiceCache (ic : instanceCache) (sc : serviceCache) (name namespace : string) : serviceCache * option ptr :=
  match GetServiceByName ic sc name namespace with
  | (sc, None) => (sc, None)
  | (sc, Some service) =>
      let '(sc, service) := if IsAlias (deref sc service) then GetServiceByID ic sc (svcReference (deref sc service)) else (sc, Some service) in
      match service with
      | None => (sc, None)
      | Some service => (set_objects sc (alter fillMeta service (objects sc)), Some service)
      end
  end.

(** [s.GetServiceInstanceRevision]: the kept revision, else computed on the spot;
    [None] for [ErrorNoService]. *)
Definition ServerRevision (m : CacheManager) (serviceID : string) (insts : list StoreInstance) : CacheManager * option string :=
  let revision := GetServiceInstanceRevision m serviceID in
  if decide (revision <> "") then (m, Some revision)
  else
    let '(sc, svc) := GetServiceByID (instances m) (services m) serviceID in
    (set_services m sc,
     match svc with
     | None => None
     | Some svc => Some (ComputeRevision (svcRevision (deref sc svc)) ((fun it => Revision (proto it)) <$> insts))
     end).

Definition addInstance (req : PbService) (l : list ApiInstance) (key : string) (value : StoreInstance) :
    list ApiInstance * bool * option Empty_set := (l ++ [getInstance req value], true, None).

(** The answer about the service [p] that was found. *)
Definition answerInstances (m : CacheManager) (req : PbService) (p : ptr) : CacheManager * DiscoverResponse :=
  let aliasFor := deref (services m) p in
  let '(m, revision) :=
    let revision := GetServiceInstanceRevision m (svcID aliasFor) in
    if decide (revision = "") then ServerRevision m (svcID aliasFor) (GetInstancesByServiceID (instances m) (svcID aliasFor))
    else (m, Some revision) in
  match revision with
  | None => (m, NewDiscoverInstanceResponse ExecuteException (Some req))
  | Some revision =>
      if decide (revision = GetValue (sRevision req)) then (m, NewDiscoverInstanceResponse DataNoChange (Some req))
      else
        let aliasFor := deref (services m) p in
        (m, mkDiscover ExecuteSuccess INSTANCE (Some (set_revision (service2Api aliasFor) revision))
              (Some (svcCreateTime aliasFor, svcModifyTime aliasFor)) []
              (IteratorInstancesWithService (addInstance req) (instances m) (svcID aliasFor) []).1
              (Some (pbService (Some (svcNamespace aliasFor)) (Some (svcName aliasFor)) None None)))
  end.

Definition ServiceInstancesCache (caches : option CacheManager) (req : option PbService) : outcome (option CacheManager * DiscoverResponse) :=
  let resp := createCommonDiscoverResponse req INSTANCE in
  req ← (if decide (GetValue (req ≫= sNamespace) = "")
         then match req with None => Panics NilDereference | Some req => Ret (Some (set_namespace req DefaultNamespace)) end
         else Ret req);
  match commonCheckDiscoverRequest caches req with
  | Some code => Ret (caches, mkDiscover code (dType resp) req None [] [] None)
  | None =>
      match caches, req with
      | Some m, Some req =>
          let '(sc, aliasFor) := getServiceCache (instances m) (services m) (GetValue (sName req)) (GetValue (sNamespace req)) in
          let m := set_services m sc in
          match aliasFor with
          | None => Ret (Some m, NewDiscoverInstanceResponse NotFoundResource (Some req))
          | Some p => let '(m, resp) := answerInstances m req p in Ret (Some m, resp)
          end
      | _, _ => Ret (caches, resp)
      end
  end.

Definition GetServiceWithCache (caches : option CacheManager) (req : option PbService) : DiscoverResponse :=
  match caches, req with
  | None, _ => NewDiscoverServiceResponse ClientAPINotOpen req
  | Some _, None => NewDiscoverServiceResponse EmptyRequest req
  | Some m, Some req =>
      let '(revision, svcs) :=
        if decide (GetValue (sNamespace req) <> "") then ListServices (services m) (GetValue (sNamespace req))
        else ListAllServices (services m) in
      if decide (revision = "") then NewDiscoverServiceResponse ExecuteSuccess (Some req)
      else if decide (revision = GetValue (sRevision req)) then NewDiscoverServiceResponse DataNoChange (Some req)
      else
        mkDiscover ExecuteSuccess SERVICES
          (Some (pbService (Some (GetValue (sNamespace req))) (Some (GetValue (sName req))) None (Some revision))) None
          ((fun s => pbService (Some (svcNamespace s)) (Some (svcName s)) (svcMeta s) None) <$> svcs) [] None
  end.

End server.

(** ** Lemmas *)

Lemma iterate_instances cmdb req l data :
  (iteratorInstancesProc (addInstance cmdb req) l data).1 = l ++ (getInstance cmdb req <$> data.*2).
Proof.
  revert l. induction data as [|[k v] data IH]; intros l; cbn; [by rewrite app_nil_r|]. by rewrite IH, <- app_assoc.
Qed.

Lemma instances_of_service cmdb req ic s :
  (IteratorInstancesWithService (addInstance cmdb req) ic s []).1 = getInstance cmdb req <$> GetInstancesByServiceID ic s.
Proof.
  unfold IteratorInstancesWithService, GetInstancesByServiceID. case_decide; [done|].
  destruct (InstanceCache.services ic !! s); [apply iterate_instances|done].
Qed.

(** What readers do to the objects. *)
Definition reads : serviceCache -> serviceCache -> Prop :=
  rtc (fun sc sc' => exists f p, harmless f /\ sc' = set_objects sc (alter f p (objects sc))).

Lemma reads_one sc f p : harmless f -> reads sc (set_objects sc (alter f p (objects sc))).
Proof. intros Hf. apply rtc_once. by exists f, p. Qed.

Lemma reads_agrees sc sc' st : reads sc sc' -> agrees sc st -> agrees sc' st.
Proof. induction 1 as [|sc sc1 sc2 (f & p & Hf & ->) _ IH]; [done|]. intros Hag. by apply IH, alter_agrees. Qed.

Lemma reads_follows D b sc sc' st : reads sc sc' -> ServiceCache.follows D b sc st -> ServiceCache.follows D b sc' st.
Proof. induction 1 as [|sc sc1 sc2 (f & p & Hf & ->) _ IH]; [done|]. intros Hag. by apply IH, follows_read. Qed.

Lemma reads_points sc sc' p r : reads sc sc' -> points sc p r -> points sc' p r.
Proof. induction 1 as [|sc sc1 sc2 (f & q & Hf & ->) _ IH]; [done|]. intros Hp. by apply IH, points_alter. Qed.

Lemma GetServiceByID_reads ic sc s : reads sc (GetServiceByID ic sc s).1.
Proof. unfold GetServiceByID. repeat case_match; [apply rtc_refl|apply reads_one, fillPorts_harmless|apply rtc_refl]. Qed.
Lemma GetServiceByName_reads ic sc name ns : reads sc (GetServiceByName ic sc name ns).1.
Proof. unfold GetServiceByName. repeat case_match; try apply rtc_refl. apply reads_one, fillPorts_harmless. Qed.

Lemma fillMeta_harmless : harmless fillMeta.
Proof.
  intros r o Hr. unfold fillMeta. destruct (svcMeta o) as [m|] eqn:Hm; [done|].
  destruct Hr as (?&?&?&?&?&?&?&?&?&?&?&?&?&?&?&?&?&Hmeta). unfold seesRow. cbn. split_and!; try done. by rewrite <- Hmeta, Hm.
Qed.

Lemma getServiceCache_reads ic sc name ns : reads sc (getServiceCache ic sc name ns).1.
Proof.
  unfold getServiceCache. pose proof (GetServiceByName_reads ic sc name ns) as Hn.
  destruct (GetServiceByName ic sc name ns) as [sc1 [p|]]; cbn [fst] in *; [|done].
  destruct (IsAlias (deref sc1 p)).
  - pose proof (GetServiceByID_reads ic sc1 (svcReference (deref sc1 p))) as Hi.
    destruct (GetServiceByID ic sc1 (svcReference (deref sc1 p))) as [sc2 [q|]]; cbn [fst] in *; [|by etrans].
    etrans; [done|]. etrans; [done|]. apply reads_one, fillMeta_harmless.
  - cbn [fst]. etrans; [done|]. apply reads_one, fillMeta_harmless.
Qed.

(** ** What a name stands for *)

(** [src] is the valid service of that name or, when that is an alias, the valid
    service it refers to. *)
Definition stands_for (st : gmap string ServiceModel) (name namespace : string) (src : ServiceModel) : Prop :=
  exists i r, st !! i = Some r /\ svcValid r = true /\ svcName r = name /\ svcNamespace r = namespace /\
    if IsAlias r then st !! svcReference r = Some src /\ svcValid src = true else src = r.

(** Services have ids, and a valid alias refers to a row. *)
Definition linked (st : gmap string ServiceModel) : Prop :=
  map_Forall (fun i r => i <> "" /\ (svcValid r = true -> IsAlias r = true -> is_Some (st !! svcReference r))) st.

Lemma IsAlias_sees r o : seesRow r o -> IsAlias o = IsAlias r.
Proof. intros (_ & _ & _ & _ & Href & _). unfold IsAlias. by rewrite Href. Qed.

Lemma getServiceCache_spec ic sc st name ns :
  agrees sc st -> linked st -> name <> "" -> ns <> "" ->
  match (getServiceCache ic sc name ns).2 with
  | Some p => exists src, stands_for st name ns src /\ points (getServiceCache ic sc name ns).1 p src
  | None => forall src, ~ stands_for st name ns src
  end.
Proof.
  intros Hag Hl Hn Hns. unfold getServiceCache.
  destruct (GetServiceByName_spec ic sc st name ns Hag Hn Hns) as [Hag1 Hs].
  destruct (GetServiceByName ic sc name ns) as [sc1 [p|]]; cbn [fst snd] in *.
  2:{ intros src (i & r & Hr & Hv & H1 & H2 & _). rewrite (Hs i r Hr) in Hv by (unfold svcKey; congruence). done. }
  destruct Hs as (i & r & Hr & Hv & Hk & Hp). pose proof (points_deref _ _ _ Hp) as Hsee.
  assert (forall j r', st !! j = Some r' -> svcName r' = name -> svcNamespace r' = ns -> r' = r) as Honly.
  { intros j r' Hr' H1 H2. assert (j = i) as -> by (eapply (ag_store _ _ Hag); [done..|]; unfold svcKey in *; congruence). congruence. }
  injection Hk as Hk1 Hk2. rewrite (IsAlias_sees _ _ Hsee). destruct (IsAlias r) eqn:Hal.
  - assert (svcReference (deref sc1 p) = svcReference r) as -> by apply Hsee.
    destruct (Hl _ _ Hr) as [_ Href]. destruct (Href Hv Hal) as [src Hsrc].
    assert (svcReference r <> "") as Hne by (by unfold IsAlias in Hal; apply bool_decide_eq_true in Hal).
    destruct (GetServiceByID_spec ic sc1 st (svcReference r) src Hag1 Hne Hsrc) as [_ Hid].
    destruct (GetServiceByID ic sc1 (svcReference r)) as [sc2 [q|]]; cbn [fst snd] in *.
    + exists src. destruct Hid as [Hvs Hq]. split; [|apply points_alter; [apply fillMeta_harmless|done]].
      exists i, r. rewrite Hal. done.
    + intros src' (j & r' & Hr' & Hv' & H1 & H2 & Hx). rewrite (Honly _ _ Hr' H1 H2), Hal in Hx. destruct Hx as [Hx Hvx]. congruence.
  - cbn [fst snd]. exists r. split; [|apply points_alter; [apply fillMeta_harmless|done]]. exists i, r. by rewrite Hal.
Qed.

Lemma stands_for_row st name ns src : stands_for st name ns src -> store_ok st -> st !! svcID src = Some src /\ svcValid src = true.
Proof.
  intros (i & r & Hr & Hv & _ & _ & Hs) [Hk _]. destruct (IsAlias r).
  - destruct Hs as [Hs Hvs]. by rewrite (Hk _ _ Hs).
  - subst. by rewrite (Hk _ _ Hr).
Qed.

(** ** The answer about a service *)

(** The revision the answer is about: the kept one, else the current one. *)
Definition answeredRevision (m : CacheManager) (src : ServiceModel) : string :=
  if decide (GetServiceInstanceRevision m (svcID src) = "")
  then ComputeRevision (svcRevision src) (instanceRevisions (instances m) (svcID src))
  else GetServiceInstanceRevision m (svcID src).

Definition caches_kept (m m' : CacheManager) : Prop :=
  reads (services m) (services m') /\ instances m' = instances m /\ revisions m' = revisions m /\
  comRevisionCh m' = comRevisionCh m /\ working m' = working m.

Lemma answerInstances_spec cmdb m req p src st :
  agrees (services m) st -> points (services m) p src -> svcID src <> "" ->
  st !! svcID src = Some src -> svcValid src = true ->
  let '(m', resp) := answerInstances cmdb m req p in
  let rev := answeredRevision m src in
  caches_kept m m' /\
  if decide (rev = GetValue (sRevision req)) then resp = NewDiscoverInstanceResponse DataNoChange (Some req)
  else exists o, seesRow src o /\
    resp = mkDiscover ExecuteSuccess INSTANCE (Some (set_revision (service2Api o) rev)) (Some (svcCreateTime o, svcModifyTime o)) []
      (getInstance cmdb req <$> GetInstancesByServiceID (instances m) (svcID src))
      (Some (pbService (Some (svcNamespace src)) (Some (svcName src)) None None)).
Proof.
  intros Hag Hp Hid Hrow Hv. unfold answerInstances. pose proof (points_deref _ _ _ Hp) as Hsee.
  assert (svcID (deref (services m) p) = svcID src) as -> by apply Hsee. unfold answeredRevision.
  assert (forall sc', reads (services m) sc' -> forall rev (m' := set_services m sc'),
    let '(m'', resp) :=
      (if decide (rev = GetValue (sRevision req)) then (m', NewDiscoverInstanceResponse DataNoChange (Some req))
       else (m', mkDiscover ExecuteSuccess INSTANCE (Some (set_revision (service2Api (deref (services m') p)) rev))
          (Some (svcCreateTime (deref (services m') p), svcModifyTime (deref (services m') p))) []
          (IteratorInstancesWithService (addInstance cmdb req) (instances m') (svcID (deref (services m') p)) []).1
          (Some (pbService (Some (svcNamespace (deref (services m') p))) (Some (svcName (deref (services m') p))) None None)))) in
    caches_kept m m'' /\
    if decide (rev = GetValue (sRevision req)) then resp = NewDiscoverInstanceResponse DataNoChange (Some req)
    else exists o, seesRow src o /\
      resp = mkDiscover ExecuteSuccess INSTANCE (Some (set_revision (service2Api o) rev)) (Some (svcCreateTime o, svcModifyTime o)) []
        (getInstance cmdb req <$> GetInstancesByServiceID (instances m) (svcID src))
        (Some (pbService (Some (svcNamespace src)) (Some (svcName src)) None None))) as Hans.
  { intros sc' Hr rev m'. assert (caches_kept m m') as Hk by done. case_decide; [done|]. split; [done|].
    pose proof (points_deref _ _ _ (reads_points _ _ _ _ Hr Hp)) as Hsee'. exists (deref sc' p). split; [done|].
    cbn [services instances m' set_services]. rewrite instances_of_service. destruct Hsee' as (-> & -> & -> & _). done. }
  destruct (decide (GetServiceInstanceRevision m (svcID src) = "")) as [He|He].
  - unfold ServerRevision. rewrite decide_False by tauto.
    destruct (GetServiceByID_spec (instances m) (services m) st (svcID src) src Hag Hid Hrow) as [_ Hs].
    pose proof (GetServiceByID_reads (instances m) (services m) (svcID src)) as Hr.
    destruct (GetServiceByID (instances m) (services m) (svcID src)) as [sc1 [q|]]; cbn [fst snd] in Hs, Hr; [|congruence].
    destruct Hs as [_ Hq%points_deref]. assert (svcRevision (deref sc1 q) = svcRevision src) as -> by apply Hq. by apply Hans.
  - assert (set_services m (services m) = m) as Hm by (by destruct m). pose proof (Hans (services m) (rtc_refl _ _)) as Hx. rewrite Hm in Hx. apply Hx.
Qed.

(** ** Properties *)

(** The namespace a request is about, and the request as the answer sees it. *)
Definition requestNamespace (req : PbService) : string :=
  if decide (GetValue (sNamespace req) = "") then DefaultNamespace else GetValue (sNamespace req).
Definition namedRequest (req : PbService) : PbService :=
  if decide (GetValue (sNamespace req) = "") then set_namespace req DefaultNamespace else req.

Lemma namedRequest_fields req :
  sName (namedRequest req) = sName req /\ GetValue (sNamespace (namedRequest req)) = requestNamespace req /\
  sRevision (namedRequest req) = sRevision req /\ requestNamespace req <> "".
Proof. unfold namedRequest, requestNamespace. by case_decide. Qed.

(** The valid instances that the store has of a service, and the revision of both. *)
Definition storeInstances (src : ServiceModel) (ist : gmap string StoreInstance) :=
  (map_to_list (filter (fun kv => sid kv.2 = svcID src) (visible [] ist))).*2.
Definition storeRevision (src : ServiceModel) (ist : gmap string StoreInstance) : string :=
  ComputeRevision (svcRevision src) ((fun it => Revision (proto it)) <$> storeInstances src ist).

(** The workers having done their work, the revision of an answer is the one of the stores. *)
Lemma settled_answer (D' : Z) (b nm : bool) (svc : string -> string) ic m st ist src :
  calmly (newCacheManager (newServiceCache b nm) ic) m -> settled m -> agrees (services m) st -> InstanceCache.follows D' svc [] (instances m) ist ->
  st !! svcID src = Some src -> svcValid src = true -> svcID src <> "" ->
  answeredRevision m src = storeRevision src ist.
Proof.
  intros Hr Hset Hag Hi Hrow Hv Hid. destruct (new_manager_inv b nm ic) as [Hc0 Hi0]. destruct (calmly_inv _ _ Hc0 Hi0 Hr) as [_ Hi1].
  assert (storeRevision src ist = ComputeRevision (svcRevision src) (instanceRevisions (instances m) (svcID src))) as ->.
  { unfold storeRevision, ComputeRevision. f_equal. apply sort_strings_perm. unfold instanceRevisions, storeInstances.
    destruct (InstanceCache.follows_inv _ _ _ _ _ Hi) as (Hic & Hids & _). rewrite <- Hids. by rewrite (InstanceCache.service_instances svc _ _ Hic Hid). }
  unfold answeredRevision. case_decide as He; [done|]. pose proof (ag_ids _ _ Hag (svcID src) src Hrow) as Hp. rewrite Hv in Hp.
  destruct Hp as (p & Hp & Hpt). unfold byID in Hp.
  unfold GetServiceInstanceRevision, readRevisions. rewrite (settled_revision m (svcID src)) by done. unfold currentRevision. rewrite Hp. cbn.
  assert (svcRevision (deref (services m) p) = svcRevision src) as -> by apply (points_deref _ _ _ Hpt). done.
Qed.

(** C3. Discovery answers the store: when the caches follow the stores, a request
    for the instances of a service - named, or by an alias of it, in the default
    namespace if none is given - is answered without a panic, [NotFoundResource]
    exactly when the store has no such valid service, [DataNoChange] when the
    client has the revision that the server keeps of the service, or computes if it
    keeps none, and otherwise the service's row, that revision, and exactly the valid
    instances the store has of it, under the name that was asked for; and the answer
    leaves the caches following.  Once the workers of a manager, no two of them on
    one service, have worked off the notifications, that revision is the one of the
    service and its valid instances in the stores. *)
Theorem discovery_answers_the_stores (D D' : Z) (b : bool) (svc : string -> string) (cmdb : option (string -> option (option (string * string * string))))
    (m : CacheManager) (st : gmap string ServiceModel) (ist : gmap string StoreInstance) (req : PbService) :
  ServiceCache.follows D b (services m) st -> linked st -> InstanceCache.follows D' svc [] (instances m) ist ->
  GetValue (sName req) <> "" ->
  exists m' resp, ServiceInstancesCache cmdb (Some m) (Some req) = Ret (Some m', resp) /\
    ServiceCache.follows D b (services m') st /\ instances m' = instances m /\ revisions m' = revisions m /\
    ((forall src, ~ stands_for st (GetValue (sName req)) (requestNamespace req) src) /\ dCode resp = NotFoundResource /\ dInstances resp = [] \/
     exists src, stands_for st (GetValue (sName req)) (requestNamespace req) src /\
       let rev := answeredRevision m src in
       (forall b nm ic, calmly (newCacheManager (newServiceCache b nm) ic) m -> settled m -> rev = storeRevision src ist) /\
       if decide (rev = GetValue (sRevision req)) then dCode resp = DataNoChange /\ dInstances resp = []
       else exists o, seesRow src o /\ dCode resp = ExecuteSuccess /\ dService resp = Some (set_revision (service2Api o) rev) /\
         dAliasFor resp = Some (pbService (Some (svcNamespace src)) (Some (svcName src)) None None) /\
         dInstances resp ≡ₚ getInstance cmdb (namedRequest req) <$> storeInstances src ist).
Proof.
  intros Hs Hlink Hi Hname. destruct (follows_agrees _ _ _ _ Hs) as [_ Hag].
  destruct (namedRequest_fields req) as (Hn1 & Hn2 & Hn3 & Hn4). unfold ServiceInstancesCache.
  assert ((if decide (GetValue (Some req ≫= sNamespace) = "") then Ret (Some (set_namespace req DefaultNamespace)) else Ret (Some req)) =
    Ret (Some (namedRequest req))) as -> by (unfold namedRequest; cbn [mbind option_bind]; by case_decide).
  cbn [mbind outcome_bind]. unfold commonCheckDiscoverRequest. rewrite Hn1, Hn2, !decide_False by done.
  pose proof (getServiceCache_spec (instances m) _ _ _ _ Hag Hlink Hname Hn4) as Hc.
  pose proof (getServiceCache_reads (instances m) (services m) (GetValue (sName req)) (requestNamespace req)) as Hr.
  destruct (getServiceCache (instances m) (services m) (GetValue (sName req)) (requestNamespace req)) as [sc [p|]]; cbn [fst snd] in Hc, Hr.
  2:{ do 2 eexists. split; [done|]. cbn. split; [by eapply reads_follows|]. split_and!; [done..|]. by left. }
  destruct Hc as (src & Hst & Hp). destruct (stands_for_row _ _ _ _ Hst (ag_store _ _ Hag)) as [Hrow Hv]. destruct (Hlink _ _ Hrow) as [Hid _].
  pose proof (answerInstances_spec cmdb (set_services m sc) (namedRequest req) p src st (reads_agrees _ _ _ Hr Hag) Hp Hid Hrow Hv) as Ha.
  destruct (answerInstances cmdb (set_services m sc) (namedRequest req) p) as [m' resp]. cbv zeta in Ha. destruct Ha as [(Hr' & H1 & H2 & _) Ha].
  do 2 eexists. split; [done|]. split; [eapply reads_follows; [exact Hr'|]; by eapply reads_follows|]. split_and!; [done..|]. right.
  exists src. split; [done|]. cbv zeta. rewrite Hn3 in Ha. change (answeredRevision (set_services m sc) src) with (answeredRevision m src) in Ha.
  split; [intros; by eapply settled_answer|]. case_decide; [by subst resp|]. destruct Ha as (o & Ho & ->). exists o. split_and!; try done. cbn [dInstances instances set_services].
  destruct (InstanceCache.follows_inv _ _ _ _ _ Hi) as (Hic & Hids & _).
  unfold storeInstances. rewrite <- Hids. by rewrite (InstanceCache.service_instances svc _ _ Hic Hid).
Qed.

(** C6. That nothing changed means that nothing changed. Take two states of the
    manager, each reached without two workers holding the same service and settled,
    with no notification left: a client that got the revision of a service in the
    one is told [DataNoChange] in the other exactly when the service has the same
    revision and the same revisions of its instances - all revisions being of one
    length, and SHA-1 not colliding on the two. *)
Theorem no_change_means_no_change (b nm : bool) (ic : instanceCache) (cmdb : option (string -> option (option (string * string * string))))
    (m0 m : CacheManager) (s : string) (p0 p : ptr) (st : gmap string ServiceModel) (src : ServiceModel) (req : PbService) (n : nat) :
  calmly (newCacheManager (newServiceCache b nm) ic) m0 -> settled m0 -> calmly (newCacheManager (newServiceCache b nm) ic) m -> settled m ->
  s <> "" -> ids (tbl (services m0)) !! s = Some p0 -> ids (tbl (services m)) !! s = Some p ->
  agrees (services m) st -> st !! s = Some src -> svcValid src = true -> svcID src = s -> points (services m) p src ->
  sRevision req = Some (GetServiceInstanceRevision m0 s) ->
  (0 < n)%nat -> Forall (fun r => String.length r = n) (revisionOf m0 p0 :: instanceRevisions (instances m0) s) ->
  Forall (fun r => String.length r = n) (svcRevision src :: instanceRevisions (instances m) s) ->
  (let input r l := bytes_of (String.concat "" ([r] ++ merge_sort string_le l)) in
   sha1_sum (input (svcRevision src) (instanceRevisions (instances m) s)) = sha1_sum (input (revisionOf m0 p0) (instanceRevisions (instances m0) s)) ->
   input (svcRevision src) (instanceRevisions (instances m) s) = input (revisionOf m0 p0) (instanceRevisions (instances m0) s)) ->
  dCode (answerInstances cmdb m req p).2 = DataNoChange <->
  svcRevision src = revisionOf m0 p0 /\ instanceRevisions (instances m) s ≡ₚ instanceRevisions (instances m0) s.
Proof.
  intros Hr0 Hset0 Hr Hset Hs Hp0 Hp Hag Hrow Hv Hid Hpt Hreq Hn Hl0 Hl Hcol.
  destruct (new_manager_inv b nm ic) as [Hc0 Hi0]. destruct (calmly_inv _ _ Hc0 Hi0 Hr0) as [_ Hi1]. destruct (calmly_inv _ _ Hc0 Hi0 Hr) as [_ Hi2].
  assert (GetServiceInstanceRevision m0 s = ComputeRevision (revisionOf m0 p0) (instanceRevisions (instances m0) s)) as Hk0
    by (unfold GetServiceInstanceRevision, readRevisions; rewrite (settled_revision m0 s) by done; unfold currentRevision; by rewrite Hp0).
  assert (answeredRevision m src = ComputeRevision (svcRevision src) (instanceRevisions (instances m) s)) as Hk.
  { unfold answeredRevision. rewrite Hid. case_decide as He; [done|].
    unfold GetServiceInstanceRevision, readRevisions. rewrite (settled_revision m s) by done. unfold currentRevision. rewrite Hp. cbn.
    assert (svcRevision (deref (services m) p) = svcRevision src) as -> by apply (points_deref _ _ _ Hpt). done. }
  rewrite <- Hid in Hs, Hrow. pose proof (answerInstances_spec cmdb m req p src st Hag Hpt Hs Hrow Hv) as Ha.
  destruct (answerInstances cmdb m req p) as [m' resp]. cbv zeta in Ha. destruct Ha as [_ Ha]. cbn [snd].
  rewrite Hk, Hreq in Ha. cbn [GetValue from_option default] in Ha. rewrite Hk0 in Ha.
  rewrite <- (revision_identifies_service n (svcRevision src) (revisionOf m0 p0) _ _ Hn Hl Hl0 Hcol).
  case_decide as Hd.
  - by subst resp.
  - destruct Ha as (o & _ & ->). done.
Qed.

(** The list of a namespace is its valid services, and a client that has the
    revision of the list is told that nothing changed. *)
Theorem service_list_answers_the_store (D : Z) (b : bool) (m : CacheManager) (st : gmap string ServiceModel) (req : PbService) (ns : string) :
  ServiceCache.follows D b (services m) st -> sNamespace req = Some ns -> ns <> "" ->
  let resp := GetServiceWithCache (Some m) (Some req) in
  let revision := (ListServices (services m) ns).1 in
  (revision <> "" -> dCode resp = DataNoChange <-> revision = GetValue (sRevision req)) /\
  (dCode resp = ExecuteSuccess -> revision <> "" ->
     (dService resp ≫= sRevision) = Some revision /\ revision = CompositeComputeRevision (svcRevision <$> (ListServices (services m) ns).2) /\
     forall name, (exists s, s ∈ dServices resp /\ sNamespace s = Some ns /\ sName s = Some name) <->
       exists i r, st !! i = Some r /\ svcValid r = true /\ svcNamespace r = ns /\ svcName r = name).
Proof.
  intros Hs Hreq Hns. destruct (follows_agrees _ _ _ _ Hs) as [_ Hag]. cbv zeta. unfold GetServiceWithCache. rewrite Hreq. cbn [GetValue from_option default id].
  rewrite (decide_True (P := ns <> "")) by done. pose proof (ListServices_revision _ _ ns Hag) as Hrev.
  pose proof (fun s => ListServices_spec _ _ ns s Hag) as Hspec.
  destruct (ListServices (services m) ns) as [revision svcs]. cbn [fst snd] in *.
  destruct (decide (revision = "")) as [->|Hne]; [by split|]. destruct (decide (revision = GetValue (sRevision req))) as [->|Hd]; cbn.
  - by split.
  - split; [by split|]. intros _ _. split; [done|]. split; [by destruct Hrev|]. intros name. split.
    + intros (x & Hx & Hxns & Hxn). apply list_elem_of_fmap in Hx as (s & -> & Hin). cbn in Hxns, Hxn.
      destruct (proj1 (Hspec s) Hin) as (i & r & Hr & Hv & Hrns & Hsee). exists i, r. split_and!; try done. destruct Hsee as (_ & <- & _). by injection Hxn.
    + intros (i & r & Hr & Hv & Hrns & <-). destruct (proj2 (Hspec r) i r Hr Hv Hrns) as (s & Hin & Hsee).
      eexists. split; [apply list_elem_of_fmap; by exists s|]. cbn. destruct Hsee as (_ & -> & -> & _). by rewrite Hrns.
Qed.

(** A nil request panics, although there is an answer for one. *)
Theorem nil_discovery_panics (cmdb : option (string -> option (option (string * string * string)))) (caches : option CacheManager) :
  ServiceInstancesCache cmdb caches None = Panics NilDereference /\
  dCode (GetServiceWithCache caches None) = match caches with None => ClientAPINotOpen | Some _ => EmptyRequest end.
Proof. by destruct caches. Qed.
