(* ===== verification/DiscoveryCases.v ===== *)
(** * Discovery at work: witnesses and what the code does not do

    A small registry - a service and its alias, two instances - on which the
    theorems of [ServiceCache.v], [CacheManager.v] and [Discovery.v] are applied,
    and the runs that show what the code does not guarantee: workers that race, a
    service created again between two fetches, an alias that moves, counts that go
    astray, and a read lock taken twice. *)

From S2P Require Import Prelude GoStrings Hash Utils Services HealthCache BaseCache InstanceCache ServiceCache CacheManager Discovery.
From Stdlib Require Import ZArith Lia.
From stdpp Require Import base tactics list gmap strings sorting relations.

Open Scope Z_scope.

(** ** A registry *)

Definition demo_service (id name revision reference : string) (valid : bool) (secs : Z) : ServiceModel :=
  mkService id name "default" "" "" None "" "" "" "" "" "token" "owner" revision reference "" valid 0 (FromUnix secs).
Definition db : ServiceModel := demo_service "svc-id" "db" "r1" "" true 100.
Definition db_alias : ServiceModel := demo_service "alias-id" "db-alias" "r2" "svc-id" true 100.

Definition demo_services : gmap string ServiceModel := {["svc-id" := db; "alias-id" := db_alias]}.
Definition demo_ask_services (st : gmap string ServiceModel) (sc : serviceCache) (now : Z) : ServiceCache.answers :=
  ServiceCache.mkAnswers (Some now)
    (Some (map_to_list (GetMoreServices st (ServiceCache.fetchTime demo_diff sc) (ServiceCache.isFirstUpdate sc) (disableBusiness sc) (ServiceCache.needMeta sc))).*2)
    now (Some (StoreServicesCount st)).

Definition demo_sc0 : serviceCache := newServiceCache false false.
Definition demo_sc1 : serviceCache := (ServiceCache.update demo_ic1 demo_sc0 (demo_ask_services demo_services demo_sc0 200)).1.

Lemma two_services (P : string -> ServiceModel -> Prop) a b :
  P "svc-id" a -> P "alias-id" b -> map_Forall P ({["svc-id" := a; "alias-id" := b]} : gmap string ServiceModel).
Proof. intros H1 H2 k r [[<- <-]|[_ [<- <-]%lookup_singleton_Some]]%lookup_insert_Some; done. Qed.

Lemma demo_services_ok : store_ok (business false demo_services) /\ linked (business false demo_services) /\ business false demo_services = demo_services.
Proof.
  assert (business false demo_services = demo_services) as -> by (apply map_filter_id; done). split_and!; [|by apply two_services|done].
  split; [by apply two_services|]. unfold demo_services. intros i j r r' Hi Hj.
  apply lookup_insert_Some in Hi as [[<- <-]|[_ [<- <-]%lookup_singleton_Some]], Hj as [[<- <-]|[_ [<- <-]%lookup_singleton_Some]]; done.
Qed.

Lemma demo_services_follow : ServiceCache.follows demo_diff false demo_sc1 (business false demo_services).
Proof.
  destruct demo_services_ok as (Hok & _ & He). eapply (ServiceCache.follows_update _ _ demo_ic1 demo_sc0 ∅); [apply follows_new|done| |reflexivity|reflexivity].
  intros i. rewrite He. destruct (demo_services !! i) as [r|] eqn:Hr; [|by left]. right. left. exists r. split; [done|]. split; [|by intros r'; rewrite lookup_empty].
  assert (map_Forall (fun _ r => ServiceCache.fetchTime demo_diff demo_sc0 <= svcModifyTime r) demo_services) as Hs by (by apply two_services).
  by apply (Hs i).
Qed.

Lemma service_cache_follows_store_witness :
  match GetServiceByName demo_ic1 demo_sc1 "db" "default" with
  | (sc, Some p) => exists i r, demo_services !! i = Some r /\ svcValid r = true /\ svcName r = "db" /\ svcNamespace r = "default" /\ seesRow r (deref sc p)
  | (_, None) => False
  end.
Proof.
  destruct (service_cache_follows_store demo_diff false demo_ic1 demo_sc1 (business false demo_services) "db" "default" "svc-id") as (H & _);
    [exact demo_services_follow|done|done|done|].
  rewrite (proj2 (proj2 demo_services_ok)) in H.
  destruct (GetServiceByName demo_ic1 demo_sc1 "db" "default") as [sc [p|]]; [exact H|].
  pose proof (H "svc-id" db eq_refl eq_refl eq_refl) as Hv. discriminate Hv.
Defined.

Definition demo_request (name : string) (revision : option string) : PbService := pbService None (Some name) None revision.
Definition demo_manager : CacheManager := newCacheManager demo_sc1 demo_ic1.

Lemma discovery_answers_the_stores_witness :
  exists m' resp, ServiceInstancesCache None (Some demo_manager) (Some (demo_request "db-alias" None)) = Ret (Some m', resp) /\
    dCode resp = ExecuteSuccess /\ length (dInstances resp) = 2%nat.
Proof.
  destruct demo_services_ok as (_ & Hl & _).
  destruct (discovery_answers_the_stores demo_diff demo_diff false demo_svc None demo_manager (business false demo_services) demo_store
    (demo_request "db-alias" None) demo_services_follow Hl demo_follows1) as (m' & resp & He & _ & _ & _ & [(H & _)|(src & Hsrc & Hans)]); [discriminate| |].
  - exfalso. apply (H db). rewrite (proj2 (proj2 demo_services_ok)). exists "alias-id", db_alias.
    split; [reflexivity|]. split; [reflexivity|]. split; [reflexivity|]. split; [reflexivity|].
    change (demo_services !! "svc-id" = Some db /\ true = true). split; reflexivity.
  - exists m', resp. split; [exact He|]. cbv zeta in Hans.
    rewrite (proj2 (proj2 demo_services_ok)) in Hsrc. destruct Hsrc as (i & r & Hr & _ & Hn & _ & Ha).
    assert (src = db) as ->.
    { unfold demo_services in Hr. apply lookup_insert_Some in Hr as [[_ <-]|[_ [_ <-]%lookup_singleton_Some]]; [discriminate Hn|]. destruct Ha as [Ha _]. injection Ha as <-. reflexivity. }
    assert (answeredRevision demo_manager db <> "") as Hne by (vm_compute; discriminate).
    destruct Hans as [_ Hans]. rewrite decide_False in Hans by exact Hne. destruct Hans as (o & _ & Hc & _ & _ & Hi). split; [exact Hc|].
    rewrite Hi, length_fmap. vm_compute. reflexivity.
Defined.

(** ** Runs of the manager *)

Definition run0 : CacheManager := newCacheManager (newServiceCache false false) (newInstanceCache true []).
Definition run1 : CacheManager := updateServices run0 (demo_ask_services demo_services demo_sc0 200).
Definition run2 : CacheManager := updateInstances run1 (demo_ask demo_store demo_ic0 200).
(** The workers are left to finish. *)
Definition run3 : CacheManager := Nat.iter (left_to_do run2) drain run2.
(** [i1] is deleted, and the workers finish again. *)
Definition run4 : CacheManager := updateInstances run3 (demo_ask demo_store' (instances run3) 206).
Definition run5 : CacheManager := Nat.iter (left_to_do run4) drain run4.

Lemma calmly_trans m m' m'' : calmly m m' -> calmly m' m'' -> calmly m m''.
Proof. intros H1 H2. induction H2 as [|m1 m2 m3 _ IH Hs Hc]; [done|]. eapply calmly_step; [by apply IH|done..]. Qed.

Lemma run2_calmly : calmly run0 run2 /\ calm run2.
Proof.
  assert (calm run1 /\ calm run2) as [H1 H2] by (split; unfold calm; vm_compute; constructor). split; [|exact H2].
  eapply calmly_step; [eapply calmly_step; [apply calmly_refl|apply step_services|exact H1]|apply step_instances|exact H2].
Qed.

Lemma run3_calmly : calmly run0 run3 /\ calm run3 /\ settled run3.
Proof.
  destruct run2_calmly as [H2 Hc2]. destruct (drain_settles (left_to_do run2) run2 Hc2 (le_n _)) as (Hs & Hr & Hc & _).
  split; [by eapply calmly_trans|]. by split.
Qed.

Lemma run5_calmly : calmly run0 run5 /\ settled run5.
Proof.
  destruct run3_calmly as (H3 & Hc3 & _).
  assert (calm run4) as Hc4 by (unfold calm; vm_compute; constructor).
  assert (calmly run0 run4) as H4 by (eapply calmly_step; [exact H3|apply step_instances|exact Hc4]).
  destruct (drain_settles (left_to_do run4) run4 Hc4 (le_n _)) as (Hs & Hr & _ & _). split; [by eapply calmly_trans|done].
Qed.

Lemma revisions_settle_witness :
  GetServiceInstanceRevision run3 "svc-id" = ComputeRevision "r1" ["r1"; "r1"] /\
  settled (Nat.iter (left_to_do run2) drain run2).
Proof.
  assert (default "" (currentRevision run3 "svc-id") = ComputeRevision "r1" ["r1"; "r1"]) as <- by (vm_compute; reflexivity). split.
  - apply (revisions_settle false false (newInstanceCache true []) run3 "svc-id"); [exact (proj1 run3_calmly)|discriminate|exact (proj2 (proj2 run3_calmly))].
  - apply (revisions_settle false false (newInstanceCache true []) run2 "svc-id"); [exact (proj1 run2_calmly)|discriminate].
Defined.

Lemma run5_follows : ServiceCache.follows demo_diff false (services run5) (business false demo_services).
Proof.
  assert (forall n m st, calm m -> ServiceCache.follows demo_diff false (services m) st -> ServiceCache.follows demo_diff false (services (Nat.iter n drain m)) st) as Hdrain.
  { intros n m st Hc H. assert (forall k, ServiceCache.follows demo_diff false (services (Nat.iter k drain m)) st) as Hk; [|apply Hk].
    induction k as [|k IH]; [exact H|]. change (Nat.iter (S k) drain m) with (drain (Nat.iter k drain m)). revert IH.
    generalize (Nat.iter k drain m) as m1. intros m1 IH. unfold drain. destruct (working m1) as [|[s w] ws] eqn:Hw.
    - unfold takeNotify. by destruct (comRevisionCh m1).
    - unfold workerStep. rewrite Hw. cbn [lookup list_lookup]. destruct w; cbn [proceed]; [exact IH| |exact IH|exact IH].
      pose proof (GetServiceByID_reads (instances m1) (services m1) s) as Hr. destruct (GetServiceByID (instances m1) (services m1) s) as [sc o].
      eapply reads_follows; [exact Hr|exact IH]. }
  assert (forall m a st, ServiceCache.follows demo_diff false (services m) st -> ServiceCache.follows demo_diff false (services (updateInstances m a)) st) as Hinst.
  { intros m a st H. unfold updateInstances. destruct (InstanceCache.update (instances m) a) as [[ic events] notify]. cbn [services]. revert H.
    generalize (services m) as sc. induction events as [|e events IH]; intros sc H; [exact H|]. cbn [foldl]. apply IH. destruct e; try exact H. by apply follows_notify. }
  apply (Hdrain (left_to_do run4) run4); [unfold calm; vm_compute; constructor|].
  apply (Hinst run3), (Hdrain (left_to_do run2) run2); [exact (proj2 run2_calmly)|]. apply (Hinst run1).
  destruct demo_services_ok as (Hok & _ & He).
  assert (services run1 = (ServiceCache.update (newInstanceCache true []) demo_sc0 (demo_ask_services demo_services demo_sc0 200)).1) as -> by reflexivity.
  eapply (ServiceCache.follows_update _ _ _ demo_sc0 ∅); [apply follows_new|exact Hok| |reflexivity|reflexivity].
  intros i. rewrite He. destruct (demo_services !! i) as [r|] eqn:Hr; [|left; reflexivity]. right. left. exists r. split; [reflexivity|]. split; [|by intros r'; rewrite lookup_empty].
  assert (map_Forall (fun _ r => ServiceCache.fetchTime demo_diff demo_sc0 <= svcModifyTime r) demo_services) as Hs by (by apply two_services).
  by apply (Hs i).
Qed.

Lemma no_change_means_no_change_witness :
  dCode (answerInstances None run5 (demo_request "db" (Some (GetServiceInstanceRevision run3 "svc-id"))) 0).2 <> DataNoChange.
Proof.
  destruct (follows_agrees _ _ _ _ run5_follows) as [_ Hag].
  assert (demo_services !! "svc-id" = Some db) as Hrow by reflexivity. rewrite <- (proj2 (proj2 demo_services_ok)) in Hrow.
  pose proof (no_change_means_no_change false false (newInstanceCache true []) None run3 run5 "svc-id" 0 0 (business false demo_services) db
    (demo_request "db" (Some (GetServiceInstanceRevision run3 "svc-id"))) 2
    (proj1 run3_calmly) (proj2 (proj2 run3_calmly)) (proj1 run5_calmly) (proj2 run5_calmly)) as H.
  rewrite H; clear H.
  - intros [_ Hp]. apply Permutation_length in Hp. vm_compute in Hp. discriminate Hp.
  - discriminate.
  - vm_compute. reflexivity.
  - vm_compute. reflexivity.
  - exact Hag.
  - exact Hrow.
  - reflexivity.
  - reflexivity.
  - eexists. split; [vm_compute; reflexivity|]. unfold seesRow. vm_compute. repeat split; intros; congruence.
  - reflexivity.
  - lia.
  - vm_compute. repeat constructor.
  - vm_compute. repeat constructor.
  - cbv zeta. intros Hc. exfalso. revert Hc. vm_compute. discriminate.
Defined.

(** ** What the code does not guarantee *)

(** *** Two workers on one service

    The first has computed the revision of the service without instances when the
    instances arrive; the second computes and stores the revision with them, and the
    first then overwrites it. *)
Definition race1 : CacheManager := Nat.iter 2 (fun m => workerStep m 0) (takeNotify run1).
Definition race2 : CacheManager := updateInstances race1 (demo_ask demo_store demo_ic0 200).
(** The notification of the alias, dealt with by a second worker, then that of the
    service; the first worker stays where it is. *)
Definition race3 : CacheManager := Nat.iter 3 (fun m => workerStep m 0) (takeNotify race2).
Definition race4 : CacheManager := Nat.iter 3 (fun m => workerStep m 0) (takeNotify race3).
Definition race5 : CacheManager := workerStep race4 0.

Lemma iter_steps n m : rtc step m (Nat.iter n (fun m => workerStep m 0) m).
Proof. induction n as [|n IH]; [done|]. eapply rtc_r; [exact IH|]. apply step_worker. Qed.

Lemma race_reachable : rtc step run0 race5.
Proof.
  eapply rtc_r; [|apply step_worker]. etrans; [|apply iter_steps]. eapply rtc_r; [|apply step_take].
  etrans; [|apply iter_steps]. eapply rtc_r; [|apply step_take]. eapply rtc_r; [|apply step_instances].
  etrans; [|apply iter_steps]. eapply rtc_r; [|apply step_take]. apply rtc_once, step_services.
Qed.

(** The workers are done, two instances are cached, and a client that asked before
    they came is told that nothing changed. *)
Lemma racing_workers_hide_instances :
  rtc step run0 race5 /\ settled race5 /\
  GetServiceInstanceRevision race5 "svc-id" <> default "" (currentRevision race5 "svc-id") /\
  length (GetInstancesByServiceID (instances race5) "svc-id") = 2%nat /\
  exists before after m1 m2,
    ServiceInstancesCache None (Some run1) (Some (demo_request "db" None)) = Ret (m1, before) /\
    dCode before = ExecuteSuccess /\ dInstances before = [] /\
    ServiceInstancesCache None (Some race5) (Some (demo_request "db" (dService before ≫= sRevision))) = Ret (m2, after) /\
    dCode after = DataNoChange.
Proof.
  split; [exact race_reachable|]. split; [split; vm_compute; reflexivity|]. split; [vm_compute; discriminate|]. split; [vm_compute; reflexivity|].
  do 4 eexists. split; [vm_compute; reflexivity|]. split; [reflexivity|]. split; [reflexivity|]. split; vm_compute; reflexivity.
Qed.

(** *** A service deleted and created again between two fetches

    boltdb removes the deleted row when the name is created again, so that the
    cache is never told: the old service stays, by its id. *)
Definition db_again : ServiceModel := demo_service "new-id" "db" "r9" "" true 203.
Definition again_store : gmap string ServiceModel := {["new-id" := db_again]}.
Definition only_db : gmap string ServiceModel := {["svc-id" := db]}.
Definition again1 : serviceCache := (ServiceCache.update demo_ic1 demo_sc0 (demo_ask_services only_db demo_sc0 200)).1.
Definition again2 : serviceCache := (ServiceCache.update demo_ic1 again1 (demo_ask_services again_store again1 206)).1.

Lemma recreated_service_stays_by_id :
  (snd (GetServiceByName demo_ic1 again2 "db" "default") = Some 1%nat /\ svcID (deref again2 1) = "new-id") /\
  (snd (GetServiceByID demo_ic1 again2 "svc-id") = Some 0%nat /\ again_store !! "svc-id" = None) /\
  GetServicesCount again2 = 2 /\ StoreServicesCount again_store = 1.
Proof. split_and!; vm_compute; reflexivity. Qed.

(** *** Counts

    A deleted service is subtracted even if it was never counted - the rows of the
    first fetch include deleted ones -, and clearing the cache keeps the count. *)
Definition with_deleted : gmap string ServiceModel := {["svc-id" := db; "gone-id" := demo_service "gone-id" "gone" "r3" "" false 100]}.
Definition counted1 : serviceCache := (ServiceCache.update demo_ic1 demo_sc0 (demo_ask_services with_deleted demo_sc0 200)).1.
Definition cleared : serviceCache := ServiceCache.clear again1.
Definition reloaded : serviceCache := (ServiceCache.update demo_ic1 cleared (demo_ask_services only_db cleared 206)).1.

Lemma service_count_goes_astray :
  (serviceCount counted1 = 0 /\ GetServicesCount counted1 = 1 /\ StoreServicesCount with_deleted = 1) /\
  (serviceCount reloaded = 2 /\ GetServicesCount reloaded = 1).
Proof. split_and!; vm_compute; reflexivity. Qed.

(** *** An alias that moves

    When an alias is made to refer to another service, it is added to that
    service's aliases, and stays among those of the first. *)
Definition web : ServiceModel := demo_service "web-id" "web" "r4" "" true 100.
Definition alias_moved : ServiceModel := demo_service "alias-id" "db-alias" "r5" "web-id" true 205.
Definition alias_store : gmap string ServiceModel := {["svc-id" := db; "web-id" := web; "alias-id" := db_alias]}.
Definition alias_store' : gmap string ServiceModel := {["svc-id" := db; "web-id" := web; "alias-id" := alias_moved]}.
Definition alias1 : serviceCache := (ServiceCache.update demo_ic1 demo_sc0 (demo_ask_services alias_store demo_sc0 200)).1.
Definition alias2 : serviceCache := (ServiceCache.update demo_ic1 alias1 (demo_ask_services alias_store' alias1 206)).1.

Lemma moved_alias_is_listed_twice :
  svcID <$> ListServiceAlias alias1 "default" "db" = ["alias-id"] /\ ListServiceAlias alias1 "default" "web" = [] /\
  svcID <$> ListServiceAlias alias2 "default" "web" = ["alias-id"] /\ svcID <$> ListServiceAlias alias2 "default" "db" = ["alias-id"].
Proof. split_and!; vm_compute; reflexivity. Qed.

(** *** A read lock taken twice

    [ListAllServices] holds the bucket's read lock while it calls
    [ListServices], which takes it again; Go's [sync.RWMutex] lets no reader in
    while a writer waits, so that an [addService] in between blocks both. *)
Inductive lock_op := RLock | RUnlock | Lock | Acquire | Unlock.
Record rwmutex := mkRW { rw_readers : nat; rw_waiting : nat; rw_writer : bool }.

(** A writer announces itself ([Lock]) before it waits for the readers ([Acquire]). *)
Definition lock_step (rw : rwmutex) (op : lock_op) : option rwmutex :=
  match op with
  | RLock => if decide (rw_waiting rw = 0%nat /\ rw_writer rw = false) then Some (mkRW (S (rw_readers rw)) (rw_waiting rw) (rw_writer rw)) else None
  | RUnlock => Some (mkRW (pred (rw_readers rw)) (rw_waiting rw) (rw_writer rw))
  | Lock => Some (mkRW (rw_readers rw) (S (rw_waiting rw)) (rw_writer rw))
  | Acquire => if decide (rw_readers rw = 0%nat /\ rw_writer rw = false) then Some (mkRW 0 (pred (rw_waiting rw)) true) else None
  | Unlock => Some (mkRW (rw_readers rw) (rw_waiting rw) false)
  end.

(** The operations of the two methods on the bucket's lock, for [n] namespaces. *)
Definition ListAllServices_locks (n : nat) : list lock_op := RLock :: concat (replicate n [RLock; RUnlock]) ++ [RUnlock].
Definition addService_locks : list lock_op := [Lock; Acquire; Unlock].

Inductive lock_run : rwmutex * list (list lock_op) -> rwmutex * list (list lock_op) -> Prop :=
| lock_run_step rw rw' threads i op ops :
    threads !! i = Some (op :: ops) -> lock_step rw op = Some rw' -> lock_run (rw, threads) (rw', <[i := ops]> threads).

Lemma listing_services_can_deadlock (n : nat) :
  (0 < n)%nat ->
  exists s, rtc lock_run (mkRW 0 0 false, [ListAllServices_locks n; addService_locks]) s /\
    (forall s', ~ lock_run s s') /\ Forall (fun ops => ops <> []) s.2.
Proof.
  intros Hn. destruct n as [|n]; [lia|].
  exists (mkRW 1 1 false, [RLock :: RUnlock :: concat (replicate n [RLock; RUnlock]) ++ [RUnlock]; [Acquire; Unlock]]). split_and!.
  - eapply rtc_l; [eapply (lock_run_step _ _ _ 0); reflexivity|]. cbn. eapply rtc_l; [eapply (lock_run_step _ _ _ 1); reflexivity|]. apply rtc_refl.
  - intros s' Hs. inversion Hs as [rw rw' threads i op ops Hi Hop]; subst. destruct i as [|[|i]]; cbn in Hi; simplify_eq; done.
  - by repeat constructor.
Qed.
