(* ===== verification/RuleCache.v ===== *)
(** * The caches of circuit-breaker and fault-detection rules ([src/cache/circuitbreaker_config.go], [src/cache/faultdetect.go])

    A rule is about one service, about all services of a namespace, or about
    all; the caches keep, for each service and each namespace that has rules of its
    own, the rules that apply to it with a revision, and the rules about all
    services.  The two caches are the same code but for two points, which are the
    parameters of this file: the circuit-breaker cache copies the wildcard rules
    into the set of rules it makes for a new service ([inherit]), and the two read
    the destination of a rule differently ([involves]). [setCircuitBreaker]
    and [setFaultDetectRules] are the two instances. *)

From S2P Require Import Prelude GoStrings Hash Utils BaseCache.
From Stdlib Require Import ZArith Lia.
From stdpp Require Import base tactics list gmap strings sorting.

Open Scope Z_scope.

(** ** Data *)

(** [model.ServiceKey], as namespace and name. *)
Abbreviation ServiceKey := (string * string)%type.

(** [model.CircuitBreakerRule] and [model.FaultDetectRule]; [rBody]: the fields
    the cache does not look at. *)
Record Rule (A : Type) := mkRule {
  rID : string;
  rName : string;
  DstService : string;
  DstNamespace : string;
  rRevision : string;
  rValid : bool;
  rModifyTime : Z;
  rBody : A }.
Arguments mkRule {A}. Arguments rID {A}. Arguments rName {A}. Arguments DstService {A}. Arguments DstNamespace {A}.
Arguments rRevision {A}. Arguments rValid {A}. Arguments rModifyTime {A}. Arguments rBody {A}.

(** [model.ServiceWithCircuitBreakerRules], [model.ServiceWithFaultDetectRules]. *)
Record ServiceWithRules (A : Type) := mkRules {
  bService : ServiceKey;
  bRules : gmap string (Rule A);
  bRevision : string }.
Arguments mkRules {A}. Arguments bService {A}. Arguments bRules {A}. Arguments bRevision {A}.

Record ruleCache (A : Type) := mkRuleCache {
  rbase : baseCache;
  svcRules : gmap string (gmap string (ServiceWithRules A));
  nsWildcardRules : gmap string (ServiceWithRules A);
  allWildcardRules : ServiceWithRules A }.
Arguments mkRuleCache {A}. Arguments rbase {A}. Arguments svcRules {A}. Arguments nsWildcardRules {A}. Arguments allWildcardRules {A}.

Definition allMatched : string := "*".

Section cache.
  Context {A : Type} (involves : Rule A -> list ServiceKey) (inherit : bool) (label : string).
  Implicit Types (r : Rule A) (b : ServiceWithRules A) (c : ruleCache A).

Definition NewServiceWithRules (svcKey : ServiceKey) : ServiceWithRules A := mkRules svcKey ∅ "".
Definition AddRule b r : ServiceWithRules A := mkRules (bService b) (<[rID r := r]> (bRules b)) (bRevision b).
Definition DelRule b (id : string) : ServiceWithRules A := mkRules (bService b) (delete id (bRules b)) (bRevision b).
(** Adding the rules of one set to another, one by one. *)
Definition AddRules b (from : ServiceWithRules A) : ServiceWithRules A := foldl AddRule b (map_to_list (bRules from)).*2.

Definition newRuleCache : ruleCache A := mkRuleCache newBaseCache ∅ ∅ (NewServiceWithRules (allMatched, allMatched)).

Definition clear c : ruleCache A := mkRuleCache (base_clear (rbase c)) ∅ ∅ (NewServiceWithRules (bService (allWildcardRules c))).

Definition reloadRevision b : ServiceWithRules A :=
  mkRules (bService b) (bRules b)
    (if decide (bRules b = ∅) then "" else ComputeRevisionBySlice [] (merge_sort string_le (rRevision <$> (map_to_list (bRules b)).*2))).

Definition deleteAndReload (id : string) b : ServiceWithRules A := reloadRevision (DelRule b id).
Definition storeAndReload r b : ServiceWithRules A := reloadRevision (AddRule b r).

(** A change of the rules of every service. *)
Definition everyService (f : ServiceWithRules A -> ServiceWithRules A) (s : gmap string (gmap string (ServiceWithRules A))) :
    gmap string (gmap string (ServiceWithRules A)) := (fun rules : gmap string (ServiceWithRules A) => f <$> rules) <$> s.

Definition set_specific c s := mkRuleCache (rbase c) s (nsWildcardRules c) (allWildcardRules c).
Definition set_ns c n := mkRuleCache (rbase c) (svcRules c) n (allWildcardRules c).

(** The services of a namespace that have rules of their own. *)
Definition servicesOf c (ns : string) : gset ServiceKey :=
  set_map (fun svc => (ns, svc)) (dom (default ∅ (svcRules c !! ns))).

(** ** Deleting a rule *)

Definition deleteFromKey (id : string) (st : ruleCache A * gset ServiceKey) (svcKey : ServiceKey) : ruleCache A * gset ServiceKey :=
  let '(c, svcToReloads) := st in
  if decide (svcKey.2 = allMatched)
  then (set_ns c (alter (deleteAndReload id) svcKey.1 (nsWildcardRules c)), servicesOf c svcKey.1 ∪ svcToReloads)
  else (c, {[svcKey]} ∪ svcToReloads).

Definition deleteFromService (id : string) c (svcKey : ServiceKey) : ruleCache A :=
  set_specific c (alter (alter (deleteAndReload id) svcKey.2) svcKey.1 (svcRules c)).

Definition deleteFromServiceCache c (id : string) (svcKeys : list ServiceKey) : ruleCache A :=
  if decide (svcKeys = []) then
    mkRuleCache (rbase c) (everyService (deleteAndReload id) (svcRules c)) (deleteAndReload id <$> nsWildcardRules c) (deleteAndReload id (allWildcardRules c))
  else
    let '(c, svcToReloads) := foldl (deleteFromKey id) (c, ∅) svcKeys in
    foldl (deleteFromService id) c (elements svcToReloads).

(** ** Storing a rule *)

Definition storeToKey (entry : Rule A) (st : ruleCache A * gset ServiceKey) (svcKey : ServiceKey) : ruleCache A * gset ServiceKey :=
  let '(c, svcToReloads) := st in
  if decide (svcKey.2 = allMatched) then
    let wildcardRules := match nsWildcardRules c !! svcKey.1 with
                         | Some rules => rules
                         | None => let rules := NewServiceWithRules svcKey in if inherit then AddRules rules (allWildcardRules c) else rules
                         end in
    (set_ns c (<[svcKey.1 := storeAndReload entry wildcardRules]> (nsWildcardRules c)), servicesOf c svcKey.1 ∪ svcToReloads)
  else (c, {[svcKey]} ∪ svcToReloads).

(** The rules that a service which had none gets at once. *)
Definition newServiceRules c (svcKey : ServiceKey) : ServiceWithRules A :=
  let rules := NewServiceWithRules svcKey in
  if inherit then
    let rules := AddRules rules (allWildcardRules c) in
    match nsWildcardRules c !! svcKey.1 with Some nsRules => AddRules rules nsRules | None => rules end
  else rules.

Definition storeToService (entry : Rule A) c (svcKey : ServiceKey) : ruleCache A :=
  let services := default ∅ (svcRules c !! svcKey.1) in
  let rules := match services !! svcKey.2 with Some rules => rules | None => newServiceRules c svcKey end in
  set_specific c (<[svcKey.1 := <[svcKey.2 := storeAndReload entry rules]> services]> (svcRules c)).

Definition storeToServiceCache c (entry : Rule A) (svcKeys : list ServiceKey) : ruleCache A :=
  if decide (svcKeys = []) then
    mkRuleCache (rbase c) (everyService (storeAndReload entry) (svcRules c)) (storeAndReload entry <$> nsWildcardRules c)
      (storeAndReload entry (allWildcardRules c))
  else
    let '(c, svcToReloads) := foldl (storeToKey entry) (c, ∅) svcKeys in
    foldl (storeToService entry) c (elements svcToReloads).

(** ** Applying rows *)

Definition setRule c r : ruleCache A :=
  if rValid r then storeToServiceCache c r (involves r) else deleteFromServiceCache c (rID r) (involves r).

Definition latest (t : Z) r : Z := if decide (Unix (rModifyTime r) > t) then Unix (rModifyTime r) else t.

Definition setRules c (rules : list (Rule A)) : ruleCache A * gmap string Z :=
  if decide (rules = []) then (c, ∅)
  else (foldl setRule c rules, {[label := FromUnix (foldl latest (Unix (LastMtime (rbase c) label)) rules)]}).

Definition realUpdate c (answer : option (list (Rule A))) : ruleCache A * option (gmap string Z) :=
  match answer with
  | None => (c, None)
  | Some rules => let '(c, mtimes) := setRules c rules in (c, Some mtimes)
  end.

Definition update c (storeTime : option Z) (answer : option (list (Rule A))) : ruleCache A :=
  let '(c', executed) := realUpdate c answer in
  mkRuleCache (doCacheUpdate (rbase c) storeTime executed) (svcRules c') (nsWildcardRules c') (allWildcardRules c').

(** ** Queries *)

Definition checkServiceSpecificCache c (name namespace : string) : option (ServiceWithRules A) :=
  match svcRules c !! namespace with None => None | Some rules => rules !! name end.
Definition checkNamespaceSpecificCache c (namespace : string) : option (ServiceWithRules A) := nsWildcardRules c !! namespace.

Definition GetConfig c (name namespace : string) : ServiceWithRules A :=
  match checkServiceSpecificCache c name namespace with
  | Some rules => rules
  | None => match checkNamespaceSpecificCache c namespace with Some rules => rules | None => allWildcardRules c end
  end.

Definition ruleNames b : gset string := list_to_set (rName <$> (map_to_list (bRules b)).*2).
Definition GetRuleCount c : Z :=
  Z.of_nat (size (ruleNames (allWildcardRules c) ∪ ⋃ (ruleNames <$> (map_to_list (nsWildcardRules c)).*2)
    ∪ ⋃ ((map_to_list (svcRules c)).*2 ≫= fun rules => ruleNames <$> (map_to_list rules).*2))).

(** The store's answer: the rows modified at [mtime] or later, all of them at first. *)
Definition GetRulesForCache (st : gmap string (Rule A)) (mtime : Z) (firstUpdate : bool) : gmap string (Rule A) :=
  filter (fun kv => firstUpdate = true \/ mtime <= rModifyTime kv.2) st.

End cache.

(** The services a rule is about; none when it is about all. *)
Section kinds.
  Context {A : Type}.

Definition CircuitBreakerName : string := "circuitBreakerConfig".
Definition getServicesInvolveByCircuitBreakerRule (r : Rule A) : list ServiceKey :=
  if decide (DstService r = "" /\ DstNamespace r = "") then []
  else if decide (DstService r = allMatched /\ DstNamespace r = allMatched) then []
  else [(DstNamespace r, DstService r)].
Definition setCircuitBreaker : ruleCache A -> list (Rule A) -> ruleCache A * gmap string Z :=
  setRules getServicesInvolveByCircuitBreakerRule true CircuitBreakerName.
Definition cb_realUpdate := realUpdate getServicesInvolveByCircuitBreakerRule true CircuitBreakerName.
Definition cb_update := update getServicesInvolveByCircuitBreakerRule true CircuitBreakerName.

Definition FaultDetectRuleName : string := "faultDetectRule".
Definition getServicesInvolveByFaultDetectRule (r : Rule A) : list ServiceKey :=
  if decide (DstService r = allMatched /\ DstNamespace r = allMatched) then [] else [(DstNamespace r, DstService r)].
Definition setFaultDetectRules : ruleCache A -> list (Rule A) -> ruleCache A * gmap string Z :=
  setRules getServicesInvolveByFaultDetectRule false FaultDetectRuleName.
Definition fd_realUpdate := realUpdate getServicesInvolveByFaultDetectRule false FaultDetectRuleName.
Definition fd_update := update getServicesInvolveByFaultDetectRule false FaultDetectRuleName.
End kinds.

(** ** Lemmas *)

Section lemmas.
  Context {A : Type} (involves : Rule A -> list ServiceKey) (inherit : bool).
  Implicit Types (r : Rule A) (b : ServiceWithRules A) (c : ruleCache A) (R : gmap string (Rule A)).

(** The rules kept for one service. *)
Definition cell c (k : ServiceKey) : option (ServiceWithRules A) := svcRules c !! k.1 ≫= lookup k.2.

Lemma AddRules_lookup b from i :
  (forall j r, bRules from !! j = Some r -> rID r = j) ->
  bRules (AddRules b from) !! i = match bRules from !! i with Some r => Some r | None => bRules b !! i end.
Proof.
  intros Hk. unfold AddRules.
  assert (forall l b, (forall p, p ∈ l -> rID p.2 = p.1) -> NoDup l.*1 ->
    bRules (foldl AddRule b l.*2) !! i = match (list_to_map l : gmap string (Rule A)) !! i with Some r => Some r | None => bRules b !! i end) as H.
  { clear. induction l as [|[j r] l IH]; intros b Hl Hnd; [cbn; by rewrite lookup_empty|]. rewrite fmap_cons, NoDup_cons in Hnd. destruct Hnd as [Hj Hnd].
    cbn [foldl fmap list_fmap snd list_to_map foldr fst]. rewrite IH; [|by intros p Hp; apply Hl; right|done].
    assert (rID r = j) as Hr by (apply (Hl (j, r)); left). cbn [AddRule bRules]. rewrite Hr. destruct (decide (i = j)) as [->|Hne].
    - rewrite !lookup_insert_eq. by rewrite (not_elem_of_list_to_map_1 l j Hj).
    - by rewrite !lookup_insert_ne. }
  rewrite H; [by rewrite list_to_map_to_list| |apply NoDup_fst_map_to_list].
  intros [j r] Hp%elem_of_map_to_list. by apply Hk.
Qed.

Lemma cell_alter c k k' f :
  cell (set_specific c (alter (alter f k.2) k.1 (svcRules c))) k' = if decide (k' = k) then f <$> cell c k else cell c k'.
Proof.
  destruct k as [ns n], k' as [ns' n']. unfold cell. cbn. destruct (decide (ns' = ns)) as [->|Hns].
  - rewrite lookup_alter_eq. destruct (svcRules c !! ns) as [rules|]; cbn; [|by case_decide].
    destruct (decide (n' = n)) as [->|Hn]; [by rewrite lookup_alter_eq, decide_True|by rewrite lookup_alter_ne, decide_False by congruence].
  - by rewrite lookup_alter_ne, decide_False by congruence.
Qed.

Lemma cell_store c entry k k' :
  cell (storeToService inherit entry c k) k' =
  if decide (k' = k) then Some (storeAndReload entry (default (newServiceRules inherit c k) (cell c k))) else cell c k'.
Proof.
  destruct k as [ns n], k' as [ns' n']. unfold cell, storeToService. cbn. destruct (decide (ns' = ns)) as [->|Hns].
  - rewrite lookup_insert_eq. cbn. destruct (decide (n' = n)) as [->|Hn].
    + rewrite lookup_insert_eq, decide_True by done. by destruct (svcRules c !! ns) as [rules|]; cbn; [destruct (rules !! n)|rewrite lookup_empty].
    + rewrite lookup_insert_ne, decide_False by congruence. by destruct (svcRules c !! ns).
  - by rewrite lookup_insert_ne, decide_False by congruence.
Qed.

Lemma foldl_delete id l c :
  NoDup l ->
  let c' := foldl (deleteFromService id) c l in
  rbase c' = rbase c /\ nsWildcardRules c' = nsWildcardRules c /\ allWildcardRules c' = allWildcardRules c /\
  forall k, cell c' k = if decide (k ∈ l) then deleteAndReload id <$> cell c k else cell c k.
Proof.
  intros Hnd. revert c. induction Hnd as [|k l Hk Hnd IH]; intros c; cbn [foldl]; [split_and!; try done; intros k; by rewrite decide_False by set_solver|].
  destruct (IH (deleteFromService id c k)) as (Hb & Hn & Ha & Hc). cbv zeta. rewrite Hb, Hn, Ha. split_and!; try done.
  intros k'. rewrite Hc. unfold deleteFromService. rewrite cell_alter. destruct (decide (k' = k)) as [->|Hne].
  - by rewrite decide_False, decide_True by set_solver.
  - destruct (decide (k' ∈ l)); [by rewrite decide_True by set_solver|by rewrite decide_False by set_solver].
Qed.

Lemma newServiceRules_frame c c' k :
  nsWildcardRules c' = nsWildcardRules c -> allWildcardRules c' = allWildcardRules c -> newServiceRules inherit c' k = newServiceRules inherit c k.
Proof. intros Hn Ha. unfold newServiceRules. by rewrite Hn, Ha. Qed.

Lemma foldl_store entry l c :
  NoDup l ->
  let c' := foldl (storeToService inherit entry) c l in
  rbase c' = rbase c /\ nsWildcardRules c' = nsWildcardRules c /\ allWildcardRules c' = allWildcardRules c /\
  forall k, cell c' k = if decide (k ∈ l) then Some (storeAndReload entry (default (newServiceRules inherit c k) (cell c k))) else cell c k.
Proof.
  intros Hnd. revert c. induction Hnd as [|k l Hk Hnd IH]; intros c; cbn [foldl]; [split_and!; try done; intros k; by rewrite decide_False by set_solver|].
  destruct (IH (storeToService inherit entry c k)) as (Hb & Hn & Ha & Hc). cbv zeta. rewrite Hb, Hn, Ha. split_and!; try done.
  intros k'. rewrite Hc, cell_store. rewrite (newServiceRules_frame c (storeToService inherit entry c k)) by done. destruct (decide (k' = k)) as [->|Hne].
  - by rewrite decide_False, decide_True by set_solver.
  - destruct (decide (k' ∈ l)); [by rewrite decide_True by set_solver|by rewrite decide_False by set_solver].
Qed.

Lemma elem_of_servicesOf c ns k : k ∈ servicesOf c ns <-> k.1 = ns /\ is_Some (cell c k).
Proof.
  unfold servicesOf, cell. rewrite elem_of_map. destruct k as [ns' n]. cbn. split.
  - intros (svc & [= -> ->] & Hd). split; [done|]. destruct (svcRules c !! ns) as [rules|]; cbn in *; [by apply elem_of_dom|set_solver].
  - intros [-> Hs]. exists n. split; [done|]. destruct (svcRules c !! ns) as [rules|]; cbn in *; [by apply elem_of_dom|by destruct Hs].
Qed.

Lemma cell_everyService f c n a k :
  cell (mkRuleCache (rbase c) (everyService f (svcRules c)) n a) k = f <$> cell c k.
Proof. unfold cell, everyService. cbn. rewrite lookup_fmap. destruct (svcRules c !! k.1) as [rules|]; cbn; [|done]. by rewrite lookup_fmap. Qed.

(** ** The invariant

    [R]: the valid rules of the store, by id. *)

Definition wild r : Prop := involves r = [].
Definition about (k : ServiceKey) r : Prop := involves r = [k].
Definition appliesNs (ns : string) r : Prop := wild r \/ about (ns, allMatched) r.
Definition applies (ns n : string) r : Prop := appliesNs ns r \/ about (ns, n) r.

#[export] Instance wild_dec r : Decision (wild r) := decide (involves r = []).
#[export] Instance about_dec k r : Decision (about k r) := decide (involves r = [k]).
#[export] Instance appliesNs_dec ns r : Decision (appliesNs ns r) := decide (wild r \/ about (ns, allMatched) r).
#[export] Instance applies_dec ns n r : Decision (applies ns n r) := decide (appliesNs ns r \/ about (ns, n) r).

(** The set [b] has rules of [R] that satisfy [P], among them all that satisfy
    [Q], and its revision is theirs. *)
Record contains (P Q : Rule A -> Prop) R b : Prop := {
  co_sound : forall i r, bRules b !! i = Some r -> R !! i = Some r /\ P r;
  co_complete : forall i r, R !! i = Some r -> Q r -> bRules b !! i = Some r }.
Definition holds (P Q : Rule A -> Prop) R b : Prop := contains P Q R b /\ reloadRevision b = b.

(** With [inherit] a set has all the rules that apply; without, it need have only
    those about its own service or namespace. *)
Definition dueNs (ns : string) r : Prop := if inherit then appliesNs ns r else about (ns, allMatched) r.
Definition due (ns n : string) r : Prop := if inherit then applies ns n r else about (ns, n) r.

Record cache_inv c R : Prop := {
  ci_keys : map_Forall (fun i r => rID r = i) R;
  ci_all : holds wild wild R (allWildcardRules c);
  ci_ns : forall ns, match nsWildcardRules c !! ns with
    | Some b => holds (appliesNs ns) (dueNs ns) R b
    | None => map_Forall (fun _ r => ~ about (ns, allMatched) r) R end;
  ci_svc : forall ns n, match cell c (ns, n) with
    | Some b => n <> allMatched /\ holds (applies ns n) (due ns n) R b
    | None => n <> allMatched -> map_Forall (fun _ r => ~ about (ns, n) r) R end }.

(** What a row does to the rules; a rule keeps its destination. *)
Definition apply_rule R r : gmap string (Rule A) := if rValid r then <[rID r := r]> R else delete (rID r) R.
Definition steady R r : Prop := forall r0, R !! rID r = Some r0 -> involves r0 = involves r.

(** A property of a rule's destination. *)
Definition ofDestination (P : Rule A -> Prop) : Prop := forall r r', involves r = involves r' -> P r -> P r'.

Lemma reload_reload b : reloadRevision (reloadRevision b) = reloadRevision b.
Proof. done. Qed.

Lemma holds_stored P Q R b r : P r -> contains P Q R b -> holds P Q (<[rID r := r]> R) (storeAndReload r b).
Proof.
  intros HP [Hs Hc]. split; [|apply reload_reload]. split; intros i r'; cbn [storeAndReload reloadRevision AddRule bRules].
  - intros [[<- <-]|[Hne Hr]]%lookup_insert_Some; [by rewrite lookup_insert_eq|]. rewrite lookup_insert_ne by done. by apply Hs.
  - intros [[<- <-]|[Hne Hr]]%lookup_insert_Some HQ; [by rewrite lookup_insert_eq|]. rewrite lookup_insert_ne by done. by apply Hc.
Qed.

Lemma holds_other P Q R b r : ofDestination P -> (forall r, Q r -> P r) -> steady R r -> ~ P r -> holds P Q R b -> holds P Q (<[rID r := r]> R) b.
Proof.
  intros Hd HQP Hst HP [[Hs Hc] Hr]. split; [|done]. split; intros i r' Hi.
  - destruct (Hs i r' Hi) as [Hr' HP']. destruct (decide (rID r = i)) as [He|Hne]; [exfalso|by rewrite lookup_insert_ne].
    apply HP. eapply Hd; [|exact HP']. apply Hst. by rewrite He.
  - intros HQ. apply lookup_insert_Some in Hi as [[<- <-]|[Hne Hi]]; [by destruct HP; apply HQP|]. by apply Hc.
Qed.

Lemma holds_deleted P Q R b id : holds P Q R b -> holds P Q (delete id R) (deleteAndReload id b).
Proof.
  intros [[Hs Hc] _]. split; [|apply reload_reload]. split; intros i r'; cbn [deleteAndReload reloadRevision DelRule bRules].
  - intros [Hne Hr]%lookup_delete_Some. rewrite lookup_delete_ne by done. by apply Hs.
  - intros [Hne Hr]%lookup_delete_Some HQ. rewrite lookup_delete_ne by done. by apply Hc.
Qed.

Lemma holds_kept P Q R b r : ofDestination P -> steady R r -> ~ P r -> holds P Q R b -> holds P Q (delete (rID r) R) b.
Proof.
  intros Hd Hst HP [[Hs Hc] Hr]. split; [|done]. split; intros i r' Hi.
  - destruct (Hs i r' Hi) as [Hr' HP']. destruct (decide (rID r = i)) as [He|Hne]; [exfalso|by rewrite lookup_delete_ne].
    apply HP. eapply Hd; [|exact HP']. apply Hst. by rewrite He.
  - intros HQ. apply lookup_delete_Some in Hi as [Hne Hi]. by apply Hc.
Qed.

Lemma destination_wild : ofDestination wild.
Proof. intros r r' He Hw. unfold wild in *. congruence. Qed.
Lemma destination_ns ns : ofDestination (appliesNs ns).
Proof. intros r r' He. unfold appliesNs, wild, about. by rewrite He. Qed.
Lemma destination_svc ns n : ofDestination (applies ns n).
Proof. intros r r' He. unfold applies, appliesNs, wild, about. by rewrite He. Qed.
Lemma dueNs_applies ns r : dueNs ns r -> appliesNs ns r.
Proof. unfold dueNs, appliesNs. destruct inherit; tauto. Qed.
Lemma due_applies ns n r : due ns n r -> applies ns n r.
Proof. unfold due, applies. destruct inherit; tauto. Qed.
Lemma no_rules_about k R r : ~ about k r -> map_Forall (fun _ r => ~ about k r) R -> map_Forall (fun _ r => ~ about k r) (<[rID r := r]> R).
Proof. intros H1 H2. by apply map_Forall_insert_2. Qed.

(** ** New sets of rules *)

Lemma newNs_contains c R ns :
  cache_inv c R -> nsWildcardRules c !! ns = None ->
  contains (appliesNs ns) (dueNs ns) R
    (if inherit then AddRules (NewServiceWithRules (ns, allMatched)) (allWildcardRules c) else NewServiceWithRules (ns, allMatched)).
Proof.
  intros [Hk [[As Ac] _] Hns _] Hnone. specialize (Hns ns). rewrite Hnone in Hns. unfold dueNs. destruct inherit.
  - assert (forall j r, bRules (allWildcardRules c) !! j = Some r -> rID r = j) as Hkeys by (intros j r Hj; destruct (As j r Hj); by apply Hk).
    split; intros i r; rewrite (AddRules_lookup _ _ _ Hkeys).
    + destruct (bRules (allWildcardRules c) !! i) as [r'|] eqn:Hi; [|cbn; by rewrite lookup_empty]. intros [= <-]. destruct (As _ _ Hi). split; [done|]. by left.
    + intros Hr [Hw|Ha]; [by rewrite (Ac _ _ Hr Hw)|]. by destruct (Hns i r Hr).
  - split; intros i r; cbn; [by rewrite lookup_empty|]. intros Hr Ha. by destruct (Hns i r Hr).
Qed.

Lemma newServiceRules_contains c R ns n :
  cache_inv c R -> cell c (ns, n) = None -> n <> allMatched ->
  contains (applies ns n) (due ns n) R (newServiceRules inherit c (ns, n)).
Proof.
  intros [Hk [[As Ac] _] Hns Hsvc] Hnone Hn. specialize (Hsvc ns n). rewrite Hnone in Hsvc. specialize (Hsvc Hn). specialize (Hns ns).
  unfold newServiceRules, due. cbn [fst]. destruct inherit eqn:Hinh.
  2:{ split; intros i r; cbn; [by rewrite lookup_empty|]. intros Hr Ha. by destruct (Hsvc i r Hr). }
  assert (forall j r, bRules (allWildcardRules c) !! j = Some r -> rID r = j) as Hkeys by (intros j r Hj; destruct (As j r Hj); by apply Hk).
  destruct (nsWildcardRules c !! ns) as [b|].
  - destruct Hns as [[Ns Nc] _].
    assert (forall j r, bRules b !! j = Some r -> rID r = j) as Hkeys' by (intros j r Hj; destruct (Ns j r Hj); by apply Hk).
    split; intros i r; rewrite (AddRules_lookup _ _ _ Hkeys'), (AddRules_lookup _ _ _ Hkeys).
    + destruct (bRules b !! i) as [r'|] eqn:Hi; [intros [= <-]; destruct (Ns _ _ Hi); split; [done|by left]|].
      destruct (bRules (allWildcardRules c) !! i) as [r'|] eqn:Hi'; [|cbn; by rewrite lookup_empty]. intros [= <-]. destruct (As _ _ Hi').
      split; [done|]. left. by left.
    + intros Hr [Ha|Ha]; [|by destruct (Hsvc i r Hr)]. assert (dueNs ns r) as Hd by (unfold dueNs; by rewrite Hinh). by rewrite (Nc _ _ Hr Hd).
  - split; intros i r; rewrite (AddRules_lookup _ _ _ Hkeys).
    + destruct (bRules (allWildcardRules c) !! i) as [r'|] eqn:Hi'; [|cbn; by rewrite lookup_empty]. intros [= <-]. destruct (As _ _ Hi').
      split; [done|]. left. by left.
    + intros Hr [[Hw|Ha]|Ha]; [by rewrite (Ac _ _ Hr Hw)|by destruct (Hns i r Hr)|by destruct (Hsvc i r Hr)].
Qed.

(** ** One row *)

Lemma setRule_wild c R r :
  wild r -> steady R r -> cache_inv c R -> cache_inv (setRule involves inherit c r) (apply_rule R r).
Proof.
  intros Hw Hst [Hk Ha Hns Hsvc]. unfold setRule, apply_rule. rewrite Hw.
  assert (forall k, ~ about k r) as Hno by (intros k; unfold about; rewrite Hw; done).
  destruct (rValid r).
  - unfold storeToServiceCache. rewrite decide_True by done. split.
    + by apply map_Forall_insert_2.
    + by apply holds_stored; [|apply Ha].
    + intros ns. specialize (Hns ns). cbn [nsWildcardRules]. rewrite lookup_fmap. destruct (nsWildcardRules c !! ns) as [b|]; cbn.
      * apply holds_stored; [by left|apply Hns].
      * by apply no_rules_about.
    + intros ns n. specialize (Hsvc ns n). rewrite cell_everyService. destruct (cell c (ns, n)) as [b|]; cbn.
      * split; [apply Hsvc|]. apply holds_stored; [by left; left|apply Hsvc].
      * intros Hn. apply no_rules_about; auto.
  - unfold deleteFromServiceCache. rewrite decide_True by done. split.
    + by apply map_Forall_delete.
    + by apply holds_deleted.
    + intros ns. specialize (Hns ns). cbn [nsWildcardRules]. rewrite lookup_fmap. destruct (nsWildcardRules c !! ns) as [b|]; cbn.
      * by apply holds_deleted.
      * by apply map_Forall_delete.
    + intros ns n. specialize (Hsvc ns n). rewrite cell_everyService. destruct (cell c (ns, n)) as [b|]; cbn.
      * split; [apply Hsvc|]. apply holds_deleted, Hsvc.
      * intros Hn. apply map_Forall_delete; auto.
Qed.

Lemma not_wild k r : about k r -> ~ wild r.
Proof. unfold about, wild. congruence. Qed.

Lemma applies_namespace ns r : about (ns, allMatched) r -> forall ns', appliesNs ns' r <-> ns' = ns.
Proof. intros Hr ns'. unfold appliesNs, wild, about in *. rewrite Hr. split; [intros [|]; congruence|intros ->; by right]. Qed.

Lemma applies_service ns n r : about (ns, n) r -> n <> allMatched -> forall ns' n', applies ns' n' r <-> ns' = ns /\ n' = n.
Proof.
  intros Hr Hn ns' n'. unfold applies, appliesNs, wild, about in *. rewrite Hr. split; [|intros [-> ->]; by right].
  intros [[H|H]|H]; [done|congruence|by injection H].
Qed.

Lemma applies_namespace_svc ns r : about (ns, allMatched) r -> forall ns' n, applies ns' n r <-> ns' = ns.
Proof.
  intros Hr ns' n. unfold applies. rewrite (applies_namespace ns r Hr). split; [|by left]. intros [|H]; [done|].
  unfold about in *. rewrite Hr in H. by injection H.
Qed.

Lemma setRule_namespace_store c R r ns0 :
  about (ns0, allMatched) r -> rValid r = true -> steady R r -> cache_inv c R -> cache_inv (setRule involves inherit c r) (<[rID r := r]> R).
Proof.
  intros Hab Hv Hst Hinv. pose proof Hinv as [Hk Ha Hns Hsvc]. unfold setRule. rewrite Hv, Hab. unfold storeToServiceCache.
  rewrite decide_False by done. cbn [foldl storeToKey fst snd]. rewrite decide_True by done.
  set (wr := match nsWildcardRules c !! ns0 with Some rules => rules | None => _ end).
  set (c1 := set_ns c (<[ns0 := storeAndReload r wr]> (nsWildcardRules c))). set (l := elements (servicesOf c ns0 ∪ ∅)).
  destruct (foldl_store r l c1 (NoDup_elements _)) as (_ & Hn' & Ha' & Hc').
  assert (forall ns n, (ns, n) ∈ l <-> ns = ns0 /\ is_Some (cell c (ns, n))) as Hl
    by (intros ns n; unfold l; rewrite elem_of_elements, union_empty_r_L; apply elem_of_servicesOf).
  split.
  - by apply map_Forall_insert_2.
  - rewrite Ha'. apply holds_other; [apply destination_wild|done|done|by eapply not_wild|done].
  - intros ns. rewrite Hn'. cbn [c1 nsWildcardRules set_ns]. specialize (Hns ns). destruct (decide (ns = ns0)) as [->|Hne].
    + rewrite lookup_insert_eq. apply holds_stored; [by right|]. unfold wr.
      destruct (nsWildcardRules c !! ns0) as [b|] eqn:Hb; [apply Hns|by apply newNs_contains].
    + rewrite lookup_insert_ne by done. assert (~ appliesNs ns r) as Hno by (by rewrite (applies_namespace ns0 r Hab)).
      destruct (nsWildcardRules c !! ns) as [b|]; [apply holds_other; [apply destination_ns|apply dueNs_applies|done..]|].
      apply no_rules_about; [|done]. intros H. apply Hno. by right.
  - intros ns n. rewrite Hc'. change (cell c1 (ns, n)) with (cell c (ns, n)). specialize (Hsvc ns n). destruct (decide ((ns, n) ∈ l)) as [Hin|Hin].
    + apply Hl in Hin as [-> [b Hb]]. rewrite Hb in Hsvc |- *. cbn. split; [apply Hsvc|]. apply holds_stored; [|apply Hsvc].
      by apply (applies_namespace_svc ns0).
    + destruct (cell c (ns, n)) as [b|] eqn:Hb.
      * split; [apply Hsvc|]. apply holds_other; [apply destination_svc|apply due_applies|done| |apply Hsvc].
        rewrite (applies_namespace_svc ns0 r Hab). intros ->. apply Hin, Hl. by rewrite Hb.
      * intros Hn. apply no_rules_about; [|auto]. unfold about in *. rewrite Hab. congruence.
Qed.

Lemma setRule_namespace_delete c R r ns0 :
  about (ns0, allMatched) r -> rValid r = false -> steady R r -> cache_inv c R -> cache_inv (setRule involves inherit c r) (delete (rID r) R).
Proof.
  intros Hab Hv Hst [Hk Ha Hns Hsvc]. unfold setRule. rewrite Hv, Hab. unfold deleteFromServiceCache.
  rewrite decide_False by done. cbn [foldl deleteFromKey fst snd]. rewrite decide_True by done.
  set (c1 := set_ns c (alter (deleteAndReload (rID r)) ns0 (nsWildcardRules c))). set (l := elements (servicesOf c ns0 ∪ ∅)).
  destruct (foldl_delete (rID r) l c1 (NoDup_elements _)) as (_ & Hn' & Ha' & Hc').
  assert (forall ns n, (ns, n) ∈ l <-> ns = ns0 /\ is_Some (cell c (ns, n))) as Hl
    by (intros ns n; unfold l; rewrite elem_of_elements, union_empty_r_L; apply elem_of_servicesOf).
  split.
  - by apply map_Forall_delete.
  - rewrite Ha'. apply holds_kept; [apply destination_wild|done|by eapply not_wild|done].
  - intros ns. rewrite Hn'. cbn [c1 nsWildcardRules set_ns]. specialize (Hns ns). destruct (decide (ns = ns0)) as [->|Hne].
    + rewrite lookup_alter_eq. destruct (nsWildcardRules c !! ns0) as [b|]; cbn; [by apply holds_deleted|by apply map_Forall_delete].
    + rewrite lookup_alter_ne by done.
      destruct (nsWildcardRules c !! ns) as [b|]; [|by apply map_Forall_delete].
      apply holds_kept; [apply destination_ns|done| |done]. by rewrite (applies_namespace ns0 r Hab).
  - intros ns n. rewrite Hc'. change (cell c1 (ns, n)) with (cell c (ns, n)). specialize (Hsvc ns n). destruct (decide ((ns, n) ∈ l)) as [Hin|Hin].
    + apply Hl in Hin as [-> [b Hb]]. rewrite Hb in Hsvc |- *. cbn. split; [apply Hsvc|]. apply holds_deleted, Hsvc.
    + destruct (cell c (ns, n)) as [b|] eqn:Hb.
      * split; [apply Hsvc|]. apply holds_kept; [apply destination_svc|done| |apply Hsvc].
        rewrite (applies_namespace_svc ns0 r Hab). intros ->. apply Hin, Hl. by rewrite Hb.
      * intros Hn. apply map_Forall_delete; auto.
Qed.

Lemma setRule_service_store c R r ns0 n0 :
  about (ns0, n0) r -> n0 <> allMatched -> rValid r = true -> steady R r -> cache_inv c R ->
  cache_inv (setRule involves inherit c r) (<[rID r := r]> R).
Proof.
  intros Hab Hn0 Hv Hst Hinv. pose proof Hinv as [Hk Ha Hns Hsvc]. unfold setRule. rewrite Hv, Hab. unfold storeToServiceCache.
  rewrite decide_False by done. cbn [foldl storeToKey fst snd]. rewrite decide_False by done. rewrite union_empty_r_L, elements_singleton. cbn [foldl].
  split.
  - by apply map_Forall_insert_2.
  - apply holds_other; [apply destination_wild|done|done|by eapply not_wild|done].
  - intros ns. specialize (Hns ns). cbn [storeToService nsWildcardRules set_specific].
    destruct (nsWildcardRules c !! ns) as [b|].
    + apply holds_other; [apply destination_ns|apply dueNs_applies|done| |done].
      intros H. assert (applies ns allMatched r) as Hx by (by left). apply (applies_service ns0 n0 r Hab Hn0) in Hx as [_ Hx]. congruence.
    + apply no_rules_about; [|done]. unfold about in *. rewrite Hab. congruence.
  - intros ns n. rewrite cell_store. specialize (Hsvc ns n). destruct (decide ((ns, n) = (ns0, n0))) as [He|Hne].
    + injection He as -> ->. split; [done|]. apply holds_stored; [by right|].
      destruct (cell c (ns0, n0)) as [b|] eqn:Hb; [apply Hsvc|by apply newServiceRules_contains].
    + destruct (cell c (ns, n)) as [b|].
      * split; [apply Hsvc|]. apply holds_other; [apply destination_svc|apply due_applies|done| |apply Hsvc].
        rewrite (applies_service ns0 n0 r Hab Hn0). naive_solver.
      * intros Hn. apply no_rules_about; [|auto]. unfold about in *. rewrite Hab. congruence.
Qed.

Lemma setRule_service_delete c R r ns0 n0 :
  about (ns0, n0) r -> n0 <> allMatched -> rValid r = false -> steady R r -> cache_inv c R ->
  cache_inv (setRule involves inherit c r) (delete (rID r) R).
Proof.
  intros Hab Hn0 Hv Hst [Hk Ha Hns Hsvc]. unfold setRule. rewrite Hv, Hab. unfold deleteFromServiceCache.
  rewrite decide_False by done. cbn [foldl deleteFromKey fst snd]. rewrite decide_False by done. rewrite union_empty_r_L, elements_singleton. cbn [foldl].
  split.
  - by apply map_Forall_delete.
  - apply holds_kept; [apply destination_wild|done|by eapply not_wild|done].
  - intros ns. specialize (Hns ns). cbn [deleteFromService nsWildcardRules set_specific].
    destruct (nsWildcardRules c !! ns) as [b|]; [|by apply map_Forall_delete].
    apply holds_kept; [apply destination_ns|done| |done].
    intros H. assert (applies ns allMatched r) as Hx by (by left). apply (applies_service ns0 n0 r Hab Hn0) in Hx as [_ Hx]. congruence.
  - intros ns n. unfold deleteFromService. rewrite cell_alter. specialize (Hsvc ns n). destruct (decide ((ns, n) = (ns0, n0))) as [He|Hne].
    + injection He as -> ->. destruct (cell c (ns0, n0)) as [b|]; cbn; [split; [done|apply holds_deleted, Hsvc]|].
      intros Hn. apply map_Forall_delete; auto.
    + destruct (cell c (ns, n)) as [b|]; [|intros Hn; apply map_Forall_delete; auto].
      split; [apply Hsvc|]. apply holds_kept; [apply destination_svc|done| |apply Hsvc].
      rewrite (applies_service ns0 n0 r Hab Hn0). naive_solver.
Qed.

(** A rule is about one service, one namespace, or all. *)
Hypothesis one_destination : forall r, wild r \/ exists k, about k r.

Lemma setRule_inv c R r : steady R r -> cache_inv c R -> cache_inv (setRule involves inherit c r) (apply_rule R r).
Proof.
  intros Hst Hinv. destruct (one_destination r) as [Hw|[[ns n] Hab]]; [by apply setRule_wild|]. unfold apply_rule.
  destruct (decide (n = allMatched)) as [->|Hn]; destruct (rValid r) eqn:Hv.
  - by eapply setRule_namespace_store.
  - by eapply setRule_namespace_delete.
  - by eapply setRule_service_store.
  - by eapply setRule_service_delete.
Qed.

(** The rows of a fetch, each of which keeps the destination of its rule. *)
Fixpoint steady_rows R (rows : list (Rule A)) : Prop :=
  match rows with [] => True | r :: rows => steady R r /\ steady_rows (apply_rule R r) rows end.

Lemma setRules_inv c R rows : steady_rows R rows -> cache_inv c R -> cache_inv (foldl (setRule involves inherit) c rows) (foldl apply_rule R rows).
Proof.
  revert c R. induction rows as [|r rows IH]; intros c R; [done|]. cbn [steady_rows foldl]. intros [Hr Hrows] Hinv.
  apply IH; [done|]. by apply setRule_inv.
Qed.

Lemma newRuleCache_inv : cache_inv newRuleCache ∅.
Proof.
  split.
  - apply map_Forall_empty.
  - split; [|done]. split; intros i r; cbn; by rewrite lookup_empty.
  - intros ns. cbn. rewrite lookup_empty. apply map_Forall_empty.
  - intros ns n. unfold cell. cbn. rewrite lookup_empty. cbn. intros _. apply map_Forall_empty.
Qed.

Lemma rules_kept label c t rows :
  let c' := update involves inherit label c t (Some rows) in
  let c'' := foldl (setRule involves inherit) c rows in
  svcRules c' = svcRules c'' /\ nsWildcardRules c' = nsWildcardRules c'' /\ allWildcardRules c' = allWildcardRules c''.
Proof. cbv zeta. unfold update, realUpdate, setRules. case_decide as Hd; [by subst|]. done. Qed.

Lemma cache_inv_frame c c' R :
  svcRules c' = svcRules c -> nsWildcardRules c' = nsWildcardRules c -> allWildcardRules c' = allWildcardRules c -> cache_inv c R -> cache_inv c' R.
Proof. intros H1 H2 H3 [Hk Ha Hns Hsvc]. unfold cell in *. split; unfold cell; rewrite ?H1, ?H2, ?H3; done. Qed.

(** The rules in use: the cache is updated, successfully or not, and cleared. *)
Inductive tracks (label : string) : ruleCache A -> gmap string (Rule A) -> Prop :=
| tracks_new : tracks label newRuleCache ∅
| tracks_update c R t rows :
    tracks label c R -> steady_rows R rows -> tracks label (update involves inherit label c t (Some rows)) (foldl apply_rule R rows)
| tracks_failed c R t : tracks label c R -> tracks label (update involves inherit label c t None) R
| tracks_clear c R : tracks label c R -> tracks label (clear c) ∅.

Lemma tracks_inv label c R : tracks label c R -> cache_inv c R.
Proof.
  induction 1 as [|c R t rows _ IH Hst|c R t _ IH|c R _ IH].
  - apply newRuleCache_inv.
  - destruct (rules_kept label c t rows) as (H1 & H2 & H3). eapply cache_inv_frame; [done..|]. by apply setRules_inv.
  - by eapply cache_inv_frame; [..|exact IH].
  - destruct newRuleCache_inv as [H1 H2 H3 H4]. split; [done| |done|done]. split; [|done]. split; intros i r; cbn; by rewrite lookup_empty.
Qed.

(** What a reader gets for a service. *)
Lemma GetConfig_contains c R name namespace :
  cache_inv c R -> name <> allMatched ->
  let b := GetConfig c name namespace in
  (forall i r, bRules b !! i = Some r -> R !! i = Some r /\ applies namespace name r) /\
  (inherit = true -> forall i r, R !! i = Some r -> applies namespace name r -> bRules b !! i = Some r) /\
  reloadRevision b = b.
Proof.
  intros [Hk [[As Ac] Ar] Hns Hsvc] Hn. cbv zeta. unfold GetConfig, checkServiceSpecificCache, checkNamespaceSpecificCache.
  specialize (Hsvc namespace name). specialize (Hns namespace). unfold cell in Hsvc. cbn [fst snd] in Hsvc.
  assert (match svcRules c !! namespace with Some rules => rules !! name | None => None end = svcRules c !! namespace ≫= lookup name) as -> by (by destruct (svcRules c !! namespace)).
  destruct (svcRules c !! namespace ≫= lookup name) as [b|].
  { destruct Hsvc as [_ [[Ss Sc] Sr]]. split_and!; [done| |done]. intros Hi i r Hr Happ. apply Sc; [done|]. unfold due. by rewrite Hi. }
  specialize (Hsvc Hn). destruct (nsWildcardRules c !! namespace) as [b|].
  - destruct Hns as [[Ns Nc] Nr]. split_and!; [|intros Hi i r Hr [Happ|Happ]|done].
    + intros i r Hr. destruct (Ns i r Hr). split; [done|]. by left.
    + apply Nc; [done|]. unfold dueNs. by rewrite Hi.
    + by destruct (Hsvc i r Hr).
  - split_and!; [|intros Hi i r Hr [[Happ|Happ]|Happ]|done].
    + intros i r Hr. destruct (As i r Hr). split; [done|]. by left; left.
    + by apply Ac.
    + by destruct (Hns i r Hr).
    + by destruct (Hsvc i r Hr).
Qed.
(** ** Following the store

    The rows of the store with their marks; a rule that is written again keeps its
    destination, and is stamped no earlier than the next fetch. *)
Definition visible (st : gmap string (Rule A)) : gmap string (Rule A) := filter (fun kv => rValid kv.2 = true) st.

Definition keyed (st : gmap string (Rule A)) : Prop := map_Forall (fun i r => rID r = i) st.

Definition written (t : Z) (st st' : gmap string (Rule A)) : Prop :=
  forall k, st' !! k = st !! k \/
    exists r, st' !! k = Some r /\ t <= rModifyTime r /\ forall r0, st !! k = Some r0 -> involves r0 = involves r.

Inductive follows (DefaultTimeDiff : Z) (label : string) : ruleCache A -> gmap string (Rule A) -> Prop :=
| follows_new : follows DefaultTimeDiff label newRuleCache ∅
| follows_update c st st' t rows :
    follows DefaultTimeDiff label c st -> keyed st' -> written (LastFetchTime DefaultTimeDiff (rbase c)) st st' ->
    rows ≡ₚ (map_to_list (GetRulesForCache st' (LastFetchTime DefaultTimeDiff (rbase c)) (firtstUpdate (rbase c)))).*2 ->
    follows DefaultTimeDiff label (update involves inherit label c t (Some rows)) st'
| follows_failed c st t : follows DefaultTimeDiff label c st -> follows DefaultTimeDiff label (update involves inherit label c t None) st
| follows_clear c st : follows DefaultTimeDiff label c st -> follows DefaultTimeDiff label (clear c) ∅.

Lemma apply_rule_same R r : apply_rule R r !! rID r = if rValid r then Some r else None.
Proof. unfold apply_rule. destruct (rValid r); [apply lookup_insert_eq|apply lookup_delete_eq]. Qed.
Lemma apply_rule_other R r k : k <> rID r -> apply_rule R r !! k = R !! k.
Proof. intros Hk. unfold apply_rule. destruct (rValid r); [by rewrite lookup_insert_ne|by rewrite lookup_delete_ne]. Qed.

Lemma steady_rows_distinct R rows : NoDup (rID <$> rows) -> (forall r, r ∈ rows -> steady R r) -> steady_rows R rows.
Proof.
  revert R. induction rows as [|r rows IH]; intros R; [done|]. rewrite fmap_cons, NoDup_cons. intros [Hr Hnd] Hst. split; [apply Hst; left|].
  apply IH; [done|]. intros r' Hr' r0. rewrite apply_rule_other; [apply Hst; by right|]. intros He. apply Hr. rewrite <- He. by apply list_elem_of_fmap_2.
Qed.

Lemma visible_lookup st k : visible st !! k = match st !! k with Some r => if rValid r then Some r else None | None => None end.
Proof.
  unfold visible. rewrite map_lookup_filter. destruct (st !! k) as [r|]; cbn; [|done]. destruct (rValid r); [rewrite option_guard_True by done|rewrite option_guard_False by done]; done.
Qed.

Lemma rows_elem (got : gmap string (Rule A)) rows r :
  keyed got -> rows ≡ₚ (map_to_list got).*2 -> (r ∈ rows <-> got !! rID r = Some r).
Proof.
  intros Hk ->. rewrite list_elem_of_fmap. split.
  - intros ([k r'] & -> & Hin%elem_of_map_to_list). cbn. by rewrite (Hk _ _ Hin).
  - intros Hr. exists (rID r, r). split; [done|]. by apply elem_of_map_to_list.
Qed.

Lemma rows_ids (got : gmap string (Rule A)) rows : keyed got -> rows ≡ₚ (map_to_list got).*2 -> NoDup (rID <$> rows).
Proof.
  intros Hk ->. assert (rID <$> (map_to_list got).*2 = (map_to_list got).*1) as ->; [|apply NoDup_fst_map_to_list].
  rewrite <- list_fmap_compose. apply list_fmap_ext. intros i [k r] Hin. apply Hk, elem_of_map_to_list. by eapply list_elem_of_lookup_2.
Qed.

Lemma follows_tracks D label c st : follows D label c st -> tracks label c (visible st).
Proof.
  induction 1 as [|c st st' t rows _ IH Hk Hw Hrows|c st t _ IH|c st _ IH].
  - apply tracks_new.
  - set (got := GetRulesForCache _ _ _) in Hrows.
    assert (got ⊆ st') as Hsub by apply map_filter_subseteq.
    assert (keyed got) as Hkg by (intros k r Hr; eapply Hk, lookup_weaken; done).
    pose proof (fun r => rows_elem got rows r Hkg Hrows) as Hel. pose proof (rows_ids got rows Hkg Hrows) as Hnd.
    assert (visible st' = foldl apply_rule (visible st) rows) as ->.
    { apply map_eq. intros k. destruct (got !! k) as [r|] eqn:Hr.
      - assert (rID r = k) as <- by (by apply Hkg). symmetry.
        rewrite (foldl_rows_in apply_rule (fun R k => R !! k) rID (fun r => if rValid r then Some r else None) rows (visible st) r);
          [|intros; by apply apply_rule_other|intros; apply apply_rule_same|done|by apply Hel].
        by rewrite visible_lookup, (lookup_weaken _ _ _ _ Hr Hsub).
      - rewrite (foldl_rows_notin apply_rule (fun R k => R !! k) rID rows (visible st) k);
          [|intros; by apply apply_rule_other|intros Hin; apply list_elem_of_fmap in Hin as (r & -> & Hin); apply Hel in Hin; congruence].
        rewrite !visible_lookup. destruct (Hw k) as [->|(r & Hr' & Ht & _)]; [done|]. exfalso.
        apply map_lookup_filter_None_1 in Hr as [Hr|Hr]; [congruence|]. eapply Hr; [exact Hr'|]. by right. }
    apply tracks_update; [done|]. apply steady_rows_distinct; [done|]. intros r Hr%Hel r0 Hr0.
    apply lookup_weaken with (m2 := st') in Hr; [|done].
    rewrite visible_lookup in Hr0. destruct (st !! rID r) as [r1|] eqn:Hr1; [|done]. destruct (rValid r1); [|done]. injection Hr0 as ->.
    destruct (Hw (rID r)) as [He|(r' & Hr' & _ & Hd)]; [congruence|]. rewrite Hr in Hr'. injection Hr' as <-. by apply Hd.
  - by apply tracks_failed.
  - change (visible ∅) with (∅ : gmap string (Rule A)). by eapply tracks_clear.
Qed.
End lemmas.

(** ** The two caches *)

(** The rules meant for a service: those about it, about all services of its
    namespace and, under ["*"] and ["*"], about all services.  A rule about a
    service of the namespace ["*"] is meant for no other. *)
Definition targets {A} (namespace name : string) (r : Rule A) : Prop :=
  (DstNamespace r = namespace /\ (DstService r = name \/ DstService r = allMatched)) \/ (DstNamespace r = allMatched /\ DstService r = allMatched).
#[export] Instance targets_dec {A} namespace name (r : Rule A) : Decision (targets namespace name r) :=
  decide ((DstNamespace r = namespace /\ (DstService r = name \/ DstService r = allMatched)) \/ (DstNamespace r = allMatched /\ DstService r = allMatched)).

(** For a circuit breaker, an empty destination stands for all services as well. *)
Definition cb_targets {A} (namespace name : string) (r : Rule A) : Prop := targets namespace name r \/ (DstNamespace r = "" /\ DstService r = "").
#[export] Instance cb_targets_dec {A} namespace name (r : Rule A) : Decision (cb_targets namespace name r) :=
  decide (targets namespace name r \/ (DstNamespace r = "" /\ DstService r = "")).

Lemma cb_one_destination {A} (r : Rule A) : wild getServicesInvolveByCircuitBreakerRule r \/ exists k, about getServicesInvolveByCircuitBreakerRule k r.
Proof. unfold wild, about, getServicesInvolveByCircuitBreakerRule. repeat case_decide; eauto. Qed.
Lemma fd_one_destination {A} (r : Rule A) : wild getServicesInvolveByFaultDetectRule r \/ exists k, about getServicesInvolveByFaultDetectRule k r.
Proof. unfold wild, about, getServicesInvolveByFaultDetectRule. case_decide; eauto. Qed.

Lemma cb_applies {A} namespace name (r : Rule A) : applies getServicesInvolveByCircuitBreakerRule namespace name r <-> cb_targets namespace name r.
Proof.
  unfold applies, appliesNs, wild, about, cb_targets, targets, getServicesInvolveByCircuitBreakerRule, allMatched.
  destruct (decide (DstService r = "" /\ DstNamespace r = "")) as [[-> ->]|H1]; [naive_solver|].
  destruct (decide (DstService r = "*" /\ DstNamespace r = "*")) as [[-> ->]|H2]; [naive_solver|].
  split; [intros [[|]|]; naive_solver|]. intros [[[-> [->| ->]]|[? ?]]|[? ?]]; naive_solver.
Qed.

Lemma fd_applies {A} namespace name (r : Rule A) : applies getServicesInvolveByFaultDetectRule namespace name r <-> targets namespace name r.
Proof.
  unfold applies, appliesNs, wild, about, targets, getServicesInvolveByFaultDetectRule, allMatched.
  destruct (decide (DstService r = "*" /\ DstNamespace r = "*")) as [[-> ->]|H2]; [naive_solver|].
  split; [intros [[|]|]; naive_solver|]. intros [[-> [->| ->]]|[? ?]]; naive_solver.
Qed.

(** What the circuit-breaker cache answers for a service is exactly the valid
    rules of the store, as the last successful fetch saw it, that are meant for
    it - those about the service, about its namespace and about everything -,
    with the revision that belongs to them, through any sequence of fetches,
    failed ones included, provided a rule that is changed keeps its destination. *)
Theorem circuit_breakers_match {A} (DefaultTimeDiff : Z) (c : ruleCache A) (st : gmap string (Rule A)) (name namespace : string) :
  follows getServicesInvolveByCircuitBreakerRule true DefaultTimeDiff CircuitBreakerName c st -> name <> allMatched ->
  bRules (GetConfig c name namespace) = filter (fun kv => cb_targets namespace name kv.2) (visible st) /\
  reloadRevision (GetConfig c name namespace) = GetConfig c name namespace.
Proof.
  intros Hf%follows_tracks Hn. apply tracks_inv in Hf; [|apply cb_one_destination].
  destruct (GetConfig_contains _ _ _ _ name namespace Hf Hn) as (Hs & Hc & Hr). split; [|done].
  apply map_eq. intros i. apply option_eq. intros r. rewrite map_lookup_filter_Some. split.
  - intros Hi. destruct (Hs i r Hi) as [Hi' Ha%cb_applies]. done.
  - intros [Hi Ha%cb_applies]. by apply Hc.
Qed.

(** What the fault-detection cache answers for a service are valid rules of the
    store that are meant for it, among them all those about the service itself,
    with the revision that belongs to them. *)
Theorem fault_detectors_match {A} (DefaultTimeDiff : Z) (c : ruleCache A) (st : gmap string (Rule A)) (name namespace : string) :
  follows getServicesInvolveByFaultDetectRule false DefaultTimeDiff FaultDetectRuleName c st -> name <> allMatched ->
  map_Forall (fun i r => visible st !! i = Some r /\ targets namespace name r) (bRules (GetConfig c name namespace)) /\
  map_Forall (fun i r => DstNamespace r = namespace -> DstService r = name -> bRules (GetConfig c name namespace) !! i = Some r) (visible st) /\
  reloadRevision (GetConfig c name namespace) = GetConfig c name namespace.
Proof.
  intros Hf%follows_tracks Hn. apply tracks_inv in Hf; [|apply fd_one_destination].
  pose proof (GetConfig_contains _ _ _ _ name namespace Hf Hn) as (Hs & _ & Hr). split_and!; [| |done].
  - intros i r Hi. destruct (Hs i r Hi) as [Hi' Ha%fd_applies]. done.
  - intros i r Hi H1 H2. destruct Hf as [_ _ _ Hsvc]. specialize (Hsvc namespace name).
    assert (about getServicesInvolveByFaultDetectRule (namespace, name) r) as Hab.
    { unfold about, getServicesInvolveByFaultDetectRule. rewrite H1, H2, decide_False by naive_solver. done. }
    unfold GetConfig, checkServiceSpecificCache.
    assert (match svcRules c !! namespace with Some rules => rules !! name | None => None end = cell c (namespace, name)) as ->
      by (unfold cell; cbn; by destruct (svcRules c !! namespace)).
    destruct (cell c (namespace, name)) as [b|]; [by apply Hsvc|]. by destruct (Hsvc Hn i r Hi).
Qed.
