(* ===== verification/RuleStore.v ===== *)
(** * Circuit-breaker and fault-detection rules in the boltdb store ([src/store/boltdb/circuitbreaker_rule.go], [faultdetector.go], [handler.go])

    One table for each kind of rule.  A rule that is deleted stays, marked as not
    valid, until one with its id is created.  Each call of the handler is one
    transaction, which may fail without effect: [rfaults] says which of the next
    ones do.  The rules of a table are those of [RuleCache.v], with the fields the
    cache does not look at in their body. *)

From S2P Require Import Prelude Effects GoStrings Utils InstanceStore RuleCache.
From Stdlib Require Import ZArith Lia Ascii.
From stdpp Require Import base tactics list gmap strings sorting.

Open Scope Z_scope.

(** ** Data *)

(** The rest of [model.CircuitBreakerRule] and of [model.FaultDetectRule]. *)
Record CircuitBreakerBody := mkCbBody {
  cbNamespace : string;
  cbDescription : string;
  cbLevel : Z;
  cbSrcService : string;
  cbSrcNamespace : string;
  cbDstMethod : string;
  cbRule : string;
  cbEnable : bool;
  cbCreateTime : Z;
  cbEnableTime : Z }.
Record FaultDetectBody := mkFdBody {
  fdNamespace : string;
  fdDescription : string;
  fdDstMethod : string;
  fdRule : string;
  fdCreateTime : Z }.

Abbreviation CircuitBreakerRule := (Rule CircuitBreakerBody).
Abbreviation FaultDetectRule := (Rule FaultDetectBody).

(** [time.Time{}.UnixNano()], which does not fit its 64 bits. *)
Definition noTime : Z := -6795364578871345152.

Record rule_db (A : Type) := mkRuleDb {
  tblRule : gmap string (Rule A);
  rclock : Z;
  rfaults : list bool }.
Arguments mkRuleDb {A}. Arguments tblRule {A}. Arguments rclock {A}. Arguments rfaults {A}.

Abbreviation rdb A := (call (rule_db A) StatusCode).

(** ** The handler *)

Section handler.
  Context {A : Type}.

Definition set_tblRule (w : rule_db A) t : rule_db A := mkRuleDb t (rclock w) (rfaults w).
Definition set_rfaults (w : rule_db A) l : rule_db A := mkRuleDb (tblRule w) (rclock w) l.

(** [db.Update] and [db.View]. *)
Definition rule_transaction {B} (body : rdb A B) : rdb A B := fun w =>
  let w' := set_rfaults w (tail (rfaults w)) in
  if default false (head (rfaults w)) then Ret (w', Fail Unknown)
  else match body w' with
       | Ret (_, Fail e) => Ret (w', Fail e)
       | r => r
       end.

(** [bolt] has no empty keys. *)
Definition SaveValue (key : string) (value : Rule A) : rdb A unit :=
  rule_transaction (if decide (key = "") then raise Unknown else modify (fun w => set_tblRule w (<[key := value]> (tblRule w)))).
Definition DeleteValue (key : string) : rdb A unit := rule_transaction (modify (fun w => set_tblRule w (delete key (tblRule w)))).
(** A row that is not there is not updated, and that is no error. *)
Definition UpdateValue (key : string) (properties : Z -> Rule A -> Rule A) : rdb A unit :=
  rule_transaction (modify (fun w => set_tblRule w (alter (properties (rclock w)) key (tblRule w)))).
Definition LoadValue (key : string) : rdb A (option (Rule A)) := rule_transaction (w ← get; mret (tblRule w !! key)).
Definition LoadValuesByFilter (pred : Rule A -> bool) : rdb A (gmap string (Rule A)) :=
  rule_transaction (w ← get; mret (filter (fun kv => pred kv.2 = true) (tblRule w))).

(** ** What the two stores share *)

Definition set_times (f : Z -> A -> A) (t : Z) (r : Rule A) : Rule A :=
  mkRule (rID r) (rName r) (DstService r) (DstNamespace r) (rRevision r) true t (f t (rBody r)).

(** [f]: sets the creation time. *)
Definition CreateRule (f : Z -> A -> A) (r : Rule A) : rdb A (Rule A) :=
  w ← get;
  let r := set_times f (rclock w) r in
  _ ← DeleteValue (rID r);
  _ ← SaveValue (rID r) r;
  mret r.

Definition invalidate (t : Z) (r : Rule A) : Rule A :=
  mkRule (rID r) (rName r) (DstService r) (DstNamespace r) (rRevision r) false t (rBody r).
Definition DeleteRule (id : string) : rdb A unit := UpdateValue id invalidate.

(** An empty id is a bad parameter. *)
Definition getRuleWithID (id : string) : rdb A (option (Rule A)) :=
  if decide (id = "") then raise Unknown
  else r ← LoadValue id; mret (match r with Some r => if rValid r then Some r else None | None => None end).
Definition HasRule (id : string) : rdb A bool := r ← getRuleWithID id; mret (bool_decide (is_Some r)).

(** The order of a page: the last modified first, then by id. *)
Definition newer (a b : Rule A) : Prop :=
  rModifyTime b < rModifyTime a \/ (rModifyTime b = rModifyTime a /\ String.leb (rID a) (rID b) = true).
#[export] Instance newer_dec : RelDecision newer := fun a b =>
  decide (rModifyTime b < rModifyTime a \/ (rModifyTime b = rModifyTime a /\ String.leb (rID a) (rID b) = true)).

(** A page that does not exist is the whole list, as it is. *)
Definition sublistRules (cbRules : list (Rule A)) (offset limit : Z) : list (Rule A) :=
  let endIndex := u32 (offset + limit) in
  let totalCount := u32 (Z.of_nat (length cbRules)) in
  if decide (totalCount = 0 \/ endIndex <= offset \/ totalCount <= offset) then cbRules
  else take (Z.to_nat (Z.min endIndex totalCount - offset)) (drop (Z.to_nat offset) (merge_sort newer cbRules)).

End handler.

(** ** Queries *)

(** [strings.ToLower] for ASCII; [strconv.ParseBool] and [strconv.Atoi] as they
    are used, without their errors. *)
Definition lower (c : ascii) : ascii :=
  if decide ((65 <= N_of_ascii c)%N /\ (N_of_ascii c <= 90)%N) then ascii_of_N (N_of_ascii c + 32) else c.
Fixpoint ToLower (s : string) : string := match s with EmptyString => EmptyString | String c s => String (lower c) (ToLower s) end.
Definition ParseBool (s : string) : bool := bool_decide (s ∈ ["1"; "t"; "T"; "TRUE"; "true"; "True"]).
Definition Atoi (s : string) : Z := match signed s with Some z => Z.max (- 2 ^ 63) (Z.min z (2 ^ 63 - 1)) | None => 0 end.

(** How a field is compared with what is asked for; [Blur]: by [strings.Contains]. *)
Inductive field := Exact (value : string) | Blur (value : string) | Flag (value : bool) | Level (value : Z).
Definition field_matches (f : field) (filterValue : string) : bool :=
  match f with
  | Exact v => bool_decide (v = filterValue)
  | Blur v => Contains v filterValue
  | Flag v => bool_decide (ParseBool filterValue = v)
  | Level v => existsb (fun level => bool_decide (Atoi level = v)) (Split "," filterValue)
  end.

(** The fields in the lower case of their names; the queries do not ask for
    [Valid], nor for [Enable] where there is none. *)
Definition cbFields (r : CircuitBreakerRule) : list (string * field) :=
  [("id", Exact (rID r)); ("name", Blur (rName r)); ("namespace", Exact (cbNamespace (rBody r)));
   ("description", Blur (cbDescription (rBody r))); ("level", Level (cbLevel (rBody r)));
   ("srcservice", Blur (cbSrcService (rBody r))); ("srcnamespace", Exact (cbSrcNamespace (rBody r)));
   ("dstservice", Blur (DstService r)); ("dstnamespace", Exact (DstNamespace r)); ("dstmethod", Blur (cbDstMethod (rBody r)));
   ("enable", Flag (cbEnable (rBody r)))].
Definition fdFields (r : FaultDetectRule) : list (string * field) :=
  [("id", Exact (rID r)); ("name", Blur (rName r)); ("namespace", Exact (fdNamespace (rBody r)));
   ("description", Blur (fdDescription (rBody r))); ("dstservice", Blur (DstService r)); ("dstnamespace", Blur (DstNamespace r));
   ("dstmethod", Blur (fdDstMethod (rBody r)))].

Definition fields_match (fields : list (string * field)) (filters : gmap string string) : bool :=
  forallb (fun kf : string * field => match filters !! kf.1 with None => true | Some v => field_matches kf.2 v end) fields.

Section queries.
  (** The order in which Go ranges over a map. *)
  Context (range : forall A, gmap string A -> list (string * A)).

Definition service_key : string := "service".
Definition service_ns_key : string := "serviceNamespace".
Definition exactName : string := "exactName".
Definition excludeId : string := "excludeId".

(** The filter without what is handled apart. *)
Definition plain_filter (query : gmap string string) : gmap string string :=
  delete "brief" (delete excludeId (delete exactName (delete service_ns_key (delete service_key query)))).

(** [about svc ns]: the rule is about that service. *)
Definition special_match {A} (query : gmap string string) (about : string -> string -> bool) (r : Rule A) : bool :=
  match query !! service_key, query !! service_ns_key with Some svc, Some ns => about svc ns | _, _ => true end
  && match query !! exactName with Some name => bool_decide (name = rName r) | None => true end
  && match query !! excludeId with Some id => negb (bool_decide (id = rID r)) | None => true end.

Definition GetRules {A} (pred : Rule A -> bool) (offset limit : Z) : rdb A (Z * list (Rule A)) :=
  result ← LoadValuesByFilter pred;
  let out := (range _ result).*2 in
  mret (u32 (Z.of_nat (length out)), sublistRules out offset limit).

Definition lowerKeys (filters : gmap string string) : gmap string string := list_to_map (prod_map ToLower (fun v => v) <$> range _ filters).

Definition cbMatches (query : gmap string string) (r : CircuitBreakerRule) : bool :=
  rValid r
  && special_match query (fun svc ns => (bool_decide (cbSrcService (rBody r) = svc) && bool_decide (cbSrcNamespace (rBody r) = ns))
                                        || (bool_decide (DstService r = svc) && bool_decide (DstNamespace r = ns))) r
  && fields_match (cbFields r) (lowerKeys (plain_filter query)).
Definition GetCircuitBreakerRules (query : gmap string string) (offset limit : Z) := GetRules (cbMatches query) offset limit.

(** The keys of this filter are not lowered. *)
Definition fdMatches (query : gmap string string) (r : FaultDetectRule) : bool :=
  rValid r
  && special_match query (fun svc ns => bool_decide (DstService r = svc) && bool_decide (DstNamespace r = ns)) r
  && fields_match (fdFields r) (plain_filter query).
Definition GetFaultDetectRules (query : gmap string string) (offset limit : Z) := GetRules (fdMatches query) offset limit.

Definition byName (name namespace : string) : gmap string string := {[exactName := name; "namespace" := namespace]}.
Definition byNameExcludeId (name namespace id : string) : gmap string string := <[excludeId := id]> (byName name namespace).

(** ** [circuitBreakerStore] *)

Definition initCircuitBreakerRule (t : Z) (b : CircuitBreakerBody) : CircuitBreakerBody :=
  mkCbBody (cbNamespace b) (cbDescription b) (cbLevel b) (cbSrcService b) (cbSrcNamespace b) (cbDstMethod b) (cbRule b) (cbEnable b) t (cbEnableTime b).
Definition CreateCircuitBreakerRule : CircuitBreakerRule -> rdb CircuitBreakerBody CircuitBreakerRule := CreateRule initCircuitBreakerRule.
Definition DeleteCircuitBreakerRule : string -> rdb CircuitBreakerBody unit := DeleteRule.
Definition HasCircuitBreakerRule : string -> rdb CircuitBreakerBody bool := HasRule.

(** Whether it is enabled, and since when, stays. *)
Definition changeCircuitBreaker (r : CircuitBreakerRule) (t : Z) (row : CircuitBreakerRule) : CircuitBreakerRule :=
  mkRule (rID row) (rName r) (DstService r) (DstNamespace r) (rRevision r) (rValid row) t
    (mkCbBody (cbNamespace (rBody r)) (cbDescription (rBody r)) (cbLevel (rBody r)) (cbSrcService (rBody r)) (cbSrcNamespace (rBody r))
      (cbDstMethod (rBody r)) (cbRule (rBody r)) (cbEnable (rBody row)) (cbCreateTime (rBody row)) (cbEnableTime (rBody row))).
Definition UpdateCircuitBreakerRule (r : CircuitBreakerRule) : rdb CircuitBreakerBody unit := UpdateValue (rID r) (changeCircuitBreaker r).

Definition enableRow (enable : bool) (revision : string) (t : Z) (row : CircuitBreakerRule) : CircuitBreakerRule :=
  mkRule (rID row) (rName row) (DstService row) (DstNamespace row) revision (rValid row) t
    (mkCbBody (cbNamespace (rBody row)) (cbDescription (rBody row)) (cbLevel (rBody row)) (cbSrcService (rBody row)) (cbSrcNamespace (rBody row))
      (cbDstMethod (rBody row)) (cbRule (rBody row)) enable (cbCreateTime (rBody row)) (if enable then t else 0)).
Definition EnableCircuitBreakerRule (id : string) (enable : bool) (revision : string) : rdb CircuitBreakerBody unit :=
  UpdateValue id (enableRow enable revision).

Definition HasCircuitBreakerRuleByName (name namespace : string) : rdb CircuitBreakerBody bool :=
  '(total, _) ← GetCircuitBreakerRules (byName name namespace) 0 10; mret (bool_decide (0 < total)).
Definition HasCircuitBreakerRuleByNameExcludeId (name namespace id : string) : rdb CircuitBreakerBody bool :=
  '(total, _) ← GetCircuitBreakerRules (byNameExcludeId name namespace id) 0 10; mret (bool_decide (0 < total)).

(** ** [faultDetectStore] *)

Definition initFaultDetectRule (t : Z) (b : FaultDetectBody) : FaultDetectBody :=
  mkFdBody (fdNamespace b) (fdDescription b) (fdDstMethod b) (fdRule b) t.
Definition CreateFaultDetectRule : FaultDetectRule -> rdb FaultDetectBody FaultDetectRule := CreateRule initFaultDetectRule.
Definition DeleteFaultDetectRule : string -> rdb FaultDetectBody unit := DeleteRule.
Definition HasFaultDetectRule : string -> rdb FaultDetectBody bool := HasRule.

(** The whole row is written, with the times of the argument but the last. *)
Definition UpdateFaultDetectRule (r : FaultDetectRule) : rdb FaultDetectBody unit :=
  w ← get; SaveValue (rID r) (set_times (fun _ b => b) (rclock w) r).

Definition HasFaultDetectRuleByName (name namespace : string) : rdb FaultDetectBody bool :=
  '(total, _) ← GetFaultDetectRules (byName name namespace) 0 10; mret (bool_decide (0 < total)).
Definition HasFaultDetectRuleByNameExcludeId (name namespace id : string) : rdb FaultDetectBody bool :=
  '(total, _) ← GetFaultDetectRules (byNameExcludeId name namespace id) 0 10; mret (bool_decide (0 < total)).

End queries.
