(* ===== verification/RuleServer.v ===== *)
(** * The API of circuit-breaker and fault-detection rules ([src/service/circuitbreaker_rule.go], [faultdetect_config.go])

    Rules are created, changed, deleted, enabled and listed, one request of a batch
    after the other.  The two APIs do the same, with other codes, other messages
    and other tables: [RuleKind] says what a handler needs of a kind of rule, and
    [RuleKindLaws] what it relies on; [CircuitBreaker] and [FaultDetect] are the
    two kinds.  The messages are third-party; what the code does not look at in
    them, and their encoding in JSON, are parameters. *)

From S2P Require Import Prelude Effects GoStrings Utils Registry InstanceStore Services Api RuleCache RuleStore.
From Stdlib Require Import ZArith Lia Ascii.
From stdpp Require Import base tactics list gmap strings sorting.

Open Scope Z_scope.

Definition MaxRuleName : Z := 64.
Definition MaxCommentLength : Z := 1024.
Definition DefaultNamespace : string := "default".

(** ** A kind of rule *)

(** [Req]: its message.  [onlyId]: the message with nothing but an id.  [lengths]:
    what is checked of the lengths of its fields, in order.  [toModel] and
    [toApi] may fail on the JSON; [toModel] draws the revision. *)
Class RuleKind (Req A : Type) := {
  reqId : Req -> string;
  reqName : Req -> string;
  reqNamespace : Req -> string;
  set_reqId : Req -> string -> Req;
  onlyId : string -> Req;
  lengths : Req -> list (bool * Code);
  toModel : string -> Req -> option (Rule A);
  toApi : Rule A -> option Req;
  CodeParse : Code;
  CodeExisted : Code;
  CodeNotFound : Code;
  existedWithId : bool;
  store_create : Rule A -> rdb A (Rule A);
  store_update : Rule A -> rdb A unit;
  store_hasByName : string -> string -> rdb A bool;
  store_hasByNameExcludeId : string -> string -> string -> rdb A bool;
  store_list : gmap string string -> Z -> Z -> rdb A (Z * list (Rule A));
  filters : gset string;
  ruleNamespace : Rule A -> string }.

Record RuleResponse (Req : Type) := mkRuleResponse { rrCode : Code; rrData : option Req }.
Arguments mkRuleResponse {Req}. Arguments rrCode {Req}. Arguments rrData {Req}.

Record RuleBatch (Req : Type) := mkRuleBatch { rbBatch : BatchWriteResponse; rbData : list (option Req) }.
Arguments mkRuleBatch {Req}. Arguments rbBatch {Req}. Arguments rbData {Req}.

Record RuleQuery (Req : Type) := mkRuleQuery { rqCode : Code; rqAmount : Z; rqSize : Z; rqRules : list Req }.
Arguments mkRuleQuery {Req}. Arguments rqCode {Req}. Arguments rqAmount {Req}. Arguments rqSize {Req}. Arguments rqRules {Req}.

Definition set_rID {A} (r : Rule A) (id : string) : Rule A :=
  mkRule id (rName r) (DstService r) (DstNamespace r) (rRevision r) (rValid r) (rModifyTime r) (rBody r).

(** ** Handlers *)

Section handlers.
  Context `{!RuleKind Req A}.
  Context (recording : bool).

#[local] Abbreviation Server := (@Api.Server (rule_db A)).
#[local] Abbreviation rule_handler := (call Server (RuleResponse Req)).

Definition rule_code (code : Code) : RuleResponse Req := mkRuleResponse code None.
Definition rule_stored {B} (m : rdb A B) (response : StatusCode -> RuleResponse Req) : call Server (RuleResponse Req) B :=
  orelse (on_storage m) response.
Definition storeError2Response (err : StatusCode) : RuleResponse Req := rule_code (StoreCode2APICode err).
Definition storeError2AnyResponse (id : string) (err : StatusCode) : RuleResponse Req :=
  mkRuleResponse (StoreCode2APICode err) (Some (onlyId id)).

Fixpoint firstFailed (checks : list (bool * Code)) : option Code :=
  match checks with [] => None | (failed, code) :: checks => if (failed : bool) then Some code else firstFailed checks end.

Definition checkRuleParams (req : option Req) (idRequired nameRequired : bool) : option Code :=
  match req with
  | None => Some EmptyRequest
  | Some req =>
      match firstFailed (lengths req) with
      | Some code => Some code
      | None =>
          if nameRequired && bool_decide (reqName req = "") then Some InvalidCircuitBreakerName
          else if idRequired && bool_decide (reqId req = "") then Some InvalidCircuitBreakerID else None
      end
  end.

Definition ruleRecordEntry (req : Req) (name id : string) (opt : OperationType) : RecordEntry :=
  mkEntry (name +:+ "(" +:+ id +:+ ")") (reqNamespace req) opt.

(** [revision] and [uuid]: what the handler draws. *)
Definition createRule (revision uuid : string) (request : option Req) : rule_handler (RuleResponse Req) :=
  match checkRuleParams request false true with
  | Some code => raise (rule_code code)
  | None =>
      request ← deref request;
      match toModel revision request with
      | None => raise (rule_code CodeParse)
      | Some data =>
          existing ← rule_stored (store_hasByName (rName data) (ruleNamespace data)) storeError2Response;
          if (existing : bool) then raise (rule_code CodeExisted)
          else
            let data := set_rID data uuid in
            _ ← rule_stored (store_create data) storeError2Response;
            _ ← RecordHistory recording (ruleRecordEntry request (rName data) (rID data) OCreate);
            mret (mkRuleResponse ExecuteSuccess (Some (set_reqId request (rID data))))
      end
  end.

Definition checkRuleExists (id : string) : rule_handler unit :=
  existing ← rule_stored (HasRule id) (fun _ => rule_code StoreLayerException);
  if (existing : bool) then mret () else raise (rule_code CodeNotFound).

(** Deleting what is not there succeeds. *)
Definition deleteRule (request : option Req) : rule_handler (RuleResponse Req) :=
  match checkRuleParams request true false with
  | Some code => raise (rule_code code)
  | None =>
      request ← deref request;
      found ← attempt (checkRuleExists (reqId request));
      match found with
      | Fail resp => raise (if decide (rrCode resp = CodeNotFound) then mkRuleResponse ExecuteSuccess (rrData resp) else resp)
      | Okay _ =>
          let cbRuleId := onlyId (reqId request) in
          _ ← rule_stored (DeleteRule (reqId request)) (fun _ => mkRuleResponse CodeParse (Some cbRuleId));
          _ ← RecordHistory recording (ruleRecordEntry request (reqName request) (reqId request) ODelete);
          mret (mkRuleResponse ExecuteSuccess (Some cbRuleId))
      end
  end.

Definition updateRule (revision : string) (request : option Req) : rule_handler (RuleResponse Req) :=
  match checkRuleParams request true true with
  | Some code => raise (rule_code code)
  | None =>
      request ← deref request;
      _ ← checkRuleExists (reqId request);
      let cbRuleId := onlyId (reqId request) in
      match toModel revision request with
      | None => raise (mkRuleResponse CodeParse (Some cbRuleId))
      | Some cbRule =>
          let cbRule := set_rID cbRule (reqId request) in
          existing ← rule_stored (store_hasByNameExcludeId (rName cbRule) (ruleNamespace cbRule) (rID cbRule)) storeError2Response;
          if (existing : bool) then raise (mkRuleResponse CodeExisted (if existedWithId then Some cbRuleId else None))
          else
            _ ← rule_stored (store_update cbRule) (storeError2AnyResponse (reqId request));
            _ ← RecordHistory recording (ruleRecordEntry request (rName cbRule) (rID cbRule) OUpdate);
            mret (mkRuleResponse ExecuteSuccess (Some cbRuleId))
      end
  end.

(** ** Batches and queries *)

Definition checkBatchRules (req : list (option Req)) : option Code :=
  if decide (req = []) then Some EmptyRequest else if decide (MaxBatchSize < Z.of_nat (length req)) then Some BatchSizeOverLimit else None.

Definition told (r : result (RuleResponse Req) (RuleResponse Req)) : RuleResponse Req := match r with Okay r => r | Fail r => r end.

Fixpoint rulesInTurn (handle : nat -> option Req -> rule_handler (RuleResponse Req)) (i : nat) (reqs : list (option Req))
    : rule_handler (list (RuleResponse Req)) :=
  match reqs with
  | [] => mret []
  | req :: reqs => r ← attempt (handle i req); rest ← rulesInTurn handle (S i) reqs; mret (told r :: rest)
  end.

(** [handle] is told the position of the request, as each draws its own uuids. *)
Definition batchRules (number : Code -> Z) (handle : nat -> option Req -> rule_handler (RuleResponse Req)) (reqs : list (option Req))
    : rule_handler (RuleBatch Req) :=
  match checkBatchRules reqs with
  | Some code => mret (mkRuleBatch (NewBatchWriteResponse number code) [])
  | None =>
      responses ← rulesInTurn handle 0 reqs;
      mret (mkRuleBatch (FormatBatchWriteResponse number
              (foldl (Collect number) (NewBatchWriteResponse number ExecuteSuccess) ((fun r => NewResponse (rrCode r)) <$> responses)))
            (rrData <$> responses))
  end.

(** [Size] counts the rules before those that cannot be read are left out. *)
Definition queryRules (query : gmap string string) : rule_handler (RuleQuery Req) :=
  let refused code := mkRuleQuery code 0 0 [] in
  if decide (dom query ⊆ filters) then
    let '(query, parsed) := ParseOffsetAndLimit query in
    match parsed with
    | Fail _ => mret (refused InvalidParameter)
    | Okay (offset, limit) =>
        found ← attempt (on_storage (store_list query offset limit));
        mret (match found with
              | Fail _ => refused StoreLayerException
              | Okay (total, cbRules) => mkRuleQuery ExecuteSuccess total (u32 (Z.of_nat (length cbRules))) (omap toApi cbRules)
              end)
    end
  else mret (refused InvalidParameter).

End handlers.

(** ** The messages *)

Record MatchString := mkMatchString { msType : Z; msValue : option string; msValueType : Z }.
(** [RuleMatcher_DestinationService] and [FaultDetectRule_DestinationService]. *)
Record Destination := mkDestination { deService : string; deNamespace : string; deMethod : option MatchString }.
(** [rmSource]: service and namespace. *)
Record RuleMatcher := mkMatcher { rmSource : option (string * string); rmDestination : option Destination }.

(** [cpPolicy], [fpConfig]: the conditions of the rule, how it ejects and
    recovers; how a fault detector probes. *)
Record CbProto (P : Type) := mkCbProto {
  cpId : string;
  cpName : string;
  cpNamespace : string;
  cpDescription : string;
  cpLevel : Z;
  cpEnable : bool;
  cpRuleMatcher : option RuleMatcher;
  cpPolicy : P;
  cpRevision : string;
  cpCtime : string;
  cpMtime : string;
  cpEtime : string }.
Record FdProto (P : Type) := mkFdProto {
  fpId : string;
  fpName : string;
  fpNamespace : string;
  fpDescription : string;
  fpTargetService : option Destination;
  fpConfig : P;
  fpRevision : string;
  fpCtime : string;
  fpMtime : string }.
Arguments mkCbProto {P}. Arguments cpId {P}. Arguments cpName {P}. Arguments cpNamespace {P}. Arguments cpDescription {P}. Arguments cpLevel {P}.
Arguments cpEnable {P}. Arguments cpRuleMatcher {P}. Arguments cpPolicy {P}. Arguments cpRevision {P}. Arguments cpCtime {P}. Arguments cpMtime {P}. Arguments cpEtime {P}.
Arguments mkFdProto {P}. Arguments fpId {P}. Arguments fpName {P}. Arguments fpNamespace {P}. Arguments fpDescription {P}.
Arguments fpTargetService {P}. Arguments fpConfig {P}. Arguments fpRevision {P}. Arguments fpCtime {P}. Arguments fpMtime {P}.

Definition GetMethodValue (d : option Destination) : string :=
  match d with
  | Some d => match deMethod d with Some m => GetValue (msValue m) | None => "" end
  | None => ""
  end.

(** The checks of one kind after the other. *)
Definition checkDbLen (service namespace name ruleNamespace description : string) (nameCode : Code) : list (bool * Code) :=
  let failed param dbLen := bool_decide (is_Some (CheckDbRawStrFieldLen param dbLen)) in
  [(failed service MaxDbServiceNameLength, InvalidServiceName); (failed namespace MaxDbServiceNamespaceLength, InvalidNamespaceName);
   (failed name MaxRuleName, nameCode); (failed ruleNamespace MaxDbServiceNamespaceLength, InvalidNamespaceName);
   (failed description MaxCommentLength, InvalidServiceComment)].

Definition orDefault (namespace : string) : string := if decide (namespace = "") then DefaultNamespace else namespace.

(** ** The two kinds *)

Section circuit_breakers.
  Context {P : Type} (noPolicy : P).
  (** [encoding/json] on the fields of the message that are kept as text. *)
  Context (Marshal : option RuleMatcher * P -> option string) (Unmarshal : string -> option (option RuleMatcher * P)).
  Context (Time2String : Z -> string) (Year : Z -> Z).
  Context (range : forall A, gmap string A -> list (string * A)).

Definition cbSource (req : CbProto P) : option (string * string) := cpRuleMatcher req ≫= rmSource.
Definition cbDestination (req : CbProto P) : option Destination := cpRuleMatcher req ≫= rmDestination.

Definition api2CircuitBreakerRule (revision : string) (req : CbProto P) : option CircuitBreakerRule :=
  match Marshal (cpRuleMatcher req, cpPolicy req) with
  | None => None
  | Some rule =>
      Some (mkRule "" (cpName req) (default "" (deService <$> cbDestination req)) (default "" (deNamespace <$> cbDestination req)) revision false noTime
        (mkCbBody (orDefault (cpNamespace req)) (cpDescription req) (cpLevel req) (default "" (fst <$> cbSource req)) (default "" (snd <$> cbSource req))
          (GetMethodValue (cbDestination req)) rule (cpEnable req) noTime noTime))
  end.

(** A rule without its text is answered with its services. *)
Definition circuitBreakerRule2api (r : CircuitBreakerRule) : option (CbProto P) :=
  let b := rBody r in
  let text := if decide (cbRule b = "") then
                Some (Some (mkMatcher (Some (cbSrcService b, cbSrcNamespace b))
                        (Some (mkDestination (DstService r) (DstNamespace r) (Some (mkMatchString 0 (Some (cbDstMethod b)) 0))))), noPolicy)
              else Unmarshal (cbRule b) in
  match text with
  | None => None
  | Some (matcher, policy) =>
      Some (mkCbProto (rID r) (rName r) (cbNamespace b) (cbDescription b) (cbLevel b) (cbEnable b) matcher policy (rRevision r)
        (Time2String (cbCreateTime b)) (Time2String (rModifyTime r)) (if decide (2000 < Year (cbEnableTime b)) then Time2String (cbEnableTime b) else ""))
  end.

Definition checkCircuitBreakerRuleParamsDbLen (req : CbProto P) : list (bool * Code) :=
  checkDbLen (default "" (fst <$> cbSource req)) (default "" (snd <$> cbSource req)) (cpName req) (cpNamespace req) (cpDescription req)
    InvalidCircuitBreakerName.

Definition set_cpId (r : CbProto P) (id : string) : CbProto P :=
  mkCbProto id (cpName r) (cpNamespace r) (cpDescription r) (cpLevel r) (cpEnable r) (cpRuleMatcher r) (cpPolicy r) (cpRevision r) (cpCtime r)
    (cpMtime r) (cpEtime r).

Definition CircuitBreakerRuleFilters : gset string :=
  {["brief"; "offset"; "limit"; "id"; "name"; "namespace"; "enable"; "level"; "service"; "serviceNamespace"; "srcService"; "srcNamespace";
    "dstService"; "dstNamespace"; "dstMethod"; "description"]}.

#[local] Instance CircuitBreakerKind : RuleKind (CbProto P) CircuitBreakerBody := {|
  reqId := cpId;
  reqName := cpName;
  reqNamespace := cpNamespace;
  set_reqId := set_cpId;
  onlyId id := mkCbProto id "" "" "" 0 false None noPolicy "" "" "" "";
  lengths := checkCircuitBreakerRuleParamsDbLen;
  toModel := api2CircuitBreakerRule;
  toApi := circuitBreakerRule2api;
  CodeParse := ParseCircuitBreakerException;
  CodeExisted := ServiceExistedCircuitBreakers;
  CodeNotFound := NotFoundCircuitBreaker;
  existedWithId := false;
  store_create := CreateCircuitBreakerRule;
  store_update := UpdateCircuitBreakerRule;
  store_hasByName := HasCircuitBreakerRuleByName range;
  store_hasByNameExcludeId := HasCircuitBreakerRuleByNameExcludeId range;
  store_list := GetCircuitBreakerRules range;
  filters := CircuitBreakerRuleFilters;
  ruleNamespace r := cbNamespace (rBody r) |}.

Definition createCircuitBreakerRule (recording : bool) := createRule recording.
Definition deleteCircuitBreakerRule (recording : bool) := deleteRule recording.
Definition updateCircuitBreakerRule (recording : bool) := updateRule recording.
Definition GetCircuitBreakerRulesAPI := queryRules.

Definition enableCircuitBreakerRule (recording : bool) (revision : string) (request : option (CbProto P))
    : call (@Server (rule_db CircuitBreakerBody)) (RuleResponse (CbProto P)) (RuleResponse (CbProto P)) :=
  match checkRuleParams request true false with
  | Some code => raise (rule_code code)
  | None =>
      request ← deref request;
      _ ← checkRuleExists (cpId request);
      let cbRuleId := onlyId (cpId request) in
      _ ← rule_stored (EnableCircuitBreakerRule (cpId request) (cpEnable request) revision) (storeError2AnyResponse (cpId request));
      _ ← RecordHistory recording (ruleRecordEntry request (cpName request) (cpId request) OUpdate);
      mret (mkRuleResponse ExecuteSuccess (Some cbRuleId))
  end.

(** [draw]: the revision and the id that the handler of a request draws. *)
Definition CreateCircuitBreakerRules (number : Code -> Z) (recording : bool) (draw : nat -> string * string) :=
  batchRules number (fun i => createCircuitBreakerRule recording (draw i).1 (draw i).2).
Definition DeleteCircuitBreakerRules (number : Code -> Z) (recording : bool) := batchRules number (fun _ => deleteCircuitBreakerRule recording).
Definition EnableCircuitBreakerRules (number : Code -> Z) (recording : bool) (draw : nat -> string * string) :=
  batchRules number (fun i => enableCircuitBreakerRule recording (draw i).1).
Definition UpdateCircuitBreakerRules (number : Code -> Z) (recording : bool) (draw : nat -> string * string) :=
  batchRules number (fun i => updateCircuitBreakerRule recording (draw i).1).

End circuit_breakers.

Section fault_detectors.
  Context {P : Type} (noConfig : P).
  Context (Marshal : option Destination * P -> option string) (Unmarshal : string -> option (option Destination * P)).
  Context (Time2String : Z -> string).
  Context (range : forall A, gmap string A -> list (string * A)).

Definition api2FaultDetectRule (revision : string) (req : FdProto P) : option FaultDetectRule :=
  match Marshal (fpTargetService req, fpConfig req) with
  | None => None
  | Some rule =>
      Some (mkRule "" (fpName req) (default "" (deService <$> fpTargetService req)) (default "" (deNamespace <$> fpTargetService req)) revision false noTime
        (mkFdBody (orDefault (fpNamespace req)) (fpDescription req) (GetMethodValue (fpTargetService req)) rule noTime))
  end.

Definition faultDetectRule2api (r : FaultDetectRule) : option (FdProto P) :=
  let b := rBody r in
  let text := if decide (fdRule b = "") then
                Some (Some (mkDestination (DstService r) (DstNamespace r) (Some (mkMatchString 0 (Some (fdDstMethod b)) 0))), noConfig)
              else Unmarshal (fdRule b) in
  match text with
  | None => None
  | Some (target, config) =>
      Some (mkFdProto (rID r) (rName r) (fdNamespace b) (fdDescription b) target config (rRevision r) (Time2String (fdCreateTime b))
        (Time2String (rModifyTime r)))
  end.

Definition checkFaultDetectRuleParamsDbLen (req : FdProto P) : list (bool * Code) :=
  checkDbLen (default "" (deService <$> fpTargetService req)) (default "" (deNamespace <$> fpTargetService req)) (fpName req) (fpNamespace req)
    (fpDescription req) InvalidRateLimitName.

Definition set_fpId (r : FdProto P) (id : string) : FdProto P :=
  mkFdProto id (fpName r) (fpNamespace r) (fpDescription r) (fpTargetService r) (fpConfig r) (fpRevision r) (fpCtime r) (fpMtime r).

Definition FaultDetectRuleFilters : gset string :=
  {["brief"; "offset"; "limit"; "id"; "name"; "namespace"; "service"; "serviceNamespace"; "dstService"; "dstNamespace"; "dstMethod"; "description"]}.

#[local] Instance FaultDetectKind : RuleKind (FdProto P) FaultDetectBody := {|
  reqId := fpId;
  reqName := fpName;
  reqNamespace := fpNamespace;
  set_reqId := set_fpId;
  onlyId id := mkFdProto id "" "" "" None noConfig "" "" "";
  lengths := checkFaultDetectRuleParamsDbLen;
  toModel := api2FaultDetectRule;
  toApi := faultDetectRule2api;
  CodeParse := ParseException;
  CodeExisted := FaultDetectRuleExisted;
  CodeNotFound := NotFoundResource;
  existedWithId := true;
  store_create := CreateFaultDetectRule;
  store_update := UpdateFaultDetectRule;
  store_hasByName := HasFaultDetectRuleByName range;
  store_hasByNameExcludeId := HasFaultDetectRuleByNameExcludeId range;
  store_list := GetFaultDetectRules range;
  filters := FaultDetectRuleFilters;
  ruleNamespace r := fdNamespace (rBody r) |}.

Definition createFaultDetectRule (recording : bool) := createRule recording.
Definition deleteFaultDetectRule (recording : bool) := deleteRule recording.
Definition updateFaultDetectRule (recording : bool) := updateRule recording.
Definition GetFaultDetectRulesAPI := queryRules.

Definition CreateFaultDetectRules (number : Code -> Z) (recording : bool) (draw : nat -> string * string) :=
  batchRules number (fun i => createFaultDetectRule recording (draw i).1 (draw i).2).
Definition DeleteFaultDetectRules (number : Code -> Z) (recording : bool) := batchRules number (fun _ => deleteFaultDetectRule recording).
Definition UpdateFaultDetectRules (number : Code -> Z) (recording : bool) (draw : nat -> string * string) :=
  batchRules number (fun i => updateFaultDetectRule recording (draw i).1).

End fault_detectors.
