(* ===== verification/RuleIntegrity.v ===== *)
(** * What the rule API keeps ([src/service/circuitbreaker_rule.go], [faultdetect_config.go] on [src/store/boltdb])

    [RuleKindLaws]: what a handler relies on of a kind of rule; the two kinds of
    [RuleServer.v] have it on the boltdb store.  From it, what each handler does to
    the table, whichever transactions fail, and the invariant: the valid rules of
    a namespace have different names. *)

From S2P Require Import Prelude Effects GoStrings Utils Registry InstanceStore Services Api RuleCache RuleStore RuleServer.
From Stdlib Require Import ZArith Lia Ascii.
From stdpp Require Import base tactics list gmap strings sorting.

Open Scope Z_scope.

(** ** The laws *)

(** A valid rule of that name and namespace, but for the one called [excluded]. *)
Definition named `{!RuleKind Req A} (t : gmap string (Rule A)) (name namespace : string) (excluded : option string) : Prop :=
  exists i r, t !! i = Some r /\ rValid r = true /\ rName r = name /\ ruleNamespace r = namespace /\ excluded <> Some (rID r).

(** Few enough rules for a count of 32 bits. *)
Definition few {A} (t : gmap string (Rule A)) : Prop := Z.of_nat (size t) < 2 ^ 32.

(** [r'] is [r] as it is stored at the time [now]. *)
Record stored_as `{!RuleKind Req A} (now : Z) (r r' : Rule A) : Prop := {
  sa_id : rID r' = rID r;
  sa_name : rName r' = rName r;
  sa_namespace : ruleNamespace r' = ruleNamespace r;
  sa_service : DstService r' = DstService r /\ DstNamespace r' = DstNamespace r;
  sa_revision : rRevision r' = rRevision r;
  sa_valid : rValid r' = true;
  sa_time : rModifyTime r' = now }.

Definition same_table {A} (w w' : rule_db A) : Prop := tblRule w' = tblRule w /\ rclock w' = rclock w.

Class RuleKindLaws (Req A : Type) `{!RuleKind Req A} := {
  law_hasByName name namespace w : few (tblRule w) ->
    ends (store_hasByName name namespace) w (fun w' r => same_table w w' /\ forall b, r = Okay b -> b = true <-> named (tblRule w) name namespace None);
  law_hasByNameExcludeId name namespace id w : few (tblRule w) ->
    ends (store_hasByNameExcludeId name namespace id) w (fun w' r => same_table w w' /\
      forall b, r = Okay b -> b = true <-> named (tblRule w) name namespace (Some id));
  law_create r w : rID r <> "" ->
    ends (store_create r) w (fun w' res => rclock w' = rclock w /\
      match res with
      | Okay r' => tblRule w' = <[rID r := r']> (tblRule w) /\ stored_as (rclock w) r r'
      | Fail _ => tblRule w' = tblRule w \/ tblRule w' = delete (rID r) (tblRule w)
      end);
  law_update r row w : tblRule w !! rID r = Some row -> rID row = rID r -> rID r <> "" -> rValid row = true ->
    ends (store_update r) w (fun w' res => rclock w' = rclock w /\
      match res with
      | Okay _ => exists r', tblRule w' = <[rID r := r']> (tblRule w) /\ stored_as (rclock w) r r'
      | Fail _ => tblRule w' = tblRule w
      end);
  law_model revision req r : toModel revision req = Some r ->
    rName r = reqName req /\ ruleNamespace r = orDefault (reqNamespace req) /\ rRevision r = revision;
  law_namespace r id : ruleNamespace (set_rID r id) = ruleNamespace r;
  law_codes : CodeParse <> ExecuteSuccess /\ CodeExisted <> ExecuteSuccess /\ CodeNotFound <> ExecuteSuccess /\ CodeNotFound <> StoreLayerException;
  law_lengths req code : firstFailed (lengths req) = Some code -> code <> ExecuteSuccess }.

(** ** The store *)

Section store.
  Context {A : Type}.
  Implicit Types (w : rule_db A).

Lemma ends_rule_transaction {B} (body : rdb A B) w (Q : rule_db A -> result StatusCode B -> Prop) :
  (forall w0, same_table w w0 -> Q w0 (Fail Unknown)) ->
  (forall w0, same_table w w0 -> ends body w0 (fun w' r => match r with Okay _ => Q w' r | Fail e => Q w0 (Fail e) end)) ->
  ends (rule_transaction body) w Q.
Proof.
  intros Hf Hb. set (w0 := set_rfaults w (tail (rfaults w))). assert (same_table w w0) as Hw by done.
  unfold ends, rule_transaction. fold w0. destruct (default false (head (rfaults w))); [eauto|].
  destruct (Hb w0 Hw) as (w' & [b|e] & -> & HQ); eauto.
Qed.

Lemma ends_LoadValue key w :
  ends (LoadValue key) w (fun w' r => same_table w w' /\ forall o, r = Okay o -> o = tblRule w !! key).
Proof.
  apply ends_rule_transaction; [done|]. intros w0 [Ht Hc]. apply ends_bind, ends_get, ends_ret. split; [done|]. intros o [= <-]. by rewrite Ht.
Qed.

Lemma ends_LoadValuesByFilter pred w :
  ends (LoadValuesByFilter pred) w (fun w' r => same_table w w' /\ forall o, r = Okay o -> o = filter (fun kv => pred kv.2 = true) (tblRule w)).
Proof.
  apply ends_rule_transaction; [done|]. intros w0 [Ht Hc]. apply ends_bind, ends_get, ends_ret. split; [done|]. intros o [= <-]. by rewrite Ht.
Qed.

Lemma ends_UpdateValue key f w :
  ends (UpdateValue key f) w (fun w' r => rclock w' = rclock w /\
    tblRule w' = match r with Okay _ => alter (f (rclock w)) key (tblRule w) | Fail _ => tblRule w end).
Proof.
  apply ends_rule_transaction; [by intros w0 [Ht Hc]|]. intros w0 [Ht Hc]. apply ends_modify. cbn. by rewrite Ht, Hc.
Qed.

Lemma ends_SaveValue key r w :
  key <> "" ->
  ends (SaveValue key r) w (fun w' res => rclock w' = rclock w /\
    tblRule w' = match res with Okay _ => <[key := r]> (tblRule w) | Fail _ => tblRule w end).
Proof.
  intros Hk. apply ends_rule_transaction; [by intros w0 [Ht Hc]|]. intros w0 [Ht Hc]. rewrite decide_False by done. apply ends_modify. cbn. by rewrite Ht.
Qed.

Lemma ends_DeleteValue key w :
  ends (DeleteValue key) w (fun w' r => rclock w' = rclock w /\
    tblRule w' = match r with Okay _ => delete key (tblRule w) | Fail _ => tblRule w end).
Proof. apply ends_rule_transaction; [by intros w0 [Ht Hc]|]. intros w0 [Ht Hc]. apply ends_modify. cbn. by rewrite Ht. Qed.

Lemma ends_CreateRule f r w :
  rID r <> "" ->
  ends (CreateRule f r) w (fun w' res => rclock w' = rclock w /\
    match res with
    | Okay r' => tblRule w' = <[rID r := r']> (tblRule w) /\ r' = set_times f (rclock w) r
    | Fail _ => tblRule w' = tblRule w \/ tblRule w' = delete (rID r) (tblRule w)
    end).
Proof.
  intros Hid. unfold CreateRule. apply ends_bind, ends_get. apply ends_bind. eapply ends_weaken; [apply ends_DeleteValue|].
  intros w1 [[]|e] [Hc1 Ht1]; [|split; [done|by left]]. apply ends_bind. eapply ends_weaken; [by apply ends_SaveValue|].
  intros w2 [[]|e] [Hc2 Ht2].
  - apply ends_ret. split; [congruence|]. split; [|done]. rewrite Ht2, Ht1. cbn [rID set_times]. by rewrite insert_delete_eq.
  - split; [congruence|]. right. rewrite Ht2, Ht1. done.
Qed.

Lemma ends_HasRule id w :
  id <> "" ->
  ends (HasRule id) w (fun w' r => same_table w w' /\
    forall b, r = Okay b -> b = true <-> exists row, tblRule w !! id = Some row /\ rValid row = true).
Proof.
  intros Hid. unfold HasRule, getRuleWithID. rewrite decide_False by done. apply ends_bind, ends_bind. eapply ends_weaken; [apply ends_LoadValue|].
  intros w' [o|e] [Hw Ho]; [|done]. apply ends_ret, ends_ret. split; [done|]. intros b [= <-]. rewrite (Ho o eq_refl).
  rewrite bool_decide_eq_true. destruct (tblRule w !! id) as [row|]; cbn; [|split; [by intros [? ?]|naive_solver]].
  destruct (rValid row) eqn:Hv; split; [intros _; by exists row|by eauto|by intros [? ?]|intros (? & [= <-] & ?); congruence].
Qed.

(** A count is positive when there is something. *)
Lemma ends_GetRules (range : forall A, gmap string A -> list (string * A)) pred offset limit w :
  (forall A m, range A m ≡ₚ map_to_list m) -> few (tblRule w) ->
  ends (GetRules range pred offset limit) w (fun w' r => same_table w w' /\
    forall total l, r = Okay (total, l) -> (0 < total <-> exists i row, tblRule w !! i = Some row /\ pred row = true)).
Proof.
  intros Hr Hfew. unfold GetRules. apply ends_bind. eapply ends_weaken; [apply ends_LoadValuesByFilter|].
  intros w' [res|e] [Hw Ho]; [|done]. apply ends_ret. split; [done|]. intros total l [= <- <-]. rewrite (Ho res eq_refl).
  set (got := filter _ _). assert (length (range _ got).*2 = size got) as Hl by (rewrite length_fmap, Hr; apply length_map_to_list).
  rewrite Hl. assert (size got <= size (tblRule w))%nat as Hle by (apply map_subseteq_size, map_filter_subseteq).
  unfold few in Hfew. rewrite wrap_u_small by lia. split.
  - intros Hpos. destruct (decide (got = ∅)) as [He|He]; [rewrite He, map_size_empty in Hpos; lia|].
    apply map_choose in He as (i & row & [Hi Hp]%map_lookup_filter_Some). eauto.
  - intros (i & row & Hi & Hp). assert (got !! i = Some row) as Hg by (by apply map_lookup_filter_Some).
    destruct (decide (size got = 0%nat)) as [He|]; [|lia]. apply map_size_empty_inv in He. by rewrite He, lookup_empty in Hg.
Qed.

End store.

(** ** The two kinds have the laws *)

Section queries.
  Context (range : forall A, gmap string A -> list (string * A)).
  Context (range_all : forall A m, range A m ≡ₚ map_to_list m).

Lemma lowerKeys_namespace ns : lowerKeys range {["namespace" := ns]} = {["namespace" := ns]}.
Proof.
  unfold lowerKeys. assert (range string {["namespace" := ns]} = [("namespace", ns)]) as ->; [|done].
  apply Permutation_singleton_r. by rewrite range_all, map_to_list_singleton.
Qed.

Lemma plain_byName name ns : plain_filter (byName name ns) = {["namespace" := ns]}.
Proof. reflexivity. Qed.
Lemma plain_byNameExcludeId name ns id : plain_filter (byNameExcludeId name ns id) = {["namespace" := ns]}.
Proof. reflexivity. Qed.

Lemma special_byName {A} name ns about (r : Rule A) : special_match (byName name ns) about r = bool_decide (name = rName r).
Proof. unfold special_match. change (byName name ns !! exactName) with (Some name). cbn. by rewrite andb_true_r. Qed.
Lemma special_byNameExcludeId {A} name ns id about (r : Rule A) :
  special_match (byNameExcludeId name ns id) about r = bool_decide (name = rName r) && negb (bool_decide (id = rID r)).
Proof. done. Qed.

Lemma cbFields_namespace r ns : fields_match (cbFields r) {["namespace" := ns]} = bool_decide (cbNamespace (rBody r) = ns).
Proof. cbn. by rewrite andb_true_r. Qed.
Lemma fdFields_namespace r ns : fields_match (fdFields r) {["namespace" := ns]} = bool_decide (fdNamespace (rBody r) = ns).
Proof. cbn. by rewrite andb_true_r. Qed.

End queries.

Lemma firstFailed_in checks code : firstFailed checks = Some code -> code ∈ checks.*2.
Proof. induction checks as [|[[] c] checks IH]; cbn; [done|intros [= ->]; left|intros H; right; auto]. Qed.

Lemma checkDbLen_code s ns n rn d nameCode code : firstFailed (checkDbLen s ns n rn d nameCode) = Some code -> nameCode <> ExecuteSuccess -> code <> ExecuteSuccess.
Proof. intros H%firstFailed_in Hn. cbn in H. set_solver. Qed.

Section kinds.
  Context (range : forall A, gmap string A -> list (string * A)).
  Context (range_all : forall A m, range A m ≡ₚ map_to_list m).

(** A query that finds the valid rules of a name answers whether there is one. *)
Lemma ends_has `{!RuleKind Req A} (pred : Rule A -> bool) name ns excluded w :
  few (tblRule w) ->
  (forall r, pred r = rValid r && (bool_decide (name = rName r) && match excluded with Some id => negb (bool_decide (id = rID r)) | None => true end)
      && bool_decide (ruleNamespace r = ns)) ->
  ends ('(total, _) ← GetRules range pred 0 10; mret (bool_decide (0 < total))) w (fun w' r => same_table w w' /\
    forall b, r = Okay b -> b = true <-> named (tblRule w) name ns excluded).
Proof.
  intros Hfew Hp. apply ends_bind. eapply ends_weaken; [by apply ends_GetRules|]. intros w' [[total l]|e] [Hw Ht]; [|done].
  apply ends_ret. split; [done|]. intros b [= <-]. rewrite bool_decide_eq_true, (Ht _ _ eq_refl). unfold named.
  apply exist_proper. intros i. apply exist_proper. intros r. rewrite Hp.
  destruct excluded as [id|]; rewrite !andb_true_iff, ?negb_true_iff, ?bool_decide_eq_true, ?bool_decide_eq_false; naive_solver.
Qed.

Section circuit_breakers.
  Context (Time2String : Z -> string) (Year : Z -> Z).
  Context {P : Type} (noPolicy : P) (Marshal : option RuleMatcher * P -> option string) (Unmarshal : string -> option (option RuleMatcher * P)).

#[local] Instance cbKind : RuleKind (CbProto P) CircuitBreakerBody := CircuitBreakerKind noPolicy Marshal Unmarshal Time2String Year range.

Lemma toModel_circuit_breaker revision (req : CbProto P) r :
  api2CircuitBreakerRule Marshal revision req = Some r ->
  rName r = cpName req /\ cbNamespace (rBody r) = orDefault (cpNamespace req) /\ rRevision r = revision.
Proof. unfold api2CircuitBreakerRule. destruct (Marshal _); [|done]. by intros [= <-]. Qed.

#[export] Instance circuit_breaker_laws : RuleKindLaws (CbProto P) CircuitBreakerBody.
Proof using range_all.
  split.
  - intros name ns w Hfew. apply ends_has; [done|]. intros r. unfold cbMatches.
    by rewrite special_byName, plain_byName, lowerKeys_namespace, cbFields_namespace, andb_true_r.
  - intros name ns id w Hfew. apply ends_has; [done|]. intros r. unfold cbMatches.
    by rewrite special_byNameExcludeId, plain_byNameExcludeId, lowerKeys_namespace, cbFields_namespace.
  - intros r w Hid. eapply ends_weaken; [by apply (ends_CreateRule initCircuitBreakerRule)|]. intros w' [r'|e] [Hc H]; [|done].
    split; [done|]. destruct H as [Ht ->]. split; [done|]. by split.
  - intros r row w Hrow Hid Hne Hv. eapply ends_weaken; [apply (ends_UpdateValue (rID r) (changeCircuitBreaker r))|].
    intros w' [[]|e] [Hc Ht]; [|done]. split; [done|]. exists (changeCircuitBreaker r (rclock w) row). split; [|by split].
    rewrite Ht. apply map_eq. intros i. destruct (decide (i = rID r)) as [->|Hi]; [by rewrite lookup_alter_eq, lookup_insert_eq, Hrow|by rewrite lookup_alter_ne, lookup_insert_ne].
  - intros revision req r. apply toModel_circuit_breaker.
  - done.
  - done.
  - intros req code H. by apply (checkDbLen_code _ _ _ _ _ _ _ H).
Qed.

End circuit_breakers.

Section fault_detectors.
  Context (Time2String : Z -> string).
  Context {P : Type} (noConfig : P) (Marshal : option Destination * P -> option string) (Unmarshal : string -> option (option Destination * P)).

#[local] Instance fdKind : RuleKind (FdProto P) FaultDetectBody := FaultDetectKind noConfig Marshal Unmarshal Time2String range.

#[export] Instance fault_detector_laws : RuleKindLaws (FdProto P) FaultDetectBody.
Proof using range_all.
  split.
  - intros name ns w Hfew. apply ends_has; [done|]. intros r. unfold fdMatches.
    by rewrite special_byName, plain_byName, fdFields_namespace, andb_true_r.
  - intros name ns id w Hfew. apply ends_has; [done|]. intros r. unfold fdMatches.
    by rewrite special_byNameExcludeId, plain_byNameExcludeId, fdFields_namespace.
  - intros r w Hid. eapply ends_weaken; [by apply (ends_CreateRule initFaultDetectRule)|]. intros w' [r'|e] [Hc H]; [|done].
    split; [done|]. destruct H as [Ht ->]. split; [done|]. by split.
  - intros r row w Hrow Hid Hne Hv. unfold store_update. cbn [fdKind FaultDetectKind]. unfold UpdateFaultDetectRule. apply ends_bind, ends_get.
    eapply ends_weaken; [by apply ends_SaveValue|]. intros w' [[]|e] [Hc Ht]; [|done]. split; [done|].
    exists (set_times (fun _ b => b) (rclock w) r). split; [done|]. by split.
  - intros revision req r. cbn. unfold api2FaultDetectRule. destruct (Marshal _); [|done]. by intros [= <-].
  - done.
  - done.
  - intros req code H. by apply (checkDbLen_code _ _ _ _ _ _ _ H).
Qed.

End fault_detectors.
End kinds.

(** ** What the handlers do *)

Section handlers.
  Context `{!RuleKind Req A} `{!RuleKindLaws Req A} (recording : bool).

#[local] Abbreviation Server := (@Api.Server (rule_db A)).
Implicit Types (s : Server).

Definition table s : gmap string (Rule A) := tblRule (storage s).
Definition time s : Z := rclock (storage s).

Lemma ends_rule_stored {B} (m : rdb A B) f s (Q : Server -> result (RuleResponse Req) B -> Prop) :
  ends m (storage s) (fun w' r => Q (swap s w') (match r with Okay a => Okay a | Fail e => Fail (f e) end)) -> ends (rule_stored m f) s Q.
Proof. intros (w' & r & Hm & HQ). apply ends_orelse. exists (swap s w'), r. unfold on_storage. rewrite Hm. by destruct r. Qed.

Lemma checkRuleParams_some req idRequired nameRequired :
  checkRuleParams req idRequired nameRequired = None ->
  exists r, req = Some r /\ (idRequired = true -> reqId r <> "") /\ (nameRequired = true -> reqName r <> "").
Proof.
  destruct req as [r|]; cbn; [|done]. destruct (firstFailed (lengths r)); [done|]. destruct nameRequired, idRequired; cbn;
    repeat case_bool_decide; try done; by exists r.
Qed.

Lemma checkRuleParams_code req idRequired nameRequired code : checkRuleParams req idRequired nameRequired = Some code -> code <> ExecuteSuccess.
Proof.
  destruct req as [r|]; cbn; [|by intros [= <-]]. destruct (firstFailed (lengths r)) as [c|] eqn:Hl; [intros [= <-]; by eapply law_lengths|].
  destruct (nameRequired && _); [by intros [= <-]|]. destruct (idRequired && _); [by intros [= <-]|done].
Qed.

(** Success means that the name was free and the rule is stored; anything else
    leaves the table as it was, but for an old row of the new id. *)
Definition created (revision uuid : string) (req : option Req) s s' (resp : RuleResponse Req) : Prop :=
  (rrCode resp = ExecuteSuccess -> exists request data r', req = Some request /\ toModel revision request = Some data /\
     ~ named (table s) (rName data) (ruleNamespace data) None /\
     table s' = <[uuid := r']> (table s) /\ stored_as (time s) (set_rID data uuid) r' /\ rrData resp = Some (set_reqId request uuid)) /\
  (rrCode resp <> ExecuteSuccess -> table s' = table s \/ table s' = delete uuid (table s)).

Lemma rule_not_created revision uuid req s s' resp : rrCode resp <> ExecuteSuccess -> table s' = table s -> created revision uuid req s s' resp.
Proof. intros Hc Ht. split; [done|]. by left. Qed.

Lemma createRule_spec revision uuid req s : uuid <> "" -> few (table s) ->
  ends (createRule recording revision uuid req) s (fun s' r => time s' = time s /\ created revision uuid req s s' (told r)).
Proof.
  intros Hu Hfew. unfold createRule. destruct law_codes as (Hcp & Hce & _ & _).
  destruct (checkRuleParams req false true) as [code|] eqn:Hc.
  { apply ends_raise. split; [done|]. apply rule_not_created; [|done]. by eapply checkRuleParams_code. }
  apply checkRuleParams_some in Hc as (request & -> & _ & _). apply ends_bind. eapply ends_deref; [done|].
  destruct (toModel revision request) as [data|] eqn:Hm; [|apply ends_raise; split; [done|]; by apply rule_not_created].
  apply ends_bind, ends_rule_stored. eapply ends_weaken; [by apply law_hasByName|]. intros w1 [ex|e] [[Ht1 Hc1] Hex].
  2: { split; [done|]. apply rule_not_created; [apply StoreCode2APICode_fails|done]. }
  specialize (Hex ex eq_refl). destruct ex; [apply ends_raise; split; [done|]; by apply rule_not_created|].
  apply ends_bind, ends_rule_stored. cbn [storage swap]. eapply ends_weaken; [by apply law_create|]. cbn [rID set_rID]. rewrite Ht1, Hc1.
  intros w2 [r'|e] [Hc2 Ht2].
  2: { split; [done|]. split; [by intros ?%StoreCode2APICode_fails|done]. }
  destruct Ht2 as [Ht2 Hs]. apply ends_bind, ends_record. intros h. apply ends_ret. split; [done|]. split; [|done].
  intros _. exists request, data, r'. split_and!; try done. intros Hn. by apply Hex in Hn.
Qed.

(** *** Rules that are there *)

Lemma checkRuleExists_spec id s : id <> "" ->
  ends (checkRuleExists (Req := Req) id) s (fun s' r => table s' = table s /\ time s' = time s /\
    match r with
    | Okay _ => exists row, table s !! id = Some row /\ rValid row = true
    | Fail resp => rrCode resp <> ExecuteSuccess /\ (rrCode resp = CodeNotFound -> forall row, table s !! id = Some row -> rValid row = false)
    end).
Proof.
  intros Hid. destruct law_codes as (_ & _ & Hn & Hs). unfold checkRuleExists. apply ends_bind, ends_rule_stored. eapply ends_weaken; [by apply ends_HasRule|].
  intros w' [b|e] [[Ht Hc] Hb]; [|by split_and!]. specialize (Hb b eq_refl). destruct b.
  - apply ends_ret. split_and!; [done..|]. by apply Hb.
  - apply ends_raise. split_and!; [done..|]. intros _ row Hrow. destruct (rValid row) eqn:Hv; [|done].
    assert (false = true) as H by (apply Hb; eauto). done.
Qed.

(** Success means that no valid rule has the id, and that no other row changed. *)
Definition deleted (req : option Req) s s' (resp : RuleResponse Req) : Prop :=
  (rrCode resp = ExecuteSuccess -> exists request, req = Some request /\
     (forall row, table s' !! reqId request = Some row -> rValid row = false) /\
     (table s' = table s \/ table s' = alter (invalidate (time s)) (reqId request) (table s))) /\
  (rrCode resp <> ExecuteSuccess -> table s' = table s).

Lemma deleteRule_spec req s :
  ends (deleteRule recording req) s (fun s' r => time s' = time s /\ deleted req s s' (told r)).
Proof.
  unfold deleteRule. destruct law_codes as (Hcp & _ & _ & _).
  destruct (checkRuleParams req true false) as [code|] eqn:Hc.
  { apply checkRuleParams_code in Hc. apply ends_raise. split; [done|]. by split. }
  apply checkRuleParams_some in Hc as (request & -> & Hid & _). specialize (Hid eq_refl). apply ends_bind. eapply ends_deref; [done|].
  apply ends_bind, ends_attempt. destruct (checkRuleExists_spec (reqId request) s Hid) as (s1 & r & Hr & Ht1 & Hc1 & Hf).
  exists s1, r. split; [done|]. destruct r as [[]|resp].
  - apply ends_bind, ends_rule_stored. eapply ends_weaken; [apply (ends_UpdateValue (reqId request) invalidate)|].
    intros w2 [[]|e] [Hc2 Ht2].
    2: { split; [unfold time in *; cbn; congruence|]. split; [done|]. unfold table in *. cbn. congruence. }
    apply ends_bind, ends_record. intros h. apply ends_ret. split; [unfold time in *; cbn; congruence|]. split; [|done].
    intros _. exists request. split; [done|]. change (rclock (storage s1)) with (time s1) in Ht2. change (tblRule (storage s1)) with (table s1) in Ht2.
    rewrite Hc1, Ht1 in Ht2. unfold table at 1 3. cbn [storage swap]. rewrite Ht2. split; [|by right]. intros row.
    rewrite lookup_alter_eq. destruct (table s !! reqId request); [|done]. by intros [= <-].
  - apply ends_raise. split; [done|]. destruct Hf as [Hne Hnf]. case_decide as Hd; (split; [|done || intros _]); cbn.
    + intros _. exists request. split; [done|]. split; [rewrite Ht1; by apply Hnf|by left].
    + done.
Qed.

(** Success means that the rule was there, the name is free and the rule stored. *)
Definition updated (revision : string) (req : option Req) s s' (resp : RuleResponse Req) : Prop :=
  (rrCode resp = ExecuteSuccess -> exists request data row r', req = Some request /\ toModel revision request = Some data /\
     table s !! reqId request = Some row /\ rValid row = true /\ ~ named (table s) (rName data) (ruleNamespace data) (Some (reqId request)) /\
     table s' = <[reqId request := r']> (table s) /\ stored_as (time s) (set_rID data (reqId request)) r') /\
  (rrCode resp <> ExecuteSuccess -> table s' = table s).

Lemma updateRule_spec revision req s : few (table s) -> keyed (table s) ->
  ends (updateRule recording revision req) s (fun s' r => time s' = time s /\ updated revision req s s' (told r)).
Proof.
  intros Hfew Hk. unfold updateRule. destruct law_codes as (Hcp & Hce & _ & _).
  destruct (checkRuleParams req true true) as [code|] eqn:Hc.
  { apply checkRuleParams_code in Hc. apply ends_raise. split; [done|]. by split. }
  apply checkRuleParams_some in Hc as (request & -> & Hid & _). specialize (Hid eq_refl). apply ends_bind. eapply ends_deref; [done|].
  apply ends_bind. eapply ends_weaken; [by apply checkRuleExists_spec|]. intros s1 [[]|resp] (Ht1 & Hc1 & Hf).
  2: { split; [done|]. destruct Hf. by split. }
  destruct Hf as (row & Hrow & Hv). destruct (toModel revision request) as [data|] eqn:Hm; [|apply ends_raise; split; [done|]; by split].
  apply ends_bind, ends_rule_stored. change (tblRule (storage s1)) with (table s1). eapply ends_weaken.
  { apply law_hasByNameExcludeId. change (tblRule (storage s1)) with (table s1). by rewrite Ht1. }
  change (tblRule (storage s1)) with (table s1). rewrite Ht1.
  intros w2 [ex|e] [[Ht2 Hc2] Hex].
  2: { split; [unfold time in *; cbn; congruence|]. split; [by intros ?%StoreCode2APICode_fails|]. intros _. unfold table in *. cbn. congruence. }
  change (tblRule (storage s1)) with (table s1) in Ht2. change (rclock (storage s1)) with (time s1) in Hc2. rewrite Ht1 in Ht2. rewrite Hc1 in Hc2.
  specialize (Hex ex eq_refl). rewrite law_namespace in Hex. destruct ex; [apply ends_raise; split; [done|]; by split|].
  apply ends_bind, ends_rule_stored. cbn [storage swap]. eapply ends_weaken.
  { apply (law_update _ row); [by rewrite Ht2|by rewrite (Hk _ _ Hrow)|done|done]. }
  cbn [rID set_rID]. rewrite Ht2, Hc2. intros w3 [[]|e] [Hc3 Ht3].
  2: { split; [done|]. split; [by intros ?%StoreCode2APICode_fails|done]. }
  destruct Ht3 as (r' & Ht3 & Hs). apply ends_bind, ends_record. intros h. apply ends_ret. split; [done|]. split; [|done].
  intros _. exists request, data, row, r'. split_and!; try done. intros Hn. by apply Hex in Hn.
Qed.

End handlers.

(** ** The names of the rules *)

Section unique.
  Context `{!RuleKind Req A}.
  Implicit Types (t : gmap string (Rule A)).

(** Rows are stored under their ids, and no two valid ones of a namespace have one
    name. *)
Definition unique t : Prop :=
  keyed t /\ forall i j a b, t !! i = Some a -> t !! j = Some b -> rValid a = true -> rValid b = true ->
    rName a = rName b -> ruleNamespace a = ruleNamespace b -> i = j.

Lemma unique_insert t id r :
  unique t -> rID r = id -> ~ named t (rName r) (ruleNamespace r) (Some id) -> unique (<[id := r]> t).
Proof.
  intros [Hk Hu] Hid Hn.
  assert (forall i a, t !! i = Some a -> i <> id -> rValid a = true -> rName a = rName r -> ruleNamespace a = ruleNamespace r -> False) as Hfree.
  { intros i a Hi Hne Hv H1 H2. apply Hn. exists i, a. rewrite (Hk _ _ Hi). split_and!; congruence. }
  split; [by apply map_Forall_insert_2|]. intros i j a b Ha Hb Hva Hvb H1 H2.
  apply lookup_insert_Some in Ha as [[<- <-]|[Hi Ha]], Hb as [[<- <-]|[Hj Hb]]; [done| | |by eapply Hu].
  - exfalso. by eapply Hfree.
  - exfalso. by eapply Hfree.
Qed.

Lemma unique_delete t id : unique t -> unique (delete id t).
Proof.
  intros [Hk Hu]. split; [by apply map_Forall_delete|]. intros i j a b [_ Ha]%lookup_delete_Some [_ Hb]%lookup_delete_Some. by apply (Hu i j).
Qed.

(** A change of rows that makes none valid and renames none. *)
Lemma unique_alter t id f :
  unique t ->
  (forall r, rID (f r) = rID r /\ (rValid (f r) = true -> rValid r = true /\ rName (f r) = rName r /\ ruleNamespace (f r) = ruleNamespace r)) ->
  unique (alter f id t).
Proof.
  intros [Hk Hu] Hf.
  assert (forall i a, alter f id t !! i = Some a -> exists a0, t !! i = Some a0 /\ rID a = rID a0 /\
    (rValid a = true -> rValid a0 = true /\ rName a = rName a0 /\ ruleNamespace a = ruleNamespace a0)) as Hx.
  { intros i a. rewrite lookup_alter_Some. intros [[-> (a0 & Ha0 & ->)]|[_ Ha]]; [exists a0|exists a]; split_and!; try done; apply Hf. }
  split.
  - intros i a Ha. destruct (Hx i a Ha) as (a0 & Ha0 & -> & _). by apply Hk.
  - intros i j a b Ha Hb Hva Hvb H1 H2. destruct (Hx i a Ha) as (a0 & Ha0 & _ & Hfa), (Hx j b Hb) as (b0 & Hb0 & _ & Hfb).
    destruct (Hfa Hva) as (? & ? & ?), (Hfb Hvb) as (? & ? & ?). eapply (Hu i j a0 b0); congruence.
Qed.

Lemma named_excluded t name ns id : ~ named t name ns None -> ~ named t name ns (Some id).
Proof. intros Hn (i & r & Hi & Hv & H1 & H2 & _). apply Hn. by exists i, r. Qed.

(** The requests that change rules; what a handler draws is part of them. *)
Inductive RuleRequest :=
| ReqCreate (revision uuid : string) (req : option Req)
| ReqUpdate (revision : string) (req : option Req)
| ReqDelete (req : option Req).

Definition serveRule (recording : bool) (r : RuleRequest) : call (@Server (rule_db A)) (RuleResponse Req) (RuleResponse Req) :=
  match r with
  | ReqCreate revision uuid req => createRule recording revision uuid req
  | ReqUpdate revision req => updateRule recording revision req
  | ReqDelete req => deleteRule recording req
  end.

Definition admissible (r : RuleRequest) : Prop := match r with ReqCreate _ uuid _ => uuid <> "" | _ => True end.

Lemma serveRule_keeps `{!RuleKindLaws Req A} recording r s :
  admissible r -> few (table s) -> unique (table s) -> ends (serveRule recording r) s (fun s' _ => unique (table s')).
Proof.
  intros Hr Hfew Hu. destruct r as [revision uuid req|revision req|req]; cbn in *.
  - eapply ends_weaken; [by apply createRule_spec|]. intros s' res [_ [Hok Hno]]. destruct (decide (rrCode (told res) = ExecuteSuccess)) as [Hd|Hd].
    + destruct (Hok Hd) as (request & data & r' & _ & _ & Hn & -> & [Hid Hname Hns _ _ _ _] & _).
      apply unique_insert; [done|by rewrite Hid|]. rewrite Hname, Hns, law_namespace. by apply named_excluded.
    + destruct (Hno Hd) as [->| ->]; [done|by apply unique_delete].
  - eapply ends_weaken; [by apply updateRule_spec, Hu|]. intros s' res [_ [Hok Hno]]. destruct (decide (rrCode (told res) = ExecuteSuccess)) as [Hd|Hd].
    + destruct (Hok Hd) as (request & data & row & r' & _ & _ & _ & _ & Hn & -> & [Hid Hname Hns _ _ _ _]).
      apply unique_insert; [done|by rewrite Hid|]. by rewrite Hname, Hns, law_namespace.
    + by rewrite (Hno Hd).
  - eapply ends_weaken; [apply deleteRule_spec|]. intros s' res [_ [Hok Hno]]. destruct (decide (rrCode (told res) = ExecuteSuccess)) as [Hd|Hd].
    + destruct (Hok Hd) as (request & _ & _ & [->| ->]); [done|]. apply unique_alter; [done|]. intros r. by split.
    + by rewrite (Hno Hd).
Qed.

End unique.

(** ** Circuit breakers *)

Section circuit_breakers.
  Context (range : forall A, gmap string A -> list (string * A)).
  Context (range_all : forall A m, range A m ≡ₚ map_to_list m).
  Context (Time2String : Z -> string) (Year : Z -> Z).
  Context {P : Type} (noPolicy : P) (Marshal : option RuleMatcher * P -> option string) (Unmarshal : string -> option (option RuleMatcher * P)).
  Context (recording : bool).

#[local] Instance cb_kind : RuleKind (CbProto P) CircuitBreakerBody := CircuitBreakerKind noPolicy Marshal Unmarshal Time2String Year range.
#[local] Instance cb_laws : RuleKindLaws (CbProto P) CircuitBreakerBody := circuit_breaker_laws range range_all Time2String Year noPolicy Marshal Unmarshal.

#[local] Abbreviation Server := (@Api.Server (rule_db CircuitBreakerBody)).

Inductive CbRequest :=
| ChangeCircuitBreaker (r : @RuleRequest (CbProto P))
| EnableCircuitBreaker (revision : string) (req : option (CbProto P)).

Definition serveCircuitBreaker (r : CbRequest) : call Server (RuleResponse (CbProto P)) (RuleResponse (CbProto P)) :=
  match r with
  | ChangeCircuitBreaker r => serveRule recording r
  | EnableCircuitBreaker revision req => enableCircuitBreakerRule noPolicy Marshal Unmarshal Time2String Year range recording revision req
  end.
Definition cb_admissible (r : CbRequest) : Prop := match r with ChangeCircuitBreaker r => admissible r | _ => True end.

(** Success means that the rule is there and is switched, and nothing else. *)
Lemma enableRule_spec revision req (s : Server) :
  ends (enableCircuitBreakerRule noPolicy Marshal Unmarshal Time2String Year range recording revision req) s (fun s' r =>
    (rrCode (told r) = ExecuteSuccess -> exists request row, req = Some request /\ table s !! cpId request = Some row /\ rValid row = true /\
       table s' = alter (enableRow (cpEnable request) revision (time s)) (cpId request) (table s)) /\
    (rrCode (told r) <> ExecuteSuccess -> table s' = table s)).
Proof.
  unfold enableCircuitBreakerRule. destruct (checkRuleParams req true false) as [code|] eqn:Hc.
  { apply checkRuleParams_code in Hc. apply ends_raise. by split. }
  apply checkRuleParams_some in Hc as (request & -> & Hid & _). specialize (Hid eq_refl). apply ends_bind. eapply ends_deref; [done|].
  apply ends_bind. eapply ends_weaken; [by apply checkRuleExists_spec|]. intros s1 [[]|resp] (Ht1 & Hc1 & Hf).
  2: { destruct Hf. by split. }
  destruct Hf as (row & Hrow & Hv). apply ends_bind, ends_rule_stored.
  eapply ends_weaken; [apply (ends_UpdateValue (cpId request) (enableRow (cpEnable request) revision))|].
  change (tblRule (storage s1)) with (table s1). change (rclock (storage s1)) with (time s1). rewrite Ht1, Hc1. intros w2 [[]|e] [Hc2 Ht2].
  2: { split; [by intros ?%StoreCode2APICode_fails|done]. }
  apply ends_bind, ends_record. intros h. apply ends_ret. split; [|done]. intros _. by exists request, row.
Qed.

Definition served (s s' : Server) : Prop :=
  exists r res, cb_admissible r /\ few (table s) /\ serveCircuitBreaker r s = Ret (s', res).

Lemma serve_keeps r s : cb_admissible r -> few (table s) -> unique (table s) -> ends (serveCircuitBreaker r) s (fun s' _ => unique (table s')).
Proof.
  intros Hr Hfew Hu. destruct r as [r|revision req]; [by apply serveRule_keeps|]. eapply ends_weaken; [apply enableRule_spec|].
  intros s' res [Hok Hno]. destruct (decide (rrCode (told res) = ExecuteSuccess)) as [Hd|Hd]; [|by rewrite (Hno Hd)].
  destruct (Hok Hd) as (request & row & _ & _ & _ & ->). apply unique_alter; [done|]. intros x. by split.
Qed.

(** C8. Names identify rules: whatever circuit-breaker rules are created, changed,
    enabled and deleted, and whichever transactions of the store fail, no two
    valid rules of a namespace have the same name; and every request is answered,
    none panics. *)
Theorem rule_names_stay_unique (s s' : Server) :
  rtc served s s' -> unique (table s) ->
  unique (table s') /\ forall r, cb_admissible r -> few (table s') -> exists s'' res, serveCircuitBreaker r s' = Ret (s'', res).
Proof.
  intros Hs Hu. assert (unique (table s')) as Hu'.
  { induction Hs as [s|s s1 s' (r & res & Hr & Hfew & Hrun) _ IH]; [done|]. apply IH.
    destruct (serve_keeps r s Hr Hfew Hu) as (s1' & res' & Hrun' & Hu1). rewrite Hrun in Hrun'. by injection Hrun' as -> ->. }
  split; [done|]. intros r Hr Hfew. destruct (serve_keeps r s' Hr Hfew Hu') as (s'' & res & Hrun & _). eauto.
Qed.

End circuit_breakers.
