(* ===== verification/RuleDiscovery.v ===== *)
(** * Rules for clients ([src/service/client_v1.go])

    Clients ask for the circuit breakers and the fault detectors of a service;
    they are answered from the rule caches ([RuleCache.v]), under the name of the
    service that an alias stands for ([Discovery.v]), or that nothing changed. *)

From S2P Require Import Prelude GoStrings Hash Utils Services BaseCache InstanceCache ServiceCache CacheManager Discovery RuleCache RuleStore RuleServer.
From Stdlib Require Import ZArith Lia.
From stdpp Require Import base tactics list gmap strings sorting.

Open Scope Z_scope.

(** [apifault.CircuitBreaker] and [apifault.FaultDetector], which has no service. *)
Record ClientRules (Req : Type) := mkClientRules {
  clRevision : string;
  clService : option (string * string);
  clRules : list Req }.
Arguments mkClientRules {Req}. Arguments clRevision {Req}. Arguments clService {Req}. Arguments clRules {Req}.

Record RuleDiscoverResponse (Req : Type) := mkRuleDiscover {
  rdCode : Code;
  rdService : option PbService;
  rdAliasFor : option PbService;
  rdRules : option (ClientRules Req) }.
Arguments mkRuleDiscover {Req}. Arguments rdCode {Req}. Arguments rdService {Req}. Arguments rdAliasFor {Req}. Arguments rdRules {Req}.

Section server.
  (** The order in which Go ranges over a map. *)
  Context (range : forall A, gmap string A -> list (string * A)).

(** The name and the namespace of the service that a request is about: of the one
    it names, of the one that is an alias of, or what it says. *)
Definition aliasForRules (m : CacheManager) (req : PbService) : CacheManager * (string * string) :=
  let '(sc, aliasFor) := getServiceCache (instances m) (services m) (GetValue (sName req)) (GetValue (sNamespace req)) in
  (set_services m sc,
   match aliasFor with
   | Some p => (svcName (deref sc p), svcNamespace (deref sc p))
   | None => (GetValue (sName req), GetValue (sNamespace req))
   end).

(** The rules in the order of the map; none when one of them cannot be read. *)
Definition rules2Client {A Req} (toApi : Rule A -> option Req) (rules : ServiceWithRules A) : option (list Req) :=
  mapM toApi (range _ (bRules rules)).*2.

Definition circuitBreaker2ClientAPI {Req} (toApi : CircuitBreakerRule -> option Req) (rules : ServiceWithRules CircuitBreakerBody)
    (service namespace : string) : option (ClientRules Req) :=
  mkClientRules (bRevision rules) (Some (service, namespace)) <$> rules2Client toApi rules.
Definition faultDetectRule2ClientAPI {Req} (toApi : FaultDetectRule -> option Req) (rules : ServiceWithRules FaultDetectBody) : option (ClientRules Req) :=
  mkClientRules (bRevision rules) None <$> rules2Client toApi rules.

(** The service of a response, as the request names it. *)
Definition requested (req : option PbService) (revision : option string) : PbService :=
  pbService (req ≫= sNamespace) (req ≫= sName) None revision.

Definition GetCircuitBreakerWithCache {Req} (toApi : CircuitBreakerRule -> option Req) (caches : option (CacheManager * ruleCache CircuitBreakerBody))
    (req : option PbService) : option CacheManager * RuleDiscoverResponse Req :=
  match commonCheckDiscoverRequest (fst <$> caches) req, caches, req with
  | None, Some (m, circuitBreakers), Some r =>
      let '(m, (name, namespace)) := aliasForRules m r in
      let out := GetConfig circuitBreakers name namespace in
      (Some m,
       if decide (bRevision out = "") then mkRuleDiscover ExecuteSuccess (Some (requested req None)) None None
       else if decide (GetValue (sRevision r) <> "" /\ GetValue (sRevision r) = bRevision out) then mkRuleDiscover DataNoChange req None None
       else match circuitBreaker2ClientAPI toApi out (GetValue (sName r)) (GetValue (sNamespace r)) with
            | None => mkRuleDiscover ExecuteException req None None
            | Some rules =>
                mkRuleDiscover ExecuteSuccess (Some (requested req (Some (bRevision out))))
                  (Some (pbService (Some namespace) (Some name) None None)) (Some rules)
            end)
  | code, _, _ => (fst <$> caches, mkRuleDiscover (default ExecuteSuccess code) req None None)
  end.

Definition GetFaultDetectWithCache {Req} (toApi : FaultDetectRule -> option Req) (caches : option (CacheManager * ruleCache FaultDetectBody))
    (req : option PbService) : option CacheManager * RuleDiscoverResponse Req :=
  match commonCheckDiscoverRequest (fst <$> caches) req, caches, req with
  | None, Some (m, faultDetectors), Some r =>
      let '(m, (name, namespace)) := aliasForRules m r in
      let out := GetConfig faultDetectors name namespace in
      (Some m,
       if decide (bRevision out = "") then mkRuleDiscover ExecuteSuccess (Some (requested req None)) None None
       else if decide (GetValue (sRevision r) = bRevision out) then mkRuleDiscover DataNoChange req None None
       else match faultDetectRule2ClientAPI toApi out with
            | None => mkRuleDiscover ExecuteException req None None
            | Some rules =>
                mkRuleDiscover ExecuteSuccess (Some (requested req (Some (bRevision out))))
                  (Some (pbService (Some namespace) (Some name) None None)) (Some rules)
            end)
  | code, _, _ => (fst <$> caches, mkRuleDiscover (default ExecuteSuccess code) req None None)
  end.

End server.

(** ** Lemmas *)

Lemma hex_nonempty l : l <> [] -> hex l <> "".
Proof. by destruct l. Qed.

Lemma sha1_sum_nonempty m : sha1_sum m <> [].
Proof. unfold sha1_sum. destruct (foldl _ _ _) as [[[[h0 h1] h2] h3] h4]. done. Qed.

(** A set of rules has a revision unless it is empty. *)
Lemma revision_empty {A} (b : ServiceWithRules A) : reloadRevision b = b -> bRevision b = "" <-> bRules b = ∅.
Proof.
  intros <-. unfold reloadRevision. cbn. case_decide as Hd; [by split|]. split; [|done]. intros H. exfalso.
  by eapply hex_nonempty, H; apply sha1_sum_nonempty.
Qed.

(** [k]: what a name stands for, an alias for its service, a name that is not
    there for itself. *)
Definition source_of (st : gmap string ServiceModel) (name namespace : string) (k : string * string) : Prop :=
  (exists src, stands_for st name namespace src /\ k = (svcName src, svcNamespace src)) \/
  ((forall src, ~ stands_for st name namespace src) /\ k = (name, namespace)).

Lemma aliasForRules_spec m req st :
  agrees (services m) st -> linked st -> GetValue (sName req) <> "" -> GetValue (sNamespace req) <> "" ->
  let '(m', k) := aliasForRules m req in
  reads (services m) (services m') /\ instances m' = instances m /\ source_of st (GetValue (sName req)) (GetValue (sNamespace req)) k.
Proof.
  intros Hag Hl Hn Hns. unfold aliasForRules.
  pose proof (getServiceCache_spec (instances m) (services m) st _ _ Hag Hl Hn Hns) as Hs.
  pose proof (getServiceCache_reads (instances m) (services m) (GetValue (sName req)) (GetValue (sNamespace req))) as Hr.
  destruct (getServiceCache _ _ _ _) as [sc [p|]]; cbn [fst snd] in *; (split; [done|]; split; [done|]).
  - destruct Hs as (src & Hsrc & Hp). left. exists src. split; [done|]. destruct (points_deref _ _ _ Hp) as (_ & -> & -> & _). done.
  - right. by split.
Qed.

(** The revision that belongs to a set of rules. *)
Definition revisionOfRules {A} (rules : gmap string (Rule A)) : string := bRevision (reloadRevision (mkRules ("", "") rules "")).

Lemma revisionOfRules_eq {A} (b : ServiceWithRules A) : reloadRevision b = b -> bRevision b = revisionOfRules (bRules b).
Proof. intros Hb. rewrite <- Hb at 1. done. Qed.

Lemma revisionOfRules_empty {A} (rules : gmap string (Rule A)) : revisionOfRules rules = "" <-> rules = ∅.
Proof. unfold revisionOfRules. by rewrite revision_empty. Qed.

(** What a client is sent of a set of rules. *)
Definition sent {A Req} (toApi : Rule A -> option Req) (rules : gmap string (Rule A)) (l : list Req) : Prop :=
  Some <$> l ≡ₚ toApi <$> (map_to_list rules).*2.

Lemma rules2Client_spec (range : forall A, gmap string A -> list (string * A)) {A Req} (toApi : Rule A -> option Req) (b : ServiceWithRules A) :
  (forall A m, range A m ≡ₚ map_to_list m) ->
  match rules2Client range toApi b with
  | Some l => sent toApi (bRules b) l
  | None => exists i r, bRules b !! i = Some r /\ toApi r = None
  end.
Proof.
  intros Hr. unfold rules2Client, sent. destruct (mapM toApi (range _ (bRules b)).*2) as [l|] eqn:Hm.
  - apply mapM_Some in Hm. rewrite <- Hr. assert (Some <$> l = toApi <$> (range _ (bRules b)).*2) as ->; [|done].
    induction Hm as [|x y l1 l2 Hxy _ IH]; [done|]. cbn. by rewrite Hxy, IH.
  - apply mapM_None_1, Exists_exists in Hm as (r & Hin & Hnone). apply list_elem_of_fmap in Hin as ([i r'] & -> & Hin).
    rewrite Hr in Hin. apply elem_of_map_to_list in Hin. by exists i, r'.
Qed.

(** ** What clients get *)

(** C7. Clients get the circuit breakers of their service: when the caches follow
    the stores, a request is answered with exactly the valid rules of the store
    that are meant for the service it names - for an alias, the service behind it
    -, under their revision; without any when there are none, with
    [DataNoChange] exactly when the client has that revision, and with an error
    exactly when one of them cannot be read. *)
Theorem clients_get_circuit_breakers (range : forall A, gmap string A -> list (string * A)) {Req} (toApi : CircuitBreakerRule -> option Req)
    (D D' : Z) (b : bool) (m : CacheManager) (c : ruleCache CircuitBreakerBody) (st : gmap string ServiceModel)
    (rst : gmap string CircuitBreakerRule) (req : PbService) :
  (forall A m, range A m ≡ₚ map_to_list m) ->
  ServiceCache.follows D b (services m) st -> linked st ->
  RuleCache.follows getServicesInvolveByCircuitBreakerRule true D' CircuitBreakerName c rst ->
  GetValue (sName req) <> "" -> GetValue (sNamespace req) <> "" ->
  exists name namespace m' resp,
    source_of st (GetValue (sName req)) (GetValue (sNamespace req)) (name, namespace) /\
    GetCircuitBreakerWithCache range toApi (Some (m, c)) (Some req) = (Some m', resp) /\
    ServiceCache.follows D b (services m') st /\ instances m' = instances m /\
    (name <> allMatched ->
     let rules := filter (fun kv => cb_targets namespace name kv.2) (visible rst) in
     let revision := revisionOfRules rules in
     if decide (rules = ∅) then rdCode resp = ExecuteSuccess /\ rdRules resp = None
     else if decide (GetValue (sRevision req) = revision) then rdCode resp = DataNoChange /\ rdRules resp = None
     else match rdRules resp with
          | Some answer => rdCode resp = ExecuteSuccess /\ clRevision answer = revision /\
              rdAliasFor resp = Some (pbService (Some namespace) (Some name) None None) /\ sent toApi rules (clRules answer)
          | None => rdCode resp = ExecuteException /\ exists i r, rules !! i = Some r /\ toApi r = None
          end).
Proof.
  intros Hr Hs Hl Hc Hn Hns. destruct (ServiceCache.follows_agrees _ _ _ _ Hs) as [_ Hag].
  pose proof (aliasForRules_spec m req st Hag Hl Hn Hns) as Ha. unfold GetCircuitBreakerWithCache. cbn [fmap option_fmap option_map fst].
  unfold commonCheckDiscoverRequest. rewrite !decide_False by done. destruct (aliasForRules m req) as [m' [name namespace]].
  destruct Ha as (Hreads & Hi & Hsrc). eexists name, namespace, m', _. split; [done|]. split; [done|].
  split; [by eapply reads_follows|]. split; [done|]. intros Hw. destruct (circuit_breakers_match D' c rst name namespace Hc Hw) as [Hb Hrev].
  cbv zeta. rewrite <- Hb. pose proof (revisionOfRules_eq _ Hrev) as Hre. set (out := GetConfig c name namespace) in *. clearbody out.
  pose proof (rules2Client_spec range toApi out Hr) as H2. rewrite <- Hre. pose proof (revision_empty _ Hrev) as Hem.
  destruct (decide (bRules out = ∅)) as [He|He]; [rewrite (decide_True (P := bRevision out = "")) by (by apply Hem); done|].
  assert (bRevision out <> "") as Hne by (by rewrite Hem). rewrite (decide_False (P := bRevision out = "")) by done.
  destruct (decide (GetValue (sRevision req) = bRevision out)) as [Hd|Hd].
  - rewrite decide_True; [done|]. by rewrite Hd.
  - rewrite (decide_False (P := _ /\ _)) by (by intros [_ ?]). unfold circuitBreaker2ClientAPI. destruct (rules2Client range toApi out) as [l|]; [done|]. by split.
Qed.

(** For fault detectors: every rule that is sent is meant for the service, and all
    that are about the service itself are sent. *)
Theorem clients_get_fault_detectors (range : forall A, gmap string A -> list (string * A)) {Req} (toApi : FaultDetectRule -> option Req)
    (D D' : Z) (b : bool) (m : CacheManager) (c : ruleCache FaultDetectBody) (st : gmap string ServiceModel)
    (rst : gmap string FaultDetectRule) (req : PbService) :
  (forall A m, range A m ≡ₚ map_to_list m) ->
  ServiceCache.follows D b (services m) st -> linked st ->
  RuleCache.follows getServicesInvolveByFaultDetectRule false D' FaultDetectRuleName c rst ->
  GetValue (sName req) <> "" -> GetValue (sNamespace req) <> "" ->
  exists name namespace m' resp,
    source_of st (GetValue (sName req)) (GetValue (sNamespace req)) (name, namespace) /\
    GetFaultDetectWithCache range toApi (Some (m, c)) (Some req) = (Some m', resp) /\
    ServiceCache.follows D b (services m') st /\ instances m' = instances m /\
    (name <> allMatched -> exists rules,
     map_Forall (fun i r => visible rst !! i = Some r /\ targets namespace name r) rules /\
     map_Forall (fun i r => DstNamespace r = namespace -> DstService r = name -> rules !! i = Some r) (visible rst) /\
     let revision := revisionOfRules rules in
     if decide (rules = ∅) then rdCode resp = ExecuteSuccess /\ rdRules resp = None
     else if decide (GetValue (sRevision req) = revision) then rdCode resp = DataNoChange /\ rdRules resp = None
     else match rdRules resp with
          | Some answer => rdCode resp = ExecuteSuccess /\ clRevision answer = revision /\ sent toApi rules (clRules answer)
          | None => rdCode resp = ExecuteException /\ exists i r, rules !! i = Some r /\ toApi r = None
          end).
Proof.
  intros Hr Hs Hl Hc Hn Hns. destruct (ServiceCache.follows_agrees _ _ _ _ Hs) as [_ Hag].
  pose proof (aliasForRules_spec m req st Hag Hl Hn Hns) as Ha. unfold GetFaultDetectWithCache. cbn [fmap option_fmap option_map fst].
  unfold commonCheckDiscoverRequest. rewrite !decide_False by done. destruct (aliasForRules m req) as [m' [name namespace]].
  destruct Ha as (Hreads & Hi & Hsrc). eexists name, namespace, m', _. split; [done|]. split; [done|].
  split; [by eapply reads_follows|]. split; [done|]. intros Hw. destruct (fault_detectors_match D' c rst name namespace Hc Hw) as (Hb1 & Hb2 & Hrev).
  set (out := GetConfig c name namespace) in *. clearbody out. exists (bRules out). split; [done|]. split; [done|].
  cbv zeta. rewrite <- (revisionOfRules_eq _ Hrev).
  pose proof (rules2Client_spec range toApi out Hr) as H2. pose proof (revision_empty _ Hrev) as Hem.
  destruct (decide (bRules out = ∅)) as [He|He]; [rewrite (decide_True (P := bRevision out = "")) by (by apply Hem); done|].
  assert (bRevision out <> "") as Hne by (by rewrite Hem). rewrite (decide_False (P := bRevision out = "")) by done.
  destruct (decide (GetValue (sRevision req) = bRevision out)) as [Hd|Hd]; [done|].
  unfold faultDetectRule2ClientAPI. destruct (rules2Client range toApi out) as [l|]; [done|]. by split.
Qed.
