(* ===== verification/RuleCases.v ===== *)
(** * Rules, on small stores

    The theorems of [RuleIntegrity.v] and [RuleDiscovery.v] at concrete requests,
    and what the rules of [src/service], [src/cache] and [src/store/boltdb] do not
    do. *)

From S2P Require Import Prelude Effects GoStrings Hash Utils Registry InstanceStore Services BaseCache InstanceCache ServiceCache CacheManager Discovery.
From S2P Require Import DiscoveryCases Api RuleCache RuleStore RuleServer RuleIntegrity RuleDiscovery.
From Stdlib Require Import ZArith Lia Ascii.
From stdpp Require Import base tactics list gmap strings sorting.

Open Scope Z_scope.

(** ** A server with circuit breakers

    The policy is a number; the text of a rule is that of the policy. *)

Definition in_order (A : Type) (m : gmap string A) : list (string * A) := map_to_list m.
Lemma in_order_all A m : in_order A m ≡ₚ map_to_list m.
Proof. done. Qed.

Definition encode (p : option RuleMatcher * bool) : option string := Some (if p.2 then "on" else "off").
Definition decode (s : string) : option (option RuleMatcher * bool) :=
  if decide (s = "on") then Some (None, true) else if decide (s = "off") then Some (None, false) else None.
Definition no_print (_ : Z) : string := "".
Definition epoch (_ : Z) : Z := 1970.

#[local] Instance demo_kind : RuleKind (CbProto bool) CircuitBreakerBody := CircuitBreakerKind false encode decode no_print epoch in_order.

Definition to_service (name : string) : option RuleMatcher := Some (mkMatcher None (Some (mkDestination name "default" None))).
Definition cb_req (id name : string) (matcher : option RuleMatcher) : CbProto bool :=
  mkCbProto id name "" "" 0 true matcher true "" "" "" "".

Abbreviation cb_server := (@Api.Server (rule_db CircuitBreakerBody)).
Definition rules0 : cb_server := mkServer (mkRuleDb ∅ (FromUnix 150) []) [] [].
Abbreviation serve_cb := (serveCircuitBreaker in_order no_print epoch false encode decode false).
Definition serving (r : @CbRequest bool) (s : cb_server) : cb_server * Code :=
  match serve_cb r s with Ret (s', r) => (s', rrCode (told r)) | Panics _ => (s, ExecuteException) end.

Definition create_db : @CbRequest bool := ChangeCircuitBreaker (ReqCreate "rev1" "rule1" (Some (cb_req "" "db" (to_service "db")))).
Definition create_again : @CbRequest bool := ChangeCircuitBreaker (ReqCreate "rev2" "rule2" (Some (cb_req "" "db" (to_service "db")))).
Definition rules1 : cb_server := (serving create_db rules0).1.
Definition rules2 : cb_server := (serving create_again rules1).1.

Lemma rules2_served : rtc (served in_order no_print epoch false encode decode false) rules0 rules2.
Proof.
  eapply rtc_l; [|eapply rtc_l; [|apply rtc_refl]].
  - exists create_db. eexists. split; [discriminate|]. split; [by vm_compute|]. vm_compute. reflexivity.
  - exists create_again. eexists. split; [discriminate|]. split; [by vm_compute|]. vm_compute. reflexivity.
Qed.

Lemma rule_names_stay_unique_witness :
  (serving create_db rules0).2 = ExecuteSuccess /\ (serving create_again rules1).2 = ServiceExistedCircuitBreakers /\ unique (table rules2).
Proof.
  split; [vm_compute; reflexivity|]. split; [vm_compute; reflexivity|].
  apply (rule_names_stay_unique in_order in_order_all no_print epoch false encode decode false rules0 rules2 rules2_served).
  split; [apply map_Forall_empty|]. intros i j a b Ha. discriminate Ha.
Defined.

(** ** Clients *)

Definition cb_rules : gmap string CircuitBreakerRule := tblRule (storage rules1).
Abbreviation cb_cache0 := (newRuleCache (A := CircuitBreakerBody)).
Definition cb_cache1 : ruleCache CircuitBreakerBody := cb_update cb_cache0 (Some 200) (Some (map_to_list cb_rules).*2).

Lemma cb_cache1_follows : RuleCache.follows getServicesInvolveByCircuitBreakerRule true demo_diff CircuitBreakerName cb_cache1 cb_rules.
Proof.
  unfold cb_cache1, cb_update. eapply (RuleCache.follows_update _ _ _ _ _ ∅); [apply RuleCache.follows_new| | |].
  - intros i r. unfold cb_rules. intros Hr. assert (cb_rules = {["rule1" := default (mkRule "" "" "" "" "" false 0 (mkCbBody "" "" 0 "" "" "" "" false 0 0)) (cb_rules !! "rule1")]}) as He
      by (vm_compute; reflexivity).
    unfold cb_rules in He. rewrite He in Hr. apply lookup_singleton_Some in Hr as [<- <-]. vm_compute. reflexivity.
  - intros k. destruct (cb_rules !! k) as [r|] eqn:Hr; [right; exists r|by left]. split; [done|].
    assert (map_Forall (fun _ r => LastFetchTime demo_diff (rbase cb_cache0) <= rModifyTime r) cb_rules) as Hs.
    { apply map_Forall_to_list. vm_compute. constructor; [discriminate|constructor]. }
    split; [by apply (Hs k)|by intros r0].
  - assert (GetRulesForCache cb_rules (LastFetchTime demo_diff (rbase cb_cache0)) (firtstUpdate (rbase cb_cache0)) = cb_rules) as ->; [|done].
    apply map_filter_id. intros i r _. by left.
Qed.

Lemma clients_get_circuit_breakers_witness :
  exists m' resp, GetCircuitBreakerWithCache in_order toApi (Some (demo_manager, cb_cache1)) (Some (set_namespace (demo_request "db-alias" None) "default")) = (Some m', resp) /\
    rdCode resp = ExecuteSuccess /\ exists rules, rdRules resp = Some rules /\ cpName <$> clRules rules = ["db"].
Proof.
  destruct demo_services_ok as (_ & Hl & _).
  destruct (clients_get_circuit_breakers in_order toApi demo_diff demo_diff false demo_manager cb_cache1 (business false demo_services) cb_rules
    (set_namespace (demo_request "db-alias" None) "default") in_order_all demo_services_follow Hl cb_cache1_follows)
    as (name & namespace & m' & resp & _ & Hans & _); [discriminate|discriminate|].
  exists m', resp. split; [exact Hans|].
  assert (resp = (GetCircuitBreakerWithCache in_order toApi (Some (demo_manager, cb_cache1)) (Some (set_namespace (demo_request "db-alias" None) "default"))).2) as ->
    by (rewrite Hans; reflexivity).
  split; [vm_compute; reflexivity|]. eexists. split; vm_compute; reflexivity.
Defined.

(** ** What the rules do not do *)

Definition cb_row (id dst revision : string) (secs : Z) : CircuitBreakerRule :=
  mkRule id id dst "default" revision true (FromUnix secs) (mkCbBody "default" "" 0 "" "" "" "on" true (FromUnix secs) noTime).
Definition fd_row (id namespace dst : string) (secs : Z) : FaultDetectRule :=
  mkRule id id dst namespace "rev" true (FromUnix secs) (mkFdBody "default" "" "" "on" (FromUnix secs)).

(** *** A rule that moves

    A circuit breaker that is given another destination - an update may do that -
    stays with the service it had: what is to clean it is empty. *)
Definition moving1 : ruleCache CircuitBreakerBody := cb_update newRuleCache (Some 100) (Some [cb_row "r" "cart" "rev1" 90]).
Definition moving2 : ruleCache CircuitBreakerBody := cb_update moving1 (Some 200) (Some [cb_row "r" "shop" "rev2" 190]).

Lemma moved_circuit_breaker_stays :
  rRevision <$> bRules (GetConfig moving2 "shop" "default") = {["r" := "rev2"]} /\
  rRevision <$> bRules (GetConfig moving2 "cart" "default") = {["r" := "rev1"]}.
Proof. split; vm_compute; reflexivity. Qed.

(** *** Fault detectors come in an order

    A fault detector for everything reaches the services that have rules of their
    own already; one that gets its first rule later does not have it, and loses it. *)
Definition wild_fd : FaultDetectRule := fd_row "wild" "*" "*" 90.
Definition own_fd : FaultDetectRule := fd_row "own" "default" "cart" 90.
Definition fd_ids (rows : list FaultDetectRule) (name : string) : gset string :=
  dom (bRules (GetConfig (fd_update newRuleCache (Some 100) (Some rows)) name "default")).

Lemma fault_detectors_depend_on_the_order :
  fd_ids [own_fd; wild_fd] "cart" = {["own"; "wild"]} /\ fd_ids [wild_fd; own_fd] "cart" = {["own"]} /\ fd_ids [wild_fd] "cart" = {["wild"]}.
Proof. split_and!; vm_compute; reflexivity. Qed.

(** *** Creation times

    Changing a fault detector writes its row with the creation time of the
    request, which has none. *)
#[local] Instance demo_fd_kind : RuleKind (FdProto bool) FaultDetectBody :=
  FaultDetectKind false (fun p => Some (if p.2 then "on" else "off")) (fun s => if decide (s = "on") then Some (None, true) else None) no_print in_order.
Definition fd_change : FdProto bool := mkFdProto "own" "own" "" "changed" None true "" "" "".
Definition fd_server : @Api.Server (rule_db FaultDetectBody) := mkServer (mkRuleDb {["own" := own_fd]} (FromUnix 150) []) [] [].

Lemma changed_fault_detector_loses_its_creation_time :
  match updateRule false "rev2" (Some fd_change) fd_server with
  | Ret (s, r) => rrCode (told r) = ExecuteSuccess /\
      (fun r => (fdDescription (rBody r), fdCreateTime (rBody r))) <$> tblRule (storage s) = {["own" := ("changed", noTime)]}
  | Panics _ => False
  end.
Proof. vm_compute. split; reflexivity. Qed.

(** *** Queries

    The keys of a query are compared with names in lower case: for fault detectors
    [dstService] is never one, and filters nothing.  For circuit breakers, whose
    keys are lowered, it does. *)
Definition ids_of {A} (o : outcome (rule_db A * result StatusCode (Z * list (Rule A)))) : list string :=
  match o with Ret (_, Okay (_, l)) => rID <$> l | _ => [] end.
Definition two_fds : rule_db FaultDetectBody := mkRuleDb {["a" := fd_row "a" "default" "cart" 90; "b" := fd_row "b" "default" "shop" 91]} 0 [].
Definition two_cbs : rule_db CircuitBreakerBody := mkRuleDb {["a" := cb_row "a" "cart" "rev" 90; "b" := cb_row "b" "shop" "rev" 91]} 0 [].

Lemma fault_detector_filter_is_ignored :
  ids_of (GetFaultDetectRules in_order {["dstService" := "cart"]} 0 10 two_fds) = ["b"; "a"] /\
  ids_of (GetCircuitBreakerRules in_order {["dstService" := "cart"]} 0 10 two_cbs) = ["a"] /\
  ids_of (GetCircuitBreakerRules in_order {["service" := "cart"]} 0 10 two_cbs) = ["b"; "a"].
Proof. split_and!; vm_compute; reflexivity. Qed.

(** A page behind the last one is every rule. *)
Lemma page_past_the_end_is_everything {A} (l : list (Rule A)) (offset limit : Z) :
  Z.of_nat (length l) <= offset < 2 ^ 32 -> sublistRules l offset limit = l.
Proof. intros Ho. unfold sublistRules. rewrite decide_True; [done|]. right. right. rewrite wrap_u_small; lia. Qed.

(** *** Lengths

    Of a circuit breaker the names of the source are measured, not those of the
    destination, which the rule is kept by. *)
Lemma long_destination_passes :
  checkRuleParams (Some (cb_req "" "db" (to_service (String.concat "" (replicate 1000 "x"))))) false true = None.
Proof. vm_compute. reflexivity. Qed.
