(* ===== verification/ConfigFiles.v ===== *)
(** * Configuration files ([src/common/model/config_file.go], [src/config/utils/utils.go], [src/config])

    Configuration files, their tags and their releases, as the API sends them
    (a nil wrapper is [None]) and as the store keeps them; the checks of
    [config/utils], the checksum and the name of a release, and the conversions
    between the two forms. *)

From S2P Require Import Prelude GoStrings Hash Utils.
From Stdlib Require Import ZArith Lia Ascii.
From stdpp Require Import base tactics list gmap strings pretty.

Open Scope Z_scope.

(** ** What the store keeps

    Fields that nobody sets are left out: the flag of a file, the times of a tag. *)

Record ConfigFile := mkFile {
  cfId : Z;
  cfName : string;
  cfNamespace : string;
  cfGroup : string;
  cfContent : string;
  cfComment : string;
  cfFormat : string;
  cfCreateTime : Z;
  cfCreateBy : string;
  cfModifyTime : Z;
  cfModifyBy : string;
  cfValid : bool }.

Record ConfigFileRelease := mkRelease {
  crId : Z;
  crName : string;
  crNamespace : string;
  crGroup : string;
  crFileName : string;
  crContent : string;
  crComment : string;
  crMd5 : string;
  crVersion : Z;
  crFlag : Z;
  crCreateTime : Z;
  crCreateBy : string;
  crModifyTime : Z;
  crModifyBy : string;
  crValid : bool }.

Record ConfigFileReleaseHistory := mkHistory {
  chId : Z;
  chName : string;
  chNamespace : string;
  chGroup : string;
  chFileName : string;
  chFormat : string;
  chTags : string;
  chContent : string;
  chComment : string;
  chMd5 : string;
  chType : string;
  chStatus : string;
  chCreateTime : Z;
  chCreateBy : string;
  chModifyTime : Z;
  chModifyBy : string;
  chValid : bool }.

Record ConfigFileTag := mkTag {
  ctId : Z;
  ctKey : string;
  ctValue : string;
  ctNamespace : string;
  ctGroup : string;
  ctFileName : string;
  ctCreateBy : string;
  ctModifyBy : string;
  ctValid : bool }.

Record ConfigFileGroup := mkGroup {
  cgId : Z;
  cgName : string;
  cgNamespace : string;
  cgComment : string;
  cgOwner : string;
  cgCreateTime : Z;
  cgCreateBy : string;
  cgModifyTime : Z;
  cgModifyBy : string;
  cgValid : bool }.

Definition set_cfFormat (f : ConfigFile) v := mkFile (cfId f) (cfName f) (cfNamespace f) (cfGroup f) (cfContent f) (cfComment f) v (cfCreateTime f)
  (cfCreateBy f) (cfModifyTime f) (cfModifyBy f) (cfValid f).
Definition set_cfModifyBy (f : ConfigFile) v := mkFile (cfId f) (cfName f) (cfNamespace f) (cfGroup f) (cfContent f) (cfComment f) (cfFormat f)
  (cfCreateTime f) (cfCreateBy f) (cfModifyTime f) v (cfValid f).
Definition set_crName (r : ConfigFileRelease) v := mkRelease (crId r) v (crNamespace r) (crGroup r) (crFileName r) (crContent r) (crComment r)
  (crMd5 r) (crVersion r) (crFlag r) (crCreateTime r) (crCreateBy r) (crModifyTime r) (crModifyBy r) (crValid r).
Definition set_cgModifyBy (g : ConfigFileGroup) v := mkGroup (cgId g) (cgName g) (cgNamespace g) (cgComment g) (cgOwner g) (cgCreateTime g)
  (cgCreateBy g) (cgModifyTime g) v (cgValid g).

(** ** What the API sends *)

Record PbTag := mkPbTag { ptKey : option string; ptValue : option string }.

Record PbConfigFile := mkPbFile {
  pfId : option Z;
  pfName : option string;
  pfNamespace : option string;
  pfGroup : option string;
  pfContent : option string;
  pfComment : option string;
  pfFormat : option string;
  pfStatus : option string;
  pfTags : list PbTag;
  pfCreateTime : option string;
  pfCreateBy : option string;
  pfModifyTime : option string;
  pfModifyBy : option string;
  pfReleaseTime : option string;
  pfReleaseBy : option string;
  pfIsEncrypted : option bool;
  pfEncryptAlgo : option string }.

Definition set_Format (f : PbConfigFile) v := mkPbFile (pfId f) (pfName f) (pfNamespace f) (pfGroup f) (pfContent f) (pfComment f) v
  (pfStatus f) (pfTags f) (pfCreateTime f) (pfCreateBy f) (pfModifyTime f) (pfModifyBy f) (pfReleaseTime f) (pfReleaseBy f) (pfIsEncrypted f) (pfEncryptAlgo f).
Definition set_Content (f : PbConfigFile) v := mkPbFile (pfId f) (pfName f) (pfNamespace f) (pfGroup f) v (pfComment f) (pfFormat f)
  (pfStatus f) (pfTags f) (pfCreateTime f) (pfCreateBy f) (pfModifyTime f) (pfModifyBy f) (pfReleaseTime f) (pfReleaseBy f) (pfIsEncrypted f) (pfEncryptAlgo f).
Definition set_Tags (f : PbConfigFile) v := mkPbFile (pfId f) (pfName f) (pfNamespace f) (pfGroup f) (pfContent f) (pfComment f) (pfFormat f)
  (pfStatus f) v (pfCreateTime f) (pfCreateBy f) (pfModifyTime f) (pfModifyBy f) (pfReleaseTime f) (pfReleaseBy f) (pfIsEncrypted f) (pfEncryptAlgo f).
Definition set_By (f : PbConfigFile) createBy modifyBy := mkPbFile (pfId f) (pfName f) (pfNamespace f) (pfGroup f) (pfContent f) (pfComment f)
  (pfFormat f) (pfStatus f) (pfTags f) (pfCreateTime f) createBy (pfModifyTime f) modifyBy (pfReleaseTime f) (pfReleaseBy f) (pfIsEncrypted f) (pfEncryptAlgo f).
Definition set_ReleaseInfo (f : PbConfigFile) status releaseBy releaseTime := mkPbFile (pfId f) (pfName f) (pfNamespace f) (pfGroup f)
  (pfContent f) (pfComment f) (pfFormat f) status (pfTags f) (pfCreateTime f) (pfCreateBy f) (pfModifyTime f) (pfModifyBy f)
  releaseTime releaseBy (pfIsEncrypted f) (pfEncryptAlgo f).

Record PbRelease := mkPbRelease {
  prId : option Z;
  prName : option string;
  prNamespace : option string;
  prGroup : option string;
  prFileName : option string;
  prContent : option string;
  prComment : option string;
  prMd5 : option string;
  prVersion : option Z;
  prCreateTime : option string;
  prCreateBy : option string;
  prModifyTime : option string;
  prModifyBy : option string }.

Definition set_ReleaseContent (r : PbRelease) v := mkPbRelease (prId r) (prName r) (prNamespace r) (prGroup r) (prFileName r) v (prComment r)
  (prMd5 r) (prVersion r) (prCreateTime r) (prCreateBy r) (prModifyTime r) (prModifyBy r).
Definition set_ReleaseBy (r : PbRelease) createBy modifyBy := mkPbRelease (prId r) (prName r) (prNamespace r) (prGroup r) (prFileName r)
  (prContent r) (prComment r) (prMd5 r) (prVersion r) (prCreateTime r) createBy (prModifyTime r) modifyBy.

Record PbGroup := mkPbGroup {
  pgId : option Z;
  pgName : option string;
  pgNamespace : option string;
  pgComment : option string;
  pgOwner : option string;
  pgCreateBy : option string;
  pgModifyBy : option string;
  pgCreateTime : option string;
  pgModifyTime : option string }.

Definition set_GroupBy (g : PbGroup) createBy modifyBy := mkPbGroup (pgId g) (pgName g) (pgNamespace g) (pgComment g) (pgOwner g) createBy modifyBy
  (pgCreateTime g) (pgModifyTime g).
Definition set_GroupId (g : PbGroup) id := mkPbGroup id (pgName g) (pgNamespace g) (pgComment g) (pgOwner g) (pgCreateBy g) (pgModifyBy g)
  (pgCreateTime g) (pgModifyTime g).

(** What a client says it has of a file, and what it is told. *)
Record ClientFile := mkClientFile {
  clNamespace : option string;
  clGroup : option string;
  clFileName : option string;
  clContent : option string;
  clVersion : option Z;
  clMd5 : option string;
  clPublicKey : option string;
  clIsEncrypted : option bool;
  clDataKey : option string }.

Record ConfigResponse := mkConfigResponse {
  coCode : Code;
  coFile : option PbConfigFile;
  coRelease : option PbRelease;
  coGroup : option PbGroup }.
Definition NewConfigFileResponse (code : Code) (file : option PbConfigFile) : ConfigResponse := mkConfigResponse code file None None.
Definition NewConfigFileReleaseResponse (code : Code) (release : option PbRelease) : ConfigResponse := mkConfigResponse code None release None.
Definition NewConfigFileGroupResponse (code : Code) (group : option PbGroup) : ConfigResponse := mkConfigResponse code None None group.

Record ConfigClientResponse := mkClientResponse {
  clCode : Code;
  clFile : option ClientFile }.

(** [utils2.GenConfigFileResponse]. *)
Definition GenConfigFileResponse (namespace group fileName content md5str : string) (version : Z) (isEncrypted : bool) (dataKey : string)
    : ConfigClientResponse :=
  mkClientResponse ExecuteSuccess (Some (mkClientFile (Some namespace) (Some group) (Some fileName) (Some content) (Some version)
    (Some md5str) None (Some isEncrypted) (Some dataKey))).

(** ** Checks *)

Definition fileContentMaxLength : Z := 20000.

(** [regSourceName] and [regFileName], one character. *)
Definition source_char (c : ascii) : bool := name_char c && bool_decide (c <> "/"%char).
Fixpoint all_source_chars (s : string) : bool :=
  match s with EmptyString => true | String c s => source_char c && all_source_chars s end.

Definition check_name (chars : string -> bool) (name : option string) : option check_error :=
  match name with
  | None => Some NilErrString
  | Some name => if decide (name = "") then Some EmptyErrString else if chars name then None else Some InvalidCharacter
  end.
Definition CheckSourceName : option string -> option check_error := check_name all_source_chars.
Definition CheckFileName : option string -> option check_error := check_name all_name_chars.

Definition CheckContentLength (content : string) : bool := bool_decide (slen content <= fileContentMaxLength).

(** The triple that most handlers check, in their order. *)
Definition check_triple (namespace group fileName : string) : option Code :=
  if CheckFileName (Some fileName) then Some InvalidConfigFileName
  else if CheckSourceName (Some namespace) then Some InvalidNamespaceName
  else if CheckSourceName (Some group) then Some InvalidConfigFileGroupName
  else None.

Definition bad_tag (t : PbTag) : bool := bool_decide (GetValue (ptKey t) = "" \/ GetValue (ptValue t) = "").

Definition checkConfigFileParams (configFile : PbConfigFile) : option Code :=
  if CheckFileName (pfName configFile) then Some InvalidConfigFileName
  else if CheckSourceName (pfNamespace configFile) then Some InvalidNamespaceName
  else if negb (CheckContentLength (GetValue (pfContent configFile))) then Some InvalidConfigFileContentLength
  else if existsb bad_tag (pfTags configFile) then Some InvalidConfigFileTags
  else None.

Definition checkConfigFileGroupParams (group : PbGroup) : option Code :=
  if CheckSourceName (pgName group) then Some InvalidConfigFileGroupName
  else if CheckSourceName (pgNamespace group) then Some InvalidNamespaceName
  else None.

(** ** The checksum ([crypto/md5], RFC 1321) *)

Definition le_word (bs : list Z) : Z := be32 (rev bs).
Definition le_bytes (n : nat) (x : Z) : list Z := rev (be_bytes n x).

Definition md5_k : list Z :=
  [3614090360; 3905402710; 606105819; 3250441966; 4118548399; 1200080426; 2821735955; 4249261313; 1770035416; 2336552879; 4294925233;
   2304563134; 1804603682; 4254626195; 2792965006; 1236535329; 4129170786; 3225465664; 643717713; 3921069994; 3593408605; 38016083;
   3634488961; 3889429448; 568446438; 3275163606; 4107603335; 1163531501; 2850285829; 4243563512; 1735328473; 2368359562; 4294588738;
   2272392833; 1839030562; 4259657740; 2763975236; 1272893353; 4139469664; 3200236656; 681279174; 3936430074; 3572445317; 76029189;
   3654602809; 3873151461; 530742520; 3299628645; 4096336452; 1126891415; 2878612391; 4237533241; 1700485571; 2399980690; 4293915773;
   2240044497; 1873313359; 4264355552; 2734768916; 1309151649; 4149444226; 3174756917; 718787259; 3951481745].
Definition md5_s (i : nat) : Z :=
  nth (i mod 4) (nth (i / 16) [[7; 12; 17; 22]; [5; 9; 14; 20]; [4; 11; 16; 23]; [6; 10; 15; 21]] []) 0.
Definition md5_not (x : Z) : Z := Z.lxor x (2 ^ 32 - 1).
Definition md5_f (i : nat) (b c d : Z) : Z :=
  match (i / 16)%nat with
  | 0%nat => Z.lor (Z.land b c) (Z.land (md5_not b) d)
  | 1%nat => Z.lor (Z.land d b) (Z.land (md5_not d) c)
  | 2%nat => Z.lxor b (Z.lxor c d)
  | _ => Z.lxor c (Z.lor b (md5_not d))
  end.
Definition md5_g (i : nat) : nat :=
  match (i / 16)%nat with 0%nat => i | 1%nat => (5 * i + 1) mod 16 | 2%nat => (3 * i + 5) mod 16 | _ => (7 * i) mod 16 end%nat.

Definition md5_round (w : list Z) (st : Z * Z * Z * Z) (i : nat) : Z * Z * Z * Z :=
  let '(a, b, c, d) := st in
  (d, u32 (b + rotl (md5_s i) (u32 (a + md5_f i b c d + nth i md5_k 0 + nth (md5_g i) w 0))), b, c).

Definition md5_block (h : Z * Z * Z * Z) (block : list Z) : Z * Z * Z * Z :=
  let '(h0, h1, h2, h3) := h in
  let '(a, b, c, d) := foldl (md5_round (le_word <$> groups 4 16 block)) h (seq 0 64) in
  (u32 (h0 + a), u32 (h1 + b), u32 (h2 + c), u32 (h3 + d)).

Definition md5_pad (m : list Z) : list Z :=
  let n := length m in
  m ++ [128] ++ replicate (Z.to_nat ((55 - Z.of_nat n) mod 64)) 0 ++ le_bytes 8 (8 * Z.of_nat n).

Definition md5_sum (m : list Z) : list Z :=
  let p := md5_pad m in
  let '(a, b, c, d) := foldl md5_block (1732584193, 4023233417, 2562383102, 271733878) (groups 64 (length p) p) in
  concat (le_bytes 4 <$> [a; b; c; d]).

Definition CalMd5 (content : string) : string := hex (md5_sum (bytes_of content)).

(** The values of [TestCalMd5]. *)
Example md5_empty : CalMd5 "" = "d41d8cd98f00b204e9800998ecf8427e".
Proof. by vm_compute. Qed.
Example md5_foo : CalMd5 "foo" = "acbd18db4cc2f85cedef654fccc4a4d8".
Proof. by vm_compute. Qed.
Example md5_long :
  CalMd5 "38c5ee9532f037a20b93d0f804cf111fca4003e451d09a692d9dea8032308d9c64eda9047fcd5e850284a49b1a0cfb2ecd45" =
  "02f463eb799797e2a978fb1a2ae2991e".
Proof. by vm_compute. Qed.

(** ** The name of a release: the file's and a number of three digits *)

(** [strings.ReplaceAll(fmt.Sprintf("%3d", num), " ", "0")]. *)
Definition three_digits (num : Z) : string :=
  let s := pretty num in
  String.concat "" (replicate (3 - String.length s) "0") +:+ s.

Definition GenReleaseName (oldReleaseName fileName : string) : string :=
  if decide (oldReleaseName = "") then fileName +:+ "-001"
  else
    match Split "-" oldReleaseName with
    | [name; number] =>
        if decide (fileName <> name) then oldReleaseName
        else match ParseInt number with
             | None => oldReleaseName
             | Some num => fileName +:+ "-" +:+ three_digits (i64 (num + 1))
             end
    | _ => oldReleaseName
    end.

(** ** Tags in JSON ([encoding/json])

    What [json.Marshal] makes of the keys and values; the characters of HTML are
    escaped, and an invalid byte becomes the replacement character. *)
Definition hex_escape (c : ascii) : string :=
  let n := Z.of_N (N_of_ascii c) in "\u00" +:+ String (hex_digit (Z.shiftr n 4)) (String (hex_digit (Z.land n 15)) "").
Definition json_ascii (c : ascii) : string :=
  if decide (c = "\"%char \/ c = "034"%char) then String "\" (String c "")
  else if decide (c = "010"%char) then "\n"
  else if decide (c = "013"%char) then "\r"
  else if decide (c = "009"%char) then "\t"
  else if decide (c = "<"%char \/ c = ">"%char \/ c = "&"%char) then hex_escape c
  else if GoStrings.between 32 127 c then String c ""
  else hex_escape c.
Fixpoint json_escape (skip : nat) (s : string) : string :=
  match s with
  | EmptyString => ""
  | String c s' =>
      match skip with
      | S k => json_escape k s'
      | O =>
          if GoStrings.between 0 127 c then json_ascii c +:+ json_escape 0 s'
          else
            let width := rune_width s in
            let rune := stake width s in
            (if decide (width = 1%nat) then "\ufffd"
             else if decide (rune = String "226" (String "128" (String "168" ""))) then "\u2028"
             else if decide (rune = String "226" (String "128" (String "169" ""))) then "\u2029"
             else rune) +:+ json_escape (width - 1) s'
      end
  end.
Definition json_string (s : string) : string := String "034" (json_escape 0 s +:+ String "034" "").
Definition json_kv (t : PbTag) : string :=
  "{" +:+ json_string "Key" +:+ ":" +:+ json_string (GetValue (ptKey t)) +:+ "," +:+
  json_string "Value" +:+ ":" +:+ json_string (GetValue (ptValue t)) +:+ "}".
Definition ToTagJsonStr (tags : list PbTag) : string := "[" +:+ String.concat "," (json_kv <$> tags) +:+ "]".

(** ** Conversions *)

Section conversions.
  (** [common/time]: the local time of a number of seconds, in Go's layout. *)
  Context (Time2String : Z -> string).

Definition transferConfigFileAPIModel2StoreModel (file : PbConfigFile) : ConfigFile :=
  mkFile 0 (GetValue (pfName file)) (GetValue (pfNamespace file)) (GetValue (pfGroup file)) (GetValue (pfContent file))
    (GetValue (pfComment file)) (GetValue (pfFormat file)) 0 (GetValue (pfCreateBy file)) 0 "" false.

Definition transferConfigFileStoreModel2APIModel (file : ConfigFile) : PbConfigFile :=
  mkPbFile (Some (cfId file)) (Some (cfName file)) (Some (cfNamespace file)) (Some (cfGroup file)) (Some (cfContent file))
    (Some (cfComment file)) (Some (cfFormat file)) None [] (Some (Time2String (cfCreateTime file))) (Some (cfCreateBy file))
    (Some (Time2String (cfModifyTime file))) (Some (cfModifyBy file)) None None None None.

(** [ModifyBy] goes to [CreateBy], and the name is lost. *)
Definition transferConfigFileReleaseAPIModel2StoreModel (release : PbRelease) : ConfigFileRelease :=
  let createBy := match prModifyBy release with Some modifyBy => modifyBy | None => GetValue (prCreateBy release) end in
  mkRelease (GetUint (prId release)) "" (GetValue (prNamespace release)) (GetValue (prGroup release)) (GetValue (prFileName release))
    (GetValue (prContent release)) (GetValue (prComment release)) (GetValue (prMd5 release)) (GetUint (prVersion release))
    0 0 createBy 0 "" false.

Definition configFileRelease2Api (release : ConfigFileRelease) : PbRelease :=
  mkPbRelease (Some (crId release)) (Some (crName release)) (Some (crNamespace release)) (Some (crGroup release))
    (Some (crFileName release)) (Some (crContent release)) (Some (crComment release)) (Some (crMd5 release)) (Some (crVersion release))
    (Some (Time2String (crCreateTime release))) (Some (crCreateBy release)) (Some (Time2String (crModifyTime release)))
    (Some (crModifyBy release)).

Definition apiConfigFileGroup2Model (group : PbGroup) : ConfigFileGroup :=
  let createBy := GetValue (pgCreateBy group) in
  let owner := if decide (GetValue (pgOwner group) <> "") then GetValue (pgOwner group) else createBy in
  mkGroup 0 (GetValue (pgName group)) (GetValue (pgNamespace group)) (GetValue (pgComment group)) owner 0 createBy 0 "" true.

Definition configFileGroup2Api (group : ConfigFileGroup) : PbGroup :=
  mkPbGroup (Some (cgId group)) (Some (cgName group)) (Some (cgNamespace group)) (Some (cgComment group)) (Some (cgOwner group))
    (Some (cgCreateBy group)) (Some (cgModifyBy group)) (Some (Time2String (cgCreateTime group))) (Some (Time2String (cgModifyTime group))).
End conversions.

Example release_name : GenReleaseName "app-009" "app" = "app-010".
Proof. by vm_compute. Qed.
Example tag_json : ToTagJsonStr [mkPbTag (Some "env") (Some "a<b"); mkPbTag (Some "k") None] =
  "[{" +:+ String "034" "Key" +:+ String "034" ":" +:+ String "034" "env" +:+ String "034" "," +:+ String "034" "Value" +:+ String "034" ":" +:+
  String "034" "a\u003cb" +:+ String "034" "},{" +:+ String "034" "Key" +:+ String "034" ":" +:+ String "034" "k" +:+ String "034" "," +:+
  String "034" "Value" +:+ String "034" ":" +:+ String "034" (String "034" "}]").
Proof. by vm_compute. Qed.
