(* ===== verification/ConfigStore.v ===== *)
(** * Configuration in the boltdb store ([src/store/boltdb/bolt_common.go], [tx.go], [config_file.go], [config_file_release.go], [config_file_release_history.go], [config_file_tag.go], [config_file_group.go])

    The tables of the configuration centre, next to those of [BoltStore.v].  A
    call runs in the transaction of its context, if there is one, or else in one
    of its own, which may fail when it starts and when it commits.  A transaction
    works on a copy of the tables, that the reads outside it do not see; the ids
    are counted in memory, and not taken back.  (What [bolt] writes in an open
    transaction does not fail: it writes to memory.) *)

From S2P Require Import Prelude Effects GoStrings Utils InstanceStore BoltStore ConfigFiles.
From Stdlib Require Import ZArith Lia.
From stdpp Require Import base tactics list gmap strings pretty sorting.

Open Scope Z_scope.

(** [tblID]: the ids as they are saved, by table. *)
Record tables := mkTables {
  tblConfigFile : gmap string ConfigFile;
  tblConfigFileRelease : gmap string ConfigFileRelease;
  tblConfigFileTag : gmap string ConfigFileTag;
  tblConfigFileReleaseHistory : gmap string ConfigFileReleaseHistory;
  tblConfigFileGroup : gmap string ConfigFileGroup;
  tblID : gmap string Z }.

Definition set_files (t : tables) m := mkTables m (tblConfigFileRelease t) (tblConfigFileTag t) (tblConfigFileReleaseHistory t)
  (tblConfigFileGroup t) (tblID t).
Definition set_releases (t : tables) m := mkTables (tblConfigFile t) m (tblConfigFileTag t) (tblConfigFileReleaseHistory t)
  (tblConfigFileGroup t) (tblID t).
Definition set_tags (t : tables) m := mkTables (tblConfigFile t) (tblConfigFileRelease t) m (tblConfigFileReleaseHistory t)
  (tblConfigFileGroup t) (tblID t).
Definition set_histories (t : tables) m := mkTables (tblConfigFile t) (tblConfigFileRelease t) (tblConfigFileTag t) m
  (tblConfigFileGroup t) (tblID t).
Definition set_groups (t : tables) m := mkTables (tblConfigFile t) (tblConfigFileRelease t) (tblConfigFileTag t)
  (tblConfigFileReleaseHistory t) m (tblID t).
Definition save_id (t : tables) (table : string) (id : Z) := mkTables (tblConfigFile t) (tblConfigFileRelease t) (tblConfigFileTag t)
  (tblConfigFileReleaseHistory t) (tblConfigFileGroup t) (<[table := id]> (tblID t)).

(** The [id] of each of the stores. *)
Record counters := mkCounters { fileId : Z; releaseId : Z; tagId : Z; historyId : Z; groupId : Z }.

(** [base]: the other tables.  [pending]: the tables as the open transaction sees
    them.  [now]: the clock, in nanoseconds. *)
Record config_store := mkStore {
  base : bolt;
  committed : tables;
  pending : option tables;
  counts : counters;
  now : Z }.

Definition set_base (w : config_store) b := mkStore b (committed w) (pending w) (counts w) (now w).
Definition set_committed (w : config_store) t := mkStore (base w) t (pending w) (counts w) (now w).
Definition set_pending (w : config_store) t := mkStore (base w) (committed w) t (counts w) (now w).
Definition set_counts (w : config_store) c := mkStore (base w) (committed w) (pending w) c (now w).

Abbreviation cdb := (call config_store StatusCode).

(** ** Transactions ([bolt_common.go], [tx.go]) *)

Definition on_base {E A} (m : call bolt E A) : call config_store E A := fun w =>
  match m (base w) with
  | Ret (b, r) => Ret (set_base w b, r)
  | Panics why => Panics why
  end.

(** One thing that can go wrong. *)
Definition may_fail : cdb unit := on_base (transaction (mret ())).

(** [handler.StartTx]: there is one writer at a time. *)
Definition StartTx : cdb unit :=
  w ← get;
  match pending w with
  | Some _ => panics Deadlock
  | None => _ ← may_fail; modify (fun w => set_pending w (Some (committed w)))
  end.

(** A commit that fails rolls back. *)
Definition Commit : cdb unit := fun w =>
  match may_fail w with
  | Ret (w, Okay _) => Ret (set_pending (set_committed w (default (committed w) (pending w))) None, Okay ())
  | Ret (w, Fail e) => Ret (set_pending w None, Fail e)
  | Panics why => Panics why
  end.

Definition Rollback : cdb unit := modify (fun w => set_pending w None).

(** What a transaction does: on the tables and the counters, at a time. *)
Definition txn (A : Type) : Type := Z -> tables * counters -> outcome (tables * counters * A).

(** In the open transaction. *)
Definition in_tx {A} (handle : txn A) : cdb A := fun w =>
  match pending w with
  | None => Ret (w, Fail Unknown)
  | Some t =>
      match handle (now w) (t, counts w) with
      | Ret (t, c, a) => Ret (set_counts (set_pending w (Some t)) c, Okay a)
      | Panics why => Panics why
      end
  end.

(** [sTx]: the context has a transaction. *)
Definition DoTransactionIfNeed {A} (sTx : bool) (handle : txn A) : cdb A :=
  if sTx then in_tx handle
  else _ ← StartTx; a ← in_tx handle; _ ← Commit; mret a.

(** [db.View]: outside any transaction that is open. *)
Definition view {A} (f : tables -> A) : cdb A := _ ← may_fail; w ← get; mret (f (committed w)).

(** [db.Update] *)
Definition update (f : Z -> tables -> tables) : cdb unit :=
  w ← get;
  match pending w with
  | Some _ => panics Deadlock
  | None => _ ← may_fail; modify (fun w => set_committed w (f (now w) (committed w)))
  end.

Definition next_id (id : Z) : Z := wrap_u 64 (id + 1).

(** ** [configFileStore] *)

Section boltdb.
  (** The order in which Go ranges over a map. *)
  Context (range : forall A, gmap string A -> list (string * A)).

Definition file_key (namespace group name : string) : string := namespace +:+ "@" +:+ group +:+ "@" +:+ name.

Definition getConfigFile (t : tables) (namespace group name : string) : option ConfigFile :=
  data ← tblConfigFile t !! file_key namespace group name; if cfValid data then Some data else None.

Definition stampFile (file : ConfigFile) (id time : Z) : ConfigFile :=
  mkFile id (cfName file) (cfNamespace file) (cfGroup file) (cfContent file) (cfComment file) (cfFormat file) time (cfCreateBy file)
    time (cfModifyBy file) true.

Definition CreateConfigFile (sTx : bool) (file : ConfigFile) : cdb (option ConfigFile) :=
  DoTransactionIfNeed sTx (fun now '(t, c) =>
    let id := next_id (fileId c) in
    let file := stampFile file id now in
    let t := save_id t "ConfigFileID" id in
    let t := set_files t (<[file_key (cfNamespace file) (cfGroup file) (cfName file) := file]> (tblConfigFile t)) in
    Ret (t, mkCounters id (releaseId c) (tagId c) (historyId c) (groupId c), getConfigFile t (cfNamespace file) (cfGroup file) (cfName file))).

Definition GetConfigFile (sTx : bool) (namespace group name : string) : cdb (option ConfigFile) :=
  DoTransactionIfNeed sTx (fun _ '(t, c) => Ret (t, c, getConfigFile t namespace group name)).

Definition changeFile (file : ConfigFile) (time : Z) (row : ConfigFile) : ConfigFile :=
  mkFile (cfId row) (cfName row) (cfNamespace row) (cfGroup row) (cfContent file) (cfComment file) (cfFormat file) (cfCreateTime row)
    (cfCreateBy row) time (cfModifyBy file) (cfValid row).

Definition UpdateConfigFile (sTx : bool) (file : ConfigFile) : cdb (option ConfigFile) :=
  DoTransactionIfNeed sTx (fun now '(t, c) =>
    let t := set_files t (alter (changeFile file now) (file_key (cfNamespace file) (cfGroup file) (cfName file)) (tblConfigFile t)) in
    Ret (t, c, getConfigFile t (cfNamespace file) (cfGroup file) (cfName file))).

Definition dropFile (time : Z) (row : ConfigFile) : ConfigFile :=
  mkFile (cfId row) (cfName row) (cfNamespace row) (cfGroup row) (cfContent row) (cfComment row) (cfFormat row) (cfCreateTime row)
    (cfCreateBy row) time (cfModifyBy row) false.

Definition DeleteConfigFile (sTx : bool) (namespace group name : string) : cdb unit :=
  DoTransactionIfNeed sTx (fun now '(t, c) =>
    Ret (set_files t (alter (dropFile now) (file_key namespace group name) (tblConfigFile t)), c, ())).

(** A page of the rows that pass, the youngest first.  The names are compared by
    [strings.Contains]. *)
Definition page {A} (files : list A) (offset limit : Z) : list A :=
  let endIndex := wrap_u 32 (offset + limit) in
  let totalCount := wrap_u 32 (Z.of_nat (length files)) in
  if decide (totalCount = 0 \/ endIndex <= offset \/ totalCount <= offset) then []
  else take (Z.to_nat (Z.min endIndex totalCount - offset)) (drop (Z.to_nat offset) files).
Definition youngest (a b : ConfigFile) : Prop := cfId b <= cfId a.
#[local] Instance youngest_dec : RelDecision youngest := fun a b => decide (cfId b <= cfId a).
Definition doConfigFilePage (ret : gmap string ConfigFile) (offset limit : Z) : list ConfigFile :=
  page (merge_sort youngest (range _ ret).*2) offset limit.

Definition in_group (namespace group : string) (row : ConfigFile) : bool :=
  cfValid row && Contains (cfNamespace row) namespace && Contains (cfGroup row) group.

Definition QueryConfigFilesByGroup (namespace group : string) (offset limit : Z) : cdb (Z * list ConfigFile) :=
  ret ← view (fun t => filter (fun kv => in_group namespace group kv.2 = true) (tblConfigFile t));
  mret (wrap_u 32 (Z.of_nat (size ret)), doConfigFilePage ret offset limit).

(** ** [configFileReleaseStore] *)

Definition release_key (namespace group fileName : string) : string := namespace +:+ "@@" +:+ group +:+ "@@" +:+ fileName.

Definition getConfigFileReleaseByFlag (t : tables) (namespace group fileName : string) (withAllFlag : bool) : option ConfigFileRelease :=
  release ← tblConfigFileRelease t !! release_key namespace group fileName;
  if negb withAllFlag && negb (crValid release) then None else Some release.

Definition stampRelease (r : ConfigFileRelease) (id time : Z) : ConfigFileRelease :=
  mkRelease id (crName r) (crNamespace r) (crGroup r) (crFileName r) (crContent r) (crComment r) (crMd5 r) (crVersion r) (crFlag r)
    time (crCreateBy r) time (crModifyBy r) true.

Definition CreateConfigFileRelease (sTx : bool) (r : ConfigFileRelease) : cdb (option ConfigFileRelease) :=
  DoTransactionIfNeed sTx (fun now '(t, c) =>
    let id := next_id (releaseId c) in
    let r := stampRelease r id now in
    let t := save_id t "ConfigFileReleaseID" id in
    let t := set_releases t (<[release_key (crNamespace r) (crGroup r) (crFileName r) := r]> (tblConfigFileRelease t)) in
    Ret (t, mkCounters (fileId c) id (tagId c) (historyId c) (groupId c),
      getConfigFileReleaseByFlag t (crNamespace r) (crGroup r) (crFileName r) false)).

Definition changeRelease (r : ConfigFileRelease) (time : Z) (row : ConfigFileRelease) : ConfigFileRelease :=
  mkRelease (crId row) (crName r) (crNamespace row) (crGroup row) (crFileName row) (crContent r) (crComment r) (crMd5 r) (crVersion r) 0
    (crCreateTime row) (crCreateBy row) time (crModifyBy r) true.

Definition UpdateConfigFileRelease (sTx : bool) (r : ConfigFileRelease) : cdb (option ConfigFileRelease) :=
  DoTransactionIfNeed sTx (fun now '(t, c) =>
    let t := set_releases t (alter (changeRelease r now) (release_key (crNamespace r) (crGroup r) (crFileName r)) (tblConfigFileRelease t)) in
    Ret (t, c, getConfigFileReleaseByFlag t (crNamespace r) (crGroup r) (crFileName r) false)).

Definition GetConfigFileRelease (sTx : bool) (namespace group fileName : string) : cdb (option ConfigFileRelease) :=
  DoTransactionIfNeed sTx (fun _ '(t, c) => Ret (t, c, getConfigFileReleaseByFlag t namespace group fileName false)).

Definition GetConfigFileReleaseWithAllFlag (sTx : bool) (namespace group fileName : string) : cdb (option ConfigFileRelease) :=
  DoTransactionIfNeed sTx (fun _ '(t, c) => Ret (t, c, getConfigFileReleaseByFlag t namespace group fileName true)).

Definition dropRelease (version time : Z) (deleteBy : string) (row : ConfigFileRelease) : ConfigFileRelease :=
  mkRelease (crId row) (crName row) (crNamespace row) (crGroup row) (crFileName row) (crContent row) (crComment row) "" version 1
    (crCreateTime row) (crCreateBy row) time deleteBy false.

(** A release that is not there is dereferenced. *)
Definition DeleteConfigFileRelease (sTx : bool) (namespace group fileName deleteBy : string) : cdb unit :=
  DoTransactionIfNeed sTx (fun now '(t, c) =>
    match getConfigFileReleaseByFlag t namespace group fileName false with
    | None => Panics NilDereference
    | Some release =>
        Ret (set_releases t (alter (dropRelease (wrap_u 64 (crVersion release + 1)) now deleteBy) (release_key namespace group fileName)
               (tblConfigFileRelease t)), c, ())
    end).

Definition FindConfigFileReleaseByModifyTimeAfter (modifyTime : Z) : cdb (list ConfigFileRelease) :=
  ret ← view (fun t => filter (fun kv => modifyTime <= crModifyTime kv.2) (tblConfigFileRelease t));
  mret (range _ ret).*2.

(** ** [configFileReleaseHistoryStore] *)

Definition stampHistory (h : ConfigFileReleaseHistory) (id time : Z) : ConfigFileReleaseHistory :=
  mkHistory id (chName h) (chNamespace h) (chGroup h) (chFileName h) (chFormat h) (chTags h) (chContent h) (chComment h) (chMd5 h)
    (chType h) (chStatus h) time (chCreateBy h) time (chModifyBy h) true.

Definition CreateConfigFileReleaseHistory (sTx : bool) (h : ConfigFileReleaseHistory) : cdb unit :=
  DoTransactionIfNeed sTx (fun now '(t, c) =>
    let id := next_id (historyId c) in
    let t := save_id t "ConfigFileReleaseHistoryID" id in
    Ret (set_histories t (<[pretty id := stampHistory h id now]> (tblConfigFileReleaseHistory t)),
      mkCounters (fileId c) (releaseId c) (tagId c) id (groupId c), ())).

Definition latest (a b : ConfigFileReleaseHistory) : Prop := chId b <= chId a.
#[local] Instance latest_dec : RelDecision latest := fun a b => decide (chId b <= chId a).
Definition GetLatestConfigFileReleaseHistory (namespace group fileName : string) : cdb (option ConfigFileReleaseHistory) :=
  ret ← view (fun t => filter (fun kv => chNamespace kv.2 = namespace /\ chGroup kv.2 = group /\ chFileName kv.2 = fileName)
                         (tblConfigFileReleaseHistory t));
  mret (head (merge_sort latest (range _ ret).*2)).

(** ** [configFileTagStore] *)

Definition tag_key (key value namespace group fileName : string) : string :=
  key +:+ "@" +:+ value +:+ "@" +:+ namespace +:+ "@" +:+ group +:+ "@" +:+ fileName.
Definition tag_of (namespace group fileName : string) (tag : ConfigFileTag) : Prop :=
  ctNamespace tag = namespace /\ ctGroup tag = group /\ ctFileName tag = fileName.
#[local] Instance tag_of_dec namespace group fileName tag : Decision (tag_of namespace group fileName tag) := ltac:(unfold tag_of; apply _).

Definition CreateConfigFileTag (sTx : bool) (tag : ConfigFileTag) : cdb unit :=
  DoTransactionIfNeed sTx (fun _ '(t, c) =>
    let id := next_id (tagId c) in
    let t := save_id t "ConfigFileTagID" id in
    let tag := mkTag id (ctKey tag) (ctValue tag) (ctNamespace tag) (ctGroup tag) (ctFileName tag) (ctCreateBy tag) (ctModifyBy tag) true in
    Ret (set_tags t (<[tag_key (ctKey tag) (ctValue tag) (ctNamespace tag) (ctGroup tag) (ctFileName tag) := tag]> (tblConfigFileTag t)),
      mkCounters (fileId c) (releaseId c) id (historyId c) (groupId c), ())).

Definition QueryTagByConfigFile (namespace group fileName : string) : cdb (list ConfigFileTag) :=
  ret ← view (fun t => filter (fun kv => tag_of namespace group fileName kv.2) (tblConfigFileTag t));
  mret (range _ ret).*2.

Definition DeleteConfigFileTag (sTx : bool) (namespace group fileName key value : string) : cdb unit :=
  DoTransactionIfNeed sTx (fun _ '(t, c) =>
    Ret (set_tags t (delete (tag_key key value namespace group fileName) (tblConfigFileTag t)), c, ())).

Definition DeleteTagByConfigFile (sTx : bool) (namespace group fileName : string) : cdb unit :=
  DoTransactionIfNeed sTx (fun _ '(t, c) =>
    let ret := filter (fun kv => tag_of namespace group fileName kv.2) (tblConfigFileTag t) in
    let keys := (fun tag => tag_key (ctKey tag) (ctValue tag) namespace group fileName) <$> (range _ ret).*2 in
    Ret (set_tags t (foldl (fun m k => delete k m) (tblConfigFileTag t) keys), c, ())).

(** ** [configFileGroupStore] *)

Definition group_key (namespace name : string) : string := namespace +:+ "@@" +:+ name.

Definition CreateConfigFileGroup (g : ConfigFileGroup) : cdb ConfigFileGroup :=
  if decide (cgNamespace g = "" \/ cgName g = "") then raise EmptyParamsErr
  else DoTransactionIfNeed false (fun now '(t, c) =>
    let id := next_id (groupId c) in
    let g := mkGroup id (cgName g) (cgNamespace g) (cgComment g) (cgOwner g) now (cgCreateBy g) now (cgModifyBy g) true in
    let t := save_id t "ConfigFileGroupID" id in
    Ret (set_groups t (<[group_key (cgNamespace g) (cgName g) := g]> (tblConfigFileGroup t)),
      mkCounters (fileId c) (releaseId c) (tagId c) (historyId c) id, g)).

Definition GetConfigFileGroup (namespace name : string) : cdb (option ConfigFileGroup) :=
  if decide (namespace = "" \/ name = "") then raise EmptyParamsErr
  else view (fun t => g ← tblConfigFileGroup t !! group_key namespace name; if cgValid g then Some g else None).

Definition DeleteConfigFileGroup (namespace name : string) : cdb unit :=
  if decide (namespace = "" \/ name = "") then raise EmptyParamsErr
  else update (fun now t => set_groups t (alter (fun row =>
    mkGroup (cgId row) (cgName row) (cgNamespace row) (cgComment row) (cgOwner row) (cgCreateTime row) (cgCreateBy row) now (cgModifyBy row)
      false) (group_key namespace name) (tblConfigFileGroup t))).

(** The answer is nil. *)
Definition UpdateConfigFileGroup (g : ConfigFileGroup) : cdb (option ConfigFileGroup) :=
  if decide (cgNamespace g = "" \/ cgName g = "") then raise EmptyParamsErr
  else
    _ ← update (fun now t => set_groups t (alter (fun row =>
      mkGroup (cgId row) (cgName row) (cgNamespace row) (cgComment g) (cgOwner row) (cgCreateTime row) (cgCreateBy row) now (cgModifyBy g)
        (cgValid row)) (group_key (cgNamespace g) (cgName g)) (tblConfigFileGroup t)));
    mret None.

End boltdb.

(** ** How the calls end *)

(** Nothing is written; faults are used up. *)
Definition quiet (w w' : config_store) : Prop :=
  committed w' = committed w /\ pending w' = pending w /\ now w' = now w /\ exists l, base w' = set_faults (base w) l.

(** What a call sees, in the open transaction or in its own. *)
Definition current (tx : bool) (w : config_store) : option tables :=
  match tx, pending w with true, t => t | false, None => Some (committed w) | false, Some _ => None end.

(** A call that leaves [t]. *)
Definition moved (tx : bool) (w w' : config_store) (t : tables) : Prop :=
  current tx w' = Some t /\ (if tx then committed w' = committed w else pending w' = None) /\
  now w' = now w /\ exists l, base w' = set_faults (base w) l.

Lemma quiet_refl w : quiet w w.
Proof. split_and!; [done..|]. exists (faults (base w)). by destruct w as [[]]. Qed.
Lemma quiet_trans w w' w'' : quiet w w' -> quiet w' w'' -> quiet w w''.
Proof. intros (H1 & H2 & H3 & l & H4) (H1' & H2' & H3' & l' & H4'). split_and!; [congruence..|]. exists l'. by rewrite H4', H4. Qed.
#[export] Instance quiet_preorder : PreOrder quiet.
Proof. split; [exact quiet_refl|exact quiet_trans]. Qed.

Lemma quiet_current tx w w' : quiet w w' -> current tx w' = current tx w.
Proof. intros (H1 & H2 & _). unfold current. by rewrite H1, H2. Qed.

Lemma quiet_sees tx w w' t : quiet w w' -> current tx w = Some t -> current tx w' = Some t.
Proof. intros Hq <-. by apply quiet_current. Qed.

Lemma current_idle w : pending w = None -> current false w = Some (committed w).
Proof. unfold current. by intros ->. Qed.

Lemma moved_quiet tx w w' t w0 : moved tx w w' t -> quiet w0 w -> moved tx w0 w' t.
Proof.
  intros (H1 & H2 & H3 & l & H4) (H1' & H2' & H3' & l' & H4'). split_and!; [done|by destruct tx; rewrite ?H2, ?H1'|congruence|].
  exists l. by rewrite H4, H4'.
Qed.
Lemma moved_then_quiet tx w w' t w'' : moved tx w w' t -> quiet w' w'' -> moved tx w w'' t.
Proof.
  intros (H1 & H2 & H3 & l & H4) Hq. pose proof (quiet_current tx _ _ Hq) as Hc. destruct Hq as (Hq1 & Hq2 & Hq3 & l' & Hq4).
  split_and!; [by rewrite Hc|destruct tx; congruence|congruence|]. exists l'. by rewrite Hq4, H4.
Qed.
Lemma moved_moved tx w w' t w'' t' : moved tx w w' t -> moved tx w' w'' t' -> moved tx w w'' t'.
Proof.
  intros (H1 & H2 & H3 & l & H4) (H1' & H2' & H3' & l' & H4'). split_and!; [done|destruct tx; congruence|congruence|].
  exists l'. by rewrite H4', H4.
Qed.
Lemma quiet_moved tx w w' t : quiet w w' -> current tx w = Some t -> moved tx w w' t.
Proof.
  intros Hq Hc. pose proof (quiet_current tx _ _ Hq) as Hc'. destruct Hq as (H1 & H2 & H3 & H4). rewrite Hc in Hc'. split_and!; [done| |done..].
  destruct tx; [done|]. rewrite H2. unfold current in Hc. by destruct (pending w).
Qed.
Lemma moved_committed w w' t : moved false w w' t -> committed w' = t /\ pending w' = None.
Proof. intros (H1 & H2 & _). unfold current in H1. rewrite H2 in H1. by injection H1. Qed.

Lemma moved_same tx w w' t : current tx w = Some t -> moved tx w w' t -> quiet w w'.
Proof.
  intros Hc (H1 & H2 & H3 & H4). destruct tx; cbn in *; [split_and!; [done|congruence|done..]|].
  unfold current in *. destruct (pending w) eqn:Hp, (pending w') eqn:Hp'; try done. split_and!; [congruence|congruence|done..].
Qed.

Section laws.
  Context (P : panic -> Prop).

Lemma may_fail_quiet w : match may_fail w with Ret (w', _) => quiet w w' /\ counts w' = counts w | Panics _ => False end.
Proof.
  unfold may_fail, on_base, transaction, mret, call_ret. destruct (default false (head (faults (base w)))); cbn;
    (split; [|done]); split_and!; try done; by eexists.
Qed.

Lemma runs_may_fail w (Q : config_store -> result StatusCode unit -> Prop) :
  (forall w' r, quiet w w' -> counts w' = counts w -> Q w' r) -> runs P may_fail w Q.
Proof. intros HQ. pose proof (may_fail_quiet w) as Hq. unfold runs. destruct (may_fail w) as [[w' r]|why]; [|done]. destruct Hq. by apply HQ. Qed.

Lemma runs_view {A} (f : tables -> A) w (Q : config_store -> result StatusCode A -> Prop) :
  (forall w', quiet w w' -> Q w' (Okay (f (committed w)))) -> (forall w' e, quiet w w' -> Q w' (Fail e)) -> runs P (view f) w Q.
Proof.
  intros HO HF. apply runs_bind, runs_may_fail. intros w' [[]|e] Hq Hc; [|by apply HF].
  apply runs_bind, runs_get, runs_ret. rewrite (proj1 Hq). by apply HO.
Qed.

(** What a transaction of its own or the open one does. *)
Lemma runs_txn {A} tx (h : txn A) w t (Q : config_store -> result StatusCode A -> Prop) :
  current tx w = Some t ->
  (forall c, match h (now w) (t, c) with
   | Ret (t', _, a) => forall w', moved tx w w' t' -> Q w' (Okay a)
   | Panics why => P why
   end) ->
  (tx = false -> forall w' e, quiet w w' -> Q w' (Fail e)) ->
  runs P (DoTransactionIfNeed tx h) w Q.
Proof.
  intros Ht Hh HF. destruct tx; cbn [DoTransactionIfNeed].
  - cbn in Ht. unfold runs, in_tx. rewrite Ht. specialize (Hh (counts w)). destruct (h (now w) (t, counts w)) as [[[t' c'] a]|why]; [|done].
    apply Hh. split_and!; [done..|]. exists (faults (base w)). by destruct w as [[]].
  - unfold current in Ht. destruct (pending w) as [?|] eqn:Hp; [done|]. injection Ht as <-. specialize (HF eq_refl).
    apply runs_bind, runs_bind, runs_get. rewrite Hp. apply runs_bind, runs_may_fail. intros w1 [[]|e] Hq1 Hc1; [|by apply HF].
    apply runs_modify. apply runs_bind. unfold in_tx at 1, runs at 1. cbn [pending set_pending now counts].
    assert (now w1 = now w /\ committed w1 = committed w) as [-> ->] by (by destruct Hq1 as (? & ? & ? & _)).
    specialize (Hh (counts w1)). destruct (h (now w) (committed w, counts w1)) as [[[t' c'] a]|why]; [|done].
    apply runs_bind. unfold Commit, runs at 1. set (w2 := set_counts (set_pending (set_pending w1 _) (Some t')) c').
    pose proof (may_fail_quiet w2) as Hq2. destruct (may_fail w2) as [[w3 [[]|e]]|why]; [..|done].
    + apply runs_ret, Hh. destruct Hq1 as (H1 & H2 & H3 & l & H4), Hq2 as [(H1' & H2' & H3' & l' & H4') _].
      unfold moved, current. cbn. rewrite H2'. cbn. split_and!; [done..|by rewrite H3'|]. exists l'. rewrite H4'. cbn. by rewrite H4.
    + apply HF. destruct Hq1 as (H1 & H2 & H3 & l & H4), Hq2 as [(H1' & H2' & H3' & l' & H4') _].
      split_and!; cbn; [by rewrite H1'|by rewrite Hp|by rewrite H3'|]. exists l'. rewrite H4'. cbn. by rewrite H4.
Qed.

(** A transaction that only reads. *)
Lemma runs_read {A} tx (f : tables -> A) w t (Q : config_store -> result StatusCode A -> Prop) :
  current tx w = Some t ->
  (forall w', quiet w w' -> Q w' (Okay (f t))) -> (tx = false -> forall w' e, quiet w w' -> Q w' (Fail e)) ->
  runs P (DoTransactionIfNeed tx (fun _ '(t, c) => Ret (t, c, f t))) w Q.
Proof.
  intros Ht HO HF. eapply runs_txn; [done| |done]. intros c w' Hm. by apply HO, (moved_same tx w w' t).
Qed.

Lemma runs_StartTx w (Q : config_store -> result StatusCode unit -> Prop) :
  pending w = None ->
  (forall w', current true w' = Some (committed w) -> committed w' = committed w -> now w' = now w -> Q w' (Okay ())) ->
  (forall w' e, quiet w w' -> Q w' (Fail e)) -> runs P StartTx w Q.
Proof.
  intros Hp HO HF. apply runs_bind, runs_get. rewrite Hp. apply runs_bind, runs_may_fail. intros w' [[]|e] (H1 & H2 & H3 & H4) Hc; [|by apply HF].
  apply runs_modify, HO; cbn; by rewrite ?H1.
Qed.

Lemma runs_Commit w t (Q : config_store -> result StatusCode unit -> Prop) :
  pending w = Some t ->
  (forall w', committed w' = t -> pending w' = None -> Q w' (Okay ())) ->
  (forall w' e, committed w' = committed w -> pending w' = None -> Q w' (Fail e)) -> runs P Commit w Q.
Proof.
  intros Hp HO HF. unfold runs, Commit. pose proof (may_fail_quiet w) as Hq. destruct (may_fail w) as [[w' [[]|e]]|why]; [..|done];
    destruct Hq as [(H1 & H2 & _) _].
  - apply HO; cbn; [|done]. by rewrite H2, Hp.
  - by apply HF.
Qed.

Lemma runs_update f w (Q : config_store -> result StatusCode unit -> Prop) :
  pending w = None ->
  (forall w', moved false w w' (f (now w) (committed w)) -> Q w' (Okay ())) -> (forall w' e, quiet w w' -> Q w' (Fail e)) ->
  runs P (update f) w Q.
Proof.
  intros Hp HO HF. apply runs_bind, runs_get. rewrite Hp. apply runs_bind, runs_may_fail. intros w' [[]|e] Hq _; [|by apply HF].
  apply runs_modify, HO. destruct Hq as (H1 & H2 & H3 & l & H4). unfold moved, current. cbn. rewrite H2, Hp, H1, H3.
  split_and!; [done..|]. by exists l.
Qed.

End laws.
