(* ===== verification/ConfigServer.v ===== *)
(** * The configuration API ([src/config/config_file.go], [config_file_release.go], [config_file_release_history.go], [config_file_tag.go], [config_file_group.go])

    Creating, changing, publishing and deleting configuration files, with their
    tags, their groups and the history of their releases, on the store of
    [ConfigStore.v].  The plugins that encrypt, the configuration and the resource
    hooks are arguments.  [tx] says whether the context holds a transaction;
    [user] is who asks. *)

From S2P Require Import Prelude Effects GoStrings Hash Utils Registry Services Namespace InstanceStore ServiceStore BoltStore Api NamespaceServer.
From S2P Require Import BoltServices Cipher Token ConfigFiles ConfigStore.
From Stdlib Require Import ZArith Lia.
From stdpp Require Import base tactics list gmap strings.

Open Scope Z_scope.

(** A plugin of [plugin.Crypto]. *)
Record Crypto := mkCrypto {
  GenerateKey : option (list Z) -> result crypto_error (list Z);
  Encrypt : string -> list Z -> outcome (result crypto_error string);
  Decrypt : string -> list Z -> outcome (result crypto_error string) }.
(** [src/plugin/crypto/aes] *)
Definition AESCrypto : Crypto := mkCrypto Token.GenerateKey Token.Encrypt Token.Decrypt.

Definition ConfigFileTagKeyDataKey : string := "data_key".
Definition ConfigFileTagKeyEncryptAlgo : string := "encrypt_algo".
Definition ReleaseTypeNormal : string := "normal".
Definition ReleaseTypeDelete : string := "delete".
Definition ReleaseStatusSuccess : string := "success".
Definition ReleaseStatusFail : string := "failure".
Definition ReleaseStatusToRelease : string := "to-be-released".
Definition MaxPageSize : Z := 100.

Section server.
  Context `{!InstanceStorage bolt, !ServiceStorage bolt}.
  Context (Time2String : Z -> string) (range : forall A, gmap string A -> list (string * A)).
  Context (recording : bool).
  (** [s.cryptoManager], if there is one, and its plugins by name. *)
  Context (cryptoManager : option (string -> option Crypto)).
  (** What the namespace server is configured with, and the hooks. *)
  Context (allowAutoCreate : bool) (cached : string -> bool).
  Context (afterNamespaceResource : PbNamespace -> NamespaceModel -> bool -> call bolt unit unit).
  Context (afterConfigGroupResource : PbGroup -> call config_store unit unit).

#[local] Abbreviation Server := (@Api.Server config_store).
#[local] Abbreviation handler := (call Server ConfigResponse).

Definition refuse {A} (code : Code) : handler A := raise (NewConfigFileResponse code None).
Definition refuse_with {A} (code : Code) (file : PbConfigFile) : handler A := raise (NewConfigFileResponse code (Some file)).

(** A step, whose error is answered with [response]. *)
Definition or_answer {A} (m : call config_store StatusCode A) (response : ConfigResponse) : handler A := orelse (on_storage m) (fun _ => response).
Definition or_refuse {A} (m : call config_store StatusCode A) (code : Code) : handler A := or_answer m (NewConfigFileResponse code None).

Definition record_config (name namespace : string) (operation : OperationType) : handler unit :=
  RecordHistory recording (mkEntry name namespace operation).

(** The response, whichever way the handler returned. *)
Definition told (r : result ConfigResponse ConfigResponse) : ConfigResponse := match r with Okay r => r | Fail r => r end.

(** ** Tags ([config_file_tag.go]) *)

Definition queryTagsByConfigFileWithAPIModels (namespace group fileName : string) : call config_store StatusCode (list PbTag) :=
  tags ← QueryTagByConfigFile range namespace group fileName;
  mret ((fun tag => mkPbTag (Some (ctKey tag)) (Some (ctValue tag))) <$> tags).

Definition doCreateConfigFileTags (tx : bool) (namespace group fileName operator : string) (tags : list (string * string))
    : call config_store StatusCode unit :=
  each (fun '(key, value) => CreateConfigFileTag tx (mkTag 0 key value namespace group fileName operator operator false)) tags.
Definition doDeleteConfigFileTags (tx : bool) (namespace group fileName : string) (tags : list (string * string))
    : call config_store StatusCode unit :=
  each (fun '(key, value) => DeleteConfigFileTag tx namespace group fileName key value) tags.

(** A key may have several values. *)
Definition tagMap (tags : list (string * string)) : gmap string (gmap string unit) :=
  foldl (fun m '(key, value) => <[key := <[value := ()]> (default ∅ (m !! key))]> m) ∅ tags.

Definition diffTags (a b : gmap string (gmap string unit)) : list (string * string) :=
  let tmp := map_imap (fun key values => Some (values ∖ default ∅ (b !! key))) a in
  kv ← range _ tmp; v ← range _ kv.2; [(kv.1, v.1)].

Definition createConfigFileTags (tx : bool) (namespace group fileName operator : string) (tags : list (string * string))
    : call config_store StatusCode unit :=
  storedTags ← QueryTagByConfigFile range namespace group fileName;
  if decide (storedTags = []) then doCreateConfigFileTags tx namespace group fileName operator tags
  else
    let storedTagMap := tagMap ((fun tag => (ctKey tag, ctValue tag)) <$> storedTags) in
    let newTagMap := tagMap tags in
    _ ← doCreateConfigFileTags tx namespace group fileName operator (diffTags newTagMap storedTagMap);
    doDeleteConfigFileTags tx namespace group fileName (diffTags storedTagMap newTagMap).

Definition createOrUpdateConfigFileTags (tx : bool) (configFile : PbConfigFile) (operator : string) : handler unit :=
  let tags := (fun t => (GetValue (ptKey t), GetValue (ptValue t))) <$> pfTags configFile in
  or_answer (createConfigFileTags tx (GetValue (pfNamespace configFile)) (GetValue (pfGroup configFile)) (GetValue (pfName configFile)) operator tags)
    (NewConfigFileResponse StoreLayerException (Some configFile)).

(** ** Encryption *)

(** The last tag of a key wins. *)
Definition tag_value (key : string) (tags : list PbTag) : string :=
  foldl (fun v t => if decide (GetValue (ptKey t) = key) then GetValue (ptValue t) else v) "" tags.

(** The algorithm and the key. *)
Definition getEncryptAlgorithmAndDataKey (namespace group fileName : string) : call config_store unit (string * string) :=
  tags ← orelse (queryTagsByConfigFileWithAPIModels namespace group fileName) (fun _ => ());
  mret (tag_value ConfigFileTagKeyEncryptAlgo tags, tag_value ConfigFileTagKeyDataKey tags).

(** What a plugin answers. *)
Definition plugged {W A} (o : outcome (result crypto_error A)) : call W unit A := fun w =>
  match o with
  | Ret (Okay a) => Ret (w, Okay a)
  | Ret (Fail _) => Ret (w, Fail ())
  | Panics why => Panics why
  end.
Definition expect {W A} (o : option A) : call W unit A := match o with Some a => mret a | None => raise () end.

(** [rand]: what [crypto/rand] gives. *)
Definition encryptConfigFile (rand : option (list Z)) (configFile : PbConfigFile) (algorithm dataKey : string) : call config_store unit PbConfigFile :=
  match cryptoManager with
  | None => mret configFile
  | Some GetCrypto =>
      crypto ← expect (GetCrypto algorithm);
      dateKeyBytes ← (if decide (dataKey = "") then plugged (Ret (GenerateKey crypto rand)) else expect (DecodeString dataKey));
      cipherContent ← plugged (Encrypt crypto (GetValue (pfContent configFile)) dateKeyBytes);
      let tags := [mkPbTag (Some ConfigFileTagKeyDataKey) (Some (EncodeToString dateKeyBytes));
                   mkPbTag (Some ConfigFileTagKeyEncryptAlgo) (Some algorithm)] in
      mret (set_Tags (set_Content configFile (Some cipherContent)) (pfTags configFile ++ tags))
  end.

(** Only the creator of a file is given its text. *)
Definition decipher (user : string) (createBy content : option string) (algorithm dataKey : string) (GetCrypto : string -> option Crypto)
    : call config_store unit (option string) :=
  if decide (user <> GetValue createBy \/ dataKey = "") then mret content
  else
    dateKeyBytes ← expect (DecodeString dataKey);
    crypto ← expect (GetCrypto algorithm);
    plainContent ← plugged (Decrypt crypto (GetValue content) dateKeyBytes);
    mret (Some plainContent).

(** The key is not shown. *)
Definition decryptConfigFile (user : string) (configFile : PbConfigFile) : call config_store unit PbConfigFile :=
  match cryptoManager with
  | None => mret configFile
  | Some GetCrypto =>
      '(algorithm, dataKey) ← (
        if decide (length (pfTags configFile) = 0%nat) then
          getEncryptAlgorithmAndDataKey (GetValue (pfNamespace configFile)) (GetValue (pfGroup configFile)) (GetValue (pfName configFile))
        else mret (tag_value ConfigFileTagKeyEncryptAlgo (pfTags configFile), tag_value ConfigFileTagKeyDataKey (pfTags configFile)));
      let configFile := set_Tags configFile (filter (fun t => GetValue (ptKey t) <> ConfigFileTagKeyDataKey) (pfTags configFile)) in
      content ← decipher user (pfCreateBy configFile) (pfContent configFile) algorithm dataKey GetCrypto;
      mret (set_Content configFile content)
  end.

Fixpoint decryptMultiConfigFile (user : string) (configFiles : list PbConfigFile) : call config_store unit (list PbConfigFile) :=
  match configFiles with
  | [] => mret []
  | configFile :: configFiles =>
      configFile ← decryptConfigFile user configFile;
      configFiles ← decryptMultiConfigFile user configFiles;
      mret (configFile :: configFiles)
  end.

(** The key is looked up under the name of the release, not that of its file. *)
Definition decryptConfigFileRelease (user : string) (release : PbRelease) : call config_store unit PbRelease :=
  match cryptoManager with
  | None => mret release
  | Some GetCrypto =>
      if decide (user <> GetValue (prCreateBy release)) then mret release
      else
        '(algorithm, dataKey) ← getEncryptAlgorithmAndDataKey (GetValue (prNamespace release)) (GetValue (prGroup release))
          (GetValue (prName release));
        content ← decipher user (prCreateBy release) (prContent release) algorithm dataKey GetCrypto;
        mret (set_ReleaseContent release content)
  end.

Definition or_decrypt_refuse {A} (m : call config_store unit A) (response : ConfigResponse) : handler A := orelse (on_storage m) (fun _ => response).

(** ** Reading files *)

Definition GetConfigFileBaseInfo (tx : bool) (user namespace group name : string) : handler ConfigResponse :=
  if CheckSourceName (Some namespace) then refuse InvalidNamespaceName
  else if CheckSourceName (Some group) then refuse InvalidConfigFileGroupName
  else if CheckFileName (Some name) then refuse InvalidConfigFileName
  else
    file ← or_refuse (GetConfigFile tx namespace group name) StoreLayerException;
    match file with
    | None => refuse NotFoundResource
    | Some file =>
        retConfigFile ← or_decrypt_refuse (decryptConfigFile user (transferConfigFileStoreModel2APIModel Time2String file))
          (NewConfigFileResponse DecryptConfigFileException None);
        mret (NewConfigFileResponse ExecuteSuccess (Some retConfigFile))
    end.

(** [GetConfigFileLatestReleaseHistory] and what [fillReleaseAndTags] makes of it. *)
Definition fillReleaseAndTags (file : PbConfigFile) : call config_store unit PbConfigFile :=
  let namespace := GetValue (pfNamespace file) in
  let group := GetValue (pfGroup file) in
  let name := GetValue (pfName file) in
  if CheckSourceName (Some namespace) then raise ()
  else if CheckSourceName (Some group) then raise ()
  else if CheckFileName (Some name) then raise ()
  else
    latestRelease ← orelse (GetLatestConfigFileReleaseHistory range namespace group name) (fun _ => ());
    let file :=
      match latestRelease with
      | Some h =>
          if decide (chType h = ReleaseTypeNormal) then
            set_ReleaseInfo file (Some (if decide (chContent h = GetValue (pfContent file)) then chStatus h else ReleaseStatusToRelease))
              (Some (chCreateBy h)) (Some (Time2String (chCreateTime h)))
          else set_ReleaseInfo file (Some ReleaseStatusToRelease) (Some "") (Some "")
      | None => set_ReleaseInfo file (Some ReleaseStatusToRelease) (Some "") (Some "")
      end in
    tags ← orelse (queryTagsByConfigFileWithAPIModels namespace group name) (fun _ => ());
    mret (set_Tags file tags).

Fixpoint fillAll (files : list ConfigFile) : call config_store unit (list PbConfigFile) :=
  match files with
  | [] => mret []
  | file :: files =>
      file ← fillReleaseAndTags (transferConfigFileStoreModel2APIModel Time2String file);
      files ← fillAll files;
      mret (file :: files)
  end.

(** The count and the files, or a code. *)
Definition QueryConfigFilesByGroup (user namespace group : string) (offset limit : Z) : call Server Code (Z * list PbConfigFile) :=
  if CheckSourceName (Some namespace) then raise InvalidNamespaceName
  else if CheckSourceName (Some group) then raise InvalidConfigFileGroupName
  else if decide (MaxPageSize < limit) then raise InvalidParameter
  else
    '(count, files) ← orelse (on_storage (ConfigStore.QueryConfigFilesByGroup range namespace group offset limit)) (fun _ => StoreLayerException);
    if decide (length files = 0%nat) then mret (count, [])
    else
      files ← orelse (on_storage (fillAll files)) (fun _ => StoreLayerException);
      files ← orelse (on_storage (decryptMultiConfigFile user files)) (fun _ => DecryptConfigFileException);
      mret (count, files).

(** ** Groups ([config_file_group.go]) *)

(** The namespace server works on the other tables, for the same history. *)
Definition on_naming {A} (m : call (@Api.Server bolt) Response A) : call Server Response A := fun s =>
  match m (mkServer (base (storage s)) (published s) (history s)) with
  | Ret (n, r) => Ret (mkServer (set_base (storage s) (storage n)) (published n) (history n), r)
  | Panics why => Panics why
  end.

Definition group_response (code : Code) (group : PbGroup) : ConfigResponse := NewConfigFileGroupResponse code (Some group).

(** [uuid]: the token of a new namespace. *)
Definition CreateConfigFileGroup (user uuid : string) (configFileGroup : PbGroup) : handler ConfigResponse :=
  match checkConfigFileGroupParams configFileGroup with
  | Some code => raise (group_response code configFileGroup)
  | None =>
      let configFileGroup := set_GroupBy configFileGroup (Some user) (Some user) in
      let namespace := GetValue (pgNamespace configFileGroup) in
      let groupName := GetValue (pgName configFileGroup) in
      _ ← orelse (on_naming (CreateNamespaceIfAbsent allowAutoCreate cached afterNamespaceResource uuid
                    (Some (mkPbNamespace (Some namespace) None None None))))
            (fun errResp => group_response (rCode errResp) configFileGroup);
      fileGroup ← or_answer (GetConfigFileGroup namespace groupName) (group_response StoreLayerException configFileGroup);
      match fileGroup with
      | Some _ => raise (group_response ExistedResource configFileGroup)
      | None =>
          let toCreateGroup := apiConfigFileGroup2Model configFileGroup in
          let toCreateGroup := set_cgModifyBy toCreateGroup (cgCreateBy toCreateGroup) in
          createdGroup ← or_answer (ConfigStore.CreateConfigFileGroup toCreateGroup) (group_response StoreLayerException configFileGroup);
          let configFileGroup := set_GroupId configFileGroup (Some (cgId createdGroup)) in
          _ ← or_decrypt_refuse (afterConfigGroupResource configFileGroup) (NewConfigFileGroupResponse ExecuteException None);
          _ ← record_config (GetValue (pgName configFileGroup)) (GetValue (pgNamespace configFileGroup)) OCreate;
          mret (group_response ExecuteSuccess (configFileGroup2Api Time2String createdGroup))
      end
  end.

Definition createConfigFileGroupIfAbsent (user uuid : string) (configFileGroup : PbGroup) : handler ConfigResponse :=
  group ← or_answer (GetConfigFileGroup (GetValue (pgNamespace configFileGroup)) (GetValue (pgName configFileGroup)))
    (NewConfigFileGroupResponse StoreLayerException None);
  match group with
  | Some group => mret (group_response ExecuteSuccess (configFileGroup2Api Time2String group))
  | None => CreateConfigFileGroup user uuid configFileGroup
  end.

Definition UpdateConfigFileGroup (user : string) (configFileGroup : PbGroup) : handler ConfigResponse :=
  match checkConfigFileGroupParams configFileGroup with
  | Some code => raise (group_response code configFileGroup)
  | None =>
      fileGroup ← or_answer (GetConfigFileGroup (GetValue (pgNamespace configFileGroup)) (GetValue (pgName configFileGroup)))
        (group_response StoreLayerException configFileGroup);
      match fileGroup with
      | None => raise (group_response NotFoundResource configFileGroup)
      | Some fileGroup =>
          let configFileGroup := set_GroupBy configFileGroup (pgCreateBy configFileGroup) (Some user) in
          let toUpdateGroup := apiConfigFileGroup2Model configFileGroup in
          let toUpdateGroup := set_cgModifyBy toUpdateGroup user in
          updatedGroup ← or_answer (ConfigStore.UpdateConfigFileGroup toUpdateGroup) (group_response StoreLayerException configFileGroup);
          let configFileGroup := set_GroupId configFileGroup (Some (cgId fileGroup)) in
          _ ← or_decrypt_refuse (afterConfigGroupResource configFileGroup) (NewConfigFileGroupResponse ExecuteException None);
          _ ← record_config (GetValue (pgName configFileGroup)) (GetValue (pgNamespace configFileGroup)) OUpdate;
          mret (NewConfigFileGroupResponse ExecuteSuccess (configFileGroup2Api Time2String <$> updatedGroup))
      end
  end.

(** ** Creating and changing files ([config_file.go]) *)

Definition prepareCreateConfigFile (user uuid : string) (configFile : PbConfigFile) : handler PbConfigFile :=
  let configFile := if decide (GetValue (pfFormat configFile) = "") then set_Format configFile (Some "text") else configFile in
  match checkConfigFileParams configFile with
  | Some code => refuse_with code configFile
  | None =>
      let configFile := set_By configFile (Some user) (Some user) in
      createGroupRsp ← attempt (createConfigFileGroupIfAbsent user uuid
        (mkPbGroup None (pfGroup configFile) (pfNamespace configFile) (Some "auto created") None (pfCreateBy configFile) None None None));
      if decide (coCode (told createGroupRsp) = ExecuteSuccess) then mret configFile
      else refuse_with (coCode (told createGroupRsp)) configFile
  end.

Definition wants_encryption (configFile : PbConfigFile) : bool :=
  GetBool (pfIsEncrypted configFile) && bool_decide (GetValue (pfEncryptAlgo configFile) <> "").

Definition CreateConfigFile (tx : bool) (user uuid : string) (rand : option (list Z)) (configFile : PbConfigFile) : handler ConfigResponse :=
  configFile ← prepareCreateConfigFile user uuid configFile;
  managedFile ← or_answer (GetConfigFile tx (GetValue (pfNamespace configFile)) (GetValue (pfGroup configFile)) (GetValue (pfName configFile)))
    (NewConfigFileResponse StoreLayerException (Some configFile));
  match managedFile with
  | Some _ => refuse_with ExistedResource configFile
  | None =>
      let encrypted := wants_encryption configFile in
      configFile ← (
        if encrypted then
          or_decrypt_refuse (encryptConfigFile rand configFile (GetValue (pfEncryptAlgo configFile)) "")
            (NewConfigFileResponse EncryptConfigFileException (Some configFile))
        else mret configFile);
      let fileStoreModel := transferConfigFileAPIModel2StoreModel configFile in
      let fileStoreModel := set_cfModifyBy fileStoreModel (cfCreateBy fileStoreModel) in
      createdFile ← or_answer (ConfigStore.CreateConfigFile tx fileStoreModel) (NewConfigFileResponse StoreLayerException (Some configFile));
      _ ← createOrUpdateConfigFileTags tx configFile (cfModifyBy fileStoreModel);
      _ ← record_config (GetValue (pfName configFile)) (GetValue (pfNamespace configFile)) OCreate;
      match createdFile with
      | None => mret (NewConfigFileResponse ExecuteSuccess None)
      | Some createdFile =>
          let retConfigFile := transferConfigFileStoreModel2APIModel Time2String createdFile in
          retConfigFile ← (
            if encrypted then
              or_decrypt_refuse (decryptConfigFile user retConfigFile) (NewConfigFileResponse DecryptConfigFileException (Some retConfigFile))
            else mret retConfigFile);
          mret (NewConfigFileResponse ExecuteSuccess (Some retConfigFile))
      end
  end.

Definition UpdateConfigFile (tx : bool) (user : string) (rand : option (list Z)) (configFile : PbConfigFile) : handler ConfigResponse :=
  match checkConfigFileParams configFile with
  | Some code => refuse_with code configFile
  | None =>
      let namespace := GetValue (pfNamespace configFile) in
      let group := GetValue (pfGroup configFile) in
      let name := GetValue (pfName configFile) in
      managedFile ← or_answer (GetConfigFile tx namespace group name) (NewConfigFileResponse StoreLayerException (Some configFile));
      match managedFile with
      | None => refuse_with NotFoundResource configFile
      | Some managedFile =>
          let configFile := set_By configFile (pfCreateBy configFile) (Some user) in
          '(algorithm, dataKey) ← or_decrypt_refuse (getEncryptAlgorithmAndDataKey namespace group name)
            (NewConfigFileResponse StoreLayerException (Some configFile));
          configFile ← (
            if decide (dataKey <> "" /\ algorithm <> "") then
              or_decrypt_refuse (encryptConfigFile rand configFile algorithm dataKey)
                (NewConfigFileResponse EncryptConfigFileException (Some configFile))
            else mret configFile);
          let toUpdateFile := transferConfigFileAPIModel2StoreModel configFile in
          let toUpdateFile := set_cfModifyBy toUpdateFile (GetValue (pfModifyBy configFile)) in
          let toUpdateFile :=
            if decide (GetValue (pfFormat configFile) = "") then set_cfFormat toUpdateFile (cfFormat managedFile) else toUpdateFile in
          updatedFile ← or_answer (ConfigStore.UpdateConfigFile tx toUpdateFile) (NewConfigFileResponse StoreLayerException (Some configFile));
          _ ← createOrUpdateConfigFileTags tx configFile (cfModifyBy toUpdateFile);
          updatedFile ← deref updatedFile;
          baseFile ← or_decrypt_refuse (fillReleaseAndTags (transferConfigFileStoreModel2APIModel Time2String updatedFile))
            (NewConfigFileResponse StoreLayerException (Some configFile));
          baseFile ← or_decrypt_refuse (decryptConfigFile user baseFile) (NewConfigFileResponse DecryptConfigFileException (Some configFile));
          _ ← record_config (GetValue (pfName configFile)) (GetValue (pfNamespace configFile)) OUpdate;
          mret (NewConfigFileResponse ExecuteSuccess (Some baseFile))
      end
  end.

(** ** Releases ([config_file_release.go], [config_file_release_history.go]) *)

(** A record that cannot be written is not missed. *)
Definition recordReleaseHistory (tx : bool) (user : string) (fileRelease : ConfigFileRelease) (releaseType status : string) : handler unit :=
  let namespace := crNamespace fileRelease in
  let group := crGroup fileRelease in
  let fileName := crFileName fileRelease in
  configFileResponse ← attempt (GetConfigFileBaseInfo tx user namespace group fileName);
  let format := match coFile (told configFileResponse) with Some file => GetValue (pfFormat file) | None => "" end in
  tags ← attempt (on_storage (queryTagsByConfigFileWithAPIModels namespace group fileName));
  let tags := match tags with Okay tags => tags | Fail _ => [] end in
  let filterTags := filter (fun t => GetValue (ptKey t) <> ConfigFileTagKeyDataKey) tags in
  _ ← attempt (on_storage (CreateConfigFileReleaseHistory tx
    (mkHistory 0 (crName fileRelease) namespace group fileName format (ToTagJsonStr filterTags) (crContent fileRelease) (crComment fileRelease)
       (crMd5 fileRelease) releaseType status 0 (crModifyBy fileRelease) 0 (crModifyBy fileRelease) false)));
  mret ().

Definition recordReleaseFail (tx : bool) (user : string) (configFileRelease : ConfigFileRelease) : handler unit :=
  recordReleaseHistory tx user configFileRelease ReleaseTypeNormal ReleaseStatusFail.

(** [checkNamespaceExisted]: an error counts as "there is none". *)
Definition checkNamespaceExisted (namespaceName : string) : handler bool :=
  namespace ← attempt (on_storage (on_base (bolt_GetNamespace namespaceName)));
  mret (match namespace with Okay (Some _) => true | _ => false end).

(** A step of a publication: its failure is recorded. *)
Definition or_record_fail {A} (tx : bool) (user : string) (configFileRelease : PbRelease) (m : call config_store StatusCode A) : handler A :=
  r ← attempt (on_storage m);
  match r with
  | Okay a => mret a
  | Fail _ =>
      _ ← recordReleaseFail tx user (transferConfigFileReleaseAPIModel2StoreModel configFileRelease);
      refuse StoreLayerException
  end.

Definition PublishConfigFile (tx : bool) (user : string) (configFileRelease : PbRelease) : handler ConfigResponse :=
  let namespace := GetValue (prNamespace configFileRelease) in
  let group := GetValue (prGroup configFileRelease) in
  let fileName := GetValue (prFileName configFileRelease) in
  match check_triple namespace group fileName with
  | Some code => refuse code
  | None =>
      existed ← checkNamespaceExisted namespace;
      if negb existed then raise (NewConfigFileReleaseResponse NotFoundNamespace (Some configFileRelease))
      else
        let configFileRelease := set_ReleaseBy configFileRelease (Some user) (Some user) in
        toPublishFile ← or_record_fail tx user configFileRelease (GetConfigFile tx namespace group fileName);
        match toPublishFile with
        | None => refuse NotFoundResource
        | Some toPublishFile =>
            let md5 := CalMd5 (cfContent toPublishFile) in
            managedFileRelease ← or_record_fail tx user configFileRelease (GetConfigFileReleaseWithAllFlag tx namespace group fileName);
            let releaseName :=
              if decide (GetValue (prName configFileRelease) = "") then
                GenReleaseName (match managedFileRelease with Some r => crName r | None => "" end) fileName
              else GetValue (prName configFileRelease) in
            match managedFileRelease with
            | None =>
                let fileRelease := mkRelease 0 releaseName namespace group fileName (cfContent toPublishFile)
                  (GetValue (prComment configFileRelease)) md5 1 0 0 user 0 user false in
                createdFileRelease ← or_record_fail tx user configFileRelease (CreateConfigFileRelease tx fileRelease);
                _ ← record_config (GetValue (prName configFileRelease)) namespace OCreate;
                createdFileRelease ← deref createdFileRelease;
                _ ← recordReleaseHistory tx user createdFileRelease ReleaseTypeNormal ReleaseStatusSuccess;
                mret (NewConfigFileReleaseResponse ExecuteSuccess (Some (configFileRelease2Api Time2String createdFileRelease)))
            | Some managedFileRelease =>
                let fileRelease := mkRelease 0 releaseName namespace group fileName (cfContent toPublishFile)
                  (GetValue (prComment configFileRelease)) md5 (wrap_u 64 (crVersion managedFileRelease + 1)) 0 0 "" 0 user false in
                updatedFileRelease ← or_record_fail tx user configFileRelease (UpdateConfigFileRelease tx fileRelease);
                updatedFileRelease ← deref updatedFileRelease;
                _ ← recordReleaseHistory tx user updatedFileRelease ReleaseTypeNormal ReleaseStatusSuccess;
                _ ← record_config (GetValue (prName configFileRelease)) namespace OCreate;
                mret (NewConfigFileReleaseResponse ExecuteSuccess (Some (configFileRelease2Api Time2String updatedFileRelease)))
            end
        end
  end.

Definition GetConfigFileRelease (tx : bool) (user namespace group fileName : string) : handler ConfigResponse :=
  match check_triple namespace group fileName with
  | Some code => refuse code
  | None =>
      fileRelease ← or_refuse (ConfigStore.GetConfigFileRelease tx namespace group fileName) StoreLayerException;
      match fileRelease with
      | None => mret (NewConfigFileReleaseResponse ExecuteSuccess None)
      | Some fileRelease =>
          release ← or_decrypt_refuse (decryptConfigFileRelease user (configFileRelease2Api Time2String fileRelease))
            (NewConfigFileResponse DecryptConfigFileException None);
          mret (NewConfigFileReleaseResponse ExecuteSuccess (Some release))
      end
  end.

Definition DeleteConfigFileRelease (tx : bool) (user namespace group fileName deleteBy : string) : handler ConfigResponse :=
  match check_triple namespace group fileName with
  | Some code => refuse code
  | None =>
      latestReleaseRsp ← attempt (GetConfigFileRelease tx user namespace group fileName);
      let latestReleaseRsp := told latestReleaseRsp in
      if decide (coCode latestReleaseRsp <> ExecuteSuccess) then refuse (coCode latestReleaseRsp)
      else
        match coRelease latestReleaseRsp with
        | None => mret (NewConfigFileResponse ExecuteSuccess None)
        | Some latestRelease =>
            let releaseName := GenReleaseName (GetValue (prName latestRelease)) fileName in
            _ ← (
              if decide (releaseName <> GetValue (prName latestRelease)) then
                _ ← or_refuse (UpdateConfigFileRelease tx
                      (set_crName (transferConfigFileReleaseAPIModel2StoreModel latestRelease) releaseName)) StoreLayerException;
                mret ()
              else mret ());
            let data := mkRelease 0 releaseName namespace group fileName "" "" "" 0 0 0 "" 0 deleteBy false in
            err ← attempt (on_storage (ConfigStore.DeleteConfigFileRelease tx namespace group fileName deleteBy));
            match err with
            | Fail _ =>
                _ ← recordReleaseHistory tx user data ReleaseTypeDelete ReleaseStatusFail;
                refuse StoreLayerException
            | Okay _ =>
                _ ← recordReleaseHistory tx user data ReleaseTypeDelete ReleaseStatusSuccess;
                _ ← record_config releaseName namespace ODelete;
                mret (NewConfigFileReleaseResponse ExecuteSuccess None)
            end
        end
  end.

(** ** Deleting files *)

(** [defer func() { _ = tx.Rollback() }()]; [tx] is nil when it could not be
    started, and what was written until then, without it, stays. *)
Definition rolling_back {A} (started : bool) (m : call Server (ConfigResponse + panic) A) : call Server (ConfigResponse + panic) A := fun s =>
  match m s with
  | Ret (s, r) =>
      if started then Ret (mkServer (set_pending (storage s) None) (published s) (history s), r)
      else Ret (s, Fail (inr NilDereference))
  | Panics why => Panics why
  end.

(** The release, the file and its tags. *)
Definition deleteFileSteps (tx : bool) (user namespace group name deleteBy : string) : handler unit :=
  deleteFileReleaseRsp ← attempt (DeleteConfigFileRelease tx user namespace group name deleteBy);
  if decide (coCode (told deleteFileReleaseRsp) <> ExecuteSuccess) then refuse (coCode (told deleteFileReleaseRsp))
  else
    _ ← or_refuse (ConfigStore.DeleteConfigFile tx namespace group name) StoreLayerException;
    or_refuse (DeleteTagByConfigFile range tx namespace group name) StoreLayerException.

(** The error of [StartTx] is dropped: without a transaction each step is one of
    its own, and the nil one is committed and rolled back. *)
Definition DeleteConfigFile (user namespace group name deleteBy : string) : call Server (ConfigResponse + panic) ConfigResponse :=
  if CheckSourceName (Some namespace) then landing (refuse InvalidNamespaceName)
  else if CheckSourceName (Some group) then landing (refuse InvalidConfigFileGroupName)
  else if CheckFileName (Some name) then landing (refuse InvalidConfigFileName)
  else
    file ← landing (or_refuse (GetConfigFile false namespace group name) StoreLayerException);
    match file with
    | None => mret (NewConfigFileResponse ExecuteSuccess None)
    | Some _ =>
        started ← attempt (on_storage StartTx);
        let tx := match started with Okay _ => true | Fail _ => false end in
        rolling_back tx (
          let deleteBy := if decide (deleteBy = "") then user else deleteBy in
          _ ← landing (deleteFileSteps tx user namespace group name deleteBy);
          _ ← (if tx then landing (or_refuse Commit StoreLayerException) else crash NilDereference);
          _ ← landing (record_config name namespace ODelete);
          mret (NewConfigFileResponse ExecuteSuccess None))
    end.

(** The response, unless there is none. *)
Definition reply (r : result (ConfigResponse + panic) ConfigResponse) : outcome ConfigResponse := told <$> settle r.

Fixpoint BatchDeleteConfigFile (user : string) (configFiles : list PbConfigFile) (operator : string)
    : call Server (ConfigResponse + panic) ConfigResponse :=
  match configFiles with
  | [] => mret (NewConfigFileResponse ExecuteSuccess None)
  | configFile :: configFiles =>
      rsp ← attempt (DeleteConfigFile user (GetValue (pfNamespace configFile)) (GetValue (pfGroup configFile)) (GetValue (pfName configFile)) operator);
      match reply rsp with
      | Panics why => crash why
      | Ret rsp => if decide (coCode rsp <> ExecuteSuccess) then landing (raise rsp) else BatchDeleteConfigFile user configFiles operator
      end
  end.

(** The loop of [DeleteConfigFileGroup], one page of files after the other. *)
Fixpoint deleteGroupFiles (fuel : nat) (user namespace name : string) (startOffset : Z) : call Server (ConfigResponse + panic) unit :=
  match fuel with
  | O => panics Deadlock
  | S fuel =>
      queryRsp ← landing (orelse (QueryConfigFilesByGroup user namespace name startOffset MaxPageSize) (fun code => NewConfigFileGroupResponse code None));
      deleteRsp ← attempt (BatchDeleteConfigFile user queryRsp.2 user);
      match reply deleteRsp with
      | Panics why => crash why
      | Ret deleteRsp =>
          if decide (coCode deleteRsp <> ExecuteSuccess) then landing (raise (NewConfigFileGroupResponse (coCode deleteRsp) None))
          else if decide (MaxPageSize <= Z.of_nat (length queryRsp.2)) then deleteGroupFiles fuel user namespace name (wrap_u 32 (startOffset + MaxPageSize))
          else mret ()
      end
  end.

Definition DeleteConfigFileGroup (fuel : nat) (user namespace name : string) : call Server (ConfigResponse + panic) ConfigResponse :=
  if CheckSourceName (Some namespace) then landing (raise (NewConfigFileGroupResponse InvalidNamespaceName None))
  else if CheckSourceName (Some name) then landing (raise (NewConfigFileGroupResponse InvalidConfigFileGroupName None))
  else
    _ ← deleteGroupFiles fuel user namespace name 0;
    landing (
      configGroup ← or_answer (GetConfigFileGroup namespace name) (NewConfigFileGroupResponse StoreLayerException None);
      match configGroup with
      | None => raise (NewConfigFileGroupResponse NotFoundResource None)
      | Some configGroup =>
          _ ← or_answer (ConfigStore.DeleteConfigFileGroup namespace name) (NewConfigFileGroupResponse StoreLayerException None);
          _ ← or_decrypt_refuse (afterConfigGroupResource (mkPbGroup (Some (cgId configGroup)) (Some (cgName configGroup))
                (Some (cgNamespace configGroup)) None None None None None None)) (NewConfigFileGroupResponse ExecuteException None);
          _ ← record_config name namespace ODelete;
          mret (NewConfigFileGroupResponse ExecuteSuccess None)
      end).

End server.
