(* ===== verification/ConfigPublish.v ===== *)
(** * What publishing and deleting configuration files does ([src/config])

    The handlers of [ConfigServer.v] on the store of [ConfigStore.v], proved for
    every behaviour of its transactions: what a publication releases, that a
    deletion is all or nothing, and that a release never changes under its
    version, whatever clients do. *)

From S2P Require Import Prelude Effects GoStrings Hash Utils Registry Services Namespace InstanceStore ServiceStore BoltStore Api NamespaceServer.
From S2P Require Import BoltServices Cipher Token ConfigFiles ConfigStore ConfigServer.
From Stdlib Require Import ZArith Lia.
From stdpp Require Import base tactics list gmap strings relations.

Open Scope Z_scope.

Section server.
  Context `{!InstanceStorage bolt, !ServiceStorage bolt}.
  Context (Time2String : Z -> string) (range : forall A, gmap string A -> list (string * A)).
  Context (recording : bool).
  Context (cryptoManager : option (string -> option Crypto)).
  Context (allowAutoCreate : bool) (cached : string -> bool).
  Context (afterNamespaceResource : PbNamespace -> NamespaceModel -> bool -> call bolt unit unit).
  Context (afterConfigGroupResource : PbGroup -> call config_store unit unit).

#[local] Abbreviation Server := (@Api.Server config_store).
#[local] Abbreviation handler := (call Server ConfigResponse).
#[local] Abbreviation GetConfigFileBaseInfo := (GetConfigFileBaseInfo Time2String range cryptoManager).
#[local] Abbreviation recordReleaseHistory := (recordReleaseHistory Time2String range cryptoManager).
#[local] Abbreviation or_record_fail := (or_record_fail Time2String range cryptoManager).
#[local] Abbreviation PublishConfigFile := (PublishConfigFile Time2String range recording cryptoManager).
#[local] Abbreviation GetConfigFileRelease := (ConfigServer.GetConfigFileRelease Time2String range cryptoManager).
#[local] Abbreviation DeleteConfigFileRelease := (ConfigServer.DeleteConfigFileRelease Time2String range recording cryptoManager).
#[local] Abbreviation DeleteConfigFile := (ConfigServer.DeleteConfigFile Time2String range recording cryptoManager).
#[local] Abbreviation deleteFileSteps := (deleteFileSteps Time2String range recording cryptoManager).
#[local] Abbreviation queryTagsByConfigFileWithAPIModels := (queryTagsByConfigFileWithAPIModels range).
#[local] Abbreviation getEncryptAlgorithmAndDataKey := (getEncryptAlgorithmAndDataKey range).
#[local] Abbreviation decryptConfigFile := (decryptConfigFile range cryptoManager).
#[local] Abbreviation decryptConfigFileRelease := (decryptConfigFileRelease range cryptoManager).
#[local] Abbreviation record_config := (record_config recording).

(** ** How the handlers end

    They may panic only where the plugin that decrypts does. *)

Definition plugin_panic (why : panic) : Prop :=
  exists GetCrypto algorithm c text key, cryptoManager = Some GetCrypto /\ GetCrypto algorithm = Some c /\ Decrypt c text key = Panics why.

Section laws.
  Context (P : panic -> Prop) (plugin_ok : forall why, plugin_panic why -> P why).

Lemma runs_storage {E A} (m : call config_store E A) s (Q : Server -> result E A -> Prop) :
  runs P m (storage s) (fun w' r => Q (swap s w') r) -> runs P (on_storage m) s Q.
Proof. unfold runs, on_storage. by destruct (m (storage s)) as [[w' r]|why]. Qed.

Lemma runs_or_answer {A} (m : call config_store StatusCode A) resp s (Q : Server -> result ConfigResponse A -> Prop) :
  runs P m (storage s) (fun w' r => match r with Okay a => Q (swap s w') (Okay a) | Fail _ => Q (swap s w') (Fail resp) end) ->
  runs P (or_answer m resp) s Q.
Proof.
  intros Hm. apply runs_orelse, runs_storage. eapply runs_weaken; [exact Hm|]. by intros w' [a|e].
Qed.

Lemma runs_or_decrypt {A} (m : call config_store unit A) resp s (Q : Server -> result ConfigResponse A -> Prop) :
  runs P m (storage s) (fun w' r => match r with Okay a => Q (swap s w') (Okay a) | Fail _ => Q (swap s w') (Fail resp) end) ->
  runs P (or_decrypt_refuse m resp) s Q.
Proof. intros Hm. apply runs_orelse, runs_storage. eapply runs_weaken; [exact Hm|]. by intros w' [a|e]. Qed.

Lemma runs_record {E} name namespace op s (Q : Server -> result E unit -> Prop) :
  (forall h, Q (mkServer (storage s) (published s) h) (Okay ())) -> runs P (RecordHistory recording (mkEntry name namespace op)) s Q.
Proof. intros HQ. unfold RecordHistory. destruct recording; [apply runs_modify, HQ|apply runs_ret]. destruct s. apply HQ. Qed.

(** *** Calls that only read *)

Definition reading {E A} (tx : bool) (m : call config_store E A) : Prop :=
  forall w t (Q : config_store -> result E A -> Prop), current tx w = Some t -> (forall w' r, quiet w w' -> Q w' r) -> runs P m w Q.

Lemma reading_ret {E A} tx (a : A) : reading (E := E) tx (mret a).
Proof. intros w t Q _ HQ. by apply runs_ret, HQ. Qed.
Lemma reading_raise {E A} tx (e : E) : reading (A := A) tx (raise e).
Proof. intros w t Q _ HQ. by apply runs_raise, HQ. Qed.
Lemma reading_bind {E A B} tx (m : call config_store E A) (k : A -> call config_store E B) :
  reading tx m -> (forall a, reading tx (k a)) -> reading tx (m ≫= k).
Proof.
  intros Hm Hk w t Q Ht HQ. apply runs_bind. eapply Hm; [done|]. intros w1 [a|e] Hq; [|by apply HQ].
  eapply Hk; [by rewrite (quiet_current tx _ _ Hq)|]. intros w2 r Hq2. apply HQ. by rewrite Hq.
Qed.
Lemma reading_orelse {E E' A} tx (m : call config_store E' A) (f : E' -> E) : reading tx m -> reading tx (orelse m f).
Proof. intros Hm w t Q Ht HQ. apply runs_orelse. eapply Hm; [done|]. intros w' r Hq. by apply HQ. Qed.
Lemma reading_view {A} tx (f : tables -> A) : reading tx (view f).
Proof. intros w t Q _ HQ. apply runs_view; intros; by apply HQ. Qed.
Lemma reading_plugged {A} tx (o : outcome (result crypto_error A)) : (forall why, o = Panics why -> P why) -> reading tx (plugged o).
Proof. intros Ho w t Q _ HQ. unfold runs, plugged. destruct o as [[a|e]|why]; [by apply HQ..|by apply Ho]. Qed.
Lemma reading_expect {A B} tx (o : option A) (k : A -> call config_store unit B) :
  (forall a, o = Some a -> reading tx (k a)) -> reading tx (expect o ≫= k).
Proof. intros Hk. destruct o as [a|]; [by apply (Hk a)|]. intros w t Q _ HQ. by apply runs_bind, runs_raise, HQ. Qed.

Lemma reading_tags tx namespace group fileName : reading tx (queryTagsByConfigFileWithAPIModels namespace group fileName).
Proof. apply reading_bind; [|intros; apply reading_ret]. apply reading_bind; [apply reading_view|intros; apply reading_ret]. Qed.

Lemma reading_key tx namespace group fileName : reading tx (getEncryptAlgorithmAndDataKey namespace group fileName).
Proof. apply reading_bind; [apply reading_orelse, reading_tags|intros; apply reading_ret]. Qed.

Lemma reading_decipher tx user createBy content algorithm dataKey GetCrypto :
  cryptoManager = Some GetCrypto -> reading tx (decipher user createBy content algorithm dataKey GetCrypto).
Proof.
  intros Hm. unfold decipher. case_decide; [apply reading_ret|]. apply reading_expect. intros key _. apply reading_expect. intros c Hc.
  apply reading_bind; [|intros; apply reading_ret]. apply reading_plugged. intros why Hw. apply plugin_ok.
  by exists GetCrypto, algorithm, c, (GetValue content), key.
Qed.

Lemma reading_decrypt tx user file : reading tx (decryptConfigFile user file).
Proof.
  unfold decryptConfigFile. destruct cryptoManager as [G|] eqn:Hm; [|apply reading_ret]. apply reading_bind.
  - case_decide; [apply reading_key|apply reading_ret].
  - intros [algorithm key]. apply reading_bind; [by apply reading_decipher|intros; apply reading_ret].
Qed.

Lemma reading_decrypt_release tx user r : reading tx (decryptConfigFileRelease user r).
Proof.
  unfold decryptConfigFileRelease. destruct cryptoManager as [G|] eqn:Hm; [|apply reading_ret]. case_decide; [apply reading_ret|].
  apply reading_bind; [apply reading_key|]. intros [algorithm key].
  apply reading_bind; [by apply reading_decipher|intros; apply reading_ret].
Qed.

(** The rules for the handler of a step. *)
Lemma runs_reading_answer {A} tx (m : call config_store StatusCode A) resp s t (Q : Server -> result ConfigResponse A -> Prop) :
  reading tx m -> current tx (storage s) = Some t ->
  (forall s' r, quiet (storage s) (storage s') -> (forall e, r = Fail e -> e = resp) -> Q s' r) -> runs P (or_answer m resp) s Q.
Proof.
  intros Hm Ht HQ. apply runs_or_answer. eapply Hm; [done|]. intros w' [a|e] Hq; by apply HQ; [|intros ? [= <-]].
Qed.
Lemma runs_reading_decrypt {A} tx (m : call config_store unit A) resp s t (Q : Server -> result ConfigResponse A -> Prop) :
  reading tx m -> current tx (storage s) = Some t ->
  (forall s' r, quiet (storage s) (storage s') -> (forall e, r = Fail e -> e = resp) -> Q s' r) -> runs P (or_decrypt_refuse m resp) s Q.
Proof.
  intros Hm Ht HQ. apply runs_or_decrypt. eapply Hm; [done|]. intros w' [a|e] Hq; by apply HQ; [|intros ? [= <-]].
Qed.

Lemma reading_read {A} tx (f : tables -> A) : reading tx (DoTransactionIfNeed tx (fun _ '(t, c) => Ret (t, c, f t))).
Proof. intros w t Q Ht HQ. eapply runs_read; [done|..]; intros; by apply HQ. Qed.

(** Reading a file, and what else a handler only reads. *)
Definition peeking {A} (tx : bool) (m : handler A) : Prop :=
  forall s t (Q : Server -> result ConfigResponse A -> Prop), current tx (storage s) = Some t ->
    (forall s' r, quiet (storage s) (storage s') -> Q s' r) -> runs P m s Q.

Lemma peeking_bind {A B} tx (m : handler A) (k : A -> handler B) :
  peeking tx m -> (forall a, peeking tx (k a)) -> peeking tx (m ≫= k).
Proof.
  intros Hm Hk s t Q Ht HQ. apply runs_bind. eapply Hm; [done|]. intros s1 [a|e] Hq; [|by apply HQ].
  eapply Hk; [by rewrite (quiet_current tx _ _ Hq)|]. intros s2 r Hq2. apply HQ. by rewrite Hq.
Qed.
Lemma peeking_ret {A} tx (a : A) : peeking tx (mret a).
Proof. intros s t Q _ HQ. by apply runs_ret, HQ. Qed.
Lemma peeking_raise {A} tx resp : peeking (A := A) tx (raise resp).
Proof. intros s t Q _ HQ. by apply runs_raise, HQ. Qed.

Lemma peeking_base_info tx user namespace group name : peeking tx (GetConfigFileBaseInfo tx user namespace group name).
Proof.
  unfold GetConfigFileBaseInfo. repeat (destruct (_ : option check_error); [apply peeking_raise|]). apply peeking_bind.
  { intros s t Q Ht HQ. eapply runs_reading_answer; [apply reading_read|done|]. intros s' r Hq _. by apply HQ. }
  intros [file|]; [|apply peeking_raise]. apply peeking_bind; [|intros; apply peeking_ret].
  intros s t Q Ht HQ. eapply runs_reading_decrypt; [apply reading_decrypt|done|]. intros s' r Hq _. by apply HQ.
Qed.

(** Everything but the history of releases, and ids. *)
Definition same_but_history (t t' : tables) : Prop :=
  tblConfigFile t' = tblConfigFile t /\ tblConfigFileRelease t' = tblConfigFileRelease t /\ tblConfigFileTag t' = tblConfigFileTag t /\
  tblConfigFileGroup t' = tblConfigFileGroup t.

Lemma runs_recordReleaseHistory tx user r releaseType status s t (Q : Server -> result ConfigResponse unit -> Prop) :
  current tx (storage s) = Some t ->
  (forall s' t', moved tx (storage s) (storage s') t' -> same_but_history t t' -> Q s' (Okay ())) ->
  runs P (recordReleaseHistory tx user r releaseType status) s Q.
Proof.
  intros Ht HQ. unfold recordReleaseHistory. apply runs_bind, runs_attempt. eapply peeking_base_info; [done|]. intros s1 r1 Hq1.
  apply runs_bind, runs_attempt, runs_storage.
  eapply reading_tags; [by rewrite (quiet_current tx _ _ Hq1)|]. intros w2 r2 Hq2.
  assert (quiet (storage s) w2) as Hq by (by rewrite Hq1). assert (current tx w2 = Some t) as Ht2 by (by rewrite (quiet_current tx _ _ Hq)).
  apply runs_bind, runs_attempt, runs_storage. eapply runs_txn; [done|..].
  - intros c w3 Hm. apply runs_ret. eapply HQ; [by eapply moved_quiet|]. by split_and!.
  - intros -> w3 e Hq3. apply runs_ret. apply (HQ _ t); [|by split_and!]. apply quiet_moved; [|done]. by rewrite Hq.
Qed.

Lemma runs_namespace_existed namespace s (Q : Server -> result ConfigResponse bool -> Prop) :
  (forall s' b, quiet (storage s) (storage s') -> Q s' (Okay b)) -> runs P (checkNamespaceExisted namespace) s Q.
Proof.
  intros HQ. apply runs_bind, runs_attempt, runs_storage.
  unfold runs, on_base, bolt_GetNamespace, transaction. cbn. destruct (default false (head (faults (base (storage s))))); apply HQ;
    (split_and!; [done..|by eexists]).
Qed.

(** *** Publishing *)

(** Nothing but releases, their history and ids. *)
Definition same_but_releases (t t' : tables) : Prop :=
  tblConfigFile t' = tblConfigFile t /\ tblConfigFileTag t' = tblConfigFileTag t /\ tblConfigFileGroup t' = tblConfigFileGroup t.

Definition next_version (old : option ConfigFileRelease) : Z := match old with None => 1 | Some r => wrap_u 64 (crVersion r + 1) end.

(** The key that a row's names give it. *)
Definition names_key (r : ConfigFileRelease) : string := release_key (crNamespace r) (crGroup r) (crFileName r).

(** [row] is [file] as it is, in a new version. *)
Record released (key : string) (file : ConfigFile) (old : option ConfigFileRelease) (row : ConfigFileRelease) : Prop := {
  released_names : names_key row = from_option names_key key old;
  released_content : crContent row = cfContent file;
  released_md5 : crMd5 row = CalMd5 (cfContent file);
  released_version : crVersion row = next_version old;
  released_valid : crValid row = true /\ crFlag row = 0 }.

(** A failing step leaves a record of the failure. *)
Lemma runs_or_record_fail {A} tx user req (m : call config_store StatusCode A) s (Q : Server -> result ConfigResponse A -> Prop) :
  runs P m (storage s) (fun w' r =>
    match r with
    | Okay a => Q (swap s w') (Okay a)
    | Fail _ => exists t, current tx w' = Some t /\ forall s' t', moved tx w' (storage s') t' -> same_but_history t t' ->
        Q s' (Fail (NewConfigFileResponse StoreLayerException None))
    end) -> runs P (or_record_fail tx user req m) s Q.
Proof.
  intros Hm. apply runs_bind, runs_attempt, runs_storage. eapply runs_weaken; [exact Hm|]. intros w' [a|e]; [done|].
  intros (t & Ht & HQ). apply runs_bind. eapply runs_recordReleaseHistory; [done|]. intros s' t' Hmv Hsame. by eapply runs_raise, HQ.
Qed.

Definition publication (req : PbRelease) (t t' : tables) (resp : ConfigResponse) : Prop :=
  let namespace := GetValue (prNamespace req) in
  let group := GetValue (prGroup req) in
  let fileName := GetValue (prFileName req) in
  let key := release_key namespace group fileName in
  same_but_releases t t' /\
  if decide (coCode resp = ExecuteSuccess) then
    exists file row, getConfigFile t namespace group fileName = Some file /\ released key file (tblConfigFileRelease t !! key) row /\
      tblConfigFileRelease t' = <[key := row]> (tblConfigFileRelease t) /\ coRelease resp = Some (configFileRelease2Api Time2String row)
  else tblConfigFileRelease t' = tblConfigFileRelease t.

Lemma publication_refused req t t' resp :
  coCode resp <> ExecuteSuccess -> same_but_history t t' -> publication req t t' resp.
Proof. intros Hc (H1 & H2 & H3 & H4). split; [done|]. by rewrite decide_False. Qed.

Lemma check_triple_code namespace group fileName code : check_triple namespace group fileName = Some code -> code <> ExecuteSuccess.
Proof. unfold check_triple. intros Hc ->. repeat (destruct (_ : option check_error); [done|]). done. Qed.

Definition published_to (req : PbRelease) (s s' : Server) (r : result ConfigResponse ConfigResponse) : Prop :=
  pending (storage s') = None /\ publication req (committed (storage s)) (committed (storage s')) (told r).

(** A refusal, after nothing but records of it were written. *)
Lemma refused_publication req s s' w t' resp :
  pending (storage s) = None -> quiet (storage s) w -> moved false w (storage s') t' -> same_but_history (committed (storage s)) t' ->
  coCode resp <> ExecuteSuccess -> published_to req s s' (Fail resp).
Proof.
  intros Hp Hq Hm Hsame Hc. destruct (moved_committed _ _ _ Hm) as [<- Hp']. split; [done|]. by apply publication_refused.
Qed.

Lemma quiet_publication req s s' resp :
  pending (storage s) = None -> quiet (storage s) (storage s') -> coCode resp <> ExecuteSuccess -> published_to req s s' (Fail resp).
Proof.
  intros Hp Hq Hc. eapply (refused_publication req s s' (storage s) (committed (storage s))); [done..| | |done]; [|by split_and!].
  apply quiet_moved; [done|by apply current_idle].
Qed.

(** A step that only reads, or fails with a record of it. *)
Lemma runs_publication_read {A} user req creq (f : tables -> A) s s1 (Q : Server -> result ConfigResponse A -> Prop) :
  pending (storage s) = None -> quiet (storage s) (storage s1) ->
  (forall s2, quiet (storage s) (storage s2) -> Q s2 (Okay (f (committed (storage s))))) ->
  (forall s2 resp, published_to req s s2 (Fail resp) -> Q s2 (Fail resp)) ->
  runs P (or_record_fail false user creq (DoTransactionIfNeed false (fun _ '(t, c) => Ret (t, c, f t)))) s1 Q.
Proof.
  intros Hp Hq HO HF. assert (current false (storage s1) = Some (committed (storage s))) as Ht.
  { rewrite (quiet_current false _ _ Hq). by apply current_idle. }
  apply runs_or_record_fail. eapply runs_read; [done|..].
  - intros w' Hq'. apply HO. by rewrite Hq.
  - intros _ w' e Hq'. exists (committed (storage s)). split; [by rewrite (quiet_current false _ _ Hq')|].
    intros s' t' Hm Hsame. apply HF. by apply (refused_publication req s s' w' t'); [|rewrite Hq|..].
Qed.

(** The version goes to the store, or its failure is recorded; then it is recorded
    in the history. *)
Lemma runs_publication_write user req creq (h : txn (option ConfigFileRelease)) s s1 file row
    (Q : Server -> result ConfigResponse (option ConfigFileRelease) -> Prop) :
  let t := committed (storage s) in
  let key := release_key (GetValue (prNamespace req)) (GetValue (prGroup req)) (GetValue (prFileName req)) in
  pending (storage s) = None -> quiet (storage s) (storage s1) ->
  (forall c, exists t' c', h (now (storage s1)) (t, c) = Ret (t', c', Some (row c)) /\ same_but_releases t t' /\
     released key file (tblConfigFileRelease t !! key) (row c) /\ tblConfigFileRelease t' = <[key := row c]> (tblConfigFileRelease t)) ->
  (forall s2 c, pending (storage s2) = None -> same_but_releases t (committed (storage s2)) ->
     released key file (tblConfigFileRelease t !! key) (row c) ->
     tblConfigFileRelease (committed (storage s2)) = <[key := row c]> (tblConfigFileRelease t) -> Q s2 (Okay (Some (row c)))) ->
  (forall s2 resp, published_to req s s2 (Fail resp) -> Q s2 (Fail resp)) ->
  runs P (or_record_fail false user creq (DoTransactionIfNeed false h)) s1 Q.
Proof.
  intros t key Hp Hq Hh HO HF. assert (current false (storage s1) = Some t) as Ht.
  { rewrite (quiet_current false _ _ Hq). by apply current_idle. }
  apply runs_or_record_fail. eapply runs_txn; [done|..].
  - intros c. destruct (Hh c) as (t' & c' & -> & Hsame & Hr & Hins). intros w' Hm. destruct (moved_committed _ _ _ Hm) as [<- Hp'].
    by apply HO.
  - intros _ w' e Hq'. exists t. split; [by rewrite (quiet_current false _ _ Hq')|].
    intros s' t' Hm Hsame. apply HF. by apply (refused_publication req s s' w' t'); [|rewrite Hq|..].
Qed.

(** What follows the write. *)
Lemma runs_published req user name namespace s s2 file row :
  let t := committed (storage s) in
  let key := release_key (GetValue (prNamespace req)) (GetValue (prGroup req)) (GetValue (prFileName req)) in
  getConfigFile t (GetValue (prNamespace req)) (GetValue (prGroup req)) (GetValue (prFileName req)) = Some file ->
  pending (storage s2) = None -> same_but_releases t (committed (storage s2)) -> released key file (tblConfigFileRelease t !! key) row ->
  tblConfigFileRelease (committed (storage s2)) = <[key := row]> (tblConfigFileRelease t) ->
  runs P (_ ← recordReleaseHistory false user row ReleaseTypeNormal ReleaseStatusSuccess;
          _ ← record_config name namespace OCreate;
          mret (NewConfigFileReleaseResponse ExecuteSuccess (Some (configFileRelease2Api Time2String row)))) s2 (published_to req s) /\
  runs P (_ ← record_config name namespace OCreate;
          row ← deref (Some row);
          _ ← recordReleaseHistory false user row ReleaseTypeNormal ReleaseStatusSuccess;
          mret (NewConfigFileReleaseResponse ExecuteSuccess (Some (configFileRelease2Api Time2String row)))) s2 (published_to req s).
Proof.
  intros t key Hf Hp (Hs1 & Hs2 & Hs3) Hr Hins. subst t key.
  assert (forall s3 s4 t4, storage s3 = storage s2 -> moved false (storage s3) (storage s4) t4 ->
    same_but_history (committed (storage s2)) t4 ->
    published_to req s s4 (Okay (NewConfigFileReleaseResponse ExecuteSuccess (Some (configFileRelease2Api Time2String row))))) as Hend.
  { intros s3 s4 t4 Heq Hm (H1 & H2 & H3 & H4). destruct (moved_committed _ _ _ Hm) as [<- Hp4]. split; [done|].
    split; [split_and!; congruence|]. rewrite decide_True by done. exists file, row. split_and!; [done..|by rewrite H2|done]. }
  pose proof (current_idle _ Hp) as Hc. split.
  - apply runs_bind. eapply runs_recordReleaseHistory; [done|]. intros s3 t3 Hm Hsame.
    apply runs_bind, runs_record. intros h. apply runs_ret. by eapply (Hend s2).
  - apply runs_bind, runs_record. intros h. apply runs_bind, (runs_deref _ _ row); [done|].
    apply runs_bind. eapply runs_recordReleaseHistory; [done|]. intros s3 t3 Hm Hsame. apply runs_ret. by eapply (Hend s2).
Qed.

Lemma alter_some {A} (f : A -> A) k (m : gmap string A) x : m !! k = Some x -> alter f k m = <[k := f x]> m.
Proof.
  intros Hx. apply map_eq. intros j. destruct (decide (k = j)) as [<-|Hj]; [by rewrite lookup_alter_eq, lookup_insert_eq, Hx|].
  by rewrite lookup_alter_ne, lookup_insert_ne.
Qed.

Lemma getConfigFileReleaseByFlag_all t namespace group fileName :
  getConfigFileReleaseByFlag t namespace group fileName true = tblConfigFileRelease t !! release_key namespace group fileName.
Proof. unfold getConfigFileReleaseByFlag. by destruct (_ !! _). Qed.

Lemma PublishConfigFile_spec user req s :
  pending (storage s) = None -> runs P (PublishConfigFile false user req) s (published_to req s).
Proof.
  intros Hp. unfold PublishConfigFile. destruct (check_triple _ _ _) as [code|] eqn:Hc.
  { apply runs_raise, quiet_publication; [done..|]. by eapply check_triple_code. }
  apply runs_bind, runs_namespace_existed. intros s1 [] Hq1; [|by apply runs_raise, quiet_publication]. cbn [negb].
  apply runs_bind, (runs_publication_read _ req _ _ s); [done..| |by intros]. intros s2 Hq2.
  destruct (getConfigFile _ _ _ _) as [file|] eqn:Hf; [|by apply runs_raise, quiet_publication].
  apply runs_bind, (runs_publication_read _ req _ _ s); [done..| |by intros]. intros s3 Hq3.
  rewrite !getConfigFileReleaseByFlag_all.
  destruct (tblConfigFileRelease _ !! _) as [old|] eqn:Hrow; apply runs_bind.
  - eapply (runs_publication_write _ req _ _ s s3 file (fun _ => changeRelease _ (now (storage s3)) old)); [done..| | |by intros].
    + intros c. eexists _, c. split.
      * f_equal. f_equal. rewrite (alter_some _ _ _ old) by done. unfold getConfigFileReleaseByFlag. cbn. by rewrite lookup_insert_eq.
      * split; [by split_and!|]. rewrite Hrow. split; [by split|]. cbn. by rewrite (alter_some _ _ _ old).
    + intros s4 _ Hp4 Hsame Hr Hins. apply runs_bind. eapply runs_deref; [done|]. by eapply (runs_published req user _ _ s s4 file).
  - eapply (runs_publication_write _ req _ _ s s3 file (fun c => stampRelease _ (next_id (releaseId c)) (now (storage s3)))); [done..| | |by intros].
    + intros c. eexists _, _. split.
      * f_equal. f_equal. unfold getConfigFileReleaseByFlag. cbn. by rewrite lookup_insert_eq.
      * split; [by split_and!|]. rewrite Hrow. by split; [split|].
    + intros s4 c Hp4 Hsame Hr Hins. by eapply (runs_published req user _ _ s s4 file).
Qed.

(** *** Deleting *)

(** Rows are where their names say. *)
Record keyed (t : tables) : Prop := {
  keyed_releases : forall k r, tblConfigFileRelease t !! k = Some r -> k = names_key r;
  keyed_tags : forall k g, tblConfigFileTag t !! k = Some g ->
    k = tag_key (ctKey g) (ctValue g) (ctNamespace g) (ctGroup g) (ctFileName g) }.

(** The release of a file is withdrawn, in a version of its own. *)
Definition withdrawn (namespace group fileName : string) (t t' : tables) : Prop :=
  same_but_releases t t' /\
  match getConfigFileReleaseByFlag t namespace group fileName false with
  | None => tblConfigFileRelease t' = tblConfigFileRelease t
  | Some old =>
      exists row, tblConfigFileRelease t' = <[release_key namespace group fileName := row]> (tblConfigFileRelease t) /\
        names_key row = names_key old /\ crVersion row = wrap_u 64 (crVersion old + 1) /\ crValid row = false /\ crMd5 row = "" /\
        crFlag row = 1
  end.

Lemma getConfigFileReleaseByFlag_valid t namespace group fileName r :
  getConfigFileReleaseByFlag t namespace group fileName false = Some r <->
  tblConfigFileRelease t !! release_key namespace group fileName = Some r /\ crValid r = true.
Proof.
  unfold getConfigFileReleaseByFlag. destruct (_ !! _) as [x|]; cbn; [|split; [done|by intros [? _]]].
  destruct (crValid x) eqn:Hv; cbn; split; [intros [= <-]|intros [[= ->] _]|..]; try done. intros [[= ->] ?]. congruence.
Qed.

Lemma runs_decrypt_release tx user x w t (Q : config_store -> result unit PbRelease -> Prop) :
  current tx w = Some t -> (forall w' c, quiet w w' -> Q w' (Okay (set_ReleaseContent x c))) -> (forall w' e, quiet w w' -> Q w' (Fail e)) ->
  runs P (decryptConfigFileRelease user x) w Q.
Proof.
  intros Ht HO HF. assert (x = set_ReleaseContent x (prContent x)) as Hx by (by destruct x).
  unfold decryptConfigFileRelease. destruct cryptoManager as [G|] eqn:Hm; [|apply runs_ret; rewrite Hx; by apply HO].
  case_decide; [apply runs_ret; rewrite Hx; by apply HO|]. apply runs_bind. eapply reading_key; [done|].
  intros w1 [[algorithm key]|e] Hq1; [|by apply HF]. apply runs_bind.
  eapply reading_decipher; [done|by rewrite (quiet_current tx _ _ Hq1)|]. intros w2 [c|e] Hq2; [|apply HF; by rewrite Hq1].
  apply runs_ret, HO. by rewrite Hq1.
Qed.

Lemma reading_release tx user namespace group fileName s t :
  check_triple namespace group fileName = None -> current tx (storage s) = Some t ->
  runs P (GetConfigFileRelease tx user namespace group fileName) s (fun s' r => quiet (storage s) (storage s') /\
    match r with
    | Okay resp => coCode resp = ExecuteSuccess /\
        match getConfigFileReleaseByFlag t namespace group fileName false with
        | None => coRelease resp = None
        | Some old => exists c, coRelease resp = Some (set_ReleaseContent (configFileRelease2Api Time2String old) c)
        end
    | Fail resp => coCode resp <> ExecuteSuccess
    end).
Proof.
  intros Hc Ht. unfold GetConfigFileRelease. rewrite Hc. apply runs_bind, runs_or_answer. eapply runs_read; [done|..]; [|by intros].
  intros w' Hq. destruct (getConfigFileReleaseByFlag _ _ _ _ _) as [old|]; [|by apply runs_ret].
  apply runs_bind, runs_or_decrypt. eapply runs_decrypt_release; [by eapply quiet_sees|..].
  - intros w2 c Hq2. apply runs_ret. split; [by rewrite Hq|]. split; [done|]. by exists c.
  - intros w2 e Hq2. split; [by rewrite Hq|done].
Qed.

(** The name moves on before the release is withdrawn. *)
Lemma renaming tx namespace group fileName x releaseName s t old (Q : Server -> result ConfigResponse unit -> Prop) :
  current tx (storage s) = Some t -> keyed t -> getConfigFileReleaseByFlag t namespace group fileName false = Some old ->
  (exists c, x = set_ReleaseContent (configFileRelease2Api Time2String old) c) ->
  (forall s' t' row, moved tx (storage s) (storage s') t' -> same_but_releases t t' ->
     tblConfigFileRelease t' = <[release_key namespace group fileName := row]> (tblConfigFileRelease t) ->
     names_key row = names_key old -> crVersion row = crVersion old -> crValid row = true -> Q s' (Okay ())) ->
  (forall s', tx = false -> quiet (storage s) (storage s') -> Q s' (Fail (NewConfigFileResponse StoreLayerException None))) ->
  runs P (
    if decide (releaseName <> GetValue (prName x)) then
      _ ← or_refuse (UpdateConfigFileRelease tx (set_crName (transferConfigFileReleaseAPIModel2StoreModel x) releaseName)) StoreLayerException;
      mret ()
    else mret ()) s Q.
Proof.
  intros Ht Hk [Hold Hv]%getConfigFileReleaseByFlag_valid [c ->] HO HF. pose proof (keyed_releases t Hk _ _ Hold) as Hkey.
  case_decide.
  - apply runs_bind, runs_or_answer. eapply runs_txn; [done|..].
    + intros n w' Hm. apply runs_ret. eapply HO; [exact Hm|by split_and!|..].
      * cbn. change (release_key (crNamespace old) (crGroup old) (crFileName old)) with (names_key old). rewrite <- Hkey. by apply alter_some.
      * done.
      * done.
      * done.
    + intros Htx w' e Hq. by apply HF.
  - apply runs_ret. apply (HO s t old); [by apply quiet_moved|by split_and!|by rewrite insert_id|done..].
Qed.

(** The one row of a release that may have moved. *)
Definition release_moved (namespace group fileName : string) (t t' : tables) : Prop :=
  same_but_releases t t' /\
  (tblConfigFileRelease t' = tblConfigFileRelease t \/
   exists old row, tblConfigFileRelease t !! release_key namespace group fileName = Some old /\ names_key row = names_key old /\
     tblConfigFileRelease t' = <[release_key namespace group fileName := row]> (tblConfigFileRelease t)).

Lemma release_moved_refl namespace group fileName t : release_moved namespace group fileName t t.
Proof. split; [by split_and!|by left]. Qed.
Lemma withdrawn_moved namespace group fileName t t' : withdrawn namespace group fileName t t' -> release_moved namespace group fileName t t'.
Proof.
  intros [Hs Hr]. split; [done|]. destruct (getConfigFileReleaseByFlag _ _ _ _ _) as [old|] eqn:Hold; [right|by left].
  apply getConfigFileReleaseByFlag_valid in Hold as [Hold _]. destruct Hr as (row & Hins & Hn & _). by exists old, row.
Qed.

Lemma deleting_release_spec tx user namespace group fileName deleteBy s t :
  check_triple namespace group fileName = None -> current tx (storage s) = Some t -> keyed t ->
  runs P (DeleteConfigFileRelease tx user namespace group fileName deleteBy) s (fun s' r =>
    exists t', moved tx (storage s) (storage s') t' /\ release_moved namespace group fileName t t' /\
      (coCode (told r) = ExecuteSuccess -> withdrawn namespace group fileName t t')).
Proof.
  intros Hc Ht Hk. unfold DeleteConfigFileRelease. rewrite Hc. apply runs_bind, runs_attempt.
  eapply runs_weaken; [by apply reading_release|]. intros s1 r [Hq Hr].
  assert (moved tx (storage s) (storage s1) t) as Hm1 by by apply quiet_moved.
  assert (current tx (storage s1) = Some t) as Ht1 by apply Hm1.
  destruct r as [resp|resp]; cbn [told]; [destruct Hr as [-> Hr]|].
  2: { rewrite decide_True by done. apply runs_raise. exists t. split; [done|]. split; [apply release_moved_refl|done]. }
  rewrite decide_False by (intros He; by destruct He). destruct (getConfigFileReleaseByFlag t _ _ _ _) as [old|] eqn:Hold.
  2: { rewrite Hr. apply runs_ret. exists t. split; [done|]. split; [apply release_moved_refl|]. intros _. split; [by split_and!|by rewrite Hold]. }
  destruct Hr as [c ->]. apply runs_bind. eapply renaming; [done..|by eexists| |].
  2: { intros s2 -> Hq2. exists t. split; [|split; [apply release_moved_refl|done]]. apply quiet_moved; [by rewrite Hq|done]. }
  intros s2 t2 row Hm2 Hsame2 Hrel2 Hnames Hver Hval. assert (moved tx (storage s) (storage s2) t2) as Hm by by eapply moved_quiet.
  assert (getConfigFileReleaseByFlag t2 namespace group fileName false = Some row) as Hrow.
  { apply getConfigFileReleaseByFlag_valid. by rewrite Hrel2, lookup_insert_eq. }
  apply runs_bind, runs_attempt, runs_storage. eapply runs_txn; [apply Hm2|..].
  - intros n. rewrite Hrow. intros w3 Hm3. apply runs_bind. eapply runs_recordReleaseHistory; [apply Hm3|]. intros s4 t4 Hm4 Hsame4.
    apply runs_bind, runs_record. intros h. apply runs_ret. exists t4.
    split; [eapply moved_moved; [eapply moved_moved; [exact Hm|exact Hm3]|exact Hm4]|].
    assert (withdrawn namespace group fileName t t4) as Hw; [|by split; [by apply withdrawn_moved|]].
    destruct Hsame2 as (? & ? & ?), Hsame4 as (? & Hr4 & ? & ?). split; [split_and!; cbn in *; congruence|]. rewrite Hold.
    eexists. split; [rewrite Hr4; cbn; rewrite (alter_some _ _ _ row), Hrel2 by (by rewrite Hrel2, lookup_insert_eq); by rewrite insert_insert_eq|].
    split; [exact Hnames|]. cbn. by rewrite Hver.
  - intros -> w3 e Hq3. apply runs_bind. eapply runs_recordReleaseHistory; [by eapply quiet_sees; [|apply Hm2]|]. intros s4 t4 Hm4 Hsame4.
    apply runs_raise. exists t4. split; [eapply moved_moved; [exact Hm|]; by eapply moved_quiet|]. split; [|done].
    destruct Hsame2 as (? & ? & ?), Hsame4 as (? & Hr4 & ? & ?). split; [split_and!; congruence|].
    right. apply getConfigFileReleaseByFlag_valid in Hold as [Hold _]. exists old, row. by rewrite Hr4.
Qed.

Context (range_ok : forall A (m : gmap string A), range A m ≡ₚ map_to_list m).

Lemma delete_all_lookup {A} (m : gmap string A) ks k : foldl (fun m k => delete k m) m ks !! k = if decide (k ∈ ks) then None else m !! k.
Proof.
  revert m. induction ks as [|x ks IH]; intros m; cbn [foldl]; [done|]. rewrite IH. destruct (decide (k ∈ ks)) as [Hk|Hk].
  - by rewrite decide_True by by right.
  - destruct (decide (k = x)) as [->|Hx]; [by rewrite lookup_delete_eq, decide_True by by left|].
    rewrite lookup_delete_ne by done. rewrite decide_False; [done|]. by rewrite elem_of_cons; intros [?|?].
Qed.

Lemma tags_gone t namespace group fileName :
  keyed t ->
  foldl (fun m k => delete k m) (tblConfigFileTag t)
    ((fun tag => tag_key (ctKey tag) (ctValue tag) namespace group fileName) <$>
       (range _ (filter (fun kv => tag_of namespace group fileName kv.2) (tblConfigFileTag t))).*2) =
  filter (fun kv => ~ tag_of namespace group fileName kv.2) (tblConfigFileTag t).
Proof.
  intros Hk. apply map_eq. intros k. rewrite delete_all_lookup. apply option_eq. intros g. rewrite map_lookup_filter_Some.
  assert (forall g, tblConfigFileTag t !! k = Some g -> tag_of namespace group fileName g <->
    k ∈ ((fun tag => tag_key (ctKey tag) (ctValue tag) namespace group fileName) <$>
       (range _ (filter (fun kv => tag_of namespace group fileName kv.2) (tblConfigFileTag t))).*2)) as Hin.
  { intros x Hx. rewrite list_elem_of_fmap. setoid_rewrite range_ok. setoid_rewrite list_elem_of_fmap. split.
    - intros Hof. exists x. split; [rewrite (keyed_tags t Hk _ _ Hx); by destruct Hof as (-> & -> & ->)|].
      exists (k, x). split; [done|]. by apply elem_of_map_to_list, map_lookup_filter_Some.
    - intros (y & Hky & (k' & y') & -> & [Hy Hof]%elem_of_map_to_list%map_lookup_filter_Some). cbn in *.
      pose proof (keyed_tags t Hk _ _ Hy) as Hk'. destruct Hof as (Hn & Hg & Hf). rewrite Hn, Hg, Hf, <- Hky in Hk'. subst k'.
      assert (x = y') as -> by congruence. by split_and!. }
  case_decide as Hd; split.
  - done.
  - intros [Hg Hno]. destruct Hno. by apply (Hin g Hg).
  - intros Hg. split; [done|]. intros Hof. apply Hd. by apply (Hin g Hg).
  - by intros [? _].
Qed.

(** A file that is gone, with its release and its tags. *)
Record erased (namespace group name : string) (t t' : tables) : Prop := {
  erased_file : getConfigFile t' namespace group name = None;
  erased_others : forall k, k <> file_key namespace group name -> tblConfigFile t' !! k = tblConfigFile t !! k;
  erased_release :
    match getConfigFileReleaseByFlag t namespace group name false with
    | None => tblConfigFileRelease t' = tblConfigFileRelease t
    | Some old =>
        exists row, tblConfigFileRelease t' = <[release_key namespace group name := row]> (tblConfigFileRelease t) /\
          names_key row = names_key old /\ crVersion row = wrap_u 64 (crVersion old + 1) /\ crValid row = false /\ crMd5 row = "" /\
        crFlag row = 1
    end;
  erased_tags : tblConfigFileTag t' = filter (fun kv => ~ tag_of namespace group name kv.2) (tblConfigFileTag t);
  erased_groups : tblConfigFileGroup t' = tblConfigFileGroup t }.

(** Nothing but this file, its release and its tags has changed. *)
Record only_file (namespace group name : string) (t t' : tables) : Prop := {
  only_files : forall k, k <> file_key namespace group name -> tblConfigFile t' !! k = tblConfigFile t !! k;
  only_there : is_Some (tblConfigFile t' !! file_key namespace group name) -> is_Some (tblConfigFile t !! file_key namespace group name);
  only_releases : forall k, k <> release_key namespace group name -> tblConfigFileRelease t' !! k = tblConfigFileRelease t !! k;
  only_tags : forall k g, ~ tag_of namespace group name g -> tblConfigFileTag t' !! k = Some g <-> tblConfigFileTag t !! k = Some g;
  only_groups : tblConfigFileGroup t' = tblConfigFileGroup t;
  only_keyed : keyed t' }.

Lemma only_file_moved namespace group name t t' : keyed t -> release_moved namespace group name t t' -> only_file namespace group name t t'.
Proof.
  intros [Hr Ht] [(Hf & Htag & Hg) Hrel]. split; [by rewrite Hf|by rewrite Hf| |by rewrite Htag|done|split; [|by rewrite Htag]].
  - intros k Hk. destruct Hrel as [->|(old & row & _ & _ & ->)]; [done|]. by rewrite lookup_insert_ne.
  - destruct Hrel as [->|(old & row & Hold & Hn & ->)]; [done|]. intros k r. rewrite lookup_insert_Some.
    intros [[<- <-]|[_ H]]; [rewrite Hn|]; by apply Hr.
Qed.
Lemma only_file_refl namespace group name t : keyed t -> only_file namespace group name t t.
Proof. intros Hk. apply only_file_moved; [done|apply release_moved_refl]. Qed.
Lemma only_file_file namespace group name t t' f :
  only_file namespace group name t t' ->
  only_file namespace group name t (set_files t' (alter f (file_key namespace group name) (tblConfigFile t'))).
Proof.
  intros [H1 Hin H2 H3 H4 [H5 H6]]. split; [| |done..|by split]; cbn.
  - intros k Hk. by rewrite lookup_alter_ne, H1.
  - rewrite lookup_alter_eq, fmap_is_Some. exact Hin.
Qed.
Lemma only_file_tags namespace group name t t' :
  only_file namespace group name t t' ->
  only_file namespace group name t (set_tags t' (filter (fun kv => ~ tag_of namespace group name kv.2) (tblConfigFileTag t'))).
Proof.
  intros [H1 Hin H2 H3 H4 [H5 H6]]. split; [done..| |done|split; [done|]]; cbn.
  - intros k g Hg. rewrite map_lookup_filter_Some, <- H3 by done. split; [by intros [? _]|by split].
  - intros k g [Hg _]%map_lookup_filter_Some. by apply H6.
Qed.

(** The transaction of a deletion that comes to it can be started. *)
Definition begins (namespace group name : string) (w : config_store) : bool :=
  match check_triple namespace group name, GetConfigFile false namespace group name w with
  | None, Ret (w', Okay (Some _)) => match StartTx w' with Ret (_, Okay _) => true | _ => false end
  | _, _ => true
  end.

Definition deletion (namespace group name : string) (s s' : Server) (r : result (ConfigResponse + panic) ConfigResponse) : Prop :=
  let t := committed (storage s) in
  let t' := committed (storage s') in
  pending (storage s') = None /\
  match reply r with
  | Ret rsp =>
      begins namespace group name (storage s) = true /\
      if decide (coCode rsp = ExecuteSuccess) then
        match getConfigFile t namespace group name with None => t' = t | Some _ => erased namespace group name t t' end
      else t' = t
  | Panics why => why = NilDereference /\ begins namespace group name (storage s) = false /\ only_file namespace group name t t'
  end.

Lemma quiet_deletion namespace group name s s' resp :
  pending (storage s) = None -> begins namespace group name (storage s) = true -> quiet (storage s) (storage s') -> coCode resp <> ExecuteSuccess ->
  deletion namespace group name s s' (Fail (inl resp)).
Proof. intros Hp Hb (H1 & H2 & _) Hc. split; [congruence|]. split; [done|]. cbn [told]. by rewrite decide_False. Qed.

Lemma dropFile_gone t namespace group name time :
  getConfigFile (set_files t (alter (dropFile time) (file_key namespace group name) (tblConfigFile t))) namespace group name = None.
Proof. unfold getConfigFile. cbn. rewrite lookup_alter_eq. by destruct (_ !! _). Qed.

(** What is done in the transaction, or without it. *)
Lemma deleteFileSteps_spec tx user namespace group name deleteBy s t :
  check_triple namespace group name = None -> current tx (storage s) = Some t -> keyed t ->
  runs P (deleteFileSteps tx user namespace group name deleteBy) s (fun s' r => exists t',
    moved tx (storage s) (storage s') t' /\ only_file namespace group name t t' /\
    match r with Okay _ => erased namespace group name t t' | Fail rsp => coCode rsp <> ExecuteSuccess end).
Proof.
  intros Hc Ht Hk. apply runs_bind, runs_attempt. eapply runs_weaken; [by apply deleting_release_spec|]. intros s1 r (t1 & Hm1 & Hmv & Hw).
  pose proof (only_file_moved _ _ _ _ _ Hk Hmv) as Ho1. case_decide as Hs; [apply runs_raise; by exists t1|].
  destruct (Hw Hs) as [(Hf1 & Htag1 & Hg1) Hr1]. clear Hw.
  apply runs_bind, runs_or_answer. eapply runs_txn; [apply Hm1|..].
  2: { intros _ w e Hq. exists t1. split; [by eapply moved_then_quiet|done]. }
  intros n w2 Hm2. pose proof (only_file_file _ _ _ _ _ (dropFile (now (storage s1))) Ho1) as Ho2.
  apply runs_or_answer. eapply runs_txn; [apply Hm2|..].
  2: { intros _ w e Hq. eexists. split; [eapply moved_then_quiet; [by eapply moved_moved|exact Hq]|done]. }
  intros n' w3 Hm3. eexists. split; [eapply moved_moved; [by eapply moved_moved|exact Hm3]|].
  cbn in Ho2 |- *. rewrite tags_gone by (destruct (only_keyed _ _ _ _ _ Ho1); by split). split; [exact (only_file_tags _ _ _ _ _ Ho2)|]. split; cbn.
  - exact (dropFile_gone t1 namespace group name (now (storage s1))).
  - intros k Hne. by rewrite lookup_alter_ne, Hf1.
  - done.
  - by rewrite Htag1.
  - done.
Qed.

Lemma check_triple_names namespace group name :
  (CheckSourceName (Some namespace) : option check_error) = None -> (CheckSourceName (Some group) : option check_error) = None ->
  (CheckFileName (Some name) : option check_error) = None -> check_triple namespace group name = None.
Proof. unfold check_triple. by intros -> -> ->. Qed.

Lemma runs_rolling_back {A} started (m : call Server (ConfigResponse + panic) A) s (Q : Server -> result (ConfigResponse + panic) A -> Prop) :
  runs P m s (fun s' r => if (started : bool) then Q (mkServer (set_pending (storage s') None) (published s') (history s')) r
                          else Q s' (Fail (inr NilDereference))) ->
  runs P (rolling_back started m) s Q.
Proof. unfold runs, rolling_back. destruct (m s) as [[s' r]|why]; [|done]. by destruct started. Qed.

Lemma DeleteConfigFile_spec user namespace group name deleteBy s :
  pending (storage s) = None -> keyed (committed (storage s)) ->
  runs P (DeleteConfigFile user namespace group name deleteBy) s (deletion namespace group name s).
Proof.
  intros Hp Hk. unfold DeleteConfigFile. assert (check_triple namespace group name <> None -> begins namespace group name (storage s) = true)
    as Hbad by (unfold begins; by destruct (check_triple _ _ _)). unfold check_triple in Hbad.
  destruct (CheckSourceName (Some namespace)) eqn:H1;
    [by apply runs_landing, runs_raise, quiet_deletion; [|apply Hbad; by destruct (CheckFileName (Some name))|..]|].
  destruct (CheckSourceName (Some group)) eqn:H2;
    [by apply runs_landing, runs_raise, quiet_deletion; [|apply Hbad; by destruct (CheckFileName (Some name))|..]|].
  destruct (CheckFileName (Some name)) eqn:H3;
    [by apply runs_landing, runs_raise, quiet_deletion; [|apply Hbad; by destruct (CheckFileName (Some name))|..]|]. clear Hbad.
  pose proof (check_triple_names _ _ _ H1 H2 H3) as Hc.
  apply runs_bind, runs_landing, runs_or_answer, runs_eqn. eapply runs_read; [by apply current_idle|..].
  2: { intros _ w e Hq He. apply quiet_deletion; [done| |done..]. unfold begins. by rewrite Hc, He. }
  intros w1 Hq1 He1. destruct (getConfigFile _ _ _ _) as [file|] eqn:Hf.
  2: { apply runs_ret. destruct Hq1 as (Hc1 & Hp1 & _). split; [cbn; congruence|]. cbn. rewrite Hf. split; [|done]. unfold begins. by rewrite Hc, He1. }
  destruct Hq1 as (Hc1 & Hp1 & _). apply runs_bind, runs_attempt, runs_storage, runs_eqn, runs_StartTx; [cbn; congruence|..]; cbn [storage swap].
  - intros w2 Hcur Hcom _ Hst. assert (begins namespace group name (storage s) = true) as Hb by (unfold begins; by rewrite Hc, He1, Hst).
    apply runs_rolling_back, runs_bind, runs_landing. eapply runs_weaken; [eapply deleteFileSteps_spec; [exact Hc|exact Hcur|cbn; by rewrite Hc1]|].
    intros s3 r (t3 & Hm3 & _ & Hr). destruct Hm3 as (Hcur3 & Hcom3 & _). cbn in Hcom3. destruct r as [[]|rsp].
    2: { split; [done|]. split; [done|]. cbn. rewrite decide_False by done. congruence. }
    apply runs_bind, runs_landing, runs_or_answer. eapply runs_Commit; [exact Hcur3|..].
    2: { intros w4 e H4 _. split; [done|]. split; [done|]. cbn. congruence. }
    intros w4 Hw4 _. apply runs_bind, runs_landing, runs_record. intros h. apply runs_ret. split; [done|]. split; [done|]. cbn.
    rewrite Hf, Hw4. cbn in Hr. by rewrite Hc1 in Hr.
  - intros w2 e Hq2 Hst. assert (begins namespace group name (storage s) = false) as Hb by (unfold begins; by rewrite Hc, He1, Hst).
    assert (current false w2 = Some (committed (storage s))) as Hcur.
    { rewrite (quiet_current false _ _ Hq2), <- Hc1. apply current_idle. congruence. }
    apply runs_rolling_back, runs_bind, runs_landing. eapply runs_weaken; [eapply deleteFileSteps_spec; [exact Hc|exact Hcur|done]|].
    intros s3 r (t3 & Hm3 & Ho & _). destruct (moved_committed _ _ _ Hm3) as [<- Hp3].
    destruct r as [[]|rsp]; [apply runs_bind, runs_raise|]; by split_and!.
Qed.

End laws.

(** ** Nothing but these handlers touches a release *)

(** What every other handler keeps. *)
Definition tframe (t t' : tables) : Prop :=
  tblConfigFileRelease t' = tblConfigFileRelease t /\ (keyed t -> keyed t').
Definition wframe (w w' : config_store) : Prop := pending w' = None /\ tframe (committed w) (committed w').

Definition framing {E A} (m : call config_store E A) : Prop := forall w, pending w = None -> runs (fun _ => True) m w (fun w' _ => wframe w w').

Lemma tframe_refl t : tframe t t.
Proof. done. Qed.
Lemma tframe_trans t t' t'' : tframe t t' -> tframe t' t'' -> tframe t t''.
Proof. intros [H1 H2] [H1' H2']. split; [congruence|auto]. Qed.

Lemma quiet_wframe w w' : pending w = None -> quiet w w' -> wframe w w'.
Proof. intros Hp (H1 & H2 & _). split; [congruence|]. by rewrite H1. Qed.

Lemma framing_ret {E A} (a : A) : framing (E := E) (mret a).
Proof. intros w Hp. apply runs_ret. by split. Qed.
Lemma framing_raise {E A} (e : E) : framing (A := A) (raise e).
Proof. intros w Hp. apply runs_raise. by split. Qed.
Lemma framing_bind {E A B} (m : call config_store E A) (k : A -> call config_store E B) : framing m -> (forall a, framing (k a)) -> framing (m ≫= k).
Proof.
  intros Hm Hk w Hp. apply runs_bind. eapply runs_weaken; [by apply Hm|]. intros w1 [a|e] [Hp1 Hf1]; [|by split].
  eapply runs_weaken; [by apply Hk|]. intros w2 r [Hp2 Hf2]. split; [done|]. by eapply tframe_trans.
Qed.
Lemma framing_orelse {E E' A} (m : call config_store E' A) (f : E' -> E) : framing m -> framing (orelse m f).
Proof. intros Hm w Hp. apply runs_orelse. eapply runs_weaken; [by apply Hm|done]. Qed.
Lemma framing_view {A} (f : tables -> A) : framing (view f).
Proof. intros w Hp. apply runs_view; intros; by apply quiet_wframe. Qed.
Lemma framing_txn {A} (h : txn A) :
  (forall now t c, match h now (t, c) with Ret (t', _, _) => tframe t t' | Panics _ => True end) -> framing (DoTransactionIfNeed false h).
Proof.
  intros Hh w Hp. eapply runs_txn; [by apply current_idle|..].
  - intros c. specialize (Hh (now w) (committed w) c). destruct (h _ _) as [[[t' c'] a]|why]; [|done]. intros w' Hm.
    destruct (moved_committed _ _ _ Hm) as [<- Hp']. by split.
  - intros _ w' e Hq. by apply quiet_wframe.
Qed.
Lemma framing_update f : (forall now t, tframe t (f now t)) -> framing (update f).
Proof.
  intros Hf w Hp. apply runs_update; [done|..].
  - intros w' Hm. destruct (moved_committed _ _ _ Hm) as [H1 H2]. split; [done|]. rewrite H1. apply Hf.
  - intros w' e Hq. by apply quiet_wframe.
Qed.
Lemma framing_each {E A} (f : A -> call config_store E unit) l : (forall x, framing (f x)) -> framing (each f l).
Proof. intros Hf. induction l; [apply framing_ret|]. by apply framing_bind. Qed.
Lemma framing_plugged {A} (o : outcome (result crypto_error A)) : framing (plugged o).
Proof. intros w Hp. unfold runs, plugged. by destruct o as [[a|e]|why]. Qed.
Lemma framing_expect {A} (o : option A) : framing (expect o).
Proof. destruct o; [apply framing_ret|apply framing_raise]. Qed.

(** A row of a table that has neither releases nor tags. *)
Lemma tframe_rows t t' : tblConfigFileRelease t' = tblConfigFileRelease t -> tblConfigFileTag t' = tblConfigFileTag t -> tframe t t'.
Proof. intros H1 H2. split; [done|]. intros [Hr Ht]. split; [by rewrite H1|by rewrite H2]. Qed.

Lemma framing_CreateConfigFileTag tag : framing (CreateConfigFileTag false tag).
Proof.
  apply framing_txn. intros now t c. split; [done|]. intros [Hr Ht]. split; [done|]. cbn. intros k g.
  rewrite lookup_insert_Some. intros [[<- <-]|[_ Hg]]; [done|by apply Ht].
Qed.
Lemma framing_DeleteConfigFileTag namespace group fileName key value : framing (DeleteConfigFileTag false namespace group fileName key value).
Proof.
  apply framing_txn. intros now t c. split; [done|]. intros [Hr Ht]. split; [done|]. cbn. intros k g.
  rewrite lookup_delete_Some. intros [_ Hg]. by apply Ht.
Qed.

(** The handlers. *)
Definition hframing {E A} (m : call Server E A) : Prop :=
  forall s, pending (storage s) = None -> runs (fun _ => True) m s (fun s' _ => wframe (storage s) (storage s')).

Lemma hframing_ret {E A} (a : A) : hframing (E := E) (mret a).
Proof. intros s Hp. apply runs_ret. by split. Qed.
Lemma hframing_raise {E A} (e : E) : hframing (A := A) (raise e).
Proof. intros s Hp. apply runs_raise. by split. Qed.
Lemma hframing_deref {E A} (o : option A) : hframing (E := E) (deref o).
Proof. by destruct o; [apply hframing_ret|]. Qed.
Lemma hframing_bind {E A B} (m : call Server E A) (k : A -> call Server E B) : hframing m -> (forall a, hframing (k a)) -> hframing (m ≫= k).
Proof.
  intros Hm Hk s Hp. apply runs_bind. eapply runs_weaken; [by apply Hm|]. intros s1 [a|e] [Hp1 Hf1]; [|by split].
  eapply runs_weaken; [by apply Hk|]. intros s2 r [Hp2 Hf2]. split; [done|]. by eapply tframe_trans.
Qed.
Lemma hframing_attempt {E E' A} (m : call Server E' A) : hframing m -> hframing (E := E) (attempt m).
Proof. intros Hm s Hp. apply runs_attempt. eapply runs_weaken; [by apply Hm|done]. Qed.
Lemma hframing_orelse {E E' A} (m : call Server E' A) (f : E' -> E) : hframing m -> hframing (orelse m f).
Proof. intros Hm s Hp. apply runs_orelse. eapply runs_weaken; [by apply Hm|done]. Qed.
Lemma hframing_storage {E A} (m : call config_store E A) : framing m -> hframing (on_storage m).
Proof. intros Hm s Hp. apply runs_storage. eapply runs_weaken; [by apply Hm|done]. Qed.
Lemma hframing_record {E} entry : hframing (E := E) (RecordHistory recording entry).
Proof. intros s Hp. unfold RecordHistory. by destruct recording; [apply runs_modify|apply runs_ret]. Qed.
Lemma hframing_naming {A} (m : call (@Api.Server bolt) Response A) : hframing (on_naming m).
Proof. intros s Hp. unfold runs, on_naming. by destruct (m _) as [[n r]|why]. Qed.

End server.

Create HintDb framing.
#[export] Hint Resolve framing_ret framing_raise framing_view framing_plugged framing_expect framing_CreateConfigFileTag
  framing_DeleteConfigFileTag hframing_ret hframing_raise hframing_deref hframing_record hframing_naming tframe_refl tframe_rows : framing.

(** The frame of a handler is that of its steps. *)
Ltac framing :=
  repeat first
    [ solve [eauto with framing]
    | progress intros
    | simple apply framing_txn | simple apply framing_update
    | apply framing_bind | apply framing_orelse | apply framing_each
    | apply hframing_bind | apply hframing_attempt | apply hframing_orelse | apply hframing_storage
    | case_decide | case_match ].

Section handlers.
  Context `{!InstanceStorage bolt, !ServiceStorage bolt}.
  Context (Time2String : Z -> string) (range : forall A, gmap string A -> list (string * A)).
  Context (recording : bool).
  Context (cryptoManager : option (string -> option Crypto)).
  Context (allowAutoCreate : bool) (cached : string -> bool).
  Context (afterNamespaceResource : PbNamespace -> NamespaceModel -> bool -> call bolt unit unit).
  Context (afterConfigGroupResource : PbGroup -> call config_store unit unit).
  (** A hook does not touch releases and tags. *)
  Context (hook_frames : forall g, framing (afterConfigGroupResource g)).
#[local] Hint Resolve hook_frames : framing.

Lemma framing_createConfigFileTags namespace group fileName operator tags :
  framing (createConfigFileTags range false namespace group fileName operator tags).
Proof. unfold createConfigFileTags, doCreateConfigFileTags, doDeleteConfigFileTags, QueryTagByConfigFile. framing. Qed.

Lemma framing_getEncryptAlgorithmAndDataKey namespace group name : framing (getEncryptAlgorithmAndDataKey range namespace group name).
Proof. unfold getEncryptAlgorithmAndDataKey, queryTagsByConfigFileWithAPIModels, QueryTagByConfigFile. framing. Qed.
#[local] Hint Resolve framing_createConfigFileTags framing_getEncryptAlgorithmAndDataKey : framing.

Lemma framing_encryptConfigFile rand file algorithm dataKey : framing (encryptConfigFile cryptoManager rand file algorithm dataKey).
Proof. unfold encryptConfigFile. framing. Qed.
Lemma framing_decryptConfigFile user file : framing (decryptConfigFile range cryptoManager user file).
Proof. unfold decryptConfigFile, decipher. framing. Qed.
#[local] Hint Resolve framing_encryptConfigFile framing_decryptConfigFile : framing.

Lemma framing_fillReleaseAndTags file : framing (fillReleaseAndTags Time2String range file).
Proof.
  unfold fillReleaseAndTags, GetLatestConfigFileReleaseHistory, queryTagsByConfigFileWithAPIModels, QueryTagByConfigFile. framing.
Qed.
#[local] Hint Resolve framing_fillReleaseAndTags : framing.

Lemma hframing_CreateConfigFileGroup user uuid g :
  hframing (CreateConfigFileGroup Time2String recording allowAutoCreate cached afterNamespaceResource afterConfigGroupResource user uuid g).
Proof.
  unfold CreateConfigFileGroup, or_answer, or_decrypt_refuse, record_config, GetConfigFileGroup, ConfigStore.CreateConfigFileGroup. framing.
Qed.
#[local] Hint Resolve hframing_CreateConfigFileGroup : framing.

Lemma hframing_UpdateConfigFileGroup user g : hframing (UpdateConfigFileGroup Time2String recording afterConfigGroupResource user g).
Proof.
  unfold UpdateConfigFileGroup, or_answer, or_decrypt_refuse, record_config, GetConfigFileGroup, ConfigStore.UpdateConfigFileGroup. framing.
Qed.

Lemma hframing_CreateConfigFile user uuid rand file :
  hframing (CreateConfigFile Time2String range recording cryptoManager allowAutoCreate cached afterNamespaceResource afterConfigGroupResource
    false user uuid rand file).
Proof.
  unfold CreateConfigFile, prepareCreateConfigFile, createConfigFileGroupIfAbsent, refuse_with, or_answer, or_decrypt_refuse, record_config,
    createOrUpdateConfigFileTags, or_answer, GetConfigFileGroup, GetConfigFile, ConfigStore.CreateConfigFile. framing.
Qed.

Lemma hframing_UpdateConfigFile user rand file : hframing (UpdateConfigFile Time2String range recording cryptoManager false user rand file).
Proof.
  unfold UpdateConfigFile, refuse_with, or_answer, or_decrypt_refuse, record_config,
    createOrUpdateConfigFileTags, or_answer, GetConfigFile, ConfigStore.UpdateConfigFile. framing.
Qed.

(** ** What a publication and a deletion do *)

(** C19. Publishing a file releases it as it is: success means that the row of its
    release has the file's content, the md5 of that and the next version, that the
    answer says so, and that nothing else has changed but the history of releases;
    any other answer means that no release has changed.  Nothing panics but the
    plugin that decrypts. *)
Theorem publication_releases_the_file user req s :
  pending (storage s) = None ->
  runs (plugin_panic cryptoManager) (PublishConfigFile Time2String range recording cryptoManager false user req) s
    (fun s' r => pending (storage s') = None /\ publication Time2String req (committed (storage s)) (committed (storage s')) (told r)).
Proof. intros Hp. by apply PublishConfigFile_spec. Qed.

Context (range_ok : forall A (m : gmap string A), range A m ≡ₚ map_to_list m).

(** C18. Deleting a file whose transaction can be started is all or nothing,
    whichever later step of the store fails: success means that the file is gone,
    its release withdrawn in the next version and its tags removed - or that there
    was no file and nothing has changed; any other answer means that nothing has
    changed.  When the transaction cannot be started, and only then, there is no
    answer but a nil dereference, after steps that ran in transactions of their own
    and are not undone, on this file, its release and its tags only.  Nothing else
    panics but the plugin that decrypts. *)
Theorem deletion_is_all_or_nothing user namespace group name deleteBy s :
  pending (storage s) = None -> keyed (committed (storage s)) ->
  runs (plugin_panic cryptoManager) (DeleteConfigFile Time2String range recording cryptoManager user namespace group name deleteBy) s
    (fun s' r => let t := committed (storage s) in let t' := committed (storage s') in
       pending (storage s') = None /\
       match reply r with
       | Ret rsp =>
           begins namespace group name (storage s) = true /\
           if decide (coCode rsp = ExecuteSuccess)
           then match getConfigFile t namespace group name with None => t' = t | Some _ => erased namespace group name t t' end
           else t' = t
       | Panics why => why = NilDereference /\ begins namespace group name (storage s) = false /\ only_file namespace group name t t'
       end).
Proof. intros Hp Hk. by apply DeleteConfigFile_spec. Qed.

(** ** Whatever clients do *)

Inductive config_request :=
| NewFile (user uuid : string) (rand : option (list Z)) (file : PbConfigFile)
| ChangeFile (user : string) (rand : option (list Z)) (file : PbConfigFile)
| Publish (user : string) (release : PbRelease)
| DropFile (user namespace group name deleteBy : string)
| NewGroup (user uuid : string) (g : PbGroup)
| ChangeGroup (user : string) (g : PbGroup).

Definition serve_config (r : config_request) : call (@Api.Server config_store) (ConfigResponse + panic) ConfigResponse :=
  match r with
  | NewFile user uuid rand file => landing (CreateConfigFile Time2String range recording cryptoManager allowAutoCreate cached afterNamespaceResource
      afterConfigGroupResource false user uuid rand file)
  | ChangeFile user rand file => landing (UpdateConfigFile Time2String range recording cryptoManager false user rand file)
  | Publish user release => landing (PublishConfigFile Time2String range recording cryptoManager false user release)
  | DropFile user namespace group name deleteBy =>
      DeleteConfigFile Time2String range recording cryptoManager user namespace group name deleteBy
  | NewGroup user uuid g => landing (CreateConfigFileGroup Time2String recording allowAutoCreate cached afterNamespaceResource
      afterConfigGroupResource user uuid g)
  | ChangeGroup user g => landing (UpdateConfigFileGroup Time2String recording afterConfigGroupResource user g)
  end.

(** A row only moves to greater versions: under one version it is one release. *)
Definition release_le (r r' : ConfigFileRelease) : Prop :=
  crVersion r <= crVersion r' /\ (crVersion r = crVersion r' -> crValid r' = crValid r /\ crContent r' = crContent r /\ crMd5 r' = crMd5 r).
#[export] Instance release_le_preorder : PreOrder release_le.
Proof.
  split; [by split|]. intros r r' r'' [H1 H2] [H1' H2']. split; [lia|]. intros He.
  destruct (H2 ltac:(lia)) as (<- & <- & <-). apply H2'. lia.
Qed.

Definition releases_le (t t' : tables) : Prop :=
  forall k r, tblConfigFileRelease t !! k = Some r -> exists r', tblConfigFileRelease t' !! k = Some r' /\ release_le r r'.
#[export] Instance releases_le_preorder : PreOrder releases_le.
Proof.
  split; [by intros t k r Hr; exists r|]. intros t t' t'' H1 H2 k r Hr. destruct (H1 k r Hr) as (r' & Hr' & Hle).
  destruct (H2 k r' Hr') as (r'' & Hr'' & Hle'). exists r''. split; [done|]. by etrans.
Qed.

(** The md5 of what can be read is right. *)
Definition sums (t : tables) : Prop := map_Forall (fun _ r => crValid r = true -> crMd5 r = CalMd5 (crContent r)) (tblConfigFileRelease t).

Definition config_ok (w : config_store) : Prop := pending w = None /\ keyed (committed w) /\ sums (committed w).

(** The versions have room to grow. *)
Definition roomy (t : tables) : Prop := map_Forall (fun _ r => 0 <= crVersion r < 2 ^ 64 - 1) (tblConfigFileRelease t).

Lemma keyed_insert t t' k row old :
  keyed t -> tblConfigFileRelease t' = <[k := row]> (tblConfigFileRelease t) -> tblConfigFileTag t' = tblConfigFileTag t ->
  names_key row = from_option names_key k old -> (forall o, old = Some o -> tblConfigFileRelease t !! k = Some o) -> keyed t'.
Proof.
  intros [Hr Ht] Hrel Htag Hn Hold. split; [|by rewrite Htag]. intros k' r'. rewrite Hrel, lookup_insert_Some.
  intros [[<- <-]|[_ H]]; [|by apply Hr]. rewrite Hn. destruct old as [o|]; cbn; [by apply Hr, Hold|done].
Qed.

(** A row that gets the next version. *)
Lemma next_release t t' k row old :
  roomy t -> tblConfigFileRelease t !! k = old -> tblConfigFileRelease t' = <[k := row]> (tblConfigFileRelease t) ->
  (forall o, old = Some o -> crVersion row = wrap_u 64 (crVersion o + 1)) -> releases_le t t'.
Proof.
  intros Hroom Hold Hrel Hv k' r Hr. rewrite Hrel. destruct (decide (k = k')) as [<-|Hk].
  - exists row. rewrite lookup_insert_eq. split; [done|]. rewrite Hr in Hold. pose proof (Hroom _ _ Hr) as Hb. cbn in Hb.
    unfold release_le. rewrite (Hv r), wrap_u_small by (done || lia). split; lia.
  - exists r. by rewrite lookup_insert_ne.
Qed.

Lemma frame_ok s s' : config_ok (storage s) -> wframe (storage s) (storage s') ->
  config_ok (storage s') /\ releases_le (committed (storage s)) (committed (storage s')).
Proof.
  intros (Hp & Hk & Hs) (Hp' & Hrel & Hk'). split; [split_and!; [done|auto|by unfold sums; rewrite Hrel]|].
  intros k r Hr. exists r. by rewrite Hrel.
Qed.

Lemma publication_ok req t t' resp : keyed t -> sums t -> roomy t -> publication Time2String req t t' resp ->
  keyed t' /\ sums t' /\ releases_le t t'.
Proof.
  intros Hk Hs Hroom [(Hf & Htag & Hg) Hrel]. case_decide as Hc.
  - destruct Hrel as (file & row & _ & Hr & Hins & _). split_and!.
    + eapply keyed_insert; [exact Hk|exact Hins|done|apply (released_names _ _ _ _ Hr)|done].
    + unfold sums. rewrite Hins. apply map_Forall_insert_2; [|done]. intros _.
      by rewrite (released_md5 _ _ _ _ Hr), (released_content _ _ _ _ Hr).
    + eapply next_release; [done|reflexivity|exact Hins|]. intros o Ho. by rewrite (released_version _ _ _ _ Hr), Ho.
  - split_and!; [|by unfold sums; rewrite Hrel|intros k r Hr; exists r; by rewrite Hrel].
    destruct Hk as [H1 H2]. split; [by rewrite Hrel|by rewrite Htag].
Qed.

Lemma erased_keyed namespace group name t t' : keyed t -> erased namespace group name t t' -> keyed t'.
Proof.
  intros [Hr Ht] [_ _ Hrel Htag _].
  assert (forall k g, tblConfigFileTag t' !! k = Some g -> k = tag_key (ctKey g) (ctValue g) (ctNamespace g) (ctGroup g) (ctFileName g)) as Htags.
  { intros k g. rewrite Htag. intros [Hg _]%map_lookup_filter_Some. by apply Ht. }
  destruct (getConfigFileReleaseByFlag _ _ _ _ _) as [old|] eqn:Hold; [|split; [by rewrite Hrel|done]].
  apply getConfigFileReleaseByFlag_valid in Hold as [Hold _]. destruct Hrel as (row & Hins & Hn & _). split; [|done].
  intros k r. rewrite Hins, lookup_insert_Some. intros [[<- <-]|[_ H]]; [rewrite Hn|]; by apply Hr.
Qed.

Lemma erased_ok namespace group name t t' : keyed t -> sums t -> roomy t -> erased namespace group name t t' ->
  keyed t' /\ sums t' /\ releases_le t t'.
Proof.
  intros Hk Hs Hroom He. split; [by eapply erased_keyed|]. destruct He as [_ _ Hrel _ _].
  destruct (getConfigFileReleaseByFlag _ _ _ _ _) as [old|] eqn:Hold.
  - apply getConfigFileReleaseByFlag_valid in Hold as [Hold _]. destruct Hrel as (row & Hins & Hn & Hv & Hval & _). split.
    + unfold sums. rewrite Hins. apply map_Forall_insert_2; [|done]. by rewrite Hval.
    + eapply next_release; [done|exact Hold|exact Hins|]. by intros o [= <-].
  - split; [by unfold sums; rewrite Hrel|intros k r Hr; exists r; by rewrite Hrel].
Qed.

(** Unless it crashes, a request keeps the releases. *)
Definition answers_well (s s' : @Api.Server config_store) (o : outcome ConfigResponse) : Prop :=
  match o with
  | Ret _ => config_ok (storage s') /\ releases_le (committed (storage s)) (committed (storage s'))
  | Panics _ => True
  end.

Lemma serve_config_ok r s :
  config_ok (storage s) -> roomy (committed (storage s)) ->
  runs (fun _ => True) (serve_config r) s (fun s' res => answers_well s s' (reply res)).
Proof.
  intros Hok Hroom. pose proof Hok as (Hp & Hk & Hs).
  assert (forall m : call (@Api.Server config_store) ConfigResponse ConfigResponse, hframing m ->
    runs (fun _ => True) (landing m) s (fun s' res => answers_well s s' (reply res))) as Hframe.
  { intros m Hm. apply runs_landing. eapply runs_weaken; [by apply Hm|]. intros s' [a|e] Hf; by apply frame_ok. }
  destruct r; cbn [serve_config].
  - by apply Hframe, hframing_CreateConfigFile.
  - by apply Hframe, hframing_UpdateConfigFile.
  - apply runs_landing. eapply runs_weaken; [by apply PublishConfigFile_spec|]. intros s' resp [Hp' Hpub].
    destruct (publication_ok _ _ _ _ Hk Hs Hroom Hpub) as (? & ? & ?). by destruct resp; split_and!.
  - eapply runs_weaken; [by apply DeleteConfigFile_spec|]. intros s' resp [Hp' Hdel]. unfold answers_well.
    destruct (reply resp) as [rsp|why]; [|done]. destruct Hdel as [_ Hdel].
    assert (keyed (committed (storage s')) /\ sums (committed (storage s')) /\ releases_le (committed (storage s)) (committed (storage s')))
      as (? & ? & ?); [|by split_and!].
    case_decide; [destruct (getConfigFile _ _ _ _); [by eapply erased_ok|]|]; rewrite Hdel; by split_and!.
  - by apply Hframe, hframing_CreateConfigFileGroup.
  - by apply Hframe, hframing_UpdateConfigFileGroup.
Qed.

(** A client is answered: the request does not panic. *)
Definition answered (s s' : @Api.Server config_store) : Prop :=
  roomy (committed (storage s)) /\ exists r res rsp, serve_config r s = Ret (s', res) /\ reply res = Ret rsp.

Lemma answered_ok s s' : config_ok (storage s) -> answered s s' -> config_ok (storage s') /\ releases_le (committed (storage s)) (committed (storage s')).
Proof.
  intros Hok (Hroom & r & res & rsp & Hr & Hres). pose proof (serve_config_ok r s Hok Hroom) as H1. unfold runs in H1. rewrite Hr in H1.
  unfold answers_well in H1. by rewrite Hres in H1.
Qed.

(** C9. A release never changes under its version, as long as every request is
    answered: however clients create, change, publish and delete files, and
    whichever transactions of the store fail, the version of a release never
    decreases - while versions have room to grow -, and as long as it is the same,
    so are its content, its md5 and whether it can be read; and the md5 of a release
    that can be read is that of its content.  Not answered is a deletion whose
    transaction cannot be started, which panics in the middle, and a request on
    which the plugin that decrypts panics. *)
Theorem release_never_changes s s' :
  config_ok (storage s) -> rtc answered s s' -> config_ok (storage s') /\ releases_le (committed (storage s)) (committed (storage s')).
Proof.
  intros Hok. induction 1 as [s|s s1 s2 Ha _ IH]; [by split|]. apply answered_ok in Ha as [Hok1 Hle]; [|done].
  destruct (IH Hok1) as [Hok2 Hle2]. split; [done|]. by etrans.
Qed.

End handlers.
