(* ===== verification/ConfigGroup.v ===== *)
(** * Deleting a group ([src/config/config_file_group.go])

    [DeleteConfigFileGroup] deletes the files of the group a page at a time, until
    a page is not full, and then the group.  The loop ends: each turn looks further
    behind in a list of files that does not grow. *)

From S2P Require Import Prelude Effects GoStrings Utils Namespace InstanceStore ServiceStore BoltStore Api ConfigFiles ConfigStore ConfigServer ConfigPublish.
From Stdlib Require Import ZArith Lia.
From stdpp Require Import base tactics list gmap strings sorting.

Open Scope Z_scope.

Section group.
  Context (Time2String : Z -> string) (range : forall A, gmap string A -> list (string * A)).
  Context (range_ok : forall A (m : gmap string A), range A m ≡ₚ map_to_list m).
  Context (recording : bool).
  Context (cryptoManager : option (string -> option Crypto)).
  Context (afterConfigGroupResource : PbGroup -> call config_store unit unit).
  Context (P : panic -> Prop).
  Context (plugin_ok : forall why, plugin_panic cryptoManager why -> P why).

#[local] Abbreviation Server := (@Api.Server config_store).
#[local] Abbreviation reading := (reading P).

(** ** A page of files *)

(** A call that only reads and gives a list of the length of another. *)
Definition listing {A B} (l : list A) (m : call config_store unit (list B)) : Prop :=
  forall w t, current false w = Some t ->
    runs P m w (fun w' r => quiet w w' /\ match r with Okay l' => length l' = length l | Fail _ => True end).

Lemma listing_cons {A B} (x : A) (l : list A) (m : call config_store unit B) (ms : call config_store unit (list B)) :
  reading false m -> listing l ms -> listing (x :: l) (y ← m; ys ← ms; mret (y :: ys)).
Proof.
  intros Hm Hms w t Ht. apply runs_bind. eapply Hm; [done|]. intros w1 [y|e] Hq1; [|by split].
  apply runs_bind. eapply runs_weaken; [apply (Hms w1 t); by rewrite (quiet_current false w w1)|]. intros w2 r [Hq2 Hr].
  assert (quiet w w2) as Hq by by rewrite Hq1. destruct r as [ys|e]; [|by split]. apply runs_ret. split; [done|]. cbn. by rewrite Hr.
Qed.
Lemma listing_nil {A B} : listing ([] : list A) (mret ([] : list B)).
Proof. intros w t _. by apply runs_ret. Qed.

Lemma reading_fillReleaseAndTags file : reading false (fillReleaseAndTags Time2String range file).
Proof.
  unfold fillReleaseAndTags. repeat (destruct (_ : option check_error); [apply reading_raise|]).
  apply reading_bind.
  - apply reading_orelse, reading_bind; [apply reading_view|intros; apply reading_ret].
  - intros h. apply reading_bind; [by apply reading_orelse, reading_tags|intros; apply reading_ret].
Qed.

Lemma listing_fillAll files : listing files (fillAll Time2String range files).
Proof. induction files as [|f files IH]; [apply listing_nil|]. apply listing_cons; [apply reading_fillReleaseAndTags|exact IH]. Qed.
Lemma listing_decrypt user files : listing files (decryptMultiConfigFile range cryptoManager user files).
Proof. induction files as [|f files IH]; [apply listing_nil|]. apply listing_cons; [by apply reading_decrypt|exact IH]. Qed.

(** A full page ends within the list. *)
Lemma full_page {A} (l : list A) offset :
  0 <= offset -> MaxPageSize <= Z.of_nat (length (page l offset MaxPageSize)) -> wrap_u 32 (offset + MaxPageSize) <= Z.of_nat (length l) /\
    wrap_u 32 (offset + MaxPageSize) = offset + MaxPageSize.
Proof.
  unfold page, MaxPageSize. intros Ho Hfull. case_decide as Hd; [cbn in Hfull; lia|].
  rewrite length_take, length_drop in Hfull.
  pose proof (wrap_u_range 32 (offset + 100) ltac:(lia)). pose proof (wrap_u_range 32 (Z.of_nat (length l)) ltac:(lia)).
  assert (wrap_u 32 (Z.of_nat (length l)) <= Z.of_nat (length l)) by (apply Z.mod_le; lia).
  assert (wrap_u 32 (offset + 100) <= offset + 100) by (apply Z.mod_le; lia). lia.
Qed.

Lemma length_doConfigFilePage ret offset limit :
  length (doConfigFilePage range ret offset limit) = length (page (seq 0 (size ret)) offset limit).
Proof.
  unfold doConfigFilePage, page. set (l := merge_sort _ _).
  assert (length l = size ret) as ->.
  { unfold l. rewrite merge_sort_Permutation, length_fmap, range_ok. apply length_map_to_list. }
  rewrite length_seq. case_decide; [done|]. rewrite !length_take, !length_drop, length_seq. unfold l.
  by rewrite merge_sort_Permutation, length_fmap, range_ok, length_map_to_list.
Qed.

Lemma QueryConfigFilesByGroup_spec user namespace group offset s :
  pending (storage s) = None -> 0 <= offset ->
  runs P (QueryConfigFilesByGroup Time2String range cryptoManager user namespace group offset MaxPageSize) s (fun s' r =>
    quiet (storage s) (storage s') /\
    match r with
    | Okay (_, files) => MaxPageSize <= Z.of_nat (length files) ->
        wrap_u 32 (offset + MaxPageSize) = offset + MaxPageSize /\ offset + MaxPageSize <= Z.of_nat (size (tblConfigFile (committed (storage s))))
    | Fail code => code <> ExecuteSuccess
    end).
Proof.
  intros Hp Ho. unfold QueryConfigFilesByGroup. repeat (destruct (_ : option check_error); [by apply runs_raise|]).
  rewrite decide_False by (unfold MaxPageSize; lia).
  apply runs_bind, runs_orelse, runs_storage. apply runs_bind, runs_view; [|by intros]. intros w1 Hq1. apply runs_ret.
  set (ret := filter _ _). set (files := doConfigFilePage _ _ _ _).
  assert (MaxPageSize <= Z.of_nat (length files) ->
    wrap_u 32 (offset + MaxPageSize) = offset + MaxPageSize /\ offset + MaxPageSize <= Z.of_nat (size (tblConfigFile (committed (storage s))))) as Hfull.
  { unfold files. rewrite length_doConfigFilePage. intros Hf. apply full_page in Hf as [H1 H2]; [|done]. rewrite length_seq, H2 in H1.
    split; [done|]. etrans; [exact H1|]. apply Nat2Z.inj_le, map_subseteq_size, map_filter_subseteq. }
  case_decide as Hnil; [apply runs_ret; split; [done|]; unfold MaxPageSize; cbn; lia|].
  assert (current false w1 = Some (committed (storage s))) as Hc1 by (rewrite (quiet_current false _ _ Hq1); by apply current_idle).
  apply runs_bind, runs_orelse, runs_storage. cbn [storage swap]. eapply runs_weaken; [by apply (listing_fillAll files w1 (committed (storage s)))|].
  intros w2 [l2|e] [Hq2 Hl2]; [|split; [by rewrite Hq1|done]]. assert (quiet (storage s) w2) as Hq by by rewrite Hq1.
  apply runs_bind, runs_orelse, runs_storage. cbn [storage swap].
  eapply runs_weaken; [apply (listing_decrypt user l2 w2 (committed (storage s))); rewrite (quiet_current false _ _ Hq); by apply current_idle|].
  intros w3 [l3|e] [Hq3 Hl3]; [|split; [by rewrite Hq|done]]. apply runs_ret. split; [by rewrite Hq|]. rewrite Hl3, Hl2. exact Hfull.
Qed.

(** ** The loop *)

Definition file_keys (s : Server) : gset string := dom (tblConfigFile (committed (storage s))).

(** Between two files. *)
Record deleting (s s' : Server) : Prop := {
  d_idle : pending (storage s') = None;
  d_keyed : keyed (committed (storage s'));
  d_files : file_keys s' ⊆ file_keys s;
  d_groups : tblConfigFileGroup (committed (storage s')) = tblConfigFileGroup (committed (storage s)) }.

Lemma deleting_refl s : pending (storage s) = None -> keyed (committed (storage s)) -> deleting s s.
Proof. by split. Qed.
Lemma deleting_trans s s1 s2 : deleting s s1 -> deleting s1 s2 -> deleting s s2.
Proof. intros [H1 H2 H3 H4] [H1' H2' H3' H4']. split; [done|done|set_solver|congruence]. Qed.
Lemma deleting_quiet s s1 s2 : deleting s s1 -> quiet (storage s1) (storage s2) -> deleting s s2.
Proof. intros [H1 H2 H3 H4] (Hc & Hp & _). split; unfold file_keys in *; rewrite ?Hp, ?Hc; done. Qed.

Lemma erased_deleting namespace group name s s' :
  keyed (committed (storage s)) -> pending (storage s') = None -> is_Some (getConfigFile (committed (storage s)) namespace group name) ->
  erased namespace group name (committed (storage s)) (committed (storage s')) -> deleting s s'.
Proof.
  intros Hk Hp Hsome He. split; [done|by eapply erased_keyed| |by apply He].
  unfold file_keys. intros k. rewrite !elem_of_dom. destruct (decide (k = file_key namespace group name)) as [->|Hne].
  - intros _. destruct Hsome as [f Hf]. unfold getConfigFile in Hf. destruct (tblConfigFile _ !! _); [by eexists|done].
  - by rewrite (erased_others _ _ _ _ _ He).
Qed.

Lemma only_file_deleting namespace group name s s' :
  pending (storage s') = None -> only_file namespace group name (committed (storage s)) (committed (storage s')) -> deleting s s'.
Proof.
  intros Hp [Hf Hin _ _ Hg Hk]. split; [done..| |done]. unfold file_keys. intros k. rewrite !elem_of_dom.
  destruct (decide (k = file_key namespace group name)) as [->|Hne]; [done|by rewrite Hf].
Qed.

Lemma deletion_deleting namespace group name s s' r :
  keyed (committed (storage s)) -> deletion namespace group name s s' r -> deleting s s'.
Proof.
  intros Hk [Hp Hd]. destruct (reply r) as [rsp|why]; [|by eapply only_file_deleting; [|apply Hd]]. destruct Hd as [_ Hd].
  case_decide; [destruct (getConfigFile _ _ _ _) eqn:Hf|]; [by eapply erased_deleting|..]; (split; unfold file_keys; rewrite ?Hd; done).
Qed.

Lemma deletion_crash namespace group name s s' r why : deletion namespace group name s s' r -> reply r = Panics why -> why = NilDereference.
Proof. intros [_ Hd] Hr. rewrite Hr in Hd. apply Hd. Qed.

Lemma BatchDeleteConfigFile_spec user files operator s :
  pending (storage s) = None -> keyed (committed (storage s)) ->
  runs P (BatchDeleteConfigFile Time2String range recording cryptoManager user files operator) s (fun s' r =>
    deleting s s' /\ (forall why, reply r = Panics why -> why = NilDereference)).
Proof.
  revert s. induction files as [|f files IH]; intros s Hp Hk; cbn [BatchDeleteConfigFile]; [by apply runs_ret; split; [apply deleting_refl|]|].
  apply runs_bind, runs_attempt. eapply runs_weaken; [by apply DeleteConfigFile_spec|]. intros s1 r Hd. pose proof (deletion_deleting _ _ _ _ _ _ Hk Hd) as H1.
  destruct (reply r) as [rsp|why] eqn:Hr; [|apply runs_raise; split; [done|]; intros ? [= <-]; by eapply deletion_crash].
  case_decide; [by apply runs_landing, runs_raise|].
  eapply runs_weaken; [apply IH; apply H1|]. intros s2 r2 [H2 ?]. split; [by eapply deleting_trans|done].
Qed.

(** Each turn looks a page further into at most [n] files. *)
Lemma deleteGroupFiles_spec n fuel user namespace name startOffset s :
  pending (storage s) = None -> keyed (committed (storage s)) -> Z.of_nat (size (tblConfigFile (committed (storage s)))) <= n ->
  0 <= startOffset <= n -> n < startOffset + MaxPageSize * Z.of_nat fuel ->
  runs P (deleteGroupFiles Time2String range recording cryptoManager fuel user namespace name startOffset) s (fun s' r =>
    deleting s s' /\ match r with
    | Okay _ => True
    | Fail (inl resp) => coCode resp <> ExecuteSuccess
    | Fail (inr why) => why = NilDereference
    end).
Proof.
  revert startOffset s. induction fuel as [|fuel IH]; intros startOffset s Hp Hk Hsize Ho Hfuel; [unfold MaxPageSize in *; lia|].
  cbn [deleteGroupFiles]. apply runs_bind, runs_landing, runs_orelse. eapply runs_weaken; [apply QueryConfigFilesByGroup_spec; [done|lia]|].
  intros s1 r [Hq1 Hr]. pose proof (deleting_quiet s s s1 (deleting_refl s Hp Hk) Hq1) as H1.
  destruct r as [[count files]|code]; [|by split].
  apply runs_bind, runs_attempt. eapply runs_weaken; [apply BatchDeleteConfigFile_spec; apply H1|]. intros s2 r [H2 Hnil].
  pose proof (deleting_trans _ _ _ H1 H2) as H12. destruct (reply r) as [rsp|why]; [|by apply runs_raise; split; [|apply Hnil]].
  case_decide; [by apply runs_landing, runs_raise|].
  case_decide as Hfull; [|by apply runs_ret]. cbn in Hfull. destruct (Hr Hfull) as [-> Hin].
  eapply runs_weaken; [apply IH; [apply H12|apply H12|..]|].
  - pose proof (subseteq_size _ _ (d_files _ _ H12)) as Hle. unfold file_keys in Hle. rewrite !size_dom in Hle. lia.
  - unfold MaxPageSize in *. lia.
  - unfold MaxPageSize in *. lia.
  - intros s3 ? [H3 ?]. split; [by apply (deleting_trans s s2)|done].
Qed.

End group.

Section ends.
  Context (Time2String : Z -> string) (range : forall A, gmap string A -> list (string * A)).
  Context (range_ok : forall A (m : gmap string A), range A m ≡ₚ map_to_list m).
  Context (recording : bool).
  Context (cryptoManager : option (string -> option Crypto)).
  Context (afterConfigGroupResource : PbGroup -> call config_store unit unit).

Definition may_panic (why : panic) : Prop := plugin_panic cryptoManager why \/ why = NilDereference.

(** The hook leaves the store alone. *)
Context (hook_quiet : forall g, reading may_panic false (afterConfigGroupResource g)).

(** The rows of deleted groups stay, and cannot be read. *)
Definition group_there (t : tables) (namespace name : string) : bool :=
  match tblConfigFileGroup t !! group_key namespace name with Some g => cgValid g | None => false end.

(** C28. Deleting a group ends: with as much fuel as there are pages of files, one
    more for the last that is not full, the loop comes to its end in every state,
    whichever calls of the store fail; the store is left without an open
    transaction and keyed; and the answer is success only if the group is gone.
    It panics only where the plugin does, and on a transaction that could not be
    started, which leaves the store in order, too. *)
Theorem group_deletion_ends fuel user namespace name s :
  pending (storage s) = None -> keyed (committed (storage s)) ->
  Z.of_nat (size (tblConfigFile (committed (storage s)))) < MaxPageSize * Z.of_nat fuel ->
  runs may_panic (DeleteConfigFileGroup Time2String range recording cryptoManager afterConfigGroupResource fuel user namespace name) s
    (fun s' r => pending (storage s') = None /\ keyed (committed (storage s')) /\
       match reply r with
       | Ret rsp => coCode rsp = ExecuteSuccess -> group_there (committed (storage s')) namespace name = false
       | Panics why => why = NilDereference
       end).
Proof.
  intros Hp Hk Hfuel. unfold DeleteConfigFileGroup. repeat (destruct (_ : option check_error); [by apply runs_landing, runs_raise|]).
  apply runs_bind. eapply runs_weaken.
  { apply (deleteGroupFiles_spec Time2String range range_ok recording cryptoManager may_panic) with
      (n := Z.of_nat (size (tblConfigFile (committed (storage s))))); [by left|done|done|lia..]. }
  intros s1 r [[Hp1 Hk1 _ _] Hr]. destruct r as [[]|[resp|why]]; [|by cbn in *; split_and!..].
  set (done := fun (s' : @Api.Server config_store) (r : result (ConfigResponse + panic) ConfigResponse) => _).
  assert (forall s' resp, pending (storage s') = None -> keyed (committed (storage s')) -> coCode resp <> ExecuteSuccess -> done s' (Fail (inl resp)))
    as Hno.
  { intros s' resp H1 H2 H3. split; [exact H1|]. split; [exact H2|]. intros H. by destruct (H3 H). }
  apply runs_landing, runs_bind, runs_or_answer. unfold GetConfigFileGroup. case_decide as Hnames; [by apply runs_raise, Hno|].
  apply runs_view; [|by intros w e (Hc & Hq & _); apply Hno; cbn; rewrite ?Hc, ?Hq].
  intros w2 (Hc2 & Hq2 & _). destruct (tblConfigFileGroup (committed (storage s1)) !! group_key namespace name) as [g|] eqn:Hg;
    [|by apply runs_raise, Hno; cbn; rewrite ?Hc2, ?Hq2]. cbn.
  destruct (cgValid g); [|by apply runs_raise, Hno; cbn; rewrite ?Hc2, ?Hq2].
  apply runs_bind, runs_or_answer. unfold ConfigStore.DeleteConfigFileGroup. rewrite decide_False by done.
  apply runs_update; [cbn; congruence|..].
  2: { intros w3 e (Hc3 & Hq3 & _). apply Hno; [..|done]; cbn in *; rewrite ?Hc3, ?Hq3, ?Hc2, ?Hq2; done. }
  intros w3 Hm3. destruct (moved_committed _ _ _ Hm3) as [Hc3 Hq3]. cbn in Hc3. rewrite Hc2 in Hc3.
  assert (keyed (committed w3)) as Hk3 by (rewrite Hc3; destruct Hk1; by split).
  apply runs_bind, runs_or_decrypt. eapply hook_quiet; [by apply (current_idle w3)|]. intros w4 r (Hc4 & Hq4 & _). cbn in Hc4, Hq4.
  destruct r as [[]|e]; [|apply Hno; cbn; [congruence|by rewrite Hc4|done]].
  apply runs_bind, runs_record. intros hist. apply runs_ret. split; [cbn; congruence|]. cbn. rewrite Hc4. split; [done|].
  intros _. rewrite Hc3. unfold group_there. cbn. by rewrite lookup_alter_eq, Hg.
Qed.

End ends.
