(* ===== verification/FileCache.v ===== *)
(** * The cache of configuration files, and what clients are given ([src/cache/config_file.go], [src/config/client_config_file.go])

    Clients are answered from a cache that a load fills, the scanner renews
    ([ConfigWatch.v]) and time empties.  A load reads the store under a lock of its
    file and writes the cache afterwards, so that publications and removals may
    come in between; the steps below let them. *)

From S2P Require Import Prelude Effects GoStrings Utils Namespace InstanceStore ServiceStore BoltStore Api ConfigFiles ConfigStore ConfigServer ConfigPublish.
From Stdlib Require Import ZArith Ascii Lia.
From stdpp Require Import base tactics list gmap strings relations.

Open Scope Z_scope.

Record Entry := mkEntry {
  feContent : string;
  feMd5 : string;
  feVersion : Z;
  feDataKey : string;
  feExpireTime : Z;
  feEmpty : bool }.

(** The server, and [files] of the cache. *)
Record center := mkCenter { server : @Api.Server config_store; files : gmap string Entry }.

Definition on_server {E A} (m : call config_store E A) : call center E A := fun c =>
  match on_storage m (server c) with
  | Ret (s, r) => Ret (mkCenter s (files c), r)
  | Panics why => Panics why
  end.
Definition set_entry (c : center) (fileId : string) (e : Entry) : center := mkCenter (server c) (<[fileId := e]> (files c)).

Section cache.
  Context (range : forall A, gmap string A -> list (string * A)).
  (** [fc.expireTimeAfterWrite], in seconds. *)
  Context (expireTimeAfterWrite : Z).

Definition Get (c : center) (namespace group fileName : string) : option Entry := files c !! GenFileId namespace group fileName.

(** The last tag of the key wins. *)
Definition data_key (tags : list ConfigFileTag) : string :=
  foldl (fun v tag => if decide (ctKey tag = ConfigFileTagKeyDataKey) then ctValue tag else v) "" tags.

Definition getConfigFileReleaseAndDataKey (namespace group fileName : string) : call config_store StatusCode (option ConfigFileRelease * string) :=
  file ← ConfigStore.GetConfigFileRelease false namespace group fileName;
  tags ← QueryTagByConfigFile range namespace group fileName;
  mret (file, data_key tags).

(** [rand]: what [rand.Intn(10*60)] gives. *)
Definition getExpireTime (rand now : Z) : Z := now + (rand + expireTimeAfterWrite) * 10 ^ 9.

(** What is kept of a release, or of none. *)
Definition entry_of (file : option ConfigFileRelease) (dataKey : string) (expireTime : Z) : Entry :=
  match file with
  | None => mkEntry "" "" 0 "" expireTime true
  | Some file => mkEntry (crContent file) (crMd5 file) (crVersion file) dataKey expireTime false
  end.

(** The file is not in the cache. *)
Definition load (rand : Z) (namespace group fileName : string) : call center StatusCode Entry :=
  '(file, dataKey) ← on_server (getConfigFileReleaseAndDataKey namespace group fileName);
  c ← get;
  mret (entry_of file dataKey (getExpireTime rand (now (storage (server c))))).

Definition GetOrLoadIfAbsent (rand : Z) (namespace group fileName : string) : call center StatusCode Entry :=
  c ← get;
  match Get c namespace group fileName with
  | Some entry => mret entry
  | None =>
      entry ← load rand namespace group fileName;
      _ ← modify (fun c => set_entry c (GenFileId namespace group fileName) entry);
      mret entry
  end.

Definition Remove (namespace group fileName : string) : call center StatusCode unit :=
  modify (fun c => mkCenter (server c) (delete (GenFileId namespace group fileName) (files c))).

Definition ReLoad (rand : Z) (namespace group fileName : string) : call center StatusCode Entry :=
  _ ← Remove namespace group fileName; GetOrLoadIfAbsent rand namespace group fileName.

Definition CleanAll : call center StatusCode unit := modify (fun c => mkCenter (server c) ∅).

(** A tick of [startClearExpireEntryTask]. *)
Definition clearExpireEntries : call center StatusCode unit :=
  modify (fun c => mkCenter (server c) (filter (fun kv => now (storage (server c)) <= feExpireTime kv.2) (files c))).

(** ** Clients ([client_config_file.go]) *)

(** What the data key is for the client's public key: [rsa.EncryptToBase64], which
    pads with random bytes, of the decoded key. *)
Context (EncryptToBase64 : string -> string -> option string).

Definition or_client {A} (m : call center StatusCode A) (code : Code) : call center ConfigClientResponse A :=
  orelse m (fun _ => mkClientResponse code None).

Definition GetConfigFileForClient (rand : nat -> Z) (client : ClientFile) : call center ConfigClientResponse ConfigClientResponse :=
  let namespace := GetValue (clNamespace client) in
  let group := GetValue (clGroup client) in
  let fileName := GetValue (clFileName client) in
  let publicKey := GetValue (clPublicKey client) in
  if decide (namespace = "" \/ group = "" \/ fileName = "") then raise (mkClientResponse BadRequest None)
  else
    entry ← or_client (GetOrLoadIfAbsent (rand 0%nat) namespace group fileName) ExecuteException;
    if feEmpty entry then raise (mkClientResponse NotFoundResource None)
    else
      entry ← (
        if decide (feVersion entry < GetUint (clVersion client)) then or_client (ReLoad (rand 1%nat) namespace group fileName) ExecuteException
        else mret entry);
      let answer (isEncrypted : bool) (dataKey : string) :=
        GenConfigFileResponse namespace group fileName (feContent entry) (feMd5 entry) (feVersion entry) isEncrypted dataKey in
      if decide (feDataKey entry <> "" /\ publicKey <> "") then
        mret (answer true (default "" (EncryptToBase64 (feDataKey entry) publicKey)))
      else mret (answer (bool_decide (feDataKey entry <> "")) "").

Definition compareByVersion (clientConfigFile : ClientFile) (cacheEntry : Entry) : bool :=
  negb (feEmpty cacheEntry) && bool_decide (GetUint (clVersion clientConfigFile) < feVersion cacheEntry).

(** The first file that [compartor] finds changed. *)
Fixpoint checkClientFiles (rand : Z) (compartor : ClientFile -> Entry -> bool) (configFiles : list ClientFile)
    : call center ConfigClientResponse ConfigClientResponse :=
  match configFiles with
  | [] => mret (mkClientResponse DataNoChange None)
  | configFile :: configFiles =>
      let namespace := GetValue (clNamespace configFile) in
      let group := GetValue (clGroup configFile) in
      let fileName := GetValue (clFileName configFile) in
      if decide (namespace = "" \/ group = "" \/ fileName = "") then raise (mkClientResponse BadRequest None)
      else
        entry ← or_client (GetOrLoadIfAbsent rand namespace group fileName) ExecuteException;
        if compartor configFile entry then
          mret (GenConfigFileResponse namespace group fileName "" (feMd5 entry) (feVersion entry) false "")
        else checkClientFiles rand compartor configFiles
  end.
Definition doCheckClientConfigFile (rand : Z) (configFiles : list ClientFile) (compartor : ClientFile -> Entry -> bool)
    : call center ConfigClientResponse ConfigClientResponse :=
  if decide (configFiles = []) then mret (mkClientResponse InvalidWatchConfigFileFormat None)
  else checkClientFiles rand compartor configFiles.

(** ** Everything that happens to the cache *)

(** A load that has read the store and not yet written the cache. *)
Record loading := mkLoading { lNamespace : string; lGroup : string; lFileName : string; lEntry : Entry }.
Record caching := mkCaching { state : center; loads : list loading }.

End cache.

Section steps.
  Context `{!InstanceStorage bolt, !ServiceStorage bolt}.
  Context (Time2String : Z -> string) (range : forall A, gmap string A -> list (string * A)).
  Context (recording : bool).
  Context (cryptoManager : option (string -> option Crypto)).
  Context (allowAutoCreate : bool) (cached : string -> bool).
  Context (afterNamespaceResource : PbNamespace -> NamespaceModel -> bool -> call bolt unit unit).
  Context (afterConfigGroupResource : PbGroup -> call config_store unit unit).
  Context (hook_frames : forall g, framing (afterConfigGroupResource g)).
  Context (range_ok : forall A (m : gmap string A), range A m ≡ₚ map_to_list m).
  Context (expireTimeAfterWrite : Z).

#[local] Abbreviation answered := (answered Time2String range recording cryptoManager allowAutoCreate cached afterNamespaceResource
  afterConfigGroupResource).
#[local] Abbreviation load := (load range expireTimeAfterWrite).

Definition store_of (c : center) : config_store := storage (server c).
Definition tables_of (c : center) : tables := committed (store_of c).
Definition at_time (c : center) (time : Z) : center :=
  let s := server c in
  mkCenter (mkServer (mkStore (base (storage s)) (committed (storage s)) (pending (storage s)) (counts (storage s)) time)
    (published s) (history s)) (files c).

(** One thing that happens: a request is answered, a load reads or writes, a file
    is removed from the cache, expired files are, time passes. *)
Inductive cache_step : caching -> caching -> Prop :=
| step_request c ls s' : answered (server c) s' -> cache_step (mkCaching c ls) (mkCaching (mkCenter s' (files c)) ls)
| step_read c ls rand namespace group fileName c' r :
    load rand namespace group fileName c = Ret (c', r) ->
    cache_step (mkCaching c ls)
      (mkCaching c' (match r with Okay entry => mkLoading namespace group fileName entry :: ls | Fail _ => ls end))
| step_write c before l after :
    cache_step (mkCaching c (before ++ l :: after))
      (mkCaching (set_entry c (GenFileId (lNamespace l) (lGroup l) (lFileName l)) (lEntry l)) (before ++ after))
| step_remove c ls fileId : cache_step (mkCaching c ls) (mkCaching (mkCenter (server c) (delete fileId (files c))) ls)
| step_expire c ls c' : clearExpireEntries c = Ret (c', Okay ()) -> cache_step (mkCaching c ls) (mkCaching c' ls)
| step_time c ls time : now (store_of c) <= time -> cache_step (mkCaching c ls) (mkCaching (at_time c time) ls).

(** ** The cache holds releases *)

(** An entry that is, or was, the release of the file. *)
Definition past (t : tables) (namespace group fileName : string) (e : Entry) : Prop :=
  feEmpty e = false ->
  feMd5 e = CalMd5 (feContent e) /\
  exists row, tblConfigFileRelease t !! release_key namespace group fileName = Some row /\ feVersion e <= crVersion row /\
    (feVersion e = crVersion row -> crValid row = true /\ crContent row = feContent e /\ crMd5 row = feMd5 e).

Lemma past_later t t' namespace group fileName e : releases_le t t' -> past t namespace group fileName e -> past t' namespace group fileName e.
Proof.
  intros Hle Hp He. destruct (Hp He) as (Hmd & row & Hrow & Hv & Hsame). split; [done|].
  destruct (Hle _ _ Hrow) as (row' & Hrow' & Hv' & Hsame'). exists row'. split; [done|]. split; [lia|]. intros Heq.
  destruct (Hsame ltac:(lia)) as (? & ? & ?), (Hsame' ltac:(lia)) as (? & ? & ?). split_and!; congruence.
Qed.

Lemma past_entry t namespace group fileName dataKey expireTime : sums t ->
  past t namespace group fileName (entry_of (getConfigFileReleaseByFlag t namespace group fileName false) dataKey expireTime).
Proof.
  intros Hs. destruct (getConfigFileReleaseByFlag _ _ _ _ _) as [row|] eqn:Hrow; [|done]. cbn. intros _.
  apply getConfigFileReleaseByFlag_valid in Hrow as [Hrow Hv]. split; [by apply (Hs _ _ Hrow)|]. exists row. split_and!; [done|cbn; lia|done].
Qed.

Definition cache_sound (x : caching) : Prop :=
  let t := tables_of (state x) in
  config_ok (store_of (state x)) /\
  map_Forall (fun fileId e => exists namespace group fileName, fileId = GenFileId namespace group fileName /\ past t namespace group fileName e)
    (files (state x)) /\
  Forall (fun l => past t (lNamespace l) (lGroup l) (lFileName l) (lEntry l)) (loads x).

Lemma cache_sound_later c ls s' : cache_sound (mkCaching c ls) -> config_ok (storage s') -> releases_le (tables_of c) (committed (storage s')) ->
  cache_sound (mkCaching (mkCenter s' (files c)) ls).
Proof.
  intros (Hok & Hf & Hl) Hok' Hle. split_and!; [done|..].
  - intros fileId e He. destruct (Hf fileId e He) as (n & g & f & -> & Hp). exists n, g, f. split; [done|]. by eapply past_later.
  - eapply Forall_impl; [exact Hl|]. intros l. by apply past_later.
Qed.

(** A load reads: the store is as it was, and the entry is the release. *)
Lemma load_spec P rand namespace group fileName c :
  config_ok (store_of c) ->
  runs P (load rand namespace group fileName) c (fun c' r => files c' = files c /\ quiet (store_of c) (store_of c') /\
    match r with
    | Okay e => exists dataKey expireTime, e = entry_of (getConfigFileReleaseByFlag (tables_of c) namespace group fileName false) dataKey expireTime
    | Fail _ => True
    end).
Proof.
  intros (Hp & _ & _). apply runs_bind.
  assert (forall (m : call config_store StatusCode (option ConfigFileRelease * string)) (Q : center -> result StatusCode (option ConfigFileRelease * string) -> Prop),
    runs P m (store_of c) (fun w' r => Q (mkCenter (swap (server c) w') (files c)) r) -> runs P (on_server m) c Q) as Hon.
  { intros m Q. unfold runs, on_server, on_storage, store_of. by destruct (m _) as [[w' r]|why]. }
  apply Hon. unfold getConfigFileReleaseAndDataKey. apply runs_bind. eapply runs_read; [by apply current_idle|..]; [|by intros].
  intros w1 Hq1. apply runs_bind, runs_bind, runs_view.
  - intros w2 Hq2. apply runs_ret, runs_ret, runs_bind, runs_get, runs_ret. cbn.
    split; [done|]. split; [by etrans|]. by eexists _, _.
  - intros w2 e Hq2. cbn. split; [done|]. by split; [etrans|].
Qed.

Lemma config_ok_quiet w w' : config_ok w -> quiet w w' -> config_ok w'.
Proof. intros (Hp & Hk & Hs) (H1 & H2 & _). unfold config_ok. rewrite H1, H2. by split_and!. Qed.

Lemma cache_sound_read c ls c' : cache_sound (mkCaching c ls) -> files c' = files c -> quiet (store_of c) (store_of c') -> cache_sound (mkCaching c' ls).
Proof.
  intros Hs Hf Hq. pose proof Hs as (Hok & _). destruct c' as [s' fs]. cbn in Hf. subst fs. apply cache_sound_later; [done|by eapply config_ok_quiet|].
  destruct Hq as (Hq & _). change (releases_le (tables_of c) (committed (store_of (mkCenter s' (files c))))). unfold tables_of. by rewrite Hq.
Qed.

Lemma cache_sound_write c before l after : cache_sound (mkCaching c (before ++ l :: after)) ->
  cache_sound (mkCaching (set_entry c (GenFileId (lNamespace l) (lGroup l) (lFileName l)) (lEntry l)) (before ++ after)).
Proof.
  intros (Hok & Hf & Hl). apply Forall_app in Hl as [H1 [H2 H3]%Forall_cons]. split_and!; [done| |by apply Forall_app].
  apply map_Forall_insert_2; [by eexists _, _, _|done].
Qed.

Lemma cache_sound_less c ls fs : cache_sound (mkCaching c ls) -> fs ⊆ files c -> cache_sound (mkCaching (mkCenter (server c) fs) ls).
Proof. intros (Hok & Hf & Hl) Hsub. split_and!; [done| |done]. intros fileId e He. apply (Hf fileId e). by eapply lookup_weaken. Qed.

Lemma cache_step_sound x x' : cache_step x x' -> cache_sound x -> cache_sound x'.
Proof.
  intros Hstep Hs. pose proof Hs as (Hok & _). destruct Hstep as [c ls s' Hreq|c ls rand n g f c' r Hload|c before l after|c ls k|c ls c' He|c ls time Ht].
  - destruct (answered_ok Time2String range recording cryptoManager allowAutoCreate cached afterNamespaceResource
      afterConfigGroupResource hook_frames range_ok (server c) s') as [Hok' Hle]; [done..|]. by apply cache_sound_later.
  - pose proof (load_spec (fun _ => True) rand n g f c Hok) as Hspec. unfold runs in Hspec. rewrite Hload in Hspec.
    destruct Hspec as (Hf & Hq & Hr). pose proof (cache_sound_read _ _ _ Hs Hf Hq) as Hs'. destruct r as [e|e]; [|done].
    destruct Hr as (dataKey & expireTime & ->). destruct Hs' as (H1 & H2 & H3). split_and!; [done..|]. constructor; [|done].
    apply (past_later (tables_of c)); [destruct Hq as (Hq & _); cbn [state]; unfold tables_of; by rewrite Hq|]. apply past_entry, Hok.
  - by apply cache_sound_write.
  - apply cache_sound_less; [done|apply delete_subseteq].
  - injection He as <-. apply cache_sound_less; [done|apply map_filter_subseteq].
  - destruct Hs as (_ & Hf & Hl). by split_and!.
Qed.

(** The cache never holds anything but releases: whatever requests, loads,
    removals and expiries come in whatever order - a load may write long after it
    has read - an entry has the md5 of its content, is no newer than the store's
    release, and is that release if it has its version. *)
Theorem cache_holds_releases x x' : cache_sound x -> rtc cache_step x x' -> cache_sound x'.
Proof. intros Hs. induction 1 as [|x x1 x2 H1 _ IH]; [done|]. by apply IH, (cache_step_sound x). Qed.

End steps.

(** ** Clients are given releases *)

Section clients.
  Context (range : forall A, gmap string A -> list (string * A)).
  Context (expireTimeAfterWrite : Z).

#[local] Abbreviation GetOrLoadIfAbsent := (GetOrLoadIfAbsent range expireTimeAfterWrite).
#[local] Abbreviation ReLoad := (ReLoad range expireTimeAfterWrite).

Definition plain_file (namespace group fileName : string) : Prop :=
  occurs "+" namespace = false /\ occurs "+" group = false /\ occurs "+" fileName = false.

Lemma cache_sound_get c ls namespace group fileName e : plain_file namespace group fileName -> cache_sound (mkCaching c ls) ->
  Get c namespace group fileName = Some e -> past (tables_of c) namespace group fileName e.
Proof.
  intros (Hn & Hg & Hf) (_ & Hs & _) He. destruct (Hs _ _ He) as (n' & g' & f' & Heq & Hp).
  by apply GenFileId_inj in Heq as (-> & -> & ->).
Qed.

(** The store and the other files are as they were. *)
Definition reads (fileId : string) (c c' : center) : Prop :=
  tables_of c' = tables_of c /\ now (store_of c') = now (store_of c) /\ forall k, k <> fileId -> files c' !! k = files c !! k.

(** The answer is in the cache, and reading it is no request. *)
Lemma GetOrLoadIfAbsent_spec P rand namespace group fileName c ls :
  plain_file namespace group fileName -> cache_sound (mkCaching c ls) ->
  runs P (GetOrLoadIfAbsent rand namespace group fileName) c (fun c' r => cache_sound (mkCaching c' ls) /\ reads (GenFileId namespace group fileName) c c' /\ files c ⊆ files c' /\
    match r with
    | Okay e => past (tables_of c') namespace group fileName e /\ Get c' namespace group fileName = Some e /\
        (Get c namespace group fileName = None ->
           exists dataKey expireTime, e = entry_of (getConfigFileReleaseByFlag (tables_of c) namespace group fileName false) dataKey expireTime)
    | Fail _ => Get c' namespace group fileName = None
    end).
Proof.
  intros Hplain Hs. pose proof Hs as (Hok & _). unfold FileCache.GetOrLoadIfAbsent. apply runs_bind, runs_get.
  destruct (Get c namespace group fileName) as [e|] eqn:He.
  - apply runs_ret. split; [done|]. split; [done|]. split; [done|]. split; [by eapply cache_sound_get|]. by split.
  - apply runs_bind. eapply runs_weaken; [by apply load_spec|]. intros c1 r (Hf & Hq & Hr).
    pose proof (cache_sound_read _ _ _ Hs Hf Hq) as Hs1. pose proof Hq as (Ht & _ & Hnow & _).
    assert (reads (GenFileId namespace group fileName) c c1) as Hreads by (split_and!; [done..|by intros; rewrite Hf]).
    destruct r as [e|e]; [|split_and!; try done; rewrite ?Hf; try done; unfold Get; by rewrite Hf].
    apply runs_bind, runs_modify, runs_ret. destruct Hr as (dataKey & expireTime & Hr).
    assert (past (tables_of c1) namespace group fileName e) as Hpast.
    { subst e. unfold tables_of at 1. rewrite Ht. apply past_entry, Hok. }
    split; [|split; [|split; [|split; [done|]]]].
    + apply (cache_sound_write c1 [] (mkLoading namespace group fileName e) ls). destruct Hs1 as (H1 & H2 & H3). split_and!; [done..|]. by apply Forall_cons.
    + destruct Hreads as (? & ? & Ho). split_and!; [done..|]. intros k Hk. cbn. rewrite lookup_insert_ne by done. by apply Ho.
    + rewrite <- Hf. apply insert_subseteq. rewrite Hf. exact He.
    + split; [by apply lookup_insert_eq|]. intros _. by exists dataKey, expireTime.
Qed.

Lemma ReLoad_spec P rand namespace group fileName c ls :
  plain_file namespace group fileName -> cache_sound (mkCaching c ls) ->
  runs P (ReLoad rand namespace group fileName) c (fun c' r => cache_sound (mkCaching c' ls) /\ reads (GenFileId namespace group fileName) c c' /\
    match r with
    | Okay e => Get c' namespace group fileName = Some e /\
        exists dataKey expireTime, e = entry_of (getConfigFileReleaseByFlag (tables_of c) namespace group fileName false) dataKey expireTime
    | Fail _ => Get c' namespace group fileName = None
    end).
Proof.
  intros Hplain Hs. unfold FileCache.ReLoad. apply runs_bind, runs_modify.
  eapply runs_weaken; [apply GetOrLoadIfAbsent_spec; [done|]|].
  - apply cache_sound_less; [done|apply delete_subseteq].
  - intros c' r (? & (? & ? & Ho) & _ & Hr). split; [done|]. split.
    + split_and!; [done..|]. intros k Hk. rewrite Ho by done. by apply lookup_delete_ne.
    + destruct r; [|done]. destruct Hr as (_ & Hget & Hr). split; [done|]. apply Hr, lookup_delete_eq.
Qed.

(** What a client that has a version is answered as the file: the content and md5 of
    an entry that is or was the release of the file and that is no older than what it
    has; or, when it has a later version than such an entry of the cache, the store's
    own release - or nothing, under version zero, when the store has none any more. *)
Definition holds (e : Entry) (file : ClientFile) : Prop :=
  clContent file = Some (feContent e) /\ clMd5 file = Some (feMd5 e) /\ clVersion file = Some (feVersion e).
Definition given (t : tables) (version : Z) (namespace group fileName : string) (file : ClientFile) : Prop :=
  clNamespace file = Some namespace /\ clGroup file = Some group /\ clFileName file = Some fileName /\
  exists e, past t namespace group fileName e /\ feEmpty e = false /\
    if decide (version <= feVersion e) then holds e file
    else match getConfigFileReleaseByFlag t namespace group fileName false with
         | Some r => clContent file = Some (crContent r) /\ clMd5 file = Some (crMd5 r) /\ clVersion file = Some (crVersion r)
         | None => clContent file = Some "" /\ clMd5 file = Some "" /\ clVersion file = Some 0
         end.

(** C14. Clients get releases: in any state the cache comes to, a client that asks for
    a file of a plain name is answered its content and md5 under a version of which
    the store's release is no older; or, if the client has seen a later version than
    the cache holds, the store's own release - and success with an empty file of
    version zero, if the store has none any more -; or an error and no file.  The
    server never panics and the store is not changed. *)
Theorem clients_get_releases (EncryptToBase64 : string -> string -> option string) rand client c ls :
  let namespace := GetValue (clNamespace client) in
  let group := GetValue (clGroup client) in
  let fileName := GetValue (clFileName client) in
  plain_file namespace group fileName -> cache_sound (mkCaching c ls) ->
  runs (fun _ => False) (GetConfigFileForClient range expireTimeAfterWrite EncryptToBase64 rand client) c (fun c' r =>
    cache_sound (mkCaching c' ls) /\ tables_of c' = tables_of c /\
    match r with
    | Okay resp => exists file, resp = mkClientResponse ExecuteSuccess (Some file) /\
        given (tables_of c) (GetUint (clVersion client)) namespace group fileName file
    | Fail resp => clFile resp = None /\ clCode resp ∈ [BadRequest; NotFoundResource; ExecuteException]
    end).
Proof.
  intros namespace group fileName Hplain Hs. unfold GetConfigFileForClient. fold namespace group fileName.
  case_decide; [apply runs_raise; split_and!; try done; set_solver|].
  apply runs_bind, runs_orelse. eapply runs_weaken; [by apply GetOrLoadIfAbsent_spec|].
  intros c1 [e|e] (Hs1 & (Ht1 & _) & _ & Hr); [|split_and!; try done; set_solver].
  destruct Hr as (Hp & _ & _). rewrite Ht1 in Hp. destruct (feEmpty e) eqn:He; [apply runs_raise; split_and!; try done; set_solver|].
  apply runs_bind. case_decide as Hv.
  - apply runs_orelse. eapply runs_weaken; [by apply ReLoad_spec|].
    intros c2 [e2|e2] (Hs2 & (Ht2 & _) & Hr); [|split_and!; [done|congruence|done|set_solver]].
    destruct Hr as (_ & dataKey & expireTime & ->). rewrite Ht1.
    case_decide; apply runs_ret; (split; [done|]); (split; [congruence|]); eexists; (split; [done|]); (split_and!; [done..|]); exists e;
      (split; [done|]); (split; [done|]); (rewrite decide_False by lia); by destruct (getConfigFileReleaseByFlag _ _ _ _ _).
  - apply runs_ret.
    case_decide; apply runs_ret; (split; [done|]); (split; [done|]); eexists; (split; [done|]); (split_and!; [done..|]); exists e;
      (split; [done|]); (split; [done|]); by rewrite decide_True by lia.
Qed.

End clients.
