(* ===== verification/ConfigWatch.v ===== *)
(** * Watching configuration files ([src/config/watcher.go], [connection_manager.go])

    A client that has the latest of its files waits on a channel.  The notifier
    answers the clients that wait for a file with an older version than is
    released; a worker answers the clients that have waited for thirty seconds.
    The notifier, the worker and the requests run side by side: what one of them
    has read before the others went on is an argument of the definitions below
    ([seen], [loaded]). *)

From S2P Require Import Prelude Effects GoStrings Utils ConfigFiles.
From Stdlib Require Import ZArith Lia.
From stdpp Require Import base tactics list gmap strings relations.

Open Scope Z_scope.

(** [finishChan]: channels are numbered. *)
Record connection := mkConn { finishTime : Z; finishChan : Z; watchConfigFiles : list ClientFile }.

(** [configFileWatchers]: file, client, [ClientVersion]; the callback is the one of
    [AddConn] for all.  [sent]: what the handler that waits on a channel, and takes
    one answer from it, has taken. *)
Record watching := mkWatching {
  configFileWatchers : gmap string (gmap string Z);
  conns : gmap string connection;
  nextChan : Z;
  sent : gmap Z ConfigClientResponse;
  closed : gset Z }.

Definition set_watchers (w : watching) m := mkWatching m (conns w) (nextChan w) (sent w) (closed w).
Definition set_conns (w : watching) m := mkWatching (configFileWatchers w) m (nextChan w) (sent w) (closed w).

Definition file_id (file : ClientFile) : string := GenFileId (GetValue (clNamespace file)) (GetValue (clGroup file)) (GetValue (clFileName file)).

(** ** Channels without a buffer *)

(** A second answer finds nobody that takes it. *)
Definition send {E} (ch : Z) (rsp : ConfigClientResponse) : call watching E unit :=
  w ← get;
  if decide (ch ∈ closed w) then panics SendOnClosedChannel
  else match sent w !! ch with
       | Some _ => panics Deadlock
       | None => modify (fun w => mkWatching (configFileWatchers w) (conns w) (nextChan w) (<[ch := rsp]> (sent w)) (closed w))
       end.

Definition close {E} (ch : Z) : call watching E unit :=
  w ← get;
  if decide (ch ∈ closed w) then panics CloseOfClosedChannel
  else modify (fun w => mkWatching (configFileWatchers w) (conns w) (nextChan w) (sent w) ({[ch]} ∪ closed w)).

(** ** The watch center *)

(** One file of [AddWatcher]; [seen]: the first, unlocked, look at
    [configFileWatchers] found clients of the file. *)
Definition addWatcher (seen : bool) (clientId : string) (file : ClientFile) (w : watching) : watching :=
  let watchFileId := file_id file in
  match configFileWatchers w !! watchFileId with
  | Some watchers =>
      if seen then set_watchers w (<[watchFileId := <[clientId := GetUint (clVersion file)]> watchers]> (configFileWatchers w)) else w
  | None => set_watchers w (<[watchFileId := {[clientId := GetUint (clVersion file)]}]> (configFileWatchers w))
  end.

Definition AddWatcher (clientId : string) (watchConfigFiles : list ClientFile) (w : watching) : watching :=
  foldl (fun w file => addWatcher (bool_decide (is_Some (configFileWatchers w !! file_id file))) clientId file w) w watchConfigFiles.

Definition RemoveWatcher (clientId : string) (watchConfigFiles : list ClientFile) (w : watching) : watching :=
  foldl (fun w file => set_watchers w (alter (delete clientId) (file_id file) (configFileWatchers w))) w watchConfigFiles.

(** ** The connections *)

Definition defaultLongPollingTimeout : Z := 30000 * 10 ^ 6.

Definition notModifiedResponse : ConfigClientResponse := mkClientResponse DataNoChange None.

(** The channel. *)
Definition AddConn {E} (now : Z) (clientId : string) (files : list ClientFile) : call watching E Z :=
  w ← get;
  let finishChan := nextChan w in
  _ ← modify (fun w => mkWatching (configFileWatchers w) (<[clientId := mkConn (now + defaultLongPollingTimeout) finishChan files]> (conns w))
                         (finishChan + 1) (sent w) (closed w));
  _ ← modify (AddWatcher clientId files);
  mret finishChan.

Definition removeConn {E} (clientId : string) : call watching E unit :=
  modify (fun w =>
    match conns w !! clientId with
    | None => w
    | Some conn => let w := RemoveWatcher clientId (watchConfigFiles conn) w in set_conns w (delete clientId (conns w))
    end).

(** The callback of [AddConn]; [loaded]: the connection it has found. *)
Definition push {E} (loaded : option connection) (clientId : string) (rsp : ConfigClientResponse) : call watching E unit :=
  match loaded with
  | None => mret ()
  | Some conn => _ ← send (finishChan conn) rsp; _ ← close (finishChan conn); removeConn clientId
  end.
Definition fileReleaseCb {E} (clientId : string) (rsp : ConfigClientResponse) : call watching E unit :=
  w ← get; push (conns w !! clientId) clientId rsp.

(** A tick of [startHandleTimeoutRequestWorker], for one connection it has found. *)
Definition timeout {E} (now : Z) (clientId : string) (loaded : connection) : call watching E unit :=
  if decide (finishTime loaded < now) then _ ← send (finishChan loaded) notModifiedResponse; removeConn clientId
  else mret ().

Section watch.
  (** The order in which Go ranges over a map. *)
  Context (range : forall A, gmap string A -> list (string * A)).

Definition startHandleTimeoutRequestWorker {E} (now : Z) : call watching E unit :=
  w ← get; each (fun '(client, conn) => timeout now client conn) (range _ (conns w)).

(** What waiting clients are told of a release. *)
Definition news (r : ConfigFileRelease) : ConfigClientResponse :=
  GenConfigFileResponse (crNamespace r) (crGroup r) (crFileName r) "" (crMd5 r) (crVersion r) false "".
Definition release_id (r : ConfigFileRelease) : string := GenFileId (crNamespace r) (crGroup r) (crFileName r).

Definition notifyToWatchers {E} (publishConfigFile : ConfigFileRelease) : call watching E unit :=
  w ← get;
  match configFileWatchers w !! release_id publishConfigFile with
  | None => mret ()
  | Some watchers =>
      each (fun '(clientId, ClientVersion) =>
        if decide (ClientVersion < crVersion publishConfigFile) then fileReleaseCb clientId (news publishConfigFile) else mret ())
        (range _ watchers)
  end.

End watch.

(** ** Who waits for what *)

Definition watched (w : watching) (fileId clientId : string) : option Z := watchers ← configFileWatchers w !! fileId; watchers !! clientId.

(** The version of the file that the client has. *)
Definition has_version (files : list ClientFile) (fileId : string) (version : Z) : Prop :=
  exists file, file ∈ files /\ file_id file = fileId /\ GetUint (clVersion file) = version.

(** The clients that wait are those that are watching, each on a channel of its own
    that has taken no answer. *)
Record watching_ok (w : watching) : Prop := {
  ok_watched : forall fileId c v, watched w fileId c = Some v -> exists conn, conns w !! c = Some conn /\ has_version (watchConfigFiles conn) fileId v;
  ok_waits : forall c conn file, conns w !! c = Some conn -> file ∈ watchConfigFiles conn -> is_Some (watched w (file_id file) c);
  ok_channel : forall c conn, conns w !! c = Some conn ->
    finishChan conn < nextChan w /\ sent w !! finishChan conn = None /\ finishChan conn ∉ closed w;
  ok_distinct : forall c c' conn conn', conns w !! c = Some conn -> conns w !! c' = Some conn' -> finishChan conn = finishChan conn' -> c = c';
  ok_fresh : forall ch, nextChan w <= ch -> sent w !! ch = None /\ ch ∉ closed w }.

(** The clients [cs], and no others, have been answered [rsp] and are gone. *)
Record answers (rsp : ConfigClientResponse) (cs : gset string) (w w' : watching) : Prop := {
  a_conns : forall c, conns w' !! c = if decide (c ∈ cs) then None else conns w !! c;
  a_watched : forall fileId c, watched w' fileId c = if decide (c ∈ cs) then None else watched w fileId c;
  a_sent : forall c conn, c ∈ cs -> conns w !! c = Some conn -> sent w' !! finishChan conn = Some rsp;
  a_others : forall ch, (forall c conn, c ∈ cs -> conns w !! c = Some conn -> ch <> finishChan conn) ->
    sent w' !! ch = sent w !! ch /\ (ch ∈ closed w' <-> ch ∈ closed w);
  a_next : nextChan w' = nextChan w }.

Lemma answers_none rsp w : answers rsp ∅ w w.
Proof. split; [intros c|intros id c|intros c conn|..]; try done. Qed.

Lemma answers_ok rsp cs w w' : watching_ok w -> answers rsp cs w w' -> watching_ok w'.
Proof.
  intros Hok Ha.
  assert (forall c conn, conns w' !! c = Some conn -> c ∉ cs /\ conns w !! c = Some conn) as Hc.
  { intros c conn. rewrite (a_conns _ _ _ _ Ha). by case_decide. }
  assert (forall c conn, conns w' !! c = Some conn -> forall c' conn', c' ∈ cs -> conns w !! c' = Some conn' -> finishChan conn <> finishChan conn') as Hother.
  { intros c conn [Hn Hc']%Hc c' conn' Hin Hc'' Heq. by rewrite (ok_distinct _ Hok _ _ _ _ Hc' Hc'' Heq) in Hn. }
  split.
  - intros id c v. rewrite (a_watched _ _ _ _ Ha), (a_conns _ _ _ _ Ha). case_decide; [done|]. apply Hok.
  - intros c conn file Hconn Hf. destruct (Hc _ _ Hconn) as [Hn Hconn']. rewrite (a_watched _ _ _ _ Ha), decide_False by done.
    by eapply ok_waits.
  - intros c conn Hconn. destruct (Hc _ _ Hconn) as [_ Hconn']. destruct (ok_channel _ Hok _ _ Hconn') as (? & ? & ?).
    destruct (a_others _ _ _ _ Ha (finishChan conn)) as [-> ->]; [by eapply Hother|]. by rewrite (a_next _ _ _ _ Ha).
  - intros c c' conn conn' [_ H1]%Hc [_ H2]%Hc. by apply (ok_distinct _ Hok).
  - intros ch. rewrite (a_next _ _ _ _ Ha). intros Hch. destruct (a_others _ _ _ _ Ha ch) as [-> ->]; [|by apply Hok].
    intros c conn _ Hconn ->. apply (ok_channel _ Hok) in Hconn. lia.
Qed.

Lemma answers_trans rsp cs cs' w w1 w2 : watching_ok w -> cs ## cs' -> answers rsp cs w w1 -> answers rsp cs' w1 w2 -> answers rsp (cs ∪ cs') w w2.
Proof.
  intros Hok Hd H1 H2.
  assert (forall c conn, c ∈ cs' -> conns w !! c = Some conn <-> conns w1 !! c = Some conn) as Hc.
  { intros c conn Hin. rewrite (a_conns _ _ _ _ H1), decide_False; [done|set_solver]. }
  split.
  - intros c. rewrite (a_conns _ _ _ _ H2), (a_conns _ _ _ _ H1). repeat case_decide; set_solver.
  - intros id c. rewrite (a_watched _ _ _ _ H2), (a_watched _ _ _ _ H1). repeat case_decide; set_solver.
  - intros c conn [Hin|Hin]%elem_of_union Hconn; [|by apply (a_sent _ _ _ _ H2 c), Hc].
    destruct (a_others _ _ _ _ H2 (finishChan conn)) as [-> _]; [|by apply (a_sent _ _ _ _ H1 c)].
    intros c' conn' Hin' Hconn' Heq. apply Hc in Hconn'; [|done]. rewrite (ok_distinct _ Hok _ _ _ _ Hconn Hconn' Heq) in Hin. set_solver.
  - intros ch Hch. destruct (a_others _ _ _ _ H1 ch) as [<- <-]; [intros c conn ?; apply Hch; set_solver|].
    apply (a_others _ _ _ _ H2). intros c conn Hin ?%Hc; [|done]. apply (Hch c); [set_solver|done].
  - by rewrite (a_next _ _ _ _ H2), (a_next _ _ _ _ H1).
Qed.

Lemma RemoveWatcher_conns c fs w : conns (RemoveWatcher c fs w) = conns w /\ nextChan (RemoveWatcher c fs w) = nextChan w /\
  sent (RemoveWatcher c fs w) = sent w /\ closed (RemoveWatcher c fs w) = closed w.
Proof. revert w. induction fs as [|f fs IH]; intros w; [done|]. apply (IH (set_watchers w (alter (delete c) (file_id f) (configFileWatchers w)))). Qed.

Lemma watched_RemoveWatcher c fs w id c' :
  watched (RemoveWatcher c fs w) id c' = if decide (c' = c /\ id ∈ file_id <$> fs) then None else watched w id c'.
Proof.
  revert w. induction fs as [|f fs IH]; intros w; [by rewrite decide_False by set_solver|].
  change (RemoveWatcher c (f :: fs) w) with (RemoveWatcher c fs (set_watchers w (alter (delete c) (file_id f) (configFileWatchers w)))).
  rewrite IH, fmap_cons. unfold watched at 1. cbn. case_decide as H1; [by rewrite decide_True by set_solver|].
  destruct (decide (id = file_id f)) as [->|Hne].
  - rewrite lookup_alter_eq. destruct (decide (c' = c)) as [->|Hc].
    + rewrite decide_True by set_solver. unfold watched. destruct (configFileWatchers w !! file_id f); cbn; [by rewrite lookup_delete_eq|done].
    + rewrite decide_False by naive_solver. unfold watched. destruct (configFileWatchers w !! file_id f); cbn; [by rewrite lookup_delete_ne|done].
  - rewrite lookup_alter_ne by done. rewrite decide_False by set_solver. done.
Qed.

(** The steps of [push] that follow a good answer. *)
Lemma removeConn_answers {E} P c conn rsp w (w1 : watching) :
  watching_ok w -> conns w !! c = Some conn ->
  configFileWatchers w1 = configFileWatchers w -> conns w1 = conns w -> nextChan w1 = nextChan w -> sent w1 = <[finishChan conn := rsp]> (sent w) ->
  (closed w1 = closed w \/ closed w1 = {[finishChan conn]} ∪ closed w) ->
  runs (E := E) P (removeConn c) w1 (fun w' r => r = Okay () /\ answers rsp {[c]} w w').
Proof.
  intros Hok Hconn Hw1 Hc1 Hn1 Hs1 Hcl1. apply runs_modify. split; [done|]. rewrite Hc1, Hconn.
  destruct (RemoveWatcher_conns c (watchConfigFiles conn) w1) as (H1 & H2 & H3 & H4).
  split; cbn [set_conns conns sent closed nextChan configFileWatchers].
  - intros c'. rewrite H1, Hc1. destruct (decide (c' = c)) as [->|Hne].
    + by rewrite lookup_delete_eq, decide_True by set_solver.
    + by rewrite lookup_delete_ne, decide_False by set_solver.
  - intros id c'. change (watched (RemoveWatcher c (watchConfigFiles conn) w1) id c' = if decide (c' ∈ ({[c]} : gset string)) then None else watched w id c').
    rewrite watched_RemoveWatcher. unfold watched at 1. rewrite Hw1. fold (watched w id c').
    destruct (decide (c' = c)) as [->|Hne]; [|by rewrite !decide_False by set_solver].
    rewrite (decide_True (P := c ∈ _)) by set_solver. case_decide as Hid; [done|].
    destruct (watched w id c) as [v|] eqn:Hv; [|done]. destruct (ok_watched _ Hok _ _ _ Hv) as (conn' & Hconn' & f & Hf & <- & _).
    rewrite Hconn in Hconn'. injection Hconn' as <-. destruct Hid. split; [done|]. by apply list_elem_of_fmap_2.
  - intros c' conn' ->%elem_of_singleton Hconn'. rewrite Hconn in Hconn'. injection Hconn' as <-. rewrite H3, Hs1. apply lookup_insert_eq.
  - intros ch Hch. specialize (Hch c conn ltac:(set_solver) Hconn). rewrite H3, H4, Hs1, lookup_insert_ne by done. split; [done|].
    destruct Hcl1 as [-> | ->]; set_solver.
  - congruence.
Qed.

Lemma send_spec {E} P ch rsp w (Q : watching -> result E unit -> Prop) :
  sent w !! ch = None -> ch ∉ closed w ->
  Q (mkWatching (configFileWatchers w) (conns w) (nextChan w) (<[ch := rsp]> (sent w)) (closed w)) (Okay ()) -> runs P (send ch rsp) w Q.
Proof. intros Hs Hc HQ. apply runs_bind, runs_get. rewrite decide_False by done. rewrite Hs. by apply runs_modify. Qed.

Lemma push_spec {E} P c conn rsp w : watching_ok w -> conns w !! c = Some conn ->
  runs (E := E) P (push (Some conn) c rsp) w (fun w' r => r = Okay () /\ answers rsp {[c]} w w').
Proof.
  intros Hok Hconn. destruct (ok_channel _ Hok _ _ Hconn) as (_ & Hs & Hc). apply runs_bind, send_spec; [done..|].
  apply runs_bind, runs_bind, runs_get. rewrite decide_False by done. apply runs_modify.
  by apply (removeConn_answers P c conn rsp w); [..|right].
Qed.

Lemma timeout_spec {E} P now c conn w : watching_ok w -> conns w !! c = Some conn ->
  runs (E := E) P (timeout now c conn) w (fun w' r => r = Okay () /\
    answers notModifiedResponse (if decide (finishTime conn < now) then {[c]} else ∅) w w').
Proof.
  intros Hok Hconn. destruct (ok_channel _ Hok _ _ Hconn) as (_ & Hs & Hc). unfold timeout. case_decide.
  - apply runs_bind, send_spec; [done..|]. by apply (removeConn_answers P c conn notModifiedResponse w); [..|left].
  - apply runs_ret. split; [done|]. apply answers_none.
Qed.

(** Clients that are answered one after the other. *)
Lemma each_answers {E A} P (key : A -> string) (cond : A -> Prop) `{!forall a, Decision (cond a)} (f : A -> call watching E unit) rsp l w :
  watching_ok w -> NoDup (key <$> l) ->
  (forall a w', a ∈ l -> watching_ok w' -> conns w' !! key a = conns w !! key a ->
     runs P (f a) w' (fun w'' r => r = Okay () /\ answers rsp (if decide (cond a) then {[key a]} else ∅) w' w'')) ->
  runs P (each f l) w (fun w' r => r = Okay () /\ answers rsp (list_to_set (key <$> filter cond l)) w w').
Proof.
  intros Hok Hnd Hf. assert (forall w0, watching_ok w0 -> (forall a, a ∈ l -> conns w0 !! key a = conns w !! key a) ->
    runs P (each f l) w0 (fun w' r => r = Okay () /\ answers rsp (list_to_set (key <$> filter cond l)) w0 w')) as Hgen; [|by apply Hgen].
  induction l as [|a l IH]; intros w0 Hok0 Hsame; cbn [each]; [apply runs_ret; split; [done|apply answers_none]|].
  apply NoDup_cons in Hnd as [Hni Hnd]. apply runs_bind. eapply runs_weaken; [apply Hf; [set_solver|done|apply Hsame; set_solver]|].
  intros w1 r [-> H1]. eapply runs_weaken; [apply IH; [done| |by eapply answers_ok|]|].
  - intros a' w' Ha. apply Hf. set_solver.
  - intros a' Ha. rewrite (a_conns _ _ _ _ H1), decide_False; [apply Hsame; set_solver|].
    case_decide; [|set_solver]. intros Heq%elem_of_singleton. apply Hni. rewrite <- Heq. by apply list_elem_of_fmap_2.
  - intros w2 r [-> H2]. split; [done|]. rewrite filter_cons. case_decide as Hc; cbn in *.
    + apply (answers_trans rsp {[key a]} _ w0 w1 w2); [done| |done|done].
      intros c ->%elem_of_singleton. rewrite elem_of_list_to_set. intros (a' & Heq & [_ Hin]%list_elem_of_filter)%list_elem_of_fmap.
      apply Hni. rewrite Heq. by apply list_elem_of_fmap_2.
    + replace (list_to_set (key <$> filter cond l)) with (∅ ∪ list_to_set (key <$> filter cond l) : gset string) by set_solver.
      by apply (answers_trans rsp ∅ _ w0 w1 w2).
Qed.

(** The clients that a release is news for. *)
Definition waits_for (w : watching) (r : ConfigFileRelease) (c : string) : Prop := exists v, watched w (release_id r) c = Some v /\ v < crVersion r.
Definition waiting_for (w : watching) (r : ConfigFileRelease) : gset string :=
  dom (filter (fun kv => kv.2 < crVersion r) (default ∅ (configFileWatchers w !! release_id r))).

Lemma elem_of_waiting_for w r c : c ∈ waiting_for w r <-> waits_for w r c.
Proof.
  unfold waiting_for, waits_for, watched. rewrite elem_of_dom. unfold is_Some. setoid_rewrite map_lookup_filter_Some. cbn.
  destruct (configFileWatchers w !! release_id r); cbn; [done|]. split; intros (v & Hv & _); [by rewrite lookup_empty in Hv|done].
Qed.

(** The clients that have waited long enough. *)
Definition waited (now : Z) (w : watching) : gset string := dom (filter (fun kv => finishTime kv.2 < now) (conns w)).

Section spec.
  Context (range : forall A, gmap string A -> list (string * A)).
  Context (range_ok : forall A (m : gmap string A), range A m ≡ₚ map_to_list m).

Lemma range_NoDup {A} (m : gmap string A) : NoDup (range A m).*1.
Proof. rewrite range_ok. apply NoDup_fst_map_to_list. Qed.
Lemma elem_of_range {A} (m : gmap string A) k v : (k, v) ∈ range A m <-> m !! k = Some v.
Proof. rewrite range_ok. apply elem_of_map_to_list. Qed.

Lemma range_filter {A} (m : gmap string A) (P : string * A -> Prop) `{!forall x, Decision (P x)} :
  list_to_set (filter P (range A m)).*1 = (dom (filter P m) : gset string).
Proof.
  apply set_eq. intros k. rewrite elem_of_list_to_set, list_elem_of_fmap, elem_of_dom. unfold is_Some.
  setoid_rewrite map_lookup_filter_Some. split.
  - intros ([k' v] & -> & [HP Hin%elem_of_range]%list_elem_of_filter). by exists v.
  - intros (v & Hv & HP). exists (k, v). split; [done|]. apply list_elem_of_filter. split; [done|]. by apply elem_of_range.
Qed.

Lemma notifyToWatchers_spec {E} P r w : watching_ok w ->
  runs (E := E) P (notifyToWatchers range r) w (fun w' res => res = Okay () /\ answers (news r) (waiting_for w r) w w').
Proof.
  intros Hok. unfold notifyToWatchers. apply runs_bind, runs_get. unfold waiting_for.
  destruct (configFileWatchers w !! release_id r) as [watchers|] eqn:Hw; cbn.
  - rewrite <- (range_filter watchers). apply (each_answers P fst); [done|apply range_NoDup|].
    intros [c v] w' Hin%elem_of_range Hok' Hsame. cbn in *. case_decide; [|apply runs_ret; split; [done|apply answers_none]].
    destruct (ok_watched _ Hok (release_id r) c v) as (conn & Hconn & _); [unfold watched; by rewrite Hw|]. rewrite Hconn in Hsame.
    apply runs_bind, runs_get. rewrite Hsame. by apply push_spec.
  - apply runs_ret. split; [done|]. rewrite map_filter_empty, dom_empty_L. apply answers_none.
Qed.

Lemma startHandleTimeoutRequestWorker_spec {E} P now w : watching_ok w ->
  runs (E := E) P (startHandleTimeoutRequestWorker range now) w (fun w' res => res = Okay () /\ answers notModifiedResponse (waited now w) w w').
Proof.
  intros Hok. apply runs_bind, runs_get. unfold waited. rewrite <- (range_filter (conns w)).
  apply (each_answers P fst); [done|apply range_NoDup|]. intros [c conn] w' Hin%elem_of_range Hok' Hsame. cbn in *.
  rewrite Hin in Hsame. eapply runs_weaken; [by apply timeout_spec|]. intros w'' res [-> Ha]. by split.
Qed.

End spec.

(** ** A client begins to wait *)

Lemma watched_addWatcher c file w id c' :
  let w' := addWatcher (bool_decide (is_Some (configFileWatchers w !! file_id file))) c file w in
  watched w' id c' = (if decide (c' = c /\ id = file_id file) then Some (GetUint (clVersion file)) else watched w id c') /\
  conns w' = conns w /\ nextChan w' = nextChan w /\ sent w' = sent w /\ closed w' = closed w.
Proof.
  cbn. unfold addWatcher. destruct (configFileWatchers w !! file_id file) as [watchers|] eqn:Hw.
  - rewrite bool_decide_true by done. split; [|done]. unfold watched. cbn. destruct (decide (id = file_id file)) as [->|Hne].
    + rewrite lookup_insert_eq, Hw. cbn. destruct (decide (c' = c)) as [->|Hc]; [by rewrite lookup_insert_eq, decide_True|].
      by rewrite lookup_insert_ne, decide_False by naive_solver.
    + by rewrite lookup_insert_ne, decide_False by naive_solver.
  - split; [|done]. unfold watched. cbn. destruct (decide (id = file_id file)) as [->|Hne].
    + rewrite lookup_insert_eq, Hw. cbn. destruct (decide (c' = c)) as [->|Hc]; [by rewrite lookup_singleton_eq, decide_True|].
      by rewrite lookup_singleton_ne, decide_False by naive_solver.
    + by rewrite lookup_insert_ne, decide_False by naive_solver.
Qed.

Lemma watched_AddWatcher c files w :
  let w' := AddWatcher c files w in
  (forall id c' v, watched w' id c' = Some v -> watched w id c' = Some v \/ c' = c /\ has_version files id v) /\
  (forall id c', c' <> c -> watched w' id c' = watched w id c') /\
  (forall id, is_Some (watched w id c) -> is_Some (watched w' id c)) /\
  (forall file, file ∈ files -> is_Some (watched w' (file_id file) c)) /\
  conns w' = conns w /\ nextChan w' = nextChan w /\ sent w' = sent w /\ closed w' = closed w.
Proof.
  cbn. revert w. induction files as [|file files IH]; intros w; [split_and!; try done; [by left|set_solver]|].
  change (AddWatcher c (file :: files) w)
    with (AddWatcher c files (addWatcher (bool_decide (is_Some (configFileWatchers w !! file_id file))) c file w)).
  set (w1 := addWatcher _ c file w). destruct (IH w1) as (H1 & H2 & H3 & H4 & Hc & Hn & Hs & Hcl).
  assert (forall id c', watched w1 id c' = if decide (c' = c /\ id = file_id file) then Some (GetUint (clVersion file)) else watched w id c') as Hw.
  { intros id c'. apply watched_addWatcher. }
  destruct (watched_addWatcher c file w "" "") as (_ & Hc1 & Hn1 & Hs1 & Hcl1). fold w1 in Hc1, Hn1, Hs1, Hcl1.
  assert (forall id, is_Some (watched w id c) -> is_Some (watched w1 id c)) as Hkeep. { intros id. rewrite Hw. by case_decide. }
  split_and!; [..|congruence|congruence|congruence|congruence].
  - intros id c' v [Hv|[-> (f & Hf & ? & ?)]]%H1.
    + rewrite Hw in Hv. case_decide as Hd; [|by left]. destruct Hd as [-> ->]. injection Hv as <-. right. split; [done|]. exists file. set_solver.
    + right. split; [done|]. exists f. set_solver.
  - intros id c' Hne. rewrite H2, Hw by done. by rewrite decide_False by naive_solver.
  - intros id Hid. by apply H3, Hkeep.
  - intros f [->|Hf]%elem_of_cons; [|by apply H4]. apply H3. rewrite Hw, decide_True by done. by eexists.
Qed.

(** What [AddConn] leaves: the client waits on the channel of the answer. *)
Record joined (now : Z) (c : string) (files : list ClientFile) (ch : Z) (w w' : watching) : Prop := {
  j_conns : conns w' = <[c := mkConn (now + defaultLongPollingTimeout) ch files]> (conns w);
  j_others : forall fileId c', c' <> c -> watched w' fileId c' = watched w fileId c';
  j_own : forall fileId v, watched w' fileId c = Some v -> has_version files fileId v;
  j_watched : forall file, file ∈ files -> is_Some (watched w' (file_id file) c);
  j_sent : sent w' = sent w }.

Lemma AddConn_spec {E} P now c files w : watching_ok w -> conns w !! c = None ->
  runs (E := E) P (AddConn now c files) w (fun w' r => watching_ok w' /\ exists ch, r = Okay ch /\ joined now c files ch w w').
Proof.
  intros Hok Hc. apply runs_bind, runs_get, runs_bind, runs_modify, runs_bind, runs_modify, runs_ret.
  set (w1 := mkWatching _ _ _ _ _). destruct (watched_AddWatcher c files w1) as (H1 & H2 & H3 & H4 & Hc' & Hn & Hs & Hcl).
  assert (forall id c', watched w1 id c' = watched w id c') as Hw1 by done.
  assert (forall id, watched w id c = None) as Hnone.
  { intros id. destruct (watched w id c) eqn:Hv; [|done]. apply (ok_watched _ Hok) in Hv as (conn & Hconn & _). by rewrite Hc in Hconn. }
  set (w2 := AddWatcher c files w1) in *. cbn in Hc', Hn, Hs, Hcl.
  assert (joined now c files (nextChan w) w w2) as Hj.
  { split; [done|intros id c' Hne; by rewrite H2|intros id v Hv|done|done]. apply H1 in Hv as [Hv|[_ Hv]]; [|done]. by rewrite Hw1, Hnone in Hv. }
  split; [|by exists (nextChan w)].
  assert (forall c' conn, conns w !! c' = Some conn -> finishChan conn < nextChan w) as Hold by (intros ? ? ?; by eapply ok_channel).
  split.
  - intros id c' v Hv. rewrite Hc'. destruct (decide (c' = c)) as [->|Hne].
    + rewrite lookup_insert_eq. eexists. split; [done|]. by apply (j_own _ _ _ _ _ _ Hj).
    + rewrite lookup_insert_ne by done. apply (ok_watched _ Hok). by rewrite <- Hw1, <- H2.
  - intros c' conn file. rewrite Hc', lookup_insert_Some. intros [[<- <-]|[Hne Hconn]] Hf; [by apply H4|].
    rewrite H2 by done. by eapply (ok_waits _ Hok).
  - intros c' conn. rewrite Hc', Hn, Hs, Hcl, lookup_insert_Some. intros [[<- <-]|[Hne Hconn]]; cbn.
    + destruct (ok_fresh _ Hok (nextChan w)) as [? ?]; [lia|]. split_and!; [lia|done..].
    + destruct (ok_channel _ Hok _ _ Hconn) as (? & ? & ?). split_and!; [lia|done..].
  - intros c1 c2 conn1 conn2. rewrite Hc', !lookup_insert_Some. intros [[<- <-]|[H5 H6]] [[<- <-]|[H7 H8]] Heq; cbn in Heq; try done.
    + apply Hold in H8. lia.
    + apply Hold in H6. lia.
    + by eapply (ok_distinct _ Hok).
  - intros ch. rewrite Hn, Hs, Hcl. intros Hch. apply (ok_fresh _ Hok). lia.
Qed.

(** ** Everything that happens to the clients that wait *)

Section steps.
  Context (range : forall A, gmap string A -> list (string * A)).
  Context (range_ok : forall A (m : gmap string A), range A m ≡ₚ map_to_list m).

(** A new client waits, a release is announced, the worker ticks. *)
Inductive watch_step : watching -> watching -> Prop :=
| step_watch w now c files w' ch : conns w !! c = None -> AddConn (E := unit) now c files w = Ret (w', Okay ch) -> watch_step w w'
| step_notify w r w' : notifyToWatchers (E := unit) range r w = Ret (w', Okay ()) -> watch_step w w'
| step_tick w now w' : startHandleTimeoutRequestWorker (E := unit) range now w = Ret (w', Okay ()) -> watch_step w w'.

Lemma answers_sent rsp cs w w' ch rsp' : watching_ok w -> answers rsp cs w w' -> sent w !! ch = Some rsp' -> sent w' !! ch = Some rsp'.
Proof.
  intros Hok Ha Hs. destruct (a_others _ _ _ _ Ha ch) as [-> _]; [|done]. intros c conn _ Hconn ->.
  apply (ok_channel _ Hok) in Hconn as (_ & Hn & _). by rewrite Hs in Hn.
Qed.

Lemma watch_step_ok w w' : watch_step w w' -> watching_ok w ->
  watching_ok w' /\ forall ch rsp, sent w !! ch = Some rsp -> sent w' !! ch = Some rsp.
Proof.
  intros Hstep Hok. destruct Hstep as [w now c files w' ch Hc Hadd|w r w' Hn|w now w' Ht].
  - pose proof (AddConn_spec (E := unit) (fun _ => True) now c files w Hok Hc) as Hs. unfold runs in Hs. rewrite Hadd in Hs.
    destruct Hs as (Hok' & ch' & _ & Hj). split; [done|]. by rewrite (j_sent _ _ _ _ _ _ Hj).
  - pose proof (notifyToWatchers_spec range range_ok (E := unit) (fun _ => True) r w Hok) as Hs. unfold runs in Hs. rewrite Hn in Hs.
    destruct Hs as [_ Ha]. split; [by eapply answers_ok|]. intros ch rsp. by eapply answers_sent.
  - pose proof (startHandleTimeoutRequestWorker_spec range range_ok (E := unit) (fun _ => True) now w Hok) as Hs. unfold runs in Hs.
    rewrite Ht in Hs. destruct Hs as [_ Ha]. split; [by eapply answers_ok|]. intros ch rsp. by eapply answers_sent.
Qed.

Lemma watch_steps_ok w w' : rtc watch_step w w' -> watching_ok w ->
  watching_ok w' /\ forall ch rsp, sent w !! ch = Some rsp -> sent w' !! ch = Some rsp.
Proof.
  induction 1 as [w|w w1 w2 H1 _ IH]; intros Hok; [done|]. destruct (watch_step_ok _ _ H1 Hok) as [Hok1 Hs1].
  destruct (IH Hok1) as [Hok2 Hs2]. split; [done|]. intros ch rsp Hs. by apply Hs2, Hs1.
Qed.

(** C25. Long polls end, once: whatever clients come, releases are announced and ticks
    pass, none during another, a client that was answered is never answered anything
    else; and in any state that is reached an announcement and a tick go through
    without blocking or panicking - the tick tells those that have waited thirty
    seconds, and no others, that nothing has changed, and the announcement tells
    those with an older version of the file, and no others, of the release. *)
Theorem long_polls_end_once w w' :
  watching_ok w -> rtc watch_step w w' ->
  (forall ch rsp, sent w !! ch = Some rsp -> sent w' !! ch = Some rsp) /\
  (forall now, runs (E := unit) (fun _ => False) (startHandleTimeoutRequestWorker range now) w' (fun w'' _ =>
     forall c conn, conns w' !! c = Some conn ->
       if decide (finishTime conn < now) then conns w'' !! c = None /\ sent w'' !! finishChan conn = Some notModifiedResponse
       else conns w'' !! c = Some conn /\ sent w'' !! finishChan conn = None)) /\
  (forall r, runs (E := unit) (fun _ => False) (notifyToWatchers range r) w' (fun w'' _ =>
     forall c conn, conns w' !! c = Some conn ->
       (waits_for w' r c /\ conns w'' !! c = None /\ sent w'' !! finishChan conn = Some (news r)) \/
       (~ waits_for w' r c /\ conns w'' !! c = Some conn /\ sent w'' !! finishChan conn = None))).
Proof.
  intros Hok Hsteps. destruct (watch_steps_ok _ _ Hsteps Hok) as [Hok' Hs].
  assert (forall rsp cs w'' c conn, answers rsp cs w' w'' -> conns w' !! c = Some conn ->
    (c ∈ cs /\ conns w'' !! c = None /\ sent w'' !! finishChan conn = Some rsp) \/
    (c ∉ cs /\ conns w'' !! c = Some conn /\ sent w'' !! finishChan conn = None)) as Hcase.
  { intros rsp cs w'' c conn Ha Hconn. pose proof (a_conns _ _ _ _ Ha c) as Hc. case_decide as Hin; [left|right]; split_and!; try done.
    - by apply (a_sent _ _ _ _ Ha c).
    - by rewrite Hc.
    - rewrite Hconn in Hc. by apply (answers_ok _ _ _ _ Hok' Ha) in Hc as (_ & ? & _). }
  split_and!; [done|..].
  - intros now. eapply runs_weaken; [by apply startHandleTimeoutRequestWorker_spec|]. intros w'' _ [_ Ha] c conn Hconn.
    assert (c ∈ waited now w' <-> finishTime conn < now) as Hin.
    { unfold waited. rewrite elem_of_dom. unfold is_Some. setoid_rewrite map_lookup_filter_Some. cbn. rewrite Hconn. naive_solver. }
    destruct (Hcase _ _ _ _ _ Ha Hconn) as [(Hc & ?)|(Hc & ?)]; rewrite Hin in Hc; by case_decide.
  - intros r. eapply runs_weaken; [by apply notifyToWatchers_spec|]. intros w'' _ [_ Ha] c conn Hconn.
    rewrite <- elem_of_waiting_for. by apply (Hcase _ _ w'').
Qed.

End steps.
