(* ===== verification/ConfigScan.v ===== *)
(** * Scanning for releases ([src/config/scanner.go], [watcher.go], [event.go], [client_config_file.go])

    The scanner finds the releases of the last seconds in the store, renews the
    cache and queues those the cache did not have; the notifier takes them from the
    queue and answers the clients that wait.  The clock stands still during a
    scan. *)

From S2P Require Import Prelude Effects GoStrings Utils Namespace InstanceStore ServiceStore BoltStore Api ConfigFiles ConfigStore ConfigServer.
From S2P Require Import ConfigPublish FileCache ConfigWatch.
From Stdlib Require Import ZArith Ascii Lia.
From stdpp Require Import base tactics list gmap strings relations.

Open Scope Z_scope.

(** ** The scanner *)

(** [releaseMessageQueue] has at most [QueueSize] messages. *)
Record hub := mkHub { cache : center; watch : watching; releaseMessageQueue : list ConfigFileRelease; lastScannerTime : Z }.

Definition QueueSize : nat := N.to_nat 10240.
Definition DefaultScanTimeOffset : Z := - (10 * 10 ^ 9).
Definition FirstScanTimeOffset : Z := - (10 * 60 * 10 ^ 9).
Definition MessageExpireTime : Z := - (5 * 10 ^ 9).

Definition on_cache {E A} (m : call center E A) : call hub E A := fun h =>
  match m (cache h) with
  | Ret (c, r) => Ret (mkHub c (watch h) (releaseMessageQueue h) (lastScannerTime h), r)
  | Panics why => Panics why
  end.
Definition on_watch {E A} (m : call watching E A) : call hub E A := fun h =>
  match m (watch h) with
  | Ret (w, r) => Ret (mkHub (cache h) w (releaseMessageQueue h) (lastScannerTime h), r)
  | Panics why => Panics why
  end.
Definition set_queue (h : hub) q := mkHub (cache h) (watch h) q (lastScannerTime h).

Section scanner.
  Context (range : forall A, gmap string A -> list (string * A)).
  Context (expireTimeAfterWrite : Z).

(** A turn of the notifier. *)
Definition handleMessage {E} : call hub E unit :=
  h ← get;
  match releaseMessageQueue h with
  | [] => mret ()
  | message :: queue => _ ← modify (fun h => set_queue h queue); on_watch (notifyToWatchers range message)
  end.

(** The notifier, until the queue is empty. *)
Definition handleMessages {E} : call hub E unit := h ← get; each (fun _ => handleMessage) (releaseMessageQueue h).

(** [eventCenter.handleEvent], whose only callback is the one of [NewWatchCenter]:
    to send to a queue that is full is to wait for the notifier. *)
Definition handleEvent {E} (release : ConfigFileRelease) : call hub E unit :=
  h ← get;
  _ ← (if decide (length (releaseMessageQueue h) < QueueSize)%nat then mret () else handleMessage);
  modify (fun h => set_queue h (releaseMessageQueue h ++ [release])).

Definition isExpireMessage (now : Z) (release : ConfigFileRelease) : bool := bool_decide (crModifyTime release < now + MessageExpireTime).

(** The cache does not have the release. *)
Definition behind (entry : option Entry) (release : ConfigFileRelease) : bool :=
  match entry with
  | None => true
  | Some entry => feEmpty entry || bool_decide (feVersion entry < crVersion release)
  end.

Definition handlerRelease (rand : Z) (firstTime : bool) (release : ConfigFileRelease) : call hub StatusCode unit :=
  h ← get;
  let time := now (storage (server (cache h))) in
  let announce :=
    if negb firstTime && negb (isExpireMessage time release) then handleEvent release else mret () in
  if behind (Get (cache h) (crNamespace release) (crGroup release) (crFileName release)) release then
    if decide (crFlag release = 1) then
      if isExpireMessage time release then mret ()
      else _ ← on_cache (Remove (crNamespace release) (crGroup release) (crFileName release)); announce
    else
      _ ← attempt (on_cache (ReLoad range expireTimeAfterWrite rand (crNamespace release) (crGroup release) (crFileName release))); announce
  else mret ().

Definition handlerReleases (rand : Z) (firstTime : bool) (releases : list ConfigFileRelease) : call hub StatusCode unit :=
  if decide (releases = []) then mret ()
  else
    h ← get;
    let maxModifyTime := foldl (fun time release => Z.max time (crModifyTime release)) (lastScannerTime h) releases in
    _ ← each (handlerRelease rand firstTime) releases;
    modify (fun h => mkHub (cache h) (watch h) (releaseMessageQueue h) maxModifyTime).

Definition find_releases (modifyTime : Z) : call hub StatusCode (list ConfigFileRelease) :=
  on_cache (on_server (FindConfigFileReleaseByModifyTimeAfter range modifyTime)).

Definition scanAtFirstTime (rand : Z) : call hub StatusCode unit :=
  h ← get;
  let t := now (storage (server (cache h))) + FirstScanTimeOffset in
  _ ← modify (fun h => mkHub (cache h) (watch h) (releaseMessageQueue h) t);
  releases ← find_releases t;
  handlerReleases rand true releases.

(** A tick of [startScanTask]. *)
Definition scan (rand : Z) : call hub StatusCode unit :=
  h ← get;
  releases ← find_releases (lastScannerTime h + DefaultScanTimeOffset);
  handlerReleases rand false releases.

(** [WatchConfigFiles]: an answer at once, or a channel to wait on. *)
Definition WatchConfigFiles (rand : Z) (clientId : string) (watchFiles : list ClientFile) : call hub unit (ConfigClientResponse + Z) :=
  resp ← attempt (on_cache (doCheckClientConfigFile range expireTimeAfterWrite rand watchFiles compareByVersion));
  let resp := match resp with Okay resp | Fail resp => resp end in
  if decide (clCode resp <> DataNoChange) then mret (inl resp)
  else
    h ← get;
    ch ← on_watch (AddConn (now (storage (server (cache h)))) clientId watchFiles);
    mret (inr ch).

End scanner.


(** ** What a scan does *)

Lemma runs_on_cache {E A} P (m : call center E A) h (Q : hub -> result E A -> Prop) :
  runs P m (cache h) (fun c r => Q (mkHub c (watch h) (releaseMessageQueue h) (lastScannerTime h)) r) -> runs P (on_cache m) h Q.
Proof. unfold runs, on_cache. by destruct (m (cache h)) as [[c r]|why]. Qed.

Lemma runs_on_watch {E A} P (m : call watching E A) h (Q : hub -> result E A -> Prop) :
  runs P m (watch h) (fun w r => Q (mkHub (cache h) w (releaseMessageQueue h) (lastScannerTime h)) r) -> runs P (on_watch m) h Q.
Proof. unfold runs, on_watch. by destruct (m (watch h)) as [[c r]|why]. Qed.

Definition entry_for (c : center) (r : ConfigFileRelease) : option Entry := Get c (crNamespace r) (crGroup r) (crFileName r).

(** News: the cache does not have it, and it is of the last seconds. *)
Definition is_news (c : center) (r : ConfigFileRelease) : bool := behind (entry_for c r) r && negb (isExpireMessage (now (store_of c)) r).

(** A row of the table, whose names make an id of its own. *)
Definition row_of (t : tables) (r : ConfigFileRelease) : Prop :=
  tblConfigFileRelease t !! names_key r = Some r /\ plain_file (crNamespace r) (crGroup r) (crFileName r).

(** After a scan the cache has the release, or nothing. *)
Definition renewed (c : center) (r : ConfigFileRelease) : Prop :=
  forall e, entry_for c r = Some e -> exists dataKey expireTime, e = entry_of (if crValid r then Some r else None) dataKey expireTime.

Lemma row_of_same t r r' : row_of t r -> row_of t r' -> release_id r = release_id r' -> r = r'.
Proof.
  intros (H1 & Hn & Hg & Hf) (H2 & _) Hid. apply GenFileId_inj in Hid as (E1 & E2 & E3); [|done..].
  unfold names_key in *. rewrite E1, E2, E3, H1 in H2. by injection H2.
Qed.

Section scan.
  Context (range : forall A, gmap string A -> list (string * A)).
  Context (range_ok : forall A (m : gmap string A), range A m ≡ₚ map_to_list m).
  Context (expireTimeAfterWrite : Z).

(** The hub but for the cache and the queue. *)
Record scanned (ids : list string) (rs : list ConfigFileRelease) (h h' : hub) : Prop := {
  sc_sound : cache_sound (mkCaching (cache h') []);
  sc_tables : tables_of (cache h') = tables_of (cache h);
  sc_now : now (store_of (cache h')) = now (store_of (cache h));
  sc_files : forall k, k ∉ ids -> files (cache h') !! k = files (cache h) !! k;
  sc_watch : watch h' = watch h;
  sc_time : lastScannerTime h' = lastScannerTime h;
  sc_queue : releaseMessageQueue h' = releaseMessageQueue h ++ rs }.

Lemma scanned_trans ids ids' rs rs' h h1 h2 : scanned ids rs h h1 -> scanned ids' rs' h1 h2 -> scanned (ids ++ ids') (rs ++ rs') h h2.
Proof.
  intros H1 H2. split; [by eapply sc_sound|..].
  - by rewrite (sc_tables _ _ _ _ H2), (sc_tables _ _ _ _ H1).
  - by rewrite (sc_now _ _ _ _ H2), (sc_now _ _ _ _ H1).
  - intros k Hk. rewrite (sc_files _ _ _ _ H2), (sc_files _ _ _ _ H1) by set_solver. done.
  - by rewrite (sc_watch _ _ _ _ H2), (sc_watch _ _ _ _ H1).
  - by rewrite (sc_time _ _ _ _ H2), (sc_time _ _ _ _ H1).
  - by rewrite (sc_queue _ _ _ _ H2), (sc_queue _ _ _ _ H1), (assoc_L (++)).
Qed.

Lemma handleEvent_spec {E} P r h ids : scanned ids [] h h -> (length (releaseMessageQueue h) < QueueSize)%nat ->
  runs (E := E) P (handleEvent range r) h (fun h' res => res = Okay () /\ scanned ids [r] h h' /\ cache h' = cache h).
Proof.
  intros Hs Hroom. apply runs_bind, runs_get, runs_bind. rewrite decide_True by done. apply runs_ret, runs_modify.
  split; [done|]. split; [|done]. pose proof (sc_sound _ _ _ _ Hs). by split.
Qed.

Lemma handlerRelease_spec P rand r h :
  cache_sound (mkCaching (cache h) []) -> row_of (tables_of (cache h)) r -> (length (releaseMessageQueue h) < QueueSize)%nat ->
  runs P (handlerRelease range expireTimeAfterWrite rand false r) h (fun h' res => res = Okay () /\
    scanned [release_id r] (if is_news (cache h) r then [r] else []) h h' /\
    (is_news (cache h) r = true -> renewed (cache h') r)).
Proof.
  intros Hs [Hrow Hplain] Hroom. unfold handlerRelease, is_news. apply runs_bind, runs_get. fold (entry_for (cache h) r).
  change (storage (server (cache h))) with (store_of (cache h)).
  assert (scanned [release_id r] [] h h) as Hnone by (split; [done..|by rewrite app_nil_r]).
  destruct (behind _ _); cbn [andb]; [|by apply runs_ret].
  set (expired := isExpireMessage _ r). cbn [negb andb].
  assert (forall h1, scanned [release_id r] [] h h1 -> (expired = false -> renewed (cache h1) r) ->
    runs (E := StatusCode) P (if negb expired then handleEvent range r else mret ()) h1 (fun h' res => res = Okay () /\
      scanned [release_id r] (if negb expired then [r] else []) h h' /\ (negb expired = true -> renewed (cache h') r))) as Hann.
  { intros h1 H1 Hr. pose proof (sc_queue _ _ _ _ H1) as Hq. rewrite app_nil_r in Hq. destruct expired; cbn.
    - by apply runs_ret.
    - eapply runs_weaken; [apply (handleEvent_spec P r h1 [])|]; [|by rewrite Hq|].
      + split; [by eapply sc_sound|done..|by rewrite app_nil_r].
      + intros h2 res (-> & H2 & Hc). split; [done|]. split; [by apply (scanned_trans [release_id r] [] [] [r] h h1 h2)|]. rewrite Hc. intros _. by apply Hr. }
  case_decide as Hflag.
  - destruct expired; [by apply runs_ret|]. apply runs_bind, runs_on_cache, runs_modify. apply Hann.
    + split; cbn; try done; [..|by rewrite app_nil_r].
      * apply cache_sound_less; [done|apply delete_subseteq].
      * intros k Hk. apply lookup_delete_ne. set_solver.
    + intros _ e. unfold entry_for, Get. cbn. by rewrite lookup_delete_eq.
  - apply runs_bind, runs_attempt, runs_on_cache. eapply runs_weaken; [by apply ReLoad_spec|].
    intros c' res (Hs' & (Ht & Hn & Ho) & Hr). apply Hann.
    + split; cbn; try done; [|by rewrite app_nil_r]. intros k Hk. apply Ho. set_solver.
    + intros _ e. cbn. unfold entry_for. destruct res as [e'|]; [|by rewrite Hr]. destruct Hr as (Hget & dataKey & expireTime & He).
      rewrite Hget. intros [= <-]. exists dataKey, expireTime. rewrite He. unfold getConfigFileReleaseByFlag.
      fold (names_key r). unfold tables_of, store_of in *. change (release_key (crNamespace r) (crGroup r) (crFileName r)) with (names_key r).
      rewrite Hrow. cbn. by destruct (crValid r).
Qed.

Lemma each_handlerRelease P rand l h :
  cache_sound (mkCaching (cache h) []) -> NoDup l -> (forall r, r ∈ l -> row_of (tables_of (cache h)) r) ->
  (length (releaseMessageQueue h) + length l <= QueueSize)%nat ->
  runs P (each (handlerRelease range expireTimeAfterWrite rand false) l) h (fun h' res => res = Okay () /\
    scanned (release_id <$> l) (filter (fun r => is_news (cache h) r = true) l) h h' /\
    (forall r, r ∈ l -> is_news (cache h) r = true -> renewed (cache h') r)).
Proof.
  revert h. induction l as [|r l IH]; intros h Hs Hnd Hrows Hroom; cbn [each].
  { apply runs_ret. split; [done|]. split; [|set_solver]. split; try done. by rewrite app_nil_r. }
  apply NoDup_cons in Hnd as [Hni Hnd]. cbn in Hroom. apply runs_bind.
  eapply runs_weaken; [apply handlerRelease_spec; [done|apply Hrows; set_solver|lia]|]. intros h1 res (-> & H1 & Hr1).
  assert (forall r', r' ∈ l -> release_id r' <> release_id r) as Hids.
  { intros r' Hin Heq. apply Hni. by rewrite <- (row_of_same _ r' r (Hrows r' ltac:(set_solver)) (Hrows r ltac:(set_solver)) Heq). }
  assert (forall r', r' ∈ l -> is_news (cache h1) r' = is_news (cache h) r') as Hsame.
  { intros r' Hin. unfold is_news, entry_for, Get. rewrite (sc_now _ _ _ _ H1), (sc_files _ _ _ _ H1); [done|].
    intros Heq%list_elem_of_singleton. by apply (Hids r'). }
  pose proof (sc_queue _ _ _ _ H1) as Hq.
  eapply runs_weaken; [apply IH; [by eapply sc_sound|done|..]|].
  - intros r' Hin. rewrite (sc_tables _ _ _ _ H1). apply Hrows. set_solver.
  - rewrite Hq, length_app. destruct (is_news _ r); cbn; lia.
  - intros h2 res (-> & H2 & Hr2). split; [done|].
    assert (filter (fun r' => is_news (cache h1) r' = true) l = filter (fun r' => is_news (cache h) r' = true) l) as Hfil.
    { clear -Hsame. induction l as [|r' l IH]; [done|]. rewrite !filter_cons, Hsame by set_solver. rewrite IH by (intros; apply Hsame; set_solver). done. }
    rewrite Hfil in H2. split.
    + rewrite fmap_cons, filter_cons. replace (if decide (is_news (cache h) r = true) then r :: filter _ l else filter _ l)
        with ((if is_news (cache h) r then [r] else []) ++ filter (fun r' => is_news (cache h) r' = true) l) by by destruct (is_news (cache h) r).
      by apply (scanned_trans [release_id r] (release_id <$> l) _ _ h h1 h2).
    + intros r' [->|Hin]%elem_of_cons Hnews; [|apply Hr2; [done|by rewrite Hsame]].
      intros e. unfold entry_for, Get. rewrite (sc_files _ _ _ _ H2); [by apply Hr1|].
      intros (r' & Heq & Hin)%list_elem_of_fmap. by apply (Hids r').
Qed.

(** The rows of the last seconds. *)
Definition recent (h : hub) (r : ConfigFileRelease) : Prop :=
  tblConfigFileRelease (tables_of (cache h)) !! names_key r = Some r /\ lastScannerTime h + DefaultScanTimeOffset <= crModifyTime r.
Definition plain_releases (t : tables) : Prop :=
  map_Forall (fun _ r => plain_file (crNamespace r) (crGroup r) (crFileName r)) (tblConfigFileRelease t).

Lemma find_releases_spec P h :
  cache_sound (mkCaching (cache h) []) -> plain_releases (tables_of (cache h)) ->
  runs P (find_releases range (lastScannerTime h + DefaultScanTimeOffset)) h (fun h' res => scanned [] [] h h' /\
    match res with
    | Okay l => NoDup l /\ (length l <= size (tblConfigFileRelease (tables_of (cache h))))%nat /\ forall r, r ∈ l <-> recent h r
    | Fail _ => True
    end).
Proof.
  intros Hs Hplain. pose proof Hs as ((Hp & Hk & Hsum) & _). apply runs_on_cache.
  assert (forall w', quiet (store_of (cache h)) w' ->
    scanned [] [] h (mkHub (mkCenter (swap (server (cache h)) w') (files (cache h))) (watch h) (releaseMessageQueue h) (lastScannerTime h))) as Hsc.
  { intros w' Hq. split; cbn; try done; [|by destruct Hq|by destruct Hq as (_ & _ & ? & _)|by rewrite app_nil_r].
    by apply (cache_sound_read (cache h)). }
  unfold runs, on_server, on_storage.
  assert (runs P (FindConfigFileReleaseByModifyTimeAfter range (lastScannerTime h + DefaultScanTimeOffset)) (store_of (cache h)) (fun w' res =>
    quiet (store_of (cache h)) w' /\
    match res with
    | Okay l => NoDup l /\ (length l <= size (tblConfigFileRelease (tables_of (cache h))))%nat /\ forall r, r ∈ l <-> recent h r
    | Fail _ => True
    end)) as Hfind.
  { apply runs_bind, runs_view; [|by intros]. intros w' Hq. apply runs_ret. split; [done|].
    change (committed (store_of (cache h))) with (tables_of (cache h)) in *. set (m := filter _ (tblConfigFileRelease (tables_of (cache h)))).
    assert (range _ m ≡ₚ map_to_list m) as Hperm by apply range_ok. rewrite Hperm. split_and!.
    - apply NoDup_fmap_2_strong; [|apply NoDup_map_to_list]. intros [k1 r1] [k2 r2] H1%elem_of_map_to_list H2%elem_of_map_to_list; cbn.
      intros ->. apply map_lookup_filter_Some in H1 as [H1 _], H2 as [H2 _]. by rewrite (keyed_releases _ Hk _ _ H1), (keyed_releases _ Hk _ _ H2).
    - rewrite length_fmap, length_map_to_list. apply map_subseteq_size, map_filter_subseteq.
    - intros r. rewrite list_elem_of_fmap. unfold recent. split.
      + intros ([k r'] & -> & [Hr Ht]%(elem_of_range _ range_ok)%map_lookup_filter_Some). cbn in *. by rewrite <- (keyed_releases _ Hk _ _ Hr).
      + intros [Hr Ht]. exists (names_key r, r). split; [done|]. by apply (elem_of_range _ range_ok), map_lookup_filter_Some. }
  unfold runs, store_of in Hfind. destruct (FindConfigFileReleaseByModifyTimeAfter _ _ _) as [[w' res]|why]; [|done].
  destruct Hfind as [Hq Hres]. split; [by apply Hsc|done].
Qed.

Lemma scan_spec P rand h :
  cache_sound (mkCaching (cache h) []) -> plain_releases (tables_of (cache h)) ->
  (length (releaseMessageQueue h) + size (tblConfigFileRelease (tables_of (cache h))) <= QueueSize)%nat ->
  runs P (scan range expireTimeAfterWrite rand) h (fun h' res => cache_sound (mkCaching (cache h') []) /\ tables_of (cache h') = tables_of (cache h) /\
    watch h' = watch h /\
    match res with
    | Okay _ => exists rs, releaseMessageQueue h' = releaseMessageQueue h ++ rs /\
        forall r, (r ∈ rs <-> recent h r /\ is_news (cache h) r = true) /\ (r ∈ rs -> renewed (cache h') r)
    | Fail _ => releaseMessageQueue h' = releaseMessageQueue h
    end).
Proof.
  intros Hs Hplain Hroom. unfold scan. apply runs_bind, runs_get, runs_bind.
  eapply runs_weaken; [by apply find_releases_spec|]. intros h1 res [H1 Hres].
  pose proof (sc_queue _ _ _ _ H1) as Hq1. rewrite app_nil_r in Hq1.
  destruct res as [l|e]; [|split_and!; [by eapply sc_sound|by eapply sc_tables|by eapply sc_watch|done]].
  destruct Hres as (Hnd & Hlen & Hl).
  assert (forall r, is_news (cache h1) r = is_news (cache h) r) as Hnews.
  { intros r. unfold is_news, entry_for, Get. rewrite (sc_now _ _ _ _ H1), (sc_files _ _ _ _ H1) by set_solver. done. }
  unfold handlerReleases. case_decide as Hnil.
  - apply runs_ret. split_and!; [by eapply sc_sound|by eapply sc_tables|by eapply sc_watch|].
    exists []. rewrite app_nil_r. split; [done|]. intros r. split; [|set_solver]. rewrite <- Hl, Hnil. set_solver.
  - apply runs_bind, runs_get, runs_bind. eapply runs_weaken; [apply each_handlerRelease; [by eapply sc_sound|done|..]|].
    + intros r [Hr Ht]%Hl. rewrite (sc_tables _ _ _ _ H1). split; [done|]. by apply (Hplain _ _ Hr).
    + rewrite Hq1. lia.
    + intros h2 res (-> & H2 & Hr2). apply runs_modify. cbn.
      split_and!; [by eapply sc_sound|by rewrite (sc_tables _ _ _ _ H2), (sc_tables _ _ _ _ H1)|by rewrite (sc_watch _ _ _ _ H2), (sc_watch _ _ _ _ H1)|].
      exists (filter (fun r => is_news (cache h1) r = true) l). rewrite (sc_queue _ _ _ _ H2), Hq1. split; [done|].
      intros r. rewrite list_elem_of_filter, Hl, Hnews. split; [naive_solver|]. intros [Hn Hr]. apply Hr2; [by apply Hl|by rewrite Hnews].
Qed.

End scan.

(** ** What the clients are told *)

(** Of the clients that wait, those that one of [rs] is news for have been told one
    such release and are gone; the others wait as before. *)
Record informed (rs : list ConfigFileRelease) (w w' : watching) : Prop := {
  i_ok : watching_ok w';
  i_conns : conns w' ⊆ conns w;
  i_sent : forall ch rsp, sent w !! ch = Some rsp -> sent w' !! ch = Some rsp;
  i_clients : forall c conn, conns w !! c = Some conn ->
    conns w' !! c = Some conn /\ (forall fileId, watched w' fileId c = watched w fileId c) /\ (forall r, r ∈ rs -> ~ waits_for w r c) \/
    conns w' !! c = None /\ exists r, r ∈ rs /\ waits_for w r c /\ sent w' !! finishChan conn = Some (news r) }.

Lemma informed_cons r rs w w1 w2 : watching_ok w -> answers (news r) (waiting_for w r) w w1 -> informed rs w1 w2 -> informed (r :: rs) w w2.
Proof.
  intros Hok Ha [Hok2 Hsub Hkept Hi]. pose proof (a_conns _ _ _ _ Ha) as Hc1. split; [done|..].
  - etrans; [done|]. apply map_subseteq_spec. intros c conn. rewrite Hc1. by case_decide.
  - intros ch rsp Hs. apply Hkept. by apply (answers_sent (news r) (waiting_for w r) w).
  - intros c conn Hconn. specialize (Hc1 c). destruct (decide (c ∈ waiting_for w r)) as [Hin|Hni].
    + right. split; [|exists r; split; [set_solver|]; split; [by apply elem_of_waiting_for|by apply Hkept, (a_sent _ _ _ _ Ha c)]].
      destruct (conns w2 !! c) as [conn2|] eqn:Hc2; [|done]. eapply lookup_weaken in Hc2; [|done]. by rewrite Hc1 in Hc2.
    + assert (forall id, watched w1 id c = watched w id c) as Hw by (intros id; by rewrite (a_watched _ _ _ _ Ha), decide_False).
      assert (forall r', waits_for w1 r' c <-> waits_for w r' c) as Hwaits by (intros r'; unfold waits_for; by rewrite Hw).
      rewrite Hconn in Hc1. destruct (Hi _ _ Hc1) as [(H1 & H2 & H3)|(H1 & r' & H2 & H3 & H4)]; [left|right].
      * split; [done|]. split; [by intros id; rewrite H2, Hw|]. intros r' [->|Hin]%elem_of_cons; [by rewrite <- elem_of_waiting_for|].
        rewrite <- Hwaits. by apply H3.
      * split; [done|]. exists r'. split; [set_solver|]. by rewrite <- Hwaits.
Qed.

Section theorems.
  Context (range : forall A, gmap string A -> list (string * A)).
  Context (range_ok : forall A (m : gmap string A), range A m ≡ₚ map_to_list m).
  Context (expireTimeAfterWrite : Z).

Lemma handleMessages_spec {E} P h : watching_ok (watch h) ->
  runs (E := E) P (handleMessages range) h (fun h' res => res = Okay () /\ cache h' = cache h /\ releaseMessageQueue h' = [] /\
    informed (releaseMessageQueue h) (watch h) (watch h')).
Proof.
  intros Hok. apply runs_bind, runs_get. remember (releaseMessageQueue h) as rs eqn:Hrs.
  revert h Hok Hrs. induction rs as [|r rs IH]; intros h Hok Hrs; cbn [each].
  - apply runs_ret. split_and!; [done..|]. split; [done..|]. intros c conn Hconn. left. split_and!; [done..|set_solver].
  - apply runs_bind, runs_bind, runs_get. rewrite <- Hrs. apply runs_bind, runs_modify, runs_on_watch.
    eapply runs_weaken; [by apply notifyToWatchers_spec|]. intros w1 res [-> Ha]. cbn in *.
    eapply runs_weaken; [apply IH; [by eapply answers_ok|done]|]. intros h2 res (-> & Hc & Hq & Hi). split_and!; [done..|].
    by eapply informed_cons.
Qed.

(** C10. A publication reaches the clients that wait for it: when a scan of the
    store succeeds and the notifier has done its work - with no client arriving and
    no tick of the timeout worker between the two, from an empty queue, and with no
    more releases than the queue has room for (10240) -, each client that was
    waiting for a file of which the store has a release of the last seconds, in a
    later version than the client's, and which was not in the cache yet, has been
    told such a release of one of its files and waits no more; every other client
    still waits; a scan that fails tells nobody; neither blocks nor panics; and the
    cache has the release, or nothing. *)
Theorem publication_reaches_watchers rand h :
  cache_sound (mkCaching (cache h) []) -> watching_ok (watch h) -> plain_releases (tables_of (cache h)) -> releaseMessageQueue h = [] ->
  (size (tblConfigFileRelease (tables_of (cache h))) <= QueueSize)%nat ->
  runs (fun _ => False) (_ ← scan range expireTimeAfterWrite rand; handleMessages range) h (fun h' res =>
    cache_sound (mkCaching (cache h') []) /\ tables_of (cache h') = tables_of (cache h) /\ releaseMessageQueue h' = [] /\
    match res with
    | Fail _ => watch h' = watch h
    | Okay _ => exists rs, informed rs (watch h) (watch h') /\
        forall r, (r ∈ rs <-> recent h r /\ is_news (cache h) r = true) /\ (r ∈ rs -> renewed (cache h') r)
    end).
Proof.
  intros Hs Hok Hplain Hq Hsize. apply runs_bind. eapply runs_weaken; [apply scan_spec; [done..|by rewrite Hq]|].
  intros h1 [[]|e] (Hs1 & Ht1 & Hw1 & Hres); [|by rewrite Hq in Hres]. destruct Hres as (rs & Hq1 & Hrs). rewrite Hq in Hq1. cbn in Hq1.
  eapply runs_weaken; [apply handleMessages_spec; by rewrite Hw1|]. intros h2 res (-> & Hc & Hq2 & Hi). rewrite Hc.
  split_and!; [done..|]. exists rs. rewrite Hq1, Hw1 in Hi. by split.
Qed.

End theorems.

(** ** A client asks to wait *)

(** The cache has nothing newer for the client. *)
Definition up_to_date (c : center) (file : ClientFile) : Prop :=
  exists e, files c !! file_id file = Some e /\ compareByVersion file e = false.

(** A release that is newer than what the client has. *)
Definition newer (t : tables) (file : ClientFile) (resp : ConfigClientResponse) : Prop :=
  let namespace := GetValue (clNamespace file) in
  let group := GetValue (clGroup file) in
  let fileName := GetValue (clFileName file) in
  exists e, past t namespace group fileName e /\ compareByVersion file e = true /\
    resp = GenConfigFileResponse namespace group fileName "" (feMd5 e) (feVersion e) false "".

Definition plain_client_file (file : ClientFile) : Prop :=
  plain_file (GetValue (clNamespace file)) (GetValue (clGroup file)) (GetValue (clFileName file)).

Section asking.
  Context (range : forall A, gmap string A -> list (string * A)).
  Context (expireTimeAfterWrite : Z).

Lemma checkClientFiles_spec P rand fs c ls : Forall plain_client_file fs -> cache_sound (mkCaching c ls) ->
  runs P (checkClientFiles range expireTimeAfterWrite rand compareByVersion fs) c (fun c' r =>
    cache_sound (mkCaching c' ls) /\ tables_of c' = tables_of c /\ now (store_of c') = now (store_of c) /\ files c ⊆ files c' /\
    match r with
    | Okay resp => resp = mkClientResponse DataNoChange None /\ Forall (up_to_date c') fs \/ Exists (fun file => newer (tables_of c) file resp) fs
    | Fail resp => clFile resp = None /\ clCode resp ∈ [BadRequest; ExecuteException]
    end).
Proof.
  revert c. induction fs as [|file fs IH]; intros c Hplain Hs; cbn [checkClientFiles]; [apply runs_ret; split_and!; try done; by left|].
  apply Forall_cons in Hplain as [Hf Hplain]. case_decide; [apply runs_raise; split_and!; try done; set_solver|].
  apply runs_bind, runs_orelse. eapply runs_weaken; [by apply GetOrLoadIfAbsent_spec|].
  intros c1 [e|e] (Hs1 & (Ht1 & Hn1 & _) & Hsub1 & Hr); [|split_and!; try done; set_solver].
  destruct Hr as (Hpast & Hget & _). rewrite Ht1 in Hpast. destruct (compareByVersion file e) eqn:Hcmp.
  - apply runs_ret. split_and!; try done. right. constructor. by exists e.
  - eapply runs_weaken; [by apply IH|]. intros c2 r (Hs2 & Ht2 & Hn2 & Hsub2 & Hr). split_and!; [done|congruence|congruence|by etrans|].
    destruct r as [resp|resp]; [|done]. destruct Hr as [[-> Hall]|Hex]; [left|right].
    + split; [done|]. constructor; [|done]. exists e. split; [|done]. by apply (lookup_weaken (files c1)).
    + constructor 2. by rewrite Ht1 in Hex.
Qed.

(** A client that asks to wait is answered at once or waits: at once if it names
    no files, or not fully, if the store cannot be read, or with a release of one of
    its files that is newer than the client's; else it waits for up to thirty
    seconds on a channel of its own for each of its files, none of which is newer in
    the cache.  The other clients wait as before, and nothing panics. *)
Theorem watching_answers_or_waits rand clientId watchFiles h ls :
  cache_sound (mkCaching (cache h) ls) -> watching_ok (watch h) -> conns (watch h) !! clientId = None -> Forall plain_client_file watchFiles ->
  runs (fun _ => False) (WatchConfigFiles range expireTimeAfterWrite rand clientId watchFiles) h (fun h' r =>
    cache_sound (mkCaching (cache h') ls) /\ tables_of (cache h') = tables_of (cache h) /\
    match r with
    | Okay (inl resp) => watch h' = watch h /\
        (Exists (fun file => newer (tables_of (cache h)) file resp) watchFiles \/
         clFile resp = None /\ clCode resp ∈ [InvalidWatchConfigFileFormat; BadRequest; ExecuteException])
    | Okay (inr ch) => watching_ok (watch h') /\ joined (now (store_of (cache h))) clientId watchFiles ch (watch h) (watch h') /\
        Forall (up_to_date (cache h')) watchFiles
    | Fail _ => False
    end).
Proof.
  intros Hs Hok Hc Hplain. unfold WatchConfigFiles. apply runs_bind, runs_attempt, runs_on_cache. unfold doCheckClientConfigFile.
  case_decide as Hnil.
  { apply runs_ret. cbn. apply runs_ret. split_and!; try done. right. split; [done|set_solver]. }
  eapply runs_weaken; [by apply checkClientFiles_spec|]. intros c1 r (Hs1 & Ht1 & Hn1 & _ & Hr). destruct r as [resp|resp].
  - destruct Hr as [[-> Hall]|Hex].
    + rewrite decide_False by (by intros Hn; apply Hn). apply runs_bind, runs_get, runs_bind, runs_on_watch. cbn.
      eapply runs_weaken; [by apply AddConn_spec|]. intros w' res [Hok' (ch & -> & Hj)]. apply runs_ret. split_and!; try done.
      cbn. unfold store_of in *. by rewrite <- Hn1.
    + rewrite decide_True; [apply runs_ret; split_and!; try done; by left|].
      apply Exists_exists in Hex as (file & _ & e & _ & _ & ->). done.
  - destruct Hr as [Hf Hcode]. rewrite decide_True by (intros Heq; rewrite Heq in Hcode; set_solver). apply runs_ret. split_and!; try done. right. split; [done|set_solver].
Qed.

End asking.
