(* ===== verification/ConfigCenter.v ===== *)
(** * The configuration centre on concrete requests

    A history of files, releases, clients and ticks that the theorems on the
    configuration centre cover, and histories that show what it does not do. *)

From S2P Require Import Prelude Effects GoStrings Utils Namespace InstanceStore ServiceStore L5 BoltStore BoltServices Api NamespaceServer ConfigFiles.
From S2P Require Import ConfigStore ConfigServer ConfigPublish ConfigGroup FileCache ConfigWatch ConfigScan BoltRegistry.
From Stdlib Require Import ZArith Ascii Lia.
From stdpp Require Import base tactics list gmap strings relations.

Open Scope Z_scope.

#[local] Existing Instances BoltRegistry.store BoltRegistry.laws BoltRegistry.services_store BoltRegistry.services_laws.

(** ** The server *)

Definition no_time (t : Z) : string := "".
Definition in_order (A : Type) (m : gmap string A) : list (string * A) := map_to_list m.
Definition in_order_ok A (m : gmap string A) : in_order A m ≡ₚ map_to_list m := reflexivity _.
Definition no_group_hook (g : PbGroup) : call config_store unit unit := mret ().
Lemma no_group_hook_ok g : framing (no_group_hook g).
Proof. apply framing_ret. Qed.
Definition crypto : option (string -> option Crypto) := Some (fun algorithm => if decide (algorithm = "AES") then Some AESCrypto else None).

#[local] Abbreviation serve := (serve_config no_time in_order true crypto true (fun _ => false) (no_hook (A := PbNamespace) (B := NamespaceModel)) no_group_hook).
#[local] Abbreviation served := (ConfigPublish.answered no_time in_order true crypto true (fun _ => false) (no_hook (A := PbNamespace) (B := NamespaceModel)) no_group_hook).

Definition after (r : config_request) (s : @Api.Server config_store) : @Api.Server config_store :=
  match serve r s with Ret (s', _) => s' | Panics _ => s end.
Definition code_of (r : config_request) (s : @Api.Server config_store) : option Code :=
  match serve r s with Ret (_, res) => match reply res with Ret rsp => Some (coCode rsp) | Panics _ => None end | Panics _ => None end.

Lemma request_step r s c : bool_decide (roomy (committed (storage s))) = true -> code_of r s = Some c -> served s (after r s).
Proof.
  intros Hroom%bool_decide_eq_true Hc. split; [done|]. exists r. unfold code_of, after in *.
  destruct (serve r s) as [[s' res]|why]; [|done]. destruct (reply res) as [rsp|why] eqn:Hrsp; [by exists res, rsp|done].
Qed.

Definition second : Z := 10 ^ 9.

(** Nothing is configured. *)
Definition nothing : tables := mkTables ∅ ∅ ∅ ∅ ∅ ∅.
Definition empty_server (failures : list bool) (time : Z) : @Api.Server config_store :=
  mkServer (mkStore (mkBolt ∅ ∅ ∅ ∅ initL5 100 failures) nothing None (mkCounters 0 0 0 0 0) time) [] [].

Definition file_of (name content : string) : PbConfigFile :=
  mkPbFile None (Some name) (Some "default") (Some "web") (Some content) None (Some "text") None [] None None None None None None None None.
Definition release_of (name file : string) : PbRelease :=
  mkPbRelease None (Some name) (Some "default") (Some "web") (Some file) None None None None None None None None.

Definition new_app : config_request := NewFile "ann" "token" None (file_of "app.conf" "a=1").
Definition publish_app : config_request := Publish "ann" (release_of "" "app.conf").
Definition change_app : config_request := ChangeFile "ann" None (file_of "app.conf" "a=2").
Definition delete_app : config_request := DropFile "ann" "default" "web" "app.conf" "ann".

Definition s0 := empty_server [] (100 * second).
Definition s1 := after new_app s0.
Definition s2 := after publish_app s1.
Definition s3 := after change_app s2.
Definition s4 := after publish_app s3.
Definition s5 := after delete_app s4.

Example codes : code_of new_app s0 = Some ExecuteSuccess /\ code_of publish_app s1 = Some ExecuteSuccess /\
  code_of change_app s2 = Some ExecuteSuccess /\ code_of publish_app s3 = Some ExecuteSuccess /\ code_of delete_app s4 = Some ExecuteSuccess.
Proof. vm_compute. by split_and!. Qed.

(** ** A history *)

Lemma empty_ok failures time : config_ok (storage (empty_server failures time)).
Proof.
  split; [done|]. split; [split; intros k r Hr; cbn in Hr; by rewrite lookup_empty in Hr|].
  intros k r Hr. cbn in Hr. by rewrite lookup_empty in Hr.
Qed.

Lemma first_steps : rtc served s0 s2.
Proof.
  eapply rtc_l; [by apply (request_step new_app s0 ExecuteSuccess); vm_compute|].
  apply rtc_once. by apply (request_step publish_app s1 ExecuteSuccess); vm_compute.
Qed.
Lemma last_steps : rtc served s2 s5.
Proof.
  eapply rtc_l; [by apply (request_step change_app s2 ExecuteSuccess); vm_compute|].
  eapply rtc_l; [by apply (request_step publish_app s3 ExecuteSuccess); vm_compute|].
  apply rtc_once. by apply (request_step delete_app s4 ExecuteSuccess); vm_compute.
Qed.

Lemma served_ok s s' : rtc served s s' -> config_ok (storage s) -> config_ok (storage s').
Proof.
  induction 1 as [|s s1 s2 H1 _ IH]; [done|]. intros Hok. apply IH.
  by apply (answered_ok _ _ _ _ _ _ _ _ no_group_hook_ok in_order_ok _ _ Hok H1).
Qed.
Lemma s2_ok : config_ok (storage s2).
Proof. apply (served_ok _ _ first_steps), empty_ok. Qed.

Definition app_release (s : @Api.Server config_store) : option (Z * string * bool) :=
  (fun r => (crVersion r, crContent r, crValid r)) <$> tblConfigFileRelease (committed (storage s)) !! release_key "default" "web" "app.conf".

(** A release, a second one, and its withdrawal. *)
Lemma release_never_changes_witness :
  app_release s2 = Some (1, "a=1", true) /\ app_release s4 = Some (2, "a=2", true) /\ app_release s5 = Some (3, "a=2", false) /\
  config_ok (storage s5) /\ releases_le (committed (storage s2)) (committed (storage s5)).
Proof.
  split; [vm_compute; reflexivity|]. split; [vm_compute; reflexivity|]. split; [vm_compute; reflexivity|].
  exact (release_never_changes no_time in_order true crypto true (fun _ => false) no_hook no_group_hook no_group_hook_ok in_order_ok s2 s5
    s2_ok last_steps).
Defined.

Lemma publication_releases_the_file_witness :
  match PublishConfigFile no_time in_order true crypto false "ann" (release_of "" "app.conf") s3 with
  | Ret (s', r) => coCode (told r) = ExecuteSuccess /\ pending (storage s') = None /\
      publication no_time (release_of "" "app.conf") (committed (storage s3)) (committed (storage s')) (told r)
  | Panics _ => False
  end.
Proof.
  assert (pending (storage s3) = None) as Hp by (vm_compute; reflexivity).
  pose proof (publication_releases_the_file no_time in_order true crypto "ann" (release_of "" "app.conf") s3 Hp) as H.
  assert (match PublishConfigFile no_time in_order true crypto false "ann" (release_of "" "app.conf") s3 with
    | Ret (_, r) => Some (coCode (told r)) | Panics _ => None end = Some ExecuteSuccess) as Hc by (vm_compute; reflexivity).
  unfold runs in H.
  destruct (PublishConfigFile no_time in_order true crypto false "ann" (release_of "" "app.conf") s3) as [[s' r]|why].
  - injection Hc as Hc. split; [exact Hc|exact H].
  - discriminate Hc.
Defined.

(** One call of the store fails, the [n]-th from now. *)
Definition failing (n : nat) (s : @Api.Server config_store) : @Api.Server config_store :=
  mkServer (set_base (storage s) (set_faults (base (storage s)) (replicate n false ++ [true]))) (published s) (history s).

Lemma failing_ok n s : config_ok (storage s) -> config_ok (storage (failing n s)).
Proof. by intros (? & ? & ?). Qed.
Lemma s4_ok n : config_ok (storage (failing n s4)).
Proof.
  assert (rtc served s2 s4) as H.
  { eapply rtc_l; [by apply (request_step change_app s2 ExecuteSuccess); vm_compute|].
    apply rtc_once. by apply (request_step publish_app s3 ExecuteSuccess); vm_compute. }
  apply failing_ok. exact (served_ok _ _ H s2_ok).
Qed.

(** The commit fails: the release is there as before. *)
Lemma deletion_is_all_or_nothing_witness :
  match serve delete_app (failing 6 s4) with
  | Ret (s', r) => (coCode <$> reply r) = Ret StoreLayerException /\ app_release s' = Some (2, "a=2", true) /\
      committed (storage s') = committed (storage (failing 6 s4))
  | Panics _ => False
  end.
Proof.
  destruct (s4_ok 6) as (Hp & Hk & _).
  pose proof (deletion_is_all_or_nothing no_time in_order true crypto in_order_ok "ann" "default" "web" "app.conf" "ann" (failing 6 s4) Hp Hk) as H.
  assert (code_of delete_app (failing 6 s4) = Some StoreLayerException) as Hc by (vm_compute; reflexivity).
  assert (app_release (after delete_app (failing 6 s4)) = Some (2, "a=2", true)) as Hr by (vm_compute; reflexivity).
  unfold code_of, after in *. cbn [serve_config delete_app] in *. unfold runs in H.
  destruct (DeleteConfigFile no_time in_order true crypto "ann" "default" "web" "app.conf" "ann" (failing 6 s4)) as [[s' r]|why]; [|discriminate Hc].
  cbv zeta in H. destruct H as [_ H]. destruct (reply r) as [rsp|why]; [|discriminate Hc].
  injection Hc as Hc. destruct H as [_ H]. rewrite Hc in H. split; [cbn; by rewrite Hc|]. split; [exact Hr|exact H].
Defined.

(** ** The cache *)

(** A load reads the first release, the second is published, the load writes. *)
Definition c2 : center := mkCenter s2 ∅.
Definition load_app (c : center) : option (center * Entry) :=
  match load in_order 3600 7 "default" "web" "app.conf" c with Ret (c', Okay e) => Some (c', e) | _ => None end.
Definition x0 : caching := mkCaching c2 [].
Definition entry1 : Entry := mkEntry "a=1" (CalMd5 "a=1") 1 "" ((100 + 7 + 3600) * second) false.
Definition x3 : caching := mkCaching (set_entry (mkCenter s4 ∅) (GenFileId "default" "web" "app.conf") entry1) [].

#[local] Abbreviation cached_step := (cache_step no_time in_order true crypto true (fun _ => false) (no_hook (A := PbNamespace) (B := NamespaceModel)) no_group_hook 3600).

Lemma x0_sound : cache_sound x0.
Proof. split; [apply s2_ok|]. split; [|constructor]. intros k e He. cbn in He. by rewrite lookup_empty in He. Qed.

Lemma late_load : rtc cached_step x0 x3.
Proof.
  eapply rtc_l; [apply (step_read _ _ _ _ _ _ _ _ _ c2 [] 7 "default" "web" "app.conf" c2 (Okay entry1)); vm_compute; reflexivity|].
  eapply rtc_l; [apply (step_request _ _ _ _ _ _ _ _ _ c2 _ s3), (request_step change_app s2 ExecuteSuccess); vm_compute; reflexivity|].
  eapply rtc_l; [apply (step_request _ _ _ _ _ _ _ _ _ (mkCenter s3 ∅) _ s4), (request_step publish_app s3 ExecuteSuccess); vm_compute; reflexivity|].
  apply rtc_once. apply (step_write _ _ _ _ _ _ _ _ _ (mkCenter s4 ∅) [] (mkLoading "default" "web" "app.conf" entry1) []).
Qed.

Lemma cache_holds_releases_witness : cache_sound x3 /\ app_release (FileCache.server (state x3)) = Some (2, "a=2", true).
Proof.
  split; [|vm_compute; reflexivity].
  exact (cache_holds_releases no_time in_order true crypto true (fun _ => false) no_hook no_group_hook no_group_hook_ok in_order_ok 3600 x0 x3
    x0_sound late_load).
Defined.

Lemma x3_sound : cache_sound x3.
Proof.
  pose proof late_load as H. revert H. generalize x0_sound. generalize x0, x3. intros x x' Hs. induction 1 as [|x x1 x2 H1 _ IH]; [done|].
  apply IH. by apply (cache_step_sound no_time in_order true crypto true (fun _ => false) no_hook no_group_hook no_group_hook_ok in_order_ok 3600 x).
Qed.

Definition asks (version : Z) : ClientFile :=
  mkClientFile (Some "default") (Some "web") (Some "app.conf") None (Some version) None None None None.
Definition no_rsa (dataKey publicKey : string) : option string := None.
Definition get_app (version : Z) : call center ConfigClientResponse ConfigClientResponse :=
  GetConfigFileForClient in_order 3600 no_rsa (fun _ => 7) (asks version).
Definition got (m : call center ConfigClientResponse ConfigClientResponse) (c : center) : option (Code * option (Z * string)) :=
  match m c with
  | Ret (_, Okay r) | Ret (_, Fail r) => Some (clCode r, (fun f => (GetUint (clVersion f), GetValue (clContent f))) <$> clFile r)
  | Panics _ => None
  end.

(** A client that has seen nothing gets the old release, one that has the second
    the store's. *)
Lemma clients_get_releases_witness :
  got (get_app 0) (state x3) = Some (ExecuteSuccess, Some (1, "a=1")) /\ got (get_app 2) (state x3) = Some (ExecuteSuccess, Some (2, "a=2")) /\
  runs (fun _ => False) (get_app 2) (state x3) (fun c' r => tables_of c' = tables_of (state x3) /\
    match r with
    | Okay resp => exists file, resp = mkClientResponse ExecuteSuccess (Some file) /\ given (tables_of (state x3)) 2 "default" "web" "app.conf" file
    | Fail resp => clFile resp = None
    end).
Proof.
  split; [vm_compute; reflexivity|]. split; [vm_compute; reflexivity|].
  eapply runs_weaken.
  - apply (clients_get_releases in_order 3600 no_rsa (fun _ => 7) (asks 2) (state x3) []); [split; [reflexivity|split; reflexivity]|exact x3_sound].
  - intros c' r (_ & Ht & Hr). split; [exact Ht|]. destruct r as [resp|resp]; [exact Hr|]. destruct Hr as [Hr _]. exact Hr.
Defined.

(** ** Clients that wait *)

Definition nobody : watching := mkWatching ∅ ∅ 0 ∅ ∅.
Lemma nobody_ok : watching_ok nobody.
Proof.
  split; unfold watched; cbn.
  - intros id c v. by rewrite lookup_empty.
  - intros c conn file. by rewrite lookup_empty.
  - intros c conn. by rewrite lookup_empty.
  - intros c c' conn conn'. by rewrite lookup_empty.
  - intros ch _. by rewrite lookup_empty.
Qed.

Definition joins (now : Z) (c : string) (files : list ClientFile) (w : watching) : watching :=
  match AddConn (E := unit) now c files w with Ret (w', _) => w' | Panics _ => w end.

(** [old] has the first release, [new] the second. *)
Definition w1 : watching := joins (90 * second) "old" [asks 1] nobody.
Definition w2 : watching := joins (95 * second) "new" [asks 2] w1.

Lemma two_watch : rtc (watch_step in_order) nobody w2.
Proof.
  eapply rtc_l; [by apply (step_watch _ nobody (90 * second) "old" [asks 1] w1 0)|].
  apply rtc_once. by apply (step_watch _ w1 (95 * second) "new" [asks 2] w2 1).
Qed.
Lemma w2_ok : watching_ok w2.
Proof. apply (watch_steps_ok in_order in_order_ok nobody w2 two_watch nobody_ok). Qed.

Definition release2 : ConfigFileRelease :=
  default (mkRelease 0 "" "" "" "" "" "" "" 0 0 0 "" 0 "" false) (tblConfigFileRelease (committed (storage s4)) !! release_key "default" "web" "app.conf").
Definition who_waits (w : watching) : list (string * Z) := (fun kv => (kv.1, finishChan kv.2)) <$> map_to_list (conns w).
Definition told_on (w : watching) (ch : Z) : option (Code * option Z) :=
  (fun r => (clCode r, (fun f => GetUint (clVersion f)) <$> clFile r)) <$> sent w !! ch.
Definition ran {W A} (m : call W unit A) (w : W) : W := match m w with Ret (w', _) => w' | Panics _ => w end.

(** The release of the second version is told to [old]; thirty seconds after [new]
    has come, a tick tells it that nothing has changed. *)
Lemma long_polls_end_once_witness :
  told_on (ran (notifyToWatchers in_order release2) w2) 0 = Some (ExecuteSuccess, Some 2) /\
  who_waits (ran (notifyToWatchers in_order release2) w2) = [("new", 1)] /\
  told_on (ran (startHandleTimeoutRequestWorker in_order (126 * second)) w2) 1 = Some (DataNoChange, None) /\
  runs (E := unit) (fun _ => False) (notifyToWatchers in_order release2) w2 (fun w'' _ =>
    forall c conn, conns w2 !! c = Some conn ->
      (waits_for w2 release2 c /\ conns w'' !! c = None /\ sent w'' !! finishChan conn = Some (news release2)) \/
      (~ waits_for w2 release2 c /\ conns w'' !! c = Some conn /\ sent w'' !! finishChan conn = None)).
Proof.
  split; [vm_compute; reflexivity|]. split; [vm_compute; reflexivity|]. split; [vm_compute; reflexivity|].
  destruct (long_polls_end_once in_order in_order_ok nobody w2 nobody_ok two_watch) as (_ & _ & H). apply H.
Defined.

(** The cache has the first release; both clients wait. *)
Definition hub0 : hub := mkHub (state x3) w2 [] (95 * second).
Definition scan_and_tell : call hub StatusCode unit := _ ← scan in_order 3600 7; handleMessages in_order.

Lemma hub0_plain : plain_releases (tables_of (cache hub0)) /\ (size (tblConfigFileRelease (tables_of (cache hub0))) <= QueueSize)%nat.
Proof.
  split; [|apply Nat.leb_le; vm_compute; reflexivity].
  apply (bool_decide_unpack _). vm_compute. exact I.
Qed.

Lemma publication_reaches_watchers_witness :
  match scan_and_tell hub0 with
  | Ret (h, r) => r = Okay () /\ told_on (watch h) 0 = Some (ExecuteSuccess, Some 2) /\ who_waits (watch h) = [("new", 1)] /\
      releaseMessageQueue h = [] /\ cache_sound (mkCaching (cache h) [])
  | Panics _ => False
  end.
Proof.
  destruct hub0_plain as [Hplain Hsize].
  pose proof (publication_reaches_watchers in_order in_order_ok 3600 7 hub0 x3_sound w2_ok Hplain eq_refl Hsize) as H.
  assert (match scan_and_tell hub0 with
    | Ret (h, r) => r = Okay () /\ told_on (watch h) 0 = Some (ExecuteSuccess, Some 2) /\ who_waits (watch h) = [("new", 1)]
    | Panics _ => False
    end) as Hrun by (vm_compute; split; [reflexivity|]; split; reflexivity).
  unfold runs in H. fold scan_and_tell in H. destruct (scan_and_tell hub0) as [[h r]|why]; [|exact Hrun].
  destruct Hrun as (H1 & H2 & H3). destruct H as (Hs & _ & Hq & _). split; [exact H1|]. split; [exact H2|]. split; [exact H3|]. split; [exact Hq|exact Hs].
Defined.

(** [late] has the latest release and waits; a client with the first is answered. *)
Lemma watching_answers_or_waits_witness :
  match WatchConfigFiles in_order 3600 7 "late" [asks 2] hub0 with
  | Ret (h, Okay (inr ch)) => ch = 2 /\ watching_ok (watch h) /\ joined (100 * second) "late" [asks 2] ch w2 (watch h)
  | _ => False
  end.
Proof.
  assert (conns (watch hub0) !! "late" = None) as Hc by (vm_compute; reflexivity).
  assert (Forall plain_client_file [asks 2]) as Hp by (constructor; [split; [reflexivity|split; reflexivity]|constructor]).
  pose proof (watching_answers_or_waits in_order 3600 7 "late" [asks 2] hub0 [] x3_sound w2_ok Hc Hp) as H.
  assert (match WatchConfigFiles in_order 3600 7 "late" [asks 2] hub0 with Ret (h, Okay (inr ch)) => ch = 2 | _ => False end) as Hrun
    by (vm_compute; reflexivity).
  unfold runs in H. destruct (WatchConfigFiles in_order 3600 7 "late" [asks 2] hub0) as [[h [[resp|ch]|e]]|why]; [exact Hrun| |exact Hrun|exact Hrun].
  destruct H as (_ & _ & Hok & Hj & _). split; [exact Hrun|]. split; [exact Hok|]. exact Hj.
Defined.

(** ** What it does not do *)

Definition file_in (group name content : string) (tags : list PbTag) : PbConfigFile :=
  mkPbFile None (Some name) (Some "default") (Some group) (Some content) None (Some "text") None tags None None None None None None None None.
Definition add (group name : string) (s : @Api.Server config_store) : @Api.Server config_store :=
  after (NewFile "ann" "token" None (file_in group name "a" [])) s.
Definition files_left (s : @Api.Server config_store) : list (string * string) :=
  (fun kv => (cfGroup kv.2, cfName kv.2)) <$> filter (fun kv => cfValid kv.2 = true) (map_to_list (tblConfigFile (committed (storage s)))).
Definition drop_group (name : string) (s : @Api.Server config_store) : option (Code * list (string * string)) :=
  match DeleteConfigFileGroup no_time in_order true crypto no_group_hook 5 "ann" "default" name s with
  | Ret (s', r) => match reply r with Ret rsp => Some (coCode rsp, files_left s') | Panics _ => None end
  | Panics _ => None
  end.

(** The files of a group are looked up by a part of its name. *)
Lemma group_deletion_reaches_other_groups :
  files_left (add "web2" "b.conf" (add "web" "a.conf" s0)) = [("web2", "b.conf"); ("web", "a.conf")] /\
  drop_group "web" (add "web2" "b.conf" (add "web" "a.conf" s0)) = Some (ExecuteSuccess, []).
Proof. vm_compute. by split. Qed.

Definition two_groups : @Api.Server config_store := add "web2" "b.conf" (add "web" "a.conf" s0).

Lemma two_groups_ok : config_ok (storage two_groups).
Proof.
  assert (rtc served s0 two_groups) as H; [|exact (served_ok _ _ H (empty_ok _ _))].
  eapply rtc_l; [apply (request_step (NewFile "ann" "token" None (file_in "web" "a.conf" "a" [])) s0 ExecuteSuccess); vm_compute; reflexivity|].
  apply rtc_once. apply (request_step (NewFile "ann" "token" None (file_in "web2" "b.conf" "a" [])) _ ExecuteSuccess); vm_compute; reflexivity.
Qed.

Lemma group_deletion_ends_witness :
  match DeleteConfigFileGroup no_time in_order true crypto no_group_hook 1 "ann" "default" "web2" two_groups with
  | Ret (s', r) => (coCode <$> reply r) = Ret ExecuteSuccess /\ files_left s' = [("web", "a.conf")] /\ pending (storage s') = None /\
      group_there (committed (storage s')) "default" "web2" = false
  | Panics _ => False
  end.
Proof.
  destruct two_groups_ok as (Hp & Hk & _).
  assert (Z.of_nat (size (tblConfigFile (committed (storage two_groups)))) < MaxPageSize * Z.of_nat 1) as Hsize by (vm_compute; reflexivity).
  pose proof (group_deletion_ends no_time in_order in_order_ok true crypto no_group_hook (fun g => reading_ret (may_panic crypto) false ())
    1 "ann" "default" "web2" two_groups Hp Hk Hsize) as H.
  assert (match DeleteConfigFileGroup no_time in_order true crypto no_group_hook 1 "ann" "default" "web2" two_groups with
    | Ret (s', r) => (coCode <$> reply r) = Ret ExecuteSuccess /\ files_left s' = [("web", "a.conf")]
    | Panics _ => False
    end) as Hrun by (vm_compute; split; reflexivity).
  unfold runs in H.
  destruct (DeleteConfigFileGroup no_time in_order true crypto no_group_hook 1 "ann" "default" "web2" two_groups) as [[s' r]|why]; [|exact Hrun].
  destruct Hrun as [H1 H2], H as (H3 & _ & H4). split; [exact H1|]. split; [exact H2|]. split; [exact H3|].
  destruct (reply r) as [rsp|why]; [|discriminate H1]. injection H1 as H1. exact (H4 H1).
Defined.

(** They are gone before the group is looked up. *)
Lemma absent_group_is_deleted : drop_group "we" (add "web" "a.conf" s0) = Some (NotFoundResource, []).
Proof. by vm_compute. Qed.

(** The next page is looked for behind as many files as were just deleted. *)
Lemma large_group_keeps_files :
  drop_group "web" (foldl (fun s n => add "web" (pretty.pretty n) s) s0 (seq 0 101)) = Some (ExecuteSuccess, [("web", "0")]).
Proof. by vm_compute. Qed.

(** The calls of the store fail as told. *)
Definition faulty (l : list bool) (s : @Api.Server config_store) : @Api.Server config_store :=
  mkServer (set_base (storage s) (set_faults (base (storage s)) l)) (published s) (history s).

(** How a request ends and what it leaves of the file, its release and its text. *)
Definition left_of (r : config_request) (name : string) (s : @Api.Server config_store) : option (outcome Code * list (string * string) * option (Z * string * string * bool)) :=
  match serve r s with
  | Ret (s', res) => Some (coCode <$> reply res, files_left s',
      (fun r => (crVersion r, crName r, crContent r, crValid r)) <$> tblConfigFileRelease (committed (storage s')) !! release_key "default" "web" name)
  | Panics _ => None
  end.

(** The transaction could not be started: all is done, but not answered. *)
Lemma unbegun_transaction_panics :
  begins "default" "web" "app.conf" (storage (failing 2 s4)) = false /\
  left_of delete_app "app.conf" (failing 2 s4) = Some (Panics NilDereference, [], Some (3, "app.conf-003", "a=2", false)).
Proof. vm_compute. by split. Qed.

(** And when the removal of the file fails, too, its release is withdrawn all the same. *)
Definition unbegun (n : nat) : list bool := [false; false; true] ++ replicate n false ++ [true].
Lemma unbegun_deletion_is_half_done :
  left_of delete_app "app.conf" (faulty (unbegun 13) s4) =
    Some (Panics NilDereference, [("web", "app.conf")], Some (3, "app.conf-003", "a=2", false)).
Proof. by vm_compute. Qed.

(** Names with a dash are numbered only once. *)
Lemma dashed_names_are_not_numbered :
  GenReleaseName "" "my-app.conf" = "my-app.conf-001" /\ GenReleaseName "my-app.conf-001" "my-app.conf" = "my-app.conf-001" /\
  GenReleaseName "app.conf-001" "app.conf" = "app.conf-002".
Proof. by vm_compute. Qed.

(** [modifyBy] is written to [createBy]. *)
Lemma modifier_becomes_creator :
  let r := transferConfigFileReleaseAPIModel2StoreModel
    (mkPbRelease None None None None None None None None None None (Some "ann") None (Some "bob")) in
  crCreateBy r = "bob" /\ crModifyBy r = "".
Proof. by vm_compute. Qed.

Definition rnd : option (list Z) := Some (replicate 32 7).
Definition secret : PbConfigFile :=
  mkPbFile None (Some "key.conf") (Some "default") (Some "web") (Some "a=1") None (Some "text") None [] None None None None None None
    (Some true) (Some "AES").
Definition secrets : @Api.Server config_store := after (Publish "ann" (release_of "v1" "key.conf")) (after (NewFile "ann" "token" rnd secret) s0).

(** The creator reads the text of an encrypted file, but not that of its release. *)
Lemma release_is_not_deciphered :
  match GetConfigFileBaseInfo no_time in_order crypto false "ann" "default" "web" "key.conf" secrets,
        ConfigServer.GetConfigFileRelease no_time in_order crypto false "ann" "default" "web" "key.conf" secrets with
  | Ret (_, file), Ret (_, release) =>
      option_map pfContent (coFile (told file)) = Some (Some "a=1") /\
      option_map prContent (coRelease (told release)) = Some (Some "dI7o7WRieqRp+L/zPsEXMg==")
  | _, _ => False
  end.
Proof. by vm_compute. Qed.

(** The key is looked for under the name of the release: [key], which is what
    [key-001] is enciphered to, is released as [key-001]. *)
Definition secret_of_name : PbConfigFile :=
  mkPbFile None (Some "key-001") (Some "default") (Some "web") (Some "a=1") None (Some "text") None [] None None None None None None
    (Some true) (Some "AES").
Definition cipher_of_name : PbConfigFile := file_of "key" "dI7o7WRieqRp+L/zPsEXMg==".
Definition named : @Api.Server config_store :=
  after (Publish "ann" (release_of "" "key")) (after (NewFile "ann" "token" None cipher_of_name) (after (NewFile "ann" "token" rnd secret_of_name) s0)).
Definition drop_key : config_request := DropFile "ann" "default" "web" "key" "ann".

(** Without a transaction the release is renamed, and deciphered, for good: one
    version has another content, under the md5 of the old one. *)
Definition sums_of (s : @Api.Server config_store) : option (Z * string * bool) :=
  (fun r => (crVersion r, crContent r, bool_decide (crMd5 r = CalMd5 (crContent r)))) <$>
    tblConfigFileRelease (committed (storage s)) !! release_key "default" "web" "key".
Lemma unbegun_deletion_changes_release :
  sums_of named = Some (1, "dI7o7WRieqRp+L/zPsEXMg==", true) /\
  left_of drop_key "key" (faulty (unbegun 5) named) =
    Some (Panics NilDereference, [("web", "key-001"); ("web", "key")], Some (1, "key-002", "a=1", true)) /\
  sums_of (after drop_key (faulty (unbegun 5) named)) = Some (1, "a=1", false).
Proof. vm_compute. by split_and!. Qed.

(** A file that carries the tags of an encrypted one. *)
Definition forged (content : string) : PbConfigFile :=
  file_in "web" "key.conf" content
    [mkPbTag (Some ConfigFileTagKeyDataKey) (Some "AAAAAAAAAAAAAAAAAAAAAA=="); mkPbTag (Some ConfigFileTagKeyEncryptAlgo) (Some "AES")].
Lemma forged_key_panics_the_cipher :
  code_of (NewFile "ann" "token" None (forged "AAAA")) s0 = Some ExecuteSuccess /\
  GetConfigFileBaseInfo no_time in_order crypto false "ann" "default" "web" "key.conf" (after (NewFile "ann" "token" None (forged "AAAA")) s0)
    = Panics ExplicitPanic.
Proof. vm_compute. by split. Qed.

(** A client asks for the version it has seen; the release has been withdrawn. *)
Lemma withdrawn_release_is_answered_with_success :
  got (get_app 4) (mkCenter s5 (files (state x3))) = Some (ExecuteSuccess, Some (0, "")) /\
  got (get_app 0) (mkCenter s5 ∅) = Some (NotFoundResource, None).
Proof. by vm_compute. Qed.

(** Two clients of a file nobody watched: both have looked before either is in. *)
Lemma second_watcher_is_lost :
  let w := addWatcher false "b" (asks 1) (addWatcher false "a" (asks 1) nobody) in
  watched w (file_id (asks 1)) "a" = Some 1 /\ watched w (file_id (asks 1)) "b" = None.
Proof. by vm_compute. Qed.

(** The worker has found the connection of [old]; the notifier answers it. *)
Lemma timeout_during_push_panics :
  let loaded := conns w2 !! "old" in
  let w := ran (push loaded "old" (news release2)) w2 in
  match loaded with Some conn => timeout (E := unit) (126 * second) "old" conn w = Panics SendOnClosedChannel | None => False end.
Proof. by vm_compute. Qed.

(** The notifier has found the connection; the worker answers it. *)
Lemma push_during_timeout_blocks :
  let loaded := conns w2 !! "old" in
  match loaded with
  | Some conn => push (E := unit) loaded "old" (news release2) (ran (timeout (126 * second) "old" conn) w2) = Panics Deadlock
  | None => False
  end.
Proof. by vm_compute. Qed.

(** A client that asks for the second release brings it into the cache before the
    scan: nobody is told. *)
Lemma cached_release_is_not_announced :
  match get_app 2 (state x3) with
  | Ret (c, _) =>
      match scan_and_tell (mkHub c w2 [] (95 * second)) with
      | Ret (h, r) => r = Okay () /\ who_waits (watch h) = who_waits w2 /\ waits_for (watch h) release2 "old"
      | Panics _ => False
      end
  | Panics _ => False
  end.
Proof. vm_compute. split; [done|]. split; [done|]. by exists 1. Qed.

(** Between the two steps of [AddConn] the client may be answered; it is then entered
    into the watchers all the same. *)
Lemma answered_client_stays_in_the_watchers :
  let w := removeConn (E := unit) "old" w2 in
  match w with
  | Ret (w, _) => conns w !! "old" = None /\ watched (AddWatcher "old" [asks 1] w) (file_id (asks 1)) "old" = Some 1
  | Panics _ => False
  end.
Proof. by vm_compute. Qed.
