(* ===== verification/AccountStore.v ===== *)
(** * Accounts in the boltdb store ([src/store/boltdb/user.go], [group.go], [strategy.go])

    The tables of users, user groups and authorization strategies.  A deleted row
    stays, marked as not valid.  Each user and group has a default strategy, that
    is created and deleted with it.  A call runs in one transaction, which is
    rolled back when anything in it fails.  The maps of a strategy and of a group
    have empty values: they are sets. *)

From S2P Require Import Prelude Effects GoStrings Utils BaseCache UserCache StrategyCache InstanceStore.
From Stdlib Require Import ZArith Lia Ascii.
From stdpp Require Import base tactics list gmap strings sorting.

Open Scope Z_scope.

(** ** Data *)

(** [strategyForStore]. *)
Record strategyForStore := mkRule {
  rID : string;
  rName : string;
  rAction : string;
  rComment : string;
  rUsers : gset string;
  rGroups : gset string;
  rDefault : bool;
  rOwner : string;
  rNsResources : gset string;
  rSvcResources : gset string;
  rCfgResources : gset string;
  rValid : bool;
  rRevision : string;
  rCreateTime : Z;
  rModifyTime : Z }.

Record accounts := mkAccounts {
  tblUser : gmap string User;
  tblGroup : gmap string UserGroupDetail;
  tblStrategy : gmap string strategyForStore;
  aclock : Z;
  afaults : list bool }.

Definition set_tblUser (w : accounts) t := mkAccounts t (tblGroup w) (tblStrategy w) (aclock w) (afaults w).
Definition set_tblGroup (w : accounts) t := mkAccounts (tblUser w) t (tblStrategy w) (aclock w) (afaults w).
Definition set_tblStrategy (w : accounts) t := mkAccounts (tblUser w) (tblGroup w) t (aclock w) (afaults w).
Definition set_afaults (w : accounts) l := mkAccounts (tblUser w) (tblGroup w) (tblStrategy w) (aclock w) l.

Abbreviation adb := (call accounts StatusCode).

(** [model.ModifyUserGroup] and [model.ModifyStrategyDetail], with the fields
    that the store reads. *)
Record ModifyUserGroup := mkModifyGroup {
  mgID : string;
  mgToken : string;
  mgTokenEnable : bool;
  mgComment : string;
  AddUserIds : list string;
  RemoveUserIds : list string }.
Record ModifyStrategyDetail := mkModifyStrategy {
  msID : string;
  msName : string;
  msAction : string;
  msComment : string;
  AddPrincipals : list Principal;
  RemovePrincipals : list Principal;
  AddResources : list StrategyResource;
  RemoveResources : list StrategyResource }.

(** ** The handler ([handler.go]) *)

(** The transaction may fail when it starts or when it is committed. *)
Definition atomically {A} (body : adb A) : adb A := fun w =>
  let w' := set_afaults w (tail (afaults w)) in
  if default false (head (afaults w)) then Ret (w', Fail Unknown)
  else match body w' with
       | Ret (_, Fail e) => Ret (w', Fail e)
       | r => r
       end.

(** A row that is saved becomes valid.  [bolt] has no empty keys. *)
Definition saveUser (u : User) : adb unit :=
  if decide (UID u = "") then raise Unknown
  else modify (fun w => set_tblUser w (<[UID u := mkUser (UID u) (UName u) (UPassword u) (UOwner u) (USource u) (UMobile u) (UEmail u)
    (UType u) (UToken u) (UTokenEnable u) true (UComment u) (UCreateTime u) (UModifyTime u)]> (tblUser w))).
Definition saveGroup (g : UserGroupDetail) : adb unit :=
  if decide (GID g = "" \/ "" ∈ UserIds g) then raise Unknown
  else modify (fun w => set_tblGroup w (<[GID g := mkGroup (GID g) (GName g) (GOwner g) (GToken g) (GTokenEnable g) true (GComment g)
    (GCreateTime g) (GModifyTime g) (UserIds g)]> (tblGroup w))).
Definition saveStrategy (r : strategyForStore) : adb unit :=
  if decide (rID r = "" \/ "" ∈ rUsers r ∪ rGroups r ∪ rNsResources r ∪ rSvcResources r ∪ rCfgResources r) then raise Unknown
  else modify (fun w => set_tblStrategy w (<[rID r := mkRule (rID r) (rName r) (rAction r) (rComment r) (rUsers r) (rGroups r) (rDefault r)
    (rOwner r) (rNsResources r) (rSvcResources r) (rCfgResources r) true (rRevision r) (rCreateTime r) (rModifyTime r)]> (tblStrategy w))).

Section boltdb.
  (** The order in which Go ranges over a map. *)
  Context (range : forall A, gmap string A -> list (string * A)).

Definition count {A} (m : gmap string A) : Z := wrap_u 32 (Z.of_nat (size m)).

(** [m] from [offset], at most [limit] of them, the last modified first. *)
Definition pageOf {A} (mtime : A -> Z) (values : gmap string A) (offset limit : Z) : list A :=
  let endIndex := wrap_u 32 (offset + limit) in
  let totalCount := count values in
  if decide (totalCount = 0 \/ endIndex <= offset \/ totalCount <= offset) then []
  else
    let sorted := @merge_sort _ (fun a b => mtime b <= mtime a) (fun a b => decide (mtime b <= mtime a)) (range _ values).*2 in
    take (Z.to_nat (Z.min endIndex totalCount - offset)) (drop (Z.to_nat offset) sorted).

(** Where at most one row is expected. *)
Definition only {A} (values : gmap string A) : adb (option A) :=
  match (range _ values).*2 with
  | [] => mret None
  | [v] => mret (Some v)
  | _ => raise Unknown
  end.

(** [name] as a filter: a prefix that ends in a star is looked for anywhere. *)
Definition trimStar (name : string) : string :=
  if IsPrefixWildName name then String.substring 0 (String.length name - 1) name else name.

(** ** Strategies ([strategy.go]) *)

(** Go's zero [time.Time], as [UnixNano] overflows on it. *)
Definition zeroTimeNanos : Z := wrap_i 64 (-62135596800 * Second).

Definition defaultStrategyName (role : Z) (name : string) : string :=
  (if decide (role = PrincipalUser) then "(用户) " else "(用户组) ") +:+ name +:+ "的默认策略".

Definition principalsOf (role : Z) (principals : list Principal) : gset string :=
  list_to_set (PrincipalID <$> filter (fun p => PrincipalRole p = PrincipalUser <-> role = PrincipalUser) principals).
Definition resourcesOf (resType : Z) (resources : list StrategyResource) : gset string :=
  list_to_set (ResID <$> filter (fun r => ResType r = resType) resources).

Definition convertForStrategyStore (s : StrategyDetail) : strategyForStore :=
  mkRule (SID s) (SName s) (SAction s) (SComment s) (principalsOf PrincipalUser (Principals s)) (principalsOf PrincipalGroup (Principals s))
    (SDefault s) (SOwner s) (resourcesOf Namespaces (Resources s)) (resourcesOf Services (Resources s)) (resourcesOf ConfigGroups (Resources s))
    (SValid s) (SRevision s) (SCreateTime s) (SModifyTime s).

Definition convertForStrategyDetail (r : strategyForStore) : StrategyDetail :=
  mkStrategy (rID r) (rName r) (rAction r) (rComment r)
    (((fun id => mkPrincipal id PrincipalUser) <$> elements (rUsers r)) ++ ((fun id => mkPrincipal id PrincipalGroup) <$> elements (rGroups r)))
    (rDefault r) (rOwner r)
    ((mkResource Namespaces <$> elements (rNsResources r)) ++ (mkResource Services <$> elements (rSvcResources r)) ++
     (mkResource ConfigGroups <$> elements (rCfgResources r)))
    (rValid r) (rRevision r) (rCreateTime r) (rModifyTime r).

(** [uuids]: for the id and the revision.  The times are not set. *)
Definition createDefaultStrategy (uuids : string * string) (role : Z) (principalId name owner : string) : adb unit :=
  saveStrategy (convertForStrategyStore (mkStrategy uuids.1 (defaultStrategyName role name) "READ_WRITE" "Default Strategy"
    [mkPrincipal principalId role] true owner [] true uuids.2 zeroTimeNanos zeroTimeNanos)).

Definition principals (role : Z) (r : strategyForStore) : gset string := if decide (role = PrincipalUser) then rUsers r else rGroups r.

(** [cleanLinkStrategy] looks at deleted strategies too. *)
Definition linkedOnly (role : Z) (principalId : string) (r : strategyForStore) : bool :=
  rDefault r && bool_decide (size (principals role r) = 1%nat) && bool_decide (principalId ∈ principals role r).
Definition invalidate (now : Z) (r : strategyForStore) : strategyForStore :=
  mkRule (rID r) (rName r) (rAction r) (rComment r) (rUsers r) (rGroups r) (rDefault r) (rOwner r) (rNsResources r) (rSvcResources r)
    (rCfgResources r) false (rRevision r) (rCreateTime r) now.
Definition cleanLinkStrategy (role : Z) (principalId : string) : adb unit :=
  w ← get;
  match (range _ (filter (fun kv => linkedOnly role principalId kv.2 = true) (tblStrategy w))).*1 with
  | [] => mret ()
  | [k] => modify (fun w => set_tblStrategy w (alter (invalidate (aclock w)) k (tblStrategy w)))
  | _ => raise Unknown
  end.

Definition loadStrategyById (id : string) : adb (option strategyForStore) :=
  w ← get;
  mret (match tblStrategy w !! id with Some r => if rValid r then Some r else None | None => None end).

(** A strategy that is not valid any more and has the name is removed. *)
Definition cleanInvalidStrategy (name owner : string) : adb unit :=
  modify (fun w => set_tblStrategy w (filter (fun kv => ~ (rValid kv.2 = false /\ rName kv.2 = name /\ rOwner kv.2 = owner)) (tblStrategy w))).

Definition initStrategy (now : Z) (s : StrategyDetail) : StrategyDetail :=
  mkStrategy (SID s) (SName s) (SAction s) (SComment s) (Principals s) (SDefault s) (SOwner s) (Resources s) true (SRevision s) now now.

Definition bolt_AddStrategy (strategy : StrategyDetail) : adb unit :=
  if decide (SID strategy = "" \/ SName strategy = "" \/ SOwner strategy = "") then raise EmptyParamsErr
  else
    w ← get;
    let strategy := initStrategy (aclock w) strategy in
    atomically (_ ← cleanInvalidStrategy (SName strategy) (SOwner strategy); saveStrategy (convertForStrategyStore strategy)).

Definition set_principals (r : strategyForStore) (us gs : gset string) : strategyForStore :=
  mkRule (rID r) (rName r) (rAction r) (rComment r) us gs (rDefault r) (rOwner r) (rNsResources r) (rSvcResources r) (rCfgResources r)
    (rValid r) (rRevision r) (rCreateTime r) (rModifyTime r).
Definition set_resources (r : strategyForStore) (ns svc cfg : gset string) : strategyForStore :=
  mkRule (rID r) (rName r) (rAction r) (rComment r) (rUsers r) (rGroups r) (rDefault r) (rOwner r) ns svc cfg
    (rValid r) (rRevision r) (rCreateTime r) (rModifyTime r).
Definition touch (now : Z) (r : strategyForStore) : strategyForStore :=
  mkRule (rID r) (rName r) (rAction r) (rComment r) (rUsers r) (rGroups r) (rDefault r) (rOwner r) (rNsResources r) (rSvcResources r)
    (rCfgResources r) (rValid r) (rRevision r) (rCreateTime r) now.

Definition change (remove : bool) (id : string) (s : gset string) : gset string := if remove then s ∖ {[id]} else {[id]} ∪ s.
Definition computePrincipals (remove : bool) (ps : list Principal) (r : strategyForStore) : strategyForStore :=
  foldl (fun r p => if decide (PrincipalRole p = PrincipalUser) then set_principals r (change remove (PrincipalID p) (rUsers r)) (rGroups r)
                    else set_principals r (rUsers r) (change remove (PrincipalID p) (rGroups r))) r ps.
Definition computeResources (remove : bool) (resources : list StrategyResource) (r : strategyForStore) : strategyForStore :=
  foldl (fun r res =>
    if decide (ResType res = Namespaces) then set_resources r (change remove (ResID res) (rNsResources r)) (rSvcResources r) (rCfgResources r)
    else if decide (ResType res = Services) then set_resources r (rNsResources r) (change remove (ResID res) (rSvcResources r)) (rCfgResources r)
    else if decide (ResType res = ConfigGroups) then set_resources r (rNsResources r) (rSvcResources r) (change remove (ResID res) (rCfgResources r))
    else r) r resources.

(** The new name is not among what is saved. *)
Definition updateStrategy (uuid : string) (now : Z) (modify : ModifyStrategyDetail) (r : strategyForStore) : strategyForStore :=
  let r := mkRule (rID r) (rName r) (msAction modify) (msComment modify) (rUsers r) (rGroups r) (rDefault r) (rOwner r) (rNsResources r)
    (rSvcResources r) (rCfgResources r) (rValid r) uuid (rCreateTime r) (rModifyTime r) in
  let r := computePrincipals true (RemovePrincipals modify) (computePrincipals false (AddPrincipals modify) r) in
  touch now (computeResources true (RemoveResources modify) (computeResources false (AddResources modify) r)).

Definition bolt_UpdateStrategy (uuid : string) (strategy : ModifyStrategyDetail) : adb unit :=
  if decide (msID strategy = "") then raise EmptyParamsErr
  else atomically (
    ret ← loadStrategyById (msID strategy);
    match ret with
    | None => raise Unknown
    | Some r => w ← get; saveStrategy (updateStrategy uuid (aclock w) strategy r)
    end).

Definition bolt_DeleteStrategy (id : string) : adb unit :=
  if decide (id = "") then raise EmptyParamsErr
  else atomically (modify (fun w => set_tblStrategy w (alter (invalidate (aclock w)) id (tblStrategy w)))).

(** A resource with the id of its strategy. *)
Abbreviation link := (string * StrategyResource)%type.
Definition buildResMap (resources : list link) : gmap string (list StrategyResource) :=
  foldl (fun m e => <[e.1 := default [] (m !! e.1) ++ [e.2]]> m) ∅ resources.

Definition operateStrategyResources (remove : bool) (resources : list link) : adb unit :=
  atomically (each (fun '(id, ress) =>
    rule ← loadStrategyById id;
    match rule with
    | None => raise Unknown
    | Some rule => w ← get; saveStrategy (touch (aclock w) (computeResources remove ress rule))
    end) (range _ (buildResMap resources))).
Definition bolt_RemoveStrategyResources := operateStrategyResources true.
Definition bolt_LooseAddStrategyResources := operateStrategyResources false.

(** [db.View] *)
Definition view {A} (f : accounts -> A) : adb A := atomically (w ← get; mret (f w)).

Definition bolt_GetStrategyDetail (id : string) : adb (option StrategyDetail) :=
  atomically (ret ← loadStrategyById id; mret (convertForStrategyDetail <$> ret)).

Definition strategiesOf (role : Z) (principalId : string) (t : gmap string strategyForStore) : gmap string strategyForStore :=
  filter (fun kv => rValid kv.2 = true /\ principalId ∈ principals role kv.2) t.
Definition collectStrategyResources (r : strategyForStore) : list StrategyResource := Resources (convertForStrategyDetail r).
Definition bolt_GetStrategyResources (principalId : string) (role : Z) : adb (list StrategyResource) :=
  values ← view (fun w => strategiesOf role principalId (tblStrategy w));
  mret ((range _ values).*2 ≫= collectStrategyResources).

Definition bolt_GetDefaultStrategyDetailByPrincipal (principalId : string) (role : Z) : adb StrategyDetail :=
  values ← view (fun w => filter (fun kv => rDefault kv.2 = true) (strategiesOf role principalId (tblStrategy w)));
  ret ← only values;
  match ret with None => raise Unknown | Some r => mret (convertForStrategyDetail r) end.

Definition compareResExist (resType resId : string) (r : strategyForStore) : bool :=
  if decide (resType = "0") then bool_decide (resId ∈ rNsResources r)
  else if decide (resType = "1") then bool_decide (resId ∈ rSvcResources r)
  else if decide (resType = "2") then bool_decide (resId ∈ rCfgResources r)
  else true.
Definition comparePrincipalExist (principalType principalId : string) (r : strategyForStore) : bool :=
  if decide (principalType = "1") then bool_decide (principalId ∈ rUsers r)
  else if decide (principalType = "2") then bool_decide (principalId ∈ rGroups r)
  else true.

(** A filter that is absent lets everything pass. *)
Definition given (filters : gmap string string) (key : string) (pass : string -> bool) : bool :=
  match filters !! key with None => true | Some v => pass v end.
Definition filter_value (filters : gmap string string) (key : string) : string := default "" (filters !! key).

Definition listed (filters : gmap string string) (r : strategyForStore) : bool :=
  let principal := given filters "principal_id" (fun id => comparePrincipalExist (filter_value filters "principal_type") id r) in
  rValid r &&
  given filters "name" (fun name => Contains (rName r) (trimStar name)) &&
  given filters "owner" (fun owner => bool_decide (rOwner r = owner) || principal) &&
  given filters "default" (fun d => bool_decide (d = "0") && negb (rDefault r) || bool_decide (d = "1") && rDefault r) &&
  given filters "res_type" (fun t => compareResExist t (filter_value filters "res_id") r) &&
  principal.

Definition brief (s : StrategyDetail) : StrategyDetail :=
  mkStrategy (SID s) (SName s) (SAction s) (SComment s) [] (SDefault s) (SOwner s) [] (SValid s) (SRevision s) (SCreateTime s) (SModifyTime s).

Definition bolt_GetStrategies (filters : gmap string string) (offset limit : Z) : adb (Z * list StrategyDetail) :=
  let showDetail := bool_decide (filter_value filters "show_detail" = "true") in
  values ← view (fun w => filter (fun kv => listed (delete "show_detail" filters) kv.2 = true) (tblStrategy w));
  mret (count values, (fun r => let s := convertForStrategyDetail r in if showDetail then s else brief s) <$> pageOf rModifyTime values offset limit).

Definition bolt_GetStrategyDetailsForCache (mtime : Z) : adb (list StrategyDetail) :=
  values ← view (fun w => filter (fun kv => mtime < rModifyTime kv.2) (tblStrategy w));
  mret (convertForStrategyDetail <$> (range _ values).*2).

(** ** Users ([user.go]) *)

Definition initUser (now : Z) (u : User) : User :=
  mkUser (UID u) (UName u) (UPassword u) (UOwner u) (USource u) (UMobile u) (UEmail u) (UType u) (UToken u) (UTokenEnable u) true
    (UComment u) now now.

(** [uuids]: for the default strategy.  [owner]: of that strategy. *)
Definition addUser (uuids : string * string) (user : User) : adb unit :=
  let owner := if decide (UOwner user = "") then UID user else UOwner user in
  atomically (_ ← saveUser user; createDefaultStrategy uuids PrincipalUser (UID user) (UName user) owner).

Definition bolt_AddUser (uuids : string * string) (user : User) : adb unit :=
  w ← get;
  let user := initUser (aclock w) user in
  if decide (UID user = "" \/ UName user = "" \/ USource user = "" \/ UOwner user = "" \/ UToken user = "") then raise EmptyParamsErr
  else addUser uuids user.

Definition changeUser (user : User) (now : Z) (row : User) : User :=
  mkUser (UID row) (UName row) (UPassword user) (UOwner row) (USource row) (UMobile user) (UEmail user) (UType row) (UToken user)
    (UTokenEnable user) (UValid row) (UComment user) (UCreateTime row) now.
Definition bolt_UpdateUser (user : User) : adb unit :=
  if decide (UID user = "" \/ UToken user = "") then raise EmptyParamsErr
  else atomically (modify (fun w => set_tblUser w (alter (changeUser user (aclock w)) (UID user) (tblUser w)))).

Definition dropUser (now : Z) (row : User) : User :=
  mkUser (UID row) (UName row) (UPassword row) (UOwner row) (USource row) (UMobile row) (UEmail row) (UType row) (UToken row)
    (UTokenEnable row) false (UComment row) (UCreateTime row) now.
Definition bolt_DeleteUser (user : User) : adb unit :=
  if decide (UID user = "") then raise EmptyParamsErr
  else atomically (
    _ ← modify (fun w => set_tblUser w (alter (dropUser (aclock w)) (UID user) (tblUser w)));
    cleanLinkStrategy PrincipalUser (UID user)).

Definition valid_user (u : User) : option User := if UValid u then Some u else None.

Definition bolt_GetUser (id : string) : adb (option User) :=
  if decide (id = "") then raise EmptyParamsErr else view (fun w => tblUser w !! id ≫= valid_user).

(** The rows of deleted users count. *)
Definition bolt_GetUserByName (name ownerId : string) : adb (option User) :=
  if decide (name = "") then raise EmptyParamsErr
  else
    ret ← view (fun w => filter (fun kv => UName kv.2 = name /\ UOwner kv.2 = ownerId) (tblUser w));
    user ← only ret;
    mret (user ≫= valid_user).

Definition bolt_GetUserByIds (ids : list string) : adb (list User) :=
  if decide (ids = []) then mret []
  else
    ret ← view (fun w => filter (fun kv => kv.1 ∈ ids) (tblUser w));
    mret (omap valid_user (range _ ret).*2).

Definition bolt_GetSubCount (user : User) : adb Z :=
  ret ← view (fun w => filter (fun kv => UValid kv.2 = true /\ UOwner kv.2 = UID user) (tblUser w));
  mret (count ret).

(** The filters that both queries have. *)
Definition matchesName (filters : gmap string string) (u : User) : bool :=
  given filters "name" (fun name => if IsPrefixWildName name then Contains (UName u) (trimStar name) else bool_decide (UName u = name)).
Definition matchesUser (filters : gmap string string) (u : User) : bool :=
  UValid u &&
  negb (bool_decide (UType u = AdminUserRole) && bool_decide (filter_value filters "hide_admin" = "true")) &&
  matchesName filters u &&
  given filters "owner" (fun owner => bool_decide (owner = UOwner u) || bool_decide (UID u = owner)) &&
  given filters "source" (fun source => bool_decide (source = USource u)) &&
  given filters "id" (fun id => bool_decide (id = UID u)).

Definition getUsers (filters : gmap string string) (offset limit : Z) : adb (Z * list User) :=
  ret ← view (fun w => filter (fun kv => matchesUser filters kv.2 = true) (tblUser w));
  mret (count ret, pageOf UModifyTime ret offset limit).

Definition matchesMember (filters : gmap string string) (u : User) : bool :=
  UValid u && negb (bool_decide (UType u = AdminUserRole)) && matchesName filters u &&
  given filters "owner" (fun owner => bool_decide (owner = UOwner u)) &&
  given filters "source" (fun source => bool_decide (source = USource u)).

(** The group may be deleted.  The total counts all its members. *)
Definition getGroupUsers (filters : gmap string string) (offset limit : Z) : adb (Z * list User) :=
  let groupId := filter_value filters "group_id" in
  let filters := delete "group_id" filters in
  group ← view (fun w => tblGroup w !! groupId);
  match group with
  | None => mret (0, [])
  | Some group =>
      ret ← (if decide (UserIds group = ∅) then mret ∅ else view (fun w => filter (fun kv => kv.1 ∈ UserIds group) (tblUser w)));
      mret (count ret, pageOf UModifyTime (filter (fun kv => matchesMember filters kv.2 = true) ret) offset limit)
  end.

Definition bolt_GetUsers (filters : gmap string string) (offset limit : Z) : adb (Z * list User) :=
  if decide (is_Some (filters !! "group_id")) then getGroupUsers filters offset limit else getUsers filters offset limit.

Definition bolt_GetUsersForCache (mtime : Z) : adb (list User) :=
  ret ← view (fun w => filter (fun kv => mtime <= UModifyTime kv.2) (tblUser w));
  mret (range _ ret).*2.

(** ** Groups ([group.go]) *)

Definition initGroup (now : Z) (g : UserGroupDetail) : UserGroupDetail :=
  mkGroup (GID g) (GName g) (GOwner g) (GToken g) (GTokenEnable g) true (GComment g) now now (UserIds g).

Definition cleanInValidGroup (name owner : string) : adb unit :=
  modify (fun w => set_tblGroup w (filter (fun kv => ~ (GValid kv.2 = false /\ GName kv.2 = name /\ GOwner kv.2 = owner)) (tblGroup w))).

Definition addGroup (uuids : string * string) (group : UserGroupDetail) : adb unit :=
  w ← get;
  let data := initGroup (aclock w) group in
  _ ← saveGroup data;
  createDefaultStrategy uuids PrincipalGroup (GID data) (GName data) (GOwner data).

Definition bolt_AddGroup (uuids : string * string) (group : UserGroupDetail) : adb unit :=
  if decide (GID group = "" \/ GName group = "" \/ GToken group = "") then raise EmptyParamsErr
  else atomically (_ ← cleanInValidGroup (GName group) (GOwner group); addGroup uuids group).

Definition updateGroupRelation (modify : ModifyUserGroup) (ids : gset string) : gset string :=
  foldl (fun s id => s ∖ {[id]}) (foldl (fun s id => {[id]} ∪ s) ids (AddUserIds modify)) (RemoveUserIds modify).

(** The row may be that of a deleted group; saving it makes it valid. *)
Definition changeGroup (modify : ModifyUserGroup) (now : Z) (row : UserGroupDetail) : UserGroupDetail :=
  mkGroup (GID row) (GName row) (GOwner row) (mgToken modify) (mgTokenEnable modify) (GValid row) (mgComment modify) (GCreateTime row) now
    (updateGroupRelation modify (UserIds row)).
Definition bolt_UpdateGroup (group : ModifyUserGroup) : adb unit :=
  if decide (mgID group = "") then raise EmptyParamsErr
  else atomically (
    w ← get;
    match tblGroup w !! mgID group with
    | None => raise Unknown
    | Some row => saveGroup (changeGroup group (aclock w) row)
    end).

Definition dropGroup (now : Z) (row : UserGroupDetail) : UserGroupDetail :=
  mkGroup (GID row) (GName row) (GOwner row) (GToken row) (GTokenEnable row) false (GComment row) (GCreateTime row) now (UserIds row).
Definition bolt_DeleteGroup (group : UserGroupDetail) : adb unit :=
  if decide (GID group = "") then raise EmptyParamsErr
  else atomically (
    _ ← modify (fun w => set_tblGroup w (alter (dropGroup (aclock w)) (GID group) (tblGroup w)));
    cleanLinkStrategy PrincipalGroup (GID group)).

Definition valid_group (g : UserGroupDetail) : option UserGroupDetail := if GValid g then Some g else None.

Definition bolt_GetGroup (groupID : string) : adb (option UserGroupDetail) :=
  if decide (groupID = "") then raise EmptyParamsErr else view (fun w => tblGroup w !! groupID ≫= valid_group).

Definition bolt_GetGroupByName (name owner : string) : adb (option UserGroupDetail) :=
  if decide (name = "" \/ owner = "") then raise EmptyParamsErr
  else
    values ← view (fun w => filter (fun kv => GValid kv.2 = true /\ GName kv.2 = name /\ GOwner kv.2 = owner) (tblGroup w));
    only values.

Definition simpleGroup (filters : gmap string string) (g : UserGroupDetail) : bool :=
  GValid g &&
  given filters "id" (fun id => bool_decide (id = GID g)) &&
  given filters "name" (fun name => Contains (GName g) (trimStar name)) &&
  given filters "owner" (fun owner => bool_decide (owner = GOwner g)).
Definition listSimpleGroups (filters : gmap string string) (offset limit : Z) : adb (Z * list UserGroupDetail) :=
  values ← view (fun w => filter (fun kv => simpleGroup filters kv.2 = true) (tblGroup w));
  mret (count values, pageOf GModifyTime values offset limit).

(** The name is not among the fields that were loaded: it is compared as if empty. *)
Definition groupOfUser (filters : gmap string string) (g : UserGroupDetail) : bool :=
  let exist := bool_decide (filter_value filters "user_id" ∈ UserIds g) in
  GValid g &&
  given filters "name" (fun name => Contains "" (trimStar name)) &&
  match filters !! "owner" with Some owner => exist || bool_decide (GOwner g = owner) | None => exist end.
Definition listGroupByUser (filters : gmap string string) (offset limit : Z) : adb (Z * list UserGroupDetail) :=
  values ← view (fun w => filter (fun kv => groupOfUser filters kv.2 = true) (tblGroup w));
  mret (count values, pageOf GModifyTime values offset limit).

Definition bolt_GetGroups (filters : gmap string string) (offset limit : Z) : adb (Z * list UserGroupDetail) :=
  if decide (is_Some (filters !! "user_id")) then listGroupByUser filters offset limit else listSimpleGroups filters offset limit.

Definition bolt_GetGroupsForCache (mtime : Z) : adb (list UserGroupDetail) :=
  ret ← view (fun w => filter (fun kv => mtime < GModifyTime kv.2) (tblGroup w));
  mret (range _ ret).*2.

(** ** Starting ([default.go]) *)

(** The main account and its strategy, which the store starts with. *)
Definition mainUser (now : Z) : User :=
  mkUser "65e4789a6d5b49669adf1e9e8387549c" "polaris" "$2a$10$3izWuZtE5SBdAtSZci.gs.iZ2pAn9I8hEqYrC6gwJp1dyjqQnrrum" "" "Polaris" "" "" 20
    "nu/0WRA4EqSR1FagrjRj0fZwPXuGlMpX+zCuWu4uMqy8xr1vRjisSbA25aAC3mtU8MeeRsKhQiDAynUR09I=" true true "default polaris admin account" now now.
Definition mainDefaultStrategy (now : Z) : StrategyDetail :=
  mkStrategy "fbca9bfa04ae4ead86e1ecf5811e32a9" "(用户) polaris的默认策略" "READ_WRITE" "default admin"
    [mkPrincipal "65e4789a6d5b49669adf1e9e8387549c" PrincipalUser] true "65e4789a6d5b49669adf1e9e8387549c"
    [mkResource Namespaces "*"; mkResource Services "*"; mkResource ConfigGroups "*"] true "fbca9bfa04ae4ead86e1ecf5811e32a9" now now.

(** [started]: when the program was loaded. *)
Definition initAuthStoreData (started : Z) : adb unit :=
  let user := mainUser started in
  let strategy := mainDefaultStrategy started in
  atomically (
    w ← get;
    _ ← (match tblUser w !! UID user ≫= valid_user with Some _ => mret () | None => saveUser user end);
    rule ← loadStrategyById (SID strategy);
    match rule with Some _ => mret () | None => saveStrategy (convertForStrategyStore strategy) end).

End boltdb.

(** ** What a call does

    Either it does what it is for, or it fails and the tables are as they were. *)

Abbreviation tables := (gmap string User * gmap string UserGroupDetail * gmap string strategyForStore)%type.
Definition tabs (w : accounts) : tables := (tblUser w, tblGroup w, tblStrategy w).

Definition does {A} (m : adb A) (w : accounts) (R : A -> tables -> Prop) : Prop :=
  runs (fun _ => False) m w (fun w' r => aclock w' = aclock w /\ match r with Okay a => R a (tabs w') | Fail _ => tabs w' = tabs w end).

Lemma does_weaken {A} (m : adb A) w (R R' : A -> tables -> Prop) : does m w R -> (forall a t, R a t -> R' a t) -> does m w R'.
Proof. intros Hm Hw. eapply runs_weaken; [exact Hm|]. intros w' [a|e] [Hc Hr]; split; auto. Qed.

Lemma does_ret {A} (a : A) w (R : A -> tables -> Prop) : R a (tabs w) -> does (mret a) w R.
Proof. intros HR. by apply runs_ret. Qed.

Lemma does_raise {A} e w (R : A -> tables -> Prop) : does (raise e) w R.
Proof. by apply runs_raise. Qed.

Lemma does_get {A} (k : accounts -> adb A) w (R : A -> tables -> Prop) : does (k w) w R -> does (w ← get; k w) w R.
Proof. intros Hk. apply runs_bind, runs_get. exact Hk. Qed.

(** A step that changes nothing comes first. *)
Lemma does_first {A B} (m : adb A) (k : A -> adb B) w (R : B -> tables -> Prop) (R0 : A -> tables -> Prop) :
  does m w R0 -> (forall a w', R0 a (tabs w') -> tabs w' = tabs w -> aclock w' = aclock w -> does (k a) w' R) ->
  (forall a t, R0 a t -> t = tabs w) -> does (a ← m; k a) w R.
Proof.
  intros Hm Hk Ht. apply runs_bind. eapply runs_weaken; [exact Hm|]. intros w' [a|e] [Hc Hr]; [|done].
  pose proof (Ht _ _ Hr) as Hs. eapply runs_weaken; [exact (Hk a w' Hr Hs Hc)|]. intros w'' r [Hc' Hr'].
  split; [by rewrite Hc'|]. destruct r; [done|]. by rewrite Hr'.
Qed.

Lemma does_atomically {A} (m : adb A) w (R : A -> tables -> Prop) :
  (forall l, runs (fun _ => False) m (set_afaults w l) (fun w' r => aclock w' = aclock w /\ match r with Okay a => R a (tabs w') | Fail _ => True end)) ->
  does (atomically m) w R.
Proof.
  intros Hm. unfold does, runs, atomically. destruct (default false (head (afaults w))); [done|].
  specialize (Hm (tail (afaults w))). unfold runs in Hm. by destruct (m _) as [[w' [a|e]]|].
Qed.

Lemma does_view {A} (f : accounts -> A) w : (forall l, f (set_afaults w l) = f w) -> does (view f) w (fun a t => a = f w /\ t = tabs w).
Proof. intros Hf. apply does_atomically. intros l. apply runs_bind, runs_get, runs_ret. by rewrite Hf. Qed.

(** Steps inside a transaction. *)
Abbreviation inside m w Q := (runs (fun _ => False) m w Q).

Lemma inside_saveUser u w (Q : accounts -> result StatusCode unit -> Prop) :
  (UID u = "" -> Q w (Fail Unknown)) ->
  (UID u <> "" -> Q (set_tblUser w (<[UID u := mkUser (UID u) (UName u) (UPassword u) (UOwner u) (USource u) (UMobile u) (UEmail u)
    (UType u) (UToken u) (UTokenEnable u) true (UComment u) (UCreateTime u) (UModifyTime u)]> (tblUser w))) (Okay ())) ->
  inside (saveUser u) w Q.
Proof. intros H1 H2. unfold saveUser. case_decide; [by apply runs_raise, H1|]. by apply runs_modify, H2. Qed.

Lemma inside_saveStrategy r w (Q : accounts -> result StatusCode unit -> Prop) :
  Q w (Fail Unknown) ->
  (rID r <> "" -> "" ∉ rUsers r ∪ rGroups r ∪ rNsResources r ∪ rSvcResources r ∪ rCfgResources r ->
   Q (set_tblStrategy w (<[rID r := mkRule (rID r) (rName r) (rAction r) (rComment r) (rUsers r) (rGroups r) (rDefault r)
    (rOwner r) (rNsResources r) (rSvcResources r) (rCfgResources r) true (rRevision r) (rCreateTime r) (rModifyTime r)]> (tblStrategy w))) (Okay ())) ->
  inside (saveStrategy r) w Q.
Proof.
  intros H1 H2. unfold saveStrategy. case_decide as Hd; [by apply runs_raise|]. apply Decidable.not_or in Hd as [Hd1 Hd2].
  by apply runs_modify, H2.
Qed.

Lemma inside_saveGroup g w (Q : accounts -> result StatusCode unit -> Prop) :
  Q w (Fail Unknown) ->
  (GID g <> "" -> "" ∉ UserIds g ->
   Q (set_tblGroup w (<[GID g := mkGroup (GID g) (GName g) (GOwner g) (GToken g) (GTokenEnable g) true (GComment g)
    (GCreateTime g) (GModifyTime g) (UserIds g)]> (tblGroup w))) (Okay ())) ->
  inside (saveGroup g) w Q.
Proof.
  intros H1 H2. unfold saveGroup. case_decide as Hd; [by apply runs_raise|]. apply Decidable.not_or in Hd as [Hd1 Hd2].
  by apply runs_modify, H2.
Qed.

(** The rows as they are saved. *)
Definition defaultRule (uuids : string * string) (role : Z) (id name owner : string) : strategyForStore :=
  mkRule uuids.1 (defaultStrategyName role name) "READ_WRITE" "Default Strategy"
    (if decide (role = PrincipalUser) then {[id]} else ∅) (if decide (role = PrincipalUser) then ∅ else {[id]})
    true owner ∅ ∅ ∅ true uuids.2 zeroTimeNanos zeroTimeNanos.
Definition revalidate (r : strategyForStore) : strategyForStore :=
  mkRule (rID r) (rName r) (rAction r) (rComment r) (rUsers r) (rGroups r) (rDefault r)
    (rOwner r) (rNsResources r) (rSvcResources r) (rCfgResources r) true (rRevision r) (rCreateTime r) (rModifyTime r).
Definition revalidateGroup (g : UserGroupDetail) : UserGroupDetail :=
  mkGroup (GID g) (GName g) (GOwner g) (GToken g) (GTokenEnable g) true (GComment g) (GCreateTime g) (GModifyTime g) (UserIds g).

Lemma convert_default uuids role id name owner :
  role = PrincipalUser \/ role = PrincipalGroup ->
  convertForStrategyStore (mkStrategy uuids.1 (defaultStrategyName role name) "READ_WRITE" "Default Strategy"
    [mkPrincipal id role] true owner [] true uuids.2 zeroTimeNanos zeroTimeNanos) = defaultRule uuids role id name owner.
Proof.
  intros Hr. unfold convertForStrategyStore, defaultRule, principalsOf, resourcesOf. cbn.
  destruct Hr as [-> | ->]; cbn; f_equal; vm_compute decide; cbn; set_solver.
Qed.

(** What a change of principals or resources keeps. *)
Lemma computePrincipals_keeps remove ps r :
  let r' := computePrincipals remove ps r in
  rID r' = rID r /\ rName r' = rName r /\ rDefault r' = rDefault r /\ rOwner r' = rOwner r /\ rValid r' = rValid r.
Proof.
  cbn. revert r. induction ps as [|p ps IH]; intros r; [done|]. unfold computePrincipals in *. cbn [foldl].
  destruct (IH (if decide (PrincipalRole p = PrincipalUser) then set_principals r (change remove (PrincipalID p) (rUsers r)) (rGroups r)
    else set_principals r (rUsers r) (change remove (PrincipalID p) (rGroups r)))) as (-> & -> & -> & -> & ->). by case_decide.
Qed.
Lemma computeResources_keeps remove l r :
  let r' := computeResources remove l r in
  rID r' = rID r /\ rName r' = rName r /\ rDefault r' = rDefault r /\ rOwner r' = rOwner r /\ rValid r' = rValid r /\
  rUsers r' = rUsers r /\ rGroups r' = rGroups r.
Proof.
  cbn. revert r. induction l as [|p l IH]; intros r; [done|]. unfold computeResources in *. cbn [foldl].
  match goal with |- context [foldl ?f ?a l] => destruct (IH a) as (-> & -> & -> & -> & -> & -> & ->) end. by repeat case_decide.
Qed.
Lemma updateStrategy_keeps uuid now m r :
  let r' := updateStrategy uuid now m r in
  rID r' = rID r /\ rName r' = rName r /\ rDefault r' = rDefault r /\ rOwner r' = rOwner r /\
  (AddPrincipals m = [] -> RemovePrincipals m = [] -> rUsers r' = rUsers r /\ rGroups r' = rGroups r).
Proof.
  cbn -[computePrincipals computeResources]. unfold updateStrategy. cbn [touch rID rName rDefault rOwner rUsers rGroups].
  repeat match goal with |- context [computeResources ?b ?l ?x] =>
    destruct (computeResources_keeps b l x) as (-> & -> & -> & -> & _ & -> & ->) end.
  split_and!.
  5: { intros -> ->. done. }
  all: repeat match goal with |- context [computePrincipals ?b ?l ?x] =>
    destruct (computePrincipals_keeps b l x) as (? & ? & ? & ? & ?); etrans; [eassumption|] end; done.
Qed.
Lemma updateStrategy_id uuid now m r : rID (updateStrategy uuid now m r) = rID r.
Proof. apply updateStrategy_keeps. Qed.

Section specs.
  Context (range : forall A, gmap string A -> list (string * A)).
  Context (range_ok : forall A (m : gmap string A), range A m ≡ₚ map_to_list m).

(** What [only] finds. *)
Lemma does_only {A} (values : gmap string A) w :
  does (only range values) w (fun v t => t = tabs w /\ match v with None => values = ∅ | Some v => exists k, values = {[k := v]} end).
Proof.
  unfold only. pose proof (range_ok A values) as Hp. destruct (range A values) as [|[k v] [|kv l]]; cbn.
  - apply does_ret. split; [done|]. apply Permutation_nil in Hp. by apply map_to_list_empty_iff.
  - apply does_ret. split; [done|]. exists k. apply map_to_list_inj. rewrite map_to_list_singleton, <- Hp. done.
  - destruct kv. apply does_raise.
Qed.

Lemma does_AddUser uuids user w :
  does (bolt_AddUser uuids user) w (fun _ t =>
    UID user <> "" /\ UName user <> "" /\ UOwner user <> "" /\ UToken user <> "" /\
    t = (<[UID user := initUser (aclock w) user]> (tblUser w), tblGroup w,
         <[uuids.1 := defaultRule uuids PrincipalUser (UID user) (UName user) (UOwner user)]> (tblStrategy w))).
Proof.
  unfold bolt_AddUser. apply does_get. cbn [initUser UID UName USource UOwner UToken]. case_decide as Hg; [apply does_raise|].
  unfold addUser. cbn [initUser UOwner UID UName]. apply does_atomically. intros l. apply runs_bind, inside_saveUser; [done|]. intros Hid.
  unfold createDefaultStrategy. rewrite convert_default by by left. apply inside_saveStrategy; [done|]. intros _ _. cbn.
  split; [done|]. rewrite (decide_False (P := UOwner user = "")) by tauto. unfold initUser. cbn. split_and!; try done; tauto.
Qed.

Lemma does_UpdateUser user w :
  does (bolt_UpdateUser user) w (fun _ t =>
    UID user <> "" /\ UToken user <> "" /\ t = (alter (changeUser user (aclock w)) (UID user) (tblUser w), tblGroup w, tblStrategy w)).
Proof.
  unfold bolt_UpdateUser. case_decide as Hg; [apply does_raise|]. apply does_atomically. intros l. apply runs_modify. cbn.
  split; [done|]. split_and!; [tauto..|done].
Qed.

(** The only strategy that is linked to the account alone, if there is one, is
    not valid any more. *)
Definition cleaned (now : Z) (role : Z) (id : string) (ss ss' : gmap string strategyForStore) : Prop :=
  (filter (fun kv => linkedOnly role id kv.2 = true) ss = ∅ /\ ss' = ss) \/
  (exists k r, filter (fun kv => linkedOnly role id kv.2 = true) ss = {[k := r]} /\ ss' = alter (invalidate now) k ss).

Lemma inside_clean role id w (Q : accounts -> result StatusCode unit -> Prop) :
  Q w (Fail Unknown) -> (forall ss', cleaned (aclock w) role id (tblStrategy w) ss' -> Q (set_tblStrategy w ss') (Okay ())) ->
  inside (cleanLinkStrategy range role id) w Q.
Proof.
  intros HF HO. unfold cleanLinkStrategy. apply runs_bind, runs_get. set (m := filter _ (tblStrategy w)).
  pose proof (range_ok _ m) as Hp. destruct (range _ m) as [|[k r] [|kv l]]; cbn.
  - apply runs_ret. assert (m = ∅) as Hm by (apply Permutation_nil in Hp; by apply map_to_list_empty_iff).
    specialize (HO (tblStrategy w)). destruct w. apply HO. by left.
  - assert (m = {[k := r]}) as Hm by (apply map_to_list_inj; by rewrite map_to_list_singleton, <- Hp).
    apply runs_modify, HO. right. by exists k, r.
  - by apply runs_raise.
Qed.

Lemma does_DeleteUser user w :
  does (bolt_DeleteUser range user) w (fun _ t =>
    UID user <> "" /\ exists ss', cleaned (aclock w) PrincipalUser (UID user) (tblStrategy w) ss' /\
      t = (alter (dropUser (aclock w)) (UID user) (tblUser w), tblGroup w, ss')).
Proof.
  unfold bolt_DeleteUser. case_decide as Hg; [apply does_raise|]. apply does_atomically. intros l. apply runs_bind, runs_modify.
  apply inside_clean; [done|]. intros ss' Hc. split; [done|]. split; [done|]. by exists ss'.
Qed.

Lemma does_GetUser id w :
  does (bolt_GetUser id) w (fun u t => t = tabs w /\ id <> "" /\ u = tblUser w !! id ≫= valid_user).
Proof.
  unfold bolt_GetUser. case_decide; [apply does_raise|]. eapply does_weaken; [by apply does_view|]. cbn. by intros u t [-> ->].
Qed.

Lemma does_GetSubCount user w :
  does (bolt_GetSubCount user) w (fun n t => t = tabs w /\
    n = count (filter (fun kv => UValid kv.2 = true /\ UOwner kv.2 = UID user) (tblUser w))).
Proof.
  unfold bolt_GetSubCount. eapply does_first; [by apply does_view| |by intros ? ? [_ ->]].
  cbn. intros a w' [-> _] Ht _. apply does_ret. by rewrite Ht.
Qed.

(** [None]: there is no row at all with the name, or there is one, of a deleted user. *)
Lemma does_GetUserByName name owner w :
  does (bolt_GetUserByName range name owner) w (fun u t => t = tabs w /\
    match u with
    | Some u => UValid u = true /\ exists k, tblUser w !! k = Some u /\ UName u = name /\ UOwner u = owner
    | None => forall k v, tblUser w !! k = Some v -> UName v = name -> UOwner v = owner -> UValid v = false
    end).
Proof.
  unfold bolt_GetUserByName. case_decide; [apply does_raise|].
  eapply does_first; [by apply does_view| |by intros ? ? [_ ->]]. cbn. intros m w1 [-> _] Ht1 Hc1.
  eapply does_first; [apply does_only| |by intros ? ? [-> _]]. cbn. intros v w2 [_ Hv] Ht2 Hc2. apply does_ret. split; [congruence|].
  destruct v as [v|]; cbn.
  - destruct Hv as [k Hv]. unfold valid_user. destruct (UValid v) eqn:Hval.
    + split; [done|]. exists k. assert (filter (fun kv => UName kv.2 = name /\ UOwner kv.2 = owner) (tblUser w) !! k = Some v) as Hk
        by (rewrite Hv; apply lookup_singleton_eq). apply map_lookup_filter_Some in Hk. cbn in Hk. tauto.
    + intros k' v' Hk' Hn Ho. assert (filter (fun kv => UName kv.2 = name /\ UOwner kv.2 = owner) (tblUser w) !! k' = Some v') as Hk
        by (by apply map_lookup_filter_Some). rewrite Hv in Hk. apply lookup_singleton_Some in Hk as [_ <-]. done.
  - intros k' v' Hk' Hn Ho. assert (filter (fun kv => UName kv.2 = name /\ UOwner kv.2 = owner) (tblUser w) !! k' = Some v') as Hk
      by (by apply map_lookup_filter_Some). by rewrite Hv, lookup_empty in Hk.
Qed.

(** Groups. *)

Definition without_invalid (name owner : string) (gs : gmap string UserGroupDetail) : gmap string UserGroupDetail :=
  filter (fun kv => ~ (GValid kv.2 = false /\ GName kv.2 = name /\ GOwner kv.2 = owner)) gs.

Lemma does_AddGroup uuids group w :
  does (bolt_AddGroup uuids group) w (fun _ t =>
    GID group <> "" /\ GName group <> "" /\
    t = (tblUser w, <[GID group := initGroup (aclock w) group]> (without_invalid (GName group) (GOwner group) (tblGroup w)),
         <[uuids.1 := defaultRule uuids PrincipalGroup (GID group) (GName group) (GOwner group)]> (tblStrategy w))).
Proof.
  unfold bolt_AddGroup. case_decide as Hg; [apply does_raise|]. apply does_atomically. intros l. apply runs_bind, runs_modify.
  unfold addGroup. apply runs_bind, runs_get, runs_bind, inside_saveGroup; [done|]. intros _ _.
  unfold createDefaultStrategy. rewrite convert_default by by right. apply inside_saveStrategy; [done|]. intros _ _. cbn.
  split; [done|]. split_and!; [tauto..|done].
Qed.

Lemma does_UpdateGroup modify w :
  does (bolt_UpdateGroup modify) w (fun _ t => exists row, mgID modify <> "" /\ tblGroup w !! mgID modify = Some row /\
    t = (tblUser w, <[GID row := revalidateGroup (changeGroup modify (aclock w) row)]> (tblGroup w), tblStrategy w)).
Proof.
  unfold bolt_UpdateGroup. case_decide as Hg; [apply does_raise|]. apply does_atomically. intros l. apply runs_bind, runs_get. cbn.
  destruct (tblGroup w !! mgID modify) as [row|] eqn:Hr; [|by apply runs_raise]. apply inside_saveGroup; [done|]. intros _ _. cbn.
  split; [done|]. by exists row.
Qed.

Lemma does_DeleteGroup group w :
  does (bolt_DeleteGroup range group) w (fun _ t =>
    GID group <> "" /\ exists ss', cleaned (aclock w) PrincipalGroup (GID group) (tblStrategy w) ss' /\
      t = (tblUser w, alter (dropGroup (aclock w)) (GID group) (tblGroup w), ss')).
Proof.
  unfold bolt_DeleteGroup. case_decide as Hg; [apply does_raise|]. apply does_atomically. intros l. apply runs_bind, runs_modify.
  apply inside_clean; [done|]. intros ss' Hc. split; [done|]. split; [done|]. by exists ss'.
Qed.

Lemma does_GetGroup id w : does (bolt_GetGroup id) w (fun g t => t = tabs w /\ id <> "" /\ g = tblGroup w !! id ≫= valid_group).
Proof.
  unfold bolt_GetGroup. case_decide; [apply does_raise|]. eapply does_weaken; [by apply does_view|]. cbn. by intros g t [-> ->].
Qed.

Lemma does_GetGroupByName name owner w : does (bolt_GetGroupByName range name owner) w (fun _ t => t = tabs w /\ owner <> "").
Proof.
  unfold bolt_GetGroupByName. case_decide as Hd; [apply does_raise|].
  eapply does_first; [by apply does_view| |by intros ? ? [_ ->]]. cbn. intros m w1 [-> _] Ht1 Hc1.
  eapply does_weaken; [apply does_only|]. cbn. intros v t [-> _]. split; [congruence|tauto].
Qed.

(** Strategies. *)

Definition without_invalid_rules (name owner : string) (ss : gmap string strategyForStore) : gmap string strategyForStore :=
  filter (fun kv => ~ (rValid kv.2 = false /\ rName kv.2 = name /\ rOwner kv.2 = owner)) ss.

Lemma does_AddStrategy s w :
  does (bolt_AddStrategy s) w (fun _ t =>
    SID s <> "" /\ SOwner s <> "" /\
    t = (tblUser w, tblGroup w,
         <[SID s := convertForStrategyStore (initStrategy (aclock w) s)]> (without_invalid_rules (SName s) (SOwner s) (tblStrategy w)))).
Proof.
  unfold bolt_AddStrategy. case_decide as Hg; [apply does_raise|]. apply does_get, does_atomically. intros l.
  apply runs_bind, runs_modify, inside_saveStrategy; [done|]. intros _ _. cbn. split; [done|]. split_and!; [tauto..|done].
Qed.

Definition valid_rule (r : strategyForStore) : option strategyForStore := if rValid r then Some r else None.

Lemma load_valid id w : (match tblStrategy w !! id with Some r => if rValid r then Some r else None | None => None end) = tblStrategy w !! id ≫= valid_rule.
Proof. by destruct (tblStrategy w !! id). Qed.

Lemma does_UpdateStrategy uuid modify w :
  does (bolt_UpdateStrategy uuid modify) w (fun _ t => exists r, tblStrategy w !! msID modify = Some r /\ rValid r = true /\
    t = (tblUser w, tblGroup w, <[rID r := revalidate (updateStrategy uuid (aclock w) modify r)]> (tblStrategy w))).
Proof.
  unfold bolt_UpdateStrategy. case_decide as Hg; [apply does_raise|]. apply does_atomically. intros l.
  apply runs_bind. unfold loadStrategyById. apply runs_bind, runs_get, runs_ret. rewrite load_valid. cbn.
  destruct (tblStrategy w !! msID modify) as [r|] eqn:Hr; [|by apply runs_raise]. unfold valid_rule. cbn. destruct (rValid r) eqn:Hv; [|by apply runs_raise].
  apply runs_bind, runs_get. apply inside_saveStrategy; [done|]. intros _ _. cbn [aclock set_afaults set_tblStrategy].
  split; [done|]. exists r. split_and!; [done..|]. unfold tabs, revalidate. cbn [tblUser tblGroup tblStrategy set_tblStrategy set_afaults]. f_equal. f_equal.
  apply updateStrategy_id.
Qed.

Lemma does_DeleteStrategy id w :
  does (bolt_DeleteStrategy id) w (fun _ t => t = (tblUser w, tblGroup w, alter (invalidate (aclock w)) id (tblStrategy w))).
Proof.
  unfold bolt_DeleteStrategy. case_decide as Hg; [apply does_raise|]. apply does_atomically. intros l. by apply runs_modify.
Qed.

Lemma does_GetStrategyDetail id w :
  does (bolt_GetStrategyDetail id) w (fun s t => t = tabs w /\ s = convertForStrategyDetail <$> (tblStrategy w !! id ≫= valid_rule)).
Proof.
  unfold bolt_GetStrategyDetail. apply does_atomically. intros l. apply runs_bind. unfold loadStrategyById.
  apply runs_bind, runs_get, runs_ret, runs_ret. by rewrite load_valid.
Qed.

Definition linkRule (now : Z) (remove : bool) (ress : list StrategyResource) (r : strategyForStore) : strategyForStore :=
  revalidate (touch now (computeResources remove ress r)).
Lemma linkRule_keeps now remove ress r :
  let r' := linkRule now remove ress r in
  rID r' = rID r /\ rName r' = rName r /\ rDefault r' = rDefault r /\ rOwner r' = rOwner r /\ rValid r' = true /\
  rUsers r' = rUsers r /\ rGroups r' = rGroups r.
Proof. destruct (computeResources_keeps remove ress r) as (? & ? & ? & ? & ? & ? & ?). by split_and!. Qed.

(** The strategies [m] lists are valid, and their resources change; the others stay. *)
Definition relinked (now : Z) (remove : bool) (m : gmap string (list StrategyResource)) (ss ss' : gmap string strategyForStore) : Prop :=
  forall k, match m !! k with
            | None => ss' !! k = ss !! k
            | Some ress => exists r, ss !! k = Some r /\ rValid r = true /\ ss' !! k = Some (linkRule now remove ress r)
            end.

Lemma inside_operate now remove l w :
  NoDup l.*1 -> map_Forall (fun k r => rID r = k) (tblStrategy w) -> aclock w = now ->
  inside (each (fun '(id, ress) =>
    rule ← loadStrategyById id;
    match rule with
    | None => raise Unknown
    | Some rule => w ← get; saveStrategy (touch (aclock w) (computeResources remove ress rule))
    end) l) w
    (fun w' r => aclock w' = now /\ match r with
      | Okay _ => tblUser w' = tblUser w /\ tblGroup w' = tblGroup w /\ relinked now remove (list_to_map l) (tblStrategy w) (tblStrategy w')
      | Fail _ => True end).
Proof.
  revert w. induction l as [|[id ress] l IH]; intros w Hnd Hk Hc; cbn [each].
  - apply runs_ret. by split_and!.
  - apply NoDup_cons in Hnd as [Hid Hnd]. apply runs_bind, runs_bind. unfold loadStrategyById. apply runs_bind, runs_get, runs_ret. rewrite load_valid.
    destruct (tblStrategy w !! id) as [r|] eqn:Hr; cbn; [|by apply runs_raise]. unfold valid_rule. destruct (rValid r) eqn:Hv; [|by apply runs_raise].
    pose proof (Hk _ _ Hr) as Hrid. cbn beta in Hrid. apply runs_bind, runs_get. apply inside_saveStrategy; [done|]. intros _ _.
    destruct (computeResources_keeps remove ress r) as (Hi & _). cbn [rID touch]. rewrite Hi, Hrid.
    set (w1 := set_tblStrategy w _). assert (tblStrategy w1 = <[id := linkRule now remove ress r]> (tblStrategy w)) as Hw1.
    { unfold w1. cbn. unfold linkRule, revalidate, touch. cbn. by rewrite Hi, Hrid, Hc. }
    eapply runs_weaken; [apply (IH w1); [done| |done]|].
    + rewrite Hw1. apply map_Forall_insert_2; [|done]. by rewrite (proj1 (linkRule_keeps now remove ress r)).
    + intros w' [u|e] [Hc' Hr']; [|done]. split; [done|]. destruct Hr' as (H1 & H2 & H3). split_and!; [done..|]. intros k. cbn [list_to_map foldr].
      specialize (H3 k). rewrite Hw1 in H3. destruct (decide (k = id)) as [->|Hne].
      * cbn. rewrite lookup_insert_eq. rewrite (proj1 (not_elem_of_list_to_map l id) Hid) in H3. rewrite lookup_insert_eq in H3. by exists r.
      * cbn. rewrite lookup_insert_ne by done. rewrite lookup_insert_ne in H3 by done. exact H3.
Qed.

Lemma does_operate remove links w :
  map_Forall (fun k r => rID r = k) (tblStrategy w) ->
  does (operateStrategyResources range remove links) w (fun _ t =>
    exists ss', t = (tblUser w, tblGroup w, ss') /\ relinked (aclock w) remove (buildResMap links) (tblStrategy w) ss').
Proof.
  intros Hk. unfold operateStrategyResources. apply does_atomically. intros l.
  assert ((list_to_map (range _ (buildResMap links)) : gmap string (list StrategyResource)) = buildResMap links) as Hm.
  { transitivity (list_to_map (map_to_list (buildResMap links)) : gmap string (list StrategyResource)); [|apply list_to_map_to_list].
    apply list_to_map_proper; [|apply range_ok]. rewrite range_ok. apply NoDup_fst_map_to_list. }
  eapply runs_weaken; [apply (inside_operate (aclock w)); [|done|done]|].
  - rewrite range_ok. apply NoDup_fst_map_to_list.
  - intros w' [u|e] [Hc Hr]; [|done]. split; [done|]. destruct Hr as (H1 & H2 & H3). exists (tblStrategy w'). split.
    + unfold tabs. by rewrite H1, H2.
    + by rewrite <- Hm.
Qed.

(** The first start. *)
Lemma does_initAuthStoreData started w :
  tblUser w = ∅ -> tblStrategy w = ∅ ->
  does (initAuthStoreData started) w (fun _ t =>
    t = ({[UID (mainUser started) := mainUser started]}, tblGroup w,
         {[SID (mainDefaultStrategy started) := convertForStrategyStore (mainDefaultStrategy started)]})).
Proof.
  intros Hu Hs. unfold initAuthStoreData. cbv zeta. apply does_atomically. intros l. apply runs_bind, runs_get.
  cbn [tblUser set_afaults]. rewrite Hu, lookup_empty. cbn [mbind option_bind]. apply runs_bind, inside_saveUser; [done|]. intros _.
  apply runs_bind. unfold loadStrategyById. apply runs_bind, runs_get, runs_ret. rewrite load_valid.
  cbn [tblStrategy set_tblUser set_afaults]. rewrite Hs, lookup_empty. cbn [mbind option_bind].
  apply inside_saveStrategy; [done|]. intros _ _. split; [done|]. unfold tabs.
  cbn [tblUser tblGroup tblStrategy set_tblUser set_tblStrategy set_afaults]. rewrite Hu, Hs. done.
Qed.

End specs.
