(* ===== verification/AccountApi.v ===== *)
(** * What the account handlers share ([src/auth/defaultauth/utils.go], [src/common/api/v1/auth_response.go])

    The requests and answers of the account API, the checks of their fields -
    with the two regular expressions as they are written - the state of the
    server, and the steps that every handler is made of. *)

From S2P Require Import Prelude Effects GoStrings Utils BaseCache UserCache StrategyCache Token AuthCheck InstanceStore AccountStore.
From Stdlib Require Import ZArith Lia Ascii.
From stdpp Require Import base tactics list gmap strings.

Open Scope Z_scope.

(** ** Regular expressions, on runes *)

(** An invalid byte is the rune U+FFFD. *)
Definition byte_at (i : nat) (s : string) : N := N_of_ascii (default Ascii.zero (String.get i s)).
Definition low_bits (i : nat) (s : string) : N := (byte_at i s mod 64)%N.
Definition rune (s : string) : N :=
  match rune_width s with
  | 2%nat => (byte_at 0 s mod 32) * 64 + low_bits 1 s
  | 3%nat => ((byte_at 0 s mod 16) * 64 + low_bits 1 s) * 64 + low_bits 2 s
  | 4%nat => (((byte_at 0 s mod 8) * 64 + low_bits 1 s) * 64 + low_bits 2 s) * 64 + low_bits 3 s
  | _ => if (byte_at 0 s <? 128)%N then byte_at 0 s else 65533
  end%N.
Fixpoint runes_skip (skip : nat) (s : string) : list N :=
  match s with
  | EmptyString => []
  | String _ s' => match skip with S k => runes_skip k s' | O => rune s :: runes_skip (rune_width s - 1) s' end
  end.
Definition runes (s : string) : list N := runes_skip 0 s.

Inductive regexp :=
| Void
| Eps
| Class (p : N -> bool)
| Cat (r s : regexp)
| Alt (r s : regexp)
| Star (r : regexp).
Definition Plus (r : regexp) : regexp := Cat r (Star r).

Fixpoint nullable (r : regexp) : bool :=
  match r with
  | Void | Class _ => false
  | Eps | Star _ => true
  | Cat r s => nullable r && nullable s
  | Alt r s => nullable r || nullable s
  end.
Definition cat (r s : regexp) : regexp := match r with Void => Void | Eps => s | _ => Cat r s end.
Definition alt (r s : regexp) : regexp := match r, s with Void, _ => s | _, Void => r | _, _ => Alt r s end.
Fixpoint derive (c : N) (r : regexp) : regexp :=
  match r with
  | Void | Eps => Void
  | Class p => if p c then Eps else Void
  | Cat r s => alt (cat (derive c r) s) (if nullable r then derive c s else Void)
  | Alt r s => alt (derive c r) (derive c s)
  | Star r => cat (derive c r) (Star r)
  end.
(** Of the whole text: both expressions are anchored. *)
Fixpoint matches_runes (r : regexp) (l : list N) : bool :=
  match l with [] => nullable r | c :: l => matches_runes (derive c r) l end.
Definition MatchString (r : regexp) (s : string) : bool := matches_runes r (runes s).

Definition one_of (s : string) (c : N) : bool := bool_decide (c ∈ runes s).
Definition range_of (lo hi c : N) : bool := ((lo <=? c) && (c <=? hi))%N.
Definition word (c : N) : bool := range_of 48 57 c || range_of 65 90 c || range_of 97 122 c || bool_decide (c = 95%N).

(** [^[\u4E00-\u9FA5A-Za-z0-9_\-]+$] *)
Definition regNameStr : regexp := Plus (Class (fun c => range_of 0x4E00 0x9FA5 c || word c || bool_decide (c = 45%N))).
(** [^\w+([-+.]\w+)*@\w+([-.]\w+)*\.\w+([-.]\w+)*$] *)
Definition regEmail : regexp :=
  let w := Plus (Class word) in
  let more := Star (Cat (Class (one_of "-.")) w) in
  Cat w (Cat (Star (Cat (Class (one_of "-+.")) w)) (Cat (Class (one_of "@"))
    (Cat w (Cat more (Cat (Class (one_of ".")) (Cat w more)))))).

(** ** Checks of fields; [true] is no error *)

Definition MaxNameLength : Z := 64.
Definition MaxOwnersLength : Z := 1024.

Definition checkName (name : option string) : bool :=
  match name with
  | None => false
  | Some n =>
      negb (bool_decide (n = "")) && negb (bool_decide (n = "polariadmin")) &&
      bool_decide (RuneCountInString n <= MaxNameLength) && MatchString regNameStr n
  end.
Definition checkPassword (password : option string) : bool :=
  match password with None => false | Some p => negb (bool_decide (p = "")) && bool_decide (6 <= slen p <= 17) end.
Definition checkOwner (owner : option string) : bool :=
  match owner with None => false | Some o => negb (bool_decide (o = "")) && bool_decide (RuneCountInString o <= MaxOwnersLength) end.
Definition checkMobile (mobile : option string) : bool :=
  match mobile with None => true | Some m => bool_decide (m = "") || bool_decide (RuneCountInString m = 11) end.
Definition checkEmail (email : option string) : bool :=
  match email with None => true | Some e => bool_decide (e = "") || MatchString regEmail e end.

(** ** Requests *)

(** [apisecurity.User]; the last three are only answered. *)
Record ApiUser := mkApiUser {
  auId : option string;
  auName : option string;
  auPassword : option string;
  auOwner : option string;
  auSource : option string;
  auAuthToken : option string;
  auTokenEnable : option bool;
  auComment : option string;
  auMobile : option string;
  auEmail : option string;
  auCtime : option string;
  auMtime : option string;
  auUserType : option string }.

Record ModifyUserPassword := mkModifyPassword { mpId : option string; mpOldPassword : option string; mpNewPassword : option string }.
Record LoginRequest := mkLogin { lrName : option string; lrOwner : option string; lrPassword : option string }.
Record LoginResponse := mkLoginResponse { liUserId : string; liOwnerId : string; liToken : string; liName : string; liRole : string }.

(** [apisecurity.UserGroup]; a member that is listed has an id, or none.
    [agUserCount] is only answered. *)
Record ApiGroup := mkApiGroup {
  agId : option string;
  agName : option string;
  agOwner : option string;
  agAuthToken : option string;
  agTokenEnable : option bool;
  agComment : option string;
  agUsers : option (list ApiUser);
  agCtime : option string;
  agMtime : option string;
  agUserCount : option Z }.
(** [AddRelations] and [RemoveRelations] are the users they list. *)
Record ApiModifyGroup := mkApiModifyGroup {
  amgId : option string;
  amgComment : option string;
  amgAdd : list ApiUser;
  amgRemove : list ApiUser }.

Record ResourceEntry := mkResourceEntry { reId : option string; reNamespace : option string; reName : option string }.
Record StrategyResources := mkResources { srNamespaces : list ResourceEntry; srServices : list ResourceEntry; srConfigGroups : list ResourceEntry }.
Record ApiPrincipal := mkApiPrincipal { apId : option string; apName : option string }.
Record ApiPrincipals := mkApiPrincipals { apUsers : list ApiPrincipal; apGroups : list ApiPrincipal }.
Record ApiStrategy := mkApiStrategy {
  asId : option string;
  asName : option string;
  asOwner : option string;
  asComment : option string;
  asPrincipals : option ApiPrincipals;
  asResources : option StrategyResources;
  asAction : string;
  asDefault : option bool;
  asCtime : option string;
  asMtime : option string }.
Record ApiModifyStrategy := mkApiModifyStrategy {
  amsId : option string;
  amsName : option string;
  amsComment : option string;
  amsAddPrincipals : option ApiPrincipals;
  amsRemovePrincipals : option ApiPrincipals;
  amsAddResources : option StrategyResources;
  amsRemoveResources : option StrategyResources }.

(** ** Answers *)

(** What an answer is about. *)
Inductive subject :=
| NoSubject
| AboutUser (user : option ApiUser)
| AboutLogin (login : LoginResponse)
| AboutGroup (group : option ApiGroup)
| AboutRelation
| AboutModifyGroup (group : option ApiModifyGroup)
| AboutStrategy (strategy : option ApiStrategy)
| AboutModifyStrategy (strategy : option ApiModifyStrategy)
| AboutResources (resources : StrategyResources).
Record AuthResponse := mkAuthResponse { arCode : Code; arSubject : subject }.
Definition NewAuthResponse (code : Code) : AuthResponse := mkAuthResponse code NoSubject.
Definition NewUserResponse (code : Code) (user : option ApiUser) : AuthResponse := mkAuthResponse code (AboutUser user).
Definition NewGroupResponse (code : Code) (group : option ApiGroup) : AuthResponse := mkAuthResponse code (AboutGroup group).
Definition NewModifyGroupResponse (code : Code) (group : option ApiModifyGroup) : AuthResponse := mkAuthResponse code (AboutModifyGroup group).
Definition NewAuthStrategyResponse (code : Code) (strategy : option ApiStrategy) : AuthResponse := mkAuthResponse code (AboutStrategy strategy).
Definition NewModifyAuthStrategyResponse (code : Code) (strategy : option ApiModifyStrategy) : AuthResponse :=
  mkAuthResponse code (AboutModifyStrategy strategy).
Definition answered (r : result AuthResponse AuthResponse) : AuthResponse := match r with Okay r => r | Fail r => r end.

(** [apiservice.BatchQueryResponse]. *)
Record AuthBatchQuery A := mkQuery { qCode : Code; qAmount : Z; qSize : Z; qRows : list A }.
Arguments mkQuery {A}. Arguments qCode {A}. Arguments qAmount {A}. Arguments qSize {A}. Arguments qRows {A}.
Definition NewAuthBatchQueryResponse {A} (code : Code) : AuthBatchQuery A := mkQuery code 0 0 [].

(** ** The server ([server.go]) *)

Inductive AuthOperation := OCreate | OUpdate | ODelete | OUpdateToken | OUpdateGroup.
Inductive AuthResource := RUser | RUserGroup | RAuthStrategy.
Record AuthRecord := mkRecord { recResource : AuthResource; recName : string; recOperation : AuthOperation }.

Record auth_server := mkAuthServer { storage : accounts; history : list AuthRecord }.
Definition set_storage (s : auth_server) w := mkAuthServer w (history s).

Abbreviation auth_handler := (call auth_server AuthResponse).

Definition on_accounts {E A} (m : call accounts E A) : call auth_server E A := fun s =>
  match m (storage s) with
  | Ret (w, r) => Ret (set_storage s w, r)
  | Panics why => Panics why
  end.
(** [if err != nil { return response }] after a call of the store. *)
Definition stored_or {A} (m : adb A) (response : StatusCode -> AuthResponse) : auth_handler A := orelse (on_accounts m) response.

(** [recording]: there is a history plugin. *)
Definition RecordHistory {E} (recording : bool) (entry : AuthRecord) : call auth_server E unit :=
  if recording then modify (fun s => mkAuthServer (storage s) (history s ++ [entry])) else mret ().

Definition refuse {A} (code : Code) : auth_handler A := raise (NewAuthResponse code).

(** [for i := range reqs { api.Collect(batch, handle(reqs[i])) }]: the answers, in order. *)
Fixpoint in_turn {A} (handle : nat -> A -> auth_handler AuthResponse) (i : nat) (reqs : list A) : auth_handler (list AuthResponse) :=
  match reqs with
  | [] => mret []
  | req :: reqs => r ← attempt (handle i req); rest ← in_turn handle (S i) reqs; mret (answered r :: rest)
  end.

(** ** The caller *)

Definition ParseUserRole (c : RequestContext) : Z := default AdminUserRole (ContextUserRoleID c).
Definition ParseOwnerID (c : RequestContext) : string := default "" (ContextOwnerID c).
Definition ParseIsOwner (c : RequestContext) : bool := default false (ContextIsOwner c).

(** The [...authAbility] types: [verifyAuth], then the handler with the context
    that it leaves. *)
Definition verified {A} (AuthOption : AuthConfig) (uc : userCache) (isWrite needOwner : bool) (deny : Code -> auth_handler A)
    (handle : RequestContext -> auth_handler A) (ctx : RequestContext) : auth_handler A := fun s =>
  match verifyAuth AuthOption uc ctx isWrite needOwner with
  | Panics why => Panics why
  | Ret (Fail code) => deny code s
  | Ret (Okay ctx) => handle ctx s
  end.

(** ** How the steps end *)

Section rules.
  Context (P : panic -> Prop).

Lemma runs_stored {A} (m : adb A) f s (R : A -> tables -> Prop) (Q : auth_server -> result AuthResponse A -> Prop) :
  does m (storage s) R ->
  (forall a w', aclock w' = aclock (storage s) -> R a (tabs w') -> Q (set_storage s w') (Okay a)) ->
  (forall e w', aclock w' = aclock (storage s) -> tabs w' = tabs (storage s) -> Q (set_storage s w') (Fail (f e))) ->
  runs P (stored_or m f) s Q.
Proof.
  intros Hm HO HF. unfold does, runs in *. unfold stored_or, orelse, on_accounts. destruct (m (storage s)) as [[w' [a|e]]|why]; [..|done].
  - destruct Hm as [Hc Hr]. by apply HO.
  - destruct Hm as [Hc Hr]. by apply HF.
Qed.

Lemma runs_recorded {E} recording entry s (Q : auth_server -> result E unit -> Prop) :
  (forall h, Q (mkAuthServer (storage s) h) (Okay ())) -> runs P (RecordHistory recording entry) s Q.
Proof. intros HQ. unfold RecordHistory. destruct recording; [apply runs_modify, HQ|]. apply runs_ret. destruct s. apply HQ. Qed.

End rules.

(** ** The expressions mean their languages *)

Inductive speaks : regexp -> list N -> Prop :=
| speaks_eps : speaks Eps []
| speaks_class p c : p c = true -> speaks (Class p) [c]
| speaks_cat r s l k : speaks r l -> speaks s k -> speaks (Cat r s) (l ++ k)
| speaks_left r s l : speaks r l -> speaks (Alt r s) l
| speaks_right r s l : speaks s l -> speaks (Alt r s) l
| speaks_nil r : speaks (Star r) []
| speaks_cons r c l k : speaks r (c :: l) -> speaks (Star r) k -> speaks (Star r) (c :: l ++ k).

Lemma speaks_Cat r s l : speaks (Cat r s) l <-> exists l1 l2, l = l1 ++ l2 /\ speaks r l1 /\ speaks s l2.
Proof. split; [inversion 1; subst; eauto|]. intros (l1 & l2 & -> & ? & ?). by constructor. Qed.
Lemma speaks_Alt r s l : speaks (Alt r s) l <-> speaks r l \/ speaks s l.
Proof. split; [inversion 1; subst; auto|]. by intros [?|?]; [apply speaks_left|apply speaks_right]. Qed.
Lemma speaks_Void l : ~ speaks Void l.
Proof. by inversion 1. Qed.
Lemma speaks_Eps l : speaks Eps l <-> l = [].
Proof. split; [by inversion 1|intros ->; constructor]. Qed.

Lemma speaks_cat_iff r s l : speaks (cat r s) l <-> speaks (Cat r s) l.
Proof.
  destruct r; try done; rewrite speaks_Cat; cbn.
  - split; [by intros ?%speaks_Void|]. by intros (? & ? & _ & ?%speaks_Void & _).
  - setoid_rewrite speaks_Eps. split; [intros H; by exists [], l|]. by intros (? & ? & -> & -> & ?).
Qed.
Lemma speaks_alt_iff r s l : speaks (alt r s) l <-> speaks (Alt r s) l.
Proof. rewrite speaks_Alt. pose proof (speaks_Void l). destruct r, s; cbn; rewrite ?speaks_Alt; tauto. Qed.

Lemma nullable_iff r : nullable r = true <-> speaks r [].
Proof.
  induction r as [| |p|r IHr s IHs|r IHr s IHs|r IHr]; cbn.
  - split; [done|by intros ?%speaks_Void].
  - by rewrite speaks_Eps.
  - split; [done|by inversion 1].
  - rewrite andb_true_iff, IHr, IHs, speaks_Cat. split; [intros [? ?]; by exists [], []|].
    by intros (l1 & l2 & [-> ->]%eq_sym%app_eq_nil & ? & ?).
  - by rewrite orb_true_iff, IHr, IHs, speaks_Alt.
  - split; [constructor|done].
Qed.

Lemma derive_iff c r : forall l, speaks (derive c r) l <-> speaks r (c :: l).
Proof.
  induction r as [| |p|r IHr s IHs|r IHr s IHs|r IHr]; intros l; cbn.
  - split; by intros ?%speaks_Void.
  - split; [by intros ?%speaks_Void|by inversion 1].
  - destruct (p c) eqn:Hp.
    + rewrite speaks_Eps. split; [intros ->; by constructor|by inversion 1].
    + split; [by intros ?%speaks_Void|inversion 1; congruence].
  - rewrite speaks_alt_iff, speaks_Alt, speaks_cat_iff, !speaks_Cat.
    assert (speaks (if nullable r then derive c s else Void) l <-> speaks r [] /\ speaks s (c :: l)) as ->.
    { rewrite <- nullable_iff. destruct (nullable r); [rewrite IHs; tauto|]. pose proof (speaks_Void l). split; [done|by intros [? _]]. }
    split.
    + intros [(l1 & l2 & -> & H1%IHr & H2)|[H1 H2]]; [by exists (c :: l1), l2|by exists [], (c :: l)].
    + intros ([|d l1] & l2 & E & H1 & H2); cbn in E; [subst l2; by right|]. injection E as -> ->. left. exists l1, l2. by rewrite IHr.
  - by rewrite speaks_alt_iff, !speaks_Alt, IHr, IHs.
  - rewrite speaks_cat_iff, speaks_Cat. split.
    + intros (l1 & l2 & -> & H1%IHr & H2). by constructor.
    + inversion 1; subst. eexists _, _. split; [done|]. by rewrite IHr.
Qed.

(** The matcher accepts exactly the language of its expression. *)
Theorem matches_runes_iff r l : matches_runes r l = true <-> speaks r l.
Proof. revert r. induction l as [|c l IH]; intros r; cbn; [apply nullable_iff|by rewrite IH, derive_iff]. Qed.

(** A name that passes is made of Chinese characters, letters, digits, [_] and [-]. *)
Theorem checkName_iff n :
  checkName (Some n) = true <->
  n <> "" /\ n <> "polariadmin" /\ RuneCountInString n <= MaxNameLength /\ runes n <> [] /\
  Forall (fun c => range_of 0x4E00 0x9FA5 c || word c || bool_decide (c = 45%N) = true) (runes n).
Proof.
  unfold checkName, MatchString, regNameStr, Plus. set (p := fun c => _). rewrite !andb_true_iff, !negb_true_iff, !bool_decide_eq_false, bool_decide_eq_true.
  rewrite matches_runes_iff, speaks_Cat. change (fun c => _ = true) with (fun c => p c = true).
  assert (forall l, speaks (Star (Class p)) l <-> Forall (fun c => p c = true) l) as Hstar.
  { intros l. split.
    - remember (Star (Class p)) as r eqn:Hr. induction 1 as [| | | | | |r c l k H1 _ H2 IH]; try done. injection Hr as ->.
      inversion H1; subst. cbn. constructor; [done|by apply IH].
    - induction 1 as [|c l Hc _ IH]; [constructor|]. apply (speaks_cons _ c [] l); [by constructor|done]. }
  split.
  - intros [[[H1 H2] H3] (l1 & l2 & E & Hc & Hs)]. inversion Hc; subst. rewrite E. split_and!; [done..|]. cbn. constructor; [done|by apply Hstar].
  - intros (H1 & H2 & H3 & H4 & H5). split_and!; [done..|]. destruct (runes n) as [|c l] eqn:E; [done|]. apply Forall_cons in H5 as [Hc Hl].
    exists [c], l. split_and!; [done|by constructor|by apply Hstar].
Qed.
