(* ===== verification/UserServer.v ===== *)
(** * The user API ([src/auth/defaultauth/user.go], [user_authability.go], [server.go])

    Users are created by the administrator (main accounts) and by main accounts
    (their sub accounts), changed by themselves and by those above them, and log
    in with a password.  The user cache, the random bytes and [bcrypt] are
    arguments; the store is that of [AccountStore.v]. *)

From S2P Require Import Prelude Effects GoStrings Hash Utils BaseCache UserCache StrategyCache Cipher Token AuthCheck InstanceStore AccountStore AccountApi.
From Stdlib Require Import ZArith Lia Ascii.
From stdpp Require Import base tactics list gmap strings.

Open Scope Z_scope.

(** What a call draws: the id of a user, group or strategy, the ids of a default strategy, the
    salt of a password, and the vector and the uuid of a token. *)
Record Draws := mkDraws { dId : string; dStrategy : string * string; dSalt : string; dVector : option bytes; dToken : string }.

(** [bcrypt.CompareHashAndPassword]. *)
Inductive comparison := Match | Mismatched | BadHash.

Section server.
  Context (range : forall A, gmap string A -> list (string * A)).
  Context (Time2String : Z -> string).
  Context (AuthOption : AuthConfig) (recording : bool).
  (** [bcrypt], given the salt. *)
  Context (GenerateFromPassword : string -> string -> option string).
  Context (CompareHashAndPassword : string -> string -> comparison).
  (** [svr.cacheMgn.User()]. *)
  Context (uc : userCache).

Definition userException (req : ApiUser) (_ : StatusCode) : AuthResponse := NewUserResponse StoreLayerException (Some req).
Definition authStoreError (err : StatusCode) : AuthResponse := NewAuthResponse (StoreCode2APICode err).

Definition userRecordEntry (md : User) (op : AuthOperation) : AuthRecord := mkRecord RUser (UName md +:+ "(" +:+ UID md +:+ ")") op.

(** ** Checks of requests *)

Definition checkCreateUser (req : ApiUser) : option AuthResponse :=
  if negb (checkName (auName req)) then Some (NewUserResponse InvalidUserName (Some req))
  else if negb (checkPassword (auPassword req)) then Some (NewUserResponse InvalidUserPassword (Some req))
  else if negb (checkOwner (auOwner req)) then Some (NewUserResponse InvalidUserOwners (Some req))
  else if negb (checkMobile (auMobile req)) then Some (NewUserResponse InvalidUserMobile (Some req))
  else if negb (checkEmail (auEmail req)) then Some (NewUserResponse InvalidUserEmail (Some req))
  else None.

Definition checkUpdateUser (req : option ApiUser) : option AuthResponse :=
  match req with
  | None => Some (NewUserResponse EmptyRequest None)
  | Some r =>
      if bool_decide (is_Some (auPassword r)) && negb (checkPassword (auPassword r)) then Some (NewUserResponse InvalidUserPassword req)
      else if decide (GetValue (auId r) = "") then Some (NewUserResponse BadRequest req)
      else if negb (checkMobile (auMobile r)) then Some (NewUserResponse InvalidUserMobile req)
      else if negb (checkEmail (auEmail r)) then Some (NewUserResponse InvalidUserEmail req)
      else None
  end.

Definition checkUserViewPermission (ctx : RequestContext) (user : User) : bool :=
  bool_decide (ParseUserRole ctx = AdminUserRole) || bool_decide (UID user = ParseUserID ctx) || bool_decide (UOwner user = ParseUserID ctx).

(** ** Models *)

Definition convertCreateUserRole (role : Z) : Z := if decide (role = AdminUserRole) then OwnerUserRole else SubAccountUserRole.

(** The times are set again by the store. *)
Definition createUserModel (draws : Draws) (now : Z) (req : ApiUser) (role : Z) : option User :=
  match GenerateFromPassword (dSalt draws) (GetValue (auPassword req)) with
  | None => None
  | Some pwd =>
      let id := if decide (GetValue (auId req) = "") then dId draws else GetValue (auId req) in
      let type := convertCreateUserRole role in
      let owner := if decide (type = SubAccountUserRole) then GetValue (auOwner req) else "" in
      match createUserToken (dVector draws) (dToken draws) (Salt AuthOption) id with
      | Fail _ => None
      | Okay newToken =>
          Some (mkUser id (GetValue (auName req)) pwd owner (GetValue (auSource req)) (GetValue (auMobile req)) (GetValue (auEmail req))
            type newToken true true (GetValue (auComment req)) now now)
      end
  end.

Definition assign (old : string) (new : option string) : string := default old new.
Definition set_profile (u : User) (comment mobile email : string) : User :=
  mkUser (UID u) (UName u) (UPassword u) (UOwner u) (USource u) mobile email (UType u) (UToken u) (UTokenEnable u) (UValid u) comment
    (UCreateTime u) (UModifyTime u).
Definition set_password (u : User) (pwd : string) : User :=
  mkUser (UID u) (UName u) pwd (UOwner u) (USource u) (UMobile u) (UEmail u) (UType u) (UToken u) (UTokenEnable u) (UValid u) (UComment u)
    (UCreateTime u) (UModifyTime u).
Definition set_user_token (u : User) (token : string) (enable : bool) : User :=
  mkUser (UID u) (UName u) (UPassword u) (UOwner u) (USource u) (UMobile u) (UEmail u) (UType u) token enable (UValid u) (UComment u)
    (UCreateTime u) (UModifyTime u).

(** [needUpdate] is true from the start. *)
Definition updateUserAttribute (old : User) (newUser : ApiUser) : User * bool :=
  (set_profile old (assign (UComment old) (auComment newUser)) (assign (UMobile old) (auMobile newUser)) (assign (UEmail old) (auEmail newUser)), true).

(** [None] is an error. *)
Definition updateUserPasswordAttribute (salt : string) (isAdmin : bool) (user : User) (req : ModifyUserPassword) : option (User * bool) :=
  if negb (checkPassword (mpNewPassword req)) then None
  else if negb isAdmin && (bool_decide (GetValue (mpOldPassword req) = "") ||
      negb (match CompareHashAndPassword (UPassword user) (GetValue (mpOldPassword req)) with Match => true | _ => false end)) then None
  else if decide (GetValue (mpNewPassword req) = "") then Some (user, false)
  else match GenerateFromPassword salt (GetValue (mpNewPassword req)) with
       | None => None
       | Some pwd => Some (set_password user pwd, true)
       end.

Definition UserRoleNames (type : Z) : string :=
  if decide (type = AdminUserRole) then "admin" else if decide (type = OwnerUserRole) then "main"
  else if decide (type = SubAccountUserRole) then "sub" else "".

Definition user2Api (u : User) : ApiUser :=
  mkApiUser (Some (UID u)) (Some (UName u)) None (Some (UOwner u)) (Some (USource u)) None (Some (UTokenEnable u)) (Some (UComment u))
    (Some (UMobile u)) (Some (UEmail u)) (Some (Time2String (UCreateTime u))) (Some (Time2String (UModifyTime u))) (Some (UserRoleNames (UType u))).

Definition set_auOwner (r : ApiUser) (owner : string) : ApiUser :=
  mkApiUser (auId r) (auName r) (auPassword r) (Some owner) (auSource r) (auAuthToken r) (auTokenEnable r) (auComment r) (auMobile r) (auEmail r)
    (auCtime r) (auMtime r) (auUserType r).
Definition set_auId (r : ApiUser) (id : string) : ApiUser :=
  mkApiUser (Some id) (auName r) (auPassword r) (auOwner r) (auSource r) (auAuthToken r) (auTokenEnable r) (auComment r) (auMobile r) (auEmail r)
    (auCtime r) (auMtime r) (auUserType r).
Definition set_auToken (r : ApiUser) (token : string) : ApiUser :=
  mkApiUser (auId r) (auName r) (auPassword r) (auOwner r) (auSource r) (Some token) (auTokenEnable r) (auComment r) (auMobile r) (auEmail r)
    (auCtime r) (auMtime r) (auUserType r).

(** ** Creating *)

Definition createUser (draws : Draws) (ctx : RequestContext) (req : ApiUser) : auth_handler AuthResponse :=
  s ← get;
  match createUserModel draws (aclock (storage s)) req (ParseUserRole ctx) with
  | None => refuse ExecuteException
  | Some data =>
      _ ← stored_or (bolt_AddUser (dStrategy draws) data) authStoreError;
      _ ← RecordHistory recording (userRecordEntry data OCreate);
      mret (NewUserResponse ExecuteSuccess (Some (set_auId (set_auOwner req "") (UID data))))
  end.

(** The owner that is not found any more is dereferenced. *)
Definition CreateUser (draws : Draws) (ctx : RequestContext) (req : option ApiUser) : auth_handler AuthResponse :=
  req ← deref req;
  let req := set_auOwner req (ParseOwnerID ctx) in
  match checkCreateUser req with
  | Some rsp => raise rsp
  | None =>
      let ownerID := if decide (convertCreateUserRole (ParseUserRole ctx) = SubAccountUserRole) then ParseOwnerID ctx else "" in
      _ ← (if decide (ownerID = "") then mret ()
           else
             owner ← stored_or (bolt_GetUser ownerID) (userException req);
             owner ← deref owner;
             if decide (UName owner = GetValue (auName req)) then raise (NewUserResponse UserExisted (Some req)) else mret ());
      user ← stored_or (bolt_GetUserByName range (GetValue (auName req)) ownerID) (userException req);
      match user with
      | Some _ => raise (NewUserResponse UserExisted (Some req))
      | None => createUser draws ctx req
      end
  end.

Definition CreateUsers (draws : nat -> Draws) (ctx : RequestContext) (reqs : list (option ApiUser)) : auth_handler (list AuthResponse) :=
  in_turn (fun i req => CreateUser (draws i) ctx req) 0 reqs.

(** ** Changing *)

(** The stored user that the caller may see. *)
Definition viewedUser (ctx : RequestContext) (id : option string) (exception : StatusCode -> AuthResponse) (notFound forbidden : AuthResponse) :
    auth_handler User :=
  user ← stored_or (bolt_GetUser (GetValue id)) exception;
  match user with
  | None => raise notFound
  | Some user => if checkUserViewPermission ctx user then mret user else raise forbidden
  end.

Definition UpdateUser (ctx : RequestContext) (req : option ApiUser) : auth_handler AuthResponse :=
  match checkUpdateUser req, req with
  | Some rsp, _ => raise rsp
  | None, None => panics NilDereference
  | None, Some r =>
      user ← viewedUser ctx (auId r) (userException r) (NewUserResponse NotFoundUser req) (NewAuthResponse NotAllowedAccess);
      let '(data, needUpdate) := updateUserAttribute user r in
      if negb needUpdate then raise (NewUserResponse NoNeedUpdate req)
      else
        _ ← stored_or (bolt_UpdateUser data) authStoreError;
        _ ← RecordHistory recording (userRecordEntry data OUpdate);
        mret (NewUserResponse ExecuteSuccess req)
  end.

Definition UpdateUserPassword (draws : Draws) (ctx : RequestContext) (req : option ModifyUserPassword) : auth_handler AuthResponse :=
  req ← deref req;
  user ← viewedUser ctx (mpId req) (fun _ => NewAuthResponse StoreLayerException) (NewAuthResponse NotFoundUser) (NewAuthResponse NotAllowedAccess);
  let ignoreOrigin := bool_decide (ParseUserRole ctx = AdminUserRole) || bool_decide (ParseUserRole ctx = OwnerUserRole) in
  match updateUserPasswordAttribute (dSalt draws) ignoreOrigin user req with
  | None => refuse ExecuteException
  | Some (data, needUpdate) =>
      if negb needUpdate then refuse NoNeedUpdate
      else
        _ ← stored_or (bolt_UpdateUser data) authStoreError;
        mret (NewAuthResponse ExecuteSuccess)
  end.

Definition UpdateUserToken (ctx : RequestContext) (req : option ApiUser) : auth_handler AuthResponse :=
  match checkUpdateUser req, req with
  | Some rsp, _ => raise rsp
  | None, None => panics NilDereference
  | None, Some r =>
      user ← viewedUser ctx (auId r) (userException r) (NewUserResponse NotFoundUser req) (NewUserResponse NotAllowedAccess req);
      if bool_decide (ParseUserRole ctx <> AdminUserRole) && bool_decide (UType user <> SubAccountUserRole)
      then raise (NewUserResponse NotAllowedAccess req)
      else
        let user := set_user_token user (UToken user) (default false (auTokenEnable r)) in
        _ ← stored_or (bolt_UpdateUser user) authStoreError;
        _ ← RecordHistory recording (userRecordEntry user OUpdateToken);
        mret (NewUserResponse ExecuteSuccess req)
  end.

Definition ResetUserToken (draws : Draws) (ctx : RequestContext) (req : option ApiUser) : auth_handler AuthResponse :=
  match checkUpdateUser req, req with
  | Some rsp, _ => raise rsp
  | None, None => panics NilDereference
  | None, Some r =>
      user ← viewedUser ctx (auId r) (userException r) (NewUserResponse NotFoundUser req) (NewUserResponse NotAllowedAccess req);
      match createUserToken (dVector draws) (dToken draws) (Salt AuthOption) (UID user) with
      | Fail _ => raise (NewUserResponse ExecuteException req)
      | Okay newToken =>
          let user := set_user_token user newToken (UTokenEnable user) in
          _ ← stored_or (bolt_UpdateUser user) (fun err => NewUserResponse (StoreCode2APICode err) req);
          _ ← RecordHistory recording (userRecordEntry user OUpdateToken);
          mret (NewUserResponse ExecuteSuccess (Some (set_auToken r (UToken user))))
      end
  end.

(** ** Deleting *)

Definition DeleteUser (ctx : RequestContext) (req : option ApiUser) : auth_handler AuthResponse :=
  r ← deref req;
  user ← viewedUser ctx (auId r) (userException r) (NewUserResponse ExecuteSuccess req) (NewUserResponse NotAllowedAccess req);
  if decide (UID user = ParseOwnerID ctx) then raise (NewUserResponse NotAllowedAccess req)
  else
    _ ← (if decide (UType user = OwnerUserRole) then
           count ← stored_or (bolt_GetSubCount user) (userException r);
           if decide (count <> 0) then raise (NewUserResponse SubAccountExisted req) else mret ()
         else mret ());
    _ ← stored_or (bolt_DeleteUser range user) authStoreError;
    _ ← RecordHistory recording (userRecordEntry user ODelete);
    mret (NewUserResponse ExecuteSuccess req).

Definition DeleteUsers (ctx : RequestContext) (reqs : list (option ApiUser)) : auth_handler (list AuthResponse) :=
  in_turn (fun _ req => DeleteUser ctx req) 0 reqs.

(** ** Reading *)

Definition UserFilterAttributes : list string := ["id"; "name"; "owner"; "source"; "offset"; "group_id"; "limit"; "hide_admin"].

Definition userSearchFilters (ctx : RequestContext) (query : gmap string string) : gmap string string :=
  let filters := <["hide_admin" := "true"]> query in
  if decide (ParseUserRole ctx = AdminUserRole) then filters else <["owner" := ParseOwnerID ctx]> filters.

Definition GetUsers (ctx : RequestContext) (query : gmap string string) : auth_handler (AuthBatchQuery ApiUser) :=
  if decide (map_Forall (fun k _ => k ∈ UserFilterAttributes) query) then
    let '(filters, parsed) := ParseOffsetAndLimit (userSearchFilters ctx query) in
    match parsed with
    | Fail _ => mret (NewAuthBatchQueryResponse InvalidParameter)
    | Okay (offset, limit) =>
        r ← attempt (on_accounts (bolt_GetUsers range filters offset limit));
        match r with
        | Fail _ => mret (NewAuthBatchQueryResponse StoreLayerException)
        | Okay (total, users) => mret (mkQuery ExecuteSuccess total (wrap_u 32 (Z.of_nat (length users))) (user2Api <$> users))
        end
    end
  else mret (NewAuthBatchQueryResponse InvalidParameter).

(** The account whose token is asked for, by id or by name. *)
Definition tokenTarget (ctx : RequestContext) (req : ApiUser) : result Code (option User) :=
  if decide (GetValue (auId req) <> "") then Okay (GetUserByID uc (GetValue (auId req)))
  else if decide (GetValue (auName req) <> "") then
    if decide (GetValue (auOwner req) <> "") then Okay (GetUserByName uc (GetValue (auName req)) (GetValue (auOwner req)))
    else match GetUserByID uc (ParseOwnerID ctx) with
         | None => Fail NotFoundUser
         | Some owner => Okay (GetUserByName uc (GetValue (auName req)) (UName owner))
         end
  else Fail InvalidParameter.

Definition GetUserToken (ctx : RequestContext) (req : ApiUser) : AuthResponse :=
  match tokenTarget ctx req with
  | Fail code => NewAuthResponse code
  | Okay None => NewUserResponse NotFoundUser (Some req)
  | Okay (Some user) =>
      if negb (checkUserViewPermission ctx user) then NewUserResponse NotAllowedAccess (Some req)
      else NewUserResponse ExecuteSuccess (Some (mkApiUser (Some (UID user)) (Some (UName user)) None None None (Some (UToken user))
        (Some (UTokenEnable user)) None None None None None None))
  end.

Definition Login (req : LoginRequest) : AuthResponse :=
  let username := GetValue (lrName req) in
  let ownerName := if decide (GetValue (lrOwner req) = "") then username else GetValue (lrOwner req) in
  match GetUserByName uc username ownerName with
  | None => NewAuthResponse NotFoundUser
  | Some user =>
      match CompareHashAndPassword (UPassword user) (GetValue (lrPassword req)) with
      | Match => mkAuthResponse ExecuteSuccess (AboutLogin (mkLoginResponse (UID user) (UOwner user) (UToken user) (UName user) (UserRoleNames (UType user))))
      | Mismatched => NewAuthResponse NotAllowedAccess
      | BadHash => NewAuthResponse ExecuteException
      end
  end.

(** ** Behind the authorization ([user_authability.go]) *)

Definition deny_user (req : option ApiUser) (code : Code) : auth_handler AuthResponse := raise (NewUserResponse code req).
Definition deny_auth (code : Code) : auth_handler AuthResponse := refuse code.
Definition deny_batch (code : Code) : auth_handler (list AuthResponse) := mret [NewAuthResponse code].
Definition deny_query {A} (code : Code) : auth_handler (AuthBatchQuery A) := mret (NewAuthBatchQueryResponse code).
#[local] Abbreviation verified := (verified AuthOption uc).

Definition auth_CreateUsers (draws : nat -> Draws) ctx (reqs : list (option ApiUser)) :=
  verified true true deny_batch (fun ctx => CreateUsers draws ctx reqs) ctx.
Definition auth_UpdateUser ctx (req : option ApiUser) := verified false false (deny_user req) (fun ctx => UpdateUser ctx req) ctx.
Definition auth_UpdateUserPassword (draws : Draws) ctx (req : option ModifyUserPassword) :=
  verified false false deny_auth (fun ctx => UpdateUserPassword draws ctx req) ctx.
Definition auth_DeleteUsers ctx (reqs : list (option ApiUser)) := verified true true deny_batch (fun ctx => DeleteUsers ctx reqs) ctx.
Definition auth_DeleteUser ctx (req : option ApiUser) := verified true true (deny_user req) (fun ctx => DeleteUser ctx req) ctx.
Definition auth_GetUsers ctx (query : gmap string string) := verified false false deny_query (fun ctx => GetUsers ctx query) ctx.
Definition auth_GetUserToken ctx (req : ApiUser) := verified false false deny_auth (fun ctx => mret (GetUserToken ctx req)) ctx.
Definition auth_UpdateUserToken ctx (req : option ApiUser) := verified true true (deny_user req) (fun ctx => UpdateUserToken ctx req) ctx.
Definition auth_ResetUserToken (draws : Draws) ctx (req : option ApiUser) :=
  verified true false (deny_user req) (fun ctx => ResetUserToken draws ctx req) ctx.

End server.
