(* ===== verification/GroupServer.v ===== *)
(** * The user group API ([src/auth/defaultauth/group.go], [group_authability.go])

    A group belongs to a main account and lists users of it.  The handlers check
    members against the user cache and write to the store of
    [AccountStore.v]; the answer to [GetGroup] fills in the members from the
    cache. *)

From S2P Require Import Prelude Effects GoStrings Hash Utils BaseCache UserCache StrategyCache Cipher Token AuthCheck InstanceStore AccountStore AccountApi UserServer.
From Stdlib Require Import ZArith Lia Ascii.
From stdpp Require Import base tactics list gmap strings.

Open Scope Z_scope.

Section server.
  Context (range : forall A, gmap string A -> list (string * A)).
  Context (Time2String : Z -> string).
  Context (AuthOption : AuthConfig) (recording : bool).
  Context (uc : userCache).

Definition groupRecordEntry (md : UserGroupDetail) (op : AuthOperation) : AuthRecord :=
  mkRecord RUserGroup (GName md +:+ "(" +:+ GID md +:+ ")") op.

(** ** Checks *)

Definition member_ids (users : list ApiUser) : list string := (fun u => GetValue (auId u)) <$> users.
Definition known_users (ids : list string) : bool := forallb (fun id => bool_decide (is_Some (GetUserByID uc id))) ids.

Definition checkCreateGroup (req : ApiGroup) : option AuthResponse :=
  if known_users (member_ids (default [] (agUsers req))) then None else Some (mkAuthResponse NotFoundUser AboutRelation).

Definition preCheckGroupRelation (groupID : string) (users : list ApiUser) : result AuthResponse UserGroupDetail :=
  match GetGroup uc groupID with
  | None => Fail (NewAuthResponse NotFoundUserGroup)
  | Some group =>
      if known_users (StringSliceDeDuplication (member_ids users)) then Okay group else Fail (mkAuthResponse NotFoundUser AboutRelation)
  end.

Definition checkUpdateGroup (ctx : RequestContext) (req : option ApiModifyGroup) : option AuthResponse :=
  match req with
  | None => Some (NewModifyGroupResponse EmptyRequest None)
  | Some r =>
      if decide (GetValue (amgId r) = "") then Some (NewModifyGroupResponse InvalidUserGroupID req)
      else match preCheckGroupRelation (GetValue (amgId r)) (amgAdd r) with
           | Fail rsp => Some rsp
           | Okay group =>
               let inGroup := bool_decide (ParseUserID ctx ∈ UserIds group) in
               if decide (ParseUserRole ctx = AdminUserRole) then None
               else if negb inGroup && bool_decide (GOwner group <> ParseUserID ctx) then Some (NewAuthResponse NotAllowedAccess)
               else if inGroup && negb (ParseIsOwner ctx) && bool_decide (length (amgRemove r) <> 0%nat) then Some (NewAuthResponse NotAllowedAccess)
               else None
           end
  end.

(** ** Models *)

Definition createGroupModel (draws : Draws) (now : Z) (req : ApiGroup) : option UserGroupDetail :=
  match createGroupToken (dVector draws) (dToken draws) (Salt AuthOption) (dId draws) with
  | Fail _ => None
  | Okay token =>
      Some (mkGroup (dId draws) (GetValue (agName req)) (GetValue (agOwner req)) token true true (GetValue (agComment req)) now now
        (list_to_set (member_ids (default [] (agUsers req)))))
  end.

Definition updateGroupAttribute (ctx : RequestContext) (old : UserGroupDetail) (newGroup : ApiModifyGroup) : ModifyUserGroup * bool :=
  let comment := GetValue (amgComment newGroup) in
  let recomment := ParseIsOwner ctx && bool_decide (comment <> "" /\ GComment old <> comment) in
  (mkModifyGroup (GID old) (GToken old) (GTokenEnable old) (if recomment then comment else GComment old)
     (member_ids (amgAdd newGroup)) (member_ids (amgRemove newGroup)),
   recomment || bool_decide (length (amgAdd newGroup) <> 0%nat) || bool_decide (length (amgRemove newGroup) <> 0%nat)).

Definition set_agOwner (r : ApiGroup) (owner : string) : ApiGroup :=
  mkApiGroup (agId r) (agName r) (Some owner) (agAuthToken r) (agTokenEnable r) (agComment r) (agUsers r) (agCtime r) (agMtime r) (agUserCount r).
Definition set_agId (r : ApiGroup) (id : string) : ApiGroup :=
  mkApiGroup (Some id) (agName r) (agOwner r) (agAuthToken r) (agTokenEnable r) (agComment r) (agUsers r) (agCtime r) (agMtime r) (agUserCount r).
Definition set_agToken (r : ApiGroup) (token : string) (enable : option bool) : ApiGroup :=
  mkApiGroup (agId r) (agName r) (agOwner r) (Some token) enable (agComment r) (agUsers r) (agCtime r) (agMtime r) (agUserCount r).

Definition userGroup2Api (g : UserGroupDetail) : ApiGroup :=
  mkApiGroup (Some (GID g)) (Some (GName g)) (Some (GOwner g)) None (Some (GTokenEnable g)) (Some (GComment g)) None
    (Some (Time2String (GCreateTime g))) (Some (Time2String (GModifyTime g))) None.

(** A member that the cache does not have is dereferenced. *)
Fixpoint members2Api (ids : list string) : auth_handler (list ApiUser) :=
  match ids with
  | [] => mret []
  | id :: ids =>
      u ← deref (GetUserByID uc id);
      rest ← members2Api ids;
      mret (mkApiUser (Some (UID u)) (Some (UName u)) None None (Some (USource u)) None (Some (UTokenEnable u)) (Some (UComment u)) None None
        (Some (Time2String (UCreateTime u))) (Some (Time2String (UModifyTime u))) None :: rest)
  end.
Definition userGroupDetail2Api (g : UserGroupDetail) : auth_handler ApiGroup :=
  users ← members2Api (elements (UserIds g));
  mret (mkApiGroup (Some (GID g)) (Some (GName g)) (Some (GOwner g)) None (Some (GTokenEnable g)) (Some (GComment g)) (Some users)
    (Some (Time2String (GCreateTime g))) (Some (Time2String (GModifyTime g))) (Some (wrap_u 32 (Z.of_nat (length users))))).

(** ** Creating, changing, deleting *)

Definition CreateGroup (draws : Draws) (ctx : RequestContext) (req : option ApiGroup) : auth_handler AuthResponse :=
  req ← deref req;
  let req := set_agOwner req (ParseOwnerID ctx) in
  match checkCreateGroup req with
  | Some rsp => raise rsp
  | None =>
      group ← stored_or (bolt_GetGroupByName range (GetValue (agName req)) (ParseOwnerID ctx)) (fun _ => NewGroupResponse StoreLayerException (Some req));
      match group with
      | Some _ => raise (NewGroupResponse UserGroupExisted (Some req))
      | None =>
          s ← get;
          match createGroupModel draws (aclock (storage s)) req with
          | None => refuse ExecuteException
          | Some data =>
              _ ← stored_or (bolt_AddGroup (dStrategy draws) data) authStoreError;
              _ ← RecordHistory recording (groupRecordEntry data OCreate);
              mret (NewGroupResponse ExecuteSuccess (Some (set_agId req (GID data))))
          end
      end
  end.

Definition getGroupFromDB (id : string) : auth_handler UserGroupDetail :=
  group ← stored_or (bolt_GetGroup id) (fun _ => NewAuthResponse StoreLayerException);
  match group with None => refuse NotFoundUserGroup | Some group => mret group end.

Definition UpdateGroup (ctx : RequestContext) (req : option ApiModifyGroup) : auth_handler AuthResponse :=
  match checkUpdateGroup ctx req, req with
  | Some rsp, _ => raise rsp
  | None, None => panics NilDereference
  | None, Some r =>
      data ← getGroupFromDB (GetValue (amgId r));
      let '(modifyReq, needUpdate) := updateGroupAttribute ctx data r in
      if negb needUpdate then raise (NewModifyGroupResponse NoNeedUpdate req)
      else
        _ ← stored_or (bolt_UpdateGroup modifyReq) authStoreError;
        _ ← RecordHistory recording (groupRecordEntry data OUpdateGroup);
        mret (NewModifyGroupResponse ExecuteSuccess req)
  end.
Definition UpdateGroups (ctx : RequestContext) (reqs : list (option ApiModifyGroup)) : auth_handler (list AuthResponse) :=
  in_turn (fun _ req => UpdateGroup ctx req) 0 reqs.

Definition DeleteGroup (ctx : RequestContext) (req : option ApiGroup) : auth_handler AuthResponse :=
  let id := GetValue (req ≫= agId) in
  group ← stored_or (bolt_GetGroup id) (fun _ => NewGroupResponse StoreLayerException req);
  match group with
  | None => raise (NewGroupResponse ExecuteSuccess req)
  | Some group =>
      if bool_decide (ParseUserRole ctx <> AdminUserRole) && bool_decide (GOwner group <> ParseUserID ctx) then refuse NotAllowedAccess
      else
        _ ← stored_or (bolt_DeleteGroup range group) authStoreError;
        _ ← deref req;
        _ ← RecordHistory recording (groupRecordEntry group ODelete);
        mret (NewGroupResponse ExecuteSuccess req)
  end.
Definition DeleteGroups (ctx : RequestContext) (reqs : list (option ApiGroup)) : auth_handler (list AuthResponse) :=
  in_turn (fun _ req => DeleteGroup ctx req) 0 reqs.

Definition modifyOf (g : UserGroupDetail) (token : string) (enable : bool) : ModifyUserGroup := mkModifyGroup (GID g) token enable (GComment g) [] [].

Definition UpdateGroupToken (ctx : RequestContext) (req : option ApiGroup) : auth_handler AuthResponse :=
  r ← deref req;
  group ← getGroupFromDB (GetValue (agId r));
  if bool_decide (ParseUserRole ctx <> AdminUserRole) && bool_decide (GOwner group <> ParseUserID ctx) then refuse NotAllowedAccess
  else
    _ ← stored_or (bolt_UpdateGroup (modifyOf group (GToken group) (default false (agTokenEnable r)))) authStoreError;
    _ ← RecordHistory recording (groupRecordEntry group OUpdateToken);
    mret (NewGroupResponse ExecuteSuccess req).

Definition ResetGroupToken (draws : Draws) (ctx : RequestContext) (req : option ApiGroup) : auth_handler AuthResponse :=
  r ← deref req;
  group ← getGroupFromDB (GetValue (agId r));
  if negb (ParseIsOwner ctx) || bool_decide (GOwner group <> ParseUserID ctx) then refuse NotAllowedAccess
  else
    match createGroupToken (dVector draws) (dToken draws) (Salt AuthOption) (GID group) with
    | Fail _ => refuse ExecuteException
    | Okay newToken =>
        _ ← stored_or (bolt_UpdateGroup (modifyOf group newToken (GTokenEnable group))) authStoreError;
        _ ← RecordHistory recording (groupRecordEntry group OUpdate);
        mret (NewGroupResponse ExecuteSuccess (Some (set_agToken r newToken (agTokenEnable r))))
    end.

(** ** Reading *)

Definition UserLinkGroupAttributes : list string := ["id"; "user_id"; "user_name"; "group_id"; "name"; "offset"; "limit"].

Definition parseGroupSearchArgs (ctx : RequestContext) (query : gmap string string) : option (gmap string string) :=
  if decide (map_Forall (fun k _ => k ∈ UserLinkGroupAttributes) query) then
    Some (if decide (ParseUserRole ctx = AdminUserRole) then query
          else <["owner" := ParseOwnerID ctx]> (if ParseIsOwner ctx then query else <["user_id" := ParseUserID ctx]> query))
  else None.

Definition fillGroupUserCount (g : ApiGroup) : ApiGroup :=
  let n := match GetGroup uc (GetValue (agId g)) with None => 0 | Some c => wrap_u 32 (Z.of_nat (size (UserIds c))) end in
  mkApiGroup (agId g) (agName g) (agOwner g) (agAuthToken g) (agTokenEnable g) (agComment g) (agUsers g) (agCtime g) (agMtime g) (Some n).

Definition GetGroups (ctx : RequestContext) (query : gmap string string) : auth_handler (AuthBatchQuery ApiGroup) :=
  let '(query, parsed) := ParseOffsetAndLimit query in
  match parsed with
  | Fail _ => mret (NewAuthBatchQueryResponse InvalidParameter)
  | Okay (offset, limit) =>
      match parseGroupSearchArgs ctx query with
      | None => mret (NewAuthBatchQueryResponse InvalidParameter)
      | Some filters =>
          r ← attempt (on_accounts (bolt_GetGroups range filters offset limit));
          match r with
          | Fail _ => mret (NewAuthBatchQueryResponse StoreLayerException)
          | Okay (total, groups) =>
              mret (mkQuery ExecuteSuccess total (wrap_u 32 (Z.of_nat (length groups))) ((fun g => fillGroupUserCount (userGroup2Api g)) <$> groups))
          end
      end
  end.

(** The administrator, the group's owner and its members. *)
Definition mayView (ctx : RequestContext) (group : UserGroupDetail) : bool :=
  bool_decide (ParseUserRole ctx = AdminUserRole) || bool_decide (GOwner group = ParseUserID ctx) || bool_decide (ParseUserID ctx ∈ UserIds group).

Definition ViewGroup (ctx : RequestContext) (req : ApiGroup) : auth_handler AuthResponse :=
  if decide (GetValue (agId req) = "") then refuse InvalidUserGroupID
  else
    group ← getGroupFromDB (GetValue (agId req));
    if negb (mayView ctx group) then refuse NotAllowedAccess
    else g ← userGroupDetail2Api group; mret (NewGroupResponse ExecuteSuccess (Some g)).

Definition GetGroupToken (ctx : RequestContext) (req : ApiGroup) : AuthResponse :=
  if decide (GetValue (agId req) = "") then NewAuthResponse InvalidUserGroupID
  else match GetGroup uc (GetValue (agId req)) with
       | None => NewGroupResponse NotFoundUserGroup (Some req)
       | Some group =>
           if negb (mayView ctx group) then NewAuthResponse NotAllowedAccess
           else NewGroupResponse ExecuteSuccess (Some (set_agToken req (GToken group) (Some (GTokenEnable group))))
       end.

(** ** Behind the authorization ([group_authability.go]) *)

Definition deny_group (req : option ApiGroup) (code : Code) : auth_handler AuthResponse := raise (NewGroupResponse code req).
#[local] Abbreviation verified := (verified AuthOption uc).

Definition auth_CreateGroup (draws : Draws) ctx (req : option ApiGroup) :=
  verified true true (deny_group req) (fun ctx => CreateGroup draws ctx req) ctx.
Definition auth_UpdateGroups ctx (reqs : list (option ApiModifyGroup)) := verified true true deny_batch (fun ctx => UpdateGroups ctx reqs) ctx.
Definition auth_DeleteGroups ctx (reqs : list (option ApiGroup)) := verified true true deny_batch (fun ctx => DeleteGroups ctx reqs) ctx.
Definition auth_GetGroups ctx (query : gmap string string) := verified false false deny_query (fun ctx => GetGroups ctx query) ctx.
Definition auth_GetGroup ctx (req : ApiGroup) := verified true false deny_auth (fun ctx => ViewGroup ctx req) ctx.
Definition auth_GetGroupToken ctx (req : ApiGroup) := verified false false deny_auth (fun ctx => mret (GetGroupToken ctx req)) ctx.
Definition auth_UpdateGroupToken ctx (req : option ApiGroup) := verified true true (deny_group req) (fun ctx => UpdateGroupToken ctx req) ctx.
Definition auth_ResetGroupToken (draws : Draws) ctx (req : option ApiGroup) :=
  verified true true (deny_group req) (fun ctx => ResetGroupToken draws ctx req) ctx.

End server.
