(* ===== verification/StrategyServer.v ===== *)
(** * The strategy API ([src/auth/defaultauth/strategy.go], [strategy_authability.go])

    Authorization strategies are created, changed and deleted by main accounts.
    The default strategy of an account is not deleted by itself, and only its
    resources can be changed.  The caches of users, namespaces, services and
    configuration groups are arguments. *)

From S2P Require Import Prelude Effects GoStrings Hash Utils BaseCache UserCache StrategyCache Cipher Token AuthCheck InstanceStore AccountStore AccountApi UserServer.
From Stdlib Require Import ZArith Lia Ascii.
From stdpp Require Import base tactics list gmap strings.

Open Scope Z_scope.

Section server.
  Context (range : forall A, gmap string A -> list (string * A)).
  Context (Time2String : Z -> string).
  Context (AuthOption : AuthConfig) (recording : bool).
  Context (uc : userCache).
  (** What the other caches answer: the name of a namespace; the id, namespace
      and name of a service; the namespace and name of a configuration group. *)
  Context (namespaceCache : string -> option string) (serviceCache : string -> option (string * string * string)).
  Context (configGroupCache : Z -> option (string * string)).

Definition authStrategyRecordEntry (name id : string) (op : AuthOperation) : AuthRecord := mkRecord RAuthStrategy (name +:+ "(" +:+ id +:+ ")") op.

(** ** Resources and principals of a request *)

Definition noResources : StrategyResources := mkResources [] [] [].
Definition noPrincipals : ApiPrincipals := mkApiPrincipals [] [].
Definition all_entry : ResourceEntry := mkResourceEntry (Some "*") None None.
Definition isStar (e : ResourceEntry) : bool := bool_decide (GetValue (reId e) = "*").
Definition normalizeEntries (l : list ResourceEntry) : list ResourceEntry := if existsb isStar l then [all_entry] else l.
Definition normalizeResource (resources : option StrategyResources) : option StrategyResources :=
  (fun r => mkResources (normalizeEntries (srNamespaces r)) (normalizeEntries (srServices r)) (srConfigGroups r)) <$> resources.

(** [delete]: the entries are to be removed. *)
Definition collectResEntry (resType : Z) (res : list ResourceEntry) (delete : bool) : list StrategyResource :=
  if negb delete && existsb (fun e => isStar e || bool_decide (GetValue (reName e) = "*")) res then [mkResource resType "*"]
  else (fun e => mkResource resType (GetValue (reId e))) <$> res.
Definition collectResources (res : option StrategyResources) (delete : bool) : list StrategyResource :=
  let r := default noResources res in
  collectResEntry Namespaces (srNamespaces r) delete ++ collectResEntry Services (srServices r) delete ++
  collectResEntry ConfigGroups (srConfigGroups r) delete.

Definition collectPrincipalEntry (uType : Z) (res : list ApiPrincipal) : list Principal := (fun p => mkPrincipal (GetValue (apId p)) uType) <$> res.
Definition collectPrincipals (ps : option ApiPrincipals) : list Principal :=
  let p := default noPrincipals ps in collectPrincipalEntry PrincipalUser (apUsers p) ++ collectPrincipalEntry PrincipalGroup (apGroups p).

(** ** Checks *)

Definition checkUserExist (ps : option ApiPrincipals) : bool :=
  forallb (fun p => bool_decide (is_Some (GetUserByID uc (GetValue (apId p))))) (apUsers (default noPrincipals ps)).
Definition checkGroupExist (ps : option ApiPrincipals) : bool :=
  forallb (fun p => bool_decide (is_Some (GetGroup uc (GetValue (apId p))))) (apGroups (default noPrincipals ps)).

(** The entries before the first star. *)
Fixpoint checkEntries (known : string -> bool) (l : list ResourceEntry) : bool :=
  match l with [] => true | e :: l => isStar e || known (GetValue (reId e)) && checkEntries known l end.
Definition checkResourceExist (resources : option StrategyResources) : option AuthResponse :=
  let r := default noResources resources in
  if negb (checkEntries (fun id => bool_decide (is_Some (namespaceCache id))) (srNamespaces r)) then Some (NewAuthResponse NotFoundNamespace)
  else if negb (checkEntries (fun id => bool_decide (is_Some (serviceCache id))) (srServices r)) then Some (NewAuthResponse NotFoundService)
  else None.

Definition checkCreateStrategy (req : ApiStrategy) : option AuthResponse :=
  if negb (checkName (asName req)) then Some (NewAuthStrategyResponse InvalidUserName (Some req))
  else if negb (checkOwner (asOwner req)) then Some (NewAuthStrategyResponse InvalidAuthStrategyOwners (Some req))
  else if negb (checkUserExist (asPrincipals req)) then Some (NewAuthStrategyResponse NotFoundUser (Some req))
  else if negb (checkGroupExist (asPrincipals req)) then Some (NewAuthStrategyResponse NotFoundUserGroup (Some req))
  else checkResourceExist (asResources req).

(** [len(p.Users)] of a pointer. *)
Definition users_of (p : option ApiPrincipals) : outcome (list ApiPrincipal) := match p with Some p => Ret (apUsers p) | None => Panics NilDereference end.
Definition groups_of (p : option ApiPrincipals) : outcome (list ApiPrincipal) := match p with Some p => Ret (apGroups p) | None => Panics NilDereference end.
(** [len(a) != 0 || rest]. *)
Definition orElse {A} (a : outcome (list A)) (rest : outcome bool) : outcome bool :=
  l ← a; match l with [] => rest | _ => Ret true end.

(** [None] lets the request pass. *)
Definition checkUpdateStrategy (ctx : RequestContext) (req : ApiModifyStrategy) (saved : StrategyDetail) : outcome (option AuthResponse) :=
  let refused := Ret (Some (NewModifyAuthStrategyResponse NotAllowedAccess (Some req))) in
  if bool_decide (ParseUserRole ctx <> AdminUserRole) && (negb (ParseIsOwner ctx) || bool_decide (ParseUserID ctx <> SOwner saved)) then refused
  else
    default_rsp ←
      (if SDefault saved then
         principals ← orElse (users_of (amsAddPrincipals req)) (orElse (groups_of (amsAddPrincipals req))
           (orElse (groups_of (amsRemovePrincipals req)) (orElse (users_of (amsRemovePrincipals req)) (Ret false))));
         if (principals : bool) then Ret (Some (NewModifyAuthStrategyResponse NotAllowModifyDefaultStrategyPrincipal (Some req)))
         else match Principals saved with
              | [p] => if decide (PrincipalRole p = PrincipalUser /\ PrincipalID p = ParseOwnerID ctx)
                       then Ret (Some (NewAuthResponse NotAllowModifyOwnerDefaultStrategy)) else Ret None
              | _ => Ret None
              end
       else Ret None);
    match default_rsp with
    | Some rsp => Ret (Some rsp)
    | None =>
        if negb (checkUserExist (amsAddPrincipals req)) then Ret (Some (NewModifyAuthStrategyResponse NotFoundUser (Some req)))
        else if negb (checkGroupExist (amsAddPrincipals req)) then Ret (Some (NewModifyAuthStrategyResponse NotFoundUserGroup (Some req)))
        else Ret (checkResourceExist (amsAddResources req))
    end.

(** ** Models *)

Definition createAuthStrategyModel (draws : Draws) (now : Z) (req : ApiStrategy) : StrategyDetail :=
  mkStrategy (dId draws) (GetValue (asName req)) "READ_WRITE" (GetValue (asComment req)) (collectPrincipals (asPrincipals req)) false
    (GetValue (asOwner req)) (collectResources (asResources req) false) true (dStrategy draws).2 now now.

Definition updateAuthStrategyAttribute (ctx : RequestContext) (req : ApiModifyStrategy) (saved : StrategyDetail) : ModifyStrategyDetail * bool :=
  let isOwner := ParseIsOwner ctx in
  let recomment := isOwner && bool_decide (is_Some (amsComment req) /\ GetValue (amsComment req) <> SComment saved) in
  let rename := isOwner && bool_decide (GetValue (amsName req) <> "" /\ GetValue (amsName req) <> SName saved) in
  let addRes := collectResources (amsAddResources req) false in
  let removeRes := collectResources (amsRemoveResources req) true in
  let addPs := collectPrincipals (amsAddPrincipals req) in
  let removePs := collectPrincipals (amsRemovePrincipals req) in
  (mkModifyStrategy (GetValue (amsId req)) (if rename then GetValue (amsName req) else SName saved) (SAction saved)
     (if recomment then GetValue (amsComment req) else SComment saved) addPs removePs addRes removeRes,
   recomment || rename || bool_decide (addRes <> []) || bool_decide (removeRes <> []) || bool_decide (addPs <> []) || bool_decide (removePs <> [])).

Definition set_asOwner (r : ApiStrategy) (owner : string) : ApiStrategy :=
  mkApiStrategy (asId r) (asName r) (Some owner) (asComment r) (asPrincipals r) (asResources r) (asAction r) (asDefault r) (asCtime r) (asMtime r).
Definition set_asResources (r : ApiStrategy) res : ApiStrategy :=
  mkApiStrategy (asId r) (asName r) (asOwner r) (asComment r) (asPrincipals r) res (asAction r) (asDefault r) (asCtime r) (asMtime r).
Definition set_amsAdd (r : ApiModifyStrategy) res : ApiModifyStrategy :=
  mkApiModifyStrategy (amsId r) (amsName r) (amsComment r) (amsAddPrincipals r) (amsRemovePrincipals r) res (amsRemoveResources r).

(** ** Creating, changing, deleting *)

Definition CreateStrategy (draws : Draws) (ctx : RequestContext) (req : option ApiStrategy) : auth_handler AuthResponse :=
  req ← deref req;
  let req := set_asOwner req (ParseOwnerID ctx) in
  match checkCreateStrategy req with
  | Some rsp => raise rsp
  | None =>
      let req := set_asResources req (normalizeResource (asResources req)) in
      s ← get;
      let data := createAuthStrategyModel draws (aclock (storage s)) req in
      _ ← stored_or (bolt_AddStrategy data) authStoreError;
      _ ← RecordHistory recording (authStrategyRecordEntry (SName data) (SID data) OCreate);
      mret (NewAuthStrategyResponse ExecuteSuccess (Some req))
  end.

Definition lift {A} (m : outcome A) : auth_handler A := fun s => match m with Ret a => Ret (s, Okay a) | Panics why => Panics why end.

Definition UpdateStrategy (draws : Draws) (ctx : RequestContext) (req : option ApiModifyStrategy) : auth_handler AuthResponse :=
  strategy ← stored_or (bolt_GetStrategyDetail (GetValue (req ≫= amsId))) (fun _ => NewModifyAuthStrategyResponse StoreLayerException req);
  match strategy with
  | None => raise (NewModifyAuthStrategyResponse NotFoundAuthStrategyRule req)
  | Some saved =>
      req ← deref req;
      checked ← lift (checkUpdateStrategy ctx req saved);
      match checked with
      | Some rsp => raise rsp
      | None =>
          let req := set_amsAdd req (normalizeResource (amsAddResources req)) in
          let '(data, needUpdate) := updateAuthStrategyAttribute ctx req saved in
          if negb needUpdate then raise (NewModifyAuthStrategyResponse NoNeedUpdate (Some req))
          else
            _ ← stored_or (bolt_UpdateStrategy (dStrategy draws).2 data) authStoreError;
            _ ← RecordHistory recording (authStrategyRecordEntry (msName data) (msID data) OUpdate);
            mret (NewModifyAuthStrategyResponse ExecuteSuccess (Some req))
      end
  end.
Definition UpdateStrategies (draws : nat -> Draws) (ctx : RequestContext) (reqs : list (option ApiModifyStrategy)) :=
  in_turn (fun i req => UpdateStrategy (draws i) ctx req) 0 reqs.

Definition DeleteStrategy (ctx : RequestContext) (req : option ApiStrategy) : auth_handler AuthResponse :=
  strategy ← stored_or (bolt_GetStrategyDetail (GetValue (req ≫= asId))) (fun _ => NewAuthStrategyResponse StoreLayerException req);
  match strategy with
  | None => raise (NewAuthStrategyResponse ExecuteSuccess req)
  | Some saved =>
      if SDefault saved then raise (NewAuthStrategyResponse BadRequest req)
      else if decide (SOwner saved <> ParseUserID ctx) then raise (NewAuthStrategyResponse NotAllowedAccess req)
      else
        _ ← stored_or (bolt_DeleteStrategy (GetValue (req ≫= asId))) authStoreError;
        _ ← RecordHistory recording (authStrategyRecordEntry (SName saved) (SID saved) ODelete);
        mret (NewAuthStrategyResponse ExecuteSuccess req)
  end.
Definition DeleteStrategies (ctx : RequestContext) (reqs : list (option ApiStrategy)) : auth_handler (list AuthResponse) :=
  in_turn (fun _ req => DeleteStrategy ctx req) 0 reqs.

(** ** Reading *)

(** [fillPrincipalInfo]: the principals that the cache knows. *)
Definition fillPrincipalInfo (ps : list Principal) : ApiPrincipals :=
  mkApiPrincipals
    (omap (fun p => if decide (PrincipalRole p = PrincipalUser)
                    then (fun u => mkApiPrincipal (Some (UID u)) (Some (UName u))) <$> GetUserByID uc (PrincipalID p) else None) ps)
    (omap (fun p => if decide (PrincipalRole p = PrincipalUser) then None
                    else (fun g => mkApiPrincipal (Some (GID g)) (Some (GName g))) <$> GetGroup uc (PrincipalID p)) ps).

(** One of the three loops of [fillResourceInfo]: after a star nothing is added. *)
Definition fillEntries (find : string -> option ResourceEntry) (ids : list string) : list ResourceEntry :=
  if decide ("*" ∈ ids) then [mkResourceEntry (Some "*") (Some "*") (Some "*")] else omap find ids.
Definition ids_of (resType : Z) (resources : list StrategyResource) : list string := ResID <$> filter (fun r => ResType r = resType) resources.
Definition fillResourceInfo (resources : list StrategyResource) : StrategyResources :=
  mkResources
    (fillEntries (fun id => (fun name => mkResourceEntry (Some name) (Some name) (Some name)) <$> namespaceCache id) (ids_of Namespaces resources))
    (fillEntries (fun id => (fun '(id, ns, name) => mkResourceEntry (Some id) (Some ns) (Some name)) <$> serviceCache id) (ids_of Services resources))
    (fillEntries (fun id => n ← ParseUint 64 id; (fun '(ns, name) => mkResourceEntry (Some id) (Some ns) (Some name)) <$> configGroupCache n)
      (ids_of ConfigGroups resources)).

Definition authStrategy2Api (s : StrategyDetail) : ApiStrategy :=
  mkApiStrategy (Some (SID s)) (Some (SName s)) (Some (SOwner s)) (Some (SComment s)) None None (SAction s) (Some (SDefault s))
    (Some (Time2String (SCreateTime s))) (Some (Time2String (SModifyTime s))).
Definition authStrategyFull2Api (s : StrategyDetail) : ApiStrategy :=
  mkApiStrategy (Some (SID s)) (Some (SName s)) (Some (SOwner s)) (Some (SComment s)) (Some (fillPrincipalInfo (Principals s)))
    (Some (fillResourceInfo (Resources s))) (SAction s) (Some (SDefault s)) (Some (Time2String (SCreateTime s))) (Some (Time2String (SModifyTime s))).

Definition StrategyFilterAttributes : list string :=
  ["id"; "name"; "owner"; "offset"; "limit"; "principal_id"; "principal_type"; "res_id"; "res_type"; "default"; "show_detail"].
Definition resTypeFilter (v : string) : option string :=
  if decide (v = "namespace") then Some "0" else if decide (v = "service") then Some "1" else if decide (v = "config_group") then Some "2" else None.
Definition principalTypeFilter (v : string) : option string :=
  if decide (v = "user") then Some "1" else if decide (v = "group" \/ v = "groups") then Some "2" else None.

Definition parseStrategySearchArgs (ctx : RequestContext) (filters : gmap string string) : gmap string string :=
  let filters := match filters !! "res_type" with Some v => <["res_type" := default "0" (resTypeFilter v)]> filters | None => filters end in
  let filters := match filters !! "principal_type" with Some v => <["principal_type" := default "1" (principalTypeFilter v)]> filters | None => filters end in
  if bool_decide (ParseUserRole ctx <> AdminUserRole) && bool_decide (filters !! "res_id" = None) then
    let filters := <["owner" := ParseOwnerID ctx]> filters in
    if bool_decide (filters !! "principal_id" = None) && negb (ParseIsOwner ctx)
    then <["principal_type" := "1"]> (<["principal_id" := ParseUserID ctx]> filters) else filters
  else filters.

Definition GetStrategies (ctx : RequestContext) (query : gmap string string) : auth_handler (AuthBatchQuery ApiStrategy) :=
  if decide (map_Forall (fun k _ => k ∈ StrategyFilterAttributes) query) then
    let '(filters, parsed) := ParseOffsetAndLimit (parseStrategySearchArgs ctx query) in
    match parsed with
    | Fail _ => mret (NewAuthBatchQueryResponse InvalidParameter)
    | Okay (offset, limit) =>
        r ← attempt (on_accounts (bolt_GetStrategies range filters offset limit));
        match r with
        | Fail _ => mret (NewAuthBatchQueryResponse StoreLayerException)
        | Okay (total, strategies) =>
            let toApi := if decide (filter_value query "show_detail" = "true") then authStrategyFull2Api else authStrategy2Api in
            mret (mkQuery ExecuteSuccess total (wrap_u 32 (Z.of_nat (length strategies))) (toApi <$> strategies))
        end
    end
  else mret (NewAuthBatchQueryResponse InvalidParameter).

Definition canView (ctx : RequestContext) (s : StrategyDetail) : bool :=
  ParseIsOwner ctx && (bool_decide (SOwner s = ParseUserID ctx) || bool_decide (ParseUserRole ctx = AdminUserRole)) ||
  existsb (fun p => bool_decide (PrincipalRole p = PrincipalUser /\ PrincipalID p = ParseUserID ctx) ||
                    bool_decide (PrincipalRole p = PrincipalGroup) && IsUserInGroup uc (ParseUserID ctx) (PrincipalID p)) (Principals s).

Definition GetStrategy (ctx : RequestContext) (req : option ApiStrategy) : auth_handler AuthResponse :=
  let id := GetValue (req ≫= asId) in
  if decide (id = "") then refuse EmptyQueryParameter
  else
    ret ← stored_or (bolt_GetStrategyDetail id) (fun _ => NewAuthResponse StoreLayerException);
    match ret with
    | None => raise (NewAuthStrategyResponse NotFoundAuthStrategyRule req)
    | Some ret =>
        if canView ctx ret then mret (NewAuthStrategyResponse ExecuteSuccess (Some (authStrategyFull2Api ret)))
        else raise (NewAuthStrategyResponse NotAllowedAccess req)
    end.

(** The first occurrence of each resource; the types that are not namespaces or
    services are one. *)
Definition same_kind (a b : Z) : bool :=
  if decide (a = Namespaces \/ a = Services) then bool_decide (a = b) else negb (bool_decide (b = Namespaces \/ b = Services)).
Definition resourceDeduplication (resources : list StrategyResource) : list StrategyResource :=
  reverse (foldl (fun ret res =>
    if existsb (fun r => same_kind (ResType res) (ResType r) && bool_decide (ResID r = ResID res)) ret then ret else res :: ret) [] resources).

Fixpoint groupResources (groupIds : list string) : adb (list StrategyResource) :=
  match groupIds with
  | [] => mret []
  | id :: ids => res ← bolt_GetStrategyResources range id PrincipalGroup; rest ← groupResources ids; mret (res ++ rest)
  end.

Definition GetPrincipalResources (query : gmap string string) : auth_handler AuthResponse :=
  let principalId := filter_value query "principal_id" in
  if decide (query = ∅) then refuse EmptyRequest
  else if decide (principalId = "") then refuse EmptyQueryParameter
  else
    let principalRole := if decide (principalTypeFilter (filter_value query "principal_type") = Some "2") then PrincipalGroup else PrincipalUser in
    let groupIds := if decide (principalRole = PrincipalUser) then GetUserLinkGroupIds uc principalId else [] in
    resources ← stored_or (groupResources groupIds) (fun _ => NewAuthResponse StoreLayerException);
    pResources ← stored_or (bolt_GetStrategyResources range principalId principalRole) (fun _ => NewAuthResponse StoreLayerException);
    mret (mkAuthResponse ExecuteSuccess (AboutResources (fillResourceInfo (resourceDeduplication (resources ++ pResources))))).

(** ** Behind the authorization ([strategy_authability.go]) *)

Definition deny_strategy (req : option ApiStrategy) (code : Code) : auth_handler AuthResponse := raise (NewAuthStrategyResponse code req).
#[local] Abbreviation verified := (verified AuthOption uc).

Definition auth_CreateStrategy (draws : Draws) ctx (req : option ApiStrategy) :=
  verified true true (deny_strategy req) (fun ctx => CreateStrategy draws ctx req) ctx.
Definition auth_UpdateStrategies (draws : nat -> Draws) ctx (reqs : list (option ApiModifyStrategy)) :=
  verified true true deny_batch (fun ctx => UpdateStrategies draws ctx reqs) ctx.
Definition auth_DeleteStrategies ctx (reqs : list (option ApiStrategy)) := verified true true deny_batch (fun ctx => DeleteStrategies ctx reqs) ctx.
Definition auth_GetStrategies ctx (query : gmap string string) := verified false false deny_query (fun ctx => GetStrategies ctx query) ctx.
Definition auth_GetStrategy ctx (req : option ApiStrategy) := verified false false deny_auth (fun ctx => GetStrategy ctx req) ctx.
Definition auth_GetPrincipalResources ctx (query : gmap string string) := verified false false deny_auth (fun _ => GetPrincipalResources query) ctx.

End server.
