(* ===== verification/AccountMachine.v ===== *)
(** * The account machine: what the account API may do to the tables

    [transition] is the abstract specification of the account API
    ([src/auth/defaultauth/user.go], [group.go], [strategy.go]): each of its rules
    is one thing that a call may do to the tables of users, groups and
    strategies, with the conditions under which it may.  [serve] is a request of
    the API handled by the code; [handlers_follow_the_machine] is the refinement:
    whatever the request and whatever fails, the tables make one transition. *)

From S2P Require Import Prelude Effects GoStrings Hash Utils BaseCache UserCache StrategyCache Cipher Token AuthCheck InstanceStore AccountStore AccountApi UserServer GroupServer StrategyServer.
From Stdlib Require Import ZArith Lia Ascii.
From stdpp Require Import base tactics list gmap strings.

Open Scope Z_scope.

(** ** The machine *)

(** What does not change about an account, a group, a strategy. *)
Definition same_account (u u' : User) : Prop :=
  UID u' = UID u /\ UName u' = UName u /\ UOwner u' = UOwner u /\ USource u' = USource u /\ UType u' = UType u /\
  UValid u' = UValid u /\ UCreateTime u' = UCreateTime u.
Definition same_group (g g' : UserGroupDetail) : Prop :=
  GID g' = GID g /\ GName g' = GName g /\ GOwner g' = GOwner g /\ GValid g' = GValid g /\ GCreateTime g' = GCreateTime g.
Definition same_rule (r r' : strategyForStore) : Prop :=
  rID r' = rID r /\ rName r' = rName r /\ rOwner r' = rOwner r /\ rDefault r' = rDefault r /\ rValid r' = rValid r /\
  (rDefault r = true -> rUsers r' = rUsers r /\ rGroups r' = rGroups r).

Section machine.
  (** [ids]: the ids a new row may get. *)
  Context (uc : userCache) (ctx : RequestContext) (now : Z) (ids : list string).

Definition admin : Prop := ParseUserRole ctx = AdminUserRole.
(** A member or the owner, as the cache knows the group. *)
Definition member (gid : string) : Prop := exists c, GetGroup uc gid = Some c /\ (ParseUserID ctx ∈ UserIds c \/ GOwner c = ParseUserID ctx).
Definition known (id : string) : Prop := is_Some (GetUserByID uc id).

Inductive transition : tables -> tables -> Prop :=
| Stay t : transition t t
| UserCreated us gs ss u uuids :
    UID u ∈ ids -> uuids.1 ∈ ids -> UID u <> "" -> UValid u = true -> UModifyTime u = now ->
    UType u = convertCreateUserRole (ParseUserRole ctx) -> UType u = SubAccountUserRole -> UOwner u = ParseOwnerID ctx -> UOwner u <> "" ->
    (forall k v, us !! k = Some v -> UName v = UName u -> UOwner v = UOwner u -> UValid v = false) ->
    transition (us, gs, ss)
      (<[UID u := u]> us, gs, <[uuids.1 := defaultRule uuids PrincipalUser (UID u) (UName u) (UOwner u)]> ss)
| UserChanged us gs ss u u' :
    us !! UID u = Some u -> UValid u = true -> checkUserViewPermission ctx u = true -> same_account u u' -> UModifyTime u' = now ->
    transition (us, gs, ss) (<[UID u := u']> us, gs, ss)
| UserDeleted us gs ss ss' u :
    us !! UID u = Some u -> UValid u = true -> checkUserViewPermission ctx u = true -> UID u <> ParseOwnerID ctx ->
    (UType u = OwnerUserRole -> count (filter (fun kv => UValid kv.2 = true /\ UOwner kv.2 = UID u) us) = 0) ->
    cleaned now PrincipalUser (UID u) ss ss' ->
    transition (us, gs, ss) (<[UID u := dropUser now u]> us, gs, ss')
| GroupCreated us gs ss g uuids :
    GID g ∈ ids -> uuids.1 ∈ ids -> GID g <> "" -> GValid g = true -> GModifyTime g = now ->
    GOwner g = ParseOwnerID ctx -> GOwner g <> "" -> (forall id, id ∈ UserIds g -> known id) ->
    transition (us, gs, ss)
      (us, <[GID g := g]> (without_invalid (GName g) (GOwner g) gs),
       <[uuids.1 := defaultRule uuids PrincipalGroup (GID g) (GName g) (GOwner g)]> ss)
| GroupChanged us gs ss g g' :
    gs !! GID g = Some g -> GValid g = true -> admin \/ GOwner g = ParseUserID ctx \/ member (GID g) ->
    same_group g g' -> GModifyTime g' = now -> (forall id, id ∈ UserIds g' -> id ∈ UserIds g \/ known id) ->
    transition (us, gs, ss) (us, <[GID g := g']> gs, ss)
| GroupDeleted us gs ss ss' g :
    gs !! GID g = Some g -> GValid g = true -> admin \/ GOwner g = ParseUserID ctx -> cleaned now PrincipalGroup (GID g) ss ss' ->
    transition (us, gs, ss) (us, <[GID g := dropGroup now g]> gs, ss')
| StrategyCreated us gs ss r :
    rID r ∈ ids -> rDefault r = false -> rValid r = true -> rModifyTime r = now -> rOwner r = ParseOwnerID ctx ->
    (forall id, id ∈ rUsers r -> known id) ->
    transition (us, gs, ss) (us, gs, <[rID r := r]> (without_invalid_rules (rName r) (rOwner r) ss))
| StrategyChanged us gs ss r r' :
    ss !! rID r = Some r -> rValid r = true -> admin \/ ParseIsOwner ctx = true /\ rOwner r = ParseUserID ctx ->
    same_rule r r' -> rModifyTime r' = now ->
    transition (us, gs, ss) (us, gs, <[rID r := r']> ss)
| StrategyDeleted us gs ss r :
    ss !! rID r = Some r -> rValid r = true -> rDefault r = false -> rOwner r = ParseUserID ctx ->
    transition (us, gs, ss) (us, gs, <[rID r := invalidate now r]> ss)
| ResourcesLinked us gs ss ss' remove m :
    relinked now remove m ss ss' -> transition (us, gs, ss) (us, gs, ss').

End machine.

(** Rows are kept under their ids. *)
Definition keyed (t : tables) : Prop :=
  map_Forall (fun k u => UID u = k) t.1.1 /\ map_Forall (fun k g => GID g = k) t.1.2 /\ map_Forall (fun k r => rID r = k) t.2.

(** ** Requests *)

(** The calls of the API that write, one by one, and what [AfterResourceOperation]
    asks of the store. *)
Inductive account_call :=
| CreateUserCall (req : option ApiUser)
| UpdateUserCall (req : option ApiUser)
| UpdatePasswordCall (req : option ModifyUserPassword)
| UpdateUserTokenCall (req : option ApiUser)
| ResetUserTokenCall (req : option ApiUser)
| DeleteUserCall (req : option ApiUser)
| CreateGroupCall (req : option ApiGroup)
| UpdateGroupCall (req : option ApiModifyGroup)
| DeleteGroupCall (req : option ApiGroup)
| UpdateGroupTokenCall (req : option ApiGroup)
| ResetGroupTokenCall (req : option ApiGroup)
| CreateStrategyCall (req : option ApiStrategy)
| UpdateStrategyCall (req : option ApiModifyStrategy)
| DeleteStrategyCall (req : option ApiStrategy)
| LinkCall (remove : bool) (links : list (string * StrategyResource)).

(** The ids that a call may give. *)
Definition new_ids (draws : Draws) (c : account_call) : list string :=
  [dId draws; (dStrategy draws).1] ++
  match c with CreateUserCall (Some req) => if decide (GetValue (auId req) = "") then [] else [GetValue (auId req)] | _ => [] end.

Section refinement.
  Context (range : forall A, gmap string A -> list (string * A)).
  Context (range_ok : forall A (m : gmap string A), range A m ≡ₚ map_to_list m).
  Context (AuthOption : AuthConfig) (recording : bool).
  Context (GenerateFromPassword : string -> string -> option string) (CompareHashAndPassword : string -> string -> comparison).
  Context (uc : userCache) (namespaceCache : string -> option string) (serviceCache : string -> option (string * string * string)).

Definition serve (c : account_call) (draws : Draws) (ctx : RequestContext) : auth_handler AuthResponse :=
  match c with
  | CreateUserCall req => CreateUser range AuthOption recording GenerateFromPassword draws ctx req
  | UpdateUserCall req => UpdateUser recording ctx req
  | UpdatePasswordCall req => UpdateUserPassword GenerateFromPassword CompareHashAndPassword draws ctx req
  | UpdateUserTokenCall req => UpdateUserToken recording ctx req
  | ResetUserTokenCall req => ResetUserToken AuthOption recording draws ctx req
  | DeleteUserCall req => DeleteUser range recording ctx req
  | CreateGroupCall req => CreateGroup range AuthOption recording uc draws ctx req
  | UpdateGroupCall req => UpdateGroup recording uc ctx req
  | DeleteGroupCall req => DeleteGroup range recording ctx req
  | UpdateGroupTokenCall req => UpdateGroupToken recording ctx req
  | ResetGroupTokenCall req => ResetGroupToken AuthOption recording draws ctx req
  | CreateStrategyCall req => CreateStrategy recording uc namespaceCache serviceCache draws ctx req
  | UpdateStrategyCall req => UpdateStrategy recording uc namespaceCache serviceCache draws ctx req
  | DeleteStrategyCall req => DeleteStrategy recording ctx req
  | LinkCall remove links =>
      _ ← stored_or (operateStrategyResources range remove links) authStoreError; mret (NewAuthResponse ExecuteSuccess)
  end.

(** ** The refinement, handler by handler *)

Definition same (s s' : auth_server) : Prop := aclock (storage s') = aclock (storage s) /\ tabs (storage s') = tabs (storage s).
(** However the call ended, the tables satisfy [T]. *)
Definition tables_end {A} (s : auth_server) (T : tables -> Prop) (s' : auth_server) (_ : result AuthResponse A) : Prop :=
  aclock (storage s') = aclock (storage s) /\ T (tabs (storage s')).

Section steps.
  Context (P : panic -> Prop).

Lemma runs_stored_read {A B} (m : adb A) f (k : A -> auth_handler B) s (R : A -> tables -> Prop) (Q : auth_server -> result AuthResponse B -> Prop) :
  does m (storage s) R -> (forall a t, R a t -> t = tabs (storage s)) -> (forall e s', same s s' -> Q s' (Fail (f e))) ->
  (forall a s', same s s' -> R a (tabs (storage s)) -> runs P (k a) s' Q) -> runs P (a ← stored_or m f; k a) s Q.
Proof.
  intros Hm Ht HF HO. apply runs_bind. eapply runs_stored; [exact Hm| |].
  - intros a w' Hc HR. pose proof (Ht _ _ HR) as Htab. apply HO; [by split|]. by rewrite <- Htab.
  - intros e w' Hc Htab. by apply HF.
Qed.

Lemma runs_write {B} (m : adb unit) f (k : auth_handler B) s s1 (R : unit -> tables -> Prop) T :
  does m (storage s1) R -> same s s1 -> T (tabs (storage s)) -> (forall t, R () t -> T t) ->
  (forall s', aclock (storage s') = aclock (storage s) -> T (tabs (storage s')) -> runs P k s' (tables_end s T)) ->
  runs P (_ ← stored_or m f; k) s1 (tables_end s T).
Proof.
  intros Hm [Hc Hs] HT HR Hk. apply runs_bind. eapply runs_stored; [exact Hm| |].
  - intros [] w' Hc' HR'. apply Hk; [by rewrite <- Hc|]. cbn. by apply HR.
  - intros e w' Hc' Htab. split; cbn; [by rewrite Hc', Hc|]. by rewrite Htab, Hs.
Qed.

Lemma runs_done {B} entry (b : B) s s1 T :
  aclock (storage s1) = aclock (storage s) -> T (tabs (storage s1)) ->
  runs P (_ ← RecordHistory recording entry; mret b) s1 (tables_end s T).
Proof. intros Hc HT. apply runs_bind, runs_recorded. intros h. by apply runs_ret. Qed.

End steps.

Section follow.
  Context (ctx : RequestContext) (s : auth_server).
  Context (Hkeyed : keyed (tabs (storage s))).

(** What is asked of a handler: its only panics are nil dereferences. *)
Definition follows {A} (ids : list string) (m : auth_handler A) : Prop :=
  runs (eq NilDereference) m s (tables_end s (transition uc ctx (aclock (storage s)) ids (tabs (storage s)))).

Definition reach (ids : list string) : tables -> Prop := transition uc ctx (aclock (storage s)) ids (tabs (storage s)).

Lemma reach_same {A} ids s' (r : result AuthResponse A) : same s s' -> tables_end s (reach ids) s' r.
Proof. intros [Hc Hs]. split; [done|]. rewrite Hs. apply Stay. Qed.

Lemma follow_raise {A} ids s' rsp : same s s' -> runs (eq NilDereference) (raise rsp : auth_handler A) s' (tables_end s (reach ids)).
Proof. intros Hs. apply runs_raise. by apply reach_same. Qed.

Lemma same_tables_refl : same s s.
Proof. done. Qed.
Lemma same_tables_trans s1 s2 s3 : same s1 s2 -> same s2 s3 -> same s1 s3.
Proof. intros [H1 H2] [H3 H4]. split; congruence. Qed.

(** The user that a request names. *)
Lemma follow_viewed {B} ids id f nf fb (k : User -> auth_handler B) :
  (forall u s', same s s' -> tblUser (storage s) !! UID u = Some u -> UValid u = true -> checkUserViewPermission ctx u = true ->
     UID u = GetValue id -> runs (eq NilDereference) (k u) s' (tables_end s (reach ids))) ->
  runs (eq NilDereference) (u ← viewedUser ctx id f nf fb; k u) s (tables_end s (reach ids)).
Proof.
  intros Hk. apply runs_bind. unfold viewedUser. eapply runs_stored_read; [apply does_GetUser|by intros ? ? [-> _]|intros e s' Hs; by apply reach_same|].
  intros u s' Hs (_ & Hid & Hu). destruct u as [u|]; [|by apply runs_raise, reach_same].
  destruct (tblUser (storage s) !! GetValue id) as [u'|] eqn:Hl; [|done]. cbn in Hu. unfold valid_user in Hu.
  destruct (UValid u') eqn:Hv; [|done]. injection Hu as ->.
  destruct (checkUserViewPermission ctx u') eqn:Hp; [|by apply runs_raise, reach_same]. apply runs_ret.
  pose proof (proj1 Hkeyed _ _ Hl) as Hkey. cbn in Hkey. apply Hk; [done|by rewrite Hkey|done|done|done].
Qed.

(** A user is changed: the fields that identify it stay. *)
Lemma follow_update ids u d f {B} (k : auth_handler B) s1 :
  same s s1 -> tblUser (storage s) !! UID u = Some u -> UValid u = true -> checkUserViewPermission ctx u = true -> UID d = UID u ->
  (forall s', aclock (storage s') = aclock (storage s) -> reach ids (tabs (storage s')) -> runs (eq NilDereference) k s' (tables_end s (reach ids))) ->
  runs (eq NilDereference) (_ ← stored_or (bolt_UpdateUser d) f; k) s1 (tables_end s (reach ids)).
Proof.
  intros Hs Hl Hv Hp Hd Hk. eapply (runs_write _ _ _ _ s); [apply does_UpdateUser|done|apply Stay| |done].
  intros t (_ & _ & ->). destruct Hs as [Hc Hs]. unfold tabs in Hs. injection Hs as Hu Hg Hr. rewrite Hc, Hu, Hg, Hr, Hd.
  replace (alter _ _ (tblUser (storage s))) with (<[UID u := changeUser d (aclock (storage s)) u]> (tblUser (storage s))).
  - unfold reach, tabs. by apply UserChanged.
  - apply map_eq. intros j. destruct (decide (j = UID u)) as [->|Hj].
    + by rewrite lookup_insert_eq, lookup_alter_eq, Hl.
    + by rewrite lookup_insert_ne, lookup_alter_ne.
Qed.

Lemma follow_done {B} ids entry (b : B) s' :
  aclock (storage s') = aclock (storage s) -> reach ids (tabs (storage s')) ->
  runs (eq NilDereference) (_ ← RecordHistory recording entry; mret b) s' (tables_end s (reach ids)).
Proof. apply runs_done. Qed.

Lemma UpdateUser_follows ids req : follows ids (UpdateUser recording ctx req).
Proof.
  unfold follows, UpdateUser. destruct (checkUpdateUser req), req as [r|]; [by apply follow_raise..| |done].
  apply follow_viewed. intros u s' Hs Hl Hv Hp _. cbn. eapply follow_update; [done..|]. intros s2. apply follow_done.
Qed.

Lemma UpdateUserPassword_follows ids draws req :
  follows ids (UpdateUserPassword GenerateFromPassword CompareHashAndPassword draws ctx req).
Proof.
  unfold follows, UpdateUserPassword. destruct req as [r|]; [|done]. apply runs_bind, (runs_deref _ _ r); [done|].
  apply follow_viewed. intros u s' Hs Hl Hv Hp _. destruct (updateUserPasswordAttribute _ _ _ _ _ _) as [[d need]|] eqn:Hd; [|by apply follow_raise].
  destruct need; [|by apply follow_raise]. cbn [negb].
  assert (UID d = UID u) as Hid.
  { revert Hd. unfold updateUserPasswordAttribute. repeat case_match; intros [=]; by subst. }
  eapply (follow_update _ u d); [done..|]. intros s2 Hc2 HT. by apply runs_ret.
Qed.

Lemma UpdateUserToken_follows ids req : follows ids (UpdateUserToken recording ctx req).
Proof.
  unfold follows, UpdateUserToken. destruct (checkUpdateUser req), req as [r|]; [by apply follow_raise..| |done].
  apply follow_viewed. intros u s' Hs Hl Hv Hp _. destruct (_ && _); [by apply follow_raise|].
  eapply (follow_update _ u); [done..|]. intros s2. apply follow_done.
Qed.

Lemma ResetUserToken_follows ids draws req : follows ids (ResetUserToken AuthOption recording draws ctx req).
Proof.
  unfold follows, ResetUserToken. destruct (checkUpdateUser req), req as [r|]; [by apply follow_raise..| |done].
  apply follow_viewed. intros u s' Hs Hl Hv Hp _. destruct (createUserToken _ _ _ _); [|by apply follow_raise].
  eapply (follow_update _ u); [done..|]. intros s2. apply follow_done.
Qed.

Lemma DeleteUser_follows ids req : follows ids (DeleteUser range recording ctx req).
Proof.
  unfold follows, DeleteUser. destruct req as [r|]; [|done]. apply runs_bind, (runs_deref _ _ r); [done|].
  apply follow_viewed. intros u s' Hs Hl Hv Hp _. case_decide as Ho; [by apply follow_raise|].
  assert (forall s2, same s s2 -> (UType u = OwnerUserRole -> count (filter (fun kv => UValid kv.2 = true /\ UOwner kv.2 = UID u) (tblUser (storage s))) = 0) ->
    runs (eq NilDereference) (_ ← stored_or (bolt_DeleteUser range u) authStoreError; _ ← RecordHistory recording (userRecordEntry u ODelete);
      mret (NewUserResponse ExecuteSuccess (Some r))) s2 (tables_end s (reach ids))) as Hdel.
  { intros s2 Hs2 Hsub. eapply (runs_write _ _ _ _ s); [by apply does_DeleteUser|done|apply Stay| |intros s3; apply follow_done].
    intros t (_ & ss' & Hcl & ->). destruct Hs2 as [Hc2 Ht2]. unfold tabs in Ht2. injection Ht2 as Hu Hg Hr. rewrite Hc2, Hr in Hcl. rewrite Hc2, Hu, Hg.
    replace (alter _ _ (tblUser (storage s))) with (<[UID u := dropUser (aclock (storage s)) u]> (tblUser (storage s))).
    - unfold reach, tabs. by apply UserDeleted.
    - apply map_eq. intros j. destruct (decide (j = UID u)) as [->|Hj]; [by rewrite lookup_insert_eq, lookup_alter_eq, Hl|by rewrite lookup_insert_ne, lookup_alter_ne]. }
  case_decide as Ht; [|apply runs_bind, runs_ret, Hdel; [done|by intros ?]].
  apply runs_bind. eapply runs_stored_read; [apply does_GetSubCount|by intros ? ? [-> _]|intros e s2 Hs2; apply reach_same; by eauto using same_tables_trans|].
  intros n s2 Hs2 [_ Hn]. assert (same s s2) as Hss by (by eauto using same_tables_trans). case_decide as H0; [by apply follow_raise|].
  apply runs_ret, Hdel; [done|]. intros _. destruct Hs as [_ Hst]. injection Hst as Hu _ _. by rewrite <- Hu, <- Hn.
Qed.

Lemma createUserModel_spec draws now req role u :
  createUserModel AuthOption GenerateFromPassword draws now req role = Some u ->
  UID u = (if decide (GetValue (auId req) = "") then dId draws else GetValue (auId req)) /\
  UName u = GetValue (auName req) /\ UType u = convertCreateUserRole role /\ UValid u = true /\
  UOwner u = (if decide (convertCreateUserRole role = SubAccountUserRole) then GetValue (auOwner req) else "").
Proof.
  unfold createUserModel. destruct (GenerateFromPassword _ _); [|done]. destruct (createUserToken _ _ _ _); [|done]. by intros [= <-].
Qed.

Lemma CreateUser_follows draws req :
  follows (new_ids draws (CreateUserCall req)) (CreateUser range AuthOption recording GenerateFromPassword draws ctx req).
Proof.
  unfold follows. set (ids := new_ids _ _). unfold CreateUser. destruct req as [r|]; [|done]. apply runs_bind, (runs_deref _ _ r); [done|].
  destruct (checkCreateUser _); [by apply follow_raise|]. set (req := set_auOwner r (ParseOwnerID ctx)).
  set (owner := if decide (convertCreateUserRole _ = _) then _ else _). apply runs_bind.
  assert (forall s1, same s s1 -> runs (eq NilDereference)
    (user ← stored_or (bolt_GetUserByName range (GetValue (auName req)) owner) (userException req);
     match user with
     | Some _ => raise (NewUserResponse UserExisted (Some req))
     | None => createUser AuthOption recording GenerateFromPassword draws ctx req
     end) s1 (tables_end s (reach ids))) as Hrest.
  { intros s1 Hs1. eapply runs_stored_read; [by apply does_GetUserByName|by intros ? ? [-> _]|intros e s2 Hs2; apply reach_same; by eauto using same_tables_trans|].
    intros u s2 Hs2 [_ Hu]. assert (same s s2) as Hss by (by eauto using same_tables_trans). destruct u; [by apply follow_raise|].
    unfold createUser. apply runs_bind, runs_get. destruct (createUserModel _ _ _ _ _ _) as [d|] eqn:Hd; [|by apply follow_raise].
    apply createUserModel_spec in Hd as (Hid & Hname & Htype & Hvalid & Howner).
    eapply (runs_write _ _ _ _ s); [apply does_AddUser|done|apply Stay| |intros s3; apply follow_done].
    intros t (Hd1 & _ & Hd2 & _ & ->). destruct Hss as [Hc2 Ht2]. unfold tabs in Ht2. injection Ht2 as Htu Htg Htr. rewrite Hc2, Htu, Htg, Htr.
    destruct Hs1 as [_ Ht1]. unfold tabs in Ht1. injection Ht1 as Hu1 _ _. rewrite Hu1 in Hu.
    change (UID d) with (UID (initUser (aclock (storage s)) d)). change (UName d) with (UName (initUser (aclock (storage s)) d)).
    change (UOwner d) with (UOwner (initUser (aclock (storage s)) d)).
    assert (convertCreateUserRole (ParseUserRole ctx) = SubAccountUserRole) as Hsub by (rewrite Howner in Hd2; by case_decide).
    assert (UOwner d = ParseOwnerID ctx) as Ho by (by rewrite Howner, decide_True).
    apply UserCreated; cbn; try done; try congruence.
    - unfold ids, new_ids. rewrite Hid. change (auId req) with (auId r). destruct (decide (GetValue (auId r) = "")); set_solver.
    - unfold ids, new_ids. set_solver.
    - rewrite Ho, Hname. unfold owner in Hu. rewrite decide_True in Hu by done. exact Hu. }
  case_decide as Hown; [by apply runs_ret, Hrest|].
  eapply runs_stored_read; [apply does_GetUser|by intros ? ? [-> _]|intros e s1 Hs1; by apply reach_same|].
  intros o s1 Hs1 _. apply runs_bind. destruct o as [o|]; [|done]. apply (runs_deref _ _ o); [done|].
  case_decide; [by apply follow_raise|]. by apply runs_ret, Hrest.
Qed.

(** Groups. *)

Lemma known_users_spec l : known_users uc l = true -> forall id, id ∈ l -> known uc id.
Proof. unfold known_users, known. rewrite forallb_forall. intros H id Hin. eapply bool_decide_eq_true_1, H. by apply list_elem_of_In. Qed.

Lemma CreateGroup_follows c draws req :
  c = CreateGroupCall req -> follows (new_ids draws c) (CreateGroup range AuthOption recording uc draws ctx req).
Proof.
  intros ->. unfold follows. set (ids := new_ids _ _). unfold CreateGroup. destruct req as [r|]; [|done]. apply runs_bind, (runs_deref _ _ r); [done|].
  set (req := set_agOwner r (ParseOwnerID ctx)). unfold checkCreateGroup.
  destruct (known_users uc (member_ids (default [] (agUsers req)))) eqn:Hk; [|by apply follow_raise].
  eapply runs_stored_read; [by apply does_GetGroupByName|by intros ? ? [-> _]|intros e s1 Hs1; by apply reach_same|].
  intros g s1 Hs1 [_ Hown]. destruct g; [by apply follow_raise|]. apply runs_bind, runs_get. unfold createGroupModel.
  destruct (createGroupToken _ _ _ _) as [token|]; [|by apply follow_raise].
  eapply (runs_write _ _ _ _ s); [apply does_AddGroup|done|apply Stay| |intros s3; apply follow_done].
  intros t (Hid & _ & ->). destruct Hs1 as [Hc1 Ht1]. unfold tabs in Ht1. injection Ht1 as Htu Htg Htr. rewrite Hc1, Htu, Htg, Htr.
  cbn [GID GName GOwner] in *. set (g := initGroup _ _).
  change (reach ids (tblUser (storage s), <[GID g := g]> (without_invalid (GName g) (GOwner g) (tblGroup (storage s))),
    <[(dStrategy draws).1 := defaultRule (dStrategy draws) PrincipalGroup (GID g) (GName g) (GOwner g)]> (tblStrategy (storage s)))).
  apply GroupCreated; cbn; try done.
  - unfold ids, new_ids. set_solver.
  - unfold ids, new_ids. set_solver.
  - intros id Hin. apply elem_of_list_to_set in Hin. by eapply known_users_spec.
Qed.

Lemma follow_group {B} ids id (k : UserGroupDetail -> auth_handler B) :
  (forall g s', same s s' -> tblGroup (storage s) !! GID g = Some g -> GValid g = true -> GID g = id ->
     runs (eq NilDereference) (k g) s' (tables_end s (reach ids))) ->
  runs (eq NilDereference) (g ← getGroupFromDB id; k g) s (tables_end s (reach ids)).
Proof.
  intros Hk. apply runs_bind. unfold getGroupFromDB. eapply runs_stored_read; [apply does_GetGroup|by intros ? ? [-> _]|intros e s' Hs; by apply reach_same|].
  intros g s' Hs (_ & Hid & Hg). destruct g as [g|]; [|by apply runs_raise, reach_same]. apply runs_ret.
  destruct (tblGroup (storage s) !! id) as [g'|] eqn:Hl; [|done]. cbn in Hg. unfold valid_group in Hg.
  destruct (GValid g') eqn:Hv; [|done]. injection Hg as ->. pose proof (proj1 (proj2 Hkeyed) _ _ Hl) as Hkey. cbn in Hkey.
  apply Hk; [done|by rewrite Hkey|done|done].
Qed.

Lemma updateGroupRelation_spec m (us : gset string) id : id ∈ updateGroupRelation m us -> id ∈ us \/ id ∈ AddUserIds m.
Proof.
  unfold updateGroupRelation. generalize (RemoveUserIds m). intros l.
  assert (forall l (s : gset string), id ∈ foldl (fun s id => s ∖ {[id]}) s l -> id ∈ s) as Hrem.
  { clear. intros l. induction l as [|x l IH]; intros s; cbn; [done|]. intros H%IH. set_solver. }
  intros H%Hrem. revert us H. generalize (AddUserIds m). intros la. induction la as [|x la IH]; intros us; cbn; [by left|].
  intros [H|H]%IH; set_solver.
Qed.

Lemma follow_group_update ids g m f {B} (k : auth_handler B) s1 :
  same s s1 -> tblGroup (storage s) !! GID g = Some g -> GValid g = true -> mgID m = GID g ->
  admin ctx \/ GOwner g = ParseUserID ctx \/ member uc ctx (GID g) -> (forall id, id ∈ AddUserIds m -> known uc id) ->
  (forall s', aclock (storage s') = aclock (storage s) -> reach ids (tabs (storage s')) -> runs (eq NilDereference) k s' (tables_end s (reach ids))) ->
  runs (eq NilDereference) (_ ← stored_or (bolt_UpdateGroup m) f; k) s1 (tables_end s (reach ids)).
Proof.
  intros Hs Hl Hv Hm Hp Hadd Hk. eapply (runs_write _ _ _ _ s); [apply does_UpdateGroup|done|apply Stay| |done].
  intros t (row & _ & Hrow & ->). destruct Hs as [Hc Hs]. unfold tabs in Hs. injection Hs as Hu Hg Hr. rewrite Hg, Hm, Hl in Hrow. injection Hrow as <-.
  rewrite Hc, Hu, Hg, Hr. unfold reach, tabs. apply GroupChanged; try done.
  intros id Hid. apply updateGroupRelation_spec in Hid as [?|?]; [by left|right; by apply Hadd].
Qed.

Lemma dedup_elem l id : id ∈ l -> id ∈ StringSliceDeDuplication l.
Proof.
  unfold StringSliceDeDuplication. rewrite elem_of_reverse.
  assert (forall l acc, id ∈ acc \/ id ∈ l -> id ∈ foldl (fun res x => if decide (x ∈ res) then res else x :: res) acc l) as H.
  { clear. intros l. induction l as [|x l IH]; intros acc; cbn; [set_solver|]. intros Hin. apply IH. case_decide; set_solver. }
  intros Hin. apply H. by right.
Qed.

Lemma UpdateGroup_follows ids req : follows ids (UpdateGroup recording uc ctx req).
Proof.
  unfold follows, UpdateGroup. destruct (checkUpdateGroup uc ctx req) eqn:Hch, req as [r|]; [by apply follow_raise..| |done].
  apply follow_group. intros g s1 Hs Hl Hv Hid. destruct (updateGroupAttribute ctx g r) as [m need] eqn:Hm.
  destruct need; [|by apply follow_raise]. cbn [negb]. injection Hm as Hm _.
  unfold checkUpdateGroup in Hch. destruct (decide (GetValue (amgId r) = "")); [done|]. unfold preCheckGroupRelation in Hch.
  destruct (GetGroup uc (GetValue (amgId r))) as [c|] eqn:Hc; [|done].
  destruct (known_users uc _) eqn:Hk; [|done].
  eapply (follow_group_update _ g m); [done..|by rewrite <- Hm| | |intros s3; apply follow_done].
  - case_decide as Ha; [by left|]. right. right. exists c. rewrite Hid. split; [done|].
    destruct (decide (ParseUserID ctx ∈ UserIds c)); [by left|right]. rewrite bool_decide_eq_false_2 in Hch by done. cbn in Hch.
    destruct (decide (GOwner c = ParseUserID ctx)); [done|]. by rewrite bool_decide_eq_true_2 in Hch.
  - rewrite <- Hm. cbn. intros id Hin. eapply known_users_spec; [exact Hk|]. by apply dedup_elem.
Qed.

Lemma UpdateGroupToken_follows ids req : follows ids (UpdateGroupToken recording ctx req).
Proof.
  unfold follows, UpdateGroupToken. destruct req as [r|]; [|done]. apply runs_bind, (runs_deref _ _ r); [done|].
  apply follow_group. intros g s1 Hs Hl Hv Hid. destruct (_ && _) eqn:Hp; [by apply follow_raise|].
  eapply (follow_group_update _ g); [done..| | |intros s3; apply follow_done]; [|set_solver].
  apply andb_false_iff in Hp as [Hp|Hp]; apply bool_decide_eq_false in Hp; apply dec_stable in Hp; [by left|by right; left].
Qed.

Lemma ResetGroupToken_follows ids draws req : follows ids (ResetGroupToken AuthOption recording draws ctx req).
Proof.
  unfold follows, ResetGroupToken. destruct req as [r|]; [|done]. apply runs_bind, (runs_deref _ _ r); [done|].
  apply follow_group. intros g s1 Hs Hl Hv Hid. destruct (_ || _) eqn:Hp; [by apply follow_raise|].
  destruct (createGroupToken _ _ _ _); [|by apply follow_raise].
  eapply (follow_group_update _ g); [done..| | |intros s3; apply follow_done]; [|set_solver].
  apply orb_false_iff in Hp as [_ Hp]. apply bool_decide_eq_false, dec_stable in Hp. by right; left.
Qed.

Lemma DeleteGroup_follows ids req : follows ids (DeleteGroup range recording ctx req).
Proof.
  unfold follows, DeleteGroup. eapply runs_stored_read; [apply does_GetGroup|by intros ? ? [-> _]|intros e s' Hs; by apply reach_same|].
  intros g s1 Hs (_ & Hid & Hg). destruct g as [g|]; [|by apply runs_raise, reach_same].
  destruct (tblGroup (storage s) !! _) as [g'|] eqn:Hl; [|done]. cbn in Hg. unfold valid_group in Hg.
  destruct (GValid g') eqn:Hv; [|done]. injection Hg as ->. pose proof (proj1 (proj2 Hkeyed) _ _ Hl) as Hkey. cbn in Hkey.
  destruct (_ && _) eqn:Hp; [by apply follow_raise|].
  eapply (runs_write _ _ _ _ s); [by apply does_DeleteGroup|done|apply Stay| |].
  - intros t (_ & ss' & Hcl & ->). destruct Hs as [Hc2 Ht2]. unfold tabs in Ht2. injection Ht2 as Hu Hgr Hr. rewrite Hc2, Hr in Hcl. rewrite Hc2, Hu, Hgr.
    replace (alter _ _ (tblGroup (storage s))) with (<[GID g' := dropGroup (aclock (storage s)) g']> (tblGroup (storage s))).
    + unfold reach, tabs. apply GroupDeleted; [by rewrite Hkey|done| |done].
      apply andb_false_iff in Hp as [Hp|Hp]; apply bool_decide_eq_false in Hp; apply dec_stable in Hp; [by left|by right].
    + apply map_eq. intros j. destruct (decide (j = GID g')) as [->|Hj].
      * by rewrite lookup_insert_eq, lookup_alter_eq, Hkey, Hl.
      * by rewrite lookup_insert_ne, lookup_alter_ne.
  - intros s3 Hc3 HT. apply runs_bind. destruct req as [r|]; [|done]. apply (runs_deref _ _ r); [done|]. by apply follow_done.
Qed.

(** Strategies. *)

Lemma collectPrincipals_users ps (id : string) : id ∈ principalsOf PrincipalUser (collectPrincipals ps) -> checkUserExist uc ps = true -> known uc id.
Proof.
  unfold principalsOf, collectPrincipals, checkUserExist, known, collectPrincipalEntry. intros Hin Hall.
  apply elem_of_list_to_set, list_elem_of_fmap in Hin as (p & -> & Hp). apply list_elem_of_filter in Hp as [Hr Hp].
  apply elem_of_app in Hp as [Hp|Hp]; apply list_elem_of_fmap in Hp as (a & -> & Ha).
  - rewrite forallb_forall in Hall. eapply bool_decide_eq_true_1, (Hall a). by apply list_elem_of_In.
  - cbn in Hr. assert (PrincipalGroup = PrincipalUser) as [=] by (by apply Hr).
Qed.

Lemma CreateStrategy_follows c draws req :
  c = CreateStrategyCall req -> follows (new_ids draws c) (CreateStrategy recording uc namespaceCache serviceCache draws ctx req).
Proof.
  intros ->. unfold follows. set (ids := new_ids _ _). unfold CreateStrategy. destruct req as [r|]; [|done]. apply runs_bind, (runs_deref _ _ r); [done|].
  destruct (checkCreateStrategy _ _ _ _) eqn:Hch; [by apply follow_raise|]. apply runs_bind, runs_get.
  eapply (runs_write _ _ _ _ s); [apply does_AddStrategy|done|apply Stay| |intros s3; apply follow_done].
  intros t (Hid & _ & ->). cbn [SID SName SOwner createAuthStrategyModel] in *. set (d := convertForStrategyStore _).
  change (reach ids (tblUser (storage s), tblGroup (storage s), <[rID d := d]> (without_invalid_rules (rName d) (rOwner d) (tblStrategy (storage s))))).
  apply StrategyCreated; cbn; try done.
  - unfold ids, new_ids. set_solver.
  - intros id Hin. eapply collectPrincipals_users; [exact Hin|]. unfold checkCreateStrategy in Hch. cbn in Hch.
    destruct (checkName (asName r)); [|done]. destruct (negb (negb _ && _)) in Hch; [done|]. by destruct (checkUserExist uc (asPrincipals r)).
Qed.

Lemma not_default_principals ctx' req saved rsp :
  checkUpdateStrategy uc namespaceCache serviceCache ctx' req saved = Ret rsp -> rsp = None ->
  (admin ctx' \/ ParseIsOwner ctx' = true /\ SOwner saved = ParseUserID ctx') /\
  (SDefault saved = true -> collectPrincipals (amsAddPrincipals req) = [] /\ collectPrincipals (amsRemovePrincipals req) = []).
Proof.
  intros Hch ->. unfold checkUpdateStrategy in Hch. destruct (_ && _) eqn:Hp in Hch; [done|]. split.
  { apply andb_false_iff in Hp as [Hp|Hp].
    - left. apply bool_decide_eq_false in Hp. by apply dec_stable.
    - right. apply orb_false_iff in Hp as [Ho Hp]. apply bool_decide_eq_false in Hp. split; [by destruct (ParseIsOwner ctx')|symmetry; by apply dec_stable]. }
  intros Hdef. rewrite Hdef in Hch. unfold orElse, users_of, groups_of, collectPrincipals in *.
  destruct (amsAddPrincipals req) as [[au ag]|]; cbn in Hch; [|done]. destruct au; [|done]. destruct ag; [|done].
  destruct (amsRemovePrincipals req) as [[ru rg]|]; cbn in Hch; [|done]. destruct rg; [|done]. destruct ru; [|done]. done.
Qed.

Lemma UpdateStrategy_follows ids draws req :
  follows ids (UpdateStrategy recording uc namespaceCache serviceCache draws ctx req).
Proof.
  unfold follows, UpdateStrategy. eapply runs_stored_read; [apply does_GetStrategyDetail|by intros ? ? [-> _]|intros e s' Hs; by apply reach_same|].
  intros d s1 Hs1 [_ Hd]. destruct d as [saved|]; [|by apply follow_raise]. destruct req as [r|]; [|done]. apply runs_bind, (runs_deref _ _ r); [done|].
  destruct (tblStrategy (storage s) !! _) as [row|] eqn:Hl; [|done]. cbn in Hd, Hl. unfold valid_rule in Hd.
  destruct (rValid row) eqn:Hv; [|done]. injection Hd as Hsv. pose proof (proj2 (proj2 Hkeyed) _ _ Hl) as Hkey. cbn in Hkey.
  apply runs_bind. unfold lift, runs at 1. destruct (checkUpdateStrategy _ _ _ _ _ _) as [rsp|why] eqn:Hch.
  2: { revert Hch. unfold checkUpdateStrategy, orElse, users_of, groups_of. clear. repeat (case_match; cbn; try congruence). }
  destruct rsp as [rsp|]; [by apply follow_raise|]. destruct (not_default_principals _ _ _ _ Hch eq_refl) as [Hperm Hdef]. subst saved.
  destruct (updateAuthStrategyAttribute _ _ _) as [m need] eqn:Hm. destruct need; [|by apply follow_raise]. cbn [negb]. injection Hm as Hm _.
  eapply (runs_write _ _ _ _ s); [apply does_UpdateStrategy|done|apply Stay| |intros s3; apply follow_done].
  intros t (row' & Hl' & _ & ->). destruct Hs1 as [Hc Ht]. unfold tabs in Ht. injection Ht as Hu Hg Hr.
  rewrite Hr in Hl'. rewrite Hc, Hu, Hg, Hr. rewrite <- Hm in Hl'. change (tblStrategy (storage s) !! GetValue (amsId r) = Some row') in Hl'. unfold GetValue in Hl'. rewrite Hl in Hl'. injection Hl' as <-.
  destruct (updateStrategy_keeps (dStrategy draws).2 (aclock (storage s)) m row) as (H1 & H2 & H3 & H4 & H5).
  unfold reach, tabs. apply StrategyChanged; [by rewrite Hkey|done|exact Hperm| |done]. unfold same_rule. cbn. split_and!; try done.
  intros Hdf. destruct (Hdef Hdf) as [Ha Hb]. apply H5; rewrite <- Hm; cbn; done.
Qed.

Lemma DeleteStrategy_follows ids req : follows ids (DeleteStrategy recording ctx req).
Proof.
  unfold follows, DeleteStrategy. eapply runs_stored_read; [apply does_GetStrategyDetail|by intros ? ? [-> _]|intros e s' Hs; by apply reach_same|].
  intros d s1 Hs1 [_ Hd]. destruct d as [saved|]; [|by apply follow_raise].
  destruct (tblStrategy (storage s) !! _) as [row|] eqn:Hl; [|done]. cbn in Hd. unfold valid_rule in Hd.
  destruct (rValid row) eqn:Hv; [|done]. injection Hd as ->. pose proof (proj2 (proj2 Hkeyed) _ _ Hl) as Hkey. cbn in Hkey. cbn [SDefault SOwner convertForStrategyDetail].
  destruct (rDefault row) eqn:Hdf; [by apply follow_raise|]. case_decide as Ho; [by apply follow_raise|].
  eapply (runs_write _ _ _ _ s); [apply does_DeleteStrategy|done|apply Stay| |intros s3; apply follow_done].
  intros t ->. destruct Hs1 as [Hc Ht]. unfold tabs in Ht. injection Ht as Hu Hg Hr. rewrite Hc, Hu, Hg, Hr.
  replace (alter _ _ (tblStrategy (storage s))) with (<[rID row := invalidate (aclock (storage s)) row]> (tblStrategy (storage s))).
  - unfold reach, tabs. apply StrategyDeleted; [by rewrite Hkey|done..].
  - rewrite Hkey. apply map_eq. intros j. destruct (decide (j = GetValue (req ≫= asId))) as [->|Hj].
    + by rewrite lookup_insert_eq, lookup_alter_eq, Hl.
    + by rewrite lookup_insert_ne, lookup_alter_ne.
Qed.

Lemma Link_follows ids remove links :
  follows ids (_ ← stored_or (operateStrategyResources range remove links) authStoreError; mret (NewAuthResponse ExecuteSuccess)).
Proof.
  unfold follows. eapply (runs_write _ _ _ _ s); [apply does_operate; [done|apply Hkeyed]|done|apply Stay| |].
  - intros t (ss' & -> & Hrel). by eapply ResourcesLinked.
  - intros s3 Hc HT. by apply runs_ret.
Qed.

Lemma serve_follows c draws : follows (new_ids draws c) (serve c draws ctx).
Proof.
  destruct c; cbn [serve].
  - apply CreateUser_follows.
  - apply UpdateUser_follows.
  - apply UpdateUserPassword_follows.
  - apply UpdateUserToken_follows.
  - apply ResetUserToken_follows.
  - apply DeleteUser_follows.
  - by eapply CreateGroup_follows.
  - apply UpdateGroup_follows.
  - apply DeleteGroup_follows.
  - apply UpdateGroupToken_follows.
  - apply ResetGroupToken_follows.
  - by eapply CreateStrategy_follows.
  - apply UpdateStrategy_follows.
  - apply DeleteStrategy_follows.
  - apply Link_follows.
Qed.

End follow.

(** C12. Whatever the request, whoever the caller, whatever fails in the store: a call of
    the account API that writes makes one transition of the machine - or none - and the only way
    it panics is a nil dereference. *)
Theorem handlers_follow_the_machine (c : account_call) (draws : Draws) (ctx : RequestContext) (s : auth_server) :
  keyed (tabs (storage s)) ->
  match serve c draws ctx s with
  | Ret (s', _) => transition uc ctx (aclock (storage s)) (new_ids draws c) (tabs (storage s)) (tabs (storage s'))
  | Panics why => why = NilDereference
  end.
Proof.
  intros Hk. pose proof (serve_follows ctx s Hk c draws) as H. unfold follows, runs in H.
  destruct (serve c draws ctx s) as [[s' r]|why]; [apply H|by symmetry].
Qed.

End refinement.
