(* ===== verification/AccountIntegrity.v ===== *)
(** * What the account API guarantees

    The invariant of the tables: every account that is not deleted has one
    default strategy, and it is its own.  Who may change whose account; what a
    changed password, token or a deletion mean for the next login and the next
    request; and, on concrete tables, what the code does not do as it means to. *)

From S2P Require Import Prelude Effects GoStrings Hash Utils BaseCache UserCache StrategyCache Cipher Token AuthCheck InstanceStore AccountStore AccountApi UserServer GroupServer StrategyServer AccountMachine.
From Stdlib Require Import ZArith Lia Ascii.
From stdpp Require Import base tactics list gmap strings.

Open Scope Z_scope.

(** ** Default strategies *)

Definition is_role (role : Z) : Prop := role = PrincipalUser \/ role = PrincipalGroup.

(** [r] is a default strategy for the one principal. *)
Definition default_of (role : Z) (id : string) (r : strategyForStore) : Prop :=
  rDefault r = true /\ principals role r = {[id]} /\ principals (3 - role) r = ∅.

Definition live (role : Z) (id : string) (t : tables) : Prop :=
  if decide (role = PrincipalUser) then exists u, t.1.1 !! id = Some u /\ UValid u = true
  else exists g, t.1.2 !! id = Some g /\ GValid g = true.

Record integrity (t : tables) : Prop := {
  in_keyed : keyed t;
  in_defaults : forall k r, t.2 !! k = Some r -> rDefault r = true -> exists role id, is_role role /\ default_of role id r;
  in_unique : forall k1 k2 r1 r2 role id, is_role role -> t.2 !! k1 = Some r1 -> t.2 !! k2 = Some r2 ->
    default_of role id r1 -> default_of role id r2 -> k1 = k2;
  in_live : forall role id, is_role role ->
    live role id t <-> exists k r, t.2 !! k = Some r /\ default_of role id r /\ rValid r = true }.

(** An id that no row has and no strategy mentions. *)
Definition unused (t : tables) (id : string) : Prop :=
  t.1.1 !! id = None /\ t.1.2 !! id = None /\ t.2 !! id = None /\ forall k r, t.2 !! k = Some r -> id ∉ rUsers r /\ id ∉ rGroups r.

Lemma default_of_role role role' id id' r : is_role role -> is_role role' -> default_of role id r -> default_of role' id' r -> role = role' /\ id = id'.
Proof.
  intros Hr Hr' (Hd & H1 & H2) (_ & H3 & H4).
  assert (role = role') as <-.
  { destruct Hr as [-> | ->], Hr' as [-> | ->]; try done; cbn in *; set_solver. }
  split; [done|]. rewrite H1 in H3. set_solver.
Qed.

Lemma default_rule uuids role id name owner : is_role role -> default_of role id (defaultRule uuids role id name owner).
Proof. intros [-> | ->]; split_and!; done. Qed.

Lemma default_alike role id r r' :
  rDefault r' = rDefault r -> rUsers r' = rUsers r -> rGroups r' = rGroups r -> default_of role id r' <-> default_of role id r.
Proof. intros H1 H2 H3. unfold default_of, principals. by rewrite H1, H2, H3. Qed.

Lemma default_same role id r r' : same_rule r r' -> default_of role id r' -> default_of role id r.
Proof.
  intros (_ & _ & _ & Hd & _ & Hp) (H1 & H2 & H3). rewrite Hd in H1. destruct (Hp H1) as [Hu Hg].
  unfold default_of, principals in *. rewrite Hu, Hg in *. done.
Qed.
Lemma default_same' role id r r' : same_rule r r' -> default_of role id r -> default_of role id r'.
Proof.
  intros (_ & _ & _ & Hd & _ & Hp) (H1 & H2 & H3). destruct (Hp H1) as [Hu Hg].
  unfold default_of, principals in *. rewrite Hu, Hg, Hd. done.
Qed.

(** Replacing rows by rows that are the same default strategies. *)
Lemma integrity_rules us gs ss ss' :
  integrity (us, gs, ss) ->
  (forall k, match ss' !! k with
             | None => forall r, ss !! k = Some r -> rValid r = false
             | Some r' => (exists r, ss !! k = Some r /\ same_rule r r') \/ rDefault r' = false /\ rID r' = k /\ (forall r, ss !! k = Some r -> rValid r = false \/ rDefault r = false)
             end) ->
  integrity (us, gs, ss').
Proof.
  intros [[Hku [Hkg Hkr]] Hd Hu Hl] Hss. cbn in *.
  assert (forall k r', ss' !! k = Some r' -> rDefault r' = true -> exists r, ss !! k = Some r /\ same_rule r r') as Hold.
  { intros k r' Hk Hdr. specialize (Hss k). rewrite Hk in Hss. destruct Hss as [Hss|[Hss _]]; [done|congruence]. }
  split; cbn.
  - split_and!; [done..|]. intros k r' Hk. cbn in Hk. specialize (Hss k). rewrite Hk in Hss.
    destruct Hss as [(r & Hr & Hs)|(_ & Hid & _)]; [|done]. pose proof (Hkr _ _ Hr) as Hi. cbn in Hi. by rewrite (proj1 Hs).
  - intros k r' Hk Hdr. destruct (Hold _ _ Hk Hdr) as (r & Hr & Hs). destruct (Hd k r Hr) as (role & id & Hrole & Hdef).
    { destruct Hs as (_ & _ & _ & E & _). congruence. }
    exists role, id. split; [done|]. by eapply default_same'.
  - intros k1 k2 r1 r2 role id Hrole H1 H2 D1 D2. destruct (Hold _ _ H1 (proj1 D1)) as (r1' & H1' & S1), (Hold _ _ H2 (proj1 D2)) as (r2' & H2' & S2).
    eapply (Hu k1 k2 r1' r2' role id); try done; by eapply default_same.
  - intros role id Hrole. change (live role id (us, gs, ss')) with (live role id (us, gs, ss)). rewrite (Hl role id Hrole). split.
    + intros (k & r & Hk & D & V). specialize (Hss k). destruct (ss' !! k) as [r'|] eqn:Hk'; [|rewrite (Hss r Hk) in V; done].
      destruct Hss as [(r0 & Hr0 & Hs)|(_ & _ & Hs)]; [|destruct (Hs r Hk) as [E|E]; [congruence|destruct D as [D _]; congruence]].
      rewrite Hk in Hr0. injection Hr0 as <-. exists k, r'. split_and!; [done|by eapply default_same'|]. destruct Hs as (_ & _ & _ & _ & E & _). congruence.
    + intros (k & r' & Hk & D & V). destruct (Hold _ _ Hk (proj1 D)) as (r & Hr & Hs). exists k, r.
      split_and!; [done|by eapply default_same|]. destruct Hs as (_ & _ & _ & _ & E & _). congruence.
Qed.

(** A new account with its default strategy. *)
Lemma integrity_created us gs ss us' gs' role id uuids name owner :
  integrity (us, gs, ss) -> is_role role -> unused (us, gs, ss) id -> unused (us, gs, ss) uuids.1 ->
  keyed (us', gs', ss) ->
  (forall role' id', is_role role' -> live role' id' (us', gs', ss) <-> (role' = role /\ id' = id) \/ live role' id' (us, gs, ss)) ->
  integrity (us', gs', <[uuids.1 := defaultRule uuids role id name owner]> ss).
Proof.
  intros [_ Hd Hu Hl] Hrole (_ & _ & _ & Hid) (_ & _ & Hsid & _) (Hku & Hkg & Hkr) Hlive. cbn in *.
  set (rule := defaultRule uuids role id name owner). assert (default_of role id rule) as Hrule by by apply default_rule.
  assert (forall k r, ss !! k = Some r -> ~ default_of role id r) as Hnone.
  { intros k r Hk (_ & Hp & _). destruct (Hid _ _ Hk) as [H1 H2]. unfold principals in Hp. case_decide; set_solver. }
  split; cbn.
  - split_and!; [done..|]. cbn. by apply map_Forall_insert_2.
  - intros k r [[<- <-]|[Hne Hk]]%lookup_insert_Some Hdr; [by exists role, id|by eapply Hd].
  - intros k1 k2 r1 r2 role' id' Hrole' [[<- <-]|[Hne1 H1]]%lookup_insert_Some [[<- <-]|[Hne2 H2]]%lookup_insert_Some D1 D2.
    + done.
    + destruct (default_of_role _ _ _ _ _ Hrole Hrole' Hrule D1) as [<- <-]. by destruct (Hnone _ _ H2).
    + destruct (default_of_role _ _ _ _ _ Hrole Hrole' Hrule D2) as [<- <-]. by destruct (Hnone _ _ H1).
    + by eapply Hu.
  - intros role' id' Hrole'. change (live role' id' (us', gs', <[uuids.1:=rule]> ss)) with (live role' id' (us', gs', ss)).
    rewrite (Hlive role' id' Hrole'), (Hl role' id' Hrole'). split.
    + intros [[-> ->]|(k & r & Hk & D & V)]; [by exists uuids.1, rule; rewrite lookup_insert_eq|].
      exists k, r. rewrite lookup_insert_ne; [done|]. intros <-. congruence.
    + intros (k & r & [[<- <-]|[Hne Hk]]%lookup_insert_Some & D & V); [left|right; eauto].
      by destruct (default_of_role _ _ _ _ _ Hrole Hrole' Hrule D) as [<- <-].
Qed.

(** What [cleanLinkStrategy] finds. *)
Lemma linkedOnly_default role id r :
  is_role role -> (exists role' id', is_role role' /\ default_of role' id' r) -> linkedOnly role id r = true <-> default_of role id r.
Proof.
  intros Hrole (role' & id' & Hrole' & Hd). unfold linkedOnly. rewrite !andb_true_iff, !bool_decide_eq_true. split.
  - intros [[Hdr Hsz] Hin]. assert (role = role') as <-.
    { destruct Hd as (_ & _ & Hd). destruct Hrole as [-> | ->], Hrole' as [-> | ->]; try done; cbn in *; set_solver. }
    destruct Hd as (H1 & H2 & H3). assert (id' = id) as <- by set_solver. done.
  - intros (H1 & H2 & H3). rewrite H2, size_singleton. set_solver.
Qed.

(** An account is deleted, and its default strategy with it. *)
Lemma integrity_deleted us gs ss us' gs' ss' role id now :
  integrity (us, gs, ss) -> is_role role -> live role id (us, gs, ss) -> cleaned now role id ss ss' ->
  keyed (us', gs', ss) ->
  (forall role' id', is_role role' -> live role' id' (us', gs', ss) <-> ~ (role' = role /\ id' = id) /\ live role' id' (us, gs, ss)) ->
  integrity (us', gs', ss').
Proof.
  intros [_ Hd Hu Hl] Hrole Hid Hcl (Hku & Hkg & Hkr) Hlive. cbn in *.
  assert (exists k r, ss !! k = Some r /\ default_of role id r /\ rValid r = true /\ ss' = alter (invalidate now) k ss) as (k & r & Hk & Dr & Vr & ->).
  { apply (Hl role id Hrole) in Hid as (k & r & Hk & D & V).
    assert (filter (fun kv => linkedOnly role id kv.2 = true) ss !! k = Some r) as Hf.
    { apply map_lookup_filter_Some. split; [done|]. apply linkedOnly_default; [done|by exists role, id|done]. }
    destruct Hcl as [[He _]|(k' & r' & He & ->)]; rewrite He in Hf; [done|].
    apply lookup_singleton_Some in Hf as [-> ->]. by exists k, r. }
  assert (forall j r', alter (invalidate now) k ss !! j = Some r' -> exists r0, ss !! j = Some r0 /\ rDefault r' = rDefault r0 /\
    (forall role id, default_of role id r' <-> default_of role id r0) /\ rID r' = rID r0 /\ rValid r' = (if decide (j = k) then false else rValid r0)) as Hold.
  { intros j r'. destruct (decide (j = k)) as [->|Hj].
    - rewrite lookup_alter_eq, Hk. intros [= <-]. exists r. split_and!; [done..| |done|done]. intros. by apply default_alike.
    - rewrite lookup_alter_ne by done. intros Hr. by exists r'. }
  split; cbn.
  - split_and!; [done..|]. intros j r' Hj. cbn in Hj. destruct (Hold _ _ Hj) as (r0 & Hj0 & _ & _ & E & _). rewrite E. by apply Hkr.
  - intros j r' Hj Hdr. destruct (Hold _ _ Hj) as (r0 & Hj0 & E1 & E2 & _). destruct (Hd j r0 Hj0 ltac:(congruence)) as (role' & id' & Hr' & D).
    exists role', id'. split; [done|]. by apply E2.
  - intros k1 k2 r1 r2 role' id' Hr' H1 H2 D1 D2. destruct (Hold _ _ H1) as (r1' & H1' & _ & E1 & _), (Hold _ _ H2) as (r2' & H2' & _ & E2 & _).
    apply (Hu k1 k2 r1' r2' role' id'); [done..|by apply E1|by apply E2].
  - intros role' id' Hr'. change (live role' id' (us', gs', alter (invalidate now) k ss)) with (live role' id' (us', gs', ss)).
    rewrite (Hlive role' id' Hr'), (Hl role' id' Hr'). split.
    + intros [Hne (j & r' & Hj & D & V)]. assert (j <> k) as Hjk.
      { intros ->. assert (r' = r) as -> by congruence. by destruct (default_of_role _ _ _ _ _ Hrole Hr' Dr D) as [<- <-], Hne. }
      exists j, r'. by rewrite lookup_alter_ne.
    + intros (j & r' & Hj & D & V). destruct (Hold _ _ Hj) as (r0 & Hj0 & _ & E0 & _ & E). apply E0 in D. rewrite V in E. case_decide as Hjk; [done|]. split; [|by exists j, r0].
      intros [-> ->]. apply Hjk. by eapply (Hu j k r0 r).
Qed.

(** Accounts change, but none is made or deleted. *)
Lemma integrity_rows us gs ss us' gs' :
  integrity (us, gs, ss) -> keyed (us', gs', ss) ->
  (forall role id, live role id (us', gs', ss) <-> live role id (us, gs, ss)) -> integrity (us', gs', ss).
Proof. intros [_ Hd Hu Hl] Hk Hlive. split; [done..|]. intros role id Hr. rewrite Hlive. by apply Hl. Qed.

Lemma live_user_insert us gs ss u role id :
  live role id (<[UID u := u]> us, gs, ss) <->
  if decide (role = PrincipalUser /\ id = UID u) then UValid u = true else live role id (us, gs, ss).
Proof.
  unfold live. cbn. destruct (decide (role = PrincipalUser)) as [->|Hr].
  - destruct (decide (id = UID u)) as [->|Hi].
    + rewrite decide_True by done. rewrite lookup_insert_eq. split; [by intros (? & [= <-] & ?)|by exists u].
    + rewrite decide_False by tauto. by rewrite lookup_insert_ne.
  - by rewrite decide_False by tauto.
Qed.
Lemma live_group_insert us gs ss g role id :
  is_role role -> live role id (us, <[GID g := g]> gs, ss) <->
  if decide (role = PrincipalGroup /\ id = GID g) then GValid g = true else live role id (us, gs, ss).
Proof.
  unfold live. cbn. intros [-> | ->].
  { rewrite decide_True by done. rewrite (decide_False (P := _ /\ _)); [by rewrite decide_True|by intros [[=] _]]. }
  rewrite !(decide_False (P := PrincipalGroup = PrincipalUser)) by done.
  destruct (decide (id = GID g)) as [->|Hi].
  - rewrite decide_True by done. rewrite lookup_insert_eq. split; [by intros (? & [= <-] & ?)|by exists g].
  - rewrite decide_False by tauto. by rewrite lookup_insert_ne.
Qed.
Lemma live_without us gs ss name owner role id : live role id (us, without_invalid name owner gs, ss) <-> live role id (us, gs, ss).
Proof.
  unfold live. cbn. case_decide; [done|]. unfold without_invalid. split.
  - intros (g & [Hg _]%map_lookup_filter_Some & Hv). by exists g.
  - intros (g & Hg & Hv). exists g. split; [|done]. apply map_lookup_filter_Some. cbn. split; [done|]. intros (Hx & _). congruence.
Qed.
Lemma keyed_insert_user us gs ss u : keyed (us, gs, ss) -> keyed (<[UID u := u]> us, gs, ss).
Proof. intros (H1 & H2 & H3). split_and!; [|done..]. cbn. by apply map_Forall_insert_2. Qed.
Lemma keyed_insert_group us gs ss g : keyed (us, gs, ss) -> keyed (us, <[GID g := g]> gs, ss).
Proof. intros (H1 & H2 & H3). split_and!; [done| |done]. cbn. by apply map_Forall_insert_2. Qed.
Lemma keyed_without us gs ss name owner : keyed (us, gs, ss) -> keyed (us, without_invalid name owner gs, ss).
Proof.
  intros (H1 & H2 & H3). split_and!; [done| |done]. cbn. unfold without_invalid. intros k g [Hg _]%map_lookup_filter_Some. by apply H2.
Qed.

Lemma live_valid us gs ss u : us !! UID u = Some u -> UValid u = true -> live PrincipalUser (UID u) (us, gs, ss).
Proof. intros Hu Hv. unfold live. rewrite decide_True by done. by exists u. Qed.
Lemma live_valid_group us gs ss g : gs !! GID g = Some g -> GValid g = true -> live PrincipalGroup (GID g) (us, gs, ss).
Proof. intros Hu Hv. unfold live. rewrite decide_False by done. by exists g. Qed.
Lemma unused_user us gs ss id : unused (us, gs, ss) id -> ~ live PrincipalUser id (us, gs, ss).
Proof. intros (Hx & _) (u & Hu & _). cbn in *. congruence. Qed.
Lemma unused_group us gs ss id : unused (us, gs, ss) id -> ~ live PrincipalGroup id (us, gs, ss).
Proof. intros (_ & Hx & _) (u & Hu & _). cbn in *. congruence. Qed.

(** Every transition of the machine keeps the invariant, as long as new ids are new. *)
Lemma transition_integrity uc ctx now ids t t' :
  transition uc ctx now ids t t' -> (forall id, id ∈ ids -> unused t id) -> integrity t -> integrity t'.
Proof.
  intros Ht Hids Hi. pose proof (in_keyed _ Hi) as Hk. destruct Ht as
    [t|us gs ss u uuids Hid Hsid Hne Hv _ _ _ _ _ _|us gs ss u u' Hu Hv _ Hsame _|us gs ss ss' u Hu Hv _ _ _ Hcl
    |us gs ss g uuids Hid Hsid Hne Hv _ _ _ _|us gs ss g g' Hg Hv _ Hsame _ _|us gs ss ss' g Hg Hv _ Hcl
    |us gs ss r Hid Hdf Hv _ _ _|us gs ss r r' Hr Hv _ Hsame _|us gs ss r Hr Hv Hdf _|us gs ss ss' remove m Hrel].
  - done.
  - eapply (integrity_created us gs ss); [done|by left|by apply Hids|by apply Hids|by apply keyed_insert_user|].
    intros role id Hrole. rewrite live_user_insert. case_decide as Hd; [split; [by left|done]|]. split; [by right|]. intros [?|?]; tauto.
  - apply (integrity_rows us gs ss); [done|destruct Hsame as (<- & _); by apply keyed_insert_user|].
    intros role id. destruct Hsame as (Hid & _ & _ & _ & _ & Hval & _). rewrite <- Hid, live_user_insert. case_decide as Hd; [|done]. destruct Hd as [-> ->].
    rewrite Hid, Hval. split; [intros _; by apply live_valid|done].
  - apply (integrity_deleted us gs ss _ _ ss' PrincipalUser (UID u) now); [done|by left|by apply live_valid|done| |].
    + change (UID u) with (UID (dropUser now u)). by apply keyed_insert_user.
    + intros role id Hrole. change (UID u) with (UID (dropUser now u)). rewrite live_user_insert. case_decide as Hd; [|tauto]. split; [done|tauto].
  - eapply (integrity_created us gs ss); [done|by right|by apply Hids|by apply Hids|by apply keyed_insert_group, keyed_without|].
    intros role id Hrole. rewrite live_group_insert by done. case_decide as Hd; [split; [by left|done]|]. rewrite live_without. split; [by right|]. intros [?|?]; tauto.
  - apply (integrity_rows us gs ss); [done|destruct Hsame as (<- & _); by apply keyed_insert_group|].
    intros role id. destruct Hsame as (Hid & _ & _ & Hval & _). unfold live. cbn. case_decide; [done|]. split.
    + intros (g0 & [[<- <-]|[? ?]]%lookup_insert_Some & Hv0); [by exists g|by exists g0].
    + intros (g0 & Hg0 & Hv0). destruct (decide (id = GID g)) as [->|Hne].
      * exists g'. rewrite lookup_insert_eq, Hval. done.
      * exists g0. by rewrite lookup_insert_ne.
  - apply (integrity_deleted us gs ss _ _ ss' PrincipalGroup (GID g) now); [done|by right|by apply live_valid_group|done| |].
    + change (GID g) with (GID (dropGroup now g)). by apply keyed_insert_group.
    + intros role id Hrole. change (GID g) with (GID (dropGroup now g)). rewrite live_group_insert by done. case_decide as Hd; [|tauto]. split; [done|tauto].
  - apply (integrity_rules us gs ss); [done|]. intros k. destruct (decide (k = rID r)) as [->|Hne].
    + rewrite lookup_insert_eq. right. split_and!; [done..|]. intros r0 Hr0. destruct (Hids _ Hid) as (_ & _ & Hnone & _). cbn in Hnone. congruence.
    + rewrite lookup_insert_ne by done. destruct (without_invalid_rules (rName r) (rOwner r) ss !! k) as [r0|] eqn:Hf.
      * left. exists r0. apply map_lookup_filter_Some in Hf as [Hf _]. by split_and!.
      * intros r0 Hr0. destruct (rValid r0) eqn:Hv0; [|done].
        assert (without_invalid_rules (rName r) (rOwner r) ss !! k = Some r0); [|congruence].
        apply map_lookup_filter_Some. cbn. split; [done|]. intros (Hx & _). congruence.
  - apply (integrity_rules us gs ss); [done|]. intros k. destruct (decide (k = rID r)) as [->|Hne].
    + rewrite lookup_insert_eq. left. by exists r.
    + rewrite lookup_insert_ne by done. destruct (ss !! k) as [r0|] eqn:Hk0; [|done]. left. exists r0. by split_and!.
  - apply (integrity_rules us gs ss); [done|]. intros k. destruct (decide (k = rID r)) as [->|Hne].
    + rewrite lookup_insert_eq. right. split_and!; [done..|]. intros r0 Hr0. rewrite Hr in Hr0. injection Hr0 as <-. by right.
    + rewrite lookup_insert_ne by done. destruct (ss !! k) as [r0|] eqn:Hk0; [|done]. left. exists r0. by split_and!.
  - apply (integrity_rules us gs ss); [done|]. intros k. specialize (Hrel k). destruct (m !! k) as [ress|] eqn:Hm.
    + destruct Hrel as (r & Hr & Hv & ->). left. exists r. destruct (linkRule_keeps now remove ress r) as (? & ? & ? & ? & ? & ? & ?).
      split; [done|]. unfold same_rule. split_and!; [done..|congruence|done].
    + rewrite Hrel. destruct (ss !! k) as [r0|] eqn:Hk0; [|done]. left. exists r0. by split_and!.
Qed.

(** ** Reachable states *)

Section reachable.
  Context (range : forall A, gmap string A -> list (string * A)).
  Context (range_ok : forall A (m : gmap string A), range A m ≡ₚ map_to_list m).
  Context (AuthOption : AuthConfig) (recording : bool).
  Context (GenerateFromPassword : string -> string -> option string) (CompareHashAndPassword : string -> string -> comparison).

(** From the empty store on: any calls, by anybody, with the caches in any
    state; time passes, and calls of the store fail.  The uuids drawn are new,
    and so is the id that a new user asks for. *)
Inductive reachable_accounts : auth_server -> Prop :=
| ra_start started now faults w :
    initAuthStoreData started (mkAccounts ∅ ∅ ∅ now faults) = Ret (w, Okay ()) -> reachable_accounts (mkAuthServer w [])
| ra_world s now faults :
    reachable_accounts s ->
    reachable_accounts (mkAuthServer (mkAccounts (tblUser (storage s)) (tblGroup (storage s)) (tblStrategy (storage s)) now faults) (history s))
| ra_call s s' c draws ctx uc namespaceCache serviceCache r :
    reachable_accounts s -> (forall id, id ∈ new_ids draws c -> unused (tabs (storage s)) id) ->
    serve range AuthOption recording GenerateFromPassword CompareHashAndPassword uc namespaceCache serviceCache c draws ctx s = Ret (s', r) ->
    reachable_accounts s'.

Lemma started_tables started now faults w :
  initAuthStoreData started (mkAccounts ∅ ∅ ∅ now faults) = Ret (w, Okay ()) ->
  tabs w = ({[UID (mainUser started) := mainUser started]}, ∅,
            {[SID (mainDefaultStrategy started) := convertForStrategyStore (mainDefaultStrategy started)]}).
Proof.
  pose proof (does_initAuthStoreData started (mkAccounts ∅ ∅ ∅ now faults) eq_refl eq_refl) as H.
  unfold does, runs in H. match type of H with match ?m with _ => _ end => intros Hw; change (m = Ret (w, Okay ())) in Hw end.
  rewrite Hw in H. by destruct H as [_ ->].
Qed.

Lemma start_integrity started : integrity ({[UID (mainUser started) := mainUser started]}, ∅,
  {[SID (mainDefaultStrategy started) := convertForStrategyStore (mainDefaultStrategy started)]}).
Proof.
  set (u := mainUser started). set (r := convertForStrategyStore _).
  assert (default_of PrincipalUser (UID u) r) as Hr.
  { unfold default_of. split_and!; [done| |]; unfold r, principals, convertForStrategyStore, principalsOf; vm_compute decide; cbn; set_solver. }
  split; unfold keyed; cbn [fst snd].
  - split_and!; [by apply map_Forall_singleton|apply map_Forall_empty|by apply map_Forall_singleton].
  - intros k r' [<- <-]%lookup_singleton_Some _. exists PrincipalUser, (UID u). split; [by left|done].
  - intros k1 k2 r1 r2 role id _ [<- _]%lookup_singleton_Some [<- _]%lookup_singleton_Some. done.
  - intros role id Hrole. unfold live. cbn [fst snd]. split.
    + destruct Hrole as [-> | ->]; [rewrite decide_True by done|rewrite decide_False by done].
      * intros (u' & [<- <-]%lookup_singleton_Some & _). exists (SID (mainDefaultStrategy started)), r. by rewrite lookup_singleton_eq.
      * intros (g & Hg & _). by rewrite lookup_empty in Hg.
    + intros (k & r' & [<- <-]%lookup_singleton_Some & D & _).
      destruct (default_of_role _ _ _ _ _ Hrole (or_introl eq_refl) D Hr) as [-> ->]. rewrite decide_True by done.
      exists u. by rewrite lookup_singleton_eq.
Qed.

Lemma reachable_integrity s : reachable_accounts s -> integrity (tabs (storage s)).
Proof.
  induction 1 as [started now faults w Hw|s now faults _ IH|s s' c draws ctx uc nsc svc r _ IH Hids Hs]; cbn.
  - rewrite (started_tables _ _ _ _ Hw). apply start_integrity.
  - done.
  - pose proof (serve_follows range range_ok AuthOption recording GenerateFromPassword CompareHashAndPassword uc nsc svc ctx s (in_keyed _ IH) c draws) as H.
    unfold follows, runs in H. rewrite Hs in H. destruct H as [_ H]. by eapply transition_integrity.
Qed.

(** C11. Whatever was called, whoever called it and whatever failed, as long as new
    accounts get ids that no account has - the uuids drawn, and the ids that clients
    choose, which the code does not check: each user and each group that is not
    deleted has one default strategy, that is found by its id - when the store
    answers -, lists it alone and is valid; and for an account that is deleted, or
    was never there, none is found. *)
Theorem default_strategy_per_account (s : auth_server) (role : Z) (id : string) :
  reachable_accounts s -> is_role role -> afaults (storage s) = [] ->
  (live role id (tabs (storage s)) -> exists d,
     bolt_GetDefaultStrategyDetailByPrincipal range id role (storage s) = Ret (storage s, Okay d) /\
     SDefault d = true /\ SValid d = true /\ Principals d = [mkPrincipal id role]) /\
  (~ live role id (tabs (storage s)) -> bolt_GetDefaultStrategyDetailByPrincipal range id role (storage s) = Ret (storage s, Fail Unknown)).
Proof.
  intros Hr Hrole Hf. destruct (reachable_integrity _ Hr) as [_ Hd Hu Hl]. cbn in Hd, Hu.
  destruct (storage s) as [us gs ss now faults]. cbn in Hf, Hd, Hu. subst faults.
  assert (forall k r, filter (fun kv => rDefault kv.2 = true) (strategiesOf role id ss) !! k = Some r <->
    ss !! k = Some r /\ rValid r = true /\ default_of role id r) as Hsel.
  { intros k r. unfold strategiesOf. rewrite !map_lookup_filter_Some. cbn. split.
    - intros [[Hk [Hv Hin]] Hdr]. split_and!; [done..|]. destruct (Hd _ _ Hk Hdr) as (role' & id' & Hr' & D).
      assert (linkedOnly role id r = true) as E; [|by apply linkedOnly_default in E; [..|by exists role', id']].
      unfold linkedOnly. rewrite !andb_true_iff, !bool_decide_eq_true. split_and!; [done| |done]. destruct D as (_ & D1 & D2).
      assert (role = role') as <-; [|by rewrite D1, size_singleton].
      destruct Hrole as [-> | ->], Hr' as [-> | ->]; try done; cbn in *; set_solver.
    - intros (Hk & Hv & D1 & D2 & D3). split_and!; [done..| |done]. rewrite D2. set_solver. }
  set (values := filter (fun kv => rDefault kv.2 = true) (strategiesOf role id ss)) in *.
  assert (bolt_GetDefaultStrategyDetailByPrincipal range id role (mkAccounts us gs ss now []) =
    match only range values (mkAccounts us gs ss now []) with
    | Ret (w, Okay None) => Ret (w, Fail Unknown)
    | Ret (w, Okay (Some r)) => Ret (w, Okay (convertForStrategyDetail r))
    | Ret (w, Fail e) => Ret (w, Fail e)
    | Panics why => Panics why
    end) as ->.
  { unfold bolt_GetDefaultStrategyDetailByPrincipal, view, atomically, mbind, call_bind, set_afaults. cbn. fold values. destruct (only range values _) as [[w [[r|]|e]]|why]; done. }
  pose proof (range_ok _ values) as Hp. split.
  - intros Hlive. apply Hl in Hlive as (k & r & Hk & D & V); [|done]. cbn in Hk.
    assert (values = {[k := r]}) as Hv.
    { apply map_eq. intros j. destruct (decide (j = k)) as [->|Hne].
      - rewrite lookup_singleton_eq. by apply Hsel.
      - rewrite lookup_singleton_ne by done. destruct (values !! j) as [r'|] eqn:Hj; [|done]. apply Hsel in Hj as (Hj & _ & D').
        destruct Hne. by eapply (Hu j k r' r). }
    rewrite Hv, map_to_list_singleton in Hp. apply Permutation_singleton_r in Hp.
    unfold only. rewrite Hv, Hp. cbn. eexists. split; [reflexivity|]. destruct D as (D1 & D2 & D3). split_and!; [done..|].
    cbn [Principals convertForStrategyDetail]. destruct Hrole as [-> | ->].
    + change (rUsers r = {[id]}) in D2. change (rGroups r = ∅) in D3. by rewrite D2, D3, elements_singleton, elements_empty.
    + change (rGroups r = {[id]}) in D2. change (rUsers r = ∅) in D3. by rewrite D2, D3, elements_singleton, elements_empty.
  - intros Hnot. assert (values = ∅) as Hv.
    { apply map_empty. intros j. destruct (values !! j) as [r|] eqn:Hj; [|done]. apply Hsel in Hj as (Hj & V & D).
      destruct Hnot. apply Hl; [done|]. by exists j, r. }
    rewrite Hv, map_to_list_empty in Hp. symmetry in Hp. apply Permutation_nil in Hp. unfold only. by rewrite Hv, Hp.
Qed.

(** The default strategy is the one that [cleanLinkStrategy] finds. *)
Lemma linked_default t role id : integrity t -> is_role role -> live role id t ->
  exists k r, t.2 !! k = Some r /\ default_of role id r /\ rValid r = true /\ filter (fun kv => linkedOnly role id kv.2 = true) t.2 = {[k := r]}.
Proof.
  intros [_ Hd Hu Hl] Hrole Hlive. apply Hl in Hlive as (k & r & Hk & D & V); [|done]. exists k, r. split_and!; [done..|].
  apply map_eq. intros j. destruct (decide (j = k)) as [->|Hne].
  - rewrite lookup_singleton_eq. apply map_lookup_filter_Some. split; [done|]. apply linkedOnly_default; [done|by exists role, id|done].
  - rewrite lookup_singleton_ne by done. apply map_lookup_filter_None. right. intros r' Hj Hlink. cbn in Hlink.
    destruct Hne. apply (Hu j k r' r role id); [done..| |done]. apply linkedOnly_default; [done| |done].
    apply (Hd j); [done|]. unfold linkedOnly in Hlink. by apply andb_true_iff in Hlink as [[??]%andb_true_iff _].
Qed.

Lemma cleans_default us gs w role id :
  integrity (us, gs, tblStrategy w) -> is_role role -> live role id (us, gs, tblStrategy w) ->
  exists k r, tblStrategy w !! k = Some r /\ default_of role id r /\
    cleanLinkStrategy range role id w = Ret (set_tblStrategy w (alter (invalidate (aclock w)) k (tblStrategy w)), Okay ()).
Proof.
  intros Hi Hrole Hlive. destruct (linked_default _ _ _ Hi Hrole Hlive) as (k & r & Hk & D & _ & Hf). exists k, r. split_and!; [done..|].
  cbn in Hf. unfold cleanLinkStrategy, mbind, call_bind. cbn. rewrite Hf.
  pose proof (range_ok _ ({[k := r]} : gmap string strategyForStore)) as Hp.
  rewrite map_to_list_singleton in Hp. apply Permutation_singleton_r in Hp. by rewrite Hp.
Qed.

(** C23. In a state reached by calls whose new ids were new, a user that is there,
    that the caller may see, that is not the caller's own main account and, if it is
    a main account, has no sub accounts left, is deleted when it is asked for, if no
    call of the store fails. The deletion marks the user and its one default
    strategy as deleted and changes nothing else. *)
Theorem deletion_removes_account (s : auth_server) (ctx : RequestContext) (req : ApiUser) (u : User) :
  reachable_accounts s -> afaults (storage s) = [] -> GetValue (auId req) <> "" ->
  tblUser (storage s) !! GetValue (auId req) = Some u -> UValid u = true -> checkUserViewPermission ctx u = true -> UID u <> ParseOwnerID ctx ->
  (UType u = OwnerUserRole -> forall k v, tblUser (storage s) !! k = Some v -> UOwner v = UID u -> UValid v = false) ->
  exists s' k r, DeleteUser range recording ctx (Some req) s = Ret (s', Okay (NewUserResponse ExecuteSuccess (Some req))) /\
    tblStrategy (storage s) !! k = Some r /\ default_of PrincipalUser (UID u) r /\
    tabs (storage s') = (<[UID u := dropUser (aclock (storage s)) u]> (tblUser (storage s)), tblGroup (storage s),
                         <[k := invalidate (aclock (storage s)) r]> (tblStrategy (storage s))).
Proof.
  intros Hr Hf Hid Hu Hv Hp Hown Hsub. pose proof (reachable_integrity _ Hr) as Hi. pose proof (proj1 (in_keyed _ Hi) _ _ Hu) as Hkey. cbn in Hkey.
  destruct s as [[us gs ss now faults] h]. cbn in *. subst faults.
  set (us' := alter (dropUser now) (UID u) us).
  pose proof (cleans_default us gs (mkAccounts us' gs ss now []) PrincipalUser (UID u) Hi (or_introl eq_refl)) as Hc.
  destruct Hc as (k & r & Hk & D & Hc); [rewrite <- Hkey in Hu; by apply live_valid|].
  assert (bolt_DeleteUser range u (mkAccounts us gs ss now []) =
    Ret (mkAccounts us' gs (alter (invalidate now) k ss) now [], Okay ())) as Hdel.
  { unfold bolt_DeleteUser. rewrite decide_False by congruence. unfold atomically, mbind, call_bind, set_afaults. cbn.
    unfold set_tblUser. cbn. fold us'. by rewrite Hc. }
  exists (mkAuthServer (mkAccounts us' gs (alter (invalidate now) k ss) now []) (if recording then h ++ [userRecordEntry u ODelete] else h)), k, r.
  split; [|split; [exact Hk|split; [exact D|]]].
  - unfold DeleteUser, deref, viewedUser, stored_or, orelse, on_accounts, bolt_GetUser, mbind, call_bind. cbn.
    rewrite decide_False by done. unfold view, atomically, mbind, call_bind, set_afaults. cbn. rewrite Hu. cbn.
    unfold valid_user. rewrite Hv. cbn. rewrite Hp. cbn. rewrite decide_False by done. unfold set_storage. cbn.
    match goal with |- match ?m ?w with _ => _ end = _ => assert (m w = Ret (w, Okay ())) as -> end.
    { case_decide as Ht; [|done]. unfold bolt_GetSubCount, view, atomically, mbind, call_bind, set_afaults. cbn.
      assert (filter (fun kv => UValid kv.2 = true /\ UOwner kv.2 = UID u) us = ∅) as ->; [|done].
      apply map_empty. intros j. apply map_lookup_filter_None. right. intros v Hj [Hvalid Ho]. cbn in *. by rewrite (Hsub Ht j v Hj Ho) in Hvalid. }
    cbn. rewrite Hdel. unfold RecordHistory. destruct recording; cbn; reflexivity.
  - unfold tabs. cbn in *. repeat f_equal.
    + apply map_eq. intros j. destruct (decide (j = UID u)) as [->|Hj].
      * unfold us'. by rewrite lookup_insert_eq, lookup_alter_eq, Hkey, Hu.
      * unfold us'. by rewrite lookup_insert_ne, lookup_alter_ne.
    + apply map_eq. intros j. destruct (decide (j = k)) as [->|Hj].
      * by rewrite lookup_insert_eq, lookup_alter_eq, Hk.
      * by rewrite lookup_insert_ne, lookup_alter_ne.
Qed.

End reachable.

(** ** Who may change whose account *)

Definition account_identity (u u' : User) : Prop :=
  UID u' = UID u /\ UName u' = UName u /\ UOwner u' = UOwner u /\ USource u' = USource u /\ UType u' = UType u.

(** The caller that [verifyAuth] lets through. *)
Lemma verifyAuth_caller AuthOption uc c ctx isWrite needOwner :
  verifyAuth AuthOption uc c isWrite needOwner = Ret (Okay ctx) ->
  exists a, GetUserByID uc (ParseUserID ctx) = Some a /\ ParseUserRole ctx = UType a /\
    ParseOwnerID ctx = (if decide (UOwner a = "") then UID a else UOwner a) /\ ParseIsOwner ctx = bool_decide (UOwner a = "").
Proof.
  unfold verifyAuth. case_decide; [done|]. unfold VerifyCredential. cbn [requestContext NewAcquireContext].
  destruct (decodeToken _ _) as [op|e] eqn:Hd; [|done]. unfold checkToken.
  destruct (IsEmptyOperator op) eqn:He.
  { exfalso. apply decodeToken_origin in Hd as (Ho & Hn & Ha). unfold IsEmptyOperator in He. rewrite Ho, Ha, bool_decide_false in He by done. done. }
  destruct (IsUserToken op) eqn:Hu.
  - destruct (GetUserByID uc (OperatorID op)) as [a|] eqn:Hg; [|done]. case_decide as Ht; [done|].
    unfold parseOperatorInfo. destruct (decide (UOwner a = "")) as [Ho|Ho]; cbn; rewrite Hu, Hg; cbn; rewrite Hu; cbn;
      repeat (case_match; try done); intros [= <-]; exists a; cbn; unfold ParseUserID, ParseUserRole, ParseOwnerID, ParseIsOwner; cbn;
      rewrite ?decide_True, ?decide_False, ?bool_decide_true, ?bool_decide_false by done; done.
  - destruct (GetGroup uc (OperatorID op)) as [g|]; [|done]. case_decide; [done|].
    unfold parseOperatorInfo. cbn. rewrite Hu. cbn. rewrite Hu. cbn. by case_match.
Qed.

Lemma transition_users uc ctx now ids t t' k :
  transition uc ctx now ids t t' -> t'.1.1 !! k <> t.1.1 !! k ->
  (exists u u', t.1.1 !! k = Some u /\ k = UID u /\ checkUserViewPermission ctx u = true /\ t'.1.1 !! k = Some u' /\ account_identity u u') \/
  (k ∈ ids /\ exists u', t'.1.1 !! k = Some u' /\ UType u' = SubAccountUserRole /\ UOwner u' = ParseOwnerID ctx).
Proof.
  destruct 1 as [t|us gs ss u uuids Hid Hsid _ _ _ _ Ht Hown _ _|us gs ss u u' Hu Hv Hp Hsame _|us gs ss ss' u Hu Hv Hp _ _ _| | | | | | |];
    cbn; intros Hne; try done.
  - destruct (decide (k = UID u)) as [->|Hku]; [|by rewrite lookup_insert_ne in Hne]. right. split; [done|]. exists u. by rewrite lookup_insert_eq.
  - destruct (decide (k = UID u)) as [->|Hku]; [|by rewrite lookup_insert_ne in Hne]. left. exists u, u'. rewrite lookup_insert_eq.
    split_and!; [done..|]. destruct Hsame as (? & ? & ? & ? & ? & _). by split_and!.
  - destruct (decide (k = UID u)) as [->|Hku]; [|by rewrite lookup_insert_ne in Hne]. left. exists u, (dropUser now u). by rewrite lookup_insert_eq.
Qed.

Section confined.
  Context (range : forall A, gmap string A -> list (string * A)).
  Context (range_ok : forall A (m : gmap string A), range A m ≡ₚ map_to_list m).
  Context (AuthOption : AuthConfig) (recording : bool).
  Context (GenerateFromPassword : string -> string -> option string) (CompareHashAndPassword : string -> string -> comparison).
  Context (uc : userCache) (namespaceCache : string -> option string) (serviceCache : string -> option (string * string * string)).

(** C16. A call of somebody who is not the administrator changes no accounts but the
    caller's own, those of the caller's sub accounts, and new ones; an account that
    is there keeps its id, name, owner and type, and a new one is a sub account of
    the caller's owner: nobody gives himself rights. This is for calls whose new ids
    are new: the ids drawn, and one that the client chooses, which the code does not
    check. *)
Theorem account_changes_are_confined (c : account_call) (draws : Draws) (rc ctx : RequestContext) (isWrite needOwner : bool)
    (s s' : auth_server) (a : User) (r : result AuthResponse AuthResponse) (k : string) :
  keyed (tabs (storage s)) -> (forall id, id ∈ new_ids draws c -> unused (tabs (storage s)) id) ->
  verifyAuth AuthOption uc rc isWrite needOwner = Ret (Okay ctx) -> GetUserByID uc (ParseUserID ctx) = Some a -> UType a <> AdminUserRole ->
  serve range AuthOption recording GenerateFromPassword CompareHashAndPassword uc namespaceCache serviceCache c draws ctx s = Ret (s', r) ->
  tblUser (storage s') !! k <> tblUser (storage s) !! k ->
  match tblUser (storage s) !! k with
  | Some u => (k = ParseUserID ctx \/ UOwner u = ParseUserID ctx) /\ exists u', tblUser (storage s') !! k = Some u' /\ account_identity u u'
  | None => exists u', tblUser (storage s') !! k = Some u' /\ UType u' = SubAccountUserRole /\
              UOwner u' = (if decide (UOwner a = "") then UID a else UOwner a)
  end.
Proof.
  intros Hk Hids Hva Ha Hrole Hs Hne. destruct (verifyAuth_caller _ _ _ _ _ _ Hva) as (a' & Ha' & Hr & Ho & _).
  rewrite Ha in Ha'. injection Ha' as <-.
  pose proof (serve_follows range range_ok AuthOption recording GenerateFromPassword CompareHashAndPassword uc namespaceCache serviceCache ctx s Hk c draws) as H.
  unfold follows, runs in H. rewrite Hs in H. destruct H as [_ H].
  destruct (transition_users _ _ _ _ _ _ k H Hne) as [(u & u' & Hu & -> & Hp & Hu' & Hi)|(Hid & u' & Hu' & Ht & Hown)].
  - cbn in Hu. rewrite Hu. split; [|by exists u']. unfold checkUserViewPermission in Hp. rewrite Hr, bool_decide_false in Hp by done.
    cbn in Hp. by rewrite orb_true_iff, !bool_decide_eq_true in Hp.
  - destruct (Hids _ Hid) as [Hnone _]. cbn in Hnone. rewrite Hnone. exists u'. by rewrite <- Ho.
Qed.

End confined.

(** ** Passwords and tokens *)

Section secrets.
  Context (range : forall A, gmap string A -> list (string * A)).
  Context (range_ok : forall A (m : gmap string A), range A m ≡ₚ map_to_list m).
  Context (AuthOption : AuthConfig) (recording : bool).
  Context (GenerateFromPassword : string -> string -> option string) (CompareHashAndPassword : string -> string -> comparison).

(** If the call answers with success, the row it names is [f] of the one that
    was there, as the store writes it. *)
Definition rewrites (s : auth_server) (id : string) (f : User -> User -> AuthResponse -> Prop) (m : auth_handler AuthResponse) : Prop :=
  runs (fun _ => True) m s (fun s' r => match r with
    | Okay rsp => exists u d, tblUser (storage s) !! id = Some u /\ f u d rsp /\
        tblUser (storage s') !! id = Some (changeUser d (aclock (storage s)) u)
    | Fail _ => True
    end).

Lemma rewrites_viewed s ctx id f e nf fb (k : User -> auth_handler AuthResponse) :
  keyed (tabs (storage s)) ->
  (forall u s1, same s s1 -> tblUser (storage s) !! GetValue id = Some u -> UID u = GetValue id ->
     runs (fun _ => True) (k u) s1 (fun s' r => match r with
       | Okay rsp => exists d, f u d rsp /\ tblUser (storage s') !! GetValue id = Some (changeUser d (aclock (storage s)) u)
       | Fail _ => True end)) ->
  rewrites s (GetValue id) f (u ← viewedUser ctx id e nf fb; k u).
Proof.
  intros Hkeyed Hk. unfold rewrites. apply runs_bind. unfold viewedUser. eapply runs_stored_read; [apply does_GetUser|by intros ? ? [-> _]|done|].
  intros u s1 Hs (_ & Hid & Hu). destruct u as [u|]; [|by apply runs_raise].
  destruct (tblUser (storage s) !! GetValue id) as [u'|] eqn:Hl; [|done]. cbn in Hu. unfold valid_user in Hu.
  destruct (UValid u') eqn:Hv; [|done]. injection Hu as ->.
  destruct (checkUserViewPermission ctx u'); [|by apply runs_raise]. apply runs_ret.
  eapply runs_weaken; [apply (Hk u' s1); [done..|]; exact (proj1 Hkeyed _ _ Hl)|]. intros s' [rsp|]; [|done]. intros (d & Hf & Hd). by exists u', d.
Qed.

Lemma rewrites_store s s1 id u d e f (k : auth_handler AuthResponse) rsp :
  same s s1 -> tblUser (storage s) !! id = Some u -> UID d = id -> f u d rsp ->
  (forall s2, runs (fun _ => True) k s2 (fun s' r => tblUser (storage s') = tblUser (storage s2) /\ r = Okay rsp)) ->
  runs (fun _ => True) (_ ← stored_or (bolt_UpdateUser d) e; k) s1 (fun s' r => match r with
    | Okay rsp => exists d, f u d rsp /\ tblUser (storage s') !! id = Some (changeUser d (aclock (storage s)) u)
    | Fail _ => True end).
Proof.
  intros [Hc Ht] Hu Hid Hf Hk. apply runs_bind. eapply runs_stored; [apply does_UpdateUser| |done].
  intros [] w' _ (_ & _ & Hw'). eapply runs_weaken; [apply Hk|]. intros s' r [Hs' ->]. exists d. split; [done|].
  rewrite Hs'. cbn. unfold tabs in Hw', Ht. injection Ht as Htu _ _. injection Hw' as -> _ _. by rewrite Hid, lookup_alter_eq, Htu, Hu, Hc.
Qed.

Lemma records_and_answers entry rsp s2 :
  runs (fun _ => True) (_ ← RecordHistory recording entry; mret rsp) s2 (fun s' (r : result AuthResponse AuthResponse) =>
    tblUser (storage s') = tblUser (storage s2) /\ r = Okay rsp).
Proof. apply runs_bind, runs_recorded. intros h. by apply runs_ret. Qed.

(** Of all passwords [secret] and no other logs in as [u], with its token. *)
Definition logs_in (uc : userCache) (owner password secret : string) (u : User) : Prop :=
  Login CompareHashAndPassword uc (mkLogin (Some (UName u)) (Some owner) (Some password)) =
    if decide (password = secret)
    then mkAuthResponse ExecuteSuccess (AboutLogin (mkLoginResponse (UID u) (UOwner u) (UToken u) (UName u) (UserRoleNames (UType u))))
    else NewAuthResponse NotAllowedAccess.
(** The account API lets the bearer of the token in. *)
Definition lets_in (uc : userCache) (token : string) (ctx : RequestContext) : Prop :=
  verifyAuth AuthOption uc (mkRequest token None None None None None) false false = Ret (Okay ctx).

Definition new_password (draws : Draws) (req : ModifyUserPassword) (u d : User) (_ : AuthResponse) : Prop :=
  exists pwd, GenerateFromPassword (dSalt draws) (GetValue (mpNewPassword req)) = Some pwd /\ d = set_password u pwd.
Definition new_token (draws : Draws) (req : ApiUser) (u d : User) (rsp : AuthResponse) : Prop :=
  exists token, createUserToken (dVector draws) (dToken draws) (Salt AuthOption) (GetValue (auId req)) = Okay token /\
    d = set_user_token u token (UTokenEnable u) /\ rsp = NewUserResponse ExecuteSuccess (Some (set_auToken req token)).

Lemma UpdateUserPassword_rewrites s ctx draws req :
  keyed (tabs (storage s)) ->
  rewrites s (GetValue (mpId req)) (new_password draws req)
    (UpdateUserPassword GenerateFromPassword CompareHashAndPassword draws ctx (Some req)).
Proof.
  intros Hk. unfold UpdateUserPassword, rewrites. apply runs_bind, (runs_deref _ _ req); [done|]. apply rewrites_viewed; [done|].
  intros u s1 Hs Hu Hid. destruct (updateUserPasswordAttribute _ _ _ _ _ _) as [[d need]|] eqn:Hd; [|by apply runs_raise].
  destruct need; [|by apply runs_raise]. cbn [negb].
  assert (exists pwd, GenerateFromPassword (dSalt draws) (GetValue (mpNewPassword req)) = Some pwd /\ d = set_password u pwd) as Hpwd.
  { revert Hd. unfold updateUserPasswordAttribute. repeat case_match; intros [=]; subst; by eexists. }
  destruct Hpwd as (pwd & Hp & ->). eapply (rewrites_store _ _ _ _ _ _ (new_password draws req)); [done..|by exists pwd|]. intros s2. by apply runs_ret.
Qed.

Lemma ResetUserToken_rewrites s ctx draws req :
  keyed (tabs (storage s)) ->
  rewrites s (GetValue (auId req)) (new_token draws req)
    (ResetUserToken AuthOption recording draws ctx (Some req)).
Proof.
  intros Hk. unfold ResetUserToken, rewrites. destruct (checkUpdateUser (Some req)); [by apply runs_raise|]. apply rewrites_viewed; [done|].
  intros u s1 Hs Hu Hid. destruct (createUserToken _ _ _ _) as [token|] eqn:Ht; [|by apply runs_raise]. rewrite Hid in Ht.
  eapply (rewrites_store _ _ _ _ _ _ (new_token draws req)); [done..| |apply records_and_answers]. by exists token.
Qed.

(** C24. A password that was changed with success is the one that logs in, once the
    user cache has the row that was stored: a login under the account's name is then
    answered with the account and its token for the new password, and refused for
    any other - if a hash matches the password it was made of and no other. *)
Theorem password_change_takes_effect (draws : Draws) (ctx : RequestContext) (req : ModifyUserPassword) (s s' : auth_server)
    (rsp : AuthResponse) (uc : userCache) (u : User) (owner password : string) :
  (forall salt p h, GenerateFromPassword salt p = Some h ->
     forall q, CompareHashAndPassword h q = if decide (q = p) then Match else Mismatched) ->
  keyed (tabs (storage s)) ->
  UpdateUserPassword GenerateFromPassword CompareHashAndPassword draws ctx (Some req) s = Ret (s', Okay rsp) ->
  tblUser (storage s') !! GetValue (mpId req) = Some u -> GetUserByName uc (UName u) owner = Some u -> owner <> "" ->
  logs_in uc owner password (GetValue (mpNewPassword req)) u.
Proof.
  intros Hb Hk Hs Hu Huc Ho. pose proof (UpdateUserPassword_rewrites s ctx draws req Hk) as H. unfold rewrites, runs in H. rewrite Hs in H.
  destruct H as (u0 & d & _ & (pwd & Hp & ->) & Hu'). rewrite Hu in Hu'. injection Hu' as Hu'.
  unfold logs_in, Login. cbn [lrName lrOwner lrPassword].
  change (GetValue (Some (UName u))) with (UName u). change (GetValue (Some owner)) with owner. change (GetValue (Some password)) with password.
  rewrite (decide_False (P := owner = "")) by done. rewrite Huc. assert (UPassword u = pwd) as -> by (by rewrite Hu').
  rewrite (Hb _ _ _ Hp). by case_decide.
Qed.

(** Who presents a user's token is that user - if it is the stored one. *)
Lemma verifyAuth_token uc token op u :
  decodeToken (Salt AuthOption) token = Okay op -> IsUserToken op = true -> GetUserByID uc (OperatorID op) = Some u ->
  if decide (token = UToken u)
  then exists ctx, verifyAuth AuthOption uc (mkRequest token None None None None None) false false = Ret (Okay ctx) /\
    ParseUserID ctx = OperatorID op /\ ParseUserRole ctx = UType u /\ ParseOwnerID ctx = (if decide (UOwner u = "") then UID u else UOwner u)
  else verifyAuth AuthOption uc (mkRequest token None None None None None) false false = Ret (Fail AuthTokenForbidden).
Proof.
  intros Hd Hu Hg. destruct (decodeToken_origin _ _ _ Hd) as (Ho & Hne & Ha).
  unfold verifyAuth. cbn [ContextAuthToken]. rewrite (decide_False (P := token = "")) by done.
  unfold VerifyCredential. cbn [requestContext NewAcquireContext ContextAuthToken].
  rewrite Hd. unfold checkToken, IsEmptyOperator. rewrite Ho, Ha, bool_decide_false by done. cbn [orb]. rewrite Hu, Hg.
  destruct (decide (token = UToken u)) as [->|Hx]; [rewrite decide_False by tauto|rewrite decide_True by done; reflexivity].
  unfold parseOperatorInfo. destruct (decide (UOwner u = "")) as [E|E]; cbn; rewrite Hu, Hg; cbn; rewrite Hu; cbn;
    (eexists; split; [reflexivity|]; unfold ParseUserID, ParseUserRole, ParseOwnerID; cbn; done).
Qed.

(** A token that was reset with success takes the place of the old one: once the
    cache has the row that was stored, the token that was answered is the only one of the
    account's that the account API lets in - any other that names the account is refused,
    the old one too. *)
Theorem reset_token_replaces_the_old (draws : Draws) (ctx : RequestContext) (req : ApiUser) (s s' : auth_server) (rsp : AuthResponse)
    (uc : userCache) (token : string) (op : OperatorInfo) :
  keyed (tabs (storage s)) ->
  ResetUserToken AuthOption recording draws ctx (Some req) s = Ret (s', Okay rsp) ->
  GetUserByID uc (GetValue (auId req)) = tblUser (storage s') !! GetValue (auId req) ->
  decodeToken (Salt AuthOption) token = Okay op -> OperatorID op = GetValue (auId req) -> IsUserToken op = true ->
  (exists ctx', lets_in uc token ctx') <->
  rsp = NewUserResponse ExecuteSuccess (Some (set_auToken req token)).
Proof.
  unfold lets_in. intros Hk Hs Huc Hd Hop Hu. pose proof (ResetUserToken_rewrites s ctx draws req Hk) as H. unfold rewrites, runs in H. rewrite Hs in H.
  destruct H as (u & d & _ & (new & Hnew & -> & ->) & Hu'). rewrite Hu' in Huc. set (u' := changeUser _ _ _) in *.
  assert (UToken u' = new) as Htok by done. clearbody u'. rewrite <- Hop in Huc.
  pose proof (verifyAuth_token uc token op u' Hd Hu Huc) as Hv. rewrite Htok in Hv. destruct (decide (token = new)) as [->|Hx].
  - split; [done|]. intros _. destruct Hv as (ctx' & Hv & _). by exists ctx'.
  - rewrite Hv. split; [by intros [? [=]]|]. intros [= E]. done.
Qed.

(** What creating a user leaves: on success the row that the request describes, with its
    default strategy, under a name that no other valid user of the owner has, nor
    the owner. *)
Definition user_created (s : auth_server) (draws : Draws) (ctx : RequestContext) (r : ApiUser) (s' : auth_server) (res : result AuthResponse AuthResponse) : Prop :=
  let req := set_auOwner r (ParseOwnerID ctx) in
  match res with
  | Okay rsp => exists d, createUserModel AuthOption GenerateFromPassword draws (aclock (storage s)) req (ParseUserRole ctx) = Some d /\
      checkCreateUser req = None /\ UOwner d <> "" /\ rsp = NewUserResponse ExecuteSuccess (Some (set_auId (set_auOwner req "") (UID d))) /\
      (forall k v, tblUser (storage s) !! k = Some v -> UName v = UName d -> UOwner v = UOwner d -> UValid v = false) /\
      tabs (storage s') = (<[UID d := initUser (aclock (storage s)) d]> (tblUser (storage s)), tblGroup (storage s),
        <[(dStrategy draws).1 := defaultRule (dStrategy draws) PrincipalUser (UID d) (UName d) (UOwner d)]> (tblStrategy (storage s)))
  | Fail _ => tabs (storage s') = tabs (storage s)
  end.

Lemma CreateUser_creates s draws ctx r :
  runs (eq NilDereference) (CreateUser range AuthOption recording GenerateFromPassword draws ctx (Some r)) s (user_created s draws ctx r).
Proof.
  unfold CreateUser. apply runs_bind, (runs_deref _ _ r); [done|]. set (req := set_auOwner r (ParseOwnerID ctx)).
  assert (forall rsp s1, same s s1 -> runs (eq NilDereference) (raise rsp : auth_handler AuthResponse) s1 (user_created s draws ctx r)) as Hfail.
  { intros rsp s1 [_ Hs]. apply runs_raise. exact Hs. }
  assert (forall (e : AuthResponse) s1, same s s1 -> user_created s draws ctx r s1 (Fail e)) as Hfail' by (by intros e s1 [_ Hs]).
  destruct (checkCreateUser req) eqn:Hch; [by apply Hfail|].
  set (owner := if decide (convertCreateUserRole _ = _) then _ else _). apply runs_bind.
  assert (forall s1, same s s1 -> runs (eq NilDereference)
    (user ← stored_or (bolt_GetUserByName range (GetValue (auName req)) owner) (userException req);
     match user with
     | Some _ => raise (NewUserResponse UserExisted (Some req))
     | None => createUser AuthOption recording GenerateFromPassword draws ctx req
     end) s1 (user_created s draws ctx r)) as Hrest.
  { intros s1 Hs1. eapply runs_stored_read; [by apply does_GetUserByName|by intros ? ? [-> _]|intros e s2 Hs2; apply Hfail'; by eauto using same_tables_trans|].
    intros u s2 Hs2 [_ Hu]. assert (same s s2) as Hss by (by eauto using same_tables_trans). destruct u; [by apply Hfail|].
    unfold createUser. apply runs_bind, runs_get. destruct Hss as [Hc2 Ht2]. rewrite Hc2.
    destruct (createUserModel _ _ _ _ _ _) as [d|] eqn:Hd; [|by apply Hfail]. pose proof (createUserModel_spec _ _ _ _ _ _ _ Hd) as (Hid & Hname & Htype & Hvalid & Howner).
    apply runs_bind. eapply runs_stored; [apply does_AddUser| |].
    2: { intros e w' Hc Ht. cbn. by rewrite Ht. }
    intros [] w' Hc (Hd1 & _ & Hd2 & _ & Ht). apply runs_bind, runs_recorded. intros h. apply runs_ret. exists d. unfold tabs in Ht2.
    injection Ht2 as Htu Htg Htr. rewrite Hc2, Htu, Htg, Htr in Ht. split_and!; [done..| |exact Ht].
    destruct Hs1 as [_ Ht1]. injection Ht1 as Hu1 _ _. rewrite Hu1 in Hu. rewrite Hname.
    assert (UOwner d = owner) as ->; [|exact Hu]. unfold owner. rewrite Howner. by case_decide. }
  case_decide as Hown; [by apply runs_ret, Hrest|].
  eapply runs_stored_read; [apply does_GetUser|by intros ? ? [-> _]|intros e s1 Hs1; by apply Hfail'|].
  intros o s1 Hs1 _. apply runs_bind. destruct o as [o|]; [|done]. apply (runs_deref _ _ o); [done|].
  case_decide; [by apply Hfail|]. by apply runs_ret, Hrest.
Qed.

(** C15. A sub account that was created with success, under an id without [:] and
    [/], can be used: its row is stored as the request describes it, and once the
    cache has it, a login with the password of the request, and with no other, is
    answered with its token, with which the account API lets the caller in as that
    account, in its role and under its owner - if a hash matches the password it was
    made of and no other. *)
Theorem created_account_logs_in (s s' : auth_server) (draws : Draws) (ctx : RequestContext) (req : ApiUser) (rsp : AuthResponse)
    (uc : userCache) (owner password : string) (iv : bytes) :
  (forall salt p h, GenerateFromPassword salt p = Some h ->
     forall q, CompareHashAndPassword h q = if decide (q = p) then Match else Mismatched) ->
  let id := if decide (GetValue (auId req) = "") then dId draws else GetValue (auId req) in
  dVector draws = Some iv -> is_block iv -> occurs ":" (dToken draws) = false -> occurs ":" id = false -> occurs "/" id = false -> id <> "" ->
  CreateUser range AuthOption recording GenerateFromPassword draws ctx (Some req) s = Ret (s', Okay rsp) ->
  owner <> "" -> GetUserByName uc (GetValue (auName req)) owner = tblUser (storage s') !! id -> GetUserByID uc id = tblUser (storage s') !! id ->
  exists u, tblUser (storage s') !! id = Some u /\ UName u = GetValue (auName req) /\ UOwner u = ParseOwnerID ctx /\
    UType u = SubAccountUserRole /\ UValid u = true /\
    UID u = id /\ logs_in uc owner password (GetValue (auPassword req)) u /\
    exists ctx', lets_in uc (UToken u) ctx' /\ ParseUserID ctx' = id /\ ParseUserRole ctx' = SubAccountUserRole /\ ParseOwnerID ctx' = ParseOwnerID ctx.
Proof.
  intros Hb id Hiv Hblock Htk Hc Hsl Hne Hs Ho Hname Hcache.
  pose proof (CreateUser_creates s draws ctx req) as H. unfold runs in H. rewrite Hs in H.
  destruct H as (d & Hd & _ & Hod & _ & _ & Ht). pose proof (createUserModel_spec _ _ _ _ _ _ _ Hd) as (Hid & Hn & Hty & _ & How).
  unfold createUserModel in Hd. destruct (GenerateFromPassword _ _) as [pwd|] eqn:Hp; [|done].
  destruct (createUserToken _ _ _ _) as [token|] eqn:Htoken; [|done]. injection Hd as Hd.
  assert (UPassword d = pwd /\ UToken d = token) as [Hpd Htd] by (by rewrite <- Hd). clear Hd.
  cbn [auId auName auOwner auPassword set_auOwner] in Hid, Hn, How, Hp, Htoken. fold id in Hid, Htoken.
  assert (convertCreateUserRole (ParseUserRole ctx) = SubAccountUserRole) as Hsub by (rewrite How in Hod; by case_decide).
  rewrite Hsub in Hty, How. rewrite decide_True in How by done. injection Ht as Ht _ _. rewrite Hid in Ht.
  assert (tblUser (storage s') !! id = Some (initUser (aclock (storage s)) d)) as Hu by (rewrite Ht; apply lookup_insert_eq).
  rewrite Hu in Hname, Hcache. eexists. split; [exact Hu|]. split_and!; [done..| |].
  - unfold logs_in. cbn [UName initUser]. rewrite Hn. unfold Login. cbn [lrName lrOwner lrPassword].
    change (GetValue (Some (GetValue (auName req)))) with (GetValue (auName req)). change (GetValue (Some owner)) with owner. change (GetValue (Some password)) with password.
    rewrite (decide_False (P := owner = "")) by done. rewrite Hname. cbn [UPassword UToken UID UOwner UType UName initUser].
    rewrite Hpd, (Hb _ _ _ Hp), Hid, Hn. by case_decide.
  - pose proof (created_token_decodes iv (dToken draws) (Salt AuthOption) id "" token) as Hdec. rewrite Hiv in Htoken.
    rewrite !occurs_app, Hc, Hsl in Hdec. specialize (Hdec Hblock Htk eq_refl eq_refl Htoken).
    rewrite (decide_False (P := id = "")), bool_decide_true in Hdec by done.
    pose proof (verifyAuth_token uc token _ _ Hdec eq_refl Hcache) as Hv. rewrite decide_True in Hv by (by cbn).
    destruct Hv as (ctx' & Hv & H1 & H2 & H3). exists ctx'. cbn [UToken initUser]. rewrite Htd. split; [exact Hv|].
    rewrite H1, H2, H3. cbn. rewrite How. rewrite How in Hod. by rewrite decide_False by exact Hod.
Qed.

End secrets.
