(* ===== verification/AccountCases.v ===== *)
(** * The account API on concrete requests

    From the store as it is at the start: a sub account and a group are created
    and changed, and the theorems on the account API are applied to what happens.
    Then the histories that show what the code does not do as it means to. *)

From S2P Require Import Prelude Effects GoStrings Hash Utils BaseCache UserCache StrategyCache Cipher Token AuthCheck InstanceStore AccountStore AccountApi UserServer GroupServer StrategyServer AccountMachine AccountIntegrity.
From Stdlib Require Import ZArith Lia Ascii.
From stdpp Require Import base tactics list gmap strings.

Open Scope Z_scope.

(** ** The server *)

Definition in_order (A : Type) (m : gmap string A) : list (string * A) := map_to_list m.
Definition in_order_ok A (m : gmap string A) : in_order A m ≡ₚ map_to_list m := reflexivity _.
(** A password is its own hash, behind a dollar. *)
Definition hash_of (salt password : string) : option string := Some ("$" +:+ password).
Definition compare_hash (hash password : string) : comparison := if decide (hash = "$" +:+ password) then Match else Mismatched.
Definition no_namespace (id : string) : option string := None.
Definition no_service (id : string) : option (string * string * string) := None.

(** The cache once it has fetched everything. *)
Definition owner_name (t : gmap string User) (u : User) : string :=
  if decide (UOwner u = "") then UName u else match t !! UOwner u with Some o => UName o | None => "" end.
Definition cache_of (s : auth_server) : userCache :=
  let us := filter (fun kv => UValid kv.2 = true) (tblUser (storage s)) in
  mkUC newBaseCache None us (list_to_map ((fun kv => (NameLinkOwnerTemp (owner_name us kv.2) (UName kv.2), kv.2)) <$> map_to_list us))
    (filter (fun kv => GValid kv.2 = true) (tblGroup (storage s))) ∅.

#[local] Abbreviation serve uc := (serve in_order DefaultAuthConfig true hash_of compare_hash uc no_namespace no_service).

Definition after (c : account_call) (draws : Draws) (ctx : RequestContext) (s : auth_server) : auth_server :=
  match serve (cache_of s) c draws ctx s with Ret (s', _) => s' | Panics _ => s end.
Definition code_of (c : account_call) (draws : Draws) (ctx : RequestContext) (s : auth_server) : option Code :=
  match serve (cache_of s) c draws ctx s with Ret (_, r) => Some (arCode (answered r)) | Panics _ => None end.

Definition draws_of (id : string) : Draws := mkDraws id ("rule-" +:+ id, "rev-" +:+ id) "salt" (Some demo_iv) ("-" +:+ id).

(** ** A history *)

Definition main_id : string := UID (mainUser 0).
Definition empty_accounts : accounts := mkAccounts ∅ ∅ ∅ 100 [].
Definition started : auth_server := match initAuthStoreData 0 empty_accounts with Ret (w, _) => mkAuthServer w [] | Panics _ => mkAuthServer empty_accounts [] end.

Definition as_main : RequestContext := mkRequest (UToken (mainUser 0)) (Some true) (Some main_id) (Some main_id) (Some "polaris") (Some OwnerUserRole).
Definition as_sub (id : string) : RequestContext := mkRequest "" (Some false) (Some id) (Some main_id) (Some "dev") (Some SubAccountUserRole).

Definition user_of (id name password : option string) : ApiUser :=
  mkApiUser id name password None (Some "Polaris") None None None None None None None None.
Definition group_of (id name : option string) (users : list ApiUser) : ApiGroup :=
  mkApiGroup id name None None None None (Some users) None None None.

Definition new_dev : account_call := CreateUserCall (Some (user_of None (Some "dev") (Some "secret1"))).
Definition new_team : account_call := CreateGroupCall (Some (group_of None (Some "team") [user_of (Some "u-dev") None None])).
Definition change_password : ModifyUserPassword := mkModifyPassword (Some "u-dev") (Some "secret1") (Some "secret2").
Definition drop_dev : account_call := DeleteUserCall (Some (user_of (Some "u-dev") None None)).

Definition with_dev : auth_server := after new_dev (draws_of "u-dev") as_main started.
Definition with_team : auth_server := after new_team (draws_of "g-team") as_main with_dev.
Definition without_dev : auth_server := after drop_dev (draws_of "x") as_main with_team.

Example account_codes :
  code_of new_dev (draws_of "u-dev") as_main started = Some ExecuteSuccess /\
  code_of new_team (draws_of "g-team") as_main with_dev = Some ExecuteSuccess /\
  code_of drop_dev (draws_of "x") as_main with_team = Some ExecuteSuccess.
Proof. vm_compute. by split_and!. Qed.

Definition unused_b (t : tables) (id : string) : bool :=
  bool_decide (t.1.1 !! id = None) && bool_decide (t.1.2 !! id = None) && bool_decide (t.2 !! id = None) &&
  bool_decide (map_Forall (fun _ r => id ∉ rUsers r /\ id ∉ rGroups r) t.2).
Lemma unused_b_spec t id : unused_b t id = true -> unused t id.
Proof.
  unfold unused_b. rewrite !andb_true_iff, !bool_decide_eq_true. intros [[[H1 H2] H3] H4]. split_and!; [done..|]. intros k r Hr. exact (H4 k r Hr).
Qed.

#[local] Abbreviation reachable := (reachable_accounts in_order DefaultAuthConfig true hash_of compare_hash).

Lemma started_reachable : reachable started.
Proof.
  apply (ra_start in_order DefaultAuthConfig true hash_of compare_hash 0 100 []).
  unfold started, empty_accounts. destruct (initAuthStoreData 0 _) as [[w [[]|e]]|why] eqn:Hw; [done|exfalso..].
  - assert (match initAuthStoreData 0 empty_accounts with Ret (_, Okay _) => true | _ => false end = true) as H by (vm_compute; reflexivity).
    unfold empty_accounts in H. by rewrite Hw in H.
  - assert (match initAuthStoreData 0 empty_accounts with Ret (_, Okay _) => true | _ => false end = true) as H by (vm_compute; reflexivity).
    unfold empty_accounts in H. by rewrite Hw in H.
Qed.

Lemma reachable_after c draws ctx s code :
  reachable s -> forallb (unused_b (tabs (storage s))) (new_ids draws c) = true -> code_of c draws ctx s = Some code -> reachable (after c draws ctx s).
Proof.
  intros Hs Hids Hc. unfold after, code_of in *. destruct (serve _ _ _ _ _) as [[s' r]|why] eqn:Hr; [|done].
  eapply (ra_call in_order DefaultAuthConfig true hash_of compare_hash); [exact Hs| |exact Hr].
  intros id Hin. apply unused_b_spec. rewrite forallb_forall in Hids. apply Hids. by apply list_elem_of_In.
Qed.

Lemma with_dev_reachable : reachable with_dev.
Proof. by apply (reachable_after _ _ _ _ ExecuteSuccess started_reachable); vm_compute. Qed.
Lemma with_team_reachable : reachable with_team.
Proof. by apply (reachable_after _ _ _ _ ExecuteSuccess with_dev_reachable); vm_compute. Qed.
Lemma without_dev_reachable : reachable without_dev.
Proof. by apply (reachable_after _ _ _ _ ExecuteSuccess with_team_reachable); vm_compute. Qed.

Lemma with_dev_keyed : keyed (tabs (storage with_dev)).
Proof. exact (in_keyed _ (reachable_integrity in_order in_order_ok DefaultAuthConfig true hash_of compare_hash _ with_dev_reachable)). Qed.

#[local] Opaque started with_dev with_team without_dev.

Definition valid_of (t : gmap string User) (id : string) : option bool := UValid <$> t !! id.

(** ** The theorems on it *)

Lemma handlers_follow_the_machine_witness :
  valid_of (tblUser (storage with_dev)) "u-dev" = Some true /\ code_of drop_dev (draws_of "x") as_main with_dev = Some ExecuteSuccess /\
  transition (cache_of with_dev) as_main 100 ["x"; "rule-x"] (tabs (storage with_dev)) (tabs (storage (after drop_dev (draws_of "x") as_main with_dev))).
Proof.
  split; [vm_compute; reflexivity|]. split; [vm_compute; reflexivity|].
  pose proof (handlers_follow_the_machine in_order in_order_ok DefaultAuthConfig true hash_of compare_hash (cache_of with_dev) no_namespace no_service
    drop_dev (draws_of "x") as_main with_dev with_dev_keyed) as H.
  assert (code_of drop_dev (draws_of "x") as_main with_dev = Some ExecuteSuccess) as Hc by (vm_compute; reflexivity).
  assert (aclock (storage with_dev) = 100) as Hn by (vm_compute; reflexivity). rewrite Hn in H.
  unfold after, code_of in *. destruct (serve _ _ _ _ _) as [[s' r]|why]; [exact H|discriminate Hc].
Defined.

Lemma default_strategy_per_account_witness :
  valid_of (tblUser (storage with_team)) "u-dev" = Some true /\ (exists d,
    bolt_GetDefaultStrategyDetailByPrincipal in_order "u-dev" PrincipalUser (storage with_team) = Ret (storage with_team, Okay d) /\
    Principals d = [mkPrincipal "u-dev" PrincipalUser]) /\
  bolt_GetDefaultStrategyDetailByPrincipal in_order "u-dev" PrincipalUser (storage without_dev) = Ret (storage without_dev, Fail Unknown).
Proof.
  split; [vm_compute; reflexivity|]. split.
  - destruct (default_strategy_per_account in_order in_order_ok DefaultAuthConfig true hash_of compare_hash with_team PrincipalUser "u-dev"
      with_team_reachable (or_introl eq_refl)) as [H _]; [vm_compute; reflexivity|]. destruct H as (d & Hd & _ & _ & Hp); [|exists d; split; [exact Hd|exact Hp]].
    assert (valid_of (tblUser (storage with_team)) "u-dev" = Some true) as Hv by (vm_compute; reflexivity).
    unfold live. rewrite decide_True by done. unfold valid_of in Hv. change ((tabs (storage with_team)).1.1) with (tblUser (storage with_team)).
    destruct (tblUser (storage with_team) !! "u-dev") as [u|]; [|done]. exists u. split; [done|]. by injection Hv.
  - apply (default_strategy_per_account in_order in_order_ok DefaultAuthConfig true hash_of compare_hash without_dev PrincipalUser "u-dev"
      without_dev_reachable (or_introl eq_refl)); [vm_compute; reflexivity|].
    assert (valid_of (tblUser (storage without_dev)) "u-dev" = Some false) as Hv by (vm_compute; reflexivity).
    unfold live. rewrite decide_True by done. unfold valid_of in Hv. change ((tabs (storage without_dev)).1.1) with (tblUser (storage without_dev)).
    intros (u & Hu & Hx). rewrite Hu in Hv. cbn in Hv. congruence.
Defined.

(** The ids that [drop_dev] draws are not used by anybody. *)
Lemma drop_dev_ids id : id ∈ new_ids (draws_of "x") drop_dev -> unused (tabs (storage with_dev)) id.
Proof.
  intros Hin. apply unused_b_spec. assert (forallb (unused_b (tabs (storage with_dev))) (new_ids (draws_of "x") drop_dev) = true) as H by (vm_compute; reflexivity).
  rewrite forallb_forall in H. apply H. by apply list_elem_of_In.
Qed.

Definition dropped : auth_server := after drop_dev (draws_of "x") as_main with_dev.
Lemma served_dropped : exists r, serve (cache_of with_dev) drop_dev (draws_of "x") as_main with_dev = Ret (dropped, r).
Proof.
  assert (code_of drop_dev (draws_of "x") as_main with_dev = Some ExecuteSuccess) as Hc by (vm_compute; reflexivity).
  unfold dropped, after, code_of in *. destruct (serve _ _ _ _ _) as [[s' r]|why]; [by exists r|done].
Qed.
#[local] Opaque dropped.

Lemma valid_at t id v : valid_of t id = Some v -> exists u, t !! id = Some u /\ UValid u = v.
Proof. unfold valid_of. destruct (t !! id) as [u|]; [|done]. intros [= <-]. by exists u. Qed.

Lemma account_changes_are_confined_witness :
  exists u u', tblUser (storage with_dev) !! "u-dev" = Some u /\ tblUser (storage dropped) !! "u-dev" = Some u' /\
    UValid u' = false /\ ("u-dev" = main_id \/ UOwner u = main_id) /\ account_identity u u'.
Proof.
  destruct (valid_at (tblUser (storage with_dev)) "u-dev" true) as (u & Hu & Hv); [vm_compute; reflexivity|].
  destruct (valid_at (tblUser (storage dropped)) "u-dev" false) as (u' & Hu' & Hv'); [vm_compute; reflexivity|].
  destruct served_dropped as [r Hr].
  assert (exists a, GetUserByID (cache_of with_dev) (ParseUserID as_main) = Some a /\ UType a <> AdminUserRole) as (a & Ha & Hrole).
  { destruct (GetUserByID (cache_of with_dev) (ParseUserID as_main)) as [a|] eqn:Ha; [|vm_compute in Ha; discriminate Ha].
    exists a. split; [done|]. assert (UType <$> GetUserByID (cache_of with_dev) (ParseUserID as_main) = Some OwnerUserRole) as Ht by (vm_compute; reflexivity).
    rewrite Ha in Ht. cbn in Ht. injection Ht as Ht. rewrite Ht. discriminate. }
  pose proof (account_changes_are_confined in_order in_order_ok DefaultAuthConfig true hash_of compare_hash (cache_of with_dev) no_namespace no_service
    drop_dev (draws_of "x") (mkRequest (UToken (mainUser 0)) None None None None None) as_main true true with_dev dropped a r "u-dev"
    with_dev_keyed drop_dev_ids ltac:(vm_compute; reflexivity) Ha Hrole Hr) as H.
  rewrite Hu, Hu' in H. destruct H as [Hown (u'' & Hu'' & Hid)]; [congruence|]. injection Hu'' as <-.
  exists u, u'. split_and!; [done..| |done]. exact Hown.
Defined.

Lemma hash_law salt p h : hash_of salt p = Some h -> forall q, compare_hash h q = if decide (q = p) then Match else Mismatched.
Proof. intros [= <-] q. unfold compare_hash. repeat case_decide; try done; try congruence. by simplify_eq. Qed.

Definition draws_again : Draws := mkDraws "" ("", "") "salt" (Some demo_iv) "-again".
Definition password_changed : auth_server := after (UpdatePasswordCall (Some change_password)) draws_again as_main with_dev.
Lemma served_password : exists rsp,
  UpdateUserPassword hash_of compare_hash draws_again as_main (Some change_password) with_dev = Ret (password_changed, Okay rsp).
Proof.
  assert (code_of (UpdatePasswordCall (Some change_password)) draws_again as_main with_dev = Some ExecuteSuccess /\
    match serve (cache_of with_dev) (UpdatePasswordCall (Some change_password)) draws_again as_main with_dev with Ret (_, Okay _) => true | _ => false end = true)
    as [Hc Ho] by (vm_compute; by split).
  unfold password_changed, after, code_of in *. cbn [AccountMachine.serve] in *.
  destruct (UpdateUserPassword _ _ _ _ _ _) as [[s' [rsp|rsp]]|why]; [by exists rsp|done|done].
Qed.
#[local] Opaque password_changed.

Lemma password_change_takes_effect_witness :
  exists u, tblUser (storage password_changed) !! "u-dev" = Some u /\
    Login compare_hash (cache_of password_changed) (mkLogin (Some (UName u)) (Some "polaris") (Some "secret2")) =
      mkAuthResponse ExecuteSuccess (AboutLogin (mkLoginResponse (UID u) (UOwner u) (UToken u) (UName u) (UserRoleNames (UType u)))) /\
    Login compare_hash (cache_of password_changed) (mkLogin (Some (UName u)) (Some "polaris") (Some "secret1")) = NewAuthResponse NotAllowedAccess.
Proof.
  destruct served_password as [rsp Hr].
  assert (GetUserByName (cache_of password_changed) "dev" "polaris" = tblUser (storage password_changed) !! "u-dev") as Hn by (vm_compute; reflexivity).
  assert ("polaris" <> "") as Hne by discriminate.
  destruct (tblUser (storage password_changed) !! "u-dev") as [u|] eqn:Hu; [|vm_compute in Hn; discriminate Hn].
  assert (UName <$> tblUser (storage password_changed) !! "u-dev" = Some "dev") as Hname by (vm_compute; reflexivity).
  rewrite Hu in Hname. cbn in Hname. injection Hname as Hname. rewrite <- Hname in Hn.
  pose proof (password_change_takes_effect hash_of compare_hash draws_again as_main change_password with_dev password_changed rsp
    (cache_of password_changed) u "polaris" "secret2" hash_law with_dev_keyed Hr Hu Hn Hne) as Hl.
  pose proof (password_change_takes_effect hash_of compare_hash draws_again as_main change_password with_dev password_changed rsp
    (cache_of password_changed) u "polaris" "secret1" hash_law with_dev_keyed Hr Hu Hn Hne) as Hl2.
  exists u. split; [reflexivity|]. split; [exact Hl|exact Hl2].
Defined.

Definition dev_only : ApiUser := user_of (Some "u-dev") None None.
Definition token_reset : auth_server := after (ResetUserTokenCall (Some dev_only)) draws_again as_main with_dev.
Definition old_token : string := match tblUser (storage with_dev) !! "u-dev" with Some u => UToken u | None => "" end.
Definition dev_token : string := match createUserToken (Some demo_iv) "-again" (Salt DefaultAuthConfig) "u-dev" with Okay t => t | Fail _ => "" end.

Lemma served_reset :
  ResetUserToken DefaultAuthConfig true draws_again as_main (Some dev_only) with_dev =
    Ret (token_reset, Okay (NewUserResponse ExecuteSuccess (Some (set_auToken dev_only dev_token)))).
Proof.
  assert (match serve (cache_of with_dev) (ResetUserTokenCall (Some dev_only)) draws_again as_main with_dev with
          | Ret (_, Okay rsp) => rsp = NewUserResponse ExecuteSuccess (Some (set_auToken dev_only dev_token)) | _ => False end) as Ho by (vm_compute; reflexivity).
  unfold token_reset, after. cbn [AccountMachine.serve] in *. destruct (ResetUserToken _ _ _ _ _ _) as [[s' [rsp|rsp]]|why]; [by subst rsp|done|done].
Qed.
#[local] Opaque token_reset.

(** The new token lets in, the old one does not. *)
Lemma reset_token_replaces_the_old_witness :
  (exists ctx, verifyAuth DefaultAuthConfig (cache_of token_reset) (mkRequest dev_token None None None None None) false false = Ret (Okay ctx)) /\
  ~ exists ctx, verifyAuth DefaultAuthConfig (cache_of token_reset) (mkRequest old_token None None None None None) false false = Ret (Okay ctx).
Proof.
  assert (GetUserByID (cache_of token_reset) (GetValue (auId dev_only)) = tblUser (storage token_reset) !! GetValue (auId dev_only)) as Hc by (vm_compute; reflexivity).
  split.
  - apply (reset_token_replaces_the_old DefaultAuthConfig true draws_again as_main dev_only with_dev token_reset _ (cache_of token_reset)
      dev_token (mkOperator dev_token "u-dev" "" UnknownUserRole true false false) with_dev_keyed served_reset Hc);
      [vm_compute; reflexivity|reflexivity|reflexivity|reflexivity].
  - intros H. apply (reset_token_replaces_the_old DefaultAuthConfig true draws_again as_main dev_only with_dev token_reset _ (cache_of token_reset)
      old_token (mkOperator old_token "u-dev" "" UnknownUserRole true false false) with_dev_keyed served_reset Hc) in H;
      [vm_compute in H; discriminate H|vm_compute; reflexivity|reflexivity|reflexivity].
Defined.

Definition dev_request : ApiUser := user_of None (Some "dev") (Some "secret1").
Lemma served_new_dev : exists rsp,
  CreateUser in_order DefaultAuthConfig true hash_of (draws_of "u-dev") as_main (Some dev_request) started = Ret (with_dev, Okay rsp).
Proof.
  assert (match serve (cache_of started) new_dev (draws_of "u-dev") as_main started with Ret (_, Okay _) => true | _ => false end = true) as Ho by (vm_compute; reflexivity).
  assert (with_dev = after new_dev (draws_of "u-dev") as_main started) as -> by reflexivity.
  unfold after, new_dev in *. cbn [AccountMachine.serve] in *. change (Some (user_of None (Some "dev") (Some "secret1"))) with (Some dev_request) in *.
  destruct (CreateUser _ _ _ _ _ _ _ _) as [[s' [rsp|rsp]]|why]; [by exists rsp|done|done].
Qed.

Lemma created_account_logs_in_witness :
  exists u, tblUser (storage with_dev) !! "u-dev" = Some u /\
    Login compare_hash (cache_of with_dev) (mkLogin (Some (UName u)) (Some "polaris") (Some "secret1")) =
      mkAuthResponse ExecuteSuccess (AboutLogin (mkLoginResponse (UID u) (UOwner u) (UToken u) (UName u) (UserRoleNames (UType u)))) /\
    exists ctx, verifyAuth DefaultAuthConfig (cache_of with_dev) (mkRequest (UToken u) None None None None None) false false = Ret (Okay ctx) /\
      ParseUserID ctx = "u-dev" /\ ParseOwnerID ctx = main_id.
Proof.
  destruct served_new_dev as [rsp Hr].
  assert (is_block demo_iv) as Hb by (split; [reflexivity|apply (bool_decide_eq_true_1 _); vm_compute; reflexivity]).
  assert (GetUserByName (cache_of with_dev) (GetValue (auName dev_request)) "polaris" = tblUser (storage with_dev) !! "u-dev") as Hn by (vm_compute; reflexivity).
  assert (GetUserByID (cache_of with_dev) "u-dev" = tblUser (storage with_dev) !! "u-dev") as Hc by (vm_compute; reflexivity).
  assert ("u-dev" <> "" /\ "polaris" <> "") as [Hne Hne'] by (split; discriminate).
  destruct (created_account_logs_in in_order in_order_ok DefaultAuthConfig true hash_of compare_hash started with_dev (draws_of "u-dev") as_main dev_request rsp
    (cache_of with_dev) "polaris" "secret1" demo_iv hash_law eq_refl Hb eq_refl eq_refl eq_refl Hne Hr Hne' Hn Hc)
    as (u & Hu & _ & _ & _ & _ & Hid & Hl & ctx & Hv & H1 & _ & H3).
  exists u. split; [exact Hu|]. split; [exact Hl|]. exists ctx. split; [exact Hv|]. split; [exact H1|exact H3].
Defined.

Lemma deletion_removes_account_witness :
  exists s' u, tblUser (storage with_dev) !! "u-dev" = Some u /\
    DeleteUser in_order true as_main (Some dev_only) with_dev = Ret (s', Okay (NewUserResponse ExecuteSuccess (Some dev_only))) /\
    tblUser (storage s') = <["u-dev" := dropUser 100 u]> (tblUser (storage with_dev)).
Proof.
  destruct (valid_at (tblUser (storage with_dev)) "u-dev" true) as (u & Hu & Hv); [vm_compute; reflexivity|].
  assert ((fun u => (UID u, UOwner u, UType u)) <$> tblUser (storage with_dev) !! "u-dev" = Some ("u-dev", main_id, SubAccountUserRole)) as Hf by (vm_compute; reflexivity).
  rewrite Hu in Hf. cbn in Hf. injection Hf as Hid Hown Ht.
  assert (afaults (storage with_dev) = []) as Hf by (vm_compute; reflexivity).
  assert (checkUserViewPermission as_main u = true) as Hp by (unfold checkUserViewPermission; rewrite Hid, Hown; vm_compute; reflexivity).
  assert ("u-dev" <> "") as Hne by discriminate. assert (UID u <> ParseOwnerID as_main) as Hself by (rewrite Hid; discriminate).
  destruct (deletion_removes_account in_order in_order_ok DefaultAuthConfig true hash_of compare_hash with_dev as_main dev_only u with_dev_reachable
    Hf Hne Hu Hv Hp Hself) as (s' & k & r & Hs & _ & _ & Hu').
  - intros E. rewrite Ht in E. discriminate E.
  - exists s', u. split; [exact Hu|]. split; [exact Hs|]. change (tblUser (storage s')) with (tabs (storage s')).1.1. rewrite Hu'. cbn [fst]. rewrite Hid.
    assert (aclock (storage with_dev) = 100) as -> by (vm_compute; reflexivity). reflexivity.
Defined.

(** ** What the code does not do *)

(** The administrator cannot create main accounts, which is all the administrator may
    create: the store does not take a user without an owner. *)
Lemma administrator_creates_nobody s s' draws ctx req rsp :
  ParseUserRole ctx = AdminUserRole ->
  CreateUser in_order DefaultAuthConfig true hash_of draws ctx (Some req) s <> Ret (s', Okay rsp).
Proof.
  intros Ha Hs. pose proof (CreateUser_creates in_order in_order_ok DefaultAuthConfig true hash_of s draws ctx req) as H. unfold runs in H. rewrite Hs in H.
  destruct H as (d & Hd & _ & Ho & _). apply createUserModel_spec in Hd as (_ & _ & _ & _ & Hown). by rewrite Ha in Hown.
Qed.

(** A user that is created with the id of another takes its row, and leaves it with
    two default strategies, so that it cannot be deleted. *)
Definition take_dev : account_call := CreateUserCall (Some (user_of (Some "u-dev") (Some "ops") (Some "secret3"))).
Definition taken : auth_server := after take_dev (draws_of "y") as_main with_dev.
Lemma chosen_id_takes_an_account :
  code_of take_dev (draws_of "y") as_main with_dev = Some ExecuteSuccess /\
  UName <$> tblUser (storage with_dev) !! "u-dev" = Some "dev" /\ UName <$> tblUser (storage taken) !! "u-dev" = Some "ops" /\
  code_of drop_dev (draws_of "z") as_main taken = Some StoreLayerException.
Proof. vm_compute. by split_and!. Qed.

(** The rows of deleted users count where one is expected: a name that was deleted and used
    again cannot be looked up any more. *)
Definition dev_again : auth_server := after new_dev (draws_of "u-dev2") as_main without_dev.
Lemma reused_name_is_an_error :
  code_of new_dev (draws_of "u-dev2") as_main without_dev = Some ExecuteSuccess /\
  code_of new_dev (draws_of "u-dev3") as_main with_dev = Some UserExisted /\
  code_of new_dev (draws_of "u-dev3") as_main dev_again = Some StoreLayerException.
Proof. vm_compute. by split_and!. Qed.

(** A group keeps its deleted members, and showing it dereferences what the cache does not have. *)
Definition show_team (s : auth_server) := ViewGroup (fun _ => "") (cache_of s) as_main (group_of (Some "g-team") None []).
Lemma deleted_member_panics_the_view :
  show_team without_dev without_dev = Panics NilDereference /\
  match show_team with_team with_team with Ret (_, Okay rsp) => arCode rsp = ExecuteSuccess | _ => False end.
Proof. vm_compute. by split. Qed.

(** The owner of whom a sub account is made is not found: the pointer is used all the same. *)
Lemma missing_owner_panics s draws ctx req :
  checkCreateUser (set_auOwner req (ParseOwnerID ctx)) = None -> ParseUserRole ctx <> AdminUserRole -> ParseOwnerID ctx <> "" ->
  tblUser (storage s) !! ParseOwnerID ctx = None -> afaults (storage s) = [] ->
  CreateUser in_order DefaultAuthConfig true hash_of draws ctx (Some req) s = Panics NilDereference.
Proof.
  intros Hc Ha Ho Hn Hf. unfold CreateUser, mbind, call_bind, deref. cbn. rewrite Hc. unfold convertCreateUserRole. rewrite (decide_False (P := _ = AdminUserRole)) by done.
  rewrite (decide_True (P := SubAccountUserRole = SubAccountUserRole)) by done. unfold stored_or, orelse, on_accounts, bolt_GetUser.
  rewrite !(decide_False (P := ParseOwnerID ctx = "")) by done.
  unfold view, atomically, mbind, call_bind. rewrite Hf. cbn. by rewrite Hn.
Qed.

(** A strategy that is renamed with success keeps its name. *)
Definition strategy_of (id name : option string) : ApiStrategy := mkApiStrategy id name None None None None "" None None None.
Definition new_rule : account_call := CreateStrategyCall (Some (strategy_of None (Some "readers"))).
Definition rename_rule : account_call :=
  UpdateStrategyCall (Some (mkApiModifyStrategy (Some "r-1") (Some "writers") None None None None None)).
Definition with_rule : auth_server := after new_rule (draws_of "r-1") as_main started.
Lemma new_name_is_lost :
  code_of new_rule (draws_of "r-1") as_main started = Some ExecuteSuccess /\ code_of rename_rule (draws_of "v") as_main with_rule = Some ExecuteSuccess /\
  rName <$> tblStrategy (storage (after rename_rule (draws_of "v") as_main with_rule)) !! "r-1" = Some "readers".
Proof. vm_compute. by split_and!. Qed.

(** A change of a default strategy that mentions no principals dereferences nil. *)
Definition open_default : account_call := UpdateStrategyCall (Some (mkApiModifyStrategy (Some "rule-u-dev") None (Some "new") None None None None)).
Lemma default_strategy_without_principals_panics :
  serve (cache_of with_dev) open_default (draws_of "v") as_main with_dev = Panics NilDereference.
Proof. vm_compute. reflexivity. Qed.

(** The owner does not filter strategies unless a principal is asked for. *)
Lemma owner_filter_lets_others_pass r owner : listed {["owner" := owner]} r = rValid r.
Proof.
  unfold listed, given. rewrite lookup_singleton_eq, !lookup_singleton_ne by done. by rewrite orb_true_r, !andb_true_r.
Qed.

(** The name does not find the groups of a user. *)
Lemma groups_of_a_user_have_no_name filters name g :
  filters !! "name" = Some name -> trimStar name <> "" -> groupOfUser filters g = false.
Proof.
  intros Hn Ht. unfold groupOfUser, given. rewrite Hn. assert (Contains "" (trimStar name) = false) as ->; [|by rewrite andb_false_r].
  by destruct (trimStar name).
Qed.

(** A default strategy as it is created is never fetched: its time is Go's zero time. *)
Lemma default_strategy_is_not_fetched uuids role id name owner mtime : 0 <= mtime -> ~ mtime < rModifyTime (defaultRule uuids role id name owner).
Proof. cbn. assert (zeroTimeNanos < 0) by (vm_compute; reflexivity). lia. Qed.

(** Cleaning up after a resource was deleted asks for the strategy without id. *)
Lemma deleted_resource_stays_linked :
  match bolt_RemoveStrategyResources in_order [("", mkResource Services "svc")] (storage with_dev) with Ret (_, Fail Unknown) => True | _ => False end.
Proof. vm_compute. done. Qed.

(** The total of a group's users counts those that are filtered out. *)
Lemma total_counts_filtered_members :
  match bolt_GetUsers in_order {["group_id" := "g-team"; "name" := "nobody"]} 0 10 (storage with_team) with
  | Ret (_, Okay (total, rows)) => total = 1 /\ rows = []
  | _ => False
  end.
Proof. vm_compute. by split. Qed.

(** A group that is changed after it was deleted is there again. *)
Lemma changed_group_is_revived w w' m g :
  bolt_UpdateGroup m w = Ret (w', Okay ()) -> tblGroup w !! mgID m = Some g -> GValid <$> tblGroup w' !! GID g = Some true.
Proof.
  intros Hw Hg. pose proof (does_UpdateGroup m w) as H. unfold does, runs in H. rewrite Hw in H. destruct H as [_ (row & _ & Hrow & Ht)].
  rewrite Hg in Hrow. injection Hrow as <-. injection Ht as _ -> _. by rewrite lookup_insert_eq.
Qed.
